(* ===== verification/_CoqProject ===== *)
-Q . S2P
Prelude.v
Utf8.v
Trace.v
Core.v
Runner.v
Execution.v
Infrastructure.v
Preparation.v
Control.v
ToolAudit.v
AuditText.v
GrpcStreams.v
GrpcBridge.v
ShellGrammar.v
SshBridge.v
Paths.v
Net.v
SshManager.v
OpenClawDialect.v
Sandbox.v
Target.v
NativeSandbox.v
Deployments.v
BridgeSession.v
BridgeService.v
GoTime.v
Redaction.v
Docker.v
DockerTheorems.v
Credentials.v
ConfigDeployment.v
ConfigModel.v
Config.v
GatewayFrame.v
Gateway.v
GatewaySocket.v
GatewayRun.v
GatewaySafety.v
GatewayCallers.v
GatewayTheorems.v
Audio.v
Realtime.v
RealtimeSession.v
RealtimeTheorems.v
ConfigLoad.v
HarnessRuntime.v
DockerExec.v
DockerContract.v
HarnessManager.v
HarnessLife.v
HarnessFiles.v
HarnessConfig.v
DockerFiles.v
DockerNetwork.v
JsonFields.v
HermesClient.v
HermesConfig.v
OpenClawConfig.v
HarnessWorld.v
Voice.v
HarnessEvidence.v
Hermes.v
HermesLife.v
OpenClawResult.v
OpenClaw.v
OpenClawTheorems.v
Monitor.v
DockerResources.v
DockerImages.v
Kubernetes.v
KubeExec.v
KubeTheorems.v
KubeNetwork.v
KubeExecTheorems.v
KubeResources.v
MonitorRecorder.v
