(* ===== verification/Prelude.v ===== *)
(** * ARIES: a verification development

    ARIES runs agents on benchmark tasks. A run starts a sandbox for each task, a bridge
    through which the agent's tool calls reach the sandbox, an agent harness (Hermes or
    OpenClaw, each in a runtime of its own), and records the evidence: the audit log of
    the tool calls, the artifacts of the harness, the resource samples. This development
    translates the Go code of these parts and proves what they promise to each other:
    what was started is stopped or still owned, evidence is complete and bounded, no key
    leaves in it, a command runs in its one canonical reading.

    ** Conventions

    The code's functions keep their names, and a record's fields keep Go's behind a
    prefix of the struct. A Go error is an [err] ([Prelude]), built as [errors.New],
    [fmt.Errorf] with [%w] and [errors.Join] build it; [nil] is [None]. A computation with
    effects is a function [M W A] of a world [W]: the operations of other systems (files,
    clocks, containers, sockets, timers) are classes or records over [W], so a theorem
    holds for every behaviour of theirs, and [let*] sequences calls. What is seen of a
    computation is stated over a world that also keeps a trace ([Trace], [emits]). Where
    goroutines share state, the critical sections are functions on that state and an
    inductive step relation interleaves them with every outcome of the operations outside
    the lock; the theorems are on all reachable states. Bytes are lists of [ascii],
    integers are [Z] with their width written out where it matters, a float64 is
    [SpecFloat]'s binary64. Standard library functions whose text is data (JSON, YAML, tar,
    URLs, IP addresses) are parameters ([HarnessWorld.Library] for the harnesses).

    ** Parts

    - The shared vocabulary: [Prelude] (errors, effects, strings, tactics), [Utf8] (runes),
      [Trace] (the trace logic), [Paths], [Net], [GoTime] ([path/filepath], [net] and
      [strconv], [time]).
    - pkg/core: [Core].
    - pkg/runner: [Runner], [runTask] with its deferred cleanup and [Run], over the roles as
      records of operations. Theorems: evaluation only after isolation, everything started
      is stopped or reported, and the error tells every failure.
    - internal/app: [Execution] (admission of the tasks under an arrival profile, as a step
      relation), [Infrastructure] ([runWithInfrastructure]), [Preparation].
    - pkg/bridge: [Control] (the server that registers sandboxes), [Target],
      [NativeSandbox], [BridgeSession], [BridgeService] (the run's side, with retries);
      its transports are [GrpcStreams], [GrpcBridge] (pkg/bridge/grpc) and [ShellGrammar],
      [SshBridge], [SshManager], [OpenClawDialect] (pkg/bridge/ssh); [ToolAudit],
      [AuditText] are pkg/bridge/internal/bridgekit. Theorems: the audit writer's files
      hold what was admitted, sequenced and bounded; a command is decoded exactly when it
      is the canonical quoting of its tokens; only a prepared command is run; a stop ends
      with nothing left running or an error, and can be completed.
    - pkg/sandbox and pkg/containerimage: [Sandbox]; pkg/deployment: [Deployments], the
      request and the interface the others use.
    - pkg/deployment/docker: [Docker] (docker.go: the life of a container), [DockerExec]
      (exec.go), [DockerFiles] (files.go), [DockerNetwork] (environment.go),
      [DockerResources] (resources.go, in binary64), [DockerImages] (images.go, build.go).
      Theorems: [DockerTheorems] (a failed creation leaves nothing behind, or names what it
      leaves, or says that it cannot tell; a confirmed stop means a container seen stopped
      or gone; a container that is passed is the requested one), [DockerContract] (its
      client meets the interface the harnesses are proved against), and at the end of
      [DockerFiles] (a file is replaced by a rename of complete content), [DockerNetwork],
      [DockerResources] and [DockerImages].
    - pkg/deployment/kubernetes: [Kubernetes] (manifest.go: names, options, checks, the
      manifest of a pod and what is read back of one; kubernetes.go, portforward.go,
      bridge.go: runs of kubectl, the life of a pod, port-forwards), [KubeExec] (exec.go,
      files.go), [KubeNetwork] (environment.go), [KubeResources] (resources.go). Theorems:
      [KubeTheorems] (the manifest of an accepted request reads back as the pod that
      validation accepts; a confirmed stop has seen the pod gone; over a truthful cluster
      the deployment meets the interface the harnesses are proved against),
      [KubeExecTheorems] (a file is replaced by one rename of complete content),
      [KubeNetwork] (what the policies admit, by the rules of the NetworkPolicy API, and
      that the objects of a task are removed), [KubeResources] (readings are of the run's
      own pods, in increasing time).
    - pkg/config: [ConfigModel] (data), [ConfigDeployment], [Config] (every check and
      default), [ConfigLoad] (files). Theorem: an accepted experiment is well formed.
    - pkg/harness: [Redaction], [HarnessFiles] (pkg/harness/internal/privatefiles),
      [Credentials] (key buffers by address, zeroed but for the copies that a JSON decoder is
      given), [HarnessRuntime] (ownership and stop attempts), [HarnessConfig], [HarnessWorld]. [HarnessManager] composes them over the
      class [Native], which a native manager implements; [HarnessLife] proves the life of a
      manager against [NativeLaws], and [HermesLife] and [OpenClawTheorems]
      discharge these laws ([HarnessEvidence] has the lemmas they share, and
      those on keys in results and files). [JsonFields] decodes JSON into structures.
    - pkg/harness/hermes: [HermesClient] (the HTTP client), [HermesConfig], [Hermes].
    - pkg/harness/openclaw: [OpenClawConfig], [OpenClawResult], [OpenClaw], with the proofs
      in [OpenClawTheorems]; the gateway client is [GatewayFrame],
      [Gateway] (state and critical sections), [GatewaySocket], [GatewayRun] (the machines
      of its goroutines and their interleaving), with the proofs in [GatewaySafety],
      [GatewayCallers], [GatewayTheorems]; the realtime session is [Realtime], with the
      proofs in [RealtimeSession], [RealtimeTheorems].
    - pkg/audio: [Audio] (audio.go) and [Voice] (voice_instruction.go).
    - pkg/monitor: [Monitor], [MonitorRecorder].
    ** Bounds and fuel

    A loop of the code that is not structural has a fuel argument, and running out of it is
    a value of its own ([None]), except where a proof shows it is not reached. The chunks of
    a WAV file: the length of the file ([wav_read_back]). The frames a realtime session
    reads: two more than the frames and clock ticks the gateway still has ([session_ends];
    [run_session] takes an exhausted fuel for a deadline). The polling of Hermes and the
    readiness probes end with the context's deadline, which the fuel stands for. The
    links of a path in a container are followed with a fuel of the length of the path and
    the bound on the targets, which is enough ([docker_write_returns]). The
    attempts to reach a port-forward are the fuel of [await_forward], which ends as the
    code does at its start timeout. The connection generations of a gateway client are not
    wrapped at 64 bits.

    ** Not modelled

    The model servers, the benchmarks' loaders and the host checks of a run are not
    modelled: they are drivers of processes, of data sets and of the operating system. Of
    a sandbox, its life and its checks are modelled, the archives and commands that it
    hands on to its deployment are not.
    Docker's API, kubectl and its cluster, Prometheus, TLS and the gRPC and SSH wire
    protocols, and the encodings named above are outside src/ and are interfaces. Loggers are left out: no
    result depends on them. The construction of the roles (cmd, internal/app wiring) is
    glue. An [append] that writes into the spare capacity of a shared array does not occur
    in what is modelled and slices are values. The resampling is without a fused
    multiply-add, which Go may use on some platforms. A read out of range in it would end
    the process and is an error here ([Audio.out_of_range]). *)

From Stdlib Require Export ZArith Lia.
From stdpp Require Export base list gmap sorting strings pretty.
From Stdlib Require Import SpecFloat.
From Stdlib Require Export Ascii String.
From stdpp Require Export base list strings.

Declare Scope go_scope.
Delimit Scope go_scope with go.
Open Scope go_scope.
Open Scope Z_scope.

#[global] Arguments Ascii.eqb : simpl never.
#[global] Arguments ascii_dec : simpl never.
#[global] Arguments String.eqb : simpl never.

(** * Effects: a state monad over an arbitrary world *)

(** Code under [src/] calls interfaces (deployments, harnesses, files, clocks)
    whose implementation is outside the modelled code.  A call is a function
    of the state [W] of everything behind those interfaces. *)
Definition M (W A : Type) : Type := W -> A * W.

Definition ret {W A : Type} (a : A) : M W A := fun w => (a, w).

Definition bind {W A B : Type} (m : M W A) (f : A -> M W B) : M W B :=
  fun w => match m w with (a, w') => f a w' end.

Notation "'let*' x ':=' m 'in' k" := (bind m (fun x => k))
  (at level 10, x pattern, m at level 200, k at level 200,
   format "'[v' 'let*'  x  ':='  m  'in' '/' k ']'") : go_scope.

(** * Errors *)

(** The sentinel error values the code compares with [errors.Is]. *)
Inductive sentinel :=
  | Canceled               (* context.Canceled *)
  | DeadlineExceeded       (* context.DeadlineExceeded *)
  | ErrNotExist            (* fs.ErrNotExist = os.ErrNotExist *)
  | ErrExist               (* os.ErrExist *)
  | ErrPermission          (* fs.ErrPermission *)
  | EISDIR                 (* syscall.EISDIR *)
  | ENOTDIR                (* syscall.ENOTDIR *)
  | ErrEOF                 (* io.EOF *)
  | ErrShortWrite          (* io.ErrShortWrite *)
  | ErrBufferFull          (* bufio.ErrBufferFull *)
  | ErrUnsupported         (* monitor.ErrUnsupported *)
  | ErrNotFound            (* runner.ErrNotFound *)
  | ErrAllocationUnconfirmed (* deployment.ErrAllocationUnconfirmed *)
  | ErrNotRegular          (* errNotRegular of pkg/bridge/grpc *)
  | ErrWriteStream         (* errWriteStream of pkg/bridge/grpc *)
  | ErrSyncDenied          (* errSyncDenied of pkg/bridge/ssh/hermes *)
  | ErrWebSocketProtocol   (* errWebSocketProtocol of pkg/harness/openclaw/gateway *)
  | ErrAPINotFound         (* what errdefs.IsNotFound and apierrors.IsNotFound recognize *)
  | ErrResourceRuntimeGone. (* errResourceRuntimeGone of pkg/deployment/docker *)

#[export] Instance sentinel_eq_dec : EqDecision sentinel.
Proof. solve_decision. Defined.

(** A non-nil Go error: its own text, a sentinel, a [%w] wrapping with the text
    in front of it, the operands of [errors.Join], a message that hides its cause
    ([redactedError] of pkg/harness), a [%w: %w] of two errors behind a text, or a
    [%w%s] with a text after the error. *)
Inductive err :=
  | ENew (text : string)
  | ESentinel (s : sentinel)
  | EWrap (text : string) (inner : err)
  | EJoin (inner : list err)
  | ERedacted (message : string) (cause : option sentinel)
  | EWraps (text : string) (first second : err)
  | EAppend (inner : err) (text : string).

(** A Go [error] value: [None] is nil. *)
Abbreviation error := (option err).
Abbreviation nil_error := (@None err).

Definition sentinel_text (s : sentinel) : string :=
  match s with
  | Canceled => "context canceled"
  | DeadlineExceeded => "context deadline exceeded"
  | ErrNotExist => "file does not exist"
  | ErrExist => "file already exists"
  | ErrPermission => "permission denied"
  | EISDIR => "is a directory"
  | ENOTDIR => "not a directory"
  | ErrEOF => "EOF"
  | ErrShortWrite => "short write"
  | ErrBufferFull => "bufio: buffer full"
  | ErrUnsupported => "resource measurements unsupported"
  | ErrNotFound => "sandbox path not found"
  | ErrAllocationUnconfirmed => "deployment allocation unconfirmed"
  | ErrNotRegular => "not a regular file"
  | ErrWriteStream => "write stream does not match its header"
  | ErrSyncDenied => "Hermes SSH file sync is denied by ARIES policy"
  | ErrWebSocketProtocol => "gateway websocket protocol violation"
  | ErrAPINotFound => "not found"
  | ErrResourceRuntimeGone => "resource runtime disappeared during sampling"
  end%stdpp.

Definition nl : string := String "010"%char EmptyString.

(** [err.Error()].  [errors.Join] separates the operands by newlines. *)
Fixpoint Error (e : err) : string :=
  match e with
  | ENew t => t
  | ESentinel s => sentinel_text s
  | EWrap t e => t +:+ ": "%stdpp +:+ Error e
  | EJoin es => String.concat nl (map Error es)
  | ERedacted message _ => message
  | EWraps t first second => t +:+ Error first +:+ ": "%stdpp +:+ Error second
  | EAppend e t => Error e +:+ t
  end.

(** [errors.Is(err, target)] for a sentinel target. *)
Fixpoint errors_Is (e : err) (target : sentinel) : bool :=
  match e with
  | ENew _ => false
  | ESentinel s => bool_decide (s = target)
  | EWrap _ e => errors_Is e target
  | EJoin es => existsb (fun e => errors_Is e target) es
  | ERedacted _ cause => bool_decide (cause = Some target)
  | EWraps _ first second => errors_Is first target || errors_Is second target
  | EAppend e _ => errors_Is e target
  end.

(** The same on an [error] value; nil is no sentinel. *)
Definition error_Is (e : error) (target : sentinel) : bool :=
  match e with Some e => errors_Is e target | None => false end.

(** [errors.Join]: nil operands are dropped, and no operand left gives nil. *)
Definition errors_Join (es : list error) : error :=
  match omap id es with
  | [] => nil_error
  | es => Some (EJoin es)
  end.

(** [fmt.Errorf("text: %w", err)] on a value that may be nil is only reached by
    the code with a non-nil [err]; this maps nil to nil. *)
Definition wrap (text : string) (e : error) : error := EWrap text <$> e.

Definition is_nil (e : error) : bool := match e with None => true | Some _ => false end.

(** * Checks in sequence *)

(** The first error of a loop over a slice or a map. *)
Fixpoint first_error {A : Type} (check : A -> error) (items : list A) : error :=
  match items with
  | [] => None
  | item :: rest => match check item with None => first_error check rest | e => e end
  end.

(** A Go function whose checks run in order, the first failing one giving its
    result. *)
Definition seq_error (a b : error) : error := match a with None => b | e => e end.
Notation "a >>? b" := (seq_error a b) (at level 67, right associativity) : go_scope.
Notation "'refuse_if' b 'with' text" := (if b : bool then Some (ENew text) else nil_error)
  (at level 66, b at level 65, text at level 65) : go_scope.

Definition is_some {A} (x : option A) : bool := match x with Some _ => true | None => false end.
(** [slices.Contains]. *)
Definition one_of (value : string) (values : list string) : bool := existsb (String.eqb value) values.
(** [cmp.Or]: the first that is not empty. *)
Definition Or (texts : list string) : string := default "" (List.find (fun s => negb (String.eqb s "")) texts).

(** * Contexts *)

(** A [context.Context], by how it was derived.  [Given n] is the [n]th context
    a caller supplies. *)
Inductive Ctx :=
  | Background
  | Given (n : nat)
  | WithoutCancel (parent : Ctx)
  | WithCancel (parent : Ctx)
  | WithTimeout (parent : Ctx) (timeout : Z)
  | WithDeadline (parent : Ctx) (deadline : Z).

#[export] Instance Ctx_eq_dec : EqDecision Ctx.
Proof. solve_decision. Defined.

(** What the standard library reads from its environment. *)
Class Runtime (W : Type) := {
  time_Now : M W Z;               (* nanoseconds *)
  ctx_Err : Ctx -> M W (option sentinel)  (* ctx.Err(): nil, Canceled or DeadlineExceeded *)
}.

(** * Machine integers *)

Definition max_int64 : Z := 2 ^ 63 - 1.
Definition min_int64 : Z := - 2 ^ 63.
Definition max_uint64 : Z := 2 ^ 64 - 1.

Definition in_int64 (z : Z) : Prop := min_int64 <= z <= max_int64.

(** * float64 *)

(** IEEE 754 binary64 by its specification in the standard library. *)
Abbreviation float64 := spec_float.

Definition f64_of_Z (z : Z) : float64 := binary_normalize 53 1024 z 0 false.
Definition f64_mul (x y : float64) : float64 := SFmul 53 1024 x y.
Definition f64_div (x y : float64) : float64 := SFdiv 53 1024 x y.
Definition f64_eqb (x y : float64) : bool := SFeqb x y.
Definition f64_ltb (x y : float64) : bool := SFltb x y.
Definition f64_leb (x y : float64) : bool := SFleb x y.
Definition f64_zero : float64 := S754_zero false.
Definition IsNaN (x : float64) : bool := match x with S754_nan => true | _ => false end.
Definition IsInf (x : float64) : bool := match x with S754_infinity _ => true | _ => false end.

(** * Strings as byte sequences *)

(** A Go string is a byte sequence: [string] with one [ascii] per byte. *)
Abbreviation bytes := (list ascii).

Definition byte_of (c : ascii) : Z := Z.of_N (N_of_ascii c).
Definition to_bytes (s : string) : bytes := String.list_ascii_of_string s.
Definition of_bytes (l : bytes) : string := String.string_of_list_ascii l.

Definition NUL : ascii := "000"%char.
Definition NL : ascii := "010"%char.
Definition CR : ascii := "013"%char.

Definition between (lo c hi : ascii) : bool :=
  (byte_of lo <=? byte_of c) && (byte_of c <=? byte_of hi).
Definition is_lower (c : ascii) : bool := between "a"%char c "z"%char.
Definition is_upper (c : ascii) : bool := between "A"%char c "Z"%char.
Definition is_digit (c : ascii) : bool := between "0"%char c "9"%char.
Definition is_alnum (c : ascii) : bool := is_lower c || is_upper c || is_digit c.

Definition mem (c : ascii) (s : bytes) : bool := existsb (Ascii.eqb c) s.

(** [strings.ContainsRune(s, c)] for an ASCII [c], and [strings.ContainsAny]
    with an ASCII set. *)
Definition ContainsByte (s : string) (c : ascii) : bool := mem c (to_bytes s).
Definition ContainsAny (s : string) (set : bytes) : bool :=
  existsb (fun c => mem c set) (to_bytes s).

Definition HasPrefix (s prefix : string) : bool := String.prefix prefix s.

(** [strings.CutPrefix]: what follows the prefix, when [s] starts with it. *)
Fixpoint CutPrefix (s prefix : string) {struct prefix} : option string :=
  match prefix, s with
  | EmptyString, _ => Some s
  | String p prefix, String c s => if Ascii.eqb p c then CutPrefix s prefix else None
  | String _ _, EmptyString => None
  end.

Definition TrimPrefix (s prefix : string) : string := default s (CutPrefix s prefix).

Definition rev_string (s : string) : string := of_bytes (rev (to_bytes s)).

(** [strings.CutSuffix] and [strings.TrimSuffix]. *)
Definition CutSuffix (s suffix : string) : option string :=
  rev_string <$> CutPrefix (rev_string s) (rev_string suffix).
Definition TrimSuffix (s suffix : string) : string := default s (CutSuffix s suffix).
Definition HasSuffix (s suffix : string) : bool :=
  HasPrefix (rev_string s) (rev_string suffix).

(** [strings.Trim] with an ASCII cutset. *)
Fixpoint trim_left (cutset s : bytes) : bytes :=
  match s with
  | [] => []
  | c :: rest => if mem c cutset then trim_left cutset rest else s
  end.
Definition Trim (s cutset : bytes) : bytes :=
  rev (trim_left cutset (rev (trim_left cutset s))).

(** [strings.Split(s, sep)] for a one-byte separator: never empty. *)
Fixpoint split_bytes (sep : ascii) (s : bytes) : list bytes :=
  match s with
  | [] => [[]]
  | c :: s =>
      if Ascii.eqb c sep then [] :: split_bytes sep s
      else match split_bytes sep s with
           | [] => [[c]]
           | part :: rest => (c :: part) :: rest
           end
  end.
Definition Split (s : string) (sep : ascii) : list string :=
  map of_bytes (split_bytes sep (to_bytes s)).

(** [strings.Cut] at a one-byte separator: what precedes and follows the first. *)
Fixpoint Cut (s : string) (sep : ascii) : option (string * string) :=
  match s with
  | EmptyString => None
  | String c s =>
      if Ascii.eqb c sep then Some (EmptyString, s)
      else match Cut s sep with
           | Some (before, after) => Some (String c before, after)
           | None => None
           end
  end.

(** [strings.Join]. *)
Fixpoint join_bytes (sep : ascii) (parts : list bytes) : bytes :=
  match parts with
  | [] => []
  | [part] => part
  | part :: rest => part ++ sep :: join_bytes sep rest
  end.

(** [len(s)]. *)
Definition len (s : string) : Z := Z.of_nat (String.length s).

(** [%d] of an integer. *)
Definition itoa (z : Z) : string := pretty z.

(** [%q] of a string: [strconv.Quote], with every byte outside ASCII copied, as
    it is for printable text. *)
Definition hex_digit (n : Z) : ascii :=
  ascii_of_N (Z.to_N (if n <? 10 then 48 + n else 87 + n)).
Definition quote_byte (c : ascii) : bytes :=
  let b := byte_of c in
  if b =? 34 then ["\"%char; ascii_of_N 34]
  else if b =? 92 then ["\"%char; "\"%char]
  else if b =? 7 then ["\"%char; "a"%char]
  else if b =? 8 then ["\"%char; "b"%char]
  else if b =? 12 then ["\"%char; "f"%char]
  else if b =? 10 then ["\"%char; "n"%char]
  else if b =? 13 then ["\"%char; "r"%char]
  else if b =? 9 then ["\"%char; "t"%char]
  else if b =? 11 then ["\"%char; "v"%char]
  else if (b <? 32) || (b =? 127) then
    ["\"%char; "x"%char; hex_digit (b / 16); hex_digit (b mod 16)]
  else [c].
Definition quote (s : string) : string :=
  of_bytes ([ascii_of_N 34] ++ flat_map quote_byte (to_bytes s) ++ [ascii_of_N 34]).

(** * Tactics *)

Create HintDb go.
Create Rewrite HintDb go_rw.

(** Decide the next call in a monadic computation: every
    [match m w with (a, w') => _ end] is destructed with an equation. *)
Ltac call_step :=
  match goal with
  | |- context [match ?m ?w with (_, _) => _ end] =>
      let a := fresh "r" in let w' := fresh "w" in let E := fresh "Hcall" in
      destruct (m w) as [a w'] eqn:E
  end.


(** Case analysis on the outermost [match] or [if] of a hypothesis or the goal,
    with the impossible cases closed. *)
Ltac break_match_hyp H :=
  match type of H with
  | context [match ?x with _ => _ end] =>
      lazymatch x with
      | context [match _ with _ => _ end] => fail
      | _ => destruct x eqn:?
      end
  end; simplify_eq/=; try done.
Ltac break_match :=
  match goal with
  | |- context [match ?x with _ => _ end] =>
      lazymatch x with
      | context [match _ with _ => _ end] => fail
      | _ => destruct x eqn:?
      end
  end; simplify_eq/=; try done.

(** * Lemmas on errors *)

Lemma errors_Join_nil_iff (es : list error) :
  errors_Join es = None <-> Forall (fun e => e = None) es.
Proof.
  induction es as [|[e|] es IH]; unfold errors_Join in *; simpl.
  - split; constructor.
  - split; [done|]. intros H. by inv H.
  - rewrite IH. split; [by constructor|]. intros H. by inv H.
Qed.

Lemma errors_Join_Some (es : list error) (e : err) :
  Some e ∈ es -> exists joined, errors_Join es = Some (EJoin joined) /\ e ∈ joined.
Proof.
  intros Hin. unfold errors_Join.
  assert (He : e ∈ omap id es).
  { apply list_elem_of_omap. eexists. split; [exact Hin|done]. }
  destruct (omap id es) as [|x xs] eqn:E; [by apply not_elem_of_nil in He|].
  eauto.
Qed.

Lemma errors_Join_is (es : list error) (target : sentinel) :
  error_Is (errors_Join es) target = existsb (fun e => error_Is e target) es.
Proof.
  assert (H : existsb (fun e => errors_Is e target) (omap id es)
              = existsb (fun e => error_Is e target) es).
  { induction es as [|[e|] es IH]; simpl; [done| |done]. by rewrite <- IH. }
  rewrite <- H. clear H. unfold errors_Join. by destruct (omap id es).
Qed.

Lemma wrap_nil_iff (text : string) (e : error) : wrap text e = None <-> e = None.
Proof. destruct e; simpl; split; congruence. Qed.

#[export] Hint Rewrite wrap_nil_iff errors_Join_nil_iff : go_rw.

Lemma seq_error_nil (a b : error) : (a >>? b) = None <-> a = None /\ b = None.
Proof. destruct a; simpl; naive_solver. Qed.

Lemma refuse_if_nil (b : bool) (text : string) : (refuse_if b with text) = None <-> b = false.
Proof. destruct b; naive_solver. Qed.

Lemma first_error_nil {A : Type} (check : A -> error) (items : list A) :
  first_error check items = None <-> Forall (fun item => check item = None) items.
Proof.
  induction items as [|item items IH]; simpl; [naive_solver|].
  rewrite Forall_cons, <- IH. destruct (check item); naive_solver.
Qed.

Lemma forallb_Forall {A : Type} (f : A -> bool) (l : list A) :
  forallb f l = true <-> Forall (fun x => f x = true) l.
Proof. rewrite forallb_forall, List.Forall_forall. done. Qed.

Lemma Forall_map_to_list {V : Type} (P : string * V -> Prop) (m : gmap string V) :
  Forall P (map_to_list m) <-> map_Forall (fun k v => P (k, v)) m.
Proof. rewrite map_Forall_to_list. apply Forall_iff. by intros []. Qed.

#[export] Hint Rewrite seq_error_nil refuse_if_nil @first_error_nil : go_rw.

(** * Lemmas on byte strings *)

Lemma of_to_bytes (s : string) : of_bytes (to_bytes s) = s.
Proof. apply String.string_of_list_ascii_of_string. Qed.

Lemma to_of_bytes (l : bytes) : to_bytes (of_bytes l) = l.
Proof. apply String.list_ascii_of_string_of_list_ascii. Qed.

Lemma to_bytes_app (s t : string) : to_bytes (s +:+ t) = to_bytes s ++ to_bytes t.
Proof. induction s as [|c s IH]; [done|]. unfold to_bytes in *. simpl. by rewrite <- IH. Qed.

Lemma to_bytes_inj (s t : string) : to_bytes s = to_bytes t -> s = t.
Proof. intros H. by rewrite <- (of_to_bytes s), <- (of_to_bytes t), H. Qed.

Lemma len_to_bytes (s : string) : len s = Z.of_nat (List.length (to_bytes s)).
Proof. unfold len. f_equal. induction s; simpl; [done|]. by f_equal. Qed.

Lemma len_app (s t : string) : len (s +:+ t) = len s + len t.
Proof. rewrite !len_to_bytes, to_bytes_app, length_app. lia. Qed.

Lemma len_String (c : ascii) (s : string) : len (String c s) = 1 + len s.
Proof. unfold len. simpl. lia. Qed.

Lemma len_empty : len "" = 0.
Proof. reflexivity. Qed.

Lemma len_nonneg (s : string) : 0 <= len s.
Proof. unfold len. lia. Qed.

(** Compute the lengths of concatenations and literals. *)
Ltac len_simpl := repeat first [rewrite len_app | rewrite len_String | rewrite len_empty].

Lemma string_app_assoc (s t u : string) : s +:+ t +:+ u = (s +:+ t) +:+ u.
Proof. apply to_bytes_inj. by rewrite !to_bytes_app, app_assoc. Qed.

Lemma string_app_cons (c : ascii) (s t : string) :
  String c s +:+ t = String c (s +:+ t).
Proof. reflexivity. Qed.

Lemma CutPrefix_Some (s prefix rest : string) :
  CutPrefix s prefix = Some rest <-> s = prefix +:+ rest.
Proof.
  revert s. induction prefix as [|p prefix IH]; intros s; simpl.
  - split; [by intros [= ->]|by intros ->].
  - rewrite string_app_cons. destruct s as [|c s]; [done|].
    destruct (Ascii.eqb_spec p c) as [->|Hne].
    + rewrite IH. split; [by intros ->|by intros [= ->]].
    + split; [done|]. intros [= ? ?]. congruence.
Qed.

Lemma CutPrefix_app (prefix rest : string) : CutPrefix (prefix +:+ rest) prefix = Some rest.
Proof. by apply CutPrefix_Some. Qed.

Lemma HasPrefix_iff (s prefix : string) :
  HasPrefix s prefix = true <-> exists rest, s = prefix +:+ rest.
Proof.
  unfold HasPrefix. revert s. induction prefix as [|p prefix IH]; intros s.
  - split; [by exists s|by destruct s].
  - destruct s as [|c s]; simpl; [by split; [|intros [? ?]]|].
    destruct (ascii_dec p c) as [->|Hne].
    + rewrite IH. split; intros [rest ?]; exists rest; rewrite string_app_cons in *; congruence.
    + split; [done|]. intros [rest ?]. rewrite string_app_cons in *. congruence.
Qed.

Lemma split_bytes_nonempty (sep : ascii) (s : bytes) : split_bytes sep s <> [].
Proof. destruct s as [|c s]; simpl; [done|]. repeat case_match; done. Qed.

(** [strings.Join(strings.Split(s, sep), sep) = s]. *)
Lemma join_split (sep : ascii) (s : bytes) : join_bytes sep (split_bytes sep s) = s.
Proof.
  induction s as [|c s IH]; simpl; [done|].
  pose proof (split_bytes_nonempty sep s) as Hne.
  destruct (Ascii.eqb_spec c sep) as [->|Hc];
    destruct (split_bytes sep s) as [|part rest]; simpl in *; try done.
  - by rewrite IH.
  - destruct rest; simpl in *; by rewrite IH.
Qed.

(** No part of a split contains the separator. *)
Lemma split_bytes_no_sep (sep : ascii) (s part : bytes) :
  part ∈ split_bytes sep s -> sep ∉ part.
Proof.
  revert part. induction s as [|c s IH]; intros part; simpl.
  - intros ->%list_elem_of_singleton. apply not_elem_of_nil.
  - destruct (Ascii.eqb_spec c sep) as [->|Hc].
    + rewrite elem_of_cons. intros [->|H]; [apply not_elem_of_nil|by apply IH].
    + destruct (split_bytes sep s) as [|p rest] eqn:E.
      * intros ->%list_elem_of_singleton. rewrite list_elem_of_singleton. congruence.
      * rewrite elem_of_cons. intros [->|H].
        -- rewrite not_elem_of_cons. split; [congruence|]. apply IH. left.
        -- apply IH. by right.
Qed.

Lemma mem_spec (c : ascii) (l : bytes) : mem c l = true <-> c ∈ l.
Proof.
  unfold mem. rewrite existsb_exists. split.
  - intros (x & Hin & ->%Ascii.eqb_eq). by apply list_elem_of_In.
  - intros Hin. exists c. rewrite Ascii.eqb_refl. split; [by apply list_elem_of_In|done].
Qed.

Lemma byte_of_range (c : ascii) : 0 <= byte_of c < 256.
Proof. unfold byte_of. pose proof (N_ascii_bounded c). lia. Qed.

(** The only element of a list that satisfies a predicate. *)
Lemma only_occurrence {A} (P : A -> Prop) (pre post a b : list A) (x y : A) :
  pre ++ x :: post = a ++ y :: b -> P x ->
  Forall (fun z => ~ P z) a -> Forall (fun z => ~ P z) b -> pre = a /\ x = y /\ post = b.
Proof.
  intros Heq Hx. revert pre Heq. induction a as [|z a IH]; intros pre Heq Ha Hb.
  - destruct pre as [|z pre]; simpl in Heq; inv Heq; [done|].
    apply Forall_app in Hb as [_ Hb]. apply Forall_cons in Hb as [Hb _]. done.
  - apply Forall_cons in Ha as [Hz Ha]. destruct pre as [|z' pre]; simpl in Heq; inv Heq; [done|].
    destruct (IH pre) as (-> & -> & ->); done.
Qed.

Lemma no_occurrence {A} (P : A -> Prop) (l pre post : list A) (x : A) :
  l = pre ++ x :: post -> Forall (fun z => ~ P z) l -> ~ P x.
Proof. intros ->. rewrite Forall_app, Forall_cons. tauto. Qed.

Lemma occurrence_left {A} (P : A -> Prop) (a b pre post : list A) (x : A) :
  a ++ b = pre ++ x :: post -> P x -> Forall (fun z => ~ P z) b ->
  exists m, a = pre ++ x :: m /\ post = m ++ b.
Proof.
  intros Heq Hx Hb. apply app_eq_inv in Heq as [(k & -> & Hk)|(k & -> & Hk)].
  - destruct k as [|y k]; simpl in Hk; inv Hk; [|by exists k].
    apply Forall_cons in Hb as [Hb _]. done.
  - by apply (no_occurrence P) in Hk.
Qed.

(** * Decimal numerals *)

Definition digit_value (c : ascii) : N := N_of_ascii c - 48.
Fixpoint dec_value (acc : N) (s : string) : N :=
  match s with
  | EmptyString => acc
  | String c s => dec_value (acc * 10 + digit_value c)%N s
  end.

Lemma pretty_digit (x : N) : (x < 10)%N ->
  digit_value (pretty_N_char x) = x /\ is_digit (pretty_N_char x) = true.
Proof.
  intros Hx. assert (x ∈ [0; 1; 2; 3; 4; 5; 6; 7; 8; 9]%N) as Hin.
  { rewrite !elem_of_cons. lia. }
  rewrite !elem_of_cons, elem_of_nil in Hin.
  by repeat (destruct Hin as [->|Hin]; [done|]).
Qed.

Lemma dec_value_pretty_go (x : N) (s : string) :
  dec_value 0 (pretty_N_go x s) = dec_value x s.
Proof.
  revert s. induction (N.lt_wf_0 x) as [x _ IH]. intros s.
  destruct (decide (x = 0%N)) as [->|Hx]; [by rewrite pretty_N_go_0|].
  rewrite pretty_N_go_step by lia. rewrite IH by (apply N.div_lt; lia). simpl.
  assert (x mod 10 < 10)%N as Hm by (apply N.mod_lt; done).
  destruct (pretty_digit _ Hm) as [-> _]. f_equal. rewrite (N.div_mod x 10) at 3 by done. lia.
Qed.

(** [itoa] of a natural number reads back as the number. *)
Lemma dec_value_itoa (z : Z) : 0 <= z -> Z.of_N (dec_value 0 (itoa z)) = z.
Proof.
  intros Hz. destruct z as [|p|p]; [done| |lia]. unfold itoa.
  change (pretty (Z.pos p)) with (pretty_N_go (Npos p) "").
  rewrite dec_value_pretty_go. done.
Qed.

Lemma digits_pretty_go (x : N) (s : string) :
  forallb is_digit (to_bytes s) = true ->
  forallb is_digit (to_bytes (pretty_N_go x s)) = true.
Proof.
  revert s. induction (N.lt_wf_0 x) as [x _ IH]. intros s Hs.
  destruct (decide (x = 0%N)) as [->|Hx]; [by rewrite pretty_N_go_0|].
  rewrite pretty_N_go_step by lia. apply IH; [apply N.div_lt; lia|]. simpl.
  destruct (pretty_digit (x mod 10)) as [_ ->]; [by apply N.mod_lt|done].
Qed.

Lemma digits_itoa (z : Z) : 0 <= z -> forallb is_digit (to_bytes (itoa z)) = true.
Proof.
  intros Hz. destruct z as [|p|p]; [done| |lia].
  change (itoa (Z.pos p)) with (pretty_N_go (Npos p) ""). by apply digits_pretty_go.
Qed.

(** [%0nd] of a natural number. *)
Definition pad0 (width : nat) (s : string) : string :=
  of_bytes (repeat "0"%char (width - List.length (to_bytes s)) ++ to_bytes s).

Lemma dec_value_zeros (n : nat) (s : string) :
  dec_value 0 (of_bytes (repeat "0"%char n ++ to_bytes s)) = dec_value 0 s.
Proof. induction n as [|n IH]; simpl; [by rewrite of_to_bytes|exact IH]. Qed.

Lemma pad0_itoa_inj (width : nat) (x y : Z) :
  0 <= x -> 0 <= y -> pad0 width (itoa x) = pad0 width (itoa y) -> x = y.
Proof.
  intros Hx Hy H. rewrite <- (dec_value_itoa x), <- (dec_value_itoa y) by done.
  unfold pad0 in H. apply (f_equal (dec_value 0)) in H. rewrite !dec_value_zeros in H.
  by f_equal.
Qed.

Lemma digits_pad0 (width : nat) (z : Z) :
  0 <= z -> forallb is_digit (to_bytes (pad0 width (itoa z))) = true.
Proof.
  intros Hz. unfold pad0. rewrite to_of_bytes, forallb_app, digits_itoa by done.
  rewrite andb_true_r. by induction (width - _)%nat.
Qed.

(** The last separator of a byte string is determined by what follows it. *)
Lemma last_separator {A} (sep : A) (a b p q : list A) :
  a ++ sep :: p = b ++ sep :: q -> sep ∉ p -> sep ∉ q -> a = b /\ p = q.
Proof.
  intros Heq Hp Hq. apply app_eq_inv in Heq as [(k & -> & Hk)|(k & -> & Hk)];
    destruct k as [|x k]; simpl in Hk; inv Hk; rewrite ?app_nil_r; try done.
  - set_solver.
  - set_solver.
Qed.

(** Splitting a concatenation. *)
Lemma split_bytes_sep (sep : ascii) (part rest : bytes) :
  sep ∉ part -> split_bytes sep (part ++ sep :: rest) = part :: split_bytes sep rest.
Proof.
  induction part as [|c part IH]; intros Hn; simpl; [by rewrite Ascii.eqb_refl|].
  apply not_elem_of_cons in Hn as [Hc Hn].
  by rewrite (proj2 (Ascii.eqb_neq c sep)), IH by congruence.
Qed.

Lemma split_bytes_app (sep : ascii) (part rest p : bytes) (ps : list bytes) :
  sep ∉ part -> split_bytes sep rest = p :: ps ->
  split_bytes sep (part ++ rest) = (part ++ p) :: ps.
Proof.
  induction part as [|c part IH]; intros Hn Hs; simpl; [done|].
  apply not_elem_of_cons in Hn as [Hc Hn].
  by rewrite (proj2 (Ascii.eqb_neq c sep)), IH by congruence.
Qed.

Lemma split_bytes_plain (sep : ascii) (part : bytes) :
  sep ∉ part -> split_bytes sep part = [part].
Proof.
  intros Hn. rewrite <- (app_nil_r part) at 1. by rewrite (split_bytes_app sep part [] [] []), app_nil_r.
Qed.

Lemma Cut_app (before after : string) (sep : ascii) :
  sep ∉ to_bytes before -> Cut (before +:+ String sep after) sep = Some (before, after).
Proof.
  induction before as [|c before IH]; intros Hn.
  - simpl. by rewrite Ascii.eqb_refl.
  - simpl in Hn. apply not_elem_of_cons in Hn as [Hc Hn].
    change (String c before +:+ String sep after) with (String c (before +:+ String sep after)).
    cbn [Cut]. by rewrite (proj2 (Ascii.eqb_neq c sep)), IH by congruence.
Qed.

Lemma Cut_sound (s before after : string) (sep : ascii) :
  Cut s sep = Some (before, after) -> s = before +:+ String sep after /\ sep ∉ to_bytes before.
Proof.
  revert before. induction s as [|c s IH]; intros before; [done|]. cbn [Cut].
  destruct (Ascii.eqb_spec c sep) as [->|Hc].
  - intros [= <- <-]. split; [done|apply not_elem_of_nil].
  - destruct (Cut s sep) as [[b a]|]; [|done]. intros [= <- <-].
    destruct (IH b eq_refl) as [-> Hn]. split; [done|]. simpl. apply not_elem_of_cons. by split.
Qed.

(** Joining parts and splitting them again. *)
Lemma concat_join (sep : ascii) (parts : list bytes) :
  parts <> [] -> concat (map (cons sep) parts) = sep :: join_bytes sep parts.
Proof.
  induction parts as [|part parts IH]; intros Hne; [done|].
  destruct parts as [|part' parts]; simpl in *; [by rewrite app_nil_r|].
  f_equal. f_equal. by rewrite <- IH.
Qed.

Lemma split_join (sep : ascii) (parts : list bytes) :
  parts <> [] -> Forall (fun part => sep ∉ part) parts ->
  split_bytes sep (join_bytes sep parts) = parts.
Proof.
  intros Hne Hall. induction Hall as [|part parts Hp Hall IH]; [done|].
  destruct parts as [|part' parts]; [by apply split_bytes_plain|].
  change (join_bytes sep (part :: part' :: parts))
    with (part ++ sep :: join_bytes sep (part' :: parts)).
  by rewrite split_bytes_sep, IH.
Qed.

(** [slices.Sort] of strings and [slices.Sorted(maps.Keys(m))]. *)
Definition string_le (a b : string) : Prop := String.leb a b = true.
#[export] Instance string_le_dec : RelDecision string_le.
Proof. intros a b. unfold string_le. apply _. Defined.
#[export] Instance string_le_total : Total string_le.
Proof. intros a b. unfold string_le. destruct (String.leb_total a b); auto. Qed.
Definition sorted_keys {A} (m : gmap string A) : list string := merge_sort string_le (map fst (map_to_list m)).
Lemma sorted_keys_sorted {A} (m : gmap string A) : Sorted string_le (sorted_keys m).
Proof. apply Sorted_merge_sort, _. Qed.
Lemma elem_of_sorted_keys {A} (m : gmap string A) key : key ∈ sorted_keys m <-> is_Some (m !! key).
Proof.
  unfold sorted_keys. rewrite merge_sort_Permutation. change map with (@fmap list _). split.
  - intros ([k a] & -> & Ha%elem_of_map_to_list)%list_elem_of_fmap. by exists a.
  - intros [a Ha]. apply list_elem_of_fmap. exists (key, a). split; [done|]. by apply elem_of_map_to_list.
Qed.

Lemma sublist_same_length {A} (l k : list A) : l `sublist_of` k -> (length k <= length l)%nat -> l = k.
Proof.
  induction 1 as [|x l k Hs IH|x l k Hs IH]; simpl; [done| |].
  - intros Hle. f_equal. apply IH. lia.
  - apply sublist_length in Hs. lia.
Qed.

(** The slice [data[offset:end_]]. *)
Definition slice (data : bytes) (offset end_ : Z) : bytes := take (Z.to_nat (end_ - offset)) (drop (Z.to_nat offset) data).
Lemma slice_split data offset end_ : 0 <= offset <= end_ -> end_ <= Z.of_nat (length data) ->
  drop (Z.to_nat offset) data = slice data offset end_ ++ drop (Z.to_nat end_) data /\
  Z.of_nat (length (slice data offset end_)) = end_ - offset.
Proof.
  intros Ho He. unfold slice. split.
  - rewrite <- (take_drop (Z.to_nat (end_ - offset)) (drop (Z.to_nat offset) data)) at 1.
    rewrite drop_drop. do 2 f_equal. lia.
  - rewrite length_take, length_drop. lia.
Qed.
