(* ===== verification/Utf8.v ===== *)
(** UTF-8 decoding and the rune classes of Go's standard library that the code
    uses: [utf8.DecodeRune], [utf8.Valid], [range] over a string,
    [unicode.IsControl], [unicode.IsSpace] and [strings.TrimSpace].  A rune is a
    [Z].  The results here are shared by the components; none of them is a
    property of the program by itself. *)

From S2P Require Import Prelude.

(** * Decoding *)

Definition RuneError : Z := 65533.

(** What a leading byte announces: the encoding's length and the range of its
    second byte. *)
Definition lead_byte (b : Z) : option (nat * Z * Z) :=
  if (194 <=? b) && (b <=? 223) then Some (2%nat, 128, 191)
  else if b =? 224 then Some (3%nat, 160, 191)
  else if (225 <=? b) && (b <=? 236) then Some (3%nat, 128, 191)
  else if b =? 237 then Some (3%nat, 128, 159)
  else if (238 <=? b) && (b <=? 239) then Some (3%nat, 128, 191)
  else if b =? 240 then Some (4%nat, 144, 191)
  else if (241 <=? b) && (b <=? 243) then Some (4%nat, 128, 191)
  else if b =? 244 then Some (4%nat, 128, 143)
  else None.

Definition continuation (b : Z) : bool := (128 <=? b) && (b <=? 191).

(** [utf8.DecodeRune]: the rune and its size; size 0 for no input and size 1
    with [RuneError] for an invalid encoding. *)
Definition DecodeRune (p : bytes) : Z * nat :=
  match map byte_of p with
  | [] => (RuneError, 0%nat)
  | b0 :: rest =>
      if b0 <? 128 then (b0, 1%nat)
      else match lead_byte b0, rest with
      | Some (2%nat, lo, hi), b1 :: _ =>
          if (lo <=? b1) && (b1 <=? hi) then ((b0 - 192) * 64 + (b1 - 128), 2%nat)
          else (RuneError, 1%nat)
      | Some (3%nat, lo, hi), b1 :: b2 :: _ =>
          if (lo <=? b1) && (b1 <=? hi) && continuation b2
          then ((b0 - 224) * 4096 + (b1 - 128) * 64 + (b2 - 128), 3%nat)
          else (RuneError, 1%nat)
      | Some (4%nat, lo, hi), b1 :: b2 :: b3 :: _ =>
          if (lo <=? b1) && (b1 <=? hi) && continuation b2 && continuation b3
          then ((b0 - 240) * 262144 + (b1 - 128) * 4096 + (b2 - 128) * 64 + (b3 - 128), 4%nat)
          else (RuneError, 1%nat)
      | _, _ => (RuneError, 1%nat)
      end
  end.

(** Consecutive [DecodeRune] calls: each rune with the bytes it was read from.
    [fuel] is the number of bytes. *)
Fixpoint rune_chunks (fuel : nat) (p : bytes) : list (Z * bytes) :=
  match fuel, p with
  | S fuel, _ :: _ =>
      let (r, size) := DecodeRune p in
      (r, take size p) :: rune_chunks fuel (drop size p)
  | _, _ => []
  end.
Definition chunks (p : bytes) : list (Z * bytes) := rune_chunks (List.length p) p.

(** [for _, r := range s]. *)
Definition runes (s : string) : list Z := map fst (chunks (to_bytes s)).

(** A chunk of an invalid encoding. *)
Definition invalid_chunk (c : Z * bytes) : bool :=
  (c.1 =? RuneError) && (List.length c.2 =? 1)%nat.

(** [utf8.Valid]. *)
Definition Valid (p : bytes) : bool := forallb (fun c => negb (invalid_chunk c)) (chunks p).

(** * Rune classes *)

Definition IsControl (r : Z) : bool := ((0 <=? r) && (r <? 32)) || ((127 <=? r) && (r <? 160)).

Definition IsSpace (r : Z) : bool :=
  ((9 <=? r) && (r <=? 13)) || (r =? 32) || (r =? 133) || (r =? 160) || (r =? 5760)
  || ((8192 <=? r) && (r <=? 8202)) || (r =? 8232) || (r =? 8233) || (r =? 8239)
  || (r =? 8287) || (r =? 12288).

Fixpoint drop_space (cs : list (Z * bytes)) : list (Z * bytes) :=
  match cs with
  | c :: cs' => if IsSpace c.1 then drop_space cs' else cs
  | [] => []
  end.

(** [strings.TrimSpace]. *)
Definition TrimSpace (s : string) : string :=
  of_bytes (concat (map snd (rev (drop_space (rev (drop_space (chunks (to_bytes s)))))))).

(** [strings.ContainsFunc(s, unicode.IsControl)]. *)
Definition ContainsControl (s : string) : bool := existsb IsControl (runes s).

(** [bytes.ToLower], as far as ASCII text is looked for in it: besides the capital
    letters, two runes outside ASCII have an ASCII lower case. *)
Definition lower_chunk (c : Z * bytes) : bytes :=
  let (r, enc) := c in
  if (65 <=? r) && (r <=? 90) then [ascii_of_N (Z.to_N (r + 32))]
  else if r =? 8490 then ["k"%char] else if r =? 304 then ["i"%char] else enc.
Definition lower_bytes (s : bytes) : bytes := concat (map lower_chunk (chunks s)).

(** [strings.EqualFold] with an ASCII text: besides the letters' cases, two runes outside
    ASCII fold to an ASCII letter. *)
Definition fold_rune (r : Z) : Z :=
  if (97 <=? r) && (r <=? 122) then r - 32 else if r =? 383 then 83 else if r =? 8490 then 75 else r.
Definition EqualFold (a b : string) : bool := bool_decide (map fold_rune (runes a) = map fold_rune (runes b)).

(** * Facts *)

Lemma DecodeRune_size (p : bytes) :
  p <> [] -> (1 <= (DecodeRune p).2 <= List.length p)%nat.
Proof.
  intros Hp. unfold DecodeRune. destruct p as [|c0 p]; [done|]. simpl.
  destruct (byte_of c0 <? 128); simpl; [lia|].
  destruct (lead_byte (byte_of c0)) as [[[n lo] hi]|]; [|simpl; lia].
  destruct n as [|[|[|[|[|n]]]]]; destruct p as [|c1 [|c2 [|c3 p]]]; simpl; try lia;
    case_match; simpl; lia.
Qed.

Lemma rune_chunks_concat (fuel : nat) (p : bytes) :
  (List.length p <= fuel)%nat -> concat (map snd (rune_chunks fuel p)) = p.
Proof.
  revert p. induction fuel as [|fuel IH]; intros [|c p] Hlen; simpl in *; try done; try lia.
  pose proof (DecodeRune_size (c :: p) ltac:(done)) as Hs.
  destruct (DecodeRune (c :: p)) as [r size]. simpl in Hs. destruct size as [|size]; [lia|].
  cbn [map concat]. rewrite IH; [apply take_drop|]. rewrite length_drop. simpl in *. lia.
Qed.

(** The chunks of a byte string are the byte string, cut. *)
Lemma chunks_concat (p : bytes) : concat (map snd (chunks p)) = p.
Proof. by apply rune_chunks_concat. Qed.

Lemma DecodeRune_ascii (c : ascii) (p : bytes) :
  byte_of c < 128 -> DecodeRune (c :: p) = (byte_of c, 1%nat).
Proof. intros H. unfold DecodeRune. simpl. by rewrite (proj2 (Z.ltb_lt _ _) H). Qed.

(** On ASCII text the runes are the bytes. *)
Lemma chunks_ascii (p : bytes) :
  Forall (fun c => byte_of c < 128) p -> chunks p = map (fun c => (byte_of c, [c])) p.
Proof.
  unfold chunks. induction 1 as [|c p Hc _ IH]; [done|].
  cbn [List.length rune_chunks]. rewrite (DecodeRune_ascii c p Hc).
  simpl. rewrite drop_0, IH. done.
Qed.

Lemma continuation_high (c : ascii) : continuation (byte_of c) = true -> 128 <= byte_of c.
Proof. unfold continuation. intros [H _]%andb_true_iff. by apply Z.leb_le. Qed.

Lemma DecodeRune_high (p : bytes) :
  (2 <= (DecodeRune p).2)%nat -> Forall (fun c => 128 <= byte_of c) (take (DecodeRune p).2 p).
Proof.
  unfold DecodeRune. destruct p as [|c0 p]; [simpl; lia|]. cbn [map].
  destruct (Z.ltb_spec (byte_of c0) 128) as [|H0]; [simpl; lia|].
  unfold lead_byte.
  repeat match goal with
    | |- context [if (?a <=? byte_of c0) && (byte_of c0 <=? ?b) then _ else _] =>
        destruct ((a <=? byte_of c0) && (byte_of c0 <=? b))
    | |- context [if byte_of c0 =? ?a then _ else _] => destruct (byte_of c0 =? a)
    end; destruct p as [|c1 [|c2 [|c3 p]]]; simpl; try lia;
  match goal with
    | |- context [if ?b then _ else _] => destruct b eqn:Hb
    end; simpl; try lia; intros _;
  repeat (apply andb_true_iff in Hb as [Hb ?]);
  repeat match goal with
    | H : continuation _ = true |- _ => apply continuation_high in H
    | H : (_ <=? _) = true |- _ => apply Z.leb_le in H
    end;
  repeat constructor; lia.
Qed.

Lemma rune_chunks_shape (fuel : nat) (p : bytes) :
  Forall (fun chunk => (exists c, chunk.2 = [c]) \/
                       Forall (fun c => 128 <= byte_of c) chunk.2) (rune_chunks fuel p).
Proof.
  revert p. induction fuel as [|fuel IH]; intros [|c p]; simpl; try constructor.
  pose proof (DecodeRune_size (c :: p) ltac:(done)) as Hs.
  pose proof (DecodeRune_high (c :: p)) as Hh.
  destruct (DecodeRune (c :: p)) as [r size]. simpl in Hs, Hh. constructor; [|apply IH].
  simpl. destruct size as [|[|size]]; [lia|left|right; apply Hh; lia]. by exists c.
Qed.
Lemma chunks_shape (p : bytes) :
  Forall (fun chunk => (exists c, chunk.2 = [c]) \/
                       Forall (fun c => 128 <= byte_of c) chunk.2) (chunks p).
Proof. apply rune_chunks_shape. Qed.

(** A rune below 128 is its one byte. *)
Lemma DecodeRune_low (c : ascii) (p : bytes) :
  (DecodeRune (c :: p)).1 < 128 -> DecodeRune (c :: p) = (byte_of c, 1%nat).
Proof.
  unfold DecodeRune. cbn [map]. destruct (Z.ltb_spec (byte_of c) 128) as [|H0]; [done|].
  destruct (lead_byte (byte_of c)) as [[[n lo] hi]|] eqn:Hl; [|simpl; unfold RuneError; lia].
  assert (192 <= byte_of c /\ (n = 3%nat -> 224 <= byte_of c /\ (byte_of c = 224 -> lo = 160)) /\
          (n = 4%nat -> 240 <= byte_of c /\ (byte_of c = 240 -> lo = 144)) /\ (n = 2%nat -> 194 <= byte_of c) /\ 128 <= lo) as (H1 & H3 & H4 & H2 & Hlo).
  { unfold lead_byte in Hl.
    repeat match type of Hl with (if ?b then _ else _) = _ => destruct b eqn:? end; simplify_eq;
      repeat (rewrite ?andb_true_iff, ?Z.leb_le, ?Z.eqb_eq in * ); lia. }
  destruct n as [|[|[|[|[|n]]]]]; destruct p as [|c1 [|c2 [|c3 p]]]; simpl; unfold RuneError; try lia;
    case_match; simpl; unfold continuation in *; try lia;
    rewrite ?andb_true_iff, ?Z.leb_le in *; lia.
Qed.
Lemma rune_chunks_low (fuel : nat) (p : bytes) :
  Forall (fun chunk => chunk.1 < 128 -> exists c, chunk = (byte_of c, [c])) (rune_chunks fuel p).
Proof.
  revert p. induction fuel as [|fuel IH]; intros [|c p]; simpl; try constructor.
  pose proof (DecodeRune_low c p) as Hl. destruct (DecodeRune (c :: p)) as [r size]. simpl in Hl.
  constructor; [|apply IH]. simpl. intros Hr. specialize (Hl Hr). injection Hl as -> ->. by exists c.
Qed.
Lemma chunks_low (p : bytes) : Forall (fun chunk => chunk.1 < 128 -> exists c, chunk = (byte_of c, [c])) (chunks p).
Proof. apply rune_chunks_low. Qed.
