(* ===== verification/Trace.v ===== *)
(** A program logic for the calls a computation makes.  A component's model calls
    its interfaces as functions of a world [W].  To state which calls happen, in
    which order and with which outcome, the interfaces are replaced by ones that
    also append an event to a trace ([logged]); the model itself is unchanged.
    [emits m P] says that whatever the world answers, [m] appends some events
    [evs] and returns some [a] with [P a evs]. *)

From S2P Require Import Prelude.

Section Trace.
Context {W E : Type}.

(** A call of the world, logged with its outcome. *)
Definition logged {A : Type} (event : A -> E) (m : M W A) : M (W * list E) A :=
  fun s => match m s.1 with (a, w) => (a, (w, s.2 ++ [event a])) end.

(** A call that is not part of the trace. *)
Definition silent {A : Type} (m : M W A) : M (W * list E) A :=
  fun s => match m s.1 with (a, w) => (a, (w, s.2)) end.

Definition emits {A : Type} (m : M (W * list E) A) (P : A -> list E -> Prop) : Prop :=
  forall w t, exists evs, (m (w, t)).2.2 = t ++ evs /\ P (m (w, t)).1 evs.

Lemma emits_ret {A} (a : A) (P : A -> list E -> Prop) : P a [] -> emits (ret a) P.
Proof. intros H w t. exists []. by rewrite app_nil_r. Qed.

Lemma emits_logged {A} (event : A -> E) (m : M W A) (P : A -> list E -> Prop) :
  (forall a, P a [event a]) -> emits (logged event m) P.
Proof. intros H w t. unfold logged. simpl. destruct (m w) as [a w']. by exists [event a]. Qed.

Lemma emits_silent {A} (m : M W A) (P : A -> list E -> Prop) :
  (forall a, P a []) -> emits (silent m) P.
Proof.
  intros H w t. unfold silent. simpl. destruct (m w) as [a w']. exists [].
  by rewrite app_nil_r.
Qed.

Lemma emits_bind {A B} (m : M (W * list E) A) (f : A -> M (W * list E) B) P Q :
  emits m P ->
  (forall a evs, P a evs -> emits (f a) (fun b evs' => Q b (evs ++ evs'))) ->
  emits (bind m f) Q.
Proof.
  intros Hm Hf w t. unfold bind. destruct (Hm w t) as (evs & Ht & HP).
  destruct (m (w, t)) as [a [w' t']]. simpl in *. subst t'.
  destruct (Hf a evs HP w' (t ++ evs)) as (evs' & Ht' & HQ).
  exists (evs ++ evs'). by rewrite Ht', app_assoc.
Qed.

(** A logged call followed by the rest. *)
Lemma emits_call {A B} (event : A -> E) (m : M W A) (f : A -> M (W * list E) B) Q :
  (forall a, emits (f a) (fun b evs => Q b (event a :: evs))) ->
  emits (bind (logged event m) f) Q.
Proof.
  intros H. apply (emits_bind _ _ (fun a evs => evs = [event a])).
  - by apply emits_logged.
  - intros a evs ->. apply H.
Qed.

Lemma emits_read {A B} (m : M W A) (f : A -> M (W * list E) B) Q :
  (forall a, emits (f a) Q) -> emits (bind (silent m) f) Q.
Proof.
  intros H. apply (emits_bind _ _ (fun a evs => evs = [])).
  - by apply emits_silent.
  - intros a evs ->. apply H.
Qed.

Lemma emits_mono {A} (m : M (W * list E) A) (P Q : A -> list E -> Prop) :
  emits m P -> (forall a evs, P a evs -> Q a evs) -> emits m Q.
Proof. intros Hm HPQ w t. destruct (Hm w t) as (evs & ? & ?). eauto. Qed.

Lemma emits_and {A} (m : M (W * list E) A) (P Q : A -> list E -> Prop) :
  emits m P -> emits m Q -> emits m (fun a evs => P a evs /\ Q a evs).
Proof.
  intros HP HQ w t. destruct (HP w t) as (evs & He & ?), (HQ w t) as (evs' & He' & ?).
  exists evs. rewrite He in He'. apply app_inv_head in He'. subst. done.
Qed.

Lemma emits_assoc {A B C} (m : M (W * list E) A) (f : A -> M (W * list E) B)
    (g : B -> M (W * list E) C) Q :
  emits (bind (bind m f) g) Q -> emits (bind m (fun a => bind (f a) g)) Q.
Proof.
  intros Hm w t. destruct (Hm w t) as (evs & He & HQ). exists evs. unfold bind in *.
  by destruct (m (w, t)) as [a s].
Qed.

Lemma emits_flatten {A B C} (m : M (W * list E) A) (f : A -> M (W * list E) B)
    (g : B -> M (W * list E) C) Q :
  emits (bind m (fun a => bind (f a) g)) Q -> emits (bind (bind m f) g) Q.
Proof.
  intros Hm w t. destruct (Hm w t) as (evs & He & HQ). exists evs. unfold bind in *.
  by destruct (m (w, t)) as [a s].
Qed.

Lemma emits_bind_ret {A B} (a : A) (g : A -> M (W * list E) B) Q :
  emits (g a) Q -> emits (bind (ret a) g) Q.
Proof. done. Qed.

(** A read of the world whose answers satisfy [R]. *)
Lemma emits_read_such {A B} (m : M W A) (R : A -> Prop) (f : A -> M (W * list E) B) Q :
  (forall w, R (m w).1) -> (forall a, R a -> emits (f a) Q) -> emits (bind (silent m) f) Q.
Proof.
  intros HR H. apply (emits_bind _ _ (fun a evs => evs = [] /\ R a)).
  - intros w t. unfold silent. simpl. specialize (HR w). destruct (m w) as [a w']. exists [].
    by rewrite app_nil_r.
  - intros a evs [-> Ha]. by apply H.
Qed.

(** A logged call whose answers satisfy [R]. *)
Lemma emits_call_such {A B} (event : A -> E) (m : M W A) (R : A -> Prop) (f : A -> M (W * list E) B) Q :
  (forall w, R (m w).1) -> (forall a, R a -> emits (f a) (fun b evs => Q b (event a :: evs))) ->
  emits (bind (logged event m) f) Q.
Proof.
  intros HR H. apply (emits_bind _ _ (fun a evs => evs = [event a] /\ R a)).
  - intros w t. unfold logged. simpl. specialize (HR w). destruct (m w) as [a w']. by exists [event a].
  - intros a evs [-> Ha]. by apply H.
Qed.

(** From the empty trace. *)
Lemma emits_run {A} (m : M (W * list E) A) P w :
  emits m P -> P (m (w, [])).1 (m (w, [])).2.2.
Proof. intros Hm. destruct (Hm w []) as (evs & -> & HP). done. Qed.
End Trace.

(** The clock and the contexts are not part of a trace. *)
#[export] Instance traced_runtime {W E} `{Runtime W} : Runtime (W * list E) :=
  {| time_Now := silent time_Now; ctx_Err ctx := silent (ctx_Err ctx) |}.

(** One step of an [emits] proof: the next call, read or result. *)
Ltac emits_step :=
  first
    [ apply emits_call; intros ?
    | apply emits_read; intros ?
    | apply emits_ret
    | apply emits_bind_ret
    | apply emits_flatten
    | match goal with |- emits (bind (match ?x with _ => _ end) _) _ => destruct x end
    | match goal with |- emits (bind (let (_, _) := ?x in _) _) _ => destruct x end
    | match goal with |- emits (match ?x with _ => _ end) _ => destruct x end
    | match goal with |- emits (let (_, _) := ?x in _) _ => destruct x end ].
Ltac emits_steps := repeat (emits_step; cbv beta).

(** * Results *)

(** Whatever the world answers, the result satisfies [P]. *)
Definition gives {W A} (m : M W A) (P : A -> Prop) : Prop := forall w, P (m w).1.
Lemma gives_ret {W A} (a : A) (P : A -> Prop) : P a -> gives (W := W) (ret a) P.
Proof. intros H w. exact H. Qed.
Lemma gives_bind {W A B} (m : M W A) (f : A -> M W B) (P : B -> Prop) : (forall a, gives (f a) P) -> gives (bind m f) P.
Proof. intros H w. unfold bind. destruct (m w) as [a w']. apply H. Qed.
Lemma gives_bind_such {W A B} (m : M W A) (f : A -> M W B) (R : A -> Prop) (P : B -> Prop) :
  gives m R -> (forall a, R a -> gives (f a) P) -> gives (bind m f) P.
Proof. intros Hm H w. unfold bind. specialize (Hm w). destruct (m w) as [a w']. by apply H. Qed.
