(* ===== verification/Core.v ===== *)
(** The data types of [pkg/core] and its helper functions: task and run data
    ([types.go], [bridge.go]), [RuntimeName] ([runtime_name.go]), endpoint hosts
    ([endpoint.go]), MCP server validation ([mcp.go]) and the secret parts a log
    scrubber removes ([redact.go]).

    Records keep Go's field names behind a two-letter prefix of the struct.
    A [time.Duration] and a [time.Time] are nanoseconds in [Z]; a pointer to a
    value is an [option]; a slice is a [list]; a [map[string]string] is a
    [gmap string string].  JSON tags carry no behaviour here. *)

From stdpp Require Import sorting.
From S2P Require Import Prelude Utf8.

(** * Task description *)

(** [TaskMCPService] of types.go. *)
Record TaskMCPService := {
  ms_Name : string;
  ms_Port : Z;
  ms_Path : string;
  ms_Transport : string;
  ms_TimeoutSeconds : Z
}.

(** [TaskServices] of types.go. *)
Record TaskServices := {
  ts_SearchPort : Z;
  ts_MCP : list TaskMCPService
}.

(** [Environment] of types.go. *)
Record Environment := {
  en_Image : string;
  en_Workdir : string;
  en_CPU : float64;
  en_MemoryMB : Z;
  en_StorageMB : Z;
  en_GPUs : Z;
  en_AllowNetwork : bool;
  en_Env : gmap string string;
  en_Services : TaskServices;
  en_ExecUser : string
}.

Definition set_en_CPU (x : float64) (r : Environment) : Environment :=
  {| en_Image := en_Image r;
     en_Workdir := en_Workdir r;
     en_CPU := x;
     en_MemoryMB := en_MemoryMB r;
     en_StorageMB := en_StorageMB r;
     en_GPUs := en_GPUs r;
     en_AllowNetwork := en_AllowNetwork r;
     en_Env := en_Env r;
     en_Services := en_Services r;
     en_ExecUser := en_ExecUser r |}.

Definition set_en_MemoryMB (x : Z) (r : Environment) : Environment :=
  {| en_Image := en_Image r;
     en_Workdir := en_Workdir r;
     en_CPU := en_CPU r;
     en_MemoryMB := x;
     en_StorageMB := en_StorageMB r;
     en_GPUs := en_GPUs r;
     en_AllowNetwork := en_AllowNetwork r;
     en_Env := en_Env r;
     en_Services := en_Services r;
     en_ExecUser := en_ExecUser r |}.

Definition set_en_Env (x : gmap string string) (r : Environment) : Environment :=
  {| en_Image := en_Image r;
     en_Workdir := en_Workdir r;
     en_CPU := en_CPU r;
     en_MemoryMB := en_MemoryMB r;
     en_StorageMB := en_StorageMB r;
     en_GPUs := en_GPUs r;
     en_AllowNetwork := en_AllowNetwork r;
     en_Env := x;
     en_Services := en_Services r;
     en_ExecUser := en_ExecUser r |}.

(** [Task] of types.go. *)
Record Task := {
  tk_ID : string;
  tk_Instruction : string;
  tk_Timeout : Z;
  tk_Environment : Environment;
  tk_NoSandboxTools : bool
}.

Definition SandboxPurposeEvaluation : string := "evaluation".

(** [SandboxRequest] of types.go. *)
Record SandboxRequest := {
  sr_RunID : string;
  sr_TaskID : string;
  sr_Purpose : string;
  sr_Environment : Environment
}.

(** [Command] of types.go. *)
Record Command := {
  cm_Path : string;
  cm_Args : list string;
  cm_Dir : string;
  cm_Env : gmap string string;
  cm_Stdin : bytes;
  cm_Timeout : Z;
  cm_User : string;
  cm_OutputLimitBytes : Z
}.

Definition set_cm_Dir (x : string) (r : Command) : Command :=
  {| cm_Path := cm_Path r;
     cm_Args := cm_Args r;
     cm_Dir := x;
     cm_Env := cm_Env r;
     cm_Stdin := cm_Stdin r;
     cm_Timeout := cm_Timeout r;
     cm_User := cm_User r;
     cm_OutputLimitBytes := cm_OutputLimitBytes r |}.

Definition set_cm_User (x : string) (r : Command) : Command :=
  {| cm_Path := cm_Path r;
     cm_Args := cm_Args r;
     cm_Dir := cm_Dir r;
     cm_Env := cm_Env r;
     cm_Stdin := cm_Stdin r;
     cm_Timeout := cm_Timeout r;
     cm_User := x;
     cm_OutputLimitBytes := cm_OutputLimitBytes r |}.

(** [CommandResult] of types.go. *)
Record CommandResult := {
  cr_ExitCode : Z;
  cr_Stdout : string;
  cr_Stderr : string;
  cr_Duration : Z
}.

(** [GPUResourceReading] of types.go. *)
Record GPUResourceReading := {
  gp_Index : Z;
  gp_UUID : string;
  gp_UtilizationPercent : option float64;
  gp_MemoryUtilizationPercent : option float64;
  gp_MemoryUsageBytes : Z;
  gp_MemoryTotalBytes : Z;
  gp_PowerWatts : option float64;
  gp_TemperatureCelsius : option float64
}.

(** [ResourceReading] of types.go; the counters are [uint64]. *)
Record ResourceReading := {
  rr_Scope : string;
  rr_RunID : string;
  rr_TaskID : string;
  rr_Component : string;
  rr_RuntimeID : string;
  rr_RuntimeName : string;
  rr_ObservedAt : Z;
  rr_CPUUsageNanoseconds : Z;
  rr_MemoryUsageBytes : Z;
  rr_MemoryLimitBytes : Z;
  rr_GPU : option GPUResourceReading
}.

Definition set_rr_ObservedAt (x : Z) (r : ResourceReading) : ResourceReading :=
  {| rr_Scope := rr_Scope r;
     rr_RunID := rr_RunID r;
     rr_TaskID := rr_TaskID r;
     rr_Component := rr_Component r;
     rr_RuntimeID := rr_RuntimeID r;
     rr_RuntimeName := rr_RuntimeName r;
     rr_ObservedAt := x;
     rr_CPUUsageNanoseconds := rr_CPUUsageNanoseconds r;
     rr_MemoryUsageBytes := rr_MemoryUsageBytes r;
     rr_MemoryLimitBytes := rr_MemoryLimitBytes r;
     rr_GPU := rr_GPU r |}.

(** [ModelConfig] of types.go. *)
Record ModelConfig := {
  mc_Provider : string;
  mc_BaseURL : string;
  mc_Model : string;
  mc_APIKeyEnv : string;
  mc_ReasoningEffort : string;
  mc_ContextLength : Z;
  mc_MaxTokens : Z;
  mc_Temperature : option float64
}.

(** [BridgeTarget] of bridge.go. *)
Record BridgeTarget := {
  bt_SandboxID : string;
  bt_RunID : string;
  bt_TaskID : string;
  bt_Backend : string;
  bt_RuntimeID : string;
  bt_Workdir : string;
  bt_ExecUser : string
}.

(** [ToolEndpoint] of types.go. *)
Record ToolEndpoint := {
  te_Protocol : string;
  te_Address : string;
  te_Username : string;
  te_ClientCommand : string;
  te_ClientSourceFile : string;
  te_LogPaths : list string;
  te_Workdir : string
}.

Definition no_ToolEndpoint : ToolEndpoint :=
  {| te_Protocol := ""; te_Address := ""; te_Username := ""; te_ClientCommand := "";
     te_ClientSourceFile := ""; te_LogPaths := []; te_Workdir := "" |}.

(** [MCPServerConfig] of mcp.go. *)
Record MCPServerConfig := {
  mp_Name : string;
  mp_Command : string;
  mp_Args : list string;
  mp_URL : string;
  mp_Transport : string;
  mp_TimeoutSeconds : Z;
  mp_Env : gmap string string;
  mp_SecretEnv : gmap string string
}.

(** [RuntimePlacement] of types.go. *)
Record RuntimePlacement := {
  rp_AttachmentID : string
}.

(** [HarnessConnectivity] of types.go. *)
Record HarnessConnectivity := {
  hc_Placement : RuntimePlacement;
  hc_SearchURL : string;
  hc_MCPServers : list MCPServerConfig
}.

(** [HarnessRequest] of types.go. *)
Record HarnessRequest := {
  hq_Connectivity : HarnessConnectivity;
  hq_RunID : string;
  hq_TaskID : string;
  hq_Endpoint : ToolEndpoint;
  hq_Model : ModelConfig;
  hq_Timeout : Z;
  hq_CPU : option float64;
  hq_MemoryMB : option Z;
  hq_OutputDir : string;
  hq_NoSandboxTools : bool
}.

(** * Outcomes *)

Definition StatusNotStarted : string := "not_started".
Definition StatusNotRun : string := "not_run".
Definition StatusSucceeded : string := "succeeded".
Definition StatusFailed : string := "failed".
Definition StatusCanceled : string := "canceled".
Definition StatusConfirmed : string := "confirmed".
Definition StatusBlockedIsolation : string := "blocked_isolation".
Definition StatusNotEnabled : string := "not_enabled".
Definition StatusNotNeeded : string := "not_needed".
Definition StatusUnsupported : string := "unsupported".

(** [HarnessResult] of types.go. *)
Record HarnessResult := {
  hr_Status : string;
  hr_FinalResponse : string;
  hr_Duration : Z;
  hr_LogPaths : list string;
  hr_Error : string
}.

Definition set_hr_Status (x : string) (r : HarnessResult) : HarnessResult :=
  {| hr_Status := x;
     hr_FinalResponse := hr_FinalResponse r;
     hr_Duration := hr_Duration r;
     hr_LogPaths := hr_LogPaths r;
     hr_Error := hr_Error r |}.

Definition set_hr_Error (x : string) (r : HarnessResult) : HarnessResult :=
  {| hr_Status := hr_Status r;
     hr_FinalResponse := hr_FinalResponse r;
     hr_Duration := hr_Duration r;
     hr_LogPaths := hr_LogPaths r;
     hr_Error := x |}.

(** [IsolationResult] of types.go. *)
Record IsolationResult := {
  ir_Status : string;
  ir_HarnessStopped : bool;
  ir_BridgeRevoked : bool;
  ir_Error : string
}.

(** [Evaluation] of types.go. *)
Record Evaluation := {
  ev_Status : string;
  ev_Score : float64;
  ev_Reward : float64;
  ev_VerifierStatus : string;
  ev_Duration : Z;
  ev_LogPaths : list string;
  ev_Error : string
}.

Definition set_ev_Status (x : string) (r : Evaluation) : Evaluation :=
  {| ev_Status := x;
     ev_Score := ev_Score r;
     ev_Reward := ev_Reward r;
     ev_VerifierStatus := ev_VerifierStatus r;
     ev_Duration := ev_Duration r;
     ev_LogPaths := ev_LogPaths r;
     ev_Error := ev_Error r |}.

Definition set_ev_Error (x : string) (r : Evaluation) : Evaluation :=
  {| ev_Status := ev_Status r;
     ev_Score := ev_Score r;
     ev_Reward := ev_Reward r;
     ev_VerifierStatus := ev_VerifierStatus r;
     ev_Duration := ev_Duration r;
     ev_LogPaths := ev_LogPaths r;
     ev_Error := x |}.

(** [ObserverResult] of types.go. *)
Record ObserverResult := {
  ob_Reason : string;
  ob_Status : string;
  ob_Duration : Z;
  ob_SampleCount : Z;
  ob_LogPaths : list string;
  ob_Error : string
}.

Definition set_ob_Status (x : string) (r : ObserverResult) : ObserverResult :=
  {| ob_Reason := ob_Reason r;
     ob_Status := x;
     ob_Duration := ob_Duration r;
     ob_SampleCount := ob_SampleCount r;
     ob_LogPaths := ob_LogPaths r;
     ob_Error := ob_Error r |}.

Definition set_ob_Error (x : string) (r : ObserverResult) : ObserverResult :=
  {| ob_Reason := ob_Reason r;
     ob_Status := ob_Status r;
     ob_Duration := ob_Duration r;
     ob_SampleCount := ob_SampleCount r;
     ob_LogPaths := ob_LogPaths r;
     ob_Error := x |}.

(** [CleanupResult] of types.go. *)
Record CleanupResult := {
  cl_Status : string;
  cl_Error : string
}.

(** [TaskResult] of types.go. *)
Record TaskResult := {
  tr_TaskID : string;
  tr_ToolLogPaths : list string;
  tr_Harness : HarnessResult;
  tr_Isolation : IsolationResult;
  tr_Evaluation : Evaluation;
  tr_Observer : ObserverResult;
  tr_Cleanup : CleanupResult;
  tr_Error : string;
  tr_StartedAt : Z;
  tr_Duration : Z
}.

Definition set_tr_ToolLogPaths (x : list string) (r : TaskResult) : TaskResult :=
  {| tr_TaskID := tr_TaskID r;
     tr_ToolLogPaths := x;
     tr_Harness := tr_Harness r;
     tr_Isolation := tr_Isolation r;
     tr_Evaluation := tr_Evaluation r;
     tr_Observer := tr_Observer r;
     tr_Cleanup := tr_Cleanup r;
     tr_Error := tr_Error r;
     tr_StartedAt := tr_StartedAt r;
     tr_Duration := tr_Duration r |}.

Definition set_tr_Harness (x : HarnessResult) (r : TaskResult) : TaskResult :=
  {| tr_TaskID := tr_TaskID r;
     tr_ToolLogPaths := tr_ToolLogPaths r;
     tr_Harness := x;
     tr_Isolation := tr_Isolation r;
     tr_Evaluation := tr_Evaluation r;
     tr_Observer := tr_Observer r;
     tr_Cleanup := tr_Cleanup r;
     tr_Error := tr_Error r;
     tr_StartedAt := tr_StartedAt r;
     tr_Duration := tr_Duration r |}.

Definition set_tr_Isolation (x : IsolationResult) (r : TaskResult) : TaskResult :=
  {| tr_TaskID := tr_TaskID r;
     tr_ToolLogPaths := tr_ToolLogPaths r;
     tr_Harness := tr_Harness r;
     tr_Isolation := x;
     tr_Evaluation := tr_Evaluation r;
     tr_Observer := tr_Observer r;
     tr_Cleanup := tr_Cleanup r;
     tr_Error := tr_Error r;
     tr_StartedAt := tr_StartedAt r;
     tr_Duration := tr_Duration r |}.

Definition set_tr_Evaluation (x : Evaluation) (r : TaskResult) : TaskResult :=
  {| tr_TaskID := tr_TaskID r;
     tr_ToolLogPaths := tr_ToolLogPaths r;
     tr_Harness := tr_Harness r;
     tr_Isolation := tr_Isolation r;
     tr_Evaluation := x;
     tr_Observer := tr_Observer r;
     tr_Cleanup := tr_Cleanup r;
     tr_Error := tr_Error r;
     tr_StartedAt := tr_StartedAt r;
     tr_Duration := tr_Duration r |}.

Definition set_tr_Observer (x : ObserverResult) (r : TaskResult) : TaskResult :=
  {| tr_TaskID := tr_TaskID r;
     tr_ToolLogPaths := tr_ToolLogPaths r;
     tr_Harness := tr_Harness r;
     tr_Isolation := tr_Isolation r;
     tr_Evaluation := tr_Evaluation r;
     tr_Observer := x;
     tr_Cleanup := tr_Cleanup r;
     tr_Error := tr_Error r;
     tr_StartedAt := tr_StartedAt r;
     tr_Duration := tr_Duration r |}.

Definition set_tr_Cleanup (x : CleanupResult) (r : TaskResult) : TaskResult :=
  {| tr_TaskID := tr_TaskID r;
     tr_ToolLogPaths := tr_ToolLogPaths r;
     tr_Harness := tr_Harness r;
     tr_Isolation := tr_Isolation r;
     tr_Evaluation := tr_Evaluation r;
     tr_Observer := tr_Observer r;
     tr_Cleanup := x;
     tr_Error := tr_Error r;
     tr_StartedAt := tr_StartedAt r;
     tr_Duration := tr_Duration r |}.

Definition set_tr_Error (x : string) (r : TaskResult) : TaskResult :=
  {| tr_TaskID := tr_TaskID r;
     tr_ToolLogPaths := tr_ToolLogPaths r;
     tr_Harness := tr_Harness r;
     tr_Isolation := tr_Isolation r;
     tr_Evaluation := tr_Evaluation r;
     tr_Observer := tr_Observer r;
     tr_Cleanup := tr_Cleanup r;
     tr_Error := x;
     tr_StartedAt := tr_StartedAt r;
     tr_Duration := tr_Duration r |}.

Definition set_tr_StartedAt (x : Z) (r : TaskResult) : TaskResult :=
  {| tr_TaskID := tr_TaskID r;
     tr_ToolLogPaths := tr_ToolLogPaths r;
     tr_Harness := tr_Harness r;
     tr_Isolation := tr_Isolation r;
     tr_Evaluation := tr_Evaluation r;
     tr_Observer := tr_Observer r;
     tr_Cleanup := tr_Cleanup r;
     tr_Error := tr_Error r;
     tr_StartedAt := x;
     tr_Duration := tr_Duration r |}.

Definition set_tr_Duration (x : Z) (r : TaskResult) : TaskResult :=
  {| tr_TaskID := tr_TaskID r;
     tr_ToolLogPaths := tr_ToolLogPaths r;
     tr_Harness := tr_Harness r;
     tr_Isolation := tr_Isolation r;
     tr_Evaluation := tr_Evaluation r;
     tr_Observer := tr_Observer r;
     tr_Cleanup := tr_Cleanup r;
     tr_Error := tr_Error r;
     tr_StartedAt := tr_StartedAt r;
     tr_Duration := x |}.

(** [RunSummary] of types.go. *)
Record RunSummary := {
  rs_Tasks : Z;
  rs_HarnessSucceeded : Z;
  rs_HarnessFailed : Z;
  rs_EvaluationsRun : Z;
  rs_EvaluationsSucceeded : Z;
  rs_EvaluationsFailed : Z;
  rs_EvaluationsBlocked : Z;
  rs_CleanupFailed : Z
}.

(** [InfrastructureResult] of types.go. *)
Record InfrastructureResult := {
  fr_NetworkID : string;
  fr_NetworkName : string;
  fr_NetworkPolicy : string;
  fr_BridgeRuntimeID : string;
  fr_BridgeRuntimeName : string;
  fr_Observer : ObserverResult;
  fr_Cleanup : CleanupResult;
  fr_Error : string;
  fr_StartupDuration : Z;
  fr_CleanupDuration : Z
}.

Definition set_fr_NetworkID (x : string) (r : InfrastructureResult) : InfrastructureResult :=
  {| fr_NetworkID := x;
     fr_NetworkName := fr_NetworkName r;
     fr_NetworkPolicy := fr_NetworkPolicy r;
     fr_BridgeRuntimeID := fr_BridgeRuntimeID r;
     fr_BridgeRuntimeName := fr_BridgeRuntimeName r;
     fr_Observer := fr_Observer r;
     fr_Cleanup := fr_Cleanup r;
     fr_Error := fr_Error r;
     fr_StartupDuration := fr_StartupDuration r;
     fr_CleanupDuration := fr_CleanupDuration r |}.

Definition set_fr_NetworkName (x : string) (r : InfrastructureResult) : InfrastructureResult :=
  {| fr_NetworkID := fr_NetworkID r;
     fr_NetworkName := x;
     fr_NetworkPolicy := fr_NetworkPolicy r;
     fr_BridgeRuntimeID := fr_BridgeRuntimeID r;
     fr_BridgeRuntimeName := fr_BridgeRuntimeName r;
     fr_Observer := fr_Observer r;
     fr_Cleanup := fr_Cleanup r;
     fr_Error := fr_Error r;
     fr_StartupDuration := fr_StartupDuration r;
     fr_CleanupDuration := fr_CleanupDuration r |}.

Definition set_fr_NetworkPolicy (x : string) (r : InfrastructureResult) : InfrastructureResult :=
  {| fr_NetworkID := fr_NetworkID r;
     fr_NetworkName := fr_NetworkName r;
     fr_NetworkPolicy := x;
     fr_BridgeRuntimeID := fr_BridgeRuntimeID r;
     fr_BridgeRuntimeName := fr_BridgeRuntimeName r;
     fr_Observer := fr_Observer r;
     fr_Cleanup := fr_Cleanup r;
     fr_Error := fr_Error r;
     fr_StartupDuration := fr_StartupDuration r;
     fr_CleanupDuration := fr_CleanupDuration r |}.

Definition set_fr_BridgeRuntimeID (x : string) (r : InfrastructureResult) : InfrastructureResult :=
  {| fr_NetworkID := fr_NetworkID r;
     fr_NetworkName := fr_NetworkName r;
     fr_NetworkPolicy := fr_NetworkPolicy r;
     fr_BridgeRuntimeID := x;
     fr_BridgeRuntimeName := fr_BridgeRuntimeName r;
     fr_Observer := fr_Observer r;
     fr_Cleanup := fr_Cleanup r;
     fr_Error := fr_Error r;
     fr_StartupDuration := fr_StartupDuration r;
     fr_CleanupDuration := fr_CleanupDuration r |}.

Definition set_fr_BridgeRuntimeName (x : string) (r : InfrastructureResult) : InfrastructureResult :=
  {| fr_NetworkID := fr_NetworkID r;
     fr_NetworkName := fr_NetworkName r;
     fr_NetworkPolicy := fr_NetworkPolicy r;
     fr_BridgeRuntimeID := fr_BridgeRuntimeID r;
     fr_BridgeRuntimeName := x;
     fr_Observer := fr_Observer r;
     fr_Cleanup := fr_Cleanup r;
     fr_Error := fr_Error r;
     fr_StartupDuration := fr_StartupDuration r;
     fr_CleanupDuration := fr_CleanupDuration r |}.

Definition set_fr_Observer (x : ObserverResult) (r : InfrastructureResult) : InfrastructureResult :=
  {| fr_NetworkID := fr_NetworkID r;
     fr_NetworkName := fr_NetworkName r;
     fr_NetworkPolicy := fr_NetworkPolicy r;
     fr_BridgeRuntimeID := fr_BridgeRuntimeID r;
     fr_BridgeRuntimeName := fr_BridgeRuntimeName r;
     fr_Observer := x;
     fr_Cleanup := fr_Cleanup r;
     fr_Error := fr_Error r;
     fr_StartupDuration := fr_StartupDuration r;
     fr_CleanupDuration := fr_CleanupDuration r |}.

Definition set_fr_Cleanup (x : CleanupResult) (r : InfrastructureResult) : InfrastructureResult :=
  {| fr_NetworkID := fr_NetworkID r;
     fr_NetworkName := fr_NetworkName r;
     fr_NetworkPolicy := fr_NetworkPolicy r;
     fr_BridgeRuntimeID := fr_BridgeRuntimeID r;
     fr_BridgeRuntimeName := fr_BridgeRuntimeName r;
     fr_Observer := fr_Observer r;
     fr_Cleanup := x;
     fr_Error := fr_Error r;
     fr_StartupDuration := fr_StartupDuration r;
     fr_CleanupDuration := fr_CleanupDuration r |}.

Definition set_fr_Error (x : string) (r : InfrastructureResult) : InfrastructureResult :=
  {| fr_NetworkID := fr_NetworkID r;
     fr_NetworkName := fr_NetworkName r;
     fr_NetworkPolicy := fr_NetworkPolicy r;
     fr_BridgeRuntimeID := fr_BridgeRuntimeID r;
     fr_BridgeRuntimeName := fr_BridgeRuntimeName r;
     fr_Observer := fr_Observer r;
     fr_Cleanup := fr_Cleanup r;
     fr_Error := x;
     fr_StartupDuration := fr_StartupDuration r;
     fr_CleanupDuration := fr_CleanupDuration r |}.

Definition set_fr_StartupDuration (x : Z) (r : InfrastructureResult) : InfrastructureResult :=
  {| fr_NetworkID := fr_NetworkID r;
     fr_NetworkName := fr_NetworkName r;
     fr_NetworkPolicy := fr_NetworkPolicy r;
     fr_BridgeRuntimeID := fr_BridgeRuntimeID r;
     fr_BridgeRuntimeName := fr_BridgeRuntimeName r;
     fr_Observer := fr_Observer r;
     fr_Cleanup := fr_Cleanup r;
     fr_Error := fr_Error r;
     fr_StartupDuration := x;
     fr_CleanupDuration := fr_CleanupDuration r |}.

Definition set_fr_CleanupDuration (x : Z) (r : InfrastructureResult) : InfrastructureResult :=
  {| fr_NetworkID := fr_NetworkID r;
     fr_NetworkName := fr_NetworkName r;
     fr_NetworkPolicy := fr_NetworkPolicy r;
     fr_BridgeRuntimeID := fr_BridgeRuntimeID r;
     fr_BridgeRuntimeName := fr_BridgeRuntimeName r;
     fr_Observer := fr_Observer r;
     fr_Cleanup := fr_Cleanup r;
     fr_Error := fr_Error r;
     fr_StartupDuration := fr_StartupDuration r;
     fr_CleanupDuration := x |}.

(** [RunResult] of types.go. *)
Record RunResult := {
  ru_Infrastructure : option InfrastructureResult;
  ru_Name : string;
  ru_RunID : string;
  ru_Tasks : list TaskResult;
  ru_Summary : RunSummary;
  ru_Duration : Z
}.

Definition set_ru_Infrastructure (x : option InfrastructureResult) (r : RunResult) : RunResult :=
  {| ru_Infrastructure := x;
     ru_Name := ru_Name r;
     ru_RunID := ru_RunID r;
     ru_Tasks := ru_Tasks r;
     ru_Summary := ru_Summary r;
     ru_Duration := ru_Duration r |}.

Definition set_ru_Tasks (x : list TaskResult) (r : RunResult) : RunResult :=
  {| ru_Infrastructure := ru_Infrastructure r;
     ru_Name := ru_Name r;
     ru_RunID := ru_RunID r;
     ru_Tasks := x;
     ru_Summary := ru_Summary r;
     ru_Duration := ru_Duration r |}.

Definition set_ru_Summary (x : RunSummary) (r : RunResult) : RunResult :=
  {| ru_Infrastructure := ru_Infrastructure r;
     ru_Name := ru_Name r;
     ru_RunID := ru_RunID r;
     ru_Tasks := ru_Tasks r;
     ru_Summary := x;
     ru_Duration := ru_Duration r |}.

Definition set_ru_Duration (x : Z) (r : RunResult) : RunResult :=
  {| ru_Infrastructure := ru_Infrastructure r;
     ru_Name := ru_Name r;
     ru_RunID := ru_RunID r;
     ru_Tasks := ru_Tasks r;
     ru_Summary := ru_Summary r;
     ru_Duration := x |}.

Definition no_ObserverResult : ObserverResult :=
  {| ob_Reason := ""; ob_Status := ""; ob_Duration := 0; ob_SampleCount := 0;
     ob_LogPaths := []; ob_Error := "" |}.

Definition no_RunSummary : RunSummary :=
  {| rs_Tasks := 0; rs_HarnessSucceeded := 0; rs_HarnessFailed := 0;
     rs_EvaluationsRun := 0; rs_EvaluationsSucceeded := 0; rs_EvaluationsFailed := 0;
     rs_EvaluationsBlocked := 0; rs_CleanupFailed := 0 |}.

Definition no_RunResult : RunResult :=
  {| ru_Infrastructure := None; ru_Name := ""; ru_RunID := ""; ru_Tasks := [];
     ru_Summary := no_RunSummary; ru_Duration := 0 |}.

(** * tasks.go *)

(** [CloneTasks] copies the environment map and the MCP service slice of each
    task.  Values here are immutable, so the copy is the task itself. *)
Definition CloneTasks (tasks : list Task) : list Task := map (fun task => task) tasks.

(** * runtime_name.go *)

Definition runtimeTaskLimit : Z := 24.

(** [unicode.ToLower] on the runes that lower to ASCII: A to Z, U+0130 and
    U+212A.  Every other rune stays outside a to z and 0 to 9, which is all
    [RuntimeName] asks of it, and is left unchanged. *)
Definition ToLower (r : Z) : Z :=
  if (65 <=? r) && (r <=? 90) then r + 32
  else if r =? 304 then 105
  else if r =? 8490 then 107
  else r.

Definition rune_byte (r : Z) : ascii := ascii_of_N (Z.to_N r).

(** The loop body: what one character appends to [task]. *)
Definition append_hint (task : string) (character : Z) : string :=
  if ((97 <=? character) && (character <=? 122)) || ((48 <=? character) && (character <=? 57))
  then task +:+ String (rune_byte character) EmptyString
  else if (0 <? len task) && negb (HasSuffix task "-")
  then task +:+ "-"
  else task.

(** The loop, with its [break] at [runtimeTaskLimit]. *)
Fixpoint build_hint (task : string) (characters : list Z) : string :=
  match characters with
  | [] => task
  | character :: rest =>
      let task := append_hint task character in
      if len task =? runtimeTaskLimit then task else build_hint task rest
  end.

Definition RuntimeName (role taskID nonce : string) : string :=
  let task := build_hint "" (map ToLower (runes taskID)) in
  let hint := TrimSuffix task "-" in
  if String.eqb hint "" then "aries-" +:+ role +:+ "-" +:+ nonce
  else "aries-" +:+ role +:+ "-" +:+ hint +:+ "-" +:+ nonce.

(** * mcp.go *)

(** [validEnvName].  The byte index is positive exactly after the first
    character, and a rune outside ASCII is refused like each of its bytes. *)
Definition env_name_byte (first : bool) (c : ascii) : bool :=
  Ascii.eqb c "_" || is_upper c || is_lower c || (negb first && is_digit c).
Definition validEnvName (value : string) : bool :=
  match to_bytes value with
  | [] => false
  | c :: rest => env_name_byte true c && forallb (env_name_byte false) rest
  end.

(** What [url.Parse] reports that the code reads. *)
Record URL := { ur_Scheme : string; ur_Host : string }.

Section ValidateMCPServer.
(** [net/url.Parse]: [None] when it fails. *)
Variable url_Parse : string -> option URL.

Definition mcp_name_byte (c : ascii) : bool :=
  is_alnum c || Ascii.eqb c "-" || Ascii.eqb c "_".

Definition check_mcp_env (name : string) (kv : string * string) : error :=
  (refuse_if (negb (validEnvName kv.1))
   with "MCP server " +:+ quote name +:+ " env key " +:+ quote kv.1
        +:+ " is not a valid environment variable name") >>?
  (refuse_if (ContainsControl kv.2)
   with "MCP server " +:+ quote name +:+ " env value for " +:+ quote kv.1
        +:+ " contains invalid control characters").

Definition check_mcp_secret (name : string) (env : gmap string string)
    (kv : string * string) : error :=
  (refuse_if (negb (validEnvName kv.1))
   with "MCP server " +:+ quote name +:+ " secret_env key " +:+ quote kv.1
        +:+ " is not a valid environment variable name") >>?
  (refuse_if (negb (validEnvName kv.2))
   with "MCP server " +:+ quote name +:+ " secret_env value " +:+ quote kv.2 +:+ " for "
        +:+ quote kv.1 +:+ " is not a valid host environment variable name") >>?
  (refuse_if (bool_decide (is_Some (env !! kv.1)))
   with "MCP server " +:+ quote name +:+ " key " +:+ quote kv.1
        +:+ " cannot be specified in both env and secret_env").

Definition check_mcp_url (name url : string) : error :=
  match url_Parse url with
  | Some parsed =>
      refuse_if (String.eqb (ur_Host parsed) ""
        || (negb (String.eqb (ur_Scheme parsed) "http")
            && negb (String.eqb (ur_Scheme parsed) "https")))
      with "MCP server " +:+ quote name +:+ " url must be absolute HTTP(S)"
  | None => Some (ENew ("MCP server " +:+ quote name +:+ " url must be absolute HTTP(S)"))
  end.

(** [ValidateMCPServer].  The maps are visited in the order of [map_to_list];
    Go's order is unspecified, so only which error comes first depends on it. *)
Definition ValidateMCPServer (cfg : MCPServerConfig) : error :=
  let name := TrimSpace (mp_Name cfg) in
  let server := "MCP server " +:+ quote name in
  let hasCommand := negb (String.eqb (TrimSpace (mp_Command cfg)) "") in
  let hasURL := negb (String.eqb (TrimSpace (mp_URL cfg)) "") in
  let transport := mp_Transport cfg in
  (refuse_if String.eqb name "" with "MCP server name is required") >>?
  (refuse_if negb (forallb mcp_name_byte (to_bytes name))
   with "MCP server name " +:+ quote name
        +:+ " contains invalid characters (must be alphanumeric, '-', or '_')") >>?
  first_error (check_mcp_env name) (map_to_list (mp_Env cfg)) >>?
  first_error (check_mcp_secret name (mp_Env cfg)) (map_to_list (mp_SecretEnv cfg)) >>?
  (refuse_if (negb hasCommand && negb hasURL)
   with server +:+ " must specify either command or url") >>?
  (refuse_if (hasCommand && hasURL)
   with server +:+ " cannot specify both command and url") >>?
  (refuse_if (negb (String.eqb transport "" || String.eqb transport "sse"
                   || String.eqb transport "streamable-http"))
   with server +:+ " transport must be sse or streamable-http") >>?
  (refuse_if (negb (String.eqb transport "") && negb hasURL)
   with server +:+ " transport applies only to a url server") >>?
  (refuse_if (mp_TimeoutSeconds cfg <? 0)
   with server +:+ " timeout_seconds must not be negative") >>?
  (refuse_if (hasURL && negb (bool_decide (mp_Env cfg = ∅)))
   with server +:+ " env is not supported for url servers") >>?
  (refuse_if (hasURL && negb (bool_decide (mp_SecretEnv cfg = ∅)))
   with server +:+ " secret_env is not supported for url servers") >>?
  (if hasCommand then
     (refuse_if (ContainsControl (TrimSpace (mp_Command cfg)))
      with server +:+ " command contains invalid control characters") >>?
     first_error (fun arg =>
       refuse_if ContainsControl arg
       with server +:+ " argument contains invalid control characters") (mp_Args cfg)
   else None) >>?
  (if hasURL then check_mcp_url name (mp_URL cfg) else None).
End ValidateMCPServer.

(** * redact.go *)

Definition MinSecretLength : Z := 8.
Definition MinSecretPartLength : Z := 16.

(** A decoded JSON value; an object lists its members in visiting order. *)
Inductive json :=
  | JNull
  | JBool (b : bool)
  | JNumber (text : string)
  | JString (s : string)
  | JArray (items : list json)
  | JObject (members : list (string * json)).

(** [jsonStrings]: the visited strings, in order. *)
Fixpoint jsonStrings (value : json) : list string :=
  match value with
  | JString s => [s]
  | JArray items => flat_map jsonStrings items
  | JObject members => flat_map (fun m => jsonStrings m.2) members
  | _ => []
  end.

(** The value of an object's key; of a duplicate the last. *)
Definition json_member (key : string) (members : list (string * json)) : option json :=
  snd <$> List.find (fun m => String.eqb m.1 key) (rev members).

(** [slices.SortStableFunc] by decreasing length. *)
Fixpoint insert_longest (size : string -> Z) (x : string) (l : list string) : list string :=
  match l with
  | [] => [x]
  | y :: rest => if size y <=? size x then x :: l else y :: insert_longest size x rest
  end.
Definition sort_longest (l : list string) : list string :=
  foldr (insert_longest len) [] l.

(** Byte buffers, by address.  [clear] zeroes one; a key lookup hands over a buffer
    ([None]: the name is not set). *)
Abbreviation Heap := (gmap nat bytes).
Definition KeyLookup := string -> Heap -> option nat * Heap.
Definition contents (heap : Heap) (address : nat) : bytes := default [] (heap !! address).
Definition clear_buffer (address : nat) (heap : Heap) : Heap := alter (map (fun _ => NUL)) address heap.
(** A new buffer, and [bytes.Clone]. *)
Definition alloc (content : bytes) (h : Heap) : nat * Heap :=
  let address := fresh (dom h) in (address, <[address := content]> h).

Section SecretParts.
(** [encoding/json.Unmarshal] into an [any]: [None] when it fails. *)
Variable json_Unmarshal : string -> option json.

(** The closure [add], on its captured [seen] and [parts]. *)
Definition add_form (minimum : Z) (acc : gset string * list string) (form : string) :
    gset string * list string :=
  let (seen, parts) := acc in
  if len form <? minimum then acc
  else if bool_decide (form ∈ seen) then acc
  else ({[form]} ∪ seen, parts ++ [form]).
Definition add_part (minimum : Z) (acc : gset string * list string) (candidate : string) :
    gset string * list string :=
  fold_left (add_form minimum) [candidate; TrimSpace candidate] acc.

Definition SecretParts (value : string) : list string :=
  let acc := add_part MinSecretLength (∅, []) value in
  let acc := if ContainsByte value NL
             then fold_left (add_part MinSecretPartLength) (Split value NL) acc else acc in
  let acc := match json_Unmarshal value with
             | Some parsed => fold_left (add_part MinSecretPartLength) (jsonStrings parsed) acc
             | None => acc
             end in
  sort_longest acc.2.

(** [LookupSecretParts]. Go's strings are values here, but not the buffer that [SecretParts]
    copies the value into for [json.Unmarshal], which nobody clears. *)
Fixpoint lookup_parts (lookup : KeyLookup) (names : list string) (heap : Heap) (parts : list string) :
    list string * Heap :=
  match names with
  | [] => (parts, heap)
  | name :: names =>
      match lookup name heap with
      | (None, heap) => lookup_parts lookup names heap parts
      | (Some source, heap) =>
          let value := of_bytes (contents heap source) in
          let (copy, heap) := alloc (to_bytes value) (clear_buffer source heap) in
          lookup_parts lookup names heap (parts ++ SecretParts value)
      end
  end.
Definition LookupSecretParts (lookup : option KeyLookup) (names : list string) (heap : Heap) :
    list string * Heap :=
  match lookup with
  | None => ([], heap)
  | Some lookup =>
      let (parts, heap) := lookup_parts lookup names heap [] in (sort_longest parts, heap)
  end.
End SecretParts.

(** * Runtime names are DNS labels *)

Definition is_label_alnum (c : ascii) : bool := is_lower c || is_digit c.
Definition is_label_byte (c : ascii) : bool := is_label_alnum c || Ascii.eqb c "-".

(** A DNS label: 1 to 63 letters, digits and hyphens, with no hyphen at either
    end. *)
Definition dns_label (s : string) : Prop :=
  1 <= len s <= 63 /\ Forall (fun c => is_label_byte c = true) (to_bytes s) /\
  (exists c, head (to_bytes s) = Some c /\ is_label_alnum c = true) /\
  (exists c, last (to_bytes s) = Some c /\ is_label_alnum c = true).

(** A hint read backwards: every hyphen stands on a letter or digit. *)
Inductive hint_rev : bytes -> Prop :=
  | hint_nil : hint_rev []
  | hint_alnum c r : is_label_alnum c = true -> hint_rev r -> hint_rev (c :: r)
  | hint_dash c r :
      is_label_alnum c = true -> hint_rev (c :: r) -> hint_rev ("-"%char :: c :: r).

Lemma rune_byte_alnum (r : Z) :
  ((97 <=? r) && (r <=? 122)) || ((48 <=? r) && (r <=? 57)) = true ->
  is_label_alnum (rune_byte r) = true.
Proof.
  intros H. unfold is_label_alnum, is_lower, is_digit, between, rune_byte, byte_of.
  rewrite N_ascii_embedding by lia. change (Z.of_N (N_of_ascii "a")) with 97.
  change (Z.of_N (N_of_ascii "z")) with 122. change (Z.of_N (N_of_ascii "0")) with 48.
  change (Z.of_N (N_of_ascii "9")) with 57. rewrite Z2N.id by lia. exact H.
Qed.

Lemma rev_to_bytes_snoc (s : string) (c : ascii) :
  rev (to_bytes (s +:+ String c EmptyString)) = c :: rev (to_bytes s).
Proof. by rewrite to_bytes_app, rev_app_distr. Qed.

Lemma dash_not_alnum : is_label_alnum "-" = false.
Proof. reflexivity. Qed.

Lemma HasSuffix_dash (s : string) :
  HasSuffix s "-" = match rev (to_bytes s) with c :: _ => Ascii.eqb "-" c | [] => false end.
Proof.
  unfold HasSuffix, HasPrefix, rev_string. change (rev (to_bytes "-")) with ["-"%char].
  destruct (rev (to_bytes s)) as [|c r]; [done|]. simpl.
  destruct (ascii_dec "-" c) as [<-|Hne]; [by destruct (of_bytes r)|].
  by rewrite (proj2 (Ascii.eqb_neq _ _) Hne).
Qed.

Lemma append_hint_rev (task : string) (character : Z) :
  hint_rev (rev (to_bytes task)) ->
  hint_rev (rev (to_bytes (append_hint task character))).
Proof.
  intros H. unfold append_hint.
  destruct (_ || _) eqn:Hc.
  { rewrite rev_to_bytes_snoc. apply hint_alnum; [by apply rune_byte_alnum|done]. }
  destruct ((0 <? len task) && _) eqn:Hd; [|exact H].
  change "-" with (String "-"%char EmptyString). rewrite rev_to_bytes_snoc.
  apply andb_true_iff in Hd as [Hlen Hs]. apply negb_true_iff in Hs.
  rewrite HasSuffix_dash in Hs. rewrite len_to_bytes, <- length_rev in Hlen.
  inversion H as [Hr|c r Hc' Hr' Hr|c r Hc' Hr' Hr]; rewrite <- Hr in *; simpl in *.
  - done.
  - by apply hint_dash; [|apply hint_alnum].
  - done.
Qed.

Lemma append_hint_len (task : string) (character : Z) :
  len (append_hint task character) <= len task + 1.
Proof.
  unfold append_hint. repeat case_match; len_simpl; lia.
Qed.

Lemma build_hint_spec (characters : list Z) (task : string) :
  hint_rev (rev (to_bytes task)) -> len task < runtimeTaskLimit ->
  hint_rev (rev (to_bytes (build_hint task characters))) /\
  len (build_hint task characters) <= runtimeTaskLimit.
Proof.
  revert task. induction characters as [|c cs IH]; intros task Hrev Hlen; simpl; [split; [done|lia]|].
  pose proof (append_hint_rev task c Hrev). pose proof (append_hint_len task c).
  destruct (Z.eqb_spec (len (append_hint task c)) runtimeTaskLimit); [split; [done|lia]|].
  apply IH; [done|lia].
Qed.

Lemma TrimSuffix_dash (s : string) :
  rev (to_bytes (TrimSuffix s "-")) =
  match rev (to_bytes s) with
  | c :: r => if Ascii.eqb "-" c then r else c :: r
  | [] => []
  end.
Proof.
  unfold TrimSuffix, CutSuffix. change (rev_string "-") with "-".
  unfold rev_string at 2. destruct (rev (to_bytes s)) as [|c r] eqn:E; [done|].
  simpl. destruct (Ascii.eqb "-" c); simpl; [|exact E].
  unfold rev_string. by rewrite !to_of_bytes, rev_involutive.
Qed.

(** The trimmed hint, backwards, begins with a letter or digit unless empty. *)
Lemma trim_dash (s : string) :
  hint_rev (rev (to_bytes s)) ->
  let r := rev (to_bytes (TrimSuffix s "-")) in
  len (TrimSuffix s "-") <= len s /\ hint_rev r.
Proof.
  intros H r. subst r. rewrite !len_to_bytes, <- !(length_rev (to_bytes _)), TrimSuffix_dash.
  inversion H as [Hr|c r Hc Hr' Hr|c r Hc Hr' Hr]; simpl; [split; [lia|constructor]| |].
  - destruct (Ascii.eqb "-" c); simpl; (split; [lia|]); [done|by constructor].
  - split; [simpl; lia|done].
Qed.

Lemma hint_rev_bytes (r : bytes) :
  hint_rev r -> Forall (fun c => is_label_byte c = true) r.
Proof.
  induction 1 as [|c r Hc _ IH|c r Hc _ IH]; constructor; try done.
  unfold is_label_byte. by rewrite Hc.
Qed.

(** For a role and a nonce of label characters whose lengths leave room, the name of
    a run's resource is a valid DNS label whatever the task id: at most 63 bytes of
    lower-case letters, digits and inner hyphens. *)
Theorem RuntimeName_dns_label (role taskID nonce : string) :
  Forall (fun c => is_label_byte c = true) (to_bytes role) ->
  Forall (fun c => is_label_alnum c = true) (to_bytes nonce) ->
  nonce <> "" -> len role + len nonce <= 31 ->
  dns_label (RuntimeName role taskID nonce).
Proof.
  intros Hrole Hnonce Hne Hlen.
  destruct (build_hint_spec (map ToLower (runes taskID)) "") as [Hrev Hmax];
    [constructor|reflexivity|].
  destruct (trim_dash _ Hrev) as (Hle & Hrev').
  set (hint := TrimSuffix _ "-") in *. unfold runtimeTaskLimit in Hmax.
  assert (Hn : Forall (fun c => is_label_byte c = true) (to_bytes nonce)).
  { eapply Forall_impl; [exact Hnonce|]. intros c Hc. unfold is_label_byte. by rewrite Hc. }
  assert (Hh : Forall (fun c => is_label_byte c = true) (to_bytes hint)).
  { rewrite <- (rev_involutive (to_bytes hint)). apply Forall_rev, hint_rev_bytes, Hrev'. }
  assert (Hend : forall p, exists c, last (to_bytes (p +:+ nonce)) = Some c /\
                                     is_label_alnum c = true).
  { intros p. rewrite to_bytes_app, last_app. destruct (last (to_bytes nonce)) as [c|] eqn:El.
    - exists c. split; [done|]. apply (Forall_forall (fun c => is_label_alnum c = true) (to_bytes nonce)); [done|].
      by apply last_Some_elem_of.
    - apply last_None in El. destruct Hne. by apply to_bytes_inj. }
  assert (Hpos : 0 <= len hint) by (unfold len; lia).
  assert (Hrl : 0 <= len role /\ 0 <= len nonce) by (unfold len; lia).
  unfold RuntimeName. fold hint. destruct (String.eqb hint "").
  - split; [len_simpl; lia|]. split; [|split].
    + rewrite !to_bytes_app, !Forall_app. repeat split; try done; by repeat constructor.
    + exists "a"%char. done.
    + rewrite !string_app_assoc. apply Hend.
  - split; [len_simpl; lia|]. split; [|split].
    + rewrite !to_bytes_app, !Forall_app. repeat split; try done; by repeat constructor.
    + exists "a"%char. done.
    + rewrite !string_app_assoc. apply Hend.
Qed.

Lemma RuntimeName_dns_label_witness :
  RuntimeName "harness" "Fix Bug #12" "0a1b2c" = "aries-harness-fix-bug-12-0a1b2c" /\
  dns_label (RuntimeName "harness" "Fix Bug #12" "0a1b2c").
Proof.
  split; [reflexivity|].
  apply (RuntimeName_dns_label "harness" "Fix Bug #12" "0a1b2c");
    [repeat constructor|repeat constructor|discriminate|discriminate].
Defined.

(** * The parts of a secret *)

Lemma insert_longest_perm (x : string) (l : list string) :
  insert_longest len x l ≡ₚ x :: l.
Proof.
  induction l as [|y l IH]; simpl; [done|]. case_match; [done|].
  rewrite IH. by rewrite Permutation_swap.
Qed.

Lemma sort_longest_perm (l : list string) : sort_longest l ≡ₚ l.
Proof. induction l as [|x l IH]; simpl; [done|]. by rewrite insert_longest_perm, IH. Qed.

Definition longer (a b : string) : Prop := len b <= len a.

Lemma insert_longest_sorted (x : string) (l : list string) :
  Sorted longer l -> Sorted longer (insert_longest len x l).
Proof.
  induction 1 as [|y l Hl IH Hhd]; simpl; [by repeat constructor|].
  destruct (Z.leb_spec (len y) (len x)); [by repeat constructor|].
  constructor; [done|]. destruct l as [|z l]; simpl; [constructor; unfold longer; lia|].
  case_match; constructor; unfold longer in *; [lia|by inv Hhd].
Qed.

Lemma sort_longest_sorted (l : list string) : Sorted longer (sort_longest l).
Proof. induction l; simpl; [constructor|]. by apply insert_longest_sorted. Qed.

#[export] Hint Resolve sort_longest_perm sort_longest_sorted : go.

(** [seen] holds exactly the parts, each once, and the parts are the forms
    added so far. *)
Definition add_inv (acc : gset string * list string) (P : string -> Prop) : Prop :=
  NoDup acc.2 /\ (forall p, p ∈ acc.1 <-> p ∈ acc.2) /\ (forall p, p ∈ acc.2 <-> P p).

Lemma add_form_inv (minimum : Z) acc (form : string) (P : string -> Prop) :
  add_inv acc P ->
  add_inv (add_form minimum acc form) (fun p => P p \/ (minimum <= len p /\ p = form)).
Proof.
  destruct acc as [seen parts]. intros (Hnd & Hseen & HP). unfold add_form. simpl in *.
  destruct (Z.ltb_spec (len form) minimum).
  { split; [done|]. split; [done|]. intros p. rewrite HP. split; [by left|].
    intros [?|[? ->]]; [done|simpl in *; lia]. }
  case_bool_decide as Hin.
  { split; [done|]. split; [done|]. intros p. simpl. rewrite HP. split; [by left|].
    intros [?|[? ->]]; [done|]. by apply HP, Hseen. }
  split; [|split]; simpl.
  - apply NoDup_app. split; [done|]. split; [|apply NoDup_singleton].
    intros x Hx ->%list_elem_of_singleton. by apply Hin, Hseen.
  - intros p. rewrite elem_of_union, elem_of_app, elem_of_singleton, list_elem_of_singleton, Hseen.
    tauto.
  - intros p. rewrite elem_of_app, list_elem_of_singleton, HP. split; [|tauto].
    intros [?| ->]; [by left|by right].
Qed.

Lemma add_inv_iff acc (P Q : string -> Prop) :
  (forall p, P p <-> Q p) -> add_inv acc P -> add_inv acc Q.
Proof. intros HPQ (? & ? & HP). split_and!; try done. intros p. by rewrite HP, HPQ. Qed.

Definition form_of (minimum : Z) (candidate p : string) : Prop :=
  minimum <= len p /\ (p = candidate \/ p = TrimSpace candidate).

Lemma add_part_inv (minimum : Z) acc (candidate : string) (P : string -> Prop) :
  add_inv acc P ->
  add_inv (add_part minimum acc candidate) (fun p => P p \/ form_of minimum candidate p).
Proof.
  intros H. eapply add_inv_iff; [|apply add_form_inv, add_form_inv, H].
  intros p. unfold form_of. simpl. tauto.
Qed.

Lemma add_parts_inv (minimum : Z) (candidates : list string) acc (P : string -> Prop) :
  add_inv acc P ->
  add_inv (fold_left (add_part minimum) candidates acc)
    (fun p => P p \/ exists candidate, candidate ∈ candidates /\ form_of minimum candidate p).
Proof.
  revert acc P. induction candidates as [|c cs IH]; intros acc P H; simpl.
  - eapply add_inv_iff; [|exact H]. intros p. split; [by left|].
    intros [?|(? & []%not_elem_of_nil & _)]; done.
  - eapply add_inv_iff; [|apply IH, add_part_inv, H]. intros p. simpl.
    setoid_rewrite elem_of_cons. naive_solver.
Qed.

Section SecretPartsSpec.
Variable json_Unmarshal : string -> option json.

(** What a part of a secret is. *)
Definition secret_part (value p : string) : Prop :=
  form_of MinSecretLength value p \/
  (ContainsByte value NL = true /\
   exists line, line ∈ Split value NL /\ form_of MinSecretPartLength line p) \/
  (exists parsed field, json_Unmarshal value = Some parsed /\
     field ∈ jsonStrings parsed /\ form_of MinSecretPartLength field p).

(** The parts that redaction removes for a secret are exactly the secret itself,
    each line of a secret of several lines and each string inside one that is JSON, as
    written and trimmed, where they reach the minimum length; none is repeated, and
    they come longest first, so that removing a part never hides a longer one. *)
Theorem SecretParts_spec (value : string) :
  let parts := SecretParts json_Unmarshal value in
  Sorted longer parts /\ NoDup parts /\ forall p, p ∈ parts <-> secret_part value p.
Proof.
  intros parts. unfold parts, SecretParts.
  set (acc1 := add_part _ _ value). set (acc2 := if ContainsByte value NL then _ else _).
  set (acc3 := match json_Unmarshal value with Some _ => _ | None => _ end).
  assert (H1 : add_inv acc1 (form_of MinSecretLength value)).
  { eapply add_inv_iff; [|apply (add_part_inv MinSecretLength (∅, []) value (fun _ => False))].
    - tauto.
    - split_and!; [constructor|set_solver|set_solver]. }
  assert (H3 : add_inv acc3 (secret_part value)).
  { unfold acc3, acc2, secret_part.
    destruct (ContainsByte value NL), (json_Unmarshal value) as [parsed|];
      (eapply add_inv_iff; [|repeat apply add_parts_inv; exact H1]);
      intros p; simpl; naive_solver. }
  destruct H3 as (Hnd & _ & Hmem). split; [auto with go|]. split.
  - by rewrite sort_longest_perm.
  - intros p. rewrite sort_longest_perm. apply Hmem.
Qed.
End SecretPartsSpec.

(** * Accepted MCP servers *)

Section MCPSpec.
Variable url_Parse : string -> option URL.

Definition blank (s : string) : bool := String.eqb (TrimSpace s) "".

(** A server started by a command, in the harness. *)
Definition command_server (cfg : MCPServerConfig) : Prop :=
  blank (mp_Command cfg) = false /\ blank (mp_URL cfg) = true /\
  mp_Transport cfg = "" /\
  ContainsControl (TrimSpace (mp_Command cfg)) = false /\
  Forall (fun arg => ContainsControl arg = false) (mp_Args cfg) /\
  map_Forall (fun k v => validEnvName k = true /\ ContainsControl v = false) (mp_Env cfg) /\
  map_Forall (fun k host => validEnvName k = true /\ validEnvName host = true /\
                            mp_Env cfg !! k = None) (mp_SecretEnv cfg).

(** A server reached at a URL. *)
Definition url_server (cfg : MCPServerConfig) : Prop :=
  blank (mp_Command cfg) = true /\ blank (mp_URL cfg) = false /\
  mp_Transport cfg ∈ [""; "sse"; "streamable-http"] /\
  mp_Env cfg = ∅ /\ mp_SecretEnv cfg = ∅ /\
  exists parsed, url_Parse (mp_URL cfg) = Some parsed /\ ur_Host parsed <> "" /\
                 ur_Scheme parsed ∈ ["http"; "https"].

Definition server_name_ok (cfg : MCPServerConfig) : Prop :=
  TrimSpace (mp_Name cfg) <> "" /\
  Forall (fun c => mcp_name_byte c = true) (to_bytes (TrimSpace (mp_Name cfg))).

Lemma check_mcp_env_nil (name : string) (kv : string * string) :
  check_mcp_env name kv = None <-> validEnvName kv.1 = true /\ ContainsControl kv.2 = false.
Proof. unfold check_mcp_env. by rewrite seq_error_nil, !refuse_if_nil, negb_false_iff. Qed.

Lemma check_mcp_secret_nil (name : string) env (kv : string * string) :
  check_mcp_secret name env kv = None <->
  validEnvName kv.1 = true /\ validEnvName kv.2 = true /\ env !! kv.1 = None.
Proof.
  unfold check_mcp_secret. rewrite !seq_error_nil, !refuse_if_nil, !negb_false_iff.
  by rewrite bool_decide_eq_false, <- eq_None_not_Some.
Qed.

Lemma check_mcp_url_nil (name url : string) :
  check_mcp_url url_Parse name url = None <->
  exists parsed, url_Parse url = Some parsed /\ ur_Host parsed <> "" /\
                 ur_Scheme parsed ∈ ["http"; "https"].
Proof.
  unfold check_mcp_url. destruct (url_Parse url) as [parsed|]; [|naive_solver].
  rewrite refuse_if_nil, orb_false_iff, andb_false_iff, !negb_false_iff.
  rewrite !String.eqb_eq, String.eqb_neq. setoid_rewrite elem_of_cons.
  setoid_rewrite list_elem_of_singleton. naive_solver.
Qed.

(** An MCP server is accepted exactly when its trimmed name is of the allowed
    characters, its timeout is not negative, and it is either a command server or a
    URL server with the fields, environment and headers of that kind and none of the
    other's. *)
Theorem ValidateMCPServer_accepts (cfg : MCPServerConfig) :
  ValidateMCPServer url_Parse cfg = None <->
  server_name_ok cfg /\ 0 <= mp_TimeoutSeconds cfg /\ (command_server cfg \/ url_server cfg).
Proof.
  unfold ValidateMCPServer, server_name_ok, command_server, url_server. fold (blank (mp_Command cfg)).
  fold (blank (mp_URL cfg)). cbv zeta.
  rewrite !seq_error_nil, !refuse_if_nil, !first_error_nil.
  setoid_rewrite check_mcp_env_nil. setoid_rewrite check_mcp_secret_nil.
  rewrite negb_false_iff, forallb_Forall, String.eqb_neq.
  rewrite !Forall_map_to_list.
  destruct (blank (mp_Command cfg)), (blank (mp_URL cfg)); simpl.
  all: rewrite ?seq_error_nil, ?first_error_nil, ?check_mcp_url_nil, ?Z.ltb_ge, ?negb_false_iff,
    ?bool_decide_eq_true.
  all: try setoid_rewrite refuse_if_nil.
  - split; [intros (_ & _ & _ & _ & H & _)|intros (_ & _ & [(H & _)|(_ & H & _)])]; done.
  - (* reached at a URL *)
    rewrite !orb_true_iff, !String.eqb_eq, !elem_of_cons, elem_of_nil.
    split; [tauto|].
    intros (? & ? & [[? _]|(_ & _ & Ht & -> & -> & Hurl)]); [done|].
    rewrite andb_false_r. split_and!; try done; try tauto;
      apply map_Forall_empty.
  - (* started by a command *)
    rewrite andb_true_r, negb_false_iff, String.eqb_eq. split; [tauto|].
    intros (? & ? & [(_ & _ & -> & ?)|[? _]]); [|done]. split_and!; try done; tauto.
  - split; [intros (_ & _ & _ & _ & _ & H & _)|intros (_ & _ & [(_ & H & _)|(H & _)])]; done.
Qed.
End MCPSpec.
