(* ===== verification/Runner.v ===== *)
(** The task Runner ([pkg/runner]): the four roles it composes, the lifecycle of
    one task ([runTask] and its [finish] closure), the sequential [Run], the
    summary, and the evaluation sandboxes it owns.

    The roles are interfaces, so a [Roles] record holds their operations as
    functions of a world [W]; [SB] is the type of live sandboxes.  The benchmark's
    [Evaluate] may start fresh sandboxes through the Runner, so it is a program
    ([eprog]) whose requests the Runner serves.  Logging is not modelled. *)

From S2P Require Import Prelude Trace Core.

(** * Roles *)

(** What a benchmark does while it evaluates: change its own world, ask for a
    fresh sandbox, and finally return. *)
Inductive eprog (W SB : Type) : Type :=
  | EvalReturn (evaluation : Evaluation) (e : error)
  | EvalStart (ctx : Ctx) (environment : Environment) (k : option SB * error -> eprog W SB)
  | EvalDo (step : W -> W) (k : W -> eprog W SB).
Arguments EvalReturn {W SB}.
Arguments EvalStart {W SB}.
Arguments EvalDo {W SB}.

(** The interfaces of interfaces.go that the Runner calls. *)
Record Roles (W SB : Type) := {
  benchmark_Tasks : Ctx -> M W (list Task * error);
  benchmark_PrepareSandbox : Ctx -> Task -> SB -> M W error;
  benchmark_Evaluate : Ctx -> Task -> SB -> eprog W SB;
  harness_Start : Ctx -> HarnessRequest -> M W error;
  harness_Run : Ctx -> string -> M W (HarnessResult * error);
  harness_Stop : Ctx -> M W error;
  toolSandbox_Start : Ctx -> SandboxRequest -> M W (option SB * error);
  toolSandbox_Stop : Ctx -> SB -> M W error;
  sandbox_Connectivity : SB -> HarnessConnectivity;
  bridge_Start : Ctx -> SB -> M W (ToolEndpoint * error);
  bridge_Stop : Ctx -> M W error
}.
Arguments benchmark_Tasks {W SB}.
Arguments benchmark_PrepareSandbox {W SB}.
Arguments benchmark_Evaluate {W SB}.
Arguments harness_Start {W SB}.
Arguments harness_Run {W SB}.
Arguments harness_Stop {W SB}.
Arguments toolSandbox_Start {W SB}.
Arguments toolSandbox_Stop {W SB}.
Arguments sandbox_Connectivity {W SB}.
Arguments bridge_Start {W SB}.
Arguments bridge_Stop {W SB}.

Definition defaultCleanupTimeout : Z := 30 * 10 ^ 9.

(** [ResourceOverrides] and [RuntimeOverrides]. *)
Record ResourceOverrides := { ro_CPU : option float64; ro_MemoryMB : option Z }.
Record RuntimeOverrides := {
  vo_HarnessResources : ResourceOverrides;
  vo_AgentSandboxResources : ResourceOverrides;
  vo_AgentTimeout : option Z
}.

(** [Options], less the logger. *)
Record Options := {
  op_Name : string;
  op_RunID : string;
  op_OutputDir : string;
  op_Model : ModelConfig;
  op_CleanupTimeout : Z;
  op_RuntimeOverrides : RuntimeOverrides
}.

(** [Runner], less the logger. *)
Record Runner (W SB : Type) := {
  rn_roles : Roles W SB;
  rn_name : string;
  rn_runID : string;
  rn_outputDir : string;
  rn_model : ModelConfig;
  rn_cleanupTimeout : Z;
  rn_runtimeOverrides : RuntimeOverrides
}.
Arguments rn_roles {W SB}.
Arguments rn_name {W SB}.
Arguments rn_runID {W SB}.
Arguments rn_outputDir {W SB}.
Arguments rn_model {W SB}.
Arguments rn_cleanupTimeout {W SB}.
Arguments rn_runtimeOverrides {W SB}.

(** * Pure parts *)

(** Pointers are options here, so the copies are the values themselves. *)
Definition cloneFloat (value : option float64) : option float64 :=
  match value with None => None | Some cloned => Some cloned end.
Definition cloneInt (value : option Z) : option Z :=
  match value with None => None | Some cloned => Some cloned end.
Definition cloneResourceOverrides (resources : ResourceOverrides) : ResourceOverrides :=
  {| ro_CPU := match ro_CPU resources with Some value => Some value | None => None end;
     ro_MemoryMB := match ro_MemoryMB resources with Some value => Some value | None => None end |}.
Definition cloneRuntimeOverrides (overrides : RuntimeOverrides) : RuntimeOverrides :=
  {| vo_HarnessResources := cloneResourceOverrides (vo_HarnessResources overrides);
     vo_AgentSandboxResources := cloneResourceOverrides (vo_AgentSandboxResources overrides);
     vo_AgentTimeout :=
       match vo_AgentTimeout overrides with Some value => Some value | None => None end |}.

(** [New].  A missing role is a nil interface, an absent field of [roles]. *)
Definition New {W SB : Type} (benchmark harness toolSandbox bridge : bool)
    (roles : Roles W SB) (options : Options) : Runner W SB + err :=
  if negb benchmark then inr (ENew "benchmark is required")
  else if negb harness then inr (ENew "agent harness is required")
  else if negb toolSandbox then inr (ENew "tool sandbox is required")
  else if negb bridge then inr (ENew "tool bridge is required")
  else if String.eqb (op_RunID options) "" then inr (ENew "run ID is required")
  else inl {|
    rn_roles := roles;
    rn_name := op_Name options;
    rn_runID := op_RunID options;
    rn_outputDir := op_OutputDir options;
    rn_model := op_Model options;
    rn_cleanupTimeout :=
      if op_CleanupTimeout options <=? 0 then defaultCleanupTimeout
      else op_CleanupTimeout options;
    rn_runtimeOverrides := cloneRuntimeOverrides (op_RuntimeOverrides options) |}.

(** [effectiveRuntime]: the sandbox environment, and the harness's CPU, memory
    and timeout. *)
Definition effectiveRuntime (original : Task) (overrides : RuntimeOverrides) :
    Environment * option float64 * option Z * Z :=
  let environment := tk_Environment original in
  let environment :=
    match ro_CPU (vo_AgentSandboxResources overrides) with
    | Some cpu => set_en_CPU cpu environment
    | None => environment
    end in
  let environment :=
    match ro_MemoryMB (vo_AgentSandboxResources overrides) with
    | Some memory => set_en_MemoryMB memory environment
    | None => environment
    end in
  let harnessCPU := cloneFloat (ro_CPU (vo_HarnessResources overrides)) in
  let harnessCPU :=
    match harnessCPU with
    | Some cpu => if f64_eqb cpu f64_zero then None else Some cpu
    | None => None
    end in
  let harnessMemory := cloneInt (ro_MemoryMB (vo_HarnessResources overrides)) in
  let harnessMemory :=
    match harnessMemory with
    | Some memory => if memory =? 0 then None else Some memory
    | None => None
    end in
  let timeout :=
    match vo_AgentTimeout overrides with Some t => t | None => tk_Timeout original end in
  (environment, harnessCPU, harnessMemory, timeout).

Definition no_HarnessResult : HarnessResult :=
  {| hr_Status := ""; hr_FinalResponse := ""; hr_Duration := 0; hr_LogPaths := [];
     hr_Error := "" |}.
Definition no_Evaluation : Evaluation :=
  {| ev_Status := ""; ev_Score := f64_zero; ev_Reward := f64_zero; ev_VerifierStatus := "";
     ev_Duration := 0; ev_LogPaths := []; ev_Error := "" |}.

(** [newTaskResult]. *)
Definition newTaskResult (taskID : string) : TaskResult :=
  {| tr_TaskID := taskID;
     tr_ToolLogPaths := [];
     tr_Harness := set_hr_Status StatusNotStarted no_HarnessResult;
     tr_Isolation := {| ir_Status := StatusNotStarted; ir_HarnessStopped := false;
                        ir_BridgeRevoked := false; ir_Error := "" |};
     tr_Evaluation := set_ev_Status StatusNotRun no_Evaluation;
     tr_Observer := set_ob_Status StatusNotEnabled no_ObserverResult;
     tr_Cleanup := {| cl_Status := StatusNotNeeded; cl_Error := "" |};
     tr_Error := ""; tr_StartedAt := 0; tr_Duration := 0 |}.

(** [failureStatus]. *)
Definition failureStatus (e : err) : string :=
  if errors_Is e Canceled || errors_Is e DeadlineExceeded then StatusCanceled else StatusFailed.

(** [summarize], one task at a time. *)
Definition is_status (a b : string) : bool := String.eqb a b.
Definition b2z (b : bool) : Z := if b then 1 else 0.
Definition count_task (summary : RunSummary) (task : TaskResult) : RunSummary :=
  let harness := hr_Status (tr_Harness task) in
  let evaluation := ev_Status (tr_Evaluation task) in
  let hs := is_status harness StatusSucceeded in
  let hf := negb hs && (is_status harness StatusFailed || is_status harness StatusCanceled) in
  let es := is_status evaluation StatusSucceeded in
  let ef := negb es && (is_status evaluation StatusFailed || is_status evaluation StatusCanceled) in
  let eb := negb es && negb ef && is_status evaluation StatusBlockedIsolation in
  let cf := is_status (cl_Status (tr_Cleanup task)) StatusFailed in
  {| rs_Tasks := rs_Tasks summary;
     rs_HarnessSucceeded := rs_HarnessSucceeded summary + b2z hs;
     rs_HarnessFailed := rs_HarnessFailed summary + b2z hf;
     rs_EvaluationsRun := rs_EvaluationsRun summary + b2z (es || ef);
     rs_EvaluationsSucceeded := rs_EvaluationsSucceeded summary + b2z es;
     rs_EvaluationsFailed := rs_EvaluationsFailed summary + b2z ef;
     rs_EvaluationsBlocked := rs_EvaluationsBlocked summary + b2z eb;
     rs_CleanupFailed := rs_CleanupFailed summary + b2z cf |}.
Definition summarize (tasks : list TaskResult) : RunSummary :=
  fold_left count_task tasks
    {| rs_Tasks := Z.of_nat (length tasks); rs_HarnessSucceeded := 0; rs_HarnessFailed := 0;
       rs_EvaluationsRun := 0; rs_EvaluationsSucceeded := 0; rs_EvaluationsFailed := 0;
       rs_EvaluationsBlocked := 0; rs_CleanupFailed := 0 |}.

(** * One task *)

(** The variables [runTask] and [finish] share. *)
Record TaskVars {SB : Type} := {
  v_sandbox : option SB;
  v_sandboxActive : bool;
  v_bridgeActive : bool;
  v_harnessActive : bool;
  v_allErrors : list err;
  v_cleanupErrors : list err;
  v_cleanupUsed : bool;
  v_evaluation : list SB;
  v_result : TaskResult
}.
Arguments TaskVars : clear implicits.

Definition set_v_sandbox {SB} (x : option SB) (r : TaskVars SB) : TaskVars SB :=
  {| v_sandbox := x;
     v_sandboxActive := v_sandboxActive r;
     v_bridgeActive := v_bridgeActive r;
     v_harnessActive := v_harnessActive r;
     v_allErrors := v_allErrors r;
     v_cleanupErrors := v_cleanupErrors r;
     v_cleanupUsed := v_cleanupUsed r;
     v_evaluation := v_evaluation r;
     v_result := v_result r |}.

Definition set_v_sandboxActive {SB} (x : bool) (r : TaskVars SB) : TaskVars SB :=
  {| v_sandbox := v_sandbox r;
     v_sandboxActive := x;
     v_bridgeActive := v_bridgeActive r;
     v_harnessActive := v_harnessActive r;
     v_allErrors := v_allErrors r;
     v_cleanupErrors := v_cleanupErrors r;
     v_cleanupUsed := v_cleanupUsed r;
     v_evaluation := v_evaluation r;
     v_result := v_result r |}.

Definition set_v_bridgeActive {SB} (x : bool) (r : TaskVars SB) : TaskVars SB :=
  {| v_sandbox := v_sandbox r;
     v_sandboxActive := v_sandboxActive r;
     v_bridgeActive := x;
     v_harnessActive := v_harnessActive r;
     v_allErrors := v_allErrors r;
     v_cleanupErrors := v_cleanupErrors r;
     v_cleanupUsed := v_cleanupUsed r;
     v_evaluation := v_evaluation r;
     v_result := v_result r |}.

Definition set_v_harnessActive {SB} (x : bool) (r : TaskVars SB) : TaskVars SB :=
  {| v_sandbox := v_sandbox r;
     v_sandboxActive := v_sandboxActive r;
     v_bridgeActive := v_bridgeActive r;
     v_harnessActive := x;
     v_allErrors := v_allErrors r;
     v_cleanupErrors := v_cleanupErrors r;
     v_cleanupUsed := v_cleanupUsed r;
     v_evaluation := v_evaluation r;
     v_result := v_result r |}.

Definition set_v_allErrors {SB} (x : list err) (r : TaskVars SB) : TaskVars SB :=
  {| v_sandbox := v_sandbox r;
     v_sandboxActive := v_sandboxActive r;
     v_bridgeActive := v_bridgeActive r;
     v_harnessActive := v_harnessActive r;
     v_allErrors := x;
     v_cleanupErrors := v_cleanupErrors r;
     v_cleanupUsed := v_cleanupUsed r;
     v_evaluation := v_evaluation r;
     v_result := v_result r |}.

Definition set_v_cleanupErrors {SB} (x : list err) (r : TaskVars SB) : TaskVars SB :=
  {| v_sandbox := v_sandbox r;
     v_sandboxActive := v_sandboxActive r;
     v_bridgeActive := v_bridgeActive r;
     v_harnessActive := v_harnessActive r;
     v_allErrors := v_allErrors r;
     v_cleanupErrors := x;
     v_cleanupUsed := v_cleanupUsed r;
     v_evaluation := v_evaluation r;
     v_result := v_result r |}.

Definition set_v_cleanupUsed {SB} (x : bool) (r : TaskVars SB) : TaskVars SB :=
  {| v_sandbox := v_sandbox r;
     v_sandboxActive := v_sandboxActive r;
     v_bridgeActive := v_bridgeActive r;
     v_harnessActive := v_harnessActive r;
     v_allErrors := v_allErrors r;
     v_cleanupErrors := v_cleanupErrors r;
     v_cleanupUsed := x;
     v_evaluation := v_evaluation r;
     v_result := v_result r |}.

Definition set_v_evaluation {SB} (x : list SB) (r : TaskVars SB) : TaskVars SB :=
  {| v_sandbox := v_sandbox r;
     v_sandboxActive := v_sandboxActive r;
     v_bridgeActive := v_bridgeActive r;
     v_harnessActive := v_harnessActive r;
     v_allErrors := v_allErrors r;
     v_cleanupErrors := v_cleanupErrors r;
     v_cleanupUsed := v_cleanupUsed r;
     v_evaluation := x;
     v_result := v_result r |}.

Definition set_v_result {SB} (x : TaskResult) (r : TaskVars SB) : TaskVars SB :=
  {| v_sandbox := v_sandbox r;
     v_sandboxActive := v_sandboxActive r;
     v_bridgeActive := v_bridgeActive r;
     v_harnessActive := v_harnessActive r;
     v_allErrors := v_allErrors r;
     v_cleanupErrors := v_cleanupErrors r;
     v_cleanupUsed := v_cleanupUsed r;
     v_evaluation := v_evaluation r;
     v_result := x |}.

(** [append] to one of the error slices. *)
Definition add_error {SB} (e : err) (v : TaskVars SB) : TaskVars SB :=
  set_v_allErrors (v_allErrors v ++ [e]) v.
Definition add_errors {SB} (es : list err) (v : TaskVars SB) : TaskVars SB :=
  set_v_allErrors (v_allErrors v ++ es) v.
Definition add_cleanup_error {SB} (e : err) (v : TaskVars SB) : TaskVars SB :=
  set_v_cleanupErrors (v_cleanupErrors v ++ [e]) v.
Definition with_result {SB} (f : TaskResult -> TaskResult) (v : TaskVars SB) : TaskVars SB :=
  set_v_result (f (v_result v)) v.

(** [errors.Join] of a slice of non-nil errors. *)
Definition joined (es : list err) : error := errors_Join (map Some es).

Section Task.
Context {W SB : Type} `{Runtime W}.
Variable r : Runner W SB.
Let roles := rn_roles r.

(** [evaluationSandboxes.Start]. *)
Definition evaluation_Start (taskID : string) (ctx : Ctx) (environment : Environment)
    (started : list SB) : M W ((option SB * error) * list SB) :=
  let* (sandbox, e) := toolSandbox_Start roles ctx
    {| sr_RunID := rn_runID r; sr_TaskID := taskID; sr_Purpose := SandboxPurposeEvaluation;
       sr_Environment := environment |} in
  match e, sandbox with
  | Some e, _ => ret ((None, Some e), started)
  | None, None =>
      ret ((None, Some (ENew "start evaluation sandbox: returned a nil sandbox")), started)
  | None, Some sandbox => ret ((Some sandbox, None), started ++ [sandbox])
  end.

(** [evaluationSandboxes.active]. *)
Definition evaluation_active (started : list SB) : bool :=
  match started with [] => false | _ => true end.

(** The loop of [evaluationSandboxes.stop], from the last index down; its
    argument is the reversed slice. *)
Fixpoint stop_newest_first (ctx : Ctx) (newest_first : list SB) (errs : list err)
    (remaining : list SB) : M W (list err * list SB) :=
  match newest_first with
  | [] => ret (errs, remaining)
  | sandbox :: rest =>
      let* e := toolSandbox_Stop roles ctx sandbox in
      match e with
      | Some e => stop_newest_first ctx rest (errs ++ [e]) (remaining ++ [sandbox])
      | None => stop_newest_first ctx rest errs remaining
      end
  end.

(** [evaluationSandboxes.stop]: the error and the sandboxes still started. *)
Definition evaluation_stop (ctx : Ctx) (started : list SB) : M W (error * list SB) :=
  let* (errs, remaining) := stop_newest_first ctx (rev started) [] [] in
  ret (joined errs, rev remaining).

(** [benchmark.Evaluate], its requests served by [evaluation_Start]. *)
Fixpoint run_eval (taskID : string) (p : eprog W SB) (started : list SB) :
    M W ((Evaluation * error) * list SB) :=
  match p with
  | EvalReturn evaluation e => ret ((evaluation, e), started)
  | EvalStart ctx environment k =>
      let* (reply, started) := evaluation_Start taskID ctx environment started in
      run_eval taskID (k reply) started
  | EvalDo step k => fun w => run_eval taskID (k w) started (step w)
  end.

(** [ensureCleanupContext]. *)
Definition cleanup_context (ctx : Ctx) : Ctx :=
  WithTimeout (WithoutCancel ctx) (rn_cleanupTimeout r).

(** The four conditional stops of [finish], in order. *)
Definition finish_evaluation (cleanup : Ctx) (v : TaskVars SB) : M W (TaskVars SB) :=
  if evaluation_active (v_evaluation v) then
    let* (e, started) := evaluation_stop cleanup (v_evaluation v) in
    let v := set_v_evaluation started (set_v_cleanupUsed true v) in
    match e with
    | Some e => ret (add_cleanup_error (EWrap "cleanup evaluation sandbox" e) v)
    | None => ret v
    end
  else ret v.

Definition finish_harness (cleanup : Ctx) (v : TaskVars SB) : M W (TaskVars SB) :=
  if v_harnessActive v then
    let* e := harness_Stop roles cleanup in
    let v := set_v_cleanupUsed true v in
    match e with
    | Some e => ret (add_cleanup_error (EWrap "cleanup harness" e) v)
    | None => ret (set_v_harnessActive false v)
    end
  else ret v.

Definition finish_bridge (cleanup : Ctx) (v : TaskVars SB) : M W (TaskVars SB) :=
  if v_bridgeActive v then
    let* e := bridge_Stop roles cleanup in
    let v := set_v_cleanupUsed true v in
    match e with
    | Some e => ret (add_cleanup_error (EWrap "cleanup bridge" e) v)
    | None => ret (set_v_bridgeActive false v)
    end
  else ret v.

Definition finish_sandbox (cleanup : Ctx) (v : TaskVars SB) : M W (TaskVars SB) :=
  match v_sandboxActive v, v_sandbox v with
  | true, Some sandbox =>
      let* e := toolSandbox_Stop roles cleanup sandbox in
      let v := set_v_cleanupUsed true v in
      match e with
      | Some e => ret (add_cleanup_error (EWrap "cleanup sandbox" e) v)
      | None => ret (set_v_sandboxActive false v)
      end
  | _, _ => ret v
  end.

Definition finish_stops (cleanup : Ctx) (v : TaskVars SB) : M W (TaskVars SB) :=
  let* v := finish_evaluation cleanup v in
  let* v := finish_harness cleanup v in
  let* v := finish_bridge cleanup v in
  finish_sandbox cleanup v.

(** The cleanup status [finish] records. *)
Definition record_cleanup (v : TaskVars SB) : TaskVars SB :=
  if negb (v_cleanupUsed v) then
    with_result (set_tr_Cleanup {| cl_Status := StatusNotNeeded; cl_Error := "" |}) v
  else match joined (v_cleanupErrors v) with
  | None => with_result (set_tr_Cleanup {| cl_Status := StatusSucceeded; cl_Error := "" |}) v
  | Some e =>
      add_errors (v_cleanupErrors v)
        (with_result (set_tr_Cleanup {| cl_Status := StatusFailed; cl_Error := Error e |}) v)
  end.

(** The run context's error is added unless an error of the task carries it. *)
Definition record_context (runContextErr : option sentinel) (v : TaskVars SB) : TaskVars SB :=
  match runContextErr with
  | Some s =>
      if error_Is (joined (v_allErrors v)) s then v
      else add_error (EWrap "run context" (ESentinel s)) v
  | None => v
  end.

(** [finish]. *)
Definition finish (ctx : Ctx) (started : Z) (v : TaskVars SB) : M W (TaskResult * error) :=
  let cleanup := cleanup_context ctx in
  let* v := finish_stops cleanup v in
  let v := record_cleanup v in
  let* runContextErr := ctx_Err ctx in
  let v := record_context runContextErr v in
  let* now := time_Now in
  let result := set_tr_Duration (now - started) (v_result v) in
  let taskErr := joined (v_allErrors v) in
  match taskErr with
  | Some e => ret (set_tr_Error (Error e) result, taskErr)
  | None => ret (result, taskErr)
  end.

(** Starting and running the harness; [Stop] is due whether or not it started. *)
Definition run_harness (ctx : Ctx) (task : Task) (request : HarnessRequest)
    (v : TaskVars SB) : M W (TaskVars SB) :=
  let* e := harness_Start roles ctx request in
  let v := set_v_harnessActive true v in
  match e with
  | Some e =>
      ret (add_error (EWrap "start harness" e)
            (with_result (fun res => set_tr_Harness
               (set_hr_Error (Error e) (set_hr_Status (failureStatus e) (tr_Harness res))) res) v))
  | None =>
      let* (harnessResult, runErr) := harness_Run roles ctx (tk_Instruction task) in
      match runErr with
      | None =>
          ret (with_result (set_tr_Harness
                 (if String.eqb (hr_Status harnessResult) ""
                  then set_hr_Status StatusSucceeded harnessResult else harnessResult)) v)
      | Some e =>
          ret (add_error (EWrap "run harness" e)
                (with_result (set_tr_Harness
                   (set_hr_Error (Error e) (set_hr_Status (failureStatus e) harnessResult))) v))
      end
  end.

(** The two isolation gates: the harness is stopped and the bridge revoked.
    The errors are those of [isolationErrors]. *)
Definition isolate (ctx : Ctx) (v : TaskVars SB) : M W (TaskVars SB * list err) :=
  let isolationCtx := WithTimeout (WithoutCancel ctx) (rn_cleanupTimeout r) in
  let set_isolation f v :=
    with_result (fun res => set_tr_Isolation (f (tr_Isolation res)) res) v in
  let* e := harness_Stop roles isolationCtx in
  let (v, isolationErrors) :=
    match e with
    | Some e => (v, [EWrap "confirm harness stopped" e])
    | None =>
        (set_isolation (fun i => {| ir_Status := ir_Status i; ir_HarnessStopped := true;
                                    ir_BridgeRevoked := ir_BridgeRevoked i;
                                    ir_Error := ir_Error i |})
           (set_v_harnessActive false v), [])
    end in
  let* e := bridge_Stop roles isolationCtx in
  match e with
  | Some e => ret (v, isolationErrors ++ [EWrap "confirm bridge revoked" e])
  | None =>
      ret (set_isolation (fun i => {| ir_Status := ir_Status i;
                                      ir_HarnessStopped := ir_HarnessStopped i;
                                      ir_BridgeRevoked := true; ir_Error := ir_Error i |})
             (set_v_bridgeActive false v), isolationErrors)
  end.

(** What a failed gate records: the evaluation is blocked. *)
Definition block_evaluation (isolationErrors : list err) (v : TaskVars SB) : TaskVars SB :=
  let text := match joined isolationErrors with Some e => Error e | None => "" end in
  add_errors isolationErrors
    (with_result (fun res =>
       let i := tr_Isolation res in
       set_tr_Evaluation
         (set_ev_Error "evaluation blocked because harness termination or bridge revocation was not confirmed"
           (set_ev_Status StatusBlockedIsolation (tr_Evaluation res)))
         (set_tr_Isolation {| ir_Status := StatusBlockedIsolation;
                              ir_HarnessStopped := ir_HarnessStopped i;
                              ir_BridgeRevoked := ir_BridgeRevoked i;
                              ir_Error := text |} res)) v).

(** The evaluation, after both gates. *)
Definition evaluate (ctx : Ctx) (originalTask : Task) (sandbox : SB) (v : TaskVars SB) :
    M W (TaskVars SB) :=
  let v := with_result (fun res =>
    let i := tr_Isolation res in
    set_tr_Isolation {| ir_Status := StatusConfirmed;
                        ir_HarnessStopped := ir_HarnessStopped i;
                        ir_BridgeRevoked := ir_BridgeRevoked i;
                        ir_Error := ir_Error i |} res) v in
  let* (outcome, started) :=
    run_eval (tk_ID originalTask) (benchmark_Evaluate roles ctx originalTask sandbox)
      (v_evaluation v) in
  let (taskEvaluation, evaluationErr) := outcome in
  let v := set_v_evaluation started v in
  match evaluationErr with
  | None =>
      ret (with_result (set_tr_Evaluation
             (if String.eqb (ev_Status taskEvaluation) ""
              then set_ev_Status StatusSucceeded taskEvaluation else taskEvaluation)) v)
  | Some e =>
      ret (add_error (EWrap "evaluate sandbox" e)
            (with_result (set_tr_Evaluation
               (set_ev_Error (Error e) (set_ev_Status (failureStatus e) taskEvaluation))) v))
  end.

(** From the started bridge on: harness, gates, evaluation. *)
Definition run_agent (ctx : Ctx) (task : Task) (sandbox : SB) (request : HarnessRequest)
    (v : TaskVars SB) : M W (TaskVars SB) :=
  let* v := run_harness ctx task request v in
  let* (v, isolationErrors) := isolate ctx v in
  match isolationErrors with
  | _ :: _ => ret (block_evaluation isolationErrors v)
  | [] => evaluate ctx task sandbox v
  end.

(** The variables at the start of [runTask]. *)
Definition initial_vars (taskID : string) (started : Z) : TaskVars SB :=
  {| v_sandbox := None; v_sandboxActive := false; v_bridgeActive := false;
     v_harnessActive := false; v_allErrors := []; v_cleanupErrors := [];
     v_cleanupUsed := false; v_evaluation := [];
     v_result := set_tr_StartedAt started (newTaskResult taskID) |}.

(** [runTask] up to the point where it calls [finish]. *)
Definition task_body (ctx : Ctx) (task : Task) (started : Z) : M W (TaskVars SB) :=
  let '(sandboxEnvironment, harnessCPU, harnessMemory, harnessTimeout) :=
    effectiveRuntime task (rn_runtimeOverrides r) in
  let v := initial_vars (tk_ID task) started in
  let* (sandbox, e) := toolSandbox_Start roles ctx
    {| sr_RunID := rn_runID r; sr_TaskID := tk_ID task; sr_Purpose := "";
       sr_Environment := sandboxEnvironment |} in
  let v := set_v_sandbox sandbox v in
  match e, sandbox with
  | Some e, _ => ret (add_error (EWrap "start sandbox" e) v)
  | None, None => ret (add_error (ENew "start sandbox: returned a nil sandbox") v)
  | None, Some sandbox =>
      let v := set_v_sandboxActive true v in
      let* e := benchmark_PrepareSandbox roles ctx task sandbox in
      match e with
      | Some e => ret (add_error (EWrap "prepare sandbox" e) v)
      | None =>
          let* (endpoint, e) := bridge_Start roles ctx sandbox in
          let v := set_v_bridgeActive true v in
          match e with
          | Some e => ret (add_error (EWrap "start bridge" e) v)
          | None =>
              let v := with_result (set_tr_ToolLogPaths (te_LogPaths endpoint)) v in
              run_agent ctx task sandbox
                {| hq_Connectivity := sandbox_Connectivity roles sandbox;
                   hq_RunID := rn_runID r; hq_TaskID := tk_ID task; hq_Endpoint := endpoint;
                   hq_Model := rn_model r; hq_Timeout := harnessTimeout;
                   hq_CPU := harnessCPU; hq_MemoryMB := harnessMemory;
                   hq_OutputDir := rn_outputDir r;
                   hq_NoSandboxTools := tk_NoSandboxTools task |} v
          end
      end
  end.

(** [runTask]. *)
Definition runTask (ctx : Ctx) (task : Task) : M W (TaskResult * error) :=
  let* started := time_Now in
  let* v := task_body ctx task started in
  finish ctx started v.

(** The loop of [Run]: the results and the errors. *)
Fixpoint run_tasks (ctx : Ctx) (tasks : list Task) (results : list TaskResult)
    (runErrors : list err) : M W (list TaskResult * list err) :=
  match tasks with
  | [] => ret (results, runErrors)
  | task :: rest =>
      let* e := ctx_Err ctx in
      match e with
      | Some s =>
          ret (results,
               runErrors ++ [EWrap ("schedule task " +:+ quote (tk_ID task)) (ESentinel s)])
      | None =>
          let* (taskResult, taskErr) := runTask ctx task in
          let runErrors :=
            match taskErr with
            | Some e => runErrors ++ [EWrap ("task " +:+ quote (tk_ID task)) e]
            | None => runErrors
            end in
          run_tasks ctx rest (results ++ [taskResult]) runErrors
      end
  end.

(** [Run]. *)
Definition Run (ctx : Ctx) : M W (RunResult * error) :=
  let* started := time_Now in
  let result := {| ru_Infrastructure := None; ru_Name := rn_name r; ru_RunID := rn_runID r;
                   ru_Tasks := []; ru_Summary := no_RunSummary; ru_Duration := 0 |} in
  let* (tasks, e) := benchmark_Tasks roles ctx in
  match e with
  | Some e =>
      let* now := time_Now in
      ret (set_ru_Duration (now - started) result,
           Some (EWrap "list benchmark tasks" e))
  | None =>
      let* (results, runErrors) := run_tasks ctx tasks [] [] in
      let* now := time_Now in
      ret (set_ru_Duration (now - started)
             (set_ru_Summary (summarize results) (set_ru_Tasks results result)),
           joined runErrors)
  end.
End Task.

(** * Traces *)

(** The calls the Runner makes, with their outcomes. *)
Inductive event (SB : Type) : Type :=
  | SandboxStarted (ctx : Ctx) (request : SandboxRequest) (sandbox : option SB) (e : error)
  | SandboxPrepared (ctx : Ctx) (sandbox : SB) (e : error)
  | BridgeStarted (ctx : Ctx) (e : error)
  | HarnessStarted (ctx : Ctx) (e : error)
  | HarnessRan (ctx : Ctx) (e : error)
  | HarnessStopped (ctx : Ctx) (e : error)
  | BridgeStopped (ctx : Ctx) (e : error)
  | EvaluateCalled (ctx : Ctx) (sandbox : SB)
  | EvaluateReturned (e : error)
  | SandboxStopped (ctx : Ctx) (sandbox : SB) (e : error).
Arguments SandboxStarted {SB}.
Arguments SandboxPrepared {SB}.
Arguments BridgeStarted {SB}.
Arguments HarnessStarted {SB}.
Arguments HarnessRan {SB}.
Arguments HarnessStopped {SB}.
Arguments BridgeStopped {SB}.
Arguments EvaluateCalled {SB}.
Arguments EvaluateReturned {SB}.
Arguments SandboxStopped {SB}.

(** The evaluation's program over the traced world. *)
Fixpoint trace_eval {W SB} (p : eprog W SB) : eprog (W * list (event SB)) SB :=
  match p with
  | EvalReturn evaluation e =>
      EvalDo (fun s => (s.1, s.2 ++ [EvaluateReturned e])) (fun _ => EvalReturn evaluation e)
  | EvalStart ctx environment k => EvalStart ctx environment (fun reply => trace_eval (k reply))
  | EvalDo step k => EvalDo (fun s => (step s.1, s.2)) (fun s => trace_eval (k s.1))
  end.

(** The roles, each call logged. *)
Definition traced_roles {W SB} (roles : Roles W SB) : Roles (W * list (event SB)) SB := {|
  benchmark_Tasks ctx := silent (benchmark_Tasks roles ctx);
  benchmark_PrepareSandbox ctx task sb :=
    logged (SandboxPrepared ctx sb) (benchmark_PrepareSandbox roles ctx task sb);
  benchmark_Evaluate ctx task sb :=
    EvalDo (fun s => (s.1, s.2 ++ [EvaluateCalled ctx sb]))
           (fun _ => trace_eval (benchmark_Evaluate roles ctx task sb));
  harness_Start ctx request := logged (HarnessStarted ctx) (harness_Start roles ctx request);
  harness_Run ctx text := logged (fun r => HarnessRan ctx r.2) (harness_Run roles ctx text);
  harness_Stop ctx := logged (HarnessStopped ctx) (harness_Stop roles ctx);
  toolSandbox_Start ctx request :=
    logged (fun r => SandboxStarted ctx request r.1 r.2) (toolSandbox_Start roles ctx request);
  toolSandbox_Stop ctx sb := logged (SandboxStopped ctx sb) (toolSandbox_Stop roles ctx sb);
  sandbox_Connectivity := sandbox_Connectivity roles;
  bridge_Start ctx sb := logged (fun r => BridgeStarted ctx r.2) (bridge_Start roles ctx sb);
  bridge_Stop ctx := logged (BridgeStopped ctx) (bridge_Stop roles ctx)
|}.

Definition traced {W SB} (r : Runner W SB) : Runner (W * list (event SB)) SB :=
  {| rn_roles := traced_roles (rn_roles r); rn_name := rn_name r; rn_runID := rn_runID r;
     rn_outputDir := rn_outputDir r; rn_model := rn_model r;
     rn_cleanupTimeout := rn_cleanupTimeout r; rn_runtimeOverrides := rn_runtimeOverrides r |}.

(** The calls of [runTask] on a world and their result. *)
Definition task_run {W SB} `{Runtime W} (r : Runner W SB) (ctx : Ctx) (task : Task) (w : W) :
    (TaskResult * error) * list (event SB) :=
  let out := runTask (traced r) ctx task (w, []) in (out.1, out.2.2).

(** * Reading a trace *)

(** The sandboxes started, and those whose stop was called. *)
Definition starts {SB} (evs : list (event SB)) : list SB :=
  omap (fun ev => match ev with SandboxStarted _ _ sb None => sb | _ => None end) evs.
Definition stops {SB} (evs : list (event SB)) : list SB :=
  omap (fun ev => match ev with SandboxStopped _ sb _ => Some sb | _ => None end) evs.

(** A stop, under the given context. *)
Definition stop_event {SB} (c : Ctx) (ev : event SB) : Prop :=
  match ev with
  | SandboxStopped c' _ _ | HarnessStopped c' _ | BridgeStopped c' _ => c' = c
  | _ => False
  end.

(** An agent may be alive after this call. *)
Definition agent_event {SB} (ev : event SB) : Prop :=
  match ev with
  | BridgeStarted _ _ | HarnessStarted _ _ | HarnessRan _ _ => True
  | _ => False
  end.

Definition evaluate_event {SB} (ev : event SB) : Prop :=
  match ev with EvaluateCalled _ _ => True | _ => False end.

(** The call did not fail.  A failed start of an evaluation sandbox is reported to
    the benchmark, not to the task. *)
Definition event_ok {SB} (ev : event SB) : Prop :=
  match ev with
  | SandboxStarted _ request sb e =>
      sr_Purpose request = SandboxPurposeEvaluation \/ (e = None /\ sb <> None)
  | SandboxPrepared _ _ e | BridgeStarted _ e | HarnessStarted _ e | HarnessRan _ e
  | HarnessStopped _ e | BridgeStopped _ e | EvaluateReturned e | SandboxStopped _ _ e => e = None
  | EvaluateCalled _ _ => True
  end.

#[export] Instance event_ok_dec {SB} (ev : event SB) : Decision (event_ok ev).
Proof. destruct ev; simpl; apply _. Defined.

(** What an evaluation does: start sandboxes for evaluation, then return. *)
Definition evaluation_event {SB} (ev : event SB) : Prop :=
  match ev with
  | SandboxStarted _ request _ _ => sr_Purpose request = SandboxPurposeEvaluation
  | EvaluateReturned _ => True
  | _ => False
  end.

Lemma starts_app {SB} (a b : list (event SB)) : starts (a ++ b) = starts a ++ starts b.
Proof. apply omap_app. Qed.
Lemma stops_app {SB} (a b : list (event SB)) : stops (a ++ b) = stops a ++ stops b.
Proof. apply omap_app. Qed.

Lemma stop_events_start_nothing {SB} (c : Ctx) (evs : list (event SB)) :
  Forall (stop_event c) evs -> starts evs = [].
Proof. induction 1 as [|[] evs Hev _ IH]; simpl in *; done. Qed.

Lemma joined_nil (es : list err) : joined es = None <-> es = [].
Proof. unfold joined. rewrite errors_Join_nil_iff. destruct es; simpl; [naive_solver|].
  split; [|done]. intros H. by inv H. Qed.

#[export] Hint Rewrite @starts_app @stops_app joined_nil : go_rw.

(** * The stages of the lifecycle *)

Section Stages.
Context {W SB : Type} `{Runtime W}.
Variable r : Runner W SB.
Implicit Types (v : TaskVars SB) (evs : list (event SB)).

(** What a conditional stop of [finish] does to the shared variables. *)
Record stage (c : Ctx) v v' evs : Prop := {
  st_ctx : Forall (stop_event c) evs;
  st_errors : v_allErrors v' = v_allErrors v;
  st_result : v_result v' = v_result v;
  st_cleanup : v_cleanupErrors v' = [] <-> v_cleanupErrors v = [] /\ Forall event_ok evs;
  st_used : v_cleanupUsed v' = false <-> v_cleanupUsed v = false /\ evs = [];
  st_sandbox : v_sandbox v' = v_sandbox v
}.

Lemma stage_trans c v1 v2 v3 evs1 evs2 :
  stage c v1 v2 evs1 -> stage c v2 v3 evs2 -> stage c v1 v3 (evs1 ++ evs2).
Proof.
  intros [] []. split; rewrite ?Forall_app; [by split|congruence|congruence| | |congruence].
  - rewrite st_cleanup1, st_cleanup0. tauto.
  - rewrite st_used1, st_used0, app_nil. tauto.
Qed.

Lemma stage_refl c v : stage c v v [].
Proof. split; rewrite ?Forall_nil; try done; tauto. Qed.

Lemma stop_newest_first_emits c (newest_first : list SB) errs remaining :
  emits (stop_newest_first (traced r) c newest_first errs remaining)
    (fun out evs => Forall (stop_event c) evs /\ stops evs = newest_first /\
                    (out.1 = [] <-> errs = [] /\ Forall event_ok evs)).
Proof.
  revert errs remaining. induction newest_first as [|sb rest IH]; intros errs remaining; simpl.
  - emits_steps. split_and!; [constructor|done|]. rewrite Forall_nil. simpl. tauto.
  - emits_steps; (eapply emits_mono; [apply IH|]); intros [out rem] evs (Hc & Hs & He);
      simpl in *; rewrite Hs, !Forall_cons, He; simpl.
    + split_and!; [done|done|done|]. rewrite app_nil. naive_solver.
    + split_and!; [done|done|done|]. tauto.
Qed.
End Stages.

Section Finish.
Context {W SB : Type} `{Runtime W}.
Variable r : Runner W SB.
Implicit Types (v : TaskVars SB) (evs : list (event SB)).

(** What [finish] still has to stop: three flags and the evaluation sandboxes. *)
Definition same_flags v v' : Prop :=
  v_harnessActive v' = v_harnessActive v /\ v_bridgeActive v' = v_bridgeActive v /\
  v_sandboxActive v' = v_sandboxActive v.

Lemma finish_evaluation_emits c v :
  emits (finish_evaluation (traced r) c v)
    (fun v' evs => stage c v v' evs /\ same_flags v v' /\
                   stops evs = rev (v_evaluation v)).
Proof.
  unfold finish_evaluation, evaluation_stop.
  destruct (v_evaluation v) as [|sb rest] eqn:Hv; simpl.
  { emits_steps. split_and!; [apply stage_refl|done|done]. }
  eapply emits_bind; [eapply emits_bind; [apply stop_newest_first_emits|]|].
  - intros [errs remaining] evs (Hc & Hs & He). apply emits_ret. rewrite app_nil_r.
    instantiate (1 := fun out evs => Forall (stop_event c) evs /\
      stops evs = rev (sb :: rest) /\ (out.1 = None <-> Forall event_ok evs)).
    simpl in *. rewrite joined_nil, He. tauto.
  - intros [e started] evs (Hc & Hs & He). simpl in Hs, He.
    assert (evs <> []) as Hne by (intros ->; simpl in Hs; by destruct (rev rest)).
    destruct e; apply emits_ret; rewrite app_nil_r; (split; [|split; [done|exact Hs]]);
      split; simpl; try done; rewrite ?app_nil; naive_solver.
Qed.

(** One conditional stop of a role. *)
Definition one_stop c v v' evs (active : bool) (ev : error -> event SB) : Prop :=
  stage c v v' evs /\ if active then exists e, evs = [ev e] else evs = [].

Lemma one_stop_ok c v v' (e : error) (ev : error -> event SB) :
  (forall e, stop_event c (ev e)) -> (forall e, event_ok (ev e) <-> e = None) ->
  v_allErrors v' = v_allErrors v -> v_result v' = v_result v ->
  v_sandbox v' = v_sandbox v -> v_cleanupUsed v' = true ->
  (v_cleanupErrors v' = [] <-> v_cleanupErrors v = [] /\ e = None) ->
  one_stop c v v' [ev e] true ev.
Proof.
  intros Hc Hok ???? He. split; [|by eexists]. split; try done.
  - by repeat constructor.
  - rewrite He, Forall_singleton, Hok. done.
  - split; [congruence|]. by intros [_ ?].
Qed.

Lemma finish_harness_emits c v :
  emits (finish_harness (traced r) c v)
    (fun v' evs => one_stop c v v' evs (v_harnessActive v) (HarnessStopped c) /\
       v_bridgeActive v' = v_bridgeActive v /\ v_sandboxActive v' = v_sandboxActive v).
Proof.
  unfold finish_harness. destruct (v_harnessActive v); simpl; emits_steps;
    (split; [|done]); [| |by split; [apply stage_refl|]];
    apply one_stop_ok; simpl; rewrite ?app_nil; naive_solver.
Qed.

Lemma finish_bridge_emits c v :
  emits (finish_bridge (traced r) c v)
    (fun v' evs => one_stop c v v' evs (v_bridgeActive v) (BridgeStopped c) /\
       v_sandboxActive v' = v_sandboxActive v).
Proof.
  unfold finish_bridge. destruct (v_bridgeActive v); simpl; emits_steps;
    (split; [|done]); [| |by split; [apply stage_refl|]];
    apply one_stop_ok; simpl; rewrite ?app_nil; naive_solver.
Qed.

(** The live task sandbox. *)
Definition live_sandbox v : option SB :=
  if v_sandboxActive v then v_sandbox v else None.

Lemma finish_sandbox_emits c v :
  emits (finish_sandbox (traced r) c v)
    (fun v' evs => stage c v v' evs /\
       match live_sandbox v with
       | Some sb => exists e, evs = [SandboxStopped c sb e]
       | None => evs = []
       end).
Proof.
  unfold finish_sandbox, live_sandbox.
  destruct (v_sandboxActive v); [destruct (v_sandbox v) as [sb|] eqn:Hsb|]; simpl; emits_steps;
    try (split; [apply stage_refl|done]);
    apply (one_stop_ok c v _ _ (SandboxStopped c sb)); simpl; rewrite ?app_nil; naive_solver.
Qed.

Lemma finish_stops_emits c v :
  emits (finish_stops (traced r) c v)
    (fun v' evs => stage c v v' evs /\
       stops evs = rev (v_evaluation v) ++ option_list (live_sandbox v) /\
       (v_harnessActive v = true -> exists e, HarnessStopped c e ∈ evs) /\
       (v_bridgeActive v = true -> exists e, BridgeStopped c e ∈ evs)).
Proof.
  unfold finish_stops.
  eapply emits_bind; [apply finish_evaluation_emits|]. intros v1 evs1 (S1 & (F1 & F2 & F3) & E1).
  eapply emits_bind; [apply finish_harness_emits|]. intros v2 evs2 ((S2 & E2) & F4 & F5).
  eapply emits_bind; [apply finish_bridge_emits|]. intros v3 evs3 ((S3 & E3) & F6).
  eapply emits_mono; [apply finish_sandbox_emits|]. intros v4 evs4 (S4 & E4).
  assert (live_sandbox v3 = live_sandbox v) as Hl.
  { unfold live_sandbox. by rewrite F6, F5, F3, (st_sandbox _ _ _ _ S3),
      (st_sandbox _ _ _ _ S2), (st_sandbox _ _ _ _ S1). }
  rewrite Hl in E4. rewrite F1 in E2. rewrite F4, F2 in E3. split_and!.
  - eauto using stage_trans.
  - rewrite !stops_app, E1. f_equal.
    destruct (v_harnessActive v), (v_bridgeActive v), (live_sandbox v); naive_solver.
  - intros Hh. rewrite Hh in E2. destruct E2 as [e ->]. exists e. set_solver.
  - intros Hb. rewrite Hb in E3. destruct E3 as [e ->]. exists e. set_solver.
Qed.
End Finish.

(** * The end of a task *)

(** The cleanup status that a list of stops deserves. *)
Definition cleanup_status {SB} (evs : list (event SB)) (status : string) : Prop :=
  (evs = [] /\ status = StatusNotNeeded) \/
  (evs <> [] /\ Forall event_ok evs /\ status = StatusSucceeded) \/
  (~ Forall event_ok evs /\ status = StatusFailed).

Section Finished.
Context {W SB : Type} `{Runtime W}.
Variable r : Runner W SB.
Implicit Types (v : TaskVars SB) (evs : list (event SB)).

(** What [finish] reports, given the variables it starts from and its calls. *)
Record finished (ctx : Ctx) v (out : TaskResult * error) evs : Prop := {
  fd_ctx : Forall (stop_event (cleanup_context r ctx)) evs;
  fd_stops : stops evs = rev (v_evaluation v) ++ option_list (live_sandbox v);
  fd_harness : v_harnessActive v = true ->
               exists e, HarnessStopped (cleanup_context r ctx) e ∈ evs;
  fd_bridge : v_bridgeActive v = true ->
              exists e, BridgeStopped (cleanup_context r ctx) e ∈ evs;
  fd_ok : out.2 = None -> v_allErrors v = [] /\ Forall event_ok evs;
  fd_live : (forall w, (ctx_Err (Runtime := _ : Runtime W) ctx w).1 = None) ->
            v_allErrors v = [] -> Forall event_ok evs -> out.2 = None;
  fd_text : tr_Error out.1 = match out.2 with
                             | Some e => Error e
                             | None => tr_Error (v_result v)
                             end;
  fd_id : tr_TaskID out.1 = tr_TaskID (v_result v);
  fd_harness_result : tr_Harness out.1 = tr_Harness (v_result v);
  fd_isolation : tr_Isolation out.1 = tr_Isolation (v_result v);
  fd_evaluation : tr_Evaluation out.1 = tr_Evaluation (v_result v);
  fd_cleanup : cleanup_status evs (cl_Status (tr_Cleanup out.1))
}.

Lemma record_context_result s v : v_result (record_context s v) = v_result v.
Proof. unfold record_context. by destruct s; [destruct (error_Is _ _)|]. Qed.

Lemma record_context_errors s v :
  v_allErrors (record_context s v) = [] <-> v_allErrors v = [] /\ s = None.
Proof.
  unfold record_context. destruct s as [s|]; [|naive_solver].
  destruct (v_allErrors v) as [|e es] eqn:He.
  - simpl. rewrite He. naive_solver.
  - destruct (error_Is _ _); simpl; rewrite He; naive_solver.
Qed.

Lemma record_cleanup_spec v :
  v_allErrors (record_cleanup v) = v_allErrors v ++
    (if v_cleanupUsed v then v_cleanupErrors v else []) /\
  (exists cl, v_result (record_cleanup v) = set_tr_Cleanup cl (v_result v) /\
     cl_Status cl = if negb (v_cleanupUsed v) then StatusNotNeeded
                    else match v_cleanupErrors v with [] => StatusSucceeded | _ => StatusFailed end).
Proof.
  unfold record_cleanup. destruct (v_cleanupUsed v); simpl.
  - destruct (v_cleanupErrors v) as [|e es]; simpl; rewrite ?app_nil_r; eauto.
  - rewrite app_nil_r. eauto.
Qed.

Lemma finish_emits ctx started v :
  v_cleanupErrors v = [] -> v_cleanupUsed v = false ->
  emits (finish (traced r) ctx started v) (finished ctx v).
Proof.
  intros Hce Hcu. unfold finish.
  eapply emits_bind; [apply finish_stops_emits|]. intros v1 evs (S & Hs & Hh & Hb).
  destruct S as [Sc Se Sr Scl Su _]. rewrite Hce in Scl. rewrite Hcu in Su.
  pose proof (record_cleanup_spec v1) as [He (cl & Hcl & Hst)]. rewrite Se in He. rewrite Sr in Hcl.
  set (v2 := record_cleanup v1) in *.
  apply (emits_read_such _ (fun s => (forall w, (ctx_Err (Runtime := _ : Runtime W) ctx w).1 = None) -> s = None)).
  { intros w Hw. apply Hw. }
  intros s Hs0. apply emits_read. intros now.
  pose proof (record_context_errors s v2) as Hre. pose proof (record_context_result s v2) as Hrr.
  set (v3 := record_context s v2) in *. clearbody v2 v3. rewrite Hcl in Hrr.
  assert (forall out, out.2 = joined (v_allErrors v3) ->
     tr_Error out.1 = match out.2 with Some e => Error e | None => tr_Error (v_result v) end ->
     tr_TaskID out.1 = tr_TaskID (v_result v) ->
     tr_Harness out.1 = tr_Harness (v_result v) -> tr_Isolation out.1 = tr_Isolation (v_result v) ->
     tr_Evaluation out.1 = tr_Evaluation (v_result v) -> tr_Cleanup out.1 = cl ->
     finished ctx v out evs) as Hout.
  { intros out Ho ??????. split; try done.
    - rewrite Ho, joined_nil, Hre, He, app_nil. intros [[? Hn] _]. split; [done|].
      destruct (v_cleanupUsed v1); [by apply Scl|]. destruct Su as [Su _].
      by destruct (Su eq_refl) as [_ ->].
    - intros Hw Ha Hev. rewrite Ho, joined_nil, Hre, He, app_nil.
      destruct (v_cleanupUsed v1); naive_solver.
    - assert (tr_Cleanup out.1 = cl) as -> by done. rewrite Hst. unfold cleanup_status.
      destruct (v_cleanupUsed v1), (v_cleanupErrors v1); simpl; naive_solver. }
  simpl. destruct (joined (v_allErrors v3)) eqn:Hj; apply emits_ret; rewrite app_nil_r;
    apply Hout; simpl; rewrite ?Hrr; done.
Qed.
End Finished.

(** * The body of a task *)

Section Body.
Context {W SB : Type} `{Runtime W}.
Variable r : Runner W SB.
Implicit Types (v : TaskVars SB) (evs : list (event SB)).

(** Everything but the error lists, the flags and the result. *)
Definition same_cleanup v v' : Prop :=
  v_cleanupErrors v' = v_cleanupErrors v /\ v_cleanupUsed v' = v_cleanupUsed v /\
  v_evaluation v' = v_evaluation v /\ live_sandbox v' = live_sandbox v.

Lemma run_eval_emits taskID (p : eprog W SB) started :
  emits (run_eval (traced r) taskID (trace_eval p) started)
    (fun out evs => out.2 = started ++ starts evs /\ stops evs = [] /\
       Forall evaluation_event evs /\ Exists (fun ev => ev = EvaluateReturned out.1.2) evs /\
       (out.1.2 = None <-> Forall event_ok evs)).
Proof.
  revert started. induction p as [evaluation e|ctx environment k IH|step k IH];
    intros started; simpl.
  - intros w t. exists [EvaluateReturned e]. simpl. rewrite app_nil_r.
    rewrite !Forall_singleton, Exists_cons. simpl. tauto.
  - eapply emits_bind.
    { apply (emits_mono _ (fun out evs => out.2 = started ++ starts evs /\ stops evs = [] /\
        Forall evaluation_event evs /\ Forall event_ok evs)); [|intros out evs HP; exact HP].
      unfold evaluation_Start. simpl. emits_steps; simpl; rewrite ?app_nil_r;
      (split_and!; [done|done|by repeat constructor|by repeat constructor; left]). }
    intros [reply started'] evs (Hs & Ht & He & Hok). simpl in *.
    eapply emits_mono; [apply IH|]. intros out evs' (-> & Hs' & He' & Hr & Hok').
    rewrite Hs, starts_app, stops_app, Ht, Hs', !Forall_app, Exists_app, app_assoc. tauto.
  - intros w t. destruct (IH w started (step w) t) as (evs & Ht & HP). by exists evs.
Qed.

(** The harness: it is active whatever happened, and errors are recorded. *)
Lemma run_harness_emits ctx task request v :
  emits (run_harness (traced r) ctx task request v)
    (fun v' evs => same_cleanup v v' /\ v_bridgeActive v' = v_bridgeActive v /\
       v_harnessActive v' = true /\ starts evs = [] /\ stops evs = [] /\
       Forall (fun ev => ~ evaluate_event ev) evs /\
       tr_Isolation (v_result v') = tr_Isolation (v_result v) /\
       tr_Evaluation (v_result v') = tr_Evaluation (v_result v) /\
       tr_Error (v_result v') = tr_Error (v_result v) /\
       tr_TaskID (v_result v') = tr_TaskID (v_result v) /\
       (v_allErrors v' = [] <-> v_allErrors v = [] /\ Forall event_ok evs)).
Proof.
  unfold run_harness. simpl. emits_steps; simpl;
    (split_and!; [done|done|done|done|done|by repeat constructor; simpl; tauto|done|done|done|done|]);
    rewrite ?Forall_cons, ?Forall_nil, ?app_nil; simpl; naive_solver.
Qed.

(** The gates: two stops, and flags that say which of them succeeded. *)
Lemma isolate_emits ctx v :
  emits (isolate (traced r) ctx v)
    (fun out evs => exists eh eb,
       evs = [HarnessStopped (cleanup_context r ctx) eh; BridgeStopped (cleanup_context r ctx) eb] /\
       same_cleanup v out.1 /\ v_allErrors out.1 = v_allErrors v /\
       v_harnessActive out.1 = (if eh then v_harnessActive v else false) /\
       v_bridgeActive out.1 = (if eb then v_bridgeActive v else false) /\
       (out.2 = [] <-> eh = None /\ eb = None) /\
       tr_Evaluation (v_result out.1) = tr_Evaluation (v_result v) /\
       tr_Error (v_result out.1) = tr_Error (v_result v) /\
       tr_TaskID (v_result out.1) = tr_TaskID (v_result v) /\
       ir_Status (tr_Isolation (v_result out.1)) = ir_Status (tr_Isolation (v_result v)) /\
       (ir_HarnessStopped (tr_Isolation (v_result out.1)) =
          if eh then ir_HarnessStopped (tr_Isolation (v_result v)) else true) /\
       (ir_BridgeRevoked (tr_Isolation (v_result out.1)) =
          if eb then ir_BridgeRevoked (tr_Isolation (v_result v)) else true)).
Proof.
  unfold isolate. simpl.
  apply emits_call; intros [eh|]; apply emits_call; intros [eb|]; apply emits_ret; simpl;
    (do 2 eexists; split; [reflexivity|]); simpl; split_and!; try done; naive_solver.
Qed.

Lemma evaluate_emits ctx task sb v :
  emits (evaluate (traced r) ctx task sb v)
    (fun v' evs => v_cleanupErrors v' = v_cleanupErrors v /\ v_cleanupUsed v' = v_cleanupUsed v /\
       live_sandbox v' = live_sandbox v /\ v_evaluation v' = v_evaluation v ++ starts evs /\
       stops evs = [] /\ v_harnessActive v' = v_harnessActive v /\
       v_bridgeActive v' = v_bridgeActive v /\
       (exists post, evs = EvaluateCalled ctx sb :: post /\ Forall evaluation_event post) /\
       ir_Status (tr_Isolation (v_result v')) = StatusConfirmed /\
       ir_HarnessStopped (tr_Isolation (v_result v')) =
         ir_HarnessStopped (tr_Isolation (v_result v)) /\
       ir_BridgeRevoked (tr_Isolation (v_result v')) =
         ir_BridgeRevoked (tr_Isolation (v_result v)) /\
       tr_Error (v_result v') = tr_Error (v_result v) /\
       tr_TaskID (v_result v') = tr_TaskID (v_result v) /\
       (v_allErrors v' = [] <-> v_allErrors v = [] /\ Forall event_ok evs)).
Proof.
  unfold evaluate. simpl. eapply emits_bind.
  { intros w t. simpl.
    destruct (run_eval_emits (tk_ID task) (benchmark_Evaluate (rn_roles r) ctx task sb)
      (v_evaluation v) w (t ++ [EvaluateCalled ctx sb])) as (evs & Ht & HP).
    exists (EvaluateCalled ctx sb :: evs). split; [by rewrite Ht, <- app_assoc|].
    instantiate (1 := fun out evs => exists post, evs = EvaluateCalled ctx sb :: post /\
      out.2 = v_evaluation v ++ starts post /\ stops post = [] /\
      Forall evaluation_event post /\ (out.1.2 = None <-> Forall event_ok post)).
    eexists. split; [done|]. tauto. }
  intros [[evaluation e] started] evs (post & -> & Hs & Hst & Hp & Hok). simpl in *.
  emits_steps; rewrite app_nil_r; simpl;
    (split_and!; try done; [eauto|]); rewrite Forall_cons; simpl; rewrite <- Hok, ?app_nil;
    naive_solver.
Qed.
(** The gate reached by a task: the two stops, and their outcomes. *)
Definition gate ctx (eh eb : error) : list (event SB) :=
  [HarnessStopped (cleanup_context r ctx) eh; BridgeStopped (cleanup_context r ctx) eb].

(** How a body's calls relate to the gate and the evaluation. *)
Inductive gated ctx v : list (event SB) -> Prop :=
  | gate_unreached evs :
      Forall (fun ev => ~ evaluate_event ev) evs ->
      Forall (fun ev => ~ agent_event ev) evs \/ v_bridgeActive v = true ->
      Forall (fun ev => forall c e, ev <> HarnessStarted c e) evs ->
      ir_Status (tr_Isolation (v_result v)) = StatusNotStarted ->
      ir_HarnessStopped (tr_Isolation (v_result v)) = false ->
      ir_BridgeRevoked (tr_Isolation (v_result v)) = false ->
      ev_Status (tr_Evaluation (v_result v)) = StatusNotRun ->
      gated ctx v evs
  | gate_failed pre eh eb :
      Forall (fun ev => ~ evaluate_event ev) pre ->
      ~ (eh = None /\ eb = None) ->
      v_harnessActive v = bool_decide (eh <> None) ->
      v_bridgeActive v = bool_decide (eb <> None) ->
      ir_Status (tr_Isolation (v_result v)) = StatusBlockedIsolation ->
      ir_HarnessStopped (tr_Isolation (v_result v)) = bool_decide (eh = None) ->
      ir_BridgeRevoked (tr_Isolation (v_result v)) = bool_decide (eb = None) ->
      ev_Status (tr_Evaluation (v_result v)) = StatusBlockedIsolation ->
      gated ctx v (pre ++ gate ctx eh eb)
  | gate_passed pre sb post :
      starts pre = [sb] ->
      Forall (fun ev => ~ evaluate_event ev) pre ->
      Forall evaluation_event post ->
      ir_Status (tr_Isolation (v_result v)) = StatusConfirmed ->
      ir_HarnessStopped (tr_Isolation (v_result v)) = true ->
      ir_BridgeRevoked (tr_Isolation (v_result v)) = true ->
      gated ctx v (pre ++ gate ctx None None ++ EvaluateCalled ctx sb :: post).

(** What holds when the body hands over to [finish]. *)
Record body ctx id v evs : Prop := {
  bd_cleanup : v_cleanupErrors v = [] /\ v_cleanupUsed v = false;
  bd_starts : starts evs = option_list (live_sandbox v) ++ v_evaluation v;
  bd_stops : stops evs = [];
  bd_error : tr_Error (v_result v) = "";
  bd_id : tr_TaskID (v_result v) = id;
  bd_errors : v_allErrors v = [] <-> Forall event_ok evs;
  bd_gated : gated ctx v evs
}.

Lemma run_agent_emits ctx task sb request v id evs0 :
  tr_TaskID (v_result v) = id ->
  v_cleanupErrors v = [] -> v_cleanupUsed v = false -> v_evaluation v = [] ->
  live_sandbox v = Some sb -> v_bridgeActive v = true -> v_allErrors v = [] ->
  ir_HarnessStopped (tr_Isolation (v_result v)) = false ->
  ir_BridgeRevoked (tr_Isolation (v_result v)) = false ->
  tr_Error (v_result v) = "" ->
  Forall event_ok evs0 -> starts evs0 = [sb] -> stops evs0 = [] ->
  Forall (fun ev => ~ evaluate_event ev) evs0 ->
  emits (run_agent (traced r) ctx task sb request v) (fun v' evs => body ctx id v' (evs0 ++ evs)).
Proof.
  intros Hid Hce Hcu Hev Hlive Hbr Herr Hih Hib Htext Hok Hstart Hstop Hne. unfold run_agent.
  eapply emits_bind; [apply run_harness_emits|].
  intros v1 evs1 ((Hce1 & Hcu1 & Hev1 & Hl1) & Hb1 & Hh1 & Hs1 & Ht1 & Hn1 & Hi1 & He1 & Hx1 & Hy1 & Hok1).
  eapply emits_bind; [apply isolate_emits|].
  intros [v2 ies] evs2 (eh & eb & -> & (Hce2 & Hcu2 & Hev2 & Hl2) & Ha2 & Hh2 & Hb2 & Hies & He2
    & Hx2 & Hy2 & Hi2 & Hih2 & Hib2). simpl in *.
  destruct ies as [|ie ies].
  - destruct (proj1 Hies eq_refl) as [-> ->].
    eapply emits_mono; [apply evaluate_emits|].
    intros v3 evs3 (Hce3 & Hcu3 & Hl3 & Hev3 & Hst3 & Hh3 & Hb3 & (post & -> & Hp) & Hi3 & Hih3 &
      Hib3 & Hx3 & Hy3 & Hok3).
    split.
    + split; congruence.
    + rewrite !starts_app, Hstart, Hs1, Hl3, Hl2, Hl1, Hlive, Hev3, Hev2, Hev1, Hev. done.
    + rewrite !stops_app, Hstop, Ht1. simpl in *. congruence.
    + congruence.
    + congruence.
    + rewrite Hok3, Ha2, Hok1, Herr, !Forall_app, !Forall_cons. simpl. naive_solver.
    + rewrite app_assoc. apply gate_passed; try congruence; [|by apply Forall_app].
      by rewrite starts_app, Hstart, Hs1.
  - assert (~ (eh = None /\ eb = None)) as Hfail by (rewrite <- Hies; done).
    apply emits_ret. unfold block_evaluation. split; simpl.
    + split; congruence.
    + rewrite !starts_app, Hstart, Hs1. simpl.
      unfold live_sandbox in *. simpl. rewrite Hl2, Hl1, Hlive, Hev2, Hev1, Hev. done.
    + by rewrite !stops_app, Hstop, Ht1.
    + congruence.
    + congruence.
    + rewrite Ha2, !Forall_app, !Forall_cons. simpl. split; [by intros [_ ?]%app_nil|].
      naive_solver.
    + rewrite app_assoc. apply gate_failed; simpl; try done.
      * by apply Forall_app.
      * rewrite Hh2, Hh1. by destruct eh.
      * rewrite Hb2, Hb1, Hbr. by destruct eb.
      * rewrite Hih2, Hi1, Hih. by destruct eh.
      * rewrite Hib2, Hi1, Hib. by destruct eb.
Qed.

Lemma task_body_emits ctx task started :
  emits (task_body (traced r) ctx task started) (body ctx (tk_ID task)).
Proof.
  unfold task_body. destruct (effectiveRuntime _ _) as [[[env cpu] mem] timeout]. simpl.
  apply emits_call. intros [[sb|] [e|]]; simpl.
  1,3,4: apply emits_ret; split; simpl; try done;
    [rewrite Forall_cons; simpl; naive_solver
    |apply gate_unreached; simpl; try done; [by repeat constructor; simpl; tauto|
      left; by repeat constructor; simpl; tauto|by repeat constructor]].
  apply emits_call. intros [e|]; simpl.
  { apply emits_ret; split; simpl; try done; [rewrite !Forall_cons; simpl; naive_solver|].
    apply gate_unreached; simpl; try done; [by repeat constructor; simpl; tauto|
      left; by repeat constructor; simpl; tauto|by repeat constructor]. }
  apply emits_call. intros [endpoint [e|]]; simpl.
  { apply emits_ret; split; simpl; try done; [rewrite !Forall_cons; simpl; naive_solver|].
    apply gate_unreached; simpl; try done; [by repeat constructor; simpl; tauto|
      by right|by repeat constructor]. }
  match goal with |- emits _ (fun b evs => body _ _ _ (?a :: ?b :: ?c :: evs)) =>
    apply (run_agent_emits _ _ _ _ _ _ [a; b; c]) end; try done.
  - rewrite !Forall_cons. simpl. naive_solver.
  - by repeat constructor; simpl; tauto.
Qed.
End Body.

(** * What one task guarantees *)

Section Guarantees.
Context {W SB : Type} `{Runtime W}.
Variable r : Runner W SB.
Implicit Types (v : TaskVars SB) (evs : list (event SB)).

(** A task is its body and then [finish]. *)
Lemma task_run_spec ctx task w :
  exists v evs1 evs2, (task_run r ctx task w).2 = evs1 ++ evs2 /\
    body r ctx (tk_ID task) v evs1 /\ finished r ctx v (task_run r ctx task w).1 evs2.
Proof.
  unfold task_run. apply (emits_run (runTask (traced r) ctx task)
    (fun out evs => exists v evs1 evs2, evs = evs1 ++ evs2 /\
       body r ctx (tk_ID task) v evs1 /\ finished r ctx v out evs2)).
  unfold runTask. apply emits_read. intros started.
  eapply emits_bind; [apply task_body_emits|]. intros v evs1 Hb.
  eapply emits_mono; [apply finish_emits; apply Hb|]. intros out evs2 Hf. eauto 6.
Qed.

Lemma stop_events_not c (P : event SB -> Prop) evs :
  (forall ev, P ev -> ~ stop_event c ev) -> Forall (stop_event c) evs ->
  Forall (fun ev => ~ P ev) evs.
Proof. intros HP Hl. eapply Forall_impl; [exact Hl|]. intros ev Hs HPev. by apply (HP ev). Qed.

Lemma evaluation_events_not (P : event SB -> Prop) evs :
  (forall ev, P ev -> ~ evaluation_event ev) -> Forall evaluation_event evs ->
  Forall (fun ev => ~ P ev) evs.
Proof. intros HP Hl. eapply Forall_impl; [exact Hl|]. intros ev Hs HPev. by apply (HP ev). Qed.

Lemma evaluate_not_stop c (ev : event SB) : evaluate_event ev -> ~ stop_event c ev.
Proof. destruct ev; simpl; tauto. Qed.
Lemma evaluate_not_evaluation (ev : event SB) : evaluate_event ev -> ~ evaluation_event ev.
Proof. destruct ev; simpl; tauto. Qed.
Lemma agent_not_stop c (ev : event SB) : agent_event ev -> ~ stop_event c ev.
Proof. destruct ev; simpl; tauto. Qed.
Lemma agent_not_evaluation (ev : event SB) : agent_event ev -> ~ evaluation_event ev.
Proof. destruct ev; simpl; tauto. Qed.
Hint Resolve evaluate_not_stop evaluate_not_evaluation agent_not_stop agent_not_evaluation : core.

Lemma gate_not ctx eh eb (P : event SB -> Prop) :
  (forall ev, P ev -> ~ stop_event (cleanup_context r ctx) ev) ->
  Forall (fun ev => ~ P ev) (gate r ctx eh eb).
Proof. intros HP. eapply stop_events_not; [done|]. by repeat constructor. Qed.

(** C1. A task is evaluated only when isolation is confirmed: before the evaluation
    runs, the harness was stopped and the bridge revoked, both without error, and no
    agent call comes after; and the sandboxes it uses are those still held. *)
Theorem evaluate_only_after_isolation ctx task w pre c sb post :
  (task_run r ctx task w).2 = pre ++ EvaluateCalled c sb :: post ->
  c = ctx /\ starts pre = [sb] /\ stops pre = [] /\
  (exists pre', pre = pre' ++ [HarnessStopped (cleanup_context r ctx) None;
                               BridgeStopped (cleanup_context r ctx) None]) /\
  Forall (fun ev => ~ agent_event ev /\ ~ evaluate_event ev) post.
Proof.
  destruct (task_run_spec ctx task w) as (v & evs1 & evs2 & -> & Hb & Hf). intros Heq.
  pose proof (stop_events_not _ evaluate_event _ (evaluate_not_stop _) (fd_ctx _ _ _ _ _ Hf)) as H2.
  pose proof (bd_stops _ _ _ _ _ Hb) as Hst.
  destruct (bd_gated _ _ _ _ _ Hb) as [evs H1 _ _ _ _ _ _|pre1 eh eb H1 _ _ _ _ _ _ _|pre1 sb1 post1 Hs H1 Hp _ _ _].
  - by apply (no_occurrence evaluate_event) in Heq; [|rewrite Forall_app].
  - apply (no_occurrence evaluate_event) in Heq; [done|].
    rewrite !Forall_app. auto using gate_not.
  - rewrite <- !app_assoc, app_assoc in Heq. simpl in Heq. symmetry in Heq.
    apply (only_occurrence evaluate_event) in Heq as (-> & Heq & ->); [|done| |].
    2: { rewrite Forall_app. auto using gate_not. }
    2: { rewrite Forall_app. eauto using evaluation_events_not. }
    inv Heq. rewrite starts_app, stops_app, Hs in *. rewrite stops_app in Hst.
    apply app_nil in Hst as [Hst _]. split_and!; [done|done|by rewrite Hst|by eexists|].
    rewrite Forall_app. split.
    + eapply Forall_impl; [exact Hp|]. intros ev Hev. split; destruct ev; simpl in *; tauto.
    + eapply Forall_impl; [apply Hf|]. intros ev Hev. split; destruct ev; simpl in *; tauto.
Qed.

(** After an agent event, either the gate follows or it was not reached. *)
Lemma gate_follows ctx v evs pre ev post :
  gated r ctx v evs -> evs = pre ++ ev :: post -> agent_event ev ->
  (v_bridgeActive v = true /\
     Forall (fun ev => ~ exists c e, ev = HarnessStarted c e) evs) \/
  (exists e1 e2, HarnessStopped (cleanup_context r ctx) e1 ∈ post /\
                 BridgeStopped (cleanup_context r ctx) e2 ∈ post).
Proof.
  intros [evs' H1 H2 H3 _ _ _ _|pre1 eh eb _ _ _ _ _ _ _ _|pre1 sb1 post1 _ _ Hp _ _ _] Heq Hev.
  - left. split.
    + destruct H2 as [H2|H2]; [|done]. by eapply no_occurrence in Heq; [|exact H2].
    + eapply Forall_impl; [exact H3|]. intros ev' Hn (c & e & ->). by eapply Hn.
  - right. apply (occurrence_left agent_event) in Heq as (m & -> & ->); [|done|auto using gate_not].
    exists eh, eb. unfold gate. split; set_solver.
  - right. apply (occurrence_left agent_event) in Heq as (m & -> & ->); [|done|].
    + exists None, None. unfold gate. split; set_solver.
    + rewrite Forall_app, Forall_cons. simpl.
      split_and!; [auto using gate_not|tauto|eauto using evaluation_events_not].
Qed.

(** C2. Whatever fails, a task stops each sandbox it started exactly once, newest
    first, under the cleanup context; and a harness or a bridge whose start was
    attempted is stopped later, under that context. *)
Theorem task_releases_everything ctx task w :
  let evs := (task_run r ctx task w).2 in
  let cleanup := cleanup_context r ctx in
  stops evs = rev (starts evs) /\
  (forall c sb e, SandboxStopped c sb e ∈ evs -> c = cleanup) /\
  (forall pre c e post, evs = pre ++ HarnessStarted c e :: post ->
     exists e', HarnessStopped cleanup e' ∈ post) /\
  (forall pre c e post, evs = pre ++ BridgeStarted c e :: post ->
     exists e', BridgeStopped cleanup e' ∈ post).
Proof.
  intros evs cleanup. subst evs.
  destruct (task_run_spec ctx task w) as (v & evs1 & evs2 & -> & Hb & Hf).
  pose proof (fd_ctx _ _ _ _ _ Hf) as Hc. pose proof (fd_stops _ _ _ _ _ Hf) as Hst.
  split_and!.
  - rewrite starts_app, stops_app, (stop_events_start_nothing _ _ Hc), (bd_stops _ _ _ _ _ Hb).
    rewrite (bd_starts _ _ _ _ _ Hb), Hst, app_nil_r, rev_app_distr. simpl.
    f_equal. by destruct (live_sandbox v).
  - intros c sb e [Hin|Hin]%elem_of_app.
    + assert (sb ∈ stops evs1) as Hs by (apply list_elem_of_omap; by eexists; split; [exact Hin|]).
      rewrite (bd_stops _ _ _ _ _ Hb) in Hs. by apply elem_of_nil in Hs.
    + rewrite Forall_forall in Hc. by apply Hc in Hin.
  - intros pre c e post Heq.
    apply (occurrence_left (fun ev => exists c e, ev = HarnessStarted c e)) in Heq
      as (m & -> & ->); [|by eauto|apply (stop_events_not cleanup); [intros ? (? & ? & ->); simpl; tauto|done]].
    destruct (gate_follows ctx v _ pre (HarnessStarted c e) m (bd_gated _ _ _ _ _ Hb) eq_refl)
      as [[_ Hn]|(e1 & e2 & H1 & _)]; [simpl; eauto| |].
    + exfalso. apply (no_occurrence (fun ev => exists c e, ev = HarnessStarted c e)) with
        (pre := pre) (post := m) (x := HarnessStarted c e) in Hn; eauto.
    + exists e1. apply elem_of_app. auto.
  - intros pre c e post Heq.
    apply (occurrence_left (fun ev => exists c e, ev = BridgeStarted c e)) in Heq
      as (m & -> & ->); [|by eauto|apply (stop_events_not cleanup); [intros ? (? & ? & ->); simpl; tauto|done]].
    destruct (gate_follows ctx v _ pre (BridgeStarted c e) m (bd_gated _ _ _ _ _ Hb) eq_refl)
      as [[Hbr _]|(e1 & e2 & _ & H1)]; [simpl; eauto| |].
    + destruct (fd_bridge _ _ _ _ _ Hf Hbr) as [e' ?]. exists e'. apply elem_of_app. auto.
    + exists e2. apply elem_of_app. auto.
Qed.

(** C3. A task reports success only if every call it made succeeded, and it does report
    success then unless its context ended; the error in the result is the text of the
    returned one, and a failed cleanup is due to a stop that failed. *)
Theorem task_error_complete ctx task w :
  let '((result, e), evs) := task_run r ctx task w in
  (e = None -> Forall event_ok evs) /\
  ((forall w, (ctx_Err ctx w).1 = None) -> Forall event_ok evs -> e = None) /\
  tr_Error result = match e with Some e => Error e | None => "" end /\
  (cl_Status (tr_Cleanup result) = StatusFailed ->
     exists ev, ev ∈ evs /\ stop_event (cleanup_context r ctx) ev /\ ~ event_ok ev).
Proof.
  destruct (task_run r ctx task w) as [[result e] evs] eqn:Hrun.
  destruct (task_run_spec ctx task w) as (v & evs1 & evs2 & Heq & Hb & Hf).
  rewrite Hrun in *. simpl in *. subst evs. split_and!.
  - intros He. apply (fd_ok _ _ _ _ _ Hf) in He as [Ha Hok].
    apply Forall_app. split; [by apply (bd_errors _ _ _ _ _ Hb)|done].
  - intros Hctx [H1 H2]%Forall_app. apply (fd_live _ _ _ _ _ Hf); [done| |done].
    by apply (bd_errors _ _ _ _ _ Hb).
  - pose proof (fd_text _ _ _ _ _ Hf) as Ht. simpl in Ht. rewrite Ht.
    destruct e; [done|]. by apply (bd_error _ _ _ _ _ Hb).
  - intros Hst. pose proof (fd_cleanup _ _ _ _ _ Hf) as Hcl. simpl in Hcl. rewrite Hst in Hcl.
    destruct Hcl as [[_ ?]|[(_ & _ & ?)|[Hn _]]]; [done|done|].
    apply not_Forall_Exists in Hn; [|apply _]. apply Exists_exists in Hn as (ev & Hin & Hev).
    exists ev. split_and!; [apply elem_of_app; auto| |done].
    pose proof (fd_ctx _ _ _ _ _ Hf) as Hc. rewrite Forall_forall in Hc. auto.
Qed.

(** The isolation status is the truth about the run: confirmed exactly when the
    evaluation ran, harness stopped and bridge revoked only if those calls succeeded,
    and a blocked isolation blocks the evaluation and fails the task. *)
Theorem isolation_status_truthful ctx task w :
  let '((result, e), evs) := task_run r ctx task w in
  let isolation := tr_Isolation result in
  (ir_Status isolation = StatusConfirmed <-> Exists evaluate_event evs) /\
  (ir_Status isolation = StatusConfirmed ->
     ir_HarnessStopped isolation = true /\ ir_BridgeRevoked isolation = true) /\
  (ir_HarnessStopped isolation = true -> HarnessStopped (cleanup_context r ctx) None ∈ evs) /\
  (ir_BridgeRevoked isolation = true -> BridgeStopped (cleanup_context r ctx) None ∈ evs) /\
  (ir_Status isolation = StatusBlockedIsolation ->
     ev_Status (tr_Evaluation result) = StatusBlockedIsolation /\ e <> None) /\
  (ir_Status isolation = StatusNotStarted ->
     ev_Status (tr_Evaluation result) = StatusNotRun).
Proof.
  destruct (task_run r ctx task w) as [[result e] evs] eqn:Hrun.
  destruct (task_run_spec ctx task w) as (v & evs1 & evs2 & Heq & Hb & Hf).
  rewrite Hrun in *. simpl in *. subst evs.
  pose proof (stop_events_not _ evaluate_event _ (evaluate_not_stop _) (fd_ctx _ _ _ _ _ Hf)) as H2.
  pose proof (fd_isolation _ _ _ _ _ Hf) as Hi. pose proof (fd_evaluation _ _ _ _ _ Hf) as He.
  simpl in Hi, He. rewrite Hi, He.
  assert (e = None -> Forall event_ok evs1) as Herr.
  { intros Hn. apply (fd_ok _ _ _ _ _ Hf) in Hn as [Ha _]. by apply (bd_errors _ _ _ _ _ Hb). }
  destruct (bd_gated _ _ _ _ _ Hb)
    as [evs H1 _ _ -> -> -> ->|pre eh eb H1 Hne _ _ -> -> -> ->|pre sb post _ H1 Hp -> -> ->];
    split_and!; try done; rewrite ?Exists_app, ?elem_of_app.
  - split; [done|]. apply Forall_not_Exists in H1, H2. tauto.
  - split; [done|]. apply Forall_not_Exists in H1, H2.
    pose proof (gate_not ctx eh eb evaluate_event (evaluate_not_stop _)) as H3.
    apply Forall_not_Exists in H3. tauto.
  - intros ->%bool_decide_eq_true. left; right. unfold gate. set_solver.
  - intros ->%bool_decide_eq_true. left; right. unfold gate. set_solver.
  - intros _. split; [done|]. intros [_ Hg]%Herr%Forall_app.
    unfold gate in Hg. rewrite !Forall_cons in Hg. simpl in Hg. tauto.
  - split; [intros _|done]. left; right; right. by constructor.
  - intros _. left; right; left. unfold gate. set_solver.
  - intros _. left; right; left. unfold gate. set_solver.
Qed.

(** The tasks of [run_tasks]: a balanced trace for each result. *)
Definition ran (tasks : list Task) (results : list TaskResult) (errs : list err)
    (out : list TaskResult * list err) evs : Prop :=
  exists n new traces, out.1 = results ++ new /\
    map tr_TaskID new = map tk_ID (take n tasks) /\ evs = concat traces /\
    length traces = length new /\
    Forall (fun t => stops t = rev (starts t)) traces /\
    (out.2 = [] -> n = length tasks /\ errs = [] /\ Forall event_ok evs /\
                   Forall (fun result => tr_Error result = "") new).

Lemma runTask_emits ctx task :
  emits (runTask (traced r) ctx task) (fun out evs =>
    tr_TaskID out.1 = tk_ID task /\ stops evs = rev (starts evs) /\
    (out.2 = None -> Forall event_ok evs /\ tr_Error out.1 = "")).
Proof.
  unfold runTask. apply emits_read. intros started.
  eapply emits_bind; [apply task_body_emits|]. intros v evs1 Hb.
  eapply emits_mono; [apply finish_emits; apply Hb|]. intros out evs2 Hf.
  split_and!.
  - rewrite (fd_id _ _ _ _ _ Hf). apply Hb.
  - rewrite starts_app, stops_app, (bd_stops _ _ _ _ _ Hb), (bd_starts _ _ _ _ _ Hb).
    rewrite (stop_events_start_nothing _ _ (fd_ctx _ _ _ _ _ Hf)), (fd_stops _ _ _ _ _ Hf).
    rewrite app_nil_r, rev_app_distr. simpl. f_equal. by destruct (live_sandbox v).
  - intros He. rewrite (fd_text _ _ _ _ _ Hf), He. apply (fd_ok _ _ _ _ _ Hf) in He as [Ha Hok].
    rewrite Forall_app. split; [split; [by apply (bd_errors _ _ _ _ _ Hb)|done]|].
    by apply (bd_error _ _ _ _ _ Hb).
Qed.

Lemma run_tasks_emits ctx tasks results errs :
  emits (run_tasks (traced r) ctx tasks results errs) (ran tasks results errs).
Proof.
  revert results errs. induction tasks as [|task rest IH]; intros results errs; simpl.
  - apply emits_ret. exists 0%nat, [], []. simpl. rewrite app_nil_r.
    by split_and!.
  - apply emits_read. intros [s|].
    { apply emits_ret. exists 0%nat, [], []. simpl. rewrite app_nil_r.
      split_and!; try done. simpl. by intros [_ ?]%app_nil. }
    eapply emits_bind; [apply runTask_emits|]. intros [result e] evs (Hid & Hbal & Hok). simpl in *.
    eapply emits_mono; [apply IH|]. intros out evs' (n & new & traces & Hout & Hids & -> & Hl & Ht & He).
    exists (S n), (result :: new), (evs :: traces). rewrite Hout, <- app_assoc. simpl.
    split_and!; try done; [congruence|congruence|by constructor|].
    intros Hn. destruct (He Hn) as (-> & Herrs & Hev & Htext).
    destruct e as [e|]; [by apply app_nil in Herrs as [_ ?]|].
    destruct (Hok eq_refl) as [Hok1 Hok2]. rewrite Forall_app, Forall_cons. done.
Qed.

(** A run executes a prefix of the benchmark's tasks in order and one after the
    other, each task's sandboxes being released before the next task starts; its
    summary counts its results, and it succeeds only if all tasks ran and nothing
    failed. *)
Theorem Run_sequential ctx w :
  let out := Run (traced r) ctx (w, []) in
  let result := out.1.1 in
  exists tasks n traces,
    tasks = (benchmark_Tasks (rn_roles r) ctx (time_Now w).2).1.1 /\
    map tr_TaskID (ru_Tasks result) = map tk_ID (take n tasks) /\
    ru_Summary result = (if (benchmark_Tasks (rn_roles r) ctx (time_Now w).2).1.2
                         then no_RunSummary else summarize (ru_Tasks result)) /\
    out.2.2 = concat traces /\ length traces = length (ru_Tasks result) /\
    Forall (fun t => stops t = rev (starts t)) traces /\
    (out.1.2 = None -> n = length tasks /\ Forall event_ok (concat traces) /\
       Forall (fun result => tr_Error result = "") (ru_Tasks result)).
Proof.
  unfold Run. simpl. unfold bind, silent. simpl.
  destruct (time_Now w) as [started w1]. simpl.
  destruct (benchmark_Tasks (rn_roles r) ctx w1) as [[tasks [e|]] w2]; simpl.
  - exists tasks, 0%nat, []. by destruct (time_Now w2).
  - pose proof (run_tasks_emits ctx tasks [] [] w2 []) as (evs & Ht & Hran).
    destruct (run_tasks (traced r) ctx tasks [] [] (w2, [])) as [[results errs] [w3 t]]. simpl in *.
    subst t. unfold ran in Hran. simpl in Hran. destruct Hran as (n & new & traces & -> & Hids & -> & Hl & Hbal & Herr).
    exists tasks, n, traces. destruct (time_Now w3). simpl. split_and!; try done.
    intros (? & ? & ? & ?)%joined_nil%Herr. done.
Qed.
End Guarantees.

(** * The summary *)

(** The counters, by the tasks they count. *)
Definition counted (P : TaskResult -> bool) (tasks : list TaskResult) : Z :=
  Z.of_nat (length (List.filter P tasks)).

Lemma counted_cons P task tasks : counted P (task :: tasks) = b2z (P task) + counted P tasks.
Proof. unfold counted. simpl. destruct (P task); unfold b2z; simpl length; lia. Qed.

Definition harness_is (status : string) (task : TaskResult) : bool :=
  is_status (hr_Status (tr_Harness task)) status.
Definition evaluation_is (status : string) (task : TaskResult) : bool :=
  is_status (ev_Status (tr_Evaluation task)) status.
Definition cleanup_is (status : string) (task : TaskResult) : bool :=
  is_status (cl_Status (tr_Cleanup task)) status.

(** At most one of two different statuses. *)
Lemma is_status_exclusive status a b : a <> b -> is_status status a && is_status status b = false.
Proof.
  unfold is_status. intros Hab. destruct (String.eqb_spec status a) as [->|]; [|done].
  destruct (String.eqb_spec a b); done.
Qed.

Lemma count_task_spec summary task :
  count_task summary task =
  {| rs_Tasks := rs_Tasks summary;
     rs_HarnessSucceeded := rs_HarnessSucceeded summary + b2z (harness_is StatusSucceeded task);
     rs_HarnessFailed := rs_HarnessFailed summary +
       b2z (harness_is StatusFailed task || harness_is StatusCanceled task);
     rs_EvaluationsRun := rs_EvaluationsRun summary +
       b2z (evaluation_is StatusSucceeded task || evaluation_is StatusFailed task ||
            evaluation_is StatusCanceled task);
     rs_EvaluationsSucceeded := rs_EvaluationsSucceeded summary +
       b2z (evaluation_is StatusSucceeded task);
     rs_EvaluationsFailed := rs_EvaluationsFailed summary +
       b2z (evaluation_is StatusFailed task || evaluation_is StatusCanceled task);
     rs_EvaluationsBlocked := rs_EvaluationsBlocked summary +
       b2z (evaluation_is StatusBlockedIsolation task);
     rs_CleanupFailed := rs_CleanupFailed summary + b2z (cleanup_is StatusFailed task) |}.
Proof.
  unfold count_task, harness_is, evaluation_is, cleanup_is.
  pose proof (is_status_exclusive (hr_Status (tr_Harness task)) StatusSucceeded StatusFailed).
  pose proof (is_status_exclusive (hr_Status (tr_Harness task)) StatusSucceeded StatusCanceled).
  pose proof (is_status_exclusive (ev_Status (tr_Evaluation task)) StatusSucceeded StatusFailed).
  pose proof (is_status_exclusive (ev_Status (tr_Evaluation task)) StatusSucceeded StatusCanceled).
  pose proof (is_status_exclusive (ev_Status (tr_Evaluation task)) StatusSucceeded
                StatusBlockedIsolation).
  pose proof (is_status_exclusive (ev_Status (tr_Evaluation task)) StatusBlockedIsolation
                StatusFailed).
  pose proof (is_status_exclusive (ev_Status (tr_Evaluation task)) StatusBlockedIsolation
                StatusCanceled).
  repeat match goal with H : ?a <> ?b -> _ |- _ => specialize (H ltac:(done)) end.
  f_equal;
    destruct (is_status (hr_Status _) StatusSucceeded), (is_status (ev_Status _) StatusSucceeded),
      (is_status (ev_Status _) StatusBlockedIsolation); simpl in *;
    repeat match goal with H : is_status _ _ = false |- _ => rewrite H in *; clear H end;
    try done; by destruct (_ || _).
Qed.

Lemma fold_count_task tasks s :
  let t := fold_left count_task tasks s in
  rs_Tasks t = rs_Tasks s /\
  rs_HarnessSucceeded t = rs_HarnessSucceeded s + counted (harness_is StatusSucceeded) tasks /\
  rs_HarnessFailed t = rs_HarnessFailed s +
    counted (fun k => harness_is StatusFailed k || harness_is StatusCanceled k) tasks /\
  rs_EvaluationsRun t = rs_EvaluationsRun s + counted (fun k =>
    evaluation_is StatusSucceeded k || evaluation_is StatusFailed k ||
    evaluation_is StatusCanceled k) tasks /\
  rs_EvaluationsSucceeded t =
    rs_EvaluationsSucceeded s + counted (evaluation_is StatusSucceeded) tasks /\
  rs_EvaluationsFailed t = rs_EvaluationsFailed s +
    counted (fun k => evaluation_is StatusFailed k || evaluation_is StatusCanceled k) tasks /\
  rs_EvaluationsBlocked t =
    rs_EvaluationsBlocked s + counted (evaluation_is StatusBlockedIsolation) tasks /\
  rs_CleanupFailed t = rs_CleanupFailed s + counted (cleanup_is StatusFailed) tasks.
Proof.
  revert s. induction tasks as [|task tasks IH]; intros s; simpl.
  - unfold counted. simpl. lia.
  - specialize (IH (count_task s task)). rewrite count_task_spec in IH. simpl in IH.
    rewrite <- count_task_spec in IH. rewrite !counted_cons. lia.
Qed.

(** Two exclusive predicates count at most the whole list, and their union is the sum. *)
Lemma counted_or P Q tasks : (forall k, P k && Q k = false) ->
  counted (fun k => P k || Q k) tasks = counted P tasks + counted Q tasks.
Proof.
  intros HPQ. induction tasks as [|k tasks IH]; [done|]. rewrite !counted_cons, IH.
  specialize (HPQ k). destruct (P k), (Q k); simpl in *; try done; lia.
Qed.

Lemma counted_le P tasks : 0 <= counted P tasks <= Z.of_nat (length tasks).
Proof.
  induction tasks as [|k tasks IH]; [done|]. rewrite counted_cons. simpl length.
  destruct (P k); simpl; lia.
Qed.

(** The summary's counters are the numbers of tasks with each status, canceled
    counting as failed, and no task is counted as both run and blocked. *)
Theorem summarize_counts tasks :
  let s := summarize tasks in
  rs_Tasks s = Z.of_nat (length tasks) /\
  rs_HarnessSucceeded s = counted (harness_is StatusSucceeded) tasks /\
  rs_HarnessFailed s =
    counted (harness_is StatusFailed) tasks + counted (harness_is StatusCanceled) tasks /\
  rs_EvaluationsSucceeded s = counted (evaluation_is StatusSucceeded) tasks /\
  rs_EvaluationsFailed s =
    counted (evaluation_is StatusFailed) tasks + counted (evaluation_is StatusCanceled) tasks /\
  rs_EvaluationsBlocked s = counted (evaluation_is StatusBlockedIsolation) tasks /\
  rs_CleanupFailed s = counted (cleanup_is StatusFailed) tasks /\
  rs_EvaluationsRun s = rs_EvaluationsSucceeded s + rs_EvaluationsFailed s /\
  rs_EvaluationsRun s + rs_EvaluationsBlocked s <= rs_Tasks s /\
  rs_HarnessSucceeded s + rs_HarnessFailed s <= rs_Tasks s.
Proof.
  pose proof (fold_count_task tasks {| rs_Tasks := Z.of_nat (length tasks);
    rs_HarnessSucceeded := 0; rs_HarnessFailed := 0;
    rs_EvaluationsRun := 0; rs_EvaluationsSucceeded := 0; rs_EvaluationsFailed := 0;
    rs_EvaluationsBlocked := 0; rs_CleanupFailed := 0 |}) as Hf. simpl in Hf.
  change (fold_left count_task tasks _) with (summarize tasks) in Hf.
  destruct Hf as (H1 & H2 & H3 & H4 & H5 & H6 & H7 & H8). simpl.
  pose proof (counted_le (fun k => (evaluation_is StatusSucceeded k || evaluation_is StatusFailed k
    || evaluation_is StatusCanceled k) || evaluation_is StatusBlockedIsolation k) tasks) as Hle.
  pose proof (counted_le (fun k => harness_is StatusSucceeded k ||
    (harness_is StatusFailed k || harness_is StatusCanceled k)) tasks) as Hle'.
  assert (counted (fun k => evaluation_is StatusSucceeded k || evaluation_is StatusFailed k) tasks =
    counted (evaluation_is StatusSucceeded) tasks + counted (evaluation_is StatusFailed) tasks) as H9
    by (apply counted_or; intros; by apply is_status_exclusive).
  assert (counted (fun k => harness_is StatusFailed k || harness_is StatusCanceled k) tasks =
    counted (harness_is StatusFailed) tasks + counted (harness_is StatusCanceled) tasks) as H10
    by (apply counted_or; intros; by apply is_status_exclusive).
  rewrite counted_or in H4. 1: rewrite counted_or in H6. 1: rewrite counted_or in Hle.
  1: rewrite counted_or in Hle. 1: rewrite counted_or in Hle'. 1: lia.
  all: intros k; unfold evaluation_is, harness_is.
  all: rewrite ?andb_orb_distrib_l, ?andb_orb_distrib_r, !is_status_exclusive; done.
Qed.

(** * A concrete run *)

Module Demo.
(** The world counts calls; it is also the clock and the source of handles. *)
#[export] Instance clock : Runtime nat :=
  {| time_Now w := (Z.of_nat w, S w); ctx_Err _ w := (None, w) |}.

Definition environment : Environment :=
  {| en_Image := "busybox"; en_Workdir := "/work"; en_CPU := f64_zero; en_MemoryMB := 512;
     en_StorageMB := 0; en_GPUs := 0; en_AllowNetwork := false; en_Env := ∅;
     en_Services := {| ts_SearchPort := 0; ts_MCP := [] |}; en_ExecUser := "" |}.
Definition task (id : string) : Task :=
  {| tk_ID := id; tk_Instruction := "do it"; tk_Timeout := 60; tk_Environment := environment;
     tk_NoSandboxTools := false |}.

Definition ok {A} (a : A) : M nat A := fun w => (a, S w).

Definition roles : Roles nat nat := {|
  benchmark_Tasks _ := ok ([task "a"; task "b"], None);
  benchmark_PrepareSandbox _ _ _ := ok None;
  benchmark_Evaluate ctx _ _ :=
    EvalStart ctx environment (fun _ => EvalReturn no_Evaluation None);
  harness_Start _ _ := ok None;
  harness_Run _ _ := ok (no_HarnessResult, None);
  harness_Stop _ := ok None;
  toolSandbox_Start _ _ := fun w => ((Some w, None), S w);
  toolSandbox_Stop _ _ := ok None;
  sandbox_Connectivity _ := {| hc_Placement := {| rp_AttachmentID := "" |}; hc_SearchURL := ""; hc_MCPServers := [] |};
  bridge_Start _ _ := ok (no_ToolEndpoint, None);
  bridge_Stop _ := ok None
|}.

Definition overrides : ResourceOverrides := {| ro_CPU := None; ro_MemoryMB := None |}.
Definition runner : Runner nat nat := {|
  rn_roles := roles; rn_name := "demo"; rn_runID := "r1"; rn_outputDir := "/out";
  rn_model := {| mc_Provider := "p"; mc_BaseURL := "u"; mc_Model := "m"; mc_APIKeyEnv := "K";
    mc_ReasoningEffort := ""; mc_ContextLength := 0; mc_MaxTokens := 0; mc_Temperature := None |}; rn_cleanupTimeout := defaultCleanupTimeout;
  rn_runtimeOverrides := {| vo_HarnessResources := overrides;
    vo_AgentSandboxResources := overrides; vo_AgentTimeout := None |} |}.

Definition trace : list (event nat) := (task_run runner (Given 0) (task "a") 0%nat).2.
End Demo.

Lemma evaluate_only_after_isolation_witness :
  exists pre c sb post, Demo.trace = pre ++ EvaluateCalled c sb :: post /\
    starts pre = [sb] /\ exists pre', pre = pre' ++
      [HarnessStopped (cleanup_context Demo.runner (Given 0)) None;
       BridgeStopped (cleanup_context Demo.runner (Given 0)) None].
Proof.
  exists (take 7 Demo.trace), (Given 0), 1%nat, (drop 8 Demo.trace).
  assert (Demo.trace = take 7 Demo.trace ++ EvaluateCalled (Given 0) 1%nat :: drop 8 Demo.trace)
    as Heq by (vm_compute; reflexivity).
  split; [exact Heq|].
  destruct (evaluate_only_after_isolation Demo.runner (Given 0) (Demo.task "a") 0%nat _ _ _ _ Heq)
    as (_ & Hs & _ & Hp & _). exact (conj Hs Hp).
Defined.

