(* ===== verification/Execution.v ===== *)
(** The execution engine of a profile ([internal/app/execution.go]): occurrence
    identifiers, the admission loop of [runProfile] with its bounded concurrency,
    the aggregation of the occurrences' results, and [runObserved].

    Goroutines are interleaved: [profile_step] is a step relation on the
    admission state, one step per admission attempt, per completed occurrence
    and per end of admission.  What an attempt observes (the deadline, the
    context, which [select] case fired) is given by an [observation], so every
    schedule the Go runtime may choose is a path of the relation. *)

From S2P Require Import Prelude Trace Core Runner.

(** * Occurrences *)

Record taskOccurrence := { logicalID : string; executionID : string }.

Definition no_taskOccurrence : taskOccurrence := {| logicalID := ""; executionID := "" |}.

(** [nextTaskOccurrence]; the index is a uint64. *)
Definition nextTaskOccurrence (logicalID : string) (index : Z) : (taskOccurrence + err) * Z :=
  if index =? max_uint64 then (inr (ENew "task occurrence index overflow"), index)
  else let index := index + 1 in
       (inl {| logicalID := logicalID;
               executionID := logicalID +:+ "-" +:+ pad0 3 (itoa index) |}, index).

(** [arrival]. *)
Record arrival := { ar_logicalID : string; ar_at : Z }.

(** [occurrenceSlot]; the slot holds the zero result until its goroutine ends. *)
Record occurrenceSlot := {
  os_occurrence : taskOccurrence;
  os_result : RunResult;
  os_err : error
}.

(** [addSummary]. *)
Definition addSummary (total next : RunSummary) : RunSummary :=
  {| rs_Tasks := rs_Tasks total + rs_Tasks next;
     rs_HarnessSucceeded := rs_HarnessSucceeded total + rs_HarnessSucceeded next;
     rs_HarnessFailed := rs_HarnessFailed total + rs_HarnessFailed next;
     rs_EvaluationsRun := rs_EvaluationsRun total + rs_EvaluationsRun next;
     rs_EvaluationsSucceeded := rs_EvaluationsSucceeded total + rs_EvaluationsSucceeded next;
     rs_EvaluationsFailed := rs_EvaluationsFailed total + rs_EvaluationsFailed next;
     rs_EvaluationsBlocked := rs_EvaluationsBlocked total + rs_EvaluationsBlocked next;
     rs_CleanupFailed := rs_CleanupFailed total + rs_CleanupFailed next |}.

(** * Admission *)

(** The guards of [runProfile]. *)
Definition validate_profile (concurrency : Z) (taskIDs : list string) (loopDuration : Z)
    (arrivals : list arrival) : error :=
  let tasks := Z.of_nat (length taskIDs) in
  let scheduled := Z.of_nat (length arrivals) in
  (refuse_if ((concurrency <=? 0) || (tasks =? 0))
     with "execution requires positive concurrency and at least one task") >>?
  (refuse_if ((0 <? scheduled) && (0 <? loopDuration))
     with "execution cannot combine an arrival schedule with a loop duration") >>?
  (refuse_if ((0 <? scheduled) && negb (scheduled =? tasks))
     with ("arrival schedule has " +:+ itoa scheduled +:+ " entries for " +:+ itoa tasks
           +:+ " tasks")).

(** The variables of the admission loop: the index, the slots, the goroutines in
    flight (indices of slots, each holding one unit of [capacity]), how many
    tasks of the schedule were offered, and whether admission is over. *)
Record profile := {
  pf_index : Z;
  pf_slots : list occurrenceSlot;
  pf_running : list nat;
  pf_offered : nat;
  pf_closed : bool
}.

Definition initial_profile : profile :=
  {| pf_index := 0; pf_slots := []; pf_running := []; pf_offered := 0; pf_closed := false |}.

(** What one call of [admit] observes. *)
Inductive select_case := SelectDone | SelectDeadline | SelectCapacity.
Record observation := {
  expired_before : bool;   (* the deadline had passed before the select *)
  selected : select_case;
  stopped_after : bool     (* the context had ended or the deadline passed afterwards *)
}.

(** [admit]: [None] is a [select] case that cannot fire, a full [capacity]. *)
Definition admit_slot (concurrency : Z) (obs : observation) (logicalID : string) (st : profile) :
    option (profile * bool) :=
  if expired_before obs then Some (st, false)
  else match selected obs with
  | SelectDone | SelectDeadline => Some (st, false)
  | SelectCapacity =>
      if concurrency <=? Z.of_nat (length (pf_running st)) then None
      else if stopped_after obs then Some (st, false)
      else
        let slot := length (pf_slots st) in
        match nextTaskOccurrence logicalID (pf_index st) with
        | (inr e, index) =>
            Some ({| pf_index := index;
                     pf_slots := pf_slots st ++
                       [{| os_occurrence := no_taskOccurrence; os_result := no_RunResult;
                           os_err := Some e |}];
                     pf_running := pf_running st; pf_offered := pf_offered st;
                     pf_closed := pf_closed st |}, false)
        | (inl occurrence, index) =>
            Some ({| pf_index := index;
                     pf_slots := pf_slots st ++
                       [{| os_occurrence := occurrence; os_result := no_RunResult;
                           os_err := None |}];
                     pf_running := pf_running st ++ [slot]; pf_offered := pf_offered st;
                     pf_closed := pf_closed st |}, true)
        end
  end.

(** The [n]th task offered to [admit]: the arrivals, the tasks once, or the tasks
    over and over. *)
Definition offer (taskIDs : list string) (loopDuration : Z) (arrivals : list arrival) (n : nat) :
    option string :=
  match arrivals with
  | _ :: _ => ar_logicalID <$> arrivals !! n
  | [] => if loopDuration =? 0 then taskIDs !! n
          else taskIDs !! (n mod length taskIDs)%nat
  end.

Definition close_profile (st : profile) : profile :=
  {| pf_index := pf_index st; pf_slots := pf_slots st; pf_running := pf_running st;
     pf_offered := pf_offered st; pf_closed := true |}.
Definition offered_profile (st : profile) : profile :=
  {| pf_index := pf_index st; pf_slots := pf_slots st; pf_running := pf_running st;
     pf_offered := S (pf_offered st); pf_closed := pf_closed st |}.

(** A goroutine ends: its slot is filled and its capacity released. *)
Definition complete_slot (result : RunResult) (e : error) (slot : occurrenceSlot) :
    occurrenceSlot :=
  {| os_occurrence := os_occurrence slot; os_result := result; os_err := e |}.
Definition complete (i : nat) (result : RunResult) (e : error) (st : profile) : profile :=
  {| pf_index := pf_index st; pf_slots := alter (complete_slot result e) i (pf_slots st);
     pf_running := List.filter (fun j => negb (j =? i)%nat) (pf_running st);
     pf_offered := pf_offered st; pf_closed := pf_closed st |}.

Section Profile.
Variables (concurrency : Z) (taskIDs : list string) (loopDuration : Z) (arrivals : list arrival).

(** The admission loops and the goroutines, interleaved. *)
Inductive profile_step : profile -> profile -> Prop :=
  | step_admit st obs logicalID st' :
      pf_closed st = false ->
      offer taskIDs loopDuration arrivals (pf_offered st) = Some logicalID ->
      admit_slot concurrency obs logicalID st = Some (st', true) ->
      profile_step st (offered_profile st')
  | step_refuse st obs logicalID st' :
      pf_closed st = false ->
      offer taskIDs loopDuration arrivals (pf_offered st) = Some logicalID ->
      admit_slot concurrency obs logicalID st = Some (st', false) ->
      profile_step st (close_profile st')
  | step_exhausted st :
      pf_closed st = false ->
      offer taskIDs loopDuration arrivals (pf_offered st) = None ->
      profile_step st (close_profile st)
  | step_cancelled st :   (* ctx.Err() after the wait for an arrival *)
      pf_closed st = false -> arrivals <> [] ->
      profile_step st (close_profile st)
  | step_complete st i result e :
      i ∈ pf_running st ->
      profile_step st (complete i result e st).

(** [wg.Wait] returns when admission is over and nothing is in flight. *)
Definition quiescent (st : profile) : Prop := pf_closed st = true /\ pf_running st = [].
End Profile.

(** * Aggregation *)

(** The error a slot adds. *)
Definition slot_error (slot : occurrenceSlot) : list error :=
  match os_err slot with
  | Some e =>
      if negb (String.eqb (executionID (os_occurrence slot)) "")
      then [Some (EWrap ("task occurrence " +:+ executionID (os_occurrence slot)) e)]
      else [Some e]
  | None => []
  end.

(** The loop over the slots after [wg.Wait]. *)
Definition collect (slots : list occurrenceSlot) :
    list TaskResult * RunSummary * list error :=
  fold_left (fun acc slot =>
    let '(tasks, summary, joined) := acc in
    (tasks ++ ru_Tasks (os_result slot),
     addSummary summary (ru_Summary (os_result slot)),
     joined ++ slot_error slot)) slots ([], no_RunSummary, []).

(** The result of [runProfile] once the goroutines are done. *)
Definition profile_result (name runID : string) (slots : list occurrenceSlot)
    (ctxErr : option sentinel) (duration : Z) : RunResult * error :=
  let '(tasks, summary, joined) := collect slots in
  let joined := match ctxErr with
                | Some s => joined ++ [Some (ESentinel s)]
                | None => joined
                end in
  ({| ru_Infrastructure := None; ru_Name := name; ru_RunID := runID; ru_Tasks := tasks;
      ru_Summary := summary; ru_Duration := duration |}, errors_Join joined).

(** * The observed run *)

(** [failedObserverResult]. *)
Definition failedObserverResult (message : string) : ObserverResult :=
  set_ob_Error message (set_ob_Status StatusFailed no_ObserverResult).

(** The text of [stopErr] wrapped, joined behind an existing observer error. *)
Definition join_observer_error (existing : string) (e : err) : string :=
  Error (if negb (String.eqb existing "") then EJoin [ENew existing; e] else e).

(** The body of the loop over [result.Tasks]: the task, and the error it adds to
    [reportErrors]. *)
Definition observe_task (startErr stopErr : error) (reports : gmap string ObserverResult)
    (task : TaskResult) : TaskResult * list error :=
  match startErr with
  | Some e => (set_tr_Observer (failedObserverResult ("start observer: " +:+ Error e)) task, [])
  | None =>
      let report := default no_ObserverResult (reports !! tr_TaskID task) in
      if negb (String.eqb (ob_Status report) "") then
        match stopErr with
        | Some e =>
            (set_tr_Observer
               (set_ob_Error (join_observer_error (ob_Error report) (EWrap "stop observer" e))
                 (set_ob_Status StatusFailed report)) task, [])
        | None => (set_tr_Observer report task, [])
        end
      else
        let missing := ENew ("observer report missing for task " +:+ quote (tr_TaskID task)) in
        let message := match stopErr with
                       | Some e => EJoin [EWrap "stop observer" e; missing]
                       | None => missing
                       end in
        (set_tr_Observer (failedObserverResult (Error message)) task, [Some missing])
  end.

Definition observe_tasks (startErr stopErr : error) (reports : gmap string ObserverResult)
    (tasks : list TaskResult) : list TaskResult * list error :=
  let observed := map (observe_task startErr stopErr reports) tasks in
  (map fst observed, concat (map snd observed)).

Definition observerStopTimeout : Z := 15 * 10 ^ 9.

(** [runObserved]. *)
Definition runObserved {W : Type} (ctx : Ctx) (execute : Ctx -> M W (RunResult * error))
    (startObserver : Ctx -> M W error)
    (stopObserver : Ctx -> M W (gmap string ObserverResult * error))
    (stopTimeout : Z) : M W (RunResult * error) :=
  let* startErr := startObserver ctx in
  let* (result, runErr) := execute ctx in
  let* (reports, stopErr) :=
    match startErr with
    | None => stopObserver (WithTimeout (WithoutCancel ctx) stopTimeout)
    | Some _ => ret (∅, None)
    end in
  let (tasks, reportErrors) := observe_tasks startErr stopErr reports (ru_Tasks result) in
  ret (set_ru_Tasks tasks result,
       errors_Join [runErr; wrap "start observer" startErr; wrap "stop observer" stopErr;
                    errors_Join reportErrors]).

(** [experiment.Run]: [close] is optional. *)
Definition experiment_Run {W : Type} (ctx : Ctx) (run : Ctx -> M W (RunResult * error))
    (recorder_Start : Ctx -> M W error)
    (recorder_Stop : Ctx -> M W (gmap string ObserverResult * error))
    (close : option (M W error)) : M W (RunResult * error) :=
  let* (result, e) := runObserved ctx run recorder_Start recorder_Stop observerStopTimeout in
  match close with
  | Some close => let* closeErr := close in ret (result, errors_Join [e; closeErr])
  | None => ret (result, e)
  end.

(** * Admission: the invariant *)

Section Admission.
Variables (concurrency : Z) (taskIDs : list string) (loopDuration : Z) (arrivals : list arrival).
Let step := profile_step concurrency taskIDs loopDuration arrivals.

(** The occurrence of the [k]th admitted task. *)
Definition occurrence_at (k : nat) (logicalID : string) : taskOccurrence :=
  {| logicalID := logicalID;
     executionID := logicalID +:+ "-" +:+ pad0 3 (itoa (Z.of_nat k + 1)) |}.

Record admission (st : profile) (admitted overflow : list occurrenceSlot) : Prop := {
  ad_slots : pf_slots st = admitted ++ overflow;
  ad_overflow : overflow = [] \/
    (pf_closed st = true /\ pf_index st = max_uint64 /\ exists e, overflow =
       [{| os_occurrence := no_taskOccurrence; os_result := no_RunResult; os_err := Some e |}]);
  ad_index : pf_index st = Z.of_nat (length admitted) /\ pf_index st <= max_uint64;
  ad_offered : pf_offered st = length admitted;
  ad_occurrences : forall k slot, admitted !! k = Some slot ->
    exists logicalID, offer taskIDs loopDuration arrivals k = Some logicalID /\
                      os_occurrence slot = occurrence_at k logicalID;
  ad_bound : Z.of_nat (length (pf_running st)) <= concurrency;
  ad_nodup : NoDup (pf_running st);
  ad_in_flight : Forall (fun i => (i < length admitted)%nat /\
    exists slot, admitted !! i = Some slot /\ os_result slot = no_RunResult /\ os_err slot = None)
    (pf_running st)
}.

Lemma list_filter_sublist {A} (f : A -> bool) (l : list A) : List.filter f l `sublist_of` l.
Proof. induction l as [|x l IH]; simpl; [done|]. destruct (f x); by constructor. Qed.

Lemma admission_complete st admitted overflow i result e :
  admission st admitted overflow -> i ∈ pf_running st ->
  admission (complete i result e st) (alter (complete_slot result e) i admitted) overflow.
Proof.
  intros [Hs Ho Hi Hn Hocc Hb Hnd Hf] Hin.
  pose proof Hf as Hlt. rewrite Forall_forall in Hlt. destruct (Hlt i Hin) as [Hlen _].
  pose proof (list_filter_sublist (fun j => negb (j =? i)%nat) (pf_running st)) as Hsub.
  split; simpl.
  - rewrite Hs. by apply alter_app_l.
  - done.
  - by rewrite length_alter.
  - by rewrite length_alter.
  - intros k slot Hk. destruct (decide (k = i)) as [->|Hne].
    + rewrite list_lookup_alter_eq in Hk. destruct (admitted !! i) as [s|] eqn:Hs'; [|done].
      injection Hk as <-. exact (Hocc _ _ Hs').
    + rewrite list_lookup_alter_ne in Hk by done. by apply Hocc.
  - apply sublist_length in Hsub. lia.
  - by eapply sublist_NoDup.
  - apply Forall_forall. intros j Hj. apply list_elem_of_In, filter_In in Hj as [Hj Hne].
    apply list_elem_of_In in Hj. destruct (Hlt j Hj) as (Hjl & slot & Hslot & Hr & He).
    rewrite length_alter. split; [done|]. exists slot.
    rewrite list_lookup_alter_ne; [done|]. intros ->. by rewrite Nat.eqb_refl in Hne.
Qed.

Lemma admission_close st admitted overflow :
  admission st admitted overflow -> admission (close_profile st) admitted overflow.
Proof. intros [Hs Ho Hi Hn Hocc Hb Hnd Hf]. split; try done. simpl. tauto. Qed.

Lemma nextTaskOccurrence_spec logicalID index n :
  index = Z.of_nat n ->
  nextTaskOccurrence logicalID index =
    if index =? max_uint64 then (inr (ENew "task occurrence index overflow"), index)
    else (inl (occurrence_at n logicalID), index + 1).
Proof. intros ->. unfold nextTaskOccurrence. by destruct (_ =? max_uint64). Qed.

Lemma admission_admit st obs logicalID st' started admitted :
  admission st admitted [] ->
  offer taskIDs loopDuration arrivals (pf_offered st) = Some logicalID ->
  admit_slot concurrency obs logicalID st = Some (st', started) ->
  exists admitted' overflow', admission (if started then offered_profile st'
                                         else close_profile st') admitted' overflow'.
Proof.
  intros Had Hoffer. pose proof Had as [Hs _ [Hi Hmax] Hn Hocc Hb Hnd Hf].
  unfold admit_slot. rewrite app_nil_r in Hs.
  destruct (expired_before obs).
  { intros [= <- <-]. eauto using admission_close. }
  destruct (selected obs); [intros [= <- <-]; eauto using admission_close..|].
  destruct (Z.leb_spec concurrency (Z.of_nat (length (pf_running st)))) as [|Hroom]; [done|].
  destruct (stopped_after obs); [intros [= <- <-]; eauto using admission_close|].
  rewrite (nextTaskOccurrence_spec _ _ (length admitted)) by done.
  destruct (Z.eqb_spec (pf_index st) max_uint64) as [Heq|Hne]; intros [= <- <-].
  - eexists admitted, [_]. split; simpl; try done; [by rewrite Hs|]. right. eauto.
  - set (slot := {| os_occurrence := occurrence_at (length admitted) logicalID;
                    os_result := no_RunResult; os_err := None |}).
    exists (admitted ++ [slot]), []. split; simpl.
    + by rewrite Hs, app_nil_r.
    + by left.
    + rewrite length_app. simpl. split; lia.
    + rewrite length_app. simpl. lia.
    + intros k s Hk. apply lookup_snoc_Some in Hk as [[_ Hk]|[-> <-]]; [by apply Hocc|].
      exists logicalID. split; [by rewrite <- Hn|done].
    + rewrite length_app. simpl. lia.
    + apply NoDup_app. split_and!; [done| |apply NoDup_singleton].
      intros x Hx ->%list_elem_of_singleton. rewrite Forall_forall in Hf.
      destruct (Hf _ Hx) as [Hlt _]. rewrite Hs in Hlt. lia.
    + rewrite Forall_app, Forall_singleton, length_app, Hs. simpl. split.
      * eapply Forall_impl; [exact Hf|]. intros i (Hlt & s & Hsl & Hr & He). split; [lia|].
        exists s. by rewrite lookup_app_l.
      * split; [lia|]. exists slot. rewrite lookup_app_r, Nat.sub_diag by lia. done.
Qed.

Lemma admission_reachable st :
  0 <= concurrency -> rtc step initial_profile st ->
  exists admitted overflow, admission st admitted overflow.
Proof.
  intros Hc. apply (rtc_ind_r (fun st => exists admitted overflow, admission st admitted overflow)).
  { exists [], []. split; simpl; try done; [by left|constructor]. }
  intros st1 st2 _ Hstep (admitted & overflow & Had).
  assert (pf_closed st1 = false -> overflow = []) as Hopen.
  { intros Hcl. destruct (ad_overflow _ _ _ Had) as [|[? _]]; congruence. }
  destruct Hstep as [st1 obs id st' Hcl Hof Ha|st1 obs id st' Hcl Hof Ha|st1|st1|st1 i result e Hin];
    try (rewrite Hopen in Had by done);
    eauto using admission_close, admission_complete.
  - by apply (admission_admit _ _ _ _ _ _ Had Hof) in Ha.
  - by apply (admission_admit _ _ _ _ _ _ Had Hof) in Ha.
Qed.

(** The identifiers of different admissions differ. *)
Lemma dash_not_digit (s : string) :
  forallb is_digit (to_bytes s) = true -> "-"%char ∉ to_bytes s.
Proof.
  rewrite forallb_Forall, Forall_forall. intros Hd Hin. by apply Hd in Hin.
Qed.

Lemma occurrence_at_inj k k' id id' :
  executionID (occurrence_at k id) = executionID (occurrence_at k' id') -> k = k' /\ id = id'.
Proof.
  simpl. intros Heq. apply (f_equal to_bytes) in Heq. rewrite !to_bytes_app in Heq.
  apply (last_separator "-"%char) in Heq as [Hid Hk];
    [|apply dash_not_digit, digits_pad0; lia..].
  apply to_bytes_inj in Hid, Hk. apply pad0_itoa_inj in Hk; [|lia..].
  split; [lia|done].
Qed.

(** At every point of a traffic profile at most [concurrency] executions run, each
    occurrence runs at most once at a time, and one that runs has no result yet. *)
Theorem runProfile_bounded st :
  0 <= concurrency -> rtc step initial_profile st ->
  Z.of_nat (length (pf_running st)) <= concurrency /\ NoDup (pf_running st) /\
  Forall (fun i => exists slot, pf_slots st !! i = Some slot /\
                   os_result slot = no_RunResult /\ os_err slot = None) (pf_running st).
Proof.
  intros Hc Hr. destruct (admission_reachable st Hc Hr) as (admitted & overflow & Had).
  split_and!; [apply Had..|]. eapply Forall_impl; [apply (ad_in_flight _ _ _ Had)|].
  intros i (Hlt & slot & Hs & ?). exists slot.
  rewrite (ad_slots _ _ _ Had), lookup_app_l by done. done.
Qed.

(** The slots of a profile follow the offered tasks in order, with consecutive
    occurrence numbers and distinct execution ids; only when the index would overflow
    is one more failed slot added, which closes admission. *)
Theorem runProfile_admission_order st :
  0 <= concurrency -> rtc step initial_profile st ->
  exists admitted overflow, pf_slots st = admitted ++ overflow /\
    (overflow <> [] -> pf_closed st = true /\ pf_index st = max_uint64 /\ length overflow = 1%nat) /\
    (forall k slot, admitted !! k = Some slot ->
       exists logicalID, offer taskIDs loopDuration arrivals k = Some logicalID /\
                         os_occurrence slot = occurrence_at k logicalID) /\
    NoDup (map (fun slot => executionID (os_occurrence slot)) admitted).
Proof.
  intros Hc Hr. destruct (admission_reachable st Hc Hr) as (admitted & overflow & Had).
  exists admitted, overflow. split_and!; [apply Had| |apply Had|].
  - intros Hne. by destruct (ad_overflow _ _ _ Had) as [|(? & ? & e & ->)].
  - apply NoDup_alt. intros i j id Hi Hj. rewrite !list_lookup_fmap in *.
    destruct (admitted !! i) as [s|] eqn:Hs; [|done].
    destruct (admitted !! j) as [s'|] eqn:Hs'; [|done]. simpl in *.
    destruct (ad_occurrences _ _ _ Had i s Hs) as (l & _ & Hl).
    destruct (ad_occurrences _ _ _ Had j s' Hs') as (l' & _ & Hl').
    rewrite Hl in Hi. rewrite Hl' in Hj. eapply (occurrence_at_inj i j l l'). congruence.
Qed.
End Admission.

(** * Aggregation: the result adds up *)

Lemma counted_app P (a b : list TaskResult) : counted P (a ++ b) = counted P a + counted P b.
Proof. unfold counted. rewrite List.filter_app, length_app. lia. Qed.

Lemma RunSummary_eq (s t : RunSummary) :
  rs_Tasks s = rs_Tasks t -> rs_HarnessSucceeded s = rs_HarnessSucceeded t ->
  rs_HarnessFailed s = rs_HarnessFailed t -> rs_EvaluationsRun s = rs_EvaluationsRun t ->
  rs_EvaluationsSucceeded s = rs_EvaluationsSucceeded t ->
  rs_EvaluationsFailed s = rs_EvaluationsFailed t ->
  rs_EvaluationsBlocked s = rs_EvaluationsBlocked t ->
  rs_CleanupFailed s = rs_CleanupFailed t -> s = t.
Proof. destruct s, t; simpl. intros. by subst. Qed.

(** The summary of a concatenation is the sum of the summaries. *)
Lemma summarize_app (a b : list TaskResult) :
  summarize (a ++ b) = addSummary (summarize a) (summarize b).
Proof.
  unfold summarize.
  match goal with |- fold_left _ _ ?x = addSummary (fold_left _ _ ?y) (fold_left _ _ ?z) =>
    pose proof (fold_count_task (a ++ b) x); pose proof (fold_count_task a y);
    pose proof (fold_count_task b z) end.
  simpl in *. rewrite !counted_app, length_app in *. apply RunSummary_eq; simpl; lia.
Qed.

Lemma collect_app (slots slots' : list occurrenceSlot) tasks summary joined :
  fold_left (fun acc slot =>
    let '(tasks, summary, joined) := acc in
    (tasks ++ ru_Tasks (os_result slot),
     addSummary summary (ru_Summary (os_result slot)),
     joined ++ slot_error slot)) slots (tasks, summary, joined) =
  (tasks ++ concat (map (fun slot => ru_Tasks (os_result slot)) slots),
   fold_left addSummary (map (fun slot => ru_Summary (os_result slot)) slots) summary,
   joined ++ concat (map slot_error slots)).
Proof.
  revert tasks summary joined. induction slots as [|slot slots IH]; intros tasks summary joined.
  - simpl. by rewrite !app_nil_r.
  - simpl. rewrite IH. by rewrite <- !app_assoc.
Qed.

Lemma fold_addSummary (slots : list occurrenceSlot) (tasks : list TaskResult) :
  Forall (fun slot => ru_Summary (os_result slot) = summarize (ru_Tasks (os_result slot))) slots ->
  fold_left addSummary (map (fun slot => ru_Summary (os_result slot)) slots) (summarize tasks) =
  summarize (tasks ++ concat (map (fun slot => ru_Tasks (os_result slot)) slots)).
Proof.
  intros Hs. revert tasks. induction Hs as [|slot slots Hslot _ IH]; intros tasks; simpl.
  - by rewrite app_nil_r.
  - by rewrite Hslot, <- summarize_app, IH, app_assoc.
Qed.

Lemma slot_errors_nil (slots : list occurrenceSlot) :
  errors_Join (concat (map slot_error slots)) = None <-> Forall (fun s => os_err s = None) slots.
Proof.
  rewrite errors_Join_nil_iff. induction slots as [|slot slots IH]; simpl; [done|].
  rewrite Forall_app, Forall_cons, IH. unfold slot_error.
  destruct (os_err slot); [|naive_solver]. destruct (negb _); rewrite Forall_singleton; naive_solver.
Qed.

(** The result of a profile has every slot's tasks in order, its summary is the
    summary of those tasks, and there is no error exactly when no execution failed and
    the context did not end. *)
Theorem profile_result_adds_up name runID slots ctxErr duration :
  Forall (fun slot => ru_Summary (os_result slot) = summarize (ru_Tasks (os_result slot))) slots ->
  let '(result, e) := profile_result name runID slots ctxErr duration in
  ru_Tasks result = concat (map (fun slot => ru_Tasks (os_result slot)) slots) /\
  ru_Summary result = summarize (ru_Tasks result) /\
  (e = None <-> Forall (fun slot => os_err slot = None) slots /\ ctxErr = None).
Proof.
  intros Hs. unfold profile_result, collect. rewrite (collect_app slots slots). simpl.
  split_and!; [done| |].
  - exact (fold_addSummary slots [] Hs).
  - rewrite <- slot_errors_nil, !errors_Join_nil_iff.
    destruct ctxErr; rewrite ?Forall_app, ?Forall_singleton; naive_solver.
Qed.

(** * The observed run *)

Lemma observe_task_spec startErr stopErr reports task :
  let '(task', missing) := observe_task startErr stopErr reports task in
  task' = set_tr_Observer (tr_Observer task') task /\
  (ob_Status (tr_Observer task') = StatusFailed \/
   reports !! tr_TaskID task = Some (tr_Observer task')) /\
  ((startErr <> None \/ stopErr <> None \/ missing <> []) ->
     ob_Status (tr_Observer task') = StatusFailed) /\
  (startErr = None -> stopErr = None -> (Forall (fun e => e = None) missing <->
     exists report, reports !! tr_TaskID task = Some report /\ ob_Status report <> "" /\
                    tr_Observer task' = report)).
Proof.
  unfold observe_task. destruct startErr as [e|]; simpl; [naive_solver|].
  destruct (reports !! tr_TaskID task) as [report|]; simpl.
  - destruct (String.eqb_spec (ob_Status report) "") as [Hn|Hn]; destruct stopErr; simpl;
      rewrite ?Forall_singleton, ?Forall_nil; naive_solver.
  - destruct stopErr; simpl; rewrite ?Forall_singleton; naive_solver.
Qed.

#[local] Arguments observe_task : simpl never.

(** An observed execution runs once, the observer is stopped under its own deadline
    exactly when it started, tasks and their own results are left as they are, each task
    gets its report or a failed one, and the run succeeds exactly if execution, start,
    stop and every report did. *)
Theorem runObserved_spec {W : Type} ctx execute startObserver stopObserver stopTimeout (w : W) :
  let '(startErr, w1) := startObserver ctx w in
  let '((ran, runErr), w2) := execute ctx w1 in
  let '((reports, stopErr), w3) := stopObserver (WithTimeout (WithoutCancel ctx) stopTimeout) w2 in
  let '((result, e), w') := runObserved ctx execute startObserver stopObserver stopTimeout w in
  w' = (if startErr then w2 else w3) /\
  result = set_ru_Tasks (ru_Tasks result) ran /\
  Forall2 (fun task task' => task' = set_tr_Observer (tr_Observer task') task /\
    (ob_Status (tr_Observer task') = StatusFailed \/
     reports !! tr_TaskID task = Some (tr_Observer task')))
    (ru_Tasks ran) (ru_Tasks result) /\
  (e = None <-> runErr = None /\ startErr = None /\ stopErr = None /\
     Forall2 (fun task task' => exists report, reports !! tr_TaskID task = Some report /\
                ob_Status report <> "" /\ tr_Observer task' = report)
       (ru_Tasks ran) (ru_Tasks result)).
Proof.
  destruct (startObserver ctx w) as [startErr w1] eqn:H1.
  destruct (execute ctx w1) as [[ran runErr] w2] eqn:H2.
  destruct (stopObserver _ w2) as [[reports stopErr] w3] eqn:H3.
  unfold runObserved, bind, ret. rewrite H1, H2.
  destruct startErr as [e|]; [|rewrite H3]; unfold observe_tasks; simpl.
  - split_and!; [done|by destruct ran| |].
    + rewrite map_map. apply Forall2_fmap_r, Forall_Forall2_diag, Forall_forall. intros task _.
      unfold observe_task. simpl. split; [done|by left].
    + rewrite errors_Join_nil_iff, !Forall_cons. simpl. split; [by intros (_ & ? & _)|].
      by intros (_ & ? & _).
  - split_and!; [done|by destruct ran| |].
    + rewrite map_map. apply Forall2_fmap_r, Forall_Forall2_diag, Forall_forall. intros task _.
      pose proof (observe_task_spec None stopErr reports task) as Hspec.
      simpl. destruct (observe_task _ _ _ _) as [task' missing]. simpl in *. tauto.
    + rewrite errors_Join_nil_iff, !Forall_cons, errors_Join_nil_iff, wrap_nil_iff. simpl.
      rewrite Forall_nil. destruct stopErr as [e|]; [naive_solver|].
      enough (Forall (fun e => e = None) (concat (map snd (map (observe_task None None reports)
        (ru_Tasks ran)))) <-> Forall2 (fun task task' => exists report,
          reports !! tr_TaskID task = Some report /\ ob_Status report <> "" /\
          tr_Observer task' = report) (ru_Tasks ran)
          (map fst (map (observe_task None None reports) (ru_Tasks ran)))) as -> by tauto.
      induction (ru_Tasks ran) as [|task tasks IH]; simpl; [by split; constructor|].
      rewrite Forall_app, Forall2_cons, IH.
      pose proof (observe_task_spec None None reports task) as Hspec.
      destruct (observe_task _ _ _ _) as [task' missing]. simpl in *. tauto.
Qed.

(** * A concrete profile *)

Module ProfileDemo.
Definition acquired : observation :=
  {| expired_before := false; selected := SelectCapacity; stopped_after := false |}.
Definition tasks : list string := ["a"; "b"].

Definition admitted_a : profile :=
  default initial_profile
    ((fun out => offered_profile out.1) <$> admit_slot 1 acquired "a" initial_profile).

Lemma admits_a : rtc (profile_step 1 tasks 0 []) initial_profile admitted_a.
Proof.
  eapply rtc_l; [|apply rtc_refl].
  apply (step_admit 1 tasks 0 [] initial_profile acquired "a"); reflexivity.
Qed.

Definition slot : occurrenceSlot :=
  {| os_occurrence := occurrence_at 0 "a";
     os_result := set_ru_Summary (summarize [newTaskResult "a"])
                    (set_ru_Tasks [newTaskResult "a"] no_RunResult);
     os_err := None |}.
End ProfileDemo.

Lemma runProfile_bounded_witness :
  pf_running ProfileDemo.admitted_a = [0%nat] /\
  Z.of_nat (length (pf_running ProfileDemo.admitted_a)) <= 1.
Proof.
  split; [reflexivity|].
  exact (proj1 (runProfile_bounded 1 ProfileDemo.tasks 0 [] ProfileDemo.admitted_a
    ltac:(lia) ProfileDemo.admits_a)).
Defined.

Lemma runProfile_admission_order_witness :
  map (fun slot => executionID (os_occurrence slot)) (pf_slots ProfileDemo.admitted_a) = ["a-001"] /\
  exists admitted overflow, pf_slots ProfileDemo.admitted_a = admitted ++ overflow /\
    NoDup (map (fun slot => executionID (os_occurrence slot)) admitted).
Proof.
  split; [vm_compute; reflexivity|].
  destruct (runProfile_admission_order 1 ProfileDemo.tasks 0 [] ProfileDemo.admitted_a
    ltac:(lia) ProfileDemo.admits_a) as (admitted & overflow & Heq & _ & _ & Hnd).
  exists admitted, overflow. exact (conj Heq Hnd).
Defined.

Lemma profile_result_adds_up_witness :
  ru_Tasks (profile_result "p" "r" [ProfileDemo.slot] None 5).1 = [newTaskResult "a"] /\
  ru_Summary (profile_result "p" "r" [ProfileDemo.slot] None 5).1 = summarize [newTaskResult "a"].
Proof.
  pose proof (profile_result_adds_up "p" "r" [ProfileDemo.slot] None 5) as H.
  specialize (H ltac:(repeat constructor)). simpl in H.
  destruct H as (Ht & Hs & _). split; [exact Ht|]. exact Hs.
Defined.
