(* ===== verification/Infrastructure.v ===== *)
(** The run-owned infrastructure and the run's artifacts ([internal/app]:
    infrastructure.go, artifacts.go and the preparation in run.go).

    [runWithInfrastructure] brings up the environment, the shared bridge and its
    observer, executes, and finalizes everything in a deferred function.  The
    interfaces are records of operations on a world; the deferred function is
    [infra_finish], which every return after [NewInfrastructure] goes through. *)

From S2P Require Import Prelude Trace Core Runner.

(** * The interfaces *)

(** [deployment.RunEnvironment]. *)
Record RunEnvironment (W : Type) := {
  env_Start : Ctx -> M W (RuntimePlacement * error);
  env_Stop : Ctx -> M W error;
  env_NetworkID : M W string;
  env_NetworkName : M W string
}.
Arguments env_Start {W}.
Arguments env_Stop {W}.
Arguments env_NetworkID {W}.
Arguments env_NetworkName {W}.

(** [SharedBridge], less [NewSession]. *)
Record SharedBridge (W : Type) := {
  sh_Start : Ctx -> M W error;
  sh_Stop : Ctx -> M W error;
  sh_RuntimeID : M W string;
  sh_RuntimeName : M W string
}.
Arguments sh_Start {W}.
Arguments sh_Stop {W}.
Arguments sh_RuntimeID {W}.
Arguments sh_RuntimeName {W}.

(** The methods of [monitor.Recorder] used here. *)
Record RunRecorder (W : Type) := {
  rec_Start : Ctx -> M W error;
  rec_Stop : Ctx -> M W (gmap string ObserverResult * error)
}.
Arguments rec_Start {W}.
Arguments rec_Stop {W}.

(** [RunInfrastructure]; an absent field is [None].  [ri_Resources] is the
    [Close] of the resource source.  [ri_NewBridge] gives a service, or an error
    next to the interface value it came with. *)
Record RunInfrastructure (W : Type) := {
  ri_Environment : option (RunEnvironment W);
  ri_NewBridge : option (RuntimePlacement -> M W (SharedBridge W + option (SharedBridge W) * err));
  ri_NewSandbox : bool;
  ri_Resources : option (M W error);
  ri_Close : option (M W error);
  ri_NetworkPolicy : string
}.
Arguments ri_Environment {W}.
Arguments ri_NewBridge {W}.
Arguments ri_NewSandbox {W}.
Arguments ri_Resources {W}.
Arguments ri_Close {W}.
Arguments ri_NetworkPolicy {W}.

(** * runWithInfrastructure *)

(** The captured variables of the deferred function.  [iv_recorder] is set when
    [observerStarted] is. *)
Record infra_vars {W : Type} := {
  iv_service : option (SharedBridge W);
  iv_recorder : option (RunRecorder W);
  iv_recorderOwnsSource : bool;
  iv_executionStarted : bool;
  iv_report : InfrastructureResult;
  iv_result : RunResult;
  iv_returnErr : error
}.
Arguments infra_vars : clear implicits.

Definition iv_fail {W} (e : err) (v : infra_vars W) : infra_vars W :=
  {| iv_service := iv_service v; iv_recorder := iv_recorder v;
     iv_recorderOwnsSource := iv_recorderOwnsSource v;
     iv_executionStarted := iv_executionStarted v;
     iv_report := iv_report v; iv_result := iv_result v; iv_returnErr := Some e |}.
Definition iv_set_service {W} (s : option (SharedBridge W)) (v : infra_vars W) : infra_vars W :=
  {| iv_service := s; iv_recorder := iv_recorder v;
     iv_recorderOwnsSource := iv_recorderOwnsSource v;
     iv_executionStarted := iv_executionStarted v;
     iv_report := iv_report v; iv_result := iv_result v; iv_returnErr := iv_returnErr v |}.
Definition iv_set_recorder {W} (r : option (RunRecorder W)) (owns : bool) (v : infra_vars W) :
    infra_vars W :=
  {| iv_service := iv_service v; iv_recorder := r; iv_recorderOwnsSource := owns;
     iv_executionStarted := iv_executionStarted v;
     iv_report := iv_report v; iv_result := iv_result v; iv_returnErr := iv_returnErr v |}.
Definition iv_set_report {W} (f : InfrastructureResult -> InfrastructureResult) (v : infra_vars W) :
    infra_vars W :=
  {| iv_service := iv_service v; iv_recorder := iv_recorder v;
     iv_recorderOwnsSource := iv_recorderOwnsSource v;
     iv_executionStarted := iv_executionStarted v;
     iv_report := f (iv_report v); iv_result := iv_result v; iv_returnErr := iv_returnErr v |}.
Definition iv_executed {W} (result : RunResult) (e : error) (v : infra_vars W) : infra_vars W :=
  {| iv_service := iv_service v; iv_recorder := iv_recorder v;
     iv_recorderOwnsSource := iv_recorderOwnsSource v; iv_executionStarted := true;
     iv_report := iv_report v; iv_result := result; iv_returnErr := e |}.

(** The report and the result before anything starts. *)
Definition initial_report : InfrastructureResult :=
  {| fr_NetworkID := ""; fr_NetworkName := ""; fr_NetworkPolicy := "";
     fr_BridgeRuntimeID := ""; fr_BridgeRuntimeName := "";
     fr_Observer := set_ob_Status StatusNotStarted no_ObserverResult;
     fr_Cleanup := {| cl_Status := StatusNotStarted; cl_Error := "" |};
     fr_Error := ""; fr_StartupDuration := 0; fr_CleanupDuration := 0 |}.
Definition failed_observer (e : err) : InfrastructureResult -> InfrastructureResult :=
  fun report => set_fr_Observer
    (set_ob_Error (Error e) (set_ob_Status StatusFailed (fr_Observer report))) report.

Section Infrastructure.
Context {W : Type} `{Runtime W}.
Variable monitor_New : M W error * RunRecorder W.
(** The execution, its wiring already pointing at the shared bridge. *)
Variable execute : Ctx -> M W (RunResult * error).

(** [monitor.New] and, when it succeeds, [recorder.Start]. *)
Definition start_observer (ctx : Ctx) (v : infra_vars W) : M W (infra_vars W) :=
  let (new, recorder) := monitor_New in
  let* e := new in
  match e with
  | Some e => ret (iv_set_report (failed_observer e) v)
  | None =>
      let* e := rec_Start recorder ctx in
      match e with
      | Some e => ret (iv_set_report (failed_observer e) (iv_set_recorder None true v))
      | None => ret (iv_set_recorder (Some recorder) true v)
      end
  end.

(** The body, up to its return. *)
Definition infra_body (ctx : Ctx) (infra : RunInfrastructure W) (started : Z)
    (v : infra_vars W) : M W (infra_vars W) :=
  let v := iv_set_report (set_fr_NetworkPolicy (ri_NetworkPolicy infra)) v in
  match ri_Environment infra, ri_NewBridge infra, ri_NewSandbox infra, ri_Resources infra with
  | Some environment, Some NewBridge, true, Some _ =>
      let* (placement, e) := env_Start environment ctx in
      match e with
      | Some e => ret (iv_fail (EWrap "start run environment" e) v)
      | None =>
          let* built := NewBridge placement in
          match built with
          | inr (service, e) =>
              ret (iv_fail (EWrap "construct shared bridge" e) (iv_set_service service v))
          | inl service =>
              let* v := start_observer ctx (iv_set_service (Some service) v) in
              let* e := sh_Start service ctx in
              match e with
              | Some e => ret (iv_fail (EWrap "start shared bridge" e) v)
              | None =>
                  let* now := time_Now in
                  let v := iv_set_report (set_fr_StartupDuration (now - started)) v in
                  let* (result, e) := execute ctx in
                  ret (iv_executed result e v)
              end
          end
      end
  | _, _, _, _ => ret (iv_fail (ENew "run infrastructure is incomplete") v)
  end.

(** [cleanup]: each owner has its own deadline. *)
Definition cleanup_deadline : Ctx := WithTimeout Background (30 * 10 ^ 9).
Definition cleanup_error (name : string) (e : error) : list err :=
  match e with Some e => [EWrap name e] | None => [] end.
Definition plain_error (e : error) : list err :=
  match e with Some e => [e] | None => [] end.

Definition finish_service (v : infra_vars W) : M W (infra_vars W * list err) :=
  match iv_service v with
  | Some service =>
      let* id := sh_RuntimeID service in
      let* name := sh_RuntimeName service in
      let v := iv_set_report (fun r => set_fr_BridgeRuntimeName name
                                         (set_fr_BridgeRuntimeID id r)) v in
      let* e := sh_Stop service cleanup_deadline in
      ret (v, cleanup_error "stop shared bridge" e)
  | None => ret (v, [])
  end.

Definition finish_observer (infra : RunInfrastructure W) (v : infra_vars W) :
    M W (infra_vars W * list err) :=
  match iv_recorder v with
  | Some recorder =>
      let* (reports, e) := rec_Stop recorder cleanup_deadline in
      let v := iv_set_report (fun r => match reports !! "" with
                                       | Some o => set_fr_Observer o r
                                       | None => r
                                       end) v in
      let v := match e with
               | Some e => iv_set_report (fun r =>
                   failed_observer (EJoin [ENew (ob_Error (fr_Observer r)); e]) r) v
               | None => v
               end in
      ret (v, cleanup_error "finalize shared bridge observation" e)
  | None =>
      match ri_Resources infra with
      | Some close =>
          if negb (iv_recorderOwnsSource v) then
            let* e := close in ret (v, plain_error e)
          else ret (v, [])
      | None => ret (v, [])
      end
  end.

Definition finish_environment (infra : RunInfrastructure W) (v : infra_vars W) :
    M W (infra_vars W * list err) :=
  match ri_Environment infra with
  | Some environment =>
      let* id := env_NetworkID environment in
      let* name := env_NetworkName environment in
      let v := iv_set_report (fun r => set_fr_NetworkName name (set_fr_NetworkID id r)) v in
      let* e := env_Stop environment cleanup_deadline in
      ret (v, cleanup_error "remove run environment" e)
  | None => ret (v, [])
  end.

Definition finish_close (infra : RunInfrastructure W) : M W (list err) :=
  match ri_Close infra with
  | Some close => let* e := close in ret (plain_error e)
  | None => ret []
  end.

(** What the deferred function records and returns. *)
Definition infra_outcome (cleanupErrors : list err) (v : infra_vars W) :
    InfrastructureResult * error :=
  let report := iv_report v in
  let infrastructureErr := joined cleanupErrors in
  let report := set_fr_Cleanup
    (match infrastructureErr with
     | Some e => {| cl_Status := StatusFailed; cl_Error := Error e |}
     | None => {| cl_Status := StatusSucceeded; cl_Error := cl_Error (fr_Cleanup report) |}
     end) report in
  let infrastructureErr :=
    if String.eqb (ob_Status (fr_Observer report)) StatusFailed
    then errors_Join [infrastructureErr;
           Some (ENew ("shared bridge observer: " +:+ ob_Error (fr_Observer report)))]
    else infrastructureErr in
  let infrastructureErr :=
    if negb (iv_executionStarted v) then errors_Join [iv_returnErr v; infrastructureErr]
    else infrastructureErr in
  let report := match infrastructureErr with
                | Some e => set_fr_Error (Error e) report
                | None => report
                end in
  (report, errors_Join [iv_returnErr v; infrastructureErr]).

(** The deferred function. *)
Definition infra_finish (started : Z) (infra : RunInfrastructure W) (v : infra_vars W) :
    M W (RunResult * error) :=
  let* v :=
    if fr_StartupDuration (iv_report v) =? 0
    then let* now := time_Now in ret (iv_set_report (set_fr_StartupDuration (now - started)) v)
    else ret v in
  let* cleanupStarted := time_Now in
  let* (v, serviceErrors) := finish_service v in
  let* (v, observerErrors) := finish_observer infra v in
  let* (v, environmentErrors) := finish_environment infra v in
  let* closeErrors := finish_close infra in
  let (report, returnErr) :=
    infra_outcome (serviceErrors ++ observerErrors ++ environmentErrors ++ closeErrors) v in
  let* now := time_Now in
  ret (set_ru_Infrastructure (Some (set_fr_CleanupDuration (now - cleanupStarted) report))
         (iv_result v), returnErr).

(** [runWithInfrastructure]; [NewInfrastructure] may be absent. *)
Definition runWithInfrastructure (ctx : Ctx) (name runID : string)
    (NewInfrastructure : option (M W (RunInfrastructure W + err))) : M W (RunResult * error) :=
  let result := {| ru_Infrastructure := Some initial_report; ru_Name := name; ru_RunID := runID;
                   ru_Tasks := []; ru_Summary := no_RunSummary; ru_Duration := 0 |} in
  let failed e := set_ru_Infrastructure (Some (set_fr_Error (Error e) initial_report)) result in
  let* started := time_Now in
  match NewInfrastructure with
  | None =>
      let e := ENew "run infrastructure wiring is required" in ret (failed e, Some e)
  | Some NewInfrastructure =>
      let* built := NewInfrastructure in
      match built with
      | inr e => ret (failed e, Some e)
      | inl infra =>
          let* v := infra_body ctx infra started
            {| iv_service := None; iv_recorder := None; iv_recorderOwnsSource := false;
               iv_executionStarted := false; iv_report := initial_report; iv_result := result;
               iv_returnErr := None |} in
          infra_finish started infra v
      end
  end.
End Infrastructure.

(** * Traces *)

Inductive infra_event : Type :=
  | EnvUp (c : Ctx) (placement : RuntimePlacement) (e : error)
  | ServiceNew (placement : RuntimePlacement) (built : bool) (e : error)
  | RecorderNew (e : error)
  | RecorderUp (c : Ctx) (e : error)
  | ServiceUp (c : Ctx) (e : error)
  | Executed (c : Ctx) (result : RunResult) (e : error)
  | ServiceDown (c : Ctx) (e : error)
  | RecorderDown (c : Ctx) (e : error)
  | SourceClosed (e : error)
  | EnvDown (c : Ctx) (e : error)
  | InfraClosed (e : error).

Definition event_error (ev : infra_event) : error :=
  match ev with
  | EnvUp _ _ e | ServiceNew _ _ e | RecorderNew e | RecorderUp _ e | ServiceUp _ e | Executed _ _ e
  | ServiceDown _ e | RecorderDown _ e | SourceClosed e | EnvDown _ e | InfraClosed e => e
  end.

(** The event with its outcome forgotten. *)
Definition event_call (ev : infra_event) : infra_event :=
  match ev with
  | EnvUp c placement _ => EnvUp c placement None
  | ServiceNew placement built _ => ServiceNew placement built None
  | RecorderNew _ => RecorderNew None | RecorderUp c _ => RecorderUp c None
  | ServiceUp c _ => ServiceUp c None | Executed c result _ => Executed c result None
  | ServiceDown c _ => ServiceDown c None | RecorderDown c _ => RecorderDown c None
  | SourceClosed _ => SourceClosed None | EnvDown c _ => EnvDown c None
  | InfraClosed _ => InfraClosed None
  end.

Section Traced.
Context {W : Type}.
Abbreviation TW := (W * list infra_event)%type.

Definition traced_service (s : SharedBridge W) : SharedBridge TW := {|
  sh_Start c := logged (ServiceUp c) (sh_Start s c);
  sh_Stop c := logged (ServiceDown c) (sh_Stop s c);
  sh_RuntimeID := silent (sh_RuntimeID s);
  sh_RuntimeName := silent (sh_RuntimeName s)
|}.

Definition traced_built (built : SharedBridge W + option (SharedBridge W) * err) :
    SharedBridge TW + option (SharedBridge TW) * err :=
  match built with
  | inl s => inl (traced_service s)
  | inr (s, e) => inr (traced_service <$> s, e)
  end.

Definition built_event (placement : RuntimePlacement)
    (built : SharedBridge W + option (SharedBridge W) * err) : infra_event :=
  match built with
  | inl s => ServiceNew placement true None
  | inr (Some _, e) => ServiceNew placement true (Some e)
  | inr (None, e) => ServiceNew placement false (Some e)
  end.

Definition traced_infra (infra : RunInfrastructure W) : RunInfrastructure TW := {|
  ri_Environment := (fun environment => {|
    env_Start c := logged (fun r => EnvUp c r.1 r.2) (env_Start environment c);
    env_Stop c := logged (EnvDown c) (env_Stop environment c);
    env_NetworkID := silent (env_NetworkID environment);
    env_NetworkName := silent (env_NetworkName environment)
  |}) <$> ri_Environment infra;
  ri_NewBridge := (fun NewBridge placement =>
    let* built := logged (built_event placement) (NewBridge placement) in
    ret (traced_built built)) <$> ri_NewBridge infra;
  ri_NewSandbox := ri_NewSandbox infra;
  ri_Resources := logged SourceClosed <$> ri_Resources infra;
  ri_Close := logged InfraClosed <$> ri_Close infra;
  ri_NetworkPolicy := ri_NetworkPolicy infra
|}.

Definition traced_monitor (m : M W error * RunRecorder W) : M TW error * RunRecorder TW :=
  (logged RecorderNew m.1,
   {| rec_Start c := logged (RecorderUp c) (rec_Start m.2 c);
      rec_Stop c := logged (fun r => RecorderDown c r.2) (rec_Stop m.2 c) |}).

Definition traced_execute (execute : Ctx -> M W (RunResult * error)) :
    Ctx -> M TW (RunResult * error) :=
  fun c => logged (fun r => Executed c r.1 r.2) (execute c).
End Traced.

(** * What a run guarantees *)

(** Calls that bring the run up. *)
Definition bringup (ev : infra_event) : bool :=
  match ev with
  | EnvUp _ _ _ | ServiceNew _ _ _ | RecorderNew _ | RecorderUp _ _ | ServiceUp _ _ | Executed _ _ _ => true
  | _ => false
  end.
Definition service_built (ups : list infra_event) : bool :=
  existsb (fun ev => match ev with ServiceNew _ true _ => true | _ => false end) ups.
Definition recorder_running (ups : list infra_event) : bool :=
  existsb (fun ev => match ev with RecorderUp _ None => true | _ => false end) ups.
Definition source_owned (ups : list infra_event) : bool :=
  existsb (fun ev => match ev with RecorderNew None => true | _ => false end) ups.
Definition executed (ups : list infra_event) : bool :=
  existsb (fun ev => match ev with Executed _ _ _ => true | _ => false end) ups.

(** Every way a run comes up: nothing, without complete infrastructure; otherwise the
    environment, a bridge for its placement, the observer, whose failure stops nothing,
    and the bridge's start, each only after the one before succeeded, and the execution
    after all of them. *)
Definition complete {W} (infra : RunInfrastructure W) : Prop :=
  ri_Environment infra <> None /\ ri_NewBridge infra <> None /\ ri_NewSandbox infra = true /\
  ri_Resources infra <> None.
Inductive observed (ctx : Ctx) : list infra_event -> Prop :=
  | observed_refused e : observed ctx [RecorderNew (Some e)]
  | observed_started e : observed ctx [RecorderNew None; RecorderUp ctx e].
Inductive comes_up {W} (infra : RunInfrastructure W) (ctx : Ctx) : list infra_event -> Prop :=
  | up_incomplete : ~ complete infra -> comes_up infra ctx []
  | up_environment placement e :
      complete infra -> comes_up infra ctx [EnvUp ctx placement (Some e)]
  | up_bridge placement built e :
      complete infra ->
      comes_up infra ctx [EnvUp ctx placement None; ServiceNew placement built (Some e)]
  | up_service placement observer e :
      complete infra -> observed ctx observer ->
      comes_up infra ctx
        ([EnvUp ctx placement None; ServiceNew placement true None] ++ observer ++ [ServiceUp ctx (Some e)])
  | up_executed placement observer result e :
      complete infra -> observed ctx observer ->
      comes_up infra ctx
        ([EnvUp ctx placement None; ServiceNew placement true None] ++ observer ++
         [ServiceUp ctx None; Executed ctx result e]).

(** The cleanup calls a list of bring-up calls makes due, in order. *)
Definition due {W} (infra : RunInfrastructure W) (ups : list infra_event) : list infra_event :=
  (if service_built ups then [ServiceDown cleanup_deadline None] else []) ++
  (if recorder_running ups then [RecorderDown cleanup_deadline None]
   else if source_owned ups then []
   else if ri_Resources infra then [SourceClosed None] else []) ++
  (if ri_Environment infra then [EnvDown cleanup_deadline None] else []) ++
  (if ri_Close infra then [InfraClosed None] else []).

Section Guarantees.
Context {W : Type} `{Runtime W}.
Variables (m : M W error * RunRecorder W) (execute : Ctx -> M W (RunResult * error)).
Variable infra : RunInfrastructure W.
Implicit Types (v : infra_vars (W * list infra_event)) (evs : list infra_event).

(** What the deferred function finds. *)
Record brought_up ctx v ups : Prop := {
  bu_run : comes_up infra ctx ups;
  bu_result : forall c result e, Executed c result e ∈ ups -> iv_result v = result;
  bu_ups : Forall (fun ev => bringup ev = true) ups;
  bu_service : iv_service v = if service_built ups then iv_service v else None;
  bu_traced : forall s, iv_service v = Some s -> exists s', s = traced_service s';
  bu_built : service_built ups = true -> iv_service v <> None;
  bu_recorder : iv_recorder v =
    if recorder_running ups then Some (traced_monitor m).2 else None;
  bu_owned : iv_recorderOwnsSource v = source_owned ups;
  bu_executed : iv_executionStarted v = executed ups;
  bu_ok : iv_returnErr v = None -> executed ups = true /\
    (Forall (fun ev => event_error ev = None) ups \/
     (ob_Status (fr_Observer (iv_report v)) = StatusFailed /\ iv_recorder v = None));
  bu_error : iv_returnErr v <> None -> ~ Forall (fun ev => event_error ev = None) ups \/
    (executed ups = false)
}.

Ltac came_up Hc :=
  first [by apply up_incomplete | by apply up_environment | by apply up_bridge
        |by apply (up_service infra _ _ [_]); [exact Hc|constructor]
        |by apply (up_service infra _ _ [_; _]); [exact Hc|constructor]
        |by apply (up_executed infra _ _ [_]); [exact Hc|constructor]
        |by apply (up_executed infra _ _ [_; _]); [exact Hc|constructor]].
Ltac bring_up_leaf Hs Hc :=
  apply emits_ret; split;
  [came_up Hc|intros ???; simpl; rewrite ?elem_of_cons, ?elem_of_nil; naive_solver|..];
  simpl; rewrite ?Hs; try done; rewrite ?Forall_cons, ?Forall_nil;
  simpl; try (intros; intuition congruence); try (by intros ? [= <-]; eexists); eauto.

Lemma infra_body_emits ctx started v :
  iv_service v = None -> iv_recorder v = None -> iv_recorderOwnsSource v = false ->
  iv_executionStarted v = false -> iv_returnErr v = None ->
  emits (infra_body (traced_monitor m) (traced_execute execute) ctx (traced_infra infra)
           started v) (brought_up ctx).
Proof.
  intros Hs Hr Ho He Hre. unfold infra_body, start_observer. simpl.
  destruct (ri_Environment infra) as [environment|] eqn:E1, (ri_NewBridge infra) as [NewBridge|] eqn:E2,
    (ri_NewSandbox infra) eqn:E3, (ri_Resources infra) eqn:E4; simpl;
    (assert (complete infra) as Hc by (unfold complete; by rewrite E1, E2, E3, E4)) ||
    (assert (~ complete infra) as Hc by (unfold complete; rewrite E1, E2, E3, E4; naive_solver);
     bring_up_leaf Hs Hc).
  apply emits_call. intros [placement [e|]]; simpl; [bring_up_leaf Hs Hc|].
  apply emits_flatten, emits_call. intros [service|[[service|] e]]; apply emits_bind_ret; simpl;
    [|bring_up_leaf Hs Hc..].
  apply emits_flatten. unfold traced_execute.
  apply emits_call; intros [e|]; [apply emits_bind_ret|apply emits_flatten, emits_call; intros [e|];
    apply emits_bind_ret]; apply emits_call; intros [e'|]; simpl;
    try (apply emits_read; intros now; apply emits_call; intros [result e']; simpl);
    bring_up_leaf Hs Hc.
Qed.

(** One stage of the deferred function: it changes the report only. *)
Record finish_stage v v' (errs : list err) (evs calls : list infra_event) : Prop := {
  fs_calls : map event_call evs = calls;
  fs_errs : errs = [] <-> Forall (fun ev => event_error ev = None) evs;
  fs_returnErr : iv_returnErr v' = iv_returnErr v;
  fs_executed : iv_executionStarted v' = iv_executionStarted v;
  fs_recorder : iv_recorder v' = iv_recorder v;
  fs_owned : iv_recorderOwnsSource v' = iv_recorderOwnsSource v;
  fs_result : iv_result v' = iv_result v
}.

Lemma finish_service_emits ctx v ups :
  brought_up ctx v ups ->
  emits (finish_service v) (fun out evs =>
    finish_stage v out.1 out.2 evs
      (if service_built ups then [ServiceDown cleanup_deadline None] else []) /\
    fr_Observer (iv_report out.1) = fr_Observer (iv_report v)).
Proof.
  intros Hb. unfold finish_service. pose proof (bu_service _ _ _ Hb) as Hs.
  pose proof (bu_built _ _ _ Hb) as Hbuilt. pose proof (bu_traced _ _ _ Hb) as Ht.
  destruct (iv_service v) as [s|], (service_built ups); try done;
    [|by specialize (Hbuilt eq_refl)|by apply emits_ret; split].
  destruct (Ht s eq_refl) as [s' ->]. simpl.
  apply emits_read; intros id. apply emits_read; intros name. apply emits_call; intros e.
  apply emits_ret. simpl. split; [|done]. split; simpl; try done.
  rewrite Forall_singleton. destruct e; simpl; naive_solver.
Qed.

Lemma finish_observer_emits v ups :
  iv_recorder v = (if recorder_running ups then Some (traced_monitor m).2 else None) ->
  iv_recorderOwnsSource v = source_owned ups ->
  emits (finish_observer (traced_infra infra) v) (fun out evs =>
    finish_stage v out.1 out.2 evs
      (if recorder_running ups then [RecorderDown cleanup_deadline None]
       else if source_owned ups then []
       else if ri_Resources infra then [SourceClosed None] else []) /\
    (iv_recorder v = None -> fr_Observer (iv_report out.1) = fr_Observer (iv_report v))).
Proof.
  intros Hr Ho. unfold finish_observer. rewrite Hr. destruct (recorder_running ups); simpl.
  - apply emits_call; intros [reports e]. apply emits_ret. simpl. split; [|done].
    destruct e as [e|]; split; simpl; rewrite ?Forall_singleton; try done.
  - rewrite Ho. destruct (ri_Resources infra) as [close|]; simpl.
    + destruct (source_owned ups); simpl; [by apply emits_ret; split|].
      apply emits_call; intros e. apply emits_ret. simpl. split; [|done].
      split; simpl; rewrite ?Forall_singleton; try done. destruct e; simpl; naive_solver.
    + apply emits_ret. split; [|done]. by destruct (source_owned ups); split.
Qed.

Lemma finish_environment_emits v :
  emits (finish_environment (traced_infra infra) v) (fun out evs =>
    finish_stage v out.1 out.2 evs
      (if ri_Environment infra then [EnvDown cleanup_deadline None] else []) /\
    fr_Observer (iv_report out.1) = fr_Observer (iv_report v)).
Proof.
  unfold finish_environment. simpl. destruct (ri_Environment infra) as [environment|]; simpl;
    [|by apply emits_ret; split].
  apply emits_read; intros id. apply emits_read; intros name. apply emits_call; intros e.
  apply emits_ret. simpl. split; [|done]. split; simpl; rewrite ?Forall_singleton; try done.
  destruct e; simpl; naive_solver.
Qed.

Lemma finish_close_emits :
  emits (finish_close (traced_infra infra)) (fun errs evs =>
    map event_call evs = (if ri_Close infra then [InfraClosed None] else []) /\
    (errs = [] <-> Forall (fun ev => event_error ev = None) evs)).
Proof.
  unfold finish_close. simpl. destruct (ri_Close infra); simpl; [|by apply emits_ret].
  apply emits_call; intros e. apply emits_ret. simpl. split; [done|].
  rewrite Forall_singleton. destruct e; simpl; naive_solver.
Qed.

Lemma infra_outcome_spec v errs :
  let '(report, e) := infra_outcome errs v in
  cl_Status (fr_Cleanup report) = (if errs then StatusSucceeded else StatusFailed) /\
  (e = None <-> iv_returnErr v = None /\ errs = [] /\
                ob_Status (fr_Observer (iv_report v)) <> StatusFailed).
Proof.
  unfold infra_outcome. simpl.
  destruct (String.eqb_spec (ob_Status (fr_Observer (iv_report v))) StatusFailed) as [Ho|Ho];
    destruct (iv_executionStarted v), errs, (iv_returnErr v) as [r|]; simpl; naive_solver.
Qed.

#[local] Opaque infra_outcome.

Lemma infra_finish_emits ctx started v ups :
  brought_up ctx v ups ->
  emits (infra_finish started (traced_infra infra) v) (fun out downs =>
    map event_call downs = due infra ups /\
    (exists report, ru_Infrastructure out.1 = Some report /\
       (cl_Status (fr_Cleanup report) = StatusSucceeded <->
          Forall (fun ev => event_error ev = None) downs)) /\
    (forall c result e, Executed c result e ∈ ups ->
       out.1 = set_ru_Infrastructure (ru_Infrastructure out.1) result) /\
    (out.2 = None -> executed ups = true /\
       Forall (fun ev => event_error ev = None) (ups ++ downs))).
Proof.
  intros Hb. unfold infra_finish.
  eapply (emits_bind _ _ (fun v0 evs => evs = [] /\ brought_up ctx v0 ups)).
  { destruct (_ =? 0).
    - apply emits_read; intros now. apply emits_ret. split; [done|]. destruct Hb. by split.
    - by apply emits_ret. }
  clear v Hb. intros v ? [-> Hb]. apply emits_read; intros cleanupStarted.
  eapply emits_bind; [by eapply finish_service_emits|]. intros [v1 e1] evs1 [S1 O1]. simpl in *.
  eapply emits_bind; [apply (finish_observer_emits _ ups)|].
  { rewrite (fs_recorder _ _ _ _ _ S1). by apply (bu_recorder ctx). }
  { rewrite (fs_owned _ _ _ _ _ S1). by apply (bu_owned ctx). }
  intros [v2 e2] evs2 [S2 O2]. simpl in *.
  eapply emits_bind; [apply finish_environment_emits|]. intros [v3 e3] evs3 [S3 O3]. simpl in *.
  eapply emits_bind; [apply finish_close_emits|]. intros e4 evs4 [C4 E4]. simpl in *.
  pose proof (infra_outcome_spec v3 (e1 ++ e2 ++ e3 ++ e4)) as Hout.
  destruct (infra_outcome _ v3) as [report e]. destruct Hout as [Hst He].
  apply emits_read; intros now. apply emits_ret. simpl. rewrite app_nil_r.
  destruct S1 as [C1 E1 R1 X1 K1 W1 T1], S2 as [C2 E2 R2 X2 K2 W2 T2], S3 as [C3 E3 R3 X3 K3 W3 T3].
  assert (e1 ++ e2 ++ e3 ++ e4 = [] <->
    Forall (fun ev => event_error ev = None) (evs1 ++ evs2 ++ evs3 ++ evs4)) as Hnil.
  { rewrite !app_nil, !Forall_app. tauto. }
  split_and!.
  - rewrite !map_app, C1, C2, C3, C4. done.
  - eexists. split; [reflexivity|]. simpl. rewrite Hst, <- Hnil.
    by destruct (e1 ++ e2 ++ e3 ++ e4).
  - intros c result e' Hin. rewrite T3, T2, T1. by rewrite (bu_result _ _ _ Hb _ _ _ Hin).
  - intros (Hr & Hn & Ho)%He. rewrite R3, R2, R1 in Hr.
    destruct (bu_ok _ _ _ Hb Hr) as [Hx [Hok|[Hf Hrec]]].
    + split; [done|]. rewrite Forall_app. by rewrite <- Hnil.
    + exfalso. apply Ho. rewrite O3, O2 by congruence. by rewrite O1.
Qed.

(** A run, from what happened and what it returns. *)
Definition run_finalized (ctx : Ctx) (out : RunResult * error) evs : Prop :=
  exists ups downs, evs = ups ++ downs /\ comes_up infra ctx ups /\
    map event_call downs = due infra ups /\
    (exists report, ru_Infrastructure out.1 = Some report /\
       (cl_Status (fr_Cleanup report) = StatusSucceeded <->
          Forall (fun ev => event_error ev = None) downs)) /\
    (forall c result e, Executed c result e ∈ ups ->
       out.1 = set_ru_Infrastructure (ru_Infrastructure out.1) result) /\
    (out.2 = None -> executed ups = true /\ Forall (fun ev => event_error ev = None) evs).

(** C40. Whatever fails while the infrastructure comes up or the run executes, the run
    comes up in one order, executing only after the environment, the bridge built for
    its placement and the bridge's start succeeded; finalization then makes exactly the
    calls that are due, in order, for what came up; the result is the execution's,
    cleanup is reported as succeeded exactly if every finalization call did, and no
    error is returned only if nothing failed. *)
Theorem runWithInfrastructure_finalizes ctx name runID :
  emits (runWithInfrastructure (traced_monitor m) (traced_execute execute) ctx name runID
    (Some (ret (inl (traced_infra infra))))) (run_finalized ctx).
Proof.
  unfold runWithInfrastructure. apply emits_read; intros started. apply emits_bind_ret.
  eapply emits_bind; [by apply infra_body_emits|]. intros v ups Hb.
  eapply emits_mono; [by eapply infra_finish_emits|]. intros out downs (Hd & Hrep & Hres & Hok).
  exists ups, downs. split_and!; try done; apply Hb.
Qed.
End Guarantees.
