(* ===== verification/Preparation.v ===== *)
(** Preparation of a run and its artifacts ([internal/app]: [uniqueStrings],
    [ensurePrepared], [buildTaskExperiment] and [closeOccurrenceClients] of
    run.go, and [executeAndRecord] and [persistRunResult] of artifacts.go).
    Component constructors and the file system are operations on a world. *)

From S2P Require Import Prelude Trace Core Runner.

(** * uniqueStrings *)

(** The loop, with the set of strings seen. *)
Fixpoint unique_from (seen : gset string) (values : list string) : list string :=
  match values with
  | [] => []
  | value :: values =>
      if decide (value ∈ seen) then unique_from seen values
      else value :: unique_from ({[value]} ∪ seen) values
  end.
Definition uniqueStrings (values : list string) : list string := unique_from ∅ values.

(** * ensurePrepared *)

(** The functions of [Wiring] it needs; an absent one is [None]. *)
Record PreparationWiring (W B : Type) := {
  PrepareBridge : option (Ctx -> M W error);
  SetupBenchmark : option (Ctx -> M W error);
  LoadBenchmark : option (Ctx -> list string -> M W (list Task * B * error));
  PullImages : option (Ctx -> list string -> M W error);
  BuildHarnessImage : option (Ctx -> M W error)
}.
Arguments PrepareBridge {W B}.
Arguments SetupBenchmark {W B}.
Arguments LoadBenchmark {W B}.
Arguments PullImages {W B}.
Arguments BuildHarnessImage {W B}.

(** [PreparedBenchmark]: the tasks, and [B] for [NewOccurrence]. *)
Definition ensurePrepared {W B : Type} (ctx : Ctx) (benchmarkTasks : list string)
    (harnessImage : string + err) (wiring : PreparationWiring W B) :
    M W (option (list Task * B) * error) :=
  let fail e := ret (None, Some e) in
  match SetupBenchmark wiring, LoadBenchmark wiring, PullImages wiring,
        BuildHarnessImage wiring with
  | Some setup, Some load, Some pull, Some build =>
      let* e := match PrepareBridge wiring with
                | Some prepare => prepare ctx
                | None => ret None
                end in
      match e with Some e => fail e | None =>
      let* e := setup ctx in
      match e with Some e => fail e | None =>
      let* (tasks, newOccurrence, e) := load ctx (uniqueStrings benchmarkTasks) in
      match e with Some e => fail e | None =>
      match harnessImage with inr e => fail e | inl harnessImage =>
      let images := harnessImage :: map (fun task => en_Image (tk_Environment task)) tasks in
      let* e := pull ctx (uniqueStrings images) in
      match e with Some e => fail e | None =>
      let* e := build ctx in
      match e with Some e => fail e | None => ret (Some (tasks, newOccurrence), None)
      end end end end end end
  | _, _, _, _ => fail (ENew "preparation wiring is incomplete")
  end.

(** * buildTaskExperiment *)

(** [closeOccurrenceClients]: the sandbox client first, both whatever happens. *)
Definition closeOccurrenceClients {W} (sandboxClose harnessClose : option (M W error)) :
    M W error :=
  let* sandboxErr := match sandboxClose with Some close => close | None => ret None end in
  let* harnessErr := match harnessClose with Some close => close | None => ret None end in
  ret (errors_Join [sandboxErr; harnessErr]).

(** The constructed components: [H], [S] and [R] are the harness, the sandbox and
    the recorder. *)
Record HarnessInstance (W H : Type) := { hi_Harness : H; hi_Close : option (M W error) }.
Arguments hi_Harness {W H}.
Arguments hi_Close {W H}.
Record SandboxInstance (W S : Type) := {
  si_Sandbox : S;
  si_Resources_Close : M W error;
  si_Close : option (M W error)
}.
Arguments si_Sandbox {W S}.
Arguments si_Resources_Close {W S}.
Arguments si_Close {W S}.

(** The constructors, in the order they are called. *)
Record ExperimentWiring (W N H S B R U : Type) := {
  NewOccurrence : option (M W (N + err));
  NewHarness : option (M W (HarnessInstance W H + err));
  NewSandbox : option (M W (SandboxInstance W S + err));
  NewBridge : option (M W (B + err));
  runner_New : N -> H -> S -> B -> U + err;
  monitor_New : R + err
}.
Arguments NewOccurrence {W N H S B R U}.
Arguments NewHarness {W N H S B R U}.
Arguments NewSandbox {W N H S B R U}.
Arguments NewBridge {W N H S B R U}.
Arguments runner_New {W N H S B R U}.
Arguments monitor_New {W N H S B R U}.

(** [buildTaskExperiment]: an experiment is the runner, the recorder and [close].
    What was constructed before a failure is closed. *)
Definition buildTaskExperiment {W N H S B R U : Type} (wiring : ExperimentWiring W N H S B R U) :
    M W ((U * R * M W error) + err) :=
  match NewOccurrence wiring, NewHarness wiring, NewSandbox wiring, NewBridge wiring with
  | Some newOccurrence, Some newHarness, Some newSandbox, Some newBridge =>
      let* benchmark := newOccurrence in
      match benchmark with inr e => ret (inr e) | inl benchmark =>
      let* harness := newHarness in
      match harness with inr e => ret (inr e) | inl harness =>
      let* sandbox := newSandbox in
      match sandbox with
      | inr e =>
          let* closeErr := closeOccurrenceClients None (hi_Close harness) in
          ret (inr (EJoin (omap id [Some e; closeErr])))
      | inl sandbox =>
          let abandon e :=
            let* resourcesErr := si_Resources_Close sandbox in
            let* closeErr := closeOccurrenceClients (si_Close sandbox) (hi_Close harness) in
            ret (inr (EJoin (omap id [Some e; resourcesErr; closeErr]))) in
          let* bridge := newBridge in
          match bridge with inr e => abandon e | inl bridge =>
          match runner_New wiring benchmark (hi_Harness harness) (si_Sandbox sandbox) bridge with
          | inr e => abandon (EWrap "construct runner" e)
          | inl benchmarkRunner =>
              match monitor_New wiring with
              | inr e => abandon (EWrap "construct monitor" e)
              | inl recorder =>
                  ret (inl (benchmarkRunner, recorder,
                            closeOccurrenceClients (si_Close sandbox) (hi_Close harness)))
              end
          end
          end
      end end end
  | _, _, _, _ => ret (inr (ENew "component wiring is incomplete"))
  end.

(** * The run result *)

Definition runResultName : string := "run-result.json".

(** The part of [os.FileInfo] that is examined. *)
Record FileInfo := { fi_IsDir : bool; fi_Symlink : bool; fi_Perm : Z }.

(** File system calls; a temporary file is known by its name. *)
Record ResultFS (W : Type) := {
  os_Lstat : string -> M W (FileInfo + err);
  os_CreateTemp : string -> M W (string + err);
  file_Write : string -> bytes -> M W error;
  file_Sync : string -> M W error;
  file_Close : string -> M W error;
  os_Link : string -> string -> M W error;
  os_Remove : string -> M W error;
  os_OpenDir : string -> M W error;
  dir_Sync : string -> M W error;
  dir_Close : string -> M W error
}.
Arguments os_Lstat {W}.
Arguments os_CreateTemp {W}.
Arguments file_Write {W}.
Arguments file_Sync {W}.
Arguments file_Close {W}.
Arguments os_Link {W}.
Arguments os_Remove {W}.
Arguments os_OpenDir {W}.
Arguments dir_Sync {W}.
Arguments dir_Close {W}.

(** [%04o] of a permission. *)
Definition octal_digit (z : Z) : ascii := ascii_of_N (Z.to_N (48 + z mod 8)).
Definition octal4 (z : Z) : string :=
  of_bytes [octal_digit (z / 512); octal_digit (z / 64); octal_digit (z / 8); octal_digit z].

Section Persist.
Context {W : Type}.
Variable fs : ResultFS W.

(** The deferred removal of the temporary file. *)
Definition remove_temporary (temporaryPath : string) (e : error) : M W error :=
  let* _ := os_Remove fs temporaryPath in ret e.

(** [persistRunResult]; [directory] is [filepath.Dir(path)]. *)
Definition persistRunResult (directory path : string) (content : bytes) : M W error :=
  let* info := os_Lstat fs directory in
  match info with inr e => ret (Some e) | inl info =>
  if negb (fi_IsDir info) || fi_Symlink info
  then ret (Some (ENew "run output root is not a directory"))
  else if negb (fi_Perm info =? 448)
  then ret (Some (ENew ("run output root permissions are " +:+ octal4 (fi_Perm info)
                        +:+ "; want 0700")))
  else
  let* temporary := os_CreateTemp fs directory in
  match temporary with inr e => ret (Some e) | inl temporaryPath =>
  let* e := file_Write fs temporaryPath content in
  match e with
  | Some _ => let* _ := file_Close fs temporaryPath in remove_temporary temporaryPath e
  | None =>
  let* e := file_Sync fs temporaryPath in
  match e with
  | Some _ => let* _ := file_Close fs temporaryPath in remove_temporary temporaryPath e
  | None =>
  let* e := file_Close fs temporaryPath in
  match e with Some _ => remove_temporary temporaryPath e | None =>
  let* e := os_Link fs temporaryPath path in
  match e with Some _ => remove_temporary temporaryPath e | None =>
  let* e := os_Remove fs temporaryPath in
  match e with Some _ => remove_temporary temporaryPath e | None =>
  let* e := os_OpenDir fs directory in
  match e with Some _ => ret e | None =>
  let* e := dir_Sync fs directory in
  let* _ := dir_Close fs directory in
  ret e
  end end end end end end end end.

(** [executeAndRecord]; [MarshalIndent] is the JSON encoder and [copy] writes to
    standard output. *)
Definition executeAndRecord (execute : M W (RunResult * error))
    (MarshalIndent : RunResult -> bytes + err) (copy : bytes -> M W error)
    (outputRoot path : string) : M W error :=
  let* (result, runErr) := execute in
  match MarshalIndent result with
  | inr e => ret (errors_Join [runErr; Some (EWrap "encode run result" e)])
  | inl content =>
      let content := content ++ [NL] in
      let* persistErr := persistRunResult outputRoot path content in
      let* stdoutErr := copy content in
      ret (errors_Join [runErr; wrap "persist run result" persistErr;
                        wrap "write run result to stdout" stdoutErr])
  end.
End Persist.

(** * uniqueStrings: a duplicate-free selection in the original order *)

Lemma unique_from_spec (seen : gset string) (values : list string) :
  NoDup (unique_from seen values) /\ unique_from seen values `sublist_of` values /\
  (forall x, x ∈ unique_from seen values <-> x ∈ values /\ x ∉ seen).
Proof.
  revert seen. induction values as [|value values IH]; intros seen; simpl.
  - split_and!; [constructor|constructor|]. intros x. rewrite elem_of_nil. tauto.
  - destruct (decide (value ∈ seen)) as [Hin|Hin].
    + destruct (IH seen) as (Hn & Hs & He). split_and!; [done|by constructor|].
      intros x. rewrite He, elem_of_cons. naive_solver.
    + destruct (IH ({[value]} ∪ seen)) as (Hn & Hs & He).
      split_and!; [|by constructor|].
      * constructor; [|done]. rewrite He, elem_of_union, elem_of_singleton. tauto.
      * intros x. rewrite !elem_of_cons, He, not_elem_of_union, elem_of_singleton.
        destruct (decide (x = value)) as [->|]; tauto.
Qed.

Lemma unique_from_NoDup (seen : gset string) (values : list string) :
  NoDup values -> (forall x, x ∈ values -> x ∉ seen) -> unique_from seen values = values.
Proof.
  intros Hn. revert seen. induction Hn as [|value values Hv _ IH]; intros seen Hs; simpl; [done|].
  rewrite decide_False by (apply Hs; left). f_equal. apply IH. intros x Hx.
  rewrite not_elem_of_union, elem_of_singleton. split; [by intros ->|]. apply Hs. by right.
Qed.

(** The values to prepare are those given, each once and in the order of its first
    occurrence. *)
Theorem uniqueStrings_spec (values : list string) :
  NoDup (uniqueStrings values) /\
  uniqueStrings values `sublist_of` values /\
  (forall x, x ∈ uniqueStrings values <-> x ∈ values) /\
  uniqueStrings (uniqueStrings values) = uniqueStrings values.
Proof.
  destruct (unique_from_spec ∅ values) as (Hn & Hs & He).
  assert (forall x : string, x ∉ (∅ : gset string)) as Hempty by apply not_elem_of_empty.
  split_and!; [done|done| |by apply unique_from_NoDup]. intros x. unfold uniqueStrings.
  rewrite He. naive_solver.
Qed.

(** * persistRunResult: what reaches the result's path *)

Inductive fs_event : Type :=
  | Lstatted (e : error)
  | TempCreated (temporary : string + err)
  | Written (temporary : string) (content : bytes) (e : error)
  | Synced (temporary : string) (e : error)
  | Closed (temporary : string) (e : error)
  | Linked (temporary path : string) (e : error)
  | Removed (temporary : string) (e : error)
  | DirOpened (e : error)
  | DirSynced (e : error)
  | DirClosed (e : error).

Definition sum_error {A} (r : A + err) : error :=
  match r with inl _ => None | inr e => Some e end.

Definition traced_fs {W} (fs : ResultFS W) : ResultFS (W * list fs_event) := {|
  os_Lstat p := logged (fun r => Lstatted (sum_error r)) (os_Lstat fs p);
  os_CreateTemp p := logged TempCreated (os_CreateTemp fs p);
  file_Write f content := logged (Written f content) (file_Write fs f content);
  file_Sync f := logged (Synced f) (file_Sync fs f);
  file_Close f := logged (Closed f) (file_Close fs f);
  os_Link f p := logged (Linked f p) (os_Link fs f p);
  os_Remove f := logged (Removed f) (os_Remove fs f);
  os_OpenDir p := logged DirOpened (os_OpenDir fs p);
  dir_Sync p := logged DirSynced (dir_Sync fs p);
  dir_Close p := logged DirClosed (dir_Close fs p)
|}.

(** The calls that put complete, durable content in the temporary file. *)
Definition staged (temporary : string) (content : bytes) : list fs_event :=
  [Lstatted None; TempCreated (inl temporary); Written temporary content None;
   Synced temporary None; Closed temporary None].

Definition persisted (path : string) (content : bytes) (e : error) (evs : list fs_event) : Prop :=
  (e = None -> exists t d, evs = staged t content ++
     [Linked t path None; Removed t None; DirOpened None; DirSynced None; DirClosed d]) /\
  (forall t p le, Linked t p le ∈ evs ->
     p = path /\ exists post, evs = staged t content ++ Linked t p le :: post) /\
  (forall t, TempCreated (inl t) ∈ evs -> exists re, Removed t re ∈ evs).

(** Case analysis on membership in a list of calls. *)
Ltac in_calls H :=
  repeat (apply elem_of_cons in H as [H|H]; [try discriminate H|]); try by apply elem_of_nil in H.
Ltac persisted_leaf :=
  apply emits_ret; unfold persisted; split_and!;
  [ try done; try (by intros _; do 2 eexists; reflexivity)
  | intros ? ? ? Hin; in_calls Hin; injection Hin as -> -> ->; (split; [done|]; eexists; reflexivity)
  | intros ? Hin; in_calls Hin; injection Hin as ->; eexists;
    repeat (apply elem_of_cons; (by left) || right) ].

Lemma persistRunResult_emits {W} (fs : ResultFS W) directory path content :
  emits (persistRunResult (traced_fs fs) directory path content) (persisted path content).
Proof.
  unfold persistRunResult, remove_temporary. simpl.
  apply emits_call. intros [info|e]; simpl; [|persisted_leaf].
  destruct (negb _ || _); [persisted_leaf|]. destruct (negb _); [persisted_leaf|].
  apply emits_call. intros [t|e]; simpl; [|persisted_leaf].
  apply emits_call. intros [e|].
  { apply emits_call; intros ?. apply emits_call; intros ?. persisted_leaf. }
  apply emits_call. intros [e|].
  { apply emits_call; intros ?. apply emits_call; intros ?. persisted_leaf. }
  apply emits_call. intros [e|]; [apply emits_call; intros ?; persisted_leaf|].
  apply emits_call. intros [e|]; [apply emits_call; intros ?; persisted_leaf|].
  apply emits_call. intros [e|]; [apply emits_call; intros ?; persisted_leaf|].
  apply emits_call. intros [e|]; [persisted_leaf|].
  apply emits_call. intros e. apply emits_call. intros d. persisted_leaf.
  intros ->. eexists _, _. reflexivity.
Qed.

(** A run's result is published atomically: the file gets its name by a link, only
    after the whole content was written, synced and closed under a temporary name; the
    temporary file is always removed; and success means that the directory was synced
    too. *)
Theorem persistRunResult_atomic {W} (fs : ResultFS W) directory path content w :
  let '(e, (_, evs)) := persistRunResult (traced_fs fs) directory path content (w, []) in
  (e = None -> exists t d, evs = staged t content ++
     [Linked t path None; Removed t None; DirOpened None; DirSynced None; DirClosed d]) /\
  (forall t p le, Linked t p le ∈ evs ->
     p = path /\ exists post, evs = staged t content ++ Linked t p le :: post) /\
  (forall t, TempCreated (inl t) ∈ evs -> exists re, Removed t re ∈ evs).
Proof.
  pose proof (emits_run _ _ w (persistRunResult_emits fs directory path content)) as Hp.
  by destruct (persistRunResult _ _ _ _ _) as [e [w' evs]].
Qed.

(** * buildTaskExperiment: nothing constructed is left open *)

Inductive build_event : Type :=
  | HarnessBuilt (closable : bool)
  | SandboxBuilt (closable : bool)
  | ResourcesClosed (e : error)
  | SandboxClosed (e : error)
  | HarnessClosed (e : error).

Section Build.
Context {W N H S B R U : Type}.
Abbreviation TW := (W * list (option build_event))%type.

Definition traced_harness (h : HarnessInstance W H) : HarnessInstance TW H :=
  {| hi_Harness := hi_Harness h;
     hi_Close := logged (fun e => Some (HarnessClosed e)) <$> hi_Close h |}.
Definition traced_sandbox (s : SandboxInstance W S) : SandboxInstance TW S :=
  {| si_Sandbox := si_Sandbox s;
     si_Resources_Close := logged (fun e => Some (ResourcesClosed e)) (si_Resources_Close s);
     si_Close := logged (fun e => Some (SandboxClosed e)) <$> si_Close s |}.

Definition closable {A} (close : option A) : bool := if close then true else false.
Definition map_inl {A A' E} (f : A -> A') (r : A + E) : A' + E :=
  match r with inl a => inl (f a) | inr e => inr e end.

(** The constructors, with a constructed client logged; other calls log [None]. *)
Definition traced_wiring (w : ExperimentWiring W N H S B R U) : ExperimentWiring TW N H S B R U := {|
  NewOccurrence := logged (fun _ => None) <$> NewOccurrence w;
  NewHarness := (fun new =>
    let* r := logged (fun r => match r with inl h => Some (HarnessBuilt (closable (hi_Close h)))
                                      | inr _ => None end) new in
    ret (map_inl traced_harness r)) <$> NewHarness w;
  NewSandbox := (fun new =>
    let* r := logged (fun r => match r with inl s => Some (SandboxBuilt (closable (si_Close s)))
                                      | inr _ => None end) new in
    ret (map_inl traced_sandbox r)) <$> NewSandbox w;
  NewBridge := logged (fun _ => None) <$> NewBridge w;
  runner_New := runner_New w;
  monitor_New := monitor_New w
|}.

(** The close calls a list of constructed clients makes due. *)
Definition due_closes (built : list build_event) : list build_event :=
  match built with
  | [HarnessBuilt hc] => if hc then [HarnessClosed None] else []
  | [HarnessBuilt hc; SandboxBuilt sc] =>
      [ResourcesClosed None] ++ (if sc then [SandboxClosed None] else []) ++
      (if hc then [HarnessClosed None] else [])
  | _ => []
  end.
Definition close_call (ev : build_event) : build_event :=
  match ev with
  | ResourcesClosed _ => ResourcesClosed None | SandboxClosed _ => SandboxClosed None
  | HarnessClosed _ => HarnessClosed None | ev => ev
  end.
Definition construction (ev : build_event) : Prop :=
  match ev with HarnessBuilt _ | SandboxBuilt _ => True | _ => False end.

Ltac build_leaf built :=
  try apply emits_ret; simpl; exists built; eexists; split; [reflexivity|];
  (split; [by repeat constructor|reflexivity]).

(** When building a task's experiment fails at any step, exactly the clients opened
    so far are closed, newest first; when it succeeds none is. *)
Theorem buildTaskExperiment_closes (wiring : ExperimentWiring W N H S B R U) w :
  let '(r, (_, evs)) := buildTaskExperiment (traced_wiring wiring) (w, []) in
  exists built closes, omap id evs = built ++ closes /\ Forall construction built /\
    map close_call closes = match r with inl _ => [] | inr _ => due_closes built end.
Proof.
  assert (emits (buildTaskExperiment (traced_wiring wiring)) (fun r evs =>
    exists built closes, omap id evs = built ++ closes /\ Forall construction built /\
      map close_call closes = match r with inl _ => [] | inr _ => due_closes built end)) as Hb.
  { unfold buildTaskExperiment, closeOccurrenceClients. simpl.
    destruct (NewOccurrence wiring), (NewHarness wiring), (NewSandbox wiring),
      (NewBridge wiring); simpl; try build_leaf (@nil build_event).
    apply emits_call. intros [benchmark|e]; [|build_leaf (@nil build_event)].
    apply emits_flatten, emits_call. intros [harness|e]; apply emits_bind_ret; simpl;
      [|build_leaf (@nil build_event)].
    apply emits_flatten, emits_call. intros [sandbox|e]; apply emits_bind_ret; simpl.
    2: { destruct (hi_Close harness); simpl; emits_steps;
         [build_leaf [HarnessBuilt true]|build_leaf [HarnessBuilt false]]. }
    apply emits_call. intros [bridge|e]; [destruct (runner_New _ _ _ _ _);
      [destruct (monitor_New wiring)|]|].
    1: by build_leaf
         [HarnessBuilt (closable (hi_Close harness)); SandboxBuilt (closable (si_Close sandbox))].
    all: destruct (hi_Close harness), (si_Close sandbox); simpl; emits_steps.
    all: match goal with
         | |- exists _ _, HarnessBuilt ?hc :: SandboxBuilt ?sc :: _ = _ /\ _ =>
             by build_leaf [HarnessBuilt hc; SandboxBuilt sc]
         end. }
  apply (emits_run _ _ w) in Hb.
  by destruct (buildTaskExperiment (traced_wiring wiring) (w, [])) as [r [w' evs]].
Qed.
End Build.
