(* ===== verification/Control.v ===== *)
(** The bridge control server ([pkg/bridge/control]): one entry per sandbox
    identity, registered once and released once, by asynchronous operations of
    the native sandbox.

    Every critical section of server.go is a function on the server's state; the
    step relation [control_step] interleaves the calls of any number of clients
    with the completions of the goroutines the entries started.  [en_flight]
    lists the goroutines of an entry, so that "at most one operation at a time"
    is a theorem about the code's [busy] flag and not built into the model. *)

From S2P Require Import Prelude Core.

(** * Messages *)

Inductive State := REGISTERING | READY | RELEASING | RELEASED.
#[export] Instance State_eq_dec : EqDecision State.
Proof. solve_decision. Defined.

Record Endpoint := { ep_Port : N; ep_User : string; ep_Transport : string }.
Record Artifact := { af_Name : string; af_Status : string; af_Size : Z; af_Sha256 : string }.

(** [RegisterSandboxRequest] with its [Target] and [Metadata] flattened. *)
Record RegisterSandboxRequest := {
  rq_SandboxId : string;
  rq_RuntimeId : string;
  rq_Workdir : string;
  rq_ExecUser : string;
  rq_TaskId : string
}.
#[export] Instance request_eq_dec : EqDecision RegisterSandboxRequest.
Proof. solve_decision. Defined.

Record SandboxAccess := {
  ac_SandboxId : string;
  ac_State : State;
  ac_Endpoint : option Endpoint;
  ac_Error : string;
  ac_CleanupError : string;
  ac_Artifacts : list Artifact
}.

Inductive Code := InvalidArgument | NotFound | AlreadyExists | FailedPrecondition.
#[export] Instance Code_eq_dec : EqDecision Code.
Proof. solve_decision. Defined.

(** client.go: [Registration] and [TargetFromRegistration]. *)
Definition Registration (d : BridgeTarget) : RegisterSandboxRequest :=
  {| rq_SandboxId := bt_SandboxID d; rq_RuntimeId := bt_RuntimeID d; rq_Workdir := bt_Workdir d;
     rq_ExecUser := bt_ExecUser d; rq_TaskId := bt_TaskID d |}.
Definition TargetFromRegistration (r : RegisterSandboxRequest) (runID backend : string) :
    BridgeTarget :=
  {| bt_SandboxID := rq_SandboxId r; bt_RunID := runID; bt_TaskID := rq_TaskId r;
     bt_Backend := backend; bt_RuntimeID := rq_RuntimeId r; bt_Workdir := rq_Workdir r;
     bt_ExecUser := rq_ExecUser r |}.

(** * Entries *)

Inductive operation := OpRegister | OpRelease.
#[export] Instance operation_eq_dec : EqDecision operation.
Proof. solve_decision. Defined.

(** [entry].  [en_native] says whether [native] is set, [en_cancelled] whether
    [cancel] was called; [en_flight] are the goroutines running for it. *)
Record entry := {
  en_request : option RegisterSandboxRequest;
  en_access : SandboxAccess;
  en_native : bool;
  en_busy : bool;
  en_cancelled : bool;
  en_flight : list operation
}.

Record Server := { sv_entries : gmap string entry; sv_closing : bool }.

Definition NewServer : Server := {| sv_entries := ∅; sv_closing := false |}.

(** [identifier]: [^[a-zA-Z0-9][a-zA-Z0-9_.-]{0,255}$]. *)
Definition identifier_byte (c : ascii) : bool :=
  is_alnum c || Ascii.eqb c "_"%char || Ascii.eqb c "."%char || Ascii.eqb c "-"%char.
Definition identifier (s : string) : bool :=
  match to_bytes s with
  | [] => false
  | c :: rest => is_alnum c && forallb identifier_byte rest && (Z.of_nat (length rest) <=? 255)
  end.

Definition set_access (f : SandboxAccess -> SandboxAccess) (e : entry) : entry :=
  {| en_request := en_request e; en_access := f (en_access e); en_native := en_native e;
     en_busy := en_busy e; en_cancelled := en_cancelled e; en_flight := en_flight e |}.

Definition new_access (id : string) (state : State) : SandboxAccess :=
  {| ac_SandboxId := id; ac_State := state; ac_Endpoint := None; ac_Error := "";
     ac_CleanupError := ""; ac_Artifacts := [] |}.

(** The guard of [RegisterSandbox]. *)
Definition valid_registration (r : RegisterSandboxRequest) : bool :=
  negb (negb (identifier (rq_SandboxId r)) || String.eqb (rq_RuntimeId r) "" ||
        ContainsAny (rq_RuntimeId r) [NUL; CR; NL] || negb (identifier (rq_TaskId r))).

(** [RegisterSandbox] up to its wait: a reply, or the entry whose operation the
    caller awaits. *)
Definition RegisterSandbox (r : RegisterSandboxRequest) (st : Server) :
    (SandboxAccess + Code + unit) * Server :=
  if negb (valid_registration r) then (inl (inr InvalidArgument), st)
  else match sv_entries st !! rq_SandboxId r with
  | Some e =>
      match en_request e with
      | None => (inl (inl (en_access e)), st)
      | Some request =>
          if decide (request = r) then (inl (inl (en_access e)), st)
          else (inl (inr AlreadyExists), st)
      end
  | None =>
      if sv_closing st then (inl (inr FailedPrecondition), st)
      else
        (inr tt,
         {| sv_entries := <[rq_SandboxId r :=
              {| en_request := Some r; en_access := new_access (rq_SandboxId r) REGISTERING;
                 en_native := false; en_busy := true; en_cancelled := false;
                 en_flight := [OpRegister] |}]> (sv_entries st);
            sv_closing := sv_closing st |})
  end.

(** [releaseLocked]. *)
Definition releaseLocked (e : entry) : entry :=
  if decide (ac_State (en_access e) = RELEASED) then e
  else
    let access := en_access e in
    let access := {| ac_SandboxId := ac_SandboxId access; ac_State := RELEASING;
                     ac_Endpoint := None; ac_Error := ac_Error access;
                     ac_CleanupError := ac_CleanupError access;
                     ac_Artifacts := ac_Artifacts access |} in
    if en_busy e then
      {| en_request := en_request e; en_access := access; en_native := en_native e;
         en_busy := true; en_cancelled := true; en_flight := en_flight e |}
    else
      {| en_request := en_request e; en_access := access; en_native := en_native e;
         en_busy := true; en_cancelled := true; en_flight := en_flight e ++ [OpRelease] |}.

(** What [cfg.NewSandbox] and [native.Register] gave: no native object, or one
    with a result. *)
Definition register_error (native : option (option Endpoint * error)) : error :=
  match native with
  | None => Some (ENew "native sandbox factory returned nil")
  | Some (endpoint, e) =>
      match e with
      | Some _ => e
      | None =>
          match endpoint with
          | None => Some (ENew "native bridge did not provide a ready endpoint")
          | Some ep =>
              if (ep_Port ep =? 0)%N || (65535 <? ep_Port ep)%N
              then Some (ENew "native bridge did not provide a ready endpoint") else None
          end
      end
  end.

Definition end_operation (op : operation) (native : bool) (access : SandboxAccess) (e : entry) :
    entry :=
  {| en_request := en_request e; en_access := access; en_native := native; en_busy := false;
     en_cancelled := en_cancelled e;
     en_flight := List.filter (fun o => negb (bool_decide (o = op))) (en_flight e) |}.

(** The end of the goroutine that [RegisterSandbox] started. *)
Definition registered (native : option (option Endpoint * error)) (e : entry) : entry :=
  let access := en_access e in
  let err := register_error native in
  let access :=
    match err with
    | Some err =>
        {| ac_SandboxId := ac_SandboxId access; ac_State := RELEASING;
           ac_Endpoint := ac_Endpoint access; ac_Error := Error err;
           ac_CleanupError := ac_CleanupError access; ac_Artifacts := ac_Artifacts access |}
    | None => access
    end in
  let access :=
    if decide (ac_State access = REGISTERING) then
      {| ac_SandboxId := ac_SandboxId access; ac_State := READY;
         ac_Endpoint := match native with Some (endpoint, _) => endpoint | None => None end;
         ac_Error := ac_Error access; ac_CleanupError := ac_CleanupError access;
         ac_Artifacts := ac_Artifacts access |}
    else access in
  let e := end_operation OpRegister (match native with Some _ => true | None => false end)
             access e in
  if decide (ac_State access = RELEASING) then releaseLocked e else e.

(** The end of the goroutine that [releaseLocked] started: [native.Release]'s
    artifacts and error, with no call when there is no native object. *)
Definition released (result : list Artifact * error) (e : entry) : entry :=
  let (artifacts, err) := if en_native e then result else ([], None) in
  let access := en_access e in
  match err with
  | Some err =>
      end_operation OpRelease (en_native e)
        {| ac_SandboxId := ac_SandboxId access; ac_State := ac_State access;
           ac_Endpoint := ac_Endpoint access; ac_Error := ac_Error access;
           ac_CleanupError := Error err; ac_Artifacts := ac_Artifacts access |} e
  | None =>
      end_operation OpRelease false
        {| ac_SandboxId := ac_SandboxId access; ac_State := RELEASED;
           ac_Endpoint := ac_Endpoint access; ac_Error := ac_Error access;
           ac_CleanupError := ""; ac_Artifacts := artifacts |} e
  end.

(** [find] and [GetSandbox]. *)
Definition GetSandbox (id : string) (st : Server) : SandboxAccess + Code :=
  if negb (identifier id) then inr InvalidArgument
  else match sv_entries st !! id with
  | None => inr NotFound
  | Some e => inl (en_access e)
  end.

(** [ReleaseSandbox] up to its wait. *)
Definition ReleaseSandbox (id : string) (st : Server) : (SandboxAccess + Code + unit) * Server :=
  if negb (identifier id) then (inl (inr InvalidArgument), st)
  else
    let e := default {| en_request := None; en_access := new_access id RELEASED;
                        en_native := false; en_busy := false; en_cancelled := false;
                        en_flight := [] |} (sv_entries st !! id) in
    let put e := {| sv_entries := <[id := e]> (sv_entries st); sv_closing := sv_closing st |} in
    if decide (ac_State (en_access e) = RELEASED) then (inl (inl (en_access e)), put e)
    else (inr tt, put (releaseLocked e)).

(** The loop of [ReleaseSandbox] after an operation ended: a reply once nothing
    is in progress. *)
Definition release_reply (id : string) (st : Server) : option SandboxAccess :=
  match sv_entries st !! id with
  | Some e => if en_busy e then None else Some (en_access e)
  | None => None
  end.

(** [Close]: no new registration, and each identity it then releases. *)
Definition Close (st : Server) : list string * Server :=
  ((map_to_list (sv_entries st)).*1, {| sv_entries := sv_entries st; sv_closing := true |}).

(** * Interleaving *)

Inductive control_step : Server -> Server -> Prop :=
  | step_register r st : control_step st (RegisterSandbox r st).2
  | step_release id st : control_step st (ReleaseSandbox id st).2
  | step_close st : control_step st (Close st).2
  | step_registered id e native st :
      sv_entries st !! id = Some e -> OpRegister ∈ en_flight e ->
      control_step st {| sv_entries := <[id := registered native e]> (sv_entries st);
                         sv_closing := sv_closing st |}
  | step_released id e result st :
      sv_entries st !! id = Some e -> OpRelease ∈ en_flight e ->
      control_step st {| sv_entries := <[id := released result e]> (sv_entries st);
                         sv_closing := sv_closing st |}.

(** * The invariant of an entry *)

Definition rank (state : State) : nat :=
  match state with REGISTERING => 0 | READY => 1 | RELEASING => 2 | RELEASED => 3 end%nat.

Record entry_ok (id : string) (e : entry) : Prop := {
  ok_id : ac_SandboxId (en_access e) = id;
  ok_flight : en_busy e = true /\ (exists op, en_flight e = [op]) \/
              en_busy e = false /\ en_flight e = [];
  ok_state :
    match ac_State (en_access e) with
    | REGISTERING => en_flight e = [OpRegister] /\ ac_Endpoint (en_access e) = None /\
                     en_native e = false /\ en_cancelled e = false /\ en_request e <> None
    | READY => en_flight e = [] /\ en_native e = true /\ en_cancelled e = false /\
               (exists ep, ac_Endpoint (en_access e) = Some ep /\ (1 <= ep_Port ep <= 65535)%N) /\
               en_request e <> None
    | RELEASING => ac_Endpoint (en_access e) = None /\ en_cancelled e = true /\
                   en_request e <> None
    | RELEASED => en_flight e = [] /\ ac_Endpoint (en_access e) = None /\
                  en_native e = false /\ ac_CleanupError (en_access e) = ""
    end
}.

(** What may become of an entry. *)
Record entry_evolves (e e' : entry) : Prop := {
  ev_request : en_request e' = en_request e;
  ev_rank : (rank (ac_State (en_access e)) <= rank (ac_State (en_access e')))%nat;
  ev_frozen : ac_State (en_access e) = RELEASED -> e' = e
}.

#[export] Instance entry_evolves_preorder : PreOrder entry_evolves.
Proof.
  split; [by intros e; split|]. intros e1 e2 e3 [Hr1 Hk1 Hf1] [Hr2 Hk2 Hf2]. split.
  - congruence.
  - lia.
  - intros Hs. pose proof (Hf1 Hs) as Heq. rewrite Heq in Hf2. auto.
Qed.

Lemma releaseLocked_ok id e :
  entry_ok id e -> en_request e <> None \/ ac_State (en_access e) = RELEASED ->
  entry_ok id (releaseLocked e) /\ entry_evolves e (releaseLocked e) /\
  (rank RELEASING <= rank (ac_State (en_access (releaseLocked e))))%nat.
Proof.
  intros [Hid Hfl Hst] Hreq. unfold releaseLocked.
  destruct (decide (ac_State (en_access e) = RELEASED)) as [Hr|Hr].
  { split_and!; [by split|reflexivity|rewrite Hr; simpl; lia]. }
  destruct Hreq as [Hreq|?]; [|done].
  assert (rank (ac_State (en_access e)) <= 2)%nat by (destruct (ac_State (en_access e)); simpl; first [lia|done]).
  destruct Hfl as [[Hb [op Hop]]|[Hb Hop]]; rewrite Hb; split_and!; try (split; simpl; try done; try lia);
    simpl; rewrite ?Hop; eauto.
Qed.

Lemma released_ok id e result :
  entry_ok id e -> OpRelease ∈ en_flight e -> ac_State (en_access e) = RELEASING ->
  entry_ok id (released result e) /\ entry_evolves e (released result e).
Proof.
  intros [Hid Hfl Hst] Hin Hs. rewrite Hs in Hst. destruct Hst as (He & Hc & Hr).
  destruct Hfl as [[Hb [op Hop]]|[Hb Hop]]; rewrite Hop in Hin;
    [apply list_elem_of_singleton in Hin as <-|by apply elem_of_nil in Hin].
  unfold released, end_operation. rewrite Hop. simpl.
  destruct (if en_native e then result else _) as [artifacts [err|]];
    (split; [split|split]); simpl; rewrite ?Hs; simpl; try done; try lia; by right.
Qed.

Lemma register_error_None native :
  register_error native = None -> exists ep, native = Some (Some ep, None) /\ (1 <= ep_Port ep <= 65535)%N.
Proof.
  unfold register_error. destruct native as [[[ep|] [e|]]|]; try done.
  destruct (N.eqb_spec (ep_Port ep) 0) as [|Hz]; [done|].
  destruct (N.ltb_spec 65535 (ep_Port ep)); [done|]. intros _. exists ep. split; [done|]. lia.
Qed.

Lemma registered_ok id e native :
  entry_ok id e -> OpRegister ∈ en_flight e ->
  (ac_State (en_access e) = REGISTERING \/ ac_State (en_access e) = RELEASING) ->
  entry_ok id (registered native e) /\ entry_evolves e (registered native e).
Proof.
  intros [Hid Hfl Hst] Hin Hs.
  destruct Hfl as [[Hb [op Hop]]|[Hb Hop]]; rewrite Hop in Hin;
    [apply list_elem_of_singleton in Hin as <-|by apply elem_of_nil in Hin].
  unfold registered, end_operation, releaseLocked.
  destruct (register_error native) as [err|] eqn:Herr.
  - simpl. rewrite Hop. simpl. destruct Hs as [Hs|Hs]; rewrite Hs in Hst;
      (split; [split|split]); simpl; rewrite ?Hs; simpl; try done; try lia;
      try (by left; eauto); naive_solver.
  - apply register_error_None in Herr as (ep & -> & Hport).
    destruct Hs as [Hs|Hs]; rewrite Hs in Hst; simpl; rewrite Hs, ?Hop; simpl;
      (split; [split|split]); simpl; rewrite ?Hs, ?Hop; simpl; try done; try lia;
      try (by left; eauto); try (by right); naive_solver.
Qed.

(** An operation in flight determines the state it may find. *)
Lemma in_flight_state id e op :
  entry_ok id e -> op ∈ en_flight e ->
  ac_State (en_access e) = RELEASING \/ (ac_State (en_access e) = REGISTERING /\ op = OpRegister).
Proof.
  intros [_ _ Hst] Hin. destruct (ac_State (en_access e)); [|exfalso|by left|exfalso].
  - destruct Hst as [Hf _]. rewrite Hf in Hin. apply list_elem_of_singleton in Hin. by right.
  - destruct Hst as [Hf _]. rewrite Hf in Hin. by apply elem_of_nil in Hin.
  - destruct Hst as [Hf _]. rewrite Hf in Hin. by apply elem_of_nil in Hin.
Qed.

(** * The invariant of the server *)

Definition server_ok (st : Server) : Prop := map_Forall entry_ok (sv_entries st).

(** Entries stay, evolve, and appear only while the server accepts them. *)
Record server_evolves (st st' : Server) : Prop := {
  sev_entries : forall id e, sv_entries st !! id = Some e ->
                exists e', sv_entries st' !! id = Some e' /\ entry_evolves e e';
  sev_closing : sv_closing st = true -> sv_closing st' = true;
  sev_new : sv_closing st = true -> forall id e', sv_entries st !! id = None ->
            sv_entries st' !! id = Some e' -> en_request e' = None /\ ac_State (en_access e') = RELEASED
}.

#[export] Instance server_evolves_preorder : PreOrder server_evolves.
Proof.
  split.
  - intros st. split; [by intros id e He; exists e|done|]. intros _ id e' Hn He. congruence.
  - intros st1 st2 st3 [He1 Hc1 Hn1] [He2 Hc2 Hn2]. split; [|by auto|].
    + intros id e He. destruct (He1 id e He) as (e' & He' & Hev).
      destruct (He2 id e' He') as (e'' & He'' & Hev'). exists e''. split; [done|by etrans].
    + intros Hc id e' Hnone He'. destruct (sv_entries st2 !! id) as [e|] eqn:He.
      * destruct (Hn1 Hc id e Hnone He) as [Hr Hs]. destruct (He2 id e He) as (e'' & He'' & Hev).
        rewrite He' in He''. inv He''. by rewrite (ev_frozen _ _ Hev Hs).
      * apply (Hn2 (Hc1 Hc) id e' He He').
Qed.

(** Replacing one entry by what it may become. *)
Lemma put_entry st id e e' :
  server_ok st -> sv_entries st !! id = Some e -> entry_ok id e' -> entry_evolves e e' ->
  server_ok {| sv_entries := <[id := e']> (sv_entries st); sv_closing := sv_closing st |} /\
  server_evolves st {| sv_entries := <[id := e']> (sv_entries st); sv_closing := sv_closing st |}.
Proof.
  intros Hst He Hok Hev. split.
  - by apply map_Forall_insert_2.
  - split; simpl; [|done|].
    + intros id' e0 He0. destruct (decide (id' = id)) as [->|Hne].
      * exists e'. rewrite lookup_insert_eq. split; [done|]. congruence.
      * exists e0. by rewrite lookup_insert_ne.
    + intros _ id' e0 Hn He0. destruct (decide (id' = id)) as [->|Hne]; [congruence|].
      rewrite lookup_insert_ne in He0 by done. congruence.
Qed.

(** Adding an entry. *)
Lemma add_entry st id e' :
  server_ok st -> sv_entries st !! id = None -> entry_ok id e' ->
  (sv_closing st = true -> en_request e' = None /\ ac_State (en_access e') = RELEASED) ->
  server_ok {| sv_entries := <[id := e']> (sv_entries st); sv_closing := sv_closing st |} /\
  server_evolves st {| sv_entries := <[id := e']> (sv_entries st); sv_closing := sv_closing st |}.
Proof.
  intros Hst He Hok Hcl. split; [by apply map_Forall_insert_2|]. split; simpl; [|done|].
  - intros id' e0 He0. exists e0. rewrite lookup_insert_ne; [done|congruence].
  - intros Hc id' e0 Hn He0. destruct (decide (id' = id)) as [->|Hne].
    + rewrite lookup_insert_eq in He0. inv He0. auto.
    + rewrite lookup_insert_ne in He0 by done. congruence.
Qed.

Lemma request_or_released id e :
  entry_ok id e -> en_request e <> None \/ ac_State (en_access e) = RELEASED.
Proof. intros [_ _ Hst]. destruct (ac_State (en_access e)); naive_solver. Qed.

Lemma ReleaseSandbox_ok id st :
  server_ok st ->
  server_ok (ReleaseSandbox id st).2 /\ server_evolves st (ReleaseSandbox id st).2 /\
  (identifier id = true -> exists e, sv_entries (ReleaseSandbox id st).2 !! id = Some e /\
     (rank RELEASING <= rank (ac_State (en_access e)))%nat).
Proof.
  intros Hst. unfold ReleaseSandbox. destruct (identifier id); simpl;
    [|by split_and!; [done|reflexivity|]].
  destruct (sv_entries st !! id) as [e|] eqn:He; simpl.
  - pose proof (Hst id e He) as Hok.
    destruct (releaseLocked_ok id e Hok (request_or_released id e Hok)) as (Hok' & Hev & Hrank).
    destruct (decide (ac_State (en_access e) = RELEASED)) as [Hs|Hs]; simpl.
    + destruct (put_entry st id e e Hst He Hok ltac:(reflexivity)) as [H1 H2].
      split_and!; [done|done|]. intros _. exists e. rewrite lookup_insert_eq, Hs. simpl. split; [done|lia].
    + destruct (put_entry st id e _ Hst He Hok' Hev) as [H1 H2].
      split_and!; [done|done|]. intros _. eexists. by rewrite lookup_insert_eq.
  - edestruct (add_entry st id) as [H1 H2]; [done|done| | |split_and!; [apply H1|apply H2|]].
    + split; simpl; try done. by right.
    + done.
    + intros _. eexists. rewrite lookup_insert_eq. split; [done|]. simpl. lia.
Qed.

Lemma control_step_ok st st' :
  server_ok st -> control_step st st' -> server_ok st' /\ server_evolves st st'.
Proof.
  intros Hst Hstep. destruct Hstep as [r st|id st|st|id e native st He Hin|id e result st He Hin].
  - unfold RegisterSandbox. destruct (valid_registration r); simpl; [|by split; [|reflexivity]].
    destruct (sv_entries st !! rq_SandboxId r) as [e|] eqn:He; simpl.
    { destruct (en_request e); [destruct (decide _)|]; by split; [|reflexivity]. }
    destruct (sv_closing st) eqn:Hc; simpl; [by split; [|reflexivity]|].
    rewrite <- Hc. apply add_entry; [done|done| |congruence].
    split; simpl; [done|by left; eauto|done].
  - by destruct (ReleaseSandbox_ok id st Hst) as (? & ? & _).
  - split; [done|]. split; simpl; [by intros id e He; exists e|done|]. intros; congruence.
  - pose proof (Hst id e He) as Hok.
    destruct (registered_ok id e native Hok Hin) as [Hok' Hev].
    { destruct (in_flight_state id e _ Hok Hin) as [|[? _]]; auto. }
    by apply (put_entry st id e).
  - pose proof (Hst id e He) as Hok.
    destruct (released_ok id e result Hok Hin) as [Hok' Hev].
    { by destruct (in_flight_state id e _ Hok Hin) as [|[_ ?]]. }
    by apply (put_entry st id e).
Qed.

Lemma control_steps_ok st st' :
  server_ok st -> rtc control_step st st' -> server_ok st' /\ server_evolves st st'.
Proof.
  intros Hst Hr. induction Hr as [st|st1 st2 st3 Hstep _ IH]; [by split; [|reflexivity]|].
  destruct (control_step_ok _ _ Hst Hstep) as [H2 E2]. destruct (IH H2) as [H3 E3].
  split; [done|by etrans].
Qed.

Lemma NewServer_ok : server_ok NewServer.
Proof. apply map_Forall_empty. Qed.

(** * Properties *)

(** C15. In every reachable state of the control server an entry has at most one operation
    in flight and is busy exactly then; a ready one has an endpoint with a valid port
    and a live session, a releasing one no endpoint and a cancelled context, and a
    released one no endpoint, no session and no cleanup error. *)
Theorem control_entry_invariant st id e :
  rtc control_step NewServer st -> sv_entries st !! id = Some e ->
  (length (en_flight e) <= 1)%nat /\ (en_busy e = true <-> en_flight e <> []) /\
  match ac_State (en_access e) with
  | REGISTERING => en_flight e = [OpRegister] /\ en_cancelled e = false /\ en_request e <> None
  | READY => en_flight e = [] /\ en_native e = true /\ en_cancelled e = false /\
             exists ep, ac_Endpoint (en_access e) = Some ep /\ (1 <= ep_Port ep <= 65535)%N
  | RELEASING => ac_Endpoint (en_access e) = None /\ en_cancelled e = true
  | RELEASED => en_flight e = [] /\ ac_Endpoint (en_access e) = None /\ en_native e = false /\
                ac_CleanupError (en_access e) = ""
  end.
Proof.
  intros Hr He. destruct (control_steps_ok _ _ NewServer_ok Hr) as [Hst _].
  destruct (Hst id e He) as [_ Hfl Hs]. split_and!.
  - destruct Hfl as [[_ [op ->]]|[_ ->]]; simpl; lia.
  - destruct Hfl as [[-> [op ->]]|[-> ->]]; naive_solver.
  - destruct (ac_State (en_access e)); naive_solver.
Qed.

(** After a release no access to the sandbox is ever granted again: the endpoint is
    gone, the state is releasing or released for good, and released is only answered
    once the native session has stopped. *)
Theorem control_release_revokes st st' id e :
  rtc control_step NewServer st -> identifier id = true ->
  rtc control_step (ReleaseSandbox id st).2 st' -> sv_entries st' !! id = Some e ->
  ac_Endpoint (en_access e) = None /\
  (ac_State (en_access e) = RELEASING \/ ac_State (en_access e) = RELEASED) /\
  (forall a, release_reply id st' = Some a -> ac_State a = RELEASED -> en_native e = false).
Proof.
  intros Hr Hid Hr' He.
  destruct (control_steps_ok _ _ NewServer_ok Hr) as [Hst _].
  destruct (ReleaseSandbox_ok id st Hst) as (Hst1 & _ & Hrank).
  destruct (control_steps_ok _ _ Hst1 Hr') as [Hst' [Hent _ _]].
  destruct (Hrank Hid) as (e1 & He1 & Hk). destruct (Hent id e1 He1) as (e' & He' & [_ Hk' _]).
  rewrite He in He'. inv He'. pose proof (ok_state _ _ (Hst' id e' He)) as Hok.
  destruct (ac_State (en_access e')) eqn:Hs; simpl in *; try lia; split_and!; try tauto;
    unfold release_reply; rewrite He; intros a Ha Hs'; destruct (en_busy e'); try done;
    injection Ha as <-; first [congruence|tauto].
Qed.

(** A released sandbox stays as it is: a get and a repeated release answer the same
    access, and a registration changes nothing and is refused. *)
Theorem control_released_is_final st st' id e :
  rtc control_step NewServer st -> identifier id = true ->
  sv_entries st !! id = Some e -> ac_State (en_access e) = RELEASED ->
  rtc control_step st st' ->
  GetSandbox id st' = inl (en_access e) /\
  (ReleaseSandbox id st').1 = inl (inl (en_access e)) /\
  (forall r, rq_SandboxId r = id ->
     (RegisterSandbox r st').2 = st' /\ (RegisterSandbox r st').1 <> inr tt).
Proof.
  intros Hr Hid He Hs Hr'.
  destruct (control_steps_ok _ _ NewServer_ok Hr) as [Hst _].
  destruct (control_steps_ok _ _ Hst Hr') as [_ [Hent _ _]].
  destruct (Hent id e He) as (e' & He' & Hev). rewrite (ev_frozen _ _ Hev Hs) in He'.
  unfold GetSandbox, ReleaseSandbox, RegisterSandbox. rewrite Hid, He'. simpl.
  rewrite decide_True by done. split_and!; [done|done|].
  intros r ->. rewrite He'. destruct (valid_registration r); simpl; [|done].
  destruct (en_request e); [destruct (decide _)|]; done.
Qed.

(** The first registration binds an id: later registrations start nothing and change
    nothing, one with the same request gets the current access and any other is refused,
    and the state of the entry only advances. *)
Theorem control_binding_is_immutable st st' r r0 e :
  rtc control_step NewServer st -> sv_entries st !! rq_SandboxId r = Some e ->
  en_request e = Some r0 -> valid_registration r = true -> rtc control_step st st' ->
  exists e', sv_entries st' !! rq_SandboxId r = Some e' /\ en_request e' = Some r0 /\
    (rank (ac_State (en_access e)) <= rank (ac_State (en_access e')))%nat /\
    RegisterSandbox r st' =
      (inl (if decide (r0 = r) then inl (en_access e') else inr AlreadyExists), st').
Proof.
  intros Hr He Hreq Hv Hr'.
  destruct (control_steps_ok _ _ NewServer_ok Hr) as [Hst _].
  destruct (control_steps_ok _ _ Hst Hr') as [_ [Hent _ _]].
  destruct (Hent _ e He) as (e' & He' & [Hreq' Hk _]). exists e'.
  unfold RegisterSandbox. rewrite Hv, He', Hreq', Hreq. simpl.
  split_and!; [done|done|done|]. by destruct (decide _).
Qed.

(** After the server closed it accepts no new sandbox: a registration of an unknown
    id changes nothing and starts nothing, and such an id can only be known as already
    released. *)
Theorem control_closing_admits_nothing st st' :
  rtc control_step NewServer st -> rtc control_step (Close st).2 st' ->
  forall r, (sv_entries st !! rq_SandboxId r = None) ->
    (RegisterSandbox r st').2 = st' /\ (RegisterSandbox r st').1 <> inr tt /\
    (forall e, sv_entries st' !! rq_SandboxId r = Some e ->
       en_request e = None /\ ac_State (en_access e) = RELEASED).
Proof.
  intros Hst0 Hr r Hn. destruct (control_steps_ok _ _ NewServer_ok Hst0) as [Hst _].
  destruct (control_steps_ok (Close st).2 _ Hst Hr) as [Hst' [_ Hc Hnew]].
  specialize (Hc eq_refl). specialize (Hnew eq_refl (rq_SandboxId r)).
  unfold RegisterSandbox. destruct (valid_registration r); simpl; [|by split_and!; eauto].
  destruct (sv_entries st' !! rq_SandboxId r) as [e|] eqn:He.
  - destruct (Hnew e Hn eq_refl) as [Hreq Hs]. rewrite Hreq. split_and!; try done.
    intros e0 [= <-]. done.
  - rewrite Hc. by split_and!.
Qed.

(** * A concrete registration and release *)

Module ControlDemo.
Definition request : RegisterSandboxRequest :=
  {| rq_SandboxId := "s1"; rq_RuntimeId := "c0ffee"; rq_Workdir := "/work"; rq_ExecUser := "";
     rq_TaskId := "a-001" |}.
Definition endpoint : Endpoint :=
  {| ep_Port := 2222; ep_User := "aries"; ep_Transport := "ssh" |}.
Definition registering : Server := (RegisterSandbox request NewServer).2.
Definition entry_of (st : Server) : entry :=
  default {| en_request := None; en_access := new_access "" RELEASED; en_native := false;
             en_busy := false; en_cancelled := false; en_flight := [] |} (sv_entries st !! "s1").
Definition put (e : entry) (st : Server) : Server :=
  {| sv_entries := <["s1" := e]> (sv_entries st); sv_closing := sv_closing st |}.
Definition ready : Server :=
  put (registered (Some (Some endpoint, None)) (entry_of registering)) registering.
Definition releasing : Server := (ReleaseSandbox "s1" ready).2.
Definition released_server : Server := put (released ([], None) (entry_of releasing)) releasing.

Lemma ready_reachable : rtc control_step NewServer ready.
Proof.
  eapply rtc_l; [apply (step_register request)|]. eapply rtc_l; [|apply rtc_refl].
  apply (step_registered "s1" (entry_of registering)); [reflexivity|].
  change (en_flight (entry_of registering)) with [OpRegister]. by left.
Qed.
Lemma releases : rtc control_step releasing released_server.
Proof.
  eapply rtc_l; [|apply rtc_refl].
  apply (step_released "s1" (entry_of releasing)); [reflexivity|].
  change (en_flight (entry_of releasing)) with [OpRelease]. by left.
Qed.
Lemma released_reachable : rtc control_step NewServer released_server.
Proof.
  etrans; [exact ready_reachable|].
  eapply rtc_l; [apply (step_release "s1")|]. exact releases.
Qed.
End ControlDemo.

Lemma control_entry_invariant_witness :
  ac_State (en_access (ControlDemo.entry_of ControlDemo.ready)) = READY /\
  (length (en_flight (ControlDemo.entry_of ControlDemo.ready)) <= 1)%nat.
Proof.
  split; [reflexivity|].
  exact (proj1 (control_entry_invariant ControlDemo.ready "s1" _ ControlDemo.ready_reachable eq_refl)).
Defined.

Lemma control_release_revokes_witness :
  ac_Endpoint (en_access (ControlDemo.entry_of ControlDemo.ready)) <> None /\
  ac_Endpoint (en_access (ControlDemo.entry_of ControlDemo.released_server)) = None.
Proof.
  split; [discriminate|].
  exact (proj1 (control_release_revokes ControlDemo.ready ControlDemo.released_server "s1" _
    ControlDemo.ready_reachable eq_refl ControlDemo.releases eq_refl)).
Defined.

Lemma control_released_is_final_witness :
  GetSandbox "s1" ControlDemo.released_server =
    inl (en_access (ControlDemo.entry_of ControlDemo.released_server)).
Proof.
  exact (proj1 (control_released_is_final ControlDemo.released_server ControlDemo.released_server
    "s1" _ ControlDemo.released_reachable eq_refl eq_refl eq_refl (rtc_refl _ _))).
Defined.

Lemma control_binding_is_immutable_witness :
  exists e', en_request e' = Some ControlDemo.request /\
    RegisterSandbox ControlDemo.request ControlDemo.released_server =
      (inl (inl (en_access e')), ControlDemo.released_server).
Proof.
  destruct (control_binding_is_immutable ControlDemo.ready ControlDemo.released_server
    ControlDemo.request ControlDemo.request (ControlDemo.entry_of ControlDemo.ready)
    ControlDemo.ready_reachable eq_refl eq_refl eq_refl
    (rtc_l _ _ _ _ (step_release "s1" ControlDemo.ready) ControlDemo.releases))
    as (e' & _ & Hreq & _ & Heq).
  exists e'. rewrite decide_True in Heq by reflexivity. exact (conj Hreq Heq).
Defined.

Lemma control_closing_admits_nothing_witness :
  (RegisterSandbox ControlDemo.request (Close NewServer).2).2 = (Close NewServer).2.
Proof.
  exact (proj1 (control_closing_admits_nothing NewServer (Close NewServer).2 (rtc_refl _ _)
    (rtc_refl _ _) ControlDemo.request eq_refl)).
Defined.
