(* ===== verification/ToolAudit.v ===== *)
(** The audit writer and the other parts of [pkg/bridge/internal/bridgekit] that
    every bridge transport shares.

    [AuditWriter] is a bounded queue between the transports, which call [Enqueue],
    [Latch] and [SealAndWait] under the writer's lock, and one goroutine ([run])
    which writes the two files without holding it.  [audit_step] interleaves them:
    a client call is one step, the goroutine takes one step per critical section
    or file operation, and a file operation may fail or write short. *)

From S2P Require Import Prelude Utf8.

(** * Records *)

Definition maxToolLogBytes : Z := 256 * 2 ^ 20.

(** [Record] and [RawRecord]: what [Stamp] followed by the JSON encoder, and
    [RenderRaw], give for a sequence number and a timestamp. *)
Record record := {
  marshal : Z -> string -> bytes + err;
  RenderRaw : Z -> string -> bytes + err
}.

Record auditEntry := { ae_structured : bytes; ae_raw : bytes }.

(** * Files *)

(** [AuditFile]: its content, how much of it a successful [Sync] covered, and
    whether it was closed. *)

Record AuditFile := {
  fl_content : bytes;
  fl_synced : nat;
  fl_closed : bool
}.

Definition set_fl_content (x : bytes) (r : AuditFile) : AuditFile :=
  {| fl_content := x;
     fl_synced := fl_synced r;
     fl_closed := fl_closed r |}.

Definition set_fl_synced (x : nat) (r : AuditFile) : AuditFile :=
  {| fl_content := fl_content r;
     fl_synced := x;
     fl_closed := fl_closed r |}.

Definition set_fl_closed (x : bool) (r : AuditFile) : AuditFile :=
  {| fl_content := fl_content r;
     fl_synced := fl_synced r;
     fl_closed := x |}.


Definition OpenAuditFile : AuditFile := {| fl_content := []; fl_synced := 0; fl_closed := false |}.

(** A file operation of the goroutine; [true] names the raw file. *)
Inductive file_op :=
  | OpWrite (raw : bool) (line : bytes) (operation : string)
  | OpSync (raw : bool) (operation : string)
  | OpClose (raw : bool) (operation : string).

(** What the operating system did: bytes written, and an error. *)
Record outcome := { oc_written : nat; oc_err : error }.

(** Where the goroutine is: at [<-wake], at the top of the inner loop, inside
    [persist] or [finish] with operations left, or returned. *)
Inductive run_pc :=
  | Waiting
  | Draining
  | Performing (ops : list file_op) (last : bool)
  | Done.

(** * The writer *)

(** [AuditWriter]; [aw_wake] is the one-place channel. *)
Record AuditWriter := {
  aw_structured : AuditFile;
  aw_raw : option AuditFile;
  aw_pending : list auditEntry;
  aw_sequence : Z;
  aw_bytes : Z;
  aw_sealed : bool;
  aw_err : error;
  aw_wake : bool;
  aw_pc : run_pc
}.

Definition set_aw_structured (x : AuditFile) (r : AuditWriter) : AuditWriter :=
  {| aw_structured := x;
     aw_raw := aw_raw r;
     aw_pending := aw_pending r;
     aw_sequence := aw_sequence r;
     aw_bytes := aw_bytes r;
     aw_sealed := aw_sealed r;
     aw_err := aw_err r;
     aw_wake := aw_wake r;
     aw_pc := aw_pc r |}.

Definition set_aw_raw (x : option AuditFile) (r : AuditWriter) : AuditWriter :=
  {| aw_structured := aw_structured r;
     aw_raw := x;
     aw_pending := aw_pending r;
     aw_sequence := aw_sequence r;
     aw_bytes := aw_bytes r;
     aw_sealed := aw_sealed r;
     aw_err := aw_err r;
     aw_wake := aw_wake r;
     aw_pc := aw_pc r |}.

Definition set_aw_pending (x : list auditEntry) (r : AuditWriter) : AuditWriter :=
  {| aw_structured := aw_structured r;
     aw_raw := aw_raw r;
     aw_pending := x;
     aw_sequence := aw_sequence r;
     aw_bytes := aw_bytes r;
     aw_sealed := aw_sealed r;
     aw_err := aw_err r;
     aw_wake := aw_wake r;
     aw_pc := aw_pc r |}.

Definition set_aw_sealed (x : bool) (r : AuditWriter) : AuditWriter :=
  {| aw_structured := aw_structured r;
     aw_raw := aw_raw r;
     aw_pending := aw_pending r;
     aw_sequence := aw_sequence r;
     aw_bytes := aw_bytes r;
     aw_sealed := x;
     aw_err := aw_err r;
     aw_wake := aw_wake r;
     aw_pc := aw_pc r |}.

Definition set_aw_err (x : error) (r : AuditWriter) : AuditWriter :=
  {| aw_structured := aw_structured r;
     aw_raw := aw_raw r;
     aw_pending := aw_pending r;
     aw_sequence := aw_sequence r;
     aw_bytes := aw_bytes r;
     aw_sealed := aw_sealed r;
     aw_err := x;
     aw_wake := aw_wake r;
     aw_pc := aw_pc r |}.

Definition set_aw_wake (x : bool) (r : AuditWriter) : AuditWriter :=
  {| aw_structured := aw_structured r;
     aw_raw := aw_raw r;
     aw_pending := aw_pending r;
     aw_sequence := aw_sequence r;
     aw_bytes := aw_bytes r;
     aw_sealed := aw_sealed r;
     aw_err := aw_err r;
     aw_wake := x;
     aw_pc := aw_pc r |}.

Definition set_aw_pc (x : run_pc) (r : AuditWriter) : AuditWriter :=
  {| aw_structured := aw_structured r;
     aw_raw := aw_raw r;
     aw_pending := aw_pending r;
     aw_sequence := aw_sequence r;
     aw_bytes := aw_bytes r;
     aw_sealed := aw_sealed r;
     aw_err := aw_err r;
     aw_wake := aw_wake r;
     aw_pc := x |}.


(** [NewAuditWriter]; [raw] says whether the run keeps a raw log. *)
Definition NewAuditWriter (raw : bool) : AuditWriter :=
  {| aw_structured := OpenAuditFile; aw_raw := if raw then Some OpenAuditFile else None;
     aw_pending := []; aw_sequence := 0; aw_bytes := 0; aw_sealed := false; aw_err := None;
     aw_wake := false; aw_pc := Waiting |}.

Definition RetainsRaw (writer : AuditWriter) : bool :=
  match aw_raw writer with Some _ => true | None => false end.

(** [latchLocked] and [signal]. *)
Definition latch (e : err) (writer : AuditWriter) : AuditWriter :=
  set_aw_err (errors_Join [aw_err writer; Some e]) writer.
Definition signal (writer : AuditWriter) : AuditWriter := set_aw_wake true writer.

(** [Enqueue] at a time that [FormatTime] writes as [timestamp]. *)
Definition Enqueue (r : record) (timestamp : string) (writer : AuditWriter) : AuditWriter :=
  match aw_err writer with
  | Some _ => writer
  | None =>
      if aw_sealed writer then latch (ENew "enqueue audit after seal") writer
      else
        let sequence := aw_sequence writer + 1 in
        match marshal r sequence timestamp with
        | inr e => latch (EWrap "marshal structured audit" e) writer
        | inl structuredLine =>
            let rawLine := if RetainsRaw writer then RenderRaw r sequence timestamp else inl [] in
            match rawLine with
            | inr e => latch (EWrap "render raw audit" e) writer
            | inl rawLine =>
                let charge := Z.of_nat (length structuredLine + length rawLine) in
                if maxToolLogBytes - aw_bytes writer <? charge
                then latch (ENew ("combined audit exceeds " +:+ itoa maxToolLogBytes +:+ " bytes"))
                       writer
                else signal
                  {| aw_structured := aw_structured writer; aw_raw := aw_raw writer;
                     aw_pending := aw_pending writer ++
                       [{| ae_structured := structuredLine; ae_raw := rawLine |}];
                     aw_sequence := sequence; aw_bytes := aw_bytes writer + charge;
                     aw_sealed := aw_sealed writer; aw_err := aw_err writer;
                     aw_wake := aw_wake writer; aw_pc := aw_pc writer |}
            end
        end
  end.

(** The part of [SealAndWait] before it waits. *)
Definition Seal (writer : AuditWriter) : AuditWriter := signal (set_aw_sealed true writer).

(** What [SealAndWait] returns once the goroutine is done, and [Finished]. *)
Definition Finished (writer : AuditWriter) : bool :=
  match aw_pc writer with Done => true | _ => false end.
Definition seal_result (writer : AuditWriter) : option error :=
  if Finished writer then Some (aw_err writer) else None.

(** [persist] and [finish], as the file operations they perform: none on an
    absent raw file. *)
Definition raw_op (raw : bool) (op : file_op) : list file_op := if raw then [op] else [].
Definition persist_ops (raw : bool) (entry : auditEntry) : list file_op :=
  [OpWrite false (ae_structured entry) "structured write"] ++
  raw_op raw (OpWrite true (ae_raw entry) "raw write") ++
  [OpSync false "structured sync"] ++ raw_op raw (OpSync true "raw sync").
Definition finish_ops (raw : bool) : list file_op :=
  [OpSync false "final structured sync"] ++ raw_op raw (OpSync true "final raw sync") ++
  [OpClose false "structured close"] ++ raw_op raw (OpClose true "raw close").

(** The operation on its file. *)
Definition op_effect (op : file_op) (o : outcome) (file : AuditFile) : AuditFile :=
  match op with
  | OpWrite _ line _ => set_fl_content (fl_content file ++ take (oc_written o) line) file
  | OpSync _ _ =>
      if oc_err o then file else set_fl_synced (length (fl_content file)) file
  | OpClose _ _ => set_fl_closed true file
  end.
Definition op_raw (op : file_op) : bool :=
  match op with OpWrite raw _ _ | OpSync raw _ | OpClose raw _ => raw end.

(** The error it latches: a short write is one. *)
Definition op_error (op : file_op) (o : outcome) : error :=
  match op with
  | OpWrite _ line operation =>
      wrap operation (match oc_err o with
                      | Some e => Some e
                      | None => if negb (oc_written o =? length line)%nat
                                then Some (ESentinel ErrShortWrite) else None
                      end)
  | OpSync _ operation | OpClose _ operation => wrap operation (oc_err o)
  end.

Definition perform (op : file_op) (o : outcome) (writer : AuditWriter) : AuditWriter :=
  let writer :=
    if op_raw op then set_aw_raw (op_effect op o <$> aw_raw writer) writer
    else set_aw_structured (op_effect op o (aw_structured writer)) writer in
  match op_error op o with Some e => latch e writer | None => writer end.

(** One step of [run]; [o] is the outcome if it is a file operation. *)
Definition run_step (o : outcome) (writer : AuditWriter) : option AuditWriter :=
  match aw_pc writer with
  | Waiting =>
      if aw_wake writer then Some (set_aw_wake false (set_aw_pc Draining writer)) else None
  | Draining =>
      match aw_pending writer with
      | [] => Some (set_aw_pc (if aw_sealed writer
                               then Performing (finish_ops (RetainsRaw writer)) true
                               else Waiting) writer)
      | entry :: rest =>
          Some (set_aw_pc (Performing (persist_ops (RetainsRaw writer) entry) false)
                  (set_aw_pending rest writer))
      end
  | Performing (op :: ops) last => Some (perform op o (set_aw_pc (Performing ops last) writer))
  | Performing [] last => Some (set_aw_pc (if last then Done else Draining) writer)
  | Done => None
  end.

(** The interleavings.  The label is the record a client offered. *)
Inductive audit_step : AuditWriter -> list (record * string) -> AuditWriter -> Prop :=
  | step_enqueue r timestamp w : audit_step w [(r, timestamp)] (Enqueue r timestamp w)
  | step_latch e w : audit_step w [] (latch e w)
  | step_seal w : audit_step w [] (Seal w)
  | step_run o w w' : run_step o w = Some w' -> audit_step w [] w'.

Inductive audit_run (raw : bool) : list (record * string) -> AuditWriter -> Prop :=
  | run_start : audit_run raw [] (NewAuditWriter raw)
  | run_more calls w label w' :
      audit_run raw calls w -> audit_step w label w' -> audit_run raw (calls ++ label) w'.

(** * The invariant *)

Definition file_of (raw : bool) (w : AuditWriter) : AuditFile :=
  if raw then default OpenAuditFile (aw_raw w) else aw_structured w.
Definition line_of (raw : bool) (entry : auditEntry) : bytes :=
  if raw then ae_raw entry else ae_structured entry.

(** The operations left, the lines they still write and whether they still sync. *)
Definition ops_left (w : AuditWriter) : list file_op :=
  match aw_pc w with Performing ops _ => ops | _ => [] end.
Definition op_line (raw : bool) (op : file_op) : bytes :=
  match op with OpWrite r line _ => if bool_decide (r = raw) then line else [] | _ => [] end.
Definition lines_left (raw : bool) (ops : list file_op) : bytes := concat (map (op_line raw) ops).
Definition syncs (raw : bool) (ops : list file_op) : bool :=
  existsb (fun op => match op with OpSync r _ => bool_decide (r = raw) | _ => false end) ops.

(** The operations left are the end of [persist] or of [finish]. *)
Definition pc_ok (raw : bool) (w : AuditWriter) : Prop :=
  match aw_pc w with
  | Waiting => aw_wake w = true \/ (aw_pending w = [] /\ aw_sealed w = false)
  | Draining => True
  | Performing ops false => exists entry p, persist_ops raw entry = p ++ ops
  | Performing ops true => (exists p, finish_ops raw = p ++ ops) /\ aw_sealed w = true /\ aw_pending w = []
  | Done => aw_sealed w = true /\ aw_pending w = []
  end.

(** Entry number [k] is the record's lines under that sequence number. *)
Definition entry_of (raw : bool) (k : nat) (call : record * string) (entry : auditEntry) : Prop :=
  marshal call.1 (Z.of_nat k + 1) call.2 = inl (ae_structured entry) /\
  (if raw then RenderRaw call.1 (Z.of_nat k + 1) call.2 = inl (ae_raw entry) else ae_raw entry = []).

Definition entry_size (entry : auditEntry) : Z :=
  Z.of_nat (length (ae_structured entry) + length (ae_raw entry)).
Definition total_size (entries : list auditEntry) : Z := foldr (fun e n => entry_size e + n) 0 entries.

Record audit_inv (raw : bool) (calls accepted : list (record * string))
    (taken : list auditEntry) (w : AuditWriter) : Prop := {
  ai_raw : RetainsRaw w = raw;
  ai_accepted : accepted `sublist_of` calls;
  ai_sequence : aw_sequence w = Z.of_nat (length accepted);
  ai_length : length (taken ++ aw_pending w) = length accepted;
  ai_entries : forall k call entry, accepted !! k = Some call -> (taken ++ aw_pending w) !! k = Some entry ->
               entry_of raw k call entry;
  ai_bytes : aw_bytes w = total_size (taken ++ aw_pending w) /\ aw_bytes w <= maxToolLogBytes;
  ai_pc : pc_ok raw w;
  ai_content : aw_err w = None -> forall f, (f = true -> raw = true) ->
    fl_content (file_of f w) ++ lines_left f (ops_left w) = concat (map (line_of f) taken);
  ai_synced : aw_err w = None -> forall f, (f = true -> raw = true) ->
    syncs f (ops_left w) = true \/ fl_synced (file_of f w) = length (fl_content (file_of f w))
}.

Lemma total_size_app a b : total_size (a ++ b) = total_size a + total_size b.
Proof. induction a as [|e a IH]; [done|]. simpl. rewrite IH. lia. Qed.

Lemma errors_Join_snoc (e : error) (x : err) : errors_Join [e; Some x] <> None.
Proof. rewrite errors_Join_nil_iff, !Forall_cons. naive_solver. Qed.

(** A latched error makes the claims about the files void. *)
Lemma audit_inv_latch raw calls accepted taken w e :
  audit_inv raw calls accepted taken w -> audit_inv raw calls accepted taken (latch e w).
Proof.
  intros [Hr Ha Hs Hl He Hb Hp Hc Hy]. split; try done; intros Herr;
    by apply errors_Join_snoc in Herr.
Qed.

Lemma audit_inv_calls raw calls label accepted taken w :
  audit_inv raw calls accepted taken w -> audit_inv raw (calls ++ label) accepted taken w.
Proof.
  intros [Hr Ha Hs Hl He Hb Hp Hc Hy]. split; try done. by apply sublist_inserts_r.
Qed.

Lemma audit_inv_seal raw calls accepted taken w :
  audit_inv raw calls accepted taken w -> audit_inv raw calls accepted taken (Seal w).
Proof.
  intros [Hr Ha Hs Hl He Hb Hp Hc Hy]. split; try done.
  unfold pc_ok, Seal, signal in *. simpl. destruct (aw_pc w) as [| |ops [|]|]; naive_solver.
Qed.

Lemma audit_inv_enqueue raw calls accepted taken w r timestamp :
  audit_inv raw calls accepted taken w ->
  exists accepted', audit_inv raw (calls ++ [(r, timestamp)]) accepted' taken (Enqueue r timestamp w).
Proof.
  intros Hinv. pose proof Hinv as [Hr Ha Hs Hl He [Hb Hmax] Hp Hc Hy].
  assert (audit_inv raw (calls ++ [(r, timestamp)]) accepted taken w) as Hsame
    by by apply audit_inv_calls.
  unfold Enqueue. destruct (aw_err w) as [x|] eqn:Herr; [eauto|].
  destruct (aw_sealed w) eqn:Hseal; [eauto using audit_inv_latch|].
  destruct (marshal r _ timestamp) as [structured|x] eqn:Hm; [|eauto using audit_inv_latch].
  rewrite Hr.
  destruct (if raw then RenderRaw r _ timestamp else inl []) as [line|x] eqn:Hraw;
    [|eauto using audit_inv_latch].
  destruct (Z.ltb_spec (maxToolLogBytes - aw_bytes w) (Z.of_nat (length structured + length line)))
    as [|Hroom]; [eauto using audit_inv_latch|].
  exists (accepted ++ [(r, timestamp)]). split; simpl; try done.
  - by apply sublist_app.
  - rewrite length_app. simpl. lia.
  - rewrite app_assoc, length_app, Hl, length_app. done.
  - intros k call entry Hk Hk'. rewrite app_assoc in Hk'.
    apply lookup_snoc_Some in Hk as [[Hlt Hk]|[-> <-]].
    + rewrite lookup_app_l in Hk' by lia. by apply He.
    + rewrite lookup_app_r, Hl, Nat.sub_diag in Hk' by lia. injection Hk' as <-.
      unfold entry_of. simpl. rewrite <- Hs. split; [done|]. destruct raw; congruence.
  - rewrite app_assoc, total_size_app. simpl. unfold entry_size. simpl. lia.
  - unfold pc_ok in *. simpl. rewrite ?Hseal in *. destruct (aw_pc w) as [| |ops [|]|]; naive_solver.
Qed.

Ltac suffix_cases p Heq :=
  repeat (destruct p as [|? p]; simpl in Heq;
          [try discriminate Heq; by inv Heq|injection Heq as _ Heq]);
  try (by destruct p).

(** A write is always followed by a sync of its file. *)
Lemma write_then_sync raw full p f line operation ops :
  (exists entry, full = persist_ops raw entry) \/ full = finish_ops raw ->
  full = p ++ OpWrite f line operation :: ops -> syncs f ops = true.
Proof.
  intros Hfull Heq. unfold persist_ops, finish_ops, raw_op in Hfull.
  destruct Hfull as [[entry ->]| ->], raw; simpl in Heq;
    suffix_cases p Heq.
Qed.

Lemma perform_raw op o w : RetainsRaw (perform op o w) = RetainsRaw w.
Proof.
  unfold perform, RetainsRaw. destruct (op_error op o), (op_raw op), w as [? [|]]; done.
Qed.

Lemma perform_same op o w :
  aw_pending (perform op o w) = aw_pending w /\ aw_sequence (perform op o w) = aw_sequence w /\
  aw_bytes (perform op o w) = aw_bytes w /\ aw_sealed (perform op o w) = aw_sealed w /\
  aw_pc (perform op o w) = aw_pc w /\ aw_wake (perform op o w) = aw_wake w.
Proof. unfold perform. by destruct (op_error op o), (op_raw op). Qed.

(** An operation without error does what it says to its file, and nothing else. *)
Lemma perform_file op o w f :
  (op_raw op = true -> RetainsRaw w = true) ->
  file_of f (perform op o w) =
    if bool_decide (op_raw op = f) then op_effect op o (file_of f w) else file_of f w.
Proof.
  intros Hraw. unfold perform, file_of, RetainsRaw in *.
  destruct (op_error op o), (op_raw op), f; simpl; try done;
    by destruct (aw_raw w); [|specialize (Hraw eq_refl)].
Qed.

Lemma perform_err op o w : aw_err (perform op o w) = None -> aw_err w = None /\ op_error op o = None.
Proof.
  unfold perform. destruct (op_error op o) as [e|]; [by intros H%errors_Join_snoc|].
  by destruct (op_raw op).
Qed.

Lemma op_ok_content op o file :
  op_error op o = None ->
  fl_content (op_effect op o file) = fl_content file ++
    match op with OpWrite _ line _ => line | _ => [] end /\
  match op with
  | OpSync _ _ => fl_synced (op_effect op o file) = length (fl_content (op_effect op o file))
  | _ => fl_synced (op_effect op o file) = fl_synced file
  end.
Proof.
  destruct op as [r line operation|r operation|r operation]; simpl.
  - destruct (oc_err o); [done|]. destruct (Nat.eqb_spec (oc_written o) (length line)) as [->|]; [|done].
    by rewrite firstn_all.
  - destruct (oc_err o); [done|]. by rewrite app_nil_r.
  - by rewrite app_nil_r.
Qed.

Lemma raw_ops raw full p op ops :
  (exists entry, full = persist_ops raw entry) \/ full = finish_ops raw ->
  full = p ++ op :: ops -> op_raw op = true -> raw = true.
Proof.
  intros Hfull Heq Hop. unfold persist_ops, finish_ops, raw_op in Hfull.
  destruct Hfull as [[entry ->]| ->], raw; try done; simpl in Heq;
    suffix_cases p Heq.
Qed.

Lemma audit_inv_perform raw calls accepted taken w op ops last o full p :
  audit_inv raw calls accepted taken w -> aw_pc w = Performing (op :: ops) last ->
  (exists entry, full = persist_ops raw entry) \/ full = finish_ops raw ->
  full = p ++ op :: ops ->
  pc_ok raw (set_aw_pc (Performing ops last) w) ->
  audit_inv raw calls accepted taken (perform op o (set_aw_pc (Performing ops last) w)).
Proof.
  intros [Hr Ha Hs Hl He Hb Hp Hc Hy] Hpc Hfull Heq Hpc'.
  set (w1 := set_aw_pc (Performing ops last) w) in *.
  destruct (perform_same op o w1) as (E1 & E2 & E3 & E4 & E5 & E6).
  assert (ops_left w = op :: ops) as Hops by (unfold ops_left; by rewrite Hpc).
  assert (ops_left (perform op o w1) = ops) as Hops' by (unfold ops_left; by rewrite E5).
  assert (op_raw op = true -> RetainsRaw w1 = true) as Hraw.
  { intros Hop. change (RetainsRaw w1) with (RetainsRaw w). rewrite Hr.
    by eapply raw_ops in Heq. }
  split; rewrite ?E1, ?E2, ?E3; try done.
  - by rewrite perform_raw.
  - unfold pc_ok in *. rewrite E1, E4, E5, E6. done.
  - intros [Herr Hop]%perform_err f Hf. rewrite perform_file, Hops' by done.
    specialize (Hc Herr f Hf). rewrite Hops in Hc.
    change (file_of f w1) with (file_of f w). rewrite <- Hc. unfold lines_left. simpl.
    destruct (op_ok_content op o (file_of f w) Hop) as [Hcont _].
    destruct (bool_decide (op_raw op = f)) eqn:Hbf.
    + rewrite Hcont, <- app_assoc. f_equal. f_equal.
      destruct op; simpl in *; try done. by rewrite Hbf.
    + destruct op; simpl in *; try done. by rewrite Hbf.
  - intros [Herr Hop]%perform_err f Hf. rewrite perform_file, Hops' by done.
    specialize (Hy Herr f Hf). rewrite Hops in Hy. change (file_of f w1) with (file_of f w).
    destruct (op_ok_content op o (file_of f w) Hop) as [Hcont Hsync].
    destruct (bool_decide (op_raw op = f)) eqn:Hbf.
    + apply bool_decide_eq_true in Hbf. subst f. destruct op as [r line operation|r operation|r operation].
      * left. by eapply write_then_sync in Heq.
      * by right.
      * rewrite Hsync, Hcont, app_nil_r. simpl in Hy |- *. by destruct Hy; [left|right].
    + destruct Hy as [Hy|Hy]; [|by right]. left. unfold syncs in *. simpl in Hy.
      destruct op; simpl in *; try done. by rewrite Hbf in Hy.
Qed.

Lemma lines_left_persist raw f entry :
  (f = true -> raw = true) -> lines_left f (persist_ops raw entry) = line_of f entry.
Proof. intros Hf. destruct raw, f; unfold lines_left; simpl; rewrite ?app_nil_r; naive_solver. Qed.

Lemma audit_inv_run raw calls accepted taken w o w' :
  audit_inv raw calls accepted taken w -> run_step o w = Some w' ->
  exists taken', audit_inv raw calls accepted taken' w'.
Proof.
  intros Hinv. pose proof Hinv as [Hr Ha Hs Hl He Hb Hp Hc Hy]. unfold run_step.
  destruct (aw_pc w) as [| |ops last|] eqn:Hpc; [| | |done].
  - destruct (aw_wake w); [|done]. intros [= <-]. exists taken.
    unfold ops_left in *. rewrite Hpc in *. by split.
  - assert (ops_left w = []) as Hops by (unfold ops_left; by rewrite Hpc). rewrite Hops in *.
    destruct (aw_pending w) as [|entry rest] eqn:Hpend; intros [= <-].
    + exists taken. split; simpl; rewrite ?Hpend; try done.
      * unfold pc_ok. simpl. rewrite Hpend, Hr. destruct (aw_sealed w) eqn:Hseal; simpl; rewrite ?Hseal.
        -- split; [by exists []|done].
        -- by right.
      * intros Herr f Hf. rewrite <- (Hc Herr f Hf). unfold ops_left. simpl. rewrite Hr.
        destruct (aw_sealed w); [|done]. by destruct raw, f.
      * intros Herr f Hf. destruct (Hy Herr f Hf) as [|Hy']; [done|]. by right.
    + exists (taken ++ [entry]). split; simpl; rewrite <- ?app_assoc; try done.
      * unfold pc_ok. simpl. rewrite Hr. by exists entry, [].
      * intros Herr f Hf. unfold ops_left. simpl. rewrite Hr, lines_left_persist by done.
        rewrite map_app, concat_app, <- (Hc Herr f Hf). simpl. by rewrite !app_nil_r.
      * intros Herr f Hf. left. unfold ops_left. simpl. rewrite Hr. by destruct raw, f; try naive_solver.
  - destruct ops as [|op ops]; intros [= <-]; exists taken.
    + assert (ops_left w = []) as Hops by (unfold ops_left; by rewrite Hpc). rewrite Hops in *.
      unfold pc_ok in Hp. rewrite Hpc in Hp.
      destruct last; split; try done; unfold ops_left; simpl; try done.
      unfold pc_ok. simpl. naive_solver.
    + unfold pc_ok in Hp. rewrite Hpc in Hp. destruct last.
      * destruct Hp as ([p Hp] & Hseal & Hpend).
        eapply audit_inv_perform; [done|done|by right|done|]. unfold pc_ok. simpl.
        split_and!; [|done|done]. exists (p ++ [op]). by rewrite <- app_assoc.
      * destruct Hp as (entry & p & Hp).
        eapply audit_inv_perform; [done|done|left; by eexists|done|]. unfold pc_ok. simpl.
        exists entry, (p ++ [op]). by rewrite <- app_assoc.
Qed.

Lemma audit_reachable raw calls w :
  audit_run raw calls w -> exists accepted taken, audit_inv raw calls accepted taken w.
Proof.
  induction 1 as [|calls w label w' _ (accepted & taken & IH) Hstep].
  - exists [], []. split; simpl; try done; [by destruct raw|by right|..].
    + intros _ f _. by destruct raw, f.
    + intros _ f _. right. by destruct raw, f.
  - destruct Hstep as [r timestamp w|e w|w|o w w' Hrun].
    + apply audit_inv_enqueue with (r := r) (timestamp := timestamp) in IH as [? ?]. eauto.
    + exists accepted, taken. by apply audit_inv_calls, audit_inv_latch.
    + exists accepted, taken. by apply audit_inv_calls, audit_inv_seal.
    + apply (audit_inv_run _ _ _ _ _ o w') in IH as [taken' ?]; [|done].
      exists accepted, taken'. by apply audit_inv_calls.
Qed.

(** * Properties of the audit writer *)

(** An audit without an error has dropped nothing: each offered record was accepted. *)
Lemma audit_accepts_all raw calls w :
  audit_run raw calls w -> aw_err w = None -> aw_sequence w = Z.of_nat (length calls).
Proof.
  induction 1 as [|calls w label w' _ IH Hstep]; [done|]. rewrite length_app, Nat2Z.inj_add.
  destruct Hstep as [r timestamp w|e w|w|o w w' Hrun]; simpl.
  - unfold Enqueue. destruct (aw_err w) eqn:Herr; [congruence|]. specialize (IH eq_refl).
    destruct (aw_sealed w); [by intros ?%errors_Join_snoc|].
    destruct (marshal r _ _); [|by intros ?%errors_Join_snoc].
    destruct (if RetainsRaw w then _ else _); [|by intros ?%errors_Join_snoc].
    destruct (_ <? _); [by intros ?%errors_Join_snoc|]. intros _. simpl. lia.
  - by intros ?%errors_Join_snoc.
  - intros Herr. rewrite Z.add_0_r. by apply IH.
  - rewrite Z.add_0_r. unfold run_step in Hrun. destruct (aw_pc w) as [| |[|op ops] last|]; [| | | |done].
    + destruct (aw_wake w); [|done]. injection Hrun as <-. exact IH.
    + destruct (aw_pending w); injection Hrun as <-; exact IH.
    + injection Hrun as <-. exact IH.
    + injection Hrun as <-. set (w1 := set_aw_pc _ w).
      destruct (perform_same op o w1) as (_ & -> & _). intros Herr. apply IH.
      destruct (aw_err w) eqn:He; [|done]. exfalso. apply perform_err in Herr as [Herr _]. simpl in Herr. congruence.
Qed.

(** The files hold exactly the records of [calls]. *)
Definition evidence_complete (raw : bool) (calls : list (record * string)) (w : AuditWriter) : Prop :=
  exists entries, aw_sequence w = Z.of_nat (length calls) /\ length entries = length calls /\
    (forall k call entry, calls !! k = Some call -> entries !! k = Some entry ->
       entry_of raw k call entry) /\
    (forall f, (f = true -> raw = true) ->
       fl_content (file_of f w) = concat (map (line_of f) entries) /\
       fl_synced (file_of f w) = length (fl_content (file_of f w))).

Lemma sealed_evidence raw calls w :
  audit_run raw calls w -> seal_result w = Some None -> evidence_complete raw calls w.
Proof.
  intros Hrun Hres. pose proof (audit_accepts_all raw calls w Hrun) as Hall.
  apply audit_reachable in Hrun as (accepted & taken & Hinv).
  unfold seal_result, Finished in Hres. destruct (aw_pc w) eqn:Hpc; try done. injection Hres as Herr.
  destruct Hinv as [Hr Ha Hs Hl He Hb Hp Hc Hy]. unfold pc_ok in Hp. rewrite Hpc in Hp.
  destruct Hp as [_ Hpend]. rewrite Hpend, app_nil_r in *.
  assert (ops_left w = []) as Hops by (unfold ops_left; by rewrite Hpc). rewrite Hops in *.
  assert (accepted = calls) as ->.
  { apply sublist_same_length; [done|]. specialize (Hall Herr). lia. }
  exists taken. split_and!; try done. intros f Hf. split.
  - rewrite <- (Hc Herr f Hf). unfold lines_left. simpl. by rewrite app_nil_r.
  - by destruct (Hy Herr f Hf).
Qed.

(** C16. If sealing the audit reports no error, then nothing offered was dropped: each
    file holds exactly the offered records, in order and numbered from one without a
    gap, and everything in it was synced. *)
Theorem audit_evidence_complete raw calls w :
  audit_run raw calls w -> seal_result w = Some None -> evidence_complete raw calls w.
Proof. apply sealed_evidence. Qed.

(** C17. At every point, the accepted records are a subsequence of those offered, numbered
    consecutively, their lines are either taken by the writer or pending in order, and
    their total size is what was charged and within the bound. *)
Theorem audit_bounded_and_sequenced raw calls w :
  audit_run raw calls w ->
  exists accepted taken, accepted `sublist_of` calls /\
    aw_sequence w = Z.of_nat (length accepted) /\
    length (taken ++ aw_pending w) = length accepted /\
    (forall k call entry, accepted !! k = Some call -> (taken ++ aw_pending w) !! k = Some entry ->
       entry_of raw k call entry) /\
    aw_bytes w = total_size (taken ++ aw_pending w) /\ aw_bytes w <= maxToolLogBytes.
Proof.
  intros Hrun. apply audit_reachable in Hrun as (accepted & taken & [Hr Ha Hs Hl He [Hb Hm] Hp Hc Hy]).
  exists accepted, taken. by split_and!.
Qed.

(** Once the audit has failed it stays failed and accepts nothing more, and a record
    offered after the seal is not accepted and fails the audit. *)
Theorem audit_error_is_final w label w' :
  audit_step w label w' ->
  (aw_err w <> None -> aw_err w' <> None /\ aw_sequence w' = aw_sequence w /\ aw_bytes w' = aw_bytes w) /\
  (aw_sealed w = true -> aw_sealed w' = true /\ aw_sequence w' = aw_sequence w /\
     (label <> [] -> aw_err w' <> None)).
Proof.
  intros [r timestamp w0|e w0|w0|o w0 w1 Hrun].
  - unfold Enqueue. destruct (aw_err w0) eqn:Herr; [naive_solver|].
    split; [done|]. intros Hs. rewrite Hs. split_and!; [done|done|]. intros _. apply errors_Join_snoc.
  - split; [|done]. intros _. split_and!; [apply errors_Join_snoc|done|done].
  - by split.
  - unfold run_step in Hrun. destruct (aw_pc w0) as [| |[|op ops] last|]; [| | | |done].
    + destruct (aw_wake w0); [|done]. injection Hrun as <-. by split.
    + destruct (aw_pending w0); injection Hrun as <-; by split.
    + injection Hrun as <-. by split.
    + injection Hrun as <-. set (w1 := set_aw_pc _ w0).
      destruct (perform_same op o w1) as (_ & -> & -> & -> & _). split; [|done].
      intros Herr. split_and!; try done. by intros [? _]%perform_err.
Qed.

(** The goroutine alone, with the outcomes of its operations. *)
Fixpoint run_many (outcomes : list outcome) (w : AuditWriter) : AuditWriter :=
  match outcomes with
  | [] => w
  | o :: outcomes => match run_step o w with Some w' => run_many outcomes w' | None => w end
  end.

(** What it has left to do once sealed. *)
Definition work (w : AuditWriter) : nat :=
  8 * length (aw_pending w) +
  match aw_pc w with
  | Waiting => 7 | Draining => 6
  | Performing ops false => 7 + length ops | Performing ops true => 1 + length ops
  | Done => 0
  end.

Lemma run_step_works raw calls accepted taken w o :
  audit_inv raw calls accepted taken w -> aw_sealed w = true ->
  aw_pc w = Done \/ exists w', run_step o w = Some w' /\ aw_sealed w' = true /\ (work w' < work w)%nat.
Proof.
  intros Hinv Hseal. pose proof (ai_pc _ _ _ _ _ Hinv) as Hp. unfold run_step, work, pc_ok in *.
  destruct (aw_pc w) as [| |[|op ops] last|]; [| | | |by left]; right.
  - destruct Hp as [->|[_ ?]]; [|congruence]. eexists. split; [reflexivity|]. simpl. split; [done|lia].
  - destruct (aw_pending w) as [|entry rest] eqn:Hpend; simpl; rewrite ?Hseal; (eexists; split; [reflexivity|]);
      simpl; rewrite ?Hpend; (split; [done|]); unfold finish_ops, persist_ops, raw_op; destruct (RetainsRaw w); simpl; lia.
  - eexists. split; [reflexivity|]. simpl. split; [done|]. destruct last; simpl; lia.
  - eexists. split; [reflexivity|]. set (w1 := set_aw_pc _ w).
    destruct (perform_same op o w1) as (-> & _ & _ & -> & -> & _). split; [done|].
    simpl. destruct last; simpl; lia.
Qed.

(** A sealed audit finishes: whatever the file operations do, a bounded number of
    steps of the writer leads to a result. *)
Theorem audit_drains raw calls w outcomes :
  audit_run raw calls w -> aw_sealed w = true -> (work w <= length outcomes)%nat ->
  exists e, seal_result (run_many outcomes w) = Some e.
Proof.
  intros Hrun Hseal Hlen. apply audit_reachable in Hrun as (accepted & taken & Hinv).
  revert w taken Hinv Hseal Hlen. induction outcomes as [|o outcomes IH]; intros w taken Hinv Hseal Hlen.
  - exists (aw_err w). simpl in *. unfold work, seal_result, Finished in *.
    destruct (aw_pc w) as [| |? []|]; simpl in Hlen; try lia. done.
  - destruct (run_step_works _ _ _ _ _ o Hinv Hseal) as [Hd|(w' & Hstep & Hseal' & Hw)].
    + exists (aw_err w). simpl. unfold run_step, seal_result, Finished. by rewrite Hd, ?Hd.
    + simpl. rewrite Hstep. destruct (audit_inv_run _ _ _ _ _ o w' Hinv Hstep) as [taken' Hinv'].
      apply (IH w' taken' Hinv' Hseal'). simpl in Hlen. lia.
Qed.

(** * Concrete runs *)

Module AuditDemo.
Definition line (s : string) : record :=
  {| marshal n _ := inl (to_bytes (itoa n +:+ s +:+ nl)); RenderRaw n _ := inl (to_bytes s) |}.
Definition queued : AuditWriter := Seal (Enqueue (line "x") "t" (NewAuditWriter true)).
Definition calls : list (record * string) := [(line "x", "t")].
Lemma queued_run : audit_run true calls queued.
Proof.
  change calls with (([] ++ calls) ++ []). eapply run_more; [|apply step_seal].
  eapply run_more; [apply run_start|apply step_enqueue].
Qed.

Definition wrote (n : nat) : outcome := {| oc_written := n; oc_err := None |}.
Definition outcomes : list outcome :=
  map wrote [0; 0; 3; 1; 0; 0; 0; 0; 0; 0; 0; 0; 0; 0; 0; 0]%nat.

Lemma run_many_reaches raw calls w outcomes :
  audit_run raw calls w -> audit_run raw calls (run_many outcomes w).
Proof.
  revert w. induction outcomes as [|o outcomes IH]; intros w Hw; simpl; [done|].
  destruct (run_step o w) as [w'|] eqn:Hs; [|done]. apply IH. rewrite <- (app_nil_r calls).
  eapply run_more; [done|]. by eapply step_run.
Qed.
End AuditDemo.

Lemma audit_evidence_complete_witness :
  seal_result (run_many AuditDemo.outcomes AuditDemo.queued) = Some None /\
  evidence_complete true AuditDemo.calls (run_many AuditDemo.outcomes AuditDemo.queued).
Proof.
  split; [vm_compute; reflexivity|].
  exact (audit_evidence_complete true AuditDemo.calls
    (run_many AuditDemo.outcomes AuditDemo.queued)
    (AuditDemo.run_many_reaches _ _ _ _ AuditDemo.queued_run) ltac:(vm_compute; reflexivity)).
Defined.

Lemma audit_bounded_and_sequenced_witness :
  exists accepted, accepted `sublist_of` AuditDemo.calls /\
    aw_sequence AuditDemo.queued = Z.of_nat (length accepted).
Proof.
  destruct (audit_bounded_and_sequenced true AuditDemo.calls AuditDemo.queued AuditDemo.queued_run)
    as (accepted & _ & Ha & Hs & _). exists accepted. exact (conj Ha Hs).
Defined.

Lemma audit_error_is_final_witness :
  aw_err (Enqueue (AuditDemo.line "y") "t" AuditDemo.queued) <> None.
Proof.
  exact (proj2 (proj2 (proj2 (audit_error_is_final AuditDemo.queued _ _
    (step_enqueue (AuditDemo.line "y") "t" AuditDemo.queued)) eq_refl)) ltac:(discriminate)).
Defined.

Lemma audit_drains_witness :
  exists e, seal_result (run_many AuditDemo.outcomes AuditDemo.queued) = Some e.
Proof.
  exact (audit_drains true AuditDemo.calls AuditDemo.queued AuditDemo.outcomes
    AuditDemo.queued_run eq_refl ltac:(vm_compute; lia)).
Defined.
