(* ===== verification/AuditText.v ===== *)
(** The text helpers of [pkg/bridge/internal/bridgekit]: the escaping of the raw
    log (audit.go), [SafeStructuredText], [ValidWorkdir] (workdir.go) and
    [HasCancellationCause] and [EnsurePrivateDirectory] (files.go). *)

From S2P Require Import Prelude Utf8 Trace.

(** [MaxRecordedInputBytes] of audit.go. *)
Definition MaxRecordedInputBytes : Z := 16 * 2 ^ 20.

(** * The record of one call *)

(** [ToolCallRecord] of audit.go. *)
Record ToolCallRecord := {
  tc_SandboxID : string;
  tc_Sequence : Z;
  tc_Timestamp : string;
  tc_ContainerID : string;
  tc_ContainerName : string;
  tc_OperationClass : string;
  tc_WorkspaceHome : string;
  tc_Environment : list string;
  tc_Path : string;
  tc_Workdir : string;
  tc_CommandHash : string;
  tc_Command : string;
  tc_Argv : list string;
  tc_Stdin : string;
  tc_StdinEncoding : string;
  tc_StdinBytes : Z;
  tc_StdoutBytes : Z;
  tc_StderrBytes : Z;
  tc_ExitCode : Z;
  tc_StartedAt : string;
  tc_DurationMS : Z;
  tc_Status : string;
  tc_Error : string;
  tc_RunID : string;
  tc_TaskID : string;
  tc_ToolCallID : string
}.

(** [Stamp]. *)
Definition Stamp (sequence : Z) (timestamp : string) (r : ToolCallRecord) : ToolCallRecord :=
  {| tc_SandboxID := tc_SandboxID r;
     tc_Sequence := sequence;
     tc_Timestamp := timestamp;
     tc_ContainerID := tc_ContainerID r;
     tc_ContainerName := tc_ContainerName r;
     tc_OperationClass := tc_OperationClass r;
     tc_WorkspaceHome := tc_WorkspaceHome r;
     tc_Environment := tc_Environment r;
     tc_Path := tc_Path r;
     tc_Workdir := tc_Workdir r;
     tc_CommandHash := tc_CommandHash r;
     tc_Command := tc_Command r;
     tc_Argv := tc_Argv r;
     tc_Stdin := tc_Stdin r;
     tc_StdinEncoding := tc_StdinEncoding r;
     tc_StdinBytes := tc_StdinBytes r;
     tc_StdoutBytes := tc_StdoutBytes r;
     tc_StderrBytes := tc_StderrBytes r;
     tc_ExitCode := tc_ExitCode r;
     tc_StartedAt := tc_StartedAt r;
     tc_DurationMS := tc_DurationMS r;
     tc_Status := tc_Status r;
     tc_Error := tc_Error r;
     tc_RunID := tc_RunID r;
     tc_TaskID := tc_TaskID r;
     tc_ToolCallID := tc_ToolCallID r |}.

(** The identity fields every transport fills in. *)
Definition with_target (sandboxID containerID containerName runID taskID : string) (r : ToolCallRecord) : ToolCallRecord :=
  {| tc_SandboxID := sandboxID;
     tc_Sequence := tc_Sequence r;
     tc_Timestamp := tc_Timestamp r;
     tc_ContainerID := containerID;
     tc_ContainerName := containerName;
     tc_OperationClass := tc_OperationClass r;
     tc_WorkspaceHome := tc_WorkspaceHome r;
     tc_Environment := tc_Environment r;
     tc_Path := tc_Path r;
     tc_Workdir := tc_Workdir r;
     tc_CommandHash := tc_CommandHash r;
     tc_Command := tc_Command r;
     tc_Argv := tc_Argv r;
     tc_Stdin := tc_Stdin r;
     tc_StdinEncoding := tc_StdinEncoding r;
     tc_StdinBytes := tc_StdinBytes r;
     tc_StdoutBytes := tc_StdoutBytes r;
     tc_StderrBytes := tc_StderrBytes r;
     tc_ExitCode := tc_ExitCode r;
     tc_StartedAt := tc_StartedAt r;
     tc_DurationMS := tc_DurationMS r;
     tc_Status := tc_Status r;
     tc_Error := tc_Error r;
     tc_RunID := runID;
     tc_TaskID := taskID;
     tc_ToolCallID := tc_ToolCallID r |}.

(** * The raw log's escaping *)

Definition TAB : ascii := "009"%char.
Definition BACKSLASH : ascii := "\"%char.

(** [writeHexEscapes]. *)
Definition upper_hex (n : N) : ascii := ascii_of_N (if (n <? 10)%N then 48 + n else 55 + n).
Definition hex_escape (c : ascii) : bytes :=
  [BACKSLASH; "x"%char; upper_hex (N_of_ascii c / 16); upper_hex (N_of_ascii c mod 16)].
Definition writeHexEscapes (value : bytes) : bytes := flat_map hex_escape value.

Section Escape.
(** [unicode.IsPrint]. *)
Variable IsPrint : Z -> bool.

(** One turn of the loop of [writeEscapedRaw]: a special byte is a chunk of its
    own, since it is ASCII. *)
Definition escape_chunk (chunk : Z * bytes) : bytes :=
  let plain := if IsPrint chunk.1 then chunk.2 else writeHexEscapes chunk.2 in
  match chunk.2 with
  | [c] =>
      if Ascii.eqb c BACKSLASH then [BACKSLASH; BACKSLASH]
      else if Ascii.eqb c NL then [BACKSLASH; "n"%char]
      else if Ascii.eqb c CR then [BACKSLASH; "r"%char]
      else if Ascii.eqb c TAB then [BACKSLASH; "t"%char]
      else if invalid_chunk chunk then writeHexEscapes [c]
      else plain
  | _ => plain
  end.
Definition writeEscapedRaw (value : bytes) : bytes := flat_map escape_chunk (chunks value).

(** [WriteRawBytesField] and [WriteRawField]. *)
Definition WriteRawBytesField (key : string) (value : bytes) : bytes :=
  to_bytes key ++ ["="%char] ++ writeEscapedRaw value ++ [NL].
Definition WriteRawField (key value : string) : bytes := WriteRawBytesField key (to_bytes value).

(** An entry of a raw log: its begin line, its fields in order and its end line. *)
Definition render_fields (begin_line end_line : bytes) (fields : list (string * bytes)) : bytes :=
  begin_line ++ [NL] ++ concat (map (fun field => WriteRawBytesField field.1 field.2) fields) ++
  end_line ++ [NL].
End Escape.
Definition bool_text (b : bool) : string := if b then "true" else "false".

(** A reader of the escapes, the specification of what the raw log preserves. *)
Definition hex_value (c : ascii) : option N :=
  let n := N_of_ascii c in
  if (48 <=? n)%N && (n <=? 57)%N then Some (n - 48)%N
  else if (65 <=? n)%N && (n <=? 70)%N then Some (n - 55)%N else None.
Fixpoint unescape (value : bytes) : option bytes :=
  match value with
  | [] => Some []
  | c :: rest =>
      if Ascii.eqb c BACKSLASH then
        match rest with
        | e :: rest' =>
            if Ascii.eqb e BACKSLASH then cons BACKSLASH <$> unescape rest'
            else if Ascii.eqb e "n" then cons NL <$> unescape rest'
            else if Ascii.eqb e "r" then cons CR <$> unescape rest'
            else if Ascii.eqb e "t" then cons TAB <$> unescape rest'
            else if Ascii.eqb e "x" then
              match rest' with
              | h :: l :: rest'' =>
                  match hex_value h, hex_value l with
                  | Some h, Some l => cons (ascii_of_N (16 * h + l)) <$> unescape rest''
                  | _, _ => None
                  end
              | _ => None
              end
            else None
        | [] => None
        end
      else cons c <$> unescape rest
  end.

(** * Other text checks *)

(** [SafeStructuredText]. *)
Definition SafeStructuredText (content : bytes) : bool :=
  Valid content &&
  forallb (fun chunk => negb (IsControl chunk.1) || (chunk.1 =? 9) || (chunk.1 =? 10) ||
                        (chunk.1 =? 13)) (chunks content).

(** [ValidWorkdir]; a rune outside ASCII is refused by every one of its bytes. *)
Definition workdir_byte (c : ascii) : bool :=
  is_alnum c || Ascii.eqb c "."%char || Ascii.eqb c "_"%char || Ascii.eqb c "-"%char.
Definition workdir_component (component : bytes) : bool :=
  negb (bool_decide (component = []) || bool_decide (component = ["."%char]) ||
        bool_decide (component = ["."%char; "."%char])) &&
  forallb workdir_byte component.
Definition ValidWorkdir (value : string) : bool :=
  let v := to_bytes value in
  bool_decide (v = ["/"%char]) ||
  match v with
  | "/"%char :: rest =>
      negb (length v <? 2)%nat && negb (bool_decide (last v = Some "/"%char)) &&
      forallb workdir_component (split_bytes "/" rest)
  | _ => false
  end.

(** [HasCancellationCause]. *)
Definition HasCancellationCause (e : error) : bool :=
  error_Is e Canceled || error_Is e DeadlineExceeded.

(** [EnsurePrivateDirectory] over the file system calls it makes. *)
Record DirectoryFS (W : Type) := {
  os_MkdirAll : string -> M W error;
  EvalSymlinks : string -> M W (string + err);
  filepath_Abs : string -> M W (string + err);
  os_Chmod : string -> Z -> M W error
}.
Arguments os_MkdirAll {W}.
Arguments EvalSymlinks {W}.
Arguments filepath_Abs {W}.
Arguments os_Chmod {W}.
Definition EnsurePrivateDirectory {W} (fs : DirectoryFS W) (path : string) : M W error :=
  let* e := os_MkdirAll fs path in
  match e with Some e => ret (Some e) | None =>
  let* resolved := EvalSymlinks fs path in
  match resolved with inr e => ret (Some e) | inl resolved =>
  let* absolute := filepath_Abs fs path in
  match absolute with inr e => ret (Some e) | inl absolute =>
  if negb (String.eqb resolved absolute)
  then ret (Some (ENew "directory path contains a symbolic link"))
  else os_Chmod fs path 448
  end end end.

(** * Facts about chunks *)

(** * The escaping is reversible and keeps a field on one line *)

Lemma hex_value_upper (n : N) : (n < 16)%N -> hex_value (upper_hex n) = Some n.
Proof.
  intros Hn. assert (n ∈ map N.of_nat (seq 0 16)) as Hin.
  { apply list_elem_of_fmap. exists (N.to_nat n). split; [lia|]. apply elem_of_seq. lia. }
  apply list_elem_of_In in Hin. simpl in Hin.
  by repeat (destruct Hin as [<-|Hin]; [reflexivity|]).
Qed.

Lemma unescape_hex (value rest : bytes) :
  unescape (writeHexEscapes value ++ rest) = app value <$> unescape rest.
Proof.
  induction value as [|c value IH]; simpl; [by destruct (unescape rest)|].
  pose proof (N_ascii_bounded c) as Hc.
  rewrite !hex_value_upper by (first [apply N.Div0.div_lt_upper_bound; lia|apply N.mod_lt; lia]).
  rewrite IH, <- (N.div_mod (N_of_ascii c) 16), ascii_N_embedding by done.
  by destruct (unescape rest).
Qed.

Lemma unescape_plain (value rest : bytes) :
  Forall (fun c => c <> BACKSLASH) value ->
  unescape (value ++ rest) = app value <$> unescape rest.
Proof.
  induction 1 as [|c value Hc _ IH]; simpl; [by destruct (unescape rest)|].
  rewrite (proj2 (Ascii.eqb_neq c BACKSLASH) Hc), IH. by destruct (unescape rest).
Qed.

Lemma high_not_ascii (c x : ascii) : 128 <= byte_of c -> byte_of x < 128 -> c <> x.
Proof. intros ?? ->. lia. Qed.

Lemma unescape_chunk IsPrint (chunk : Z * bytes) (rest : bytes) :
  (exists c, chunk.2 = [c]) \/ Forall (fun c => 128 <= byte_of c) chunk.2 ->
  unescape (escape_chunk IsPrint chunk ++ rest) = app chunk.2 <$> unescape rest.
Proof.
  intros Hshape. unfold escape_chunk.
  assert (Forall (fun c => c <> BACKSLASH) chunk.2 ->
    unescape ((if IsPrint chunk.1 then chunk.2 else writeHexEscapes chunk.2) ++ rest) =
    app chunk.2 <$> unescape rest) as Hplain.
  { intros Hp. destruct (IsPrint chunk.1); [by apply unescape_plain|apply unescape_hex]. }
  destruct Hshape as [[c Hc]|Hhigh].
  - rewrite Hc in *.
    destruct (Ascii.eqb_spec c BACKSLASH) as [->|Hb]; [reflexivity|].
    destruct (Ascii.eqb_spec c NL) as [->|]; [reflexivity|].
    destruct (Ascii.eqb_spec c CR) as [->|]; [reflexivity|].
    destruct (Ascii.eqb_spec c TAB) as [->|]; [reflexivity|].
    destruct (invalid_chunk chunk); [apply unescape_hex|]. apply Hplain. by repeat constructor.
  - assert (Forall (fun c => c <> BACKSLASH) chunk.2) as Hp.
    { eapply Forall_impl; [exact Hhigh|]. intros c Hc. by apply (high_not_ascii c BACKSLASH). }
    destruct chunk.2 as [|c [|c' bs]] eqn:Hbs; rewrite ?Hbs in *; try by apply Hplain.
    inv Hhigh.
    rewrite !(proj2 (Ascii.eqb_neq c _)) by (by apply high_not_ascii).
    destruct (invalid_chunk chunk); [apply unescape_hex|by apply Hplain].
Qed.

(** Bytes that a line reader leaves alone. *)
Definition inline (c : ascii) : Prop := c <> NL /\ c <> CR /\ c <> TAB.

Lemma upper_hex_inline (n : N) : (n < 16)%N -> inline (upper_hex n).
Proof.
  intros Hn. assert (n ∈ map N.of_nat (seq 0 16)) as Hin.
  { apply list_elem_of_fmap. exists (N.to_nat n). split; [lia|]. apply elem_of_seq. lia. }
  apply list_elem_of_In in Hin. simpl in Hin.
  by repeat (destruct Hin as [<-|Hin]; [repeat split; discriminate|]).
Qed.

Lemma hex_inline (value : bytes) : Forall inline (writeHexEscapes value).
Proof.
  induction value as [|c value IH]; simpl; [constructor|].
  pose proof (N_ascii_bounded c) as Hc.
  repeat (constructor; [first [apply upper_hex_inline;
    first [apply N.Div0.div_lt_upper_bound; lia|apply N.mod_lt; lia]|repeat split; discriminate]|]).
  done.
Qed.

Lemma chunk_inline IsPrint (chunk : Z * bytes) :
  (exists c, chunk.2 = [c]) \/ Forall (fun c => 128 <= byte_of c) chunk.2 ->
  Forall inline (escape_chunk IsPrint chunk).
Proof.
  intros Hshape. unfold escape_chunk.
  assert (Forall inline chunk.2 ->
    Forall inline (if IsPrint chunk.1 then chunk.2 else writeHexEscapes chunk.2)) as Hplain.
  { intros Hp. destruct (IsPrint chunk.1); [done|apply hex_inline]. }
  assert (Forall (fun c => 128 <= byte_of c) chunk.2 -> Forall inline chunk.2) as Hhigh.
  { intros Hf. eapply Forall_impl; [exact Hf|]. intros c Hc. repeat split; by apply high_not_ascii. }
  destruct Hshape as [[c Hc]|Hh].
  - rewrite Hc in *.
    destruct (Ascii.eqb_spec c BACKSLASH) as [->|Hb]; [repeat constructor; discriminate|].
    destruct (Ascii.eqb_spec c NL) as [->|]; [repeat constructor; discriminate|].
    destruct (Ascii.eqb_spec c CR) as [->|]; [repeat constructor; discriminate|].
    destruct (Ascii.eqb_spec c TAB) as [->|]; [repeat constructor; discriminate|].
    destruct (invalid_chunk chunk); [apply hex_inline|]. apply Hplain. by repeat constructor.
  - specialize (Hhigh Hh). destruct chunk.2 as [|c [|c' bs]] eqn:Hbs; try by apply Hplain.
    inv Hh. rewrite !(proj2 (Ascii.eqb_neq c _)) by (by apply high_not_ascii).
    destruct (invalid_chunk chunk); [apply hex_inline|by apply Hplain].
Qed.

Lemma unescape_writeEscapedRaw IsPrint (value : bytes) :
  unescape (writeEscapedRaw IsPrint value) = Some value.
Proof.
  unfold writeEscapedRaw. rewrite <- (chunks_concat value) at 2.
  induction (chunks_shape value) as [|chunk cs Hshape _ IH]; simpl; [done|].
  by rewrite unescape_chunk, IH.
Qed.

Lemma writeEscapedRaw_inline IsPrint (value : bytes) : Forall inline (writeEscapedRaw IsPrint value).
Proof.
  unfold writeEscapedRaw. induction (chunks_shape value) as [|chunk cs Hshape _ IH]; simpl;
    [constructor|]. apply Forall_app. split; [by apply chunk_inline|done].
Qed.

Lemma inline_no_newline (value : bytes) : Forall inline value -> NL ∉ value.
Proof. rewrite Forall_forall. intros H Hin. by destruct (H NL Hin). Qed.

(** An entry of a raw log is its begin line, one line per field and its end line,
    whatever the field values hold. *)
Lemma render_fields_lines IsPrint begin_line end_line (fields : list (string * bytes)) :
  NL ∉ begin_line -> NL ∉ end_line ->
  Forall (fun field : string * bytes => NL ∉ to_bytes field.1) fields ->
  exists escaped : list bytes,
    split_bytes NL (render_fields IsPrint begin_line end_line fields) =
      begin_line ::
      zip_with (fun (field : string * bytes) value => to_bytes field.1 ++ "="%char :: value)
        fields escaped ++ [end_line; []] /\
    Forall2 (fun (field : string * bytes) value => unescape value = Some field.2) fields escaped.
Proof.
  intros Hb He Hkeys. exists (map (fun field => writeEscapedRaw IsPrint field.2) fields). split.
  - unfold render_fields. cbn [app]. rewrite split_bytes_sep by done. f_equal.
    induction Hkeys as [|[key value] fields Hk Hks IH]; cbn [map concat zip_with fst snd].
    + cbn [app]. by rewrite split_bytes_sep.
    + unfold WriteRawBytesField. rewrite <- !app_assoc. cbn [app].
      match goal with |- split_bytes NL (to_bytes key ++ ?e :: ?v ++ NL :: ?rest) = _ =>
        replace (to_bytes key ++ e :: v ++ NL :: rest) with ((to_bytes key ++ e :: v) ++ NL :: rest)
          by (by rewrite <- app_assoc) end.
      rewrite split_bytes_sep; [by f_equal|].
      pose proof (inline_no_newline _ (writeEscapedRaw_inline IsPrint value)). set_solver.
  - apply Forall2_fmap_r. apply Forall_Forall2_diag. apply Forall_forall.
    intros field _. apply unescape_writeEscapedRaw.
Qed.

(** A field of the raw log is one line, and its value reads back exactly: newlines,
    tabs, carriage returns, backslashes, invalid encodings and unprintable runes are
    escaped reversibly. *)
Theorem raw_escaping_roundtrip IsPrint (key : string) (value : bytes) :
  exists escaped,
    WriteRawBytesField IsPrint key value = to_bytes key ++ "="%char :: escaped ++ [NL] /\
    Forall inline escaped /\ unescape escaped = Some value.
Proof.
  exists (writeEscapedRaw IsPrint value).
  split_and!; [done|apply writeEscapedRaw_inline|apply unescape_writeEscapedRaw].
Qed.

(** * Workdirs *)

Lemma workdir_component_spec (component : bytes) :
  workdir_component component = true <->
  component <> [] /\ component <> ["."%char] /\ component <> ["."%char; "."%char] /\
  forallb workdir_byte component = true.
Proof.
  unfold workdir_component. rewrite andb_true_iff, negb_true_iff, !orb_false_iff.
  rewrite !bool_decide_eq_false. tauto.
Qed.

Lemma slash_not_workdir (component : bytes) :
  forallb workdir_byte component = true -> "/"%char ∉ component.
Proof. rewrite forallb_Forall, Forall_forall. intros H Hin. by apply H in Hin. Qed.

Lemma last_join (sep : ascii) (parts : list bytes) :
  parts <> [] -> Forall (fun part => part <> [] /\ sep ∉ part) parts ->
  exists c, last (join_bytes sep parts) = Some c /\ c <> sep.
Proof.
  intros Hne Hall. induction Hall as [|part parts [Hp Hs] Hall IH]; [done|].
  destruct parts as [|part' parts]; simpl.
  - destruct (last part) as [c|] eqn:Hl; [|by apply last_None in Hl].
    exists c. split; [done|]. intros ->. apply Hs. apply last_Some in Hl as [l ->]. set_solver.
  - destruct IH as (c & Hl & Hc); [done|]. exists c. split; [|done].
    rewrite last_app_cons, last_cons. simpl in Hl. by rewrite Hl.
Qed.

(** A workdir is accepted exactly when it is the root, or one or more components each
    after a slash, none empty, a dot or two dots, of letters, digits, dot, underscore
    and hyphen: no character that a shell treats specially. *)
Theorem ValidWorkdir_spec (value : string) :
  ValidWorkdir value = true <->
  value = "/"%string \/
  exists components, components <> [] /\
    to_bytes value = concat (map (fun component => "/"%char :: component) components) /\
    Forall (fun component => component <> [] /\ component <> ["."%char] /\
              component <> ["."%char; "."%char] /\ forallb workdir_byte component = true) components.
Proof.
  unfold ValidWorkdir. rewrite orb_true_iff, bool_decide_eq_true. split.
  - intros [Hv|Hv].
    + left. by apply to_bytes_inj.
    + right. destruct (to_bytes value) as [|c rest] eqn:Hval; [done|].
      destruct (decide (c = "/"%char)) as [->|Hc].
      2: { exfalso. destruct c as [[] [] [] [] [] [] [] []]; done. }
      apply andb_true_iff in Hv as [_ Hcomp]. exists (split_bytes "/" rest).
      split_and!; [apply split_bytes_nonempty| |].
      * rewrite concat_join, join_split by apply split_bytes_nonempty. done.
      * apply forallb_Forall in Hcomp. eapply Forall_impl; [exact Hcomp|].
        intros component. apply workdir_component_spec.
  - intros [->|(components & Hne & Hval & Hall)]; [by left|]. right.
    rewrite Hval, concat_join by done.
    assert (Forall (fun part => part <> [] /\ "/"%char ∉ part) components) as Hparts.
    { eapply Forall_impl; [exact Hall|]. intros component (? & _ & _ & ?).
      split; [done|by apply slash_not_workdir]. }
    destruct (last_join "/" components Hne Hparts) as (c & Hlast & Hc).
    assert (join_bytes "/" components <> []) as Hj by (intros Hj; by rewrite Hj in Hlast).
    rewrite !andb_true_iff, !negb_true_iff. split_and!.
    + apply Nat.ltb_ge. destruct (join_bytes "/" components); simpl; [done|lia].
    + apply bool_decide_eq_false. rewrite last_cons, Hlast. congruence.
    + rewrite split_join; [|done|by eapply Forall_impl; [exact Hparts|naive_solver]].
      apply forallb_Forall. eapply Forall_impl; [exact Hall|].
      intros component. apply workdir_component_spec.
Qed.
