(* ===== verification/GrpcStreams.v ===== *)
(** The byte streams of the gRPC bridge ([pkg/bridge/grpc], files.go and
    audit.go): the line window of [ReadLines], the batching of stream messages,
    the audited sink, the body of a [WriteFile] stream and the bounded capture of
    command output. *)

From S2P Require Import Prelude Utf8 Trace AuditText.

(** * readLines *)

(** [bufio.Reader.ReadSlice] for a newline, over a source that delivers all of
    [data] and then fails with [final], io.EOF at its end.  [size] is the
    buffer's. *)
Fixpoint index_newline (data : bytes) : option nat :=
  match data with
  | [] => None
  | c :: data => if Ascii.eqb c NL then Some 0%nat else S <$> index_newline data
  end.
Definition ReadSlice (final : err) (size : nat) (data : bytes) : bytes * error * bytes :=
  match index_newline (take size data) with
  | Some i => (take (S i) data, None, drop (S i) data)
  | None =>
      if (size <=? length data)%nat then (take size data, Some (ESentinel ErrBufferFull), drop size data)
      else (data, Some final, [])
  end.

Definition min_buffer_size : nat := 4096.

(** [ReadLinesSummary], less the size that [ReadLines] adds. *)
Record ReadLinesSummary := { sm_TotalLines : Z; sm_EndsWithNewline : bool; sm_More : bool }.

(** [bytes.CutSuffix] of one newline. *)
Definition cut_newline (chunk : bytes) : bytes * bool :=
  match last chunk with
  | Some c => if Ascii.eqb c NL then (removelast chunk, true) else (chunk, false)
  | None => (chunk, false)
  end.

Section ReadLines.
Context {W : Type}.
Variable window_Write : bytes -> M W error.
Variables first count clamp : Z.
Variable final : err.

(** The part of a chunk's line that the clamp keeps, [written] bytes being kept
    already. *)
Definition clamp_body (written : Z) (body : bytes) : bytes :=
  if (0 <? clamp) && (clamp - written <? Z.of_nat (length body))
  then take (Z.to_nat (Z.max (clamp - written) 0)) body else body.

(** The writes for one chunk, and the new [written]. *)
Definition write_chunk (total written : Z) (chunk : bytes) : M W (error * Z) :=
  let line := total + 1 in
  if (first <=? line) && (line - first <? count) then
    let (body, newline) := cut_newline chunk in
    let body := clamp_body written body in
    let* e := window_Write body in
    match e with
    | Some _ => ret (e, written)
    | None =>
        let written := written + Z.of_nat (length body) in
        if newline then let* e := window_Write [NL] in ret (e, written)
        else ret (None, written)
    end
  else ret (None, written).

(** The loop; [fuel] bounds the number of chunks. *)
Fixpoint readLines_loop (fuel : nat) (size : nat) (data : bytes) (total written : Z)
    (lastByte : ascii) : M W (option ReadLinesSummary * error) :=
  match fuel with
  | O => ret (None, Some (ENew "out of fuel"))
  | S fuel =>
      let '(chunk, err, rest) := ReadSlice final size data in
      let* (e, total, written, lastByte) :=
        match last chunk with
        | None => ret (None, total, written, lastByte)
        | Some lastByte =>
            let* (e, written) := write_chunk total written chunk in
            ret (e, if Ascii.eqb lastByte NL then total + 1 else total,
                 if Ascii.eqb lastByte NL then 0 else written, lastByte)
        end in
      match e with
      | Some _ => ret (None, e)
      | None =>
          if error_Is err ErrBufferFull then readLines_loop fuel size rest total written lastByte
          else if error_Is err ErrEOF then
            ret (Some {| sm_TotalLines := total;
                         sm_EndsWithNewline := Ascii.eqb lastByte NL;
                         sm_More := count <=? total - first |}, None)
          else match err with
               | Some _ => ret (None, err)
               | None => readLines_loop fuel size rest total written lastByte
               end
      end
  end.

Definition readLines (data : bytes) : M W (option ReadLinesSummary * error) :=
  readLines_loop (S (length data)) min_buffer_size data 0 0 NUL.
End ReadLines.

(** ** The specification: [sed -n 'first,lastp' | cut -b1-clamp], [wc -l] *)

(** The lines of a file, each with whether a newline ends it. *)
Fixpoint line_list (parts : list bytes) : list (bytes * bool) :=
  match parts with
  | [] => []
  | [part] => if decide (part = []) then [] else [(part, false)]
  | part :: rest => (part, true) :: line_list rest
  end.
Definition text_lines (data : bytes) : list (bytes * bool) := line_list (split_bytes NL data).

Definition cut_line (clamp : Z) (line : bytes * bool) : bytes :=
  (if 0 <? clamp then take (Z.to_nat clamp) line.1 else line.1) ++ (if line.2 then [NL] else []).

Definition window_spec (first count clamp : Z) (data : bytes) : bytes :=
  concat (map (cut_line clamp)
    (take (Z.to_nat count) (drop (Z.to_nat (first - 1)) (text_lines data)))).

Definition newlines (data : bytes) : Z := Z.of_nat (length (List.filter (Ascii.eqb NL) data)).

(** * Message batching *)

Definition chunkBytes : nat := Z.to_nat (64 * 2 ^ 10).

Section Chunks.
Context {W : Type}.
Variable send : bytes -> M W error.

(** [chunkWriter.flush]: the error and the new pending buffer. *)
Definition chunk_flush (pending : bytes) : M W (error * bytes) :=
  match pending with
  | [] => ret (None, [])
  | _ => let* e := send pending in ret (e, [])
  end.

(** [chunkWriter.Write]: what was accepted, the error, and the pending buffer. *)
Fixpoint chunk_loop (fuel : nat) (total : nat) (content pending : bytes) :
    M W (nat * error * bytes) :=
  match fuel, content with
  | S fuel, _ :: _ =>
      let n := Nat.min (chunkBytes - length pending) (length content) in
      let pending := pending ++ take n content in
      let content := drop n content in
      if (length pending =? chunkBytes)%nat then
        let* (e, pending) := chunk_flush pending in
        match e with
        | Some _ => ret ((total - length content)%nat, e, pending)
        | None => chunk_loop fuel total content pending
        end
      else chunk_loop fuel total content pending
  | _, _ => ret (total, None, pending)
  end.
Definition chunk_Write (content pending : bytes) : M W (nat * error * bytes) :=
  chunk_loop (length content) (length content) content pending.

(** A sequence of writes and the final flush, as [io.Copy] and the handlers do. *)
Fixpoint chunk_copy (pieces : list bytes) (pending : bytes) : M W error :=
  match pieces with
  | [] => let* (e, _) := chunk_flush pending in ret e
  | piece :: pieces =>
      let* (_, e, pending) := chunk_Write piece pending in
      match e with Some _ => ret e | None => chunk_copy pieces pending end
  end.
End Chunks.

(** * The audited sink *)


(** [contentSink], its hash by the bytes it was given. *)
Record contentSink := {
  sk_hash : bytes;
  sk_keep : bool;
  sk_kept : bytes;
  sk_count : Z
}.
Definition newSink (keep : bool) : contentSink :=
  {| sk_hash := []; sk_keep := keep; sk_kept := []; sk_count := 0 |}.

(** The state change of [Write] once [next] accepted the content. *)
Definition sink_absorb (content : bytes) (sink : contentSink) : contentSink :=
  let count := sk_count sink + Z.of_nat (length content) in
  let hash := sk_hash sink ++ content in
  if sk_keep sink && (count <=? MaxRecordedInputBytes)
  then {| sk_hash := hash; sk_keep := true; sk_kept := sk_kept sink ++ content; sk_count := count |}
  else if sk_keep sink
  then {| sk_hash := hash; sk_keep := false; sk_kept := []; sk_count := count |}
  else {| sk_hash := hash; sk_keep := false; sk_kept := sk_kept sink; sk_count := count |}.

(** [Write], over the writer it passes content on to, whose state is an [N]. *)
Definition sink_Write {W N : Type} (next : option (bytes -> N -> M W (nat * error * N)))
    (content : bytes) (sink : contentSink) (n : N) : M W (nat * error * contentSink * N) :=
  let* (written, e, n) :=
    match next with Some next => next content n | None => ret (length content, None, n) end in
  match e with
  | Some _ => ret (written, e, sink, n)
  | None => ret (length content, None, sink_absorb content sink, n)
  end.

(** * The body of a WriteFile stream *)

(** What [recv] gives: a message, with a header or not, or an error; the client's
    half-close is io.EOF. *)
Inductive received :=
  | Message (header : bool) (chunk : bytes)
  | RecvError (e : err).

(** [streamReader]: what remains of the announced size, the bytes not read yet,
    and the sink. *)
Record streamReader := { sr_remaining : Z; sr_pending : bytes; sr_sink : contentSink }.

(** [Read] into a buffer of [n] bytes, over the messages still to come. *)
Fixpoint stream_Read (n : nat) (messages : list received) (reader : streamReader) :
    bytes * error * streamReader * list received :=
  match sr_pending reader with
  | _ :: _ =>
      (take n (sr_pending reader), None,
       {| sr_remaining := sr_remaining reader; sr_pending := drop n (sr_pending reader);
          sr_sink := sr_sink reader |}, messages)
  | [] =>
      match messages with
      | [] => ([], Some (ENew "receive blocks"), reader, [])
      | RecvError e :: rest =>
          if error_Is (Some e) ErrEOF then
            if negb (sr_remaining reader =? 0)
            then ([], Some (ESentinel ErrWriteStream), reader, rest)
            else ([], Some (ESentinel ErrEOF), reader, rest)
          else ([], Some e, reader, rest)
      | Message header chunk :: rest =>
          if header || (sr_remaining reader <? Z.of_nat (length chunk))
          then ([], Some (ESentinel ErrWriteStream), reader, rest)
          else
            let reader :=
              {| sr_remaining := sr_remaining reader - Z.of_nat (length chunk);
                 sr_pending := chunk; sr_sink := sink_absorb chunk (sr_sink reader) |} in
            match chunk with
            | [] => stream_Read n rest reader
            | _ =>
                (take n chunk, None,
                 {| sr_remaining := sr_remaining reader; sr_pending := drop n chunk;
                    sr_sink := sr_sink reader |}, rest)
            end
      end
  end.

(** The target's reads, with the buffers it chooses, until an error: the content
    it got and the error, if one came. *)
Fixpoint read_body (buffers : list nat) (messages : list received) (reader : streamReader) :
    bytes * error * streamReader :=
  match buffers with
  | [] => ([], None, reader)
  | n :: buffers =>
      let '(content, e, reader, messages) := stream_Read n messages reader in
      match e with
      | Some _ => (content, e, reader)
      | None =>
          let '(rest, e, reader) := read_body buffers messages reader in
          (content ++ rest, e, reader)
      end
  end.

(** * Bounded capture of output *)

(** [boundedWriter] over a buffer that accepts everything. *)
Record boundedWriter := {
  bw_limit : Z;
  bw_retained : bytes;
  bw_total : Z;
  bw_written : Z;
  bw_cut : bool
}.
Definition newBoundedWriter (limit : Z) : boundedWriter :=
  {| bw_limit := limit; bw_retained := []; bw_total := 0; bw_written := 0; bw_cut := false |}.
Definition bounded_Write (content : bytes) (w : boundedWriter) : Z * boundedWriter :=
  let offered := Z.of_nat (length content) in
  let total := bw_total w + offered in
  let remaining := bw_limit w - bw_written w in
  if remaining <=? 0 then
    (offered, {| bw_limit := bw_limit w; bw_retained := bw_retained w; bw_total := total;
                 bw_written := bw_written w; bw_cut := true |})
  else
    let cut := remaining <? offered in
    let content := if cut then take (Z.to_nat remaining) content else content in
    (offered, {| bw_limit := bw_limit w; bw_retained := bw_retained w ++ content; bw_total := total;
                 bw_written := bw_written w + Z.of_nat (length content);
                 bw_cut := bw_cut w || cut |}).

(** * Describing input *)

Definition sizeOmitted (count : Z) : string :=
  "[input omitted; " +:+ itoa count +:+ " bytes exceed the retained bound]".
Definition describeInput (retainsRaw : bool) (content : bytes) (count : Z) : string * string :=
  if Z.of_nat (length content) <? count then (sizeOmitted count, "size-omitted"%string)
  else if SafeStructuredText content then (of_bytes content, "utf-8"%string)
  else if retainsRaw then
    ("[binary input omitted; " +:+ itoa count +:+ " bytes retained in grpc_raw.log]",
     "binary-omitted"%string)
  else ("[binary input omitted; " +:+ itoa count +:+ " bytes not retained]", "binary-omitted"%string).

(** * readLines meets its specification *)

Lemma index_newline_Some data i :
  index_newline data = Some i ->
  NL ∉ take i data /\ data = take i data ++ NL :: drop (S i) data /\ (i < length data)%nat.
Proof.
  revert i. induction data as [|c data IH]; intros i; simpl; [done|].
  destruct (Ascii.eqb_spec c NL) as [->|Hc].
  - intros [= <-]. simpl. rewrite drop_0. split_and!; [apply not_elem_of_nil|done|lia].
  - destruct (index_newline data) as [j|]; [|done]. simpl. intros [= <-].
    destruct (IH j eq_refl) as (Hn & Hd & Hl). simpl. split_and!; [|by rewrite Hd at 1|lia].
    apply not_elem_of_cons. split; [congruence|done].
Qed.

Lemma index_newline_None data : index_newline data = None -> NL ∉ data.
Proof.
  induction data as [|c data IH]; simpl; [intros _; apply not_elem_of_nil|].
  destruct (Ascii.eqb_spec c NL) as [->|Hc]; [done|].
  destruct (index_newline data); [done|]. intros _. apply not_elem_of_cons.
  split; [congruence|by apply IH].
Qed.

(** The three outcomes of [ReadSlice]. *)
Lemma ReadSlice_spec final size data : (0 < size)%nat ->
  (exists body rest, NL ∉ body /\ data = body ++ NL :: rest /\
     ReadSlice final size data = (body ++ [NL], None, rest)) \/
  (exists body rest, NL ∉ body /\ body <> [] /\ data = body ++ rest /\
     ReadSlice final size data = (body, Some (ESentinel ErrBufferFull), rest)) \/
  (NL ∉ data /\ ReadSlice final size data = (data, Some final, [])).
Proof.
  intros Hs. unfold ReadSlice. destruct (index_newline (take size data)) as [i|] eqn:Hi.
  - left. apply index_newline_Some in Hi as (Hn & Hd & Hl). rewrite length_take in Hl.
    rewrite take_take in Hn. replace (Nat.min i size) with i in Hn by lia.
    assert (data !! i = Some NL) as Hnl.
    { assert (take size data !! i = Some NL) as Hx.
      { rewrite Hd, take_take. replace (Nat.min i size) with i by lia.
        rewrite lookup_app_r; rewrite length_take; [|lia].
        by replace (i - Nat.min i (length data))%nat with 0%nat by lia. }
      by rewrite lookup_take_lt in Hx by lia. }
    exists (take i data), (drop (S i) data). split; [done|].
    rewrite (take_S_r data i NL Hnl). split; [|done].
    rewrite <- (take_drop i data) at 1. f_equal. by apply drop_S.
  - right. apply index_newline_None in Hi.
    destruct (Nat.leb_spec size (length data)) as [Hlen|Hlen].
    + left. exists (take size data), (drop size data). split_and!; [done| |by rewrite take_drop|done].
      intros Ht. apply (f_equal length) in Ht. rewrite length_take in Ht. simpl in Ht. lia.
    + right. rewrite take_ge in Hi by lia. done.
Qed.

(** A window that collects what it is given. *)
Definition collect_Write (content : bytes) : M bytes error := fun w => (None, w ++ content).

Section Window.
Variables first count clamp : Z.

Definition in_window (line : Z) : bool := (first <=? line) && (line - first <? count).

(** What the rest of a file gives, its first line continuing one of which
    [written] bytes were kept. *)
Fixpoint window_from (line written : Z) (parts : list bytes) : bytes :=
  match parts with
  | [] => []
  | [part] => if in_window line then clamp_body clamp written part else []
  | part :: rest =>
      (if in_window line then clamp_body clamp written part ++ [NL] else []) ++
      window_from (line + 1) 0 rest
  end.

Lemma clamp_body_take written body :
  0 < clamp -> clamp_body clamp written body = take (Z.to_nat (Z.max (clamp - written) 0)) body.
Proof.
  intros Hc. unfold clamp_body. rewrite (proj2 (Z.ltb_lt 0 clamp) Hc). simpl.
  destruct (Z.ltb_spec (clamp - written) (Z.of_nat (length body))); [done|].
  symmetry. apply take_ge. lia.
Qed.

Lemma clamp_body_app written body p :
  clamp_body clamp written (body ++ p) =
  clamp_body clamp written body ++
  clamp_body clamp (written + Z.of_nat (length (clamp_body clamp written body))) p.
Proof.
  destruct (Z.ltb_spec 0 clamp) as [Hc|Hc].
  - rewrite !clamp_body_take by done. rewrite take_app. f_equal. f_equal.
    rewrite length_take. lia.
  - assert (forall w b, clamp_body clamp w b = b) as Hid.
    { intros w b. unfold clamp_body. by rewrite (proj2 (Z.ltb_ge 0 clamp)). }
    by rewrite !Hid.
Qed.

Lemma cut_newline_line body : cut_newline (body ++ [NL]) = (body, true).
Proof. unfold cut_newline. by rewrite last_snoc, removelast_last. Qed.

Lemma cut_newline_plain body : NL ∉ body -> cut_newline body = (body, false).
Proof.
  intros Hn. unfold cut_newline. destruct (last body) as [c|] eqn:Hl; [|done].
  destruct (Ascii.eqb_spec c NL) as [->|]; [|done].
  exfalso. apply Hn. apply last_Some in Hl as [l ->]. set_solver.
Qed.

(** The writes for a chunk whose line goes on, and for one that ends it. *)
Lemma write_chunk_line total written body w :
  NL ∉ body ->
  exists written', write_chunk collect_Write first count clamp total written (body ++ [NL]) w =
    ((None, written'),
     w ++ if in_window (total + 1) then clamp_body clamp written body ++ [NL] else []).
Proof.
  intros Hn. unfold write_chunk, in_window.
  destruct ((first <=? total + 1) && (total + 1 - first <? count)).
  - rewrite cut_newline_line. unfold bind, collect_Write, ret. simpl.
    eexists. by rewrite <- app_assoc.
  - eexists. by rewrite app_nil_r.
Qed.

Lemma write_chunk_part total written body w :
  NL ∉ body ->
  write_chunk collect_Write first count clamp total written body w =
    ((None, if in_window (total + 1)
            then written + Z.of_nat (length (clamp_body clamp written body)) else written),
     w ++ if in_window (total + 1) then clamp_body clamp written body else []).
Proof.
  intros Hn. unfold write_chunk, in_window.
  destruct ((first <=? total + 1) && (total + 1 - first <? count)).
  - rewrite cut_newline_plain by done. done.
  - by rewrite app_nil_r.
Qed.
Lemma window_from_cons line written part rest :
  rest <> [] ->
  window_from line written (part :: rest) =
  (if in_window line then clamp_body clamp written part ++ [NL] else []) ++
  window_from (line + 1) 0 rest.
Proof. by destruct rest. Qed.

Lemma clamp_body_nil written : clamp_body clamp written [] = [].
Proof. unfold clamp_body. by destruct (_ && _); rewrite ?take_nil. Qed.

(** A line read in two pieces. *)
Lemma window_from_app line written body p ps :
  window_from line written ((body ++ p) :: ps) =
  (if in_window line then clamp_body clamp written body else []) ++
  window_from line (if in_window line
                    then written + Z.of_nat (length (clamp_body clamp written body)) else written)
    (p :: ps).
Proof.
  destruct ps as [|p' ps]; simpl; destruct (in_window line); try done;
    by rewrite clamp_body_app, <- ?app_assoc.
Qed.
End Window.

Lemma newlines_app a b : newlines (a ++ b) = newlines a + newlines b.
Proof. unfold newlines. rewrite List.filter_app, length_app. lia. Qed.

Lemma newlines_none data : NL ∉ data -> newlines data = 0.
Proof.
  induction data as [|c data IH]; intros Hn; [done|].
  apply not_elem_of_cons in Hn as [Hc Hn]. specialize (IH Hn). unfold newlines in *. simpl.
  by rewrite (proj2 (Ascii.eqb_neq NL c) Hc).
Qed.

Lemma newlines_line body rest : NL ∉ body -> newlines (body ++ NL :: rest) = 1 + newlines rest.
Proof.
  intros Hn. rewrite newlines_app, (newlines_none body) by done.
  unfold newlines. cbn [List.filter]. rewrite Ascii.eqb_refl. simpl length. lia.
Qed.

Definition ends_newline (data : bytes) (lastByte : ascii) : bool :=
  Ascii.eqb (default lastByte (last data)) NL.

Lemma ends_newline_line body rest lastByte :
  ends_newline (body ++ NL :: rest) lastByte = ends_newline rest NL.
Proof.
  unfold ends_newline. rewrite last_app_cons, last_cons. by destruct (last rest).
Qed.

Lemma ends_newline_app body rest c lastByte :
  last body = Some c -> ends_newline (body ++ rest) lastByte = ends_newline rest c.
Proof.
  intros Hl. unfold ends_newline. rewrite last_app. by destruct (last rest); [|rewrite Hl].
Qed.

(** What a reader ends with when it ends the file. *)
Definition ends_file (final : err) : Prop :=
  errors_Is final ErrEOF = true /\ errors_Is final ErrBufferFull = false.

Lemma readLines_loop_spec first count clamp final fuel size data total written lastByte w :
  ends_file final -> (length data < fuel)%nat -> (0 < size)%nat ->
  readLines_loop collect_Write first count clamp final fuel size data total written lastByte w =
  ((Some {| sm_TotalLines := total + newlines data;
            sm_EndsWithNewline := ends_newline data lastByte;
            sm_More := count <=? total + newlines data - first |}, None),
   w ++ window_from first count clamp (total + 1) written (split_bytes NL data)).
Proof.
  intros [Heof Hfull] Hfuel Hs. revert data total written lastByte w Hfuel.
  induction fuel as [|fuel IH]; intros data total written lastByte w Hfuel; [lia|].
  cbn [readLines_loop].
  destruct (ReadSlice_spec final size data Hs) as [(body & rest & Hn & -> & ->)|
    [(body & rest & Hn & Hb & -> & ->)|[Hn ->]]].
  - rewrite last_snoc. unfold bind.
    destruct (write_chunk_line first count clamp total written body w Hn) as [written' ->].
    cbn [ret]. unfold ret. rewrite Ascii.eqb_refl.
    cbn [error_Is].
    rewrite IH by (rewrite length_app in Hfuel; simpl in Hfuel; lia).
    rewrite newlines_line, split_bytes_sep, window_from_cons by (done || apply split_bytes_nonempty).
    rewrite ends_newline_line, <- app_assoc.
    replace (total + 1 + newlines rest) with (total + (1 + newlines rest)) by lia. done.
  - destruct (last body) as [c|] eqn:Hl; [|by apply last_None in Hl].
    unfold bind. rewrite write_chunk_part by done. unfold ret.
    assert (c <> NL) as Hc.
    { intros ->. apply Hn. apply last_Some in Hl as [l ->]. set_solver. }
    rewrite (proj2 (Ascii.eqb_neq c NL) Hc). cbn [error_Is errors_Is].
    rewrite bool_decide_eq_true_2 by done.
    assert (0 < length body)%nat by (destruct body; [done|simpl; lia]).
    rewrite IH by (rewrite length_app in Hfuel; lia).
    rewrite newlines_app, (newlines_none body) by done.
    destruct (split_bytes NL rest) as [|p ps] eqn:Hp; [by apply split_bytes_nonempty in Hp|].
    rewrite (split_bytes_app NL body rest p ps) by done.
    rewrite (ends_newline_app body rest c) by done.
    replace (total + newlines rest) with (total + (0 + newlines rest)) by lia.
    f_equal. rewrite <- app_assoc. f_equal. by rewrite window_from_app.
  - rewrite (newlines_none data), split_bytes_plain by done.
    destruct (last data) as [c|] eqn:Hl.
    + unfold bind. rewrite write_chunk_part by done. unfold ret.
      assert (c <> NL) as Hc.
      { intros ->. apply Hn. apply last_Some in Hl as [l ->]. set_solver. }
      rewrite (proj2 (Ascii.eqb_neq c NL) Hc). cbn [error_Is]. rewrite Hfull, Heof.
      unfold ends_newline. rewrite Hl. simpl. rewrite (proj2 (Ascii.eqb_neq c NL) Hc).
      by replace (total + 0) with total by lia.
    + apply last_None in Hl as ->. unfold bind, ret, ends_newline. cbn [error_Is].
      rewrite Hfull, Heof. simpl.
      replace (total + 0) with total by lia. rewrite clamp_body_nil.
      by destruct (in_window _ _ _); rewrite app_nil_r.
Qed.

Lemma clamp_body_whole clamp line :
  clamp_body clamp 0 line = if 0 <? clamp then take (Z.to_nat clamp) line else line.
Proof.
  destruct (Z.ltb_spec 0 clamp) as [Hc|Hc].
  - rewrite clamp_body_take by done. f_equal. lia.
  - unfold clamp_body. by rewrite (proj2 (Z.ltb_ge 0 clamp)).
Qed.

(** The window that is left when [line] is the next line. *)
Definition window_rest (first count line : Z) {A} (lines : list A) : list A :=
  take (Z.to_nat (count - Z.max 0 (line - first))) (drop (Z.to_nat (first - line)) lines).

Lemma window_rest_cons {A} first count line (a : A) lines :
  window_rest first count line (a :: lines) =
  (if in_window first count line then [a] else []) ++ window_rest first count (line + 1) lines.
Proof.
  unfold window_rest, in_window.
  destruct (Z.leb_spec first line) as [Hf|Hf]; simpl.
  - replace (Z.to_nat (first - line)) with 0%nat by lia.
    replace (Z.to_nat (first - (line + 1))) with 0%nat by lia. rewrite !drop_0.
    destruct (Z.ltb_spec (line - first) count) as [Hc|Hc].
    + replace (Z.to_nat (count - Z.max 0 (line - first)))
        with (S (Z.to_nat (count - Z.max 0 (line + 1 - first)))) by lia. done.
    + replace (Z.to_nat (count - Z.max 0 (line - first))) with 0%nat by lia.
      by replace (Z.to_nat (count - Z.max 0 (line + 1 - first))) with 0%nat by lia.
  - replace (Z.to_nat (first - line)) with (S (Z.to_nat (first - (line + 1)))) by lia.
    simpl. f_equal. lia.
Qed.

Lemma window_rest_nil {A} first count line : window_rest first count line (@nil A) = [].
Proof. unfold window_rest. by rewrite drop_nil, take_nil. Qed.

Lemma window_from_spec first count clamp line parts :
  window_from first count clamp line 0 parts =
  concat (map (cut_line clamp) (window_rest first count line (line_list parts))).
Proof.
  revert line. induction parts as [|part rest IH]; intros line.
  - simpl. by rewrite window_rest_nil.
  - destruct rest as [|p ps].
    + simpl. destruct (decide (part = [])) as [->|Hp].
      * rewrite window_rest_nil, clamp_body_nil. by destruct (in_window _ _ _).
      * rewrite window_rest_cons, window_rest_nil, app_nil_r. destruct (in_window _ _ _); [|done].
        simpl. unfold cut_line. simpl. by rewrite clamp_body_whole, !app_nil_r.
    + rewrite window_from_cons by done. rewrite IH. cbn [line_list].
      rewrite window_rest_cons, map_app, concat_app. f_equal.
      destruct (in_window _ _ _); [|done]. simpl. unfold cut_line. simpl.
      by rewrite clamp_body_whole, !app_nil_r.
Qed.

Lemma readLines_window first count clamp final data :
  1 <= first -> ends_file final ->
  readLines collect_Write first count clamp final data [] =
  ((Some {| sm_TotalLines := newlines data;
            sm_EndsWithNewline := bool_decide (last data = Some NL);
            sm_More := bool_decide (newlines data > first + count - 1) |}, None),
   window_spec first count clamp data).
Proof.
  intros Hf Hfinal. unfold readLines.
  rewrite readLines_loop_spec by (done || unfold min_buffer_size; lia).
  assert (ends_newline data NUL = bool_decide (last data = Some NL)) as ->.
  { unfold ends_newline. destruct (last data) as [c|]; simpl.
    - destruct (Ascii.eqb_spec c NL) as [->|Hc]; [by rewrite bool_decide_eq_true_2|].
      rewrite bool_decide_eq_false_2; congruence.
    - reflexivity. }
  assert ((count <=? 0 + newlines data - first) = bool_decide (newlines data > first + count - 1))
    as -> by (case_bool_decide; lia).
  do 2 f_equal. simpl. rewrite window_from_spec. unfold window_spec, window_rest, text_lines.
  repeat f_equal; lia.
Qed.

(** One pass of [readLines] over a file of any size, whatever its lines' lengths,
    writes exactly the lines [first] to [first + count - 1], each cut to its
    first [clamp] bytes and each followed by its newline if the file has one
    there; and the summary counts the newlines, says whether the last byte is a
    newline, and whether newline-terminated lines follow the window. *)
Theorem readLines_spec (first count clamp : Z) (data : bytes) :
  1 <= first ->
  readLines collect_Write first count clamp (ESentinel ErrEOF) data [] =
  ((Some {| sm_TotalLines := newlines data;
            sm_EndsWithNewline := bool_decide (last data = Some NL);
            sm_More := bool_decide (newlines data > first + count - 1) |}, None),
   window_spec first count clamp data).
Proof. intros Hf. by apply readLines_window. Qed.

(** Line 2 of a file whose last line is not terminated, cut to three bytes. *)
Lemma readLines_spec_witness :
  readLines collect_Write 2 1 3 (ESentinel ErrEOF) (to_bytes ("one" +:+ of_bytes [NL] +:+ "twotwo" +:+ of_bytes [NL] +:+ "x")) [] =
  ((Some {| sm_TotalLines := 2; sm_EndsWithNewline := false; sm_More := false |}, None),
   to_bytes ("two" +:+ of_bytes [NL])).
Proof. rewrite (readLines_spec 2 1 3) by lia. reflexivity. Defined.

(** * Other windows *)

(** [readLines] over any window whose writes, until one fails, keep up with what
    the collecting window holds. *)
Section Simulation.
Context {W : Type}.
Variable window : bytes -> M W error.
Variable holds : bytes -> W -> Prop.
Variable failed : W -> Prop.
Hypothesis window_ok : forall content acc w, holds acc w ->
  let (e, w') := window content w in
  match e with None => holds (acc ++ content) w' | Some _ => failed w' end.

(** The same result with the same content, or a failed write. *)
Definition simulates {A} (error_of : A -> error) (m : A * W) (spec : A * bytes) : Prop :=
  (m.1 = spec.1 /\ holds spec.2 m.2) \/ (error_of m.1 <> None /\ failed m.2).

Lemma write_chunk_sim first count clamp total written chunk acc w :
  holds acc w ->
  simulates fst (write_chunk window first count clamp total written chunk w)
    (write_chunk collect_Write first count clamp total written chunk acc).
Proof.
  intros H. unfold write_chunk. destruct ((first <=? total + 1) && _); [|by left].
  destruct (cut_newline chunk) as [body newline]. unfold bind, collect_Write, ret.
  pose proof (window_ok (clamp_body clamp written body) acc w H) as H1.
  destruct (window _ w) as [[e|] w1]; [by right|].
  destruct newline; [|by left].
  pose proof (window_ok [NL] _ w1 H1) as H2.
  destruct (window [NL] w1) as [[e|] w2]; [by right|by left].
Qed.

Lemma readLines_loop_sim first count clamp final fuel size data total written lastByte acc w :
  holds acc w ->
  simulates snd (readLines_loop window first count clamp final fuel size data total written lastByte w)
    (readLines_loop collect_Write first count clamp final fuel size data total written lastByte acc).
Proof.
  revert data total written lastByte acc w.
  induction fuel as [|fuel IH]; intros data total written lastByte acc w H; [by left|].
  cbn [readLines_loop]. destruct (ReadSlice final size data) as [[chunk e] rest].
  assert (forall acc w total written lastByte, holds acc w ->
    simulates snd
      ((if error_Is e ErrBufferFull
        then readLines_loop window first count clamp final fuel size rest total written lastByte
        else if error_Is e ErrEOF
        then ret (Some {| sm_TotalLines := total; sm_EndsWithNewline := Ascii.eqb lastByte NL;
                          sm_More := count <=? total - first |}, None)
        else match e with
             | Some _ => ret (None, e)
             | None => readLines_loop window first count clamp final fuel size rest total written lastByte
             end) w)
      ((if error_Is e ErrBufferFull
        then readLines_loop collect_Write first count clamp final fuel size rest total written lastByte
        else if error_Is e ErrEOF
        then ret (Some {| sm_TotalLines := total; sm_EndsWithNewline := Ascii.eqb lastByte NL;
                          sm_More := count <=? total - first |}, None)
        else match e with
             | Some _ => ret (None, e)
             | None => readLines_loop collect_Write first count clamp final fuel size rest total written lastByte
             end) acc)) as Hnext.
  { intros acc' w' total' written' lastByte' H'.
    destruct (error_Is e ErrBufferFull); [by apply IH|].
    destruct (error_Is e ErrEOF); [by left|]. destruct e; [by left|by apply IH]. }
  destruct (last chunk) as [c|]; unfold bind; [|by apply Hnext].
  pose proof (write_chunk_sim first count clamp total written chunk acc w H) as Hw.
  destruct (write_chunk window _ _ _ _ _ _ w) as [[e1 written1] w1].
  destruct (write_chunk collect_Write _ _ _ _ _ _ acc) as [[e2 written2] acc2].
  destruct Hw as [[Heq Hh]|[He Hf]]; simpl in *.
  - injection Heq as -> ->. unfold ret. destruct e2; [by left|by apply Hnext].
  - unfold ret. destruct e1; [by right|done].
Qed.
End Simulation.

(** * The batching of messages *)

Lemma chunkBytes_pos : (0 < chunkBytes)%nat.
Proof. unfold chunkBytes. lia. Qed.
#[global] Opaque chunkBytes.

Definition full (message : bytes) : Prop := length message = chunkBytes.

(** What may be on the wire: full messages, then at most one that is not empty and
    not longer. *)
Definition well_chunked (sent : list bytes) : Prop :=
  exists init tail, sent = init ++ tail /\ Forall full init /\
    (tail = [] \/ exists m, tail = [m] /\ (0 < length m <= chunkBytes)%nat).

Lemma well_chunked_full sent : Forall full sent -> well_chunked sent.
Proof. intros H. exists sent, []. rewrite app_nil_r. auto. Qed.

Section Batching.
Context {W E : Type}.
Variable send : bytes -> M (W * list E) error.
Variable wrote : bytes -> error -> list E -> Prop.
Hypothesis send_emits : forall m, emits (send m) (wrote m).

(** The events of sending messages in order, up to the first that fails. *)
Inductive wrote_all : list bytes -> error -> list E -> Prop :=
  | wrote_none : wrote_all [] None []
  | wrote_failure m e evs : wrote m (Some e) evs -> wrote_all [m] (Some e) evs
  | wrote_message m ms e evs evs' :
      wrote m None evs -> wrote_all ms e evs' -> wrote_all (m :: ms) e (evs ++ evs').

Lemma wrote_all_app ms ms' e evs evs' :
  wrote_all ms None evs -> wrote_all ms' e evs' -> wrote_all (ms ++ ms') e (evs ++ evs').
Proof.
  intros H H'. remember None as none eqn:Hn in H.
  induction H as [|m e' evs Hw|m ms e' evs evs1 Hw H IH]; [done|done|].
  rewrite <- app_assoc. simpl. constructor; [done|]. by apply IH.
Qed.

(** What a write leaves: full messages, and with the pending bytes all that was
    written; or the messages up to a failure. *)
Definition batched (written : bytes) (e : error) (pending : bytes) (evs : list E) : Prop :=
  exists ms, wrote_all ms e evs /\ Forall full ms /\
    match e with
    | None => concat ms ++ pending = written /\ (length pending < chunkBytes)%nat
    | Some _ => pending = [] /\ concat ms `prefix_of` written
    end.

Lemma batched_after ms written e pending evs evs' :
  wrote_all ms None evs -> Forall full ms -> batched written e pending evs' ->
  batched (concat ms ++ written) e pending (evs ++ evs').
Proof.
  intros Hms Hfull (ms' & Hms' & Hfull' & He). exists (ms ++ ms').
  split_and!; [by apply wrote_all_app|by apply Forall_app|]. rewrite concat_app.
  destruct e as [e|].
  - destruct He as [-> Hp]. split; [done|]. by apply prefix_app.
  - destruct He as [<- ?]. by rewrite app_assoc.
Qed.

Lemma chunk_loop_emits fuel total content pending :
  (length content <= fuel)%nat -> (length pending < chunkBytes)%nat ->
  emits (chunk_loop send fuel total content pending) (fun r evs =>
    let '(_, e, pending') := r in batched (pending ++ content) e pending' evs).
Proof.
  pose proof chunkBytes_pos as Hpos.
  revert content pending. induction fuel as [|fuel IH]; intros content pending Hfuel Hp.
  { destruct content; [|simpl in Hfuel; lia]. apply emits_ret. rewrite app_nil_r.
    exists []. split_and!; [constructor|done|done|done]. }
  destruct content as [|c content'].
  { apply emits_ret. rewrite app_nil_r. exists []. split_and!; [constructor|done|done|done]. }
  set (content := c :: content') in *. cbn [chunk_loop]. unfold content at 1; fold content.
  set (n := Nat.min (chunkBytes - length pending) (length content)).
  assert (0 < n)%nat as Hn by (unfold n, content; simpl; lia).
  assert (pending ++ content = (pending ++ take n content) ++ drop n content) as Hsplit
    by (by rewrite <- app_assoc, take_drop).
  assert (length (drop n content) <= fuel)%nat as Hfuel' by (rewrite length_drop; lia).
  rewrite Hsplit.
  destruct (Nat.eqb_spec (length (pending ++ take n content)) chunkBytes) as [Hfull|Hfull].
  - destruct (pending ++ take n content) as [|b message] eqn:Hm; [simpl in Hfull; lia|].
    unfold chunk_flush. apply emits_flatten. eapply emits_bind; [apply send_emits|].
    intros [e|] evs Hw; apply emits_bind_ret.
    + apply emits_ret. exists [b :: message]. rewrite app_nil_r.
      split_and!; [by constructor|by constructor|done|]. simpl. rewrite app_nil_r. by eexists.
    + eapply emits_mono; [by apply IH|]. intros [[k e] pending'] evs' Hb.
      rewrite <- (app_nil_r evs). replace (b :: message) with (concat [b :: message])
        by (simpl; by rewrite app_nil_r).
      apply batched_after; [by repeat constructor|by repeat constructor|done].
  - eapply emits_mono; [apply IH; [done|]|done].
    rewrite length_app, length_take in *. unfold n in *. lia.
Qed.

Lemma chunk_Write_emits content pending :
  (length pending < chunkBytes)%nat ->
  emits (chunk_Write send content pending) (fun r evs =>
    let '(_, e, pending') := r in batched (pending ++ content) e pending' evs).
Proof. intros H. by apply chunk_loop_emits. Qed.

(** The last flush, after full messages. *)
Definition sent_all (written : bytes) (e : error) (evs : list E) : Prop :=
  exists ms, wrote_all ms e evs /\ well_chunked ms /\ concat ms `prefix_of` written /\
    (e = None -> concat ms = written).

Lemma chunk_flush_emits ms evs pending :
  wrote_all ms None evs -> Forall full ms -> (length pending < chunkBytes)%nat ->
  emits (chunk_flush send pending) (fun r evs' => sent_all (concat ms ++ pending) r.1 (evs ++ evs')).
Proof.
  intros Hms Hfull Hp. unfold chunk_flush. destruct pending as [|b message].
  - apply emits_ret. rewrite !app_nil_r. exists ms. split_and!; [done|by apply well_chunked_full|done|done].
  - eapply emits_bind; [apply send_emits|]. intros e evs' Hw. apply emits_ret.
    rewrite app_nil_r. exists (ms ++ [b :: message]).
    assert (concat (ms ++ [b :: message]) = concat ms ++ b :: message) as ->
      by (rewrite concat_app; simpl; by rewrite app_nil_r).
    split_and!; [|exists ms, [b :: message]|done|done].
    + apply wrote_all_app; [done|]. destruct e as [e|]; [by constructor|].
      rewrite <- (app_nil_r evs'). by repeat constructor.
    + split_and!; [done|done|]. right. eexists. split; [done|]. simpl in *. lia.
Qed.

Lemma chunk_copy_emits pieces ms evs pending :
  wrote_all ms None evs -> Forall full ms -> (length pending < chunkBytes)%nat ->
  emits (chunk_copy send pieces pending) (fun e evs' =>
    sent_all (concat ms ++ pending ++ concat pieces) e (evs ++ evs')).
Proof.
  revert ms evs pending. induction pieces as [|piece pieces IH]; intros ms evs pending Hms Hfull Hp;
    cbn [chunk_copy concat].
  - rewrite app_nil_r. eapply emits_bind; [by apply chunk_flush_emits|].
    intros [e pending'] evs' H. apply emits_ret. by rewrite app_nil_r.
  - eapply emits_bind; [by apply chunk_Write_emits|].
    intros [[k e] pending'] evs' Hb. simpl in Hb.
    pose proof (batched_after _ _ _ _ _ _ Hms Hfull Hb) as (ms' & Hms' & Hfull' & He).
    destruct e as [e|].
    + apply emits_ret. rewrite app_nil_r. destruct He as [-> Hpre]. exists ms'.
      split_and!; [done|by apply well_chunked_full| |done].
      rewrite !app_assoc. apply prefix_app_r. by rewrite <- app_assoc.
    + destruct He as [He Hp']. eapply emits_mono; [by apply (IH ms' (evs ++ evs') pending')|].
      intros e evs''. rewrite !app_assoc, He, <- !app_assoc. done.
Qed.

(** However the content of a read arrives in pieces, what is sent is cut into
    messages of exactly [chunkBytes], but for a last one that is not empty and not
    longer, in order and with nothing lost: if the copy succeeds the messages
    concatenate to the content, and at the first send that fails it stops with
    that send's error, the messages sent being a prefix of the content. *)
Theorem chunk_copy_sends_all (pieces : list bytes) :
  emits (chunk_copy send pieces []) (sent_all (concat pieces)).
Proof. apply (chunk_copy_emits pieces [] [] []); [constructor|constructor|apply chunkBytes_pos]. Qed.
End Batching.

(** A stream whose sends succeed. *)
Lemma chunk_copy_sends_all_witness :
  sent_all (fun m e evs => evs = [(m, e)]) (to_bytes "abc") None [(to_bytes "abc", None)].
Proof.
  pose proof (chunk_copy_sends_all (fun m => logged (W := unit) (pair m) (ret None))
    (fun m e evs => evs = [(m, e)]) (fun m => emits_logged _ _ _ (fun e => eq_refl))
    [to_bytes "ab"; to_bytes "c"]) as H.
  exact (emits_run _ _ tt H).
Defined.

(** * The body of a WriteFile stream *)

(** A sink that kept what it was given within the bound. *)
Definition sink_holds (content : bytes) (sink : contentSink) : Prop :=
  sk_hash sink = content /\ sk_count sink = Z.of_nat (length content) /\
  sk_keep sink = (Z.of_nat (length content) <=? MaxRecordedInputBytes) /\
  sk_kept sink = if sk_keep sink then content else [].

Lemma newSink_holds : sink_holds [] (newSink true).
Proof. done. Qed.

Lemma sink_absorb_holds content more sink :
  sink_holds content sink -> sink_holds (content ++ more) (sink_absorb more sink).
Proof.
  destruct sink as [hash keep kept count]. unfold sink_holds, sink_absorb. simpl.
  intros (-> & -> & -> & Hkept). rewrite length_app, Nat2Z.inj_add.
  assert (0 <= Z.of_nat (length more)) by lia.
  destruct (Z.leb_spec (Z.of_nat (length content)) MaxRecordedInputBytes);
    destruct (Z.leb_spec (Z.of_nat (length content) + Z.of_nat (length more)) MaxRecordedInputBytes);
    simpl; rewrite ?Hkept; try lia; done.
Qed.

(** A reader that absorbed [got] of a body of [size] bytes and delivered a part. *)
Definition reader_holds (size : Z) (got delivered : bytes) (reader : streamReader) : Prop :=
  sr_remaining reader + Z.of_nat (length got) = size /\ delivered ++ sr_pending reader = got /\
  sink_holds got (sr_sink reader).

Definition body_chunks (chunks : list bytes) : list received := map (Message false) chunks.

(** A read that ends a body: the client half-closed when the size was reached. *)
Definition body_ends (messages : list received) (chunks : list bytes) : Prop :=
  exists e rest, messages = body_chunks chunks ++ RecvError e :: rest /\ error_Is (Some e) ErrEOF = true.

Lemma reader_delivers size got delivered n pending reader :
  reader_holds size got delivered reader -> sr_pending reader = pending ->
  reader_holds size (got ++ concat []) (delivered ++ take n pending)
    {| sr_remaining := sr_remaining reader; sr_pending := drop n pending;
       sr_sink := sr_sink reader |}.
Proof.
  intros (Hr & Hp & Hs) <-. simpl. rewrite app_nil_r.
  split_and!; [done| |done]. simpl. by rewrite <- app_assoc, take_drop.
Qed.

Lemma reader_absorbs size got delivered chunk reader :
  reader_holds size got delivered reader -> sr_pending reader = [] ->
  reader_holds size (got ++ chunk) delivered
    {| sr_remaining := sr_remaining reader - Z.of_nat (length chunk);
       sr_pending := chunk; sr_sink := sink_absorb chunk (sr_sink reader) |}.
Proof.
  intros (Hr & Hp & Hs) Hpend. rewrite Hpend, app_nil_r in Hp. subst delivered.
  split_and!; simpl; [rewrite length_app; lia|done|by apply sink_absorb_holds].
Qed.

(** The error that [io.ReadAll] and [io.Copy] take for the end. *)
Definition is_EOF (e : error) : bool :=
  match e with Some (ESentinel ErrEOF) => true | _ => false end.

Lemma stream_Read_spec size n messages reader got delivered :
  reader_holds size got delivered reader ->
  let '(content, e, reader', rest) := stream_Read n messages reader in
  exists chunks, reader_holds size (got ++ concat chunks) (delivered ++ content) reader' /\
    (e <> None -> content = []) /\
    if is_EOF e
    then body_ends messages chunks /\ sr_remaining reader' = 0 /\ sr_pending reader' = []
    else exists rest', messages = body_chunks chunks ++ rest' /\ (e = None -> rest' = rest).
Proof.
  revert reader got. induction messages as [|message rest IH]; intros reader got H;
    cbn [stream_Read]; destruct (sr_pending reader) as [|b pending] eqn:Hpend.
  2, 4: exists []; split_and!; [by apply reader_delivers|done|by eexists].
  - exists []. rewrite !app_nil_r. split_and!; [done|done|by exists []].
  - destruct message as [header chunk|e].
    + destruct (header || (sr_remaining reader <? Z.of_nat (length chunk))) eqn:Hh.
      { exists []. rewrite !app_nil_r. split_and!; [done|done|by eexists]. }
      apply orb_false_iff in Hh as [-> _].
      pose proof (reader_absorbs size got delivered chunk reader H Hpend) as H'.
      destruct chunk as [|c chunk].
      * specialize (IH _ _ H'). rewrite app_nil_r in IH. simpl in IH |- *.
        destruct (stream_Read n rest _) as [[[content e] reader'] rest'].
        destruct IH as (chunks & Hh & Hc & He). exists ([] :: chunks). split_and!; [done|done|].
        destruct (is_EOF e).
        -- destruct He as ((e' & rest'' & -> & ?) & ?). split; [by exists e', rest''|done].
        -- destruct He as (r & -> & ?). by exists r.
      * exists [c :: chunk]. simpl concat. rewrite app_nil_r. split_and!; [|done|by exists rest].
        pose proof (reader_delivers _ _ _ n _ _ H' eq_refl) as Hd. simpl in Hd.
        by rewrite app_nil_r in Hd.
    + destruct (error_Is (Some e) ErrEOF) eqn:He.
      * destruct (Z.eqb_spec (sr_remaining reader) 0); exists []; rewrite !app_nil_r;
          (split_and!; [done|done|]); simpl.
        -- split_and!; [|done|done]. by exists e, rest.
        -- by eexists.
      * exists []. rewrite !app_nil_r. split_and!; [done|done|].
        replace (is_EOF (Some e)) with false by (by destruct e as [|[]| | | | |]). by eexists.
Qed.

Lemma body_chunks_app a b rest : body_chunks (a ++ b) ++ rest = body_chunks a ++ body_chunks b ++ rest.
Proof. unfold body_chunks. by rewrite map_app, <- app_assoc. Qed.

(** What a sequence of reads gives, after [got] bytes of which [delivered] were
    delivered. *)
Lemma read_body_spec size buffers messages reader got delivered :
  reader_holds size got delivered reader ->
  let '(content, e, reader') := read_body buffers messages reader in
  exists chunks,
    reader_holds size (got ++ concat chunks) (delivered ++ content) reader' /\
    if is_EOF e
    then body_ends messages chunks /\ sr_remaining reader' = 0 /\ sr_pending reader' = []
    else exists rest, messages = body_chunks chunks ++ rest.
Proof.
  revert messages reader got delivered.
  induction buffers as [|n buffers IH]; intros messages reader got delivered H; cbn [read_body].
  - exists []. rewrite !app_nil_r. split; [done|by eexists].
  - pose proof (stream_Read_spec size n messages reader got delivered H) as Hread.
    destruct (stream_Read n messages reader) as [[[content e] reader1] rest].
    destruct Hread as (chunks & H1 & _ & He). destruct e as [e|].
    + exists chunks. split; [done|]. destruct (is_EOF (Some e)); [done|].
      destruct He as (r & ? & _). by exists r.
    + destruct He as (r & -> & Hr). rewrite Hr by done. clear r Hr.
      specialize (IH rest reader1 _ _ H1).
      destruct (read_body buffers rest reader1) as [[more e] reader2].
      destruct IH as (chunks' & H2 & He). exists (chunks ++ chunks').
      rewrite concat_app, !app_assoc. split; [done|].
      destruct (is_EOF e).
      * destruct He as ((e' & r & -> & ?) & ?). split; [|done]. exists e', r.
        by rewrite body_chunks_app.
      * destruct He as (r & ->). exists r. by rewrite body_chunks_app.
Qed.

(** What the target reads from a WriteFile stream is a prefix of what the client
    sent, never past the announced size, and the reads end with io.EOF only if the
    client sent messages of chunks, no second header, with exactly the announced
    number of bytes, and then half-closed: the content is their concatenation, and
    the audit's sink holds its digest input, its size, and, within the retained
    bound, its bytes. *)
Theorem read_body_exact (buffers : list nat) (messages : list received) (size : Z) :
  let '(content, e, reader) :=
    read_body buffers messages {| sr_remaining := size; sr_pending := []; sr_sink := newSink true |} in
  exists chunks, content `prefix_of` concat chunks /\
    sr_remaining reader + Z.of_nat (length (concat chunks)) = size /\
    sink_holds (concat chunks) (sr_sink reader) /\
    if is_EOF e
    then body_ends messages chunks /\ content = concat chunks /\ Z.of_nat (length content) = size
    else exists rest, messages = body_chunks chunks ++ rest.
Proof.
  set (reader := Build_streamReader size [] (newSink true)).
  assert (reader_holds size [] [] reader) as H by (split_and!; [simpl; lia|done|apply newSink_holds]).
  pose proof (read_body_spec size buffers messages reader [] [] H) as Hb.
  destruct (read_body buffers messages reader) as [[content e] reader'].
  destruct Hb as (chunks & (Hr & Hp & Hs) & He). simpl in Hr, Hp, Hs.
  exists chunks. split_and!; [by exists (sr_pending reader')|done|done|].
  destruct (is_EOF e); [|done]. destruct He as (Hend & H0 & Hpend).
  rewrite Hpend, app_nil_r in Hp. subst content. split_and!; [done|done|lia].
Qed.

(** * Bounded capture of output *)

Definition bounded_writes (pieces : list bytes) (w : boundedWriter) : boundedWriter :=
  fold_left (fun w piece => (bounded_Write piece w).2) pieces w.

Definition bounded_holds (limit : Z) (content : bytes) (w : boundedWriter) : Prop :=
  bw_limit w = limit /\ bw_retained w = take (Z.to_nat limit) content /\
  bw_total w = Z.of_nat (length content) /\
  bw_written w = Z.of_nat (length (bw_retained w)) /\
  bw_cut w = (limit <? Z.of_nat (length content)).

Lemma bounded_Write_holds limit content piece w :
  0 <= limit -> piece <> [] -> bounded_holds limit content w ->
  bounded_holds limit (content ++ piece) (bounded_Write piece w).2.
Proof.
  intros Hl Hpiece (H1 & H2 & H3 & H4 & H5). unfold bounded_Write. rewrite H1, H4, H2, H3, H5.
  assert (0 < Z.of_nat (length piece)) as Hp by (destruct piece; [done|simpl; lia]).
  rewrite length_take. unfold bounded_holds. rewrite take_app, length_app, Nat2Z.inj_add.
  destruct (Z.leb_spec (limit - Z.of_nat (Nat.min (Z.to_nat limit) (length content))) 0); simpl.
  - replace (Z.to_nat limit - length content)%nat with 0%nat by lia.
    rewrite app_nil_r, length_take. split_and!; [done..|]. symmetry. apply Z.ltb_lt. lia.
  - replace (Nat.min (Z.to_nat limit) (length content)) with (length content) in * by lia.
    rewrite (proj2 (Z.ltb_ge limit (Z.of_nat (length content)))) by lia. simpl.
    destruct (Z.ltb_spec (limit - Z.of_nat (length content)) (Z.of_nat (length piece)));
      rewrite !length_app, ?length_take.
    + replace (Z.to_nat (limit - Z.of_nat (length content)))
        with (Z.to_nat limit - length content)%nat by lia.
      split_and!; [done|done|done|lia|]. symmetry. apply Z.ltb_lt. lia.
    + rewrite (take_ge piece) by lia. split_and!; [done|done|done|lia|]. symmetry. apply Z.ltb_ge. lia.
Qed.

Lemma bounded_writes_holds limit pieces :
  0 <= limit -> Forall (fun piece => piece <> []) pieces ->
  bounded_holds limit (concat pieces) (bounded_writes pieces (newBoundedWriter limit)).
Proof.
  intros Hl Hpieces.
  assert (forall content w, bounded_holds limit content w ->
    bounded_holds limit (content ++ concat pieces) (bounded_writes pieces w)) as Hall.
  { induction Hpieces as [|piece pieces Hp Hps IH]; intros content w Hw; simpl.
    - by rewrite app_nil_r.
    - rewrite app_assoc. apply IH. by apply bounded_Write_holds. }
  apply (Hall []). split_and!; simpl; [done|by rewrite take_nil|done|done|].
  symmetry. apply Z.ltb_ge. lia.
Qed.

(** However a command's output arrives, in non-empty writes, every write reports
    all its bytes as accepted; what is retained is the first [limit] bytes, the
    count is the true volume, and the output is marked cut exactly when it
    exceeds the limit. *)
Theorem bounded_capture (limit : Z) (pieces : list bytes) :
  0 <= limit -> Forall (fun piece => piece <> []) pieces ->
  (forall piece w, (bounded_Write piece w).1 = Z.of_nat (length piece)) /\
  let w := bounded_writes pieces (newBoundedWriter limit) in
  bw_retained w = take (Z.to_nat limit) (concat pieces) /\
  bw_total w = Z.of_nat (length (concat pieces)) /\
  bw_cut w = (limit <? Z.of_nat (length (concat pieces))).
Proof.
  intros Hl Hpieces. split; [intros piece w; unfold bounded_Write; by case_match|].
  by destruct (bounded_writes_holds limit pieces Hl Hpieces) as (_ & ? & ? & _ & ?).
Qed.

Lemma bounded_capture_witness :
  let w := bounded_writes [to_bytes "abc"; to_bytes "de"] (newBoundedWriter 4) in
  bw_retained w = to_bytes "abcd" /\ bw_total w = 5 /\ bw_cut w = true.
Proof.
  pose proof (bounded_capture 4 [to_bytes "abc"; to_bytes "de"] ltac:(lia)
    ltac:(repeat constructor; done)) as [_ (H1 & H2 & H3)].
  split; [exact H1|]. split; [exact H2|exact H3].
Defined.
