(* ===== verification/GrpcBridge.v ===== *)
(** The calls of the gRPC bridge ([pkg/bridge/grpc], bridge.go, files.go and
    audit.go): the handlers [Exec], [Stat], [ReadFile], [ReadLines] and
    [WriteFile], what each admits, what it asks of the borrowed target and the one
    audit record it leaves. *)

From S2P Require Import Prelude Utf8 Trace Core AuditText GrpcStreams.

(** * Interfaces *)

(** [fs.FileInfo], as far as the bridge reads it. *)
Record FileInfo := { fi_Perm : Z; fi_IsRegular : bool; fi_IsDir : bool; fi_Size : Z }.

(** An open file: what reading it gives, and the error that ends it. *)
Record Reader := { rd_pieces : list bytes; rd_final : err }.

(** [target.Executor].  [ExecStream] also gives what it wrote to stdout and stderr;
    [WriteFile] is split into the reads of its content and what it makes of them. *)
Record Executor (W : Type) := {
  ex_ContainerID : string;
  ex_ContainerName : string;
  ex_RunID : string;
  ex_TaskID : string;
  ex_Workdir : string;
  ex_ExecStream : Ctx -> Command -> bytes -> M W (CommandResult * error * list bytes * list bytes);
  ex_StatFile : Ctx -> string -> M W (FileInfo * error);
  ex_OpenFile : Ctx -> string -> M W (Reader * FileInfo * error);
  ex_CloseReader : M W unit;
  ex_WriteFile_reads : Ctx -> string -> Z -> M W (list nat);
  ex_WriteFile : Ctx -> string -> Z -> bytes -> error -> M W (bool * error)
}.
Arguments ex_ContainerID {W}.
Arguments ex_ContainerName {W}.
Arguments ex_RunID {W}.
Arguments ex_TaskID {W}.
Arguments ex_Workdir {W}.
Arguments ex_ExecStream {W}.
Arguments ex_StatFile {W}.
Arguments ex_OpenFile {W}.
Arguments ex_CloseReader {W}.
Arguments ex_WriteFile_reads {W}.
Arguments ex_WriteFile {W}.

(** [google.golang.org/grpc/codes] and [status]. *)
Inductive Code :=
  | CodeCanceled | CodeInvalidArgument | CodeNotFound | CodePermissionDenied
  | CodeResourceExhausted | CodeFailedPrecondition | CodeInternal | CodeUnavailable.
#[export] Instance Code_eq_dec : EqDecision Code.
Proof. solve_decision. Defined.
Record Status := { st_Code : Code; st_Message : string }.

(** * Records *)

(** [fileWindow]. *)
Record fileWindow := {
  fw_MaxBytes : Z;
  fw_FirstLine : Z;
  fw_MaxLines : Z;
  fw_MaxLineBytes : Z;
  fw_TotalLines : option Z
}.
Definition no_window : fileWindow :=
  {| fw_MaxBytes := 0; fw_FirstLine := 0; fw_MaxLines := 0; fw_MaxLineBytes := 0;
     fw_TotalLines := None |}.

(** [toolCallRecord]. *)
Record toolCallRecord := {
  gr_ToolCallRecord : ToolCallRecord;
  gr_SHA256 : string;
  gr_Truncated : bool;
  gr_Window : fileWindow
}.

(** [rawGRPCRecord]. *)
Record rawGRPCRecord := {
  rg_SandboxID : string;
  rg_OperationClass : string;
  rg_Status : string;
  rg_RunID : string;
  rg_TaskID : string;
  rg_ContainerID : string;
  rg_Path : string;
  rg_Login : bool;
  rg_Script : string;
  rg_Stdin : bytes;
  rg_StdinBytes : Z;
  rg_ReadBytes : Z;
  rg_SHA256 : string
}.

(** [RenderRaw], as its fields in order. *)
Definition raw_fields (record : rawGRPCRecord) (sequence : Z) (timestamp : string) :
    list (string * bytes) :=
  [("sequence", to_bytes (itoa sequence));
   ("sandbox_id", to_bytes (rg_SandboxID record));
   ("timestamp", to_bytes timestamp);
   ("operation_class", to_bytes (rg_OperationClass record));
   ("status", to_bytes (rg_Status record));
   ("run_id", to_bytes (rg_RunID record));
   ("task_id", to_bytes (rg_TaskID record));
   ("container_id", to_bytes (rg_ContainerID record));
   ("path", to_bytes (rg_Path record));
   ("login", to_bytes (bool_text (rg_Login record)));
   ("script", to_bytes (rg_Script record));
   ("stdin_bytes", to_bytes (itoa (rg_StdinBytes record)));
   ("stdin", rg_Stdin record);
   ("read_bytes", to_bytes (itoa (rg_ReadBytes record)));
   ("sha256", to_bytes (rg_SHA256 record))]%string.
Definition raw_begin : bytes := to_bytes "--- ARIES GRPC CALL BEGIN ---".
Definition raw_end : bytes := to_bytes "--- ARIES GRPC CALL END ---".
Definition RenderRaw (IsPrint : Z -> bool) (record : rawGRPCRecord) (sequence : Z)
    (timestamp : string) : bytes :=
  render_fields IsPrint raw_begin raw_end (raw_fields record sequence timestamp).

(** * Constants *)

Definition defaultOutputLimit : Z := 16 * 2 ^ 20.
Definition refusedExitCode : Z := -1.
Definition kindExec : string := "exec".
Definition kindFileStat : string := "stat".
Definition kindFileRead : string := "read".
Definition kindFileWrite : string := "write".
Definition RemoteShellPath : string := "/bin/bash".
Definition maxToolCallIDBytes : Z := 128.
Definition toolCallIDChars : bytes :=
  to_bytes "ABCDEFGHIJKLMNOPQRSTUVWXYZabcdefghijklmnopqrstuvwxyz0123456789._:-".
Definition invalidToolCallID : string := "malformed tool call id".
Definition auditFailed : string := "bridge audit failed".

(** [incomingToolCallID], of the metadata values. *)
Definition incomingToolCallID (values : list string) : string * bool :=
  match values with
  | [] => ("", true)
  | [value] =>
      if (maxToolCallIDBytes <? len value) ||
         negb (bool_decide (Trim (to_bytes value) toolCallIDChars = []))
      then ("", false) else (value, true)
  | _ => ("", false)
  end.

(** [fileStatus]. *)
Definition fileStatus (e : error) : Status :=
  let status code message := {| st_Code := code; st_Message := message |} in
  if error_Is e ErrNotExist then status CodeNotFound "no such file"%string
  else if error_Is e ErrPermission then status CodePermissionDenied "permission denied"%string
  else if error_Is e EISDIR || error_Is e ENOTDIR || error_Is e ErrNotRegular
  then status CodeFailedPrecondition "not a regular file"%string
  else if error_Is e ErrWriteStream
  then status CodeInvalidArgument (sentinel_text ErrWriteStream)
  else if HasCancellationCause e then status CodeCanceled "session canceled"%string
  else status CodeInternal "sandbox file access failed"%string.

(** * The handlers *)

(** What the bridge sends back on a stream. *)
Inductive message :=
  | ReadFileHeader (size : Z) (truncated : bool)
  | ReadFileChunk (chunk : bytes)
  | ReadLinesChunk (chunk : bytes)
  | ReadLinesEnd (summary : ReadLinesSummary) (size : Z)
  | WriteFileResponse (written : Z) (created : bool).

(** What a handler uses of its session, its stream and the standard library. *)
Record Session (W : Type) := {
  ss_revoked : M W bool;                                  (* session.revoked.Load() *)
  ss_audit_Err : M W error;                               (* session.audit.Err() *)
  ss_RetainsRaw : bool;
  ss_Enqueue : toolCallRecord -> rawGRPCRecord -> M W unit;
  ss_sandboxID : string;
  ss_sandbox : Executor W;
  ss_AfterFunc : Ctx -> M W unit;      (* context.AfterFunc(session.serveCtx, cancel) *)
  ss_end_call : Ctx -> M W unit;       (* stop(); cancel() *)
  st_Send : message -> M W error;
  st_RecvHeader : M W (option (string * Z) * error);   (* the first Recv *)
  (* what each later Recv gives, and ctx.Err() of the call then *)
  st_messages : M W (list (received * option sentinel));
  time_text : Z -> string;             (* bridgekit.FormatTime *)
  sha256_hex : bytes -> string
}.
Arguments ss_revoked {W}.
Arguments ss_audit_Err {W}.
Arguments ss_RetainsRaw {W}.
Arguments ss_Enqueue {W}.
Arguments ss_sandboxID {W}.
Arguments ss_sandbox {W}.
Arguments ss_AfterFunc {W}.
Arguments ss_end_call {W}.
Arguments st_Send {W}.
Arguments st_RecvHeader {W}.
Arguments st_messages {W}.
Arguments time_text {W}.
Arguments sha256_hex {W}.

(** [CommandHash]. *)
Definition CommandHash {W} (session : Session W) (script : string) : string :=
  sha256_hex session (to_bytes script).

(** [writeRecord]. *)
Definition writeRecord {W} (session : Session W) (record : toolCallRecord) (raw : rawGRPCRecord) :
    M W unit :=
  let sandbox := ss_sandbox session in
  let id := ss_sandboxID session in
  ss_Enqueue session
    {| gr_ToolCallRecord :=
         with_target id (ex_ContainerID sandbox) (ex_ContainerName sandbox) (ex_RunID sandbox)
           (ex_TaskID sandbox) (gr_ToolCallRecord record);
       gr_SHA256 := gr_SHA256 record; gr_Truncated := gr_Truncated record;
       gr_Window := gr_Window record |}
    {| rg_SandboxID := id; rg_OperationClass := rg_OperationClass raw;
       rg_Status := tc_Status (gr_ToolCallRecord record); rg_RunID := ex_RunID sandbox;
       rg_TaskID := ex_TaskID sandbox; rg_ContainerID := ex_ContainerID sandbox;
       rg_Path := rg_Path raw; rg_Login := rg_Login raw; rg_Script := rg_Script raw;
       rg_Stdin := rg_Stdin raw; rg_StdinBytes := rg_StdinBytes raw;
       rg_ReadBytes := rg_ReadBytes raw; rg_SHA256 := rg_SHA256 raw |}.

(** [callContext]. *)
Definition callContext {W} (session : Session W) (ctx : Ctx) : M W Ctx :=
  let callCtx := WithCancel ctx in
  let* _ := ss_AfterFunc session callCtx in
  ret callCtx.

(** [fileCall]. *)
Record fileCall := {
  fc_kind : string;
  fc_path : string;
  fc_ctx : Ctx;
  fc_started : Z;
  fc_window : fileWindow;
  fc_toolCallID : string
}.
Definition set_fc_ctx (ctx : Ctx) (call : fileCall) : fileCall :=
  {| fc_kind := fc_kind call; fc_path := fc_path call; fc_ctx := ctx;
     fc_started := fc_started call; fc_window := fc_window call;
     fc_toolCallID := fc_toolCallID call |}.
Definition set_fc_TotalLines (total : Z) (call : fileCall) : fileCall :=
  let window := fc_window call in
  {| fc_kind := fc_kind call; fc_path := fc_path call; fc_ctx := fc_ctx call;
     fc_started := fc_started call;
     fc_window :=
       {| fw_MaxBytes := fw_MaxBytes window; fw_FirstLine := fw_FirstLine window;
          fw_MaxLines := fw_MaxLines window; fw_MaxLineBytes := fw_MaxLineBytes window;
          fw_TotalLines := Some total |};
     fc_toolCallID := fc_toolCallID call |}.

(** What [recordFile] hands to [writeRecord]. *)
Definition file_record {W} (session : Session W) (call : fileCall) (sink : option contentSink)
    (truncated : bool) (duration : Z) (statusText message : string) :
    toolCallRecord * rawGRPCRecord :=
  let kind := fc_kind call in
  let write := bool_decide (kind = kindFileWrite) in
  let sha := match sink with
             | Some sink => if String.eqb statusText "completed"
                            then sha256_hex session (sk_hash sink) else ""%string
             | None => ""%string
             end in
  let count := from_option sk_count 0 sink in
  let '(stdin, encoding) := match sink with
                | Some sink => if write
                    then describeInput (ss_RetainsRaw session) (sk_kept sink) (sk_count sink)
                    else (""%string, "utf-8"%string)
                | None => (""%string, "utf-8"%string)
                end in
  let rawStdin := match sink with
                  | Some sink => if write
                      then if negb (sk_keep sink) then to_bytes (sizeOmitted (sk_count sink))
                           else sk_kept sink
                      else []
                  | None => []
                  end in
  ({| gr_ToolCallRecord :=
        {| tc_SandboxID := ""; tc_Sequence := 0; tc_Timestamp := ""; tc_ContainerID := "";
           tc_ContainerName := ""; tc_OperationClass := kind; tc_WorkspaceHome := "";
           tc_Environment := []; tc_Path := fc_path call; tc_Workdir := ""; tc_CommandHash := "";
           tc_Command := ""; tc_Argv := []; tc_Stdin := stdin; tc_StdinEncoding := encoding;
           tc_StdinBytes := if write then count else 0;
           tc_StdoutBytes := if write then 0 else count; tc_StderrBytes := 0;
           tc_ExitCode := refusedExitCode; tc_StartedAt := time_text session (fc_started call);
           tc_DurationMS := duration; tc_Status := statusText; tc_Error := message;
           tc_RunID := ""; tc_TaskID := ""; tc_ToolCallID := fc_toolCallID call |};
      gr_SHA256 := sha; gr_Truncated := truncated; gr_Window := fc_window call |},
   {| rg_SandboxID := ""; rg_OperationClass := kind; rg_Status := ""; rg_RunID := "";
      rg_TaskID := ""; rg_ContainerID := ""; rg_Path := fc_path call; rg_Login := false;
      rg_Script := ""; rg_Stdin := rawStdin; rg_StdinBytes := if write then count else 0;
      rg_ReadBytes := if write then 0 else count; rg_SHA256 := sha |}).

(** [recordFile]. *)
Definition recordFile {W} (session : Session W) (call : fileCall) (sink : option contentSink)
    (truncated : bool) (duration : Z) (statusText message : string) : M W unit :=
  let (record, raw) := file_record session call sink truncated duration statusText message in
  writeRecord session record raw.

Definition milliseconds (nanoseconds : Z) : Z := Z.quot nanoseconds 1000000.

Section Handlers.
Context {W : Type} `{!Runtime W}.
Variable session : Session W.

(** [beginFile]; [ids] are the metadata values of the tool call id and [invalid]
    is empty when the arguments are accepted. *)
Definition beginFile (ctx : Ctx) (ids : list string) (kind filePath invalid : string)
    (window : fileWindow) : M W (fileCall + Status) :=
  let (toolCallID, validID) := incomingToolCallID ids in
  let* started := time_Now in
  let call := {| fc_kind := kind; fc_path := filePath; fc_ctx := ctx; fc_started := started;
                 fc_window := window; fc_toolCallID := toolCallID |} in
  let reject (code : Code) (message : string) : M W (fileCall + Status) :=
    let* _ := recordFile session call None false 0 "rejected" message in
    ret (inr {| st_Code := code; st_Message := message |}) in
  let* revoked := ss_revoked session in
  if revoked : bool then reject CodeUnavailable "session revoked"%string else
  let* auditErr := ss_audit_Err session in
  if negb (is_nil auditErr) then reject CodeUnavailable auditFailed else
  if negb validID then reject CodeInvalidArgument invalidToolCallID else
  if negb (String.eqb invalid "") then reject CodeInvalidArgument invalid else
  if negb (HasPrefix filePath "/") || ContainsByte filePath NUL
  then reject CodeInvalidArgument "path must be absolute"%string else
  let* callCtx := callContext session ctx in
  ret (inl (set_fc_ctx callCtx call)).

(** [finish]; nil is [None]. *)
Definition finish (call : fileCall) (e : error) (sink : option contentSink) (truncated : bool) :
    M W (option Status) :=
  let result := match e with Some _ => Some (fileStatus e) | None => None end in
  let statusText :=
    match result with
    | None => "completed"
    | Some status => if decide (st_Code status = CodeCanceled) then "canceled" else "failed"
    end%string in
  let message := from_option st_Message ""%string result in
  let* now := time_Now in
  let* _ := recordFile session call sink truncated (milliseconds (now - fc_started call))
              statusText message in
  let* _ := ss_end_call session (fc_ctx call) in
  ret result.

(** [streamErr]. *)
Definition streamErr (call : fileCall) (e : error) : M W error :=
  match e with
  | None => ret None
  | Some _ =>
      let* cause := ctx_Err (fc_ctx call) in
      match cause with
      | Some cause => ret (Some (ESentinel cause))
      | None => ret e
      end
  end.

Definition send (call : fileCall) (m : message) : M W error :=
  let* e := st_Send session m in streamErr call e.

(** [Stat]. *)
Record StatResponse := {
  sp_Exists : bool; sp_Mode : Z; sp_Type : string; sp_Size : Z
}.
Definition Stat (ctx : Ctx) (ids : list string) (path : string) :
    M W (option StatResponse * option Status) :=
  let* call := beginFile ctx ids kindFileStat path "" no_window in
  match call with
  | inr status => ret (None, Some status)
  | inl call =>
      let* (info, e) := ex_StatFile (ss_sandbox session) (fc_ctx call) path in
      if error_Is e ErrNotExist then
        let* result := finish call None None false in
        ret (Some {| sp_Exists := false; sp_Mode := 0; sp_Type := "unspecified"; sp_Size := 0 |},
             result)
      else match e with
      | Some _ => let* result := finish call e None false in ret (None, result)
      | None =>
          let response :=
            {| sp_Exists := true; sp_Mode := fi_Perm info;
               sp_Type := if fi_IsRegular info then "regular"
                          else if fi_IsDir info then "directory" else "other";
               sp_Size := if fi_IsRegular info then fi_Size info else 0 |} in
          let* result := finish call None None false in
          ret (Some response, result)
      end
  end.

(** The sink of a read: its state, and the chunks not sent yet. *)
Definition read_state : Type := contentSink * bytes.
Definition sink_chunks (send : bytes -> M W error) (content : bytes) (state : read_state) :
    M W (error * read_state) :=
  let* (_, e, sink, pending) := sink_Write (Some (chunk_Write send)) content state.1 state.2 in
  ret (e, (sink, pending)).

(** [io.Copy]. *)
Fixpoint io_Copy (write : bytes -> read_state -> M W (error * read_state))
    (pieces : list bytes) (final : err) (state : read_state) : M W (error * read_state) :=
  match pieces with
  | [] => ret (if errors_Is final ErrEOF then None else Some final, state)
  | piece :: pieces =>
      let* (e, state) := write piece state in
      match e with
      | Some _ => ret (e, state)
      | None => io_Copy write pieces final state
      end
  end.

(** [io.LimitReader]. *)
Fixpoint LimitReader (n : Z) (pieces : list bytes) (final : err) : list bytes * err :=
  if n <=? 0 then ([], ESentinel ErrEOF)
  else match pieces with
       | [] => ([], final)
       | piece :: pieces =>
           let piece := take (Z.to_nat n) piece in
           let (rest, final) := LimitReader (n - Z.of_nat (length piece)) pieces final in
           (piece :: rest, final)
       end.

(** [readRange]. *)
Definition readRange (call : fileCall) (limit : Z)
    (write : bytes -> read_state -> M W (error * read_state)) (state : read_state) :
    M W (bool * error * read_state) :=
  let* (reader, info, e) := ex_OpenFile (ss_sandbox session) (fc_ctx call) (fc_path call) in
  match e with
  | Some _ => ret (false, e, state)
  | None =>
      let close (result : bool * error * read_state) : M W (bool * error * read_state) :=
        let* _ := ex_CloseReader (ss_sandbox session) in ret result in
      if negb (fi_IsRegular info) then close (false, Some (ESentinel ErrNotRegular), state)
      else
        let truncated := (0 <? limit) && (limit <? fi_Size info) in
        let* e := send call (ReadFileHeader (fi_Size info) truncated) in
        match e with
        | Some _ => close (false, e, state)
        | None =>
            let (pieces, final) :=
              if 0 <? limit then LimitReader limit (rd_pieces reader) (rd_final reader)
              else (rd_pieces reader, rd_final reader) in
            let* (e, state) := io_Copy write pieces final state in
            close (truncated, e, state)
        end
  end.

(** [ReadFile]. *)
Definition ReadFile (ctx : Ctx) (ids : list string) (path : string) (limit : Z) :
    M W (option Status) :=
  let invalid := if limit <? 0 then "max_bytes out of range"%string else ""%string in
  let* call := beginFile ctx ids kindFileRead path invalid
    {| fw_MaxBytes := limit; fw_FirstLine := 0; fw_MaxLines := 0; fw_MaxLineBytes := 0;
       fw_TotalLines := None |} in
  match call with
  | inr status => ret (Some status)
  | inl call =>
      let send_chunk chunk := send call (ReadFileChunk chunk) in
      let* (truncated, e, state) :=
        readRange call limit (sink_chunks send_chunk) (newSink false, []) in
      match e with
      | Some _ => finish call e (Some state.1) truncated
      | None =>
          let* (e, _) := chunk_flush send_chunk state.2 in
          finish call e (Some state.1) truncated
      end
  end.

(** The window's writes inside [readLines], the sink's state beside the world. *)
Definition window_Write (write : bytes -> read_state -> M W (error * read_state))
    (content : bytes) : M (W * read_state) error :=
  fun s => let '((e, state), w) := write content s.2 s.1 in (e, (w, state)).
Definition run_readLines (write : bytes -> read_state -> M W (error * read_state))
    (first count clamp : Z) (reader : Reader) (state : read_state) :
    M W (option ReadLinesSummary * error * read_state) :=
  fun w =>
    let '((summary, e), (w, state)) :=
      readLines (window_Write write) first count clamp (rd_final reader)
        (concat (rd_pieces reader)) (w, state) in
    ((summary, e, state), w).

(** [ReadLines]. *)
Definition ReadLines (ctx : Ctx) (ids : list string) (path : string) (first count clamp : Z) :
    M W (option Status) :=
  let invalid := if (first <? 1) || (count <? 1) || (clamp <? 0)
                 then "line window out of range"%string else ""%string in
  let* call := beginFile ctx ids kindFileRead path invalid
    {| fw_MaxBytes := 0; fw_FirstLine := first; fw_MaxLines := count; fw_MaxLineBytes := clamp;
       fw_TotalLines := None |} in
  match call with
  | inr status => ret (Some status)
  | inl call =>
      let* (reader, info, e) := ex_OpenFile (ss_sandbox session) (fc_ctx call) path in
      let close := ex_CloseReader (ss_sandbox session) in
      let* e := match e with
                | Some _ => ret e
                | None =>
                    if negb (fi_IsRegular info)
                    then let* _ := close in ret (Some (ESentinel ErrNotRegular)) else ret None
                end in
      match e with
      | Some _ => finish call e None false
      | None =>
          let send_chunk chunk := send call (ReadLinesChunk chunk) in
          let* (summary, e, state) :=
            run_readLines (sink_chunks send_chunk) first count clamp reader (newSink false, []) in
          let call := match summary with
                      | Some summary => set_fc_TotalLines (sm_TotalLines summary) call
                      | None => call
                      end in
          let* e := match e with
                    | Some _ => ret e
                    | None => let* (e, _) := chunk_flush send_chunk state.2 in ret e
                    end in
          let* e := match e, summary with
                    | None, Some summary => send call (ReadLinesEnd summary (fi_Size info))
                    | _, _ => ret e
                    end in
          let* result := finish call e (Some state.1) (from_option sm_More false summary) in
          let* _ := close in
          ret result
      end
  end.

(** [WriteFile]. *)
Definition recv (r : received * option sentinel) : received :=
  match r with
  | (RecvError _, Some cause) => RecvError (ESentinel cause)
  | (r, _) => r
  end.
Definition WriteFile (ctx : Ctx) (ids : list string) : M W (option Status) :=
  let* (header, first_err) := st_RecvHeader session in
  let path := from_option fst ""%string header in
  let size := from_option snd 0 header in
  let invalid := if negb (is_nil first_err) || negb (bool_decide (is_Some header)) || (size <? 0)
                 then sentinel_text ErrWriteStream else ""%string in
  let* call := beginFile ctx ids kindFileWrite path invalid no_window in
  match call with
  | inr status => ret (Some status)
  | inl call =>
      let* messages := st_messages session in
      let* buffers := ex_WriteFile_reads (ss_sandbox session) (fc_ctx call) path size in
      let '(content, read_err, reader) :=
        read_body buffers (map recv messages)
          {| sr_remaining := size; sr_pending := []; sr_sink := newSink true |} in
      let* (created, e) :=
        ex_WriteFile (ss_sandbox session) (fc_ctx call) path size content read_err in
      match e with
      | Some _ => finish call e (Some (sr_sink reader)) false
      | None =>
          let* _ := st_Send session (WriteFileResponse size created) in
          finish call None (Some (sr_sink reader)) false
      end
  end.

(** [Exec]. *)
Record ExecRequest := { er_Script : string; er_Stdin : bytes; er_Login : bool }.
Record ExecResponse := {
  ep_ExitCode : Z; ep_Reason : string; ep_Stdout : bytes; ep_Stderr : bytes; ep_Truncated : bool
}.
Definition exec_raw (request : ExecRequest) (stdin : bytes) (count : Z) : rawGRPCRecord :=
  {| rg_SandboxID := ""; rg_OperationClass := kindExec; rg_Status := ""; rg_RunID := "";
     rg_TaskID := ""; rg_ContainerID := ""; rg_Path := ""; rg_Login := er_Login request;
     rg_Script := er_Script request; rg_Stdin := stdin; rg_StdinBytes := count;
     rg_ReadBytes := 0; rg_SHA256 := "" |}.
Definition exec_refusal (request : ExecRequest) (started : Z) (message toolCallID : string) :
    toolCallRecord :=
  {| gr_ToolCallRecord :=
       {| tc_SandboxID := ""; tc_Sequence := 0; tc_Timestamp := ""; tc_ContainerID := "";
          tc_ContainerName := ""; tc_OperationClass := kindExec; tc_WorkspaceHome := "";
          tc_Environment := []; tc_Path := ""; tc_Workdir := "";
          tc_CommandHash := CommandHash session (er_Script request);
          tc_Command := er_Script request; tc_Argv := []; tc_Stdin := "";
          tc_StdinEncoding := "utf-8"; tc_StdinBytes := 0; tc_StdoutBytes := 0;
          tc_StderrBytes := 0; tc_ExitCode := refusedExitCode;
          tc_StartedAt := time_text session started; tc_DurationMS := 0;
          tc_Status := "rejected"; tc_Error := message; tc_RunID := ""; tc_TaskID := "";
          tc_ToolCallID := toolCallID |};
     gr_SHA256 := ""; gr_Truncated := false; gr_Window := no_window |}.
Definition exec_refuse (request : ExecRequest) (toolCallID : string) (code : Code)
    (message : string) : M W (ExecResponse + Status) :=
  let* now := time_Now in
  let* _ := writeRecord session (exec_refusal request now message toolCallID)
              (exec_raw request [] 0) in
  ret (inr {| st_Code := code; st_Message := message |}).
Definition exec_outcome (result : CommandResult) (e : error) : Z * string * string * string :=
  let '(exitCode, reason, statusText, message) :=
    match e with
    | None => (cr_ExitCode result, "completed", "completed", "")
    | Some _ =>
        if HasCancellationCause e
        then (255, if error_Is e DeadlineExceeded then "timed_out" else "canceled",
              "canceled", "session canceled")
        else (255, "sandbox_error", "failed", "sandbox execution failed")
    end%string in
  (if (exitCode <? 0) || (255 <? exitCode) then 255 else exitCode, reason, statusText, message).
Definition Exec (ctx : Ctx) (ids : list string) (request : ExecRequest) :
    M W (ExecResponse + Status) :=
  let sandbox := ss_sandbox session in
  let script := er_Script request in
  let input := er_Stdin request in
  let args := if er_Login request then ["-l"; "-c"; script]%string else ["-c"; script]%string in
  let command :=
    {| cm_Path := RemoteShellPath; cm_Args := args; cm_Dir := ex_Workdir sandbox; cm_Env := ∅;
       cm_Stdin := []; cm_Timeout := 0; cm_User := ""; cm_OutputLimitBytes := 0 |} in
  let (toolCallID, validID) := incomingToolCallID ids in
  let refuse := exec_refuse request toolCallID in
  let* revoked := ss_revoked session in
  if revoked : bool then refuse CodeUnavailable "session revoked"%string else
  let* auditErr := ss_audit_Err session in
  if negb (is_nil auditErr) then refuse CodeUnavailable auditFailed else
  if negb validID then refuse CodeInvalidArgument invalidToolCallID else
  if MaxRecordedInputBytes <? Z.of_nat (length input)
  then refuse CodeResourceExhausted "stdin exceeds the retained bound"%string else
  if negb (ValidWorkdir (cm_Dir command))
  then refuse CodeFailedPrecondition "sandbox workdir is not shell-neutral"%string else
  let* callCtx := callContext session ctx in
  let* started := time_Now in
  let* (result, e, out, errout) := ex_ExecStream sandbox callCtx command input in
  let stdout := bounded_writes out (newBoundedWriter defaultOutputLimit) in
  let stderr := bounded_writes errout (newBoundedWriter defaultOutputLimit) in
  let '(exitCode, reason, statusText, message) := exec_outcome result e in
  let truncated := bw_cut stdout || bw_cut stderr in
  let count := Z.of_nat (length input) in
  let (stdinContent, stdinEncoding) := describeInput (ss_RetainsRaw session) input count in
  let* now := time_Now in
  let* _ := writeRecord session
    {| gr_ToolCallRecord :=
         {| tc_SandboxID := ""; tc_Sequence := 0; tc_Timestamp := ""; tc_ContainerID := "";
            tc_ContainerName := ""; tc_OperationClass := kindExec; tc_WorkspaceHome := "";
            tc_Environment := []; tc_Path := cm_Path command; tc_Workdir := cm_Dir command;
            tc_CommandHash := CommandHash session script; tc_Command := script;
            tc_Argv := cm_Path command :: cm_Args command; tc_Stdin := stdinContent;
            tc_StdinEncoding := stdinEncoding; tc_StdinBytes := count;
            tc_StdoutBytes := bw_total stdout; tc_StderrBytes := bw_total stderr;
            tc_ExitCode := exitCode; tc_StartedAt := time_text session started;
            tc_DurationMS := milliseconds (now - started); tc_Status := statusText;
            tc_Error := message; tc_RunID := ""; tc_TaskID := "";
            tc_ToolCallID := toolCallID |};
       gr_SHA256 := ""; gr_Truncated := truncated; gr_Window := no_window |}
    (exec_raw request input count) in
  let* _ := ss_end_call session callCtx in
  ret (inl {| ep_ExitCode := exitCode; ep_Reason := reason; ep_Stdout := bw_retained stdout;
              ep_Stderr := bw_retained stderr; ep_Truncated := truncated |}).
End Handlers.

(** * The calls of a handler *)

Inductive event :=
  | EvRevoked (revoked : bool)
  | EvAuditErr (e : error)
  | EvExec (ctx : Ctx) (command : Command) (stdin : bytes)
      (outcome : CommandResult * error * list bytes * list bytes)
  | EvStat (ctx : Ctx) (path : string) (outcome : FileInfo * error)
  | EvOpen (ctx : Ctx) (path : string) (outcome : Reader * FileInfo * error)
  | EvCloseReader
  | EvReads (ctx : Ctx) (path : string) (size : Z)
  | EvWrite (ctx : Ctx) (path : string) (size : Z) (content : bytes) (e : error)
      (outcome : bool * error)
  | EvHeader (outcome : option (string * Z) * error)       (* the first Recv *)
  | EvMessages (messages : list (received * option sentinel))   (* the later ones *)
  | EvSend (m : message) (e : error)
  | EvRecord (record : toolCallRecord) (raw : rawGRPCRecord)
  | EvEnd (ctx : Ctx).

Section Traced.
Context {W : Type} `{!Runtime W}.

Definition traced_executor (ex : Executor W) : Executor (W * list event) :=
  {| ex_ContainerID := ex_ContainerID ex; ex_ContainerName := ex_ContainerName ex;
     ex_RunID := ex_RunID ex; ex_TaskID := ex_TaskID ex; ex_Workdir := ex_Workdir ex;
     ex_ExecStream ctx command stdin :=
       logged (EvExec ctx command stdin) (ex_ExecStream ex ctx command stdin);
     ex_StatFile ctx path := logged (EvStat ctx path) (ex_StatFile ex ctx path);
     ex_OpenFile ctx path := logged (EvOpen ctx path) (ex_OpenFile ex ctx path);
     ex_CloseReader := logged (fun _ => EvCloseReader) (ex_CloseReader ex);
     ex_WriteFile_reads ctx path size :=
       logged (fun _ => EvReads ctx path size) (ex_WriteFile_reads ex ctx path size);
     ex_WriteFile ctx path size content e :=
       logged (EvWrite ctx path size content e) (ex_WriteFile ex ctx path size content e) |}.

Definition traced (s : Session W) : Session (W * list event) :=
  {| ss_revoked := logged EvRevoked (ss_revoked s);
     ss_audit_Err := logged EvAuditErr (ss_audit_Err s);
     ss_RetainsRaw := ss_RetainsRaw s;
     ss_Enqueue record raw := logged (fun _ => EvRecord record raw) (ss_Enqueue s record raw);
     ss_sandboxID := ss_sandboxID s;
     ss_sandbox := traced_executor (ss_sandbox s);
     ss_AfterFunc ctx := silent (ss_AfterFunc s ctx);
     ss_end_call ctx := logged (fun _ => EvEnd ctx) (ss_end_call s ctx);
     st_Send m := logged (EvSend m) (st_Send s m);
     st_RecvHeader := logged EvHeader (st_RecvHeader s);
     st_messages := logged EvMessages (st_messages s);
     time_text := time_text s;
     sha256_hex := sha256_hex s |}.
End Traced.

(** Calls of the stream that send, and calls of a file procedure on [path]: of the
    target, for that path, or of the stream. *)
Definition sending (ev : event) : Prop := match ev with EvSend _ _ => True | _ => False end.
Definition working (path : string) (ev : event) : Prop :=
  match ev with
  | EvStat _ path' _ | EvOpen _ path' _ | EvReads _ path' _ | EvWrite _ path' _ _ _ _ => path' = path
  | EvCloseReader | EvMessages _ | EvSend _ _ => True
  | _ => False
  end.

(** The record names the session's target. *)
Definition identified {W} (s : Session W) (record : toolCallRecord) (raw : rawGRPCRecord) : Prop :=
  let tc := gr_ToolCallRecord record in
  let sandbox := ss_sandbox s in
  tc_SandboxID tc = ss_sandboxID s /\ tc_ContainerID tc = ex_ContainerID sandbox /\
  tc_ContainerName tc = ex_ContainerName sandbox /\ tc_RunID tc = ex_RunID sandbox /\
  tc_TaskID tc = ex_TaskID sandbox /\ rg_SandboxID raw = tc_SandboxID tc /\
  rg_RunID raw = tc_RunID tc /\ rg_TaskID raw = tc_TaskID tc /\
  rg_ContainerID raw = tc_ContainerID tc /\ rg_Status raw = tc_Status tc /\
  rg_OperationClass raw = tc_OperationClass tc.

(** The checks that precede a call, in order, with the refusal they give. *)
Inductive refused : list event -> Status -> Prop :=
  | refused_revoked :
      refused [EvRevoked true] {| st_Code := CodeUnavailable; st_Message := "session revoked" |}
  | refused_audit e :
      refused [EvRevoked false; EvAuditErr (Some e)]
        {| st_Code := CodeUnavailable; st_Message := auditFailed |}
  | refused_arguments code message :
      code <> CodeUnavailable ->
      refused [EvRevoked false; EvAuditErr None] {| st_Code := code; st_Message := message |}.
Definition admitted : list event := [EvRevoked false; EvAuditErr None].

(** The status text of the record of a call that was admitted. *)
Definition status_text (result : option Status) : string :=
  match result with
  | None => "completed"
  | Some status => if decide (st_Code status = CodeCanceled) then "canceled" else "failed"
  end.

(** A served call: refused, with nothing asked of the target or the stream and one
    record; or admitted, with one record after all its work, which is on the call's
    path, then the end of its context and at most the close of the file it read. *)
Inductive served {W} (s : Session W) (kind path : string) (result : option Status) : list event -> Prop :=
  | served_refusal checks status record raw :
      result = Some status -> refused checks status ->
      identified s record raw ->
      tc_Status (gr_ToolCallRecord record) = "rejected"%string ->
      tc_Error (gr_ToolCallRecord record) = st_Message status ->
      tc_OperationClass (gr_ToolCallRecord record) = kind ->
      tc_Path (gr_ToolCallRecord record) = path ->
      served s kind path result (checks ++ [EvRecord record raw])
  | served_call work record raw ctx after :
      Forall (working path) work -> (after = [] \/ after = [EvCloseReader]) ->
      identified s record raw ->
      tc_Status (gr_ToolCallRecord record) = status_text result ->
      tc_Error (gr_ToolCallRecord record) = from_option st_Message ""%string result ->
      tc_OperationClass (gr_ToolCallRecord record) = kind ->
      tc_Path (gr_ToolCallRecord record) = path ->
      HasPrefix path "/" = true -> ContainsByte path NUL = false ->
      served s kind path result (admitted ++ work ++ [EvRecord record raw; EvEnd ctx] ++ after).

Section Served.
Context {W : Type} `{!Runtime W}.
Variable s : Session W.
Let t := traced s.

(** One record, and what it says. *)
Definition recorded (kind path statusText message : string) (evs : list event) : Prop :=
  exists record raw, evs = [EvRecord record raw] /\ identified s record raw /\
    tc_Status (gr_ToolCallRecord record) = statusText /\
    tc_Error (gr_ToolCallRecord record) = message /\
    tc_OperationClass (gr_ToolCallRecord record) = kind /\
    tc_Path (gr_ToolCallRecord record) = path.

Lemma recordFile_emits call sink truncated duration statusText message :
  emits (recordFile t call sink truncated duration statusText message) (fun _ evs =>
    recorded (fc_kind call) (fc_path call) statusText message evs).
Proof.
  unfold recordFile, file_record. destruct (match sink with Some _ => _ | None => _ end) as [stdin enc].
  apply emits_logged. intros _. eexists _, _. split; [reflexivity|]. by repeat split.
Qed.

Lemma reject_emits call (code : Code) message checks :
  refused checks {| st_Code := code; st_Message := message |} ->
  emits (bind (recordFile t call None false 0 "rejected" message)
           (fun _ => ret (inr {| st_Code := code; st_Message := message |})))
    (fun (r : fileCall + Status) evs =>
       match r with
       | inr status => served s (fc_kind call) (fc_path call) (Some status) (checks ++ evs)
       | inl _ => False
       end).
Proof.
  intros Hr. eapply emits_bind; [apply recordFile_emits|].
  intros _ evs (record & raw & -> & Hid & Hs & He & Hk & Hp). apply emits_ret.
  by apply (served_refusal s _ _ _ checks {| st_Code := code; st_Message := message |}).
Qed.

Lemma beginFile_emits ctx ids kind path invalid window :
  emits (beginFile t ctx ids kind path invalid window) (fun r evs =>
    match r with
    | inr status => served s kind path (Some status) evs
    | inl call =>
        evs = admitted /\ fc_kind call = kind /\ fc_path call = path /\
        HasPrefix path "/" = true /\ ContainsByte path NUL = false /\ invalid = ""%string
    end).
Proof.
  unfold beginFile. destruct (incomingToolCallID ids) as [id valid].
  apply emits_read. intros started. apply emits_call. intros [].
  { eapply emits_mono; [apply (reject_emits _ _ _ [EvRevoked true]); constructor|].
    by intros [call|status] evs. }
  apply emits_call. intros e.
  destruct (is_nil e) eqn:He; cbn [negb].
  2: { destruct e as [e|]; [|done].
       eapply emits_mono; [apply (reject_emits _ _ _ [EvRevoked false; EvAuditErr (Some e)]); constructor|].
       by intros [call|status] evs. }
  destruct e; [done|].
  repeat match goal with
  | |- emits (if ?b then bind _ _ else _) _ =>
      destruct b eqn:?;
      [eapply emits_mono; [apply (reject_emits _ _ _ admitted); by constructor|];
       by intros [call|status] evs|]
  end.
  apply emits_flatten, emits_read. intros _. apply emits_ret. simpl.
  match goal with H : _ || _ = false |- _ => apply orb_false_iff in H as [H1 H2] end.
  apply negb_false_iff in H1.
  match goal with H : negb (_ =? _)%string = false |- _ =>
    apply negb_false_iff, String.eqb_eq in H end.
  done.
Qed.

(** A call that was admitted leaves the record of its outcome. *)
Lemma file_finish_emits call e sink truncated work :
  HasPrefix (fc_path call) "/" = true -> ContainsByte (fc_path call) NUL = false ->
  Forall (working (fc_path call)) work ->
  emits (finish t call e sink truncated) (fun result evs =>
    (result = None <-> e = None) /\
    forall after, after = [] \/ after = [EvCloseReader] ->
      served s (fc_kind call) (fc_path call) result (admitted ++ work ++ evs ++ after)).
Proof.
  intros Hp Hn Hw. unfold finish. apply emits_read. intros now.
  eapply emits_bind; [apply recordFile_emits|].
  intros _ evs (record & raw & -> & Hid & Hs & He & Hk & Hpa). apply emits_call. intros _.
  apply emits_ret. simpl. split; [by destruct e|]. intros after Hafter.
  by apply (served_call s).
Qed.

(** ** The stream *)

Definition delivered (wrapm : bytes -> message) (m : bytes) (e : error) (evs : list event) : Prop :=
  exists e0, evs = [EvSend (wrapm m) e0] /\ (e = None <-> e0 = None).

Lemma send_emits call m :
  emits (send t call m) (fun e evs => exists e0, evs = [EvSend m e0] /\ (e = None <-> e0 = None)).
Proof.
  unfold send. apply emits_call. intros [e|]; unfold streamErr.
  - apply emits_read. intros [cause|]; apply emits_ret; by eexists.
  - apply emits_ret. by eexists.
Qed.

Lemma send_chunk_emits call wrapm m : emits (send t call (wrapm m)) (delivered wrapm m).
Proof. apply send_emits. Qed.

Lemma sending_working path evs : Forall sending evs -> Forall (working path) evs.
Proof. intros H. eapply Forall_impl; [exact H|]. by intros []. Qed.

Lemma wrote_all_working wrapm ms e evs : wrote_all (delivered wrapm) ms e evs -> Forall sending evs.
Proof.
  induction 1 as [|m e evs (e0 & -> & _)|m ms e evs evs' (e0 & -> & _) _ IH]; [constructor|..].
  - by repeat constructor.
  - by constructor.
Qed.

(** The messages that were sent. *)
Definition sent (evs : list event) : list message :=
  omap (fun ev => match ev with EvSend m None => Some m | _ => None end) evs.

Lemma sent_app a b : sent (a ++ b) = sent a ++ sent b.
Proof. apply omap_app. Qed.

Lemma wrote_all_sent wrapm ms evs :
  wrote_all (delivered wrapm) ms None evs -> sent evs = map wrapm ms.
Proof.
  intros H. remember None as none eqn:Hn in H.
  induction H as [|m e evs Hw|m ms e evs evs' (e0 & -> & He0) _ IH]; [done|done|].
  destruct He0 as [He0 _]. rewrite (He0 eq_refl). simpl. by rewrite IH.
Qed.

(** ** A read's sink *)

Definition counts (content : bytes) (sink : contentSink) : Prop :=
  sk_hash sink = content /\ sk_count sink = Z.of_nat (length content) /\ sk_keep sink = false.

Lemma counts_absorb content more sink :
  counts content sink -> counts (content ++ more) (sink_absorb more sink).
Proof.
  intros (Hh & Hc & Hk). unfold sink_absorb. rewrite Hk. simpl.
  split_and!; simpl; [by rewrite Hh|rewrite length_app; lia|done].
Qed.

(** What a read has done: the content so far, of which the pending bytes are not
    sent yet; or a failure. *)
Definition copied (wrapm : bytes -> message) (content : bytes) (e : error) (state : read_state)
    (evs : list event) : Prop :=
  Forall sending evs /\
  (e = None -> counts content state.1 /\ (length state.2 < chunkBytes)%nat /\
     exists ms, wrote_all (delivered wrapm) ms None evs /\ Forall full ms /\
       concat ms ++ state.2 = content).

Lemma copied_start wrapm : copied wrapm [] None (newSink false, []) [].
Proof.
  split; [constructor|]. intros _. split_and!; [done|apply chunkBytes_pos|].
  exists []. split_and!; [constructor|constructor|done].
Qed.

Lemma sink_chunks_emits call wrapm piece content state evs :
  copied wrapm content None state evs ->
  emits (sink_chunks (fun m => send t call (wrapm m)) piece state) (fun r evs' =>
    copied wrapm (content ++ piece) r.1 r.2 (evs ++ evs')).
Proof.
  intros (Hwork & H). destruct (H eq_refl) as (Hc & Hp & ms & Hms & Hfull & Hcat). clear H.
  unfold sink_chunks, sink_Write. apply emits_flatten.
  eapply emits_bind;
    [apply (chunk_Write_emits _ (delivered wrapm) (send_chunk_emits call wrapm)); exact Hp|].
  intros [[k e] pending'] evs' Hb. simpl in Hb.
  pose proof (batched_after _ _ _ _ _ _ _ Hms Hfull Hb) as (ms' & Hms' & Hfull' & He).
  rewrite app_assoc, Hcat in He.
  destruct e as [e|]; apply emits_bind_ret, emits_ret; rewrite app_nil_r; simpl.
  - split; [by eapply wrote_all_working|done].
  - destruct He as [He Hp']. split; [by eapply wrote_all_working|]. intros _.
    split_and!; [by apply counts_absorb|done|by exists ms'].
Qed.

Lemma io_Copy_emits call wrapm pieces final content state evs :
  copied wrapm content None state evs ->
  emits (io_Copy (sink_chunks (fun m => send t call (wrapm m))) pieces final state) (fun r evs' =>
    copied wrapm (content ++ concat pieces) r.1 r.2 (evs ++ evs')).
Proof.
  revert content state evs. induction pieces as [|piece pieces IH]; intros content state evs H;
    cbn [io_Copy concat].
  - apply emits_ret. rewrite !app_nil_r. destruct (errors_Is final ErrEOF); [done|].
    split; [apply H|done].
  - eapply emits_bind; [by apply sink_chunks_emits|]. intros [e state'] evs' H'.
    destruct e as [e|].
    + apply emits_ret. rewrite app_nil_r. split; [apply H'|done].
    + eapply emits_mono; [apply (IH _ _ _ H')|]. intros r evs''. by rewrite !app_assoc.
Qed.

Lemma LimitReader_concat n pieces final :
  concat (LimitReader n pieces final).1 = take (Z.to_nat n) (concat pieces).
Proof.
  revert n. induction pieces as [|piece pieces IH]; intros n; cbn [LimitReader];
    destruct (Z.leb_spec n 0) as [Hn|Hn].
  - simpl; by rewrite take_nil.
  - simpl; by rewrite take_nil.
  - replace (Z.to_nat n) with 0%nat by lia. done.
  - specialize (IH (n - Z.of_nat (length (take (Z.to_nat n) piece)))).
    destruct (LimitReader _ pieces final) as [rest final']. simpl in *. rewrite IH, take_app.
    f_equal. f_equal. rewrite length_take. lia.
Qed.

(** ** ReadFile *)

(** The bytes a read of [limit] asks for; zero reads to the end. *)
Definition range_of (limit : Z) (reader : Reader) : bytes :=
  if 0 <? limit then take (Z.to_nat limit) (concat (rd_pieces reader)) else concat (rd_pieces reader).

(** What a completed [readRange] did. *)
Definition ranged (call : fileCall) (limit : Z) (truncated : bool) (state : read_state)
    (evs : list event) : Prop :=
  exists reader info ms chunks,
    evs = EvOpen (fc_ctx call) (fc_path call) (reader, info, None) ::
          EvSend (ReadFileHeader (fi_Size info) truncated) None :: chunks ++ [EvCloseReader] /\
    fi_IsRegular info = true /\ truncated = (0 <? limit) && (limit <? fi_Size info) /\
    wrote_all (delivered ReadFileChunk) ms None chunks /\ Forall full ms /\
    concat ms ++ state.2 = range_of limit reader /\ (length state.2 < chunkBytes)%nat /\
    counts (range_of limit reader) state.1.

Lemma readRange_emits call limit :
  emits (readRange t call limit (sink_chunks (fun m => send t call (ReadFileChunk m))) (newSink false, []))
    (fun r evs => let '(truncated, e, state) := r in
       Forall (working (fc_path call)) evs /\ (e = None -> ranged call limit truncated state evs)).
Proof.
  unfold readRange. apply emits_call. intros [[reader info] [e|]].
  { apply emits_ret. split; [by repeat constructor|done]. }
  destruct (fi_IsRegular info) eqn:Hreg; cbn [negb].
  2: { apply emits_call. intros _. apply emits_ret. split; [by repeat constructor|done]. }
  set (truncated := (0 <? limit) && (limit <? fi_Size info)).
  eapply emits_bind; [apply send_emits|]. intros e evs (e0 & -> & He0).
  destruct e as [e|].
  { apply emits_call. intros _. apply emits_ret. split; [by repeat constructor|done]. }
  replace e0 with (@None err) by (symmetry; by apply He0).
  set (source := if 0 <? limit then _ else _).
  assert (concat source.1 = range_of limit reader) as Hsource.
  { unfold source, range_of. destruct (0 <? limit); [apply LimitReader_concat|done]. }
  destruct source as [pieces final]. simpl in Hsource. clear e0 He0.
  eapply emits_bind; [apply (io_Copy_emits call ReadFileChunk pieces final [] _ []), copied_start|].
  intros [e state] evs (Hwork & Hdone). simpl in Hwork, Hdone. rewrite Hsource in Hdone.
  apply emits_call. intros _. apply emits_ret.
  split.
  { constructor; [done|]. constructor; [done|]. apply Forall_app.
    split; [by apply sending_working|by repeat constructor]. }
  intros ->. destruct (Hdone eq_refl) as (Hc & Hp & ms & Hms & Hfull & Hcat).
  exists reader, info, ms, evs. by split_and!.
Qed.

(** A completed ReadFile: what was sent, and what the record says of it. *)
Definition read_completed (path : string) (limit : Z) (evs : list event) : Prop :=
  exists ctx reader info ms record raw,
    EvOpen ctx path (reader, info, None) ∈ evs /\ fi_IsRegular info = true /\
    EvRecord record raw ∈ evs /\
    let truncated := (0 <? limit) && (limit <? fi_Size info) in
    let content := range_of limit reader in
    sent evs = ReadFileHeader (fi_Size info) truncated :: map ReadFileChunk ms /\
    well_chunked ms /\ concat ms = content /\
    gr_Truncated record = truncated /\ gr_SHA256 record = sha256_hex s content /\
    tc_StdoutBytes (gr_ToolCallRecord record) = Z.of_nat (length content).

(** The record of a completed read. *)
Lemma finish_read_record call e sink truncated :
  fc_kind call = kindFileRead ->
  emits (finish t call e (Some sink) truncated) (fun _ evs =>
    sent evs = [] /\ (e = None -> exists record raw, EvRecord record raw ∈ evs /\
      gr_Window record = fc_window call /\ gr_Truncated record = truncated /\
      gr_SHA256 record = sha256_hex s (sk_hash sink) /\
      tc_StdoutBytes (gr_ToolCallRecord record) = sk_count sink)).
Proof.
  intros Hk. unfold finish. apply emits_read. intros now.
  unfold recordFile, file_record. rewrite Hk. simpl. unfold writeRecord.
  apply emits_call. intros _. apply emits_call. intros _. apply emits_ret.
  split; [done|]. intros ->. eexists _, _. split; [left|]. by simpl.
Qed.

Lemma ReadFile_emits ctx ids path limit :
  emits (ReadFile t ctx ids path limit) (fun result evs =>
    served s kindFileRead path result evs /\ (result = None -> read_completed path limit evs)).
Proof.
  unfold ReadFile. eapply emits_bind; [apply beginFile_emits|].
  intros [call|status] evs; [intros (-> & Hk & Hpath & Hp & Hn & _)|intros H].
  2: { apply emits_ret. rewrite app_nil_r. by split. }
  rewrite <- Hpath in Hp, Hn.
  eapply emits_bind; [apply readRange_emits|].
  intros [[truncated e] state] evs (Hwork & Hdone). destruct e as [e|].
  - eapply emits_mono; [by apply (file_finish_emits call (Some e) _ _ evs)|].
    intros result evs' [He H]. specialize (H [] (or_introl eq_refl)).
    rewrite Hk, Hpath, app_nil_r in H. split; [done|]. intros ->.
    by destruct He as [He _]; discriminate (He eq_refl).
  - destruct (Hdone eq_refl) as (reader & info & ms & chunks & -> & Hreg & Htr & Hms & Hfull & Hcat & Hp' & Hc).
    eapply emits_bind.
    { apply (chunk_flush_emits _ (delivered ReadFileChunk) (send_chunk_emits call ReadFileChunk)
               ms chunks state.2 Hms Hfull Hp'). }
    intros [e pending] evs (ms' & Hms' & Hchunked & Hpre & Hall). simpl in Hms', Hall.
    rewrite Hcat in Hall, Hpre.
    assert (Forall (working (fc_path call)) evs) as Hwork'.
    { apply wrote_all_working in Hms'. by apply sending_working; apply Forall_app in Hms' as [_ ?]. }
    set (work := EvOpen _ _ _ :: _) in *.
    assert (Forall (working (fc_path call)) (work ++ evs)) as Hall_work by (by apply Forall_app).
    eapply emits_mono.
    { apply emits_and; [by apply (file_finish_emits call e (Some state.1) truncated (work ++ evs))|].
      by apply (finish_read_record call e). }
    destruct Hc as (Hhash & Hcount & _). rewrite Hhash, Hcount.
    intros result evs' [[He Hserved] [Hsent Hrec]]. specialize (Hserved [] (or_introl eq_refl)).
    rewrite Hk, Hpath, app_nil_r, <- app_assoc in Hserved.
    split; [done|]. intros ->. destruct (Hrec (proj1 He eq_refl)) as (record & raw & Hin & _ & ? & ? & ?).
    exists (fc_ctx call), reader, info, ms', record, raw. subst truncated.
    cbv zeta. split_and!; try done.
    + apply elem_of_app. right. unfold work. rewrite Hpath. left.
    + apply elem_of_app. right. apply elem_of_app. right. apply elem_of_app. by right.
    + rewrite !sent_app, Hsent. change (sent admitted) with (@nil message). unfold work. simpl.
      f_equal. rewrite app_nil_r, sent_app. simpl. rewrite app_nil_r, <- sent_app.
      apply wrote_all_sent. by rewrite <- (proj1 He eq_refl).
    + by apply Hall, He.
Qed.

(** ** ReadLines *)

Lemma run_readLines_emits call first count clamp reader :
  1 <= first ->
  emits (run_readLines (sink_chunks (fun m => send t call (ReadLinesChunk m))) first count clamp
           reader (newSink false, []))
    (fun r evs => let '(summary, e, state) := r in
       Forall sending evs /\
       (e = None -> ends_file (rd_final reader) ->
        let data := concat (rd_pieces reader) in
        summary = Some {| sm_TotalLines := newlines data;
                          sm_EndsWithNewline := bool_decide (last data = Some NL);
                          sm_More := bool_decide (newlines data > first + count - 1) |} /\
        copied ReadLinesChunk (window_spec first count clamp data) None state evs)).
Proof.
  intros Hf w tr. unfold run_readLines.
  set (window := window_Write _).
  set (holds := fun acc (x : (W * list event) * read_state) =>
                  exists evs, x.1.2 = tr ++ evs /\ copied ReadLinesChunk acc None x.2 evs).
  set (failed := fun (x : (W * list event) * read_state) =>
                   exists evs, x.1.2 = tr ++ evs /\ Forall sending evs).
  assert (forall content acc x, holds acc x ->
    let (e, x') := window content x in
    match e with None => holds (acc ++ content) x' | Some _ => failed x' end) as Hstep.
  { intros content acc [[w1 tr1] state] (evs & Htr & Hc). simpl in Htr, Hc. unfold window, window_Write.
    destruct (sink_chunks_emits call ReadLinesChunk content acc state evs Hc w1 tr1)
      as (evs' & Htr' & Hc'). simpl in *.
    destruct (sink_chunks _ content state (w1, tr1)) as [[e state'] [w2 tr2]]. simpl in *. subst.
    destruct e as [e|]; exists (evs ++ evs'); (split; [by rewrite app_assoc|]).
    - apply Hc'.
    - done. }
  pose proof (readLines_loop_sim window holds failed Hstep first count clamp (rd_final reader)
    (S (length (concat (rd_pieces reader)))) min_buffer_size (concat (rd_pieces reader)) 0 0 NUL []
    ((w, tr), (newSink false, []))) as Hsim.
  fold (readLines window first count clamp (rd_final reader) (concat (rd_pieces reader))) in Hsim.
  fold (readLines collect_Write first count clamp (rd_final reader) (concat (rd_pieces reader))) in Hsim.
  assert (holds [] ((w, tr), (newSink false, []))) as H0.
  { exists []. split; [by rewrite app_nil_r|apply copied_start]. }
  specialize (Hsim H0).
  destruct (readLines window _ _ _ _ _ _) as [[summary e] [[w' tr'] state']].
  destruct Hsim as [[Heq (evs & Htr & Hc)]|[He (evs & Htr & Hw)]]; simpl in *; exists evs;
    (split; [done|]); (split; [done || apply Hc|]).
  - intros -> Hfinal. rewrite (readLines_window _ _ _ _ _ Hf Hfinal) in Heq, Hc.
    simpl in Heq, Hc. injection Heq as ->. by split.
  - intros ->. done.
Qed.

(** A completed ReadLines: what was sent, and what the record says of it. *)
Definition lines_completed (path : string) (first count clamp : Z) (evs : list event) : Prop :=
  exists ctx reader info record raw,
    EvOpen ctx path (reader, info, None) ∈ evs /\ fi_IsRegular info = true /\
    EvRecord record raw ∈ evs /\
    (ends_file (rd_final reader) ->
     let data := concat (rd_pieces reader) in
     let window := window_spec first count clamp data in
     exists ms summary,
       sent evs = map ReadLinesChunk ms ++ [ReadLinesEnd summary (fi_Size info)] /\
       well_chunked ms /\ concat ms = window /\
       sm_TotalLines summary = newlines data /\
       sm_EndsWithNewline summary = bool_decide (last data = Some NL) /\
       sm_More summary = bool_decide (newlines data > first + count - 1) /\
       gr_Truncated record = sm_More summary /\ gr_SHA256 record = sha256_hex s window /\
       fw_TotalLines (gr_Window record) = Some (newlines data) /\
       tc_StdoutBytes (gr_ToolCallRecord record) = Z.of_nat (length window)).

(** The window was sent, and then its summary. *)
Definition lines_sent (first count clamp : Z) (reader : Reader) (size : Z)
    (summary : option ReadLinesSummary) (evs : list event) : Prop :=
  let data := concat (rd_pieces reader) in
  exists ms,
    summary = Some {| sm_TotalLines := newlines data;
                      sm_EndsWithNewline := bool_decide (last data = Some NL);
                      sm_More := bool_decide (newlines data > first + count - 1) |} /\
    well_chunked ms /\ concat ms = window_spec first count clamp data /\
    exists summary', summary = Some summary' /\
      sent evs = map ReadLinesChunk ms ++ [ReadLinesEnd summary' size].

(** The last flush; what it completes is known when [P] holds. *)
Lemma flush_emits call state chunks content (P : Prop) :
  P \/ ~ P -> (P -> copied ReadLinesChunk content None state chunks) ->
  emits (chunk_flush (fun m => send t call (ReadLinesChunk m)) state.2) (fun r evs =>
    Forall sending evs /\ (P -> sent_all (delivered ReadLinesChunk) content r.1 (chunks ++ evs))).
Proof.
  intros [HP|HP] Hcopied.
  - destruct (Hcopied HP) as [_ H]. destruct (H eq_refl) as (_ & Hp & ms & Hms & Hfull & Hcat).
    eapply emits_mono; [by apply (chunk_flush_emits _ (delivered ReadLinesChunk)
      (send_chunk_emits call ReadLinesChunk) ms chunks)|].
    intros r evs Hall. rewrite Hcat in Hall. split; [|done].
    destruct Hall as (ms' & Hms' & _). apply wrote_all_working in Hms'.
    by apply Forall_app in Hms' as [_ ?].
  - unfold chunk_flush. destruct state.2 as [|b m]; [by apply emits_ret|].
    eapply emits_bind; [apply send_emits|]. intros e evs (e0 & -> & _). apply emits_ret.
    split; [by repeat constructor|done].
Qed.

Lemma summary_emits call call' first count clamp reader size summary e state chunks :
  Forall sending chunks ->
  (e = None -> ends_file (rd_final reader) ->
   summary = Some {| sm_TotalLines := newlines (concat (rd_pieces reader));
                     sm_EndsWithNewline := bool_decide (last (concat (rd_pieces reader)) = Some NL);
                     sm_More := bool_decide (newlines (concat (rd_pieces reader)) > first + count - 1) |} /\
   copied ReadLinesChunk (window_spec first count clamp (concat (rd_pieces reader))) None state chunks) ->
  emits
    (let* e := match e with
               | Some _ => ret e
               | None => let* (e, _) := chunk_flush (fun m => send t call (ReadLinesChunk m)) state.2 in ret e
               end in
     match e, summary with
     | None, Some summary => send t call' (ReadLinesEnd summary size)
     | _, _ => ret e
     end)
    (fun e' evs => Forall sending evs /\
       (e' = None -> ends_file (rd_final reader) ->
        lines_sent first count clamp reader size summary (chunks ++ evs) /\
        counts (window_spec first count clamp (concat (rd_pieces reader))) state.1)).
Proof.
  intros Hchunks Hdone. destruct e as [e|].
  { apply emits_bind_ret, emits_ret. by split. }
  apply emits_flatten. eapply emits_bind.
  - apply (flush_emits call state chunks
      (window_spec first count clamp (concat (rd_pieces reader))) (ends_file (rd_final reader))).
    { unfold ends_file. destruct (errors_Is _ ErrEOF), (errors_Is _ ErrBufferFull); naive_solver. }
    intros Hf. by apply Hdone.
  - intros [e pending] evs [Hw Hall]. simpl in Hall. apply emits_bind_ret.
    destruct e as [e|]; [apply emits_ret; by rewrite app_nil_r|].
    destruct summary as [summary|].
    2: { apply emits_ret. rewrite app_nil_r. split; [done|]. intros _ Hf.
         by destruct (Hdone eq_refl Hf) as [? _]. }
    eapply emits_mono; [apply send_emits|]. intros e evs' (e0 & -> & He0).
    split; [apply Forall_app; split; [done|by repeat constructor]|].
    intros -> Hf. rewrite (proj1 He0 eq_refl). destruct (Hdone eq_refl Hf) as [[= ->] Hc].
    split; [|by apply Hc]. destruct (Hall Hf) as (ms & Hms & Hch & _ & Hcat).
    exists ms. split_and!; [done|done|by apply Hcat|]. eexists. split; [done|].
    rewrite app_assoc, sent_app, (wrote_all_sent ReadLinesChunk ms) by done. done.
Qed.

Lemma ReadLines_emits ctx ids path first count clamp :
  emits (ReadLines t ctx ids path first count clamp) (fun result evs =>
    served s kindFileRead path result evs /\
    (result = None -> lines_completed path first count clamp evs)).
Proof.
  unfold ReadLines. eapply emits_bind; [apply beginFile_emits|].
  intros [call|status] evs; [intros (-> & Hk & Hpath & Hp & Hn & Hinv)|intros H].
  2: { apply emits_ret. rewrite app_nil_r. by split. }
  assert (1 <= first) as Hfirst.
  { destruct (Z.ltb_spec first 1); [done|lia]. }
  rewrite <- Hpath in Hp, Hn. rewrite <- Hpath at 1.
  apply emits_call. intros [[reader info] e].
  assert (forall e0 evs0, Forall (working (fc_path call)) evs0 ->
    emits (finish t call (Some e0) None false) (fun result evs =>
      served s kindFileRead path result
        (admitted ++ EvOpen (fc_ctx call) (fc_path call) (reader, info, e) :: evs0 ++ evs) /\
      (result = None -> lines_completed path first count clamp
        (admitted ++ EvOpen (fc_ctx call) (fc_path call) (reader, info, e) :: evs0 ++ evs)))) as Hfail.
  { intros e0 evs0 H0. eapply emits_mono;
      [by apply (file_finish_emits call (Some e0) None false (EvOpen (fc_ctx call) (fc_path call) (reader, info, e) :: evs0)); [..|constructor]|].
    intros result evs [He H]. specialize (H [] (or_introl eq_refl)).
    rewrite Hk, Hpath, app_nil_r in H. rewrite Hpath. split; [done|]. intros ->.
    destruct He as [He _]. discriminate (He eq_refl). }
  destruct e as [e|]; [apply emits_bind_ret; by apply (Hfail e [])|].
  destruct (fi_IsRegular info) eqn:Hreg; cbn [negb].
  2: { apply emits_flatten, emits_call. intros _. apply emits_bind_ret.
       by apply (Hfail _ [EvCloseReader]); repeat constructor. }
  apply emits_bind_ret.
  eapply emits_bind; [by apply run_readLines_emits|].
  intros [[summary e] state] chunks [Hw Hdone]. cbv zeta in Hdone.
  set (call' := match summary with Some _ => _ | None => _ end).
  assert (fc_kind call' = kindFileRead /\ fc_path call' = path /\ fc_ctx call' = fc_ctx call /\
    (forall sm, summary = Some sm -> fw_TotalLines (fc_window call') = Some (sm_TotalLines sm)))
    as (Hk' & Hpath' & Hctx & Htotal) by (unfold call'; destruct summary; naive_solver).
  apply emits_assoc. eapply emits_bind; [by apply (summary_emits call call' first count clamp reader)|].
  intros e' evs' [Hw' Hsent].
  set (work := EvOpen (fc_ctx call) (fc_path call) (reader, info, None) :: chunks ++ evs').
  assert (Forall (working (fc_path call')) work) as Hwork.
  { constructor; [simpl; congruence|]. by apply sending_working, Forall_app. }
  eapply emits_bind.
  { apply emits_and; [apply (file_finish_emits call' e' _ _ work); [by rewrite Hpath'; rewrite Hpath in *..|done]|].
    by apply (finish_read_record call' e'). }
  intros result evs'' [[He Hserved] Hrec]. apply emits_call. intros _. apply emits_ret.
  specialize (Hserved [EvCloseReader] (or_intror eq_refl)). rewrite Hk', Hpath' in Hserved.
  unfold work in Hserved. simpl in Hserved. rewrite <- app_assoc in Hserved. simpl.
  split; [exact Hserved|]. intros ->.
  destruct Hrec as [Hs0 Hrec]. pose proof (proj1 He eq_refl) as ->.
  destruct (Hrec eq_refl) as (record & raw & Hin & Hwin & Htr & Hsha & Hout).
  exists (fc_ctx call), reader, info, record, raw. rewrite Hpath. split_and!; [|done| |].
  - do 2 right. left.
  - do 3 right. apply elem_of_app. right. apply elem_of_app. right. apply elem_of_app. by left.
  - intros Hfinal. destruct (Hsent eq_refl Hfinal) as [(ms & -> & Hch & Hcat & sm & [= <-] & Hsm) (Hh & Hcnt & _)].
    simpl. cbv zeta. exists ms. eexists. split_and!; try done.
    + rewrite app_assoc, (sent_app (chunks ++ evs')), Hsm, (sent_app evs''), Hs0. simpl.
      by rewrite app_nil_r.
    + done.
    + done.
    + done.
    + by rewrite Htr.
    + by rewrite Hsha, Hh.
    + rewrite Hwin. exact (Htotal _ eq_refl).
    + by rewrite Hout, Hcnt.
Qed.

(** ** Stat and WriteFile *)

Lemma finish_served call kind path e sink truncated work :
  fc_kind call = kind -> fc_path call = path ->
  HasPrefix path "/" = true -> ContainsByte path NUL = false -> Forall (working path) work ->
  emits (finish t call e sink truncated) (fun result evs =>
    (result = None <-> e = None) /\ served s kind path result (admitted ++ work ++ evs)).
Proof.
  intros <- <- Hp Hn Hw. eapply emits_mono; [by apply (file_finish_emits call e sink truncated work)|].
  intros result evs [He H]. split; [done|]. specialize (H [] (or_introl eq_refl)).
  by rewrite app_nil_r in H.
Qed.

Lemma Stat_emits ctx ids path :
  emits (Stat t ctx ids path) (fun r evs =>
    served s kindFileStat path r.2 evs /\
    (r.2 = None -> exists ctx info e, EvStat ctx path (info, e) ∈ evs /\
       from_option sp_Exists false r.1 = negb (error_Is e ErrNotExist))).
Proof.
  unfold Stat. eapply emits_bind; [apply beginFile_emits|].
  intros [call|status] evs; [intros (-> & Hk & Hpath & Hp & Hn & _)|intros H].
  2: { apply emits_ret. rewrite app_nil_r. by split. }
  apply emits_call. intros [info e].
  assert (forall e' (response : option StatResponse),
    (e' = None -> from_option sp_Exists false response = negb (error_Is e ErrNotExist)) ->
    emits (let* result := finish t call e' None false in ret (response, result)) (fun r evs =>
      served s kindFileStat path r.2 (admitted ++ EvStat (fc_ctx call) path (info, e) :: evs) /\
      (r.2 = None -> exists ctx info0 e0,
         EvStat ctx path (info0, e0) ∈ admitted ++ EvStat (fc_ctx call) path (info, e) :: evs /\
         from_option sp_Exists false r.1 = negb (error_Is e0 ErrNotExist)))) as Hfin.
  { intros e' response Hr. eapply emits_bind.
    { apply (finish_served call kindFileStat path e' None false
        [EvStat (fc_ctx call) path (info, e)] Hk Hpath Hp Hn). by repeat constructor. }
    intros result evs [He H]. apply emits_ret. rewrite app_nil_r. split; [done|]. simpl. intros ->.
    exists (fc_ctx call), info, e. split; [do 2 right; left|]. by apply Hr, He. }
  destruct (error_Is e ErrNotExist) eqn:Hne; [by apply Hfin|].
  destruct e as [e|]; [by apply Hfin|]. by apply Hfin.
Qed.

(** A completed WriteFile: what the target was given, and what the record says. *)
Definition write_completed (path : string) (evs : list event) : Prop :=
  exists ctx size content e created record raw,
    EvWrite ctx path size content e (created, None) ∈ evs /\ EvRecord record raw ∈ evs /\
    (is_EOF e = true ->
     Z.of_nat (length content) = size /\
     tc_StdinBytes (gr_ToolCallRecord record) = size /\
     gr_SHA256 record = sha256_hex s content /\
     (size <= MaxRecordedInputBytes -> rg_Stdin raw = content)).

Lemma finish_write_record call e sink :
  fc_kind call = kindFileWrite ->
  emits (finish t call e (Some sink) false) (fun _ evs =>
    e = None -> exists record raw, EvRecord record raw ∈ evs /\
      gr_SHA256 record = sha256_hex s (sk_hash sink) /\
      tc_StdinBytes (gr_ToolCallRecord record) = sk_count sink /\
      rg_Stdin raw = if sk_keep sink then sk_kept sink else to_bytes (sizeOmitted (sk_count sink))).
Proof.
  intros Hk. unfold finish. apply emits_read. intros now.
  unfold recordFile, file_record. rewrite Hk. simpl.
  destruct (describeInput _ _ _) as [stdin encoding]. unfold writeRecord.
  apply emits_call. intros _. apply emits_call. intros _. apply emits_ret.
  intros ->. eexists _, _. split; [left|]. simpl. split_and!; [done|done|]. by destruct (sk_keep sink).
Qed.

Lemma WriteFile_emits ctx ids :
  emits (WriteFile t ctx ids) (fun result evs => exists header e call,
    let path := from_option fst ""%string header in
    evs = EvHeader (header, e) :: call /\ served s kindFileWrite path result call /\
    (result = None -> write_completed path call)).
Proof.
  unfold WriteFile. apply emits_call. intros [header first_err].
  set (path := from_option fst ""%string header). set (size := from_option snd 0 header).
  eapply emits_bind; [apply beginFile_emits|].
  intros [call|status] evs; [intros (-> & Hk & Hpath & Hp & Hn & _)|intros H].
  2: { apply emits_ret. rewrite app_nil_r. by exists header, first_err, evs. }
  apply emits_call. intros messages. apply emits_call. intros buffers.
  set (reader0 := {| sr_remaining := size; sr_pending := []; sr_sink := newSink true |}).
  assert (reader_holds size [] [] reader0) as H0.
  { split_and!; [simpl; lia|done|apply newSink_holds]. }
  pose proof (read_body_spec size buffers (map recv messages) reader0 [] [] H0) as Hbody.
  destruct (read_body buffers (map recv messages) reader0) as [[content read_err] reader].
  destruct Hbody as (chunks & (Hsize & Hcat & Hsink) & Hend). simpl in Hsize, Hcat, Hsink.
  apply emits_call. intros [created e].
  destruct e as [e|].
  - eapply emits_mono.
    { apply (finish_served call kindFileWrite path (Some e) _ false
        [EvMessages messages; EvReads (fc_ctx call) path size;
         EvWrite (fc_ctx call) path size content read_err (created, Some e)] Hk Hpath Hp Hn).
      by repeat constructor. }
    intros result evs [He H]. exists header, first_err. eexists. split; [done|]. split; [done|]. intros ->.
    destruct He as [He _]. discriminate (He eq_refl).
  - apply emits_call. intros sent_err.
    eapply emits_mono.
    { apply emits_and; [|by apply (finish_write_record call None (sr_sink reader))].
      apply (finish_served call kindFileWrite path None (Some (sr_sink reader)) false
        [EvMessages messages; EvReads (fc_ctx call) path size;
         EvWrite (fc_ctx call) path size content read_err (created, None);
         EvSend (WriteFileResponse size created) sent_err] Hk Hpath Hp Hn).
      by repeat constructor. }
    intros result evs [[_ H] Hrec]. exists header, first_err. eexists. split; [done|].
    split; [done|]. intros _.
    destruct (Hrec eq_refl) as (record & raw & Hin & Hsha & Hn' & Hraw).
    exists (fc_ctx call), size, content, read_err, created, record, raw.
    split_and!; [do 4 right; left|by do 6 right|].
    intros HEOF. rewrite HEOF in Hend. destruct Hend as (_ & Hr & Hpend).
    rewrite Hpend, app_nil_r in Hcat. rewrite <- Hcat in Hsize, Hsink.
    destruct Hsink as (Hhash & Hcount & Hkeep & Hkept).
    split_and!; [lia|lia|by rewrite Hsha, Hhash|].
    intros Hmax. rewrite Hraw, Hkeep. rewrite (proj2 (Z.leb_le _ _)) by lia.
    rewrite Hkept, Hkeep. by rewrite (proj2 (Z.leb_le _ _)) by lia.
Qed.
End Served.

(** * What the handlers guarantee *)

Inductive request :=
  | RequestStat (path : string)
  | RequestReadFile (path : string) (limit : Z)
  | RequestReadLines (path : string) (first count clamp : Z)
  | RequestWriteFile.
Definition request_kind (r : request) : string :=
  match r with
  | RequestStat _ => kindFileStat
  | RequestReadFile _ _ | RequestReadLines _ _ _ _ => kindFileRead
  | RequestWriteFile => kindFileWrite
  end.
Definition serve {W} `{!Runtime W} (session : Session W) (ctx : Ctx) (ids : list string)
    (r : request) : M W (option Status) :=
  match r with
  | RequestStat path => let* (_, result) := Stat session ctx ids path in ret result
  | RequestReadFile path limit => ReadFile session ctx ids path limit
  | RequestReadLines path first count clamp => ReadLines session ctx ids path first count clamp
  | RequestWriteFile => WriteFile session ctx ids
  end.

(** The path a procedure is about: its request's, or that of the header the client
    sent before anything else. *)
Definition served_request {W} (s : Session W) (r : request) (result : option Status)
    (evs : list event) : Prop :=
  match r with
  | RequestStat path | RequestReadFile path _ | RequestReadLines path _ _ _ =>
      served s (request_kind r) path result evs
  | RequestWriteFile =>
      exists header e call, evs = EvHeader (header, e) :: call /\
        served s (request_kind r) (from_option fst ""%string header) result call
  end.

(** C38. Whatever the target and the client do, a file procedure leaves exactly one
    audit record, with the identity of the session's target and the path of the
    request, for WriteFile that of the header it received first: a refused call
    asks nothing of the target, sends nothing and receives nothing more, and its
    record says rejected with the refusal's message, revocation being checked first
    and a failed audit second; an admitted call has an absolute path without NUL,
    uses that path alone in all it asks of the target, does all its work before the
    record, and the record's status and error are those of the reply. *)
Theorem grpc_file_call_audited {W} `{!Runtime W} (s : Session W) ctx ids r :
  emits (serve (traced s) ctx ids r) (served_request s r).
Proof.
  destruct r as [path|path limit|path first count clamp|]; cbn [serve served_request request_kind].
  - eapply emits_bind; [apply Stat_emits|]. intros [response result] evs [H _]. apply emits_ret.
    by rewrite app_nil_r.
  - eapply emits_mono; [apply ReadFile_emits|]. by intros result evs [H _].
  - eapply emits_mono; [apply ReadLines_emits|]. by intros result evs [H _].
  - eapply emits_mono; [apply WriteFile_emits|]. intros result evs (header & e & call & -> & H & _).
    by exists header, e, call.
Qed.

(** A ReadFile that reports success sent a header with the file's size and, in
    order, messages of at most [chunkBytes] whose content is the file, or its first
    [limit] bytes when there is a limit; header and record say truncated exactly
    when the limit is below the size, and the record has the digest and the number
    of the bytes that were sent. *)
Theorem grpc_ReadFile_complete {W} `{!Runtime W} (s : Session W) ctx ids path limit :
  emits (ReadFile (traced s) ctx ids path limit) (fun result evs =>
    result = None -> read_completed s path limit evs).
Proof. eapply emits_mono; [apply ReadFile_emits|]. by intros result evs [_ H]. Qed.

(** A ReadLines that reports success sent the window's lines in messages of at
    most [chunkBytes] and then the summary: total lines, trailing newline, whether
    lines follow; and the record repeats the total, the digest and the size of what
    was sent. *)
Theorem grpc_ReadLines_complete {W} `{!Runtime W} (s : Session W) ctx ids path first count clamp :
  emits (ReadLines (traced s) ctx ids path first count clamp) (fun result evs =>
    result = None -> lines_completed s path first count clamp evs).
Proof. eapply emits_mono; [apply ReadLines_emits|]. by intros result evs [_ H]. Qed.

(** A WriteFile that reports success handed the target its content; when the
    target read it to the end, it is exactly as long as announced, and the audit
    holds its size, its digest and, within the bound, its bytes. *)
Theorem grpc_WriteFile_complete {W} `{!Runtime W} (s : Session W) ctx ids :
  emits (WriteFile (traced s) ctx ids) (fun result evs =>
    result = None -> exists path size e call,
      evs = EvHeader (Some (path, size), e) :: call /\ write_completed s path call).
Proof.
  eapply emits_mono; [apply WriteFile_emits|]. intros result evs (header & e & call & -> & Hs & H) ->.
  destruct header as [[path size]|].
  - exists path, size, e, call. split; [done|]. by apply H.
  - by inversion Hs.
Qed.

(** * Exec *)

(** What a reply and a record say of an execution. *)
Definition executed {W} (s : Session W) (request : ExecRequest)
    (outcome : CommandResult * error * list bytes * list bytes) (reply : ExecResponse)
    (record : toolCallRecord) (raw : rawGRPCRecord) : Prop :=
  let '(result, e, out, errout) := outcome in
  let tc := gr_ToolCallRecord record in
  identified s record raw /\
  0 <= ep_ExitCode reply <= 255 /\ tc_ExitCode tc = ep_ExitCode reply /\
  (e = None -> 0 <= cr_ExitCode result <= 255 -> ep_ExitCode reply = cr_ExitCode result) /\
  (e <> None -> ep_ExitCode reply = 255) /\
  (ep_Reason reply = "completed"%string <-> e = None) /\
  (ep_Reason reply = "timed_out"%string <-> error_Is e DeadlineExceeded = true) /\
  (tc_Status tc = "completed"%string <-> e = None) /\
  (tc_Status tc = "canceled"%string <-> HasCancellationCause e = true) /\
  ep_Truncated reply = gr_Truncated record /\
  tc_Command tc = er_Script request /\ rg_Stdin raw = er_Stdin request /\
  tc_StdinBytes tc = Z.of_nat (length (er_Stdin request)) /\
  (Forall (fun piece => piece <> []) (out ++ errout) ->
   ep_Stdout reply = take (Z.to_nat defaultOutputLimit) (concat out) /\
   ep_Stderr reply = take (Z.to_nat defaultOutputLimit) (concat errout) /\
   tc_StdoutBytes tc = Z.of_nat (length (concat out)) /\
   tc_StderrBytes tc = Z.of_nat (length (concat errout)) /\
   ep_Truncated reply = (defaultOutputLimit <? Z.of_nat (length (concat out))) ||
                        (defaultOutputLimit <? Z.of_nat (length (concat errout)))).

Definition shell_args (request : ExecRequest) : list string :=
  (if er_Login request then ["-l"; "-c"] else ["-c"])%string ++ [er_Script request].

Lemma exec_outcome_spec result e :
  let '(exitCode, reason, statusText, message) := exec_outcome result e in
  0 <= exitCode <= 255 /\
  (e = None -> 0 <= cr_ExitCode result <= 255 -> exitCode = cr_ExitCode result) /\
  (e <> None -> exitCode = 255) /\
  (reason = "completed"%string <-> e = None) /\
  (reason = "timed_out"%string <-> error_Is e DeadlineExceeded = true) /\
  (statusText = "completed"%string <-> e = None) /\
  (statusText = "canceled"%string <-> HasCancellationCause e = true).
Proof.
  unfold exec_outcome, HasCancellationCause. destruct e as [e|]; cbn [error_Is].
  - destruct (errors_Is e Canceled), (errors_Is e DeadlineExceeded); simpl; naive_solver lia.
  - destruct (Z.ltb_spec (cr_ExitCode result) 0), (Z.ltb_spec 255 (cr_ExitCode result)); simpl;
      split_and!; naive_solver lia.
Qed.

(** A refused Exec. *)
Definition exec_refused {W} (s : Session W) (request : ExecRequest) (status : Status)
    (evs : list event) : Prop :=
  exists checks record raw, evs = checks ++ [EvRecord record raw] /\ refused checks status /\
    identified s record raw /\
    tc_Status (gr_ToolCallRecord record) = "rejected"%string /\
    tc_Error (gr_ToolCallRecord record) = st_Message status /\
    tc_Command (gr_ToolCallRecord record) = er_Script request.

Lemma exec_refuse_emits {W} `{!Runtime W} (s : Session W) request id code message checks :
  refused checks {| st_Code := code; st_Message := message |} ->
  emits (exec_refuse (traced s) request id code message) (fun r evs =>
    exists status, r = inr status /\ exec_refused s request status (checks ++ evs)).
Proof.
  intros Hr. unfold exec_refuse. apply emits_read. intros now. unfold writeRecord.
  apply emits_call. intros _. apply emits_ret. eexists. split; [done|].
  eexists checks, _, _. split; [done|]. split; [done|]. by repeat split.
Qed.

(** An Exec leaves exactly one audit record.  A refused one runs nothing:
    revocation and a failed audit are checked first, then the tool call id, the
    retained bound on stdin and the workdir.  An admitted one runs the script with
    bash in the sandbox's workdir, once, and the record precedes the reply: the
    exit code is the command's, or 255 when the sandbox failed or the code is no
    exit status; reason and status tell completion, cancellation and timeout apart;
    each output is the first [defaultOutputLimit] bytes, and the record has the true
    volumes and says truncated exactly when one exceeds that limit. *)
Theorem grpc_Exec_audited {W} `{!Runtime W} (s : Session W) ctx ids request :
  emits (Exec (traced s) ctx ids request) (fun r evs =>
    match r with
    | inr status => exec_refused s request status evs
    | inl reply =>
        exists callCtx command outcome record raw,
          evs = admitted ++ [EvExec callCtx command (er_Stdin request) outcome;
                             EvRecord record raw; EvEnd callCtx] /\
          cm_Path command = RemoteShellPath /\ cm_Args command = shell_args request /\
          cm_Dir command = ex_Workdir (ss_sandbox s) /\ ValidWorkdir (cm_Dir command) = true /\
          Z.of_nat (length (er_Stdin request)) <= MaxRecordedInputBytes /\
          executed s request outcome reply record raw
    end).
Proof.
  unfold Exec. destruct (incomingToolCallID ids) as [id valid].
  apply emits_call. intros [].
  { eapply emits_mono; [apply (exec_refuse_emits s request id _ _ [EvRevoked true]); constructor|].
    by intros r evs (status & -> & H). }
  apply emits_call. intros e. destruct (is_nil e) eqn:He; cbn [negb].
  2: { destruct e as [e|]; [|done].
       eapply emits_mono; [apply (exec_refuse_emits s request id _ _ [EvRevoked false; EvAuditErr (Some e)]);
         constructor|].
       by intros r evs (status & -> & H). }
  destruct e; [done|].
  repeat match goal with
  | |- emits (if ?b then exec_refuse _ _ _ _ _ else _) _ =>
      destruct b eqn:?;
      [eapply emits_mono; [apply (exec_refuse_emits s request id _ _ admitted); by constructor|];
       by intros r evs (status & -> & H)|]
  end.
  apply emits_flatten, emits_read. intros _. apply emits_bind_ret, emits_read. intros started.
  apply emits_call. intros [[[result e] out] errout].
  pose proof (exec_outcome_spec result e) as Hout.
  destruct (exec_outcome result e) as [[[exitCode reason] statusText] message].
  destruct (describeInput _ _ _) as [stdin encoding].
  apply emits_read. intros now. unfold writeRecord. apply emits_call. intros _.
  apply emits_call. intros _. apply emits_ret.
  destruct Hout as (Hcode & Hsame & H255 & Hr1 & Hr2 & Hs1 & Hs2).
  eexists _, _, _, _, _. split; [reflexivity|]. split_and!; try done.
  - unfold shell_args. simpl. by destruct (er_Login request).
  - by apply negb_false_iff.
  - by apply Z.ltb_ge.
  - split; [by repeat split|]. split_and!; try done; try apply Hcode. simpl.
    intros [Ho Herr]%Forall_app.
    assert (0 <= defaultOutputLimit) as Hl by done.
    destruct (bounded_writes_holds _ out Hl Ho) as (_ & -> & -> & _ & ->).
    by destruct (bounded_writes_holds _ errout Hl Herr) as (_ & -> & -> & _ & ->).
Qed.

(** * Tool call ids *)

Lemma trim_left_nil cutset s : trim_left cutset s = [] <-> forallb (fun c => mem c cutset) s = true.
Proof.
  induction s as [|c s IH]; simpl; [done|].
  destruct (mem c cutset); simpl; [done|]. by split.
Qed.

Lemma trim_left_rest cutset s :
  trim_left cutset s = [] \/ exists c rest, trim_left cutset s = c :: rest /\ mem c cutset = false.
Proof.
  induction s as [|c s IH]; simpl; [by left|]. destruct (mem c cutset) eqn:Hc; [done|].
  right. by exists c, s.
Qed.

Lemma Trim_nil s cutset : Trim s cutset = [] <-> forallb (fun c => mem c cutset) s = true.
Proof.
  rewrite <- trim_left_nil. unfold Trim.
  destruct (trim_left_rest cutset s) as [->|(c & rest & -> & Hc)]; [done|].
  split; [|done]. intros H. apply (f_equal (@rev ascii)) in H. rewrite rev_involutive in H.
  simpl in H. apply trim_left_nil in H. rewrite forallb_app in H. simpl in H.
  rewrite Hc in H. by rewrite andb_false_r in H.
Qed.

(** A tool call id is recorded only if the client sent exactly one, of at most
    [maxToolCallIDBytes] characters of the allowed set; none is accepted as the empty
    id, and anything else is refused without being kept. *)
Theorem incomingToolCallID_spec (values : list string) :
  incomingToolCallID values =
  if decide (values = []) then (""%string, true)
  else match values with
       | [value] =>
           if decide (len value <= maxToolCallIDBytes /\
                      Forall (fun c => c ∈ toolCallIDChars) (to_bytes value))
           then (value, true) else (""%string, false)
       | _ => (""%string, false)
       end.
Proof.
  destruct values as [|value [|value' values]]; [done| |done].
  rewrite decide_False by done. unfold incomingToolCallID.
  assert (Trim (to_bytes value) toolCallIDChars = [] <->
          Forall (fun c => c ∈ toolCallIDChars) (to_bytes value)) as Htrim.
  { rewrite Trim_nil, forallb_forall, Forall_forall. split; intros H c Hc.
    - apply list_elem_of_In in Hc. specialize (H c Hc). unfold mem in H.
      apply existsb_exists in H as (d & Hd & ->%Ascii.eqb_eq). by apply list_elem_of_In.
    - apply list_elem_of_In in Hc. specialize (H c Hc). unfold mem. apply existsb_exists.
      exists c. split; [by apply list_elem_of_In|]. apply Ascii.eqb_refl. }
  destruct (Z.ltb_spec maxToolCallIDBytes (len value)); simpl.
  - rewrite decide_False by lia. done.
  - case_bool_decide as Hb; simpl.
    + rewrite decide_True; [done|]. split; [lia|by apply Htrim].
    + rewrite decide_False; [done|]. intros [_ Hf]. by apply Hb, Htrim.
Qed.

(** * The raw log *)

(** An entry of the raw log is its begin line, one line per field and its end
    line, whatever the field values hold: no script, input or path forges a line,
    and each field reads back exactly. *)
Theorem RenderRaw_lines IsPrint record sequence timestamp :
  exists escaped : list bytes,
    split_bytes NL (RenderRaw IsPrint record sequence timestamp) =
      raw_begin ::
      zip_with (fun (field : string * bytes) value => to_bytes field.1 ++ "="%char :: value)
        (raw_fields record sequence timestamp) escaped ++ [raw_end; []] /\
    Forall2 (fun (field : string * bytes) value => unescape value = Some field.2)
      (raw_fields record sequence timestamp) escaped.
Proof.
  apply render_fields_lines; [by unfold raw_begin; set_solver|by unfold raw_end; set_solver|].
  unfold raw_fields. repeat (constructor; [cbv [fst]; set_solver|]). constructor.
Qed.
