(* ===== verification/ShellGrammar.v ===== *)
(** The command grammars of the SSH bridge: what Hermes sends
    ([pkg/bridge/ssh/hermes], grammar.go, dialect.go and workspace.go) and what
    OpenClaw sends ([pkg/bridge/ssh/openclaw/grammar.go]).  Both accept a wire
    command only in its canonical quoting, so that what is recorded, hashed and
    executed is the one reading of what the client sent. *)

From S2P Require Import Prelude Utf8 Core AuditText.

(** [pkg/bridge/ssh/dialect.go]. *)
(** An [Action] is a [uint8]: the dialects give the first two. *)
Inductive Action := Execute | DrainOnly | OtherAction (value : Z).
Record Prepared := {
  pp_Command : Command;
  pp_Action : Action;
  pp_HashInput : string;
  pp_Display : string;
  pp_OperationClass : string;
  pp_RefusalClass : string;
  pp_WorkspaceHome : string;
  pp_Environment : list string
}.
Record Refusal := { rf_OperationClass : string; rf_Status : string; rf_Message : string }.
Inductive UnsupportedRequests := RejectAndClose | RejectAndContinue.
Record Policy := {
  po_UnsupportedRequests : UnsupportedRequests;
  po_InvalidOperationClass : string;
  po_RefusedExitCode : Z
}.
Class Dialect := {
  dialect_Prepare : string -> string -> Prepared + Refusal;
  dialect_Policy : Policy
}.

(** * Quoting *)

Definition QUOTE : ascii := "'"%char.
Definition DQUOTE : ascii := "034"%char.
Definition escaped_quote : bytes := [QUOTE; DQUOTE; QUOTE; DQUOTE; QUOTE].

(** The body of a single-quoted token, up to its closing quote: its value and what
    follows, or [None] when it is not terminated. *)
Fixpoint unquote (s : bytes) : option (bytes * bytes) :=
  match s with
  | [] => None
  | c :: rest =>
      if Ascii.eqb c QUOTE then
        match rest with
        | q1 :: q2 :: q3 :: q4 :: rest' =>
            if bool_decide ([q1; q2; q3; q4] = drop 1 escaped_quote)
            then prod_map (cons QUOTE) id <$> unquote rest'
            else Some ([], rest)
        | _ => Some ([], rest)
        end
      else prod_map (cons c) id <$> unquote rest
  end.

(** [strings.ReplaceAll(value, "'", `'"'"'`)]. *)
Definition escape_quotes (value : bytes) : bytes :=
  flat_map (fun c => if Ascii.eqb c QUOTE then escaped_quote else [c]) value.
Definition quoted (value : bytes) : bytes := QUOTE :: escape_quotes value ++ [QUOTE].

(** * Hermes *)

Module Hermes.

Definition remoteShell : string := "bash".
Definition remoteEcho : string := "echo".
Definition connectionProbePayload : string := "echo 'SSH connection established'".
Definition remoteHomePayload : string := "echo $HOME".
Definition kindAgent : string := "agent".
Definition kindBootstrap : string := "bootstrap".
Definition kindSync : string := "sync".
Definition kindUnknown : string := "unknown".

(** [remoteCommand]. *)
Record remoteCommand := {
rc_argv : list string;
rc_script : string;
rc_login : bool;
rc_kind : string
}.

Definition syncPayloadPrefixes : list string :=
["mkdir -p "; "tar xf "; "tar cf "; "rm -f "; "scp "]%string.
Definition isSyncPayload (encoded : string) : bool := existsb (HasPrefix encoded) syncPayloadPrefixes.

(** [shlexUnsafe] and [shlexQuote]. *)
Definition shlexUnsafe (value : Z) : bool :=
negb (((97 <=? value) && (value <=? 122)) || ((65 <=? value) && (value <=? 90)) ||
      ((48 <=? value) && (value <=? 57)) ||
      existsb (fun c => value =? byte_of c) (to_bytes "_@%+=:,./-")).
Definition shlexQuote (value : string) : string :=
if String.eqb value "" then "''"
else if negb (existsb shlexUnsafe (runes value)) then value
else of_bytes (quoted (to_bytes value)).

(** [decodeShellToken]. *)
Definition decodeShellToken (encoded : string) : string + err :=
if String.eqb encoded "" then inr (ENew "SSH exec command has no script token")
else
  let decoded :=
    match to_bytes encoded with
    | c :: rest =>
        if negb (Ascii.eqb c QUOTE) then
          if ContainsAny encoded (to_bytes " " ++ [TAB; NL; CR; QUOTE; DQUOTE; BACKSLASH])
          then inr (ENew "SSH exec script token is not a single shlex-quoted argument")
          else inl encoded
        else match unquote rest with
             | None => inr (ENew "SSH exec command contains an unterminated quote")
             | Some (value, []) => inl (of_bytes value)
             | Some _ => inr (ENew "SSH exec command carries more than one script token")
             end
    | [] => inl encoded
    end in
  match decoded with
  | inr e => inr e
  | inl decoded =>
      if negb (String.eqb (shlexQuote decoded) encoded)
      then inr (ENew "SSH exec script token is not canonically quoted")
      else inl decoded
  end.

(** [decodeRemoteCommand]. *)
Definition decodeRemoteCommand (encoded : string) : remoteCommand + err :=
if String.eqb encoded "" || ContainsByte encoded NUL
then inr (ENew "SSH exec command is empty or contains NUL")
else if String.eqb encoded connectionProbePayload
then inl {| rc_argv := [remoteEcho; "SSH connection established"%string]; rc_script := "";
            rc_login := false; rc_kind := kindBootstrap |}
else if String.eqb encoded remoteHomePayload
then inl {| rc_argv := [remoteEcho; "$HOME"%string]; rc_script := ""; rc_login := false;
            rc_kind := kindBootstrap |}
else if isSyncPayload encoded then inr (ESentinel ErrSyncDenied)
else
  let shell :=
    match CutPrefix encoded (remoteShell +:+ " -l -c ") with
    | Some remainder => Some (remainder, true)
    | None => (fun remainder => (remainder, false)) <$> CutPrefix encoded (remoteShell +:+ " -c ")
    end in
  match shell with
  | None => inr (ENew "SSH exec command must invoke only bash -c or bash -l -c")
  | Some (remainder, login) =>
      match decodeShellToken remainder with
      | inr e => inr e
      | inl script =>
          if String.eqb script "" then inr (ENew "SSH exec shell script is empty")
          else inl {| rc_argv := [remoteShell] ++ (if login then ["-l"] else []) ++ ["-c"; script];
                      rc_script := script; rc_login := login; rc_kind := kindAgent |}
      end
  end%string.

(** [encodeRemoteCommand]. *)
Definition Join (parts : list string) (sep : string) : string := String.concat sep parts.
Definition encodeRemoteCommand (remote : remoteCommand) : string :=
Join (removelast (rc_argv remote)) " " +:+ " " +:+ shlexQuote (rc_script remote).

(** [prepareRemoteCommand]: the command, its encoding and its kind. *)
Definition bootstrapShell : string := "/bin/sh".
Definition remoteShellPath : string := "/bin/bash".
Definition shell_command (path : string) (args : list string) (workdir : string) : Command :=
{| cm_Path := path; cm_Args := args; cm_Dir := workdir; cm_Env := ∅; cm_Stdin := [];
   cm_Timeout := 0; cm_User := ""; cm_OutputLimitBytes := 0 |}.
Definition prepareRemoteCommand (remote : remoteCommand) (workdir : string) :
  (Command * string * string) + err :=
if negb (ValidWorkdir workdir)
then inr (ENew ("Hermes SSH sandbox workdir " +:+ quote workdir +:+ " is not shell-neutral"))
else if String.eqb (rc_kind remote) kindBootstrap then
  let encoded := if bool_decide (rc_argv remote !! 1%nat = Some "$HOME"%string)
                 then remoteHomePayload else connectionProbePayload in
  inl (shell_command bootstrapShell ["-c"%string; encoded] workdir, encoded, rc_kind remote)
else if String.eqb (rc_kind remote) kindAgent then
  inl (shell_command remoteShellPath (drop 1 (rc_argv remote)) workdir,
       encodeRemoteCommand remote, rc_kind remote)
else inr (ENew ("Hermes SSH command kind " +:+ quote (rc_kind remote) +:+ " is unsupported")).

(** [Dialect.Prepare] and [Policy]. *)
Definition rejected (kind : string) : Refusal :=
{| rf_OperationClass := kind; rf_Status := "rejected"; rf_Message := "invalid remote command" |}.
Definition Prepare (encoded workdir : string) : Prepared + Refusal :=
match decodeRemoteCommand encoded with
| inr e =>
    if errors_Is e ErrSyncDenied
    then inr {| rf_OperationClass := kindSync; rf_Status := "denied";
                rf_Message := sentinel_text ErrSyncDenied |}
    else inr (rejected kindUnknown)
| inl remote =>
    match prepareRemoteCommand remote workdir with
    | inr _ => inr (rejected (rc_kind remote))
    | inl (command, encoded, kind) =>
        inl {| pp_Command := command; pp_Action := Execute; pp_HashInput := encoded;
               pp_Display := encoded; pp_OperationClass := kind; pp_RefusalClass := kind;
               pp_WorkspaceHome := ""; pp_Environment := [] |}
    end
end.
Definition HermesPolicy : Policy :=
{| po_UnsupportedRequests := RejectAndContinue; po_InvalidOperationClass := kindUnknown;
   po_RefusedExitCode := -1 |}.
#[export] Instance HermesDialect : Dialect :=
{| dialect_Prepare := Prepare; dialect_Policy := HermesPolicy |}.

End Hermes.

(** * Facts about quoting *)

Lemma QUOTE_DQUOTE : Ascii.eqb DQUOTE QUOTE = false.
Proof. reflexivity. Qed.

Lemma unquote_escaped value rest :
  match rest with c :: _ => c <> DQUOTE | [] => True end ->
  unquote (escape_quotes value ++ QUOTE :: rest) = Some (value, rest).
Proof.
  intros Hrest. induction value as [|c value IH]; simpl.
  - destruct rest as [|q1 [|q2 [|q3 [|q4 rest']]]]; try done.
    rewrite bool_decide_eq_false_2; [done|]. simpl. congruence.
  - destruct (Ascii.eqb_spec c QUOTE) as [->|Hc].
    + simpl. by rewrite IH.
    + simpl. rewrite (proj2 (Ascii.eqb_neq c QUOTE)) by done. by rewrite IH.
Qed.

Lemma unquote_sound s value rest :
  unquote s = Some (value, rest) -> s = escape_quotes value ++ QUOTE :: rest.
Proof.
  remember (length s) as n eqn:Hn. assert (length s <= n)%nat as Hle by lia. clear Hn.
  revert s value rest Hle. induction n as [|n IH]; intros s value rest Hle.
  { destruct s; [done|simpl in Hle; lia]. }
  destruct s as [|c s]; [done|]. simpl in Hle. cbn [unquote].
  destruct (Ascii.eqb_spec c QUOTE) as [->|Hc].
  - destruct s as [|q1 [|q2 [|q3 [|q4 s']]]]; try (intros [= <- <-]; done).
    case_bool_decide as Hq.
    + destruct (unquote s') as [[v r]|] eqn:Hu; [|done]. simpl. intros [= <- <-].
      simpl in Hle. apply IH in Hu; [|lia]. simpl. simpl in Hq.
      injection Hq as -> -> -> ->. by rewrite Hu.
    + by intros [= <- <-].
  - destruct (unquote s) as [[v r]|] eqn:Hu; [|done]. simpl. intros [= <- <-].
    apply IH in Hu; [|lia]. simpl. rewrite (proj2 (Ascii.eqb_neq c QUOTE)) by done. by rewrite Hu.
Qed.

(** An ASCII byte is a rune of its string. *)
Lemma DecodeRune_single p c0 :
  (DecodeRune (c0 :: p)).2 = 1%nat -> byte_of c0 < 128 -> (DecodeRune (c0 :: p)).1 = byte_of c0.
Proof. intros _ Hc. unfold DecodeRune. cbn [map]. by rewrite (proj2 (Z.ltb_lt _ _) Hc). Qed.

Lemma rune_chunks_ascii fuel p c :
  (length p <= fuel)%nat -> c ∈ p -> byte_of c < 128 -> byte_of c ∈ map fst (rune_chunks fuel p).
Proof.
  revert p. induction fuel as [|fuel IH]; intros p Hle Hin Hc.
  { destruct p; [by apply not_elem_of_nil in Hin|simpl in Hle; lia]. }
  destruct p as [|c0 p]; [by apply not_elem_of_nil in Hin|]. cbn [rune_chunks].
  pose proof (DecodeRune_size (c0 :: p) ltac:(done)) as Hs.
  pose proof (DecodeRune_high (c0 :: p)) as Hh.
  pose proof (DecodeRune_single p c0) as H1.
  destruct (DecodeRune (c0 :: p)) as [r size]. cbn [fst snd] in Hs, Hh, H1.
  rewrite <- (take_drop size (c0 :: p)) in Hin. apply elem_of_app in Hin as [Hin|Hin].
  - destruct (decide (2 <= size)%nat) as [H2|H2].
    + specialize (Hh H2). rewrite Forall_forall in Hh. specialize (Hh c Hin). lia.
    + assert (size = 1%nat) as -> by lia. simpl in Hin. apply list_elem_of_singleton in Hin as ->.
      rewrite <- H1 by done. left.
  - right. apply IH; [|done|done]. rewrite length_drop. simpl in *. lia.
Qed.

Lemma ascii_in_runes s c : c ∈ to_bytes s -> byte_of c < 128 -> byte_of c ∈ runes s.
Proof. intros Hin Hc. unfold runes, chunks. by apply rune_chunks_ascii. Qed.

(** * Hermes: the accepted commands *)

Import Hermes.

Lemma quoted_inj_nonempty value : of_bytes (quoted value) <> ""%string.
Proof. discriminate. Qed.

(** A bare token holds no byte outside the safe set. *)
Lemma bare_no_unsafe value c :
  existsb shlexUnsafe (runes value) = false -> c ∈ to_bytes value -> byte_of c < 128 ->
  shlexUnsafe (byte_of c) = false.
Proof.
  intros Hb Hin Hc. destruct (shlexUnsafe (byte_of c)) eqn:Hu; [|done].
  assert (existsb shlexUnsafe (runes value) = true) as Ht; [|congruence].
  apply existsb_exists. exists (byte_of c). split; [|done].
  by apply list_elem_of_In, ascii_in_runes.
Qed.

Lemma shlexQuote_nonempty value : shlexQuote value <> ""%string.
Proof.
  unfold shlexQuote. destruct (String.eqb_spec value "") as [->|Hv]; [discriminate|].
  destruct (negb _); [done|discriminate].
Qed.

(** Every token reads back from its quoting. *)
Lemma decodeShellToken_quote value : decodeShellToken (shlexQuote value) = inl value.
Proof.
  unfold decodeShellToken. rewrite (proj2 (String.eqb_neq _ _) (shlexQuote_nonempty value)).
  assert (match to_bytes (shlexQuote value) with
          | c :: rest =>
              if negb (Ascii.eqb c QUOTE) then
                if ContainsAny (shlexQuote value) (to_bytes " " ++ [TAB; NL; CR; QUOTE; DQUOTE; BACKSLASH])
                then inr (ENew "SSH exec script token is not a single shlex-quoted argument")
                else inl (shlexQuote value)
              else match unquote rest with
                   | None => inr (ENew "SSH exec command contains an unterminated quote")
                   | Some (value, []) => inl (of_bytes value)
                   | Some _ => inr (ENew "SSH exec command carries more than one script token")
                   end
          | [] => inl (shlexQuote value)
          end = inl value) as ->; [|by rewrite String.eqb_refl].
  unfold shlexQuote. destruct (String.eqb_spec value "") as [->|Hv]; [reflexivity|].
  destruct (existsb shlexUnsafe (runes value)) eqn:Hu; cbn [negb].
  - rewrite to_of_bytes. unfold quoted. rewrite Ascii.eqb_refl. cbn [negb].
    rewrite (unquote_escaped (to_bytes value) []) by done. by rewrite of_to_bytes.
  - assert (forall c, c ∈ to_bytes " " ++ [TAB; NL; CR; QUOTE; DQUOTE; BACKSLASH] -> c ∉ to_bytes value) as Hno.
    { intros c Hc Hin. assert (byte_of c < 128 /\ shlexUnsafe (byte_of c) = true) as [H1 H2].
      { simpl in Hc. repeat (apply elem_of_cons in Hc as [->|Hc]; [done|]). by apply not_elem_of_nil in Hc. }
      by rewrite (bare_no_unsafe value c) in H2. }
    destruct (to_bytes value) as [|c rest] eqn:Hb.
    { destruct value; [done|discriminate]. }
    destruct (Ascii.eqb_spec c QUOTE) as [->|Hc].
    { exfalso. apply (Hno QUOTE); [set_solver|left]. }
    cbn [negb]. replace (ContainsAny value _) with false; [done|].
    symmetry. unfold ContainsAny. rewrite Hb. apply not_true_iff_false. intros Hx.
    apply existsb_exists in Hx as (d & Hd & Hm). unfold mem in Hm.
    apply existsb_exists in Hm as (e & He & ->%Ascii.eqb_eq).
    apply (Hno e); by apply list_elem_of_In.
Qed.

Lemma decodeShellToken_sound encoded value :
  decodeShellToken encoded = inl value -> encoded = shlexQuote value.
Proof.
  unfold decodeShellToken. destruct (String.eqb encoded ""); [done|].
  match goal with |- match ?d with _ => _ end = _ -> _ => destruct d as [decoded|e] end; [|done].
  destruct (String.eqb_spec (shlexQuote decoded) encoded) as [<-|]; [|done].
  by intros [= ->].
Qed.

(** The commands that Hermes sends. *)
Definition agent_command (login : bool) (script : string) : remoteCommand :=
  {| rc_argv := [remoteShell] ++ (if login then ["-l"%string] else []) ++ ["-c"%string; script];
     rc_script := script; rc_login := login; rc_kind := kindAgent |}.
Definition agent_prefix (login : bool) : string :=
  if login then "bash -l -c " else "bash -c ".
Definition probe_command : remoteCommand :=
  {| rc_argv := [remoteEcho; "SSH connection established"%string]; rc_script := "";
     rc_login := false; rc_kind := kindBootstrap |}.
Definition home_command : remoteCommand :=
  {| rc_argv := [remoteEcho; "$HOME"%string]; rc_script := ""; rc_login := false;
     rc_kind := kindBootstrap |}.

(** The accepted wire commands with their meaning. *)
Inductive hermes_command : string -> remoteCommand -> Prop :=
  | hermes_probe : hermes_command connectionProbePayload probe_command
  | hermes_home : hermes_command remoteHomePayload home_command
  | hermes_agent login script :
      script <> ""%string -> ContainsByte script NUL = false ->
      hermes_command (agent_prefix login +:+ shlexQuote script) (agent_command login script).

Lemma ContainsByte_In s c : ContainsByte s c = true <-> c ∈ to_bytes s.
Proof.
  unfold ContainsByte, mem. rewrite existsb_exists. split.
  - intros (d & Hd & ->%Ascii.eqb_eq). by apply list_elem_of_In.
  - intros Hc. exists c. split; [by apply list_elem_of_In|]. apply Ascii.eqb_refl.
Qed.

Lemma ContainsByte_app s t c : ContainsByte (s +:+ t) c = ContainsByte s c || ContainsByte t c.
Proof. unfold ContainsByte, mem. by rewrite to_bytes_app, existsb_app. Qed.

Lemma escape_quotes_in value c : c <> QUOTE -> c <> DQUOTE -> c ∈ escape_quotes value <-> c ∈ value.
Proof.
  intros H1 H2. unfold escape_quotes. rewrite !list_elem_of_In, in_flat_map. split.
  - intros (d & Hd & Hin). destruct (Ascii.eqb_spec d QUOTE) as [->|].
    + apply list_elem_of_In in Hin. unfold escaped_quote in Hin. set_solver.
    + simpl in Hin. by destruct Hin as [->|[]].
  - intros Hc. exists c. split; [done|]. rewrite (proj2 (Ascii.eqb_neq _ _) H1). by left.
Qed.

Lemma shlexQuote_NUL script : ContainsByte (shlexQuote script) NUL = ContainsByte script NUL.
Proof.
  unfold shlexQuote. destruct (String.eqb_spec script "") as [->|]; [done|].
  destruct (negb _); [done|].
  destruct (ContainsByte script NUL) eqn:Hs.
  - apply ContainsByte_In in Hs. apply ContainsByte_In. rewrite to_of_bytes. unfold quoted.
    right. apply elem_of_app. left. by apply escape_quotes_in.
  - apply not_true_iff_false in Hs. apply not_true_iff_false. intros Hq. apply Hs.
    apply ContainsByte_In in Hq. apply ContainsByte_In. rewrite to_of_bytes in Hq. unfold quoted in Hq.
    apply elem_of_cons in Hq as [Hq|Hq]; [done|]. apply elem_of_app in Hq as [Hq|Hq].
    + apply (escape_quotes_in (to_bytes script) NUL) in Hq; [done|discriminate..].
    + by apply list_elem_of_singleton in Hq.
Qed.

Lemma agent_decodes login script :
  script <> ""%string -> ContainsByte script NUL = false ->
  decodeRemoteCommand (agent_prefix login +:+ shlexQuote script) = inl (agent_command login script).
Proof.
  intros Hs Hn. unfold decodeRemoteCommand.
  rewrite ContainsByte_app, shlexQuote_NUL, Hn.
  destruct login.
  - change (agent_prefix true) with "bash -l -c "%string.
    rewrite (CutPrefix_app "bash -l -c "). cbn -[shlexQuote decodeShellToken].
    rewrite decodeShellToken_quote. by rewrite (proj2 (String.eqb_neq _ _) Hs).
  - change (agent_prefix false) with "bash -c "%string.
    assert (CutPrefix ("bash -c " +:+ shlexQuote script) (remoteShell +:+ " -l -c ") = None) as -> by reflexivity.
    rewrite (CutPrefix_app "bash -c "). cbn -[shlexQuote decodeShellToken].
    rewrite decodeShellToken_quote. by rewrite (proj2 (String.eqb_neq _ _) Hs).
Qed.

Lemma decode_sound encoded remote :
  decodeRemoteCommand encoded = inl remote -> hermes_command encoded remote.
Proof.
  unfold decodeRemoteCommand.
  destruct (_ || ContainsByte encoded NUL) eqn:Hnul; [done|]. apply orb_false_iff in Hnul as [_ Hnul].
  destruct (String.eqb_spec encoded connectionProbePayload) as [->|_].
  { intros [= <-]. constructor. }
  destruct (String.eqb_spec encoded remoteHomePayload) as [->|_].
  { intros [= <-]. constructor. }
  destruct (isSyncPayload encoded); [done|].
  assert (forall remainder login, encoded = agent_prefix login +:+ remainder ->
    match decodeShellToken remainder with
    | inr e => inr e
    | inl script =>
        if String.eqb script "" then inr (ENew "SSH exec shell script is empty")
        else inl (agent_command login script)
    end = inl remote -> hermes_command encoded remote) as Hshell.
  { intros remainder login -> Hd. destruct (decodeShellToken remainder) as [script|] eqn:Ht; [|done].
    apply decodeShellToken_sound in Ht as ->.
    destruct (String.eqb_spec script ""); [done|]. injection Hd as <-. constructor; [done|].
    rewrite ContainsByte_app in Hnul. apply orb_false_iff in Hnul as [_ Hnul].
    by rewrite shlexQuote_NUL in Hnul. }
  destruct (CutPrefix encoded (remoteShell +:+ " -l -c ")) as [remainder|] eqn:Hl.
  - apply CutPrefix_Some in Hl. by apply (Hshell remainder true).
  - destruct (CutPrefix encoded (remoteShell +:+ " -c ")) as [remainder|] eqn:Hc; [|done].
    apply CutPrefix_Some in Hc. by apply (Hshell remainder false).
Qed.

Lemma decode_exact encoded remote :
  decodeRemoteCommand encoded = inl remote <-> hermes_command encoded remote.
Proof.
  split; [apply decode_sound|]. intros [| |login script Hs Hn]; [reflexivity|reflexivity|].
  by apply agent_decodes.
Qed.

(** Only the policy denies. *)
Lemma decodeShellToken_error encoded e :
  decodeShellToken encoded = inr e -> errors_Is e ErrSyncDenied = false.
Proof.
  unfold decodeShellToken. destruct (String.eqb encoded ""); [by intros [= <-]|].
  match goal with |- match ?d with _ => _ end = _ -> _ => destruct d as [decoded|e'] eqn:Hd end.
  - destruct (negb _); [by intros [= <-]|done].
  - intros [= <-]. revert Hd. repeat (case_match; simplify_eq/=); by intros [= <-].
Qed.

Lemma denied_is_sync encoded e :
  decodeRemoteCommand encoded = inr e -> errors_Is e ErrSyncDenied = true ->
  isSyncPayload encoded = true.
Proof.
  unfold decodeRemoteCommand.
  destruct (_ || _); [by intros [= <-]|]. destruct (String.eqb _ _); [done|].
  destruct (String.eqb _ _); [done|]. destruct (isSyncPayload encoded); [done|].
  match goal with |- match ?d with _ => _ end = _ -> _ => destruct d as [[remainder login]|] end;
    [|by intros [= <-]].
  destruct (decodeShellToken remainder) as [script|e'] eqn:Ht.
  - destruct (String.eqb script ""); [by intros [= <-]|done].
  - intros [= <-]. by rewrite (decodeShellToken_error remainder).
Qed.

(** C36. The bridge accepts exactly the wire commands Hermes's client sends: the two
    probes, and bash with a non-empty script, login or not, in the quoting of
    Python's shlex.quote; every such script, whatever its bytes but NUL, decodes to
    itself. *)
Theorem hermes_decode_exact (encoded : string) (remote : remoteCommand) :
  decodeRemoteCommand encoded = inl remote <-> hermes_command encoded remote.
Proof. apply decode_exact. Qed.

(** What the bridge records and hashes for an accepted command is the wire command
    itself, byte for byte, and what it executes is that command's reading, in the
    sandbox's workdir, which is shell-neutral: the script by bash, or the probe by
    a shell; a file sync is denied by policy, anything else rejected. *)
Theorem hermes_prepare_faithful (encoded workdir : string) :
  match Prepare encoded workdir with
  | inl prepared =>
      pp_HashInput prepared = encoded /\ pp_Display prepared = encoded /\
      pp_Action prepared = Execute /\ cm_Dir (pp_Command prepared) = workdir /\
      ValidWorkdir workdir = true /\
      ((encoded = connectionProbePayload \/ encoded = remoteHomePayload) /\
         pp_OperationClass prepared = kindBootstrap /\
         cm_Path (pp_Command prepared) = bootstrapShell /\
         cm_Args (pp_Command prepared) = ["-c"%string; encoded] \/
       exists login script, encoded = agent_prefix login +:+ shlexQuote script /\
         pp_OperationClass prepared = kindAgent /\
         cm_Path (pp_Command prepared) = remoteShellPath /\
         cm_Args (pp_Command prepared) = (if login then ["-l"%string] else []) ++ ["-c"%string; script])
  | inr refusal =>
      rf_Status refusal = "denied"%string /\ isSyncPayload encoded = true \/
      rf_Status refusal = "rejected"%string /\
        (ValidWorkdir workdir = true -> forall remote, ~ hermes_command encoded remote)
  end.
Proof.
  unfold Prepare. destruct (decodeRemoteCommand encoded) as [remote|e] eqn:Hd.
  - apply decode_exact in Hd as Hc. unfold prepareRemoteCommand.
    destruct (ValidWorkdir workdir) eqn:Hw; cbn [negb].
    2: { right. by split. }
    destruct Hc as [| |login script Hs Hn].
    + simpl. split_and!; try done. left. auto.
    + simpl. split_and!; try done. left. auto.
    + assert (encodeRemoteCommand (agent_command login script) = agent_prefix login +:+ shlexQuote script)
        as Henc by (by destruct login).
      simpl. rewrite Henc. split_and!; try done. right. exists login, script. by destruct login.
  - assert (forall remote, ~ hermes_command encoded remote) as Hno.
    { intros remote Hc%decode_exact. congruence. }
    destruct (errors_Is e ErrSyncDenied) eqn:He; [|by right]. left. split; [done|].
    by apply (denied_is_sync encoded e).
Qed.

(** A script with a quote in it. *)
Lemma hermes_decode_exact_witness :
  decodeRemoteCommand "bash -c 'echo hi'" = inl (agent_command false "echo hi").
Proof. apply (hermes_decode_exact "bash -c 'echo hi'"). by apply (hermes_agent false "echo hi"). Defined.

(** * OpenClaw *)

Module OpenClaw.

Definition remoteShell : string := "/bin/sh".
Definition remoteEnv : string := "env".
Definition SPACE : ascii := " "%char.

(** The loop of [decodeCanonicalTokens]; [total] is the length of the whole command,
  for the positions in the errors.  [fuel] bounds the number of tokens. *)
Fixpoint decode_tokens (fuel total : nat) (s : bytes) : list string + err :=
let position (s : bytes) : string := itoa (Z.of_nat (total - length s)) in
match fuel, s with
| S fuel, c :: rest =>
    if negb (Ascii.eqb c QUOTE)
    then inr (ENew ("SSH exec token at byte " +:+ position s +:+ " is not single-quoted"))
    else match unquote rest with
    | None => inr (ENew "SSH exec command contains an unterminated quote")
    | Some (value, []) => inl [of_bytes value]
    | Some (value, (d :: after) as rest) =>
        if negb (Ascii.eqb d SPACE)
        then inr (ENew ("SSH exec tokens are not separated by one space at byte " +:+ position rest))
        else if match after with [] => true | e :: _ => Ascii.eqb e SPACE end
        then inr (ENew "SSH exec command contains empty token spacing")
        else match decode_tokens fuel total after with
             | inr e => inr e
             | inl tokens => inl (of_bytes value :: tokens)
             end
    end
| _, _ => inl []
end.
Definition decodeCanonicalTokens (encoded : string) : list string + err :=
let s := to_bytes encoded in
match decode_tokens (length s) (length s) s with
| inr e => inr e
| inl [] => inr (ENew "SSH exec command has no tokens")
| inl tokens => inl tokens
end.

(** [encodeCanonicalTokens]. *)
Definition encodeCanonicalTokens (tokens : list string) : string :=
of_bytes (join_bytes SPACE (map (fun token => quoted (to_bytes token)) tokens)).

(** [validEnvironmentName]: as [core.validEnvName]. *)
Definition validEnvironmentName (name : string) : bool := validEnvName name.

(** The loop over the environment: the tokens from the shell on. *)
Fixpoint env_loop (tokens : list string) (seen : gset string) (sawOpenClawShell : bool) :
  list string + err :=
match tokens with
| [] => inl []
| assignment :: rest =>
    if String.eqb assignment remoteShell then inl tokens
    else match Cut assignment "=" with
    | None | Some (EmptyString, _) =>
        inr (ENew ("SSH exec environment assignment " +:+ quote assignment +:+ " is malformed"))
    | Some (name, value) =>
        if negb (validEnvironmentName name)
        then inr (ENew ("SSH exec environment name " +:+ quote name +:+ " is invalid"))
        else if sawOpenClawShell
        then inr (ENew "SSH exec OPENCLAW_SHELL assignment must be last")
        else if String.eqb name "OPENCLAW_SHELL" && negb (String.eqb value "exec")
        then inr (ENew ("SSH exec environment assignment " +:+ quote assignment +:+ " is not allowed"))
        else if bool_decide (name ∈ seen)
        then inr (ENew ("SSH exec environment name " +:+ quote name +:+ " is repeated"))
        else env_loop rest ({[name]} ∪ seen) (String.eqb name "OPENCLAW_SHELL")
    end
end%string.

(** [decodeRemoteCommand]. *)
Definition decodeRemoteCommand (encoded : string) : list string + err :=
if String.eqb encoded "" || ContainsByte encoded NUL
then inr (ENew "SSH exec command is empty or contains NUL")
else match decodeCanonicalTokens encoded with
| inr e => inr e
| inl tokens =>
    if negb (String.eqb (encodeCanonicalTokens tokens) encoded)
    then inr (ENew "SSH exec command is not canonically quoted")
    else
      let from_shell :=
        match tokens with
        | first :: rest => if String.eqb first remoteEnv then env_loop rest ∅ false else inl tokens
        | [] => inl []
        end in
      match from_shell with
      | inr e => inr e
      | inl (shell :: dash :: script :: _) =>
          if negb (String.eqb shell remoteShell) || negb (String.eqb dash "-c")
          then inr (ENew "SSH exec command must invoke only /bin/sh -c, optionally through env")
          else if String.eqb script "" then inr (ENew "SSH exec shell script is empty")
          else inl tokens
      | inl _ => inr (ENew "SSH exec command must invoke only /bin/sh -c, optionally through env")
      end
end.

End OpenClaw.

(** ** Tokens *)

Import OpenClaw.

Lemma decode_tokens_encode fuel total tokens :
  tokens <> [] ->
  (length (join_bytes SPACE (map (fun token => quoted (to_bytes token)) tokens)) <= fuel)%nat ->
  decode_tokens fuel total (join_bytes SPACE (map (fun token => quoted (to_bytes token)) tokens)) =
  inl tokens.
Proof.
  revert fuel. induction tokens as [|token tokens IH]; intros fuel Hne Hfuel; [done|].
  destruct fuel as [|fuel]; [destruct tokens; simpl in Hfuel; lia|].
  destruct tokens as [|token' tokens].
  - cbn [map join_bytes]. unfold quoted. cbn [decode_tokens]. rewrite Ascii.eqb_refl. cbn [negb].
    rewrite (unquote_escaped (to_bytes token) []) by done. by rewrite of_to_bytes.
  - set (rest := join_bytes SPACE (map (fun token => quoted (to_bytes token)) (token' :: tokens))) in *.
    change (join_bytes SPACE (map (fun token => quoted (to_bytes token)) (token :: token' :: tokens)))
      with (quoted (to_bytes token) ++ SPACE :: rest) in *.
    unfold quoted. cbn [app decode_tokens]. rewrite Ascii.eqb_refl. cbn [negb].
    rewrite <- app_assoc. cbn [app].
    rewrite (unquote_escaped (to_bytes token) (SPACE :: rest)) by done.
    rewrite Ascii.eqb_refl. cbn [negb].
    assert (exists r, rest = QUOTE :: r) as [r Hr].
    { unfold rest. destruct tokens; simpl; eexists; reflexivity. }
    rewrite Hr at 1. cbn [Ascii.eqb]. rewrite (proj2 (Ascii.eqb_neq QUOTE SPACE)) by done.
    rewrite IH; [by rewrite of_to_bytes|done|].
    fold rest. unfold quoted in Hfuel. rewrite !length_app in Hfuel. simpl in Hfuel. lia.
Qed.

Lemma decodeCanonicalTokens_encode tokens :
  tokens <> [] -> decodeCanonicalTokens (encodeCanonicalTokens tokens) = inl tokens.
Proof.
  intros Hne. unfold decodeCanonicalTokens, encodeCanonicalTokens. rewrite to_of_bytes.
  rewrite decode_tokens_encode by done. by destruct tokens.
Qed.

(** ** The environment *)

(** Assignments of distinct valid names, OPENCLAW_SHELL=exec only as the last. *)
Inductive assignments : gset string -> bool -> list string -> Prop :=
  | assignments_none seen last : assignments seen last []
  | assignments_more seen name value rest :
      validEnvironmentName name = true -> name ∉ seen ->
      (name = "OPENCLAW_SHELL"%string -> value = "exec"%string) ->
      assignments ({[name]} ∪ seen) (String.eqb name "OPENCLAW_SHELL") rest ->
      assignments seen false ((name +:+ String "="%char value) :: rest).

(** The shell and what follows. *)
Definition shell_call (tokens : list string) : Prop :=
  exists script args, tokens = remoteShell :: "-c"%string :: script :: args /\ script <> ""%string.

(** The commands OpenClaw sends. *)
Definition openclaw_tokens (tokens : list string) : Prop :=
  shell_call tokens \/
  exists env call, tokens = remoteEnv :: env ++ call /\ assignments ∅ false env /\ shell_call call.

Lemma env_byte_not_equals first c : env_name_byte first c = true -> c <> "="%char.
Proof. intros H ->. by destruct first. Qed.

Lemma valid_name_spec name :
  validEnvironmentName name = true -> name <> ""%string /\ "="%char ∉ to_bytes name.
Proof.
  unfold validEnvironmentName, validEnvName. destruct name as [|c name]; [done|]. simpl.
  intros [Hc Hrest]%andb_true_iff. split; [done|]. rewrite forallb_Forall, Forall_forall in Hrest.
  apply not_elem_of_cons. split; [intros <-; by apply env_byte_not_equals in Hc|].
  intros Hin. specialize (Hrest _ Hin). by apply env_byte_not_equals in Hrest.
Qed.

Lemma assignment_not_shell name value :
  validEnvironmentName name = true -> String.eqb (name +:+ String "="%char value) remoteShell = false.
Proof.
  intros Hv. apply String.eqb_neq. intros Heq.
  assert ("="%char ∈ to_bytes remoteShell) as Hin.
  { rewrite <- Heq, to_bytes_app. apply elem_of_app. right. left. }
  unfold remoteShell in Hin. simpl in Hin. set_solver.
Qed.

Lemma env_loop_accepts seen last env call :
  assignments seen last env -> shell_call call -> env_loop (env ++ call) seen last = inl call.
Proof.
  intros Henv (script & args & -> & Hs).
  induction Henv as [seen last|seen name value rest Hv Hseen Hval Hrest IH]; [done|].
  cbn [app env_loop]. rewrite assignment_not_shell by done.
  destruct (valid_name_spec name Hv) as [Hne Heq].
  rewrite Cut_app by done. destruct name as [|c name]; [done|]. rewrite Hv. cbn [negb].
  rewrite (bool_decide_eq_false_2 (_ ∈ seen)) by done.
  destruct (String.eqb_spec (String c name) "OPENCLAW_SHELL") as [Hn|Hn]; simpl; [|done].
  rewrite Hval by done. done.
Qed.

Lemma env_loop_sound tokens seen last call :
  env_loop tokens seen last = inl call ->
  (exists shell rest, call = shell :: rest) ->
  exists env, tokens = env ++ call /\ assignments seen last env.
Proof.
  revert seen last. induction tokens as [|assignment rest IH]; intros seen last; simpl.
  { intros [= <-] (? & ? & ?). done. }
  destruct (String.eqb_spec assignment remoteShell) as [->|Hne].
  { intros [= <-] _. exists []. split; [done|constructor]. }
  destruct (Cut assignment "=") as [[name value]|] eqn:Hcut; [|done].
  apply Cut_sound in Hcut as [-> Hn]. destruct name as [|c name]; [done|].
  destruct (validEnvironmentName (String c name)) eqn:Hv; [|done]. cbn [negb].
  destruct last; [done|].
  destruct (_ && negb (String.eqb value "exec")) eqn:Hval; [done|].
  case_bool_decide as Hseen; [done|]. intros Hloop Hcall.
  destruct (IH _ _ Hloop Hcall) as (env & -> & Henv). exists ((String c name +:+ String "="%char value) :: env).
  split; [done|]. constructor; [done|done| |done].
  intros Heq. rewrite Heq in Hval. simpl in Hval. apply negb_false_iff in Hval.
  by apply String.eqb_eq in Hval.
Qed.

Lemma openclaw_decode encoded tokens :
  OpenClaw.decodeRemoteCommand encoded = inl tokens <->
  encoded = encodeCanonicalTokens tokens /\ ContainsByte encoded NUL = false /\ openclaw_tokens tokens.
Proof.
  unfold OpenClaw.decodeRemoteCommand. split.
  - destruct (_ || ContainsByte encoded NUL) eqn:Hnul; [done|]. apply orb_false_iff in Hnul as [_ Hnul].
    destruct (decodeCanonicalTokens encoded) as [tokens'|]; [|done].
    destruct (String.eqb_spec (encodeCanonicalTokens tokens') encoded) as [Henc|]; [|done]. cbn [negb].
    intros H. assert (tokens' = tokens /\ openclaw_tokens tokens') as [<- Hok]; [|by rewrite Henc].
    destruct tokens' as [|first rest]; [done|].
    assert (forall call, (match call with
      | shell :: dash :: script :: _ =>
        if negb (String.eqb shell remoteShell) || negb (String.eqb dash "-c")
        then inr (ENew "SSH exec command must invoke only /bin/sh -c, optionally through env")
        else if String.eqb script "" then inr (ENew "SSH exec shell script is empty")
        else inl (first :: rest)
      | _ => inr (ENew "SSH exec command must invoke only /bin/sh -c, optionally through env")
      end) = inl tokens -> first :: rest = tokens /\ shell_call call) as Hcall.
    { intros [|shell [|dash [|script args]]]; try done.
      destruct (String.eqb_spec shell remoteShell) as [->|]; [|done].
      destruct (String.eqb_spec dash "-c") as [->|]; [|done]. simpl.
      destruct (String.eqb_spec script ""); [done|]. intros [= <-]. split; [done|]. by exists script, args. }
    destruct (String.eqb_spec first remoteEnv) as [->|Hne].
    + destruct (env_loop rest ∅ false) as [call|] eqn:Hloop; [|done].
      destruct (Hcall call) as [Heq Hshell].
      { destruct call as [|? [|? [|? ?]]]; exact H. }
      split; [done|]. right. apply env_loop_sound in Hloop as (env & -> & Henv).
      * by exists env, call.
      * destruct Hshell as (? & ? & -> & _). by eexists _, _.
    + destruct (Hcall (first :: rest)) as [Heq Hshell].
      { destruct rest as [|? [|? ?]]; exact H. }
      split; [done|]. by left.
  - intros (-> & Hnul & Hok). rewrite Hnul.
    assert (tokens <> []) as Hne.
    { by destruct Hok as [(? & ? & -> & _)|(? & ? & -> & _)]. }
    rewrite decodeCanonicalTokens_encode, String.eqb_refl by done. cbn [negb].
    assert (String.eqb (encodeCanonicalTokens tokens) "" = false) as ->.
    { apply String.eqb_neq. destruct tokens as [|t [|t' ts]]; done. }
    destruct Hok as [(script & args & -> & Hs)|(env & call & -> & Henv & Hshell)].
    + simpl. by rewrite (proj2 (String.eqb_neq script "") Hs).
    + rewrite String.eqb_refl, (env_loop_accepts ∅ false env call) by done.
      destruct Hshell as (script & args & -> & Hs). simpl. by rewrite (proj2 (String.eqb_neq script "") Hs).
Qed.

(** C37. The bridge accepts exactly the wire commands OpenClaw's client sends: tokens in
    single quotes, one space apart, that call /bin/sh -c with a non-empty script,
    optionally through env with distinct valid names, OPENCLAW_SHELL=exec only as the
    last; the decoded tokens are those that were quoted, so a second reading of the
    command does not exist. *)
Theorem openclaw_decode_exact (encoded : string) (tokens : list string) :
  OpenClaw.decodeRemoteCommand encoded = inl tokens <->
  encoded = encodeCanonicalTokens tokens /\ ContainsByte encoded NUL = false /\ openclaw_tokens tokens.
Proof. apply openclaw_decode. Qed.
