(* ===== verification/SshBridge.v ===== *)
(** A session channel of the SSH bridge ([pkg/bridge/ssh], server.go, execute.go and
    audit.go): which requests are refused, the one command a channel may run, what
    is kept of its input, and the record each request leaves. *)

From S2P Require Import Prelude Utf8 Trace Core AuditText ShellGrammar.

(** * Interfaces *)

(** [gossh.Request]. *)
Record request := { rq_Type : string; rq_WantReply : bool; rq_Payload : bytes }.

(** What [ExecStream] leaves behind: its results, what each of its reads of stdin got
    from the channel, and how many bytes each of its writes put on the channel. *)
Record stream_outcome := {
  so_result : CommandResult;
  so_err : error;
  so_reads : list (bytes * error);
  so_stdout : list Z;
  so_stderr : list Z
}.

(** Reading the channel to its end: what each read gives before the one that fails. *)
Record channel_input := { ci_pieces : list bytes; ci_last : bytes; ci_final : err }.

(** [target.Executor], as far as the SSH bridge uses it. *)
Record SshTarget (W : Type) := {
  sx_ContainerID : string;
  sx_ContainerName : string;
  sx_RunID : string;
  sx_TaskID : string;
  sx_Workdir : string;
  sx_ExecStream : Ctx -> Command -> M W stream_outcome
}.
Arguments sx_ContainerID {W}.
Arguments sx_ContainerName {W}.
Arguments sx_RunID {W}.
Arguments sx_TaskID {W}.
Arguments sx_Workdir {W}.
Arguments sx_ExecStream {W}.

(** * Records *)

(** [toolCallRecord], [rawSSHRecord] (whose sequence and timestamp are stamped when it
    is rendered) and [requestAudit]. *)
Record toolCallRecord := {
  tr_ToolCallRecord : ToolCallRecord;
  tr_RequestType : string;
  tr_WantReply : bool
}.
Record rawSSHRecord := {
  rs_SandboxID : string;
  rs_RequestType : string;
  rs_WantReply : bool;
  rs_Status : string;
  rs_RunID : string;
  rs_TaskID : string;
  rs_ContainerID : string;
  rs_WireCommand : string;
  rs_Payload : bytes;
  rs_PayloadBytes : Z;
  rs_Stdin : bytes;
  rs_StdinBytes : Z
}.
Record requestAudit := {
  ra_requestType : string;
  ra_wantReply : bool;
  ra_payload : bytes;
  ra_remoteCommand : string
}.

(** [renderRawSSHRecord]. *)
Definition ssh_raw_fields (record : rawSSHRecord) (sequence : Z) (timestamp : string) :
    list (string * bytes) :=
  [("sequence", to_bytes (itoa sequence));
   ("sandbox_id", to_bytes (rs_SandboxID record));
   ("timestamp", to_bytes timestamp);
   ("request_type", to_bytes (rs_RequestType record));
   ("want_reply", to_bytes (bool_text (rs_WantReply record)));
   ("status", to_bytes (rs_Status record));
   ("run_id", to_bytes (rs_RunID record));
   ("task_id", to_bytes (rs_TaskID record));
   ("container_id", to_bytes (rs_ContainerID record));
   ("wire_command", to_bytes (rs_WireCommand record));
   ("payload_bytes", to_bytes (itoa (rs_PayloadBytes record)));
   ("payload", rs_Payload record);
   ("stdin_bytes", to_bytes (itoa (rs_StdinBytes record)));
   ("stdin", rs_Stdin record)]%string.
Definition ssh_raw_begin : bytes := to_bytes "--- ARIES SSH CALL BEGIN ---".
Definition ssh_raw_end : bytes := to_bytes "--- ARIES SSH CALL END ---".
Definition renderRawSSHRecord (IsPrint : Z -> bool) (record : rawSSHRecord) (sequence : Z)
    (timestamp : string) : bytes :=
  render_fields IsPrint ssh_raw_begin ssh_raw_end (ssh_raw_fields record sequence timestamp).

(** * What is kept of the input *)

(** [recordedInput] over what the channel answers to a read, and [byteCounter]. *)
Record recordedInput := { ri_n : Z; ri_data : bytes; ri_overflow : bool }.
Definition new_input : recordedInput := {| ri_n := 0; ri_data := []; ri_overflow := false |}.
Definition input_Read (answer : bytes * error) (input : recordedInput) : bytes * error * recordedInput :=
  let (content, e) := answer in
  let n := Z.of_nat (length content) in
  if 0 <? n then
    let remaining := MaxRecordedInputBytes - Z.of_nat (length (ri_data input)) in
    if remaining <? n then
      (content, Some (ENew ("SSH stdin exceeds " +:+ itoa MaxRecordedInputBytes +:+ " bytes")),
       {| ri_n := ri_n input + n; ri_data := []; ri_overflow := true |})
    else
      (content, e,
       {| ri_n := ri_n input + n; ri_data := ri_data input ++ content; ri_overflow := ri_overflow input |})
  else (content, e, input).
Definition input_Reads (answers : list (bytes * error)) (input : recordedInput) : recordedInput :=
  fold_left (fun input answer => (input_Read answer input).2) answers input.
Definition counter_Writes (written : list Z) : Z := fold_left Z.add written 0.

(** [io.Copy] into [io.Discard]: reads until one fails; the end of the input is no
    failure. *)
Definition copy_result (e : err) : error := match e with ESentinel ErrEOF => None | _ => Some e end.
Fixpoint discard (pieces : list bytes) (last : bytes) (final : err) (input : recordedInput) :
    error * recordedInput :=
  match pieces with
  | [] =>
      let '(_, e, input) := input_Read (last, Some final) input in
      (from_option copy_result None e, input)
  | piece :: pieces =>
      let '(_, e, input) := input_Read (piece, None) input in
      match e with
      | Some e => (copy_result e, input)
      | None => discard pieces last final input
      end
  end.

(** [record]: the count, the structured text with its encoding, the bytes, and whether
    the input overflowed. *)
Definition input_record (retainedRaw : bool) (input : recordedInput) :
    Z * string * string * bytes * bool :=
  let count := ri_n input in
  let content := ri_data input in
  if SafeStructuredText content then (count, of_bytes content, "utf-8", content, ri_overflow input)
  else
    let note := if retainedRaw
                then "[binary input omitted; " +:+ itoa count +:+ " bytes retained in ssh_raw.log]"
                else "[binary input omitted; " +:+ itoa count +:+ " bytes not retained]" in
    (count, note, "binary-omitted", content, ri_overflow input).

(** * The session channel *)

(** What a session uses of its target, audit writer and channel, and of the libraries;
    its dialect is an instance of the class. *)
Record SshSession (W : Type) := {
  sh_sandbox : SshTarget W;
  sh_sandboxID : string;
  sh_audit_Err : M W error;
  sh_audit_Latch : err -> M W unit;
  sh_audit_Enqueue : toolCallRecord -> rawSSHRecord -> M W unit;
  sh_RetainsRaw : bool;
  sh_reply : request -> bool -> M W error;
  sh_drain : M W channel_input;
  sh_exit_status : Z -> M W unit;    (* channel.SendRequest("exit-status", ...) *)
  sh_Unmarshal : bytes -> string + err;   (* gossh.Unmarshal of the command *)
  sh_FormatTime : Z -> string;
  sh_CommandHash : string -> string
}.
Arguments sh_sandbox {W}.
Arguments sh_sandboxID {W}.
Arguments sh_audit_Err {W}.
Arguments sh_audit_Latch {W}.
Arguments sh_audit_Enqueue {W}.
Arguments sh_RetainsRaw {W}.
Arguments sh_reply {W}.
Arguments sh_drain {W}.
Arguments sh_exit_status {W}.
Arguments sh_Unmarshal {W}.
Arguments sh_FormatTime {W}.
Arguments sh_CommandHash {W}.

Section Session.
Context {W : Type} `{!Runtime W} {D : Dialect}.
Variable s : SshSession W.

(** [rawRecord] and [writeRecord]. *)
Definition rawRecord (audit : requestAudit) (stdinBytes : Z) (stdin : bytes) (status : string) :
    rawSSHRecord :=
  {| rs_SandboxID := ""; rs_RequestType := ra_requestType audit; rs_WantReply := ra_wantReply audit;
     rs_Status := status; rs_RunID := ""; rs_TaskID := ""; rs_ContainerID := "";
     rs_WireCommand := ra_remoteCommand audit; rs_Payload := ra_payload audit;
     rs_PayloadBytes := Z.of_nat (length (ra_payload audit));
     rs_Stdin := stdin; rs_StdinBytes := stdinBytes |}.
Definition writeRecord (record : toolCallRecord) (raw : rawSSHRecord) : M W unit :=
  let t := sh_sandbox s in
  sh_audit_Enqueue s
    {| tr_ToolCallRecord :=
         with_target (sh_sandboxID s) (tc_ContainerID (tr_ToolCallRecord record))
           (tc_ContainerName (tr_ToolCallRecord record)) (sx_RunID t) (sx_TaskID t)
           (tr_ToolCallRecord record);
       tr_RequestType := tr_RequestType record; tr_WantReply := tr_WantReply record |}
    {| rs_SandboxID := sh_sandboxID s; rs_RequestType := rs_RequestType raw;
       rs_WantReply := rs_WantReply raw; rs_Status := rs_Status raw; rs_RunID := sx_RunID t;
       rs_TaskID := sx_TaskID t; rs_ContainerID := sx_ContainerID t;
       rs_WireCommand := rs_WireCommand raw; rs_Payload := rs_Payload raw;
       rs_PayloadBytes := rs_PayloadBytes raw; rs_Stdin := rs_Stdin raw;
       rs_StdinBytes := rs_StdinBytes raw |}.

(** [logRequestFailure] and [logRejected]. *)
Definition logRequestFailure (audit : requestAudit) (kind status message : string) : M W unit :=
  let* now := time_Now in
  writeRecord
    {| tr_ToolCallRecord :=
         {| tc_SandboxID := ""; tc_Sequence := 0; tc_Timestamp := "";
            tc_ContainerID := sx_ContainerID (sh_sandbox s);
            tc_ContainerName := sx_ContainerName (sh_sandbox s); tc_OperationClass := kind;
            tc_WorkspaceHome := ""; tc_Environment := []; tc_Path := ""; tc_Workdir := "";
            tc_CommandHash := sh_CommandHash s (ra_remoteCommand audit); tc_Command := "";
            tc_Argv := []; tc_Stdin := ""; tc_StdinEncoding := "utf-8"; tc_StdinBytes := 0;
            tc_StdoutBytes := 0; tc_StderrBytes := 0;
            tc_ExitCode := po_RefusedExitCode dialect_Policy;
            tc_StartedAt := sh_FormatTime s now; tc_DurationMS := 0; tc_Status := status;
            tc_Error := message; tc_RunID := ""; tc_TaskID := ""; tc_ToolCallID := "" |};
       tr_RequestType := ra_requestType audit; tr_WantReply := ra_wantReply audit |}
    (rawRecord audit 0 [] status).
Definition logRejected (audit : requestAudit) (kind : string) : M W unit :=
  logRequestFailure audit kind "rejected" "invalid remote command".

(** [execute]. *)
Definition no_result : CommandResult := {| cr_ExitCode := 0; cr_Stdout := ""; cr_Stderr := ""; cr_Duration := 0 |}.
Definition run_prepared (ctx : Ctx) (prepared : Prepared) :
    M W (CommandResult * error * recordedInput * Z * Z) :=
  match pp_Action prepared with
  | DrainOnly =>
      let* input := sh_drain s in
      let (e, stdin) := discard (ci_pieces input) (ci_last input) (ci_final input) new_input in
      ret (no_result, e, stdin, 0, 0)
  | _ =>
      let* o := sx_ExecStream (sh_sandbox s) ctx (pp_Command prepared) in
      ret (so_result o, so_err o, input_Reads (so_reads o) new_input,
           counter_Writes (so_stdout o), counter_Writes (so_stderr o))
  end.
Definition ssh_outcome (result : CommandResult) (e : error) : Z * string * string :=
  let '(exitCode, status, message) :=
    match e with
    | None => (cr_ExitCode result, "completed", "")
    | Some _ =>
        if HasCancellationCause e then (255, "canceled", "session canceled")
        else (255, "failed", "sandbox execution failed")
    end%string in
  (if (exitCode <? 0) || (255 <? exitCode) then 255 else exitCode, status, message).
Definition execute (ctx : Ctx) (prepared : Prepared) (audit : requestAudit) : M W Z :=
  let* started := time_Now in
  let* (result, e, stdin, stdout, stderr) := run_prepared ctx prepared in
  let '(exitCode, status, message) := ssh_outcome result e in
  let '(stdinBytes, stdinContent, stdinEncoding, rawStdin, stdinOverflow) :=
    input_record (sh_RetainsRaw s) stdin in
  if stdinOverflow : bool then
    let* _ := sh_audit_Latch s
      (ENew ("retain SSH stdin: input exceeds " +:+ itoa MaxRecordedInputBytes +:+ " bytes")) in
    ret exitCode
  else
    let command := pp_Command prepared in
    let* now := time_Now in
    let* _ := writeRecord
      {| tr_ToolCallRecord :=
           {| tc_SandboxID := ""; tc_Sequence := 0; tc_Timestamp := "";
              tc_ContainerID := sx_ContainerID (sh_sandbox s);
              tc_ContainerName := sx_ContainerName (sh_sandbox s);
              tc_OperationClass := pp_OperationClass prepared;
              tc_WorkspaceHome := pp_WorkspaceHome prepared;
              tc_Environment := pp_Environment prepared; tc_Path := cm_Path command;
              tc_Workdir := cm_Dir command; tc_CommandHash := sh_CommandHash s (pp_HashInput prepared);
              tc_Command := pp_Display prepared; tc_Argv := cm_Path command :: cm_Args command;
              tc_Stdin := stdinContent; tc_StdinEncoding := stdinEncoding;
              tc_StdinBytes := stdinBytes; tc_StdoutBytes := stdout; tc_StderrBytes := stderr;
              tc_ExitCode := exitCode; tc_StartedAt := sh_FormatTime s started;
              tc_DurationMS := Z.quot (now - started) 1000000; tc_Status := status;
              tc_Error := message; tc_RunID := ""; tc_TaskID := ""; tc_ToolCallID := "" |};
         tr_RequestType := ra_requestType audit; tr_WantReply := ra_wantReply audit |}
      (rawRecord audit stdinBytes rawStdin status) in
    ret exitCode.

(** [handleSession]: the body of its loop for one request, which says whether the
    loop goes on, and the loop over the requests of the channel. *)
Definition refuse (request : request) (log : M W unit) : M W bool :=
  let* _ := sh_reply s request false in
  let* _ := log in
  ret false.
Definition handle_request (ctx : Ctx) (request : request) : M W bool :=
  let policy := dialect_Policy in
  let audit command :=
    {| ra_requestType := rq_Type request; ra_wantReply := rq_WantReply request;
       ra_payload := rq_Payload request; ra_remoteCommand := command |} in
  if negb (String.eqb (rq_Type request) "exec") then
    let* _ := if rq_WantReply request then let* _ := sh_reply s request false in ret tt else ret tt in
    match po_UnsupportedRequests policy with
    | RejectAndContinue =>
        let* _ := logRequestFailure (audit ""%string) (po_InvalidOperationClass policy) "unsupported"
                    "channel request type is not exec" in
        ret true
    | RejectAndClose =>
        let* _ := logRejected (audit ""%string) (po_InvalidOperationClass policy) in
        ret false
    end
  else if negb (rq_WantReply request) then
    let* _ := logRejected (audit ""%string) (po_InvalidOperationClass policy) in
    ret false
  else
    match sh_Unmarshal s (rq_Payload request) with
    | inr _ => refuse request (logRejected (audit ""%string) (po_InvalidOperationClass policy))
    | inl command =>
        let audit := audit command in
        match dialect_Prepare command (sx_Workdir (sh_sandbox s)) with
        | inr refusal =>
            refuse request (logRequestFailure audit (rf_OperationClass refusal) (rf_Status refusal)
                              (rf_Message refusal))
        | inl prepared =>
            match pp_Action prepared with
            | OtherAction _ =>
                refuse request (logRejected audit (po_InvalidOperationClass policy))
            | _ =>
            let* auditErr := sh_audit_Err s in
            match auditErr with
            | Some _ => refuse request (logRequestFailure audit (pp_RefusalClass prepared) "rejected"
                                          "bridge audit failed")
            | None =>
                let* e := sh_reply s request true in
                match e with
                | Some _ =>
                    let* _ := logRequestFailure audit (pp_RefusalClass prepared) "failed"
                                "SSH accept reply failed" in
                    ret false
                | None =>
                    let* exitCode := execute ctx prepared audit in
                    let* _ := sh_exit_status s exitCode in
                    ret false
                end
            end
            end
        end
    end.
Fixpoint handleSession (ctx : Ctx) (requests : list request) : M W (list request) :=
  match requests with
  | [] => ret []
  | request :: requests =>
      let* go_on := handle_request ctx request in
      if go_on : bool then handleSession ctx requests else ret requests
  end.
End Session.

(** * What a channel does *)

Inductive event :=
  | Replied (r : request) (accepted : bool) (e : error)
  | AuditChecked (e : error)
  | Ran (ctx : Ctx) (command : Command) (o : stream_outcome)
  | Drained (input : channel_input)
  | Recorded (record : toolCallRecord) (raw : rawSSHRecord)
  | Latched (e : err)
  | ExitStatus (code : Z).

Section Traced.
Context {W : Type}.
Definition traced_target (t : SshTarget W) : SshTarget (W * list event) :=
  {| sx_ContainerID := sx_ContainerID t; sx_ContainerName := sx_ContainerName t;
     sx_RunID := sx_RunID t; sx_TaskID := sx_TaskID t; sx_Workdir := sx_Workdir t;
     sx_ExecStream ctx command := logged (Ran ctx command) (sx_ExecStream t ctx command) |}.
Definition traced (s : SshSession W) : SshSession (W * list event) :=
  {| sh_sandbox := traced_target (sh_sandbox s); sh_sandboxID := sh_sandboxID s;
     sh_audit_Err := logged AuditChecked (sh_audit_Err s);
     sh_audit_Latch e := logged (fun _ => Latched e) (sh_audit_Latch s e);
     sh_audit_Enqueue record raw :=
       logged (fun _ => Recorded record raw) (sh_audit_Enqueue s record raw);
     sh_RetainsRaw := sh_RetainsRaw s;
     sh_reply r accepted := logged (Replied r accepted) (sh_reply s r accepted);
     sh_drain := logged Drained (sh_drain s);
     sh_exit_status code := logged (fun _ => ExitStatus code) (sh_exit_status s code);
     sh_Unmarshal := sh_Unmarshal s; sh_FormatTime := sh_FormatTime s;
     sh_CommandHash := sh_CommandHash s |}.
End Traced.

(** ** The retained input *)

(** [input] after the channel gave [got]. *)
Definition input_holds (got : bytes) (input : recordedInput) : Prop :=
  ri_n input = Z.of_nat (length got) /\
  ri_overflow input = (MaxRecordedInputBytes <? Z.of_nat (length got)) /\
  (ri_overflow input = false -> ri_data input = got).

Lemma new_input_holds : input_holds [] new_input.
Proof. done. Qed.

Lemma input_Read_holds got answer input :
  input_holds got input -> input_holds (got ++ answer.1) (input_Read answer input).2.
Proof.
  destruct answer as [content e], input as [n data overflow]. intros (Hn & Ho & Hd). simpl in *.
  unfold input_Read, input_holds. rewrite length_app, Nat2Z.inj_add.
  destruct (Z.ltb_spec 0 (Z.of_nat (length content))); simpl.
  2: { destruct content; [|simpl in *; lia]. rewrite app_nil_r. simpl. by rewrite !Z.add_0_r. }
  destruct overflow.
  - symmetry in Ho. apply Z.ltb_lt in Ho.
    destruct (_ <? Z.of_nat (length content)); simpl; (split; [lia|]; split; [|done]);
      symmetry; apply Z.ltb_lt; lia.
  - rewrite Hd by done. symmetry in Ho. apply Z.ltb_ge in Ho.
    destruct (Z.ltb_spec (MaxRecordedInputBytes - Z.of_nat (length got)) (Z.of_nat (length content)));
      simpl; (split; [lia|]; split; [|done]); symmetry; [apply Z.ltb_lt|apply Z.ltb_ge]; lia.
Qed.

Lemma input_Reads_holds answers input got :
  input_holds got input -> input_holds (got ++ concat (map fst answers)) (input_Reads answers input).
Proof.
  unfold input_Reads. revert input got. induction answers as [|answer answers IH]; intros input got Hi; simpl.
  - by rewrite app_nil_r.
  - rewrite app_assoc. apply IH, input_Read_holds, Hi.
Qed.

(** A read fails only as the channel did, or because the bound is exceeded. *)
Lemma input_Read_error got answer input :
  input_holds got input ->
  (input_Read answer input).1.2 = answer.2 \/
  (MaxRecordedInputBytes < Z.of_nat (length (got ++ answer.1))).
Proof.
  intros Hi. pose proof (input_Read_holds got answer input Hi) as (_ & Ho & _). revert Ho.
  destruct answer as [content e]. simpl. destruct (0 <? _); [|by left]. destruct (_ <? _); [|by left].
  simpl. intros Ho. right. symmetry in Ho. by apply Z.ltb_lt in Ho.
Qed.

(** What draining gets: everything, or a part that is past the bound. *)
Lemma discard_holds pieces last final input got :
  input_holds got input ->
  exists got', input_holds (got ++ got') (discard pieces last final input).2 /\
    got' `prefix_of` concat pieces ++ last /\
    (MaxRecordedInputBytes < Z.of_nat (length (got ++ got')) \/
     got' = concat pieces ++ last /\ (discard pieces last final input).1 = copy_result final).
Proof.
  revert input got. induction pieces as [|piece pieces IH]; intros input got Hi; cbn [discard concat].
  - pose proof (input_Read_holds got (last, Some final) input Hi) as Hr.
    pose proof (input_Read_error got (last, Some final) input Hi) as He.
    destruct (input_Read _ _) as [[c e] input']. simpl in *. exists last.
    split; [done|]. split; [done|]. destruct He as [->|He]; [by right|by left].
  - pose proof (input_Read_holds got (piece, None) input Hi) as Hr.
    pose proof (input_Read_error got (piece, None) input Hi) as He.
    destruct (input_Read _ _) as [[c e] input']. simpl in *. destruct e as [e|].
    + exists piece. split; [done|]. split; [by rewrite <- app_assoc; apply prefix_app_r|].
      destruct He as [He|He]; [done|by left].
    + destruct (IH input' (got ++ piece) Hr) as (got' & Hh & Hpre & Hend).
      exists (piece ++ got'). rewrite app_assoc. split; [done|].
      rewrite <- (app_assoc piece). split; [by apply prefix_app|].
      destruct Hend as [?|[-> ?]]; [by left|by right].
Qed.

(** ** One request *)

Section Requests.
Context {W : Type} `{!Runtime W} {D : Dialect}.
Variable s : SshSession W.
Notation t := (traced s).

(** A record and its raw entry name the request, the target and the sandbox, and agree
    on the status. *)
Definition names (r : request) (record : toolCallRecord) (raw : rawSSHRecord) : Prop :=
  let tc := tr_ToolCallRecord record in
  tr_RequestType record = rq_Type r /\ tr_WantReply record = rq_WantReply r /\
  rs_RequestType raw = rq_Type r /\ rs_WantReply raw = rq_WantReply r /\
  rs_Payload raw = rq_Payload r /\ rs_PayloadBytes raw = Z.of_nat (length (rq_Payload r)) /\
  rs_Status raw = tc_Status tc /\
  tc_SandboxID tc = sh_sandboxID s /\ rs_SandboxID raw = sh_sandboxID s /\
  tc_ContainerID tc = sx_ContainerID (sh_sandbox s) /\ rs_ContainerID raw = tc_ContainerID tc /\
  tc_RunID tc = sx_RunID (sh_sandbox s) /\ rs_RunID raw = tc_RunID tc /\
  tc_TaskID tc = sx_TaskID (sh_sandbox s) /\ rs_TaskID raw = tc_TaskID tc.

(** A record of a request that did not run. *)
Definition not_run (r : request) (record : toolCallRecord) (raw : rawSSHRecord) : Prop :=
  let tc := tr_ToolCallRecord record in
  names r record raw /\ tc_ExitCode tc = po_RefusedExitCode dialect_Policy /\
  tc_Argv tc = [] /\ tc_StdinBytes tc = 0 /\ rs_Stdin raw = [] /\
  tc_CommandHash tc = sh_CommandHash s (rs_WireCommand raw).

Lemma logRequestFailure_emits r command kind status message Q :
  (forall record raw, not_run r record raw -> tc_OperationClass (tr_ToolCallRecord record) = kind ->
    tc_Status (tr_ToolCallRecord record) = status -> Q tt [Recorded record raw]) ->
  emits (logRequestFailure t
    {| ra_requestType := rq_Type r; ra_wantReply := rq_WantReply r; ra_payload := rq_Payload r;
       ra_remoteCommand := command |} kind status message) Q.
Proof.
  intros HQ. unfold logRequestFailure, writeRecord. apply emits_read. intros now.
  apply emits_logged. intros []. apply HQ; done.
Qed.

(** An execution: what was run, what it read and how it ended. *)
Definition performed (ctx : Ctx) (prepared : Prepared) (work : event)
    (outcome : CommandResult * error * Z * Z) (got : bytes) : Prop :=
  let '(result, e, stdout, stderr) := outcome in
  match work with
  | Ran ctx' command o =>
      pp_Action prepared = Execute /\ ctx' = ctx /\ command = pp_Command prepared /\
      result = so_result o /\ e = so_err o /\ got = concat (map fst (so_reads o)) /\
      stdout = counter_Writes (so_stdout o) /\ stderr = counter_Writes (so_stderr o)
  | Drained input =>
      pp_Action prepared = DrainOnly /\ result = no_result /\ stdout = 0 /\ stderr = 0 /\
      got `prefix_of` concat (ci_pieces input) ++ ci_last input /\
      (MaxRecordedInputBytes < Z.of_nat (length got) \/
       got = concat (ci_pieces input) ++ ci_last input /\ e = copy_result (ci_final input))
  | _ => False
  end.

(** The record of an execution. *)
Definition executed (r : request) (wire : string) (prepared : Prepared)
    (outcome : CommandResult * error * Z * Z) (got : bytes) (code : Z)
    (record : toolCallRecord) (raw : rawSSHRecord) : Prop :=
  let '(result, e, stdout, stderr) := outcome in
  let tc := tr_ToolCallRecord record in
  let command := pp_Command prepared in
  names r record raw /\ rs_WireCommand raw = wire /\
  tc_OperationClass tc = pp_OperationClass prepared /\
  tc_CommandHash tc = sh_CommandHash s (pp_HashInput prepared) /\
  tc_Command tc = pp_Display prepared /\ tc_Argv tc = cm_Path command :: cm_Args command /\
  tc_Workdir tc = cm_Dir command /\
  tc_StdinBytes tc = Z.of_nat (length got) /\ rs_StdinBytes raw = Z.of_nat (length got) /\
  rs_Stdin raw = got /\
  (tc_StdinEncoding tc = "utf-8"%string -> tc_Stdin tc = of_bytes got) /\
  (tc_StdinEncoding tc = "utf-8"%string <-> SafeStructuredText got = true) /\
  tc_StdoutBytes tc = stdout /\ tc_StderrBytes tc = stderr /\
  tc_ExitCode tc = code /\
  (tc_Status tc = "completed"%string <-> e = None) /\
  (tc_Status tc = "canceled"%string <-> HasCancellationCause e = true).

(** What an execution leaves: its record, or a failed audit if its input is past the
    bound. *)
Definition evidence (r : request) (wire : string) (prepared : Prepared)
    (outcome : CommandResult * error * Z * Z) (got : bytes) (code : Z) (ev : event) : Prop :=
  match ev with
  | Recorded record raw =>
      Z.of_nat (length got) <= MaxRecordedInputBytes /\
      executed r wire prepared outcome got code record raw
  | Latched _ => MaxRecordedInputBytes < Z.of_nat (length got)
  | _ => False
  end.
Definition exit_code (outcome : CommandResult * error * Z * Z) (code : Z) : Prop :=
  let '(result, e, _, _) := outcome in
  0 <= code <= 255 /\ (e <> None -> code = 255) /\
  (e = None -> 0 <= cr_ExitCode result <= 255 -> code = cr_ExitCode result).

Lemma ssh_outcome_spec result e :
  let '(code, status, message) := ssh_outcome result e in
  (forall stdout stderr, exit_code (result, e, stdout, stderr) code) /\
  (status = "completed"%string <-> e = None) /\
  (status = "canceled"%string <-> HasCancellationCause e = true).
Proof.
  unfold ssh_outcome, exit_code. destruct e as [e|].
  - destruct (HasCancellationCause (Some e)); simpl; naive_solver lia.
  - destruct (Z.ltb_spec (cr_ExitCode result) 0), (Z.ltb_spec 255 (cr_ExitCode result)); simpl;
      naive_solver lia.
Qed.

Lemma run_prepared_emits ctx prepared :
  (forall value, pp_Action prepared <> OtherAction value) ->
  emits (run_prepared t ctx prepared) (fun out evs =>
    let '(result, e, stdin, stdout, stderr) := out in
    exists work got, evs = [work] /\ input_holds got stdin /\
      performed ctx prepared work (result, e, stdout, stderr) got).
Proof.
  intros Haction. unfold run_prepared. destruct (pp_Action prepared) eqn:Ha; [| |by destruct (Haction value)].
  - apply emits_call. intros o. apply emits_ret.
    eexists _, _. split; [done|]. split; [apply (input_Reads_holds _ _ []), new_input_holds|].
    simpl. by split_and!.
  - apply emits_call. intros input.
    destruct (discard_holds (ci_pieces input) (ci_last input) (ci_final input) new_input [] new_input_holds)
      as (got & Hh & Hpre & Hend).
    destruct (discard _ _ _ _) as [e stdin]. apply emits_ret. simpl in *.
    exists (Drained input), got. split; [done|]. split; [done|]. simpl. by split_and!.
Qed.

Lemma execute_emits ctx prepared r wire :
  (forall value, pp_Action prepared <> OtherAction value) ->
  emits (execute t ctx prepared
    {| ra_requestType := rq_Type r; ra_wantReply := rq_WantReply r; ra_payload := rq_Payload r;
       ra_remoteCommand := wire |}) (fun code evs =>
    exists work outcome got ev, evs = [work; ev] /\ performed ctx prepared work outcome got /\
      exit_code outcome code /\ evidence r wire prepared outcome got code ev).
Proof.
  intros Haction. unfold execute. apply emits_read. intros started.
  eapply emits_bind; [by apply run_prepared_emits|]. intros [[[[result e] stdin] stdout] stderr] evs
    (work & got & -> & (Hn & Ho & Hd) & Hp).
  pose proof (ssh_outcome_spec result e) as Hout. destruct (ssh_outcome result e) as [[code status] message].
  destruct Hout as (Hcode & Hcompleted & Hcanceled). unfold input_record.
  destruct (ri_overflow stdin) eqn:Hover.
  - destruct (SafeStructuredText _); apply emits_call; intros _; apply emits_ret;
      eexists work, _, got, _; (split; [done|]); (split; [exact Hp|]); (split; [apply Hcode|]);
      simpl; symmetry in Ho; by apply Z.ltb_lt in Ho.
  - symmetry in Ho. apply Z.ltb_ge in Ho. rewrite (Hd eq_refl).
    destruct (SafeStructuredText got) eqn:Hsafe; apply emits_read; intros now; apply emits_call; intros _;
      apply emits_ret; eexists work, _, got, _; (split; [done|]); (split; [exact Hp|]); (split; [apply Hcode|]);
      (split; [done|]); rewrite ?Hn; repeat (split; [done|]); rewrite ?Hsafe; naive_solver.
Qed.

(** What a request that does not run does before its record. *)
Definition declining (r : request) (ev : event) : Prop :=
  match ev with
  | Replied r' accepted e => r' = r /\ (accepted = true -> e <> None)
  | AuditChecked _ => True
  | _ => False
  end.
Definition may_continue (r : request) : Prop :=
  rq_Type r <> "exec"%string /\ po_UnsupportedRequests dialect_Policy = RejectAndContinue.

(** A request and what its handling does; the flag says whether the channel goes on. *)
Inductive handled (ctx : Ctx) (r : request) : bool -> list event -> Prop :=
  | handled_refused checks record raw go_on :
      Forall (declining r) checks -> not_run r record raw ->
      (go_on = true <-> may_continue r) ->
      (Exists (fun ev => match ev with AuditChecked (Some _) => True | _ => False end) checks ->
       tc_Status (tr_ToolCallRecord record) = "rejected"%string) ->
      handled ctx r go_on (checks ++ [Recorded record raw])
  | handled_executed wire prepared work outcome got code ev :
      rq_Type r = "exec"%string -> rq_WantReply r = true ->
      sh_Unmarshal s (rq_Payload r) = inl wire ->
      dialect_Prepare wire (sx_Workdir (sh_sandbox s)) = inl prepared ->
      performed ctx prepared work outcome got -> exit_code outcome code ->
      evidence r wire prepared outcome got code ev ->
      handled ctx r false [AuditChecked None; Replied r true None; work; ev; ExitStatus code].

Lemma refused_request ctx r command kind status message checks :
  rq_Type r = "exec"%string -> Forall (declining r) checks ->
  (Exists (fun ev => match ev with AuditChecked (Some _) => True | _ => False end) checks ->
   status = "rejected"%string) ->
  emits (let* _ := logRequestFailure t
           {| ra_requestType := rq_Type r; ra_wantReply := rq_WantReply r; ra_payload := rq_Payload r;
              ra_remoteCommand := command |} kind status message in ret false)
    (fun go_on evs => handled ctx r go_on (checks ++ evs)).
Proof.
  intros Htype Hd Hstatus. eapply (emits_bind _ _ (fun _ evs => exists record raw, evs = [Recorded record raw] /\
    not_run r record raw /\ tc_Status (tr_ToolCallRecord record) = status)).
  - apply logRequestFailure_emits. intros record raw Hr _ Hs. by exists record, raw.
  - intros _ evs (record & raw & -> & Hr & <-). apply emits_ret. rewrite app_nil_r.
    apply handled_refused; [done|done| |done]. unfold may_continue. split; [done|]. by intros [? _].
Qed.

Lemma refuse_emits ctx r command kind status message checks :
  rq_Type r = "exec"%string -> Forall (declining r) checks ->
  (Exists (fun ev => match ev with AuditChecked (Some _) => True | _ => False end) checks ->
   status = "rejected"%string) ->
  emits (refuse t r (logRequestFailure t
           {| ra_requestType := rq_Type r; ra_wantReply := rq_WantReply r; ra_payload := rq_Payload r;
              ra_remoteCommand := command |} kind status message))
    (fun go_on evs => handled ctx r go_on (checks ++ evs)).
Proof.
  intros Htype Hd Hstatus. unfold refuse. apply emits_call. intros e.
  eapply emits_mono; [apply (refused_request ctx r command kind status message (checks ++ [Replied r false e]))|].
  - done.
  - apply Forall_app. split; [done|]. by repeat constructor.
  - rewrite Exists_app, Exists_cons, Exists_nil. naive_solver.
  - simpl. intros go_on evs. by rewrite <- app_assoc.
Qed.

Lemma unsupported_emits ctx r kind status message (go_on : bool) :
  (go_on = true <-> may_continue r) ->
  emits (let* _ := if rq_WantReply r then let* _ := sh_reply t r false in ret tt else ret tt in
         let* _ := logRequestFailure t
           {| ra_requestType := rq_Type r; ra_wantReply := rq_WantReply r; ra_payload := rq_Payload r;
              ra_remoteCommand := "" |} kind status message in ret go_on)
    (fun go_on evs => handled ctx r go_on evs).
Proof.
  intros Hgo. eapply (emits_bind _ _ (fun _ evs => Forall (declining r) evs /\
    Forall (fun ev => match ev with AuditChecked _ => False | _ => True end) evs)).
  { destruct (rq_WantReply r); [|by apply emits_ret]. apply emits_call. intros e. apply emits_ret.
    by repeat constructor. }
  intros _ checks [Hd Hq]. eapply emits_bind.
  - apply (logRequestFailure_emits r ""%string kind status message
      (fun _ evs => exists record raw, evs = [Recorded record raw] /\ not_run r record raw)).
    intros record raw Hr _ _. by exists record, raw.
  - intros _ evs (record & raw & -> & Hr). apply emits_ret. rewrite app_nil_r.
    apply handled_refused; [done|done|done|]. intros (ev & Hin & Hev)%Exists_exists.
    rewrite Forall_forall in Hq. specialize (Hq ev Hin). by destruct ev.
Qed.

Lemma handle_request_emits ctx r : emits (handle_request t ctx r) (handled ctx r).
Proof.
  unfold handle_request. destruct (String.eqb_spec (rq_Type r) "exec") as [Htype|Htype]; cbn [negb].
  2: { simpl. destruct (po_UnsupportedRequests _) eqn:Hp; apply unsupported_emits;
         unfold may_continue; rewrite Hp; (split; [done|]); by intros [_ ?]. }
  destruct (negb (rq_WantReply r)) eqn:Hw.
  { apply (refused_request ctx r _ _ _ _ []); [done|done|by intros ?%Exists_nil]. }
  apply negb_false_iff in Hw. simpl. destruct (sh_Unmarshal s (rq_Payload r)) as [wire|e] eqn:Hun.
  2: { apply (refuse_emits ctx r _ _ _ _ []); [done|done|by intros ?%Exists_nil]. }
  destruct (dialect_Prepare wire _) as [prepared|refusal] eqn:Hprep.
  2: { apply (refuse_emits ctx r _ _ _ _ []); [done|done|]. by intros ?%Exists_nil. }
  assert ((exists value, pp_Action prepared = OtherAction value) \/
    (forall value, pp_Action prepared <> OtherAction value)) as [[value ->]|Haction].
  { destruct (pp_Action prepared); [by right|by right|left; by eexists]. }
  { by apply (refuse_emits ctx r _ _ _ _ []). }
  assert (emits (let* auditErr := sh_audit_Err t in
    match auditErr with
    | Some _ => refuse t r (logRequestFailure t
        {| ra_requestType := rq_Type r; ra_wantReply := rq_WantReply r; ra_payload := rq_Payload r;
           ra_remoteCommand := wire |} (pp_RefusalClass prepared) "rejected" "bridge audit failed")
    | None =>
        let* e := sh_reply t r true in
        match e with
        | Some _ =>
            let* _ := logRequestFailure t
              {| ra_requestType := rq_Type r; ra_wantReply := rq_WantReply r; ra_payload := rq_Payload r;
                 ra_remoteCommand := wire |} (pp_RefusalClass prepared) "failed" "SSH accept reply failed" in
            ret false
        | None =>
            let* exitCode := execute t ctx prepared
              {| ra_requestType := rq_Type r; ra_wantReply := rq_WantReply r; ra_payload := rq_Payload r;
                 ra_remoteCommand := wire |} in
            let* _ := sh_exit_status t exitCode in
            ret false
        end
    end) (handled ctx r)) as Hrun.
  2: { destruct (pp_Action prepared) as [| |value]; [exact Hrun|exact Hrun|by destruct (Haction value)]. }
  apply emits_call. intros [e|].
  { apply (refuse_emits ctx r _ _ _ _ [AuditChecked (Some e)]); [done|by repeat constructor|done]. }
  apply emits_call. intros [e|].
  { apply (refused_request ctx r _ _ _ _ [AuditChecked None; Replied r true (Some e)]); [done|by repeat constructor|].
    intros [?|[?|?%Exists_nil]%Exists_cons]%Exists_cons; done. }
  eapply emits_bind; [by apply execute_emits|]. intros code evs (work & outcome & got & ev & -> & Hp & Hc & Hev).
  apply emits_call. intros _. apply emits_ret. by eapply handled_executed.
Qed.

(** ** The channel *)

Lemma handleSession_emits ctx requests :
  emits (handleSession t ctx requests) (fun rest evs => exists skipped : list (request * list event),
    Forall (fun served => handled ctx served.1 true served.2) skipped /\
    (requests = map fst skipped /\ rest = [] /\ evs = concat (map snd skipped) \/
     exists r block, requests = map fst skipped ++ r :: rest /\ handled ctx r false block /\
       evs = concat (map snd skipped) ++ block)).
Proof.
  induction requests as [|r requests IH]; cbn [handleSession].
  { apply emits_ret. exists []. split; [done|]. by left. }
  eapply emits_bind; [apply handle_request_emits|]. intros [|] block Hr.
  - eapply emits_mono; [apply IH|]. simpl. intros rest evs (skipped & Hall & Hend).
    exists ((r, block) :: skipped). split; [by constructor|]. simpl.
    destruct Hend as [(-> & -> & ->)|(r' & block' & -> & Hr' & ->)]; [by left|right].
    exists r', block'. split; [done|]. split; [done|]. by rewrite app_assoc.
  - apply emits_ret. exists []. split; [done|]. right. exists r, block. rewrite app_nil_r. by split.
Qed.

(** Running is executing a command or draining the input. *)
Definition running (ev : event) : bool := match ev with Ran _ _ _ | Drained _ => true | _ => false end.
Definition idle (ev : event) : Prop := running ev = false.
Definition evidential (ev : event) : bool := match ev with Recorded _ _ | Latched _ => true | _ => false end.

Lemma declining_quiet r checks :
  Forall (declining r) checks -> Forall idle checks /\ List.filter evidential checks = [].
Proof.
  induction 1 as [|ev checks Hev _ [IH IH']]; [done|].
  destruct ev; try done; by split; [constructor|].
Qed.

Lemma handled_goes_on ctx r block : handled ctx r true block -> Forall idle block /\ may_continue r.
Proof.
  inversion 1 as [checks record raw go_on Hd _ Hgo _|]; subst. split; [|by apply Hgo].
  destruct (declining_quiet r checks Hd) as [Hq _]. apply Forall_app. split; [done|]. by repeat constructor.
Qed.

Lemma handled_evidence ctx r go_on block :
  handled ctx r go_on block -> exists ev, List.filter evidential block = [ev] /\
    match ev with Recorded record raw => names r record raw | _ => True end.
Proof.
  destruct 1 as [checks record raw go_on Hd Hn _ _|wire prepared work outcome got code ev Ht Hw Hu Hp Hwork Hc Hev].
  - destruct (declining_quiet r checks Hd) as [_ Hq]. exists (Recorded record raw).
    rewrite List.filter_app, Hq. by destruct Hn.
  - exists ev. destruct outcome as [[[result e] stdout] stderr].
    destruct work; try done; destruct ev; try done; simpl in *; (split; [done|]); try done; by destruct Hev as [_ [? _]].
Qed.

Lemma idle_blocks ctx (skipped : list (request * list event)) :
  Forall (fun served => handled ctx served.1 true served.2) skipped ->
  Forall idle (concat (map snd skipped)).
Proof.
  induction 1 as [|[r block] skipped Hr _ IH]; simpl; [done|]. apply Forall_app. split; [|done].
  by destruct (handled_goes_on ctx r block Hr).
Qed.

Lemma not_idle evs before work after :
  Forall idle evs -> evs = before ++ work :: after -> running work = true -> False.
Proof.
  intros Hidle -> Hrun. apply Forall_app in Hidle as [_ Hidle]. apply Forall_cons in Hidle as [Hw _].
  unfold idle in Hw. congruence.
Qed.

(** The one running event of a trace splits it in one way. *)
Lemma idle_split before work after quiet work' quiet' :
  quiet ++ work' :: quiet' = before ++ work :: after -> running work = true ->
  Forall idle quiet -> Forall idle quiet' -> quiet = before /\ work' = work /\ quiet' = after.
Proof.
  intros Heq Hrun Hq Hq'. revert before Heq. induction Hq as [|q quiet Hq _ IH]; intros [|b before] Heq; simpl in *.
  - by injection Heq.
  - injection Heq as -> ->. by destruct (not_idle _ before work after Hq').
  - injection Heq as -> _. unfold idle in Hq. congruence.
  - injection Heq as -> Heq. by destruct (IH before Heq) as (-> & -> & ->).
Qed.

(** C22. A channel runs at most one thing, and only what its dialect made of an [exec]
    request of this channel: its last one, which asked for a reply, after the audit
    was found intact and the acceptance was sent.  What follows is the evidence of
    this run and nothing else: its record, with the exact input, the output volumes,
    the exit code and the status, or, if the input is past the bound on what is
    retained, a failed audit; then the exit code, a byte, is sent to the client. *)
Theorem ssh_runs_only_prepared ctx requests :
  emits (handleSession t ctx requests) (fun rest evs =>
    forall before work after, evs = before ++ work :: after -> running work = true ->
    exists r wire prepared outcome got code ev earlier,
      requests = earlier ++ r :: rest /\
      rq_Type r = "exec"%string /\ rq_WantReply r = true /\
      sh_Unmarshal s (rq_Payload r) = inl wire /\
      dialect_Prepare wire (sx_Workdir (sh_sandbox s)) = inl prepared /\
      (exists quiet, before = quiet ++ [AuditChecked None; Replied r true None] /\ Forall idle quiet) /\
      performed ctx prepared work outcome got /\
      after = [ev; ExitStatus code] /\ evidence r wire prepared outcome got code ev /\
      exit_code outcome code).
Proof.
  eapply emits_mono; [apply handleSession_emits|].
  intros rest evs (skipped & Hall & Hend) before work after Hevs Hrun.
  pose proof (idle_blocks ctx skipped Hall) as Hidle.
  destruct Hend as [(-> & -> & ->)|(r & block & -> & Hr & ->)]; [by destruct (not_idle _ before work after Hidle)|].
  inversion Hr as [checks record raw go_on Hd _ _ _|wire prepared work' outcome got code ev Ht Hw Hu Hp Hwork Hc Hev];
    subst.
  - destruct (declining_quiet r checks Hd) as [Hq _]. exfalso.
    apply (not_idle (concat (map snd skipped) ++ checks ++ [Recorded record raw]) before work after); [|done|done].
    apply Forall_app. split; [done|]. apply Forall_app. by split; [|repeat constructor].
  - change [AuditChecked None; Replied r true None; work'; ev; ExitStatus code]
      with ([AuditChecked None; Replied r true None] ++ work' :: [ev; ExitStatus code]) in Hevs.
    rewrite (app_assoc _ [AuditChecked None; Replied r true None]) in Hevs.
    apply idle_split in Hevs as (<- & <- & <-); [|done| |].
    + exists r, wire, prepared, outcome, got, code, ev, (map fst skipped).
      repeat (split; [done|]). split; [by exists (concat (map snd skipped))|]. done.
    + apply Forall_app. by split; [|repeat constructor].
    + repeat constructor. by destruct ev.
Qed.

(** Every request the channel takes leaves exactly one piece of evidence, in the
    order of the requests: a record that names it, its payload, the sandbox and the
    task, or a failed audit.  The channel stops at the first request that is not of
    an unsupported type the dialect lets pass, and takes nothing after it. *)
Theorem ssh_requests_accounted ctx requests :
  emits (handleSession t ctx requests) (fun rest evs =>
    exists served : list (request * list event),
      requests = map fst served ++ rest /\ evs = concat (map snd served) /\
      Forall (fun '(r, block) => exists ev, List.filter evidential block = [ev] /\
        match ev with Recorded record raw => names r record raw | _ => True end) served /\
      (forall earlier r block later, served = earlier ++ (r, block) :: later -> later <> [] -> may_continue r) /\
      (rest <> [] -> exists r block, last served = Some (r, block) /\ ~ may_continue r)).
Proof.
  eapply emits_mono; [apply handleSession_emits|]. intros rest evs (skipped & Hall & Hend).
  assert (forall served : list (request * list event),
    Forall (fun served => exists go_on, handled ctx served.1 go_on served.2) served ->
    Forall (fun '(r, block) => exists ev, List.filter evidential block = [ev] /\
        match ev with Recorded record raw => names r record raw | _ => True end) served) as Hone.
  { intros served Hs. eapply Forall_impl; [exact Hs|]. intros [r block] [go_on Hh].
    by apply (handled_evidence ctx r go_on). }
  assert (Forall (fun served => exists go_on, handled ctx served.1 go_on served.2) skipped) as Hskipped.
  { eapply Forall_impl; [exact Hall|]. intros served Hs. by exists true. }
  assert (Forall (fun served : request * list event => may_continue served.1) skipped) as Hgo.
  { eapply Forall_impl; [exact Hall|]. intros [r block] Hs. by destruct (handled_goes_on ctx r block Hs). }
  destruct Hend as [(-> & -> & ->)|(r & block & -> & Hr & ->)].
  - exists skipped. rewrite app_nil_r. split; [done|]. split; [done|]. split; [by apply Hone|]. split; [|done].
    intros earlier r block later -> _. apply Forall_app in Hgo as [_ Hgo]. by apply Forall_cons in Hgo as [? _].
  - exists (skipped ++ [(r, block)]). rewrite !map_app, concat_app. simpl. rewrite app_nil_r, <- app_assoc.
    split; [done|]. split; [done|]. split.
    { apply Hone, Forall_app. split; [done|]. constructor; [by exists false|done]. }
    split.
    + intros earlier r' block' later Heq Hlater. destruct later as [|p later] using rev_ind; [done|].
      rewrite app_comm_cons, app_assoc in Heq. apply app_inj_tail in Heq as [-> _].
      apply Forall_app in Hgo as [_ Hgo]. by apply Forall_cons in Hgo as [? _].
    + intros _. exists r, block. rewrite last_snoc. split; [done|]. intros Hm.
      inversion Hr as [checks record raw go_on _ _ Hg _|]; subst; [by apply Hg in Hm|by destruct Hm].
Qed.
End Requests.

(** An entry of ssh_raw.log is its begin line, one line per field and its end line,
    whatever the client sent, and each field reads back exactly. *)
Lemma renderRawSSHRecord_lines IsPrint record sequence timestamp :
  exists escaped : list bytes,
    split_bytes NL (renderRawSSHRecord IsPrint record sequence timestamp) =
      ssh_raw_begin ::
      zip_with (fun (field : string * bytes) value => to_bytes field.1 ++ "="%char :: value)
        (ssh_raw_fields record sequence timestamp) escaped ++ [ssh_raw_end; []] /\
    Forall2 (fun (field : string * bytes) value => unescape value = Some field.2)
      (ssh_raw_fields record sequence timestamp) escaped.
Proof.
  apply render_fields_lines; [by unfold ssh_raw_begin; set_solver|by unfold ssh_raw_end; set_solver|].
  unfold ssh_raw_fields. repeat (constructor; [cbv [fst]; set_solver|]). constructor.
Qed.

(** * An instance: a channel of the Hermes dialect *)

Module SshDemo.
Definition clock : Runtime unit := {| time_Now := ret 5; ctx_Err _ := ret None |}.
Definition target : SshTarget unit :=
  {| sx_ContainerID := "c"; sx_ContainerName := "n"; sx_RunID := "r"; sx_TaskID := "t"; sx_Workdir := "/w";
     sx_ExecStream _ _ := ret {| so_result := {| cr_ExitCode := 3; cr_Stdout := ""; cr_Stderr := ""; cr_Duration := 0 |};
       so_err := None; so_reads := [(to_bytes "in", None); ([], Some (ESentinel ErrEOF))];
       so_stdout := [2; 3]; so_stderr := [] |} |}.
Definition session : SshSession unit :=
  {| sh_sandbox := target; sh_sandboxID := "s"; sh_audit_Err := ret None; sh_audit_Latch _ := ret tt;
     sh_audit_Enqueue _ _ := ret tt; sh_RetainsRaw := true; sh_reply _ _ := ret None;
     sh_drain := ret {| ci_pieces := []; ci_last := []; ci_final := ESentinel ErrEOF |};
     sh_exit_status _ := ret tt; sh_Unmarshal payload := inl (of_bytes payload);
     sh_FormatTime _ := ""%string; sh_CommandHash c := c |}.
Definition env_request : request := {| rq_Type := "env"; rq_WantReply := true; rq_Payload := [] |}.
Definition exec_request : request :=
  {| rq_Type := "exec"; rq_WantReply := true; rq_Payload := to_bytes "bash -c 'ls -l'" |}.
Definition summary (ev : event) : string :=
  match ev with
  | Replied _ accepted _ => if accepted then "accepted" else "refused"
  | AuditChecked _ => "audit"
  | Ran _ c _ => Hermes.Join (cm_Path c :: cm_Args c) " "
  | Drained _ => "drained"
  | Recorded record _ => tc_Status (tr_ToolCallRecord record) +:+ " " +:+ tc_Stdin (tr_ToolCallRecord record) +:+
      " " +:+ itoa (tc_StdoutBytes (tr_ToolCallRecord record))
  | Latched _ => "latched"
  | ExitStatus code => "exit " +:+ itoa code
  end%string.
#[local] Existing Instance clock.
Definition run := handleSession (D := Hermes.HermesDialect) (traced session) Background
  [env_request; exec_request; exec_request] (tt, []).
End SshDemo.

Example ssh_channel_demo :
  SshDemo.run.1 = [SshDemo.exec_request] /\
  map SshDemo.summary SshDemo.run.2.2 =
    ["refused"; "unsupported  0"; "audit"; "accepted"; "/bin/bash -c ls -l"; "completed in 5"; "exit 3"]%string.
Proof. split; vm_compute; reflexivity. Qed.
