(* ===== verification/Paths.v ===== *)
(** Slash-separated paths as [path/filepath] treats them: [Clean], [Join] and the clean
    absolute paths. *)

From S2P Require Import Prelude.

(** [filepath.Clean] for a slash-separated path: the components kept, the last one
    first. *)
Fixpoint clean_components (rooted : bool) (stack parts : list bytes) : list bytes :=
  match parts with
  | [] => stack
  | part :: parts =>
      let dot := ["."%char] in
      let dotdot := ["."%char; "."%char] in
      let stack' :=
        if bool_decide (part = []) || bool_decide (part = dot) then stack
        else if bool_decide (part = dotdot) then
          match stack with
          | top :: rest => if bool_decide (top = dotdot) then dotdot :: stack else rest
          | [] => if rooted then [] else [dotdot]
          end
        else part :: stack in
      clean_components rooted stack' parts
  end.
Definition Clean (path : string) : string :=
  match to_bytes path with
  | [] => "."
  | c :: _ =>
      let rooted := Ascii.eqb c "/" in
      let parts := rev (clean_components rooted [] (split_bytes "/" (to_bytes path))) in
      if rooted then of_bytes ("/"%char :: join_bytes "/" parts)
      else match parts with [] => "." | _ => of_bytes (join_bytes "/" parts) end
  end.

(** [filepath.Join]: empty elements are ignored. *)
Definition Join (elements : list string) : string :=
  match filter (fun e => e <> ""%string) elements with
  | [] => ""
  | elements => Clean (String.concat "/" elements)
  end.

(** [filepath.Base]. *)
Fixpoint drop_slashes (s : bytes) : bytes :=
  match s with
  | c :: rest => if Ascii.eqb c "/" then drop_slashes rest else s
  | [] => []
  end.
Definition Base (path : string) : string :=
  if String.eqb path "" then "."
  else match drop_slashes (rev (to_bytes path)) with
       | [] => "/"
       | s => of_bytes (default [] (last (split_bytes "/" (rev s))))
       end.

(** A clean absolute path: the root, or components none of which is empty, a dot or
    two dots. *)
Definition path_component (component : bytes) : Prop :=
  component <> [] /\ component <> ["."%char] /\ component <> ["."%char; "."%char] /\
  "/"%char ∉ component.
Definition clean_path (path : string) : Prop :=
  path = "/"%string \/
  exists components, components <> [] /\ Forall path_component components /\
    to_bytes path = concat (map (cons "/"%char) components).

(** The components kept of an absolute path are all proper. *)
Lemma clean_components_proper stack parts :
  Forall path_component stack -> Forall (fun part => "/"%char ∉ part) parts ->
  Forall path_component (clean_components true stack parts).
Proof.
  intros Hs Hp. revert stack Hs. induction Hp as [|part parts Hpart _ IH]; intros stack Hs; [done|].
  cbn [clean_components]. apply IH. case_bool_decide as H1; [done|].
  case_bool_decide as H2; [done|]. simpl. case_bool_decide as H3.
  - destruct Hs as [|top rest Ht Hs]; [constructor|]. rewrite bool_decide_eq_false_2; [done|].
    by destruct Ht as (_ & _ & ? & _).
  - by constructor.
Qed.

Lemma clean_components_id stack parts :
  Forall path_component parts -> clean_components true stack parts = rev parts ++ stack.
Proof.
  intros Hp. revert stack. induction Hp as [|part parts (H1 & H2 & H3 & _) _ IH]; intros stack; [done|].
  cbn [clean_components]. rewrite !bool_decide_eq_false_2 by done. simpl. rewrite IH.
  by rewrite <- app_assoc.
Qed.

Lemma join_components components :
  components <> [] -> "/"%char :: join_bytes "/" components = concat (map (cons "/"%char) components).
Proof. intros H. by rewrite concat_join. Qed.

Lemma split_rooted components :
  components <> [] -> Forall path_component components ->
  split_bytes "/" ("/"%char :: join_bytes "/" components) = [] :: components.
Proof.
  intros Hne Hc. change ("/"%char :: join_bytes "/" components) with ([] ++ "/"%char :: join_bytes "/" components).
  rewrite split_bytes_sep by apply not_elem_of_nil. f_equal. apply split_join; [done|].
  eapply Forall_impl; [exact Hc|]. by intros component (_ & _ & _ & ?).
Qed.

Lemma Clean_rooted path rest :
  to_bytes path = "/"%char :: rest ->
  to_bytes (Clean path) =
    "/"%char :: join_bytes "/" (rev (clean_components true [] (split_bytes "/" rest))).
Proof.
  intros Hp. unfold Clean. rewrite Hp. cbn [Ascii.eqb]. rewrite Ascii.eqb_refl, to_of_bytes.
  by assert (split_bytes "/" ("/"%char :: rest) = [] :: split_bytes "/" rest) as ->
    by (apply (split_bytes_sep "/" []); apply not_elem_of_nil).
Qed.

Lemma Clean_is_clean path : HasPrefix path "/" = true -> clean_path (Clean path).
Proof.
  intros Hp. destruct path as [|c rest]; [done|].
  assert (c = "/"%char) as ->.
  { unfold HasPrefix in Hp. simpl in Hp. by destruct (ascii_dec "/" c). }
  pose proof (Clean_rooted (String "/" rest) (to_bytes rest) eq_refl) as Hc.
  set (components := rev (clean_components true [] (split_bytes "/" (to_bytes rest)))) in Hc.
  assert (Forall path_component components) as Hall.
  { unfold components. apply Forall_rev, clean_components_proper; [constructor|].
    apply Forall_forall. intros part. apply split_bytes_no_sep. }
  destruct (decide (components = [])) as [Hnil|Hne].
  - left. apply to_bytes_inj. by rewrite Hc, Hnil.
  - right. exists components. split_and!; [done|done|]. by rewrite Hc, join_components.
Qed.

Lemma Clean_fixes path : clean_path path -> Clean path = path.
Proof.
  intros [->|(components & Hne & Hall & Hp)]; [reflexivity|].
  rewrite <- join_components in Hp by done. apply to_bytes_inj.
  rewrite (Clean_rooted path (join_bytes "/" components)) by done.
  rewrite Hp. f_equal. f_equal.
  rewrite split_join; [|done|].
  - rewrite clean_components_id by done. by rewrite app_nil_r, rev_involutive.
  - eapply Forall_impl; [exact Hall|]. by intros component (_ & _ & _ & ?).
Qed.

Lemma clean_path_rooted path : clean_path path -> path <> ""%string /\ HasPrefix path "/" = true.
Proof.
  intros [->|(components & Hne & _ & Hp)]; [done|].
  destruct components as [|c cs]; [done|]. destruct path as [|d path]; [done|].
  simpl in Hp. injection Hp as -> _. split; [done|]. unfold HasPrefix. simpl. by destruct path.
Qed.

(** Cleaning an absolute path adds no byte. *)
Lemma clean_components_from stack parts component :
  component ∈ clean_components true stack parts -> component ∈ stack \/ component ∈ parts.
Proof.
  revert stack. induction parts as [|part parts IH]; intros stack Hin; [by left|].
  cbn [clean_components] in Hin. apply IH in Hin as [Hin|Hin]; [|right; by right].
  destruct (_ || _); [by left|]. case_bool_decide as Hdd.
  - destruct stack as [|top stack]; [by apply not_elem_of_nil in Hin|]. case_bool_decide; [|left; by right].
    apply elem_of_cons in Hin as [->|Hin]; [right; subst; by left|by left].
  - apply elem_of_cons in Hin as [->|Hin]; [right; by left|by left].
Qed.
Lemma split_bytes_from sep s part c : part ∈ split_bytes sep s -> c ∈ part -> c ∈ s.
Proof.
  revert part. induction s as [|d s IH]; simpl; intros part Hp Hc.
  { apply list_elem_of_singleton in Hp as ->. done. }
  destruct (Ascii.eqb d sep).
  - apply elem_of_cons in Hp as [->|Hp]; [by apply not_elem_of_nil in Hc|]. right. by eapply IH.
  - destruct (split_bytes sep s) as [|p rest].
    + apply list_elem_of_singleton in Hp as ->. apply list_elem_of_singleton in Hc as ->. by left.
    + apply elem_of_cons in Hp as [->|Hp].
      * apply elem_of_cons in Hc as [->|Hc]; [by left|]. right. apply (IH p); [by left|done].
      * right. apply (IH part); [by right|done].
Qed.
Lemma join_bytes_from sep parts c : c ∈ join_bytes sep parts -> c = sep \/ exists part, part ∈ parts /\ c ∈ part.
Proof.
  induction parts as [|part parts IH]; [by intros ?%not_elem_of_nil|]. intros Hc.
  destruct parts as [|p parts]; [right; exists part; split; [by left|done]|].
  change (join_bytes sep (part :: p :: parts)) with (part ++ sep :: join_bytes sep (p :: parts)) in Hc.
  apply elem_of_app in Hc as [Hc|[->|Hc]%elem_of_cons]; [right; exists part; split; [by left|done]|by left|].
  destruct (IH Hc) as [?|(q & ? & ?)]; [by left|right; exists q; split; [by right|done]].
Qed.
Lemma Clean_bytes path c :
  HasPrefix path "/" = true -> c ∈ to_bytes (Clean path) -> c ∈ to_bytes path.
Proof.
  intros Hp Hc. destruct path as [|d rest]; [done|].
  assert (d = "/"%char) as ->.
  { unfold HasPrefix in Hp. simpl in Hp. by destruct (ascii_dec "/" d). }
  rewrite (Clean_rooted (String "/" rest) (to_bytes rest) eq_refl) in Hc.
  change (to_bytes (String "/" rest)) with ("/"%char :: to_bytes rest).
  apply elem_of_cons in Hc as [->|Hc]; [by left|].
  apply join_bytes_from in Hc as [->|(part & Hpart & Hc)]; [by left|]. right.
  apply list_elem_of_In, in_rev, list_elem_of_In in Hpart. apply clean_components_from in Hpart as [?%not_elem_of_nil|Hpart]; [done|].
  by eapply split_bytes_from.
Qed.
