(* ===== verification/Net.v ===== *)
(** What the program uses of the Go packages [net] and [strconv]: [SplitHostPort]
    and [Atoi]. *)

From S2P Require Import Prelude Utf8.

(** [strconv.Atoi]: an optional sign and decimal digits, within 64 bits. *)
Definition atoi_error (s reason : string) : err := ENew ("strconv.Atoi: parsing " +:+ quote s +:+ ": " +:+ reason).
Definition Atoi (s : string) : Z + err :=
  let (negative, digits) :=
    match to_bytes s with
    | c :: rest => if Ascii.eqb c "-" then (true, rest) else if Ascii.eqb c "+" then (false, rest)
                   else (false, c :: rest)
    | [] => (false, [])
    end in
  if bool_decide (digits = []) || negb (forallb is_digit digits) then inr (atoi_error s "invalid syntax")
  else
    let n := Z.of_N (dec_value 0 (of_bytes digits)) in
    if negative then if 2 ^ 63 <? n then inr (atoi_error s "value out of range") else inl (- n)
    else if 2 ^ 63 <=? n then inr (atoi_error s "value out of range") else inl n.

Lemma Atoi_itoa n : 0 <= n < 2 ^ 63 -> Atoi (itoa n) = inl n.
Proof.
  intros Hn. unfold Atoi. pose proof (digits_itoa n ltac:(lia)) as Hd.
  destruct (to_bytes (itoa n)) as [|c rest] eqn:Hb.
  { exfalso. assert (itoa n = ""%string) as H0 by by apply to_bytes_inj.
    pose proof (dec_value_itoa n ltac:(lia)) as Hv. rewrite H0 in Hv. simpl in Hv. by subst n. }
  pose proof Hd as Hdigits. simpl in Hd. apply andb_true_iff in Hd as [Hc _].
  destruct (Ascii.eqb_spec c "-"); [by subst|]. destruct (Ascii.eqb_spec c "+"); [by subst|].
  rewrite bool_decide_eq_false_2 by done. rewrite Hdigits. cbn [negb orb]. rewrite <- Hb, of_to_bytes, dec_value_itoa by lia.
  rewrite (proj2 (Z.leb_gt (2 ^ 63) n)) by lia. done.
Qed.

(** [net.SplitHostPort]. *)
Definition COLON : ascii := ":"%char.
Fixpoint last_index (c : ascii) (s : bytes) : option nat :=
  match s with
  | [] => None
  | d :: s =>
      match last_index c s with
      | Some i => Some (S i)
      | None => if Ascii.eqb d c then Some O else None
      end
  end.
Fixpoint index (c : ascii) (s : bytes) : option nat :=
  match s with
  | [] => None
  | d :: s => if Ascii.eqb d c then Some O else S <$> index c s
  end.
Definition addr_error (why addr : string) : err := ENew ("address " +:+ addr +:+ ": " +:+ why).
Definition SplitHostPort (hostport : string) : (string * string) + err :=
  let s := to_bytes hostport in
  match last_index COLON s with
  | None => inr (addr_error "missing port in address" hostport)
  | Some i =>
      let finish (host : bytes) (j k : nat) :=
        if mem "[" (drop j s) then inr (addr_error "unexpected '[' in address" hostport)
        else if mem "]" (drop k s) then inr (addr_error "unexpected ']' in address" hostport)
        else inl (of_bytes host, of_bytes (drop (S i) s)) in
      match s with
      | "["%char :: _ =>
          match index "]" s with
          | None => inr (addr_error "missing ']' in address" hostport)
          | Some close =>
              if (S close =? length s)%nat then inr (addr_error "missing port in address" hostport)
              else if (S close =? i)%nat then finish (take (close - 1) (drop 1 s)) 1%nat (S close)
              else if bool_decide (s !! S close = Some COLON)
              then inr (addr_error "too many colons in address" hostport)
              else inr (addr_error "missing port in address" hostport)
          end
      | _ =>
          let host := take i s in
          if mem COLON host then inr (addr_error "too many colons in address" hostport)
          else finish host 0%nat 0%nat
      end
  end.

Example split_v4 : SplitHostPort "127.0.0.1:22" = inl ("127.0.0.1", "22")%string.
Proof. reflexivity. Qed.
Example split_v6 : SplitHostPort "[::1]:22" = inl ("::1", "22")%string.
Proof. reflexivity. Qed.
Example split_bad : SplitHostPort "::1:22" = inr (addr_error "too many colons in address" "::1:22").
Proof. reflexivity. Qed.
