(* ===== verification/SshManager.v ===== *)
(** The manager of one SSH bridge ([pkg/bridge/ssh], bridge.go, and the accept loops of
    server.go): its start with the rollback, its stop with retries, the admission of
    connections and channels under the session's lock, the wait group that joins them
    and the audit writer ([ToolAudit]) behind them, as interleaved steps. *)

From S2P Require Import Prelude Core Paths ToolAudit.

Definition lockedUsername : string := "aries".

(** [core.BridgeListen], as far as the bridge reads it. *)
Record BridgeListen := { bl_BindPort : Z; bl_BindHost : string }.

(** * State *)

(** [bridgeSession].  Connections and channels are numbered; [se_wait] is the counter of
    the wait group, and [se_audit] the writer, once there is one. *)
Record bridgeSession := {
  se_serving : bool;                 (* the accept loop runs *)
  se_connections : gset nat;         (* session.connections *)
  se_handlers : gset nat;            (* running handleConnection *)
  se_channels : gset nat;            (* running handleSession *)
  se_wait : Z;
  se_revoked : bool;
  se_canceled : bool;
  se_listening : bool;
  se_audit : option AuditWriter;
  se_configuration : bool;
  se_partialStart : bool;
  se_rawLog : bool;
  se_removed : bool                  (* os.RemoveAll of the artifact directory *)
}.

(** Where the call that owns the session is: a start that waits for its hook or cleans
    up after a failure, or a stop that waits for the workers or for the audit. *)
Inductive phase :=
  | Free
  | Hooking (address : string)
  | Failing (primary : err)
  | FailingFinal (primary : err)
  | StopWaiting
  | StopFinal.
Definition stopping (p : phase) : bool := match p with StopWaiting | StopFinal => true | _ => false end.

(** [Manager]; [mg_session] is the session object, also when it is not active. *)
Record Manager := {
  mg_used : bool;
  mg_hostSigner : bool;
  mg_active : bool;
  mg_stopErr : error;
  mg_phase : phase;
  mg_session : option bridgeSession
}.
Definition new_Manager : Manager :=
  {| mg_used := false; mg_hostSigner := true; mg_active := false; mg_stopErr := None;
     mg_phase := Free; mg_session := None |}.

Definition set_se_serving (x : bool) (r : bridgeSession) : bridgeSession :=
  {| se_serving := x; se_connections := se_connections r; se_handlers := se_handlers r;
     se_channels := se_channels r; se_wait := se_wait r; se_revoked := se_revoked r;
     se_canceled := se_canceled r; se_listening := se_listening r; se_audit := se_audit r;
     se_configuration := se_configuration r; se_partialStart := se_partialStart r;
     se_rawLog := se_rawLog r; se_removed := se_removed r |}.
Definition set_se_connections (x : gset nat) (r : bridgeSession) : bridgeSession :=
  {| se_serving := se_serving r; se_connections := x; se_handlers := se_handlers r;
     se_channels := se_channels r; se_wait := se_wait r; se_revoked := se_revoked r;
     se_canceled := se_canceled r; se_listening := se_listening r; se_audit := se_audit r;
     se_configuration := se_configuration r; se_partialStart := se_partialStart r;
     se_rawLog := se_rawLog r; se_removed := se_removed r |}.
Definition set_se_handlers (x : gset nat) (r : bridgeSession) : bridgeSession :=
  {| se_serving := se_serving r; se_connections := se_connections r; se_handlers := x;
     se_channels := se_channels r; se_wait := se_wait r; se_revoked := se_revoked r;
     se_canceled := se_canceled r; se_listening := se_listening r; se_audit := se_audit r;
     se_configuration := se_configuration r; se_partialStart := se_partialStart r;
     se_rawLog := se_rawLog r; se_removed := se_removed r |}.
Definition set_se_channels (x : gset nat) (r : bridgeSession) : bridgeSession :=
  {| se_serving := se_serving r; se_connections := se_connections r;
     se_handlers := se_handlers r; se_channels := x; se_wait := se_wait r;
     se_revoked := se_revoked r; se_canceled := se_canceled r; se_listening := se_listening r;
     se_audit := se_audit r; se_configuration := se_configuration r;
     se_partialStart := se_partialStart r; se_rawLog := se_rawLog r;
     se_removed := se_removed r |}.
Definition set_se_wait (x : Z) (r : bridgeSession) : bridgeSession :=
  {| se_serving := se_serving r; se_connections := se_connections r;
     se_handlers := se_handlers r; se_channels := se_channels r; se_wait := x;
     se_revoked := se_revoked r; se_canceled := se_canceled r; se_listening := se_listening r;
     se_audit := se_audit r; se_configuration := se_configuration r;
     se_partialStart := se_partialStart r; se_rawLog := se_rawLog r;
     se_removed := se_removed r |}.
Definition set_se_revoked (x : bool) (r : bridgeSession) : bridgeSession :=
  {| se_serving := se_serving r; se_connections := se_connections r;
     se_handlers := se_handlers r; se_channels := se_channels r; se_wait := se_wait r;
     se_revoked := x; se_canceled := se_canceled r; se_listening := se_listening r;
     se_audit := se_audit r; se_configuration := se_configuration r;
     se_partialStart := se_partialStart r; se_rawLog := se_rawLog r;
     se_removed := se_removed r |}.
Definition set_se_canceled (x : bool) (r : bridgeSession) : bridgeSession :=
  {| se_serving := se_serving r; se_connections := se_connections r;
     se_handlers := se_handlers r; se_channels := se_channels r; se_wait := se_wait r;
     se_revoked := se_revoked r; se_canceled := x; se_listening := se_listening r;
     se_audit := se_audit r; se_configuration := se_configuration r;
     se_partialStart := se_partialStart r; se_rawLog := se_rawLog r;
     se_removed := se_removed r |}.
Definition set_se_listening (x : bool) (r : bridgeSession) : bridgeSession :=
  {| se_serving := se_serving r; se_connections := se_connections r;
     se_handlers := se_handlers r; se_channels := se_channels r; se_wait := se_wait r;
     se_revoked := se_revoked r; se_canceled := se_canceled r; se_listening := x;
     se_audit := se_audit r; se_configuration := se_configuration r;
     se_partialStart := se_partialStart r; se_rawLog := se_rawLog r;
     se_removed := se_removed r |}.
Definition set_se_audit (x : option AuditWriter) (r : bridgeSession) : bridgeSession :=
  {| se_serving := se_serving r; se_connections := se_connections r;
     se_handlers := se_handlers r; se_channels := se_channels r; se_wait := se_wait r;
     se_revoked := se_revoked r; se_canceled := se_canceled r; se_listening := se_listening r;
     se_audit := x; se_configuration := se_configuration r; se_partialStart := se_partialStart r;
     se_rawLog := se_rawLog r; se_removed := se_removed r |}.
Definition set_se_configuration (x : bool) (r : bridgeSession) : bridgeSession :=
  {| se_serving := se_serving r; se_connections := se_connections r;
     se_handlers := se_handlers r; se_channels := se_channels r; se_wait := se_wait r;
     se_revoked := se_revoked r; se_canceled := se_canceled r; se_listening := se_listening r;
     se_audit := se_audit r; se_configuration := x; se_partialStart := se_partialStart r;
     se_rawLog := se_rawLog r; se_removed := se_removed r |}.
Definition set_se_partialStart (x : bool) (r : bridgeSession) : bridgeSession :=
  {| se_serving := se_serving r; se_connections := se_connections r;
     se_handlers := se_handlers r; se_channels := se_channels r; se_wait := se_wait r;
     se_revoked := se_revoked r; se_canceled := se_canceled r; se_listening := se_listening r;
     se_audit := se_audit r; se_configuration := se_configuration r; se_partialStart := x;
     se_rawLog := se_rawLog r; se_removed := se_removed r |}.
Definition set_se_removed (x : bool) (r : bridgeSession) : bridgeSession :=
  {| se_serving := se_serving r; se_connections := se_connections r;
     se_handlers := se_handlers r; se_channels := se_channels r; se_wait := se_wait r;
     se_revoked := se_revoked r; se_canceled := se_canceled r; se_listening := se_listening r;
     se_audit := se_audit r; se_configuration := se_configuration r;
     se_partialStart := se_partialStart r; se_rawLog := se_rawLog r; se_removed := x |}.
Definition set_mg_used (x : bool) (r : Manager) : Manager :=
  {| mg_used := x; mg_hostSigner := mg_hostSigner r; mg_active := mg_active r;
     mg_stopErr := mg_stopErr r; mg_phase := mg_phase r; mg_session := mg_session r |}.
Definition set_mg_hostSigner (x : bool) (r : Manager) : Manager :=
  {| mg_used := mg_used r; mg_hostSigner := x; mg_active := mg_active r;
     mg_stopErr := mg_stopErr r; mg_phase := mg_phase r; mg_session := mg_session r |}.
Definition set_mg_active (x : bool) (r : Manager) : Manager :=
  {| mg_used := mg_used r; mg_hostSigner := mg_hostSigner r; mg_active := x;
     mg_stopErr := mg_stopErr r; mg_phase := mg_phase r; mg_session := mg_session r |}.
Definition set_mg_stopErr (x : error) (r : Manager) : Manager :=
  {| mg_used := mg_used r; mg_hostSigner := mg_hostSigner r; mg_active := mg_active r;
     mg_stopErr := x; mg_phase := mg_phase r; mg_session := mg_session r |}.
Definition set_mg_phase (x : phase) (r : Manager) : Manager :=
  {| mg_used := mg_used r; mg_hostSigner := mg_hostSigner r; mg_active := mg_active r;
     mg_stopErr := mg_stopErr r; mg_phase := x; mg_session := mg_session r |}.
Definition set_mg_session (x : option bridgeSession) (r : Manager) : Manager :=
  {| mg_used := mg_used r; mg_hostSigner := mg_hostSigner r; mg_active := mg_active r;
     mg_stopErr := mg_stopErr r; mg_phase := mg_phase r; mg_session := x |}.

(** [Options] and what the manager asks of its target and the library. *)
Record Options := {
  op_OutputDir : string;
  op_OmitRawLog : bool;
  op_ParseIP : string -> bool;      (* net.ParseIP gives an address *)
  op_Workdir : string               (* of the target *)
}.

(** What a step returns to its caller. *)
Inductive output :=
  | Quiet
  | Started (endpoint : ToolEndpoint)
  | StartFailed (e : error)
  | Stopped (e : error).

Section Manager.
Variable o : Options.

(** * The session *)

Definition new_session : bridgeSession :=
  {| se_serving := false; se_connections := ∅; se_handlers := ∅; se_channels := ∅; se_wait := 0;
     se_revoked := false; se_canceled := false; se_listening := false; se_audit := None;
     se_configuration := false; se_partialStart := false; se_rawLog := negb (op_OmitRawLog o);
     se_removed := false |}.

(** [revoke], once: the session's context has a cancel function as soon as it has an
    audit writer.  Closing the connections makes their handlers end, later. *)
Definition revoke (s : bridgeSession) : bridgeSession :=
  if se_revoked s then s
  else set_se_revoked true
         (set_se_canceled (bool_decide (is_Some (se_audit s))) (set_se_listening false s)).

(** [logPaths]. *)
Definition toolLogPath : string := Join [op_OutputDir o; "tool-calls.jsonl"%string].
Definition rawLogPath : string := Join [op_OutputDir o; "ssh_raw.log"%string].
Definition logPaths (s : bridgeSession) : list string :=
  if se_rawLog s then [toolLogPath; rawLogPath] else [toolLogPath].

(** * Starting *)

(** What the calls of [StartTarget] answer. *)
Record start_answers := {
  sa_resolve : BridgeListen + err;
  sa_directory : error;
  sa_listen : string + err;
  sa_structured : error;
  sa_raw : error;
  sa_structured_close : error
}.

(** [fail] up to its wait, and [StartTarget] up to the hook. *)
Definition fail (primary : err) (s : bridgeSession) (m : Manager) : output * Manager :=
  (Quiet, set_mg_phase (Failing primary) (set_mg_session (Some (revoke (set_se_partialStart true s))) m)).
Definition StartTarget (hasTarget : bool) (a : start_answers) (m : Manager) : output * Manager :=
  if mg_used m || mg_active m || stopping (mg_phase m)
  then (StartFailed (Some (ENew "SSH bridge is already active")), m)
  else if negb hasTarget then (StartFailed (Some (ENew "SSH target is required")), m)
  else match sa_resolve a with
  | inr e => (StartFailed (Some (EWrap "resolve bridge listener" e)), m)
  | inl listen =>
      if negb (op_ParseIP o (bl_BindHost listen)) || (bl_BindPort listen <? 0) || (65535 <? bl_BindPort listen)
      then (StartFailed (Some (ENew "SSH bridge requires a bind IP and valid port")), m)
      else
        let m := set_mg_used true m in
        let s := new_session in
        match sa_directory a with
        | Some e => fail (EWrap "create private SSH artifact directory" e) s m
        | None =>
            match sa_listen a with
            | inr e => fail (EWrap "listen on configured bridge host" e) s m
            | inl address =>
                let s := set_se_listening true s in
                match sa_structured a, if se_rawLog s then sa_raw a else None with
                | Some e, _ => fail (EWrap "create SSH tool log" e) s m
                | None, Some e =>
                    fail (EJoin (omap id [Some (EWrap "create SSH raw log" e); sa_structured_close a])) s m
                | None, None =>
                    let s := set_se_audit (Some (NewAuditWriter (se_rawLog s))) s in
                    let s := set_se_serving true (set_se_wait 1 (set_se_configuration true s)) in
                    (Quiet, set_mg_phase (Hooking address) (set_mg_session (Some s) m))
                end
            end
        end
  end.

(** The hook [afterStart], and what follows it. *)
Definition after_start (address : string) (e : error) (s : bridgeSession) (m : Manager) : output * Manager :=
  match e with
  | Some e => fail e s m
  | None =>
      (Started {| te_Protocol := "ssh"; te_Address := address; te_Username := lockedUsername;
                  te_ClientCommand := ""; te_ClientSourceFile := ""; te_LogPaths := logPaths s;
                  te_Workdir := op_Workdir o |},
       set_mg_phase Free (set_mg_active true (set_mg_stopErr None m)))
  end.

(** * Waiting and finalizing *)

(** [waitFor] returns nil once the wait group is down, and the error of its context
    otherwise. *)
Definition waitFor (e : option sentinel) (s : bridgeSession) : option error :=
  match e with
  | None => if se_wait s =? 0 then Some None else None
  | Some e => Some (Some (ESentinel e))
  end.

(** [finalize]: [SealAndWait] is called first, and gives the writer's error once its
    goroutine is done, or the error of the context. *)
Definition seal (s : bridgeSession) : bridgeSession := set_se_audit (Seal <$> se_audit s) s.
Definition closeAudit (e : option sentinel) (s : bridgeSession) : option error :=
  match se_audit s, e with
  | None, _ => Some None
  | Some w, None => seal_result w
  | Some _, Some e => Some (Some (EWrap "drain audit" (ESentinel e)))
  end.
Definition finalize (auditErr removeErr : error) (s : bridgeSession) : error * bridgeSession :=
  if negb (match se_audit s with Some w => Finished w | None => true end) then (auditErr, s)
  else
    let s := set_se_configuration false s in
    if se_partialStart s && is_nil auditErr then (removeErr, set_se_removed true s) else (auditErr, s).

(** * Stopping *)

Definition stop_begin (m : Manager) : output * Manager :=
  if stopping (mg_phase m) then (Quiet, m)
  else match mg_session m with
  | Some s =>
      if mg_active m then (Quiet, set_mg_phase StopWaiting (set_mg_session (Some (revoke s)) m))
      else (Stopped (mg_stopErr m), set_mg_used true (set_mg_hostSigner false m))
  | None => (Stopped (mg_stopErr m), set_mg_used true (set_mg_hostSigner false m))
  end.
Definition stop_end (e : error) (m : Manager) : output * Manager :=
  let m := set_mg_phase Free (set_mg_stopErr e m) in
  (Stopped e, match e with None => set_mg_active false (set_mg_hostSigner false m) | Some _ => m end).

(** The owner's wait is over, and the owner's call of [finalize] is. *)
Definition waited (e : option sentinel) (s : bridgeSession) (m : Manager) : option (output * Manager) :=
  result ← waitFor e s;
  match mg_phase m with
  | Failing primary =>
      Some match result with
           | Some e => (StartFailed (errors_Join [Some primary; Some e]), set_mg_phase Free (set_mg_active true m))
           | None => (Quiet, set_mg_phase (FailingFinal primary) (set_mg_session (Some (seal s)) m))
           end
  | StopWaiting =>
      Some match result with
           | Some e => stop_end (Some e) m
           | None => (Quiet, set_mg_phase StopFinal (set_mg_session (Some (seal s)) m))
           end
  | _ => None
  end.
Definition finalized (e : option sentinel) (removeErr : error) (s : bridgeSession) (m : Manager) :
    option (output * Manager) :=
  auditErr ← closeAudit e s;
  let (result, s) := finalize auditErr removeErr s in
  let m := set_mg_session (Some s) m in
  match mg_phase m with
  | FailingFinal primary =>
      Some (StartFailed (errors_Join [Some primary; result]),
            set_mg_phase Free (set_mg_active (mg_active m || negb (is_nil result)) m))
  | StopFinal => Some (stop_end result m)
  | _ => None
  end.

(** * The workers *)

(** [serve]: an accepted connection, under the lock; and the end of the loop. *)
Definition serve (connection : nat) (s : bridgeSession) : option bridgeSession :=
  if negb (se_serving s) || bool_decide (connection ∈ se_connections s ∪ se_handlers s) then None
  else if se_revoked s || se_canceled s
  then Some (set_se_serving false (set_se_wait (se_wait s - 1) s))
  else Some (set_se_connections ({[connection]} ∪ se_connections s)
        (set_se_handlers ({[connection]} ∪ se_handlers s) (set_se_wait (se_wait s + 1) s))).
Definition serve_fails (s : bridgeSession) : option bridgeSession :=
  if se_serving s then Some (set_se_serving false (set_se_wait (se_wait s - 1) s)) else None.

(** [handleConnection]: its end, and a channel it accepted; [gone] says that the
    context of the connection is over. *)
Definition connection_ends (connection : nat) (s : bridgeSession) : option bridgeSession :=
  if bool_decide (connection ∈ se_handlers s)
  then Some (set_se_connections (se_connections s ∖ {[connection]})
        (set_se_handlers (se_handlers s ∖ {[connection]}) (set_se_wait (se_wait s - 1) s)))
  else None.
Definition handleConnection (connection channel : nat) (gone : bool) (s : bridgeSession) :
    option bridgeSession :=
  if negb (bool_decide (connection ∈ se_handlers s)) || bool_decide (channel ∈ se_channels s) then None
  else if se_revoked s || se_canceled s || gone then Some s
  else Some (set_se_channels ({[channel]} ∪ se_channels s) (set_se_wait (se_wait s + 1) s)).
Definition channel_ends (channel : nat) (s : bridgeSession) : option bridgeSession :=
  if bool_decide (channel ∈ se_channels s)
  then Some (set_se_channels (se_channels s ∖ {[channel]}) (set_se_wait (se_wait s - 1) s))
  else None.

(** A running channel uses the target, records a call or fails the audit. *)
Definition channel_uses (channel : nat) (s : bridgeSession) : option bridgeSession :=
  if bool_decide (channel ∈ se_channels s) then Some s else None.
Definition channel_records (channel : nat) (r : record) (timestamp : string) (s : bridgeSession) :
    option bridgeSession :=
  s ← channel_uses channel s; Some (set_se_audit (Enqueue r timestamp <$> se_audit s) s).
Definition channel_latches (channel : nat) (e : err) (s : bridgeSession) : option bridgeSession :=
  s ← channel_uses channel s; Some (set_se_audit (latch e <$> se_audit s) s).

(** The audit writer's own goroutine. *)
Definition audit_runs (oc : outcome) (s : bridgeSession) : option bridgeSession :=
  w ← se_audit s; w' ← run_step oc w; Some (set_se_audit (Some w') s).

(** * Interleavings *)

Inductive worker :=
  | Accepts (connection : nat)
  | AcceptFails
  | ConnectionEnds (connection : nat)
  | OpensChannel (connection channel : nat) (gone : bool)
  | ChannelEnds (channel : nat)
  | Uses (channel : nat)
  | Records (channel : nat) (r : record) (timestamp : string)
  | Latches (channel : nat) (e : err)
  | AuditRuns (oc : outcome).
Definition worker_step (w : worker) : bridgeSession -> option bridgeSession :=
  match w with
  | Accepts c => serve c
  | AcceptFails => serve_fails
  | ConnectionEnds c => connection_ends c
  | OpensChannel c ch gone => handleConnection c ch gone
  | ChannelEnds ch => channel_ends ch
  | Uses ch => channel_uses ch
  | Records ch r timestamp => channel_records ch r timestamp
  | Latches ch e => channel_latches ch e
  | AuditRuns oc => audit_runs oc
  end.

(** A start or a stop is called, the owner of the session goes on, or a worker does.
    [StartTarget] holds the manager's lock to its end; a stop does not. *)
Inductive label :=
  | Starts (hasTarget : bool) (a : start_answers)
  | Hooked (e : error)
  | Stops
  | Waited (e : option sentinel)
  | Finalized (e : option sentinel) (removeErr : error)
  | Works (w : worker).
Definition locked (p : phase) : bool :=
  match p with Hooking _ | Failing _ | FailingFinal _ => true | _ => false end.
Definition step (l : label) (m : Manager) : option (output * Manager) :=
  match l with
  | Starts hasTarget a => if locked (mg_phase m) then None else Some (StartTarget hasTarget a m)
  | Hooked e =>
      match mg_phase m, mg_session m with
      | Hooking address, Some s => Some (after_start address e s m)
      | _, _ => None
      end
  | Stops => if locked (mg_phase m) then None else Some (stop_begin m)
  | Waited e => s ← mg_session m; waited e s m
  | Finalized e removeErr => s ← mg_session m; finalized e removeErr s m
  | Works w => s ← mg_session m; s' ← worker_step w s; Some (Quiet, set_mg_session (Some s') m)
  end.
Fixpoint runs (labels : list label) (m : Manager) : option (list output * Manager) :=
  match labels with
  | [] => Some ([], m)
  | l :: labels =>
      '(out, m) ← step l m;
      '(outs, m) ← runs labels m;
      Some (out :: outs, m)
  end.
End Manager.

(** * Invariants *)

Definition worker_offers (w : worker) : list (record * string) :=
  match w with Records _ r timestamp => [(r, timestamp)] | _ => [] end.
Definition offers (l : label) : list (record * string) :=
  match l with Works w => worker_offers w | _ => [] end.
Definition offered (labels : list label) : list (record * string) := flat_map offers labels.

Definition count (b : bool) : Z := if b then 1 else 0.

(** The counter of the wait group is the number of workers; without an audit writer
    there are none; the writer has been offered [calls]; and it is sealed only when the
    workers have ended for good. *)
Record session_ok (calls : list (record * string)) (s : bridgeSession) : Prop := {
  so_wait : se_wait s = count (se_serving s) + Z.of_nat (size (se_handlers s)) + Z.of_nat (size (se_channels s));
  so_audit : match se_audit s with
             | Some w => audit_run (se_rawLog s) calls w
             | None => calls = [] /\ se_wait s = 0
             end;
  so_sealed : forall w, se_audit s = Some w -> aw_sealed w = true -> se_revoked s = true /\ se_wait s = 0;
  so_connections : se_connections s = se_handlers s;
  so_listening : se_revoked s = true -> se_listening s = false
}.
Definition idle (s : bridgeSession) : Prop :=
  se_serving s = false /\ se_connections s = ∅ /\ se_handlers s = ∅ /\ se_channels s = ∅.

Lemma wait_idle calls s : session_ok calls s -> se_wait s = 0 -> idle s.
Proof.
  intros [Hw _ _ Hc _] H0. unfold idle. rewrite Hc. unfold count in Hw.
  split; [destruct (se_serving s); [lia|done]|].
  assert (se_handlers s = ∅) as -> by (apply leibniz_equiv, size_empty_inv; destruct (se_serving s); lia).
  assert (se_channels s = ∅) as -> by (apply leibniz_equiv, size_empty_inv; destruct (se_serving s); lia).
  done.
Qed.

Lemma wait_nonneg calls s : session_ok calls s -> 0 <= se_wait s.
Proof. intros [-> _ _ _ _]. unfold count. destruct (se_serving s); lia. Qed.

Lemma size_add (x : nat) (X : gset nat) : x ∉ X -> Z.of_nat (size ({[x]} ∪ X)) = Z.of_nat (size X) + 1.
Proof. intros Hx. rewrite size_union by set_solver. rewrite size_singleton. lia. Qed.
Lemma size_remove (x : nat) (X : gset nat) : x ∈ X -> Z.of_nat (size (X ∖ {[x]})) = Z.of_nat (size X) - 1.
Proof.
  intros Hx. assert (size X = size (X ∖ {[x]}) + 1)%nat as ->; [|lia].
  rewrite <- (size_singleton (C := gset nat) x), <- size_union by set_solver. f_equal.
  rewrite union_comm_L. by apply union_difference_singleton_L.
Qed.

(** What a worker leaves alone: it starts no other worker once the session is revoked. *)
Definition worker_frame (s s' : bridgeSession) : Prop :=
  se_revoked s' = se_revoked s /\ se_canceled s' = se_canceled s /\ se_rawLog s' = se_rawLog s /\
  se_partialStart s' = se_partialStart s /\ se_removed s' = se_removed s /\
  (is_Some (se_audit s') <-> is_Some (se_audit s)) /\
  (se_revoked s = true ->
     se_wait s' <= se_wait s /\ se_handlers s' ⊆ se_handlers s /\ se_channels s' ⊆ se_channels s).

Lemma audit_worker calls label s w w' :
  session_ok calls s -> se_audit s = Some w -> audit_step w label w' ->
  (aw_sealed w' = true -> aw_sealed w = true \/ se_revoked s = true /\ se_wait s = 0) ->
  session_ok (calls ++ label) (set_se_audit (Some w') s).
Proof.
  intros [Hw Ha Hs Hc Hl] Haudit Hstep Hsealed. rewrite Haudit in Ha.
  split; simpl; try done.
  - by eapply run_more.
  - intros w0 [= <-] H. destruct (Hsealed H) as [?|?]; [by apply (Hs w)|done].
Qed.

Lemma Enqueue_sealed r timestamp w : aw_sealed (Enqueue r timestamp w) = aw_sealed w.
Proof.
  unfold Enqueue. destruct (aw_err w); [done|]. destruct (aw_sealed w) eqn:Hs; [done|].
  destruct (marshal r _ _); [|done]. destruct (if RetainsRaw w then _ else _); [|done]. by destruct (_ <? _).
Qed.

Lemma run_step_sealed oc w w' : run_step oc w = Some w' -> aw_sealed w' = aw_sealed w.
Proof.
  unfold run_step. destruct (aw_pc w) as [| |[|op ops] last|]; [| | | |done].
  - by destruct (aw_wake w); intros [= <-].
  - by destruct (aw_pending w); intros [= <-].
  - by intros [= <-].
  - intros [= <-]. by destruct (perform_same op oc (set_aw_pc (Performing ops last) w)) as (_ & _ & _ & -> & _).
Qed.

Lemma worker_step_ok calls w s s' :
  session_ok calls s -> worker_step w s = Some s' ->
  session_ok (calls ++ worker_offers w) s' /\ worker_frame s s'.
Proof.
  intros Hok Hstep. pose proof Hok as [Hw Ha Hs Hc Hl]. pose proof (wait_nonneg calls s Hok) as Hpos.
  unfold worker_frame.
  assert (forall s', se_audit s' = se_audit s -> se_rawLog s' = se_rawLog s -> se_revoked s' = se_revoked s ->
    se_listening s' = se_listening s -> se_connections s' = se_handlers s' ->
    se_wait s' = count (se_serving s') + Z.of_nat (size (se_handlers s')) + Z.of_nat (size (se_channels s')) ->
    (se_wait s = 0 -> se_wait s' = 0) -> session_ok (calls ++ []) s') as Hsame.
  { intros x E1 E2 E3 E4 E5 E6 E7. rewrite app_nil_r. split; rewrite ?E1, ?E2, ?E3, ?E4; try done.
    - destruct (se_audit s); [done|]. destruct Ha as [-> H0]. by rewrite (E7 H0).
    - intros a Haudit Hseal. destruct (Hs a Haudit Hseal) as [-> H0]. by rewrite (E7 H0). }
  destruct w as [c| |c|c ch gone|ch|ch|ch r timestamp|ch e|oc]; simpl in Hstep |- *.
  - unfold serve in Hstep. destruct (se_serving s) eqn:Hserve; rewrite ?Hserve in *; simpl in Hstep; [|done].
    case_bool_decide as Hnew; [done|]. apply not_elem_of_union in Hnew as [Hnc Hnh].
    destruct (se_revoked s || se_canceled s) eqn:Hrev; injection Hstep as <-; simpl.
    + split; [|split_and!; try done; intros _; split_and!; [lia|done|done]]. apply Hsame; simpl; try done; unfold count in *; lia.
    + apply orb_false_iff in Hrev as [Hrev _]. split; [|by rewrite Hrev; split_and!].
      apply Hsame; simpl; try done; [by rewrite Hc| |unfold count in *; lia].
      rewrite size_add by done. rewrite Hserve. lia.
  - unfold serve_fails in Hstep. destruct (se_serving s) eqn:Hserve; rewrite ?Hserve in *; [|done]. injection Hstep as <-. simpl.
    split; [|split_and!; try done; intros _; split_and!; [lia|done|done]]. apply Hsame; simpl; try done; unfold count in *; lia.
  - unfold connection_ends in Hstep. case_bool_decide as Hin; [|done]. injection Hstep as <-. simpl.
    pose proof (size_remove c _ Hin) as Hsize.
    split; [|split_and!; try done; intros _; split_and!; [lia|set_solver|done]].
    apply Hsame; simpl; try done; [by rewrite Hc|lia|unfold count in *; destruct (se_serving s); lia].
  - unfold handleConnection in Hstep. case_bool_decide as Hin; simpl in Hstep; [|done].
    case_bool_decide as Hnew; [done|].
    destruct (se_revoked s || se_canceled s || gone) eqn:Hrev; injection Hstep as <-.
    { split; [by rewrite app_nil_r|]. split_and!; try done. }
    apply orb_false_iff in Hrev as [Hrev _]. apply orb_false_iff in Hrev as [Hrev _]. simpl.
    split; [|by rewrite Hrev; split_and!].
    apply Hsame; simpl; try done; [rewrite size_add by done; lia|].
    assert (size (se_handlers s) <> 0%nat); [|unfold count in *; destruct (se_serving s); lia].
    intros H0%size_empty_inv. set_solver.
  - unfold channel_ends in Hstep. case_bool_decide as Hin; [|done]. injection Hstep as <-. simpl.
    pose proof (size_remove ch _ Hin) as Hsize.
    split; [|split_and!; try done; intros _; split_and!; [lia|done|set_solver]].
    apply Hsame; simpl; try done; unfold count in *; destruct (se_serving s); lia.
  - unfold channel_uses in Hstep. case_bool_decide; [|done]. injection Hstep as <-.
    split; [by rewrite app_nil_r|]. by split_and!.
  - unfold channel_records, channel_uses in Hstep. case_bool_decide; [|done]. simpl in Hstep.
    injection Hstep as <-. destruct (se_audit s) as [a|] eqn:Haudit.
    + split; [|by rewrite ?Haudit; split_and!]. rewrite <- Haudit.
      rewrite Haudit. apply (audit_worker calls _ s a); [done|done|constructor|].
      rewrite Enqueue_sealed. by left.
    + exfalso. destruct Ha as [_ H0]. pose proof (wait_idle calls s Hok H0) as (_ & _ & _ & He). set_solver.
  - unfold channel_latches, channel_uses in Hstep. case_bool_decide; [|done]. simpl in Hstep.
    injection Hstep as <-. destruct (se_audit s) as [a|] eqn:Haudit.
    + split; [|by rewrite ?Haudit; split_and!].
      apply (audit_worker calls _ s a); [done|done|constructor|]. by left.
    + exfalso. destruct Ha as [_ H0]. pose proof (wait_idle calls s Hok H0) as (_ & _ & _ & He). set_solver.
  - unfold audit_runs in Hstep. destruct (se_audit s) as [a|] eqn:Haudit; [|done]. simpl in Hstep.
    destruct (run_step oc a) as [a'|] eqn:Hrun; [|done]. injection Hstep as <-.
    split; [|by rewrite ?Haudit; split_and!].
    apply (audit_worker calls _ s a); [done|done|by econstructor|].
    rewrite (run_step_sealed oc a a') by done. by left.
Qed.

(** Once the workers have ended, only the audit writer still runs, until it has
    finished. *)
Lemma idle_worker calls w s s' :
  session_ok calls s -> se_wait s = 0 -> worker_step w s = Some s' ->
  worker_offers w = [] /\ exists oc a a', se_audit s = Some a /\ run_step oc a = Some a' /\
    s' = set_se_audit (Some a') s.
Proof.
  intros Hok H0 Hstep. destruct (wait_idle calls s Hok H0) as (Hserve & Hconn & Hhand & Hchan).
  destruct w as [c| |c|c ch gone|ch|ch|ch r timestamp|ch e|oc]; simpl in Hstep;
    unfold serve, serve_fails, connection_ends, handleConnection, channel_ends, channel_records,
      channel_latches, channel_uses, audit_runs in Hstep;
    rewrite ?Hserve, ?Hconn, ?Hhand, ?Hchan in Hstep; try done.
  split; [done|]. destruct (se_audit s) as [a|]; [|done]. simpl in Hstep.
  destruct (run_step oc a) as [a'|] eqn:Hrun; [|done]. injection Hstep as <-. by exists oc, a, a'.
Qed.

(** A session that is over: revoked, without workers, its audit complete; and one whose
    audit is being sealed. *)
Definition over (s : bridgeSession) : Prop :=
  se_revoked s = true /\ se_wait s = 0 /\
  match se_audit s with Some w => seal_result w = Some None | None => True end.
Definition sealing (s : bridgeSession) : Prop :=
  se_revoked s = true /\ se_wait s = 0 /\
  match se_audit s with Some w => aw_sealed w = true | None => True end.

Lemma over_worker calls w s s' :
  session_ok calls s -> over s -> worker_step w s = Some s' -> False.
Proof.
  intros Hok (_ & H0 & Ha) Hstep. destruct (idle_worker calls w s s' Hok H0 Hstep) as (_ & oc & a & a' & E & Hr & _).
  rewrite E in Ha. unfold seal_result, Finished, run_step in *. by destruct (aw_pc a).
Qed.

Lemma sealing_worker calls w s s' :
  session_ok calls s -> sealing s -> worker_step w s = Some s' -> worker_offers w = [] /\ sealing s'.
Proof.
  intros Hok (Hr & H0 & Ha) Hstep.
  destruct (idle_worker calls w s s' Hok H0 Hstep) as (Hoff & oc & a & a' & E & Hrun & ->).
  split; [done|]. split; [done|]. split; [done|]. simpl. rewrite E in Ha.
  by rewrite (run_step_sealed oc a a').
Qed.

Definition phase_ok (m : Manager) (s : bridgeSession) : Prop :=
  match mg_phase m with
  | Free => mg_active m = true \/ over s
  | Hooking _ => mg_active m = false /\ se_revoked s = false
  | Failing _ => mg_active m = false /\ se_revoked s = true /\ se_partialStart s = true
  | FailingFinal _ => mg_active m = false /\ se_partialStart s = true /\ sealing s
  | StopWaiting => mg_active m = true /\ se_revoked s = true
  | StopFinal => mg_active m = true /\ sealing s
  end.
Record manager_ok (calls : list (record * string)) (m : Manager) : Prop := {
  mo_session : match mg_session m with
               | None => mg_phase m = Free /\ mg_active m = false /\ calls = []
               | Some s => mg_used m = true /\ session_ok calls s /\ phase_ok m s
               end;
  mo_stopErr : mg_active m = false -> mg_stopErr m = None
}.

Lemma new_session_ok o : session_ok [] (new_session o).
Proof. by split. Qed.

Lemma revoke_ok calls s : session_ok calls s -> session_ok calls (revoke s).
Proof.
  intros Hok. unfold revoke. destruct (se_revoked s) eqn:Hr; [done|].
  destruct Hok as [Hw Ha Hs Hc Hl]. split; simpl; try done.
  intros w Haudit Hseal. destruct (Hs w Haudit Hseal). congruence.
Qed.
Lemma revoke_revoked s : se_revoked (revoke s) = true.
Proof. unfold revoke. by destruct (se_revoked s) eqn:Hr. Qed.
Lemma revoke_frame s :
  se_partialStart (revoke s) = se_partialStart s /\ se_audit (revoke s) = se_audit s /\
  se_wait (revoke s) = se_wait s.
Proof. unfold revoke. by destruct (se_revoked s). Qed.

Lemma fail_ok calls primary s m :
  session_ok calls s -> mg_used m = true -> mg_active m = false -> mg_stopErr m = None ->
  manager_ok calls (fail primary s m).2.
Proof.
  intros Hok Hu Ha He. split; simpl; [|done]. split; [done|]. split.
  - apply revoke_ok. destruct Hok. by split.
  - unfold phase_ok. simpl. split; [done|]. split; [apply revoke_revoked|]. by rewrite (proj1 (revoke_frame _)).
Qed.

Lemma StartTarget_ok o hasTarget a m calls :
  manager_ok calls m -> manager_ok calls (StartTarget o hasTarget a m).2.
Proof.
  intros Hm. pose proof Hm as [Hs He]. unfold StartTarget.
  destruct (mg_used m || mg_active m || stopping (mg_phase m)) eqn:Hfresh; [done|].
  apply orb_false_iff in Hfresh as [Hfresh _]. apply orb_false_iff in Hfresh as [Hused Hactive].
  destruct (mg_session m) as [s|]; [destruct Hs; congruence|]. destruct Hs as (_ & _ & ->).
  specialize (He Hactive). destruct hasTarget; [|done]. simpl. destruct (sa_resolve a) as [listen|]; [|done].
  destruct (_ || _); [done|]. pose proof (new_session_ok o) as Hnew.
  destruct (sa_directory a); [by apply fail_ok|]. destruct (sa_listen a) as [address|]; [|by apply fail_ok].
  assert (session_ok [] (set_se_listening true (new_session o))) as Hlisten by by split.
  destruct (sa_structured a); [by apply fail_ok|].
  cbn [se_rawLog set_se_listening new_session]. destruct (if negb _ then sa_raw a else _); [by apply fail_ok|].
  split; [|done]. simpl. split; [done|]. split; [|done]. split; simpl; try done; [constructor|].
  intros w [= <-]. done.
Qed.

Lemma stop_end_ok calls e m s :
  mg_session m = Some s -> mg_used m = true -> session_ok calls s ->
  (e = None -> over s) -> manager_ok calls (stop_end e (set_mg_active true m)).2.
Proof.
  intros Hses Hu Hok He. unfold stop_end. destruct e as [e|]; simpl.
  - split; simpl; [|done]. rewrite Hses. split; [done|]. split; [done|]. by left.
  - split; simpl; [|done]. rewrite Hses. split; [done|]. split; [done|]. right. by apply He.
Qed.

Lemma seal_ok calls s :
  session_ok calls s -> se_revoked s = true -> se_wait s = 0 -> session_ok calls (seal s) /\ sealing (seal s).
Proof.
  intros [Hw Ha Hs Hc Hl] Hr H0. unfold seal, sealing. simpl. destruct (se_audit s) as [w|] eqn:E; simpl.
  - split; [|by split_and!]. split; simpl; try done.
    rewrite <- (app_nil_r calls). eapply run_more; [done|constructor].
  - split; [|by split_and!]. split; simpl; try done.
Qed.

Lemma closeAudit_over e s : sealing s -> closeAudit e s = Some None -> over s.
Proof.
  intros (Hr & H0 & Ha) Hclose. unfold over, closeAudit in *.
  destruct (se_audit s) as [w|]; [|done]. split; [done|]. split; [done|]. by destruct e.
Qed.

(** [finalize] never turns a failed audit into a success. *)
Lemma finalize_ok e removeErr auditErr s :
  closeAudit e s = Some auditErr -> sealing s ->
  let (result, s') := finalize auditErr removeErr s in
  sealing s' /\ se_audit s' = se_audit s /\ se_partialStart s' = se_partialStart s /\
  (forall calls, session_ok calls s -> session_ok calls s') /\
  (result = None -> over s' /\ (se_partialStart s = true -> se_removed s' = true)).
Proof.
  intros Hclose Hseal. pose proof (closeAudit_over e s Hseal) as Hover. unfold finalize.
  assert (auditErr = None -> match se_audit s with Some w => Finished w = true | None => True end) as Hfin.
  { intros ->. destruct (Hover Hclose) as (_ & _ & Ha). destruct (se_audit s) as [w|]; [|done].
    unfold seal_result in Ha. by destruct (Finished w). }
  destruct (negb _) eqn:Hf.
  { split; [done|]. split; [done|]. split; [done|]. split; [done|]. intros ->. specialize (Hfin eq_refl).
    destruct (se_audit s); [by rewrite Hfin in Hf|done]. }
  simpl. destruct (se_partialStart s) eqn:Hp, auditErr as [e'|]; simpl;
    (split; [done|]; split; [done|]; split; [done|]; split; [by intros calls []|]); try done;
    intros _; (split; [|done]); by destruct (Hover Hclose) as (? & ? & ?).
Qed.

Lemma waited_ok calls e s m out m' :
  manager_ok calls m -> mg_session m = Some s -> waited e s m = Some (out, m') -> manager_ok calls m'.
Proof.
  intros [Hs He] Hses Hw. rewrite Hses in Hs. destruct Hs as (Hu & Hok & Hp). unfold waited in Hw.
  destruct (waitFor e s) as [result|] eqn:Hwait; [|done]. simpl in Hw. unfold phase_ok in Hp.
  assert (result = None -> se_wait s = 0) as H0.
  { intros ->. unfold waitFor in Hwait. destruct e; [done|]. by destruct (Z.eqb_spec (se_wait s) 0). }
  destruct (mg_phase m) eqn:Hphase; try done.
  - destruct Hp as (Ha & Hr & Hpart). destruct result as [e'|]; injection Hw as <- <-.
    + split; simpl; [|done]. rewrite Hses. split; [done|]. split; [done|]. by left.
    + destruct (seal_ok calls s Hok Hr (H0 eq_refl)) as [Hok' Hseal]. split; simpl; [|done].
      split; [done|]. split; [done|]. split; [done|]. by split.
  - destruct Hp as (Ha & Hr). destruct result as [e'|]; injection Hw as <- <-.
    + unfold stop_end. split; simpl; [|congruence]. rewrite Hses. split; [done|]. split; [done|]. by left.
    + destruct (seal_ok calls s Hok Hr (H0 eq_refl)) as [Hok' Hseal]. split; simpl; [|done].
      split; [done|]. split; [done|]. by split.
Qed.

Lemma finalized_ok calls e removeErr s m out m' :
  manager_ok calls m -> mg_session m = Some s -> finalized e removeErr s m = Some (out, m') -> manager_ok calls m'.
Proof.
  intros [Hs He] Hses Hf. rewrite Hses in Hs. destruct Hs as (Hu & Hok & Hp). unfold finalized in Hf.
  destruct (closeAudit e s) as [auditErr|] eqn:Hclose; [|done]. simpl in Hf. unfold phase_ok in Hp.
  destruct (mg_phase m) eqn:Hphase; try (by destruct (finalize _ _ _)).
  - destruct Hp as (Ha & Hpart & Hseal). pose proof (finalize_ok e removeErr auditErr s Hclose Hseal) as Hfin.
    destruct (finalize auditErr removeErr s) as [result s']. simpl in Hf.
    destruct Hfin as (Hseal' & _ & _ & Hok' & Hover). injection Hf as <- <-. split; simpl; rewrite ?Ha; simpl.
    + split; [done|]. split; [by apply Hok'|]. unfold phase_ok. simpl.
      destruct result; [by left|right; by apply Hover].
    + intros _. by apply He.
  - destruct Hp as (Ha & Hseal). pose proof (finalize_ok e removeErr auditErr s Hclose Hseal) as Hfin.
    destruct (finalize auditErr removeErr s) as [result s']. simpl in Hf.
    destruct Hfin as (Hseal' & _ & _ & Hok' & Hover). unfold stop_end in Hf. injection Hf as <- <-.
    destruct result as [e'|]; split; simpl; try done; try congruence;
      (split; [done|]; split; [by apply Hok'|]); unfold phase_ok; simpl; rewrite ?Ha; [by left|right; by apply Hover].
Qed.

Lemma step_ok o calls l m out m' :
  manager_ok calls m -> step o l m = Some (out, m') -> manager_ok (calls ++ offers l) m'.
Proof.
  intros Hm Hstep. pose proof Hm as [Hs He]. destruct l as [hasTarget a|e| |e|e removeErr|w]; simpl in *;
    rewrite ?app_nil_r.
  - destruct (locked (mg_phase m)); [done|]. injection Hstep as Hstep.
    pose proof (StartTarget_ok o hasTarget a m calls Hm) as H. by rewrite Hstep in H.
  - destruct (mg_phase m) as [|address| | | |] eqn:Hphase; try done. destruct (mg_session m) as [s|] eqn:Hses; [|done].
    destruct Hs as (Hu & Hok & Hp). unfold phase_ok in Hp. rewrite Hphase in Hp. destruct Hp as [Ha Hr].
    injection Hstep as Hstep. unfold after_start in Hstep. destruct e as [e|].
    + pose proof (fail_ok calls e s m Hok Hu Ha (He Ha)) as H. by rewrite Hstep in H.
    + injection Hstep as <- <-. split; simpl; [|done]. rewrite Hses. split; [done|]. split; [done|]. by left.
  - destruct (locked (mg_phase m)) eqn:Hl; [done|]. injection Hstep as Hstep. unfold stop_begin in Hstep.
    destruct (stopping (mg_phase m)) eqn:Hst; [by injection Hstep as <- <-|].
    assert (mg_phase m = Free) as Hfree by by destruct (mg_phase m).
    destruct (mg_session m) as [s|] eqn:Hses.
    2: { injection Hstep as <- <-. split; simpl; [|done]. by rewrite Hses. }
    destruct Hs as (Hu & Hok & Hp). destruct (mg_active m) eqn:Ha; injection Hstep as <- <-.
    + split; simpl; [|congruence]. split; [done|]. split; [by apply revoke_ok|]. split; [done|].
      apply revoke_revoked.
    + split; simpl; [|by intros _; apply He]. rewrite Hses. split; [done|]. by split.
  - destruct (mg_session m) as [s|] eqn:Hses; [|done]. simpl in Hstep. by eapply waited_ok.
  - destruct (mg_session m) as [s|] eqn:Hses; [|done]. simpl in Hstep. by eapply finalized_ok.
  - destruct (mg_session m) as [s|] eqn:Hses; [|done]. simpl in Hstep.
    destruct (worker_step w s) as [s'|] eqn:Hw; [|done]. injection Hstep as <- <-.
    destruct Hs as (Hu & Hok & Hp). destruct (worker_step_ok calls w s s' Hok Hw) as [Hok' Hframe].
    split; simpl; [|done]. split; [done|]. split; [done|].
    destruct Hframe as (Hr & _ & _ & Hpart & _). unfold phase_ok in *. simpl. rewrite Hr, Hpart.
    destruct (mg_phase m); try done.
    + destruct Hp as [?|Hover]; [by left|]. by destruct (over_worker calls w s s' Hok Hover Hw).
    + destruct Hp as (Ha & Hpa & Hseal). destruct (sealing_worker calls w s s' Hok Hseal Hw). done.
    + destruct Hp as (Ha & Hseal). destruct (sealing_worker calls w s s' Hok Hseal Hw). done.
Qed.

Lemma runs_snoc o labels l m :
  runs o (labels ++ [l]) m =
  ('(outs, m1) ← runs o labels m; '(out, m2) ← step o l m1; Some (outs ++ [out], m2)).
Proof.
  revert m. induction labels as [|l' labels IH]; intros m; simpl.
  - destruct (step o l m) as [[out m1]|]; done.
  - destruct (step o l' m) as [[out m1]|]; simpl; [|done]. rewrite IH.
    destruct (runs o labels m1) as [[outs m2]|]; simpl; [|done].
    by destruct (step o l m2) as [[out' m3]|].
Qed.

Lemma runs_ok o labels outs m :
  runs o labels new_Manager = Some (outs, m) -> manager_ok (offered labels) m.
Proof.
  revert outs m. induction labels as [|l labels IH] using rev_ind; intros outs m Hrun.
  - injection Hrun as <- <-. by split.
  - rewrite runs_snoc in Hrun. destruct (runs o labels new_Manager) as [[outs' m1]|]; [|done]. simpl in Hrun.
    destruct (step o l m1) as [[out m2]|] eqn:Hstep; [|done]. injection Hrun as <- <-.
    unfold offered. rewrite flat_map_app. simpl. rewrite app_nil_r. by eapply step_ok, Hstep; eapply IH.
Qed.

(** * Properties *)

(** A manager that has stopped for good. *)
Definition stopped (m : Manager) : Prop :=
  mg_phase m = Free /\ mg_active m = false /\ mg_hostSigner m = false /\ mg_used m = true.

Lemma stopped_none o calls l m m' :
  manager_ok calls m -> step o l m = Some (Stopped None, m') -> stopped m' /\ offers l = [].
Proof.
  intros Hm Hstep. pose proof Hm as [Hs He]. destruct l as [hasTarget a|e| |e|e removeErr|w]; simpl in *.
  - destruct (locked _); [done|]. unfold StartTarget in Hstep.
    repeat match goal with H : context [if ?b then _ else _] |- _ => destruct b | H : context [match ?x with _ => _ end] |- _ => destruct x end; done.
  - destruct (mg_phase m), (mg_session m); try done. unfold after_start, fail in Hstep. by destruct e.
  - destruct (locked (mg_phase m)) eqn:Hl; [done|]. unfold stop_begin in Hstep.
    destruct (stopping (mg_phase m)) eqn:Hst; [done|].
    assert (mg_phase m = Free) as Hfree by by destruct (mg_phase m).
    destruct (mg_session m) as [s|]; [destruct (mg_active m) eqn:Ha; [done|]|];
      injection Hstep as Herr <-; unfold stopped; simpl; rewrite ?Hfree; split_and!; try done.
    by destruct Hs as (_ & ? & _).
  - destruct (mg_session m) as [s|]; [|done]. simpl in Hstep. unfold waited in Hstep.
    destruct (waitFor e s) as [result|]; [|done]. simpl in Hstep.
    destruct (mg_phase m), result; try done.
  - destruct (mg_session m) as [s|]; [|done]. destruct Hs as (Hu & _). simpl in Hstep. unfold finalized in Hstep.
    destruct (closeAudit e s) as [auditErr|]; [|done]. simpl in Hstep.
    destruct (finalize _ _ _) as [result s'], (mg_phase m); try done. unfold stop_end in Hstep.
    injection Hstep as -> <-. by split_and!.
  - destruct (mg_session m); [|done]. simpl in Hstep. by destruct (worker_step _ _).
Qed.

(** Nothing happens to a stopped manager any more. *)
Lemma stopped_stable o calls l m out m' :
  manager_ok calls m -> stopped m -> step o l m = Some (out, m') ->
  m' = m /\ (out = Stopped None \/ exists e, out = StartFailed (Some e)).
Proof.
  intros [Hs He] (Hfree & Ha & Hsigner & Hu) Hstep.
  destruct l as [hasTarget a|e| |e|e removeErr|w]; simpl in Hstep; rewrite ?Hfree in Hstep; simpl in Hstep.
  - unfold StartTarget in Hstep. rewrite Hu in Hstep. injection Hstep as <- <-. split; [done|]. right. by eexists.
  - done.
  - unfold stop_begin in Hstep. rewrite Hfree, Ha, (He Ha) in Hstep. simpl in Hstep.
    assert (Some (Stopped None, set_mg_used true (set_mg_hostSigner false m)) = Some (out, m')) as [= <- <-].
    { by destruct (mg_session m). }
    split; [|by left]. destruct m; simpl in *. by subst.
  - destruct (mg_session m); [|done]. simpl in Hstep. unfold waited in Hstep.
    destruct (waitFor _ _); [|done]. simpl in Hstep. by rewrite Hfree in Hstep.
  - destruct (mg_session m); [|done]. simpl in Hstep. unfold finalized in Hstep.
    destruct (closeAudit _ _); [|done]. simpl in Hstep. destruct (finalize _ _ _). simpl in Hstep.
    by rewrite Hfree in Hstep.
  - destruct (mg_session m) as [s|]; [|done]. destruct Hs as (_ & Hok & Hp). unfold phase_ok in Hp.
    rewrite Hfree, Ha in Hp. destruct Hp as [?|Hover]; [done|]. simpl in Hstep.
    destruct (worker_step w s) as [s'|] eqn:Hw; [|done]. by destruct (over_worker calls w s s' Hok Hover Hw).
Qed.

(** C23. When a stop of the bridge reports success, after whatever starts, failures,
    connections, calls, timeouts and earlier stops: every accepting, connection and
    channel worker has ended, the listener is closed and the host key released; the
    audit was sealed after the last of them, and its files hold exactly the records
    that all channels offered, complete, in order and synced.  From then on nothing
    changes: a start is refused and a stop succeeds again. *)
Theorem ssh_stop_complete o labels outs m l m' :
  runs o labels new_Manager = Some (outs, m) -> step o l m = Some (Stopped None, m') ->
  stopped m' /\
  match mg_session m' with
  | None => offered labels = []
  | Some s => idle s /\ se_wait s = 0 /\ se_revoked s = true /\ se_listening s = false /\
      match se_audit s with
      | Some w => evidence_complete (se_rawLog s) (offered labels) w
      | None => offered labels = []
      end
  end /\
  (forall l' out m'', step o l' m' = Some (out, m'') ->
     m'' = m' /\ (out = Stopped None \/ exists e, out = StartFailed (Some e))).
Proof.
  intros Hrun Hstep. pose proof (runs_ok o labels outs m Hrun) as Hm.
  destruct (stopped_none o _ l m m' Hm Hstep) as [Hstopped Hoff].
  pose proof (step_ok o _ l m _ m' Hm Hstep) as Hm'. rewrite Hoff, app_nil_r in Hm'.
  split; [done|]. split; [|intros l' out m''; by apply (stopped_stable o (offered labels))].
  destruct Hm' as [Hs _], Hstopped as (Hfree & Ha & _ & _). destruct (mg_session m') as [s|].
  2: { by destruct Hs as (_ & _ & ->). }
  destruct Hs as (_ & Hok & Hp). unfold phase_ok in Hp. rewrite Hfree, Ha in Hp. destruct Hp as [?|(Hr & H0 & Hseal)]; [done|].
  split; [by apply (wait_idle (offered labels))|]. split; [done|]. split; [done|]. split; [by apply Hok|].
  destruct Hok as [_ Haudit _ _ _]. destruct (se_audit s) as [w|]; [|by destruct Haudit].
  by apply sealed_evidence.
Qed.

(** The admission of the bridge closes for good when its session is revoked, by a stop
    or by a failed start: no step of any caller or worker accepts a connection or opens
    a channel any more, so the wait group only counts down and what is running is all
    that is left to join. *)
Theorem ssh_admission_closed o labels outs m s l out m' :
  runs o labels new_Manager = Some (outs, m) -> mg_session m = Some s -> se_revoked s = true ->
  step o l m = Some (out, m') ->
  exists s', mg_session m' = Some s' /\ se_revoked s' = true /\ 0 <= se_wait s' <= se_wait s /\
    se_handlers s' ⊆ se_handlers s /\ se_channels s' ⊆ se_channels s /\
    se_wait s' = count (se_serving s') + Z.of_nat (size (se_handlers s')) + Z.of_nat (size (se_channels s')).
Proof.
  intros Hrun Hses Hrev Hstep. pose proof (runs_ok o labels outs m Hrun) as Hm.
  pose proof (step_ok o _ l m _ m' Hm Hstep) as Hm'.
  assert (exists s', mg_session m' = Some s' /\ se_revoked s' = true /\ se_wait s' <= se_wait s /\
    se_handlers s' ⊆ se_handlers s /\ se_channels s' ⊆ se_channels s) as (s' & Hses' & Hr & Hw & Hh & Hc).
  2: { exists s'. destruct Hm' as [Hs' _]. rewrite Hses' in Hs'. destruct Hs' as (_ & Hok' & _).
       pose proof (wait_nonneg _ s' Hok'). split_and!; try done. apply Hok'. }
  destruct Hm as [Hs _]. rewrite Hses in Hs. destruct Hs as (Hu & Hok & Hp).
  destruct l as [hasTarget a|e| |e|e removeErr|w]; simpl in Hstep; rewrite ?Hses in Hstep; simpl in Hstep.
  - destruct (locked _); [done|]. unfold StartTarget in Hstep. rewrite Hu in Hstep. injection Hstep as <- <-. by exists s.
  - unfold phase_ok in Hp. destruct (mg_phase m); try done. by destruct Hp as [_ ?]; congruence.
  - destruct (locked _); [done|]. unfold stop_begin in Hstep. rewrite Hses in Hstep.
    destruct (stopping _); [injection Hstep as <- <-; by exists s|].
    destruct (mg_active m); injection Hstep as <- <-; [|by exists s]. exists (revoke s).
    unfold revoke. by rewrite Hrev.
  - unfold waited in Hstep. destruct (waitFor e s) as [result|]; [|done]. simpl in Hstep.
    destruct (mg_phase m); try done; destruct result; injection Hstep as <- <-;
      ((by exists s) || by exists (seal s)).
  - unfold finalized in Hstep. destruct (closeAudit e s) as [auditErr|]; [|done]. simpl in Hstep.
    destruct (finalize auditErr removeErr s) as [result s'] eqn:Hfin.
    assert (se_revoked s' = true /\ se_wait s' <= se_wait s /\ se_handlers s' ⊆ se_handlers s /\
      se_channels s' ⊆ se_channels s) as Hsame.
    { unfold finalize in Hfin. destruct (negb _); [by injection Hfin as _ <-|]. simpl in Hfin.
      destruct (_ && _); injection Hfin as _ <-; by split_and!. }
    destruct (mg_phase m); try done; [injection Hstep as _ <-|unfold stop_end in Hstep; destruct result; injection Hstep as _ <-];
      by exists s'.
  - destruct (worker_step w s) as [s'|] eqn:Hw; [|done]. injection Hstep as <- <-.
    destruct (worker_step_ok _ w s s' Hok Hw) as [_ (Hr & _ & _ & _ & _ & _ & Hshrink)].
    exists s'. destruct (Hshrink Hrev) as (? & ? & ?). split; [done|]. by rewrite Hr.
Qed.

(** ** Starting *)

Definition is_started (out : output) : bool := match out with Started _ => true | _ => false end.

(** The starts that may still succeed. *)
Definition starts_left (m : Manager) : nat :=
  match mg_phase m with Hooking _ => 1 | _ => if mg_used m then 0 else 1 end.

Lemma step_starts o calls l m out m' :
  manager_ok calls m -> step o l m = Some (out, m') ->
  (count (is_started out) + Z.of_nat (starts_left m') <= Z.of_nat (starts_left m)).
Proof.
  intros [Hs _] Hstep. unfold starts_left.
  destruct l as [hasTarget a|e| |e|e removeErr|w]; simpl in Hstep.
  - destruct (locked (mg_phase m)) eqn:Hl; [done|]. unfold StartTarget in Hstep.
    destruct (mg_used m) eqn:Hu; simpl in Hstep.
    { injection Hstep as <- <-. simpl. rewrite Hu. by destruct (mg_phase m). }
    destruct (_ || _); [injection Hstep as <- <-; simpl; rewrite Hu; by destruct (mg_phase m)|].
    repeat match goal with
    | H : context [if ?b then _ else _] |- _ => destruct b
    | H : context [match ?x with _ => _ end] |- _ => destruct x
    end; injection Hstep as <- <-; simpl; rewrite ?Hu; by destruct (mg_phase m).
  - destruct (mg_phase m), (mg_session m) as [s|]; try done. unfold after_start, fail in Hstep.
    destruct Hs as (Hu & _). destruct e; injection Hstep as <- <-; simpl; by rewrite Hu.
  - destruct (locked (mg_phase m)) eqn:Hl; [done|]. unfold stop_begin in Hstep.
    destruct (stopping (mg_phase m)) eqn:Hst; [injection Hstep as <- <-; simpl; lia|].
    assert (mg_phase m = Free) as Hfree by by destruct (mg_phase m).
    destruct (mg_session m) as [s|]; [destruct (mg_active m)|]; injection Hstep as <- <-; simpl;
      rewrite ?Hfree; destruct (mg_used m); lia.
  - destruct (mg_session m) as [s|]; [|done]. destruct Hs as (Hu & _). simpl in Hstep. unfold waited in Hstep.
    destruct (waitFor e s) as [result|]; [|done]. simpl in Hstep.
    destruct (mg_phase m), result; try done; injection Hstep as <- <-; simpl; by rewrite Hu.
  - destruct (mg_session m) as [s|]; [|done]. destruct Hs as (Hu & _). simpl in Hstep. unfold finalized in Hstep.
    destruct (closeAudit e s) as [auditErr|]; [|done]. simpl in Hstep.
    destruct (finalize _ _ _) as [[e'|] s'], (mg_phase m); try done; injection Hstep as <- <-; simpl; by rewrite Hu.
  - destruct (mg_session m); [|done]. simpl in Hstep. destruct (worker_step _ _); [|done].
    injection Hstep as <- <-. simpl. lia.
Qed.

(** What a failed start leaves: nothing, or a session that is revoked. *)
Definition rolled_back (m m' : Manager) : Prop :=
  m' = m \/ exists s, mg_session m' = Some s /\ mg_phase m' = Free /\ mg_used m' = true /\
    se_revoked s = true /\ se_listening s = false /\ se_partialStart s = true /\
    (mg_active m' = true \/ over s /\ idle s /\ se_removed s = true).

Lemma step_rolls_back o calls l m e m' :
  manager_ok calls m -> step o l m = Some (StartFailed e, m') -> e <> None /\ rolled_back m m'.
Proof.
  intros [Hs He] Hstep. destruct l as [hasTarget a|e'| |e'|e' removeErr|w]; simpl in Hstep.
  - destruct (locked (mg_phase m)) eqn:Hl; [done|]. unfold StartTarget in Hstep.
    destruct (_ || stopping _); [by injection Hstep as <- <-; split; [|left]|].
    destruct hasTarget; simpl in Hstep; [|by injection Hstep as <- <-; split; [|left]].
    destruct (sa_resolve a) as [listen|]; [|by injection Hstep as <- <-; split; [|left]].
    destruct (_ || _); [by injection Hstep as <- <-; split; [|left]|].
    destruct (sa_directory a); [done|]. destruct (sa_listen a); [|done]. destruct (sa_structured a); [done|].
    cbn [se_rawLog set_se_listening new_session] in Hstep. by destruct (if negb _ then sa_raw a else _).
  - destruct (mg_phase m), (mg_session m); try done. unfold after_start, fail in Hstep. by destruct e'.
  - destruct (locked _); [done|]. unfold stop_begin in Hstep. destruct (stopping _); [done|].
    by destruct (mg_session m), (mg_active m).
  - destruct (mg_session m) as [s|] eqn:Hses; [|done]. destruct Hs as (Hu & Hok & Hp). simpl in Hstep.
    unfold waited in Hstep. destruct (waitFor e' s) as [result|]; [|done]. simpl in Hstep. unfold phase_ok in Hp.
    destruct (mg_phase m), result; try done. injection Hstep as <- <-. destruct Hp as (Ha & Hr & Hpart).
    split; [done|]. right. exists s. split_and!; try done; [by apply Hok|by left].
  - destruct (mg_session m) as [s|] eqn:Hses; [|done]. destruct Hs as (Hu & Hok & Hp). simpl in Hstep.
    unfold finalized in Hstep. destruct (closeAudit e' s) as [auditErr|] eqn:Hclose; [|done]. simpl in Hstep.
    unfold phase_ok in Hp. destruct (mg_phase m); try (by destruct (finalize _ _ _)).
    destruct Hp as (Ha & Hpart & Hseal). pose proof (finalize_ok e' removeErr auditErr s Hclose Hseal) as Hfin.
    destruct (finalize auditErr removeErr s) as [result s']. simpl in Hstep.
    destruct Hfin as ((Hr & H0 & _) & _ & Hpart' & Hok' & Hover). injection Hstep as <- <-. split; [done|].
    right. exists s'. specialize (Hok' calls Hok). split_and!; try done; [by apply Hok'|congruence|].
    simpl. rewrite Ha. destruct result as [e''|]; [by left|]. right. destruct (Hover eq_refl) as [Hov Hrem].
    split; [done|]. split; [by apply (wait_idle calls)|by apply Hrem].
  - destruct (mg_session m); [|done]. simpl in Hstep. by destruct (worker_step _ _).
Qed.

(** A bridge starts at most once, and a start that fails says so and holds nothing
    behind its caller's back: it was refused without an effect, or what it made is
    revoked, its listener closed, and either it is cleaned up whole (its workers
    joined, its audit sealed, its directory removed) or it stays with the manager as
    the session that a stop will finish. *)
Theorem ssh_start_rolls_back o labels outs m :
  runs o labels new_Manager = Some (outs, m) ->
  (length (List.filter is_started outs) <= 1)%nat /\
  forall l e m', step o l m = Some (StartFailed e, m') -> e <> None /\ rolled_back m m'.
Proof.
  intros Hrun. split; [|intros l e m'; by apply (step_rolls_back o (offered labels)), (runs_ok o labels outs)].
  assert (length (List.filter is_started outs) + starts_left m <= 1)%nat; [|lia].
  revert outs m Hrun. induction labels as [|l labels IH] using rev_ind; intros outs m Hrun.
  - injection Hrun as <- <-. done.
  - rewrite runs_snoc in Hrun. destruct (runs o labels new_Manager) as [[outs' m1]|] eqn:Hruns; [|done].
    simpl in Hrun. destruct (step o l m1) as [[out m2]|] eqn:Hstep; [|done]. injection Hrun as <- <-.
    specialize (IH outs' m1 eq_refl).
    pose proof (step_starts o _ l m1 out m2 (runs_ok o labels outs' m1 Hruns) Hstep) as Hleft.
    rewrite List.filter_app, length_app. simpl. unfold count in Hleft. destruct (is_started out); simpl; lia.
Qed.

(** ** A stop can be completed *)

(** Steps that end something: no call from outside and no timeout. *)
Definition finishing (l : label) : Prop :=
  match l with
  | Works (AcceptFails | ConnectionEnds _ | ChannelEnds _ | AuditRuns _) => True
  | Waited None | Finalized None None => True
  | _ => False
  end.

Lemma runs_app o labels labels' m :
  runs o (labels ++ labels') m =
  ('(outs, m1) ← runs o labels m; '(outs', m2) ← runs o labels' m1; Some (outs ++ outs', m2)).
Proof.
  revert m. induction labels as [|l labels IH]; intros m; simpl.
  - by destruct (runs o labels' m) as [[? ?]|].
  - destruct (step o l m) as [[out m1]|]; simpl; [|done]. rewrite IH.
    destruct (runs o labels m1) as [[outs m2]|]; simpl; [|done].
    by destruct (runs o labels' m2) as [[outs' m3]|].
Qed.

Lemma runs_then o labels l m outs m1 out m2 :
  runs o labels m = Some (outs, m1) -> step o l m1 = Some (out, m2) ->
  runs o (labels ++ [l]) m = Some (outs ++ [out], m2).
Proof. intros H1 H2. rewrite runs_snoc, H1. cbn [mbind option_bind]. by rewrite H2. Qed.

(** A worker that ends, if there is one. *)
Lemma a_worker_ends calls s :
  session_ok calls s -> 0 < se_wait s ->
  exists w s', finishing (Works w) /\ worker_offers w = [] /\ worker_step w s = Some s' /\
    se_wait s' = se_wait s - 1 /\ se_audit s' = se_audit s.
Proof.
  intros [Hw Ha Hs Hc Hl] Hpos. unfold count in Hw. destruct (se_serving s) eqn:Hserve.
  { exists AcceptFails. simpl. unfold serve_fails. rewrite Hserve. eexists. split; [done|]. by split_and!. }
  destruct (decide (se_handlers s = ∅)) as [Hh|(c & Hc')%set_choose_L].
  - destruct (decide (se_channels s = ∅)) as [Hch|(ch & Hc')%set_choose_L].
    + rewrite Hh, Hch, !size_empty in Hw. lia.
    + exists (ChannelEnds ch). simpl. unfold channel_ends. rewrite bool_decide_eq_true_2 by done.
      eexists. split; [done|]. by split_and!.
  - exists (ConnectionEnds c). simpl. unfold connection_ends. rewrite bool_decide_eq_true_2 by done.
    eexists. split; [done|]. by split_and!.
Qed.

Lemma workers_end o calls m s :
  manager_ok calls m -> mg_session m = Some s -> se_revoked s = true ->
  exists labels outs s', Forall finishing labels /\ length labels = Z.to_nat (se_wait s) /\
    runs o labels m = Some (outs, set_mg_session (Some s') m) /\
    manager_ok calls (set_mg_session (Some s') m) /\ se_revoked s' = true /\ se_wait s' = 0.
Proof.
  intros Hm Hses Hrev. remember (Z.to_nat (se_wait s)) as n eqn:Hn. revert m s Hm Hses Hrev Hn.
  induction n as [|n IH]; intros m s Hm Hses Hrev Hn; pose proof Hm as [Hs _]; rewrite Hses in Hs;
    destruct Hs as (_ & Hok & _); pose proof (wait_nonneg calls s Hok).
  - exists [], [], s. assert (set_mg_session (Some s) m = m) as Hsame by (destruct m; simpl in *; by subst).
    rewrite Hsame. split_and!; try done. lia.
  - destruct (a_worker_ends calls s Hok ltac:(lia)) as (w & s' & Hfin & Hoff & Hstep & Hwait & _).
    assert (step o (Works w) m = Some (Quiet, set_mg_session (Some s') m)) as Hmstep.
    { simpl. rewrite Hses. simpl. by rewrite Hstep. }
    pose proof (step_ok o calls (Works w) m _ _ Hm Hmstep) as Hm'. simpl in Hm'. rewrite Hoff, app_nil_r in Hm'.
    destruct (worker_step_ok calls w s s' Hok Hstep) as [_ (Hr & _)].
    destruct (IH _ s' Hm' eq_refl ltac:(congruence) ltac:(lia)) as (labels & outs & s'' & Hall & Hlen & Hrun & Hrest).
    exists (Works w :: labels), (Quiet :: outs), s''. split; [by constructor|]. split; [simpl; congruence|].
    split; [|exact Hrest]. change (runs o (Works w :: labels) m) with
      ('(out, m1) ← step o (Works w) m; '(outs, m2) ← runs o labels m1; Some (out :: outs, m2)).
    rewrite Hmstep. simpl. rewrite Hrun. done.
Qed.

Lemma audit_ends o calls m s w :
  manager_ok calls m -> mg_session m = Some s -> sealing s -> se_audit s = Some w ->
  exists labels outs s' e, Forall finishing labels /\ (length labels <= work w)%nat /\
    runs o labels m = Some (outs, set_mg_session (Some s') m) /\
    manager_ok calls (set_mg_session (Some s') m) /\ sealing s' /\ closeAudit None s' = Some e.
Proof.
  remember (work w) as n eqn:Hn. assert (work w <= n)%nat as Hle by lia. clear Hn. revert m s w Hle.
  induction n as [|n IH]; intros m s w Hle Hm Hses Hseal Haudit; pose proof Hm as [Hs _]; rewrite Hses in Hs;
    destruct Hs as (_ & Hok & _); pose proof Hok as [_ Hrun _ _ _]; rewrite Haudit in Hrun;
    pose proof Hseal as (Hr & H0 & Hsealed); rewrite Haudit in Hsealed;
    apply audit_reachable in Hrun as (accepted & taken & Hinv);
    destruct (run_step_works _ _ _ _ w {| oc_written := 0; oc_err := None |} Hinv Hsealed)
      as [Hdone|(w' & Hstep & Hsealed' & Hless)]; try lia;
    try (exists [], [], s, (aw_err w); split; [done|]; split; [simpl; lia|];
         assert (set_mg_session (Some s) m = m) as -> by (destruct m; simpl in *; by subst);
         split; [done|]; split; [done|]; split; [done|]; unfold closeAudit, seal_result, Finished;
         by rewrite Haudit, Hdone).
  set (l := Works (AuditRuns {| oc_written := 0; oc_err := None |})). set (s' := set_se_audit (Some w') s).
  assert (step o l m = Some (Quiet, set_mg_session (Some s') m)) as Hmstep.
  { simpl. rewrite Hses. simpl. unfold audit_runs. rewrite Haudit. simpl. by rewrite Hstep. }
  pose proof (step_ok o calls l m _ _ Hm Hmstep) as Hm'. simpl in Hm'. rewrite app_nil_r in Hm'.
  destruct (IH (set_mg_session (Some s') m) s' w' ltac:(lia) Hm' eq_refl ltac:(by split) eq_refl)
    as (labels & outs & s'' & e & Hall & Hlen & Hruns & Hrest).
  exists (l :: labels), (Quiet :: outs), s'', e. split; [by constructor|]. split; [simpl; lia|].
  split; [|exact Hrest]. cbn [runs]. rewrite Hmstep. simpl. rewrite Hruns. done.
Qed.

Lemma sealed_session_ends o calls m s :
  manager_ok calls m -> mg_session m = Some s -> sealing s ->
  exists labels outs s' e, Forall finishing labels /\
    runs o labels m = Some (outs, set_mg_session (Some s') m) /\
    manager_ok calls (set_mg_session (Some s') m) /\ sealing s' /\ closeAudit None s' = Some e.
Proof.
  intros Hm Hses Hseal. destruct (se_audit s) as [w|] eqn:Haudit.
  - destruct (audit_ends o calls m s w Hm Hses Hseal Haudit) as (labels & outs & s' & e & Hf & _ & Hrest).
    by exists labels, outs, s', e.
  - exists [], [], s, None. assert (set_mg_session (Some s) m = m) as -> by (destruct m; simpl in *; by subst).
    split; [done|]. split; [done|]. split; [done|]. split; [done|]. unfold closeAudit. by rewrite Haudit.
Qed.

(** [finalize] reports what the audit does when the directory can be removed. *)
Lemma finalize_report e s :
  closeAudit None s = Some e ->
  let (result, s') := finalize e None s in
  result = e /\ match se_audit s' with Some w => seal_result w = Some e | None => e = None end /\
  (idle s' <-> idle s).
Proof.
  intros Hclose. unfold finalize. assert (match se_audit s with Some w => seal_result w = Some e | None => e = None end) as Ha.
  { unfold closeAudit in Hclose. destruct (se_audit s); [done|by injection Hclose]. }
  destruct (negb _); [done|]. simpl. destruct (se_partialStart s), e; simpl; by split_and!.
Qed.

(** A stop never hangs for want of a way out: whatever workers run and whatever is
    queued for the audit, ending each worker once and letting the audit writer run a
    bounded number of steps completes it, and it reports what the audit reports. *)
Theorem ssh_stop_can_complete o labels outs m s :
  runs o labels new_Manager = Some (outs, m) -> mg_phase m = StopWaiting -> mg_session m = Some s ->
  exists labels' outs' e m', Forall finishing labels' /\
    runs o labels' m = Some (outs' ++ [Stopped e], m') /\ mg_phase m' = Free /\
    mg_stopErr m' = e /\ mg_active m' = negb (is_nil e) /\
    match mg_session m' with
    | Some s' => idle s' /\ match se_audit s' with Some w => seal_result w = Some e | None => e = None end
    | None => False
    end.
Proof.
  intros Hrun Hphase Hses. pose proof (runs_ok o labels outs m Hrun) as Hm. set (calls := offered labels) in *.
  assert (mg_active m = true /\ se_revoked s = true) as [Hactive Hrev].
  { destruct Hm as [Hs _]. rewrite Hses in Hs. destruct Hs as (_ & _ & Hp). unfold phase_ok in Hp.
    by rewrite Hphase in Hp. }
  destruct (workers_end o calls m s Hm Hses Hrev) as (ls1 & outs1 & s1 & Hf1 & _ & Hrun1 & Hm1 & Hr1 & H01).
  set (m1 := set_mg_session (Some s1) m) in *. set (m2 := set_mg_phase StopFinal (set_mg_session (Some (seal s1)) m1)).
  assert (step o (Waited None) m1 = Some (Quiet, m2)) as Hstep1.
  { simpl. unfold waited, waitFor. rewrite H01. simpl. by rewrite Hphase. }
  pose proof (step_ok o calls _ m1 _ m2 Hm1 Hstep1) as Hm2. simpl in Hm2. rewrite app_nil_r in Hm2.
  assert (sealing (seal s1)) as Hseal.
  { destruct Hm2 as [Hs _]. simpl in Hs. destruct Hs as (_ & _ & Hp). unfold phase_ok in Hp. simpl in Hp. by destruct Hp. }
  destruct (sealed_session_ends o calls m2 (seal s1) Hm2 eq_refl Hseal)
    as (ls2 & outs2 & s3 & e & Hf2 & Hrun2 & Hm3 & Hseal3 & Hclose).
  set (m3 := set_mg_session (Some s3) m2) in *.
  pose proof (finalize_report e s3 Hclose) as Hfin. destruct (finalize e None s3) as [result s4] eqn:Hfinalize.
  destruct Hfin as (-> & Haudit4 & Hsame4).
  assert (step o (Finalized None None) m3 = Some (stop_end e (set_mg_session (Some s4) m3))) as Hstep3.
  { simpl. unfold finalized. rewrite Hclose. simpl. by rewrite Hfinalize. }
  exists ((ls1 ++ [Waited None]) ++ ls2 ++ [Finalized None None]), ((outs1 ++ [Quiet]) ++ outs2), e,
    (stop_end e (set_mg_session (Some s4) m3)).2.
  split; [rewrite !Forall_app; repeat split; try done; by repeat constructor|].
  assert (idle s4) as Hidle.
  { destruct Hm3 as [Hs _]. simpl in Hs. destruct Hs as (_ & Hok & _). destruct Hseal3 as (_ & H0 & _).
    rewrite Hsame4. by apply (wait_idle calls). }
  split; [|by destruct e; simpl; split_and!].
  pose proof (runs_then o ls1 _ m outs1 m1 Quiet m2 Hrun1 Hstep1) as Hfirst.
  assert (stop_end e (set_mg_session (Some s4) m3) =
    (Stopped e, (stop_end e (set_mg_session (Some s4) m3)).2)) as Hout by by destruct e.
  rewrite Hout in Hstep3. pose proof (runs_then o ls2 _ m2 outs2 m3 _ _ Hrun2 Hstep3) as Hsecond.
  rewrite runs_app, Hfirst. cbn [mbind option_bind]. rewrite Hsecond. cbn [mbind option_bind].
  by rewrite <- !app_assoc.
Qed.

(** * An instance *)

Module ManagerDemo.
Definition options : Options :=
  {| op_OutputDir := "/out"; op_OmitRawLog := false; op_ParseIP _ := true; op_Workdir := "/w" |}.
Definition answers : start_answers :=
  {| sa_resolve := inl {| bl_BindPort := 0; bl_BindHost := "127.0.0.1" |}; sa_directory := None;
     sa_listen := inl "127.0.0.1:2222"%string; sa_structured := None; sa_raw := None;
     sa_structured_close := None |}.
Definition record : record :=
  {| marshal n _ := inl (to_bytes (itoa n)); RenderRaw n _ := inl (to_bytes "raw") |}.
Definition started : list label :=
  [Starts true answers; Hooked None; Works (Accepts 0); Works (OpensChannel 0 0 false);
   Works (Records 0 record "t")].
Definition ok (n : nat) : label := Works (AuditRuns {| oc_written := n; oc_err := None |}).
Definition ended : list label :=
  [Stops; Works (OpensChannel 0 1 false); Works AcceptFails; Works (ConnectionEnds 0); Waited (Some Canceled);
   Stops; Works (ChannelEnds 0); Waited None] ++ map ok ([0; 0; 1; 3; 0; 0; 0; 0] ++ repeat 0%nat 5)%nat.
Definition stopping_labels : list label := started ++ [Stops].
Definition refused : start_answers :=
  {| sa_resolve := inr (ENew "no listener"); sa_directory := None; sa_listen := inl ""%string;
     sa_structured := None; sa_raw := None; sa_structured_close := None |}.
Definition after (labels : list label) : Manager :=
  default new_Manager (snd <$> runs options labels new_Manager).
Definition answered (labels : list label) : list output := default [] (fst <$> runs options labels new_Manager).
End ManagerDemo.

Lemma ssh_stop_complete_witness :
  let labels := ManagerDemo.started ++ ManagerDemo.ended in
  exists m', step ManagerDemo.options (Finalized None None) (ManagerDemo.after labels) = Some (Stopped None, m') /\
    stopped m' /\ length (offered labels) = 1%nat.
Proof.
  intros labels. eexists. split; [vm_compute; reflexivity|]. split; [|vm_compute; reflexivity].
  apply (ssh_stop_complete ManagerDemo.options labels (ManagerDemo.answered labels) (ManagerDemo.after labels)
    (Finalized None None)); vm_compute; reflexivity.
Defined.

Lemma ssh_admission_closed_witness :
  let m := ManagerDemo.after ManagerDemo.stopping_labels in
  exists s s' m', mg_session m = Some s /\
    step ManagerDemo.options (Works (OpensChannel 0 1 false)) m = Some (Quiet, m') /\
    mg_session m' = Some s' /\ 0 <= se_wait s' <= se_wait s.
Proof.
  intros m. eexists. eexists. eexists. split; [vm_compute; reflexivity|]. split; [vm_compute; reflexivity|].
  pose proof (ssh_admission_closed ManagerDemo.options ManagerDemo.stopping_labels
    (ManagerDemo.answered ManagerDemo.stopping_labels) m _ (Works (OpensChannel 0 1 false)) Quiet _
    ltac:(vm_compute; reflexivity) ltac:(vm_compute; reflexivity) ltac:(vm_compute; reflexivity)
    ltac:(vm_compute; reflexivity)) as (s' & Hs & _ & Hw & _).
  split; [vm_compute; reflexivity|]. vm_compute. split; discriminate.
Defined.

Lemma ssh_start_rolls_back_witness :
  (length (List.filter is_started (ManagerDemo.answered ManagerDemo.started)) = 1)%nat /\
  (length (List.filter is_started (ManagerDemo.answered ManagerDemo.started)) <= 1)%nat.
Proof.
  split; [vm_compute; reflexivity|].
  apply (ssh_start_rolls_back ManagerDemo.options ManagerDemo.started (ManagerDemo.answered ManagerDemo.started)
    (ManagerDemo.after ManagerDemo.started)). vm_compute. reflexivity.
Defined.

Lemma ssh_stop_can_complete_witness :
  exists labels outs e m, Forall finishing labels /\
    runs ManagerDemo.options labels (ManagerDemo.after ManagerDemo.stopping_labels) = Some (outs ++ [Stopped e], m).
Proof.
  destruct (ssh_stop_can_complete ManagerDemo.options ManagerDemo.stopping_labels
    (ManagerDemo.answered ManagerDemo.stopping_labels) (ManagerDemo.after ManagerDemo.stopping_labels) _
    ltac:(vm_compute; reflexivity) ltac:(vm_compute; reflexivity) ltac:(vm_compute; reflexivity))
    as (labels & outs & e & m & Hf & Hr & _).
  exists labels, outs, e, m. exact (conj Hf Hr).
Defined.
