(* ===== verification/OpenClawDialect.v ===== *)
(** OpenClaw's dialect of the SSH bridge ([pkg/bridge/ssh/openclaw], dialect.go,
    workspace.go and server.go): how a decoded command is run in the sandbox, which
    commands are provider controls that are not run, the validation of the work
    directory at its real root, and the workspace alias that is made first. *)

From S2P Require Import Prelude Utf8 Trace Core AuditText ShellGrammar SshBridge SshManager.

(** * The scripts of the client *)

(** A Go raw string: it holds no backquote, which stands for the double quote here. *)
Definition BACKQUOTE : ascii := "`"%char.
Definition go_raw (s : string) : string :=
  of_bytes (map (fun c => if Ascii.eqb c BACKQUOTE then DQUOTE else c) (to_bytes s)).

Definition virtualRuntimeRoot : string := "/aries/openclaw/openclaw-ssh-shared-8198076c".
Definition virtualWorkspace : string := virtualRuntimeRoot +:+ "/workspace".
Definition virtualSkillsWorkspace : string := virtualWorkspace +:+ "/.openclaw/sandbox-skills".
Definition workdirValidationScript : string := go_raw "set -e
target=`$1`
root=`$2`
case `$target` in /*) ;; *) echo `remote directory must be absolute: $target` >&2; exit 1 ;; esac
case `$root` in /*) ;; *) echo `remote root must be absolute: $root` >&2; exit 1 ;; esac
target=`${target%/}`
root=`${root%/}`
[ -n `$target` ] || target=`/`
[ -n `$root` ] || root=`/`
if [ `$root` != `/` ]; then
  case `$target/` in `$root`/*|`$root/`) ;; *) echo `remote directory must stay under root: $target` >&2; exit 1 ;; esac
fi
for path_to_check in `$target` `$root`; do
  relative=`${path_to_check#/}`
  while [ -n `$relative` ]; do
    part=`${relative%%/*}`
    if [ `$part` = `$relative` ]; then relative=``; else relative=`${relative#*/}`; fi
    [ -n `$part` ] || continue
    case `$part` in `.`|`..`) echo `unsafe remote directory component: $part` >&2; exit 1 ;; esac
  done
done
if [ -L `$root` ]; then echo `unsafe remote root symlink: $root` >&2; exit 1; fi
if [ ! -d `$root` ]; then echo `remote root not found: $root` >&2; exit 1; fi
canonical_root=`$(cd `$root` && pwd -P)`
relative=`${target#`$root`}`
relative=`${relative#/}`
current=`$canonical_root`
while [ -n `$relative` ]; do
  part=`${relative%%/*}`
  if [ `$part` = `$relative` ]; then relative=``; else relative=`${relative#*/}`; fi
  [ -n `$part` ] || continue
  if [ `$current` = `/` ]; then next=`/$part`; else next=`$current/$part`; fi
  if [ -L `$next` ]; then echo `unsafe remote directory symlink: $next` >&2; exit 1; fi
  if [ ! -d `$next` ]; then echo `remote directory not found: $next` >&2; exit 1; fi
  current=`$next`
done
printf `%s\n` `$current`".
Definition workdirValidationLabel : string := "openclaw-validate-workdir".
Definition ensureRemoteDirectoryScript : string := go_raw "set -e
target=`$1`
root=`${2:-$1}`
case `$target` in /*) ;; *) echo `remote directory must be absolute: $target` >&2; exit 1 ;; esac
case `$root` in /*) ;; *) echo `remote root must be absolute: $root` >&2; exit 1 ;; esac
target=`${target%/}`
root=`${root%/}`
[ -n `$target` ] || target=`/`
[ -n `$root` ] || root=`/`
case `$target/` in `$root`/*|`$root/`) ;; *) echo `remote directory must stay under root: $target` >&2; exit 1 ;; esac
for path_to_check in `$target` `$root`; do
  relative=`${path_to_check#/}`
  while [ -n `$relative` ]; do
    part=`${relative%%/*}`
    if [ `$part` = `$relative` ]; then relative=``; else relative=`${relative#*/}`; fi
    [ -n `$part` ] || continue
    case `$part` in `.`|`..`) echo `unsafe remote directory component: $part` >&2; exit 1 ;; esac
  done
done
if [ -L `$root` ]; then echo `unsafe remote root symlink: $root` >&2; exit 1; fi
mkdir -p -- `$root`
canonical_root=`$(cd `$root` && pwd -P)`
relative=`${target#`$root`}`
relative=`${relative#/}`
current=`$canonical_root`
while [ -n `$relative` ]; do
  part=`${relative%%/*}`
  if [ `$part` = `$relative` ]; then relative=``; else relative=`${relative#*/}`; fi
  [ -n `$part` ] || continue
  if [ `$current` = `/` ]; then next=`/$part`; else next=`$current/$part`; fi
  if [ -L `$next` ]; then echo `unsafe remote directory symlink: $next` >&2; exit 1; fi
  if [ -e `$next` ]; then
    if [ ! -d `$next` ]; then echo `unsafe remote directory component: $next` >&2; exit 1; fi
  else
    mkdir -- `$next`
  fi
  current=`$next`
done".
Definition directoryClearScript : string := ensureRemoteDirectoryScript +:+ go_raw "
find `$1` -mindepth 1 -maxdepth 1 -exec rm -rf -- {} +".
Definition directoryClearLabel : string := "openclaw-sandbox-clear".
Definition directoryUploadScript : string := ensureRemoteDirectoryScript +:+ go_raw "
tar -xf - -C `$1`".
Definition directoryUploadLabel : string := "openclaw-sandbox-upload".
Definition runtimeRemoveScript : string := go_raw "rm -rf -- `$1`".
Definition runtimeRemoveLabel : string := "openclaw-sandbox-remove".
Definition prepareWorkspaceScript : string := go_raw "set -eu
canonical=$(cd `$1` && pwd -P)
alias=`$2`
if [ -e `$alias` ] || [ -L `$alias` ]; then
  echo `OpenClaw workspace path already exists: $alias` >&2
  exit 1
fi
parent=${alias%/*}
relative=${parent#/}
current=
while [ -n `$relative` ]; do
  part=${relative%%/*}
  if [ `$part` = `$relative` ]; then relative=; else relative=${relative#*/}; fi
  current=`$current/$part`
  if [ -L `$current` ]; then
    echo `OpenClaw workspace ancestor is a symlink: $current` >&2
    exit 1
  fi
  if [ -e `$current` ]; then
    [ -d `$current` ] || { echo `OpenClaw workspace ancestor is not a directory: $current` >&2; exit 1; }
  else
    mkdir -m 755 -- `$current`
  fi
done
ln -s -- `$canonical` `$alias`
printf '%s\n' `$canonical`".

(** * Preparing a command *)

Module Dialect.
Import OpenClaw.

(** [command]: the environment of the leading assignments, the shell and its
    arguments.  Running off the end of the arguments is a panic, [None]. *)
Fixpoint command_env (argv : list string) (environment : gmap string string) :
    option (gmap string string * list string) :=
  match argv with
  | [] => None
  | arg :: rest =>
      if String.eqb arg remoteShell then Some (environment, argv)
      else
        let (name, value) := default (arg, ""%string) (Cut arg "="%char) in
        command_env rest (<[name := value]> environment)
  end.
Definition command (argv : list string) (workdir : string) : option Command :=
  match argv with
  | [] => None
  | first :: rest =>
      match (if String.eqb first remoteEnv then command_env rest ∅ else Some (∅, argv)) with
      | Some (environment, path :: args) =>
          Some {| cm_Path := path; cm_Args := args; cm_Dir := workdir; cm_Env := environment;
                  cm_Stdin := []; cm_Timeout := 0; cm_User := ""; cm_OutputLimitBytes := 0 |}
      | _ => None
      end
  end.

(** [preparedRemoteCommand], [preparedFromArgv] and [matchesExactArgv]. *)
Record preparedRemoteCommand := {
  pc_command : Command;
  pc_encoded : string;
  pc_workspaceHome : string;
  pc_suppressed : bool
}.
Definition preparedFromArgv (argv : list string) (workdir : string) (suppressed : bool) :
    option preparedRemoteCommand :=
  (fun command =>
    {| pc_command := command; pc_encoded := encodeCanonicalTokens argv;
       pc_workspaceHome := default ""%string (cm_Env command !! "HOME"%string);
       pc_suppressed := suppressed |}) <$> command argv workdir.
Definition matchesExactArgv (got want : list string) : bool := bool_decide (got = want).

(** [prepareRemoteCommand]. *)
Definition clear_argv : list string :=
  [remoteShell; "-c"%string; directoryClearScript; directoryClearLabel; virtualSkillsWorkspace; virtualRuntimeRoot].
Definition upload_argv : list string :=
  [remoteShell; "-c"%string; directoryUploadScript; directoryUploadLabel; virtualSkillsWorkspace; virtualRuntimeRoot].
Definition remove_argv : list string :=
  [remoteShell; "-c"%string; runtimeRemoveScript; runtimeRemoveLabel; virtualRuntimeRoot].
Definition validation_target (argv : list string) : option string :=
  match argv with
  | [shell; dash; script; label; target; root] =>
      if matchesExactArgv [shell; dash; script; label]
           [remoteShell; "-c"%string; workdirValidationScript; workdirValidationLabel] &&
         String.eqb root virtualWorkspace &&
         (String.eqb target virtualWorkspace || HasPrefix target (virtualWorkspace +:+ "/"))
      then Some target else None
  | _ => None
  end.
Definition real_target (workdir target : string) : string :=
  let path := TrimSuffix workdir "/" +:+ TrimPrefix target virtualWorkspace in
  if String.eqb path "" then "/"%string else path.
Definition prepareRemoteCommand (argv : list string) (workdir : string) : option preparedRemoteCommand :=
  match validation_target argv with
  | Some target =>
      preparedFromArgv (<[5%nat := workdir]> (<[4%nat := real_target workdir target]> argv)) workdir false
  | None =>
      preparedFromArgv argv workdir
        (matchesExactArgv argv clear_argv || matchesExactArgv argv upload_argv ||
         matchesExactArgv argv remove_argv)
  end.

(** [operationClass] and [replayDisplayCommand]. *)
Definition operationClass (c : Command) : string :=
  if String.eqb (cm_Path c) remoteShell && matchesExactArgv (cm_Args c) (drop 1 upload_argv)
  then "workspace_upload" else "exec".
Definition replayDisplayCommand (c : Command) : string :=
  if negb (String.eqb (operationClass c) "exec") then ""
  else match cm_Args c with
  | dash :: script :: _ =>
      if String.eqb (cm_Path c) remoteShell && String.eqb dash "-c" then script else cm_Path c
  | _ => cm_Path c
  end.

(** [Prepare], [Policy] and [rejected]. *)
Definition rejected : Refusal :=
  {| rf_OperationClass := "exec"; rf_Status := "rejected"; rf_Message := "invalid remote command" |}.
Definition Prepare (validationRoot encoded workdir : string) : option (Prepared + Refusal) :=
  match decodeRemoteCommand encoded with
  | inr _ => Some (inr rejected)
  | inl remote =>
      let root := if String.eqb validationRoot "" then workdir else validationRoot in
      prepared ← prepareRemoteCommand remote root;
      let command := set_cm_Dir workdir (pc_command prepared) in
      Some (inl {| pp_Command := command;
                   pp_Action := if pc_suppressed prepared then DrainOnly else Execute;
                   pp_HashInput := pc_encoded prepared; pp_Display := replayDisplayCommand command;
                   pp_OperationClass := operationClass command; pp_RefusalClass := "exec";
                   pp_WorkspaceHome := pc_workspaceHome prepared;
                   pp_Environment := sorted_keys (cm_Env command) |})
  end.
Definition OpenClawPolicy : Policy :=
  {| po_UnsupportedRequests := RejectAndClose; po_InvalidOperationClass := "exec"; po_RefusedExitCode := 0 |}.
Definition OpenClawDialect (validationRoot : string) : ShellGrammar.Dialect :=
  {| dialect_Prepare encoded workdir := default (inr rejected) (Prepare validationRoot encoded workdir);
     dialect_Policy := OpenClawPolicy |}.
End Dialect.

(** * What runs *)

Import OpenClaw.

(** [c] calls the shell as [call] says, with the environment [env] assigns. *)
Definition replayed (env call : list string) (workdir : string) (c : Command) : Prop :=
  call = remoteShell :: cm_Args c /\ cm_Path c = remoteShell /\ cm_Dir c = workdir /\
  cm_Stdin c = [] /\ cm_User c = ""%string /\
  forall name value, cm_Env c !! name = Some value <->
    validEnvironmentName name = true /\ name +:+ String "="%char value ∈ env.
Definition spelled (env call tokens : list string) : Prop :=
  tokens = call /\ env = [] \/ tokens = remoteEnv :: env ++ call.

Lemma same_assignment name value name' value' :
  validEnvironmentName name = true -> validEnvironmentName name' = true ->
  name +:+ String "="%char value = name' +:+ String "="%char value' -> name = name' /\ value = value'.
Proof.
  intros H H' Heq. apply valid_name_spec in H as [_ H], H' as [_ H'].
  pose proof (Cut_app name value "=" H) as Hc. rewrite Heq, (Cut_app name' value' "=" H') in Hc.
  by injection Hc.
Qed.

Lemma command_env_spec seen last env call environment :
  assignments seen last env -> shell_call call ->
  (forall name, is_Some (environment !! name) -> name ∈ seen) ->
  exists environment', Dialect.command_env (env ++ call) environment = Some (environment', call) /\
    forall name value, environment' !! name = Some value <->
      environment !! name = Some value \/
      validEnvironmentName name = true /\ name +:+ String "="%char value ∈ env.
Proof.
  intros Henv (script & args & -> & Hs). revert environment.
  induction Henv as [seen last|seen name value rest Hv Hseen Hval Hrest IH]; intros environment Hdom.
  - exists environment. split; [done|]. intros name value. split; [by left|].
    by intros [?|[_ []%not_elem_of_nil]].
  - cbn [app Dialect.command_env]. rewrite assignment_not_shell by done.
    destruct (valid_name_spec name Hv) as [Hne Heq]. rewrite Cut_app by done. unfold from_option, id.
    destruct (IH (<[name := value]> environment)) as (environment' & -> & Hlook).
    { intros x [y Hx]. apply elem_of_union. apply lookup_insert_Some in Hx as [[<- _]|[_ Hx]].
      - left. by apply elem_of_singleton.
      - right. apply Hdom. by exists y. }
    exists environment'. split; [done|]. intros x y. rewrite Hlook, lookup_insert_Some, elem_of_cons.
    split.
    + intros [[[<- <-]|[_ Hx]]|[Hx Hin]]; [right; split; [done|by left]|by left|right; split; [done|by right]].
    + intros [Hx|[Hx [Hin|Hin]]].
      * left. right. split; [|done]. intros <-. apply Hseen, Hdom. by exists y.
      * left. left. symmetry in Hin. by apply (same_assignment name value x y).
      * by right.
Qed.

Lemma command_spec tokens workdir :
  openclaw_tokens tokens -> exists env call c, spelled env call tokens /\ assignments ∅ false env /\
    shell_call call /\ Dialect.command tokens workdir = Some c /\ replayed env call workdir c.
Proof.
  intros [Hcall|(env & call & -> & Henv & Hcall)].
  - pose proof Hcall as (script & args & -> & Hs).
    eexists [], _, _. split; [left; done|]. split; [constructor|]. split; [exact Hcall|]. split; [done|].
    do 5 (split; [done|]). intros name value. simpl. rewrite lookup_empty.
    split; [done|]. by intros [_ ?%not_elem_of_nil].
  - destruct (command_env_spec ∅ false env call ∅ Henv Hcall) as (environment & Henvironment & Hlook).
    { intros name [? ?]. by rewrite lookup_empty in *. }
    pose proof Hcall as (script & args & -> & Hs).
    eexists env, _, _. split; [right; done|]. split; [done|]. split; [exact Hcall|].
    cbn [Dialect.command]. rewrite String.eqb_refl, Henvironment. split; [done|].
    do 5 (split; [done|]). intros name value. simpl. rewrite Hlook, lookup_empty.
    split; [by intros [?|?]|by right].
Qed.

(** Provider controls: the client's own commands on its shared skills directory. *)
Definition control (tokens : list string) : Prop :=
  tokens = Dialect.clear_argv \/ tokens = Dialect.upload_argv \/ tokens = Dialect.remove_argv.

(** A validation of the virtual workspace, or of a path [below] it, and the same
    validation of the real root. *)
Definition validates (below : string) (tokens : list string) : Prop :=
  tokens = [remoteShell; "-c"%string; workdirValidationScript; workdirValidationLabel;
            virtualWorkspace +:+ below; virtualWorkspace] /\
  (below = ""%string \/ HasPrefix below "/" = true).
Definition validated (root below : string) : list string :=
  let path := TrimSuffix root "/" +:+ below in
  [remoteShell; "-c"%string; workdirValidationScript; workdirValidationLabel;
   if String.eqb path "" then "/"%string else path; root].

Lemma HasPrefix_app_slash target :
  HasPrefix target (virtualWorkspace +:+ "/") = true ->
  exists below, target = virtualWorkspace +:+ below /\ HasPrefix below "/" = true.
Proof.
  intros (rest & ->)%HasPrefix_iff. exists ("/" +:+ rest)%string. split; [by rewrite string_app_assoc|].
  apply HasPrefix_iff. by exists rest.
Qed.

Lemma validation_target_spec tokens :
  match Dialect.validation_target tokens with
  | Some target => exists below, target = virtualWorkspace +:+ below /\ validates below tokens
  | None => forall below, ~ validates below tokens
  end.
Proof.
  unfold Dialect.validation_target, Dialect.matchesExactArgv.
  destruct tokens as [|a [|b [|c [|d [|target [|root [|? ?]]]]]]]; try (intros below [[=] _]).
  case_bool_decide as Hv; cbn [andb].
  2: { intros below [[= -> -> -> -> _ _] _]. done. }
  injection Hv as -> -> -> ->. destruct (String.eqb_spec root virtualWorkspace) as [->|Hr]; cbn [andb].
  2: { intros below [[= _ ->] _]. done. }
  destruct (String.eqb_spec target virtualWorkspace) as [->|Ht]; cbn [orb].
  - exists ""%string. assert (virtualWorkspace +:+ "" = virtualWorkspace) as Hnil by reflexivity.
    split; [done|]. split; [by rewrite Hnil|by left].
  - destruct (HasPrefix target (virtualWorkspace +:+ "/")) eqn:Hp.
    + apply HasPrefix_app_slash in Hp as (below & -> & Hb). exists below. split; [done|]. by split; [|right].
    + intros below [[= ->] [->|Hb]]; [done|]. apply HasPrefix_iff in Hb as [rest ->].
      assert (HasPrefix (virtualWorkspace +:+ ("/" +:+ rest)) (virtualWorkspace +:+ "/") = true) as Hyes.
      { apply HasPrefix_iff. exists rest. by rewrite <- string_app_assoc. }
      congruence.
Qed.

(** What the dialect makes of the tokens it decoded; [runs] are the tokens it runs. *)
Definition prepared_as (workdir : string) (tokens runs : list string) (prepared : Prepared) : Prop :=
  exists env call,
    spelled env call runs /\ replayed env call workdir (pp_Command prepared) /\
    pp_HashInput prepared = encodeCanonicalTokens runs /\
    (pp_Action prepared = DrainOnly /\ control tokens \/ pp_Action prepared = Execute /\ ~ control tokens) /\
    Sorted string_le (pp_Environment prepared) /\
    (forall name, name ∈ pp_Environment prepared <-> exists value,
       validEnvironmentName name = true /\ name +:+ String "="%char value ∈ env) /\
    (pp_OperationClass prepared = "workspace_upload"%string /\ call = Dialect.upload_argv /\
       pp_Display prepared = ""%string \/
     pp_OperationClass prepared = "exec"%string /\ call <> Dialect.upload_argv /\
       exists args, call = remoteShell :: "-c"%string :: pp_Display prepared :: args).

Lemma replayed_dir env call root workdir c : replayed env call root c -> replayed env call workdir (set_cm_Dir workdir c).
Proof. intros (Hcall & Hp & Hd & Hs & Hu & He). do 5 (split; [done|]). exact He. Qed.

Lemma operationClass_spec env call workdir c :
  replayed env call workdir c -> shell_call call ->
  (Dialect.operationClass c = "workspace_upload"%string /\ call = Dialect.upload_argv /\
     Dialect.replayDisplayCommand c = ""%string) \/
  (Dialect.operationClass c = "exec"%string /\ call <> Dialect.upload_argv /\
     exists args, call = remoteShell :: "-c"%string :: Dialect.replayDisplayCommand c :: args).
Proof.
  intros (Hcall & Hp & _) (script & args & Hs & _). subst call. injection Hs as Hargs.
  unfold Dialect.replayDisplayCommand, Dialect.operationClass, Dialect.matchesExactArgv.
  rewrite Hp, String.eqb_refl. cbn [andb]. case_bool_decide as Hu; cbn [negb String.eqb].
  - left. split; [done|]. split; [by rewrite Hu|done].
  - right. split; [done|]. split; [intros [= H]; by rewrite H in Hu|].
    exists args. rewrite Hargs, String.eqb_refl. done.
Qed.

Lemma preparedFromArgv_as tokens runs root workdir suppressed :
  openclaw_tokens runs -> (suppressed = true <-> control tokens) ->
  exists prepared, Dialect.preparedFromArgv runs root suppressed = Some prepared /\
    let command := set_cm_Dir workdir (Dialect.pc_command prepared) in
    prepared_as workdir tokens runs
      {| pp_Command := command; pp_Action := if Dialect.pc_suppressed prepared then DrainOnly else Execute;
         pp_HashInput := Dialect.pc_encoded prepared; pp_Display := Dialect.replayDisplayCommand command;
         pp_OperationClass := Dialect.operationClass command; pp_RefusalClass := "exec";
         pp_WorkspaceHome := Dialect.pc_workspaceHome prepared;
         pp_Environment := sorted_keys (cm_Env command) |}.
Proof.
  intros Hruns Hcontrol.
  destruct (command_spec runs root Hruns) as (env & call & c & Hspell & Henv & Hcall & Hc & Hreplay).
  unfold Dialect.preparedFromArgv. rewrite Hc. eexists. split; [reflexivity|]. simpl.
  apply (replayed_dir env call root workdir) in Hreplay.
  exists env, call. split; [done|]. split; [done|]. split; [done|]. split.
  { simpl. destruct suppressed; [left|right]; (split; [done|]); [by apply Hcontrol|].
    intros H. apply Hcontrol in H. done. }
  split; [apply sorted_keys_sorted|]. split; [|by apply (operationClass_spec env call workdir)].
  destruct Hreplay as (_ & _ & _ & _ & _ & Hlook). intros name. simpl. rewrite elem_of_sorted_keys.
  split; intros [value Hv]; exists value; by apply Hlook.
Qed.

Lemma validates_not_control below tokens : validates below tokens -> ~ control tokens.
Proof. by intros [-> _] [H|[H|H]]; apply (f_equal (fun l => nth 3 l EmptyString)) in H. Qed.

(** What OpenClaw's dialect makes of a wire command.  It is rejected exactly if it is
    no canonical shell call; the dialect never runs off its tokens.  An accepted one
    runs /bin/sh in the sandbox's work directory with the arguments and, exactly, the
    environment the tokens give; the record has the sorted names of that environment,
    the script as text and the hash of what runs.  Only the three provider controls of
    the client's skills directory are drained instead of run, and only a validation of
    the virtual workspace is changed: it is run on the same path below the real root. *)
Theorem openclaw_prepare_faithful validationRoot encoded workdir :
  exists out, Dialect.Prepare validationRoot encoded workdir = Some out /\
  match out with
  | inl prepared => exists tokens runs,
      openclaw_tokens tokens /\ encoded = encodeCanonicalTokens tokens /\
      prepared_as workdir tokens runs prepared /\
      ((forall below, ~ validates below tokens) /\ runs = tokens \/
       exists below, validates below tokens /\
         runs = validated (if String.eqb validationRoot "" then workdir else validationRoot) below)
  | inr refusal => refusal = Dialect.rejected /\
      (ContainsByte encoded NUL = false -> forall tokens, openclaw_tokens tokens ->
         encoded <> encodeCanonicalTokens tokens)
  end.
Proof.
  unfold Dialect.Prepare. destruct (decodeRemoteCommand encoded) as [tokens|e] eqn:Hd.
  2: { eexists. split; [done|]. split; [done|]. intros Hnul tokens Ht Henc.
       pose proof (proj2 (openclaw_decode encoded tokens) (conj Henc (conj Hnul Ht))). congruence. }
  apply openclaw_decode in Hd as (Henc & _ & Ht). set (root := if String.eqb validationRoot "" then _ else _).
  unfold Dialect.prepareRemoteCommand. pose proof (validation_target_spec tokens) as Hv.
  destruct (Dialect.validation_target tokens) as [target|].
  - destruct Hv as (below & -> & Hv).
    assert (<[5%nat:=root]> (<[4%nat:=Dialect.real_target root (virtualWorkspace +:+ below)]> tokens) =
            validated root below) as ->.
    { destruct Hv as [-> _]. unfold Dialect.real_target, validated, TrimPrefix. by rewrite CutPrefix_app. }
    destruct (preparedFromArgv_as tokens (validated root below) root workdir false) as (prepared & -> & Hp).
    { left. eexists _, _. split; [reflexivity|]. done. }
    { split; [done|]. intros Hc. by destruct (validates_not_control below tokens Hv). }
    eexists. split; [reflexivity|]. exists tokens, (validated root below). split; [done|]. split; [done|].
    split; [exact Hp|]. right. by exists below.
  - set (suppressed := _ || _).
    destruct (preparedFromArgv_as tokens tokens root workdir suppressed) as (prepared & -> & Hp); [done| |].
    { unfold suppressed, Dialect.matchesExactArgv, control. rewrite !orb_true_iff, !bool_decide_eq_true. tauto. }
    eexists. split; [reflexivity|]. exists tokens, tokens. split; [done|]. split; [done|].
    split; [exact Hp|]. by left.
Qed.

(** * The server *)

(** [Server]: its manager and the validation root of its dialect.  [exec] is the target's
    [ExecStream] with its results, its output and its error output. *)
Module Server.
Record Server := { sv_used : bool; sv_validationRoot : string; sv_manager : Manager }.
Definition workspace_command (workdir : string) : Command :=
  {| cm_Path := remoteShell;
     cm_Args := ["-c"%string; prepareWorkspaceScript; "aries-openclaw-workspace"%string; workdir; virtualWorkspace];
     cm_Dir := "/"; cm_Env := ∅; cm_Stdin := []; cm_Timeout := 0; cm_User := "0:0"; cm_OutputLimitBytes := 0 |}.
Definition StartTarget (o : SshManager.Options) (hasTarget : bool)
    (exec : Command -> CommandResult * error * string * string) (a : start_answers) (s : Server) :
    output * Server :=
  if sv_used s then (StartFailed (Some (ENew "OpenClaw bridge is already used or revoked")), s)
  else
    let s := {| sv_used := true; sv_validationRoot := sv_validationRoot s; sv_manager := sv_manager s |} in
    if negb hasTarget then (StartFailed (Some (ENew "OpenClaw bridge target is required")), s)
    else
      let '(result, e, stdout, stderr) := exec (workspace_command (op_Workdir o)) in
      match e with
      | Some e => (StartFailed (Some (EWrap "prepare OpenClaw workspace alias" e)), s)
      | None =>
          if negb (cr_ExitCode result =? 0)
          then (StartFailed (Some (ENew ("prepare OpenClaw workspace alias: exit " +:+
                  itoa (cr_ExitCode result) +:+ ": " +:+ TrimSpace stderr))), s)
          else
            let root := TrimSuffix stdout nl in
            let s := {| sv_used := true; sv_validationRoot := root; sv_manager := sv_manager s |} in
            if negb (HasPrefix root "/")
            then (StartFailed (Some (ENew "OpenClaw workspace setup returned no absolute directory")), s)
            else
              let (out, manager) := SshManager.StartTarget o true a (sv_manager s) in
              (out, {| sv_used := true; sv_validationRoot := root; sv_manager := manager |})
      end.
End Server.

(** The bridge is started only behind a workspace alias that was made: once, as root, by
    the script, whose output is the absolute root the dialect validates. *)
Lemma openclaw_server_starts o hasTarget exec a s out s' :
  Server.StartTarget o hasTarget exec a s = (out, s') ->
  Server.sv_used s' = true /\
  (Server.sv_manager s' = Server.sv_manager s /\ (exists e, out = StartFailed (Some e)) \/
   Server.sv_used s = false /\ hasTarget = true /\
   exists result stderr stdout,
     exec (Server.workspace_command (op_Workdir o)) = (result, None, stdout, stderr) /\
     cr_ExitCode result = 0 /\ Server.sv_validationRoot s' = TrimSuffix stdout nl /\
     HasPrefix (Server.sv_validationRoot s') "/" = true /\
     SshManager.StartTarget o true a (Server.sv_manager s) = (out, Server.sv_manager s')).
Proof.
  unfold Server.StartTarget. destruct (Server.sv_used s) eqn:Hu.
  { intros [= <- <-]. split; [done|]. left. split; [done|]. by eexists. }
  destruct hasTarget; simpl; [|intros [= <- <-]; split; [done|]; left; split; [done|]; by eexists].
  destruct (exec _) as [[[result [e|]] stdout] stderr] eqn:Hexec.
  { intros [= <- <-]. split; [done|]. left. split; [done|]. by eexists. }
  destruct (Z.eqb_spec (cr_ExitCode result) 0) as [H0|]; simpl.
  2: { intros [= <- <-]. split; [done|]. left. split; [done|]. by eexists. }
  destruct (HasPrefix _ "/") eqn:Hp; simpl.
  2: { intros [= <- <-]. split; [done|]. left. split; [done|]. by eexists. }
  destruct (SshManager.StartTarget o true a (Server.sv_manager s)) as [out1 manager] eqn:Hstart.
  intros [= <- <-]. split; [done|]. right. split; [done|]. split; [done|].
  exists result, stderr, stdout. by split_and!.
Qed.
