(* ===== verification/Sandbox.v ===== *)
(** The sandbox component: the policy on identities, environments and commands, the
    lifecycle of a sandbox and its manager ([pkg/sandbox/sandbox.go] and bridge.go)
    and the image references they accept ([pkg/containerimage/image.go]). *)

From stdpp Require Import sorting.
From S2P Require Import Prelude Utf8 Trace Paths Core AuditText.

(** [cleanContainerWorkdir] and [cleanContainerPath]. *)
Definition cleanContainerWorkdir (path : string) : string + err :=
  if String.eqb path "" || ContainsByte path NUL || negb (HasPrefix path "/")
  then inr (ENew "path must be absolute, nonempty, and NUL-free")
  else
    let clean := Clean path in
    if negb (String.eqb clean path) then inr (ENew "path must be clean") else inl clean.
Definition cleanContainerPath (path : string) : string + err :=
  match cleanContainerWorkdir path with
  | inr e => inr e
  | inl clean =>
      if String.eqb clean "/" then inr (ENew "path must not be the container root") else inl clean
  end.

(** * Commands *)

(** [strconv.ParseUint(s, 10, 32)]: whether it gives no error. *)
Definition parses_uint32 (s : string) : bool :=
  negb (String.eqb s "") && forallb is_digit (to_bytes s) &&
  (Z.of_N (dec_value 0 s) <? 2 ^ 32).

(** [validateExecUser]. *)
Definition validateExecUser (value : string) : error :=
  if String.eqb value "" then None
  else match Cut value ":" with
       | Some (uid, gid) =>
           refuse_if (negb (parses_uint32 uid) || negb (parses_uint32 gid))
             with "exec user must be a numeric UID:GID pair"
       | None => Some (ENew "exec user must be a numeric UID:GID pair")
       end.

(** [validEnvName] of this package: as [core.validEnvName]. *)
Definition sandbox_validEnvName (value : string) : bool := validEnvName value.

Definition maxExecInput : Z := 16 * 2 ^ 20.
Definition maxConfiguredOutput : Z := 2 ^ 30.

Definition error_of {A} (r : A + err) : error :=
  match r with inl _ => None | inr e => Some e end.

(** [validateCommand].  The environment is visited in the order of [map_to_list];
    Go's is unspecified, and only which error comes first depends on it. *)
Definition check_env (text : string) (kv : string * string) : error :=
  refuse_if (negb (sandbox_validEnvName kv.1) || ContainsByte kv.2 NUL)
    with ("invalid " +:+ text +:+ " environment " +:+ quote kv.1).
Definition validateCommand (command : Command) : error :=
  wrap "invalid command path" (error_of (cleanContainerPath (cm_Path command))) >>?
  (if String.eqb (cm_Dir command) "" then None
   else wrap "invalid command workdir" (error_of (cleanContainerWorkdir (cm_Dir command)))) >>?
  wrap "invalid command user" (validateExecUser (cm_User command)) >>?
  (refuse_if (cm_Timeout command <? 0) with "command timeout must be nonnegative") >>?
  (refuse_if ((cm_OutputLimitBytes command <? 0) || (maxConfiguredOutput <? cm_OutputLimitBytes command))
     with ("command output limit must be between 0 and " +:+ itoa maxConfiguredOutput +:+ " bytes")) >>?
  first_error (fun argument =>
    refuse_if (ContainsByte argument NUL) with "command argument contains NUL") (cm_Args command) >>?
  first_error (check_env "command") (map_to_list (cm_Env command)).

(** [PrepareCommand] (bridge.go). *)
Definition PrepareCommand (command : Command) (workdir user : string) : Command + err :=
  match validateCommand command with
  | Some e => inr e
  | None =>
      let command := if String.eqb (cm_Dir command) "" then set_cm_Dir workdir command else command in
      let command := if String.eqb (cm_User command) "" then set_cm_User user command else command in
      match validateCommand command with
      | Some e => inr e
      | None => inl command
      end
  end.

(** * Identities and environments *)

(** [validateIdentity]; a rune outside ASCII is refused like each of its bytes. *)
Definition identity_byte (first : bool) (c : ascii) : bool :=
  is_alnum c || negb first &&
    (Ascii.eqb c "-" || Ascii.eqb c "_" || Ascii.eqb c ".").
Definition validateIdentity (kind value : string) : error :=
  let limit := if String.eqb kind "task" then 149 else 128 in
  (refuse_if (String.eqb value "" || (limit <? len value))
     with ("sandbox " +:+ kind +:+ " ID must contain 1 to " +:+ itoa limit +:+ " characters")) >>?
  (refuse_if negb (match to_bytes value with
                   | [] => true
                   | c :: rest => identity_byte true c && forallb (identity_byte false) rest
                   end)
     with ("sandbox " +:+ kind +:+ " ID " +:+ quote value +:+ " contains an unsafe character")).

(** What [reference.ParseNormalizedNamed] gives: the tag, and the digest as its
    algorithm, its encoding and what [Digest.Validate] says of it. *)
Record Digest := { dg_Algorithm : string; dg_Encoded : string; dg_Validate : error }.
Record Named := { nm_Tag : option string; nm_Digest : option Digest }.

Section Images.
Variable ParseNormalizedNamed : string -> Named + err.

(** [containerimage.Validate], with [parse]. *)
Definition image_Validate (value : string) : error :=
  match ParseNormalizedNamed value with
  | inr e => Some (EWrap "invalid image reference" e)
  | inl named =>
      match nm_Digest named with
      | None => Some (ENew "image must be pinned by digest")
      | Some pin =>
          if negb (String.eqb (dg_Algorithm pin) "sha256") || negb (len (dg_Encoded pin) =? 64)
          then Some (ENew "image must use a full sha256 digest")
          else wrap "invalid image digest" (dg_Validate pin)
      end
  end.

(** [containerimage.ValidateTagOnly] and [ValidatePinnedTagOnly]. *)
Definition ValidateTagOnly (value : string) : string + err :=
  let trimmed := TrimSpace value in
  if String.eqb trimmed "" then inr (ENew "image is required")
  else match ParseNormalizedNamed trimmed with
  | inr e => inr (EWrap "invalid image reference" e)
  | inl named =>
      if bool_decide (is_Some (nm_Digest named))
      then inr (ENew "image must be pinned by tag only, not digest")
      else match nm_Tag named with
           | None => inr (ENew "image must include an explicit tag")
           | Some _ => inl trimmed
           end
  end.
Definition ValidatePinnedTagOnly (value : string) : error :=
  match ValidateTagOnly value with
  | inr e => Some e
  | inl validated =>
      if negb (String.eqb validated value)
      then Some (ENew "image must not contain surrounding whitespace")
      else match ParseNormalizedNamed value with
      | inr e => Some (EWrap "invalid image reference" e)
      | inl named =>
          refuse_if (bool_decide (nm_Tag named = Some "latest"%string))
            with "image tag must not be latest"
      end
  end.

(** [validatePullImage]. *)
Definition validatePullImage (image : string) : error :=
  match image_Validate image with
  | None => None
  | Some _ =>
      match ValidateTagOnly image with
      | inr e => Some e
      | inl tagged =>
          refuse_if (negb (String.eqb tagged image))
            with "image must not contain surrounding whitespace"
      end
  end.

(** [validateEnvironment]. *)
Definition check_mcp_service (service : TaskMCPService) : error :=
  refuse_if (String.eqb (ms_Name service) "" || (ms_Port service <=? 0) ||
             (65535 <? ms_Port service) ||
             (negb (String.eqb (ms_Path service) "") && negb (HasPrefix (ms_Path service) "/")))
    with ("invalid task MCP service " +:+ quote (ms_Name service)).
Definition validateEnvironment (environment : Environment) : error :=
  let services := en_Services environment in
  let cpu := en_CPU environment in
  (refuse_if ((ts_SearchPort services <? 0) || (65535 <? ts_SearchPort services))
     with "invalid task search service port") >>?
  first_error check_mcp_service (ts_MCP services) >>?
  wrap "invalid sandbox image" (validatePullImage (en_Image environment)) >>?
  (if String.eqb (en_Workdir environment) "" then None
   else wrap "invalid sandbox workdir" (error_of (cleanContainerWorkdir (en_Workdir environment)))) >>?
  wrap "invalid sandbox exec user" (validateExecUser (en_ExecUser environment)) >>?
  (refuse_if (f64_ltb cpu f64_zero || IsNaN cpu || IsInf cpu ||
              f64_leb (f64_of_Z (2 ^ 63)) (f64_mul cpu (f64_of_Z (10 ^ 9))))
     with "sandbox CPU must be finite, nonnegative, and convert to NanoCPUs below 2^63") >>?
  (refuse_if ((en_MemoryMB environment <? 0) || (Z.shiftr max_int64 20 <? en_MemoryMB environment) ||
              (en_StorageMB environment <? 0) || (en_GPUs environment <? 0))
     with "sandbox memory, storage, and GPU counts must be nonnegative") >>?
  first_error (check_env "sandbox") (map_to_list (en_Env environment)).
End Images.

(** * The lifecycle *)

(** [deployment.Request], the fields a sandbox sets. *)
Record DeploymentRequest := {
  dr_Name : string;
  dr_Image : string;
  dr_Workdir : string;
  dr_Env : list string;
  dr_Entrypoint : list string;
  dr_Args : list string;
  dr_Labels : gmap string string;
  dr_Placement : RuntimePlacement;
  dr_StorageMB : Z;
  dr_GPUs : Z;
  dr_Init : bool;
  dr_NoNewPrivileges : bool;
  dr_AllowImageVolumes : bool;
  dr_CPU : option float64;
  dr_MemoryMB : option Z
}.

(** [deployment.Deployment], the methods a sandbox calls. *)
Record Deployment (W : Type) := {
  dp_Create : Ctx -> DeploymentRequest -> M W (string * error);
  dp_Validate : Ctx -> string -> DeploymentRequest -> M W error;
  dp_Start : Ctx -> string -> M W error;
  dp_Running : Ctx -> string -> M W (bool * error);
  dp_Exec : Ctx -> string -> Command -> M W (CommandResult * error);
  dp_Stop : Ctx -> string -> M W error;
  dp_LogsStream : Ctx -> string -> M W error;
  dp_Close : M W error
}.
Arguments dp_Create {W}.
Arguments dp_Validate {W}.
Arguments dp_Start {W}.
Arguments dp_Running {W}.
Arguments dp_Exec {W}.
Arguments dp_Stop {W}.
Arguments dp_LogsStream {W}.
Arguments dp_Close {W}.

(** [deployment.TaskEnvironment]. *)
Record TaskEnvironment (W : Type) := {
  tv_Start : Ctx -> SandboxRequest -> string -> M W (HarnessConnectivity * error);
  tv_Validate : Ctx -> M W error;
  tv_Stop : Ctx -> M W error
}.
Arguments tv_Start {W}.
Arguments tv_Validate {W}.
Arguments tv_Stop {W}.

(** [Sandbox]; its [owner] and its [deployment] are the manager's. *)
Record Sandbox (W : Type) := {
  sb_containerID : string;
  sb_containerName : string;
  sb_connectivity : option HarnessConnectivity;
  sb_environment : TaskEnvironment W;
  sb_workdir : string;
  sb_execUser : string;
  sb_artifactDir : string;
  sb_outputDir : string;
  sb_cleanupTimeout : Z;
  sb_runID : string;
  sb_taskID : string;
  sb_containerOwned : bool;
  sb_environmentOwned : bool;
  sb_stopped : bool;
  sb_stopping : bool;
  sb_stopErr : error
}.
Arguments sb_containerID {W}.
Arguments sb_containerName {W}.
Arguments sb_connectivity {W}.
Arguments sb_environment {W}.
Arguments sb_workdir {W}.
Arguments sb_execUser {W}.
Arguments sb_artifactDir {W}.
Arguments sb_outputDir {W}.
Arguments sb_cleanupTimeout {W}.
Arguments sb_runID {W}.
Arguments sb_taskID {W}.
Arguments sb_containerOwned {W}.
Arguments sb_environmentOwned {W}.
Arguments sb_stopped {W}.
Arguments sb_stopping {W}.
Arguments sb_stopErr {W}.

Definition set_sb_connectivity {W} (connectivity : option HarnessConnectivity) (s : Sandbox W) : Sandbox W :=
  {| sb_containerID := sb_containerID s;
     sb_containerName := sb_containerName s;
     sb_connectivity := connectivity;
     sb_environment := sb_environment s;
     sb_workdir := sb_workdir s;
     sb_execUser := sb_execUser s;
     sb_artifactDir := sb_artifactDir s;
     sb_outputDir := sb_outputDir s;
     sb_cleanupTimeout := sb_cleanupTimeout s;
     sb_runID := sb_runID s;
     sb_taskID := sb_taskID s;
     sb_containerOwned := sb_containerOwned s;
     sb_environmentOwned := sb_environmentOwned s;
     sb_stopped := sb_stopped s;
     sb_stopping := sb_stopping s;
     sb_stopErr := sb_stopErr s |}.
Definition set_sb_workdir {W} (workdir : string) (s : Sandbox W) : Sandbox W :=
  {| sb_containerID := sb_containerID s;
     sb_containerName := sb_containerName s;
     sb_connectivity := sb_connectivity s;
     sb_environment := sb_environment s;
     sb_workdir := workdir;
     sb_execUser := sb_execUser s;
     sb_artifactDir := sb_artifactDir s;
     sb_outputDir := sb_outputDir s;
     sb_cleanupTimeout := sb_cleanupTimeout s;
     sb_runID := sb_runID s;
     sb_taskID := sb_taskID s;
     sb_containerOwned := sb_containerOwned s;
     sb_environmentOwned := sb_environmentOwned s;
     sb_stopped := sb_stopped s;
     sb_stopping := sb_stopping s;
     sb_stopErr := sb_stopErr s |}.
Definition set_sb_container {W} (containerID : string) (containerOwned : bool) (s : Sandbox W) : Sandbox W :=
  {| sb_containerID := containerID;
     sb_containerName := sb_containerName s;
     sb_connectivity := sb_connectivity s;
     sb_environment := sb_environment s;
     sb_workdir := sb_workdir s;
     sb_execUser := sb_execUser s;
     sb_artifactDir := sb_artifactDir s;
     sb_outputDir := sb_outputDir s;
     sb_cleanupTimeout := sb_cleanupTimeout s;
     sb_runID := sb_runID s;
     sb_taskID := sb_taskID s;
     sb_containerOwned := containerOwned;
     sb_environmentOwned := sb_environmentOwned s;
     sb_stopped := sb_stopped s;
     sb_stopping := sb_stopping s;
     sb_stopErr := sb_stopErr s |}.
Definition set_sb_containerOwned {W} (containerOwned : bool) (s : Sandbox W) : Sandbox W :=
  {| sb_containerID := sb_containerID s;
     sb_containerName := sb_containerName s;
     sb_connectivity := sb_connectivity s;
     sb_environment := sb_environment s;
     sb_workdir := sb_workdir s;
     sb_execUser := sb_execUser s;
     sb_artifactDir := sb_artifactDir s;
     sb_outputDir := sb_outputDir s;
     sb_cleanupTimeout := sb_cleanupTimeout s;
     sb_runID := sb_runID s;
     sb_taskID := sb_taskID s;
     sb_containerOwned := containerOwned;
     sb_environmentOwned := sb_environmentOwned s;
     sb_stopped := sb_stopped s;
     sb_stopping := sb_stopping s;
     sb_stopErr := sb_stopErr s |}.
Definition set_sb_environmentOwned {W} (environmentOwned : bool) (s : Sandbox W) : Sandbox W :=
  {| sb_containerID := sb_containerID s;
     sb_containerName := sb_containerName s;
     sb_connectivity := sb_connectivity s;
     sb_environment := sb_environment s;
     sb_workdir := sb_workdir s;
     sb_execUser := sb_execUser s;
     sb_artifactDir := sb_artifactDir s;
     sb_outputDir := sb_outputDir s;
     sb_cleanupTimeout := sb_cleanupTimeout s;
     sb_runID := sb_runID s;
     sb_taskID := sb_taskID s;
     sb_containerOwned := sb_containerOwned s;
     sb_environmentOwned := environmentOwned;
     sb_stopped := sb_stopped s;
     sb_stopping := sb_stopping s;
     sb_stopErr := sb_stopErr s |}.
Definition set_sb_stop {W} (stopping : bool) (stopErr : error) (stopped : bool) (s : Sandbox W) : Sandbox W :=
  {| sb_containerID := sb_containerID s;
     sb_containerName := sb_containerName s;
     sb_connectivity := sb_connectivity s;
     sb_environment := sb_environment s;
     sb_workdir := sb_workdir s;
     sb_execUser := sb_execUser s;
     sb_artifactDir := sb_artifactDir s;
     sb_outputDir := sb_outputDir s;
     sb_cleanupTimeout := sb_cleanupTimeout s;
     sb_runID := sb_runID s;
     sb_taskID := sb_taskID s;
     sb_containerOwned := sb_containerOwned s;
     sb_environmentOwned := sb_environmentOwned s;
     sb_stopped := stopped;
     sb_stopping := stopping;
     sb_stopErr := stopErr |}.

(** [Manager], with what it calls outside the program: its deployment, the file
    system, the random ids and the environment variable TZ.  The pending sandboxes
    are a list; Go visits that map in an unspecified order. *)
Record Manager (W : Type) := {
  mg_deployment : Deployment W;
  mg_newEnvironment : M W (option (TaskEnvironment W));
  mg_outputDir : string;
  mg_cleanupTimeout : Z;
  mg_newID : M W (string + err);
  mg_MkdirAll : string -> M W error;
  mg_OpenLog : string -> M W error;
  mg_Getenv_TZ : M W string;
  mg_ParseNormalizedNamed : string -> Named + err
}.
Arguments mg_deployment {W}.
Arguments mg_newEnvironment {W}.
Arguments mg_outputDir {W}.
Arguments mg_cleanupTimeout {W}.
Arguments mg_newID {W}.
Arguments mg_MkdirAll {W}.
Arguments mg_OpenLog {W}.
Arguments mg_Getenv_TZ {W}.
Arguments mg_ParseNormalizedNamed {W}.

(** The part of a manager's state that changes. *)
Record ManagerState (W : Type) := {
  ms_pending : list (Sandbox W);
  ms_closed : option error             (* closeOnce has run, with closeErr *)
}.
Arguments ms_pending {W}.
Arguments ms_closed {W}.
Definition set_ms_pending {W} (pending : list (Sandbox W)) (m : ManagerState W) : ManagerState W :=
  {| ms_pending := pending; ms_closed := ms_closed m |}.

(** [sandboxComponent] and [ownershipLabels]. *)
Definition sandboxComponent (request : SandboxRequest) : string :=
  if String.eqb (sr_Purpose request) SandboxPurposeEvaluation then "evaluation-sandbox" else "sandbox".
Definition ownershipLabels (request : SandboxRequest) (kind : string) : gmap string string :=
  let labels : gmap string string :=
    {[ "aries.managed" := "true"; "aries.kind" := kind; "aries.run" := sr_RunID request;
       "aries.task" := sr_TaskID request ]}%string in
  if String.eqb kind "task-container"
  then <["aries.component"%string := sandboxComponent request]> labels else labels.

(** [deploymentEnvironment] and [taskEnvironment]. *)
Definition deploymentEnvironment (values : gmap string string) : list string :=
  map (fun key => key +:+ "=" +:+ default "" (values !! key))%string
    (sorted_keys values).
Definition taskEnvironment (tz : string) (values : gmap string string) : list string :=
  let timezone := if String.eqb tz "" then "UTC"%string else tz in
  deploymentEnvironment
    (<["DEBIAN_FRONTEND" := "noninteractive"]> (<["TZ" := timezone]> values))%string.

Section Lifecycle.
Context {W : Type}.
Variable m : Manager W.
Let deployment := mg_deployment m.

(** [collectLogs]; the log files are created, written by the stream and closed. *)
Definition collectLogs (ctx : Ctx) (s : Sandbox W) : M W error :=
  let* e := mg_OpenLog m (sb_artifactDir s +:+ "/container.stdout.log") in
  match e with
  | Some e => ret (Some (EWrap "create sandbox task stdout log" e))
  | None =>
      let* e := mg_OpenLog m (sb_artifactDir s +:+ "/container.stderr.log") in
      match e with
      | Some e => ret (Some (EWrap "create sandbox task stderr log" e))
      | None =>
          let* e := dp_LogsStream deployment ctx (sb_containerID s) in
          ret (if error_Is e ErrNotFound then None else e)
      end
  end.

(** [stopOnce]: the container, and then, once it is gone, the environment. *)
Definition stop_container (ctx : Ctx) (collect : bool) (s : Sandbox W) :
    M W (list error * Sandbox W) :=
  if sb_containerOwned s then
    let* logs := if collect then collectLogs ctx s else ret None in
    let* e := dp_Stop deployment ctx (sb_containerID s) in
    ret ([logs; wrap "stop task container" e],
         match e with Some _ => s | None => set_sb_containerOwned false s end)
  else ret ([], s).
Definition stop_environment (ctx : Ctx) (environmentOwned : bool) (errs : list error)
    (s : Sandbox W) : M W (error * Sandbox W) :=
  if environmentOwned && negb (sb_containerOwned s) then
    let* e := tv_Stop (sb_environment s) ctx in
    ret (errors_Join (errs ++ [wrap "stop task network" e]),
         match e with Some _ => s | None => set_sb_environmentOwned false s end)
  else ret (errors_Join errs, s).
Definition stopOnce (ctx : Ctx) (collect : bool) (s : Sandbox W) : M W (error * Sandbox W) :=
  let environmentOwned := sb_environmentOwned s in
  let* (errs, s) := stop_container ctx collect s in
  stop_environment ctx environmentOwned errs s.

(** [rollbackStart]. *)
Definition rollbackStart (ctx : Ctx) (primary : error) (s : Sandbox W) (st : ManagerState W) :
    M W (option (Sandbox W) * error * ManagerState W) :=
  let* (e, s) := stopOnce (WithTimeout (WithoutCancel ctx) (sb_cleanupTimeout s)) false s in
  match e with
  | Some _ =>
      ret (None, errors_Join [primary; wrap "rollback partial sandbox" e],
           set_ms_pending (ms_pending st ++ [s]) st)
  | None => ret (None, primary, st)
  end.

(** The request a sandbox makes of its deployment. *)
Definition deployment_request (request : SandboxRequest) (tz : string) (s : Sandbox W)
    (placement : RuntimePlacement) : DeploymentRequest :=
  let env := sr_Environment request in
  {| dr_Name := sb_containerName s; dr_Image := en_Image env; dr_Workdir := en_Workdir env;
     dr_Env := taskEnvironment tz (en_Env env);
     dr_Entrypoint := ["/bin/sleep"%string]; dr_Args := ["infinity"%string];
     dr_Labels := ownershipLabels request "task-container"; dr_Placement := placement;
     dr_StorageMB := en_StorageMB env; dr_GPUs := en_GPUs env; dr_Init := true;
     dr_NoNewPrivileges := negb (String.eqb (en_ExecUser env) "");
     dr_AllowImageVolumes := true;
     dr_CPU := if f64_ltb f64_zero (en_CPU env) then Some (en_CPU env) else None;
     dr_MemoryMB := if 0 <? en_MemoryMB env then Some (en_MemoryMB env) else None |}.

Definition pwd_command (s : Sandbox W) : Command :=
  {| cm_Path := "/bin/sh"; cm_Args := ["-c"; "pwd -P"]%string; cm_Dir := ""; cm_Env := ∅;
     cm_Stdin := []; cm_Timeout := 0; cm_User := sb_execUser s; cm_OutputLimitBytes := 0 |}.

(** The image's working directory, where the task names none. *)
Definition resolve_workdir (ctx : Ctx) (s : Sandbox W) : M W (error * Sandbox W) :=
  if negb (String.eqb (sb_workdir s) "") then ret (None, s)
  else
    let* (result, e) := dp_Exec deployment ctx (sb_containerID s) (pwd_command s) in
    match e with
    | Some e => ret (Some (EWrap "resolve image working directory" e), s)
    | None =>
        match CutSuffix (cr_Stdout result) nl with
        | Some workdir =>
            if negb (cr_ExitCode result =? 0)
            then ret (Some (ENew "resolve image working directory: pwd failed or returned incomplete output"), s)
            else match cleanContainerWorkdir workdir with
                 | inr e => ret (Some (EWrap "resolve image working directory" e), s)
                 | inl _ => ret (None, set_sb_workdir workdir s)
                 end
        | None =>
            ret (Some (ENew "resolve image working directory: pwd failed or returned incomplete output"), s)
        end
    end.

(** [Start] once the container exists: its checks, up to the first that fails. *)
Definition bring_up (ctx : Ctx) (request : DeploymentRequest) (s : Sandbox W) :
    M W (error * Sandbox W) :=
  let id := sb_containerID s in
  let* e := dp_Validate deployment ctx id request in
  match e with Some _ => ret (e, s) | None =>
  let* e := dp_Start deployment ctx id in
  match e with Some _ => ret (e, s) | None =>
  let* (running, e) := dp_Running deployment ctx id in
  match e with Some _ => ret (e, s) | None =>
  if negb running then ret (Some (ENew "task container is not running"), s) else
  let* e := dp_Validate deployment ctx id request in
  match e with Some _ => ret (e, s) | None =>
  let* e := tv_Validate (sb_environment s) ctx in
  match e with Some _ => ret (e, s) | None =>
  resolve_workdir ctx s
  end end end end end.

(** [Start] once there is an environment object: the first error, and the sandbox
    with what it owns then. *)
Definition acquire (ctx : Ctx) (request : SandboxRequest) (s : Sandbox W) :
    M W (error * Sandbox W) :=
  let* (connectivity, e) := tv_Start (sb_environment s) ctx request (sb_containerName s) in
  let s := set_sb_connectivity (Some connectivity) s in
  match e with Some e => ret (Some (EWrap "start task environment" e), s) | None =>
  let* e := tv_Validate (sb_environment s) ctx in
  match e with Some _ => ret (e, s) | None =>
  let* tz := mg_Getenv_TZ m in
  let deploymentRequest := deployment_request request tz s (hc_Placement connectivity) in
  let* (id, e) := dp_Create deployment ctx deploymentRequest in
  let s := set_sb_container id (negb (String.eqb id "")) s in
  match e with Some e => ret (Some (EWrap "create task container" e), s) | None =>
  if String.eqb id ""
  then ret (Some (ENew "create task container: deployment returned an empty container ID"), s)
  else bring_up ctx deploymentRequest s
  end end end.

(** [Manager.Start]. *)
Definition new_sandbox (request : SandboxRequest) (id : string) (environment : TaskEnvironment W) :
    Sandbox W :=
  {| sb_containerID := ""; sb_containerName := RuntimeName "sandbox" (sr_TaskID request) id;
     sb_connectivity := None; sb_environment := environment;
     sb_workdir := en_Workdir (sr_Environment request);
     sb_execUser := en_ExecUser (sr_Environment request);
     sb_artifactDir := Join [mg_outputDir m; sr_TaskID request; sandboxComponent request];
     sb_outputDir := mg_outputDir m; sb_cleanupTimeout := mg_cleanupTimeout m;
     sb_runID := sr_RunID request; sb_taskID := sr_TaskID request;
     sb_containerOwned := false; sb_environmentOwned := true; sb_stopped := false;
     sb_stopping := false; sb_stopErr := None |}.
Definition validate_request (request : SandboxRequest) : error :=
  validateIdentity "run" (sr_RunID request) >>?
  validateIdentity "task" (sr_TaskID request) >>?
  (refuse_if negb (String.eqb (sr_Purpose request) "") &&
             negb (String.eqb (sr_Purpose request) SandboxPurposeEvaluation)
     with ("unsupported sandbox purpose " +:+ quote (sr_Purpose request))) >>?
  validateEnvironment (mg_ParseNormalizedNamed m) (sr_Environment request).
Definition Start (ctx : Ctx) (request : SandboxRequest) (st : ManagerState W) :
    M W (option (Sandbox W) * error * ManagerState W) :=
  match validate_request request with
  | Some e => ret (None, Some e, st)
  | None =>
      let* id := mg_newID m in
      match id with
      | inr e => ret (None, Some (EWrap "generate sandbox ID" e), st)
      | inl id =>
          let artifactDir := Join [mg_outputDir m; sr_TaskID request; sandboxComponent request] in
          let* e := mg_MkdirAll m artifactDir in
          match e with
          | Some e => ret (None, Some (EWrap "create sandbox artifact directory" e), st)
          | None =>
              let* environment := mg_newEnvironment m in
              match environment with
              | None => ret (None, Some (ENew "sandbox task environment constructor returned nil"), st)
              | Some environment =>
                  let* (e, s) := acquire ctx request (new_sandbox request id environment) in
                  match e with
                  | Some _ => rollbackStart ctx e s st
                  | None => ret (Some s, None, st)
                  end
              end
          end
      end
  end.

(** [Sandbox.stop], by a caller that finds no other stop under way; one that does
    waits for its error. *)
Definition stop (ctx : Ctx) (s : Sandbox W) : M W (error * Sandbox W) :=
  if sb_stopped s then ret (None, s)
  else
    let* (e, s) := stopOnce ctx true s in
    ret (e, set_sb_stop false e (negb (sb_containerOwned s) && negb (sb_environmentOwned s)) s).

(** [Manager.Close]. *)
Fixpoint close_pending (pending : list (Sandbox W)) : M W (list error * list (Sandbox W)) :=
  match pending with
  | [] => ret ([], [])
  | s :: pending =>
      let* (e, s) := stopOnce (WithTimeout Background (mg_cleanupTimeout m)) false s in
      let* (errs, remaining) := close_pending pending in
      ret (match e with
           | Some _ => (e :: errs, s :: remaining)
           | None => (errs, remaining)
           end)
  end.
Definition Close (st : ManagerState W) : M W (error * ManagerState W) :=
  let* (errs, remaining) := close_pending (ms_pending st) in
  let st := set_ms_pending remaining st in
  match errors_Join errs with
  | Some e => ret (Some e, st)
  | None =>
      match ms_closed st with
      | Some e => ret (e, st)
      | None =>
          let* e := dp_Close deployment in
          ret (e, {| ms_pending := ms_pending st; ms_closed := Some e |})
      end
  end.

(** [ExportBridgeTarget] (bridge.go); [backend] is what the deployment's
    [BridgeBackend] gives, if it has one. *)
Definition ExportBridgeTarget (backend : option string) (s : Sandbox W) : BridgeTarget + err :=
  if negb (sb_containerOwned s) || sb_stopping s || sb_stopped s
  then inr (ENew "sandbox is not available for bridge assignment")
  else match backend with
  | None => inr (ENew "sandbox deployment does not support borrowed execution")
  | Some backend =>
      inl {| bt_SandboxID := sb_containerName s; bt_RunID := sb_runID s; bt_TaskID := sb_taskID s;
             bt_Backend := backend; bt_RuntimeID := sb_containerID s; bt_Workdir := sb_workdir s;
             bt_ExecUser := sb_execUser s |}
  end.
End Lifecycle.

(** * Accepted paths, users and commands *)

Lemma cleanContainerWorkdir_spec path :
  cleanContainerWorkdir path = inl path <-> clean_path path /\ ContainsByte path NUL = false.
Proof.
  unfold cleanContainerWorkdir. split.
  - destruct (_ || negb _) eqn:Hg; [done|]. apply orb_false_iff in Hg as [Hg Hroot].
    apply orb_false_iff in Hg as [_ Hnul]. apply negb_false_iff in Hroot.
    destruct (String.eqb_spec (Clean path) path) as [Heq|]; [|done]. intros _.
    split; [|done]. rewrite <- Heq. by apply Clean_is_clean.
  - intros [Hc Hnul]. destruct (clean_path_rooted path Hc) as [Hne Hroot].
    rewrite (proj2 (String.eqb_neq _ _) Hne), Hnul, Hroot. simpl.
    by rewrite (Clean_fixes path Hc), String.eqb_refl.
Qed.

Lemma cleanContainerWorkdir_same path clean : cleanContainerWorkdir path = inl clean -> clean = path.
Proof.
  unfold cleanContainerWorkdir. destruct (_ || negb _); [done|].
  destruct (String.eqb_spec (Clean path) path); [|done]. by intros [= <-].
Qed.

(** A path into a container is accepted exactly when it is absolute, free of NUL
    and already clean: the root excepted, it is a sequence of components, none
    empty, a dot or two dots; so it names what it reads as, and nothing above it. *)
Theorem cleanContainerPath_spec (path : string) :
  match cleanContainerPath path with
  | inl clean => clean = path /\ clean_path path /\ path <> "/"%string /\ ContainsByte path NUL = false
  | inr _ => path = "/"%string \/ ~ clean_path path \/ ContainsByte path NUL = true
  end.
Proof.
  unfold cleanContainerPath. destruct (cleanContainerWorkdir path) as [clean|e] eqn:Hc.
  - assert (clean = path) as -> by (by apply cleanContainerWorkdir_same).
    apply cleanContainerWorkdir_spec in Hc as [Hc Hn].
    destruct (String.eqb_spec path "/"); [by left|done].
  - right. destruct (ContainsByte path NUL) eqn:Hn; [by right|left]. intros Hcl.
    by rewrite (proj2 (cleanContainerWorkdir_spec path) (conj Hcl Hn)) in Hc.
Qed.

(** A decimal number below 2^32. *)
Definition uint32_text (s : string) : Prop :=
  s <> ""%string /\ Forall (fun c => is_digit c = true) (to_bytes s) /\
  Z.of_N (dec_value 0 s) < 2 ^ 32.

Lemma parses_uint32_spec s : parses_uint32 s = true <-> uint32_text s.
Proof.
  unfold parses_uint32, uint32_text. rewrite !andb_true_iff, negb_true_iff, String.eqb_neq, forallb_Forall.
  rewrite Z.ltb_lt. tauto.
Qed.

(** The user a command runs as is the image's, or a pair of decimal numbers that
    each fit in 32 bits, so that none can wrap around to root. *)
Theorem validateExecUser_spec (value : string) :
  validateExecUser value = None <->
  value = ""%string \/
  exists uid gid, value = (uid +:+ ":" +:+ gid)%string /\ uint32_text uid /\ uint32_text gid.
Proof.
  unfold validateExecUser. destruct (String.eqb_spec value "") as [->|Hne]; [by split; [left|]|].
  split.
  - destruct (Cut value ":") as [[uid gid]|] eqn:Hcut; [|done].
    rewrite refuse_if_nil, orb_false_iff, !negb_false_iff, !parses_uint32_spec.
    intros [Hu Hg]. apply Cut_sound in Hcut as [-> _]. right. by exists uid, gid.
  - intros [?|(uid & gid & -> & Hu & Hg)]; [done|].
    change (uid +:+ ":" +:+ gid) with (uid +:+ String ":" gid).
    rewrite Cut_app.
    + by rewrite refuse_if_nil, orb_false_iff, !negb_false_iff, !parses_uint32_spec.
    + destruct Hu as (_ & Hd & _). rewrite Forall_forall in Hd. intros Hin. by apply Hd in Hin.
Qed.

(** An identity is accepted exactly when it is of the allowed length and consists
    of letters, digits and, but first, dots, hyphens and underscores; it is then one
    proper path component, so that nothing named after it leaves its directory. *)
Theorem validateIdentity_spec (kind value : string) :
  (validateIdentity kind value = None <->
   value <> ""%string /\ len value <= (if String.eqb kind "task" then 149 else 128) /\
   match to_bytes value with
   | [] => False
   | c :: rest => is_alnum c = true /\ Forall (fun c => identity_byte false c = true) rest
   end) /\
  (validateIdentity kind value = None -> path_component (to_bytes value)).
Proof.
  assert (validateIdentity kind value = None <->
   value <> ""%string /\ len value <= (if String.eqb kind "task" then 149 else 128) /\
   match to_bytes value with
   | [] => False
   | c :: rest => is_alnum c = true /\ Forall (fun c => identity_byte false c = true) rest
   end) as Hiff.
  { unfold validateIdentity. rewrite seq_error_nil, !refuse_if_nil, orb_false_iff, negb_false_iff.
    rewrite String.eqb_neq, Z.ltb_ge.
    assert (value <> ""%string -> to_bytes value <> []) as Hb by (by destruct value).
    destruct (to_bytes value) as [|c rest]; [tauto|].
    rewrite andb_true_iff, forallb_Forall. unfold identity_byte at 1. rewrite orb_false_r. tauto. }
  split; [done|]. intros H. apply Hiff in H as (Hne & _ & Hc).
  destruct (to_bytes value) as [|c rest]; [done|]. destruct Hc as [Hc Hrest].
  rewrite Forall_forall in Hrest.
  assert (forall d, is_alnum d = true -> d <> "."%char /\ d <> "/"%char) as Hd.
  { intros d Hd. split; intros ->; discriminate. }
  split_and!; [done|intros [= -> _]; by apply Hd in Hc as [? _]|intros [= -> _]; by apply Hd in Hc as [? _]|].
  apply not_elem_of_cons. split; [apply Hd in Hc; naive_solver|].
  intros Hin. by apply Hrest in Hin.
Qed.

(** What a valid command is. *)
Record valid_command (c : Command) : Prop := {
  vc_path : clean_path (cm_Path c) /\ cm_Path c <> "/"%string /\ ContainsByte (cm_Path c) NUL = false;
  vc_dir : cm_Dir c = ""%string \/ clean_path (cm_Dir c) /\ ContainsByte (cm_Dir c) NUL = false;
  vc_user : validateExecUser (cm_User c) = None;
  vc_timeout : 0 <= cm_Timeout c;
  vc_output : 0 <= cm_OutputLimitBytes c <= maxConfiguredOutput;
  vc_args : Forall (fun a => ContainsByte a NUL = false) (cm_Args c);
  vc_env : map_Forall (fun k v => sandbox_validEnvName k = true /\ ContainsByte v NUL = false) (cm_Env c)
}.

Lemma error_of_path path :
  error_of (cleanContainerPath path) = None <->
  clean_path path /\ path <> "/"%string /\ ContainsByte path NUL = false.
Proof.
  unfold cleanContainerPath. destruct (cleanContainerWorkdir path) as [clean|e] eqn:Hc.
  - assert (clean = path) as -> by (by apply cleanContainerWorkdir_same).
    apply cleanContainerWorkdir_spec in Hc as [Hc Hn].
    destruct (String.eqb_spec path "/"); simpl; [|tauto]. split; [done|]. by intros (_ & ? & _).
  - simpl. split; [done|]. intros (Hcl & _ & Hn).
    by rewrite (proj2 (cleanContainerWorkdir_spec path) (conj Hcl Hn)) in Hc.
Qed.

Lemma error_of_workdir path :
  error_of (cleanContainerWorkdir path) = None <-> clean_path path /\ ContainsByte path NUL = false.
Proof.
  rewrite <- cleanContainerWorkdir_spec. destruct (cleanContainerWorkdir path) as [clean|e] eqn:Hc; simpl.
  - by rewrite (cleanContainerWorkdir_same _ _ Hc).
  - done.
Qed.

Lemma validateCommand_spec c : validateCommand c = None <-> valid_command c.
Proof.
  unfold validateCommand. rewrite !seq_error_nil, !wrap_nil_iff, !refuse_if_nil, !first_error_nil.
  rewrite orb_false_iff, !Z.ltb_ge, error_of_path, Forall_map_to_list.
  assert ((if String.eqb (cm_Dir c) "" then nil_error
           else wrap "invalid command workdir" (error_of (cleanContainerWorkdir (cm_Dir c)))) = None <->
          cm_Dir c = ""%string \/ clean_path (cm_Dir c) /\ ContainsByte (cm_Dir c) NUL = false) as ->.
  { destruct (String.eqb_spec (cm_Dir c) "") as [|Hd]; [tauto|].
    rewrite wrap_nil_iff, error_of_workdir. tauto. }
  assert (Forall (fun a => (refuse_if ContainsByte a NUL with "command argument contains NUL") = None) (cm_Args c) <->
          Forall (fun a => ContainsByte a NUL = false) (cm_Args c)) as ->.
  { apply Forall_iff. intros a. apply refuse_if_nil. }
  assert (map_Forall (fun k v => check_env "command" (k, v) = None) (cm_Env c) <->
          map_Forall (fun k v => sandbox_validEnvName k = true /\ ContainsByte v NUL = false) (cm_Env c)) as ->.
  { unfold map_Forall, check_env. setoid_rewrite refuse_if_nil. setoid_rewrite orb_false_iff.
    setoid_rewrite negb_false_iff. done. }
  split; [intros (?&?&?&?&?&?&?); by constructor|intros []; tauto].
Qed.

(** What is executed on behalf of a caller is valid and has the sandbox's workdir
    and user wherever the caller named none, everything else being the caller's;
    preparing it again changes nothing; and a command is refused only if it is
    invalid as given or with those defaults. *)
Theorem PrepareCommand_spec (command : Command) (workdir user : string) :
  let filled := set_cm_User (if String.eqb (cm_User command) "" then user else cm_User command)
    (set_cm_Dir (if String.eqb (cm_Dir command) "" then workdir else cm_Dir command) command) in
  match PrepareCommand command workdir user with
  | inl prepared =>
      prepared = filled /\ valid_command command /\ valid_command prepared /\
      PrepareCommand prepared workdir user = inl prepared
  | inr _ => ~ valid_command command \/ ~ valid_command filled
  end.
Proof.
  intros filled. unfold PrepareCommand.
  destruct (validateCommand command) as [e|] eqn:Hv.
  { left. rewrite <- validateCommand_spec. congruence. }
  set (prepared := if String.eqb (cm_User _) "" then _ else _).
  assert (prepared = filled) as ->.
  { unfold prepared, filled. destruct command as [path args dir env stdin timeout cuser limit]. simpl.
    destruct (String.eqb dir ""); simpl; by destruct (String.eqb cuser ""). }
  destruct (validateCommand filled) as [e|] eqn:Hf.
  { right. rewrite <- validateCommand_spec. congruence. }
  split_and!; [done|by apply validateCommand_spec|by apply validateCommand_spec|].
  rewrite Hf.
  assert (forall x, x = filled -> match validateCommand x with Some e => inr e | None => inl x end = inl filled)
    as Hdone by (intros x ->; by rewrite Hf).
  apply Hdone. unfold filled. destruct command as [path args dir env stdin timeout cuser limit]. simpl.
  destruct (String.eqb dir "") eqn:Ed; simpl; rewrite ?Ed; destruct (String.eqb cuser "") eqn:Eu;
    simpl; rewrite ?Ed, ?Eu; destruct (String.eqb workdir ""); simpl; rewrite ?Eu;
    by destruct (String.eqb user "").
Qed.

(** * What a sandbox holds *)

(** The calls that acquire and release resources. *)
Inductive event :=
  | EnvironmentStarted (e : error)
  | ContainerCreated (id : string) (e : error)
  | ContainerStopped (id : string) (e : error)
  | EnvironmentStopped (e : error)
  | DeploymentClosed (e : error).

Section Traced.
Context {W : Type}.

Definition traced_deployment (d : Deployment W) : Deployment (W * list event) :=
  {| dp_Create ctx r := logged (fun out => ContainerCreated out.1 out.2) (dp_Create d ctx r);
     dp_Validate ctx id r := silent (dp_Validate d ctx id r);
     dp_Start ctx id := silent (dp_Start d ctx id);
     dp_Running ctx id := silent (dp_Running d ctx id);
     dp_Exec ctx id c := silent (dp_Exec d ctx id c);
     dp_Stop ctx id := logged (ContainerStopped id) (dp_Stop d ctx id);
     dp_LogsStream ctx id := silent (dp_LogsStream d ctx id);
     dp_Close := logged DeploymentClosed (dp_Close d) |}.
Definition traced_environment (v : TaskEnvironment W) : TaskEnvironment (W * list event) :=
  {| tv_Start ctx r name := logged (fun out => EnvironmentStarted out.2) (tv_Start v ctx r name);
     tv_Validate ctx := silent (tv_Validate v ctx);
     tv_Stop ctx := logged EnvironmentStopped (tv_Stop v ctx) |}.
Definition traced (m : Manager W) : Manager (W * list event) :=
  {| mg_deployment := traced_deployment (mg_deployment m);
     mg_newEnvironment := let* v := silent (mg_newEnvironment m) in ret (traced_environment <$> v);
     mg_outputDir := mg_outputDir m; mg_cleanupTimeout := mg_cleanupTimeout m;
     mg_newID := silent (mg_newID m); mg_MkdirAll path := silent (mg_MkdirAll m path);
     mg_OpenLog path := silent (mg_OpenLog m path); mg_Getenv_TZ := silent (mg_Getenv_TZ m);
     mg_ParseNormalizedNamed := mg_ParseNormalizedNamed m |}.
End Traced.

(** What is held after a trace: a container, and a started environment. *)
Record held := { hd_container : option string; hd_environment : bool }.
Definition hold (h : held) (ev : event) : held :=
  match ev with
  | EnvironmentStarted _ => {| hd_container := hd_container h; hd_environment := true |}
  | ContainerCreated id _ =>
      {| hd_container := if String.eqb id "" then hd_container h else Some id;
         hd_environment := hd_environment h |}
  | ContainerStopped id None =>
      {| hd_container := if decide (hd_container h = Some id) then None else hd_container h;
         hd_environment := hd_environment h |}
  | EnvironmentStopped None => {| hd_container := hd_container h; hd_environment := false |}
  | _ => h
  end.
Definition holds (h : held) (evs : list event) : held := fold_left hold evs h.
Definition nothing : held := {| hd_container := None; hd_environment := false |}.

(** What a sandbox says it owns. *)
Definition owns {W} (s : Sandbox W) : held :=
  {| hd_container := if sb_containerOwned s then Some (sb_containerID s) else None;
     hd_environment := sb_environmentOwned s |}.

(** The order of these calls: the environment comes first, the container is created in it
    once; what is released is held at that time, under this very identity, and the
    environment is released only once the container is. *)
Definition in_order (h : held) (ev : event) : Prop :=
  match ev with
  | EnvironmentStarted _ => h = nothing
  | ContainerCreated _ _ => hd_container h = None /\ hd_environment h = true
  | ContainerStopped id _ => hd_container h = Some id
  | EnvironmentStopped _ => hd_container h = None /\ hd_environment h = true
  | DeploymentClosed _ => True
  end.
Fixpoint ordered (h : held) (evs : list event) : Prop :=
  match evs with
  | [] => True
  | ev :: evs => in_order h ev /\ ordered (hold h ev) evs
  end.

(** A creation that could not tell whether it allocated a container: nobody holds this
    container, if there is one. *)
Definition unconfirmed (evs : list event) : Prop :=
  exists e, ContainerCreated "" (Some e) ∈ evs /\ errors_Is e ErrAllocationUnconfirmed = true.

Lemma holds_app h a b : holds h (a ++ b) = holds (holds h a) b.
Proof. apply fold_left_app. Qed.

Lemma ordered_app h a b : ordered h (a ++ b) <-> ordered h a /\ ordered (holds h a) b.
Proof.
  revert h. induction a as [|ev a IH]; intros h; simpl; [tauto|]. rewrite IH. tauto.
Qed.

Section Lifecycle_proofs.
Context {W : Type}.
Variable m : Manager W.
Let t := traced m.
Implicit Types s : Sandbox (W * list event).

(** Its environment was made by the manager. *)
Definition built (s : Sandbox (W * list event)) : Prop :=
  exists v, sb_environment s = traced_environment v.

Lemma collectLogs_emits ctx s : emits (collectLogs t ctx s) (fun _ evs => evs = []).
Proof. unfold collectLogs. emits_steps; done. Qed.

Definition same_identity (s s' : Sandbox (W * list event)) : Prop :=
  sb_environment s' = sb_environment s /\ sb_containerID s' = sb_containerID s /\
  sb_stopped s' = sb_stopped s.

(** The container: it is gone if nothing failed. *)
Lemma stop_container_emits ctx collect s :
  emits (stop_container t ctx collect s) (fun r evs =>
    let (errs, s') := r in
    owns s' = holds (owns s) evs /\ ordered (owns s) evs /\ same_identity s s' /\
    sb_environmentOwned s' = sb_environmentOwned s /\
    (errors_Join errs = None -> sb_containerOwned s' = false) /\
    (sb_containerOwned s = false -> evs = []) /\
    (sb_containerOwned s = true -> exists outcome, evs = [ContainerStopped (sb_containerID s) outcome])).
Proof.
  unfold stop_container. destruct (sb_containerOwned s) eqn:Ho.
  2: { apply emits_ret. split_and!; try done. }
  apply (emits_bind _ _ (fun _ evs => evs = [])).
  { destruct collect; [apply collectLogs_emits|by apply emits_ret]. }
  intros logs evs ->. apply emits_call. intros e. apply emits_ret.
  unfold owns. destruct e as [e|]; simpl; rewrite ?Ho; simpl; rewrite ?decide_True by done;
    (split_and!; try done; try (by repeat split); try by eexists).
  by destruct logs.
Qed.

(** The environment: the container comes first, and no error means that nothing is
    left. *)
Lemma stop_environment_emits ctx errs s :
  built s -> (errors_Join errs = None -> sb_containerOwned s = false) ->
  emits (stop_environment ctx (sb_environmentOwned s) errs s) (fun r evs =>
    let (e, s') := r in
    owns s' = holds (owns s) evs /\ ordered (owns s) evs /\ same_identity s s' /\
    (e = None -> owns s' = nothing) /\
    Forall (fun ev => match ev with ContainerStopped _ _ => False | _ => True end) evs /\
    (sb_environmentOwned s = false -> evs = [])).
Proof.
  intros [v Hv] Herrs. unfold stop_environment.
  destruct (sb_environmentOwned s) eqn:He; [destruct (sb_containerOwned s) eqn:Ho|]; simpl.
  - apply emits_ret. split_and!; try done. intros Hn. by apply Herrs in Hn.
  - rewrite Hv. apply emits_call. intros e. apply emits_ret. unfold owns. simpl. rewrite Ho.
    destruct e as [e|]; simpl; rewrite ?Ho, ?He;
      (split_and!; try done; try (by repeat split); try (by repeat constructor)).
    rewrite errors_Join_nil_iff, Forall_app. intros [_ Hn]. by inv Hn.
  - apply emits_ret. split_and!; try done. intros Hn. apply Herrs in Hn.
    unfold owns. by rewrite Hn, He.
Qed.

(** One attempt to stop. *)
Lemma stopOnce_emits ctx collect s :
  built s ->
  emits (stopOnce t ctx collect s) (fun r evs =>
    let (e, s') := r in
    owns s' = holds (owns s) evs /\ ordered (owns s) evs /\ same_identity s s' /\
    (e = None -> owns s' = nothing) /\
    (sb_containerOwned s = false -> Forall (fun ev => match ev with ContainerStopped _ _ => False | _ => True end) evs) /\
    (owns s = nothing -> evs = []) /\
    (sb_containerOwned s = true ->
     exists outcome evs', evs = ContainerStopped (sb_containerID s) outcome :: evs')).
Proof.
  intros Hb. unfold stopOnce. eapply emits_bind; [apply stop_container_emits|].
  intros [errs s1] evs1 (Hh1 & Ho1 & Hi1 & He1 & Herr1 & Hn1 & Hc1). rewrite <- He1.
  assert (built s1) as Hb1 by (destruct Hb as [v Hv]; exists v; destruct Hi1 as (? & ? & ?); congruence).
  eapply emits_mono; [by apply stop_environment_emits|].
  intros [e s2] evs2 (Hh2 & Ho2 & Hi2 & He2 & Hf2 & Hn2).
  rewrite holds_app, ordered_app, <- Hh1.
  split_and!; try done.
  - destruct Hi1 as (? & ? & ?), Hi2 as (? & ? & ?). repeat split; congruence.
  - intros Hc. rewrite (Hn1 Hc). done.
  - unfold owns. intros Hn. injection Hn as Hc Henv. destruct (sb_containerOwned s); [done|].
    rewrite (Hn1 eq_refl), Hn2; [done|congruence].
  - intros Hc. destruct (Hc1 Hc) as [outcome ->]. by exists outcome, evs2.
Qed.

(** Nothing of this kind happens after the container was created. *)
Lemma resolve_workdir_emits ctx s :
  emits (resolve_workdir t ctx s) (fun r evs => evs = [] /\ owns r.2 = owns s /\ same_identity s r.2).
Proof. unfold resolve_workdir. emits_steps; by repeat split. Qed.

Lemma bring_up_emits ctx request s :
  built s ->
  emits (bring_up t ctx request s) (fun r evs => evs = [] /\ owns r.2 = owns s /\ same_identity s r.2).
Proof.
  intros [v Hv]. unfold bring_up. rewrite Hv.
  repeat first
    [ apply resolve_workdir_emits
    | apply emits_ret; done
    | apply emits_read; intros ?
    | match goal with |- emits (match ?x with _ => _ end) _ => destruct x end ].
Qed.

Definition acquiring (ev : event) : Prop :=
  match ev with EnvironmentStarted _ | ContainerCreated _ _ => True | _ => False end.

(** What acquiring leaves in the sandbox's hands. *)
Definition acquired (s : Sandbox (W * list event)) (r : error * Sandbox (W * list event))
    (evs : list event) : Prop :=
  ordered nothing evs /\ (unconfirmed evs -> error_Is r.1 ErrAllocationUnconfirmed = true) /\
  owns r.2 = holds nothing evs /\ built r.2 /\ sb_stopped r.2 = sb_stopped s /\
  (r.1 = None -> exists id, sb_containerID r.2 = id /\ id <> ""%string /\
     owns r.2 = {| hd_container := Some id; hd_environment := true |}) /\
  Forall acquiring evs.

Lemma acquire_emits ctx request s :
  built s -> owns s = {| hd_container := None; hd_environment := true |} ->
  emits (acquire t ctx request s) (acquired s).
Proof.
  intros [v Hv] Hown. unfold acquire. rewrite Hv. apply emits_call. intros [connectivity e].
  assert (owns (set_sb_connectivity (Some connectivity) s) = owns s) as Hown1 by done.
  destruct e as [e|].
  { apply emits_ret. split_and!; simpl; [by repeat split|by intros (? & ?%list_elem_of_singleton & _)|
      by rewrite Hown1, Hown|by exists v|done|done|by repeat constructor]. }
  cbn [sb_environment set_sb_connectivity]. rewrite Hv.
  apply emits_read. intros e. destruct e as [e|].
  { apply emits_ret. split_and!; simpl; [by repeat split|by intros (? & ?%list_elem_of_singleton & _)|
      by rewrite Hown1, Hown|by exists v|done|done|by repeat constructor]. }
  apply emits_read. intros tz. apply emits_call. intros [id e].
  set (s1 := set_sb_container id _ _).
  assert (built s1) as Hb1 by (by exists v).
  assert (owns s1 = holds nothing [EnvironmentStarted None; ContainerCreated id e]) as Hown2.
  { injection Hown as Hc He. unfold owns, s1. simpl. rewrite He.
    by destruct (String.eqb id ""). }
  assert (ordered nothing [EnvironmentStarted None; ContainerCreated id e]) as Hord by (by repeat split).
  assert (unconfirmed [EnvironmentStarted None; ContainerCreated id e] -> error_Is e ErrAllocationUnconfirmed = true) as Hunc.
  { intros (x & Hin & Hx). apply elem_of_cons in Hin as [?|[= _ <-]%list_elem_of_singleton]; done. }
  destruct e as [e|].
  { apply emits_ret. split_and!; simpl; [done|exact Hunc|by rewrite Hown2|done|done|done|by repeat constructor]. }
  destruct (String.eqb_spec id "") as [Hid|Hid].
  { apply emits_ret. split_and!; simpl; [done|by intros H%Hunc|by rewrite Hown2|done|done|done|by repeat constructor]. }
  eapply emits_mono; [by apply bring_up_emits|]. intros [e s2] evs (-> & Hs2 & Hi2). simpl in Hs2, Hi2.
  split_and!; simpl.
  - exact Hord.
  - by intros H%Hunc.
  - by rewrite Hs2, Hown2.
  - destruct Hi2 as [Hi2 _]. exists v. simpl. by rewrite Hi2.
  - by destruct Hi2 as (_ & _ & ->).
  - intros _. exists id. destruct Hi2 as (_ & Hi2 & _). split_and!; [done|done|].
    rewrite Hs2, Hown2. simpl. by rewrite (proj2 (String.eqb_neq id "") Hid).
  - by repeat constructor.
Qed.

(** Every sandbox the manager keeps was built by it. *)
Definition state_ok (st : ManagerState (W * list event)) : Prop := Forall built (ms_pending st).

(** What a failed start left to the manager. *)
Definition rolled_back (st : ManagerState (W * list event)) (pre : list event)
    (r : option (Sandbox (W * list event)) * error * ManagerState (W * list event))
    (evs : list event) : Prop :=
  let '(live, e, st') := r in
  live = None /\ e <> None /\ ordered nothing (pre ++ evs) /\
  (unconfirmed (pre ++ evs) -> error_Is e ErrAllocationUnconfirmed = true) /\
  (st' = st /\ holds nothing (pre ++ evs) = nothing \/
   exists s, ms_pending st' = ms_pending st ++ [s] /\ built s /\ owns s = holds nothing (pre ++ evs)).

(** A stop creates nothing. *)
Definition releasing (ev : event) : Prop :=
  match ev with ContainerStopped _ _ | EnvironmentStopped _ => True | _ => False end.
Lemma stopOnce_releases ctx collect s : built s -> emits (stopOnce t ctx collect s) (fun _ evs => Forall releasing evs).
Proof.
  intros [v Hv]. unfold stopOnce. eapply emits_bind; [apply (emits_and _ _ (fun _ evs => Forall releasing evs) (stop_container_emits ctx collect s))|].
  { unfold stop_container. destruct (sb_containerOwned s); [|apply emits_ret; constructor].
    apply (emits_bind _ _ (fun _ evs => evs = [])).
    { destruct collect; [apply collectLogs_emits|by apply emits_ret]. }
    intros logs evs ->. apply emits_call. intros e. apply emits_ret. by repeat constructor. }
  intros [errs s1] evs [(_ & _ & (He & _) & _) Hf]. unfold stop_environment. destruct (_ && _); [|apply emits_ret; by rewrite app_nil_r].
  rewrite He, Hv. apply emits_call. intros e. apply emits_ret. apply Forall_app. split; [done|]. by repeat constructor.
Qed.
Lemma unconfirmed_app pre evs : Forall releasing evs -> unconfirmed (pre ++ evs) -> unconfirmed pre.
Proof.
  intros Hf (e & [Hin|Hin]%elem_of_app & He); [by exists e|]. rewrite Forall_forall in Hf. by apply Hf in Hin.
Qed.
Lemma join_primary primary e target : error_Is primary target = true -> error_Is (errors_Join [primary; e]) target = true.
Proof. intros H. rewrite errors_Join_is. simpl. by rewrite H. Qed.

Lemma rollbackStart_emits ctx primary s st pre :
  built s -> owns s = holds nothing pre -> ordered nothing pre ->
  (unconfirmed pre -> error_Is primary ErrAllocationUnconfirmed = true) -> primary <> None ->
  emits (rollbackStart t ctx primary s st) (rolled_back st pre).
Proof.
  intros Hb Hown Hpre Hunc Hp. unfold rollbackStart.
  eapply emits_bind; [apply emits_and; [by apply stopOnce_emits|by apply stopOnce_releases]|].
  intros [e s'] evs [(Hh & Ho & Hi & Hn & _) Hrel]. rewrite Hown in Hh, Ho.
  assert (ordered nothing (pre ++ evs)) as Hord by (by apply ordered_app).
  assert (unconfirmed (pre ++ evs) -> error_Is primary ErrAllocationUnconfirmed = true) as Hunc'.
  { intros H. by apply Hunc, (unconfirmed_app _ evs). }
  destruct e as [e|]; apply emits_ret; rewrite app_nil_r; unfold rolled_back; rewrite holds_app.
  - split_and!; [done|by destruct primary|done|intros H; by apply join_primary, Hunc'|]. right. exists s'. split_and!; [done| |done].
    destruct Hb as [v Hv]. exists v. destruct Hi as [Hi _]. by rewrite Hi.
  - split_and!; [done|done|done|done|]. left. split; [done|]. by rewrite <- Hh, Hn.
Qed.

(** A start: a live sandbox that holds what was acquired, or a failure that holds
    nothing but what the manager keeps. *)
Definition started (st : ManagerState (W * list event))
    (r : option (Sandbox (W * list event)) * error * ManagerState (W * list event))
    (evs : list event) : Prop :=
  let '(live, e, st') := r in
  match live with
  | Some s =>
      e = None /\ st' = st /\ built s /\ sb_containerID s <> ""%string /\
      sb_stopped s = false /\
      owns s = {| hd_container := Some (sb_containerID s); hd_environment := true |} /\
      holds nothing evs = owns s /\ Forall acquiring evs /\ ordered nothing evs /\ ~ unconfirmed evs
  | None => rolled_back st [] r evs
  end.

(** C4. A start either gives a live sandbox that owns exactly what was acquired for
    it, a container and its environment, with nothing released on the way and the
    manager unchanged; or it fails, and what it had acquired has been released, each
    thing once and under the identity it was created with, the container before the
    environment, save what the manager keeps as pending, which owns exactly the rest. A
    creation that leaves its allocation unconfirmed is outside of this account: such a
    start always fails, and its error says so. *)
Theorem sandbox_Start_owns (ctx : Ctx) (request : SandboxRequest) (st : ManagerState (W * list event)) :
  emits (Start t ctx request st) (started st).
Proof.
  unfold Start. destruct (validate_request t request) as [e|].
  { apply emits_ret. simpl. split_and!; [done|done|done|by intros (? & ?%not_elem_of_nil & _)|by left]. }
  apply emits_read. intros [id|e].
  2: { apply emits_ret. simpl. split_and!; [done|done|done|by intros (? & ?%not_elem_of_nil & _)|by left]. }
  apply emits_read. intros [e|].
  { apply emits_ret. simpl. split_and!; [done|done|done|by intros (? & ?%not_elem_of_nil & _)|by left]. }
  apply emits_flatten, emits_read. intros v. apply emits_bind_ret. destruct v as [v|]; simpl.
  2: { apply emits_ret. simpl. split_and!; [done|done|done|by intros (? & ?%not_elem_of_nil & _)|by left]. }
  eapply emits_bind; [apply acquire_emits; [by exists v|done]|].
  intros [e s] evs (Hord & Hunc & Hown & Hb & Hstop & Hlive & Hacq). simpl in *. destruct e as [e|].
  - eapply emits_mono; [by apply (rollbackStart_emits _ _ _ _ evs)|].
    intros [[live e'] st'] evs' (-> & He & Hr). by split.
  - apply emits_ret. rewrite app_nil_r. destruct (Hlive eq_refl) as (cid & <- & Hid & Ho).
    simpl. split_and!; try done. by intros H%Hunc.
Qed.

(** What a stop does to a sandbox. *)
Definition stopped_by (s : Sandbox (W * list event))
    (r : error * Sandbox (W * list event)) (evs : list event) : Prop :=
  let (e, s') := r in
  built s' /\ owns s' = holds (owns s) evs /\ ordered (owns s) evs /\
  (sb_stopped s' = true <-> owns s' = nothing) /\
  (e = None -> owns s' = nothing) /\
  (sb_stopped s = true -> e = None /\ evs = []) /\
  (sb_containerOwned s = true -> exists outcome evs', evs = ContainerStopped (sb_containerID s) outcome :: evs').

(** A sandbox that counts as stopped owns nothing. *)
Definition settled (s : Sandbox (W * list event)) : Prop := sb_stopped s = true -> owns s = nothing.

(** C5. A stop always tries the container it still owns, by its identity, releases the
    environment only once the container is gone, and nothing that the sandbox does not own
    at that time ([in_order]), so that a repeated stop releases nothing twice. It leaves on
    the sandbox exactly what could not be released; the sandbox counts as stopped exactly
    when nothing is left, which is so whenever no error is returned, and a stop after that
    makes no call. *)
Theorem sandbox_stop_releases (ctx : Ctx) (s : Sandbox (W * list event)) :
  built s -> settled s -> emits (stop t ctx s) (stopped_by s).
Proof.
  intros Hb Hs. unfold stop. destruct (sb_stopped s) eqn:Hstop.
  { apply emits_ret. specialize (Hs Hstop). unfold stopped_by. rewrite Hstop, Hs. split_and!; try done.
    unfold owns in Hs. by destruct (sb_containerOwned s). }
  eapply emits_bind; [by apply stopOnce_emits|].
  intros [e s'] evs (Hh & Ho & Hi & Hn & _ & _ & Hc). apply emits_ret. rewrite app_nil_r.
  assert (negb (sb_containerOwned s') && negb (sb_environmentOwned s') = true <-> owns s' = nothing) as Hnone.
  { unfold owns, nothing. destruct (sb_containerOwned s'), (sb_environmentOwned s'); naive_solver. }
  unfold stopped_by. split_and!; try done.
  - destruct Hb as [v Hv]. exists v. simpl. destruct Hi as [Hi _]. by rewrite Hi.
  - congruence.
Qed.

(** An attempt to release one pending sandbox. *)
Record attempt := {
  at_before : Sandbox (W * list event);
  at_events : list event;
  at_error : error;
  at_after : Sandbox (W * list event)
}.
Definition attempt_ok (a : attempt) : Prop :=
  built (at_after a) /\
  owns (at_after a) = holds (owns (at_before a)) (at_events a) /\
  ordered (owns (at_before a)) (at_events a) /\
  (at_error a = None -> owns (at_after a) = nothing).
Definition kept (a : attempt) : list (Sandbox (W * list event)) :=
  match at_error a with Some _ => [at_after a] | None => [] end.

Lemma close_pending_emits pending :
  Forall built pending ->
  emits (close_pending t pending) (fun r evs => exists attempts,
    map at_before attempts = pending /\ Forall attempt_ok attempts /\
    evs = flat_map at_events attempts /\ r.2 = flat_map kept attempts /\
    Forall (fun e => e <> None) r.1 /\ length r.1 = length r.2).
Proof.
  intros Hall. induction Hall as [|s pending Hb _ IH]; cbn [close_pending].
  { apply emits_ret. by exists []. }
  eapply emits_bind; [by apply stopOnce_emits|]. intros [e s'] evs (Hh & Ho & Hi & Hn & _).
  eapply emits_bind; [exact IH|].
  intros [errs remaining] evs' (attempts & Hbefore & Hok & -> & Hrem & Herrs & Hlen).
  simpl in *. apply emits_ret.
  exists ({| at_before := s; at_events := evs; at_error := e; at_after := s' |} :: attempts).
  simpl. rewrite app_nil_r, Hbefore. unfold kept at 1. simpl.
  assert (built s') as Hb' by (destruct Hb as [v Hv]; exists v; destruct Hi as (? & ? & ?); congruence).
  split_and!; [done|by constructor|done| | |]; destruct e as [e|]; simpl; try done.
  - by rewrite Hrem.
  - by constructor.
  - by rewrite Hlen.
Qed.

Lemma errors_Join_some es : Forall (fun e : error => e <> None) es -> es <> [] -> errors_Join es <> None.
Proof. intros Hall Hne Hj. apply errors_Join_nil_iff in Hj. by destruct Hj; [|inv Hall]. Qed.

(** Closing the manager tries to release every pending sandbox again and keeps
    exactly the ones that failed; the deployment is closed only when none is left,
    and at most once: a later close gives the first one's result without a call. *)
Theorem sandbox_Close_releases (st : ManagerState (W * list event)) :
  state_ok st ->
  emits (Close t st) (fun r evs =>
    let (e, st') := r in exists attempts tail,
    map at_before attempts = ms_pending st /\ Forall attempt_ok attempts /\
    ms_pending st' = flat_map kept attempts /\ state_ok st' /\
    evs = flat_map at_events attempts ++ tail /\
    match ms_pending st', ms_closed st with
    | [], None => tail = [DeploymentClosed e] /\ ms_closed st' = Some e
    | [], Some first => tail = [] /\ e = first /\ ms_closed st' = Some first
    | _ :: _, closed => tail = [] /\ e <> None /\ ms_closed st' = closed
    end).
Proof.
  intros Hst. unfold Close. eapply emits_bind; [by apply close_pending_emits|].
  intros [errs remaining] evs (attempts & Hbefore & Hok & -> & Hrem & Herrs & Hlen). simpl in *.
  assert (Forall built remaining) as Hb.
  { rewrite Hrem. apply Forall_flat_map. eapply Forall_impl; [exact Hok|].
    intros a [Ha _]. unfold kept. destruct (at_error a); by repeat constructor. }
  destruct (decide (errs = [])) as [->|Hne].
  - destruct remaining as [|]; [|done]. simpl.
    destruct (ms_closed st) as [first|] eqn:Hc.
    + apply emits_ret. exists attempts, []. simpl. by rewrite Hc.
    + apply emits_call. intros e. apply emits_ret. exists attempts, [DeploymentClosed e]. done.
  - destruct (errors_Join errs) as [e|] eqn:He; [|by apply errors_Join_some in He].
    apply emits_ret. exists attempts, []. simpl. destruct remaining as [|s remaining]; [by destruct errs|done].
Qed.
End Lifecycle_proofs.

(** * An instance *)

Module SandboxDemo.
(** The world counts the attempts to stop a container; the first one fails. *)
Definition deployment : Deployment nat :=
  {| dp_Create _ _ := ret ("c1"%string, None); dp_Validate _ _ _ := ret None;
     dp_Start _ _ := ret None; dp_Running _ _ := ret (true, None);
     dp_Exec _ _ _ := ret ({| cr_ExitCode := 0; cr_Stdout := "/work"%string +:+ nl; cr_Stderr := "";
                              cr_Duration := 0 |}, None);
     dp_Stop _ _ := fun n => (match n with O => Some (ENew "busy") | S _ => None end, S n);
     dp_LogsStream _ _ := ret None; dp_Close := ret None |}.
Definition environment : TaskEnvironment nat :=
  {| tv_Start _ _ _ :=
       ret ({| hc_Placement := {| rp_AttachmentID := "network" |}; hc_SearchURL := "";
               hc_MCPServers := [] |}, None);
     tv_Validate _ := ret None; tv_Stop _ := ret None |}.
Definition manager : Manager nat :=
  {| mg_deployment := deployment; mg_newEnvironment := ret (Some environment);
     mg_outputDir := "/out"; mg_cleanupTimeout := 30; mg_newID := ret (inl "id"%string);
     mg_MkdirAll _ := ret None; mg_OpenLog _ := ret None; mg_Getenv_TZ := ret ""%string;
     mg_ParseNormalizedNamed _ := inr (ENew "no reference") |}.
Definition live : Sandbox (nat * list event) :=
  {| sb_containerID := "c1"; sb_containerName := "sandbox"; sb_connectivity := None;
     sb_environment := traced_environment environment; sb_workdir := "/work"; sb_execUser := "";
     sb_artifactDir := "/out/t/sandbox"; sb_outputDir := "/out"; sb_cleanupTimeout := 30;
     sb_runID := "r"; sb_taskID := "t"; sb_containerOwned := true; sb_environmentOwned := true;
     sb_stopped := false; sb_stopping := false; sb_stopErr := None |}.
Definition stop_run (n : nat) := stop (traced manager) (Given 0) live (n, []).
Definition pending : ManagerState (nat * list event) := {| ms_pending := [live]; ms_closed := None |}.
Definition close_run (n : nat) := Close (traced manager) pending (n, []).

(** The first stop fails and keeps both; one that succeeds releases both in order. *)
Lemma sandbox_stop_releases_witness :
  stopped_by live (stop_run 0).1 (stop_run 0).2.2 /\ sb_stopped (stop_run 0).1.2 = false /\
  stopped_by live (stop_run 1).1 (stop_run 1).2.2 /\
  (stop_run 1).2.2 = [ContainerStopped "c1" None; EnvironmentStopped None].
Proof.
  assert (built live) as Hb by (by exists environment).
  assert (settled live) as Hs by discriminate.
  split_and!; [|by vm_compute| |by vm_compute].
  - exact (emits_run _ _ _ (sandbox_stop_releases manager (Given 0) live Hb Hs)).
  - exact (emits_run _ _ _ (sandbox_stop_releases manager (Given 0) live Hb Hs)).
Defined.

(** A close that could not release the container leaves the deployment open. *)
Lemma sandbox_Close_releases_witness :
  (exists attempts tail,
    map at_before attempts = [live] /\ Forall attempt_ok attempts /\
    (close_run 0).2.2 = flat_map at_events attempts ++ tail /\ tail = []) /\
  (close_run 1).2.2 =
    [ContainerStopped "c1" None; EnvironmentStopped None; DeploymentClosed None].
Proof.
  assert (state_ok pending) as Hok by (constructor; [by exists environment|constructor]).
  split; [|by vm_compute].
  pose proof (emits_run _ _ 0%nat (sandbox_Close_releases manager pending Hok)) as H.
  change (Close (traced manager) pending (0%nat, [])) with (close_run 0) in H.
  destruct H as (attempts & tail & Hb & Ha & _ & _ & He & Ht & _).
  exists attempts, tail. split_and!; done.
Defined.
End SandboxDemo.
