(* ===== verification/Target.v ===== *)
(** The borrowed target of a bridge ([pkg/bridge/target]): the grant it checks, and the
    calls it lets through to the backend, each on the one runtime of the grant and none
    after its revocation. *)

From S2P Require Import Prelude Trace Core Sandbox.

(** [backendIdentifier]: [^[a-zA-Z0-9][a-zA-Z0-9_.-]{0,127}$]. *)
Definition identifier_byte (c : ascii) : bool :=
  is_alnum c || Ascii.eqb c "_" || Ascii.eqb c "." || Ascii.eqb c "-".
Definition backendIdentifier (s : string) : bool :=
  match to_bytes s with
  | [] => false
  | c :: rest => is_alnum c && forallb identifier_byte rest && (Z.of_nat (length rest) <=? 127)
  end.

(** [Validate]. *)
Definition BACKSLASH : ascii := "\"%char.
Definition bad_identity (v : string) : bool :=
  String.eqb v "" || (256 <? len v) || ContainsAny v ["/"%char; BACKSLASH; NUL; CR; NL] ||
  String.eqb v "." || String.eqb v "..".
Definition true_command : Command :=
  {| cm_Path := "/bin/true"; cm_Args := []; cm_Dir := ""; cm_Env := ∅; cm_Stdin := [];
     cm_Timeout := 0; cm_User := ""; cm_OutputLimitBytes := 0 |}.
Definition Validate (d : BridgeTarget) : error :=
  (refuse_if existsb bad_identity [bt_RunID d; bt_TaskID d; bt_SandboxID d]
     with "invalid bridge target identity") >>?
  (refuse_if String.eqb (bt_RuntimeID d) "" || (1024 <? len (bt_RuntimeID d)) ||
             ContainsAny (bt_RuntimeID d) [NUL; CR; NL]
     with "invalid immutable runtime identity") >>?
  (refuse_if negb (backendIdentifier (bt_Backend d)) with "invalid bridge target backend identifier") >>?
  match PrepareCommand true_command (bt_Workdir d) (bt_ExecUser d) with
  | inl _ => None
  | inr e => Some (EWrap "invalid bridge target defaults" e)
  end.

(** [Backend], with the infos, open files and streams of its answers. *)
Record Backend (W Info File IO : Type) := {
  bk_ValidateBridgeTarget : Ctx -> BridgeTarget -> M W error;
  bk_ExecStream : Ctx -> string -> Command -> M W (CommandResult * error * IO);
  bk_StatFile : Ctx -> string -> string -> M W (Info + err);
  bk_OpenFile : Ctx -> string -> string -> M W (File * Info + err);
  bk_WriteFile : Ctx -> string -> string -> Z -> string -> M W (bool * error)
}.
Arguments bk_ValidateBridgeTarget {W Info File IO}.
Arguments bk_ExecStream {W Info File IO}.
Arguments bk_StatFile {W Info File IO}.
Arguments bk_OpenFile {W Info File IO}.
Arguments bk_WriteFile {W Info File IO}.

Section Borrowed.
Context {W Info File IO : Type}.

(** [Borrowed]; [bo_revoked] reads its flag under the lock, [bo_quiet] is what the
    streams of a command see that did not run. *)
Record Borrowed := {
  bo_revoked : M W bool;
  bo_descriptor : BridgeTarget;
  bo_backend : Backend W Info File IO;
  bo_quiet : IO
}.

(** [New]. *)
Definition New (revoked : M W bool) (quiet : IO) (ctx : Ctx) (d : BridgeTarget)
    (backend : option (Backend W Info File IO)) : M W (Borrowed + err) :=
  match Validate d with
  | Some e => ret (inr e)
  | None =>
      match backend with
      | None => ret (inr (ENew "bridge execution backend is required"))
      | Some backend =>
          let* e := bk_ValidateBridgeTarget backend ctx d in
          ret match e with
              | Some e => inr e
              | None => inl {| bo_revoked := revoked; bo_descriptor := d; bo_backend := backend;
                               bo_quiet := quiet |}
              end
      end
  end.

Variable b : Borrowed.
Definition admission_closed : err := ENew "bridge target admission closed".

(** [ExecStream], [StatFile], [OpenFile] and [WriteFile]. *)
Definition not_run : CommandResult := {| cr_ExitCode := -1; cr_Stdout := ""; cr_Stderr := ""; cr_Duration := 0 |}.
Definition ExecStream (ctx : Ctx) (c : Command) : M W (CommandResult * error * IO) :=
  let* closed := bo_revoked b in
  if closed : bool then ret (not_run, Some admission_closed, bo_quiet b)
  else match PrepareCommand c (bt_Workdir (bo_descriptor b)) (bt_ExecUser (bo_descriptor b)) with
  | inr e => ret (not_run, Some e, bo_quiet b)
  | inl c => bk_ExecStream (bo_backend b) ctx (bt_RuntimeID (bo_descriptor b)) c
  end.
Definition StatFile (ctx : Ctx) (path : string) : M W (Info + err) :=
  let* closed := bo_revoked b in
  if closed : bool then ret (inr admission_closed)
  else bk_StatFile (bo_backend b) ctx (bt_RuntimeID (bo_descriptor b)) path.
Definition OpenFile (ctx : Ctx) (path : string) : M W (File * Info + err) :=
  let* closed := bo_revoked b in
  if closed : bool then ret (inr admission_closed)
  else bk_OpenFile (bo_backend b) ctx (bt_RuntimeID (bo_descriptor b)) path.
Definition WriteFile (ctx : Ctx) (path : string) (size : Z) : M W (bool * error) :=
  let* closed := bo_revoked b in
  if closed : bool then ret (false, Some admission_closed)
  else bk_WriteFile (bo_backend b) ctx (bt_RuntimeID (bo_descriptor b)) path size
         (bt_ExecUser (bo_descriptor b)).
End Borrowed.
Arguments Borrowed W Info File IO : clear implicits.

(** * What reaches the backend *)

Inductive backend_event :=
  | AdmissionRead (closed : bool)
  | Executed (runtime : string) (c : Command)
  | Statted (runtime path : string)
  | Opened (runtime path : string)
  | Written (runtime path : string) (size : Z) (user : string)
  | Validated (d : BridgeTarget).

Section Traced.
Context {W Info File IO : Type}.
Definition traced_backend (k : Backend W Info File IO) : Backend (W * list backend_event) Info File IO :=
  {| bk_ValidateBridgeTarget ctx d := logged (fun _ => Validated d) (bk_ValidateBridgeTarget k ctx d);
     bk_ExecStream ctx id c := logged (fun _ => Executed id c) (bk_ExecStream k ctx id c);
     bk_StatFile ctx id path := logged (fun _ => Statted id path) (bk_StatFile k ctx id path);
     bk_OpenFile ctx id path := logged (fun _ => Opened id path) (bk_OpenFile k ctx id path);
     bk_WriteFile ctx id path size user :=
       logged (fun _ => Written id path size user) (bk_WriteFile k ctx id path size user) |}.
Definition traced_borrowed (b : Borrowed W Info File IO) : Borrowed (W * list backend_event) Info File IO :=
  {| bo_revoked := logged AdmissionRead (bo_revoked b); bo_descriptor := bo_descriptor b;
     bo_backend := traced_backend (bo_backend b); bo_quiet := bo_quiet b |}.

(** A call of the executor. *)
Inductive call := CallExec (c : Command) | CallStat (path : string) | CallOpen (path : string) | CallWrite (path : string) (size : Z).
Definition perform (b : Borrowed W Info File IO) (ctx : Ctx) (k : call) : M W bool :=
  match k with
  | CallExec c => let* (result, e, io) := ExecStream b ctx c in ret (is_nil e)
  | CallStat path => let* r := StatFile b ctx path in ret (match r with inl _ => true | inr _ => false end)
  | CallOpen path => let* r := OpenFile b ctx path in ret (match r with inl _ => true | inr _ => false end)
  | CallWrite path size => let* (created, e) := WriteFile b ctx path size in ret (is_nil e)
  end.
End Traced.

(** The one backend call a call of the executor stands for. *)
Definition granted (d : BridgeTarget) (k : call) (ev : backend_event) : Prop :=
  match k, ev with
  | CallExec c, Executed id c' =>
      id = bt_RuntimeID d /\ PrepareCommand c (bt_Workdir d) (bt_ExecUser d) = inl c'
  | CallStat path, Statted id path' | CallOpen path, Opened id path' => id = bt_RuntimeID d /\ path' = path
  | CallWrite path size, Written id path' size' user =>
      id = bt_RuntimeID d /\ path' = path /\ size' = size /\ user = bt_ExecUser d
  | _, _ => False
  end.

(** A borrowed target stays inside its grant: every call reads the admission first,
    nothing reaches the backend once it is closed, and otherwise at most one call does,
    on the granted runtime, with the work directory and user of the grant where the
    command gives none, and with a command that was checked. *)
Theorem borrowed_stays_granted {W Info File IO} (b : Borrowed W Info File IO) ctx k :
  emits (perform (traced_borrowed b) ctx k) (fun ok evs =>
    exists closed calls, evs = AdmissionRead closed :: calls /\
      (closed = true -> calls = [] /\ ok = false) /\
      (closed = false -> (exists ev, calls = [ev] /\ granted (bo_descriptor b) k ev) \/
         calls = [] /\ ok = false /\ exists c e, k = CallExec c /\
           PrepareCommand c (bt_Workdir (bo_descriptor b)) (bt_ExecUser (bo_descriptor b)) = inr e)).
Proof.
  destruct k as [c|path|path|path size]; simpl; unfold ExecStream, StatFile, OpenFile, WriteFile;
    apply emits_flatten, emits_call; intros [|]; simpl.
  - apply emits_ret. exists true, []. by split_and!.
  - destruct (PrepareCommand _ _ _) as [c'|e] eqn:Hp.
    + apply emits_call. intros [[result e] io]. apply emits_ret. exists false. eexists.
      split; [done|]. split; [done|]. intros _. left. by eexists.
    + apply emits_ret. exists false, []. split; [done|]. split; [done|]. intros _. right. by eauto 10.
  - apply emits_ret. exists true, []. by split_and!.
  - apply emits_call. intros r. apply emits_ret. exists false. eexists.
    split; [done|]. split; [done|]. intros _. left. by eexists.
  - apply emits_ret. exists true, []. by split_and!.
  - apply emits_call. intros r. apply emits_ret. exists false. eexists.
    split; [done|]. split; [done|]. intros _. left. by eexists.
  - apply emits_ret. exists true, []. by split_and!.
  - apply emits_call. intros [created e]. apply emits_ret. exists false. eexists.
    split; [done|]. split; [done|]. intros _. left. by eexists.
Qed.

(** A grant that is accepted names the run, the task and the sandbox by single path
    elements, and the backend is asked only about such a grant. *)
Lemma Validate_identities d v :
  Validate d = None -> v ∈ [bt_RunID d; bt_TaskID d; bt_SandboxID d] ->
  v <> ""%string /\ v <> "."%string /\ v <> ".."%string /\ "/"%char ∉ to_bytes v /\ len v <= 256.
Proof.
  unfold Validate. destruct (existsb bad_identity _) eqn:Hbad; [done|]. intros _ Hin.
  assert (bad_identity v = false) as Hv.
  { destruct (bad_identity v) eqn:Hb; [|done]. exfalso.
    assert (existsb bad_identity [bt_RunID d; bt_TaskID d; bt_SandboxID d] = true); [|congruence].
    apply existsb_exists. exists v. split; [by apply list_elem_of_In|done]. }
  unfold bad_identity in Hv. apply orb_false_iff in Hv as [Hv Hdd]. apply orb_false_iff in Hv as [Hv Hd].
  apply orb_false_iff in Hv as [Hv Hc]. apply orb_false_iff in Hv as [He Hl].
  apply String.eqb_neq in He, Hd, Hdd. apply Z.ltb_ge in Hl. split_and!; try done.
  intros Hslash. unfold ContainsAny in Hc. apply not_true_iff_false in Hc. apply Hc, existsb_exists.
  exists "/"%char. split; [by apply list_elem_of_In|done].
Qed.
