(* ===== verification/NativeSandbox.v ===== *)
(** The bridge's side of one sandbox ([pkg/bridge], serve.go and artifacts.go): the
    native server behind a control entry, the manifest of its evidence at release, and
    the collection of one artifact by the run. *)

From S2P Require Import Prelude Trace Core Control Paths Net Target.

(** [transportOf] and [rawLogName] of launch.go. *)
Definition transportOf (bridgeType : string) : string :=
  if String.eqb bridgeType "hermes-ssh" || String.eqb bridgeType "openclaw-ssh" then "ssh"
  else if String.eqb bridgeType "hermes-grpc" then "grpc" else "".
Definition rawLogName (transport : string) : string := transport +:+ "_raw.log".

(** * Evidence *)

Definition maxArtifactBytes : Z := 256 * 2 ^ 20.
Definition toolCalls : string := "tool-calls.jsonl".
Definition evidenceName (name transport : string) : bool :=
  String.eqb name toolCalls || String.eqb name (rawLogName transport).

(** [Artifact] of artifacts.go. *)
Record FileArtifact := { fa_Name : string; fa_Size : Z; fa_SHA256 : string }.

(** The files under the evidence root: [os.OpenRoot], and [Lstat] and [ReadFile] in it. *)
Record EvidenceFS (W : Type) := {
  ef_OpenRoot : string -> M W error;
  ef_Lstat : string -> string -> M W (bool * Z + err);     (* regular, size *)
  ef_ReadFile : string -> string -> M W (bytes + err)
}.
Arguments ef_OpenRoot {W}.
Arguments ef_Lstat {W}.
Arguments ef_ReadFile {W}.

(** What [DownloadArchive] gives: the file's info, and what a [tar.Reader] sees on the
    bounded stream: its first header, the entry's content with the error that ends it
    early, and the error of a second [Next], [None] for a second entry. *)
Record TarHeader := { th_Regular : bool; th_Name : string; th_Size : Z }.
Record Download := {
  dl_Regular : bool;
  dl_Size : Z;
  dl_header : TarHeader + err;
  dl_content : bytes * error;
  dl_next : error
}.

Section Evidence.
Context {W : Type}.
Variable fs : EvidenceFS W.
Variable sha256_hex : bytes -> string.

(** [finalizeArtifacts]. *)
Definition finalizeArtifact (root name : string) : M W (FileArtifact + err) :=
  let* e := ef_OpenRoot fs root in
  match e with
  | Some e => ret (inr e)
  | None =>
      let* info := ef_Lstat fs root name in
      match info with
      | inr e => ret (inr e)
      | inl (regular, size) =>
          if negb regular || (maxArtifactBytes <? size) then ret (inr (ENew "invalid evidence file"))
          else
            let* content := ef_ReadFile fs root name in
            ret match content with
                | inr e => inr e
                | inl content => inl {| fa_Name := name; fa_Size := Z.of_nat (length content);
                                        fa_SHA256 := sha256_hex content |}
                end
      end
  end.
Fixpoint finalizeArtifacts (root transport : string) (names : list string) :
    M W (list FileArtifact + err) :=
  match names with
  | [] => ret (inl [])
  | name :: names =>
      if negb (evidenceName name transport) then ret (inr (ENew "unexpected evidence name"))
      else
        let* r := finalizeArtifact root name in
        match r with
        | inr e => ret (inr e)
        | inl a =>
            let* rest := finalizeArtifacts root transport names in
            ret match rest with inr e => inr e | inl rest => inl (a :: rest) end
        end
  end.

(** [collectArtifact]. *)
Variable DownloadArchive : string -> M W (Download + err).
Variable WriteFile : string -> bytes -> M W error.
Definition collectArtifact (remote local transport : string) (entry : FileArtifact) : M W error :=
  if negb (evidenceName (fa_Name entry) transport) || (fa_Size entry <? 0) || (maxArtifactBytes <? fa_Size entry)
  then ret (Some (ENew "invalid evidence manifest"))
  else
    let* stream := DownloadArchive (Join [remote; fa_Name entry]) in
    match stream with
    | inr e => ret (Some e)
    | inl stream =>
        if negb (dl_Regular stream) || negb (dl_Size stream =? fa_Size entry)
        then ret (Some (ENew "evidence stat does not match manifest"))
        else match dl_header stream with
        | inr e => ret (Some e)
        | inl header =>
            if negb (th_Regular header) || negb (String.eqb (Base (th_Name header)) (fa_Name entry)) ||
               negb (String.eqb (th_Name header) (fa_Name entry)) || negb (th_Size header =? fa_Size entry)
            then ret (Some (ENew "invalid evidence archive entry"))
            else
              let limit := Z.to_nat (fa_Size entry + 1) in
              let content := take limit (dl_content stream).1 in
              match (if (length content <? limit)%nat then (dl_content stream).2 else None) with
              | Some e => ret (Some e)
              | None =>
                  if negb (Z.of_nat (length content) =? fa_Size entry)
                  then ret (Some (ENew "evidence length mismatch"))
                  else if negb (String.eqb (sha256_hex content) (fa_SHA256 entry))
                  then ret (Some (ENew "evidence digest mismatch"))
                  else match dl_next stream with
                  | Some (ESentinel ErrEOF) =>
                      let* e := WriteFile (Join [local; fa_Name entry]) content in
                      ret (wrap "materialize evidence" e)
                  | _ => ret (Some (ENew "unexpected additional evidence archive entry"))
                  end
              end
        end
    end.
End Evidence.

(** * The native sandbox *)

(** [NativeServer], and what [Register] uses of its options. *)
Record NativeOps (W Target : Type) := {
  no_transport : string;
  no_RunID : string;
  no_Backend : string;
  no_RetainRawLog : bool;
  no_root : string;
  no_NewTarget : Ctx -> BridgeTarget -> M W (Target + err);      (* target.New *)
  no_NewNative : string -> string -> M W error;
  no_StartTarget : Ctx -> Target -> M W (ToolEndpoint + err);
  no_Revoke : M W unit;                                          (* borrowed.Revoke *)
  no_Stop : Ctx -> M W error;
  no_fs : EvidenceFS W;
  no_sha256 : bytes -> string
}.
Arguments no_transport {W Target}.
Arguments no_RunID {W Target}.
Arguments no_Backend {W Target}.
Arguments no_RetainRawLog {W Target}.
Arguments no_root {W Target}.
Arguments no_NewTarget {W Target}.
Arguments no_NewNative {W Target}.
Arguments no_StartTarget {W Target}.
Arguments no_Revoke {W Target}.
Arguments no_Stop {W Target}.
Arguments no_fs {W Target}.
Arguments no_sha256 {W Target}.

(** [nativeSandbox], the parts that change. *)
Record nativeSandbox := { ns_borrowed : bool; ns_native : bool; ns_ready : bool }.
Definition new_nativeSandbox : nativeSandbox := {| ns_borrowed := false; ns_native := false; ns_ready := false |}.

Section Native.
Context {W Target : Type}.
Variable n : NativeOps W Target.

(** [Register]; [uint32] of the port wraps. *)
Definition Register (ctx : Ctx) (request : RegisterSandboxRequest) (s : nativeSandbox) :
    M W ((Endpoint + err) * nativeSandbox) :=
  let* target := no_NewTarget n ctx (TargetFromRegistration request (no_RunID n) (no_Backend n)) in
  match target with
  | inr e => ret (inr e, {| ns_borrowed := false; ns_native := ns_native s; ns_ready := ns_ready s |})
  | inl target =>
      let* e := no_NewNative n (rq_SandboxId request) (no_root n) in
      match e with
      | Some e => ret (inr e, {| ns_borrowed := true; ns_native := false; ns_ready := ns_ready s |})
      | None =>
          let s := {| ns_borrowed := true; ns_native := true; ns_ready := ns_ready s |} in
          let* endpoint := no_StartTarget n ctx target in
          match endpoint with
          | inr e => ret (inr e, s)
          | inl endpoint =>
              ret match SplitHostPort (te_Address endpoint) with
                  | inr e => (inr e, s)
                  | inl (_, port) =>
                      match Atoi port with
                      | inr e => (inr e, s)
                      | inl number =>
                          (inl {| ep_Port := Z.to_N (number mod 2 ^ 32); ep_User := te_Username endpoint;
                                  ep_Transport := te_Protocol endpoint |},
                           {| ns_borrowed := true; ns_native := true; ns_ready := true |})
                      end
                  end
          end
      end
  end.

(** [Release]: the manifest of the evidence names, once the server has stopped. *)
Definition evidence_names : list string :=
  toolCalls :: (if no_RetainRawLog n then [rawLogName (no_transport n)] else []).
Definition absent (name : string) : Artifact :=
  {| af_Name := name; af_Status := "absent"; af_Size := 0; af_Sha256 := "" |}.
Definition complete (a : FileArtifact) : Artifact :=
  {| af_Name := fa_Name a; af_Status := "complete"; af_Size := fa_Size a; af_Sha256 := fa_SHA256 a |}.
Fixpoint manifest (names : list string) (ready : bool) : M W (list Artifact + err) :=
  match names with
  | [] => ret (inl [])
  | name :: names =>
      let* entries := finalizeArtifacts (no_fs n) (no_sha256 n) (no_root n) (no_transport n) [name] in
      let more (a : Artifact) :=
        let* rest := manifest names ready in
        ret match rest with inr e => inr e | inl rest => inl (a :: rest) end in
      match entries with
      | inr e => if errors_Is e ErrNotExist && negb ready then more (absent name) else ret (inr e)
      | inl entries =>
          match entries with
          | a :: _ => more (complete a)
          | [] => ret (inr (ENew "index out of range"))
          end
      end
  end.
Definition Release (ctx : Ctx) (s : nativeSandbox) : M W ((list Artifact + err) * nativeSandbox) :=
  let* _ := if ns_borrowed s then no_Revoke n else ret tt in
  let* e := if ns_native s then no_Stop n ctx else ret None in
  match e with
  | Some e => ret (inr e, s)
  | None =>
      let* result := manifest evidence_names (ns_ready s) in
      ret match result with
          | inr e => (inr e, s)
          | inl entries => (inl entries, {| ns_borrowed := false; ns_native := false; ns_ready := ns_ready s |})
          end
  end.
End Native.

(** * What a release attests *)

Inductive native_event :=
  | Revoked
  | NativeStopped (e : error)
  | RootOpened (root : string) (e : error)
  | Lstatted (root name : string) (r : bool * Z + err)
  | ReadEvidence (root name : string) (r : bytes + err).
Definition reads (ev : native_event) : Prop :=
  match ev with RootOpened _ _ | Lstatted _ _ _ | ReadEvidence _ _ _ => True | _ => False end.

Section Traced_native.
Context {W Target : Type}.
Definition traced_evidence (fs : EvidenceFS W) : EvidenceFS (W * list native_event) :=
  {| ef_OpenRoot root := logged (RootOpened root) (ef_OpenRoot fs root);
     ef_Lstat root name := logged (Lstatted root name) (ef_Lstat fs root name);
     ef_ReadFile root name := logged (ReadEvidence root name) (ef_ReadFile fs root name) |}.
Definition traced_native (n : NativeOps W Target) : NativeOps (W * list native_event) Target :=
  {| no_transport := no_transport n; no_RunID := no_RunID n; no_Backend := no_Backend n;
     no_RetainRawLog := no_RetainRawLog n; no_root := no_root n;
     no_NewTarget ctx d := silent (no_NewTarget n ctx d);
     no_NewNative id root := silent (no_NewNative n id root);
     no_StartTarget ctx target := silent (no_StartTarget n ctx target);
     no_Revoke := logged (fun _ => Revoked) (no_Revoke n);
     no_Stop ctx := logged NativeStopped (no_Stop n ctx);
     no_fs := traced_evidence (no_fs n); no_sha256 := no_sha256 n |}.

Variable n : NativeOps W Target.
Notation t := (traced_native n).

(** An entry that is complete describes what was read of the file. *)
Definition attested (a : Artifact) (evs : list native_event) : Prop :=
  af_Status a = "complete"%string /\ exists content,
    ReadEvidence (no_root n) (af_Name a) (inl content) ∈ evs /\
    af_Size a = Z.of_nat (length content) /\ af_Sha256 a = no_sha256 n content.
Definition attests (ready : bool) (a : Artifact) (evs : list native_event) : Prop :=
  attested a evs \/ a = absent (af_Name a) /\ ready = false.

Lemma finalizeArtifact_emits name :
  emits (finalizeArtifact (no_fs t) (no_sha256 n) (no_root n) name) (fun r evs =>
    Forall reads evs /\ forall a, r = inl a -> fa_Name a = name /\ attested (complete a) evs).
Proof.
  unfold finalizeArtifact. apply emits_call. intros [e|]; [apply emits_ret; split; [by repeat constructor|done]|].
  apply emits_call. intros [[regular size]|e]; [|apply emits_ret; split; [by repeat constructor|done]].
  destruct (_ || _); [apply emits_ret; split; [by repeat constructor|done]|].
  apply emits_call. intros [content|e]; apply emits_ret; (split; [by repeat constructor|]); [|done].
  intros a [= <-]. split; [done|]. split; [done|]. exists content. split; [|done].
  do 2 right. left.
Qed.

Lemma manifest_emits names ready :
  Forall (fun name => evidenceName name (no_transport n) = true) names ->
  emits (manifest t names ready) (fun r evs => Forall reads evs /\ forall entries, r = inl entries ->
    map af_Name entries = names /\ Forall (fun a => attests ready a evs) entries).
Proof.
  induction 1 as [|name names Hname _ IH]; cbn [manifest].
  { apply emits_ret. split; [done|]. by intros entries [= <-]. }
  assert (forall a evs, Forall reads evs -> af_Name a = name -> attests ready a evs ->
    emits (let* rest := manifest t names ready in
           ret match rest with inr e => inr e | inl rest => inl (a :: rest) end)
      (fun r evs' => Forall reads (evs ++ evs') /\ forall entries, r = inl entries ->
         map af_Name entries = name :: names /\ Forall (fun a => attests ready a (evs ++ evs')) entries)) as Hmore.
  { intros a evs Hev Ha Hat. eapply emits_bind; [exact IH|]. intros r evs' [Hr Hrest]. apply emits_ret.
    rewrite app_nil_r. split; [by apply Forall_app|]. destruct r as [rest|e]; [|done]. intros entries [= <-].
    destruct (Hrest rest eq_refl) as [Hnames Hall]. split; [simpl; congruence|]. constructor.
    - destruct Hat as [(Hc & content & Hin & Hs)|?]; [left|by right]. split; [done|]. exists content.
      split; [|done]. apply elem_of_app. by left.
    - eapply Forall_impl; [exact Hall|]. intros b [(Hc & content & Hin & Hs)|?]; [left|by right].
      split; [done|]. exists content. split; [|done]. apply elem_of_app. by right. }
  eapply (emits_bind _ _ (fun r evs => Forall reads evs /\ (forall entries, r = inl entries ->
    exists a, entries = [a] /\ fa_Name a = name /\ attested (complete a) evs))).
  { cbn [finalizeArtifacts traced_native no_transport]. rewrite Hname. cbn [negb]. eapply emits_bind; [apply finalizeArtifact_emits|].
    intros [a|e] evs [Hev Ha]; [|by apply emits_ret; rewrite app_nil_r]. apply emits_bind_ret, emits_ret.
    rewrite app_nil_r. split; [done|]. intros entries [= <-]. exists a. by destruct (Ha a eq_refl). }
  intros [entries|e] evs [Hev Hent].
  - destruct (Hent entries eq_refl) as (a & -> & Hn & Hat). apply (Hmore (complete a)); [done|done|by left].
  - destruct (errors_Is e ErrNotExist && negb ready) eqn:Habs.
    + apply (Hmore (absent name)); [done|done|]. right. split; [done|].
      apply andb_true_iff in Habs as [_ ?]. by apply negb_true_iff.
    + apply emits_ret. rewrite app_nil_r. split; [done|]. by intros entries.
Qed.

Lemma evidence_names_valid :
  Forall (fun name => evidenceName name (no_transport n) = true) (evidence_names t).
Proof.
  unfold evidence_names, evidenceName. constructor; [done|]. simpl. destruct (no_RetainRawLog n); [|constructor].
  constructor; [|constructor]. by rewrite String.eqb_refl, orb_true_r.
Qed.

(** A release attests the evidence of a sandbox only once nothing can change it: the
    borrowed target is revoked, then the native server stopped, and only after its
    success is any file read.  The manifest names each evidence file once, in order;
    a complete entry has the length and digest of the content read, and an entry is
    absent only for a file that does not exist of a server that never was ready.  A
    release that fails changes nothing, so it can be repeated. *)
Theorem native_release_attests ctx s :
  emits (Release t ctx s) (fun out evs =>
    exists closing reading, evs = closing ++ reading /\ Forall reads reading /\
      (exists e, closing = (if ns_borrowed s then [Revoked] else []) ++ (if ns_native s then [NativeStopped e] else []) /\
         (e <> None -> ns_native s = true -> reading = [] /\ exists e', out.1 = inr e')) /\
      match out.1 with
      | inr _ => out.2 = s
      | inl entries => ns_borrowed out.2 = false /\ ns_native out.2 = false /\
          map af_Name entries = toolCalls :: (if no_RetainRawLog n then [rawLogName (no_transport n)] else []) /\
          Forall (fun a => attests (ns_ready s) a reading) entries
      end).
Proof.
  unfold Release. eapply (emits_bind _ _ (fun _ evs => evs = if ns_borrowed s then [Revoked] else [])).
  { destruct (ns_borrowed s); [by apply emits_logged|by apply emits_ret]. }
  intros [] ? ->. eapply (emits_bind _ _ (fun e evs => evs = if ns_native s then [NativeStopped e] else [])).
  { destruct (ns_native s); [by apply emits_logged|by apply emits_ret]. }
  intros [e|] ? ->.
  - apply emits_ret.
    exists ((if ns_borrowed s then [Revoked] else []) ++ (if ns_native s then [NativeStopped (Some e)] else [])), [].
    split; [by rewrite !app_nil_r|]. split; [done|].
    split; [|done]. exists (Some e). split; [done|]. intros _ _. split; [done|]. by eexists.
  - eapply emits_bind; [apply (manifest_emits _ (ns_ready s)), evidence_names_valid|].
    intros r evs [Hr Hent]. apply emits_ret. rewrite app_nil_r, app_assoc. eexists _, evs.
    split; [done|]. split; [done|]. split; [by exists None|].
    destruct r as [entries|e]; simpl; [|done]. by destruct (Hent entries eq_refl).
Qed.
End Traced_native.

(** * What a collection guarantees *)

Inductive collect_event :=
  | Downloaded (path : string) (r : Download + err)
  | WroteLocal (path : string) (content : bytes) (e : error).

Section Collected.
Context {W E : Type}.
Variable inj : collect_event -> E.
Variable sha256_hex : bytes -> string.
Variables (DownloadArchive : string -> M W (Download + err)) (WriteFile : string -> bytes -> M W error).
Definition traced_collect :=
  collectArtifact sha256_hex (fun path => logged (fun r => inj (Downloaded path r)) (DownloadArchive path))
    (fun path content => logged (fun e => inj (WroteLocal path content e)) (WriteFile path content)).

(** What is collected: the one regular file of the archive, with the manifest's name,
    size and digest, under the local directory. *)
Definition collected (remote local : string) (entry : FileArtifact) (e : error) (evs : list collect_event) : Prop :=
  exists stream content, evs = [Downloaded (Join [remote; fa_Name entry]) (inl stream);
                                WroteLocal (Join [local; fa_Name entry]) content e] /\
    Z.of_nat (length content) = fa_Size entry /\ sha256_hex content = fa_SHA256 entry /\
    dl_Regular stream = true /\ (dl_content stream).1 = content /\ dl_next stream = Some (ESentinel ErrEOF).

Lemma take_exact {A} (limit : nat) (l : list A) : (length (take limit l) < limit)%nat -> take limit l = l.
Proof. rewrite length_take. intros H. apply take_ge. lia. Qed.

Definition collect_outcome (remote local transport : string) (entry : FileArtifact) (e : error)
    (evs : list collect_event) : Prop :=
  (e = None /\ evidenceName (fa_Name entry) transport = true /\ fa_Size entry <= maxArtifactBytes /\
     collected remote local entry None evs) \/
  (e <> None /\ ((forall path content e', WroteLocal path content e' ∉ evs) \/
     exists e', collected remote local entry (Some e') evs)).

Lemma collectArtifact_emits remote local transport entry :
  emits (traced_collect remote local transport entry) (fun e evs =>
    exists cevs, evs = inj <$> cevs /\ collect_outcome remote local transport entry e cevs).
Proof.
  unfold traced_collect, collectArtifact.
  assert (forall (e : err) (evs : list collect_event), (forall path content e', WroteLocal path content e' ∉ evs) ->
    emits (W := W) (E := E) (ret (Some e)) (fun e evs' => exists cevs, (inj <$> evs) ++ evs' = inj <$> cevs /\
      collect_outcome remote local transport entry e cevs)) as Hfail.
  { intros e evs Hno. apply emits_ret. exists evs. rewrite app_nil_r. split; [done|]. right. split; [done|]. by left. }
  destruct (evidenceName (fa_Name entry) transport) eqn:Hname; cbn [negb orb].
  2: { apply (Hfail _ []). intros. apply not_elem_of_nil. }
  destruct (Z.ltb_spec (fa_Size entry) 0) as [|Hpos]; cbn [orb].
  { apply (Hfail _ []). intros. apply not_elem_of_nil. }
  destruct (Z.ltb_spec maxArtifactBytes (fa_Size entry)) as [|Hmax]; cbn [orb].
  { apply (Hfail _ []). intros. apply not_elem_of_nil. }
  apply emits_call. intros [stream|e]; [|apply (Hfail _ [_]); set_solver].
  assert (forall e : err, emits (W := W) (E := E) (ret (Some e)) (fun e evs =>
    exists cevs, inj (Downloaded (Join [remote; fa_Name entry]) (inl stream)) :: evs = inj <$> cevs /\
      collect_outcome remote local transport entry e cevs)) as Hrefuse.
  { intros e. apply (Hfail _ [_]). set_solver. }
  destruct (dl_Regular stream) eqn:Hreg; cbn [negb orb]; [|apply Hrefuse].
  destruct (negb (dl_Size stream =? _)); [apply Hrefuse|].
  destruct (dl_header stream) as [header|e]; [|apply Hrefuse].
  destruct (_ || negb (th_Size header =? _)); [apply Hrefuse|].
  set (limit := Z.to_nat (fa_Size entry + 1)). set (content := take limit (dl_content stream).1).
  destruct (if (length content <? limit)%nat then _ else _); [apply Hrefuse|].
  destruct (Z.eqb_spec (Z.of_nat (length content)) (fa_Size entry)) as [Hlen|]; cbn [negb]; [|apply Hrefuse].
  destruct (String.eqb_spec (sha256_hex content) (fa_SHA256 entry)) as [Hsha|]; cbn [negb]; [|apply Hrefuse].
  destruct (dl_next stream) as [[|[] | | | | |]|] eqn:Hnext; try apply Hrefuse.
  apply emits_call. intros e. apply emits_ret.
  assert ((dl_content stream).1 = content) as Hwhole.
  { symmetry. apply take_exact. fold content. unfold limit. lia. }
  exists [Downloaded (Join [remote; fa_Name entry]) (inl stream); WroteLocal (Join [local; fa_Name entry]) content e].
  split; [done|]. destruct e as [e|]; [right|left].
  - split; [done|]. right. exists e, stream, content. by split_and!.
  - split; [done|]. split; [done|]. split; [done|]. exists stream, content. by split_and!.
Qed.
End Collected.

(** A collected artifact is the attested one: the collection succeeds only if the
    bounded archive holds one regular file of the manifest's name, the whole content
    has the manifest's size and digest, and exactly this content was written; on any
    other answer nothing is written at all, except for a write that itself failed. *)
Theorem collect_is_attested {W} sha256_hex (DownloadArchive : string -> M W (Download + err)) WriteFile
    remote local transport entry :
  emits (traced_collect id sha256_hex DownloadArchive WriteFile remote local transport entry) (fun e evs =>
    (e = None <-> evidenceName (fa_Name entry) transport = true /\ fa_Size entry <= maxArtifactBytes /\
       collected sha256_hex remote local entry None evs) /\
    (e <> None -> (forall path content e', WroteLocal path content e' ∉ evs) \/
       exists e', collected sha256_hex remote local entry (Some e') evs)).
Proof.
  eapply emits_mono; [apply collectArtifact_emits|].
  intros e evs (cevs & -> & [(-> & Hn & Hm & Hc)|(He & Hrest)]); rewrite list_fmap_id; [by split|].
  split; [|done]. split; [done|].
  intros (_ & _ & stream & content & -> & _).
  destruct Hrest as [Hno|(e' & stream' & content' & [=] & _)]. exfalso. apply (Hno (Join [local; fa_Name entry]) content None). right. left.
Qed.
