(* ===== verification/Deployments.v ===== *)
(** What the modelled code asks of a deployment ([pkg/deployment], deployment.go): the
    description of one private runtime. *)

From S2P Require Import Prelude Core.

(** [deployment.Mount] and [deployment.Request]. *)
Record Mount := { mt_Source : string; mt_Target : string; mt_ReadOnly : bool }.
Record Request := {
  rt_InternalPort : Z;
  rt_Mounts : list Mount;
  rt_Workdir : string;
  rt_StorageMB : Z;
  rt_GPUs : Z;
  rt_Init : bool;
  rt_NoNewPrivileges : bool;
  rt_NetworkAliases : list string;
  rt_AllowImageVolumes : bool;
  rt_Name : string;
  rt_Image : string;
  rt_Env : list string;
  rt_Entrypoint : option (list string);
  rt_Args : list string;
  rt_Labels : gmap string string;
  rt_Placement : RuntimePlacement;
  rt_CPU : option float64;
  rt_MemoryMB : option Z;
  rt_ImageVolumes : list string;
  rt_ServicePort : Z
}.
