(* ===== verification/BridgeSession.v ===== *)
(** The run's side of one sandbox's bridge access ([pkg/bridge], session.go and
    admission.go): the registration with its reconciliation, the endpoint it exposes,
    and the stop that releases the access and collects the attested evidence. *)

From S2P Require Import Prelude Trace Core Control Paths Net Target NativeSandbox.

(** * Remote calls *)

(** [status.Code] of an error of the control client. *)
Inductive rpc_code := RpcUnavailable | RpcDeadlineExceeded | RpcCanceled | RpcNotFound | RpcOther.
#[export] Instance rpc_code_eq_dec : EqDecision rpc_code.
Proof. solve_decision. Defined.
Record rpc_error := { re_code : rpc_code; re_err : err }.
Definition rpc_answer : Type := option SandboxAccess * option rpc_error.

Definition uncertainControlResult (e : rpc_error) : bool :=
  match re_code e with
  | RpcUnavailable | RpcDeadlineExceeded | RpcCanceled => true
  | _ => false
  end.

(** * The client helper *)

Record HelperInfo := { hi_Regular : bool; hi_Perm : Z; hi_Mode : Z; hi_Size : Z; hi_ModTime : Z; hi_ID : Z }.
Record HelperFS (W : Type) := {
  hf_Lstat : string -> M W (HelperInfo + err);
  hf_Open : string -> M W error;
  hf_ReadAll : M W (bytes * error);            (* of the bounded input *)
  hf_CloseInput : M W error;
  hf_Create : string -> M W error;
  hf_Write : bytes -> M W error;
  hf_Chmod : Z -> M W error;
  hf_CloseOutput : M W error;
  hf_Remove : string -> M W error
}.
Arguments hf_Lstat {W}.
Arguments hf_Open {W}.
Arguments hf_ReadAll {W}.
Arguments hf_CloseInput {W}.
Arguments hf_Create {W}.
Arguments hf_Write {W}.
Arguments hf_Chmod {W}.
Arguments hf_CloseOutput {W}.
Arguments hf_Remove {W}.

Definition maxHelperBytes : Z := 64 * 2 ^ 20.
Definition stageClientHelper {W} (fs : HelperFS W) (source destination : string) : M W error :=
  let* before := hf_Lstat fs source in
  match before with
  | inr e => ret (Some e)
  | inl before =>
      if negb (hi_Regular before) || (Z.land (hi_Perm before) 73 =? 0) || (hi_Size before <=? 0) ||
         (maxHelperBytes <? hi_Size before)
      then ret (Some (ENew "bridge helper must be a bounded regular executable"))
      else
        let* e := hf_Open fs source in
        match e with
        | Some e => ret (Some e)
        | None =>
            let* (content, readErr) := hf_ReadAll fs in
            let* closeErr := hf_CloseInput fs in
            match errors_Join [readErr; closeErr] with
            | Some e => ret (Some e)
            | None =>
                let* after := hf_Lstat fs source in
                match after with
                | inr e => ret (Some e)
                | inl after =>
                    if negb (hi_ID before =? hi_ID after) ||
                       negb (hi_Size before =? Z.of_nat (length content)) ||
                       negb (hi_Mode before =? hi_Mode after) ||
                       negb (hi_ModTime before =? hi_ModTime after)
                    then ret (Some (ENew "bridge helper source changed while staging"))
                    else
                      let* e := hf_Create fs destination in
                      match e with
                      | Some e => ret (Some e)
                      | None =>
                          let* writeErr := hf_Write fs content in
                          let* modeErr := hf_Chmod fs 365 in
                          let* closeErr := hf_CloseOutput fs in
                          ret (errors_Join [writeErr; modeErr; closeErr])
                      end
                end
            end
        end
  end.

(** * The session *)

(** [Session]. *)
Record Session := {
  bs_started : bool;
  bs_stopped : bool;
  bs_descriptor : BridgeTarget;
  bs_local : string;
  bs_remote : string;
  bs_helper : string;
  bs_registered : bool;
  bs_exposed : bool;
  bs_released : bool;
  bs_collected : bool;
  bs_manifest : list Artifact;
  bs_evidenceErr : error
}.
Definition no_descriptor : BridgeTarget :=
  {| bt_SandboxID := ""; bt_RunID := ""; bt_TaskID := ""; bt_Backend := ""; bt_RuntimeID := "";
     bt_Workdir := ""; bt_ExecUser := "" |}.
Definition new_Session : Session :=
  {| bs_started := false; bs_stopped := false; bs_descriptor := no_descriptor; bs_local := ""; bs_remote := "";
     bs_helper := ""; bs_registered := false; bs_exposed := false; bs_released := false;
     bs_collected := false; bs_manifest := []; bs_evidenceErr := None |}.

Definition set_bs_started (x : bool) (r : Session) : Session :=
  {| bs_started := x; bs_stopped := bs_stopped r; bs_descriptor := bs_descriptor r;
     bs_local := bs_local r; bs_remote := bs_remote r; bs_helper := bs_helper r;
     bs_registered := bs_registered r; bs_exposed := bs_exposed r; bs_released := bs_released r;
     bs_collected := bs_collected r; bs_manifest := bs_manifest r;
     bs_evidenceErr := bs_evidenceErr r |}.
Definition set_bs_stopped (x : bool) (r : Session) : Session :=
  {| bs_started := bs_started r; bs_stopped := x; bs_descriptor := bs_descriptor r;
     bs_local := bs_local r; bs_remote := bs_remote r; bs_helper := bs_helper r;
     bs_registered := bs_registered r; bs_exposed := bs_exposed r; bs_released := bs_released r;
     bs_collected := bs_collected r; bs_manifest := bs_manifest r;
     bs_evidenceErr := bs_evidenceErr r |}.
Definition set_bs_helper (x : string) (r : Session) : Session :=
  {| bs_started := bs_started r; bs_stopped := bs_stopped r; bs_descriptor := bs_descriptor r;
     bs_local := bs_local r; bs_remote := bs_remote r; bs_helper := x;
     bs_registered := bs_registered r; bs_exposed := bs_exposed r; bs_released := bs_released r;
     bs_collected := bs_collected r; bs_manifest := bs_manifest r;
     bs_evidenceErr := bs_evidenceErr r |}.
Definition set_bs_registered (x : bool) (r : Session) : Session :=
  {| bs_started := bs_started r; bs_stopped := bs_stopped r; bs_descriptor := bs_descriptor r;
     bs_local := bs_local r; bs_remote := bs_remote r; bs_helper := bs_helper r;
     bs_registered := x; bs_exposed := bs_exposed r; bs_released := bs_released r;
     bs_collected := bs_collected r; bs_manifest := bs_manifest r;
     bs_evidenceErr := bs_evidenceErr r |}.
Definition set_bs_exposed (x : bool) (r : Session) : Session :=
  {| bs_started := bs_started r; bs_stopped := bs_stopped r; bs_descriptor := bs_descriptor r;
     bs_local := bs_local r; bs_remote := bs_remote r; bs_helper := bs_helper r;
     bs_registered := bs_registered r; bs_exposed := x; bs_released := bs_released r;
     bs_collected := bs_collected r; bs_manifest := bs_manifest r;
     bs_evidenceErr := bs_evidenceErr r |}.
Definition set_bs_released (x : bool) (r : Session) : Session :=
  {| bs_started := bs_started r; bs_stopped := bs_stopped r; bs_descriptor := bs_descriptor r;
     bs_local := bs_local r; bs_remote := bs_remote r; bs_helper := bs_helper r;
     bs_registered := bs_registered r; bs_exposed := bs_exposed r; bs_released := x;
     bs_collected := bs_collected r; bs_manifest := bs_manifest r;
     bs_evidenceErr := bs_evidenceErr r |}.
Definition set_bs_collected (x : bool) (r : Session) : Session :=
  {| bs_started := bs_started r; bs_stopped := bs_stopped r; bs_descriptor := bs_descriptor r;
     bs_local := bs_local r; bs_remote := bs_remote r; bs_helper := bs_helper r;
     bs_registered := bs_registered r; bs_exposed := bs_exposed r; bs_released := bs_released r;
     bs_collected := x; bs_manifest := bs_manifest r; bs_evidenceErr := bs_evidenceErr r |}.
Definition set_bs_manifest (x : list Artifact) (r : Session) : Session :=
  {| bs_started := bs_started r; bs_stopped := bs_stopped r; bs_descriptor := bs_descriptor r;
     bs_local := bs_local r; bs_remote := bs_remote r; bs_helper := bs_helper r;
     bs_registered := bs_registered r; bs_exposed := bs_exposed r; bs_released := bs_released r;
     bs_collected := bs_collected r; bs_manifest := x; bs_evidenceErr := bs_evidenceErr r |}.
Definition set_bs_evidenceErr (x : error) (r : Session) : Session :=
  {| bs_started := bs_started r; bs_stopped := bs_stopped r; bs_descriptor := bs_descriptor r;
     bs_local := bs_local r; bs_remote := bs_remote r; bs_helper := bs_helper r;
     bs_registered := bs_registered r; bs_exposed := bs_exposed r; bs_released := bs_released r;
     bs_collected := bs_collected r; bs_manifest := bs_manifest r; bs_evidenceErr := x |}.

Definition set_bs_target (d : BridgeTarget) (local remote : string) (r : Session) : Session :=
  {| bs_started := bs_started r; bs_stopped := bs_stopped r; bs_descriptor := d;
     bs_local := local; bs_remote := remote; bs_helper := bs_helper r;
     bs_registered := bs_registered r; bs_exposed := bs_exposed r; bs_released := bs_released r;
     bs_collected := bs_collected r; bs_manifest := bs_manifest r;
     bs_evidenceErr := bs_evidenceErr r |}.

(** What a session uses of its service, the control client, the deployment and the
    file system. *)
Record SessionOps (W : Type) := {
  so_running : M W bool;                       (* the service's state is "running" *)
  so_RuntimeBackend : string;
  so_Backend : string;
  so_RunID : string;
  so_OutputDir : string;
  so_runtimeID : string;
  so_runtimeName : string;
  so_outputRoot : string;
  so_transport : string;
  so_RetainRawLog : bool;
  so_ClientCommand : string;
  so_ClientSourcePath : string;
  so_MkdirAll : string -> M W error;
  so_WriteJSON : string -> list (string * string) -> M W error;
  so_RegisterSandbox : Ctx -> RegisterSandboxRequest -> M W rpc_answer;
  so_GetSandbox : Ctx -> string -> M W rpc_answer;
  so_ReleaseSandbox : Ctx -> string -> M W rpc_answer;
  so_waitPoll : Ctx -> M W error;
  so_TaskAddress : Ctx -> string -> Z -> M W (string + err);
  so_Running : Ctx -> string -> M W (bool * error);
  so_helper : HelperFS W;
  so_DownloadArchive : Ctx -> string -> string -> M W (Download + err);
  so_WriteFile : string -> bytes -> M W error;
  so_sha256 : bytes -> string
}.
Arguments so_running {W}.
Arguments so_RuntimeBackend {W}.
Arguments so_Backend {W}.
Arguments so_RunID {W}.
Arguments so_OutputDir {W}.
Arguments so_runtimeID {W}.
Arguments so_runtimeName {W}.
Arguments so_outputRoot {W}.
Arguments so_transport {W}.
Arguments so_RetainRawLog {W}.
Arguments so_ClientCommand {W}.
Arguments so_ClientSourcePath {W}.
Arguments so_MkdirAll {W}.
Arguments so_WriteJSON {W}.
Arguments so_RegisterSandbox {W}.
Arguments so_GetSandbox {W}.
Arguments so_ReleaseSandbox {W}.
Arguments so_waitPoll {W}.
Arguments so_TaskAddress {W}.
Arguments so_Running {W}.
Arguments so_helper {W}.
Arguments so_DownloadArchive {W}.
Arguments so_WriteFile {W}.
Arguments so_sha256 {W}.

Section Session.
Context {W : Type} `{!Runtime W}.
Variable o : SessionOps W.

(** [record], its JSON document as fields. *)
Definition session_record (s : Session) : M W error :=
  so_WriteJSON o (Join [bs_local s; "runtime.json"])
    [("Backend", so_RuntimeBackend o); ("RuntimeID", so_runtimeID o); ("RuntimeName", so_runtimeName o);
     ("SandboxID", bt_SandboxID (bs_descriptor s)); ("TargetRuntimeID", bt_RuntimeID (bs_descriptor s))].

(** [validateAccess]. *)
Definition validateAccess (a : option SandboxAccess) (s : Session) : SandboxAccess + err :=
  match a with
  | None => inr (ENew "bridge sandbox identity differs")
  | Some a =>
      if String.eqb (ac_SandboxId a) (bt_SandboxID (bs_descriptor s)) then inl a
      else inr (ENew "bridge sandbox identity differs")
  end.

(** [registerSandbox]: the loop on the last answer, and the call before it.  [None] is
    a loop that runs out of fuel. *)
Fixpoint register_loop (fuel : nat) (ctx : Ctx) (immutable : RegisterSandboxRequest) (s : Session)
    (answer : rpc_answer) : M W (option (SandboxAccess + err)) :=
  let (access, e) := answer in
  let* ctxErr := ctx_Err ctx in
  match ctxErr with
  | Some c => ret (Some (inr (EJoin (omap id [re_err <$> e; Some (ESentinel c)]))))
  | None =>
      let settled :=
        match e with
        | None =>
            match validateAccess access s with
            | inr identityErr => Some (inr identityErr)
            | inl access => if decide (ac_State access = REGISTERING) then None else Some (inl access)
            end
        | Some e => if uncertainControlResult e then None else Some (inr (re_err e))
        end in
      match settled with
      | Some result => ret (Some result)
      | None =>
          let* e := so_waitPoll o ctx in
          match e with
          | Some e => ret (Some (inr e))
          | None =>
              let* (access, e) := so_GetSandbox o ctx (bt_SandboxID (bs_descriptor s)) in
              let* answer :=
                if bool_decide (re_code <$> e = Some RpcNotFound)
                then so_RegisterSandbox o ctx immutable else ret (access, e) in
              match fuel with
              | O => ret None
              | S fuel => register_loop fuel ctx immutable s answer
              end
          end
      end
  end.
Definition registerSandbox (fuel : nat) (ctx : Ctx) (request : RegisterSandboxRequest) (s : Session) :
    M W (option (SandboxAccess + err)) :=
  let* answer := so_RegisterSandbox o ctx request in
  register_loop fuel ctx request s answer.

(** [Start], from the registration on. *)
Definition resolved_port (address : string) : unit + err :=
  match SplitHostPort address with
  | inr _ => inr (ENew "invalid resolved native endpoint")
  | inl (host, port) =>
      if String.eqb host "" then inr (ENew "invalid resolved native endpoint")
      else match Atoi port with
      | inr _ => inr (ENew "invalid resolved native endpoint port")
      | inl n => if (n <? 1) || (65535 <? n) then inr (ENew "invalid resolved native endpoint port") else inl tt
      end
  end.
Definition native_refused (native : Endpoint) : bool :=
  negb (String.eqb (ep_Transport native) (so_transport o)) || negb (String.eqb (ep_User native) "aries") ||
  (ep_Port native =? 0)%N || (65535 <? ep_Port native)%N.
Definition session_endpoint (s : Session) (native : Endpoint) (address : string) : ToolEndpoint :=
  {| te_Protocol := so_transport o; te_Address := address; te_Username := ep_User native;
     te_ClientCommand := if String.eqb (so_ClientSourcePath o) "" then "" else so_ClientCommand o;
     te_ClientSourceFile := if String.eqb (so_ClientSourcePath o) "" then ""
                            else Join [bs_local s; Base (so_ClientCommand o)];
     te_LogPaths := Join [bs_local s; "tool-calls.jsonl"] ::
       (if so_RetainRawLog o then [Join [bs_local s; rawLogName (so_transport o)]] else []);
     te_Workdir := bt_Workdir (bs_descriptor s) |}.
Definition State_text (state : State) : string :=
  match state with REGISTERING => "REGISTERING" | READY => "READY" | RELEASING => "RELEASING" | RELEASED => "RELEASED" end.

Definition expose (ctx : Ctx) (access : SandboxAccess) (s : Session) : M W ((ToolEndpoint + err) * Session) :=
  let failed := ENew ("bridge sandbox registration failed: state " +:+ State_text (ac_State access) +:+ ": " +:+
                      ac_Error access) in
  match ac_Endpoint access with
  | None => ret (inr failed, s)
  | Some native =>
      if negb (bool_decide (ac_State access = READY)) then ret (inr failed, s)
      else if native_refused native then ret (inr (ENew "invalid native bridge endpoint"), s)
      else
        let* address := so_TaskAddress o ctx (so_runtimeID o) (Z.of_N (ep_Port native)) in
        match address with
        | inr e => ret (inr e, s)
        | inl address =>
            match resolved_port address with
            | inr e => ret (inr e, s)
            | inl _ =>
                let endpoint := session_endpoint s native address in
                if String.eqb (so_ClientSourcePath o) "" then ret (inl endpoint, set_bs_exposed true s)
                else
                  let s := set_bs_helper (te_ClientSourceFile endpoint) s in
                  let* e := stageClientHelper (so_helper o) (so_ClientSourcePath o) (bs_helper s) in
                  ret match e with
                      | Some e => (inr e, s)
                      | None => (inl endpoint, set_bs_exposed true s)
                      end
            end
        end
  end.

(** [Start]; [exporter] is the sandbox's [ExportBridgeTarget] where it has one. *)
Definition minute : Z := 60 * 10 ^ 9.
Definition session_Start (fuel : nat) (ctx : Ctx) (exporter : option (M W (BridgeTarget + err))) (s : Session) :
    M W (option ((ToolEndpoint + err) * Session)) :=
  let fail (e : err) s := ret (Some (inr e, s)) in
  if bs_started s || bs_stopped s then fail (ENew "bridge session cannot be reused") s
  else
    let s := set_bs_started true s in
    let* running := so_running o in
    if negb running then fail (ENew "bridge service is not running") s
    else
      let ctx := WithTimeout ctx minute in
      match exporter with
      | None => fail (ENew "sandbox cannot export a bridge target") s
      | Some export =>
          let* d := export in
          match d with
          | inr e => fail e s
          | inl d =>
              match Validate d with
              | Some e => fail e s
              | None =>
                  if negb (String.eqb (bt_Backend d) (so_Backend o)) || negb (String.eqb (bt_RunID d) (so_RunID o))
                  then fail (ENew "sandbox backend or run does not match bridge service") s
                  else
                    let s := set_bs_target d (Join [so_outputRoot o; bt_TaskID d; "bridge"])
                               (Join [so_OutputDir o; bt_SandboxID d]) s in
                    let* e := so_MkdirAll o (bs_local s) in
                    match e with
                    | Some e => fail e s
                    | None =>
                        let* e := session_record s in
                        match e with
                        | Some e => fail e s
                        | None =>
                            let s := set_bs_registered true s in
                            let* access := registerSandbox fuel ctx (Registration d) s in
                            match access with
                            | None => ret None
                            | Some (inr e) => fail e s
                            | Some (inl access) => let* r := expose ctx access s in ret (Some r)
                            end
                        end
                    end
              end
          end
      end.

(** [removeHelper]. *)
Definition removeHelper (s : Session) : M W error :=
  if String.eqb (bs_helper s) "" then ret None
  else
    let* e := hf_Remove (so_helper o) (bs_helper s) in
    ret match e with
        | Some e => if errors_Is e ErrNotExist then None else Some e
        | None => None
        end.

(** [Stop]: the manifest of a release against the names it may and must have. *)
Definition expected_names : gmap string bool :=
  let expected := {[ "tool-calls.jsonl" := false ]} in
  if so_RetainRawLog o then <[rawLogName (so_transport o) := false]> expected else expected.
Definition manifest_error : err := ENew "bridge evidence manifest is incomplete or unexpected".
Fixpoint collect_manifest (ctx : Ctx) (s : Session) (entries : list Artifact) (expected : gmap string bool) :
    M W (gmap string bool + err) :=
  match entries with
  | [] => ret (inl expected)
  | entry :: entries =>
      match expected !! af_Name entry with
      | Some false =>
          if String.eqb (af_Status entry) "absent" && negb (bs_exposed s) && (af_Size entry =? 0) &&
             String.eqb (af_Sha256 entry) ""
          then collect_manifest ctx s entries (<[af_Name entry := true]> expected)
          else if negb (String.eqb (af_Status entry) "complete") then ret (inr manifest_error)
          else
            let* e := collectArtifact (so_sha256 o) (so_DownloadArchive o ctx (so_runtimeID o)) (so_WriteFile o)
                        (bs_remote s) (bs_local s) (so_transport o)
                        {| fa_Name := af_Name entry; fa_Size := af_Size entry; fa_SHA256 := af_Sha256 entry |} in
            match e with
            | Some e => ret (inr e)
            | None => collect_manifest ctx s entries (<[af_Name entry := true]> expected)
            end
      | _ => ret (inr manifest_error)
      end
  end.
Definition collect_evidence (ctx : Ctx) (s : Session) : M W (error * Session) :=
  if bs_released s && negb (bs_collected s) then
    let* r := collect_manifest ctx s (bs_manifest s) expected_names in
    match r with
    | inr e => ret (Some e, s)
    | inl expected =>
        if forallb snd (map_to_list expected) then ret (None, set_bs_collected true s)
        else ret (Some (ENew "bridge evidence missing from finalized manifest"), s)
    end
  else ret (None, s).

(** The release: [inl] is a return from [Stop]. *)
Definition release_access (ctx : Ctx) (s : Session) : M W ((error + unit) * Session) :=
  if bs_registered s && negb (bs_released s) then
    let* (a, e) := so_ReleaseSandbox o ctx (bt_SandboxID (bs_descriptor s)) in
    match e with
    | Some e =>
        let* (running, runErr) := so_Running o ctx (so_runtimeID o) in
        if negb (is_nil runErr) || running then
          ret (inl (errors_Join [Some (EWrap "bridge release unconfirmed" (re_err e)); runErr]), s)
        else
          let s := set_bs_released true s in
          if bs_exposed s then
            let s := set_bs_evidenceErr (Some (ENew "bridge exited without finalized evidence")) s in
            let* helperErr := removeHelper s in
            ret (inl (errors_Join [bs_evidenceErr s; helperErr]), s)
          else ret (inr tt, set_bs_collected true s)
    | None =>
        match validateAccess a s with
        | inr e => ret (inl (Some e), s)
        | inl a =>
            if negb (bool_decide (ac_State a = RELEASED)) || negb (String.eqb (ac_CleanupError a) "") then
              ret (inl (Some (ENew ("bridge access closure or evidence finalization unconfirmed (state " +:+
                                    State_text (ac_State a) +:+ "): " +:+ ac_CleanupError a))), s)
            else
              let s := set_bs_manifest (ac_Artifacts a) (set_bs_released true s) in
              ret (inr tt, if negb (bs_exposed s) && (length (ac_Artifacts a) =? 0)%nat
                           then set_bs_collected true s else s)
        end
    end
  else ret (inr tt, s).

Definition session_Stop (ctx : Ctx) (s : Session) : M W (error * Session) :=
  let s := set_bs_stopped true s in
  match bs_evidenceErr s with
  | Some e => let* helperErr := removeHelper s in ret (errors_Join [Some e; helperErr], s)
  | None =>
      let* (returned, s) := release_access ctx s in
      match returned with
      | inl e => ret (e, s)
      | inr _ =>
          let* (e, s) := collect_evidence ctx s in
          match e with
          | Some e => ret (Some e, s)
          | None => let* e := removeHelper s in ret (e, s)
          end
      end
  end.
End Session.

(** * What a session does *)

Inductive session_event :=
  | Registering (r : RegisterSandboxRequest) (a : rpc_answer)
  | Asked (id : string) (a : rpc_answer)
  | Releasing (id : string) (a : rpc_answer)
  | RuntimeAsked (id : string) (r : bool * error)
  | Evidence (ev : collect_event).

Definition traced_helper {W E} (fs : HelperFS W) : HelperFS (W * list E) :=
  {| hf_Lstat p := silent (hf_Lstat fs p); hf_Open p := silent (hf_Open fs p);
     hf_ReadAll := silent (hf_ReadAll fs); hf_CloseInput := silent (hf_CloseInput fs);
     hf_Create p := silent (hf_Create fs p); hf_Write c := silent (hf_Write fs c);
     hf_Chmod m := silent (hf_Chmod fs m); hf_CloseOutput := silent (hf_CloseOutput fs);
     hf_Remove p := silent (hf_Remove fs p) |}.
Definition traced_session {W} (o : SessionOps W) : SessionOps (W * list session_event) :=
  {| so_running := silent (so_running o); so_RuntimeBackend := so_RuntimeBackend o;
     so_Backend := so_Backend o; so_RunID := so_RunID o;
     so_OutputDir := so_OutputDir o; so_runtimeID := so_runtimeID o; so_runtimeName := so_runtimeName o;
     so_outputRoot := so_outputRoot o; so_transport := so_transport o; so_RetainRawLog := so_RetainRawLog o;
     so_ClientCommand := so_ClientCommand o; so_ClientSourcePath := so_ClientSourcePath o;
     so_MkdirAll p := silent (so_MkdirAll o p); so_WriteJSON p fields := silent (so_WriteJSON o p fields);
     so_RegisterSandbox ctx r := logged (Registering r) (so_RegisterSandbox o ctx r);
     so_GetSandbox ctx id := logged (Asked id) (so_GetSandbox o ctx id);
     so_ReleaseSandbox ctx id := logged (Releasing id) (so_ReleaseSandbox o ctx id);
     so_waitPoll ctx := silent (so_waitPoll o ctx);
     so_TaskAddress ctx id port := silent (so_TaskAddress o ctx id port);
     so_Running ctx id := logged (RuntimeAsked id) (so_Running o ctx id);
     so_helper := traced_helper (so_helper o);
     so_DownloadArchive ctx id path :=
       logged (fun r => Evidence (Downloaded path r)) (so_DownloadArchive o ctx id path);
     so_WriteFile path content := logged (fun e => Evidence (WroteLocal path content e)) (so_WriteFile o path content);
     so_sha256 := so_sha256 o |}.

Section Registration.
Context {W : Type} `{!Runtime W}.
Variable o : SessionOps W.

(** A registration is sent first, or right after the answer that no such sandbox is
    registered. *)
Fixpoint reconciled (request : RegisterSandboxRequest) (id : string) (may_send : bool) (evs : list session_event) : Prop :=
  match evs with
  | [] => True
  | Registering r a :: evs => may_send = true /\ r = request /\ reconciled request id false evs
  | Asked id' (access, e) :: evs =>
      id' = id /\ reconciled request id (bool_decide (re_code <$> e = Some RpcNotFound)) evs
  | _ => False
  end.
Definition answered (evs : list session_event) (a : rpc_answer) : Prop :=
  exists before, (exists r, evs = before ++ [Registering r a]) \/ (exists id, evs = before ++ [Asked id a]).

Lemma register_loop_emits fuel ctx request s answer :
  emits (register_loop (traced_session o) fuel ctx request s answer) (fun r evs =>
    reconciled request (bt_SandboxID (bs_descriptor s)) false evs /\
    forall access, r = Some (inl access) ->
      ac_SandboxId access = bt_SandboxID (bs_descriptor s) /\ ac_State access <> REGISTERING /\
      ((evs = [] /\ answer = (Some access, None)) \/ answered evs (Some access, None))).
Proof.
  revert answer. induction fuel as [|fuel IH]; intros [access e]; cbn [register_loop];
    apply emits_read; intros [c|]; try (apply emits_ret; by split);
    match goal with |- context [match ?x with Some _ => _ | None => _ end] => set (settled := x) end.
  all: assert (forall a, settled = Some (inl a) -> (access, e) = (Some a, None) /\
      ac_SandboxId a = bt_SandboxID (bs_descriptor s) /\ ac_State a <> REGISTERING) as Hs;
    [ subst settled; destruct e as [e|]; [by destruct (uncertainControlResult e)|];
      destruct access as [a|]; [|done]; simpl;
      destruct (String.eqb_spec (ac_SandboxId a) (bt_SandboxID (bs_descriptor s))); [|done];
      destruct (decide (ac_State a = REGISTERING)); [done|]; by intros ? [= <-] |].
  all: destruct settled as [result|];
    [apply emits_ret; split; [done|]; intros a [= ->]; destruct (Hs a eq_refl) as (? & ? & ?); eauto|].
  all: clear Hs; apply emits_read; intros [we|]; [by apply emits_ret|].
  all: apply emits_call; intros [access' e'].
  all: destruct (bool_decide (re_code <$> e' = Some RpcNotFound)) eqn:Hnf.
  - apply emits_call. intros a. apply emits_ret. split; [|done]. simpl. by rewrite Hnf.
  - apply emits_ret. split; [|done]. by simpl.
  - apply emits_call. intros a. eapply emits_mono; [apply IH|]. intros r evs [Hr Ha]. split.
    + simpl. rewrite Hnf. done.
    + intros acc Hacc. destruct (Ha acc Hacc) as (? & ? & [[-> ->]|(before & [[r' ->]|[id ->]])]);
        split_and!; try done; right.
      * by exists [Asked (bt_SandboxID (bs_descriptor s)) (access', e')]; left; eexists.
      * eexists (_ :: _ :: before). left. by eexists.
      * eexists (_ :: _ :: before). right. by eexists.
  - apply emits_bind_ret. eapply emits_mono; [apply IH|]. intros r evs [Hr Ha]. split.
    + simpl. rewrite Hnf. done.
    + intros acc Hacc. destruct (Ha acc Hacc) as (? & ? & [[-> [= -> ->]]|(before & [[r' ->]|[id ->]])]);
        split_and!; try done; right.
      * exists []. right. by eexists.
      * eexists (_ :: before). left. by eexists.
      * eexists (_ :: before). right. by eexists.
Qed.

(** A registration is reconciled and never replayed: the one immutable request is
    sent first and again only right after the answer that the bridge knows no such
    sandbox, whatever the calls in between lost; and an access that is returned is the
    last answer, names this sandbox and is no longer registering. *)
Theorem registration_is_reconciled fuel ctx request s :
  emits (registerSandbox (traced_session o) fuel ctx request s) (fun r evs =>
    reconciled request (bt_SandboxID (bs_descriptor s)) true evs /\
    (forall access, r = Some (inl access) ->
      ac_SandboxId access = bt_SandboxID (bs_descriptor s) /\ ac_State access <> REGISTERING /\
      answered evs (Some access, None))).
Proof.
  apply emits_call. intros a. eapply emits_mono; [apply register_loop_emits|].
  intros r evs [Hr Ha]. split; [done|]. intros acc Hacc.
  destruct (Ha acc Hacc) as (? & ? & [[-> ->]|(before & [[r' ->]|[id ->]])]); split_and!; try done.
  - exists []. left. by eexists.
  - eexists (_ :: before). left. by eexists.
  - eexists (_ :: before). right. by eexists.
Qed.
End Registration.

(** * The registration ends *)

(** The time of a world: no call turns the clock back, a poll that is not interrupted
    takes [pollInterval], and a context reports the end of its deadline. *)
Definition pollInterval : Z := 50 * 10 ^ 6.
Record timely {W} `{!Runtime W} (o : SessionOps W) (clock : W -> Z) (ctx : Ctx) (deadline : Z) : Prop := {
  ti_register : forall request w, clock w <= clock (so_RegisterSandbox o ctx request w).2;
  ti_get : forall id w, clock w <= clock (so_GetSandbox o ctx id w).2;
  ti_err : forall w, clock w <= clock (ctx_Err ctx w).2 /\ ((ctx_Err ctx w).1 = None -> clock w < deadline);
  ti_poll : forall w, (so_waitPoll o ctx w).1 = None -> clock w + pollInterval <= clock (so_waitPoll o ctx w).2
}.

Lemma register_loop_ends {W} `{!Runtime W} (o : SessionOps W) clock ctx deadline fuel request s answer w :
  timely o clock ctx deadline -> deadline <= clock w + Z.of_nat fuel * pollInterval ->
  is_Some (register_loop o fuel ctx request s answer w).1.
Proof.
  intros T. revert answer w. induction fuel as [|fuel IH]; intros [access e] w Hw; simpl;
    unfold bind at 1; destruct (ctx_Err ctx w) as [[c|] w1] eqn:Hc; try by eexists.
  all: destruct (ti_err _ _ _ _ T w) as [H1 H2]; rewrite Hc in H1, H2; simpl in H1, H2; specialize (H2 eq_refl).
  { unfold pollInterval in Hw. lia. }
  destruct (match e with Some _ => _ | None => _ end); [by eexists|].
  unfold bind at 1. pose proof (ti_poll _ _ _ _ T w1) as H3.
  destruct (so_waitPoll o ctx w1) as [[we|] w2]; [by eexists|]. specialize (H3 eq_refl). simpl in H3.
  unfold bind at 1. pose proof (ti_get _ _ _ _ T (bt_SandboxID (bs_descriptor s)) w2) as H4.
  destruct (so_GetSandbox o ctx _ w2) as [[access' e'] w3]. simpl in H4.
  destruct (bool_decide _).
  - unfold bind. pose proof (ti_register _ _ _ _ T request w3) as H5.
    destruct (so_RegisterSandbox o ctx request w3) as [a w4]. simpl in H5. apply IH. lia.
  - unfold bind, ret. apply IH. lia.
Qed.

(** The polls of one minute. *)
Definition register_fuel : nat := 1200.

(** The registration returns: within the minute of [Start], the loop ends after at
    most 1200 polls, however the bridge answers. *)
Theorem registration_ends {W} `{!Runtime W} (o : SessionOps W) clock ctx request s w :
  timely o clock (WithTimeout ctx minute) (clock w + minute) ->
  is_Some (registerSandbox o register_fuel (WithTimeout ctx minute) request s w).1.
Proof.
  intros T. unfold registerSandbox, bind. pose proof (ti_register _ _ _ _ T request w) as H.
  destruct (so_RegisterSandbox o _ request w) as [a w']. simpl in H.
  eapply register_loop_ends; [done|]. unfold register_fuel, minute, pollInterval in *. lia.
Qed.

(** * The life of a session *)

(** The calls of a session, in any order, with their outcomes. *)
Inductive session_call (W : Type) :=
  | CallStart (ctx : Ctx) (exporter : option (M W (BridgeTarget + err)))
  | CallStop (ctx : Ctx).
Arguments CallStart {W}.
Arguments CallStop {W}.
Inductive session_result := Started (r : ToolEndpoint + err) | Stopped (e : error).

Section Life.
Context {W : Type} `{!Runtime W}.
Variable o : SessionOps W.
Variable fuel : nat.

Fixpoint session_life (calls : list (session_call W)) (s : Session) : M W (option (list session_result * Session)) :=
  match calls with
  | [] => ret (Some ([], s))
  | CallStart ctx exporter :: calls =>
      let* r := session_Start o fuel ctx exporter s in
      match r with
      | None => ret None
      | Some (r, s) =>
          let* rest := session_life calls s in
          ret match rest with Some (rs, s) => Some (Started r :: rs, s) | None => None end
      end
  | CallStop ctx :: calls =>
      let* (e, s) := session_Stop o ctx s in
      let* rest := session_life calls s in
      ret match rest with Some (rs, s) => Some (Stopped e :: rs, s) | None => None end
  end.
End Life.

Section Accounting.
Context {W : Type} `{!Runtime W}.
Variable o : SessionOps W.

(** The evidence every exposed session must leave. *)
Definition evidence_list : list string :=
  toolCalls :: (if so_RetainRawLog o then [rawLogName (so_transport o)] else []).

(** One manifest entry collected: the attested content, read from the bridge's file of
    that name and written to the session's file of that name. *)
Definition entry_collected (s : Session) (entry : Artifact) (evs : list session_event) : Prop :=
  exists stream content,
    Evidence (Downloaded (Join [bs_remote s; af_Name entry]) (inl stream)) ∈ evs /\
    Evidence (WroteLocal (Join [bs_local s; af_Name entry]) content None) ∈ evs /\
    Z.of_nat (length content) = af_Size entry /\ so_sha256 o content = af_Sha256 entry /\
    dl_Regular stream = true /\ (dl_content stream).1 = content.
Definition entry_done (s : Session) (evs : list session_event) (entry : Artifact) : Prop :=
  (bs_exposed s = false /\ af_Status entry = "absent"%string) \/
  (af_Status entry = "complete"%string /\ entry_collected s entry evs).
Definition all_collected (s : Session) (entries : list Artifact) (evs : list session_event) : Prop :=
  forall name, name ∈ evidence_list -> exists entry, entry ∈ entries /\ af_Name entry = name /\ entry_done s evs entry.

(** The bridge confirmed the release, or its runtime is gone. *)
Definition access_released (s : Session) (evs : list session_event) (entries : list Artifact) : Prop :=
  exists a, Releasing (bt_SandboxID (bs_descriptor s)) (Some a, None) ∈ evs /\
    ac_SandboxId a = bt_SandboxID (bs_descriptor s) /\ ac_State a = RELEASED /\
    ac_CleanupError a = ""%string /\ ac_Artifacts a = entries.
Definition runtime_gone (evs : list session_event) : Prop :=
  RuntimeAsked (so_runtimeID o) (false, None) ∈ evs.

Lemma entry_done_mono s entry evs evs' : evs ⊆ evs' -> entry_done s evs entry -> entry_done s evs' entry.
Proof.
  intros Hsub [?|(? & stream & content & ? & ? & ?)]; [by left|]. right. split; [done|].
  exists stream, content. split_and!; naive_solver.
Qed.

Definition done_after (s : Session) (entries : list Artifact) (expected expected' : gmap string bool)
    (evs : list session_event) : Prop :=
  dom expected' = dom expected /\
  forall name, expected' !! name = Some true ->
    expected !! name = Some true \/ exists entry, entry ∈ entries /\ af_Name entry = name /\ entry_done s evs entry.

Lemma done_after_step s entry entries expected expected' evs evs' :
  expected !! af_Name entry = Some false -> entry_done s evs entry -> evs ⊆ evs' ->
  done_after s entries (<[af_Name entry := true]> expected) expected' evs' ->
  done_after s (entry :: entries) expected expected' evs'.
Proof.
  intros Hseen Hdone Hsub [Hdom H]. split.
  { rewrite Hdom, dom_insert_L. apply elem_of_dom_2 in Hseen. set_solver. }
  intros name Hname. destruct (H name Hname) as [Hins|(en & ? & ? & ?)]; [|right; exists en; set_solver].
  destruct (decide (name = af_Name entry)) as [->|Hne].
  - right. exists entry. split; [set_solver|]. split; [done|]. by eapply entry_done_mono.
  - rewrite lookup_insert_ne in Hins by done. by left.
Qed.

Lemma collect_manifest_emits ctx s entries expected :
  emits (collect_manifest (traced_session o) ctx s entries expected) (fun r evs =>
    forall expected', r = inl expected' -> done_after s entries expected expected' evs).
Proof.
  revert expected. induction entries as [|entry entries IH]; intros expected; simpl.
  { apply emits_ret. intros ? [= <-]. split; [done|]. by left. }
  destruct (expected !! af_Name entry) as [[]|] eqn:Hseen; [by apply emits_ret| |by apply emits_ret].
  destruct (_ && String.eqb (af_Sha256 entry) "") eqn:Habsent.
  { apply andb_true_iff in Habsent as [Ha _]. apply andb_true_iff in Ha as [Ha _].
    apply andb_true_iff in Ha as [Ha Hexp]. apply String.eqb_eq in Ha. apply negb_true_iff in Hexp.
    eapply emits_mono; [apply IH|]. intros r evs Hr expected' ->.
    eapply done_after_step; [done|by left|reflexivity|by apply Hr]. }
  destruct (String.eqb_spec (af_Status entry) "complete") as [Hcomp|]; cbn [negb]; [|by apply emits_ret].
  eapply emits_bind; [exact (collectArtifact_emits Evidence _ _ _ _ _ _ _)|].
  intros e evs (cevs & -> & Hout); destruct e as [e|]; [by apply emits_ret|].
  eapply emits_mono; [apply IH|]; intros r evs Hr expected' ->.
  eapply (done_after_step _ _ _ _ _ (Evidence <$> cevs)); [done| |set_solver|].
  - destruct Hout as [(_ & _ & _ & stream & content & -> & Hl & Hsha & Hreg & Hct & _)|[]]; [|done].
    right; split; [done|]; exists stream, content; simpl; split_and!; try done; set_solver.
  - destruct (Hr expected' eq_refl) as [Hdom H]; split; [done|]; intros name Hname;
    destruct (H name Hname) as [?|(en & ? & ? & ?)]; [by left|]; right; exists en;
    split_and!; try done; eapply entry_done_mono; [|done]; set_solver.
Qed.

(** What the results and the trace so far say of a session's state. *)
Record life_inv (rs : list session_result) (evs : list session_event) (s : Session) : Prop := {
  li_sent : (exists r a, Registering r a ∈ evs) -> bs_registered s = true;
  li_fresh : bs_started s = false ->
    bs_registered s = false /\ bs_released s = false /\ bs_collected s = false /\ forall endpoint, Started (inl endpoint) ∉ rs;
  li_exposed : (exists endpoint, Started (inl endpoint) ∈ rs) -> bs_exposed s = true;
  li_released : bs_released s = true ->
    is_Some (bs_evidenceErr s) \/ access_released s evs (bs_manifest s) \/
    (runtime_gone evs /\ bs_exposed s = false /\ bs_collected s = true);
  li_order : bs_collected s = true -> bs_released s = true;
  li_collected : bs_collected s = true -> bs_exposed s = true -> all_collected s (bs_manifest s) evs
}.

Definition no_registering (evs : list session_event) : Prop := forall r a, Registering r a ∉ evs.

Lemma life_inv_mono rs evs evs' s : no_registering evs' -> life_inv rs evs s -> life_inv rs (evs ++ evs') s.
Proof.
  intros Hno [H1 H2 H3 H4 H5 H6]. split; [|done|done| |done|].
  - intros (r & a & Hin). apply H1. exists r, a. apply elem_of_app in Hin as [?|Hin]; [done|]. by destruct (Hno r a).
  - intros Hr. destruct (H4 Hr) as [?|[(a & ? & ?)|(? & ?)]]; [by left|right; left|right; right].
    + exists a. set_solver.
    + unfold runtime_gone in *. set_solver.
  - intros Hc He name Hname. destruct (H6 Hc He name Hname) as (entry & ? & ? & ?). exists entry.
    split_and!; try done. eapply entry_done_mono; [|done]. set_solver.
Qed.

Lemma expose_emits ctx access s :
  emits (expose (traced_session o) ctx access s) (fun r evs =>
    evs = [] /\ bs_started r.2 = bs_started s /\ bs_registered r.2 = bs_registered s /\
    bs_released r.2 = bs_released s /\ bs_collected r.2 = bs_collected s /\
    forall endpoint, r.1 = inl endpoint -> bs_exposed r.2 = true).
Proof.
  unfold expose. destruct (ac_Endpoint access) as [native|]; [|by apply emits_ret].
  destruct (negb _); [by apply emits_ret|]. destruct (native_refused _ _); [by apply emits_ret|].
  apply emits_read. intros [address|e]; [|by apply emits_ret].
  destruct (resolved_port address); [|by apply emits_ret].
  simpl so_ClientSourcePath. destruct (String.eqb _ ""); [by apply emits_ret|].
  eapply (emits_bind _ _ (fun _ evs => evs = [])).
  - unfold stageClientHelper. repeat (emits_step; cbv beta; try done).
  - intros [e|] evs ->; by apply emits_ret.
Qed.

Lemma start_emits fuel ctx (exporter : option (M W (BridgeTarget + err))) s :
  emits (session_Start (traced_session o) fuel ctx (silent <$> exporter) s) (fun r evs =>
    forall r' s', r = Some (r', s') ->
      (s' = s /\ evs = [] /\ exists e, r' = inr e) \/
      (bs_started s = false /\ bs_started s' = true /\ bs_released s' = bs_released s /\
       bs_collected s' = bs_collected s /\ (evs = [] /\ bs_registered s' = bs_registered s \/ bs_registered s' = true) /\
       (forall endpoint, r' = inl endpoint -> bs_exposed s' = true))).
Proof.
  unfold session_Start. destruct (bs_started s || bs_stopped s) eqn:Hused.
  { apply emits_ret. intros r' s' [= <- <-]. left. eauto. }
  apply orb_false_iff in Hused as [Hs _].
  assert (forall (e : err) s1, bs_started s1 = true -> bs_released s1 = bs_released s ->
    bs_collected s1 = bs_collected s -> bs_registered s1 = bs_registered s ->
    emits (W := W) (E := session_event) (ret (Some (inr e, s1))) (fun (r : option ((ToolEndpoint + err) * Session)) evs => forall r' s', r = Some (r', s') ->
      (s' = s /\ evs = [] /\ exists e, r' = inr e) \/
      (bs_started s = false /\ bs_started s' = true /\ bs_released s' = bs_released s /\
       bs_collected s' = bs_collected s /\ (evs = [] /\ bs_registered s' = bs_registered s \/ bs_registered s' = true) /\
       (forall endpoint, r' = inl endpoint -> bs_exposed s' = true)))) as Hfail.
  { intros. apply emits_ret. intros r' s' [= <- <-]. right. split_and!; try done. by left. }
  apply emits_read. intros [|]; cbn [negb]; [|by apply Hfail].
  destruct exporter as [export|]; [|by apply Hfail]. apply emits_read. intros [d|e]; [|by apply Hfail].
  destruct (Validate d); [by apply Hfail|]. destruct (_ || _); [by apply Hfail|].
  apply emits_read. intros [e|]; [by apply Hfail|]. apply emits_read. intros [e|]; [by apply Hfail|].
  eapply (emits_bind _ _ (fun _ _ => True)).
  { apply emits_call. intros a. eapply emits_mono; [apply register_loop_emits|done]. }
  intros [[access|e]|] evs _; [|apply emits_ret; intros r' s' [= <- <-]; right; split_and!; try done; by right|by apply emits_ret].
  eapply emits_bind; [apply expose_emits|]. intros [r s1] evs1 (-> & H1 & H2 & H3 & H4 & H5). simpl in *.
  apply emits_ret. intros r' s' [= <- <-]. right. split_and!; try done. by right.
Qed.

Lemma start_keeps fuel ctx exporter rs evs s :
  life_inv rs evs s ->
  emits (session_Start (traced_session o) fuel ctx (silent <$> exporter) s) (fun r evs' =>
    forall r' s', r = Some (r', s') -> life_inv (rs ++ [Started r']) (evs ++ evs') s').
Proof.
  intros I. eapply emits_mono; [apply start_emits|]. intros r evs' H r' s' Hr.
  destruct (H r' s' Hr) as [(-> & -> & e & ->)|(Hs & Hs' & Hrel & Hcol & Hreg & Hexp)].
  - rewrite app_nil_r. assert (forall ep, Started (inl ep) ∈ rs ++ [Started (inr e)] -> Started (inl ep) ∈ rs) by set_solver.
    destruct I as [H1 H2 H3 H4 H5 H6]. split; try done.
    + intros Hs. destruct (H2 Hs) as (? & ? & ? & ?). naive_solver.
    + naive_solver.
  - destruct (li_fresh _ _ _ I Hs) as (_ & Hr0 & Hc0 & Hno). rewrite Hr0 in Hrel. rewrite Hc0 in Hcol. split; try congruence.
    + intros (rq & a & Hin). destruct Hreg as [[-> Hreg]|Hreg]; [|done]. rewrite app_nil_r in Hin. rewrite Hreg.
      apply (li_sent _ _ _ I). eauto.
    + intros (ep & Hin). apply elem_of_app in Hin as [Hin|Hin]; [by apply Hno in Hin|].
      apply list_elem_of_singleton in Hin as [= <-]. by eapply Hexp.
Qed.

Lemma removeHelper_emits s : emits (removeHelper (traced_session o) s) (fun _ evs => evs = []).
Proof.
  unfold removeHelper. destruct (String.eqb _ _); [by apply emits_ret|]. apply emits_read. intros e. by apply emits_ret.
Qed.

Lemma release_emits ctx rs evs s :
  life_inv rs evs s -> bs_evidenceErr s = None ->
  emits (release_access (traced_session o) ctx s) (fun r evs' =>
    life_inv rs (evs ++ evs') r.2 /\
    match r.1 with
    | inl e => e <> None
    | inr _ => bs_evidenceErr r.2 = None /\ (bs_registered r.2 = true -> bs_released r.2 = true)
    end).
Proof.
  intros I Hev. unfold release_access. destruct (bs_registered s && negb (bs_released s)) eqn:Hmust.
  2: { apply emits_ret. rewrite app_nil_r. split; [done|]. split; [done|]. simpl. intros Hr.
       rewrite Hr in Hmust. by destruct (bs_released s). }
  apply andb_true_iff in Hmust as [Hreg Hrel]. apply negb_true_iff in Hrel.
  assert (bs_collected s = false) as Hcol.
  { destruct (bs_collected s) eqn:Hc; [|done]. pose proof (li_order _ _ _ I Hc). congruence. }
  assert (bs_started s = true) as Hstart.
  { destruct (bs_started s) eqn:Hs; [done|]. destruct (li_fresh _ _ _ I Hs). congruence. }
  apply emits_call. intros [a [e|]].
  - apply emits_call. intros [running runErr]. destruct (negb (is_nil runErr) || running) eqn:Hun.
    { apply emits_ret. split; [|by destruct runErr]. apply life_inv_mono; [|done]. intros ???. set_solver. }
    apply orb_false_iff in Hun as [Hnil ->]. destruct runErr; [done|]. simpl bs_exposed.
    pose proof (life_inv_mono _ _ [Releasing (bt_SandboxID (bs_descriptor s)) (a, Some e); RuntimeAsked (so_runtimeID o) (false, None)]
      s ltac:(intros ???; set_solver) I) as [H1 H2 H3 H4 H5 H6].
    destruct (bs_exposed s) eqn:Hexp.
    + eapply emits_bind; [apply removeHelper_emits|]. intros he evs' ->. apply emits_ret. split; [|done].
      split; simpl; try congruence. by left.
    + apply emits_ret. split; [|done]. split; simpl; rewrite ?Hexp; try congruence; try done.
      right. right. split_and!; try done. unfold runtime_gone. set_solver.
  - pose proof (life_inv_mono _ _ [Releasing (bt_SandboxID (bs_descriptor s)) (a, None)] s ltac:(intros ???; set_solver) I) as I'.
    destruct (validateAccess a s) as [access|e] eqn:Hva; [|by apply emits_ret].
    destruct (negb (bool_decide _) || _) eqn:Hst; [by apply emits_ret|].
    apply orb_false_iff in Hst as [Hst Hcl]. apply negb_false_iff, bool_decide_eq_true in Hst.
    apply negb_false_iff, String.eqb_eq in Hcl. unfold validateAccess in Hva. destruct a as [a|]; [|done].
    destruct (String.eqb_spec (ac_SandboxId a) (bt_SandboxID (bs_descriptor s))) as [Hid|]; [|done].
    injection Hva as ->. apply emits_ret. split; [|simpl; case_match; simpl; by split].
    assert (access_released s (evs ++ [Releasing (bt_SandboxID (bs_descriptor s)) (Some access, None)]) (ac_Artifacts access)) as Hrl.
    { exists access. set_solver. }
    destruct I' as [H1 H2 H3 H4 H5 H6]. simpl.
    destruct (negb (bs_exposed s) && _) eqn:Hnone; split; simpl; try congruence; try done; try (intros _; right; by left).
    apply andb_true_iff in Hnone as [Hx _]. apply negb_true_iff in Hx. congruence.
Qed.

Lemma collect_manifest_quiet ctx s entries expected :
  emits (collect_manifest (traced_session o) ctx s entries expected) (fun _ evs => no_registering evs).
Proof.
  revert expected. induction entries as [|entry entries IH]; intros expected; simpl.
  { apply emits_ret. intros ???. set_solver. }
  destruct (expected !! af_Name entry) as [[]|]; try (apply emits_ret; intros ???; set_solver).
  destruct (_ && String.eqb (af_Sha256 entry) ""); [apply IH|].
  destruct (negb (String.eqb (af_Status entry) "complete")); [apply emits_ret; intros ???; set_solver|].
  eapply emits_bind; [exact (collectArtifact_emits Evidence _ _ _ _ _ _ _)|].
  intros e evs (cevs & -> & _).
  assert (no_registering (Evidence <$> cevs)) as Hno.
  { intros r a Hin. apply list_elem_of_fmap in Hin as (? & ? & ?). done. }
  destruct e as [e|]; [by apply emits_ret; rewrite app_nil_r|]. eapply emits_mono; [apply IH|].
  intros ? evs Hevs r a Hin. apply elem_of_app in Hin as [?|?]; [by apply (Hno r a)|by apply (Hevs r a)].
Qed.

Lemma all_expected expected s entries evs :
  done_after s entries (expected_names o) expected evs -> forallb snd (map_to_list expected) = true ->
  all_collected s entries evs.
Proof.
  intros [Hdom H] Hall name Hname.
  assert (expected_names o !! name = Some false) as Hexp.
  { unfold expected_names, evidence_list in *. destruct (so_RetainRawLog o).
    - apply elem_of_cons in Hname as [->|Hname%list_elem_of_singleton].
      + destruct (decide (rawLogName (so_transport o) = "tool-calls.jsonl"%string)) as [->|];
          [by rewrite lookup_insert|]. by rewrite lookup_insert_ne, lookup_singleton_eq.
      + subst. by rewrite lookup_insert_eq.
    - apply list_elem_of_singleton in Hname. subst. by rewrite lookup_singleton_eq. }
  assert (is_Some (expected !! name)) as [b Hb].
  { apply elem_of_dom. rewrite Hdom. by apply elem_of_dom_2 in Hexp. }
  assert (b = true) as ->.
  { rewrite forallb_forall in Hall. apply (Hall (name, b)), list_elem_of_In. by apply elem_of_map_to_list. }
  destruct (H name Hb) as [?|?]; [congruence|done].
Qed.

Lemma stop_emits ctx rs evs s :
  life_inv rs evs s ->
  emits (session_Stop (traced_session o) ctx s) (fun r evs' =>
    life_inv (rs ++ [Stopped r.1]) (evs ++ evs') r.2 /\
    (r.1 = None -> bs_evidenceErr r.2 = None /\ (bs_registered r.2 = true -> bs_released r.2 = true /\ bs_collected r.2 = true))).
Proof.
  intros I0. assert (forall e evs s, life_inv rs evs s -> life_inv (rs ++ [Stopped e]) evs s) as Hres.
  { intros e evs' s' [H1 H2 H3 H4 H5 H6]. assert (forall ep, Started (inl ep) ∈ rs ++ [Stopped e] -> Started (inl ep) ∈ rs) by set_solver.
    split; try done; [|naive_solver]. intros Hs. destruct (H2 Hs) as (? & ? & ? & ?). naive_solver. }
  unfold session_Stop. set (s1 := set_bs_stopped true s).
  assert (life_inv rs evs s1) as I by by destruct I0.
  change (bs_evidenceErr s1) with (bs_evidenceErr s). destruct (bs_evidenceErr s) as [e|] eqn:Hev.
  { eapply emits_bind; [apply removeHelper_emits|]. intros he evs' ->. apply emits_ret. rewrite app_nil_r.
    split; [by apply Hres|done]. }
  eapply emits_bind; [by apply release_emits|]. intros [[e|[]] s2] evs2 [I2 Hr]; simpl in *.
  { apply emits_ret. rewrite app_nil_r. split; [by apply Hres|done]. }
  destruct Hr as [Hev2 Hreg2]. unfold collect_evidence. destruct (bs_released s2 && negb (bs_collected s2)) eqn:Hmust.
  2: { apply emits_bind_ret. eapply emits_bind; [apply removeHelper_emits|]. intros e evs' ->.
       apply emits_ret. rewrite !app_nil_r. split; [by apply Hres|]. intros _. split; [done|]. simpl. intros Hreg.
       specialize (Hreg2 Hreg). rewrite Hreg2 in Hmust. by destruct (bs_collected s2). }
  apply andb_true_iff in Hmust as [Hrel Hcol]. apply negb_true_iff in Hcol.
  apply emits_flatten. eapply emits_bind.
  { apply emits_and; [apply collect_manifest_emits|apply collect_manifest_quiet]. }
  intros r evs3 [Hc Hq]. destruct r as [expected|e].
  2: { apply emits_bind_ret, emits_ret. rewrite app_nil_r, app_assoc. split; [|done]. by apply Hres, life_inv_mono. }
  destruct (forallb snd _) eqn:Hall; apply emits_bind_ret.
  2: { apply emits_ret. rewrite app_nil_r, app_assoc. split; [|done]. by apply Hres, life_inv_mono. }
  eapply emits_bind; [apply removeHelper_emits|]. intros e evs' ->. apply emits_ret. rewrite !app_nil_r, app_assoc. simpl.
  specialize (Hc _ eq_refl). split; [|done]. apply Hres. pose proof (life_inv_mono _ _ evs3 s2 Hq I2) as [H1 H2 H3 H4 H5 H6].
  split; simpl; try done; try congruence.
  - intros Hs. destruct (H2 Hs) as (? & ? & ?). congruence.
  - intros Hr. destruct (H4 Hr) as [?|[?|(? & ? & ?)]]; [by left|by right; left|congruence].
  - intros _ _ name Hname. destruct (all_expected expected s2 _ _ Hc Hall name Hname) as (entry & ? & ? & Hd).
    exists entry. split_and!; try done. apply (entry_done_mono s2 entry evs3); [set_solver|done].
Qed.

(** The calls of the caller, on the traced world. *)
Definition traced_call (c : session_call W) : session_call (W * list session_event) :=
  match c with
  | CallStart ctx exporter => CallStart ctx (silent <$> exporter)
  | CallStop ctx => CallStop ctx
  end.

(** What a stop that returns nil has established. *)
Definition accounted (rs : list session_result) (evs : list session_event) (s : Session) : Prop :=
  (exists entries, access_released s evs entries /\
     ((exists endpoint, Started (inl endpoint) ∈ rs) ->
        forall name, name ∈ evidence_list -> exists entry, entry ∈ entries /\ af_Name entry = name /\
          af_Status entry = "complete"%string /\ entry_collected s entry evs)) \/
  (runtime_gone evs /\ forall endpoint, Started (inl endpoint) ∉ rs).

Lemma stopped_accounted rs evs s :
  life_inv rs evs s -> bs_evidenceErr s = None ->
  (bs_registered s = true -> bs_released s = true /\ bs_collected s = true) ->
  (exists rq a, Registering rq a ∈ evs) -> accounted rs evs s.
Proof.
  intros [H1 H2 H3 H4 H5 H6] Hev Hstop Hsent. destruct (Hstop (H1 Hsent)) as [Hrel Hcol].
  destruct (H4 Hrel) as [[? ?]|[Hacc|(Hgone & Hexp & _)]]; [congruence|left|right].
  - exists (bs_manifest s). split; [done|]. intros Hstarted name Hname. specialize (H3 Hstarted).
    destruct (H6 Hcol H3 name Hname) as (entry & ? & ? & [[? _]|[? ?]]); [congruence|]. by exists entry.
  - split; [done|]. intros endpoint Hin. rewrite H3 in Hexp by eauto. done.
Qed.

Lemma session_life_emits fuel calls rs0 evs0 s :
  life_inv rs0 evs0 s ->
  emits (session_life (traced_session o) fuel (map traced_call calls) s) (fun r evs =>
    forall rs s', r = Some (rs, s') ->
      (rs = [] -> evs = [] /\ s' = s) /\
      (last rs = Some (Stopped None) -> (exists rq a, Registering rq a ∈ evs0 ++ evs) -> accounted (rs0 ++ rs) (evs0 ++ evs) s')).
Proof.
  revert rs0 evs0 s. induction calls as [|c calls IH]; intros rs0 evs0 s I.
  { apply emits_ret. intros rs s' [= <- <-]. done. }
  destruct c as [ctx exporter|ctx]; simpl.
  - eapply emits_bind; [by apply (start_keeps _ _ _ rs0 evs0)|]. intros [[r s1]|] evs1 H1; [|by apply emits_ret].
    specialize (H1 _ _ eq_refl). eapply emits_bind; [by apply (IH (rs0 ++ [Started r]) (evs0 ++ evs1))|].
    intros [[rs s2]|] evs2 H2; apply emits_ret; [|done]. intros ? ? [= <- <-]. rewrite app_nil_r.
    destruct (H2 _ _ eq_refl) as [_ Hl]. rewrite <- !app_assoc in *. split; [done|]. intros Hlast.
    destruct rs as [|r' rs]; [done|]. by apply Hl.
  - eapply emits_bind; [by apply (stop_emits _ rs0 evs0)|]. intros [e s1] evs1 [H1 Hstop]. simpl in *.
    eapply emits_bind; [by apply (IH (rs0 ++ [Stopped e]) (evs0 ++ evs1))|].
    intros [[rs s2]|] evs2 H2; apply emits_ret; [|done]. intros ? ? [= <- <-]. rewrite app_nil_r.
    destruct (H2 _ _ eq_refl) as [Hnil Hl]. rewrite <- !app_assoc in *. split; [done|]. intros Hlast Hreg.
    destruct rs as [|r' rs]; [|by apply Hl]. destruct (Hnil eq_refl) as [-> ->]. injection Hlast as ->.
    rewrite app_nil_r in *. destruct (Hstop eq_refl). by apply stopped_accounted.
Qed.

(** C34. A session accounts for what it registered: over any calls of [Start] and [Stop],
    in any order, whatever the bridge and the file system answer, a last [Stop] that
    returns nil after a registration was sent means that the bridge confirmed the
    release of this sandbox without a cleanup error, and, where an endpoint was given
    out, that every expected evidence file is in its manifest, attested as complete, and
    was written with the attested content; or that no endpoint was given out and the
    bridge's runtime is gone. *)
Theorem session_accounts fuel calls :
  emits (session_life (traced_session o) fuel (map traced_call calls) new_Session) (fun r evs =>
    forall rs s, r = Some (rs, s) -> last rs = Some (Stopped None) ->
      (exists rq a, Registering rq a ∈ evs) -> accounted rs evs s).
Proof.
  eapply emits_mono; [apply (session_life_emits fuel calls [] [])|].
  - split; try done; set_solver.
  - intros r evs H rs s Hr. by apply (H rs s Hr).
Qed.
End Accounting.

(** * A stopped session *)

(** What a stop that returns nil leaves, and no later call changes. *)
Definition settled (s : Session) : Prop :=
  bs_stopped s = true /\ bs_evidenceErr s = None /\
  (bs_registered s = true -> bs_released s = true) /\ (bs_released s = true -> bs_collected s = true).

Lemma release_access_settles {W} (o : SessionOps W) ctx s w r s' w' :
  release_access o ctx s w = (r, s', w') ->
  bs_stopped s' = bs_stopped s /\ r <> inl None /\ (r <> inr tt \/
    (bs_evidenceErr s' = bs_evidenceErr s /\ (bs_registered s' = true -> bs_released s' = true))).
Proof.
  unfold release_access, bind, ret. intros H. repeat case_match; simplify_eq; simpl; split_and!; try (by auto); try naive_solver.
  right. split; [done|]. intros Hr. by destruct (bs_released s'), (bs_registered s').
Qed.
Lemma collect_evidence_settles {W} (o : SessionOps W) ctx s w e s' w' :
  collect_evidence o ctx s w = (e, s', w') ->
  bs_stopped s' = bs_stopped s /\ bs_evidenceErr s' = bs_evidenceErr s /\ bs_registered s' = bs_registered s /\
  bs_released s' = bs_released s /\ (e <> None \/ (bs_released s' = true -> bs_collected s' = true)).
Proof.
  unfold collect_evidence, bind, ret. intros H. repeat case_match; simplify_eq; simpl; split_and!; auto.
  right. intros Hr. by destruct (bs_collected s'), (bs_released s').
Qed.

Lemma session_Stop_settles {W} (o : SessionOps W) ctx s w s' w' :
  session_Stop o ctx s w = (None, s', w') -> settled s'.
Proof.
  unfold session_Stop, bind, ret. cbn [bs_evidenceErr set_bs_stopped]. destruct (bs_evidenceErr s) as [e|] eqn:He.
  { by destruct (removeHelper o _ w) as [he w1]. }
  destruct (release_access o ctx _ w) as [[r s1] w1] eqn:Hr.
  apply release_access_settles in Hr as (Hst & Hinl & Hr). simpl in Hst, Hr. destruct r as [e|[]]; [congruence|].
  destruct Hr as [Hr|[Hev Hrel]]; [done|].
  destruct (collect_evidence o ctx s1 w1) as [[e s2] w2] eqn:Hc.
  apply collect_evidence_settles in Hc as (Hst2 & Hev2 & Hreg2 & Hrel2 & Hc).
  destruct e as [e|]; [done|]. destruct Hc as [Hc|Hc]; [done|].
  destruct (removeHelper o s2 w2) as [he w3]. intros [= -> -> ->].
  split_and!; congruence || done || (rewrite Hrel2, Hreg2; done).
Qed.

(** A settled session stays as it is. *)
Lemma settled_Stop {W} (o : SessionOps W) ctx s w : settled s -> (session_Stop o ctx s w).1.2 = s.
Proof.
  intros (Hst & Hev & Hreg & Hrel). unfold session_Stop, release_access, collect_evidence.
  assert (set_bs_stopped true s = s) as ->. { destruct s; simpl in *. by subst. }
  assert (bs_registered s && negb (bs_released s) = false) as ->.
  { destruct (bs_registered s); [|done]. by rewrite Hreg. }
  assert (bs_released s && negb (bs_collected s) = false) as Hc.
  { destruct (bs_released s); [|done]. by rewrite Hrel. }
  rewrite Hev. unfold bind, ret. rewrite Hc. by destruct (removeHelper o s w).
Qed.
Lemma settled_Start {W} `{!Runtime W} (o : SessionOps W) fuel ctx exporter s w :
  settled s -> session_Start o fuel ctx exporter s w = (Some (inr (ENew "bridge session cannot be reused"), s), w).
Proof. intros (Hst & _). unfold session_Start. by rewrite Hst, orb_true_r. Qed.

(** * A concrete session *)

(** The world is the clock; the bridge gives [answer] to a registration and a query. *)
Definition demo_runtime : Runtime Z :=
  {| time_Now w := (w, w); ctx_Err _ w := (if w <? minute then None else Some DeadlineExceeded, w) |}.
#[local] Existing Instance demo_runtime.
Definition demo_target : BridgeTarget :=
  {| bt_SandboxID := "s1"; bt_RunID := "r1"; bt_TaskID := "t1"; bt_Backend := "docker"; bt_RuntimeID := "c1";
     bt_Workdir := "/work"; bt_ExecUser := "0:0" |}.
Definition demo_access (state : State) (artifacts : list Artifact) : SandboxAccess :=
  {| ac_SandboxId := "s1"; ac_State := state;
     ac_Endpoint := Some {| ep_Port := 22; ep_User := "aries"; ep_Transport := "ssh" |};
     ac_Error := ""; ac_CleanupError := ""; ac_Artifacts := artifacts |}.
Definition demo_helper : HelperFS Z :=
  {| hf_Lstat _ := ret (inr (ENew "no file")); hf_Open _ := ret None; hf_ReadAll := ret ([], None);
     hf_CloseInput := ret None; hf_Create _ := ret None; hf_Write _ := ret None; hf_Chmod _ := ret None;
     hf_CloseOutput := ret None; hf_Remove _ := ret None |}.
Definition demo_ops (answer : rpc_answer) : SessionOps Z :=
  {| so_running := ret true; so_RuntimeBackend := "docker"; so_Backend := "docker"; so_RunID := "r1";
     so_OutputDir := "/evidence"; so_runtimeID := "b1"; so_runtimeName := "bridge"; so_outputRoot := "/out";
     so_transport := "ssh"; so_RetainRawLog := false; so_ClientCommand := ""; so_ClientSourcePath := "";
     so_MkdirAll _ := ret None; so_WriteJSON _ _ := ret None;
     so_RegisterSandbox _ _ := ret answer; so_GetSandbox _ _ := ret answer;
     so_ReleaseSandbox _ _ := ret (Some (demo_access RELEASED
       [{| af_Name := "tool-calls.jsonl"; af_Status := "complete"; af_Size := 2; af_Sha256 := "digest" |}]), None);
     so_waitPoll _ w := (None, w + pollInterval); so_TaskAddress _ _ _ := ret (inl "10.0.0.2:2222"%string);
     so_Running _ _ := ret (true, None); so_helper := demo_helper;
     so_DownloadArchive _ _ _ := ret (inl
       {| dl_Regular := true; dl_Size := 2;
          dl_header := inl {| th_Regular := true; th_Name := "tool-calls.jsonl"; th_Size := 2 |};
          dl_content := (to_bytes "{}", None); dl_next := Some (ESentinel ErrEOF) |});
     so_WriteFile _ _ := ret None; so_sha256 _ := "digest" |}.
Definition lost : rpc_answer := (None, Some {| re_code := RpcUnavailable; re_err := ENew "unavailable" |}).

(** The bridge is never reachable: the registration still returns. *)
Lemma registration_ends_witness :
  is_Some (registerSandbox (demo_ops lost) register_fuel (WithTimeout Background minute)
    (Registration demo_target) new_Session 0).1.
Proof.
  apply (registration_ends (demo_ops lost) id Background (Registration demo_target) new_Session 0).
  split.
  - intros r w. exact (Z.le_refl w).
  - intros i w. exact (Z.le_refl w).
  - intros w. split; [exact (Z.le_refl w)|]. cbn [ctx_Err demo_runtime fst].
    destruct (Z.ltb_spec w minute); [intros _; unfold id; lia|discriminate].
  - intros w _. exact (Z.le_refl (w + pollInterval)).
Defined.

(** A session that starts, stops and accounts for its evidence. *)
Example session_demo :
  option_map fst (session_life (demo_ops (Some (demo_access READY []), None)) 3
    [CallStart Background (Some (ret (inl demo_target))); CallStop Background] new_Session 0).1 =
  Some [Started (inl {| te_Protocol := "ssh"; te_Address := "10.0.0.2:2222"; te_Username := "aries";
                        te_ClientCommand := ""; te_ClientSourceFile := "";
                        te_LogPaths := ["/out/t1/bridge/tool-calls.jsonl"]; te_Workdir := "/work" |}); Stopped None]%string.
Proof. vm_compute. reflexivity. Qed.
