(* ===== verification/BridgeService.v ===== *)
(** The run's bridge service ([pkg/bridge], service.go): one deployed bridge and its
    connection for a whole run, the sessions it hands out, and the stop that retries
    their cleanup before it removes the bridge. *)

From S2P Require Import Prelude Trace Core Control Paths Net Target NativeSandbox BridgeSession Deployments.

(** * Options *)

(** [core.BridgeListen]. *)
Record BridgeListen := { bl_BindPort : Z; bl_AdvertisePort : Z; bl_BindHost : string; bl_AdvertiseHost : string }.

Definition set_rt_identity (name : string) (labels : gmap string string) (placement : RuntimePlacement)
    (r : Request) : Request :=
  {| rt_InternalPort := rt_InternalPort r; rt_Mounts := rt_Mounts r; rt_Workdir := rt_Workdir r;
     rt_StorageMB := rt_StorageMB r; rt_GPUs := rt_GPUs r; rt_Init := rt_Init r;
     rt_NoNewPrivileges := rt_NoNewPrivileges r; rt_NetworkAliases := rt_NetworkAliases r;
     rt_AllowImageVolumes := rt_AllowImageVolumes r; rt_Name := name; rt_Image := rt_Image r;
     rt_Env := rt_Env r; rt_Entrypoint := rt_Entrypoint r; rt_Args := rt_Args r; rt_Labels := labels;
     rt_Placement := placement; rt_CPU := rt_CPU r; rt_MemoryMB := rt_MemoryMB r;
     rt_ImageVolumes := rt_ImageVolumes r; rt_ServicePort := rt_ServicePort r |}.

(** [LaunchConfig], [LaunchSpec], [ClientConfig] and [Options]; the runtime and whether
    it resolves task addresses are operations below. *)
Record LaunchConfig := {
  lc_RunID : string;
  lc_BridgeType : string;
  lc_Backend : string;
  lc_BackendEndpoint : string;
  lc_Listen : BridgeListen;
  lc_ControlAddress : string;
  lc_OutputDir : string;
  lc_RetainRawLog : bool
}.
Record LaunchSpec := {
  ls_Request : Request;
  ls_Config : LaunchConfig;
  ls_RuntimeBackend : string;
  ls_ResourceMetrics : string
}.
Record ClientConfig := { cc_Command : string; cc_SourcePath : string }.
Record Options := {
  op_Launch : LaunchSpec;
  op_Client : ClientConfig;
  op_OutputDir : string;
  op_BridgeType : string;
  op_RunID : string;
  op_Placement : RuntimePlacement;
  op_RetainRawLog : bool
}.
Definition set_op_paths (output source : string) (x : Options) : Options :=
  {| op_Launch := op_Launch x;
     op_Client := {| cc_Command := cc_Command (op_Client x); cc_SourcePath := source |};
     op_OutputDir := output; op_BridgeType := op_BridgeType x; op_RunID := op_RunID x;
     op_Placement := op_Placement x; op_RetainRawLog := op_RetainRawLog x |}.

(** * The service *)

Inductive service_state := New | Starting | Running | Closing | Closed.
#[export] Instance service_state_eq_dec : EqDecision service_state.
Proof. solve_decision. Defined.

(** [Service]; a session comes with its output root, the connection is there or not. *)
Record Service := {
  sv_options : Options;
  sv_state : service_state;
  sv_runtimeID : string;
  sv_runtimeName : string;
  sv_connection : bool;
  sv_sessions : list (string * Session);
  sv_removed : bool;
  sv_runtimeClosed : bool;
  sv_allocationErr : error;
  sv_shutdownErr : error;
  sv_transport : string
}.

Definition set_sv_state (x : service_state) (r : Service) : Service :=
  {| sv_options := sv_options r; sv_state := x; sv_runtimeID := sv_runtimeID r;
     sv_runtimeName := sv_runtimeName r; sv_connection := sv_connection r;
     sv_sessions := sv_sessions r; sv_removed := sv_removed r;
     sv_runtimeClosed := sv_runtimeClosed r; sv_allocationErr := sv_allocationErr r;
     sv_shutdownErr := sv_shutdownErr r; sv_transport := sv_transport r |}.
Definition set_sv_runtimeName (x : string) (r : Service) : Service :=
  {| sv_options := sv_options r; sv_state := sv_state r; sv_runtimeID := sv_runtimeID r;
     sv_runtimeName := x; sv_connection := sv_connection r; sv_sessions := sv_sessions r;
     sv_removed := sv_removed r; sv_runtimeClosed := sv_runtimeClosed r;
     sv_allocationErr := sv_allocationErr r; sv_shutdownErr := sv_shutdownErr r;
     sv_transport := sv_transport r |}.
Definition set_sv_connection (x : bool) (r : Service) : Service :=
  {| sv_options := sv_options r; sv_state := sv_state r; sv_runtimeID := sv_runtimeID r;
     sv_runtimeName := sv_runtimeName r; sv_connection := x; sv_sessions := sv_sessions r;
     sv_removed := sv_removed r; sv_runtimeClosed := sv_runtimeClosed r;
     sv_allocationErr := sv_allocationErr r; sv_shutdownErr := sv_shutdownErr r;
     sv_transport := sv_transport r |}.
Definition set_sv_sessions (x : list (string * Session)) (r : Service) : Service :=
  {| sv_options := sv_options r; sv_state := sv_state r; sv_runtimeID := sv_runtimeID r;
     sv_runtimeName := sv_runtimeName r; sv_connection := sv_connection r; sv_sessions := x;
     sv_removed := sv_removed r; sv_runtimeClosed := sv_runtimeClosed r;
     sv_allocationErr := sv_allocationErr r; sv_shutdownErr := sv_shutdownErr r;
     sv_transport := sv_transport r |}.
Definition set_sv_removed (x : bool) (r : Service) : Service :=
  {| sv_options := sv_options r; sv_state := sv_state r; sv_runtimeID := sv_runtimeID r;
     sv_runtimeName := sv_runtimeName r; sv_connection := sv_connection r;
     sv_sessions := sv_sessions r; sv_removed := x; sv_runtimeClosed := sv_runtimeClosed r;
     sv_allocationErr := sv_allocationErr r; sv_shutdownErr := sv_shutdownErr r;
     sv_transport := sv_transport r |}.
Definition set_sv_runtimeClosed (x : bool) (r : Service) : Service :=
  {| sv_options := sv_options r; sv_state := sv_state r; sv_runtimeID := sv_runtimeID r;
     sv_runtimeName := sv_runtimeName r; sv_connection := sv_connection r;
     sv_sessions := sv_sessions r; sv_removed := sv_removed r; sv_runtimeClosed := x;
     sv_allocationErr := sv_allocationErr r; sv_shutdownErr := sv_shutdownErr r;
     sv_transport := sv_transport r |}.
Definition set_sv_shutdownErr (x : error) (r : Service) : Service :=
  {| sv_options := sv_options r; sv_state := sv_state r; sv_runtimeID := sv_runtimeID r;
     sv_runtimeName := sv_runtimeName r; sv_connection := sv_connection r;
     sv_sessions := sv_sessions r; sv_removed := sv_removed r;
     sv_runtimeClosed := sv_runtimeClosed r; sv_allocationErr := sv_allocationErr r;
     sv_shutdownErr := x; sv_transport := sv_transport r |}.
Definition set_sv_runtime (id : string) (allocation : error) (r : Service) : Service :=
  {| sv_options := sv_options r; sv_state := sv_state r; sv_runtimeID := id;
     sv_runtimeName := sv_runtimeName r; sv_connection := sv_connection r;
     sv_sessions := sv_sessions r; sv_removed := sv_removed r; sv_runtimeClosed := sv_runtimeClosed r;
     sv_allocationErr := allocation; sv_shutdownErr := sv_shutdownErr r; sv_transport := sv_transport r |}.

(** The deployment runtime, the control client, the file system and the clock. *)
Record ServiceOps (W : Type) := {
  vo_Abs : string -> M W (string + err);
  vo_MkdirAll : string -> M W error;
  vo_WriteJSON : string -> list (string * string) -> M W error;
  vo_nonce : M W (string + err);
  vo_Create : Ctx -> Request -> M W (string * error);
  vo_marshal : LaunchConfig -> bytes + err;
  vo_tar : list (string * bytes) -> bytes + err;
  vo_UploadArchive : Ctx -> string -> string -> bytes -> M W error;
  vo_Validate : Ctx -> string -> Request -> M W error;
  vo_Start : Ctx -> string -> M W error;
  vo_Address : Ctx -> string -> Z -> M W (string + err);
  vo_NewClient : string -> M W error;
  vo_Check : Ctx -> M W bool;                  (* the health check answers SERVING *)
  vo_CloseConnection : M W error;
  vo_Running : Ctx -> string -> M W (bool * error);
  vo_Stop : Ctx -> string -> M W error;
  vo_Close : M W error;
  vo_waitPoll : Ctx -> M W error;
  vo_TaskAddress : Ctx -> string -> Z -> M W (string + err);
  vo_RegisterSandbox : Ctx -> RegisterSandboxRequest -> M W rpc_answer;
  vo_GetSandbox : Ctx -> string -> M W rpc_answer;
  vo_ReleaseSandbox : Ctx -> string -> M W rpc_answer;
  vo_helper : HelperFS W;
  vo_DownloadArchive : Ctx -> string -> string -> M W (Download + err);
  vo_WriteFile : string -> bytes -> M W error;
  vo_sha256 : bytes -> string
}.
Arguments vo_Abs {W}.
Arguments vo_MkdirAll {W}.
Arguments vo_WriteJSON {W}.
Arguments vo_nonce {W}.
Arguments vo_Create {W}.
Arguments vo_marshal {W}.
Arguments vo_tar {W}.
Arguments vo_UploadArchive {W}.
Arguments vo_Validate {W}.
Arguments vo_Start {W}.
Arguments vo_Address {W}.
Arguments vo_NewClient {W}.
Arguments vo_Check {W}.
Arguments vo_CloseConnection {W}.
Arguments vo_Running {W}.
Arguments vo_Stop {W}.
Arguments vo_Close {W}.
Arguments vo_waitPoll {W}.
Arguments vo_TaskAddress {W}.
Arguments vo_RegisterSandbox {W}.
Arguments vo_GetSandbox {W}.
Arguments vo_ReleaseSandbox {W}.
Arguments vo_helper {W}.
Arguments vo_DownloadArchive {W}.
Arguments vo_WriteFile {W}.
Arguments vo_sha256 {W}.

(** [archiveFiles] of artifacts.go; the tar format is the library's. *)
Definition archiveFiles (tar : list (string * bytes) -> bytes + err) (files : list (string * bytes)) : bytes + err :=
  if existsb (fun f => negb (String.eqb (Base f.1) f.1) || String.eqb f.1 "." || String.eqb f.1 "..") files
  then inr (ENew "invalid staged file name") else tar files.

(** The service of checked options. *)
Definition new_Service (x : Options) : Service :=
  {| sv_options := x; sv_state := New; sv_runtimeID := ""; sv_runtimeName := ""; sv_connection := false;
     sv_sessions := []; sv_removed := false; sv_runtimeClosed := false; sv_allocationErr := None;
     sv_shutdownErr := None; sv_transport := transportOf (op_BridgeType x) |}.

Section Service.
Context {W : Type} `{!Runtime W}.
Variable v : ServiceOps W.

(** [NewService]; [has_runtime] and [addressing] say whether the runtime is there and
    resolves task addresses. *)
Definition options_refused (has_runtime addressing : bool) (x : Options) : error :=
  let launch := op_Launch x in
  (refuse_if negb has_runtime || String.eqb (op_OutputDir x) "" || String.eqb (op_RunID x) ""
     with "bridge service requires runtime, run identity and output directory") >>?
  (refuse_if negb addressing with "bridge runtime requires harness addressing") >>?
  (refuse_if String.eqb (ls_RuntimeBackend launch) "" || String.eqb (ls_ResourceMetrics launch) "" ||
             String.eqb (lc_Backend (ls_Config launch)) ""
     with "bridge requires explicit runtime metadata and execution backend") >>?
  (refuse_if String.eqb (rt_Workdir (ls_Request launch)) "" || String.eqb (lc_OutputDir (ls_Config launch)) "" ||
             String.eqb (lc_ControlAddress (ls_Config launch)) "" ||
             (rt_ServicePort (ls_Request launch) <=? 0) || (65535 <? rt_ServicePort (ls_Request launch))
     with "bridge requires explicit staging, evidence and control addresses") >>?
  (refuse_if String.eqb (transportOf (op_BridgeType x)) "" with "bridge native type has no known transport") >>?
  (refuse_if negb (Bool.eqb (String.eqb (cc_Command (op_Client x)) "") (String.eqb (cc_SourcePath (op_Client x)) ""))
     with "bridge client helper requires source and destination").
Definition NewService (has_runtime addressing : bool) (x : Options) : M W (Service + err) :=
  match options_refused has_runtime addressing x with
  | Some e => ret (inr e)
  | None =>
      let* output := vo_Abs v (op_OutputDir x) in
      match output with
      | inr e => ret (inr e)
      | inl output =>
          let* source := if String.eqb (cc_SourcePath (op_Client x)) "" then ret (inl ""%string)
                         else vo_Abs v (cc_SourcePath (op_Client x)) in
          ret match source with
              | inr e => inr e
              | inl source =>
                  inl (new_Service (set_op_paths output source x))
              end
      end
  end.

(** [record]. *)
Definition service_record (sv : Service) : M W error :=
  let x := sv_options sv in
  vo_WriteJSON v (Join [op_OutputDir x; "runtime.json"])
    [("Backend", ls_RuntimeBackend (op_Launch x)); ("RuntimeID", sv_runtimeID sv);
     ("RuntimeName", sv_runtimeName sv); ("RunID", op_RunID x);
     ("ResourceMetrics", ls_ResourceMetrics (op_Launch x))].

(** The request of [Start]: its name, its labels and its placement are the run's. *)
Definition managed_labels (runID : string) : gmap string string :=
  list_to_map [("aries.managed", "true"); ("aries.component", "bridge"); ("aries.kind", "tool-bridge");
               ("aries.run", runID)]%string.
Definition service_request (x : Options) (nonce : string) : Request :=
  let req := ls_Request (op_Launch x) in
  set_rt_identity ("aries-bridge-" +:+ nonce)
    (managed_labels (op_RunID x) ∪ delete "aries.attempt"%string (delete "aries.task"%string (rt_Labels req)))
    (op_Placement x) req.
Definition service_config (x : Options) : LaunchConfig :=
  let config := ls_Config (op_Launch x) in
  {| lc_RunID := op_RunID x; lc_BridgeType := op_BridgeType x; lc_Backend := lc_Backend config;
     lc_BackendEndpoint := lc_BackendEndpoint config; lc_Listen := lc_Listen config;
     lc_ControlAddress := lc_ControlAddress config; lc_OutputDir := lc_OutputDir config;
     lc_RetainRawLog := op_RetainRawLog x |}.

(** The readiness loop of [Start].  [None] is a loop that runs out of fuel. *)
Definition second : Z := 10 ^ 9.
Definition poll_runtime (ctx : Ctx) (sv : Service) (again : M W (option (error * Service))) :
    M W (option (error * Service)) :=
  let* (running, runErr) := vo_Running v ctx (sv_runtimeID sv) in
  if negb (is_nil runErr) || negb running then
    ret (Some (errors_Join [Some (ENew "bridge runtime exited before control readiness"); runErr], sv))
  else
    let* e := vo_waitPoll v ctx in
    match e with
    | Some e => ret (Some (Some e, sv))
    | None => again
    end.
Fixpoint ready_loop (fuel : nat) (ctx : Ctx) (port : Z) (sv : Service) : M W (option (error * Service)) :=
  let poll (sv : Service) :=
    poll_runtime ctx sv (match fuel with O => ret None | S fuel => ready_loop fuel ctx port sv end) in
  let* address := vo_Address v ctx (sv_runtimeID sv) port in
  match address with
  | inr _ => poll sv
  | inl address =>
      let* e := vo_NewClient v address in
      match e with
      | Some e => ret (Some (Some e, set_sv_connection false sv))
      | None =>
          let* serving := vo_Check v (WithTimeout ctx second) in
          if serving : bool then ret (Some (None, set_sv_state Running (set_sv_connection true sv)))
          else
            let* _ := vo_CloseConnection v in
            poll (set_sv_connection false sv)
      end
  end.

(** [Start], after the runtime is created. *)
Definition deploy (ctx : Ctx) (req : Request) (sv : Service) : M W error :=
  match vo_marshal v (service_config (sv_options sv)) with
  | inr e => ret (Some e)
  | inl data =>
      match archiveFiles (vo_tar v) [("config.json"%string, data)] with
      | inr e => ret (Some e)
      | inl archive =>
          let* e := vo_UploadArchive v ctx (sv_runtimeID sv) (rt_Workdir req) archive in
          match e with
          | Some e => ret (Some e)
          | None =>
              let* e := vo_Validate v ctx (sv_runtimeID sv) req in
              match e with
              | Some e => ret (Some e)
              | None => vo_Start v ctx (sv_runtimeID sv)
              end
          end
      end
  end.
Definition allocated (id : string) (e : error) (sv : Service) : error * Service :=
  let unnamed := EWrap "bridge runtime returned empty identity" (ESentinel ErrAllocationUnconfirmed) in
  if String.eqb id "" && is_nil e then (Some unnamed, set_sv_runtime id (Some unnamed) sv)
  else (e, set_sv_runtime id (if error_Is e ErrAllocationUnconfirmed then e else sv_allocationErr sv) sv).
Definition service_Start (fuel : nat) (ctx : Ctx) (sv : Service) : M W (option (error * Service)) :=
  if negb (bool_decide (sv_state sv = New))
  then ret (Some (Some (ENew "bridge service cannot be restarted"), sv))
  else
    let sv := set_sv_state Starting sv in
    let ctx := WithTimeout ctx minute in
    let* e := vo_MkdirAll v (op_OutputDir (sv_options sv)) in
    match e with
    | Some e => ret (Some (Some e, sv))
    | None =>
        let* id := vo_nonce v in
        match id with
        | inr e => ret (Some (Some e, sv))
        | inl id =>
            let req := service_request (sv_options sv) id in
            let sv := set_sv_runtimeName (rt_Name req) sv in
            let* (id, e) := vo_Create v ctx req in
            let (e, sv) := allocated id e sv in
            let* recordErr := service_record sv in
            match recordErr, e with
            | Some _, _ => ret (Some (errors_Join [e; recordErr], sv))
            | None, Some e => ret (Some (Some e, sv))
            | None, None =>
                let* e := deploy ctx req sv in
                match e with
                | Some e => ret (Some (Some e, sv))
                | None => ready_loop fuel ctx (rt_ServicePort req) sv
                end
            end
        end
    end.

(** [NewSession]. *)
Definition NewSession (outputRoot : string) (sv : Service) : M W (error * Service) :=
  if negb (bool_decide (sv_state sv = Running))
  then ret (Some (ENew "bridge service is not accepting sessions"), sv)
  else
    let* root := vo_Abs v outputRoot in
    ret match root with
        | inr e => (Some e, sv)
        | inl root => (None, set_sv_sessions (sv_sessions sv ++ [(root, new_Session)]) sv)
        end.

(** What a session of the service uses. *)
Definition session_ops (sv : Service) (outputRoot : string) : SessionOps W :=
  let x := sv_options sv in
  {| so_running := ret (bool_decide (sv_state sv = Running));
     so_RuntimeBackend := ls_RuntimeBackend (op_Launch x); so_Backend := lc_Backend (ls_Config (op_Launch x));
     so_RunID := op_RunID x; so_OutputDir := lc_OutputDir (ls_Config (op_Launch x));
     so_runtimeID := sv_runtimeID sv; so_runtimeName := sv_runtimeName sv; so_outputRoot := outputRoot;
     so_transport := sv_transport sv; so_RetainRawLog := op_RetainRawLog x;
     so_ClientCommand := cc_Command (op_Client x); so_ClientSourcePath := cc_SourcePath (op_Client x);
     so_MkdirAll := vo_MkdirAll v; so_WriteJSON := vo_WriteJSON v;
     so_RegisterSandbox := vo_RegisterSandbox v; so_GetSandbox := vo_GetSandbox v;
     so_ReleaseSandbox := vo_ReleaseSandbox v; so_waitPoll := vo_waitPoll v;
     so_TaskAddress := vo_TaskAddress v; so_Running := vo_Running v; so_helper := vo_helper v;
     so_DownloadArchive := vo_DownloadArchive v; so_WriteFile := vo_WriteFile v; so_sha256 := vo_sha256 v |}.

(** [Stop]: every session's stop, then the bridge.  The stops run concurrently, each
    under the lock of its session; they are independent of each other's state, and are
    run here one after the other. *)
Fixpoint stop_sessions (ctx : Ctx) (sv : Service) (sessions : list (string * Session)) :
    M W (list error * list (string * Session)) :=
  match sessions with
  | [] => ret ([], [])
  | (root, s) :: sessions =>
      let* (e, s) := session_Stop (session_ops sv root) ctx s in
      let* (errs, sessions) := stop_sessions ctx sv sessions in
      ret (e :: errs, (root, s) :: sessions)
  end.
Definition remove_runtime (ctx : Ctx) (sv : Service) : M W (error * Service) :=
  if negb (String.eqb (sv_runtimeID sv) "") && negb (sv_removed sv) then
    let* e := vo_Stop v ctx (sv_runtimeID sv) in
    ret (e, if is_nil e then set_sv_removed true sv else sv)
  else ret (None, sv).
Definition close_connection (sv : Service) : M W (error * Service) :=
  if sv_connection sv then
    let* e := vo_CloseConnection v in
    ret (e, if is_nil e then set_sv_connection false sv else sv)
  else ret (None, sv).
Definition close_runtime (sv : Service) : M W (error * Service) :=
  if negb (sv_runtimeClosed sv) then
    let* e := vo_Close v in
    ret (e, if is_nil e then set_sv_runtimeClosed true sv else sv)
  else ret (None, sv).
Definition service_Stop (ctx : Ctx) (sv : Service) : M W (error * Service) :=
  if bool_decide (sv_state sv = Closed) then ret (errors_Join [sv_allocationErr sv; sv_shutdownErr sv], sv)
  else
    let sv := set_sv_state Closing sv in
    let* (errs, sessions) := stop_sessions ctx sv (sv_sessions sv) in
    let sv := set_sv_sessions sessions sv in
    let sv := set_sv_shutdownErr (errors_Join [sv_shutdownErr sv; errors_Join errs]) sv in
    let failed (e : err) (sv : Service) := ret (errors_Join [sv_allocationErr sv; sv_shutdownErr sv; Some e], sv) in
    let* (e, sv) := remove_runtime ctx sv in
    match e with
    | Some e => failed e sv
    | None =>
        let* (e, sv) := close_connection sv in
        match e with
        | Some e => failed e sv
        | None =>
            let* (e, sv) := close_runtime sv in
            match e with
            | Some e => failed e sv
            | None =>
                let sv := set_sv_state Closed sv in
                ret (errors_Join [sv_allocationErr sv; sv_shutdownErr sv], sv)
            end
        end
    end.
End Service.

(** * The life of a service *)

(** The calls of the service and of the sessions it handed out. *)
Inductive service_call (W : Type) :=
  | DoStart (ctx : Ctx)
  | DoNewSession (outputRoot : string)
  | DoSession (i : nat) (c : session_call W)
  | DoStop (ctx : Ctx).
Arguments DoStart {W}.
Arguments DoNewSession {W}.
Arguments DoSession {W}.
Arguments DoStop {W}.
Inductive service_result :=
  | StartDone (e : error)
  | SessionMade (e : error)
  | SessionDone (i : nat) (r : session_result)
  | NoSession
  | StopDone (e : error).

Section Service_life.
Context {W : Type} `{!Runtime W}.
Variable v : ServiceOps W.
Variable fuel : nat.

Definition session_call_on (sv : Service) (root : string) (c : session_call W) (s : Session) :
    M W (option (session_result * Session)) :=
  match c with
  | CallStart ctx exporter =>
      let* r := session_Start (session_ops v sv root) fuel ctx exporter s in
      ret match r with Some (r, s) => Some (Started r, s) | None => None end
  | CallStop ctx =>
      let* (e, s) := session_Stop (session_ops v sv root) ctx s in ret (Some (Stopped e, s))
  end.
Definition service_step (c : service_call W) (sv : Service) : M W (option (service_result * Service)) :=
  match c with
  | DoStart ctx =>
      let* r := service_Start v fuel ctx sv in
      ret match r with Some (e, sv) => Some (StartDone e, sv) | None => None end
  | DoNewSession root => let* (e, sv) := NewSession v root sv in ret (Some (SessionMade e, sv))
  | DoSession i c =>
      match sv_sessions sv !! i with
      | None => ret (Some (NoSession, sv))
      | Some (root, s) =>
          let* r := session_call_on sv root c s in
          ret match r with
              | Some (r, s) => Some (SessionDone i r, set_sv_sessions (<[i := (root, s)]> (sv_sessions sv)) sv)
              | None => None
              end
      end
  | DoStop ctx => let* (e, sv) := service_Stop v ctx sv in ret (Some (StopDone e, sv))
  end.
Fixpoint service_life (calls : list (service_call W)) (sv : Service) : M W (option (list service_result * Service)) :=
  match calls with
  | [] => ret (Some ([], sv))
  | c :: calls =>
      let* r := service_step c sv in
      match r with
      | None => ret None
      | Some (r, sv) =>
          let* rest := service_life calls sv in
          ret match rest with Some (rs, sv) => Some (r :: rs, sv) | None => None end
      end
  end.
End Service_life.

(** * What a service does to the bridge *)

Inductive service_event :=
  | Created (id : string) (e : error)
  | Connected (e : error)
  | Disconnected (e : error)
  | Removed (id : string) (e : error)
  | RuntimeClosed (e : error).

Definition traced_service {W} (v : ServiceOps W) : ServiceOps (W * list service_event) :=
  {| vo_Abs p := silent (vo_Abs v p); vo_MkdirAll p := silent (vo_MkdirAll v p);
     vo_WriteJSON p fields := silent (vo_WriteJSON v p fields); vo_nonce := silent (vo_nonce v);
     vo_Create ctx req := logged (fun r => Created r.1 r.2) (vo_Create v ctx req);
     vo_marshal := vo_marshal v; vo_tar := vo_tar v;
     vo_UploadArchive ctx id p a := silent (vo_UploadArchive v ctx id p a);
     vo_Validate ctx id req := silent (vo_Validate v ctx id req); vo_Start ctx id := silent (vo_Start v ctx id);
     vo_Address ctx id port := silent (vo_Address v ctx id port);
     vo_NewClient address := logged Connected (vo_NewClient v address);
     vo_Check ctx := silent (vo_Check v ctx);
     vo_CloseConnection := logged Disconnected (vo_CloseConnection v);
     vo_Running ctx id := silent (vo_Running v ctx id);
     vo_Stop ctx id := logged (Removed id) (vo_Stop v ctx id);
     vo_Close := logged RuntimeClosed (vo_Close v);
     vo_waitPoll ctx := silent (vo_waitPoll v ctx);
     vo_TaskAddress ctx id port := silent (vo_TaskAddress v ctx id port);
     vo_RegisterSandbox ctx r := silent (vo_RegisterSandbox v ctx r);
     vo_GetSandbox ctx id := silent (vo_GetSandbox v ctx id);
     vo_ReleaseSandbox ctx id := silent (vo_ReleaseSandbox v ctx id); vo_helper := traced_helper (vo_helper v);
     vo_DownloadArchive ctx id p := silent (vo_DownloadArchive v ctx id p);
     vo_WriteFile p c := silent (vo_WriteFile v p c); vo_sha256 := vo_sha256 v |}.

(** The calls of a session are not part of this trace. *)
Section Quiet.
Context {W : Type} `{!Runtime W}.
Variable v : ServiceOps W.
Variables (sv : Service) (root : string).
Let o := session_ops (traced_service v) sv root.
Definition quiet {A} (m : M (W * list service_event) A) : Prop := emits m (fun _ evs => evs = []).

Lemma service_quiet_bind {A B} (m : M (W * list service_event) A) (f : A -> M (W * list service_event) B) :
  quiet m -> (forall a, quiet (f a)) -> quiet (bind m f).
Proof. intros Hm Hf. eapply emits_bind; [exact Hm|]. intros a evs ->. apply Hf. Qed.
Lemma service_quiet_silent {A} (m : M W A) : quiet (silent m).
Proof. by apply emits_silent. Qed.
Lemma service_quiet_ret {A} (a : A) : quiet (ret a).
Proof. by apply emits_ret. Qed.
Lemma quiet_pure {A} (P : A -> Prop) (m : M (W * list service_event) A) :
  quiet m -> (forall w, P (m w).1) -> emits m (fun a evs => evs = [] /\ P a).
Proof. intros Hm HP w t. destruct (Hm w t) as (evs & He & ->). exists []. auto. Qed.

Ltac quiet := repeat first
  [ apply service_quiet_ret | apply service_quiet_silent | apply service_quiet_bind; [|intros ?]
  | match goal with |- quiet (match ?x with _ => _ end) => destruct x end
  | match goal with |- quiet (let (_, _) := ?x in _) => destruct x end ].

Lemma quiet_removeHelper s : quiet (removeHelper o s).
Proof. unfold removeHelper. quiet. Qed.
Lemma quiet_collect ctx s : quiet (collect_evidence o ctx s).
Proof.
  unfold collect_evidence. destruct (_ && _); [|quiet]. apply service_quiet_bind; [|intros r; quiet].
  generalize (expected_names o). induction (bs_manifest s) as [|entry entries IH]; intros expected; simpl; [quiet|].
  destruct (expected !! af_Name entry) as [[]|]; [quiet| |quiet].
  destruct (_ && String.eqb (af_Sha256 entry) ""); [apply IH|]. destruct (negb _); [quiet|].
  apply service_quiet_bind; [unfold collectArtifact; quiet|]. intros [e|]; [quiet|apply IH].
Qed.
Lemma quiet_session_Stop ctx s : quiet (session_Stop o ctx s).
Proof.
  unfold session_Stop. destruct (bs_evidenceErr _); [apply service_quiet_bind; [apply quiet_removeHelper|quiet]|].
  apply service_quiet_bind; [|intros [[e|[]] s1]; [quiet|]].
  - unfold release_access. destruct (_ && _); [|quiet]. apply service_quiet_bind; [quiet|]. intros [a [e|]]; [|quiet].
    apply service_quiet_bind; [quiet|]. intros [running runErr]. destruct (_ || _); [quiet|].
    destruct (bs_exposed _); [apply service_quiet_bind; [apply quiet_removeHelper|quiet]|quiet].
  - apply service_quiet_bind; [apply quiet_collect|]. intros [[e|] s2]; [quiet|].
    apply service_quiet_bind; [apply quiet_removeHelper|quiet].
Qed.
Lemma quiet_register fuel ctx request s a : quiet (register_loop o fuel ctx request s a).
Proof.
  revert a. induction fuel as [|fuel IH]; intros [access e]; cbn [register_loop]; quiet; apply IH.
Qed.
Lemma quiet_session_Start fuel ctx (exporter : option (M W (BridgeTarget + err))) s :
  quiet (session_Start o fuel ctx (silent <$> exporter) s).
Proof.
  unfold session_Start, registerSandbox, expose, stageClientHelper, session_record. destruct exporter; simpl; quiet; try apply quiet_register.
Qed.
End Quiet.

(** * The invariant of a service *)

Fixpoint creations (evs : list service_event) : nat :=
  match evs with
  | [] => 0
  | Created _ _ :: evs => S (creations evs)
  | _ :: evs => creations evs
  end%nat.
Fixpoint connected (open : bool) (evs : list service_event) : bool :=
  match evs with
  | [] => open
  | Connected e :: evs => connected (is_nil e) evs
  | Disconnected _ :: evs => connected false evs
  | _ :: evs => connected open evs
  end.
Lemma creations_app evs evs' : creations (evs ++ evs') = (creations evs + creations evs')%nat.
Proof. induction evs as [|[] evs IH]; simpl; lia. Qed.
Lemma connected_app open evs evs' : connected open (evs ++ evs') = connected (connected open evs) evs'.
Proof. revert open. induction evs as [|[] evs IH]; intros open; simpl; auto. Qed.

Definition closing (sv : Service) : Prop := sv_state sv = Closing \/ sv_state sv = Closed.
Record service_inv (rs : list service_result) (evs : list service_event) (sv : Service) : Prop := {
  vi_new : sv_state sv = New ->
    creations evs = 0%nat /\ sv_runtimeID sv = ""%string /\ sv_removed sv = false /\ sv_allocationErr sv = None;
  vi_once : (creations evs <= 1)%nat;
  vi_created : forall id e, Created id e ∈ evs -> id = sv_runtimeID sv /\
    (sv_allocationErr sv = None -> error_Is e ErrAllocationUnconfirmed = false /\ (id = ""%string -> e <> None));
  vi_removed : sv_removed sv = true -> Removed (sv_runtimeID sv) None ∈ evs;
  vi_runtimeClosed : sv_runtimeClosed sv = true -> RuntimeClosed None ∈ evs;
  vi_connection : sv_connection sv = false -> connected false evs = false;
  vi_closed : sv_state sv = Closed ->
    (sv_runtimeID sv <> ""%string -> sv_removed sv = true) /\ sv_connection sv = false /\
    sv_runtimeClosed sv = true /\ (sv_shutdownErr sv = None -> Forall (fun s => settled s.2) (sv_sessions sv));
  vi_final : (exists e, StopDone e ∈ rs) -> closing sv
}.

Lemma creations_none evs id e : creations evs = 0%nat -> Created id e ∉ evs.
Proof.
  induction evs as [|ev evs IH]; intros H Hin; [set_solver|].
  apply elem_of_cons in Hin as [<-|Hin]; [done|]. destruct ev; simpl in H; try done; by apply IH.
Qed.

(** Results that are not of a stop. *)
Definition not_stop (r : service_result) : Prop := match r with StopDone _ => False | _ => True end.
Lemma inv_result rs evs sv r :
  service_inv rs evs sv -> (not_stop r \/ closing sv) -> service_inv (rs ++ [r]) evs sv.
Proof.
  intros [] Hr. split; auto. intros (e & Hin). apply elem_of_app in Hin as [Hin|Hin%list_elem_of_singleton]; [eauto|].
  subst r. by destruct Hr.
Qed.

(** Events of the connection, in a service that is not closed. *)
Lemma inv_connection rs evs sv ev state open :
  service_inv rs evs sv -> (forall id e, ev <> Created id e) -> (open = false -> connected (connected false evs) [ev] = false) ->
  sv_state sv = Starting -> state = Starting \/ state = Running ->
  service_inv rs (evs ++ [ev]) (set_sv_state state (set_sv_connection open sv)).
Proof.
  intros [] Hev Hopen Hs Hstate. assert (creations [ev] = 0%nat) as Hc.
  { destruct ev; simpl; try done. by destruct (Hev id e). }
  split; simpl.
  - by destruct Hstate; subst.
  - rewrite creations_app. lia.
  - intros id e Hin. apply elem_of_app in Hin as [Hin|Hin%list_elem_of_singleton]; [auto|]. by destruct (Hev id e).
  - intros Hr. apply elem_of_app. auto.
  - intros Hr. apply elem_of_app. auto.
  - rewrite connected_app. done.
  - by destruct Hstate; subst.
  - intros Hex. destruct (vi_final0 Hex) as [?|?]; congruence.
Qed.

Lemma join2_nil (a b : error) : errors_Join [a; b] = None -> a = None /\ b = None.
Proof. by destruct a, b. Qed.
Lemma join3_not_nil (a b : error) (e : err) : errors_Join [a; b; Some e] <> None.
Proof. by destruct a, b. Qed.

Section Invariant.
Context {W : Type} `{!Runtime W}.
Variable v : ServiceOps W.

Definition keeps (rs : list service_result) (evs : list service_event) (m : M (W * list service_event) (option (error * Service))) : Prop :=
  emits m (fun r evs' => forall e sv, r = Some (e, sv) -> service_inv rs (evs ++ evs') sv).

Lemma keeps_ret rs evs e sv : service_inv rs evs sv -> keeps rs evs (ret (Some (e, sv))).
Proof. intros I. apply emits_ret. intros ? ? [= <- <-]. by rewrite app_nil_r. Qed.
Lemma keeps_call {A} rs evs (event : A -> service_event) (m : M W A) f :
  (forall a, keeps rs (evs ++ [event a]) (f a)) -> keeps rs evs (bind (logged event m) f).
Proof.
  intros H. apply emits_call. intros a. eapply emits_mono; [apply H|].
  intros r evs' Hr e sv Hs. rewrite cons_middle, app_assoc. eauto.
Qed.
Lemma keeps_read {A} rs evs (m : M W A) f : (forall a, keeps rs evs (f a)) -> keeps rs evs (bind (silent m) f).
Proof. intros H. by apply emits_read. Qed.

Lemma poll_keeps ctx rs evs sv again :
  service_inv rs evs sv -> keeps rs evs again -> keeps rs evs (poll_runtime (traced_service v) ctx sv again).
Proof.
  intros I Hagain. unfold poll_runtime. apply keeps_read. intros [running runErr].
  destruct (_ || _); [by apply keeps_ret|]. apply keeps_read. by intros [e|]; [apply keeps_ret|].
Qed.
Lemma keeps_none rs evs : keeps rs evs (ret None).
Proof. by apply emits_ret. Qed.

Lemma ready_loop_keeps fuel ctx port rs evs sv :
  service_inv rs evs sv -> sv_state sv = Starting -> keeps rs evs (ready_loop (traced_service v) fuel ctx port sv).
Proof.
  revert evs sv. induction fuel as [|fuel IH]; intros evs sv I Hs; cbn [ready_loop];
    (apply keeps_read; intros [address|e]; [|apply poll_keeps; auto using keeps_none]).
  all: apply keeps_call; intros [e|].
  all: try (apply keeps_ret; pose proof (inv_connection _ _ _ (Connected (Some e)) Starting false I ltac:(done) ltac:(done) Hs ltac:(auto)) as I';
    by destruct sv; simpl in *; subst).
  all: apply keeps_read; intros [|];
    [by apply keeps_ret, (inv_connection _ _ _ (Connected None) Running true I); auto|].
  all: apply keeps_call; intros ce; rewrite <- app_assoc; simpl app.
  all: assert (service_inv rs (evs ++ [Connected None; Disconnected ce]) (set_sv_connection false sv)) as I2.
  all: try (pose proof (inv_connection _ _ _ (Connected None) Starting true I ltac:(done) ltac:(done) Hs ltac:(auto)) as I1;
    pose proof (inv_connection _ _ _ (Disconnected ce) Starting false I1 ltac:(done) ltac:(done) eq_refl ltac:(auto)) as I2;
    rewrite <- app_assoc in I2; by destruct sv; simpl in *; subst).
  all: apply poll_keeps; auto using keeps_none.
Qed.

Lemma inv_starting rs evs sv name :
  service_inv rs evs sv -> sv_state sv = New ->
  service_inv rs evs (set_sv_runtimeName name (set_sv_state Starting sv)).
Proof.
  intros [] Hs. split; simpl; auto; try done. intros Hex. destruct (vi_final0 Hex); congruence.
Qed.
Lemma inv_created rs evs sv name id e :
  service_inv rs evs sv -> sv_state sv = New ->
  service_inv rs (evs ++ [Created id e]) (allocated id e (set_sv_runtimeName name (set_sv_state Starting sv))).2.
Proof.
  intros I Hs. pose proof (inv_starting _ _ _ name I Hs) as [N O C R RC Co Cl F]. simpl in *.
  destruct (vi_new _ _ _ I Hs) as (Hnone & Hid & Hrem & Hall).
  set (sv1 := (allocated _ _ _).2).
  assert (sv_runtimeID sv1 = id /\ sv_state sv1 = Starting /\ sv_connection sv1 = sv_connection sv /\
    sv_removed sv1 = false /\ sv_runtimeClosed sv1 = sv_runtimeClosed sv /\
    (sv_allocationErr sv1 = None -> error_Is e ErrAllocationUnconfirmed = false /\ (id = ""%string -> e <> None)))
    as (H1 & H2 & H3 & H4 & H5 & H6).
  { subst sv1. unfold allocated. destruct (String.eqb_spec id "" ) as [->|Hne], e as [e|]; simpl; split_and!; try done.
    all: destruct (errors_Is e ErrAllocationUnconfirmed) eqn:Hu; simpl; try done; by rewrite Hu. }
  clearbody sv1. split; rewrite ?H2; try done.
  - rewrite creations_app, Hnone. simpl. lia.
  - intros id' e' Hin. apply elem_of_app in Hin as [Hin|Hin%list_elem_of_singleton].
    + by apply creations_none in Hin.
    + injection Hin as -> ->. by rewrite H1.
  - rewrite H4. done.
  - rewrite H5. intros Hr. apply elem_of_app. auto.
  - rewrite H3, connected_app. intros Hc. simpl. auto.
  - intros Hex. by destruct (F Hex).
Qed.

Lemma Start_keeps fuel ctx rs evs sv :
  service_inv rs evs sv -> keeps rs evs (service_Start (traced_service v) fuel ctx sv).
Proof.
  intros I. unfold service_Start. destruct (bool_decide (sv_state sv = New)) eqn:Hs; simpl negb; cbv iota; [|by apply keeps_ret].
  apply bool_decide_eq_true in Hs.
  assert (service_inv rs evs (set_sv_state Starting sv)) as I1.
  { pose proof (inv_starting _ _ _ (sv_runtimeName sv) I Hs). by destruct sv. }
  apply keeps_read. intros [e|]; [by apply keeps_ret|]. apply keeps_read. intros [id|e]; [|by apply keeps_ret].
  apply keeps_call. intros [rid e].
  pose proof (inv_created _ _ _ (rt_Name (service_request (sv_options sv) id)) rid e I Hs) as I2.
  assert (sv_state (allocated rid e (set_sv_runtimeName (rt_Name (service_request (sv_options sv) id)) (set_sv_state Starting sv))).2 = Starting) as Hs2.
  { unfold allocated. by destruct (_ && _). }
  destruct (allocated rid e _) as [e' sv2]. simpl in I2, Hs2.
  apply keeps_read. intros [re|]; [by apply keeps_ret|]. destruct e' as [e'|]; [by apply keeps_ret|].
  eapply emits_bind.
  - instantiate (1 := fun _ evs => evs = []). unfold deploy. destruct (vo_marshal _ _); [|by apply emits_ret].
    destruct (archiveFiles _ _); [|by apply emits_ret]. apply emits_read. intros [|]; [by apply emits_ret|].
    apply emits_read. intros [|]; [by apply emits_ret|]. by apply emits_silent.
  - intros [de|] evs' ->; [by apply keeps_ret|]. by apply ready_loop_keeps.
Qed.

Lemma inv_sessions rs evs sv sessions :
  service_inv rs evs sv ->
  (sv_state sv = Closed -> sv_shutdownErr sv = None -> Forall (fun s => settled s.2) sessions) ->
  service_inv rs evs (set_sv_sessions sessions sv).
Proof. intros [] H. split; simpl; auto. intros Hc. destruct (vi_closed0 Hc) as (? & ? & ? & ?). auto. Qed.
Lemma inv_closing rs evs sv :
  service_inv rs evs sv -> sv_state sv <> Closed -> service_inv rs evs (set_sv_state Closing sv).
Proof. intros [] H. split; simpl; auto; try done. intros _. by left. Qed.
Lemma inv_shutdown rs evs sv e :
  service_inv rs evs sv -> sv_state sv <> Closed -> service_inv rs evs (set_sv_shutdownErr e sv).
Proof. intros [] H. split; simpl; auto. done. Qed.
Lemma inv_event rs evs sv ev :
  service_inv rs evs sv -> (forall id e, ev <> Created id e) ->
  (sv_connection sv = false -> connected false [ev] = false) -> service_inv rs (evs ++ [ev]) sv.
Proof.
  intros [] Hev Hconn. assert (creations [ev] = 0%nat) as Hc.
  { destruct ev; simpl; try done. by destruct (Hev id e). }
  split; auto.
  - intros Hn. rewrite creations_app, Hc. destruct (vi_new0 Hn) as (-> & ?). auto.
  - rewrite creations_app. lia.
  - intros id e Hin. apply elem_of_app in Hin as [Hin|Hin%list_elem_of_singleton]; [auto|]. by destruct (Hev id e).
  - intros Hr. apply elem_of_app. auto.
  - intros Hr. apply elem_of_app. auto.
  - intros Hn. rewrite connected_app, (vi_connection0 Hn). auto.
Qed.
Lemma inv_removed rs evs sv :
  service_inv rs (evs ++ [Removed (sv_runtimeID sv) None]) sv -> sv_state sv = Closing ->
  service_inv rs (evs ++ [Removed (sv_runtimeID sv) None]) (set_sv_removed true sv).
Proof. intros [] Hs. split; simpl; auto; try congruence. intros _. set_solver. Qed.
Lemma inv_disconnected rs evs sv :
  service_inv rs (evs ++ [Disconnected None]) sv -> sv_state sv = Closing ->
  service_inv rs (evs ++ [Disconnected None]) (set_sv_connection false sv).
Proof. intros [] Hs. split; simpl; auto; try congruence. intros _. by rewrite connected_app. Qed.
Lemma inv_runtime_closed rs evs sv :
  service_inv rs (evs ++ [RuntimeClosed None]) sv -> sv_state sv = Closing ->
  service_inv rs (evs ++ [RuntimeClosed None]) (set_sv_runtimeClosed true sv).
Proof. intros [] Hs. split; simpl; auto; try congruence. intros _. set_solver. Qed.

Lemma stop_sessions_emits ctx sv sessions :
  emits (stop_sessions (traced_service v) ctx sv sessions) (fun r evs =>
    evs = [] /\ (Forall (fun e => e = None) r.1 -> Forall (fun s => settled s.2) r.2)).
Proof.
  induction sessions as [|[root s] sessions IH]; simpl; [by apply emits_ret|].
  eapply emits_bind.
  { apply (quiet_pure (fun r => r.1 = None -> settled r.2)); [apply quiet_session_Stop|].
    intros w. destruct (session_Stop _ _ _ w) as [[[e|] s'] w'] eqn:Hs; simpl; [done|]. intros _.
    by eapply session_Stop_settles. }
  intros [e s'] evs [-> Hs]. eapply emits_bind; [apply IH|]. intros [errs rest] evs [-> Hr]. apply emits_ret.
  split; [done|]. simpl in *. intros H%Forall_cons. destruct H. constructor; auto.
Qed.
(** The three steps of a removal change nothing else. *)
Definition advances (sv sv' : Service) : Prop :=
  sv_state sv' = Closing /\ sv_allocationErr sv' = sv_allocationErr sv /\ sv_shutdownErr sv' = sv_shutdownErr sv /\
  sv_sessions sv' = sv_sessions sv /\ sv_runtimeID sv' = sv_runtimeID sv /\
  (sv_removed sv = true -> sv_removed sv' = true) /\ (sv_connection sv = false -> sv_connection sv' = false).
Definition removal_step (rs : list service_result) (evs : list service_event) (sv : Service)
    (done_ : Service -> Prop) (m : M (W * list service_event) (error * Service)) : Prop :=
  emits m (fun r evs' => service_inv rs (evs ++ evs') r.2 /\ advances sv r.2 /\ (r.1 = None -> done_ r.2)).

Lemma remove_runtime_emits ctx rs evs sv :
  service_inv rs evs sv -> sv_state sv = Closing ->
  removal_step rs evs sv (fun sv => sv_runtimeID sv <> ""%string -> sv_removed sv = true)
    (remove_runtime (traced_service v) ctx sv).
Proof.
  intros I Hs. unfold removal_step, remove_runtime. destruct (_ && _) eqn:Hmust.
  - apply emits_call. intros e. apply emits_ret. simpl.
    pose proof (inv_event _ _ _ (Removed (sv_runtimeID sv) e) I ltac:(done) ltac:(done)) as I1.
    destruct e; simpl; split_and!; auto; try done. by apply inv_removed.
  - apply emits_ret. rewrite app_nil_r. split; [done|]. split; [by split_and!|]. intros _ Hne. simpl in *. apply String.eqb_neq in Hne. rewrite Hne in Hmust.
    by destruct (sv_removed sv).
Qed.
Lemma close_connection_emits rs evs sv :
  service_inv rs evs sv -> sv_state sv = Closing ->
  removal_step rs evs sv (fun sv => sv_connection sv = false) (close_connection (traced_service v) sv).
Proof.
  intros I Hs. unfold removal_step, close_connection. destruct (sv_connection sv) eqn:Hconn.
  - apply emits_call. intros e. apply emits_ret. simpl.
    pose proof (inv_event _ _ _ (Disconnected e) I ltac:(done) ltac:(done)) as I1.
    destruct e; simpl; split_and!; auto; try done. by apply inv_disconnected.
  - apply emits_ret. rewrite app_nil_r. by split_and!.
Qed.
Lemma close_runtime_emits rs evs sv :
  service_inv rs evs sv -> sv_state sv = Closing ->
  removal_step rs evs sv (fun sv => sv_runtimeClosed sv = true) (close_runtime (traced_service v) sv).
Proof.
  intros I Hs. unfold removal_step, close_runtime. destruct (sv_runtimeClosed sv) eqn:Hc; simpl.
  - apply emits_ret. rewrite app_nil_r. by split_and!.
  - apply emits_call. intros e. apply emits_ret. simpl.
    pose proof (inv_event _ _ _ (RuntimeClosed e) I ltac:(done) ltac:(done)) as I1.
    destruct e; simpl; split_and!; auto; try done. by apply inv_runtime_closed.
Qed.

Lemma inv_closed rs evs sv :
  service_inv rs evs sv -> (sv_runtimeID sv <> ""%string -> sv_removed sv = true) -> sv_connection sv = false ->
  sv_runtimeClosed sv = true -> (sv_shutdownErr sv = None -> Forall (fun s => settled s.2) (sv_sessions sv)) ->
  service_inv rs evs (set_sv_state Closed sv).
Proof. intros [] H1 H2 H3 H4. split; simpl; auto; try done. intros _. by right. Qed.

Lemma stop_failed_keeps (e : err) rs evs sv :
  service_inv rs evs sv -> sv_state sv = Closing ->
  emits (W := W) (E := service_event) (ret (errors_Join [sv_allocationErr sv; sv_shutdownErr sv; Some e], sv)) (fun r evs' =>
    service_inv rs (evs ++ evs') r.2 /\ closing r.2 /\
    (r.1 = None -> sv_state r.2 = Closed /\ sv_allocationErr r.2 = None /\ sv_shutdownErr r.2 = None)).
Proof.
  intros I Hs. apply emits_ret. rewrite app_nil_r. split; [done|]. split; [by left|]. simpl.
  intros Hn. by apply join3_not_nil in Hn.
Qed.
Lemma Stop_keeps ctx rs evs sv :
  service_inv rs evs sv ->
  emits (service_Stop (traced_service v) ctx sv) (fun r evs' =>
    service_inv rs (evs ++ evs') r.2 /\ closing r.2 /\
    (r.1 = None -> sv_state r.2 = Closed /\ sv_allocationErr r.2 = None /\ sv_shutdownErr r.2 = None)).
Proof.
  intros I. unfold service_Stop. destruct (bool_decide (sv_state sv = Closed)) eqn:Hc.
  { apply bool_decide_eq_true in Hc. apply emits_ret. rewrite app_nil_r. split; [done|]. split; [by right|]. simpl.
    intros Hn%join2_nil. by split. }
  apply bool_decide_eq_false in Hc. pose proof (inv_closing _ _ _ I Hc) as I1.
  set (sv1 := set_sv_state Closing sv) in *. assert (sv_state sv1 = Closing) as Hs1 by done. clearbody sv1.
  eapply emits_bind; [apply stop_sessions_emits|]. intros [errs sessions] evs' [-> Hset]. simpl in Hset.
  apply (inv_sessions _ _ _ sessions) in I1; [|congruence].
  apply (inv_shutdown _ _ _ (errors_Join [sv_shutdownErr sv1; errors_Join errs])) in I1; [|simpl; congruence].
  assert (errors_Join [sv_shutdownErr sv1; errors_Join errs] = None -> Forall (fun s => settled s.2) sessions) as Hsh.
  { intros Hn%join2_nil. apply Hset, errors_Join_nil_iff, Hn. }
  set (sv2 := set_sv_shutdownErr _ _) in *. assert (sv_state sv2 = Closing) as Hs2 by done.
  change (sv_shutdownErr sv2 = None -> Forall (fun s => settled s.2) (sv_sessions sv2)) in Hsh. clearbody sv2.
  eapply emits_bind; [by apply remove_runtime_emits|]. intros [e sv3] evs3 (I3 & (Hs3 & Ha3 & Hd3 & Hss3 & Hr3 & _ & _) & H3).
  simpl in *. destruct e as [e|]; [eapply emits_mono; [by apply stop_failed_keeps|]; intros r ev; cbv beta; rewrite <- ?app_assoc; done|].
  eapply emits_bind; [by apply close_connection_emits|].
  intros [e sv4] evs4 (I4 & (Hs4 & Ha4 & Hd4 & Hss4 & Hr4 & Hm4 & _) & H4).
  simpl in *. destruct e as [e|]; [eapply emits_mono; [by apply stop_failed_keeps|]; intros r ev; cbv beta; rewrite <- ?app_assoc; done|].
  eapply emits_bind; [by apply close_runtime_emits|].
  intros [e sv5] evs5 (I5 & (Hs5 & Ha5 & Hd5 & Hss5 & Hr5 & Hm5 & Hc5) & H5).
  simpl in *. destruct e as [e|]; [eapply emits_mono; [by apply stop_failed_keeps|]; intros r ev; cbv beta; rewrite <- ?app_assoc; done|].
  apply emits_ret. simpl. rewrite app_nil_r, !app_assoc. split; [|split; [by right|]].
  - apply inv_closed; auto.
    + intros Hne. rewrite Hr5, Hr4 in Hne. auto.
    + rewrite Hd5, Hd4, Hd3, Hss5, Hss4, Hss3. done.
  - intros Hn%join2_nil. by split.
Qed.

(** The calls of the caller, on the traced world. *)
Definition traced_session_call (c : session_call W) : session_call (W * list service_event) :=
  match c with
  | CallStart ctx exporter => CallStart ctx (silent <$> exporter)
  | CallStop ctx => CallStop ctx
  end.
Definition traced_service_call (c : service_call W) : service_call (W * list service_event) :=
  match c with
  | DoStart ctx => DoStart ctx
  | DoNewSession root => DoNewSession root
  | DoSession i c => DoSession i (traced_session_call c)
  | DoStop ctx => DoStop ctx
  end.

(** A result that lets something in. *)
Definition admits (r : service_result) : Prop :=
  match r with
  | StartDone None | SessionMade None | SessionDone _ (Started (inl _)) => True
  | _ => False
  end.

Lemma session_call_settled fuel sv root c s w r s' :
  (session_call_on (traced_service v) fuel sv root c s w).1 = Some (r, s') ->
  (settled s -> settled s') /\ (closing sv -> forall endpoint, r <> Started (inl endpoint)).
Proof.
  intros Hr. split.
  - intros Hset. unfold session_call_on, bind, ret in Hr. destruct c as [ctx exporter|ctx].
    + rewrite settled_Start in Hr by done. by injection Hr as <- <-.
    + pose proof (settled_Stop (session_ops (traced_service v) sv root) ctx s w Hset) as Hs.
      destruct (session_Stop _ ctx s w) as [[e s1] w1]. simpl in *. congruence.
  - intros Hc endpoint ->. unfold session_call_on, bind, ret in Hr. destruct c as [ctx exporter|ctx].
    2: { by destruct (session_Stop _ ctx s w) as [[e s1] w1]. }
    unfold session_Start, bind, ret in Hr. destruct (_ || _); [done|]. simpl so_running in Hr.
    assert (bool_decide (sv_state sv = Running) = false) as Hrun.
    { apply bool_decide_eq_false. by destruct Hc as [->| ->]. }
    unfold ret in Hr. rewrite Hrun in Hr. done.
Qed.

Lemma start_refused fuel ctx rs evs sv :
  service_inv rs evs sv ->
  emits (service_Start (traced_service v) fuel ctx sv) (fun r _ =>
    forall e sv', r = Some (e, sv') -> closing sv -> sv' = sv /\ e <> None).
Proof.
  intros I. destruct (bool_decide (sv_state sv = New)) eqn:Hs.
  - apply bool_decide_eq_true in Hs. eapply emits_mono; [by apply (Start_keeps _ _ rs evs)|].
    intros r evs' _ e sv' _ [Hc|Hc]; congruence.
  - unfold service_Start. rewrite Hs. apply emits_ret. by intros e sv' [= <- <-] _.
Qed.

Definition step_ok (rs : list service_result) (evs : list service_event) (before : Service) (r : service_result)
    (sv : Service) : Prop :=
  service_inv (rs ++ [r]) evs sv /\ (closing before -> closing sv /\ ~ admits r) /\
  (not_stop r \/ closing sv) /\
  (r = StopDone None -> sv_state sv = Closed /\ sv_allocationErr sv = None /\ sv_shutdownErr sv = None).

Lemma step_keeps fuel c rs evs sv :
  service_inv rs evs sv ->
  emits (service_step (traced_service v) fuel (traced_service_call c) sv) (fun r evs' =>
    forall r' sv', r = Some (r', sv') -> step_ok rs (evs ++ evs') sv r' sv').
Proof.
  intros I. destruct c as [ctx|root|i c|ctx]; simpl.
  - eapply emits_bind; [by apply emits_and; [apply (Start_keeps fuel ctx rs evs)|apply (start_refused fuel ctx rs evs)]|].
    intros [[e sv1]|] evs1 [H Hc]; apply emits_ret; [|done]. intros r' sv' [= <- <-]. rewrite app_nil_r.
    specialize (H _ _ eq_refl). split; [by apply inv_result; [|left]|]. split; [|by split; [left|]].
    intros Hcl. destruct (Hc _ _ eq_refl Hcl) as [-> Hne]. split; [done|]. destruct e; [by intros []|done].
  - unfold NewSession. destruct (bool_decide (sv_state sv = Running)) eqn:Hrun; cbn [negb].
    2: { apply emits_bind_ret, emits_ret. intros r' sv' [= <- <-]. rewrite app_nil_r.
         split; [by apply inv_result; [|left]|]. split; [by intros; split; [|intros []]|]. by split; [left|]. }
    apply bool_decide_eq_true in Hrun. assert (~ closing sv) as Hncl by (intros [?|?]; congruence).
    apply emits_flatten, emits_read. intros [r|e]; apply emits_bind_ret, emits_ret; intros r' sv' [= <- <-]; rewrite app_nil_r.
    + split; [apply inv_result; [|by left]; apply inv_sessions; [done|congruence]|]. split; [done|]. by split; [left|].
    + split; [by apply inv_result; [|left]|]. split; [done|]. by split; [left|].
  - destruct (sv_sessions sv !! i) as [[root s]|] eqn:Hi.
    2: { apply emits_ret. intros r' sv' [= <- <-]. rewrite app_nil_r. split; [by apply inv_result; [|left]|]. split; [by intros; split; [|intros []]|]. by split; [left|]. }
    eapply emits_bind.
    { apply (quiet_pure (fun r => forall r' s', r = Some (r', s') ->
        (settled s -> settled s') /\ (closing sv -> forall endpoint, r' <> Started (inl endpoint)))).
      - destruct c as [ctx exporter|ctx]; simpl; apply service_quiet_bind; try apply quiet_session_Start; try apply quiet_session_Stop;
          [intros [[]|]|intros []]; apply service_quiet_ret.
      - intros w r' s' Hr. by eapply session_call_settled. }
    intros [[r s']|] evs' [-> H]; apply emits_ret; [|done]. intros r' sv' [= <- <-]. rewrite app_nil_r.
    destruct (H _ _ eq_refl) as [Hset Hadm]. split; [|split; [|by split; [left|]]].
    + apply inv_result; [|by left]. apply inv_sessions; [done|]. intros Hcl Hsh.
      destruct (vi_closed _ _ _ I Hcl) as (_ & _ & _ & Hall). apply Forall_insert; [by apply Hall|].
      apply Hset. specialize (Hall Hsh). rewrite Forall_lookup in Hall. by apply (Hall i (root, s)).
    + intros Hcl. split; [done|]. destruct r as [[endpoint|]|]; [intros _; by apply (Hadm Hcl endpoint)|by intros []..].
  - eapply emits_bind; [by apply (Stop_keeps ctx rs evs)|]. intros [e sv1] evs1 (H & Hcl & Hn). apply emits_ret.
    intros r' sv' [= <- <-]. rewrite app_nil_r. simpl in *. split; [by apply inv_result; [|right]|].
    split; [intros _; split; [done|by intros []]|]. split; [by right|]. intros [= ->]. auto.
Qed.
End Invariant.

Definition admission_ended (rs : list service_result) : Prop :=
  forall before e after, rs = before ++ StopDone e :: after -> Forall (fun r => ~ admits r) after.

Section Life.
Context {W : Type} `{!Runtime W}.
Variable v : ServiceOps W.

Record life_ok (rs0 : list service_result) (evs0 : list service_event) (sv : Service)
    (rs : list service_result) (evs : list service_event) (sv' : Service) : Prop := {
  lo_inv : service_inv (rs0 ++ rs) (evs0 ++ evs) sv';
  lo_nil : rs = [] -> sv' = sv;
  lo_last : last rs = Some (StopDone None) ->
    sv_state sv' = Closed /\ sv_allocationErr sv' = None /\ sv_shutdownErr sv' = None;
  lo_closing : closing sv -> Forall (fun r => ~ admits r) rs;
  lo_ended : admission_ended rs
}.

Lemma life_ok_cons rs0 evs0 sv r sv1 evs1 rs evs sv' :
  step_ok rs0 (evs0 ++ evs1) sv r sv1 -> life_ok (rs0 ++ [r]) (evs0 ++ evs1) sv1 rs evs sv' ->
  life_ok rs0 evs0 sv (r :: rs) (evs1 ++ evs) sv'.
Proof.
  intros (Hi & Hcl & Hstop & Hnil) [I N L C E]. rewrite <- !app_assoc in I. split; try done.
  - intros Hlast. destruct rs as [|r' rs]; [|by apply L]. rewrite (N eq_refl). injection Hlast as ->. auto.
  - intros Hc. destruct (Hcl Hc) as [Hc1 Hr]. constructor; auto.
  - intros before e after H. destruct before as [|r' before]; injection H as -> ->; [|by eapply E].
    destruct Hstop as [[]|Hc]. auto.
Qed.
Lemma service_life_emits fuel calls rs0 evs0 sv :
  service_inv rs0 evs0 sv ->
  emits (service_life (traced_service v) fuel (map traced_service_call calls) sv) (fun r evs =>
    forall rs sv', r = Some (rs, sv') -> life_ok rs0 evs0 sv rs evs sv').
Proof.
  revert rs0 evs0 sv. induction calls as [|c calls IH]; intros rs0 evs0 sv I; cbn [service_life map].
  { apply emits_ret. intros rs sv' [= <- <-]. split; rewrite ?app_nil_r; try done. by intros []. }
  eapply emits_bind; [by apply (step_keeps v fuel c rs0 evs0)|]. intros [[r sv1]|] evs1 H1; [|by apply emits_ret].
  specialize (H1 _ _ eq_refl). pose proof (proj1 H1) as I1. eapply emits_bind; [by apply (IH (rs0 ++ [r]) (evs0 ++ evs1))|].
  intros [[rs sv2]|] evs2 H2; apply emits_ret; [|done]. intros ? ? [= <- <-]. rewrite app_nil_r.
  by eapply life_ok_cons; [|apply H2].
Qed.
Lemma new_Service_inv x : service_inv [] [] (new_Service x).
Proof. split; simpl; try done; try set_solver; lia. Qed.

(** C35. A service that stops without an error has removed what it created: over any calls
    of the service and of its sessions, in any order, a last [Stop] that returns nil
    means that at most one bridge was created, that its allocation was confirmed or its
    absence is certain, that the bridge with this identity was removed and its runtime
    closed, that no connection is left, and that every session it handed out is
    settled. *)
Theorem service_stop_complete fuel calls x :
  emits (service_life (traced_service v) fuel (map traced_service_call calls) (new_Service x)) (fun r evs =>
    forall rs sv, r = Some (rs, sv) -> last rs = Some (StopDone None) ->
      (creations evs <= 1)%nat /\
      (forall id e, Created id e ∈ evs ->
         if decide (id = ""%string) then e <> None /\ error_Is e ErrAllocationUnconfirmed = false
         else Removed id None ∈ evs) /\
      RuntimeClosed None ∈ evs /\ connected false evs = false /\ Forall (fun s => settled s.2) (sv_sessions sv)).
Proof.
  eapply emits_mono; [apply (service_life_emits fuel calls [] []), new_Service_inv|].
  intros r evs H rs sv Hr Hlast. destruct (H rs sv Hr) as [[] _ L _ _]. simpl in *.
  destruct (L Hlast) as (Hc & Ha & Hs). destruct (vi_closed0 Hc) as (Hrem & Hconn & Hrt & Hset).
  split_and!; auto. intros id e Hin. destruct (vi_created0 id e Hin) as [-> He]. destruct (He Ha).
  destruct (decide _) as [Hid|Hid]; auto.
Qed.

(** The end of the admission is final: whatever the first [Stop] returned, after it no
    [Start] of the service succeeds, no session is handed out and none gives an endpoint
    out; and the bridge is created at most once in the life of a service. *)
Theorem service_admission_ends fuel calls x :
  emits (service_life (traced_service v) fuel (map traced_service_call calls) (new_Service x)) (fun r evs =>
    forall rs sv, r = Some (rs, sv) -> admission_ended rs /\ (creations evs <= 1)%nat).
Proof.
  eapply emits_mono; [apply (service_life_emits fuel calls [] []), new_Service_inv|].
  intros r evs H rs sv Hr. destruct (H rs sv Hr) as [I _ _ _ E]. split; [done|]. apply (vi_once _ _ _ I).
Qed.
End Life.

(** * The start ends *)

(** As for the registration: no call turns the clock back, and a poll that is not
    interrupted begins before the deadline and takes [pollInterval]. *)
Section Start_ends.
Context {W : Type} `{!Runtime W}.
Variable v : ServiceOps W.
Variable clock : W -> Z.
Definition ticks {A} (m : M W A) : Prop := forall w, clock w <= clock (m w).2.
Record service_timely (ctx : Ctx) (deadline : Z) : Prop := {
  st_MkdirAll : forall p, ticks (vo_MkdirAll v p);
  st_WriteJSON : forall p fields, ticks (vo_WriteJSON v p fields);
  st_nonce : ticks (vo_nonce v);
  st_Create : forall req, ticks (vo_Create v ctx req);
  st_Upload : forall id p a, ticks (vo_UploadArchive v ctx id p a);
  st_Validate : forall id req, ticks (vo_Validate v ctx id req);
  st_Start : forall id, ticks (vo_Start v ctx id);
  st_Address : forall id port, ticks (vo_Address v ctx id port);
  st_NewClient : forall a, ticks (vo_NewClient v a);
  st_Check : forall c, ticks (vo_Check v c);
  st_CloseConnection : ticks (vo_CloseConnection v);
  st_Running : forall id, ticks (vo_Running v ctx id);
  st_poll : forall w, (vo_waitPoll v ctx w).1 = None ->
    clock w < deadline /\ clock w + pollInterval <= clock (vo_waitPoll v ctx w).2
}.
Variables (ctx : Ctx) (deadline : Z).
Hypothesis T : service_timely ctx deadline.

Definition ends_from (t : Z) {A} (m : M W (option A)) : Prop := forall w, t <= clock w -> is_Some (m w).1.
Lemma ends_bind {A B} t (m : M W A) (f : A -> M W (option B)) :
  ticks m -> (forall a, ends_from t (f a)) -> ends_from t (bind m f).
Proof.
  intros Hm Hf w Hw. unfold bind. specialize (Hm w). destruct (m w) as [a w'] eqn:Hmw. simpl in Hm. apply Hf. lia.
Qed.
Lemma ends_ret {A} t (a : A) : ends_from t (ret (Some a)).
Proof. intros w _. by eexists. Qed.
Lemma ticks_bind {A B} (m : M W A) (f : A -> M W B) : ticks m -> (forall a, ticks (f a)) -> ticks (bind m f).
Proof.
  intros Hm Hf w. unfold bind. specialize (Hm w). destruct (m w) as [a w']. simpl in Hm. specialize (Hf a w'). lia.
Qed.
Lemma ticks_ret {A} (a : A) : ticks (ret a).
Proof. intros w. apply Z.le_refl. Qed.

Lemma poll_ends t sv again :
  ends_from (t + pollInterval) again \/ deadline <= t -> ends_from t (poll_runtime v ctx sv again).
Proof.
  intros Hagain. apply ends_bind; [apply (st_Running _ _ T)|]. intros [running runErr].
  destruct (_ || _); [apply ends_ret|]. intros w Hw. unfold bind. pose proof (st_poll _ _ T w) as Hp.
  destruct (vo_waitPoll v ctx w) as [[e|] w']; [by eexists|]. destruct (Hp eq_refl) as [Hlt Hle]. simpl in Hle.
  destruct Hagain as [Hagain|?]; [apply Hagain; lia|lia].
Qed.
Lemma ready_loop_ends fuel port t sv :
  deadline <= t + Z.of_nat fuel * pollInterval -> ends_from t (ready_loop v fuel ctx port sv).
Proof.
  revert t sv. induction fuel as [|fuel IH]; intros t sv Ht; cbn [ready_loop].
  all: apply ends_bind; [apply (st_Address _ _ T)|]; intros [address|e].
  all: try (apply ends_bind; [apply (st_NewClient _ _ T)|]; intros [e|]; [apply ends_ret|];
    apply ends_bind; [apply (st_Check _ _ T)|]; intros [|]; [apply ends_ret|];
    apply ends_bind; [apply (st_CloseConnection _ _ T)|]; intros ce).
  all: apply poll_ends; first [left; apply IH; lia|right; lia].
Qed.

Lemma deploy_ticks req sv : ticks (deploy v ctx req sv).
Proof.
  unfold deploy. destruct (vo_marshal _ _); [|apply ticks_ret]. destruct (archiveFiles _ _); [|apply ticks_ret].
  apply ticks_bind; [apply (st_Upload _ _ T)|]. intros [e|]; [apply ticks_ret|].
  apply ticks_bind; [apply (st_Validate _ _ T)|]. intros [e|]; [apply ticks_ret|]. apply (st_Start _ _ T).
Qed.
End Start_ends.

(** The start of the service returns: within its minute the readiness loop ends after
    at most 1200 polls, however long the bridge takes to answer. *)
Theorem service_Start_ends {W} `{!Runtime W} (v : ServiceOps W) clock ctx sv w :
  service_timely v clock (WithTimeout ctx minute) (clock w + minute) ->
  is_Some (service_Start v register_fuel ctx sv w).1.
Proof.
  intros T. cut (ends_from clock (clock w) (service_Start v register_fuel ctx sv)); [intros H; apply H, Z.le_refl|].
  unfold service_Start. destruct (negb _); [apply ends_ret|].
  apply ends_bind; [apply (st_MkdirAll _ _ _ _ T)|]. intros [e|]; [apply ends_ret|].
  apply ends_bind; [apply (st_nonce _ _ _ _ T)|]. intros [id|e]; [|apply ends_ret].
  apply ends_bind; [apply (st_Create _ _ _ _ T)|]. intros [rid e]. destruct (allocated _ _ _) as [e1 sv1].
  apply ends_bind; [apply (st_WriteJSON _ _ _ _ T)|]. intros [re|]; [apply ends_ret|]. destruct e1; [apply ends_ret|].
  apply ends_bind; [by eapply deploy_ticks|]. intros [de|]; [apply ends_ret|].
  eapply ready_loop_ends; [done|]. unfold register_fuel, minute, pollInterval. lia.
Qed.

(** * A concrete service *)

#[local] Existing Instance demo_runtime.
Definition demo_request : Request :=
  {| rt_InternalPort := 0; rt_Mounts := []; rt_Workdir := "/stage"; rt_StorageMB := 0; rt_GPUs := 0; rt_Init := false;
     rt_NoNewPrivileges := true; rt_NetworkAliases := []; rt_AllowImageVolumes := false; rt_Name := "";
     rt_Image := "bridge"; rt_Env := []; rt_Entrypoint := None; rt_Args := []; rt_Labels := ∅;
     rt_Placement := {| rp_AttachmentID := "" |}; rt_CPU := None; rt_MemoryMB := None; rt_ImageVolumes := [];
     rt_ServicePort := 7000 |}.
Definition demo_options : Options :=
  {| op_Launch := {| ls_Request := demo_request;
       ls_Config := {| lc_RunID := ""; lc_BridgeType := ""; lc_Backend := "docker"; lc_BackendEndpoint := "";
         lc_Listen := {| bl_BindPort := 0; bl_AdvertisePort := 0; bl_BindHost := ""; bl_AdvertiseHost := "" |};
         lc_ControlAddress := ":7000"; lc_OutputDir := "/evidence"; lc_RetainRawLog := false |};
       ls_RuntimeBackend := "docker"; ls_ResourceMetrics := "none" |};
     op_Client := {| cc_Command := ""; cc_SourcePath := "" |}; op_OutputDir := "/out"; op_BridgeType := "openclaw-ssh";
     op_RunID := "r1"; op_Placement := {| rp_AttachmentID := "net" |}; op_RetainRawLog := false |}.
Definition demo_service (serving : bool) : ServiceOps Z :=
  let o := demo_ops (Some (demo_access READY []), None) in
  {| vo_Abs p := ret (inl p); vo_MkdirAll _ := ret None; vo_WriteJSON _ _ := ret None;
     vo_nonce := ret (inl "00"%string); vo_Create _ _ := ret ("b1"%string, None); vo_marshal _ := inl [];
     vo_tar _ := inl []; vo_UploadArchive _ _ _ _ := ret None; vo_Validate _ _ _ := ret None;
     vo_Start _ _ := ret None; vo_Address _ _ _ := ret (inl "127.0.0.1:7000"%string); vo_NewClient _ := ret None;
     vo_Check _ := ret serving; vo_CloseConnection := ret None; vo_Running _ _ := ret (true, None);
     vo_Stop _ _ := ret None; vo_Close := ret None;
     vo_waitPoll _ w := if w <? minute then (None, w + pollInterval) else (Some (ESentinel DeadlineExceeded), w);
     vo_TaskAddress := so_TaskAddress o; vo_RegisterSandbox := so_RegisterSandbox o;
     vo_GetSandbox := so_GetSandbox o; vo_ReleaseSandbox := so_ReleaseSandbox o; vo_helper := so_helper o;
     vo_DownloadArchive := so_DownloadArchive o; vo_WriteFile := so_WriteFile o; vo_sha256 := so_sha256 o |}.

(** The bridge never serves: the start still returns. *)
Lemma service_Start_ends_witness :
  is_Some (service_Start (demo_service false) register_fuel Background (new_Service demo_options) 0).1.
Proof.
  apply (service_Start_ends (demo_service false) id Background (new_Service demo_options) 0).
  split; try (intros; intros w; apply Z.le_refl); try (intros w; apply Z.le_refl).
  intros w. cbn [vo_waitPoll demo_service]. destruct (Z.ltb_spec w minute); [|discriminate].
  intros _. unfold id. cbn [snd]. split; [lia|apply Z.le_refl].
Defined.

(** A service that starts, serves one session and stops; a session afterwards is refused. *)
Example service_demo :
  option_map fst (service_life (demo_service true) 3
    [DoStart Background; DoNewSession "/out"; DoSession 0 (CallStart Background (Some (ret (inl demo_target))));
     DoStop Background; DoNewSession "/out"; DoStop Background] (new_Service demo_options) 0).1 =
  Some [StartDone None; SessionMade None;
        SessionDone 0 (Started (inl {| te_Protocol := "ssh"; te_Address := "10.0.0.2:2222"; te_Username := "aries";
                        te_ClientCommand := ""; te_ClientSourceFile := "";
                        te_LogPaths := ["/out/t1/bridge/tool-calls.jsonl"]; te_Workdir := "/work" |}));
        StopDone None; SessionMade (Some (ENew "bridge service is not accepting sessions")); StopDone None]%string.
Proof. vm_compute. reflexivity. Qed.
