(* ===== verification/GoTime.v ===== *)
(** Durations as Go's package [time] reads them: [ParseDuration], with its overflow
    checks, and the conversion of a [float64] to an integer.

    The size of a rounded [float64]: the mantissa of a product fits in 53 bits, so a
    product below a power of two converts to an integer below it. *)

From Stdlib Require Import SpecFloat.
From S2P Require Import Prelude.

(** The conversion of a finite [float64] to an integer type: towards zero. *)
Definition f64_trunc (x : float64) : Z :=
  match x with
  | S754_finite s m e =>
      let n := if 0 <=? e then Z.pos m * 2 ^ e else Z.pos m / 2 ^ (- e) in
      if s then - n else n
  | _ => 0
  end.

(** [unitMap], in nanoseconds; the micro signs are two bytes each. *)
Definition micro1 : string := of_bytes (map ascii_of_N [194; 181; 115]%N).
Definition micro2 : string := of_bytes (map ascii_of_N [206; 188; 115]%N).
Definition duration_unit (u : string) : option Z :=
  if String.eqb u "ns" then Some 1
  else if String.eqb u "us" || String.eqb u micro1 || String.eqb u micro2 then Some (10 ^ 3)
  else if String.eqb u "ms" then Some (10 ^ 6)
  else if String.eqb u "s" then Some (10 ^ 9)
  else if String.eqb u "m" then Some (60 * 10 ^ 9)
  else if String.eqb u "h" then Some (3600 * 10 ^ 9)
  else None.

(** [leadingInt]: [None] on overflow. *)
Fixpoint leadingInt (x : Z) (s : bytes) : option (Z * bytes) :=
  match s with
  | c :: rest =>
      if is_digit c then
        if 2 ^ 63 / 10 <? x then None
        else
          let x := x * 10 + (byte_of c - 48) in
          if 2 ^ 63 <? x then None else leadingInt x rest
      else Some (x, s)
  | [] => Some (x, [])
  end.

(** [leadingFraction]: the digits that fit, with their scale. *)
Fixpoint leadingFraction (x : Z) (scale : float64) (overflow : bool) (s : bytes) : Z * float64 * bytes :=
  match s with
  | c :: rest =>
      if is_digit c then
        if overflow then leadingFraction x scale true rest
        else if (2 ^ 63 - 1) / 10 <? x then leadingFraction x scale true rest
        else
          let y := x * 10 + (byte_of c - 48) in
          if 2 ^ 63 <? y then leadingFraction x scale true rest
          else leadingFraction y (f64_mul scale (f64_of_Z 10)) false rest
      else (x, scale, s)
  | [] => (x, scale, [])
  end.

Definition invalid_duration (orig : string) : err := ENew ("time: invalid duration " +:+ quote orig).
Definition unit_byte (c : ascii) : bool := negb (Ascii.eqb c "." || is_digit c).
Fixpoint span_unit (s : bytes) : bytes * bytes :=
  match s with
  | c :: rest => if unit_byte c then let (u, rest) := span_unit rest in (c :: u, rest) else ([], s)
  | [] => ([], [])
  end.

(** One number with its unit: [inl] the amount and the rest. *)
Definition duration_part (orig : string) (s : bytes) : (Z * bytes) + err :=
  match s with
  | [] => inr (invalid_duration orig)
  | c :: _ =>
      if negb (Ascii.eqb c "." || is_digit c) then inr (invalid_duration orig)
      else match leadingInt 0 s with
      | None => inr (invalid_duration orig)
      | Some (v, s1) =>
          let pre := negb (length s1 =? length s)%nat in
          let '(f, scale, s2, post) :=
            match s1 with
            | "."%char :: s1 =>
                let '(f, scale, s2) := leadingFraction 0 (f64_of_Z 1) false s1 in
                (f, scale, s2, negb (length s2 =? length s1)%nat)
            | _ => (0, f64_of_Z 1, s1, false)
            end in
          if negb pre && negb post then inr (invalid_duration orig)
          else
            let (u, rest) := span_unit s2 in
            match u with
            | [] => inr (ENew ("time: missing unit in duration " +:+ quote orig))
            | _ =>
                match duration_unit (of_bytes u) with
                | None => inr (ENew ("time: unknown unit " +:+ quote (of_bytes u) +:+ " in duration " +:+ quote orig))
                | Some unit =>
                    if 2 ^ 63 / unit <? v then inr (invalid_duration orig)
                    else
                      let v := v * unit in
                      let v := if 0 <? f then
                                 v + f64_trunc (f64_mul (f64_of_Z f) (f64_div (f64_of_Z unit) scale))
                               else v in
                      if 2 ^ 63 <? v then inr (invalid_duration orig) else inl (v, rest)
                end
            end
      end
  end.
Fixpoint duration_parts (fuel : nat) (orig : string) (d : Z) (s : bytes) : Z + err :=
  match s, fuel with
  | [], _ => inl d
  | _, O => inr (invalid_duration orig)
  | _, S fuel =>
      match duration_part orig s with
      | inr e => inr e
      | inl (v, rest) =>
          let d := d + v in
          if 2 ^ 63 <? d then inr (invalid_duration orig) else duration_parts fuel orig d rest
      end
  end.

(** [ParseDuration]; every part consumes a byte, so the length is fuel enough. *)
Definition ParseDuration (orig : string) : Z + err :=
  let s := to_bytes orig in
  let (neg, s) :=
    match s with
    | c :: rest => if Ascii.eqb c "-" then (true, rest) else if Ascii.eqb c "+" then (false, rest) else (false, s)
    | [] => (false, [])
    end in
  if bool_decide (s = ["0"%char]) then inl 0
  else match s with
  | [] => inr (invalid_duration orig)
  | _ =>
      match duration_parts (length s) orig 0 s with
      | inr e => inr e
      | inl d => if neg then inl (- d) else if max_int64 <? d then inr (invalid_duration orig) else inl d
      end
  end.

Example duration_hm : ParseDuration "1h30m" = inl 5400000000000.
Proof. vm_compute. reflexivity. Qed.
Example duration_fraction : ParseDuration "1.5s" = inl 1500000000.
Proof. vm_compute. reflexivity. Qed.
Example duration_bare : ParseDuration "10" = inr (ENew ("time: missing unit in duration " +:+ quote "10")).
Proof. vm_compute. reflexivity. Qed.
Example duration_negative : ParseDuration "-1ms" = inl (-1000000).
Proof. vm_compute. reflexivity. Qed.

(** Every part consumes its unit, so more fuel changes nothing. *)
Lemma leadingInt_length x s v rest : leadingInt x s = Some (v, rest) -> (length rest <= length s)%nat.
Proof.
  revert x. induction s as [|c s IH]; simpl; intros x H; [by injection H as <- <-|].
  destruct (is_digit c); [|by injection H as <- <-]. destruct (_ <? x); [done|]. destruct (_ <? _); [done|].
  apply IH in H. lia.
Qed.
Lemma leadingFraction_length x scale overflow s :
  (length (leadingFraction x scale overflow s).2 <= length s)%nat.
Proof.
  revert x scale overflow. induction s as [|c s IH]; intros x scale overflow; cbn [leadingFraction]; [done|].
  repeat match goal with |- context [if ?b then _ else _] => destruct b end; cbn [snd];
    first [done | etransitivity; [apply IH|simpl; lia]].
Qed.
Lemma span_unit_length s u rest : span_unit s = (u, rest) -> (length u + length rest = length s)%nat.
Proof.
  revert u rest. induction s as [|c s IH]; simpl; intros u rest H; [by injection H as <- <-|].
  destruct (unit_byte c); [|by injection H as <- <-]. destruct (span_unit s) as [u' rest'].
  injection H as <- <-. specialize (IH _ _ eq_refl). simpl. lia.
Qed.
Lemma duration_part_length orig s v rest :
  duration_part orig s = inl (v, rest) -> (length rest < length s)%nat.
Proof.
  unfold duration_part. destruct s as [|c s]; [done|]. destruct (negb _); [done|].
  destruct (leadingInt 0 (c :: s)) as [[n s1]|] eqn:Hi; [|done]. apply leadingInt_length in Hi.
  match goal with |- context [let '(_, _) := ?x in _] => set (p := x) end.
  assert (length p.1.2 <= length s1)%nat as Hp.
  { subst p. destruct s1 as [|[[] [] [] [] [] [] [] []] s1]; simpl; try lia.
    pose proof (leadingFraction_length 0 (f64_of_Z 1) false s1) as Hf.
    destruct (leadingFraction 0 _ false s1) as [[f scale] s2]. simpl in *. lia. }
  destruct p as [[[f scale] s2] post]. simpl in Hp. destruct (_ && _); [done|].
  destruct (span_unit s2) as [u r] eqn:Hu. apply span_unit_length in Hu. destruct u as [|d u]; [done|].
  destruct (duration_unit _); [|done]. destruct (_ <? _); [done|]. destruct (_ <? _); [done|].
  intros [= _ <-]. simpl in *. lia.
Qed.
Lemma duration_parts_fuel fuel fuel' orig d s :
  (length s <= fuel)%nat -> (length s <= fuel')%nat -> duration_parts fuel orig d s = duration_parts fuel' orig d s.
Proof.
  revert fuel' d s. induction fuel as [|fuel IH]; intros [|fuel'] d [|c s] H H'; simpl in H, H'; try done; try lia.
  cbn [duration_parts]. destruct (duration_part orig (c :: s)) as [[v rest]|e] eqn:Hp; [|done].
  apply duration_part_length in Hp. simpl in Hp. destruct (_ <? _); [done|]. apply IH; lia.
Qed.

(** * Digits *)

Lemma digits2_pos_bound (p : positive) : 2 ^ (Z.pos (digits2_pos p) - 1) <= Z.pos p < 2 ^ Z.pos (digits2_pos p).
Proof.
  induction p as [p IH|p IH|]; cbn [digits2_pos]; [| |by compute];
    rewrite Pos2Z.inj_succ; unfold Z.succ; rewrite Z.add_simpl_r, Z.pow_add_r by lia;
    (assert (2 ^ Z.pos (digits2_pos p) = 2 * 2 ^ (Z.pos (digits2_pos p) - 1)) as Hd
      by (rewrite <- Z.pow_succ_r by lia; f_equal; lia)); lia.
Qed.
Lemma Zdigits2_bound (m : Z) : 0 <= m -> 0 <= Zdigits2 m /\ m < 2 ^ Zdigits2 m.
Proof. intros Hm. destruct m as [|p|p]; [by compute| |lia]. simpl Zdigits2. pose proof (digits2_pos_bound p). lia. Qed.

(** * Shifts *)

Lemma shr_1_half r : 0 <= shr_m r -> shr_m (shr_1 r) = shr_m r / 2.
Proof.
  destruct r as [m r s]. destruct m as [|[p|p|]|p]; cbn [shr_1 shr_m]; intros H; try done.
  - rewrite Pos2Z.inj_xI, Z.add_comm, Z.mul_comm, Z.div_add by lia. done.
  - rewrite Pos2Z.inj_xO, Z.mul_comm, Z.div_mul by lia. done.
Qed.
Lemma shr_iter n r : 0 <= shr_m r -> shr_m (SpecFloat.iter_pos shr_1 n r) = shr_m r / 2 ^ Z.pos n.
Proof.
  revert r. induction n as [n IH|n IH|]; intros r Hr; cbn [SpecFloat.iter_pos].
  - assert (0 <= shr_m (shr_1 r)) as H1 by (rewrite shr_1_half by done; apply Z.div_pos; lia).
    assert (0 <= shr_m (SpecFloat.iter_pos shr_1 n (shr_1 r))) as H2 by (rewrite IH by done; apply Z.div_pos; lia).
    rewrite IH, IH, shr_1_half by done. rewrite !Z.div_div by lia. f_equal.
    rewrite (Pos2Z.inj_xI n), Z.pow_add_r, Z.mul_comm, <- Z.add_diag, Z.pow_add_r by lia. lia.
  - assert (0 <= shr_m (SpecFloat.iter_pos shr_1 n r)) as H2 by (rewrite IH by done; apply Z.div_pos; lia).
    rewrite IH, IH by done. rewrite Z.div_div by lia. f_equal.
    rewrite (Pos2Z.inj_xO n), <- Z.add_diag, Z.pow_add_r by lia. lia.
  - by apply shr_1_half.
Qed.
Lemma shr_fexp_bound prec emax m e l : 0 < prec -> 0 <= m -> 0 <= shr_m (shr_fexp prec emax m e l).1 < 2 ^ prec.
Proof.
  intros Hp Hm. unfold shr_fexp.
  assert (shr_m (shr_record_of_loc m l) = m) as Hr by (by destruct l as [|[]]).
  destruct (Zdigits2_bound m Hm) as [Hd Hlt].
  assert (fexp prec emax (Zdigits2 m + e) - e >= Zdigits2 m - prec) as Hn by (unfold fexp; lia).
  destruct (fexp prec emax (Zdigits2 m + e) - e) as [|n|n] eqn:En; cbn [shr fst].
  1,3: rewrite Hr; split; [done|]; eapply Z.lt_le_trans; [exact Hlt|]; apply Z.pow_le_mono_r; lia.
  rewrite shr_iter by lia. rewrite Hr. split; [apply Z.div_pos; lia|].
  apply Z.div_lt_upper_bound; [lia|]. rewrite <- Z.pow_add_r by lia.
  eapply Z.lt_le_trans; [exact Hlt|]. apply Z.pow_le_mono_r; lia.
Qed.
Lemma round_nearest_even_nonneg m l : 0 <= m -> 0 <= round_nearest_even m l.
Proof. intros Hm. destruct l as [|[]]; simpl; try destruct (Z.even m); lia. Qed.
Lemma binary_round_aux_bound prec emax s m e l s' m' e' :
  0 < prec -> 0 <= m -> binary_round_aux prec emax s m e l = S754_finite s' m' e' -> s' = s /\ Z.pos m' < 2 ^ prec.
Proof.
  intros Hp Hm. unfold binary_round_aux. destruct (shr_fexp prec emax m e l) as [r1 e1] eqn:E1.
  pose proof (shr_fexp_bound prec emax m e l Hp Hm) as H1. rewrite E1 in H1. simpl in H1.
  set (m2 := round_nearest_even (shr_m r1) (loc_of_shr_record r1)).
  assert (0 <= m2) as Hm2 by (apply round_nearest_even_nonneg; lia).
  destruct (shr_fexp prec emax m2 e1 loc_Exact) as [r2 e2] eqn:E2.
  pose proof (shr_fexp_bound prec emax m2 e1 loc_Exact Hp Hm2) as H2. rewrite E2 in H2. simpl in H2.
  destruct (shr_m r2) as [|p|p]; [done| |done]. destruct (e2 <=? _); [|done]. intros [= <- <- <-]. split; [done|lia].
Qed.

(** * Conversions *)

Lemma f64_mul_finite x y s m e :
  f64_mul x y = S754_finite s m e -> Z.pos m < 2 ^ 53 /\
  exists s1 m1 e1 s2 m2 e2, x = S754_finite s1 m1 e1 /\ y = S754_finite s2 m2 e2 /\ s = xorb s1 s2.
Proof.
  unfold f64_mul, SFmul. destruct x as [s1|s1| |s1 m1 e1], y as [s2|s2| |s2 m2 e2]; try done.
  intros H. apply binary_round_aux_bound in H as [-> Hm]; [|lia|lia]. split; [done|]. by do 6 eexists.
Qed.
(** Below 2^63 by the comparison of floats, below 2^63 as an integer. *)
Lemma trunc_below s m e : Z.pos m < 2 ^ 53 -> f64_leb (f64_of_Z (2 ^ 63)) (S754_finite s m e) = false ->
  f64_trunc (S754_finite s m e) < 2 ^ 63.
Proof.
  intros Hm Hle.
  assert (0 <= (if 0 <=? e then Z.pos m * 2 ^ e else Z.pos m / 2 ^ (- e))) as Hpos
    by (case_match; [|apply Z.div_pos; lia]; lia).
  unfold f64_trunc. destruct s; [lia|]. clear Hpos.
  change (f64_of_Z (2 ^ 63)) with (S754_finite false 4503599627370496 11) in Hle. unfold f64_leb, SFleb in Hle. cbn [SFcompare] in Hle.
  destruct (Z.leb_spec 0 e) as [He|He].
  - assert (2 ^ e <= 2 ^ 10 \/ e = 11 /\ Z.pos m < 2 ^ 52) as [H|[-> H]]; [|nia|lia].
    destruct (Z.compare_spec 11 e) as [<-|Hlt|Hlt]; [right|done|left; apply Z.pow_le_mono_r; lia].
    split; [done|]. change (Pos.compare_cont Eq 4503599627370496 m) with (Pos.compare 4503599627370496 m) in Hle.
    destruct (Pos.compare_spec 4503599627370496 m); [discriminate|discriminate|]. change (2 ^ 52) with (Z.pos 4503599627370496). by apply Pos2Z.pos_lt_pos.
  - apply Z.le_lt_trans with (Z.pos m); [|lia]. apply Z.div_le_upper_bound; [lia|]. nia.
Qed.
Lemma trunc_nonneg m e : 0 <= f64_trunc (S754_finite false m e).
Proof. unfold f64_trunc. case_match; [lia|]. apply Z.div_pos; lia. Qed.
