(* ===== verification/Redaction.v ===== *)
(** Redaction of secrets from saved evidence ([pkg/harness/internal/privatefiles],
    redact.go): the literal and the JSON-escaped form of each secret is replaced, and
    log lines that can carry a credential are dropped. *)

From S2P Require Import Prelude Utf8.

(** * Substrings *)

(** [bytes.HasPrefix], [bytes.Contains], and the substring relation it decides. *)
Fixpoint prefix_of (old s : bytes) : bool :=
  match old, s with
  | [], _ => true
  | c :: old, d :: s => Ascii.eqb c d && prefix_of old s
  | _, [] => false
  end.
Fixpoint Contains (s sub : bytes) : bool :=
  prefix_of sub s || match s with [] => false | _ :: s => Contains s sub end.
Definition occurs (sub s : bytes) : Prop := exists before after, s = before ++ sub ++ after.

(** [bytes.ReplaceAll] for a nonempty [old]: leftmost occurrences, the bytes of each
    skipped before the search goes on. *)
Fixpoint replace_from (old new : bytes) (skip : nat) (s : bytes) : bytes :=
  match s with
  | [] => []
  | c :: rest =>
      match skip with
      | S skip => replace_from old new skip rest
      | O =>
          if prefix_of old s then new ++ replace_from old new (length old - 1) rest
          else c :: replace_from old new 0 rest
      end
  end.
Definition ReplaceAll (s old new : bytes) : bytes := replace_from old new 0 s.

(** * The JSON form of a string *)

(** [json.Marshal] of a string, between its quotes: quotes, backslashes and control
    bytes are escaped, and so are the bytes HTML reads and the two line separators;
    an invalid encoding becomes the replacement character. *)
Definition hex4 (n : Z) : bytes :=
  ["\"%char; "u"%char; hex_digit (n / 4096); hex_digit (n / 256 mod 16); hex_digit (n / 16 mod 16);
   hex_digit (n mod 16)].
Definition json_escape_chunk (c : Z * bytes) : bytes :=
  let (r, enc) := c in
  if invalid_chunk c then hex4 65533
  else if (r =? 34) || (r =? 92) then "\"%char :: enc
  else if r =? 8 then ["\"; "b"]%char
  else if r =? 12 then ["\"; "f"]%char
  else if r =? 10 then ["\"; "n"]%char
  else if r =? 13 then ["\"; "r"]%char
  else if r =? 9 then ["\"; "t"]%char
  else if (r <? 32) || (r =? 60) || (r =? 62) || (r =? 38) || (r =? 8232) || (r =? 8233) then hex4 r
  else enc.
Definition json_escape (s : bytes) : bytes := concat (map json_escape_chunk (chunks s)).

(** * redact.go *)

Definition REDACTED : bytes := to_bytes "[REDACTED]".
Definition Redact (content secret : bytes) : bytes :=
  match secret with
  | [] => content
  | _ =>
      let content := ReplaceAll content secret REDACTED in
      let escaped := json_escape secret in
      if bool_decide (escaped = secret) then content else ReplaceAll content escaped REDACTED
  end.
Definition RedactSecrets (content : bytes) (secrets : list bytes) : bytes := fold_left Redact secrets content.

(** [FilterLogs]: the lines kept, until the output has reached its bound. *)
Definition dropped_line (line : bytes) : bool :=
  let lower := lower_bytes line in
  (4096 <? Z.of_nat (length line)) || mem NUL line || Contains lower (to_bytes "authorization:") ||
  Contains lower (to_bytes "bearer ").
Fixpoint filter_lines (maxOutput : Z) (output : bytes) (lines : list bytes) : bytes :=
  match lines with
  | [] => output
  | line :: lines =>
      if dropped_line line then filter_lines maxOutput output lines
      else
        let output := output ++ line ++ [NL] in
        if maxOutput <=? Z.of_nat (length output) then output else filter_lines maxOutput output lines
  end.
Definition FilterLogs (content : bytes) (maxOutput : Z) (secrets : list bytes) : bytes :=
  filter_lines maxOutput [] (split_bytes NL (RedactSecrets content secrets)).

Example redact_demo :
  of_bytes (Redact (to_bytes "k=a<b k=a\u003cb") (to_bytes "a<b")) = "k=[REDACTED] k=[REDACTED]"%string.
Proof. vm_compute. reflexivity. Qed.
Example filter_demo :
  of_bytes (FilterLogs (to_bytes ("safe secret" +:+ nl +:+ "Authorization: x" +:+ nl +:+ "BEARER y" +:+ nl +:+ "last"))
              1000 [to_bytes "secret"]) = ("safe [REDACTED]" +:+ nl +:+ "last" +:+ nl)%string.
Proof. vm_compute. reflexivity. Qed.

(** * Occurrences *)

Lemma prefix_of_spec old s : prefix_of old s = true <-> exists rest, s = old ++ rest.
Proof.
  revert s. induction old as [|c old IH]; intros s; simpl; [by split; [exists s|]|].
  destruct s as [|d s]; [by split; [|intros [rest ?]]|].
  rewrite andb_true_iff, Ascii.eqb_eq, IH. split.
  - intros [-> [rest ->]]. by exists rest.
  - intros [rest Hr]. injection Hr as -> ->. split; [done|by exists rest].
Qed.

Lemma occurs_nil sub : occurs sub [] -> sub = [].
Proof. intros (p & q & H). symmetry in H. apply app_eq_nil in H as [_ H]. by apply app_eq_nil in H as [-> _]. Qed.
Lemma occurs_cons sub c s : occurs sub (c :: s) <-> (exists rest, c :: s = sub ++ rest) \/ occurs sub s.
Proof.
  split.
  - intros ([|d p] & q & H); simpl in H; [left; by exists q|]. injection H as -> ->. right. by exists p, q.
  - intros [[rest Hr]|(p & q & ->)]; [by exists [], rest|by exists (c :: p), q].
Qed.
Lemma occurs_in sub a s b : occurs sub s -> occurs sub (a ++ s ++ b).
Proof. intros (p & q & ->). exists (a ++ p), (q ++ b). by rewrite <- !app_assoc. Qed.
Lemma Contains_spec s sub : Contains s sub = true <-> occurs sub s.
Proof.
  induction s as [|c s IH]; simpl; rewrite orb_true_iff, prefix_of_spec.
  - split; [|intros Hs; left; apply occurs_nil in Hs as ->; by exists []]. intros [[rest Hr]|]; [|done].
    exists [], rest. done.
  - by rewrite IH, occurs_cons.
Qed.
Lemma Contains_false s sub : Contains s sub = false <-> ~ occurs sub s.
Proof. by rewrite <- Contains_spec, not_true_iff_false. Qed.

(** An occurrence cannot straddle a byte it does not contain. *)
Lemma occurs_sep sub a c b : c ∉ sub -> occurs sub (a ++ c :: b) -> occurs sub a \/ occurs sub b.
Proof.
  intros Hc (p & q & H). apply app_eq_inv in H as [(k & -> & Hk)|(k & -> & Hk)].
  - symmetry in Hk. apply app_eq_inv in Hk as [(k' & -> & Hk')|(k' & -> & Hk')].
    + left. exists p, k'. by rewrite ?app_assoc.
    + destruct k' as [|d k']; simplify_eq/=; [left; exists p, []; by rewrite ?app_nil_r|]. set_solver.
  - destruct k as [|d k]; simpl in Hk; [|injection Hk as -> ->; right; by exists k, q].
    destruct sub as [|d sub]; simpl in Hk; [left; by exists a, []; rewrite app_nil_r|].
    injection Hk as -> _. set_solver.
Qed.

(** What a replacement keeps: the gaps between the occurrences, none of which contains
    one. *)
Definition weave (x gap : bytes) (gaps : list bytes) : bytes := gap ++ concat (map (fun g => x ++ g) gaps).
Lemma replace_from_skip old new skip s : replace_from old new skip s = replace_from old new 0 (drop skip s).
Proof. revert s. induction skip as [|skip IH]; intros [|c s]; simpl; [done..|]. apply IH. Qed.
Lemma replace_pieces old new s :
  old <> [] ->
  exists gap gaps, s = weave old gap gaps /\ ReplaceAll s old new = weave new gap gaps /\
    Forall (fun g => ~ occurs old g) (gap :: gaps).
Proof.
  intros Hold. assert (Hnil : ~ occurs old []) by (by intros ?%occurs_nil).
  unfold ReplaceAll. remember (length s) as n eqn:Hn. revert s Hn.
  induction (lt_wf n) as [n _ IH]. intros [|c s] ->; [exists [], []; by repeat constructor|].
  cbn [replace_from]. destruct (prefix_of old (c :: s)) eqn:Hp.
  - apply prefix_of_spec in Hp as [rest Hr]. rewrite replace_from_skip.
    assert (drop (length old - 1) s = rest) as ->.
    { destruct old as [|d old]; [done|]. injection Hr as _ ->. simpl.
      by rewrite Nat.sub_0_r, drop_app_length. }
    destruct (IH (length rest)) with (s := rest) as (gap & gaps & -> & -> & Hall).
    { rewrite Hr, length_app. destruct old; [done|]. simpl. lia. }
    { done. }
    exists [], (gap :: gaps). unfold weave at 1 3. simpl. rewrite <- !app_assoc. by split_and!; [..|constructor].
  - destruct (IH (length s)) with (s := s) as (gap & gaps & Hs & -> & Hall); [simpl; lia|done|].
    exists (c :: gap), gaps. split_and!; [by rewrite Hs|done|].
    apply Forall_cons in Hall as [Hg Hall]. constructor; [|done].
    rewrite occurs_cons. intros [[rest Hr]|]; [|done].
    apply not_true_iff_false in Hp. apply Hp, prefix_of_spec. rewrite Hs. unfold weave.
    rewrite app_comm_cons, Hr, <- app_assoc. by eexists.
Qed.

(** A text that can hide: it shares no bracket with the marker and is no part of its
    word. *)
Definition hidable (s : bytes) : Prop := "["%char ∉ s /\ "]"%char ∉ s /\ ~ occurs s (to_bytes "REDACTED").

Lemma weave_hides s gap gaps :
  hidable s -> Forall (fun g => ~ occurs s g) (gap :: gaps) -> ~ occurs s (weave REDACTED gap gaps).
Proof.
  intros (Hl & Hr & Hm) Hall. apply Forall_cons in Hall as [Hg Hall]. revert gap Hg.
  induction Hall as [|g gaps Hg' Hall IH]; intros gap Hg; unfold weave; simpl; [by rewrite app_nil_r|].
  intros Ho. apply (occurs_sep _ gap "["%char) in Ho as [Ho|Ho]; [done| |done].
  apply (occurs_sep _ (to_bytes "REDACTED") "]"%char) in Ho as [Ho|Ho]; [done| |done].
  by apply (IH g Hg').
Qed.

Lemma weave_gaps (P : bytes -> Prop) x gap gaps :
  (forall a b s, P (a ++ s ++ b) -> P s) -> P (weave x gap gaps) -> Forall P (gap :: gaps).
Proof.
  intros Hsub. unfold weave. revert gap. induction gaps as [|g gaps IH]; intros gap Hp; simpl in *.
  - constructor; [|done]. apply (Hsub [] []). by rewrite app_nil_r in *.
  - constructor; [by apply (Hsub [] _ gap) in Hp|].
    apply IH. apply (Hsub (gap ++ x) []). by rewrite app_nil_r, <- !app_assoc in *.
Qed.

Lemma ReplaceAll_hides old s t :
  old <> [] -> hidable t -> t = old \/ ~ occurs t s -> ~ occurs t (ReplaceAll s old REDACTED).
Proof.
  intros Hold Ht Hor. destruct (replace_pieces old REDACTED s Hold) as (gap & gaps & Hs & -> & Hall).
  apply weave_hides; [done|]. destruct Hor as [->|Hno]; [done|].
  apply (weave_gaps (fun g => ~ occurs t g) old); [|by rewrite <- Hs].
  intros a b x Hx Ho. by apply Hx, occurs_in.
Qed.
Lemma ReplaceAll_absent old s new : old <> [] -> ~ occurs old s -> ReplaceAll s old new = s.
Proof.
  intros Hold Hno. destruct (replace_pieces old new s Hold) as (gap & gaps & Hs & -> & _).
  destruct gaps as [|g gaps]; [by rewrite Hs|]. exfalso. apply Hno. rewrite Hs. unfold weave. simpl.
  exists gap, (g ++ concat (map (fun g => old ++ g) gaps)). by rewrite <- !app_assoc.
Qed.

(** * The escaped form of a hidable text is hidable *)

Definition bracket (c : ascii) : bool := Ascii.eqb c "["%char || Ascii.eqb c "]"%char.
Lemma hex4_plain n : n ∈ [65533; 60; 62; 38; 8232; 8233] \/ 0 <= n < 32 -> existsb bracket (hex4 n) = false.
Proof.
  intros Hn. assert (n ∈ [65533; 60; 62; 38; 8232; 8233] ++ map Z.of_nat (seq 0 32)) as Hin.
  { apply elem_of_app. destruct Hn as [?|?]; [by left|right]. apply list_elem_of_fmap.
    exists (Z.to_nat n). split; [lia|]. apply elem_of_seq. lia. }
  apply list_elem_of_In in Hin. simpl in Hin. by repeat (destruct Hin as [<-|Hin]; [vm_compute; reflexivity|]).
Qed.
Lemma escape_chunk_plain chunk :
  (chunk.1 < 128 -> exists c, chunk = (byte_of c, [c])) -> existsb bracket chunk.2 = false ->
  existsb bracket (json_escape_chunk chunk) = false /\
  (json_escape_chunk chunk = chunk.2 \/ "\"%char ∈ json_escape_chunk chunk).
Proof.
  destruct chunk as [r enc]. simpl. intros Hlow Hplain. unfold json_escape_chunk.
  destruct (invalid_chunk _).
  { split; [apply hex4_plain; left; set_solver|right; apply list_elem_of_here]. }
  destruct (_ || _) eqn:Hq; [split; [simpl; by rewrite Hplain|right; apply list_elem_of_here]|].
  repeat match goal with
  | |- context [if r =? ?n then _ else _] =>
      destruct (r =? n); [split; [done|right; apply list_elem_of_here]|]
  end.
  clear Hq. destruct (_ || _) eqn:Hu; [|by split; [|left]]. split; [|right; apply list_elem_of_here].
  apply hex4_plain. rewrite !orb_true_iff, Z.ltb_lt, !Z.eqb_eq in Hu.
  destruct Hu as [[[[[Hr| ->]| ->]| ->]| ->]| ->]; [|left; set_solver..].
  right. destruct Hlow as [c [= -> _]]; [lia|]. pose proof (byte_of_range c). lia.
Qed.
Lemma existsb_concat {A} (f : A -> bool) (parts : list (list A)) :
  existsb f (concat parts) = existsb (existsb f) parts.
Proof. induction parts as [|part parts IH]; simpl; [done|]. by rewrite existsb_app, IH. Qed.
Lemma escape_plain s :
  existsb bracket s = false ->
  existsb bracket (json_escape s) = false /\ (json_escape s = s \/ "\"%char ∈ json_escape s).
Proof.
  intros Hs. rewrite <- (chunks_concat s) in Hs at 1. rewrite existsb_concat in Hs. unfold json_escape.
  rewrite <- (chunks_concat s) at 3. induction (chunks_low s) as [|chunk cs Hc _ IH]; [by split; [|left]|].
  simpl in *. apply orb_false_iff in Hs as [Hx Hs]. destruct (IH Hs) as [Hp He].
  destruct (escape_chunk_plain chunk Hc Hx) as [Hp' He']. rewrite existsb_app, Hp', Hp. split; [done|].
  rewrite !elem_of_app. destruct He' as [->|], He as [->|]; auto.
Qed.
Lemma existsb_bracket s : existsb bracket s = false <-> "["%char ∉ s /\ "]"%char ∉ s.
Proof.
  induction s as [|c s IH]; simpl; [set_solver|]. unfold bracket at 1.
  rewrite !orb_false_iff, IH, !Ascii.eqb_neq, !not_elem_of_cons. naive_solver.
Qed.
Lemma hidable_escape s : hidable s -> hidable (json_escape s).
Proof.
  intros (Hl & Hr & Hm). destruct (escape_plain s) as [Hp He]; [by apply existsb_bracket|].
  apply existsb_bracket in Hp as [Hl' Hr']. split_and!; [done..|].
  destruct He as [->|He]; [done|]. intros (p & q & H).
  assert ("\"%char ∈ to_bytes "REDACTED") as Hin by (rewrite H; set_solver).
  apply list_elem_of_In in Hin. simpl in Hin. naive_solver.
Qed.
Lemma escape_nonempty s : s <> [] -> json_escape s <> [].
Proof.
  intros Hs He. pose proof (chunks_concat s) as Hc. unfold json_escape in He.
  assert (forall chunk, json_escape_chunk chunk = [] -> chunk.2 = []) as Hx.
  { intros [r enc]. unfold json_escape_chunk, hex4. repeat case_match; naive_solver. }
  apply Hs. rewrite <- Hc. clear Hc. induction (chunks s) as [|chunk cs IH]; [done|]. simpl in *.
  apply app_eq_nil in He as [He1 He2]. by rewrite (Hx _ He1), (IH He2).
Qed.

(** * Redaction hides the secrets *)

Lemma Redact_keeps_out content secret t :
  hidable t -> ~ occurs t content -> ~ occurs t (Redact content secret).
Proof.
  intros Ht Hno. destruct secret as [|c secret]; [done|]. unfold Redact.
  assert (~ occurs t (ReplaceAll content (c :: secret) REDACTED)) by (apply ReplaceAll_hides; auto).
  case_bool_decide; [done|]. apply ReplaceAll_hides; [by apply escape_nonempty|done|by right].
Qed.
Lemma Redact_hides content secret :
  secret <> [] -> hidable secret ->
  ~ occurs secret (Redact content secret) /\ ~ occurs (json_escape secret) (Redact content secret).
Proof.
  intros Hne Hs. unfold Redact. destruct secret as [|c secret]; [done|].
  assert (~ occurs (c :: secret) (ReplaceAll content (c :: secret) REDACTED)) as Hone
    by (apply ReplaceAll_hides; auto).
  pose proof (hidable_escape _ Hs) as He. pose proof (escape_nonempty (c :: secret) ltac:(done)) as Hene.
  case_bool_decide as Heq; [by rewrite Heq|]. split; apply ReplaceAll_hides; auto.
Qed.
Lemma RedactSecrets_keeps_out content secrets t :
  hidable t -> ~ occurs t content -> ~ occurs t (RedactSecrets content secrets).
Proof.
  intros Ht. revert content. induction secrets as [|secret secrets IH]; intros content Hno; [done|].
  by apply IH, Redact_keeps_out.
Qed.
Lemma RedactSecrets_hides content secrets secret :
  secret ∈ secrets -> secret <> [] -> hidable secret ->
  ~ occurs secret (RedactSecrets content secrets) /\ ~ occurs (json_escape secret) (RedactSecrets content secrets).
Proof.
  intros Hin Hne Hs. revert content. induction secrets as [|s secrets IH]; intros content; [set_solver|].
  apply elem_of_cons in Hin as [->|Hin]; [|by apply IH].
  destruct (Redact_hides content s Hne Hs) as [H1 H2].
  change (RedactSecrets content (s :: secrets)) with (RedactSecrets (Redact content s) secrets).
  split; apply RedactSecrets_keeps_out; auto using hidable_escape.
Qed.
Lemma RedactSecrets_exact content secrets :
  Forall (fun s => s <> [] -> ~ occurs s content /\ ~ occurs (json_escape s) content) secrets ->
  RedactSecrets content secrets = content.
Proof.
  induction 1 as [|s secrets Hs _ IH]; [done|]. unfold RedactSecrets in *. simpl.
  enough (Redact content s = content) as -> by done. unfold Redact. destruct s as [|c s]; [done|].
  destruct (Hs ltac:(done)) as [H1 H2]. rewrite ReplaceAll_absent by done.
  case_bool_decide; [done|]. apply ReplaceAll_absent; [by apply escape_nonempty|done].
Qed.

(** C33. Redaction hides every secret that it can hide: a nonempty secret that has no bracket
    and is no part of the word of the marker is left in the redacted text neither in its
    literal nor in its JSON-escaped form, whatever the other secrets are, hidable or not, and
    in whatever order they are replaced. A text with no secret in it, in neither form, is
    unchanged. *)
Theorem redaction_hides (content secret : bytes) (secrets : list bytes)
    (Hin : secret ∈ secrets) (Hne : secret <> []) (Hhidable : hidable secret) :
  ~ occurs secret (RedactSecrets content secrets) /\ ~ occurs (json_escape secret) (RedactSecrets content secrets) /\
  (Forall (fun s => s <> [] -> ~ occurs s content /\ ~ occurs (json_escape s) content) secrets ->
   RedactSecrets content secrets = content).
Proof.
  split_and!; [by apply RedactSecrets_hides..|apply RedactSecrets_exact].
Qed.

(** The brackets matter: a secret that ends the marker's way can reappear. *)
Example bracket_reappears :
  Contains (RedactSecrets (to_bytes "]aa") [to_bytes "]a"]) (to_bytes "]a") = true.
Proof. vm_compute. reflexivity. Qed.

Lemma hidable_decides s :
  negb (existsb bracket s) && negb (Contains (to_bytes "REDACTED") s) = true -> hidable s.
Proof.
  rewrite andb_true_iff, !negb_true_iff, Contains_false, existsb_bracket. unfold hidable. tauto.
Qed.
Lemma redaction_hides_witness :
  ~ occurs (to_bytes "sk-key-1") (RedactSecrets (to_bytes "a sk-key-1 ]a") [to_bytes "]a"; to_bytes "sk-key-1"; to_bytes "a<b"]).
Proof.
  apply (redaction_hides (to_bytes "a sk-key-1 ]a") (to_bytes "sk-key-1") [to_bytes "]a"; to_bytes "sk-key-1"; to_bytes "a<b"]).
  - apply list_elem_of_further, list_elem_of_here.
  - discriminate.
  - apply hidable_decides. vm_compute. reflexivity.
Defined.

(** * Filtered logs *)

Lemma filter_lines_spec maxOutput output lines :
  exists kept, filter_lines maxOutput output lines = output ++ concat (map (fun l => l ++ [NL]) kept) /\
    kept `sublist_of` lines /\ Forall (fun l => dropped_line l = false) kept /\
    (kept <> [] -> exists front last, kept = front ++ [last] /\
       (front <> [] -> Z.of_nat (length (output ++ concat (map (fun l => l ++ [NL]) front))) < maxOutput)).
Proof.
  revert output. induction lines as [|line lines IH]; intros output; simpl.
  { exists []. simpl. rewrite app_nil_r. by split_and!; [|constructor..|]. }
  destruct (dropped_line line) eqn:Hd.
  { destruct (IH output) as (kept & -> & Hs & Hk & Hl). exists kept. split_and!; [done|by constructor|done..]. }
  destruct (Z.leb_spec maxOutput (Z.of_nat (length (output ++ line ++ [NL])))) as [|Hlt].
  { exists [line]. simpl. rewrite app_nil_r. split_and!; [done|constructor; apply sublist_nil_l|by constructor|].
    intros _. by exists [], line. }
  destruct (IH (output ++ line ++ [NL])) as (kept & -> & Hs & Hk & Hl). exists (line :: kept). simpl.
  split_and!; [by rewrite <- !app_assoc|by constructor|by constructor|]. intros _.
  destruct kept as [|k kept]; [by exists [], line|]. destruct (Hl ltac:(done)) as (front & last & -> & Hf).
  exists (line :: front), last. split; [done|]. intros _. simpl.
  destruct front as [|f front]; [simpl; by rewrite app_nil_r|].
  specialize (Hf ltac:(done)). by rewrite <- !app_assoc in *.
Qed.
Lemma occurs_line sub kept :
  NL ∉ sub -> sub <> [] -> occurs sub (concat (map (fun l => l ++ [NL]) kept)) ->
  exists line, line ∈ kept /\ occurs sub line.
Proof.
  intros Hn Hne. induction kept as [|line kept IH]; simpl; [intros Ho; by apply occurs_nil in Ho|].
  rewrite <- app_assoc. simpl. intros [Ho|Ho]%occurs_sep; [|destruct (IH Ho) as (l & Hl & ?)|done].
  - exists line. split; [apply list_elem_of_here|done].
  - exists l. split; [by apply list_elem_of_further|done].
Qed.
Lemma line_occurs sep s line sub : line ∈ split_bytes sep s -> occurs sub line -> occurs sub s.
Proof.
  intros Hl Ho. rewrite <- (join_split sep s). apply list_elem_of_In, in_split in Hl as (l1 & l2 & Hl).
  enough (exists a b, join_bytes sep (split_bytes sep s) = a ++ line ++ b) as (a & b & ->) by by apply occurs_in.
  rewrite Hl. clear Hl. induction l1 as [|x l1 (a & b & IH)]; simpl.
  - destruct l2 as [|y l2]; [exists [], []; by rewrite app_nil_r|by exists [], (sep :: join_bytes sep (y :: l2))].
  - destruct (l1 ++ line :: l2) eqn:E; [by destruct l1|]. exists (x ++ sep :: a), b. rewrite IH.
    by rewrite <- app_assoc.
Qed.

(** What [FilterLogs] keeps of a log are whole lines of the redacted log, in their
    order, none of them with an authorization header, a bearer token or a NUL byte, and
    none over 4096 bytes; no secret that is a single hidable line is left in them. The
    output exceeds its bound by less than the last line kept. *)
Theorem filter_logs_clean (content : bytes) (maxOutput : Z) (secrets : list bytes) :
  exists kept, FilterLogs content maxOutput secrets = concat (map (fun l => l ++ [NL]) kept) /\
    kept `sublist_of` split_bytes NL (RedactSecrets content secrets) /\
    Forall (fun l => Z.of_nat (length l) <= 4096 /\ NUL ∉ l /\
                     ~ occurs (to_bytes "authorization:") (lower_bytes l) /\
                     ~ occurs (to_bytes "bearer ") (lower_bytes l)) kept /\
    Forall (fun s => s <> [] -> hidable s -> NL ∉ s -> ~ occurs s (FilterLogs content maxOutput secrets)) secrets /\
    Z.of_nat (length (FilterLogs content maxOutput secrets)) <= Z.max 0 (maxOutput - 1) + 4097.
Proof.
  unfold FilterLogs. destruct (filter_lines_spec maxOutput [] (split_bytes NL (RedactSecrets content secrets)))
    as (kept & -> & Hs & Hk & Hl). exists kept. simpl.
  assert (Forall (fun l => Z.of_nat (length l) <= 4096 /\ NUL ∉ l /\
    ~ occurs (to_bytes "authorization:") (lower_bytes l) /\ ~ occurs (to_bytes "bearer ") (lower_bytes l)) kept) as Hkept.
  { eapply Forall_impl; [exact Hk|]. intros l. unfold dropped_line.
    rewrite !orb_false_iff, Z.ltb_ge, !Contains_false, <- not_true_iff_false, mem_spec. tauto. }
  split_and!; [done..| |].
  - apply Forall_forall. intros s Hin Hne Hh Hn Ho. apply occurs_line in Ho as (line & Hline & Ho); [|done..].
    apply (proj1 (RedactSecrets_hides content secrets s Hin Hne Hh)).
    eapply line_occurs; [|exact Ho]. by apply (sublist_subseteq _ _ Hs).
  - destruct (decide (kept = [])) as [->|Hne]; [simpl; lia|]. destruct (Hl Hne) as (front & last & -> & Hf).
    apply Forall_app in Hkept as [_ Hlast]. apply Forall_cons in Hlast as [(Hlast & _) _].
    rewrite map_app, concat_app, length_app. simpl. rewrite !length_app. simpl.
    destruct front as [|f front]; [simpl; lia|]. specialize (Hf ltac:(done)). simpl in *. lia.
Qed.
