(* ===== verification/Docker.v ===== *)
(** Runtimes on Docker ([pkg/deployment/docker], docker.go and bridge.go): the creation of
    a container with the recovery of a lost answer, its validation against the request, its
    life, and its removal. The Docker client is an interface; a call answers with a value
    or an error, and [errdefs.IsNotFound] is a kind of error. *)

From S2P Require Import Prelude Utf8 Trace Paths Net Core GoTime Redaction Deployments.

(** * The client's types *)

(** [container.Config]; [cc_Entrypoint] is [None] for a nil slice. A port is its text, as
    ["8080/tcp"]. *)
Record ContainerConfig := {
  cc_Image : string;
  cc_WorkingDir : string;
  cc_Env : list string;
  cc_Entrypoint : option (list string);
  cc_Cmd : list string;
  cc_Labels : gmap string string;
  cc_ExposedPorts : gset string
}.
(** [container.Resources], the fields the code sets. *)
Record DeviceRequest := { dv_Driver : string; dv_Count : Z; dv_Capabilities : list (list string) }.
Record Resources := { rs_NanoCPUs : Z; rs_Memory : Z; rs_DeviceRequests : list DeviceRequest }.
(** [mount.Mount], [network.PortBinding] and [container.HostConfig]. *)
Definition TypeBind : string := "bind".
Definition TypeVolume : string := "volume".
Record HostMount := { hm_Type : string; hm_Source : string; hm_Target : string; hm_ReadOnly : bool }.
Record PortBinding := { pb_HostIP : string; pb_HostPort : string }.
Record HostConfig := {
  ho_NetworkMode : string;
  ho_Resources : Resources;
  ho_Binds : list string;
  ho_Mounts : list HostMount;
  ho_Init : option bool;
  ho_SecurityOpt : list string;
  ho_StorageOpt : gmap string string;
  ho_PortBindings : gmap string (list PortBinding)
}.
(** [client.ContainerCreateOptions]; the networking is the aliases at an attachment. *)
Record CreateOptions := {
  co_Name : string;
  co_Config : ContainerConfig;
  co_HostConfig : HostConfig;
  co_Networking : option (gmap string (list string))
}.

(** [container.InspectResponse]: an address is the text of a valid one. *)
Record ContainerState := { st_Running : bool; st_Status : string }.
Record EndpointSettings := { es_IPAddress : option string }.
Record NetworkSettings := {
  nt_Networks : gmap string (option EndpointSettings);
  nt_Ports : gmap string (list PortBinding)
}.
Record MountPoint := { mp_Type : string; mp_VolumeName : string; mp_Source : string; mp_Destination : string; mp_RW : bool }.
Record InspectResponse := {
  in_ID : string;
  in_Name : string;
  in_Config : option ContainerConfig;
  in_HostConfig : option HostConfig;
  in_State : option ContainerState;
  in_NetworkSettings : option NetworkSettings;
  in_Mounts : list MountPoint
}.
(** A frame of a multiplexed stream: of the standard error or the standard output. *)
Record Frame := { fm_stderr : bool; fm_payload : bytes }.
(** [container.PathStat] and [deployment.FileInfo]; the mode is Go's [fs.FileMode]. *)
Record PathStat := { ps_Name : string; ps_Size : Z; ps_Mode : Z; ps_Mtime : Z; ps_LinkTarget : string }.
Record FileInfo := { fi_Size : Z; fi_Mode : Z }.

(** [dockerClient], the methods this file calls. The logs are the frames the stream holds,
    the error that ends it, and that of closing it; a copied archive is its bytes and the
    error that ends them. *)
Class DockerClient (W : Type) := {
  ContainerCreate : Ctx -> CreateOptions -> M W (string * error);
  ContainerInspect : Ctx -> string -> M W (InspectResponse + err);
  ContainerStart : Ctx -> string -> M W error;
  ContainerStop : Ctx -> string -> Z -> M W error;            (* timeout in seconds *)
  ContainerKill : Ctx -> string -> string -> M W error;       (* signal *)
  ContainerRemove : Ctx -> string -> bool -> bool -> M W error;  (* force, volumes *)
  ContainerLogs : Ctx -> string -> M W (list Frame * error * error + err);
  CopyToContainer : Ctx -> string -> string -> bytes -> bool -> M W error;  (* CopyUIDGID *)
  CopyFromContainer : Ctx -> string -> string -> M W ((bytes * error) * PathStat + err)
}.

(** [errdefs.IsNotFound] of an error and of an answer. *)
Definition IsNotFound (e : err) : bool := errors_Is e ErrAPINotFound.
Definition answered_not_found {A} (answer : A + err) : bool :=
  match answer with inl _ => false | inr e => IsNotFound e end.
Definition not_missing (e : error) : error :=
  match e with Some e => if IsNotFound e then None else Some e | None => None end.

(** * Requests *)

Definition validatePlacement (placement : RuntimePlacement) : error :=
  refuse_if String.eqb (TrimSpace (rp_AttachmentID placement)) ""
    with "Docker deployment requires a nonempty Docker task attachment".

(** The mounts of [validateRuntimeRequest]. *)
Definition clean_absolute (path : string) : bool := HasPrefix path "/" && String.eqb (Clean path) path.
Fixpoint check_mounts (targets : gset string) (mounts : list Mount) : error :=
  match mounts with
  | [] => None
  | declared :: mounts =>
      if negb (clean_absolute (mt_Source declared)) || negb (clean_absolute (mt_Target declared)) ||
         ContainsByte (mt_Source declared +:+ mt_Target declared) NUL
      then Some (ENew "deployment mounts require absolute clean source and target paths")
      else if bool_decide (mt_Target declared ∈ targets)
      then Some (ENew "deployment mount targets must be distinct")
      else check_mounts ({[mt_Target declared]} ∪ targets) mounts
  end.
Definition validateRuntimeRequest (request : Request) : error :=
  validatePlacement (rt_Placement request) >>?
  (refuse_if (rt_InternalPort request <? 0) || (65535 <? rt_InternalPort request)
     with "invalid internal service port") >>?
  check_mounts ∅ (rt_Mounts request).

(** [resources]; the parts of CPU and memory. *)
Definition cpu_limit (cpu : float64) : Z + err :=
  let scaled := f64_mul cpu (f64_of_Z 1000000000) in
  if f64_leb cpu f64_zero || IsNaN cpu || IsInf cpu || f64_leb (f64_of_Z (2 ^ 63)) scaled
  then inr (ENew "deployment CPU must be finite, positive, and convert to NanoCPUs below 2^63")
  else inl (f64_trunc scaled).
Definition max_memoryMB : Z := Z.shiftr max_int64 20.
Definition memory_limit (memoryMB : Z) : Z + err :=
  if (memoryMB <=? 0) || (max_memoryMB <? memoryMB)
  then inr (ENew ("deployment memory must be positive and no greater than " +:+ itoa max_memoryMB +:+ " MiB"))
  else inl (Z.shiftl memoryMB 20).
Definition resources (request : Request) : Resources + err :=
  match (match rt_CPU request with Some cpu => cpu_limit cpu | None => inl 0 end) with
  | inr e => inr e
  | inl nano =>
      match (match rt_MemoryMB request with Some memory => memory_limit memory | None => inl 0 end) with
      | inr e => inr e
      | inl memory =>
          if (rt_GPUs request <? 0) || (rt_StorageMB request <? 0)
          then inr (ENew "deployment GPU and storage bounds must be nonnegative")
          else inl {| rs_NanoCPUs := nano; rs_Memory := memory;
                      rs_DeviceRequests :=
                        if 0 <? rt_GPUs request
                        then [{| dv_Driver := "nvidia"; dv_Count := rt_GPUs request; dv_Capabilities := [["gpu"%string]] |}]
                        else [] |}
      end
  end.

(** * Creation *)

Definition tcp (port : Z) : string := itoa port +:+ "/tcp".
Definition LOOPBACK : string := "127.0.0.1".
Definition container_config (request : Request) : ContainerConfig :=
  {| cc_Image := rt_Image request; cc_WorkingDir := rt_Workdir request; cc_Env := rt_Env request;
     cc_Entrypoint := rt_Entrypoint request; cc_Cmd := rt_Args request; cc_Labels := rt_Labels request;
     cc_ExposedPorts :=
       (if rt_ServicePort request =? 0 then ∅ else {[tcp (rt_ServicePort request)]}) ∪
       (if rt_InternalPort request =? 0 then ∅ else {[tcp (rt_InternalPort request)]}) |}.
Definition host_mount (declared : Mount) : HostMount :=
  {| hm_Type := TypeBind; hm_Source := mt_Source declared; hm_Target := mt_Target declared;
     hm_ReadOnly := mt_ReadOnly declared |}.
Definition host_config (request : Request) (limits : Resources) : HostConfig :=
  {| ho_NetworkMode := rp_AttachmentID (rt_Placement request); ho_Resources := limits; ho_Binds := [];
     ho_Mounts := map host_mount (rt_Mounts request);
     ho_Init := if rt_Init request then Some true else None;
     ho_SecurityOpt := if rt_NoNewPrivileges request then ["no-new-privileges=true"%string] else [];
     ho_StorageOpt := if 0 <? rt_StorageMB request then {["size"%string := (itoa (rt_StorageMB request) +:+ "m")%string]} else ∅;
     ho_PortBindings :=
       if rt_ServicePort request =? 0 then ∅
       else {[tcp (rt_ServicePort request) := [{| pb_HostIP := LOOPBACK; pb_HostPort := "" |}]]} |}.
Definition create_options (request : Request) (limits : Resources) : CreateOptions :=
  {| co_Name := rt_Name request; co_Config := container_config request; co_HostConfig := host_config request limits;
     co_Networking := match rt_NetworkAliases request with
                      | [] => None
                      | aliases => Some {[rp_AttachmentID (rt_Placement request) := aliases]}
                      end |}.

(** Every requested label is on the runtime. *)
Definition labels_match (requested actual : gmap string string) : bool :=
  forallb (fun kv => String.eqb (default "" (actual !! kv.1)) kv.2) (map_to_list requested).

Section Manager.
Context {W : Type} `{!DockerClient W}.
Variable cleanup_timeout : Z.   (* [Manager.timeout] *)

Definition cleanupTimeout : Z := if 0 <? cleanup_timeout then cleanup_timeout else 30 * 10 ^ 9.

(** [Create] once the answer has no identity: it is looked up by its name. *)
Definition unconfirmed (e : err) (why : err) : string * error :=
  (""%string, Some (EJoin [e; EWraps "" (ESentinel ErrAllocationUnconfirmed) why])).
Definition recover (ctx : Ctx) (request : Request) (e : err) : M W (string * error) :=
  if String.eqb (rt_Name request) "" then ret (unconfirmed e (ENew "no requested name"))
  else
    let* inspection := ContainerInspect (WithTimeout (WithoutCancel ctx) cleanupTimeout) (rt_Name request) in
    match inspection with
    | inr lookupErr =>
        if IsNotFound lookupErr then ret (""%string, Some e) else ret (unconfirmed e lookupErr)
    | inl info =>
        match in_Config info with
        | None => ret (unconfirmed e (ENew "identity or ownership could not be verified"))
        | Some config =>
            if String.eqb (in_ID info) "" || negb (String.eqb (in_Name info) ("/" +:+ rt_Name request)) ||
               bool_decide (rt_Labels request = ∅)
            then ret (unconfirmed e (ENew "identity or ownership could not be verified"))
            else if negb (labels_match (rt_Labels request) (cc_Labels config))
            then ret (unconfirmed e (ENew "ownership differs from request"))
            else ret (in_ID info, Some e)
        end
    end.
(** The error of a creation that gave no identity. *)
Definition no_identity (e : error) : err := default (ENew "Docker returned an empty deployment identity") e.
Definition Create (ctx : Ctx) (request : Request) : M W (string * error) :=
  match validateRuntimeRequest request with
  | Some e => ret (""%string, Some e)
  | None =>
      match resources request with
      | inr e => ret (""%string, Some e)
      | inl limits =>
          if (rt_ServicePort request <? 0) || (65535 <? rt_ServicePort request)
          then ret (""%string, Some (ENew "deployment service port is invalid"))
          else
            let* (id, e) := ContainerCreate ctx (create_options request limits) in
            if negb (String.eqb (TrimSpace id) "") then ret (id, e)
            else recover ctx request (no_identity e)
      end
  end.
End Manager.

(** [New]: the host a client is made for ([client_New] is [client.New]), and the manager's
    timeout. *)
Definition docker_host (socket : string) : string :=
  let host := if String.eqb socket "" then "/var/run/docker.sock"%string else socket in
  if Contains (to_bytes host) (to_bytes "://") then host else ("unix://" +:+ host)%string.
Definition docker_New (client_New : string -> error) (socket : string) (timeout : Z) : Z + err :=
  match client_New (docker_host socket) with
  | Some e => inr (EWrap "create Docker deployment client" e)
  | None => inl timeout
  end.

(** * Validation *)

Definition noNewPrivilegesEnabled (options : list string) : bool :=
  existsb (fun option => one_of option ["no-new-privileges"; "no-new-privileges=true"; "no-new-privileges:true"]) options.

(** What the daemon shows of a container that could hold a secret. *)
Definition metadata (config : ContainerConfig) : list string :=
  cc_Env config ++ cc_Cmd config ++ default [] (cc_Entrypoint config) ++ map snd (map_to_list (cc_Labels config)).
Definition holds_secret (secrets : list bytes) (value : string) : bool :=
  existsb (fun secret => negb (bool_decide (secret = [])) && Contains (to_bytes value) secret) secrets.

(** [validateMounts]: the mounts that were asked for, by their target; those that the
    container is configured with; and those that are there. *)
Definition requested_mounts (mounts : list Mount) : gmap string Mount :=
  foldl (fun m declared => <[mt_Target declared := declared]> m) ∅ mounts.
Fixpoint check_configured (requested : gmap string Mount) (configured : gset string) (mounts : list HostMount) : error :=
  match mounts with
  | [] => None
  | actual :: mounts =>
      let refused := Some (ENew "deployment host mount differs from request") in
      match requested !! hm_Target actual with
      | None => refused
      | Some declared =>
          if bool_decide (hm_Target actual ∈ configured) || negb (String.eqb (hm_Type actual) TypeBind) ||
             negb (String.eqb (hm_Source actual) (mt_Source declared)) ||
             negb (Bool.eqb (hm_ReadOnly actual) (mt_ReadOnly declared))
          then refused
          else check_configured requested ({[hm_Target actual]} ∪ configured) mounts
      end
  end.
Fixpoint check_present (request : Request) (requested : gmap string Mount) (present : gset string) (mounts : list MountPoint) :
    error :=
  match mounts with
  | [] => refuse_if negb (size present =? size requested)%nat with "deployment requested mount is missing"
  | actual :: mounts =>
      match requested !! mp_Destination actual with
      | Some declared =>
          if bool_decide (mp_Destination actual ∈ present) || negb (String.eqb (mp_Type actual) TypeBind) ||
             negb (String.eqb (mp_Source actual) (mt_Source declared)) || Bool.eqb (mp_RW actual) (mt_ReadOnly declared)
          then Some (ENew "deployment mounted path differs from request")
          else check_present request requested ({[mp_Destination actual]} ∪ present) mounts
      | None =>
          if negb (String.eqb (mp_Type actual) TypeVolume) || String.eqb (mp_VolumeName actual) "" ||
             (negb (rt_AllowImageVolumes request) && negb (one_of (mp_Destination actual) (rt_ImageVolumes request)))
          then Some (ENew "deployment has a mount beyond requested paths and image-declared volumes")
          else check_present request requested present mounts
      end
  end.
Definition validateMounts (info : InspectResponse) (host : HostConfig) (request : Request) : error :=
  let requested := requested_mounts (rt_Mounts request) in
  (refuse_if negb (bool_decide (ho_Binds host = [])) || negb (length (ho_Mounts host) =? length (rt_Mounts request))%nat
     with "deployment host mounts differ from request") >>?
  check_configured requested ∅ (ho_Mounts host) >>?
  check_present request requested ∅ (in_Mounts info).

(** [Validate], once the container has been inspected. *)
Definition attached (info : InspectResponse) (attachment : string) : bool :=
  match in_NetworkSettings info with
  | Some settings => match nt_Networks settings !! attachment with Some (Some _) => true | _ => false end
  | None => false
  end.
Definition is_running (info : InspectResponse) : bool :=
  match in_State info with Some state => st_Running state | None => false end.
Definition validate_container (info : InspectResponse) (config : ContainerConfig) (host : HostConfig)
    (request : Request) (secrets : list bytes) : error :=
  (refuse_if negb (String.eqb (rt_Name request) "") && negb (String.eqb (in_Name info) ("/" +:+ rt_Name request))
     with "deployment name differs from request") >>?
  (refuse_if negb (String.eqb (rt_Workdir request) "") && negb (String.eqb (cc_WorkingDir config) (rt_Workdir request))
     with "deployment workdir differs from request") >>?
  (refuse_if rt_NoNewPrivileges request && negb (noNewPrivilegesEnabled (ho_SecurityOpt host))
     with "deployment no-new-privileges is not enabled") >>?
  (refuse_if rt_Init request && negb (default false (ho_Init host)) with "deployment init is not enabled") >>?
  (refuse_if negb (String.eqb (cc_Image config) (rt_Image request)) || negb (bool_decide (cc_Cmd config = rt_Args request)) ||
             match rt_Entrypoint request with
             | Some entrypoint => negb (bool_decide (default [] (cc_Entrypoint config) = entrypoint))
             | None => false
             end
     with "deployment image or command differs from requested configuration") >>?
  (refuse_if negb (labels_match (rt_Labels request) (cc_Labels config)) with "deployment labels do not match the task") >>?
  (refuse_if existsb (holds_secret secrets) (metadata config) with "deployment secret entered Docker metadata") >>?
  (refuse_if negb (bool_decide (rt_NetworkAliases request = [])) && is_running info &&
             negb (attached info (rp_AttachmentID (rt_Placement request)))
     with "deployment task network is not attached") >>?
  (refuse_if negb (String.eqb (ho_NetworkMode host) (rp_AttachmentID (rt_Placement request)))
     with "deployment must use only the task network") >>?
  validateMounts info host request.

(** * Logs *)

(** [stdcopy.StdCopy]: each frame goes to its writer, up to the first error. *)
Fixpoint StdCopy {S} (write : bool -> bytes -> S -> error * S) (frames : list Frame) (ending : error) (s : S) : error * S :=
  match frames with
  | [] => (ending, s)
  | frame :: frames =>
      let (e, s) := write (fm_stderr frame) (fm_payload frame) s in
      match e with Some e => (Some e, s) | None => StdCopy write frames ending s end
  end.

(** [limitedBuffer], and a pair of them. *)
Record limitedBuffer := { lb_content : bytes; lb_exceeded : bool }.
Definition buffer_Write (limit : Z) (content : bytes) (b : limitedBuffer) : limitedBuffer :=
  let remaining := limit - Z.of_nat (length (lb_content b)) in
  if remaining <? Z.of_nat (length content)
  then {| lb_content := lb_content b ++ take (Z.to_nat (Z.max 0 remaining)) content; lb_exceeded := true |}
  else {| lb_content := lb_content b ++ content; lb_exceeded := lb_exceeded b |}.
Definition new_buffer : limitedBuffer := {| lb_content := []; lb_exceeded := false |}.
Definition write_buffers (limit : Z) (stderr : bool) (content : bytes) (b : limitedBuffer * limitedBuffer) :
    error * (limitedBuffer * limitedBuffer) :=
  (None, if stderr then (b.1, buffer_Write limit content b.2) else (buffer_Write limit content b.1, b.2)).

Definition ParseUint16 (s : string) : option Z :=
  if String.eqb s "" || negb (forallb is_digit (to_bytes s)) then None
  else let n := Z.of_N (dec_value 0 s) in if n <? 2 ^ 16 then Some n else None.
(** [net.JoinHostPort]. *)
Definition JoinHostPort (host port : string) : string :=
  if ContainsByte host ":" then "[" +:+ host +:+ "]:" +:+ port else host +:+ ":" +:+ port.

(** * Life *)

(** [resources] of a runtime that is running, by the one network it has. *)
Definition sole_endpoint (info : InspectResponse) : option (option EndpointSettings) :=
  match in_NetworkSettings info with
  | Some settings => match map_to_list (nt_Networks settings) with [(_, endpoint)] => Some endpoint | _ => None end
  | None => None
  end.

Section Life.
Context {W : Type} `{!DockerClient W}.

Definition Validate (ctx : Ctx) (id : string) (request : Request) (secrets : list bytes) : M W error :=
  match validateRuntimeRequest request with
  | Some e => ret (Some e)
  | None =>
      let* inspection := ContainerInspect ctx id in
      match inspection with
      | inr e => ret (Some e)
      | inl info =>
          match in_Config info, in_HostConfig info with
          | Some config, Some host =>
              if negb (String.eqb (in_ID info) id) then ret (Some (ENew "deployment inspection is incomplete"))
              else ret (validate_container info config host request secrets)
          | _, _ => ret (Some (ENew "deployment inspection is incomplete"))
          end
      end
  end.

Definition UploadArchive (ctx : Ctx) (id destination : string) (archive : bytes) : M W error :=
  CopyToContainer ctx id destination archive true.

(** [missingPath]: the runtime is there, so it is the path that is not. *)
Definition missingPath (ctx : Ctx) (id : string) (e : err) : M W bool :=
  if negb (IsNotFound e) then ret false
  else let* inspection := ContainerInspect ctx id in ret (match inspection with inl _ => true | inr _ => false end).
Definition DownloadArchive (ctx : Ctx) (id path : string) : M W ((bytes * error) * FileInfo + err) :=
  let* result := CopyFromContainer ctx id path in
  match result with
  | inr e =>
      let* missing := missingPath ctx id e in
      ret (inr (if missing then EWraps "deployment archive: " (ESentinel ErrNotFound) e else e))
  | inl (content, stat) => ret (inl (content, {| fi_Size := ps_Size stat; fi_Mode := ps_Mode stat |}))
  end.

Definition docker_Start (ctx : Ctx) (id : string) : M W error := ContainerStart ctx id.
Definition Running (ctx : Ctx) (id : string) : M W (bool * error) :=
  let* inspection := ContainerInspect ctx id in
  ret (match inspection with
       | inr e => (false, if IsNotFound e then None else Some e)
       | inl info => (is_running info, None)
       end).

(** [LogsStream], to writers with a state. *)
Definition LogsStream {S} (write : bool -> bytes -> S -> error * S) (ctx : Ctx) (id : string) (s : S) : M W (error * S) :=
  let* logs := ContainerLogs ctx id in
  ret (match logs with
       | inr e => (Some (if IsNotFound e then EWraps "deployment logs: " (ESentinel ErrNotFound) e else e), s)
       | inl (frames, ending, closeErr) =>
           let (copyErr, s) := StdCopy write frames ending s in (errors_Join [copyErr; closeErr], s)
       end).
Definition Logs (ctx : Ctx) (id : string) (limit : Z) : M W (bytes * error) :=
  if limit <=? 0 then ret ([], Some (ENew "deployment log bound must be positive"))
  else
    let* (copyErr, (stdout, stderr)) := LogsStream (write_buffers limit) ctx id (new_buffer, new_buffer) in
    ret (match errors_Join [copyErr; refuse_if lb_exceeded stdout || lb_exceeded stderr
                                       with "deployment logs exceeded their bound"] with
         | Some e => ([], Some e)
         | None => (lb_content stdout ++ lb_content stderr, None)
         end).

Definition Address (ctx : Ctx) (id : string) (port : Z) : M W (string * error) :=
  let refused text : M W (string * error) := ret (""%string, Some (ENew text)) in
  if (port <=? 0) || (65535 <? port) then refused "deployment service port is invalid"
  else
    let* inspection := ContainerInspect ctx id in
    match inspection with
    | inr e => ret (""%string, Some e)
    | inl info =>
        match in_NetworkSettings info with
        | None => refused "deployment service port binding is missing"
        | Some settings =>
            match default [] (nt_Ports settings !! tcp port) with
            | [binding] =>
                if negb (String.eqb (pb_HostIP binding) LOOPBACK)
                then refused "deployment service host port must bind 127.0.0.1"
                else match ParseUint16 (pb_HostPort binding) with
                     | Some value =>
                         if value =? 0 then refused "deployment service host port was not published"
                         else ret (JoinHostPort LOOPBACK (pb_HostPort binding), None)
                     | None => refused "deployment service host port was not published"
                     end
            | bindings =>
                refused ("deployment service requires exactly one host port binding, got " +:+
                         itoa (Z.of_nat (length bindings)))
            end
        end
    end.

(** [TaskAddress]. *)
Definition TaskAddress (ctx : Ctx) (id : string) (port : Z) : M W (string * error) :=
  if (port <? 1) || (65535 <? port) then ret (""%string, Some (ENew "invalid task service port"))
  else
    let* inspection := ContainerInspect ctx id in
    ret (match inspection with
         | inr e => (""%string, Some e)
         | inl info =>
             if negb (String.eqb (in_ID info) id) || negb (is_running info)
             then (""%string, Some (ENew "runtime task attachment is not ready"))
             else match sole_endpoint info with
                  | None => (""%string, Some (ENew "runtime task attachment is not ready"))
                  | Some endpoint =>
                      match endpoint ≫= es_IPAddress with
                      | None => (""%string, Some (ENew "runtime task address is missing"))
                      | Some address => (JoinHostPort address (itoa port), None)
                      end
                  end
         end).

(** [Stop]: the runtime is asked to stop, killed if it has not, and removed; what counts in
    the end is that it is not there any more. The errors on the way are only a warning then. *)
Definition may_run (inspection : InspectResponse + err) : bool :=
  match inspection with
  | inr _ => true
  | inl info => match in_State info with None => true | Some state => st_Running state end
  end.
Definition inspect_failure (text : string) (inspection : InspectResponse + err) : list err :=
  match inspection with
  | inr e => if IsNotFound e then [] else [EWrap text e]
  | inl _ => []
  end.
Definition call_failure (text : string) (e : error) : list err :=
  match not_missing e with Some e => [EWrap text e] | None => [] end.
Definition stop_running (ctx : Ctx) (id : string) : M W (list err) :=
  let* e := ContainerStop ctx id 5 in
  let* inspection := ContainerInspect ctx id in
  let errs := call_failure "stop deployment" e ++ inspect_failure "inspect deployment after stop" inspection in
  if negb (answered_not_found inspection) && may_run inspection then
    let* e := ContainerKill ctx id "KILL" in
    ret (errs ++ call_failure "kill deployment" e)
  else ret errs.
Definition remove_confirmed (ctx : Ctx) (id : string) (errs : list err) : M W error :=
  let* e := ContainerRemove ctx id true true in
  let errs := errs ++ call_failure "remove deployment" e in
  let* inspection := ContainerInspect ctx id in
  ret (match inspection with
       | inl _ => Some (EJoin (errs ++ [ENew "deployment remains after removal"]))
       | inr e => if IsNotFound e then None else Some (EJoin (errs ++ [EWrap "verify deployment removal" e]))
       end).
Definition Stop (ctx : Ctx) (id : string) : M W error :=
  if String.eqb id "" then ret None
  else
    let* inspection := ContainerInspect ctx id in
    if answered_not_found inspection then ret None
    else
      let errs := inspect_failure "inspect deployment before stop" inspection in
      let* more := if may_run inspection then stop_running ctx id else ret [] in
      remove_confirmed ctx id (errs ++ more).

(** * The bridge's view (bridge.go) *)

Definition BridgeBackend : string := "docker".
Definition bridge_labels (d : BridgeTarget) : gmap string string :=
  {[ "aries.managed" := "true"; "aries.kind" := "task-container"; "aries.component" := "sandbox";
     "aries.run" := bt_RunID d; "aries.task" := bt_TaskID d ]}%string.
Definition check_label (labels : gmap string string) (kv : string * string) : error :=
  refuse_if String.eqb kv.2 "" || negb (String.eqb (default "" (labels !! kv.1)) kv.2)
    with ("borrowed sandbox ownership label " +:+ kv.1 +:+ " differs").
Definition ValidateBridgeTarget (ctx : Ctx) (d : BridgeTarget) : M W error :=
  if negb (String.eqb (bt_Backend d) "docker") then ret (Some (ENew "Docker cannot execute another target backend"))
  else
    let* inspection := ContainerInspect ctx (bt_RuntimeID d) in
    ret (match inspection with
         | inr e => Some (EWrap "inspect borrowed sandbox" e)
         | inl info =>
             match in_Config info with
             | None => Some (ENew "borrowed sandbox identity or running state differs")
             | Some config =>
                 if negb (String.eqb (in_ID info) (bt_RuntimeID d)) ||
                    negb (String.eqb (TrimPrefix (in_Name info) "/") (bt_SandboxID d)) || negb (is_running info)
                 then Some (ENew "borrowed sandbox identity or running state differs")
                 else first_error (check_label (cc_Labels config)) (map_to_list (bridge_labels d))
             end
         end).
End Life.
