(* ===== verification/DockerTheorems.v ===== *)
(** What the Docker deployment promises: a stop that succeeds has seen the runtime gone, a
    creation accounts for what it may have allocated, a validation confirms exactly what was
    asked for, and no limit overflows. The calls of the client are traced.

    What the validation of a container confirms ([Validate] of [pkg/deployment/docker]):
    exactly that it is the container that was asked for, with the requested mounts and no
    other, on the task's network, and with no secret where the daemon shows it. The last
    part is the bounds of its limits. *)

From Stdlib Require Import SpecFloat.
From S2P Require Import Prelude Utf8 Trace Paths Net Core GoTime Redaction Deployments Docker.

(** * Traces *)

Inductive docker_event :=
  | DCreate (options : CreateOptions) (answer : string * error)
  | DInspect (ctx : Ctx) (reference : string) (answer : InspectResponse + err)
  | DStart (id : string) (answer : error)
  | DStop (ctx : Ctx) (id : string) (answer : error)
  | DKill (ctx : Ctx) (id : string) (answer : error)
  | DRemove (ctx : Ctx) (id : string) (answer : error).

#[export] Instance traced_docker {W} `{!DockerClient W} : DockerClient (W * list docker_event) := {|
  ContainerCreate ctx options := logged (DCreate options) (ContainerCreate ctx options);
  ContainerInspect ctx reference := logged (DInspect ctx reference) (ContainerInspect ctx reference);
  ContainerStart ctx id := logged (DStart id) (ContainerStart ctx id);
  ContainerStop ctx id timeout := logged (DStop ctx id) (ContainerStop ctx id timeout);
  ContainerKill ctx id signal := logged (DKill ctx id) (ContainerKill ctx id signal);
  ContainerRemove ctx id force volumes := logged (DRemove ctx id) (ContainerRemove ctx id force volumes);
  ContainerLogs ctx id := silent (ContainerLogs ctx id);
  CopyToContainer ctx id path content own := silent (CopyToContainer ctx id path content own);
  CopyFromContainer ctx id path := silent (CopyFromContainer ctx id path)
|}.

(** * Stop *)

(** A call about one runtime, in one context. *)
Definition about (ctx : Ctx) (id : string) (ev : docker_event) : Prop :=
  match ev with
  | DInspect c r _ | DStop c r _ | DKill c r _ | DRemove c r _ => c = ctx /\ r = id
  | DCreate _ _ | DStart _ _ => False
  end.
Definition saw_gone (ev : docker_event) : bool :=
  match ev with DInspect _ _ answer => answered_not_found answer | _ => false end.
Definition saw_it (ev : docker_event) : bool :=
  match ev with DInspect _ _ answer => negb (answered_not_found answer) | _ => false end.
(** A removal or a kill comes only after a request to stop, or after an inspection that
    showed the runtime at rest. *)
Definition at_rest (ev : docker_event) : bool :=
  match ev with DInspect _ _ answer => negb (may_run answer) | DStop _ _ _ => true | _ => false end.
Definition forceful (ev : docker_event) : bool := match ev with DKill _ _ _ | DRemove _ _ _ => true | _ => false end.
Fixpoint gentle_first (rested : bool) (evs : list docker_event) : bool :=
  match evs with
  | [] => true
  | ev :: evs => implb (forceful ev) rested && gentle_first (rested || at_rest ev) evs
  end.

(** The last call settles whether the runtime is gone. *)
Definition removal_ended (e : error) (evs : list docker_event) : Prop :=
  exists pre ev, evs = pre ++ [ev] /\ saw_gone ev = is_nil e /\ saw_it ev = negb (is_nil e).

Section Stop.
Context {W : Type} `{!DockerClient W}.
Abbreviation T := (W * list docker_event)%type.

Lemma remove_confirmed_emits ctx id errs :
  emits (remove_confirmed (W := T) ctx id errs) (fun e evs => exists removed answer,
    evs = [DRemove ctx id removed; DInspect ctx id answer] /\ is_nil e = answered_not_found answer).
Proof.
  unfold remove_confirmed. apply emits_call. intros removed. apply emits_call. intros answer. apply emits_ret.
  do 2 eexists. split; [done|]. destruct answer as [info|e]; simpl; [done|]. by destruct (IsNotFound e).
Qed.
Lemma stop_running_emits ctx id :
  emits (stop_running (W := T) ctx id) (fun _ evs => exists e answer,
    evs = [DStop ctx id e; DInspect ctx id answer] \/
    exists e', evs = [DStop ctx id e; DInspect ctx id answer; DKill ctx id e']).
Proof.
  unfold stop_running. apply emits_call. intros e. apply emits_call. intros answer. cbv zeta.
  destruct (_ && _).
  - apply emits_call. intros e'. apply emits_ret. exists e, answer. right. by eexists.
  - apply emits_ret. exists e, answer. by left.
Qed.
Lemma removal_ends ctx id pre removed answer e :
  is_nil e = answered_not_found answer -> removal_ended e (pre ++ [DRemove ctx id removed; DInspect ctx id answer]).
Proof.
  intros He. exists (pre ++ [DRemove ctx id removed]), (DInspect ctx id answer).
  rewrite <- app_assoc. split; [done|]. simpl. by rewrite He.
Qed.

(** Stopping a runtime concerns that runtime alone, in at most six calls of the client
    with the caller's context. It succeeds exactly when its last call is an inspection that
    did not find the runtime, or when there is no identity to stop; an error means that the
    last inspection found it or failed. A runtime is killed or removed only after it has
    been asked to stop or has been seen at rest. *)
Theorem docker_stop_confirms (ctx : Ctx) (id : string) :
  emits (Stop (W := T) ctx id) (fun e evs =>
    Forall (about ctx id) evs /\ (length evs <= 6)%nat /\ gentle_first false evs = true /\
    if String.eqb id "" then evs = [] /\ e = None else removal_ended e evs).
Proof.
  unfold Stop. destruct (String.eqb id "") eqn:Hid.
  { apply emits_ret. split_and!; [constructor|simpl; lia|done|done|done]. }
  apply emits_call. intros answer. destruct (answered_not_found answer) eqn:Hgone.
  { apply emits_ret. split_and!; [by repeat constructor|simpl; lia|done|].
    exists [], (DInspect ctx id answer). simpl. by rewrite Hgone. }
  cbv zeta. destruct (may_run answer) eqn:Hrun.
  - eapply emits_bind; [apply stop_running_emits|]. intros errs evs1 (e1 & answer1 & Hevs).
    eapply emits_mono; [apply remove_confirmed_emits|]. intros e evs2 (removed & answer2 & -> & He).
    split_and!; [destruct Hevs as [->|[e' ->]]; by repeat constructor|destruct Hevs as [->|[e' ->]]; simpl; lia| |].
    + destruct Hevs as [->|[e' ->]]; simpl; by rewrite !orb_true_r.
    + rewrite app_comm_cons. by apply removal_ends.
  - apply emits_bind_ret. eapply emits_mono; [apply remove_confirmed_emits|]. intros e evs2 (removed & answer2 & -> & He).
    split_and!; [by repeat constructor|simpl; lia|simpl; by rewrite Hrun|].
    by apply (removal_ends ctx id [DInspect ctx id answer]).
Qed.
End Stop.

(** * Create *)

Definition unresolved (e : error) : bool := error_Is e ErrAllocationUnconfirmed.
(** An inspected container is the one that was asked for: its name and all its labels. *)
Definition owned_by (request : Request) (info : InspectResponse) : Prop :=
  in_ID info <> ""%string /\ in_Name info = ("/" +:+ rt_Name request)%string /\ rt_Labels request <> ∅ /\
  exists config, in_Config info = Some config /\
    forall key value, rt_Labels request !! key = Some value -> default ""%string (cc_Labels config !! key) = value.
(** What a creation tells after some calls. *)
Definition allocation_known (request : Request) (r : string * error) (evs : list docker_event) : Prop :=
  match evs with
  | [] => r.1 = ""%string /\ is_Some r.2 /\ unresolved r.2 = false
  | [DCreate options answer] =>
      (exists limits, resources request = inl limits /\ options = create_options request limits) /\
      (r = answer /\ TrimSpace r.1 <> ""%string \/
       TrimSpace answer.1 = ""%string /\ rt_Name request = ""%string /\ r.1 = ""%string /\ unresolved r.2 = true)
  | [DCreate options answer; DInspect _ name found] =>
      (exists limits, resources request = inl limits /\ options = create_options request limits) /\
      TrimSpace answer.1 = ""%string /\ name = rt_Name request /\ is_Some r.2 /\
      ((exists info, found = inl info /\ owned_by request info /\ r.1 = in_ID info) \/
       r.1 = ""%string /\ (answered_not_found found = true \/ unresolved r.2 = true))
  | _ => False
  end.

Lemma labels_match_spec requested actual :
  labels_match requested actual = true <->
  forall key value, requested !! key = Some value -> default ""%string (actual !! key) = value.
Proof.
  unfold labels_match. rewrite forallb_Forall, Forall_map_to_list.
  split; intros H key value Hk; [apply String.eqb_eq|apply String.eqb_eq]; [by apply (H key value)|by apply H].
Qed.

Lemma check_mounts_plain targets mounts : unresolved (check_mounts targets mounts) = false.
Proof. revert targets. induction mounts as [|m mounts IH]; intros targets; simpl; [done|]. repeat case_match; done. Qed.
Lemma validateRuntimeRequest_plain request : unresolved (validateRuntimeRequest request) = false.
Proof.
  unfold validateRuntimeRequest, validatePlacement, seq_error.
  repeat case_match; simplify_eq/=; try done. apply check_mounts_plain.
Qed.
Lemma resources_plain request e : resources request = inr e -> unresolved (Some e) = false.
Proof.
  unfold resources, cpu_limit, memory_limit. intros H.
  repeat (case_match; simplify_eq/=; try done).
Qed.

Section Create.
Context {W : Type} `{!DockerClient W}.
Abbreviation T := (W * list docker_event)%type.

Lemma recover_emits timeout ctx request e :
  emits (recover (W := T) timeout ctx request e) (fun r evs => is_Some r.2 /\
    ((evs = [] /\ rt_Name request = ""%string /\ r.1 = ""%string /\ unresolved r.2 = true) \/
     exists c found, evs = [DInspect c (rt_Name request) found] /\
       ((exists info, found = inl info /\ owned_by request info /\ r.1 = in_ID info) \/
        r.1 = ""%string /\ (answered_not_found found = true \/ unresolved r.2 = true)))).
Proof.
  assert (forall why, unresolved (unconfirmed e why).2 = true) as Hun
    by (intros why; unfold unresolved, unconfirmed; simpl; by rewrite !orb_true_r).
  unfold recover. destruct (String.eqb_spec (rt_Name request) "") as [Hn|Hn].
  { apply emits_ret. split; [by eexists|]. left. by rewrite Hun. }
  apply emits_call. intros [info|lookup].
  - destruct (in_Config info) as [config|] eqn:Hc.
    2: { apply emits_ret. split; [by eexists|]. right. do 2 eexists. split; [done|]. right. by auto. }
    destruct (_ || bool_decide _) eqn:Hbad.
    { apply emits_ret. split; [by eexists|]. right. do 2 eexists. split; [done|]. right. by auto. }
    destruct (labels_match _ _) eqn:Hl; simpl.
    2: { apply emits_ret. split; [by eexists|]. right. do 2 eexists. split; [done|]. right. by auto. }
    apply emits_ret. split; [by eexists|]. right. do 2 eexists. split; [done|]. left. exists info. split; [done|]. split; [|done].
    rewrite !orb_false_iff, negb_false_iff, bool_decide_eq_false in Hbad. destruct Hbad as [[H1%String.eqb_neq H2%String.eqb_eq] H3].
    split_and!; [done|done|done|]. exists config. split; [done|]. by apply labels_match_spec.
  - destruct (IsNotFound lookup) eqn:Hnf; apply emits_ret; (split; [by eexists|]); right; do 2 eexists; (split; [done|]);
      right; (split; [done|]); [by left|right; apply Hun].
Qed.

(** What a creation may have allocated is accounted for. The container is asked for at
    most once, exactly as requested. An identity that is returned is the daemon's answer, or
    that of a container found by the requested name with every requested label. Without an
    identity the creation has failed; then either nothing was asked of the daemon, or an
    inspection by the requested name found nothing, or the error says that the allocation
    is unconfirmed. *)
Theorem docker_create_accounts (timeout : Z) (ctx : Ctx) (request : Request) :
  emits (Create (W := T) timeout ctx request) (fun r evs =>
    allocation_known request r evs /\ (r.2 = None -> TrimSpace r.1 <> ""%string)).
Proof.
  unfold Create. destruct (validateRuntimeRequest request) as [e|] eqn:Hv.
  { apply emits_ret. split; [|done]. split_and!; [done|by eexists|]. rewrite <- Hv. apply validateRuntimeRequest_plain. }
  destruct (resources request) as [limits|e] eqn:Hr.
  2: { apply emits_ret. split; [|done]. split_and!; [done|by eexists|]. by eapply resources_plain. }
  destruct (_ || _); [by apply emits_ret|]. apply emits_call. intros [id e].
  destruct (String.eqb_spec (TrimSpace id) "") as [Hb|Hb]; simpl.
  - eapply emits_mono; [apply recover_emits|]. intros r evs [[e' He] H]. rewrite He in *. split; [|done].
    destruct H as [(-> & H1 & H2 & H3)|(c & found & -> & H)]; simpl; (split; [by exists limits|]); [right; by auto|].
    by split_and!.
  - apply emits_ret. simpl. split; [|done]. split; [by exists limits|]. by left.
Qed.
End Create.

(** * Mounts *)

Lemma requested_mounts_app mounts declared :
  requested_mounts (mounts ++ [declared]) = <[mt_Target declared := declared]> (requested_mounts mounts).
Proof. unfold requested_mounts. by rewrite foldl_app. Qed.
Lemma requested_mounts_spec mounts : NoDup (map mt_Target mounts) ->
  (forall target declared, requested_mounts mounts !! target = Some declared <-> declared ∈ mounts /\ mt_Target declared = target) /\
  size (requested_mounts mounts) = length mounts.
Proof.
  induction mounts as [|d mounts IH] using rev_ind; intros Hnd.
  { split; [|done]. intros target declared. unfold requested_mounts. simpl. rewrite lookup_empty. set_solver. }
  rewrite map_app in Hnd. apply NoDup_app in Hnd as (Hnd & Hfresh & _). destruct (IH Hnd) as [Hl Hs].
  assert (requested_mounts mounts !! mt_Target d = None) as Hnone.
  { destruct (requested_mounts mounts !! mt_Target d) as [d'|] eqn:E; [|done]. apply Hl in E as [Hin Ht].
    exfalso. apply (Hfresh (mt_Target d)); [|set_solver]. rewrite <- Ht. by apply list_elem_of_fmap_2. }
  rewrite requested_mounts_app. split.
  - intros target declared. rewrite lookup_insert_Some, elem_of_app, list_elem_of_singleton, Hl. split.
    + intros [[<- <-]|[Hne [Hin Ht]]]; auto.
    + intros [[Hin| ->] <-]; [|by left]. right. split; [|done]. intros Heq.
      assert (requested_mounts mounts !! mt_Target declared = Some declared) as H by (by apply Hl). by rewrite <- Heq, Hnone in H.
  - rewrite map_size_insert_None by done. rewrite Hs, length_app. simpl. lia.
Qed.

Section Mounts.
Variable mounts : list Mount.
Hypothesis distinct : NoDup (map mt_Target mounts).
Abbreviation requested := (requested_mounts mounts).

Lemma requested_lookup target declared :
  requested !! target = Some declared <-> declared ∈ mounts /\ mt_Target declared = target.
Proof. by apply requested_mounts_spec. Qed.
Lemma requested_none target : requested !! target = None <-> target ∉ map mt_Target mounts.
Proof.
  rewrite eq_None_not_Some. split; intros H Hin; apply H.
  - apply list_elem_of_fmap in Hin as (d & -> & Hd). exists d. by apply requested_lookup.
  - destruct Hin as [d Hd]. apply requested_lookup in Hd as [Hd <-]. by apply list_elem_of_fmap_2.
Qed.

(** The configured mounts. *)
Lemma check_configured_spec configured l :
  check_configured requested configured l = None <->
  Forall (fun a => a ∈ map host_mount mounts) l /\ NoDup (map hm_Target l) /\ (forall a, a ∈ l -> hm_Target a ∉ configured).
Proof.
  revert configured. induction l as [|a l IH]; intros configured; simpl.
  { split; [|done]. intros _. split_and!; [constructor|constructor|set_solver]. }
  rewrite Forall_cons, NoDup_cons. destruct (requested !! hm_Target a) as [d|] eqn:Hd.
  - apply requested_lookup in Hd as [Hd Ht]. destruct (_ || _) eqn:Hbad.
    + split; [done|]. intros ([Ha _] & _ & Hc). exfalso. rewrite !orb_true_iff in Hbad.
      apply list_elem_of_fmap in Ha as (d' & -> & Hd'). simpl in Ht.
      assert (d' = d) as ->.
      { assert (requested !! mt_Target d = Some d) as H1 by (by apply requested_lookup).
        assert (requested !! mt_Target d = Some d') as H2 by (by apply requested_lookup). congruence. }
      destruct Hbad as [[[Hb|Hb]|Hb]|Hb].
      * apply bool_decide_eq_true in Hb. by apply (Hc (host_mount d)); [left|].
      * done.
      * simpl in Hb. by rewrite String.eqb_refl in Hb.
      * simpl in Hb. by rewrite eqb_reflx in Hb.
    + rewrite !orb_false_iff, !negb_false_iff, bool_decide_eq_false, !String.eqb_eq in Hbad.
      destruct Hbad as [[[Hn Hty] Hsrc] Hro%Bool.eqb_prop].
      assert (a = host_mount d) as Ha by (destruct a; simpl in *; by subst).
      rewrite IH. split.
      * intros (H1 & H2 & H3). split_and!; [|done| |done|].
        -- rewrite Ha. by apply list_elem_of_fmap_2.
        -- intros (b & Hb & Hin)%list_elem_of_fmap. specialize (H3 b Hin). set_solver.
        -- intros b [->|Hin]%elem_of_cons; [done|]. specialize (H3 b Hin). set_solver.
      * intros ([_ H1] & [Hf H2] & H3). split_and!; [done|done|]. intros b Hin. apply not_elem_of_union. split.
        -- rewrite elem_of_singleton. intros Heq. apply Hf. rewrite <- Heq. by apply list_elem_of_fmap_2.
        -- apply H3. by right.
  - split; [done|]. intros ([Ha _] & _). exfalso. apply requested_none in Hd. apply Hd.
    apply list_elem_of_fmap in Ha as (d' & -> & Hd'). by apply (list_elem_of_fmap_2 mt_Target).
Qed.
Lemma configured_exactly l :
  (check_configured requested ∅ l = None /\ length l = length mounts) <-> l ≡ₚ map host_mount mounts.
Proof.
  rewrite check_configured_spec. split.
  - intros [(Hin & Hnd & _) Hlen]. apply submseteq_length_Permutation; [|rewrite length_map; lia].
    apply NoDup_submseteq; [by apply NoDup_fmap_1 in Hnd|]. by rewrite <- Forall_forall.
  - intros Hp. split_and!.
    + apply Forall_forall. intros a Ha. by rewrite <- Hp.
    + rewrite (fmap_Permutation hm_Target _ _ Hp). change (NoDup (hm_Target <$> (host_mount <$> mounts))).
      rewrite <- list_fmap_compose. exact distinct.
    + set_solver.
    + by rewrite Hp, length_map.
Qed.
End Mounts.

(** The mounts that are there: the requested ones, by what the daemon shows of them, and
    volumes that the request permits. *)
Definition seen_mount (a : MountPoint) : string * string * string * bool := (mp_Type a, mp_Source a, mp_Destination a, mp_RW a).
Definition wanted_mount (d : Mount) : string * string * string * bool := (TypeBind, mt_Source d, mt_Target d, negb (mt_ReadOnly d)).
Definition permitted_volume (request : Request) (a : MountPoint) : Prop :=
  mp_Type a = TypeVolume /\ mp_VolumeName a <> ""%string /\
  (rt_AllowImageVolumes request = true \/ mp_Destination a ∈ rt_ImageVolumes request).
Definition at_target (mounts : list Mount) (a : MountPoint) : Prop := mp_Destination a ∈ map mt_Target mounts.
#[export] Instance at_target_dec mounts a : Decision (at_target mounts a).
Proof. unfold at_target. apply _. Defined.

Lemma one_of_spec value values : one_of value values = true <-> value ∈ values.
Proof.
  unfold one_of. rewrite existsb_exists. split.
  - intros (x & Hin & ->%String.eqb_eq). by apply list_elem_of_In.
  - intros Hin. exists value. split; [by apply list_elem_of_In|apply String.eqb_refl].
Qed.

Section Present.
Variable request : Request.
Hypothesis distinct : NoDup (map mt_Target (rt_Mounts request)).
Abbreviation mounts := (rt_Mounts request).
Abbreviation requested := (requested_mounts mounts).

Lemma check_present_spec present l :
  check_present request requested present l = None <->
  Forall (fun a => at_target mounts a -> seen_mount a ∈ map wanted_mount mounts) l /\
  Forall (fun a => ~ at_target mounts a -> permitted_volume request a) l /\
  NoDup (map mp_Destination (filter (at_target mounts) l)) /\
  (forall a, a ∈ l -> at_target mounts a -> mp_Destination a ∉ present) /\
  (size present + length (filter (at_target mounts) l))%nat = length mounts.
Proof.
  destruct (requested_mounts_spec mounts distinct) as [_ Hsize].
  revert present. induction l as [|a l IH]; intros present.
  { simpl. rewrite refuse_if_nil, negb_false_iff, Nat.eqb_eq, Hsize. split.
    - intros H. split_and!; try constructor; [by intros a []%not_elem_of_nil|lia].
    - intros (_ & _ & _ & _ & H). lia. }
  cbn [check_present]. rewrite !Forall_cons, filter_cons. destruct (requested !! mp_Destination a) as [d|] eqn:Hd.
  - apply requested_lookup in Hd as [Hd Ht]; [|done].
    assert (at_target mounts a) as Hat by (unfold at_target; rewrite <- Ht; by apply (list_elem_of_fmap_2 mt_Target)).
    rewrite decide_True by done. cbn [map length]. rewrite NoDup_cons. destruct (_ || _) eqn:Hbad.
    + split; [done|]. intros ([Ha _] & _ & _ & Hp & _). exfalso. specialize (Ha Hat).
      apply list_elem_of_fmap in Ha as (d' & Heq & Hd'). injection Heq as E1 E2 E3 E4.
      assert (d' = d) as ->.
      { assert (requested !! mt_Target d = Some d) as H1 by (by apply requested_lookup).
        assert (requested !! mt_Target d = Some d') as H2 by (apply requested_lookup; [done|]; split; [done|congruence]). congruence. }
      rewrite !orb_true_iff, bool_decide_eq_true in Hbad. destruct Hbad as [[[Hb|Hb]|Hb]|Hb].
      * apply (Hp a); [by left|done|done].
      * by rewrite E1, String.eqb_refl in Hb.
      * by rewrite E2, String.eqb_refl in Hb.
      * rewrite E4 in Hb. by destruct (mt_ReadOnly d).
    + rewrite !orb_false_iff, !negb_false_iff, bool_decide_eq_false, !String.eqb_eq in Hbad.
      destruct Hbad as [[[Hn Hty] Hsrc] Hro].
      assert (seen_mount a ∈ map wanted_mount mounts) as Ha.
      { apply list_elem_of_fmap. exists d. split; [|done]. unfold seen_mount, wanted_mount. rewrite Hty, Hsrc, Ht.
        by destruct (mp_RW a), (mt_ReadOnly d). }
      rewrite IH. rewrite size_union, size_singleton by set_solver. split.
      * intros (H1 & H2 & H3 & H4 & H5). split_and!; try done; [| |lia].
        -- intros (b & Hb & Hin)%list_elem_of_fmap. apply list_elem_of_filter in Hin as [Hbt Hin]. specialize (H4 b Hin Hbt). set_solver.
        -- intros b [->|Hin]%elem_of_cons Hbt; [done|]. specialize (H4 b Hin Hbt). set_solver.
      * intros ([_ H1] & [_ H2] & [Hf H3] & H4 & H5). split_and!; [done|done|done| |lia]. intros b Hin Hbt. apply not_elem_of_union. split.
        -- rewrite elem_of_singleton. intros Heq. apply Hf. rewrite <- Heq. apply (list_elem_of_fmap_2 mp_Destination).
           by apply list_elem_of_filter.
        -- apply H4; [by right|done].
  - assert (~ at_target mounts a) as Hat by (by apply requested_none in Hd). rewrite decide_False by done.
    destruct (_ || _) eqn:Hbad.
    + split; [done|]. intros (_ & [Ha _] & _). exfalso. destruct (Ha Hat) as (H1 & H2 & H3).
      rewrite !orb_true_iff, andb_true_iff, !negb_true_iff, String.eqb_neq, String.eqb_eq, <- not_true_iff_false, <- not_true_iff_false, one_of_spec in Hbad.
      tauto.
    + rewrite IH.
      assert (permitted_volume request a) as Hv.
      { rewrite !orb_false_iff, andb_false_iff, !negb_false_iff, String.eqb_neq, String.eqb_eq, one_of_spec in Hbad. unfold permitted_volume. tauto. }
      split.
      * intros (H1 & H2 & H3 & H4 & H5). split_and!; try done. intros b [->|Hin]%elem_of_cons Hbt; [done|by apply H4].
      * intros ([_ H1] & [_ H2] & H3 & H4 & H5). split_and!; try done. intros b Hin. apply H4. by right.
Qed.
Lemma present_exactly l :
  check_present request requested ∅ l = None <->
  map seen_mount (filter (at_target mounts) l) ≡ₚ map wanted_mount mounts /\
  Forall (fun a => ~ at_target mounts a -> permitted_volume request a) l.
Proof.
  rewrite check_present_spec, size_empty. split.
  - intros (H1 & H2 & H3 & _ & H5). split; [|done]. apply submseteq_length_Permutation; [|rewrite !length_map; lia].
    apply NoDup_submseteq.
    + apply (NoDup_fmap_1 (fun v => v.1.2)). change (NoDup ((fun v => v.1.2) <$> (seen_mount <$> filter (at_target mounts) l))).
      rewrite <- list_fmap_compose. exact H3.
    + intros v (a & -> & Ha)%list_elem_of_fmap. apply list_elem_of_filter in Ha as [Hat Ha]. rewrite Forall_forall in H1. by apply H1.
  - intros [Hp H2]. split_and!; [|done| |set_solver|].
    + apply Forall_forall. intros a Ha Hat. rewrite <- Hp. apply (list_elem_of_fmap_2 seen_mount). by apply list_elem_of_filter.
    + pose proof (fmap_Permutation (fun v => v.1.2) _ _ Hp) as Hd.
      change ((fun v => v.1.2) <$> (seen_mount <$> filter (at_target mounts) l) ≡ₚ (fun v => v.1.2) <$> (wanted_mount <$> mounts)) in Hd.
      rewrite <- !list_fmap_compose in Hd. change (map mp_Destination (filter (at_target mounts) l) ≡ₚ map mt_Target mounts) in Hd.
      by rewrite Hd.
    + apply Permutation_length in Hp. rewrite !length_map in Hp. lia.
Qed.
End Present.

(** * The container that was asked for *)

Record confirmed (info : InspectResponse) (config : ContainerConfig) (host : HostConfig) (request : Request)
    (secrets : list bytes) : Prop := {
  cf_name : rt_Name request <> ""%string -> in_Name info = ("/" +:+ rt_Name request)%string;
  cf_workdir : rt_Workdir request <> ""%string -> cc_WorkingDir config = rt_Workdir request;
  cf_privileges : rt_NoNewPrivileges request = true -> exists option, option ∈ ho_SecurityOpt host /\
    option ∈ ["no-new-privileges"; "no-new-privileges=true"; "no-new-privileges:true"]%string;
  cf_init : rt_Init request = true -> ho_Init host = Some true;
  cf_image : cc_Image config = rt_Image request;
  cf_args : cc_Cmd config = rt_Args request;
  cf_entrypoint : forall entrypoint, rt_Entrypoint request = Some entrypoint -> default [] (cc_Entrypoint config) = entrypoint;
  cf_labels : forall key value, rt_Labels request !! key = Some value -> default ""%string (cc_Labels config !! key) = value;
  cf_secrets : forall value secret,
    value ∈ cc_Env config \/ value ∈ cc_Cmd config \/ value ∈ default [] (cc_Entrypoint config) \/
      (exists key, cc_Labels config !! key = Some value) ->
    secret ∈ secrets -> secret <> [] -> ~ occurs secret (to_bytes value);
  cf_attached : rt_NetworkAliases request <> [] -> is_running info = true ->
    attached info (rp_AttachmentID (rt_Placement request)) = true;
  cf_network : ho_NetworkMode host = rp_AttachmentID (rt_Placement request);
  cf_binds : ho_Binds host = [];
  cf_mounts : ho_Mounts host ≡ₚ map host_mount (rt_Mounts request);
  cf_present : map seen_mount (filter (at_target (rt_Mounts request)) (in_Mounts info)) ≡ₚ map wanted_mount (rt_Mounts request);
  cf_volumes : Forall (fun a => ~ at_target (rt_Mounts request) a -> permitted_volume request a) (in_Mounts info)
}.

Lemma check_mounts_distinct targets mounts : check_mounts targets mounts = None ->
  NoDup (map mt_Target mounts) /\ (forall d, d ∈ mounts -> mt_Target d ∉ targets).
Proof.
  revert targets. induction mounts as [|d mounts IH]; intros targets; simpl; [split; [constructor|set_solver]|].
  destruct (_ || _); [done|]. case_bool_decide as Hn; [done|]. intros [H1 H2]%IH. split.
  - apply NoDup_cons. split; [|done]. intros (d' & Hd & Hin)%list_elem_of_fmap. specialize (H2 d' Hin). set_solver.
  - intros d' [->|Hin]%elem_of_cons; [done|]. specialize (H2 d' Hin). set_solver.
Qed.
Lemma request_distinct request : validateRuntimeRequest request = None -> NoDup (map mt_Target (rt_Mounts request)).
Proof. unfold validateRuntimeRequest. rewrite !seq_error_nil. intros (_ & _ & H). by apply check_mounts_distinct in H as [? _]. Qed.

Lemma validateMounts_spec info host request : NoDup (map mt_Target (rt_Mounts request)) ->
  validateMounts info host request = None <->
  ho_Binds host = [] /\ ho_Mounts host ≡ₚ map host_mount (rt_Mounts request) /\
  map seen_mount (filter (at_target (rt_Mounts request)) (in_Mounts info)) ≡ₚ map wanted_mount (rt_Mounts request) /\
  Forall (fun a => ~ at_target (rt_Mounts request) a -> permitted_volume request a) (in_Mounts info).
Proof.
  intros Hnd. unfold validateMounts. cbv zeta.
  rewrite !seq_error_nil, refuse_if_nil, orb_false_iff, !negb_false_iff, bool_decide_eq_true, Nat.eqb_eq, present_exactly by done.
  pose proof (configured_exactly (rt_Mounts request) Hnd (ho_Mounts host)). tauto.
Qed.
Lemma no_secret_spec config secrets :
  existsb (holds_secret secrets) (metadata config) = false <->
  forall value secret,
    value ∈ cc_Env config \/ value ∈ cc_Cmd config \/ value ∈ default [] (cc_Entrypoint config) \/
      (exists key, cc_Labels config !! key = Some value) ->
    secret ∈ secrets -> secret <> [] -> ~ occurs secret (to_bytes value).
Proof.
  assert (forall value, value ∈ metadata config <->
    value ∈ cc_Env config \/ value ∈ cc_Cmd config \/ value ∈ default [] (cc_Entrypoint config) \/
      (exists key, cc_Labels config !! key = Some value)) as Hm.
  { intros value. unfold metadata. rewrite !elem_of_app.
    assert (value ∈ map snd (map_to_list (cc_Labels config)) <-> exists key, cc_Labels config !! key = Some value) as ->; [|tauto].
    split.
    - intros ([key v] & -> & H%elem_of_map_to_list)%list_elem_of_fmap. by exists key.
    - intros [key H%elem_of_map_to_list]. apply list_elem_of_fmap. by exists (key, value). }
  rewrite <- not_true_iff_false, existsb_exists. split.
  - intros H value secret Hv%Hm Hs Hne Ho. apply H. exists value. split; [by apply list_elem_of_In|].
    unfold holds_secret. rewrite existsb_exists. exists secret. split; [by apply list_elem_of_In|].
    apply andb_true_iff. split; [by apply negb_true_iff, bool_decide_eq_false|by apply Contains_spec].
  - intros H (value & Hv%list_elem_of_In%Hm & Hh). unfold holds_secret in Hh. rewrite existsb_exists in Hh.
    destruct Hh as (secret & Hs%list_elem_of_In & Hh). apply andb_true_iff in Hh as [Hne Ho%Contains_spec].
    apply negb_true_iff, bool_decide_eq_false in Hne. by apply (H value secret).
Qed.
Lemma noNewPrivileges_spec options : noNewPrivilegesEnabled options = true <-> exists option, option ∈ options /\
  option ∈ ["no-new-privileges"; "no-new-privileges=true"; "no-new-privileges:true"]%string.
Proof.
  unfold noNewPrivilegesEnabled. rewrite existsb_exists. split; intros (o & H1 & H2); exists o;
    (split; [by apply list_elem_of_In|by apply one_of_spec]).
Qed.
Lemma guard_spec (a b : bool) : a && negb b = false <-> (a = true -> b = true).
Proof. destruct a, b; naive_solver. Qed.
Lemma named_spec s (P : bool) : negb (String.eqb s "") && negb P = false <-> (s <> ""%string -> P = true).
Proof. rewrite guard_spec, negb_true_iff, String.eqb_neq. done. Qed.

Lemma validate_container_spec info config host request secrets : NoDup (map mt_Target (rt_Mounts request)) ->
  validate_container info config host request secrets = None <-> confirmed info config host request secrets.
Proof.
  intros Hnd. unfold validate_container. rewrite !seq_error_nil, !refuse_if_nil, validateMounts_spec, no_secret_spec by done.
  rewrite !named_spec, !guard_spec, !String.eqb_eq, noNewPrivileges_spec, !orb_false_iff, !negb_false_iff, !bool_decide_eq_true,
    !String.eqb_eq, labels_match_spec.
  assert (default false (ho_Init host) = true <-> ho_Init host = Some true) as -> by (destruct (ho_Init host) as [[]|]; naive_solver).
  assert (match rt_Entrypoint request with
          | Some entrypoint => negb (bool_decide (default [] (cc_Entrypoint config) = entrypoint))
          | None => false end = false <->
          forall entrypoint, rt_Entrypoint request = Some entrypoint -> default [] (cc_Entrypoint config) = entrypoint) as ->.
  { destruct (rt_Entrypoint request) as [ep|]; [|naive_solver]. rewrite negb_false_iff, bool_decide_eq_true. naive_solver. }
  assert (negb (bool_decide (rt_NetworkAliases request = [])) && is_running info = true <->
          rt_NetworkAliases request <> [] /\ is_running info = true) as ->
    by (rewrite andb_true_iff, negb_true_iff, bool_decide_eq_false; done).
  split.
  - intros (H1 & H2 & H3 & H4 & [[H5 H6] H7] & H8 & H9 & H10 & H11 & H12 & H13 & H14 & H15). by split; auto.
  - intros []. split_and!; auto. intros []. auto.
Qed.

Section Validate.
Context {W : Type} `{!DockerClient W}.

(** C7. A validation succeeds exactly for the container that was asked for: its identity,
    name, labels, image, command, working directory and hardening are the requested ones;
    its configured mounts are the requested mounts up to their order, what is mounted at
    their targets agrees with them, and every other mount is a volume that the request
    permits; its network mode is the task's network, to which it is attached if it runs under
    aliases (further networks that it may have joined are not looked at); and no secret
    occurs in its environment, command, entrypoint or label values. *)
Theorem docker_validate_confirms (ctx : Ctx) (id : string) (request : Request) (secrets : list bytes) (w : W) :
  (Validate ctx id request secrets w).1 = None <->
  validateRuntimeRequest request = None /\
  exists info config host, (ContainerInspect ctx id w).1 = inl info /\ in_ID info = id /\
    in_Config info = Some config /\ in_HostConfig info = Some host /\ confirmed info config host request secrets.
Proof.
  unfold Validate. destruct (validateRuntimeRequest request) as [e|] eqn:Hv; [by split; [|intros []]|].
  apply request_distinct in Hv. unfold bind. destruct (ContainerInspect ctx id w) as [[info|e] w']; simpl.
  2: { split; [done|]. by intros (_ & ? & ? & ? & ? & _). }
  destruct (in_Config info) as [config|] eqn:Hc, (in_HostConfig info) as [host|] eqn:Hh; simpl.
  2-4: split; [done|]; intros (_ & ? & ? & ? & ? & _ & ? & ? & _); congruence.
  destruct (String.eqb_spec (in_ID info) id) as [Hid|Hid]; simpl.
  - rewrite validate_container_spec by done. split; [intros H; split; [done|]; by exists info, config, host|].
    intros (_ & ? & ? & ? & [= <-] & _ & H1 & H2 & H). by simplify_eq.
  - split; [done|]. intros (_ & ? & ? & ? & [= <-] & ? & _). done.
Qed.
End Validate.

(** * Limits *)

Lemma cpu_limit_bounds cpu nano : cpu_limit cpu = inl nano -> 0 <= nano < 2 ^ 63.
Proof.
  unfold cpu_limit. cbv zeta. destruct (_ || f64_leb (f64_of_Z (2 ^ 63)) _) eqn:Hbad; [done|]. intros H. apply inl_inj in H as <-.
  rewrite !orb_false_iff in Hbad. destruct Hbad as [[[Hpos _] _] Hbig].
  destruct (f64_mul cpu (f64_of_Z 1000000000)) as [s|s| |s m e] eqn:Hm; try (split; [by compute|by compute]).
  apply f64_mul_finite in Hm as [Hmant (s1 & m1 & e1 & s2 & m2 & e2 & -> & H2 & Hs)].
  assert (s = false) as ->.
  { vm_compute in H2. injection H2 as <- <- <-. destruct s1; [done|]. by rewrite Hs. }
  split; [apply trunc_nonneg|by apply trunc_below].
Qed.

(** The limits that a request gives fit in their 64 bits. A memory bound is exact, and an
    absent bound is no limit. *)
Theorem docker_limits_bounded (request : Request) (limits : Resources) : resources request = inl limits ->
  0 <= rs_NanoCPUs limits < 2 ^ 63 /\
  match rt_MemoryMB request with
  | Some memory => 0 < memory /\ rs_Memory limits = memory * 2 ^ 20 /\ rs_Memory limits < 2 ^ 63
  | None => rs_Memory limits = 0
  end /\
  (rt_CPU request = None -> rs_NanoCPUs limits = 0) /\
  rs_DeviceRequests limits =
    if rt_GPUs request =? 0 then [] else [{| dv_Driver := "nvidia"; dv_Count := rt_GPUs request; dv_Capabilities := [["gpu"%string]] |}].
Proof.
  unfold resources. destruct (match rt_CPU request with Some _ => _ | None => _ end) as [nano|e] eqn:Hn; [|done].
  destruct (match rt_MemoryMB request with Some _ => _ | None => _ end) as [memory|e] eqn:Hm; [|done].
  destruct (_ || _) eqn:Hneg; [done|]. intros [= <-]. simpl. rewrite orb_false_iff, !Z.ltb_ge in Hneg. split_and!.
  - destruct (rt_CPU request) as [cpu|]; [apply cpu_limit_bounds in Hn; lia|]. injection Hn as <-. lia.
  - destruct (rt_CPU request) as [cpu|]; [apply cpu_limit_bounds in Hn; lia|]. injection Hn as <-. lia.
  - destruct (rt_MemoryMB request) as [mb|]; [|congruence]. unfold memory_limit in Hm.
    destruct (_ || _) eqn:Hb; [done|]. injection Hm as <-. rewrite orb_false_iff, Z.leb_gt, Z.ltb_ge in Hb.
    change max_memoryMB with (2 ^ 43 - 1) in Hb. rewrite Z.shiftl_mul_pow2 by lia. lia.
  - intros H. rewrite H in Hn. congruence.
  - destruct (Z.ltb_spec 0 (rt_GPUs request)), (Z.eqb_spec (rt_GPUs request) 0); try done; lia.
Qed.
(** A positive CPU bound below a billionth becomes the value that stands for no limit. *)
Example tiny_cpu_unlimited : cpu_limit (f64_div (f64_of_Z 1) (f64_of_Z 2000000000)) = inl 0.
Proof. vm_compute. reflexivity. Qed.
Example half_cpu : cpu_limit (f64_div (f64_of_Z 1) (f64_of_Z 2)) = inl 500000000.
Proof. vm_compute. reflexivity. Qed.
