(* ===== verification/Credentials.v ===== *)
(** The credentials of one task occurrence ([pkg/harness], credentials.go). The values
    are byte buffers: [Set] copies its argument and zeroes what it replaces, a loaded
    source is zeroed once it is copied, and a snapshot owns buffers of its own, so that
    the owner can be cleared while a run still reads the snapshot. The buffers are
    therefore modelled by their addresses in a heap. *)

From S2P Require Import Prelude Core Redaction.

(** * State *)

Record Credentials := {
  cd_label : string;
  cd_values : gmap string nat;
  cd_order : list string;
  cd_mcp : option (gmap string nat)
}.
Definition NewCredentials (label : string) : Credentials :=
  {| cd_label := label; cd_values := ∅; cd_order := []; cd_mcp := None |}.

(** [EnvironmentAPIKeyLookup], over the environment [getenv]. *)
Definition EnvironmentAPIKeyLookup (getenv : string -> option string) : KeyLookup := fun name h =>
  match getenv name with
  | None => (None, h)
  | Some value => let (address, h) := alloc (to_bytes value) h in (Some address, h)
  end.

(** * Operations *)

(** [Get]; a name without a value gives Go's nil. *)
Definition Get (c : Credentials) (h : Heap) (name : string) : bytes :=
  match cd_values c !! name with Some address => contents h address | None => [] end.

(** [Set]. *)
Definition credentials_Set (name : string) (value : bytes) (c : Credentials) (h : Heap) : Credentials * Heap :=
  let (copied, h) := alloc value h in
  let values := <[name := copied]> (cd_values c) in
  match cd_values c !! name with
  | Some old =>
      ({| cd_label := cd_label c; cd_values := values; cd_order := cd_order c; cd_mcp := cd_mcp c |},
       clear_buffer old h)
  | None =>
      ({| cd_label := cd_label c; cd_values := values; cd_order := cd_order c ++ [name]; cd_mcp := cd_mcp c |}, h)
  end.

(** [Load]: whether there is a source, and what is wrong with it; the source is zeroed
    in any case. *)
Definition maxKeyLength : Z := 16 * 2 ^ 10.
Definition check_key (label : string) (source : bytes) : error :=
  (refuse_if (Z.of_nat (length source) =? 0) || (maxKeyLength <? Z.of_nat (length source))
     with label +:+ " API key is empty or exceeds its bound") >>?
  (refuse_if existsb (fun b => mem b [NUL; CR; NL]) source
     with label +:+ " API key contains NUL or a line break").
Definition Load (lookup : KeyLookup) (name sourceEnv : string) (c : Credentials) (h : Heap) :
    bool * error * Credentials * Heap :=
  match lookup sourceEnv h with
  | (None, h) => (false, None, c, h)
  | (Some source, h) =>
      match check_key (cd_label c) (contents h source) with
      | Some e => (true, Some e, c, clear_buffer source h)
      | None =>
          let (c, h) := credentials_Set name (contents h source) c h in
          (true, None, c, clear_buffer source h)
      end
  end.

(** [LoadMCP]. *)
Definition mcp_name (hostVar : string) : string := "mcp:" +:+ hostVar.
Definition mcp_text (label : string) (srv : MCPServerConfig) (hostVar key : string) : string :=
  label +:+ " MCP server " +:+ quote (mp_Name srv) +:+ " secret environment variable " +:+ quote hostVar +:+
  " (" +:+ quote key +:+ ")".
Definition set_cd_mcp (mcp : option (gmap string nat)) (c : Credentials) : Credentials :=
  {| cd_label := cd_label c; cd_values := cd_values c; cd_order := cd_order c; cd_mcp := mcp |}.
Definition load_mcp_key (lookup : KeyLookup) (configuration : bytes) (srv : MCPServerConfig) (key : string)
    (c : Credentials) (h : Heap) : error * Credentials * Heap :=
  let hostVar := default "" (mp_SecretEnv srv !! key) in
  let mcp := default ∅ (cd_mcp c) in
  if bool_decide (is_Some (mcp !! hostVar)) then (None, c, h)
  else
    match Load lookup (mcp_name hostVar) hostVar c h with
    | (_, Some e, c, h) => (Some (EWrap (mcp_text (cd_label c) srv hostVar key) e), c, h)
    | (false, None, c, h) => (Some (ENew (mcp_text (cd_label c) srv hostVar key +:+ " is not set")), c, h)
    | (true, None, c, h) =>
        if Contains configuration (Get c h (mcp_name hostVar))
        then (Some (ENew ("rendered " +:+ cd_label c +:+ " config contains secret for MCP server " +:+
                          quote (mp_Name srv) +:+ " (" +:+ quote key +:+ ")")), c, h)
        else
          (None, set_cd_mcp (Some (match cd_values c !! mcp_name hostVar with
                                   | Some address => <[hostVar := address]> mcp
                                   | None => mcp
                                   end)) c, h)
    end.
Fixpoint load_mcp_keys (lookup : KeyLookup) (configuration : bytes) (keys : list (MCPServerConfig * string))
    (c : Credentials) (h : Heap) : error * Credentials * Heap :=
  match keys with
  | [] => (None, c, h)
  | (srv, key) :: keys =>
      match load_mcp_key lookup configuration srv key c h with
      | (Some e, c, h) => (Some e, c, h)
      | (None, c, h) => load_mcp_keys lookup configuration keys c h
      end
  end.
Definition secret_keys (servers : list MCPServerConfig) : list (MCPServerConfig * string) :=
  flat_map (fun srv => map (pair srv) (sorted_keys (mp_SecretEnv srv))) servers.
Definition LoadMCP (lookup : KeyLookup) (servers : list MCPServerConfig) (configuration : bytes)
    (c : Credentials) (h : Heap) : error * Credentials * Heap :=
  load_mcp_keys lookup configuration (secret_keys servers) (set_cd_mcp (Some (default ∅ (cd_mcp c))) c) h.

(** [AddRedactions]; the buffer of each part is zeroed once it is copied. *)
Fixpoint add_redactions (parts : list string) (c : Credentials) (h : Heap) : Credentials * Heap :=
  match parts with
  | [] => (c, h)
  | part :: parts =>
      let (buffer, h) := alloc (to_bytes part) h in
      let (c, h) := credentials_Set ("redact:" +:+ itoa (Z.of_nat (length (cd_order c)))) (contents h buffer) c h in
      add_redactions parts c (clear_buffer buffer h)
  end.
Definition AddRedactions (json_Unmarshal : string -> option json) (lookup : KeyLookup) (names : list string)
    (c : Credentials) (h : Heap) : Credentials * Heap :=
  let (parts, h) := LookupSecretParts json_Unmarshal (Some lookup) names h in add_redactions parts c h.

(** [Snapshot]. *)
Fixpoint copy_values (source : Credentials) (names : list string) (c : Credentials) (h : Heap) : Credentials * Heap :=
  match names with
  | [] => (c, h)
  | name :: names =>
      let (c, h) := credentials_Set name (Get source h name) c h in copy_values source names c h
  end.
Definition Snapshot (c : Credentials) (h : Heap) : Credentials * Heap :=
  let (copy, h) := copy_values c (cd_order c) (NewCredentials (cd_label c)) h in
  (match cd_mcp c with
   | None => copy
   | Some mcp => set_cd_mcp (Some (map_imap (fun hostVar _ => cd_values copy !! mcp_name hostVar) mcp)) copy
   end, h).

(** [Clear]. *)
Definition clear_all (addresses : list nat) (h : Heap) : Heap := foldr clear_buffer h addresses.
Definition Clear (c : Credentials) (h : Heap) : Credentials * Heap :=
  (NewCredentials (cd_label c), clear_all (map snd (map_to_list (cd_values c))) h).

(** [Secrets], [MCPFiles], [Redact] and [RedactErr]. *)
Definition Secrets (c : Credentials) (h : Heap) : list bytes := map (Get c h) (cd_order c).
Definition MCPFiles (c : Credentials) (h : Heap) : gmap string bytes := contents h <$> default ∅ (cd_mcp c).
Definition credentials_Redact (c : Credentials) (h : Heap) (content : bytes) : bytes :=
  RedactSecrets content (Secrets c h).
Definition RedactErr (c : Credentials) (h : Heap) (e : error) : error :=
  match e with
  | None => None
  | Some e =>
      let classification :=
        if errors_Is e Canceled then Some Canceled
        else if errors_Is e DeadlineExceeded then Some DeadlineExceeded else None in
      Some (ERedacted (of_bytes (credentials_Redact c h (to_bytes (Error e)))) classification)
  end.

(** * Ownership *)

(** The buffers of the credentials, and a buffer without a secret. *)
Definition owned (c : Credentials) (address : nat) : Prop := exists name, cd_values c !! name = Some address.
Definition zeroed (h : Heap) (address : nat) : Prop :=
  exists buffer, h !! address = Some buffer /\ Forall (fun b => b = NUL) buffer.

(** Well-formed credentials: the order lists the names once, each name has a buffer of
    its own, and an MCP file borrows the buffer of its host variable. *)
Record owns (c : Credentials) (h : Heap) : Prop := {
  ow_nodup : NoDup (cd_order c);
  ow_order name : name ∈ cd_order c <-> is_Some (cd_values c !! name);
  ow_heap address : owned c address -> address ∈ dom h;
  ow_inj n m address : cd_values c !! n = Some address -> cd_values c !! m = Some address -> n = m;
  ow_mcp hostVar address : default ∅ (cd_mcp c) !! hostVar = Some address ->
    cd_values c !! mcp_name hostVar = Some address
}.

Section Ownership.
(** The contents that an operation may leave in a buffer that nobody owns. *)
Context {spilled : bytes -> Prop}.
Definition left_over (h : Heap) (address : nat) : Prop :=
  zeroed h address \/ exists content, h !! address = Some content /\ spilled content.
(** What an operation does to the heap: buffers that are not the credentials' are
    kept, and those that are, or are new, are owned afterwards, zeroed or spilled. *)
Record evolves (c : Credentials) (h : Heap) (c' : Credentials) (h' : Heap) : Prop := {
  ev_dom address : address ∈ dom h -> address ∈ dom h';
  ev_frame address : address ∈ dom h -> ~ owned c address -> h' !! address = h !! address;
  ev_clean address : owned c address \/ address ∉ dom h -> address ∈ dom h' -> owned c' address \/ left_over h' address;
  ev_new address : owned c' address -> owned c address \/ address ∉ dom h
}.

(** A lookup hands over a new buffer and leaves the others alone. *)
Definition hands_over (lookup : KeyLookup) : Prop :=
  forall name h, match lookup name h with
                 | (None, h') => h' = h
                 | (Some source, h') => source ∉ dom h /\ exists content, h' = <[source := content]> h
                 end.

Lemma owned_dec c address : Decision (owned c address).
Proof.
  destruct (decide (address ∈ map snd (map_to_list (cd_values c)))) as [Hin|Hnot]; [left|right].
  - change map with (@fmap list _) in Hin. apply list_elem_of_fmap in Hin as ([name a] & -> & Hin).
    apply elem_of_map_to_list in Hin. by exists name.
  - intros [name Hn]. apply Hnot. change map with (@fmap list _). apply list_elem_of_fmap.
    exists (name, address). split; [done|]. by apply elem_of_map_to_list.
Qed.
#[export] Existing Instance owned_dec.

Lemma contents_zeroed h address : zeroed (clear_buffer address h) address <-> address ∈ dom h.
Proof.
  unfold zeroed, clear_buffer. rewrite elem_of_dom. split.
  - intros (buffer & Hb & _). rewrite lookup_alter_eq in Hb. by destruct (h !! address).
  - intros [buffer Hb]. exists (map (fun _ => NUL) buffer). rewrite lookup_alter_eq, Hb. split; [done|].
    by apply Forall_map, Forall_true.
Qed.
Lemma zeroed_kept h h' address : h' !! address = h !! address -> zeroed h address -> zeroed h' address.
Proof. intros Heq (buffer & Hb & Hz). exists buffer. by rewrite Heq. Qed.
Lemma left_over_kept h h' address : h' !! address = h !! address -> left_over h address -> left_over h' address.
Proof. intros Heq [Hz|(content & Hc & Hs)]; [left; by eapply zeroed_kept|right]. exists content. by rewrite Heq. Qed.
Lemma lookup_clear_ne h address other : other <> address -> clear_buffer address h !! other = h !! other.
Proof. intros Hne. apply lookup_alter_ne. done. Qed.
Lemma dom_clear h address : dom (clear_buffer address h) = dom h.
Proof. apply dom_alter_L. Qed.

Lemma evolves_refl c h : evolves c h c h.
Proof. split; [done..| |by left]. intros address [Ho|Hn] Hd; [by left|done]. Qed.
Lemma evolves_trans c h c' h' c'' h'' :
  evolves c h c' h' -> evolves c' h' c'' h'' -> evolves c h c'' h''.
Proof.
  intros [D F C N] [D' F' C' N']. split.
  - auto.
  - intros address Hd Hn. rewrite F' by (auto; intros [?|?]%N; done). auto.
  - intros address Ho Hd''. destruct (decide (address ∈ dom h')) as [Hd'|Hd']; [|by apply C'; [right|]].
    destruct (C address Ho Hd') as [Ho'|Hz]; [by apply C'; [left|]|].
    destruct (decide (owned c' address)) as [Ho'|Ho']; [by apply C'; [left|]|].
    right. eapply left_over_kept; [|exact Hz]. by apply F'.
  - intros address [Ho|Hn]%N'; [auto|]. right. intros Hd. by apply Hn, D.
Qed.

(** A buffer that comes and is zeroed without ever being owned. *)
Lemma evolves_hand_over c h source content :
  owns c h -> source ∉ dom h -> evolves c h c (clear_buffer source (<[source := content]> h)).
Proof.
  intros Ho Hs. split.
  - intros address Hd. rewrite dom_clear, dom_insert. set_solver.
  - intros address Hd _. assert (address <> source) by (by intros ->).
    by rewrite lookup_clear_ne, lookup_insert_ne by done.
  - intros address [Hown|Hn] Hd; [by left|right]. rewrite dom_clear, dom_insert in Hd.
    apply elem_of_union in Hd as [->%elem_of_singleton|?]; [|done]. left.
    apply contents_zeroed. rewrite dom_insert. set_solver.
  - by left.
Qed.
Lemma owns_heap c h h' : owns c h -> (forall address, address ∈ dom h -> address ∈ dom h') -> owns c h'.
Proof. intros [? ? Hh ? ?] Hd. split; auto. Qed.

Lemma alloc_fresh content h address h' :
  alloc content h = (address, h') -> address ∉ dom h /\ h' = <[address := content]> h.
Proof. unfold alloc. intros [= <- <-]. split; [apply is_fresh|done]. Qed.
Lemma environment_hands_over getenv : hands_over (EnvironmentAPIKeyLookup getenv).
Proof.
  intros name h. unfold EnvironmentAPIKeyLookup. destruct (getenv name) as [value|]; [|done].
  destruct (alloc _ h) as [address h'] eqn:Ha. apply alloc_fresh in Ha as [Hf ->]. split; [done|]. by eexists.
Qed.

(** * The operations keep ownership *)

Lemma Get_kept (c : Credentials) (h h' : Heap) name :
  (forall address, owned c address -> h' !! address = h !! address) -> Get c h' name = Get c h name.
Proof.
  intros Hk. unfold Get, contents. destruct (cd_values c !! name) as [address|] eqn:Hn; [|done].
  by rewrite Hk by by exists name.
Qed.
Definition no_mcp_file (c : Credentials) (name : string) : Prop :=
  forall hostVar, is_Some (default ∅ (cd_mcp c) !! hostVar) -> name <> mcp_name hostVar.

(** [Set], as a change of the view: the value has a new buffer, and the buffer it
    replaces is zeroed. *)
Lemma credentials_Set_view name value c h c' h' :
  owns c h -> credentials_Set name value c h = (c', h') ->
  exists a, a ∉ dom h /\ cd_values c' = <[name := a]> (cd_values c) /\ h' !! a = Some value /\
    cd_label c' = cd_label c /\ cd_mcp c' = cd_mcp c /\
    cd_order c' = cd_order c ++ (if decide (name ∈ cd_order c) then [] else [name]) /\
    (forall b, b ∈ dom h' <-> b = a \/ b ∈ dom h) /\
    (forall b, b <> a -> cd_values c !! name <> Some b -> h' !! b = h !! b) /\
    (forall b, cd_values c !! name = Some b -> zeroed h' b).
Proof.
  intros Ho. unfold credentials_Set. destruct (alloc value h) as [a h1] eqn:Ha.
  apply alloc_fresh in Ha as [Hf ->].
  destruct (cd_values c !! name) as [old|] eqn:Hold; intros [= <- <-]; exists a; simpl.
  - assert (old ∈ dom h) as Hoh by (apply (ow_heap _ _ Ho); by exists name).
    assert (old <> a) by congruence. split_and!; [done|done| | | | | | |].
    + by rewrite lookup_clear_ne, lookup_insert_eq by done.
    + done.
    + done.
    + rewrite decide_True by (apply (ow_order _ _ Ho); by exists old). by rewrite app_nil_r.
    + intros b. rewrite dom_clear, dom_insert. set_solver.
    + intros b Hb Hne. by rewrite lookup_clear_ne, lookup_insert_ne by congruence.
    + intros b [= ->]. apply contents_zeroed. rewrite dom_insert. set_solver.
  - split_and!; [done|done| | | | | | |].
    + by rewrite lookup_insert_eq.
    + done.
    + done.
    + rewrite decide_False; [done|]. rewrite (ow_order _ _ Ho), Hold. by intros [? ?].
    + intros b. rewrite dom_insert. set_solver.
    + intros b Hb _. by rewrite lookup_insert_ne by congruence.
    + done.
Qed.

Lemma credentials_Set_ok name value c h c' h' :
  owns c h -> no_mcp_file c name -> credentials_Set name value c h = (c', h') ->
  owns c' h' /\ evolves c h c' h' /\ cd_label c' = cd_label c /\ cd_mcp c' = cd_mcp c /\
  cd_order c' = cd_order c ++ (if decide (name ∈ cd_order c) then [] else [name]) /\
  (forall m, m <> name -> cd_values c' !! m = cd_values c !! m) /\ is_Some (cd_values c' !! name) /\
  (forall m, Get c' h' m = if decide (m = name) then value else Get c h m).
Proof.
  intros Ho Hm Hset. destruct (credentials_Set_view _ _ _ _ _ _ Ho Hset)
    as (a & Hf & Hv & Hval & Hlabel & Hmcp & Horder & Hdom & Hkeep & Hzero).
  assert (Hna : forall m, cd_values c !! m <> Some a).
  { intros m Hx. apply Hf, (ow_heap _ _ Ho). by exists m. }
  assert (Hown : forall b, owned c' b <-> b = a \/ exists m, m <> name /\ cd_values c !! m = Some b).
  { intros b. unfold owned. rewrite Hv. split.
    - intros [m Hb]. apply lookup_insert_Some in Hb as [[<- ->]|[Hne Hb]]; eauto.
    - intros [->|(m & Hne & Hb)]; [exists name; apply lookup_insert_eq|].
      exists m. by rewrite lookup_insert_ne. }
  split_and!; [| |done..| | |].
  - split.
    + rewrite Horder. case_decide; [rewrite app_nil_r; apply Ho|]. apply NoDup_app. split_and!; [apply Ho| |apply NoDup_singleton].
      intros x Hx ->%list_elem_of_singleton. done.
    + intros m. rewrite Horder, elem_of_app, Hv, (ow_order _ _ Ho). destruct (decide (m = name)) as [->|Hne].
      * rewrite lookup_insert_eq. split; [by eauto|intros _]. case_decide as Hd; [left; by apply (ow_order _ _ Ho)|].
        right. apply list_elem_of_here.
      * rewrite lookup_insert_ne by done. split; [intros [?|Hx]; [done|]|by left]. case_decide; [set_solver|].
        apply list_elem_of_singleton in Hx. done.
    + intros b Hb%Hown. apply Hdom. destruct Hb as [->|(m & _ & Hb)]; [by left|right].
      apply (ow_heap _ _ Ho). by exists m.
    + intros n m b. rewrite Hv, !lookup_insert_Some. intros [[<- <-]|[Hne Hn]] [[<- Heq]|[Hne' Hm']];
        [done|by apply Hna in Hm'|subst; by apply Hna in Hn|by eapply (ow_inj _ _ Ho)].
    + intros hostVar b. rewrite Hmcp, Hv. intros Hb. rewrite lookup_insert_ne by (apply Hm; by exists b).
      by apply (ow_mcp _ _ Ho).
  - split.
    + intros b Hb. apply Hdom. by right.
    + intros b Hb Hno. apply Hkeep; [by intros ->|]. intros Hb'. apply Hno. by exists name.
    + intros b Hor Hb. rewrite Hown. destruct (decide (cd_values c !! name = Some b)) as [Heq|Hne]; [right; left; by apply Hzero|].
      left. apply Hdom in Hb as [->|Hb]; [by left|]. destruct Hor as [[m Hm']|]; [|done].
      right. exists m. split; [|done]. by intros ->.
    + intros b Hb%Hown. destruct Hb as [->|(m & _ & Hb)]; [by right|left; by exists m].
  - intros m Hne. rewrite Hv. by apply lookup_insert_ne.
  - exists a. rewrite Hv. apply lookup_insert_eq.
  - intros m. unfold Get, contents. rewrite Hv. destruct (decide (m = name)) as [Hd|Hd]; [rewrite Hd; by rewrite lookup_insert_eq, Hval|].
    rewrite lookup_insert_ne by done. destruct (cd_values c !! m) as [b|] eqn:Hb; [|done].
    rewrite Hkeep; [done|by intros ->; eapply Hna|]. intros Hb'. by apply Hd, (ow_inj _ _ Ho m name b).
Qed.

(** An operation that reads a buffer which is zeroed afterwards. *)
Lemma evolves_borrow c h source content c' h' :
  owns c h -> source ∉ dom h -> evolves c (<[source := content]> h) c' h' -> owns c' h' ->
  evolves c h c' (clear_buffer source h') /\ owns c' (clear_buffer source h') /\
  (forall name, Get c' (clear_buffer source h') name = Get c' h' name).
Proof.
  intros Ho Hs [D F C N] Ho'.
  assert (Hns : ~ owned c' source).
  { intros [Hx|Hx]%N; [by apply (ow_heap _ _ Ho) in Hx|]. apply Hx. rewrite dom_insert. set_solver. }
  split_and!.
  - split.
    + intros b Hb. rewrite dom_clear. apply D. rewrite dom_insert. set_solver.
    + intros b Hb Hn. assert (b <> source) by (by intros ->).
      rewrite lookup_clear_ne, F, lookup_insert_ne; try done. rewrite dom_insert. set_solver.
    + intros b Hor Hb. destruct (decide (b = source)) as [->|Hne].
      { right. left. apply contents_zeroed. by rewrite dom_clear in Hb. }
      rewrite dom_clear in Hb. destruct (C b) as [Hx|Hx]; [|done|by left|].
      * destruct Hor as [?|Hn]; [by left|right]. rewrite dom_insert. set_solver.
      * right. eapply left_over_kept; [|exact Hx]. by apply lookup_clear_ne.
    + intros b [Hx|Hx]%N; [by left|right]. rewrite dom_insert in Hx. set_solver.
  - eapply owns_heap; [exact Ho'|]. intros b. by rewrite dom_clear.
  - intros name. apply Get_kept. intros b Hb. apply lookup_clear_ne. by intros ->.
Qed.
Lemma owns_insert c h source content : owns c h -> source ∉ dom h -> owns c (<[source := content]> h).
Proof. intros Ho _. eapply owns_heap; [exact Ho|]. intros b. rewrite dom_insert. set_solver. Qed.
Lemma Get_insert c h source content name :
  owns c h -> source ∉ dom h -> Get c (<[source := content]> h) name = Get c h name.
Proof. intros Ho Hs. apply Get_kept. intros b Hb%(ow_heap _ _ Ho). apply lookup_insert_ne. by intros ->. Qed.

(** A key the credentials accept. *)
Definition key_ok (content : bytes) : Prop :=
  content <> [] /\ Z.of_nat (length content) <= 16384 /\ NUL ∉ content /\ CR ∉ content /\ NL ∉ content.
Lemma check_key_None label content : check_key label content = None <-> key_ok content.
Proof.
  unfold check_key, key_ok. rewrite seq_error_nil, !refuse_if_nil, orb_false_iff, Z.eqb_neq, Z.ltb_ge.
  change maxKeyLength with 16384. rewrite <- (not_true_iff_false (existsb _ _)), existsb_exists. split.
  - intros [[Hl Hm] Hno]. assert (forall b, b ∈ content -> mem b [NUL; CR; NL] = false) as Hx.
    { intros b Hb. apply not_true_iff_false. intros Ht. apply Hno. exists b. by rewrite <- list_elem_of_In. }
    split_and!; [by intros ->|done| | |]; intros Hb; by apply Hx in Hb.
  - intros (Hne & Hl & H1 & H2 & H3). split_and!; [by destruct content|done|].
    intros (b & Hb & Hm). rewrite <- list_elem_of_In in Hb. apply mem_spec in Hm.
    rewrite !elem_of_cons, elem_of_nil in Hm. destruct Hm as [->|[->|[->|[]]]]; done.
Qed.

(** What a lookup has for a variable. *)
Definition serves (lookup : KeyLookup) (sourceEnv : string) (content : bytes) : Prop :=
  exists h source h', lookup sourceEnv h = (Some source, h') /\ contents h' source = content.
Lemma environment_serves getenv name content :
  serves (EnvironmentAPIKeyLookup getenv) name content -> exists value, getenv name = Some value /\ content = to_bytes value.
Proof.
  unfold serves, EnvironmentAPIKeyLookup. intros (h & source & h' & Hl & <-).
  destruct (getenv name) as [value|]; [|done]. exists value. split; [done|].
  destruct (alloc _ h) as [a h1] eqn:Ha. injection Hl as <- <-. apply alloc_fresh in Ha as [_ ->].
  unfold contents. by rewrite lookup_insert_eq.
Qed.

Lemma Load_ok lookup name sourceEnv c h found e c' h' :
  hands_over lookup -> owns c h -> no_mcp_file c name ->
  Load lookup name sourceEnv c h = (found, e, c', h') ->
  owns c' h' /\ evolves c h c' h' /\ cd_label c' = cd_label c /\ cd_mcp c' = cd_mcp c /\
  (forall m, m <> name -> Get c' h' m = Get c h m /\ cd_values c' !! m = cd_values c !! m) /\
  (if found && is_nil e
   then key_ok (Get c' h' name) /\ serves lookup sourceEnv (Get c' h' name) /\ is_Some (cd_values c' !! name)
   else c' = c /\ forall m, Get c' h' m = Get c h m).
Proof.
  intros Hlook Ho Hm. unfold Load. specialize (Hlook sourceEnv h).
  destruct (lookup sourceEnv h) as [[source|] h1] eqn:Hsource.
  2: { subst h1. intros [= <- <- <- <-]. simpl; split_and!; auto using evolves_refl. }
  destruct Hlook as (Hs & content & ->). pose proof (owns_insert _ _ _ content Ho Hs) as Ho1.
  unfold contents at 1 2. rewrite lookup_insert_eq. simpl. destruct (check_key _ _) as [bad|] eqn:Hk.
  - intros [= <- <- <- <-]. destruct (evolves_borrow c h source content c _ Ho Hs (evolves_refl _ _) Ho1)
      as (Hev & Hown & Hget). split_and!; [done..| |]; [intros m _|split; [done|intros m]];
      by rewrite Hget, Get_insert.
  - apply check_key_None in Hk.
    destruct (credentials_Set name content c _) as [c1 h1] eqn:Hset. intros [= <- <- <- <-].
    destruct (credentials_Set_ok _ _ _ _ _ _ Ho1 Hm Hset)
      as (Ho' & Hev & Hl & Hmcp & _ & Hvals & Hsome & Hget).
    destruct (evolves_borrow c h source content c1 h1 Ho Hs Hev Ho') as (Hev' & Hown & Hget').
    split_and!; [done..| |]; simpl.
    + intros m Hne. rewrite Hget', Hget, decide_False, Get_insert by done. split; [done|by apply Hvals].
    + rewrite Hget', Hget, decide_True by done. split_and!; [done| |done].
      exists h, source, (<[source := content]> h). split; [done|]. unfold contents. by rewrite lookup_insert_eq.
Qed.

(** * MCP secrets *)

Lemma mcp_name_inj a b : mcp_name a = mcp_name b -> a = b.
Proof. unfold mcp_name. intros H. apply (f_equal to_bytes) in H. rewrite !to_bytes_app in H. by apply app_inv_head, to_bytes_inj in H. Qed.
Lemma evolves_mcp c h mcp c' h' : evolves c h c' h' -> evolves c h (set_cd_mcp mcp c') h'.
Proof. intros [D F C N]. split; auto. Qed.
Lemma evolves_mcp_left c h mcp c' h' : evolves (set_cd_mcp mcp c) h c' h' -> evolves c h c' h'.
Proof. intros [D F C N]. split; auto. Qed.

(** The files the credentials hand to the archive: the accepted values of their
    host variables, none of them in the configuration. *)
Definition mcp_value_ok (lookup : KeyLookup) (configuration : bytes) (hostVar : string) (value : bytes) : Prop :=
  key_ok value /\ serves lookup hostVar value /\ ~ occurs value configuration.
Definition mcp_ok (lookup : KeyLookup) (configuration : bytes) (c : Credentials) (h : Heap) : Prop :=
  forall hostVar, is_Some (default ∅ (cd_mcp c) !! hostVar) ->
    mcp_value_ok lookup configuration hostVar (Get c h (mcp_name hostVar)).

Lemma load_mcp_key_ok lookup configuration srv key c h e c' h' :
  hands_over lookup -> owns c h ->
  load_mcp_key lookup configuration srv key c h = (e, c', h') ->
  let hostVar := default ""%string (mp_SecretEnv srv !! key) in
  owns c' h' /\ evolves c h c' h' /\ (mcp_ok lookup configuration c h -> mcp_ok lookup configuration c' h') /\
  (forall m, (forall host, m <> mcp_name host) -> Get c' h' m = Get c h m) /\
  (forall host, is_Some (default ∅ (cd_mcp c) !! host) -> is_Some (default ∅ (cd_mcp c') !! host)) /\
  (e = None -> is_Some (default ∅ (cd_mcp c') !! hostVar)).
Proof.
  intros Hlook Ho. unfold load_mcp_key. set (hostVar := default _ (mp_SecretEnv srv !! key)).
  case_bool_decide as Hin.
  { intros [= <- <- <-]. split_and!; auto using evolves_refl. }
  assert (Hno : no_mcp_file c (mcp_name hostVar)).
  { intros host Hhost Heq%mcp_name_inj. by subst host. }
  destruct (Load lookup _ hostVar c h) as [[[found e1] c1] h1] eqn:Hl.
  destruct (Load_ok _ _ _ _ _ _ _ _ _ Hlook Ho Hno Hl) as (Ho1 & Hev & _ & Hm & Hother & Hres).
  assert (Hmcp1 : mcp_ok lookup configuration c h -> mcp_ok lookup configuration c1 h1).
  { intros Hmcp host Hhost. rewrite Hm in Hhost. destruct (Hother (mcp_name host)) as [-> _]; [|by apply Hmcp].
    by apply not_eq_sym, Hno. }
  assert (Hkeep : forall m, (forall host, m <> mcp_name host) -> Get c1 h1 m = Get c h m).
  { intros m Hne. by apply Hother. }
  destruct e1 as [e1|]; [destruct found|destruct found].
  1,2,4: intros [= <- <- <-]; rewrite Hm; by split_and!.
  simpl in Hres. destruct Hres as (Hkey & Hserves & address & Ha).
  destruct (Contains configuration _) eqn:Hc; [intros [= <- <- <-]; rewrite Hm; by split_and!|].
  apply Contains_false in Hc. rewrite Ha. intros [= <- <- <-]. simpl. rewrite <- Hm. split_and!.
  - destruct Ho1 as [H1 H2 H3 H4 H5]. split; [done..|]. simpl. intros host b.
    rewrite lookup_insert_Some. intros [[<- <-]|[_ Hb]]; [done|by apply H5].
  - by apply evolves_mcp.
  - intros Hmcp host. simpl. destruct (decide (host = hostVar)) as [->|Hne]; [by split|].
    rewrite lookup_insert_ne by done. by apply Hmcp1.
  - done.
  - intros host Hhost. destruct (decide (host = hostVar)) as [->|Hne]; [by rewrite lookup_insert_eq|].
    by rewrite lookup_insert_ne.
  - intros _. by rewrite lookup_insert_eq.
Qed.

Lemma load_mcp_keys_ok lookup configuration keys c h e c' h' :
  hands_over lookup -> owns c h ->
  load_mcp_keys lookup configuration keys c h = (e, c', h') ->
  owns c' h' /\ evolves c h c' h' /\ (mcp_ok lookup configuration c h -> mcp_ok lookup configuration c' h') /\
  (forall m, (forall host, m <> mcp_name host) -> Get c' h' m = Get c h m) /\
  (forall host, is_Some (default ∅ (cd_mcp c) !! host) -> is_Some (default ∅ (cd_mcp c') !! host)) /\
  (e = None -> forall srv key, (srv, key) ∈ keys ->
     is_Some (default ∅ (cd_mcp c') !! default ""%string (mp_SecretEnv srv !! key))).
Proof.
  intros Hlook. revert c h. induction keys as [|[srv key] keys IH]; intros c h Ho; simpl.
  { intros [= <- <- <-]. split_and!; auto using evolves_refl. intros _ srv key Hin. set_solver. }
  destruct (load_mcp_key _ _ srv key c h) as [[e1 c1] h1] eqn:Hk.
  destruct (load_mcp_key_ok _ _ _ _ _ _ _ _ _ Hlook Ho Hk) as (Ho1 & Hev & Hm1 & Hg & Hmono & Hnew).
  destruct e1 as [e1|]; [intros [= <- <- <-]; by split_and!|]. intros Hrest.
  destruct (IH _ _ Ho1 Hrest) as (Ho' & Hev' & Hm' & Hg' & Hmono' & Hnew').
  split_and!; [done|by eapply evolves_trans|auto| |auto|].
  - intros m Hne. by rewrite Hg', Hg.
  - intros He srv' key' [[= -> ->]|Hin]%elem_of_cons; [|by apply Hnew']. by apply Hmono', Hnew.
Qed.

Lemma LoadMCP_ok lookup servers configuration c h e c' h' :
  hands_over lookup -> owns c h -> LoadMCP lookup servers configuration c h = (e, c', h') ->
  owns c' h' /\ evolves c h c' h' /\ (mcp_ok lookup configuration c h -> mcp_ok lookup configuration c' h') /\
  (forall m, (forall host, m <> mcp_name host) -> Get c' h' m = Get c h m) /\
  (e = None -> forall srv key host, srv ∈ servers -> mp_SecretEnv srv !! key = Some host ->
     is_Some (default ∅ (cd_mcp c') !! host)).
Proof.
  intros Hlook Ho. unfold LoadMCP. intros Hk.
  assert (Ho0 : owns (set_cd_mcp (Some (default ∅ (cd_mcp c))) c) h) by (destruct Ho; by split).
  destruct (load_mcp_keys_ok _ _ _ _ _ _ _ _ Hlook Ho0 Hk) as (Ho' & Hev & Hm' & Hg & _ & Hnew).
  split_and!; [done|by eapply evolves_mcp_left|done|done|].
  intros He srv key host Hsrv Hkey. specialize (Hnew He srv key). rewrite Hkey in Hnew. apply Hnew.
  unfold secret_keys. apply list_elem_of_In, in_flat_map. exists srv. split; [by apply list_elem_of_In|].
  apply in_map, list_elem_of_In, elem_of_sorted_keys. by exists host.
Qed.

(** * Redaction values, snapshots and clearing *)

Lemma zeroed_clear h source address : zeroed h address -> zeroed (clear_buffer source h) address.
Proof.
  intros Hz. destruct (decide (address = source)) as [->|Hne].
  - apply contents_zeroed. destruct Hz as (buffer & Hb & _). apply elem_of_dom. by exists buffer.
  - eapply zeroed_kept; [|exact Hz]. by apply lookup_clear_ne.
Qed.

(** A buffer that is left behind. *)
Lemma evolves_spill c h content address h' : owns c h -> spilled content -> alloc content h = (address, h') ->
  owns c h' /\ evolves c h c h' /\ forall m, Get c h' m = Get c h m.
Proof.
  intros Ho Hs Ha. apply alloc_fresh in Ha as [Hf ->]. split_and!; [by apply owns_insert| |intros m; by apply Get_insert].
  split.
  - intros b Hb. rewrite dom_insert. set_solver.
  - intros b Hb _. apply lookup_insert_ne. by intros ->.
  - intros b [Hown|Hn] Hb; [by left|right; right]. rewrite dom_insert in Hb.
    apply elem_of_union in Hb as [->%elem_of_singleton|?]; [|done]. exists content. by rewrite lookup_insert_eq.
  - by left.
Qed.
(** The buffers of a lookup are zeroed by [LookupSecretParts]; the copies it decodes are not. *)
Lemma lookup_parts_ok unmarshal lookup names h parts c ps h' :
  hands_over lookup -> (forall name content, name ∈ names -> serves lookup name content -> spilled content) -> owns c h -> lookup_parts unmarshal lookup names h parts = (ps, h') ->
  owns c h' /\ evolves c h c h' /\ forall m, Get c h' m = Get c h m.
Proof.
  intros Hlook. revert h parts. induction names as [|name names IH]; intros h parts Hspill Ho; cbn [lookup_parts].
  { intros [= _ <-]. split_and!; auto using evolves_refl. }
  assert (Hspill' : forall name' content, name' ∈ names -> serves lookup name' content -> spilled content)
    by (intros name' content Hin; apply Hspill; by right).
  pose proof (Hlook name h) as Hl. destruct (lookup name h) as [[source|] h1] eqn:Hlname.
  2: { subst h1. by apply IH. }
  destruct Hl as (Hs & content & ->).
  unfold contents at 1. rewrite lookup_insert_eq, to_of_bytes. change (default [] (Some content)) with content.
  destruct (alloc content _) as [copy h1] eqn:Ha. intros Hrest.
  destruct (evolves_borrow c h source content c _ Ho Hs (evolves_refl _ _) (owns_insert _ _ _ content Ho Hs))
    as (Hev & Hown & Hget).
  assert (spilled content) as Hsp.
  { apply (Hspill name); [by left|]. exists h, source, (<[source := content]> h). split; [done|]. unfold contents. by rewrite lookup_insert_eq. }
  destruct (evolves_spill _ _ _ _ _ Hown Hsp Ha) as (Hown1 & Hev1 & Hget1).
  destruct (IH _ _ Hspill' Hown1 Hrest) as (Ho' & Hev' & Hget').
  split_and!; [done|eapply evolves_trans; [by eapply evolves_trans|done]|].
  intros m. by rewrite Hget', Hget1, Hget, Get_insert.
Qed.

Lemma redact_name_not_mcp n host : ("redact:" +:+ n)%string <> mcp_name host.
Proof. done. Qed.
Lemma add_redactions_ok parts c h c' h' :
  owns c h -> add_redactions parts c h = (c', h') ->
  owns c' h' /\ evolves c h c' h' /\ cd_mcp c' = cd_mcp c /\
  (forall m, (forall n, m <> "redact:" +:+ n)%string -> Get c' h' m = Get c h m).
Proof.
  revert c h. induction parts as [|part parts IH]; intros c h Ho; cbn [add_redactions].
  { intros [= <- <-]. split_and!; auto using evolves_refl. }
  destruct (alloc (to_bytes part) h) as [b h1] eqn:Ha. apply alloc_fresh in Ha as [Hf ->].
  set (name := ("redact:" +:+ _)%string).
  destruct (credentials_Set name _ c _) as [c1 h1] eqn:Hset. intros Hrest.
  pose proof (owns_insert _ _ _ (to_bytes part) Ho Hf) as Ho1.
  assert (Hno : no_mcp_file c name) by (intros host _; apply redact_name_not_mcp).
  destruct (credentials_Set_ok _ _ _ _ _ _ Ho1 Hno Hset) as (Ho2 & Hev & _ & Hm & _ & _ & _ & Hget).
  destruct (evolves_borrow c h b _ c1 h1 Ho Hf Hev Ho2) as (Hev' & Hown & Hget').
  destruct (IH _ _ Hown Hrest) as (Ho' & Hev'' & Hm' & Hg). split_and!; [done|by eapply evolves_trans|by rewrite Hm'|].
  intros m Hne. rewrite Hg, Hget', Hget, decide_False by (done || apply Hne). by apply Get_insert.
Qed.
Lemma AddRedactions_ok unmarshal lookup names c h c' h' :
  hands_over lookup -> (forall name content, name ∈ names -> serves lookup name content -> spilled content) -> owns c h -> AddRedactions unmarshal lookup names c h = (c', h') ->
  owns c' h' /\ evolves c h c' h' /\ cd_mcp c' = cd_mcp c /\
  (forall m, (forall n, m <> "redact:" +:+ n)%string -> Get c' h' m = Get c h m).
Proof.
  intros Hlook Hspill Ho. unfold AddRedactions, LookupSecretParts.
  destruct (lookup_parts unmarshal lookup names h []) as [parts h1] eqn:Hp. intros Hadd.
  destruct (lookup_parts_ok _ _ _ _ _ c _ _ Hlook Hspill Ho Hp) as (Ho1 & Hev & Hget).
  destruct (add_redactions_ok _ _ _ _ _ Ho1 Hadd) as (Ho2 & Hev2 & Hm & Hg).
  split_and!; [done|by eapply evolves_trans|done|]. intros m Hne. by rewrite Hg.
Qed.

Lemma clear_all_lookup addresses h address :
  address ∉ addresses -> clear_all addresses h !! address = h !! address.
Proof.
  induction addresses as [|a addresses IH]; intros Hn; simpl; [done|].
  apply not_elem_of_cons in Hn as [Hne Hn]. rewrite lookup_clear_ne by done. by apply IH.
Qed.
Lemma dom_clear_all addresses h : dom (clear_all addresses h) = dom h.
Proof. induction addresses as [|a addresses IH]; simpl; [done|]. by rewrite dom_clear. Qed.
Lemma clear_all_zeroed addresses h address :
  address ∈ addresses -> address ∈ dom h -> zeroed (clear_all addresses h) address.
Proof.
  intros Hin Hd. induction addresses as [|a addresses IH]; [set_solver|]. simpl.
  destruct (decide (a = address)) as [->|Hne]; [apply contents_zeroed; by rewrite dom_clear_all|].
  apply zeroed_clear, IH. set_solver.
Qed.
Lemma owned_listed c address : owned c address <-> address ∈ map snd (map_to_list (cd_values c)).
Proof.
  change map with (@fmap list _). rewrite list_elem_of_fmap. split.
  - intros [name Hn]. exists (name, address). split; [done|]. by apply elem_of_map_to_list.
  - intros ([name a] & -> & Hin). exists name. by apply elem_of_map_to_list in Hin.
Qed.
Lemma owns_New label h : owns (NewCredentials label) h.
Proof.
  split; simpl; [constructor| | | |]; intros.
  - rewrite lookup_empty. split; [set_solver|by intros [? ?]].
  - destruct H as [name Hn]. simpl in Hn. by rewrite lookup_empty in Hn.
  - by rewrite lookup_empty in H.
  - by rewrite lookup_empty in H.
Qed.
Lemma not_owned_New label address : ~ owned (NewCredentials label) address.
Proof. intros [name Hn]. simpl in Hn. by rewrite lookup_empty in Hn. Qed.
Lemma Clear_ok c h c' h' :
  owns c h -> Clear c h = (c', h') ->
  owns c' h' /\ evolves c h c' h' /\ (forall address, owned c address -> zeroed h' address) /\
  (forall address, ~ owned c address -> h' !! address = h !! address).
Proof.
  intros Ho [= <- <-]. split_and!.
  - apply owns_New.
  - split.
    + intros a. by rewrite dom_clear_all.
    + intros a _ Hn. apply clear_all_lookup. by rewrite <- owned_listed.
    + intros a Hor Hd. rewrite dom_clear_all in Hd. right. destruct Hor as [Hown|Hn]; [|done]. left.
      apply clear_all_zeroed; [by apply owned_listed|done].
    + intros a Ha. by apply not_owned_New in Ha.
  - intros a Ha. apply clear_all_zeroed; [by apply owned_listed|by apply (ow_heap _ _ Ho)].
  - intros a Ha. apply clear_all_lookup. by rewrite <- owned_listed.
Qed.

(** The values in their order, as a run or a deployment sees them. *)
Definition vault (c : Credentials) (h : Heap) : list (string * bytes) :=
  map (fun name => (name, Get c h name)) (cd_order c).
Lemma Secrets_vault c h : Secrets c h = map snd (vault c h).
Proof. unfold Secrets, vault. by rewrite map_map. Qed.

Lemma copy_values_ok source names h0 h c c' h' :
  NoDup names -> owns source h0 -> owns c h -> cd_mcp c = None ->
  (forall name, name ∈ names -> name ∉ cd_order c) ->
  (forall a, a ∈ dom h0 -> h !! a = h0 !! a) -> (forall a, owned c a -> a ∉ dom h0) ->
  copy_values source names c h = (c', h') ->
  owns c' h' /\ evolves c h c' h' /\ cd_mcp c' = None /\ cd_label c' = cd_label c /\ cd_order c' = cd_order c ++ names /\
  (forall a, a ∈ dom h0 -> h' !! a = h0 !! a) /\ (forall a, owned c' a -> a ∉ dom h0) /\
  (forall m, Get c' h' m = if decide (m ∈ names) then Get source h0 m else Get c h m).
Proof.
  intros Hnd Hsrc. revert c h. induction names as [|name names IH]; intros c h Ho Hm Hnew Hkeep Hsep; simpl.
  { intros [= <- <-]. split_and!; rewrite ?app_nil_r; try done. apply evolves_refl. }
  apply NoDup_cons in Hnd as [Hn Hnd].
  assert (Hval : Get source h name = Get source h0 name).
  { apply Get_kept. intros a Ha%(ow_heap _ _ Hsrc). by apply Hkeep. }
  rewrite Hval. destruct (credentials_Set name _ c h) as [c1 h1] eqn:Hset. intros Hrest.
  assert (Hno : no_mcp_file c name). { intros host [a Ha]. rewrite Hm in Ha. simpl in Ha. by rewrite lookup_empty in Ha. }
  destruct (credentials_Set_ok _ _ _ _ _ _ Ho Hno Hset) as (Ho1 & Hev & Hl & Hm1 & Hord & _ & _ & Hget).
  rewrite decide_False in Hord by (apply Hnew, list_elem_of_here).
  assert (Hdom : forall a, a ∈ dom h0 -> a ∈ dom h).
  { intros a Ha. apply elem_of_dom. rewrite Hkeep by done. by apply elem_of_dom. }
  destruct (IH Hnd c1 h1) as (Ho' & Hev' & Hm' & Hl' & Hord' & Hkeep' & Hsep' & Hget'); [done|congruence| | | |done|].
  - intros x Hx. rewrite Hord, not_elem_of_app, list_elem_of_singleton. split; [|by intros ->].
    apply Hnew. by apply list_elem_of_further.
  - intros a Ha. rewrite (ev_frame _ _ _ _ Hev); [by apply Hkeep|by apply Hdom|]. intros Hx. by apply Hsep in Hx.
  - intros a Ha Hd. apply (ev_new _ _ _ _ Hev) in Ha as [Ha|Ha]; [by apply Hsep in Ha|]. by apply Ha, Hdom.
  - split_and!; [done|by eapply evolves_trans|done|congruence|by rewrite Hord', Hord, <- app_assoc|done|done|].
    intros m. rewrite Hget', Hget. destruct (decide (m = name)) as [->|Hne].
    + rewrite decide_False by done. symmetry. apply decide_True, list_elem_of_here.
    + apply decide_ext. rewrite elem_of_cons. naive_solver.
Qed.

Lemma Snapshot_ok c h s h' :
  owns c h -> Snapshot c h = (s, h') ->
  owns s h' /\ (forall a, a ∈ dom h -> h' !! a = h !! a) /\ (forall a, owned s a -> a ∉ dom h) /\
  (forall a, a ∉ dom h -> a ∈ dom h' -> owned s a \/ left_over h' a) /\
  vault s h' = vault c h /\ (forall m, Get s h' m = Get c h m) /\ MCPFiles s h' = MCPFiles c h.
Proof.
  intros Ho. unfold Snapshot. destruct (copy_values c _ _ h) as [copy h1] eqn:Hc.
  destruct (copy_values_ok c (cd_order c) h h (NewCredentials (cd_label c)) copy h1) as
    (Ho1 & Hev & Hm & Hl & Hord & Hkeep & Hsep & Hget); auto using owns_New.
  { apply Ho. }
  { intros name _. simpl. set_solver. }
  { intros a Ha. by apply not_owned_New in Ha. }
  simpl in Hord. intros [= <- <-].
  assert (Hg : forall m, Get copy h1 m = Get c h m).
  { intros m. rewrite Hget. case_decide as Hd; [done|]. unfold Get. simpl. rewrite lookup_empty.
    destruct (cd_values c !! m) as [a|] eqn:Ha; [|done]. exfalso. apply Hd, (ow_order _ _ Ho). by exists a. }
  assert (Hmcp : forall s mcp, cd_values s = cd_values copy -> cd_order s = cd_order copy ->
    default ∅ (cd_mcp s) = map_imap (fun hostVar _ => cd_values copy !! mcp_name hostVar) mcp ->
    mcp = default ∅ (cd_mcp c) -> owns s h1 /\ MCPFiles s h1 = MCPFiles c h).
  { intros s mcp Hv Horder Hs ->. destruct Ho1 as [H1 H2 H3 H4 _]. split.
    - split; [by rewrite Horder|by intros name; rewrite Horder, Hv| | |].
      + intros a [name Ha]. apply H3. exists name. by rewrite <- Hv.
      + intros n m a. rewrite Hv. apply H4.
      + intros host a. rewrite Hs, Hv, map_lookup_imap. by intros ([? ?] & _ & ?)%bind_Some || intros (? & _ & ?)%bind_Some.
    - apply map_eq. intros host. unfold MCPFiles. rewrite !lookup_fmap, Hs, map_lookup_imap.
      destruct (default ∅ (cd_mcp c) !! host) as [a|] eqn:Ha; [|done]. simpl.
      specialize (Hg (mcp_name host)). unfold Get in Hg.
      apply (ow_mcp _ _ Ho) in Ha. rewrite Ha in Hg.
      destruct (cd_values copy !! mcp_name host) as [b|] eqn:Hb; simpl; [by rewrite Hg|].
      exfalso. assert (mcp_name host ∈ cd_order copy) as Hin; [|apply H2 in Hin as [? ?]; congruence].
      rewrite Hord. apply (ow_order _ _ Ho). by exists a. }
  assert (Hvault : vault copy h1 = vault c h).
  { unfold vault. rewrite Hord. apply map_ext. intros name. by rewrite Hg. }
  destruct (cd_mcp c) as [mcp|] eqn:Hcm.
  - assert (Hnew : forall a, a ∉ dom h -> a ∈ dom h1 -> owned copy a \/ left_over h1 a)
      by (intros a Ha Hd; apply (ev_clean _ _ _ _ Hev); [by right|done]).
    destruct (Hmcp (set_cd_mcp (Some (map_imap (fun hostVar _ => cd_values copy !! mcp_name hostVar) mcp)) copy) mcp)
      as [Hown Hfiles]; [done..|]. by split_and!.
  - assert (Hnew : forall a, a ∉ dom h -> a ∈ dom h1 -> owned copy a \/ left_over h1 a)
      by (intros a Ha Hd; apply (ev_clean _ _ _ _ Hev); [by right|done]).
    destruct (Hmcp copy ∅) as [Hown Hfiles]; [done|done|by rewrite Hm|done|]. by split_and!.
Qed.

End Ownership.

(** * Histories *)

(** What happens to the credentials of an occurrence: the owner and the runs load, set, add,
    copy and clear them. A history names who acts: the owner is first, and each snapshot
    comes after those that were taken before it. *)
Inductive cred_op :=
  | OpAddRedactions (names : list string)
  | OpLoad (name sourceEnv : string)
  | OpSet (name : string) (value : bytes)
  | OpLoadMCP (servers : list MCPServerConfig) (configuration : bytes)
  | OpSnapshot
  | OpClear.
(** The names that a harness loads and sets by itself are none of those [LoadMCP] uses. *)
Definition native_name (o : cred_op) : Prop :=
  match o with OpLoad name _ | OpSet name _ => forall host, name <> mcp_name host | _ => True end.

Section Histories.
Variable json_Unmarshal : string -> option json.
Variable lookup : KeyLookup.
Definition cred_step (who : nat) (o : cred_op) (cs : list Credentials) (h : Heap) : list Credentials * Heap :=
  match cs !! who with
  | None => (cs, h)
  | Some c =>
      let set (r : Credentials * Heap) := (<[who := r.1]> cs, r.2) in
      match o with
      | OpAddRedactions names => set (AddRedactions json_Unmarshal lookup names c h)
      | OpLoad name sourceEnv => let '(_, _, c, h) := Load lookup name sourceEnv c h in set (c, h)
      | OpSet name value => set (credentials_Set name value c h)
      | OpLoadMCP servers configuration => let '(_, c, h) := LoadMCP lookup servers configuration c h in set (c, h)
      | OpSnapshot => let (s, h) := Snapshot c h in (cs ++ [s], h)
      | OpClear => set (Clear c h)
      end
  end.
Fixpoint cred_run (ops : list (nat * cred_op)) (cs : list Credentials) (h : Heap) : list Credentials * Heap :=
  match ops with
  | [] => (cs, h)
  | (who, o) :: ops => let (cs, h) := cred_step who o cs h in cred_run ops cs h
  end.
(** The end of an occurrence: everybody clears what they hold. *)
Definition everybody_clears (cs : list Credentials) : list (nat * cred_op) := map (fun who => (who, OpClear)) (seq 0 (length cs)).

(** The values that the history's [AddRedactions] decode. *)
Definition decoded (ops : list (nat * cred_op)) (content : bytes) : Prop :=
  exists who names name, (who, OpAddRedactions names) ∈ ops /\ name ∈ names /\ serves lookup name content.

Section Keeping.
Context {spilled : bytes -> Prop} (h0 : Heap).
Definition op_ok (o : cred_op) : Prop :=
  native_name o /\
  match o with OpAddRedactions names => forall name content, name ∈ names -> serves lookup name content -> spilled content | _ => True end.
(** Everybody owns buffers of their own, allocated since the start; of the others
    allocated since, each is zeroed or spilled; those from before are as they were. *)
Record held (cs : list Credentials) (h : Heap) : Prop := {
  he_owns who c : cs !! who = Some c -> owns c h;
  he_apart who who' c c' a : cs !! who = Some c -> cs !! who' = Some c' -> owned c a -> owned c' a -> who = who';
  he_since who c a : cs !! who = Some c -> owned c a -> a ∉ dom h0;
  he_clean a : a ∉ dom h0 -> a ∈ dom h -> (exists who c, cs !! who = Some c /\ owned c a) \/ left_over (spilled := spilled) h a;
  he_before a : a ∈ dom h0 -> a ∈ dom h /\ h !! a = h0 !! a
}.
Lemma held_evolves cs h who c c' h' : held cs h -> cs !! who = Some c -> owns c' h' -> evolves (spilled := spilled) c h c' h' ->
  held (<[who := c']> cs) h'.
Proof.
  intros [Ho Hap Hsi Hcl Hbe] Hc Ho' [D F C N].
  assert (who < length cs)%nat as Hlt by (by apply lookup_lt_is_Some; eauto).
  assert (forall a, owned c' a -> a ∉ dom h0) as Hnew.
  { intros a [Ha|Ha]%N; [by eapply Hsi|]. intros Hd. by apply Ha, Hbe. }
  assert (forall who' d a, who' <> who -> cs !! who' = Some d -> owned d a -> a ∈ dom h /\ ~ owned c a) as Hother.
  { intros who' d a Hne Hd Ha. split; [by apply (ow_heap _ _ (Ho _ _ Hd))|]. intros Hca. by apply Hne, (Hap who' who d c a). }
  split.
  - intros who' d. destruct (decide (who = who')) as [<-|Hne]; [rewrite list_lookup_insert_eq by done; by intros [= <-]|].
    rewrite list_lookup_insert_ne by done. intros Hd. eapply owns_heap; [by eapply Ho|done].
  - assert (forall who' d a, who' <> who -> cs !! who' = Some d -> owned d a -> ~ owned c' a) as Hsep.
    { intros who' d a Hne Hd Ha Hca. destruct (Hother _ _ _ Hne Hd Ha) as [Hda Hna]. by apply N in Hca as [?|?]. }
    intros w1 w2 d1 d2 a. destruct (decide (who = w1)) as [<-|H1], (decide (who = w2)) as [<-|H2];
      rewrite ?list_lookup_insert_eq, ?list_lookup_insert_ne by done; [done| | |by apply Hap].
    + intros [= <-] Hd2 Ha1 Ha2. by destruct (Hsep w2 d2 a).
    + intros Hd1 [= <-] Ha1 Ha2. by destruct (Hsep w1 d1 a).
  - intros who' d a. destruct (decide (who = who')) as [<-|Hne]; [rewrite list_lookup_insert_eq by done; by intros [= <-] ?; apply Hnew|].
    rewrite list_lookup_insert_ne by done. by eapply Hsi.
  - intros a Ha Hd. assert (owned c a \/ a ∉ dom h -> (exists w d, <[who := c']> cs !! w = Some d /\ owned d a) \/ left_over (spilled := spilled) h' a) as Hour.
    { intros Hor. destruct (C a Hor Hd) as [Hca|]; [left; exists who, c'; by rewrite list_lookup_insert_eq|by right]. }
    destruct (decide (owned c a)) as [Hca|Hnc]; [by apply Hour; left|].
    destruct (decide (a ∈ dom h)) as [Hdh|Hdh]; [|by apply Hour; right].
    destruct (Hcl a Ha Hdh) as [(who' & d & Hd' & Hda)|Hl]; [left; exists who', d; split; [|done]|right].
    + rewrite list_lookup_insert_ne; [done|]. intros ->. by rewrite Hc in Hd'; simplify_eq.
    + eapply left_over_kept; [|exact Hl]. by apply F.
  - intros a Ha. destruct (Hbe a Ha) as [Hd He]. split; [by apply D|]. rewrite <- He. apply F; [done|]. intros Hca. by eapply Hsi.
Qed.
Lemma held_snapshot cs h who c s h' : held cs h -> cs !! who = Some c -> Snapshot c h = (s, h') -> held (cs ++ [s]) h'.
Proof.
  intros [Ho Hap Hsi Hcl Hbe] Hc Hs.
  destruct (Snapshot_ok (spilled := spilled) _ _ _ _ (Ho _ _ Hc) Hs) as (Hos & Hkeep & Hsep & Hnew & _).
  assert (forall a, a ∈ dom h -> a ∈ dom h') as Hd by (intros a Ha; apply elem_of_dom; rewrite Hkeep by done; by apply elem_of_dom).
  assert (forall w d a, cs !! w = Some d -> owned d a -> ~ owned s a) as Hx.
  { intros w d a Hd' Ha Hsa. apply (Hsep a Hsa). by apply (ow_heap _ _ (Ho _ _ Hd')). }
  split.
  - intros w d [Hd'|(_ & Hd')]%lookup_app_Some; [eapply owns_heap; [by eapply Ho|done]|].
    by apply list_lookup_singleton_Some in Hd' as [_ <-].
  - intros w1 w2 d1 d2 a [H1|(L1 & H1)]%lookup_app_Some [H2|(L2 & H2)]%lookup_app_Some.
    + by apply Hap.
    + apply list_lookup_singleton_Some in H2 as [_ <-]. intros Ha1 Ha2. by destruct (Hx _ _ _ H1 Ha1).
    + apply list_lookup_singleton_Some in H1 as [_ <-]. intros Ha1 Ha2. by destruct (Hx _ _ _ H2 Ha2).
    + apply list_lookup_singleton_Some in H1 as [H1 _], H2 as [H2 _]. lia.
  - intros w d a [Hd'|(_ & Hd')]%lookup_app_Some Ha; [by eapply Hsi|].
    apply list_lookup_singleton_Some in Hd' as [_ <-]. intros H0. by apply (Hsep a Ha), Hbe.
  - intros a Ha Hda. destruct (decide (a ∈ dom h)) as [Hdh|Hdh].
    + destruct (Hcl a Ha Hdh) as [(w & d & Hd' & Hown)|Hl].
      * left. exists w, d. split; [|done]. by apply lookup_app_l_Some.
      * right. eapply left_over_kept; [|exact Hl]. by apply Hkeep.
    + destruct (Hnew a Hdh Hda) as [Hown|Hl]; [left|by right]. exists (length cs), s. split; [|done].
      rewrite lookup_app_r by done. by rewrite Nat.sub_diag.
  - intros a Ha. destruct (Hbe a Ha) as [Hdh He]. split; [by apply Hd|]. by rewrite Hkeep.
Qed.

Lemma native_no_mcp c name : (forall host, name <> mcp_name host) -> no_mcp_file c name.
Proof. intros Hn host _. apply Hn. Qed.
Lemma cred_step_ok who o cs h cs' h' :
  hands_over lookup -> held cs h -> op_ok o -> cred_step who o cs h = (cs', h') -> held cs' h'.
Proof.
  intros Hlook Hh [Hn Hsp]. unfold cred_step. destruct (cs !! who) as [c|] eqn:Hc; [|by intros [= <- <-]].
  pose proof (he_owns _ _ Hh _ _ Hc) as Ho. cbv zeta. destruct o as [names|name source|name value|servers configuration| |]; simpl in Hn, Hsp.
  - destruct (AddRedactions _ _ names c h) as [c1 h1] eqn:Hs. intros [= <- <-].
    destruct (AddRedactions_ok _ _ _ _ _ _ _ Hlook Hsp Ho Hs) as (? & ? & _). by eapply held_evolves.
  - destruct (Load lookup name source c h) as [[[found e] c1] h1] eqn:Hl. intros [= <- <-].
    destruct (Load_ok (spilled := spilled) _ _ _ _ _ _ _ _ _ Hlook Ho (native_no_mcp _ _ Hn) Hl) as (? & ? & _). by eapply held_evolves.
  - destruct (credentials_Set name value c h) as [c1 h1] eqn:Hs. intros [= <- <-].
    destruct (credentials_Set_ok (spilled := spilled) _ _ _ _ _ _ Ho (native_no_mcp _ _ Hn) Hs) as (? & ? & _). by eapply held_evolves.
  - destruct (LoadMCP lookup servers configuration c h) as [[e c1] h1] eqn:Hl. intros [= <- <-].
    destruct (LoadMCP_ok (spilled := spilled) _ _ _ _ _ _ _ _ Hlook Ho Hl) as (? & ? & _). by eapply held_evolves.
  - destruct (Snapshot c h) as [s h1] eqn:Hs. intros [= <- <-]. by eapply held_snapshot.
  - destruct (Clear c h) as [c1 h1] eqn:Hs. intros [= <- <-].
    destruct (Clear_ok (spilled := spilled) _ _ _ _ Ho Hs) as (? & ? & _). by eapply held_evolves.
Qed.
Lemma cred_run_ok ops cs h cs' h' :
  hands_over lookup -> held cs h -> Forall (fun op => op_ok op.2) ops -> cred_run ops cs h = (cs', h') -> held cs' h'.
Proof.
  intros Hlook Hh Hn. revert cs h Hh. induction Hn as [|[who o] ops Hn _ IH]; intros cs h Hh; simpl; [by intros [= <- <-]|].
  destruct (cred_step who o cs h) as [cs1 h1] eqn:Hs. apply IH. by eapply cred_step_ok.
Qed.
Lemma held_New label : held [NewCredentials label] h0.
Proof.
  split; try done.
  - intros who c [_ <-]%list_lookup_singleton_Some. apply owns_New.
  - intros who who' c c' a [_ <-]%list_lookup_singleton_Some _ Ha. by apply not_owned_New in Ha.
  - intros who c a [_ <-]%list_lookup_singleton_Some Ha. by apply not_owned_New in Ha.
Qed.
End Keeping.

(** Once everybody has cleared, nobody owns a buffer. *)
Lemma clears_empty n cs h : (n <= length cs)%nat ->
  let (cs', h') := cred_run (map (fun who => (who, OpClear)) (seq 0 n)) cs h in
  length cs' = length cs /\ forall who c, (who < n)%nat -> cs' !! who = Some c -> exists label, c = NewCredentials label.
Proof.
  assert (forall n from cs h, (from + n <= length cs)%nat ->
    (forall who c, (who < from)%nat -> cs !! who = Some c -> exists label, c = NewCredentials label) ->
    let (cs', h') := cred_run (map (fun who => (who, OpClear)) (seq from n)) cs h in
    length cs' = length cs /\ forall who c, (who < from + n)%nat -> cs' !! who = Some c -> exists label, c = NewCredentials label) as Hall.
  { clear. induction n as [|n IH]; intros from cs h Hle Hc; simpl.
    { split; [done|]. intros who c Hlt. apply Hc. lia. }
    unfold cred_step. destruct (cs !! from) as [c|] eqn:Hf; [|apply lookup_ge_None in Hf; lia]. unfold Clear. simpl.
    specialize (IH (S from) (<[from := NewCredentials (cd_label c)]> cs)
      (clear_all (map snd (map_to_list (cd_values c))) h)). rewrite length_insert in IH.
    destruct (cred_run _ _ _) as [cs' h']. destruct IH as [H1 H2]; [lia| |split; [done|]; intros who d Hlt; apply H2; lia].
    intros who d Hlt. destruct (decide (who = from)) as [->|Hne].
    - rewrite list_lookup_insert_eq by lia. intros [= <-]. by eexists.
    - rewrite list_lookup_insert_ne by done. apply Hc. lia. }
  intros Hle. apply (Hall n 0%nat cs h); [lia|]. intros who c Hlt. lia.
Qed.
End Histories.


Lemma view_kept c h k k' :
  owns c h -> (forall a, owned c a -> k' !! a = k !! a) -> vault c k' = vault c k /\ MCPFiles c k' = MCPFiles c k.
Proof.
  intros Hc Hk. split; [apply map_ext; intros name; by rewrite (Get_kept c k k')|].
  apply map_eq. intros host. unfold MCPFiles. rewrite !lookup_fmap.
  destruct (default ∅ (cd_mcp c) !! host) as [a|] eqn:Ha; [|done]. simpl. unfold contents. rewrite Hk; [done|].
  exists (mcp_name host). by apply (ow_mcp _ _ Hc).
Qed.

(** A snapshot is independent of its owner: it holds the same values in the same
    order and the same MCP files, in buffers of its own; clearing the owner leaves the
    snapshot's values readable, and clearing the snapshot those of the owner. *)
Theorem snapshot_independent (c : Credentials) (h : Heap) (Hc : owns c h) :
  let (s, h1) := Snapshot c h in
  vault s h1 = vault c h1 /\ vault c h1 = vault c h /\ MCPFiles s h1 = MCPFiles c h /\
  (let (_, h2) := Clear c h1 in vault s h2 = vault c h /\ MCPFiles s h2 = MCPFiles c h) /\
  (let (_, h2) := Clear s h1 in vault c h2 = vault c h /\ MCPFiles c h2 = MCPFiles c h).
Proof.
  destruct (Snapshot c h) as [s h1] eqn:Hs.
  destruct (Snapshot_ok (spilled := fun _ => False) _ _ _ _ Hc Hs) as (Hos & Hkeep & Hsep & _ & Hv & _ & Hf).
  assert (Hown : owns c h1).
  { eapply owns_heap; [exact Hc|]. intros a Ha. apply elem_of_dom. rewrite Hkeep by done. by apply elem_of_dom. }
  destruct (view_kept c h h h1 Hc) as [Hvc Hfc]; [intros a Ha; apply Hkeep; by apply (ow_heap _ _ Hc)|].
  split_and!; [by rewrite Hvc|done|done| |].
  - destruct (Clear c h1) as [c2 h2] eqn:Hclear. destruct (Clear_ok (spilled := fun _ => False) _ _ _ _ Hown Hclear) as (_ & _ & _ & Hk).
    destruct (view_kept s h1 h1 h2 Hos) as [-> ->]; [|done]. intros a Ha. apply Hk. intros Hx. apply (Hsep a Ha). by apply (ow_heap _ _ Hc).
  - destruct (Clear s h1) as [s2 h2] eqn:Hclear. destruct (Clear_ok (spilled := fun _ => False) _ _ _ _ Hos Hclear) as (_ & _ & _ & Hk).
    destruct (view_kept c h h1 h2 Hc) as [-> ->]; [|by split]. intros a Ha. apply Hk. intros Hx. apply (Hsep a Hx). by apply (ow_heap _ _ Hc).
Qed.

(** The MCP secrets: once [LoadMCP] has succeeded, every secret variable of every
    server has a file, and each file is what the lookup has for that host variable: a
    nonempty value of at most 16 KiB on one line, which does not occur in the rendered
    configuration. The other values are kept. A failure leaves no file that breaks these
    rules. *)
Theorem mcp_files_exact (lookup : KeyLookup) (servers : list MCPServerConfig) (configuration : bytes)
    (c : Credentials) (h : Heap) (Hlookup : hands_over lookup) (Hc : owns c h) (Hfirst : cd_mcp c = None) :
  match LoadMCP lookup servers configuration c h with
  | (e, c', h') =>
      map_Forall (mcp_value_ok lookup configuration) (MCPFiles c' h') /\
      (forall m, (forall host, m <> mcp_name host) -> Get c' h' m = Get c h m) /\
      (e = None -> Forall (fun srv => map_Forall (fun _ host => is_Some (MCPFiles c' h' !! host)) (mp_SecretEnv srv)) servers)
  end.
Proof.
  destruct (LoadMCP lookup servers configuration c h) as [[e c'] h'] eqn:Hl.
  destruct (LoadMCP_ok (spilled := fun _ => False) _ _ _ _ _ _ _ _ Hlookup Hc Hl) as (Ho & _ & Hm & Hg & Hall).
  assert (Hok : mcp_ok lookup configuration c' h').
  { apply Hm. intros host. rewrite Hfirst. simpl. rewrite lookup_empty. by intros [? ?]. }
  split_and!; [|done|].
  - intros host value. unfold MCPFiles. rewrite lookup_fmap. intros (a & Ha & ->)%fmap_Some.
    specialize (Hok host (ex_intro _ a Ha)). unfold Get in Hok. by rewrite (ow_mcp _ _ Ho _ _ Ha) in Hok.
  - intros He. apply Forall_forall. intros srv Hsrv key host Hkey. unfold MCPFiles. rewrite lookup_fmap.
    destruct (Hall He srv key host Hsrv Hkey) as [a ->]. by eexists.
Qed.

(** * A concrete occurrence *)

Definition demo_env (name : string) : option string :=
  if String.eqb name "MODEL_KEY" then Some "sk-model-1"%string
  else if String.eqb name "CALENDAR" then Some "calendar-token"%string
  else if String.eqb name "ACCOUNT" then Some "account-secret"%string else None.
Definition demo_server : MCPServerConfig :=
  {| mp_Name := "calendar"; mp_Transport := "stdio"; mp_URL := ""; mp_Command := "serve"; mp_Args := [];
     mp_TimeoutSeconds := 0; mp_Env := ∅; mp_SecretEnv := {["TOKEN" := "CALENDAR"]}%string |}.
Definition demo_ops : list (nat * cred_op) :=
  [(0%nat, OpAddRedactions ["ACCOUNT"; "UNSET"]%string); (0%nat, OpLoad "model" "MODEL_KEY"); (0%nat, OpSet "gateway" (to_bytes "0a1b"));
   (0%nat, OpLoadMCP [demo_server] (to_bytes "key: ${MODEL_KEY}")); (0%nat, OpSnapshot); (0%nat, OpSet "gateway" (to_bytes "2c3d"))].
Definition demo_lookup : KeyLookup := EnvironmentAPIKeyLookup demo_env.

Example demo_secrets :
  let (cs, h) := cred_run (fun _ => None) demo_lookup demo_ops [NewCredentials "Hermes"] ∅ in
  map (fun c => map of_bytes (Secrets c h)) cs =
  [["account-secret"; "sk-model-1"; "2c3d"; "calendar-token"]; ["account-secret"; "sk-model-1"; "0a1b"; "calendar-token"]]%string.
Proof. vm_compute. reflexivity. Qed.
(** What is left of them in the end: the copy for the decoder. *)
Example demo_leftover :
  let (cs, h) := cred_run (fun _ => None) demo_lookup demo_ops [NewCredentials "Hermes"] ∅ in
  let (_, h) := cred_run (fun _ => None) demo_lookup (everybody_clears cs) cs h in
  map of_bytes (List.filter (existsb (fun b => negb (Ascii.eqb b NUL))) (map snd (map_to_list h))) = ["account-secret"]%string.
Proof. vm_compute. reflexivity. Qed.

Lemma demo_native : Forall (fun op => native_name op.2) demo_ops.
Proof. repeat (apply Forall_cons; split); [done..|by constructor]. Qed.
Lemma demo_owns :
  match cred_run (fun _ => None) demo_lookup demo_ops [NewCredentials "Hermes"] ∅ with
  | (c :: _, h) => owns c h
  | _ => False
  end.
Proof.
  destruct (cred_run _ _ _ _ _) as [[|c cs] h] eqn:Hrun; [by vm_compute in Hrun|].
  apply (he_owns (spilled := fun _ => True) ∅ (c :: cs) h) with (who := 0%nat); [|reflexivity].
  refine (cred_run_ok (spilled := fun _ => True) (fun _ => None) demo_lookup ∅ demo_ops [NewCredentials "Hermes"] ∅ _ _
    (environment_hands_over demo_env) (held_New _ _) _ Hrun).
  eapply Forall_impl; [apply demo_native|]. intros [who o] Hn. split; [exact Hn|]. destruct o; simpl; intros; exact I.
Qed.
Lemma snapshot_independent_witness :
  match cred_run (fun _ => None) demo_lookup demo_ops [NewCredentials "Hermes"] ∅ with
  | (c :: _, h) => let (s, h1) := Snapshot c h in vault s h1 = vault c h1
  | _ => False
  end.
Proof.
  pose proof demo_owns as Ho. destruct (cred_run _ _ _ _ _) as [[|c cs] h]; [exact Ho|].
  pose proof (snapshot_independent c h Ho) as H. destruct (Snapshot c h) as [s h1]. apply H.
Defined.
Lemma mcp_files_exact_witness :
  match LoadMCP demo_lookup [demo_server] (to_bytes "key: ${MODEL_KEY}") (NewCredentials "Hermes") ∅ with
  | (e, c', h') => map_Forall (mcp_value_ok demo_lookup (to_bytes "key: ${MODEL_KEY}")) (MCPFiles c' h') /\ e = None
  end.
Proof.
  pose proof (mcp_files_exact demo_lookup [demo_server] (to_bytes "key: ${MODEL_KEY}") (NewCredentials "Hermes") ∅
    (environment_hands_over demo_env) (owns_New "Hermes" ∅) eq_refl) as H.
  destruct (LoadMCP _ _ _ _ _) as [[e c'] h'] eqn:Hl. split; [apply H|].
  assert (e = (LoadMCP demo_lookup [demo_server] (to_bytes "key: ${MODEL_KEY}") (NewCredentials "Hermes") ∅).1.1) as -> by (by rewrite Hl).
  vm_compute. reflexivity.
Defined.
