(* ===== verification/ConfigDeployment.v ===== *)
(** Where the components of an experiment run ([pkg/config], deployment.go): the
    placement of harness, sandbox and bridge, its defaults, and the one composition a
    cluster supports. *)

From S2P Require Import Prelude Utf8 Paths.

(** [url.URL], the fields the code reads; [url.Parse] is an argument below. *)
Record FullURL := {
  ul_Scheme : string;
  ul_Opaque : string;
  ul_User : bool;
  ul_Host : string;
  ul_Path : string;
  ul_RawPath : string;
  ul_ForceQuery : bool;
  ul_RawQuery : string;
  ul_Fragment : string
}.

(** [DockerDeploymentConfig], [KubernetesDeploymentConfig] and [DeploymentConfig]. *)
Record DockerDeploymentConfig := { dk_Socket : string }.
Record KubernetesDeploymentConfig := {
  ku_Namespace : string;
  ku_NodeSelector : gmap string string;
  ku_PodCIDR : string;
  ku_ServiceCIDR : string;
  ku_PrometheusURL : string;
  ku_ServiceAccount : string;
  ku_ImagePullSecret : string;
  ku_Images : gmap string string
}.
Record DeploymentConfig := {
  dc_Backend : string;
  dc_Docker : option DockerDeploymentConfig;
  dc_Kubernetes : option KubernetesDeploymentConfig
}.
Definition no_kubernetes : KubernetesDeploymentConfig :=
  {| ku_Namespace := ""; ku_NodeSelector := ∅; ku_PodCIDR := ""; ku_ServiceCIDR := ""; ku_PrometheusURL := "";
     ku_ServiceAccount := ""; ku_ImagePullSecret := ""; ku_Images := ∅ |}.
Definition set_ku_Namespace (x : string) (k : KubernetesDeploymentConfig) : KubernetesDeploymentConfig :=
  {| ku_Namespace := x; ku_NodeSelector := ku_NodeSelector k; ku_PodCIDR := ku_PodCIDR k;
     ku_ServiceCIDR := ku_ServiceCIDR k; ku_PrometheusURL := ku_PrometheusURL k;
     ku_ServiceAccount := ku_ServiceAccount k; ku_ImagePullSecret := ku_ImagePullSecret k; ku_Images := ku_Images k |}.
Definition set_ku_ServiceAccount (x : string) (k : KubernetesDeploymentConfig) : KubernetesDeploymentConfig :=
  {| ku_Namespace := ku_Namespace k; ku_NodeSelector := ku_NodeSelector k; ku_PodCIDR := ku_PodCIDR k;
     ku_ServiceCIDR := ku_ServiceCIDR k; ku_PrometheusURL := ku_PrometheusURL k; ku_ServiceAccount := x;
     ku_ImagePullSecret := ku_ImagePullSecret k; ku_Images := ku_Images k |}.

(** What [NormalizeDeployment] reads and writes of a [Config]. *)
Record Placement := {
  pl_SandboxType : string;
  pl_BridgeMode : string;
  pl_Harness : DeploymentConfig;
  pl_Sandbox : DeploymentConfig;
  pl_Bridge : DeploymentConfig
}.

(** The result of a check that also normalizes, and its composition. *)
Definition checked (A : Type) : Type := (A + err)%type.
Definition check_bind {A B} (x : checked A) (f : A -> checked B) : checked B :=
  match x with inl a => f a | inr e => inr e end.
Definition check_that (e : error) {A} (x : checked A) : checked A :=
  match e with Some e => inr e | None => x end.

Section Normalize.
Variable url_Parse : string -> option FullURL.
Variable ParsePrefix : string -> bool.      (* netip.ParsePrefix succeeds *)

Definition IsAbs (path : string) : bool := HasPrefix path "/".

(** [normalize], its two backends. *)
Definition bad_prometheus (address : string) : bool :=
  if String.eqb address "" then false
  else match url_Parse address with
  | None => true
  | Some u => String.eqb (ul_Host u) "" || negb (String.eqb (ul_Scheme u) "http" || String.eqb (ul_Scheme u) "https") ||
              ul_User u || negb (String.eqb (ul_RawQuery u) "") || negb (String.eqb (ul_Fragment u) "")
  end.
Definition bad_image (entry : string * string) : bool :=
  let (local, remote) := entry in
  String.eqb (TrimSpace local) "" || String.eqb (TrimSpace remote) "" ||
  ContainsAny (local +:+ remote) [" "%char; "009"%char; CR; NL; NUL].
Definition bad_cidr (cidr : string) : bool := negb (String.eqb cidr "") && negb (ParsePrefix cidr).
Definition normalize_kubernetes_backend (path : string) (d : DeploymentConfig) : checked DeploymentConfig :=
  let k := default no_kubernetes (dc_Kubernetes d) in
  let k := if String.eqb (ku_Namespace k) "" then set_ku_Namespace "aries" k else k in
  check_that
    ((match dc_Docker d with
      | Some _ => Some (ENew (path +:+ ".docker does not apply to backend kubernetes"))
      | None => None
      end) >>?
     first_error (fun cidr => refuse_if bad_cidr cidr with path +:+ ".kubernetes: " +:+ quote cidr +:+ " is not a CIDR")
       [ku_PodCIDR k; ku_ServiceCIDR k] >>?
     (refuse_if bad_prometheus (ku_PrometheusURL k)
        with path +:+ ".kubernetes.prometheus_url must be an http or https URL") >>?
     (refuse_if existsb bad_image (map_to_list (ku_Images k))
        with path +:+ ".kubernetes.images entries must map one image reference to another"))
    (inl {| dc_Backend := "kubernetes"; dc_Docker := dc_Docker d; dc_Kubernetes := Some k |}).

Definition bad_socket (socket : string) : bool :=
  negb (IsAbs socket) || ContainsAny socket [NUL; CR; NL] || negb (String.eqb (TrimSpace socket) socket) ||
  String.eqb (Clean socket) "/".
Definition unix_socket (socket : string) : option string :=
  if HasPrefix socket "unix://" then
    match url_Parse socket with
    | None => None
    | Some u =>
        if negb (String.eqb (ul_Host u) "") || ul_User u || negb (String.eqb (ul_RawQuery u) "") ||
           negb (String.eqb (ul_Fragment u) "") || negb (String.eqb (ul_Opaque u) "")
        then None else Some (ul_Path u)
    end
  else Some socket.
Definition normalize_docker_backend (path : string) (d : DeploymentConfig) : checked DeploymentConfig :=
  let refused := inr (ENew (path +:+ ".docker.socket must be a local absolute Unix socket path")) in
  match dc_Kubernetes d with
  | Some _ => inr (ENew (path +:+ ".kubernetes does not apply to backend docker"))
  | None =>
      let socket := default "" (dk_Socket <$> dc_Docker d) in
      let socket := if String.eqb socket "" then "/var/run/docker.sock" else socket in
      match unix_socket socket with
      | None => refused
      | Some socket =>
          if bad_socket socket then refused
          else inl {| dc_Backend := "docker"; dc_Docker := Some {| dk_Socket := Clean socket |};
                      dc_Kubernetes := None |}
      end
  end.
Definition normalize (path : string) (d : DeploymentConfig) : checked DeploymentConfig :=
  if String.eqb (dc_Backend d) "" && (is_some (dc_Docker d) || is_some (dc_Kubernetes d))
  then inr (ENew (path +:+ ".backend is required with backend options"))
  else
    let backend := if String.eqb (dc_Backend d) "" then "docker"%string else dc_Backend d in
    if String.eqb backend "kubernetes" then normalize_kubernetes_backend path d
    else if String.eqb backend "docker" then normalize_docker_backend path d
    else inr (ENew (path +:+ ".backend " +:+ quote backend +:+ " is unsupported")).

(** [normalizeKubernetes]. *)
Definition on_kubernetes (d : DeploymentConfig) : bool := String.eqb (dc_Backend d) "kubernetes".
Definition kubernetes_of (d : DeploymentConfig) : KubernetesDeploymentConfig := default no_kubernetes (dc_Kubernetes d).
Definition check_placement (namespace : string) (placement : string * DeploymentConfig) : error :=
  let (path, d) := placement in
  let k := kubernetes_of d in
  let sandbox := String.eqb path "sandbox.deployment" in
  let bridge := String.eqb path "bridge.deployment" in
  (refuse_if negb (String.eqb (ku_Namespace k) namespace)
     with path +:+ ".kubernetes.namespace must match sandbox.deployment.kubernetes.namespace " +:+ quote namespace) >>?
  (refuse_if negb sandbox && (negb (String.eqb (ku_PodCIDR k) "") || negb (String.eqb (ku_ServiceCIDR k) ""))
     with path +:+ ".kubernetes: pod_cidr and service_cidr apply only to sandbox.deployment") >>?
  (refuse_if negb sandbox && negb (String.eqb (ku_PrometheusURL k) "")
     with path +:+ ".kubernetes: prometheus_url applies only to sandbox.deployment") >>?
  (refuse_if negb bridge && negb (String.eqb (ku_ServiceAccount k) "")
     with path +:+ ".kubernetes: service_account applies only to bridge.deployment").
Definition default_account (d : DeploymentConfig) : DeploymentConfig :=
  let k := kubernetes_of d in
  if String.eqb (ku_ServiceAccount k) ""
  then {| dc_Backend := dc_Backend d; dc_Docker := dc_Docker d;
          dc_Kubernetes := Some (set_ku_ServiceAccount "aries-bridge" k) |}
  else d.
Definition placements (c : Placement) : list (string * DeploymentConfig) :=
  [("harness.deployment", pl_Harness c); ("sandbox.deployment", pl_Sandbox c); ("bridge.deployment", pl_Bridge c)]%string.
Definition normalizeKubernetes (c : Placement) : checked Placement :=
  let selected := length (filter (fun p => on_kubernetes p.2 = true) (placements c)) in
  if (selected =? 0)%nat then inl c
  else if negb (selected =? 3)%nat
  then inr (ENew "harness, sandbox and bridge must all use the kubernetes deployment backend together")
  else
    check_that (first_error (check_placement (ku_Namespace (kubernetes_of (pl_Sandbox c)))) (placements c))
      (inl {| pl_SandboxType := pl_SandboxType c; pl_BridgeMode := pl_BridgeMode c; pl_Harness := pl_Harness c;
              pl_Sandbox := pl_Sandbox c; pl_Bridge := default_account (pl_Bridge c) |}).

(** [NormalizeDeployment]. *)
Definition on_docker (d : DeploymentConfig) : bool := String.eqb (dc_Backend d) "docker".
Definition socket_of (d : DeploymentConfig) : string := default "" (dk_Socket <$> dc_Docker d).
Definition other_daemon (d sandbox : DeploymentConfig) : bool :=
  on_docker d && on_docker sandbox && negb (String.eqb (socket_of d) (socket_of sandbox)).
Definition NormalizeDeployment (c : Placement) : checked Placement :=
  check_that
    ((refuse_if negb (String.eqb (pl_SandboxType c) "") && negb (String.eqb (pl_SandboxType c) "docker")
        with "sandbox.type: unsupported legacy value " +:+ quote (pl_SandboxType c)) >>?
     (refuse_if String.eqb (pl_SandboxType c) "docker" && negb (String.eqb (dc_Backend (pl_Sandbox c)) "") &&
                negb (String.eqb (dc_Backend (pl_Sandbox c)) "docker")
        with "sandbox.type conflicts with sandbox.deployment.backend " +:+ quote (dc_Backend (pl_Sandbox c))))
  (check_bind (normalize "harness.deployment" (pl_Harness c)) (fun harness =>
   check_bind (normalize "sandbox.deployment" (pl_Sandbox c)) (fun sandbox =>
   let mode := if String.eqb (pl_BridgeMode c) "" then "managed"%string else pl_BridgeMode c in
   check_that
     ((refuse_if other_daemon harness sandbox
         with "harness.deployment.docker.socket and sandbox.deployment.docker.socket must select the same local Docker daemon") >>?
      (refuse_if String.eqb mode "embedded"
         with "bridge.mode embedded is no longer supported; migrate to mode managed with bridge.deployment.backend docker") >>?
      (refuse_if negb (String.eqb mode "managed")
         with "bridge.mode " +:+ quote mode +:+ " is unsupported; use managed"))
   (check_bind (normalize "bridge.deployment" (pl_Bridge c)) (fun bridge =>
   check_that
     (refuse_if other_daemon bridge sandbox
        with "bridge.deployment.docker.socket and sandbox.deployment.docker.socket must select the same local Docker daemon")
   (normalizeKubernetes
     {| pl_SandboxType := ""; pl_BridgeMode := mode; pl_Harness := harness; pl_Sandbox := sandbox;
        pl_Bridge := bridge |})))))).
End Normalize.

(** * Placements that are in effect *)

Section Facts.
Variable url_Parse : string -> option FullURL.
Variable ParsePrefix : string -> bool.

Lemma check_that_inl e {A} (x : checked A) a : check_that e x = inl a <-> e = None /\ x = inl a.
Proof. unfold check_that. destruct e; naive_solver. Qed.
Lemma check_bind_inl {A B} (x : checked A) (f : A -> checked B) b :
  check_bind x f = inl b <-> exists a, x = inl a /\ f a = inl b.
Proof. unfold check_bind. destruct x; naive_solver. Qed.

(** A placement on a daemon: one clean absolute socket. *)
Definition docker_placed (d : DeploymentConfig) (socket : string) : Prop :=
  d = {| dc_Backend := "docker"; dc_Docker := Some {| dk_Socket := socket |}; dc_Kubernetes := None |} /\
  clean_path socket /\ socket <> "/"%string /\ ContainsAny socket [NUL; CR; NL] = false.

(** A placement in a cluster: a namespace and checked settings. *)
Definition kubernetes_placed (d : DeploymentConfig) (k : KubernetesDeploymentConfig) : Prop :=
  d = {| dc_Backend := "kubernetes"; dc_Docker := None; dc_Kubernetes := Some k |} /\
  ku_Namespace k <> ""%string /\
  Forall (fun cidr => bad_cidr ParsePrefix cidr = false) [ku_PodCIDR k; ku_ServiceCIDR k] /\
  bad_prometheus url_Parse (ku_PrometheusURL k) = false /\
  map_Forall (fun local remote => bad_image (local, remote) = false) (ku_Images k).

Lemma ContainsAny_false s set : ContainsAny s set = false <-> forall c, c ∈ to_bytes s -> mem c set = false.
Proof.
  unfold ContainsAny. rewrite <- not_true_iff_false, existsb_exists. split.
  - intros H c Hc. apply not_true_iff_false. intros Hm. apply H. exists c. by rewrite <- list_elem_of_In.
  - intros H (c & Hc & Hm). apply list_elem_of_In in Hc. rewrite (H c Hc) in Hm. done.
Qed.

Lemma images_ok (images : gmap string string) :
  existsb bad_image (map_to_list images) = false <->
  map_Forall (fun local remote => bad_image (local, remote) = false) images.
Proof.
  rewrite <- not_true_iff_false, existsb_exists. split.
  - intros H local remote Hl. apply not_true_iff_false. intros Hb. apply H. exists (local, remote).
    split; [|done]. by apply list_elem_of_In, elem_of_map_to_list.
  - intros H ((local & remote) & Hin & Hb). apply list_elem_of_In, elem_of_map_to_list in Hin.
    by rewrite (H local remote Hin) in Hb.
Qed.

Lemma kubernetes_backend_inl path d d' :
  normalize_kubernetes_backend url_Parse ParsePrefix path d = inl d' ->
  exists k, kubernetes_placed d' k.
Proof.
  unfold normalize_kubernetes_backend.
  set (k := if String.eqb (ku_Namespace (default no_kubernetes (dc_Kubernetes d))) "" then _ else _). intros H.
  apply check_that_inl in H as [He [= <-]]. apply seq_error_nil in He as [Hd He].
  apply seq_error_nil in He as [Hc He]. apply seq_error_nil in He as [Hp Hi].
  apply refuse_if_nil in Hp, Hi. exists k. destruct (dc_Docker d); [done|]. split_and!; try done.
  - subst k. destruct (String.eqb_spec (ku_Namespace (default no_kubernetes (dc_Kubernetes d))) ""); done.
  - apply first_error_nil in Hc. eapply Forall_impl; [exact Hc|]. intros cidr. by rewrite refuse_if_nil.
  - by apply images_ok.
Qed.
Lemma docker_backend_inl path d d' :
  normalize_docker_backend url_Parse path d = inl d' -> exists socket, docker_placed d' socket.
Proof.
  unfold normalize_docker_backend. destruct (dc_Kubernetes d); [done|].
  destruct (unix_socket url_Parse _) as [socket|]; [|done]. destruct (bad_socket socket) eqn:Hb; [done|].
  intros [= <-]. exists (Clean socket). unfold bad_socket, IsAbs in Hb.
  apply orb_false_iff in Hb as [Hb Hroot]. apply orb_false_iff in Hb as [Hb _].
  apply orb_false_iff in Hb as [Habs Hany]. apply negb_false_iff in Habs. apply String.eqb_neq in Hroot.
  split_and!; try done; [by apply Clean_is_clean|].
  apply ContainsAny_false. intros c Hc. apply (proj1 (ContainsAny_false socket _) Hany). by eapply Clean_bytes.
Qed.
Lemma normalize_inl path d d' :
  normalize url_Parse ParsePrefix path d = inl d' ->
  (exists socket, docker_placed d' socket) \/ (exists k, kubernetes_placed d' k).
Proof.
  unfold normalize. destruct (_ && _); [done|]. destruct (String.eqb _ "kubernetes").
  - intros H. right. by eapply kubernetes_backend_inl.
  - destruct (String.eqb _ "docker"); [|done]. intros H. left. by eapply docker_backend_inl.
Qed.

(** A placement in effect normalizes to itself; a daemon's socket may not end in a
    space, which cleaning can expose. *)
Lemma normalize_docker_fixed path d socket :
  docker_placed d socket -> TrimSpace socket = socket -> normalize url_Parse ParsePrefix path d = inl d.
Proof.
  intros (-> & Hclean & Hroot & Hany) Htrim. unfold normalize. simpl.
  unfold normalize_docker_backend. simpl. pose proof (clean_path_rooted _ Hclean) as [Hne Habs].
  rewrite (proj2 (String.eqb_neq socket "") Hne). unfold unix_socket.
  assert (HasPrefix socket "unix://" = false) as ->.
  { destruct socket as [|c rest]; [done|]. unfold HasPrefix in *. simpl in *.
    destruct (ascii_dec "/" c) as [<-|]; [done|]. by destruct (ascii_dec "u" c). }
  rewrite (Clean_fixes _ Hclean). unfold bad_socket, IsAbs.
  rewrite Habs, Hany, Htrim, String.eqb_refl, (Clean_fixes _ Hclean), (proj2 (String.eqb_neq socket "/") Hroot). done.
Qed.
Lemma normalize_kubernetes_fixed path d k :
  kubernetes_placed d k -> normalize url_Parse ParsePrefix path d = inl d.
Proof.
  intros (-> & Hn & Hc & Hp & Hi). unfold normalize. simpl. unfold normalize_kubernetes_backend. simpl.
  rewrite (proj2 (String.eqb_neq _ _) Hn), Hp. apply images_ok in Hi. rewrite Hi.
  apply Forall_cons in Hc as [Hc1 Hc]. apply Forall_cons in Hc as [Hc2 _]. by rewrite Hc1, Hc2.
Qed.

(** The two compositions an experiment can run in: all three components on one daemon,
    or all three in one namespace of a cluster, with the settings of each where they
    apply. *)
Definition in_effect (c : Placement) : Prop :=
  pl_SandboxType c = ""%string /\ pl_BridgeMode c = "managed"%string /\
  ((exists socket, docker_placed (pl_Harness c) socket /\ docker_placed (pl_Sandbox c) socket /\
      docker_placed (pl_Bridge c) socket) \/
   (exists harness sandbox bridge, kubernetes_placed (pl_Harness c) harness /\
      kubernetes_placed (pl_Sandbox c) sandbox /\ kubernetes_placed (pl_Bridge c) bridge /\
      ku_Namespace harness = ku_Namespace sandbox /\ ku_Namespace bridge = ku_Namespace sandbox /\
      Forall (fun k => ku_PodCIDR k = "" /\ ku_ServiceCIDR k = "" /\ ku_PrometheusURL k = "")%string [harness; bridge] /\
      Forall (fun k => ku_ServiceAccount k = "")%string [harness; sandbox] /\ ku_ServiceAccount bridge <> ""%string)).
Definition trimmed (c : Placement) : Prop := TrimSpace (socket_of (pl_Sandbox c)) = socket_of (pl_Sandbox c).

Lemma check_placement_nil namespace path d :
  check_placement namespace (path, d) = None ->
  ku_Namespace (kubernetes_of d) = namespace /\
  (path <> "sandbox.deployment"%string -> ku_PodCIDR (kubernetes_of d) = "" /\
     ku_ServiceCIDR (kubernetes_of d) = "" /\ ku_PrometheusURL (kubernetes_of d) = "")%string /\
  (path <> "bridge.deployment"%string -> ku_ServiceAccount (kubernetes_of d) = ""%string).
Proof.
  unfold check_placement. rewrite !seq_error_nil, !refuse_if_nil. intros (H1 & H2 & H3 & H4).
  apply negb_false_iff, String.eqb_eq in H1. split; [done|]. split.
  - intros Hne. apply String.eqb_neq in Hne. rewrite Hne in H2, H3. simpl in H2, H3.
    apply orb_false_iff in H2 as [H2 H2']. by rewrite !negb_false_iff, !String.eqb_eq in *.
  - intros Hne. apply String.eqb_neq in Hne. rewrite Hne in H4. simpl in H4.
    by apply negb_false_iff, String.eqb_eq in H4.
Qed.

Lemma default_account_placed d k :
  kubernetes_placed d k -> exists k', kubernetes_placed (default_account d) k' /\
    ku_Namespace k' = ku_Namespace k /\ ku_PodCIDR k' = ku_PodCIDR k /\ ku_ServiceCIDR k' = ku_ServiceCIDR k /\
    ku_PrometheusURL k' = ku_PrometheusURL k /\ ku_ServiceAccount k' <> ""%string.
Proof.
  intros (-> & H). unfold default_account, kubernetes_of. simpl.
  destruct (String.eqb_spec (ku_ServiceAccount k) "").
  - exists (set_ku_ServiceAccount "aries-bridge" k). split; [split; [done|]; exact H|done].
  - exists k. split; [split; done|done].
Qed.

Lemma normalizeKubernetes_in_effect mode harness sandbox bridge c' :
  ((exists socket, docker_placed harness socket) \/ (exists k, kubernetes_placed harness k)) ->
  ((exists socket, docker_placed sandbox socket) \/ (exists k, kubernetes_placed sandbox k)) ->
  ((exists socket, docker_placed bridge socket) \/ (exists k, kubernetes_placed bridge k)) ->
  other_daemon harness sandbox = false -> other_daemon bridge sandbox = false -> mode = "managed"%string ->
  normalizeKubernetes {| pl_SandboxType := ""; pl_BridgeMode := mode; pl_Harness := harness;
                         pl_Sandbox := sandbox; pl_Bridge := bridge |} = inl c' -> in_effect c'.
Proof.
  intros Hh Hs Hb Dh Db -> H. unfold normalizeKubernetes in H.
  destruct Hh as [(sh & Hh)|(kh & Hh)], Hs as [(ss & Hs)|(ks & Hs)], Hb as [(sb & Hb)|(kb & Hb)];
    pose proof (proj1 Hh) as Eh; pose proof (proj1 Hs) as Es; pose proof (proj1 Hb) as Eb; subst; try done.
  - injection H as <-. split; [done|]. split; [done|]. left. exists ss. simpl.
    unfold other_daemon in Dh, Db. simpl in Dh, Db. apply negb_false_iff, String.eqb_eq in Dh, Db. unfold socket_of in Dh, Db. simpl in Dh, Db. subst.
    by split; [|split].
  - apply check_that_inl in H as [He [= <-]]. apply first_error_nil in He.
    apply Forall_cons in He as [Ch He]. apply Forall_cons in He as [Cs He]. apply Forall_cons in He as [Cb _].
    apply check_placement_nil in Ch as (N1 & P1 & A1), Cs as (_ & _ & A2), Cb as (N3 & P3 & _).
    split; [done|]. split; [done|]. right. cbn [pl_Harness pl_Sandbox pl_Bridge].
    destruct (default_account_placed _ _ Hb) as (k' & Hk & En & E1 & E2 & E3 & E4).
    exists kh, ks, k'. simpl in *. rewrite En.
    destruct P1 as (? & ? & ?); [done|]. destruct P3 as (? & ? & ?); [done|].
    split_and!; try done; repeat constructor; rewrite ?E1, ?E2, ?E3; try congruence; auto.
Qed.

Lemma NormalizeDeployment_in_effect c c' :
  NormalizeDeployment url_Parse ParsePrefix c = inl c' -> in_effect c'.
Proof.
  unfold NormalizeDeployment. intros H. apply check_that_inl in H as [_ H].
  apply check_bind_inl in H as (harness & Hh & H). apply check_bind_inl in H as (sandbox & Hs & H).
  apply check_that_inl in H as [He H]. apply check_bind_inl in H as (bridge & Hb & H).
  apply check_that_inl in H as [Hd H]. apply refuse_if_nil in Hd.
  rewrite !seq_error_nil, !refuse_if_nil in He. destruct He as (Hd1 & _ & Hm). apply negb_false_iff, String.eqb_eq in Hm.
  eapply normalizeKubernetes_in_effect in H; eauto using normalize_inl.
Qed.

Lemma in_effect_fixed c :
  in_effect c -> trimmed c -> NormalizeDeployment url_Parse ParsePrefix c = inl c.
Proof.
  destruct c as [type mode harness sandbox bridge]. unfold in_effect, trimmed. simpl.
  intros (-> & -> & [(socket & Hh & Hs & Hb)|(kh & ks & kb & Hh & Hs & Hb & Nh & Nb & Hall & Hacc & Hb')]) Ht.
  - assert (TrimSpace socket = socket) as Htrim by by rewrite (proj1 Hs) in Ht.
    unfold NormalizeDeployment. simpl.
    rewrite (normalize_docker_fixed _ _ _ Hh Htrim), (normalize_docker_fixed _ _ _ Hs Htrim). simpl.
    rewrite (normalize_docker_fixed _ _ _ Hb Htrim). destruct Hh as [-> _], Hs as [-> _], Hb as [-> _].
    unfold other_daemon. simpl. by rewrite String.eqb_refl.
  - unfold NormalizeDeployment. simpl.
    rewrite (normalize_kubernetes_fixed _ _ _ Hh), (normalize_kubernetes_fixed _ _ _ Hs). simpl.
    rewrite (normalize_kubernetes_fixed _ _ _ Hb). destruct Hh as [-> _], Hs as [-> _], Hb as [-> _].
    apply Forall_cons in Hall as [(H1 & H2 & H3) Hall]. apply Forall_cons in Hall as [(H4 & H5 & H6) _].
    apply Forall_cons in Hacc as [A1 Hacc]. apply Forall_cons in Hacc as [A2 _].
    unfold other_daemon, normalizeKubernetes, check_placement, kubernetes_of. simpl.
    rewrite Nh, Nb, !String.eqb_refl, H1, H2, H3, H4, H5, H6, A1, A2. simpl.
    unfold default_account, kubernetes_of. simpl. apply String.eqb_neq in Hb'. by rewrite Hb'.
Qed.
End Facts.

(** A normalized placement is one of the two that can run, and normalizing it again
    changes nothing: all three components on one daemon behind one clean absolute socket,
    or all three in one namespace with checked networks, addresses and images and each
    setting only where it applies; a socket that cleaning leaves with a trailing space is
    the one exception. *)
Theorem deployment_normal_form url_Parse ParsePrefix c c' :
  NormalizeDeployment url_Parse ParsePrefix c = inl c' ->
  in_effect url_Parse ParsePrefix c' /\
  (trimmed c' -> NormalizeDeployment url_Parse ParsePrefix c' = inl c').
Proof. intros H. split; [|apply in_effect_fixed]; by eapply NormalizeDeployment_in_effect. Qed.

(** * Concrete placements *)

Definition no_deployment : DeploymentConfig := {| dc_Backend := ""; dc_Docker := None; dc_Kubernetes := None |}.
Definition legacy : Placement :=
  {| pl_SandboxType := "docker"; pl_BridgeMode := ""; pl_Harness := no_deployment; pl_Sandbox := no_deployment;
     pl_Bridge := no_deployment |}.
Definition on_daemon (socket : string) : DeploymentConfig :=
  {| dc_Backend := "docker"; dc_Docker := Some {| dk_Socket := socket |}; dc_Kubernetes := None |}.
Definition on_daemons (socket : string) : Placement :=
  {| pl_SandboxType := ""; pl_BridgeMode := "managed"; pl_Harness := on_daemon socket;
     pl_Sandbox := on_daemon socket; pl_Bridge := on_daemon socket |}.
Definition on_cluster (account : string) : DeploymentConfig :=
  {| dc_Backend := "kubernetes"; dc_Docker := None;
     dc_Kubernetes := Some (set_ku_ServiceAccount account (set_ku_Namespace "aries" no_kubernetes)) |}.
Definition unset_cluster : DeploymentConfig := {| dc_Backend := "kubernetes"; dc_Docker := None; dc_Kubernetes := None |}.

Lemma deployment_normal_form_witness :
  in_effect (fun _ => None) (fun _ => false) (on_daemons "/var/run/docker.sock") /\
  (trimmed (on_daemons "/var/run/docker.sock") ->
   NormalizeDeployment (fun _ => None) (fun _ => false) (on_daemons "/var/run/docker.sock") =
     inl (on_daemons "/var/run/docker.sock")).
Proof. apply (deployment_normal_form (fun _ => None) (fun _ => false) legacy). vm_compute. reflexivity. Defined.

Example cluster_defaults :
  NormalizeDeployment (fun _ => None) (fun _ => false)
    {| pl_SandboxType := ""; pl_BridgeMode := ""; pl_Harness := unset_cluster; pl_Sandbox := unset_cluster;
       pl_Bridge := unset_cluster |} =
  inl {| pl_SandboxType := ""; pl_BridgeMode := "managed"; pl_Harness := on_cluster ""; pl_Sandbox := on_cluster "";
         pl_Bridge := on_cluster "aries-bridge" |}.
Proof. vm_compute. reflexivity. Qed.

(** Cleaning exposes a trailing space, and the normalized placement is refused. *)
Example trailing_space_not_fixed :
  NormalizeDeployment (fun _ => None) (fun _ => false) (on_daemons "/run/a /.") = inl (on_daemons "/run/a ") /\
  is_some (match NormalizeDeployment (fun _ => None) (fun _ => false) (on_daemons "/run/a ") with
           | inl _ => None | inr e => Some e end) = true.
Proof. vm_compute. split; reflexivity. Qed.
