(* ===== verification/ConfigModel.v ===== *)
(** The experiment file as data ([pkg/config], config.go): one record per
    configuration block, with the zero values the checks compare with. *)

From S2P Require Import Prelude Core ConfigDeployment.

(** [ExecutionConfig]. *)
Record ExecutionConfig := {
  ec_Concurrency : Z;
  ec_LoopDuration : string;
  ec_Loop : Z;
  ec_ArrivalsFile : string;
  ec_ArrivalRatePerMin : float64
}.

(** [RuntimeConfig] and [RuntimeConfigValues]. *)
Record RuntimeConfigValues := {
  rv_File : string;
  rv_Executable : string;
  rv_StartupTimeoutText : string;
  rv_StopTimeoutText : string;
  rv_StartupTimeout : Z;
  rv_StopTimeout : Z;
  rv_ResolvedFile : string;
  rv_GPUIndices : list Z
}.
Record RuntimeConfig := { rc_Backend : string; rc_Mode : string; rc_Config : RuntimeConfigValues }.

(** [ResourceOverrides] and [RuntimeOverrides]. *)
Record ResourceOverrides := { rs_CPU : option float64; rs_MemoryMB : option Z }.
Record RuntimeOverrides := {
  rn_HarnessResources : ResourceOverrides;
  rn_AgentSandboxResources : ResourceOverrides;
  rn_AgentTimeoutSeconds : option float64;
  rn_AgentTimeout : option Z;
  rn_VerifierTimeoutFloorSeconds : option float64;
  rn_VerifierTimeoutFloor : option Z
}.

(** [ProfileModel], [JudgeConfig] and [FactConfig]. *)
Record ProfileModel := {
  pm_ID : string;
  pm_BaseURL : string;
  pm_APIKeyEnv : string;
  pm_ReasoningEffort : string;
  pm_ContextLength : Z;
  pm_MaxTokens : Z;
  pm_Temperature : option float64
}.
Record JudgeConfig := { jc_Model : ProfileModel; jc_Enabled : option bool; jc_Provider : string }.
Record FactConfig := {
  fc_Provider : string;
  fc_BaseURL : string;
  fc_ID : string;
  fc_APIKeyEnv : string;
  fc_JinaAPIKeyEnv : string
}.
Definition ProfileModel_is_zero (m : ProfileModel) : bool :=
  String.eqb (pm_ID m) "" && String.eqb (pm_BaseURL m) "" && String.eqb (pm_APIKeyEnv m) "" &&
  String.eqb (pm_ReasoningEffort m) "" && (pm_ContextLength m =? 0) && (pm_MaxTokens m =? 0) &&
  negb (is_some (pm_Temperature m)).

(** [coreModel]. *)
Definition coreModel (m : ProfileModel) (provider : string) : ModelConfig :=
  {| mc_Provider := provider; mc_BaseURL := pm_BaseURL m; mc_Model := pm_ID m; mc_APIKeyEnv := pm_APIKeyEnv m;
     mc_ReasoningEffort := pm_ReasoningEffort m; mc_ContextLength := pm_ContextLength m;
     mc_MaxTokens := pm_MaxTokens m; mc_Temperature := pm_Temperature m |}.

(** [BenchmarkEnvironment], [ToolathlonConfig] and [BenchmarkConfig]. *)
Record BenchmarkEnvironment := {
  be_Image : string;
  be_Workdir : string;
  be_CPU : float64;
  be_MemoryMB : Z;
  be_StorageMB : Z;
  be_Env : gmap string string
}.
Record ToolathlonConfig := {
  tc_GatewayPort : Z;
  tc_AppHost : string;
  tc_MaxSteps : Z;
  tc_CredentialsEnv : gmap string string;
  tc_CredentialFilesEnv : gmap string string
}.
Record BenchmarkConfig := {
  bc_Type : string;
  bc_Root : string;
  bc_Tasks : list string;
  bc_Environment : option BenchmarkEnvironment;
  bc_Judge : option JudgeConfig;
  bc_Fact : option FactConfig;
  bc_Toolathlon : option ToolathlonConfig
}.

(** The harness blocks; [Hermes] is its one field, the raw [extra_body]. *)
Record RealtimeTTSConfig := {
  tt_Provider : string;
  tt_BaseURL : string;
  tt_APIKeyEnv : string;
  tt_Model : string;
  tt_Voice : string;
  tt_Instructions : string;
  tt_Speed : option float64;
  tt_TimeoutText : string;
  tt_Timeout : Z
}.
Record HarnessRealtimeConfig := {
  hr_AgentQuestionTemplate : string;
  hr_TTS : RealtimeTTSConfig;
  hr_ChunkDurationText : string;
  hr_ListenDurationText : string;
  hr_QuietDurationText : string;
  hr_AgentWaitDurationText : string;
  hr_ToolCallTimeoutText : string;
  hr_TrailingSilenceMillis : Z;
  hr_Provider : string;
  hr_Model : string;
  hr_Voice : string;
  hr_ReasoningEffort : string;
  hr_IncludeEvents : bool;
  hr_ChunkDuration : Z;
  hr_ListenDuration : Z;
  hr_QuietDuration : Z;
  hr_AgentWaitDuration : Z;
  hr_ToolCallTimeout : Z
}.
Record VoiceSTTConfig := {
  st_Provider : string;
  st_Model : string;
  st_Language : string;
  st_TimeoutText : string;
  st_Timeout : Z
}.
Record HarnessVoiceTranscribeConfig := { hv_Realtime : HarnessRealtimeConfig; hv_STT : VoiceSTTConfig }.
Record HarnessWebSearchConfig := { hw_Enabled : bool; hw_ExtractAPIKeyEnv : string }.
Record HarnessSubagentsConfig := { hs_Enabled : option bool; hs_MaxConcurrent : Z }.
Record HarnessCompactionConfig := { hk_Enabled : option bool; hk_ThresholdTokens : Z }.
Record HarnessConfig := {
  hc_Deployment : DeploymentConfig;
  hc_Type : string;
  hc_Mode : string;
  hc_Realtime : HarnessRealtimeConfig;
  hc_VoiceTranscribe : HarnessVoiceTranscribeConfig;
  hc_WebSearch : HarnessWebSearchConfig;
  hc_Subagents : HarnessSubagentsConfig;
  hc_MCPServers : list MCPServerConfig;
  hc_Compaction : option HarnessCompactionConfig;
  hc_Hermes : option bytes
}.

Definition zero_TTS : RealtimeTTSConfig :=
  {| tt_Provider := ""; tt_BaseURL := ""; tt_APIKeyEnv := ""; tt_Model := ""; tt_Voice := ""; tt_Instructions := "";
     tt_Speed := None; tt_TimeoutText := ""; tt_Timeout := 0 |}.
Definition zero_Realtime : HarnessRealtimeConfig :=
  {| hr_AgentQuestionTemplate := ""; hr_TTS := zero_TTS; hr_ChunkDurationText := ""; hr_ListenDurationText := "";
     hr_QuietDurationText := ""; hr_AgentWaitDurationText := ""; hr_ToolCallTimeoutText := "";
     hr_TrailingSilenceMillis := 0; hr_Provider := ""; hr_Model := ""; hr_Voice := ""; hr_ReasoningEffort := "";
     hr_IncludeEvents := false; hr_ChunkDuration := 0; hr_ListenDuration := 0; hr_QuietDuration := 0;
     hr_AgentWaitDuration := 0; hr_ToolCallTimeout := 0 |}.
Definition zero_STT : VoiceSTTConfig :=
  {| st_Provider := ""; st_Model := ""; st_Language := ""; st_TimeoutText := ""; st_Timeout := 0 |}.
Definition zero_Voice : HarnessVoiceTranscribeConfig := {| hv_Realtime := zero_Realtime; hv_STT := zero_STT |}.

(** [==] on these structs: a non-nil pointer differs from nil, and no set pointer is
    compared here with another. *)
#[export] Instance float64_eq_dec : EqDecision float64.
Proof. solve_decision. Defined.
#[export] Instance TTS_eq_dec : EqDecision RealtimeTTSConfig.
Proof. solve_decision. Defined.
#[export] Instance Realtime_eq_dec : EqDecision HarnessRealtimeConfig.
Proof. solve_decision. Defined.
#[export] Instance STT_eq_dec : EqDecision VoiceSTTConfig.
Proof. solve_decision. Defined.
#[export] Instance Voice_eq_dec : EqDecision HarnessVoiceTranscribeConfig.
Proof. solve_decision. Defined.

(** [SandboxConfig], [BridgeConfig]; and the version catalog. *)
Record SandboxConfig := { sc_Type : string; sc_Deployment : DeploymentConfig }.
Record BridgeConfig := {
  bg_Deployment : DeploymentConfig;
  bg_Mode : string;
  bg_Type : string;
  bg_RetainRawLog : option bool
}.
Definition RetainBridgeRawLog (c : BridgeConfig) : bool :=
  match bg_RetainRawLog c with Some b => b | None => false end.

Record Pin := { pn_RepositoryURL : string; pn_Revision : string }.
Record SWEbenchProVersions := { sw_Dataset : Pin; sw_Evaluator : Pin }.
Record BridgeVersions := { bv_Image : string; bv_BaseImage : string; bv_KubernetesBaseImage : string }.
Record HermesOTelPluginVersions := { ho_Pin : Pin; ho_Version : string }.
Record HermesVersions := { hm_Image : string; hm_OTelPlugin : HermesOTelPluginVersions; hm_GRPCIO : string }.
Record Versions := {
  vs_Bridge : BridgeVersions;
  vs_TerminalBench2 : Pin;
  vs_DeepResearchBench : Pin;
  vs_SWEAtlas : Pin;
  vs_SWEbenchPro : SWEbenchProVersions;
  vs_Toolathlon : Pin;
  vs_OpenClaw_Image : string;
  vs_Hermes : HermesVersions
}.
Definition no_pin : Pin := {| pn_RepositoryURL := ""; pn_Revision := "" |}.
Definition no_plugin : HermesOTelPluginVersions := {| ho_Pin := no_pin; ho_Version := "" |}.
#[export] Instance Pin_eq_dec : EqDecision Pin.
Proof. solve_decision. Defined.
#[export] Instance plugin_eq_dec : EqDecision HermesOTelPluginVersions.
Proof. solve_decision. Defined.

(** [Config], without the catalog and the overrides that [Load] adds. *)
Record Config := {
  cf_Name : string;
  cf_VersionsFile : string;
  cf_OverridesFile : string;
  cf_Benchmark : BenchmarkConfig;
  cf_Harness : HarnessConfig;
  cf_Sandbox : SandboxConfig;
  cf_Bridge : BridgeConfig;
  cf_Runtime : RuntimeConfig;
  cf_Model : ProfileModel;
  cf_Execution : ExecutionConfig;
  cf_OutputDir : string
}.

(** Field updates. *)
Definition set_tt_Provider (x : string) (r : RealtimeTTSConfig) : RealtimeTTSConfig :=
  {| tt_Provider := x; tt_BaseURL := tt_BaseURL r; tt_APIKeyEnv := tt_APIKeyEnv r;
     tt_Model := tt_Model r; tt_Voice := tt_Voice r; tt_Instructions := tt_Instructions r;
     tt_Speed := tt_Speed r; tt_TimeoutText := tt_TimeoutText r; tt_Timeout := tt_Timeout r |}.
Definition set_tt_APIKeyEnv (x : string) (r : RealtimeTTSConfig) : RealtimeTTSConfig :=
  {| tt_Provider := tt_Provider r; tt_BaseURL := tt_BaseURL r; tt_APIKeyEnv := x;
     tt_Model := tt_Model r; tt_Voice := tt_Voice r; tt_Instructions := tt_Instructions r;
     tt_Speed := tt_Speed r; tt_TimeoutText := tt_TimeoutText r; tt_Timeout := tt_Timeout r |}.
Definition set_tt_Timeout (x : Z) (r : RealtimeTTSConfig) : RealtimeTTSConfig :=
  {| tt_Provider := tt_Provider r; tt_BaseURL := tt_BaseURL r; tt_APIKeyEnv := tt_APIKeyEnv r;
     tt_Model := tt_Model r; tt_Voice := tt_Voice r; tt_Instructions := tt_Instructions r;
     tt_Speed := tt_Speed r; tt_TimeoutText := tt_TimeoutText r; tt_Timeout := x |}.
Definition set_hr_TTS (x : RealtimeTTSConfig) (r : HarnessRealtimeConfig) : HarnessRealtimeConfig :=
  {| hr_AgentQuestionTemplate := hr_AgentQuestionTemplate r; hr_TTS := x;
     hr_ChunkDurationText := hr_ChunkDurationText r;
     hr_ListenDurationText := hr_ListenDurationText r;
     hr_QuietDurationText := hr_QuietDurationText r;
     hr_AgentWaitDurationText := hr_AgentWaitDurationText r;
     hr_ToolCallTimeoutText := hr_ToolCallTimeoutText r;
     hr_TrailingSilenceMillis := hr_TrailingSilenceMillis r; hr_Provider := hr_Provider r;
     hr_Model := hr_Model r; hr_Voice := hr_Voice r; hr_ReasoningEffort := hr_ReasoningEffort r;
     hr_IncludeEvents := hr_IncludeEvents r; hr_ChunkDuration := hr_ChunkDuration r;
     hr_ListenDuration := hr_ListenDuration r; hr_QuietDuration := hr_QuietDuration r;
     hr_AgentWaitDuration := hr_AgentWaitDuration r;
     hr_ToolCallTimeout := hr_ToolCallTimeout r |}.
Definition set_hr_ChunkDuration (x : Z) (r : HarnessRealtimeConfig) : HarnessRealtimeConfig :=
  {| hr_AgentQuestionTemplate := hr_AgentQuestionTemplate r; hr_TTS := hr_TTS r;
     hr_ChunkDurationText := hr_ChunkDurationText r;
     hr_ListenDurationText := hr_ListenDurationText r;
     hr_QuietDurationText := hr_QuietDurationText r;
     hr_AgentWaitDurationText := hr_AgentWaitDurationText r;
     hr_ToolCallTimeoutText := hr_ToolCallTimeoutText r;
     hr_TrailingSilenceMillis := hr_TrailingSilenceMillis r; hr_Provider := hr_Provider r;
     hr_Model := hr_Model r; hr_Voice := hr_Voice r; hr_ReasoningEffort := hr_ReasoningEffort r;
     hr_IncludeEvents := hr_IncludeEvents r; hr_ChunkDuration := x;
     hr_ListenDuration := hr_ListenDuration r; hr_QuietDuration := hr_QuietDuration r;
     hr_AgentWaitDuration := hr_AgentWaitDuration r;
     hr_ToolCallTimeout := hr_ToolCallTimeout r |}.
Definition set_hr_ListenDuration (x : Z) (r : HarnessRealtimeConfig) : HarnessRealtimeConfig :=
  {| hr_AgentQuestionTemplate := hr_AgentQuestionTemplate r; hr_TTS := hr_TTS r;
     hr_ChunkDurationText := hr_ChunkDurationText r;
     hr_ListenDurationText := hr_ListenDurationText r;
     hr_QuietDurationText := hr_QuietDurationText r;
     hr_AgentWaitDurationText := hr_AgentWaitDurationText r;
     hr_ToolCallTimeoutText := hr_ToolCallTimeoutText r;
     hr_TrailingSilenceMillis := hr_TrailingSilenceMillis r; hr_Provider := hr_Provider r;
     hr_Model := hr_Model r; hr_Voice := hr_Voice r; hr_ReasoningEffort := hr_ReasoningEffort r;
     hr_IncludeEvents := hr_IncludeEvents r; hr_ChunkDuration := hr_ChunkDuration r;
     hr_ListenDuration := x; hr_QuietDuration := hr_QuietDuration r;
     hr_AgentWaitDuration := hr_AgentWaitDuration r;
     hr_ToolCallTimeout := hr_ToolCallTimeout r |}.
Definition set_hr_QuietDuration (x : Z) (r : HarnessRealtimeConfig) : HarnessRealtimeConfig :=
  {| hr_AgentQuestionTemplate := hr_AgentQuestionTemplate r; hr_TTS := hr_TTS r;
     hr_ChunkDurationText := hr_ChunkDurationText r;
     hr_ListenDurationText := hr_ListenDurationText r;
     hr_QuietDurationText := hr_QuietDurationText r;
     hr_AgentWaitDurationText := hr_AgentWaitDurationText r;
     hr_ToolCallTimeoutText := hr_ToolCallTimeoutText r;
     hr_TrailingSilenceMillis := hr_TrailingSilenceMillis r; hr_Provider := hr_Provider r;
     hr_Model := hr_Model r; hr_Voice := hr_Voice r; hr_ReasoningEffort := hr_ReasoningEffort r;
     hr_IncludeEvents := hr_IncludeEvents r; hr_ChunkDuration := hr_ChunkDuration r;
     hr_ListenDuration := hr_ListenDuration r; hr_QuietDuration := x;
     hr_AgentWaitDuration := hr_AgentWaitDuration r;
     hr_ToolCallTimeout := hr_ToolCallTimeout r |}.
Definition set_hr_AgentWaitDuration (x : Z) (r : HarnessRealtimeConfig) : HarnessRealtimeConfig :=
  {| hr_AgentQuestionTemplate := hr_AgentQuestionTemplate r; hr_TTS := hr_TTS r;
     hr_ChunkDurationText := hr_ChunkDurationText r;
     hr_ListenDurationText := hr_ListenDurationText r;
     hr_QuietDurationText := hr_QuietDurationText r;
     hr_AgentWaitDurationText := hr_AgentWaitDurationText r;
     hr_ToolCallTimeoutText := hr_ToolCallTimeoutText r;
     hr_TrailingSilenceMillis := hr_TrailingSilenceMillis r; hr_Provider := hr_Provider r;
     hr_Model := hr_Model r; hr_Voice := hr_Voice r; hr_ReasoningEffort := hr_ReasoningEffort r;
     hr_IncludeEvents := hr_IncludeEvents r; hr_ChunkDuration := hr_ChunkDuration r;
     hr_ListenDuration := hr_ListenDuration r; hr_QuietDuration := hr_QuietDuration r;
     hr_AgentWaitDuration := x; hr_ToolCallTimeout := hr_ToolCallTimeout r |}.
Definition set_hr_ToolCallTimeout (x : Z) (r : HarnessRealtimeConfig) : HarnessRealtimeConfig :=
  {| hr_AgentQuestionTemplate := hr_AgentQuestionTemplate r; hr_TTS := hr_TTS r;
     hr_ChunkDurationText := hr_ChunkDurationText r;
     hr_ListenDurationText := hr_ListenDurationText r;
     hr_QuietDurationText := hr_QuietDurationText r;
     hr_AgentWaitDurationText := hr_AgentWaitDurationText r;
     hr_ToolCallTimeoutText := hr_ToolCallTimeoutText r;
     hr_TrailingSilenceMillis := hr_TrailingSilenceMillis r; hr_Provider := hr_Provider r;
     hr_Model := hr_Model r; hr_Voice := hr_Voice r; hr_ReasoningEffort := hr_ReasoningEffort r;
     hr_IncludeEvents := hr_IncludeEvents r; hr_ChunkDuration := hr_ChunkDuration r;
     hr_ListenDuration := hr_ListenDuration r; hr_QuietDuration := hr_QuietDuration r;
     hr_AgentWaitDuration := hr_AgentWaitDuration r; hr_ToolCallTimeout := x |}.
Definition set_st_Provider (x : string) (r : VoiceSTTConfig) : VoiceSTTConfig :=
  {| st_Provider := x; st_Model := st_Model r; st_Language := st_Language r;
     st_TimeoutText := st_TimeoutText r; st_Timeout := st_Timeout r |}.
Definition set_st_Model (x : string) (r : VoiceSTTConfig) : VoiceSTTConfig :=
  {| st_Provider := st_Provider r; st_Model := x; st_Language := st_Language r;
     st_TimeoutText := st_TimeoutText r; st_Timeout := st_Timeout r |}.
Definition set_st_Timeout (x : Z) (r : VoiceSTTConfig) : VoiceSTTConfig :=
  {| st_Provider := st_Provider r; st_Model := st_Model r; st_Language := st_Language r;
     st_TimeoutText := st_TimeoutText r; st_Timeout := x |}.
Definition set_hc_Deployment (x : DeploymentConfig) (r : HarnessConfig) : HarnessConfig :=
  {| hc_Deployment := x; hc_Type := hc_Type r; hc_Mode := hc_Mode r;
     hc_Realtime := hc_Realtime r; hc_VoiceTranscribe := hc_VoiceTranscribe r;
     hc_WebSearch := hc_WebSearch r; hc_Subagents := hc_Subagents r;
     hc_MCPServers := hc_MCPServers r; hc_Compaction := hc_Compaction r;
     hc_Hermes := hc_Hermes r |}.
Definition set_hc_Mode (x : string) (r : HarnessConfig) : HarnessConfig :=
  {| hc_Deployment := hc_Deployment r; hc_Type := hc_Type r; hc_Mode := x;
     hc_Realtime := hc_Realtime r; hc_VoiceTranscribe := hc_VoiceTranscribe r;
     hc_WebSearch := hc_WebSearch r; hc_Subagents := hc_Subagents r;
     hc_MCPServers := hc_MCPServers r; hc_Compaction := hc_Compaction r;
     hc_Hermes := hc_Hermes r |}.
Definition set_hc_Realtime (x : HarnessRealtimeConfig) (r : HarnessConfig) : HarnessConfig :=
  {| hc_Deployment := hc_Deployment r; hc_Type := hc_Type r; hc_Mode := hc_Mode r;
     hc_Realtime := x; hc_VoiceTranscribe := hc_VoiceTranscribe r;
     hc_WebSearch := hc_WebSearch r; hc_Subagents := hc_Subagents r;
     hc_MCPServers := hc_MCPServers r; hc_Compaction := hc_Compaction r;
     hc_Hermes := hc_Hermes r |}.
Definition set_hc_VoiceTranscribe (x : HarnessVoiceTranscribeConfig) (r : HarnessConfig) : HarnessConfig :=
  {| hc_Deployment := hc_Deployment r; hc_Type := hc_Type r; hc_Mode := hc_Mode r;
     hc_Realtime := hc_Realtime r; hc_VoiceTranscribe := x; hc_WebSearch := hc_WebSearch r;
     hc_Subagents := hc_Subagents r; hc_MCPServers := hc_MCPServers r;
     hc_Compaction := hc_Compaction r; hc_Hermes := hc_Hermes r |}.
Definition set_hc_Subagents (x : HarnessSubagentsConfig) (r : HarnessConfig) : HarnessConfig :=
  {| hc_Deployment := hc_Deployment r; hc_Type := hc_Type r; hc_Mode := hc_Mode r;
     hc_Realtime := hc_Realtime r; hc_VoiceTranscribe := hc_VoiceTranscribe r;
     hc_WebSearch := hc_WebSearch r; hc_Subagents := x; hc_MCPServers := hc_MCPServers r;
     hc_Compaction := hc_Compaction r; hc_Hermes := hc_Hermes r |}.
Definition set_rv_StartupTimeout (x : Z) (r : RuntimeConfigValues) : RuntimeConfigValues :=
  {| rv_File := rv_File r; rv_Executable := rv_Executable r;
     rv_StartupTimeoutText := rv_StartupTimeoutText r;
     rv_StopTimeoutText := rv_StopTimeoutText r; rv_StartupTimeout := x;
     rv_StopTimeout := rv_StopTimeout r; rv_ResolvedFile := rv_ResolvedFile r;
     rv_GPUIndices := rv_GPUIndices r |}.
Definition set_rv_StopTimeout (x : Z) (r : RuntimeConfigValues) : RuntimeConfigValues :=
  {| rv_File := rv_File r; rv_Executable := rv_Executable r;
     rv_StartupTimeoutText := rv_StartupTimeoutText r;
     rv_StopTimeoutText := rv_StopTimeoutText r; rv_StartupTimeout := rv_StartupTimeout r;
     rv_StopTimeout := x; rv_ResolvedFile := rv_ResolvedFile r;
     rv_GPUIndices := rv_GPUIndices r |}.
Definition set_rv_ResolvedFile (x : string) (r : RuntimeConfigValues) : RuntimeConfigValues :=
  {| rv_File := rv_File r; rv_Executable := rv_Executable r;
     rv_StartupTimeoutText := rv_StartupTimeoutText r;
     rv_StopTimeoutText := rv_StopTimeoutText r; rv_StartupTimeout := rv_StartupTimeout r;
     rv_StopTimeout := rv_StopTimeout r; rv_ResolvedFile := x;
     rv_GPUIndices := rv_GPUIndices r |}.
Definition set_ec_Loop (x : Z) (r : ExecutionConfig) : ExecutionConfig :=
  {| ec_Concurrency := ec_Concurrency r; ec_LoopDuration := ec_LoopDuration r; ec_Loop := x;
     ec_ArrivalsFile := ec_ArrivalsFile r; ec_ArrivalRatePerMin := ec_ArrivalRatePerMin r |}.
Definition set_pm_BaseURL (x : string) (r : ProfileModel) : ProfileModel :=
  {| pm_ID := pm_ID r; pm_BaseURL := x; pm_APIKeyEnv := pm_APIKeyEnv r;
     pm_ReasoningEffort := pm_ReasoningEffort r; pm_ContextLength := pm_ContextLength r;
     pm_MaxTokens := pm_MaxTokens r; pm_Temperature := pm_Temperature r |}.
Definition set_cf_Harness (x : HarnessConfig) (r : Config) : Config :=
  {| cf_Name := cf_Name r; cf_VersionsFile := cf_VersionsFile r;
     cf_OverridesFile := cf_OverridesFile r; cf_Benchmark := cf_Benchmark r; cf_Harness := x;
     cf_Sandbox := cf_Sandbox r; cf_Bridge := cf_Bridge r; cf_Runtime := cf_Runtime r;
     cf_Model := cf_Model r; cf_Execution := cf_Execution r; cf_OutputDir := cf_OutputDir r |}.
Definition set_cf_Model (x : ProfileModel) (r : Config) : Config :=
  {| cf_Name := cf_Name r; cf_VersionsFile := cf_VersionsFile r;
     cf_OverridesFile := cf_OverridesFile r; cf_Benchmark := cf_Benchmark r;
     cf_Harness := cf_Harness r; cf_Sandbox := cf_Sandbox r; cf_Bridge := cf_Bridge r;
     cf_Runtime := cf_Runtime r; cf_Model := x; cf_Execution := cf_Execution r;
     cf_OutputDir := cf_OutputDir r |}.
Definition set_cf_Execution (x : ExecutionConfig) (r : Config) : Config :=
  {| cf_Name := cf_Name r; cf_VersionsFile := cf_VersionsFile r;
     cf_OverridesFile := cf_OverridesFile r; cf_Benchmark := cf_Benchmark r;
     cf_Harness := cf_Harness r; cf_Sandbox := cf_Sandbox r; cf_Bridge := cf_Bridge r;
     cf_Runtime := cf_Runtime r; cf_Model := cf_Model r; cf_Execution := x;
     cf_OutputDir := cf_OutputDir r |}.
Definition set_cf_Runtime (x : RuntimeConfig) (r : Config) : Config :=
  {| cf_Name := cf_Name r; cf_VersionsFile := cf_VersionsFile r;
     cf_OverridesFile := cf_OverridesFile r; cf_Benchmark := cf_Benchmark r;
     cf_Harness := cf_Harness r; cf_Sandbox := cf_Sandbox r; cf_Bridge := cf_Bridge r;
     cf_Runtime := x; cf_Model := cf_Model r; cf_Execution := cf_Execution r;
     cf_OutputDir := cf_OutputDir r |}.
Definition set_cf_OutputDir (x : string) (r : Config) : Config :=
  {| cf_Name := cf_Name r; cf_VersionsFile := cf_VersionsFile r;
     cf_OverridesFile := cf_OverridesFile r; cf_Benchmark := cf_Benchmark r;
     cf_Harness := cf_Harness r; cf_Sandbox := cf_Sandbox r; cf_Bridge := cf_Bridge r;
     cf_Runtime := cf_Runtime r; cf_Model := cf_Model r; cf_Execution := cf_Execution r;
     cf_OutputDir := x |}.
