(* ===== verification/Config.v ===== *)
(** The validation of an experiment file and of its version catalog ([pkg/config],
    config.go; the model settings of [pkg/model], config.go).  Every check that also
    sets a default or a parsed duration returns the changed configuration. *)

From S2P Require Import Prelude Utf8 Core Paths Sandbox GoTime ConfigDeployment ConfigModel.

(** * Text checks *)

(** [validateExperimentName]; a rune outside ASCII is refused like each of its bytes. *)
Definition name_byte (c : ascii) : bool :=
  is_alnum c || Ascii.eqb c "-" || Ascii.eqb c "_" || Ascii.eqb c ".".
Definition validateExperimentName (name : string) : error :=
  (refuse_if 80 <? len name with "name must not exceed 80 bytes") >>?
  (refuse_if negb (forallb name_byte (to_bytes name)) ||
             match to_bytes name with c :: _ => Ascii.eqb c "-" || Ascii.eqb c "." | [] => false end
     with "name must contain only ASCII letters, digits, dashes, underscores, or dots and must not begin with a dash or dot").

(** [validHostLabel] and [validHostName]; [ParseIP] says whether [net.ParseIP] succeeds. *)
Definition label_byte (c : ascii) : bool := is_alnum c || Ascii.eqb c "-".
Definition validHostLabel (label : bytes) : bool :=
  match label with
  | [] => false
  | c :: _ => (Z.of_nat (length label) <=? 63) && negb (Ascii.eqb c "-") &&
              negb (bool_decide (last label = Some "-"%char)) && forallb label_byte label
  end.
Definition validHostName (ParseIP : string -> bool) (value : string) : bool :=
  ParseIP value ||
  (negb (String.eqb value "") && (len value <=? 253) &&
   forallb validHostLabel (split_bytes "." (to_bytes value))).

(** [isHex] and [validPluginVersion]. *)
Definition hex_byte (c : ascii) : bool :=
  is_digit c || between "a" c "f" || between "A" c "F".
Definition isHex (value : string) (characters : Z) : bool :=
  (len value =? characters) && Z.even (len value) && forallb hex_byte (to_bytes value).
Definition validPluginVersion (version : string) : bool :=
  let parts := split_bytes "." (to_bytes version) in
  forallb (fun part => negb (bool_decide (part = [])) && forallb is_digit part) parts && (2 <=? length parts)%nat.

(** [parseOptionalPositiveDuration]. *)
Definition blank_text (s : string) : bool := String.eqb (TrimSpace s) "".
Definition positive_duration (name value : string) (reason : string) : checked Z :=
  match ParseDuration value with
  | inl d => if 0 <? d then inl d else inr (ENew (name +:+ reason))
  | inr _ => inr (ENew (name +:+ reason))
  end.
Definition parseOptionalPositiveDuration (name value : string) : checked Z :=
  if blank_text value then inl 0 else positive_duration name value " must be a positive Go duration".

(** * Credentials in a free-form block *)

(** [strings.ToLower]. *)
Definition ToLower (s : string) : string := of_bytes (lower_bytes (to_bytes s)).

Definition credentialFieldNames : list string :=
  ["accesstoken"; "apikey"; "apitoken"; "auth"; "authorization"; "authtoken"; "bearer"; "bearertoken";
   "clientsecret"; "credential"; "credentials"; "key"; "passwd"; "password"; "privatekey"; "refreshtoken";
   "secret"; "sessiontoken"; "token"; "xapikey"]%string.
Definition separator (c : ascii) : bool := Ascii.eqb c "_" || Ascii.eqb c "-" || Ascii.eqb c ".".
Definition normalized_field (key : string) : string :=
  of_bytes (filter (fun c => separator c = false) (to_bytes (ToLower key))).
Definition credential_field (key : string) : bool := existsb (String.eqb (normalized_field key)) credentialFieldNames.

(** [findCredentialField]: members in the order of their keys, elements in theirs. *)
Definition key_le {A} (a b : string * A) : Prop := string_le a.1 b.1.
#[export] Instance key_le_dec {A} (a b : string * A) : Decision (key_le a b) := string_le_dec a.1 b.1.
Fixpoint first_member (path : string) (members : list (string * (string -> string))) : string :=
  match members with
  | [] => ""
  | (key, find) :: members =>
      let child := path +:+ "." +:+ key in
      if credential_field key then child
      else let found := find child in
           if String.eqb found "" then first_member path members else found
  end.
Fixpoint first_element (path : string) (index : Z) (items : list (string -> string)) : string :=
  match items with
  | [] => ""
  | find :: items =>
      let found := find (path +:+ "[" +:+ itoa index +:+ "]") in
      if String.eqb found "" then first_element path (index + 1) items else found
  end.
Fixpoint findCredentialField (value : json) (path : string) : string :=
  match value with
  | JObject members =>
      first_member path (merge_sort key_le (map (fun m => (m.1, findCredentialField m.2)) members))
  | JArray items => first_element path 0 (map findCredentialField items)
  | _ => ""
  end.

(** The [${NAME}] references of [placeholderPattern], leftmost first. *)
Fixpoint placeholders (inside : option bytes) (s : bytes) : list string :=
  match inside, s with
  | _, [] => []
  | None, c :: s =>
      match Ascii.eqb c "$", s with
      | true, "{"%char :: s => placeholders (Some []) s
      | _, _ => placeholders None s
      end
  | Some name, c :: s =>
      if Ascii.eqb c "}" then of_bytes (rev name) :: placeholders None s
      else placeholders (Some (c :: name)) s
  end.
Definition extraBodyPlaceholders : list string := ["ARIES_RUN_ID"; "ARIES_TASK_ID"]%string.
Definition allowed_placeholder (name : string) : bool := existsb (String.eqb name) extraBodyPlaceholders.

(** * Model settings *)

(** [model.ValidateGeneration] and [model.ReasoningBody]: the request fields of an
    explicit effort ([None]: Go's nil map), of which the configuration keeps only the
    error ([error_of]). *)
Definition ValidateGeneration (m : ModelConfig) : error :=
  (refuse_if mc_ContextLength m <? 0 with "model.context_length must be positive") >>?
  (refuse_if mc_MaxTokens m <? 0 with "model.max_tokens must be positive") >>?
  (refuse_if (0 <? mc_ContextLength m) && (0 <? mc_MaxTokens m) && (mc_ContextLength m <=? mc_MaxTokens m)
     with "model.max_tokens must be smaller than model.context_length") >>?
  match mc_Temperature m with
  | None => None
  | Some t => refuse_if IsNaN t || IsInf t || f64_ltb t f64_zero || f64_ltb (f64_of_Z 2) t
                with "model.temperature must be between 0 and 2"
  end.
Definition object_of (members : list (string * json)) : checked (option json) := inl (Some (JObject members)).
Definition ReasoningBody (m : ModelConfig) : checked (option json) :=
  let effort := mc_ReasoningEffort m in
  if String.eqb effort "" then inl None
  else
    let effort := if String.eqb effort "off" then "none"%string else effort in
    if String.eqb (mc_Provider m) "deepseek" then
      if String.eqb effort "none" then object_of [("thinking", JObject [("type", JString "disabled")])]%string
      else if one_of effort ["low"; "high"; "max"]%string
      then object_of [("thinking", JObject [("type", JString "enabled")]); ("reasoning_effort", JString effort)]%string
      else inr (ENew "model.reasoning_effort for DeepSeek must be off, none, low, high, or max")
    else if negb (String.eqb (mc_Provider m) "openai") && negb (String.eqb (mc_Provider m) "sglang")
    then inr (ENew "model.reasoning_effort requires deepseek, openai, or sglang")
    else if one_of effort ["none"; "minimal"; "low"; "medium"; "high"; "xhigh"; "max"]%string
    then object_of [("reasoning_effort", JString effort)]%string
    else inr (ENew "model.reasoning_effort must be off, none, minimal, low, medium, high, xhigh, or max").
Definition error_of {A} (x : checked A) : error := match x with inl _ => None | inr e => Some e end.

(** * Overrides *)

(** [secondsDuration], [validateResources] and [RuntimeOverrides.validate]. *)
Definition two_63 : float64 := f64_of_Z (2 ^ 63).
Definition secondsDuration (name : string) (seconds : option float64) : checked (option Z) :=
  match seconds with
  | None => inl None
  | Some s =>
      let scaled := f64_mul s (f64_of_Z (10 ^ 9)) in
      if f64_leb s f64_zero || IsNaN s || IsInf s || f64_leb two_63 scaled
      then inr (ENew (name +:+ " must be finite, positive, and convert to nanoseconds below 2^63"))
      else
        let duration := f64_trunc scaled in
        if duration <=? 0
        then inr (ENew (name +:+ " must be finite, positive, and convert to a positive duration below 2^63 nanoseconds"))
        else inl (Some duration)
  end.
Definition validateResources (name : string) (r : ResourceOverrides) : error :=
  (match rs_CPU r with
   | None => None
   | Some cpu =>
       let scaled := f64_mul cpu (f64_of_Z (10 ^ 9)) in
       refuse_if f64_ltb cpu f64_zero || IsNaN cpu || IsInf cpu || f64_leb two_63 scaled
         with name +:+ ".cpu must be finite, nonnegative (zero is unlimited), and convert to NanoCPUs below 2^63"
   end) >>?
  match rs_MemoryMB r with
  | None => None
  | Some m => refuse_if (m <? 0) || (Z.shiftr max_int64 20 <? m)
                with name +:+ ".memory_mb must be nonnegative (zero is unlimited) and no greater than " +:+
                     itoa (Z.shiftr max_int64 20)
  end.
Definition overrides_validate (o : RuntimeOverrides) : checked RuntimeOverrides :=
  check_that
    (validateResources "harness_resources" (rn_HarnessResources o) >>?
     validateResources "agent_sandbox_resources" (rn_AgentSandboxResources o))
  (check_bind (secondsDuration "agent_timeout_seconds" (rn_AgentTimeoutSeconds o)) (fun timeout =>
   check_bind (secondsDuration "verifier_timeout_floor_seconds" (rn_VerifierTimeoutFloorSeconds o)) (fun verifier =>
   inl {| rn_HarnessResources := rn_HarnessResources o; rn_AgentSandboxResources := rn_AgentSandboxResources o;
          rn_AgentTimeoutSeconds := rn_AgentTimeoutSeconds o; rn_AgentTimeout := timeout;
          rn_VerifierTimeoutFloorSeconds := rn_VerifierTimeoutFloorSeconds o; rn_VerifierTimeoutFloor := verifier |}))).

(** * Blocks *)

Section Blocks.
Variable url_Parse : string -> option FullURL.
Variable url_String : FullURL -> string.          (* URL.String *)
Variable ParsePrefix ParseIP : string -> bool.
Variable ParseNormalizedNamed : string -> Named + err.
(** [json.Unmarshal] into a map: [None] on an error; the members, none for [null]. *)
Variable Unmarshal_object : bytes -> option (list (string * json)).

(** [validateHTTPBaseURL] and [normalizeV1BaseURL]. *)
Definition http_scheme (u : FullURL) : bool := String.eqb (ul_Scheme u) "http" || String.eqb (ul_Scheme u) "https".
Definition plain_url (u : FullURL) : bool :=
  negb (ul_User u) && String.eqb (ul_RawQuery u) "" && String.eqb (ul_Fragment u) "".
Definition validateHTTPBaseURL (name value : string) : error :=
  match url_Parse value with
  | None => Some (ENew (name +:+ " must be an absolute HTTP(S) URL"))
  | Some u =>
      (refuse_if negb (http_scheme u) || String.eqb (ul_Host u) "" with name +:+ " must be an absolute HTTP(S) URL") >>?
      (refuse_if negb (plain_url u) with name +:+ " must not contain credentials, a query, or a fragment")
  end.
Definition set_ul_Path (path : string) (u : FullURL) : FullURL :=
  {| ul_Scheme := ul_Scheme u; ul_Opaque := ul_Opaque u; ul_User := ul_User u; ul_Host := ul_Host u;
     ul_Path := path; ul_RawPath := ul_RawPath u; ul_ForceQuery := ul_ForceQuery u;
     ul_RawQuery := ul_RawQuery u; ul_Fragment := ul_Fragment u |}.
Definition normalizeV1BaseURL (baseURL : string) : checked string :=
  let refused := inr (ENew "must be an absolute HTTP(S) URL without credentials, escaped path, query, or fragment") in
  match url_Parse baseURL with
  | None => refused
  | Some u =>
      if negb (http_scheme u) || String.eqb (ul_Host u) "" || negb (String.eqb (ul_Opaque u) "") ||
         negb (plain_url u) || negb (String.eqb (ul_RawPath u) "") || ul_ForceQuery u || ContainsByte baseURL "#"
      then refused
      else if negb (String.eqb (ul_Path u) "/v1") && negb (String.eqb (ul_Path u) "/v1/")
      then inr (ENew "path must be exactly /v1")
      else inl (url_String (set_ul_Path "/v1" u))
  end.

(** [JudgeConfig.validate]. *)
Definition judge_validate (j : JudgeConfig) : error :=
  let m := jc_Model j in
  if bool_decide (jc_Enabled j = Some false) then
    refuse_if negb (String.eqb (jc_Provider j) "") || negb (ProfileModel_is_zero m)
      with "judge model fields must not be set when judge.enabled is false"
  else
    (refuse_if blank_text (jc_Provider j) with "judge.provider is required") >>?
    validateHTTPBaseURL "judge.base_url" (pm_BaseURL m) >>?
    (refuse_if blank_text (pm_ID m) with "judge.id is required") >>?
    (refuse_if negb (validEnvName (pm_APIKeyEnv m)) with "judge.api_key_env must be an environment variable name") >>?
    wrap "judge" (ValidateGeneration (coreModel m "")) >>?
    (refuse_if negb (pm_ContextLength m =? 0)
       with "judge.context_length is unsupported by Chat Completions judges") >>?
    wrap "judge" (error_of (ReasoningBody (coreModel m (jc_Provider j)))).

(** [RealtimeTTSConfig.validateNamed], [HarnessRealtimeConfig.validateNamed],
    [VoiceSTTConfig.validate] and [validateOpenClaw]. *)
Definition default_text (value default : string) : string := if String.eqb value "" then default else value.
Definition quarter : float64 := f64_div (f64_of_Z 1) (f64_of_Z 4).
Definition tts_validateNamed (name : string) (t : RealtimeTTSConfig) : checked RealtimeTTSConfig :=
  let t := set_tt_Provider (default_text (tt_Provider t) "openai") t in
  let key := default_text (tt_APIKeyEnv t) "OPENAI_API_KEY" in
  check_that
    ((refuse_if negb (String.eqb (tt_Provider t) "openai") with name +:+ ".provider must be openai") >>?
     (refuse_if negb (validEnvName key) with name +:+ ".api_key_env must be an environment variable name") >>?
     (refuse_if existsb (fun s => ContainsByte s NUL) [tt_BaseURL t; tt_Model t; tt_Voice t; tt_Instructions t]
        with name +:+ " contains an invalid NUL byte") >>?
     match tt_Speed t with
     | None => None
     | Some s => refuse_if f64_ltb s quarter || f64_ltb (f64_of_Z 4) s || IsNaN s || IsInf s
                   with name +:+ ".speed must be between 0.25 and 4"
     end)
  (check_bind (parseOptionalPositiveDuration (name +:+ ".timeout") (tt_TimeoutText t)) (fun d =>
   inl (set_tt_Timeout d (set_tt_APIKeyEnv key t)))).
Definition realtime_validateNamed (name : string) (r : HarnessRealtimeConfig) : checked HarnessRealtimeConfig :=
  check_bind (tts_validateNamed (name +:+ ".tts") (hr_TTS r)) (fun tts =>
  check_that (refuse_if hr_TrailingSilenceMillis r <? 0 with name +:+ ".trailing_silence_ms must not be negative")
  (check_bind (parseOptionalPositiveDuration (name +:+ ".chunk_duration") (hr_ChunkDurationText r)) (fun chunk =>
   check_bind (parseOptionalPositiveDuration (name +:+ ".listen_duration") (hr_ListenDurationText r)) (fun listen =>
   check_bind (parseOptionalPositiveDuration (name +:+ ".quiet_duration") (hr_QuietDurationText r)) (fun quiet =>
   check_bind (parseOptionalPositiveDuration (name +:+ ".agent_wait_duration") (hr_AgentWaitDurationText r)) (fun wait =>
   check_bind (parseOptionalPositiveDuration (name +:+ ".tool_call_timeout") (hr_ToolCallTimeoutText r)) (fun tool =>
   inl (set_hr_ToolCallTimeout tool (set_hr_AgentWaitDuration wait (set_hr_QuietDuration quiet
          (set_hr_ListenDuration listen (set_hr_ChunkDuration chunk (set_hr_TTS tts r))))))))))))).
Definition stt_validate (t : VoiceSTTConfig) : checked VoiceSTTConfig :=
  let t := set_st_Provider (default_text (st_Provider t) "openai") t in
  let model := if String.eqb (st_Provider t) "openai" then default_text (st_Model t) "gpt-4o-mini-transcribe"
               else default_text (st_Model t) "base" in
  check_that
    ((refuse_if negb (one_of (st_Provider t) ["openai"; "local"]%string)
        with "harness.voice_transcribe.stt.provider must be openai or local") >>?
     (refuse_if existsb (fun s => ContainsByte s NUL) [st_Provider t; model; st_Language t]
        with "harness.voice_transcribe.stt contains an invalid NUL byte"))
  (check_bind (parseOptionalPositiveDuration "harness.voice_transcribe.stt.timeout" (st_TimeoutText t)) (fun d =>
   inl (set_st_Timeout d (set_st_Model model t)))).
Definition validateOpenClaw (v : HarnessVoiceTranscribeConfig) : checked HarnessVoiceTranscribeConfig :=
  check_that (refuse_if negb (bool_decide (hv_STT v = zero_STT))
                with "harness.voice_transcribe.stt must be empty for OpenClaw voice-transcribe")
  (check_bind (realtime_validateNamed "harness.voice_transcribe" (hv_Realtime v)) (fun r =>
   inl {| hv_Realtime := r; hv_STT := hv_STT v |})).

(** [validateHermesBlocks]. *)
Definition hermes_type (h : HarnessConfig) : bool := String.eqb (hc_Type h) "hermes".
Definition extra_body_path : string := "harness.hermes.extra_body".
Definition check_extra_body (raw : bytes) : error :=
  match Unmarshal_object raw with
  | None | Some [] => Some (ENew "harness.hermes.extra_body must be a non-empty JSON object")
  | Some object =>
      (let field := findCredentialField (JObject object) extra_body_path in
       refuse_if negb (String.eqb field "")
         with field +:+ " is named like a credential; model keys stay out of JSON profiles") >>?
      first_error (fun name =>
        refuse_if negb (allowed_placeholder name)
          with "harness.hermes.extra_body may reference only ${ARIES_RUN_ID} and ${ARIES_TASK_ID}, not ${" +:+ name +:+ "}")
        (placeholders None raw)
  end.
Definition validateHermesBlocks (h : HarnessConfig) : error :=
  (match hc_Compaction h with
   | None => None
   | Some c =>
       (refuse_if negb (hermes_type h) with "harness.compaction requires Hermes") >>?
       (refuse_if negb (is_some (hk_Enabled c)) && (hk_ThresholdTokens c =? 0)
          with "harness.compaction must set enabled or threshold_tokens") >>?
       (refuse_if hk_ThresholdTokens c <? 0 with "harness.compaction.threshold_tokens must be positive")
   end) >>?
  match hc_Hermes h with
  | None => None
  | Some raw =>
      (refuse_if negb (hermes_type h) with "harness.hermes requires Hermes") >>?
      (refuse_if bool_decide (raw = []) with "harness.hermes must set extra_body") >>?
      check_extra_body raw
  end.

(** [HarnessConfig.validate]. *)
Definition either_harness (h : HarnessConfig) : bool := one_of (hc_Type h) ["openclaw"; "hermes"]%string.
Definition core_URL (s : string) : option Core.URL :=
  match url_Parse s with
  | Some u => Some {| ur_Scheme := ul_Scheme u; ur_Host := ul_Host u |}
  | None => None
  end.
Fixpoint check_servers (seen : gset string) (servers : list MCPServerConfig) : error :=
  match servers with
  | [] => None
  | server :: servers =>
      if bool_decide (mp_Name server ∈ seen)
      then Some (ENew ("duplicate MCP server name " +:+ quote (mp_Name server)))
      else match ValidateMCPServer core_URL server with
           | Some e => Some (EWrap "harness.mcp_servers" e)
           | None => check_servers ({[mp_Name server]} ∪ seen) servers
           end
  end.
Definition harness_checks (h : HarnessConfig) : error :=
  let web := hc_WebSearch h in
  let subagents := hc_Subagents h in
  validateHermesBlocks h >>?
  (refuse_if hw_Enabled web && negb (either_harness h) with "harness.web_search requires OpenClaw or Hermes") >>?
  (if String.eqb (hw_ExtractAPIKeyEnv web) "" then None
   else
     (refuse_if negb (either_harness h)
        with "harness.web_search.extract_api_key_env requires OpenClaw or Hermes") >>?
     (refuse_if negb (hw_Enabled web)
        with "harness.web_search.extract_api_key_env requires harness.web_search.enabled") >>?
     (refuse_if negb (validEnvName (hw_ExtractAPIKeyEnv web))
        with "harness.web_search.extract_api_key_env must be an environment variable name")) >>?
  (refuse_if is_some (hs_Enabled subagents) && negb (either_harness h)
     with "harness.subagents requires OpenClaw or Hermes") >>?
  (if hs_MaxConcurrent subagents =? 0 then None
   else
     (refuse_if negb (either_harness h) with "harness.subagents.max_concurrent requires OpenClaw or Hermes") >>?
     (refuse_if hs_MaxConcurrent subagents <? 0 with "harness.subagents.max_concurrent must be positive")) >>?
  match hc_MCPServers h with
  | [] => None
  | servers =>
      (refuse_if negb (either_harness h) with "harness.mcp_servers requires OpenClaw or Hermes") >>?
      check_servers ∅ servers
  end.
Definition realtime_empty (h : HarnessConfig) : error :=
  refuse_if negb (bool_decide (hc_Realtime h = zero_Realtime))
    with "harness.realtime must be empty unless harness.mode is realtime".
Definition voice_empty (h : HarnessConfig) : error :=
  refuse_if negb (bool_decide (hc_VoiceTranscribe h = zero_Voice))
    with "harness.voice_transcribe must be empty unless harness.mode is voice-transcribe".
Definition validate_mode (h : HarnessConfig) : checked HarnessConfig :=
  let mode := hc_Mode h in
  if String.eqb mode "agent" then check_that (realtime_empty h >>? voice_empty h) (inl h)
  else if String.eqb mode "realtime" then
    check_that ((refuse_if negb (String.eqb (hc_Type h) "openclaw") with "harness.mode realtime requires OpenClaw") >>?
                voice_empty h)
    (check_bind (realtime_validateNamed "harness.realtime" (hc_Realtime h)) (fun r => inl (set_hc_Realtime r h)))
  else if String.eqb mode "voice-transcribe" then
    if String.eqb (hc_Type h) "openclaw" then
      check_that (realtime_empty h)
      (check_bind (validateOpenClaw (hc_VoiceTranscribe h)) (fun v => inl (set_hc_VoiceTranscribe v h)))
    else if hermes_type h then
      check_that (realtime_empty h)
      (check_bind (tts_validateNamed "harness.voice_transcribe.tts" (hr_TTS (hv_Realtime (hc_VoiceTranscribe h)))) (fun tts =>
       check_bind (stt_validate (hv_STT (hc_VoiceTranscribe h))) (fun stt =>
       inl (set_hc_VoiceTranscribe {| hv_Realtime := set_hr_TTS tts (hv_Realtime (hc_VoiceTranscribe h));
                                      hv_STT := stt |} h))))
    else inr (ENew "harness.mode voice-transcribe requires OpenClaw or Hermes")
  else inr (ENew "harness.mode must be agent, realtime, or voice-transcribe").
Definition harness_validate (h : HarnessConfig) : checked HarnessConfig :=
  let h := set_hc_Mode (default_text (hc_Mode h) "agent") h in
  check_that (harness_checks h)
    (validate_mode
       (if negb (is_some (hs_Enabled (hc_Subagents h))) && either_harness h
        then set_hc_Subagents {| hs_Enabled := Some true; hs_MaxConcurrent := hs_MaxConcurrent (hc_Subagents h) |} h
        else h)).

(** [RuntimeConfig.validate]. *)
Definition managed_fields (v : RuntimeConfigValues) : bool :=
  negb (String.eqb (rv_Executable v) "") || negb (String.eqb (rv_StartupTimeoutText v) "") ||
  negb (String.eqb (rv_StopTimeoutText v) "") || negb (bool_decide (rv_GPUIndices v = [])).
Fixpoint check_gpus (seen : gset Z) (indices : list Z) : error :=
  match indices with
  | [] => None
  | index :: indices =>
      if index <? 0
      then Some (ENew "managed SGLang runtime.config.gpu_indices must contain only non-negative indices")
      else if bool_decide (index ∈ seen)
      then Some (ENew "managed SGLang runtime.config.gpu_indices must not contain duplicates")
      else check_gpus ({[index]} ∪ seen) indices
  end.
Definition runtime_validate (c : RuntimeConfig) : checked RuntimeConfig :=
  let v := rc_Config c in
  let backend := rc_Backend c in
  if one_of backend ["deepseek"; "openai"]%string then
    check_that
      ((refuse_if negb (String.eqb (rc_Mode c) "external") with "runtime.backend " +:+ backend +:+ " requires external mode") >>?
       (refuse_if negb (String.eqb (rv_File v) "") || managed_fields v
          with "external " +:+ backend +:+ " runtime.config must be empty")) (inl c)
  else if negb (String.eqb backend "sglang") then inr (ENew "runtime.backend must be deepseek, sglang, or openai")
  else if String.eqb (rc_Mode c) "external" then
    check_that (refuse_if managed_fields v
                  with "external SGLang runtime.config must not set executable, timeouts, or gpu_indices") (inl c)
  else if String.eqb (rc_Mode c) "managed" then
    check_that
      ((refuse_if blank_text (rv_File v) with "managed SGLang runtime.config.file is required") >>?
       (refuse_if blank_text (rv_Executable v) || ContainsByte (rv_Executable v) NUL
          with "managed SGLang runtime.config.executable is required") >>?
       check_gpus ∅ (rv_GPUIndices v))
    (check_bind (positive_duration "managed SGLang runtime.config.startup_timeout" (rv_StartupTimeoutText v)
                   " must be a positive Go duration") (fun startup =>
     check_bind (positive_duration "managed SGLang runtime.config.stop_timeout" (rv_StopTimeoutText v)
                   " must be a positive Go duration") (fun stop =>
     inl {| rc_Backend := backend; rc_Mode := rc_Mode c;
            rc_Config := set_rv_StopTimeout stop (set_rv_StartupTimeout startup v) |})))
  else inr (ENew "runtime.mode must be external or managed").

(** * The experiment *)

(** [validateBenchmarkType].  Maps are visited in the order of [map_to_list]; Go's is
    unspecified, and only which error comes first depends on it. *)
Definition absent_block {A} (name type : string) (block : option A) : error :=
  refuse_if is_some block with name +:+ " must not be set for " +:+ type.
Definition environment_required (type : string) (b : BenchmarkConfig) : error :=
  refuse_if match bc_Environment b with Some e => blank_text (be_Image e) | None => true end
    with "benchmark.environment.image is required for " +:+ type.
Definition fact_validate (f : FactConfig) : error :=
  (if blank_text (fc_Provider f) && blank_text (fc_BaseURL f) && blank_text (fc_ID f) && blank_text (fc_APIKeyEnv f)
   then None
   else
     (refuse_if blank_text (fc_Provider f) with "fact.provider is required") >>?
     validateHTTPBaseURL "fact.base_url" (fc_BaseURL f) >>?
     (refuse_if blank_text (fc_ID f) with "fact.model is required") >>?
     (refuse_if negb (validEnvName (fc_APIKeyEnv f)) with "fact.api_key_env must be an environment variable name")) >>?
  (refuse_if negb (validEnvName (fc_JinaAPIKeyEnv f))
     with "fact.jina_api_key_env must be an environment variable name").
Definition check_credential (kv : string * string) : error :=
  (refuse_if negb (validEnvName kv.1)
     with "benchmark.toolathlon.credentials_env key " +:+ quote kv.1 +:+ " must be a token field name") >>?
  (refuse_if negb (validEnvName kv.2)
     with "benchmark.toolathlon.credentials_env[" +:+ quote kv.1 +:+ "] must name an environment variable").
Fixpoint has_dotdot (s : bytes) : bool :=
  match s with
  | "."%char :: ("."%char :: _) => true
  | _ :: s => has_dotdot s
  | [] => false
  end.
Definition check_credential_file (kv : string * string) : error :=
  (refuse_if negb (HasPrefix kv.1 "configs/") || has_dotdot (to_bytes kv.1)
     with "benchmark.toolathlon.credential_files_env key " +:+ quote kv.1 +:+ " must be a path under configs/") >>?
  (refuse_if negb (validEnvName kv.2)
     with "benchmark.toolathlon.credential_files_env[" +:+ quote kv.1 +:+ "] must name an environment variable").
Definition toolathlon_validate (t : ToolathlonConfig) : error :=
  (refuse_if negb (tc_GatewayPort t =? 0) && ((tc_GatewayPort t <? 1024) || (65535 <? tc_GatewayPort t))
     with "benchmark.toolathlon.gateway_port must be between 1024 and 65535") >>?
  (refuse_if tc_MaxSteps t <? 0 with "benchmark.toolathlon.max_steps must be positive") >>?
  (refuse_if negb (String.eqb (tc_AppHost t) "") && negb (validHostName ParseIP (tc_AppHost t))
     with "benchmark.toolathlon.app_host must be a hostname or IP address") >>?
  first_error check_credential (map_to_list (tc_CredentialsEnv t)) >>?
  first_error check_credential_file (map_to_list (tc_CredentialFilesEnv t)).
Definition optional_check {A} (check : A -> error) (x : option A) : error :=
  match x with Some x => check x | None => None end.
Definition validateBenchmarkType (b : BenchmarkConfig) : error :=
  let type := bc_Type b in
  if String.eqb type "deepresearchbench" then
    environment_required type b >>? optional_check judge_validate (bc_Judge b) >>?
    optional_check fact_validate (bc_Fact b) >>? absent_block "benchmark.toolathlon" type (bc_Toolathlon b)
  else if String.eqb type "terminalbench2" || String.eqb type "swebenchpro" then
    absent_block "benchmark.environment" type (bc_Environment b) >>? absent_block "judge" type (bc_Judge b) >>?
    absent_block "fact" type (bc_Fact b) >>? absent_block "benchmark.toolathlon" type (bc_Toolathlon b)
  else if String.eqb type "sweatlasqa" then
    match bc_Judge b with
    | None => Some (ENew "benchmark.judge is required for sweatlasqa")
    | Some judge => judge_validate judge
    end >>?
    absent_block "benchmark.environment" type (bc_Environment b) >>? absent_block "fact" type (bc_Fact b)
  else if String.eqb type "toolathlon" then
    environment_required type b >>? absent_block "judge" type (bc_Judge b) >>? absent_block "fact" type (bc_Fact b) >>?
    optional_check toolathlon_validate (bc_Toolathlon b)
  else None.

(** The members of the raw [extra_body] a model setting conflicts with. *)
Definition extra_body_conflict (h : HarnessConfig) (keys : list string) (setting : string) : error :=
  match hc_Hermes h with
  | None => None
  | Some raw =>
      match Unmarshal_object raw with
      | None => Some (EWrap "harness.hermes.extra_body" (ENew "invalid JSON object"))
      | Some object =>
          first_error (fun key =>
            refuse_if existsb (fun m => String.eqb m.1 key) object
              with setting +:+ " conflicts with harness.hermes.extra_body." +:+ key) keys
      end
  end.

(** [Config.validate], in the order of the source. *)
Definition execution_validate (x : ExecutionConfig) : checked ExecutionConfig :=
  let arrivals := negb (String.eqb (ec_ArrivalsFile x) "") in
  check_that (refuse_if ec_Concurrency x <=? 0 with "execution.concurrency must be positive")
  (check_bind
     (if String.eqb (ec_LoopDuration x) "" then inl x
      else check_bind (positive_duration "execution.loop_duration" (ec_LoopDuration x) " must be a positive Go duration")
             (fun loop => inl (set_ec_Loop loop x))) (fun x =>
   check_that
     ((refuse_if negb (Bool.eqb arrivals (negb (f64_eqb (ec_ArrivalRatePerMin x) f64_zero)))
         with "execution.arrivals_file and execution.arrival_rate_per_min must be set together") >>?
      (refuse_if arrivals && (negb (f64_ltb f64_zero (ec_ArrivalRatePerMin x)) || IsInf (ec_ArrivalRatePerMin x))
         with "execution.arrival_rate_per_min must be finite and positive") >>?
      (refuse_if arrivals && negb (String.eqb (ec_LoopDuration x) "")
         with "execution.arrivals_file cannot be combined with execution.loop_duration"))
     (inl x))).
Definition required_fields (c : Config) : list (string * string) :=
  [("name", cf_Name c); ("versions_file", cf_VersionsFile c); ("benchmark.type", bc_Type (cf_Benchmark c));
   ("benchmark.root", bc_Root (cf_Benchmark c)); ("harness.type", hc_Type (cf_Harness c));
   ("bridge.type", bg_Type (cf_Bridge c)); ("runtime.backend", rc_Backend (cf_Runtime c));
   ("runtime.mode", rc_Mode (cf_Runtime c)); ("model.base_url", pm_BaseURL (cf_Model c));
   ("model.id", pm_ID (cf_Model c)); ("model.api_key_env", pm_APIKeyEnv (cf_Model c));
   ("output_dir", cf_OutputDir c)]%string.
Definition open_backend (c : Config) : bool := one_of (rc_Backend (cf_Runtime c)) ["sglang"; "openai"]%string.
Definition model_checks (c : Config) : error :=
  let m := cf_Model c in
  let h := cf_Harness c in
  (refuse_if negb (hermes_type h) &&
             (negb (pm_ContextLength m =? 0) || negb (pm_MaxTokens m =? 0) || is_some (pm_Temperature m))
     with "model.context_length, model.max_tokens, and model.temperature require Hermes") >>?
  ValidateGeneration (coreModel m "") >>?
  error_of (ReasoningBody (coreModel m (rc_Backend (cf_Runtime c)))) >>?
  (if String.eqb (pm_ReasoningEffort m) "" then None
   else extra_body_conflict h ["thinking"; "reasoning"; "reasoning_effort"]%string "model.reasoning_effort") >>?
  (refuse_if (match hc_Compaction h with
              | Some k => (0 <? pm_ContextLength m) && (pm_ContextLength m <=? hk_ThresholdTokens k)
              | None => false
              end)
     with "harness.compaction.threshold_tokens must be smaller than model.context_length") >>?
  (refuse_if is_some (hc_Hermes h) && negb (open_backend c)
     with "harness.hermes.extra_body requires runtime.backend sglang or openai") >>?
  (if is_some (pm_Temperature m) then
     (refuse_if negb (open_backend c)
        with "model.temperature requires runtime.backend sglang or openai for Hermes") >>?
     extra_body_conflict h ["temperature"]%string "model.temperature"
   else None).
Definition task_checks (tasks : list string) : error :=
  (refuse_if bool_decide (tasks = []) with "benchmark.tasks must contain at least one task ID") >>?
  first_error (fun it => refuse_if blank_text it.2
                           with "benchmark.tasks[" +:+ itoa (Z.of_nat it.1) +:+ "] must not be empty")
    (imap (fun i task => (i, task)) tasks).
Definition model_url (c : Config) : checked ProfileModel :=
  let m := cf_Model c in
  if open_backend c then
    match normalizeV1BaseURL (pm_BaseURL m) with
    | inl url => inl (set_pm_BaseURL url m)
    | inr e => inr (EWrap ("model.base_url for " +:+ rc_Backend (cf_Runtime c)) e)
    end
  else check_that (validateHTTPBaseURL "model.base_url" (pm_BaseURL m)) (inl m).
Definition placement_of (c : Config) : Placement :=
  {| pl_SandboxType := sc_Type (cf_Sandbox c); pl_BridgeMode := bg_Mode (cf_Bridge c);
     pl_Harness := hc_Deployment (cf_Harness c); pl_Sandbox := sc_Deployment (cf_Sandbox c);
     pl_Bridge := bg_Deployment (cf_Bridge c) |}.
Definition set_placement (p : Placement) (c : Config) : Config :=
  {| cf_Name := cf_Name c; cf_VersionsFile := cf_VersionsFile c; cf_OverridesFile := cf_OverridesFile c;
     cf_Benchmark := cf_Benchmark c; cf_Harness := set_hc_Deployment (pl_Harness p) (cf_Harness c);
     cf_Sandbox := {| sc_Type := pl_SandboxType p; sc_Deployment := pl_Sandbox p |};
     cf_Bridge := {| bg_Deployment := pl_Bridge p; bg_Mode := pl_BridgeMode p; bg_Type := bg_Type (cf_Bridge c);
                     bg_RetainRawLog := bg_RetainRawLog (cf_Bridge c) |};
     cf_Runtime := cf_Runtime c; cf_Model := cf_Model c; cf_Execution := cf_Execution c; cf_OutputDir := cf_OutputDir c |}.
Definition config_validate (c : Config) : checked Config :=
  check_bind (NormalizeDeployment url_Parse ParsePrefix (placement_of c)) (fun p =>
  let c := set_placement p c in
  check_bind (execution_validate (cf_Execution c)) (fun x =>
  let c := set_cf_Execution x c in
  check_that
    (first_error (fun check => refuse_if blank_text check.2 with check.1 +:+ " is required") (required_fields c) >>?
     (refuse_if negb (one_of (rc_Backend (cf_Runtime c)) ["deepseek"; "sglang"; "openai"]%string)
        with "runtime.backend must be deepseek, sglang, or openai"))
  (check_bind (harness_validate (cf_Harness c)) (fun h =>
  let c := set_cf_Harness h c in
  check_that (model_checks c)
  (check_bind (runtime_validate (cf_Runtime c)) (fun r =>
  let c := set_cf_Runtime r c in
  check_that (validateExperimentName (cf_Name c) >>? task_checks (bc_Tasks (cf_Benchmark c)))
  (check_bind (model_url c) (fun m =>
  let c := set_cf_Model m c in
  check_that
    ((refuse_if negb (validEnvName (pm_APIKeyEnv (cf_Model c)))
        with "model.api_key_env must be an environment variable name") >>?
     validateBenchmarkType (cf_Benchmark c))
    (inl c))))))))).

(** * The version catalog *)

(** [validateRepositoryPin], [Versions.validate] and [HarnessImage]. *)
Definition validateRepositoryPin (name : string) (pin : Pin) : error :=
  (refuse_if blank_text (pn_RepositoryURL pin) with name +:+ ".repository_url is required") >>?
  (refuse_if blank_text (pn_Revision pin) with name +:+ ".revision is required") >>?
  match url_Parse (pn_RepositoryURL pin) with
  | None => Some (ENew (name +:+ ".repository_url must be an absolute HTTPS URL"))
  | Some u =>
      (refuse_if negb (String.eqb (ul_Scheme u) "https") || String.eqb (ul_Host u) ""
         with name +:+ ".repository_url must be an absolute HTTPS URL") >>?
      (refuse_if negb (plain_url u)
         with name +:+ ".repository_url must not contain credentials, a query, or a fragment")
  end >>?
  (refuse_if negb (isHex (pn_Revision pin) 40) with name +:+ ".revision must be a 40-character Git revision").
Definition optional_image (field image : string) : error :=
  if String.eqb image "" then None else wrap field (ValidatePinnedTagOnly ParseNormalizedNamed image).
Definition versions_validate (v : Versions) : error :=
  let bridge := vs_Bridge v in
  let hermes := vs_Hermes v in
  optional_image "bridge.image" (bv_Image bridge) >>?
  optional_image "bridge.base_image" (bv_BaseImage bridge) >>?
  optional_image "bridge.kubernetes_base_image" (bv_KubernetesBaseImage bridge) >>?
  (refuse_if blank_text (vs_OpenClaw_Image v) with "openclaw.image is required") >>?
  validateRepositoryPin "terminalbench2" (vs_TerminalBench2 v) >>?
  validateRepositoryPin "deepresearchbench" (vs_DeepResearchBench v) >>?
  validateRepositoryPin "sweatlasqa" (vs_SWEAtlas v) >>?
  validateRepositoryPin "swebenchpro.dataset" (sw_Dataset (vs_SWEbenchPro v)) >>?
  validateRepositoryPin "swebenchpro.evaluator" (sw_Evaluator (vs_SWEbenchPro v)) >>?
  (if bool_decide (vs_Toolathlon v = no_pin) then None else validateRepositoryPin "toolathlon" (vs_Toolathlon v)) >>?
  wrap "openclaw.image" (ValidatePinnedTagOnly ParseNormalizedNamed (vs_OpenClaw_Image v)) >>?
  (if blank_text (hm_Image hermes) then None
   else wrap "hermes.image" (ValidatePinnedTagOnly ParseNormalizedNamed (hm_Image hermes))) >>?
  (if bool_decide (hm_OTelPlugin hermes = no_plugin) then None
   else validateRepositoryPin "hermes.otel_plugin" (ho_Pin (hm_OTelPlugin hermes)) >>?
        (refuse_if negb (validPluginVersion (ho_Version (hm_OTelPlugin hermes)))
           with "hermes.otel_plugin.version must be a dotted release number")) >>?
  (refuse_if negb (String.eqb (hm_GRPCIO hermes) "") && negb (validPluginVersion (hm_GRPCIO hermes))
     with "hermes.grpcio must be a dotted release number").
Definition HarnessImage (v : Versions) (harnessType : string) : string + err :=
  let select (image field : string) :=
    if blank_text image then inr (ENew (field +:+ " is required for harness type " +:+ quote harnessType))
    else inl image in
  if String.eqb harnessType "openclaw" then select (vs_OpenClaw_Image v) "openclaw.image"
  else if String.eqb harnessType "hermes" then select (hm_Image (vs_Hermes v)) "hermes.image"
  else inr (ENew ("unsupported harness type " +:+ quote harnessType)).

(** [BenchmarkCredentialEnv]: [slices.Sort] and [slices.Compact]. *)
Fixpoint Compact (l : list string) : list string :=
  match l with
  | a :: (b :: _) as rest => if String.eqb a b then Compact rest else a :: Compact rest
  | _ => l
  end.
Definition BenchmarkCredentialEnv (c : Config) : list string :=
  match bc_Toolathlon (cf_Benchmark c) with
  | Some t =>
      if String.eqb (bc_Type (cf_Benchmark c)) "toolathlon"
      then Compact (merge_sort string_le (map snd (map_to_list (tc_CredentialsEnv t)) ++
                                          map snd (map_to_list (tc_CredentialFilesEnv t))))
      else []
  | None => []
  end.
End Blocks.

(** * Credentials are found exactly *)

Section json_induction.
Variable P : json -> Prop.
Hypothesis Hnull : P JNull.
Hypothesis Hbool : forall b, P (JBool b).
Hypothesis Hnumber : forall t, P (JNumber t).
Hypothesis Hstring : forall s, P (JString s).
Hypothesis Harray : forall items, Forall P items -> P (JArray items).
Hypothesis Hobject : forall members, Forall (fun m => P m.2) members -> P (JObject members).
Fixpoint json_nested_ind (value : json) : P value :=
  match value with
  | JNull => Hnull
  | JBool b => Hbool b
  | JNumber t => Hnumber t
  | JString s => Hstring s
  | JArray items => Harray items ((fix go l : Forall P l :=
      match l with [] => Forall_nil_2 P | v :: l => Forall_cons_2 P v l (json_nested_ind v) (go l) end) items)
  | JObject members => Hobject members ((fix go l : Forall (fun m => P m.2) l :=
      match l with
      | [] => Forall_nil_2 _
      | m :: l => Forall_cons_2 (fun m => P m.2) m l (json_nested_ind m.2) (go l)
      end) members)
  end.
End json_induction.

(** The field names of a value, at any depth. *)
Fixpoint field_names (value : json) : list string :=
  match value with
  | JObject members => flat_map (fun m => m.1 :: field_names m.2) members
  | JArray items => flat_map field_names items
  | _ => []
  end.

(** What a search from a path reports: nothing, when none of [names] is a credential;
    or a path below it that ends in a credential's name. *)
Definition reports (path : string) (names : list string) (found : string) : Prop :=
  (found = ""%string /\ Forall (fun key => credential_field key = false) names) \/
  (exists mid key, found = (path +:+ mid +:+ "." +:+ key)%string /\ key ∈ names /\ credential_field key = true).

Lemma dotted_not_empty (a mid key : string) : (a +:+ mid +:+ "." +:+ key <> "")%string.
Proof. destruct a as [|x a]; [|done]. by destruct mid. Qed.
Lemma reports_below path suffix names names' found :
  reports (path +:+ suffix) names found -> names ⊆ names' ->
  found = ""%string \/ exists mid key, found = (path +:+ mid +:+ "." +:+ key)%string /\ key ∈ names' /\ credential_field key = true.
Proof.
  intros [[-> _]|(mid & key & -> & Hk & Hc)] Hsub; [by left|right].
  exists (suffix +:+ mid)%string, key. rewrite <- !string_app_assoc. split_and!; auto.
Qed.

Lemma first_member_reports path (members : list (string * json)) :
  Forall (fun m => forall p, reports p (field_names m.2) (findCredentialField m.2 p)) members ->
  reports path (flat_map (fun m => m.1 :: field_names m.2) members)
    (first_member path (map (fun m => (m.1, findCredentialField m.2)) members)).
Proof.
  induction 1 as [|[key v] members Hm _ IH]; [by left|]. cbn [first_member flat_map map fst snd] in *.
  destruct (credential_field key) eqn:Hc.
  { right. exists ""%string, key. split; [done|]. split; [set_solver|done]. }
  destruct (String.eqb_spec (findCredentialField v (path +:+ "." +:+ key)%string) "") as [He|He].
  - destruct IH as [[-> Hall]|(mid & k & -> & Hk & Hk')].
    + left. split; [done|]. constructor; [done|]. apply Forall_app. split; [|done].
      destruct (Hm (path +:+ "." +:+ key)%string) as [[_ ?]|(mid & k & Hf & _)]; [done|].
      rewrite He in Hf. by symmetry in Hf; apply dotted_not_empty in Hf.
    + right. exists mid, k. split; [done|]. split; [set_solver|done].
  - destruct (reports_below path ("." +:+ key) _
      ((key :: field_names v) ++ flat_map (fun m => m.1 :: field_names m.2) members) _
      (Hm (path +:+ "." +:+ key)%string)) as [?|?]; [set_solver|done|by right].
Qed.
Lemma first_element_reports path index (items : list json) :
  Forall (fun v => forall p, reports p (field_names v) (findCredentialField v p)) items ->
  reports path (flat_map field_names items) (first_element path index (map findCredentialField items)).
Proof.
  intros H. revert index. induction H as [|v items Hf _ IH]; intros index; [by left|]. cbn [first_element flat_map map].
  set (suffix := ("[" +:+ itoa index +:+ "]")%string).
  destruct (String.eqb_spec (findCredentialField v (path +:+ suffix)%string) "") as [He|He].
  - destruct (IH (index + 1)) as [[-> Hall]|(mid & k & -> & Hk & Hk')].
    + left. split; [done|]. apply Forall_app. split; [|done].
      destruct (Hf (path +:+ suffix)%string) as [[_ ?]|(mid & k & Hp & _)]; [done|].
      rewrite He in Hp. by symmetry in Hp; apply dotted_not_empty in Hp.
    + right. exists mid, k. split; [done|]. split; [set_solver|done].
  - destruct (reports_below path suffix _ (field_names v ++ flat_map field_names items) _ (Hf (path +:+ suffix)%string))
      as [?|?]; [set_solver|done|by right].
Qed.
Lemma reports_perm path names names' found : names ≡ₚ names' -> reports path names found -> reports path names' found.
Proof.
  intros Hp [[-> H]|(mid & key & -> & Hk & Hc)]; [left; split; [done|by rewrite <- Hp]|].
  right. exists mid, key. by rewrite <- Hp.
Qed.
Lemma findCredentialField_reports value path : reports path (field_names value) (findCredentialField value path).
Proof.
  revert path. induction value as [| | | |items IH|members IH] using json_nested_ind; intros path; try by left.
  - by apply first_element_reports.
  - cbn [findCredentialField field_names].
    destruct (Permutation_map_inv (fun m : string * json => (m.1, findCredentialField m.2)) members
      (merge_sort_Permutation key_le _)) as (members' & -> & Hp).
    eapply reports_perm; [|apply first_member_reports; by rewrite <- Hp].
    rewrite !flat_map_concat_map. by rewrite Hp.
Qed.

(** No credential hides in the free-form block: the search reports nothing exactly
    when no field of the value, at any depth, is named like a credential, and otherwise
    a dotted path below its start that ends in such a field. *)
Theorem findCredentialField_exact value path :
  (findCredentialField value path = ""%string <-> Forall (fun key => credential_field key = false) (field_names value)) /\
  (findCredentialField value path = ""%string \/
   exists mid key, findCredentialField value path = (path +:+ mid +:+ "." +:+ key)%string /\
     key ∈ field_names value /\ credential_field key = true).
Proof.
  destruct (findCredentialField_reports value path) as [[-> Hall]|(mid & key & -> & Hk & Hc)].
  - split; [done|by left].
  - split; [split|right; eauto].
    + intros H. by apply dotted_not_empty in H.
    + rewrite Forall_forall. intros H. rewrite (H key Hk) in Hc. done.
Qed.

Example credential_found :
  findCredentialField (JObject [("b", JArray [JNull; JObject [("API-Key", JNull)]]); ("a", JNumber "1")])%string "x"
  = "x.b[1].API-Key"%string.
Proof. vm_compute. reflexivity. Qed.

(** * What a validated experiment promises *)

Section Promises.
Variable url_Parse : string -> option FullURL.
Variable url_String : FullURL -> string.
Variable ParsePrefix ParseIP : string -> bool.
Variable Unmarshal_object : bytes -> option (list (string * json)).

(** A duration field that is set; text without a NUL byte; a check of each of a list. *)
Definition positive_or_unset (text : string) (d : Z) : Prop := if blank_text text then d = 0 else 0 < d.
Definition no_NUL (s : string) : Prop := NUL ∉ to_bytes s.
Definition written (s : string) : Prop := blank_text s = false.
Definition variable_name (s : string) : Prop := validEnvName s = true.

Definition execution_ok (x : ExecutionConfig) : Prop :=
  0 < ec_Concurrency x /\ (ec_LoopDuration x <> ""%string -> 0 < ec_Loop x) /\
  (ec_ArrivalsFile x <> ""%string ->
     f64_ltb f64_zero (ec_ArrivalRatePerMin x) = true /\ IsInf (ec_ArrivalRatePerMin x) = false /\
     ec_LoopDuration x = ""%string) /\
  (ec_ArrivalsFile x = ""%string -> f64_eqb (ec_ArrivalRatePerMin x) f64_zero = true).

(** The settings of a speech service. *)
Definition tts_ok (t : RealtimeTTSConfig) : Prop :=
  tt_Provider t = "openai"%string /\ variable_name (tt_APIKeyEnv t) /\
  Forall no_NUL [tt_BaseURL t; tt_Model t; tt_Voice t; tt_Instructions t] /\
  (forall speed, tt_Speed t = Some speed ->
     f64_ltb speed quarter = false /\ f64_ltb (f64_of_Z 4) speed = false /\
     IsNaN speed = false /\ IsInf speed = false) /\
  positive_or_unset (tt_TimeoutText t) (tt_Timeout t).
Definition stt_ok (t : VoiceSTTConfig) : Prop :=
  st_Provider t ∈ ["openai"; "local"]%string /\ st_Model t <> ""%string /\
  Forall no_NUL [st_Provider t; st_Model t; st_Language t] /\
  positive_or_unset (st_TimeoutText t) (st_Timeout t).
Definition realtime_ok (r : HarnessRealtimeConfig) : Prop :=
  tts_ok (hr_TTS r) /\ 0 <= hr_TrailingSilenceMillis r /\
  positive_or_unset (hr_ChunkDurationText r) (hr_ChunkDuration r) /\
  positive_or_unset (hr_ListenDurationText r) (hr_ListenDuration r) /\
  positive_or_unset (hr_QuietDurationText r) (hr_QuietDuration r) /\
  positive_or_unset (hr_AgentWaitDurationText r) (hr_AgentWaitDuration r) /\
  positive_or_unset (hr_ToolCallTimeoutText r) (hr_ToolCallTimeout r).

(** A free-form block: a JSON object that is not empty, without a field named like a
    credential at any depth, in whose text every reference is one of the two allowed. *)
Definition is_hermes (h : HarnessConfig) : Prop := hc_Type h = "hermes"%string.
Definition supported (h : HarnessConfig) : Prop := hc_Type h ∈ ["openclaw"; "hermes"]%string.
Definition extra_body_ok (raw : bytes) : Prop :=
  (forall before name after, "}"%char ∉ name ->
     raw = before ++ "$"%char :: "{"%char :: name ++ "}"%char :: after ->
     of_bytes name ∈ ["ARIES_RUN_ID"; "ARIES_TASK_ID"]%string) /\
  exists object, Unmarshal_object raw = Some object /\ object <> [] /\
    Forall (fun key => credential_field key = false) (field_names (JObject object)).

(** The harness block: its mode, and the blocks that go with its type. *)
Definition server_ok (server : MCPServerConfig) : Prop :=
  server_name_ok server /\ 0 <= mp_TimeoutSeconds server /\
  (command_server server \/ url_server (core_URL url_Parse) server).
Definition mode_ok (h : HarnessConfig) : Prop :=
  let voice := hc_VoiceTranscribe h in
  ((hc_Mode h = "agent" /\ hc_Realtime h = zero_Realtime /\ voice = zero_Voice) \/
   (hc_Mode h = "realtime" /\ hc_Type h = "openclaw" /\ realtime_ok (hc_Realtime h) /\ voice = zero_Voice) \/
   (hc_Mode h = "voice-transcribe" /\ hc_Realtime h = zero_Realtime /\
    ((hc_Type h = "openclaw" /\ hv_STT voice = zero_STT /\ realtime_ok (hv_Realtime voice)) \/
     (is_hermes h /\ tts_ok (hr_TTS (hv_Realtime voice)) /\ stt_ok (hv_STT voice)))))%string.
Definition blocks_ok (h : HarnessConfig) : Prop :=
  NoDup (map mp_Name (hc_MCPServers h)) /\ Forall server_ok (hc_MCPServers h) /\
  (hc_MCPServers h <> [] -> supported h) /\
  (hw_Enabled (hc_WebSearch h) = true -> supported h) /\
  (hw_ExtractAPIKeyEnv (hc_WebSearch h) <> ""%string ->
     supported h /\ hw_Enabled (hc_WebSearch h) = true /\ variable_name (hw_ExtractAPIKeyEnv (hc_WebSearch h))) /\
  (forall k, hc_Compaction h = Some k -> is_hermes h /\ 0 <= hk_ThresholdTokens k /\
     (hk_Enabled k <> None \/ hk_ThresholdTokens k <> 0)) /\
  (forall raw, hc_Hermes h = Some raw -> is_hermes h /\ extra_body_ok raw).
Definition harness_ok (h : HarnessConfig) : Prop :=
  blocks_ok h /\ mode_ok h /\
  (hs_Enabled (hc_Subagents h) <> None <-> supported h) /\
  0 <= hs_MaxConcurrent (hc_Subagents h) /\ (hs_MaxConcurrent (hc_Subagents h) <> 0 -> supported h).

(** The model service: managed with everything a launch needs, or external with nothing. *)
Definition runtime_ok (c : RuntimeConfig) : Prop :=
  let v := rc_Config c in
  (rc_Mode c = "external"%string /\ rc_Backend c ∈ ["deepseek"; "sglang"; "openai"]%string /\
   rv_Executable v = ""%string /\ rv_StartupTimeoutText v = ""%string /\ rv_StopTimeoutText v = ""%string /\
   rv_GPUIndices v = [] /\ (rc_Backend c <> "sglang"%string -> rv_File v = ""%string)) \/
  (rc_Mode c = "managed"%string /\ rc_Backend c = "sglang"%string /\ written (rv_File v) /\
   written (rv_Executable v) /\ no_NUL (rv_Executable v) /\ NoDup (rv_GPUIndices v) /\
   Forall (fun index => 0 <= index) (rv_GPUIndices v) /\
   0 < rv_StartupTimeout v /\ 0 < rv_StopTimeout v).

(** The URL of a service, what a request asks of a model, and how hard it thinks. *)
Definition plain_http (u : FullURL) : Prop :=
  ul_Scheme u ∈ ["http"; "https"]%string /\ ul_Host u <> ""%string /\ ul_User u = false /\
  ul_RawQuery u = ""%string /\ ul_Fragment u = ""%string.
Definition base_url_ok (value : string) : Prop := exists u, url_Parse value = Some u /\ plain_http u.
Definition generation_ok (length tokens : Z) (temperature : option float64) : Prop :=
  0 <= length /\ 0 <= tokens /\ (0 < length -> 0 < tokens -> tokens < length) /\
  forall t, temperature = Some t ->
    IsNaN t = false /\ IsInf t = false /\ f64_ltb t f64_zero = false /\ f64_ltb (f64_of_Z 2) t = false.
Definition effort_ok (provider effort : string) : Prop :=
  effort = ""%string \/
  (provider = "deepseek"%string /\ effort ∈ ["off"; "none"; "low"; "high"; "max"]%string) \/
  (provider ∈ ["openai"; "sglang"]%string /\
   effort ∈ ["off"; "none"; "minimal"; "low"; "medium"; "high"; "xhigh"; "max"]%string).

(** The blocks that the type of the benchmark requires, and those it forbids; the
    source keeps a toolathlon block of a sweatlasqa benchmark, unchecked. *)
Definition judge_ok (j : JudgeConfig) : Prop :=
  let m := jc_Model j in
  (jc_Enabled j = Some false /\ jc_Provider j = ""%string /\
   pm_ID m = ""%string /\ pm_BaseURL m = ""%string /\ pm_APIKeyEnv m = ""%string /\
   pm_ReasoningEffort m = ""%string /\ pm_ContextLength m = 0 /\ pm_MaxTokens m = 0 /\ pm_Temperature m = None) \/
  (jc_Enabled j <> Some false /\ written (jc_Provider j) /\ base_url_ok (pm_BaseURL m) /\ written (pm_ID m) /\
   variable_name (pm_APIKeyEnv m) /\ pm_ContextLength m = 0 /\
   generation_ok 0 (pm_MaxTokens m) (pm_Temperature m) /\ effort_ok (jc_Provider j) (pm_ReasoningEffort m)).
Definition fact_ok (f : FactConfig) : Prop :=
  (Forall (fun s => blank_text s = true) [fc_Provider f; fc_BaseURL f; fc_ID f; fc_APIKeyEnv f] \/
   (written (fc_Provider f) /\ base_url_ok (fc_BaseURL f) /\ written (fc_ID f) /\ variable_name (fc_APIKeyEnv f))) /\
  variable_name (fc_JinaAPIKeyEnv f).
Definition toolathlon_ok (t : ToolathlonConfig) : Prop :=
  (tc_GatewayPort t = 0 \/ 1024 <= tc_GatewayPort t <= 65535) /\ 0 <= tc_MaxSteps t /\
  (tc_AppHost t <> ""%string -> validHostName ParseIP (tc_AppHost t) = true) /\
  map_Forall (fun key host => variable_name key /\ variable_name host) (tc_CredentialsEnv t) /\
  map_Forall (fun key host => HasPrefix key "configs/" = true /\ variable_name host /\
    ~ exists before after, to_bytes key = before ++ "."%char :: "."%char :: after) (tc_CredentialFilesEnv t).
Definition image_given (b : BenchmarkConfig) : Prop :=
  exists e, bc_Environment b = Some e /\ written (be_Image e).
Definition when {A} (P : A -> Prop) (block : option A) : Prop := forall a, block = Some a -> P a.
Definition benchmark_ok (b : BenchmarkConfig) : Prop :=
  (bc_Type b = "deepresearchbench"%string ->
     image_given b /\ when judge_ok (bc_Judge b) /\ when fact_ok (bc_Fact b) /\ bc_Toolathlon b = None) /\
  (bc_Type b ∈ ["terminalbench2"; "swebenchpro"]%string ->
     bc_Environment b = None /\ bc_Judge b = None /\ bc_Fact b = None /\ bc_Toolathlon b = None) /\
  (bc_Type b = "sweatlasqa"%string ->
     (exists judge, bc_Judge b = Some judge /\ judge_ok judge) /\ bc_Environment b = None /\ bc_Fact b = None) /\
  (bc_Type b = "toolathlon"%string ->
     image_given b /\ bc_Judge b = None /\ bc_Fact b = None /\ when toolathlon_ok (bc_Toolathlon b)).

(** The model, with the harness and the service it is for.  [given] is the base URL of
    the experiment file. *)
Definition lacks (h : HarnessConfig) (keys : list string) : Prop :=
  forall raw, hc_Hermes h = Some raw -> exists object, Unmarshal_object raw = Some object /\
    Forall (fun member : string * json => member.1 ∉ keys) object.
Definition open_service (c : Config) : Prop := rc_Backend (cf_Runtime c) ∈ ["sglang"; "openai"]%string.
Definition v1_url (given url : string) : Prop :=
  exists u, url_Parse given = Some u /\ plain_http u /\ ul_Opaque u = ""%string /\ ul_RawPath u = ""%string /\
    ul_ForceQuery u = false /\ ul_Path u ∈ ["/v1"; "/v1/"]%string /\ url = url_String (set_ul_Path "/v1" u).
Definition model_ok (given : string) (c : Config) : Prop :=
  let m := cf_Model c in
  let h := cf_Harness c in
  (pm_ContextLength m <> 0 \/ pm_MaxTokens m <> 0 \/ pm_Temperature m <> None -> is_hermes h) /\
  generation_ok (pm_ContextLength m) (pm_MaxTokens m) (pm_Temperature m) /\
  effort_ok (rc_Backend (cf_Runtime c)) (pm_ReasoningEffort m) /\
  (pm_ReasoningEffort m <> ""%string -> lacks h ["thinking"; "reasoning"; "reasoning_effort"]%string) /\
  (forall k, hc_Compaction h = Some k -> 0 < pm_ContextLength m -> hk_ThresholdTokens k < pm_ContextLength m) /\
  (hc_Hermes h <> None -> open_service c) /\
  (pm_Temperature m <> None -> open_service c /\ lacks h ["temperature"]%string) /\
  variable_name (pm_APIKeyEnv m) /\ written (pm_ID m) /\
  (open_service c -> v1_url given (pm_BaseURL m)) /\
  (~ open_service c -> pm_BaseURL m = given /\ base_url_ok given).

Definition config_ok (given : string) (c : Config) : Prop :=
  in_effect url_Parse ParsePrefix (placement_of c) /\ execution_ok (cf_Execution c) /\ harness_ok (cf_Harness c) /\
  runtime_ok (cf_Runtime c) /\ model_ok given c /\ benchmark_ok (cf_Benchmark c) /\
  path_component (to_bytes (cf_Name c)) /\ len (cf_Name c) <= 80 /\
  bc_Tasks (cf_Benchmark c) <> [] /\ Forall written (bc_Tasks (cf_Benchmark c)) /\
  Forall written [cf_VersionsFile c; bc_Type (cf_Benchmark c); bc_Root (cf_Benchmark c);
                  hc_Type (cf_Harness c); bg_Type (cf_Bridge c); cf_OutputDir c].

Lemma positive_duration_inl name value reason d : positive_duration name value reason = inl d -> 0 < d.
Proof. unfold positive_duration. destruct (ParseDuration value) as [n|]; [|done]. destruct (Z.ltb_spec 0 n); [|done]. by intros [= <-]. Qed.
Lemma optional_duration_inl name value d : parseOptionalPositiveDuration name value = inl d -> positive_or_unset value d.
Proof.
  unfold parseOptionalPositiveDuration, positive_or_unset. destruct (blank_text value); [by intros [= <-]|].
  apply positive_duration_inl.
Qed.

(** ** What each check accepts *)

Lemma one_of_iff value values : one_of value values = true <-> value ∈ values.
Proof.
  unfold one_of. rewrite existsb_exists. split.
  - intros (x & Hx & ->%String.eqb_eq). by apply list_elem_of_In.
  - intros H. exists value. split; [by apply list_elem_of_In|apply String.eqb_refl].
Qed.
Lemma either_supported h : either_harness h = true <-> supported h.
Proof. apply one_of_iff. Qed.
Lemma hermes_type_iff h : hermes_type h = true <-> is_hermes h.
Proof. apply String.eqb_eq. Qed.
Lemma no_NUL_iff s : ContainsByte s NUL = false <-> no_NUL s.
Proof. unfold ContainsByte, no_NUL. rewrite <- mem_spec. by destruct (mem _ _). Qed.
Lemma no_NULs strings : existsb (fun s => ContainsByte s NUL) strings = false <-> Forall no_NUL strings.
Proof.
  induction strings as [|s strings IH]; simpl; [by split; [constructor|]|].
  by rewrite orb_false_iff, Forall_cons, IH, no_NUL_iff.
Qed.

(** Every reference of a text is found, by itself or inside a longer one. *)
Lemma reference_closed name after acc :
  "}"%char ∉ name ->
  placeholders (Some acc) (name ++ "}"%char :: after) = of_bytes (rev acc ++ name) :: placeholders None after.
Proof.
  revert acc. induction name as [|c name IH]; intros acc H.
  - cbn [placeholders app]. rewrite Ascii.eqb_refl. by rewrite app_nil_r.
  - apply not_elem_of_cons in H as [Hc H]. cbn [placeholders app].
    rewrite (proj2 (Ascii.eqb_neq c "}"%char)) by congruence. rewrite IH by done. simpl.
    by rewrite <- app_assoc.
Qed.
Lemma placeholders_other c s : c <> "$"%char -> placeholders None (c :: s) = placeholders None s.
Proof. intros H. cbn [placeholders]. by rewrite (proj2 (Ascii.eqb_neq c "$"%char)). Qed.
Lemma placeholders_dollar d s :
  d <> "{"%char -> placeholders None ("$"%char :: d :: s) = placeholders None (d :: s).
Proof. intros H. destruct d as [[] [] [] [] [] [] [] []]; done. Qed.
Lemma reference_found name after n before inside :
  "}"%char ∉ name -> (length before <= n)%nat ->
  exists outer x, of_bytes outer ∈ placeholders inside (before ++ "$"%char :: "{"%char :: name ++ "}"%char :: after) /\
    outer = x ++ name /\ (x = [] \/ "$"%char ∈ x).
Proof.
  intros Hname. revert before inside. induction n as [n IH] using lt_wf_ind. intros before inside Hn.
  destruct before as [|c before].
  - destruct inside as [acc|].
    + exists (rev ("{"%char :: "$"%char :: acc) ++ name), (rev ("{"%char :: "$"%char :: acc)).
      split_and!; [|done|right; simpl; set_solver].
      cbn [placeholders app]. simpl Ascii.eqb. cbv match. rewrite reference_closed by done. left.
    + exists name, []. split_and!; [|done|by left]. cbn [placeholders app]. simpl Ascii.eqb. cbv match.
      rewrite reference_closed by done. left.
  - simpl in Hn. cbn [app]. destruct inside as [acc|].
    + cbn [placeholders]. destruct (Ascii.eqb c "}").
      * destruct (IH (pred n) ltac:(lia) before None ltac:(lia)) as (outer & x & Hin & Hx).
        exists outer, x. split; [by right|done].
      * apply (IH (pred n)); lia.
    + destruct (ascii_dec c "$") as [->|Hc].
      2: { rewrite placeholders_other by done. apply (IH (pred n)); lia. }
      destruct before as [|d before]; cbn [app].
      { rewrite placeholders_dollar by done. apply (IH 0%nat ltac:(lia) []). done. }
      simpl in Hn. destruct (ascii_dec d "{") as [->|Hd].
      * apply (IH (pred (pred n))); lia.
      * rewrite placeholders_dollar by done. apply (IH (pred n) ltac:(lia) (d :: before) None). simpl. lia.
Qed.
Lemma references_allowed raw :
  (forall name, name ∈ placeholders None raw -> name ∈ extraBodyPlaceholders) ->
  forall before name after, "}"%char ∉ name ->
    raw = before ++ "$"%char :: "{"%char :: name ++ "}"%char :: after ->
    of_bytes name ∈ extraBodyPlaceholders.
Proof.
  intros Hall before name after Hname ->.
  destruct (reference_found name after (length before) before None Hname ltac:(lia)) as (outer & x & Hin & -> & Hx).
  apply Hall in Hin. destruct Hx as [->|Hx]; [done|].
  assert (forall s, s ∈ extraBodyPlaceholders -> "$"%char ∉ to_bytes s) as Hs.
  { apply Forall_forall. by repeat constructor; vm_compute; set_solver. }
  apply Hs in Hin. rewrite to_of_bytes in Hin. set_solver.
Qed.

Lemma has_dotdot_cons c s : has_dotdot s = true -> has_dotdot (c :: s) = true.
Proof.
  destruct s as [|d s]; [done|]. intros H.
  destruct (ascii_dec c ".") as [->|Hc].
  - destruct (ascii_dec d ".") as [->|Hd]; [done|].
    by destruct d as [[] [] [] [] [] [] [] []].
  - by destruct c as [[] [] [] [] [] [] [] []].
Qed.
Lemma has_dotdot_found before after : has_dotdot (before ++ "."%char :: "."%char :: after) = true.
Proof. induction before; [done|]. by apply has_dotdot_cons. Qed.

(** The checks that did not refuse. *)
Ltac passed H E :=
  match type of H with (if ?b then _ else _) = _ => destruct b eqn:E; try done end.

(** ** The model *)

Lemma base_url_accepted name value : validateHTTPBaseURL url_Parse name value = None -> base_url_ok value.
Proof.
  unfold validateHTTPBaseURL, base_url_ok, plain_http, http_scheme, plain_url.
  destruct (url_Parse value) as [u|]; [|done].
  rewrite seq_error_nil, !refuse_if_nil, orb_false_iff, !negb_false_iff, !andb_true_iff, orb_true_iff, negb_true_iff,
    !String.eqb_eq, String.eqb_neq. intros ((Hs & Hh) & (Hu & Hq) & Hf).
  exists u. split_and!; try done. clear -Hs. set_solver.
Qed.
Lemma v1_accepted given url : normalizeV1BaseURL url_Parse url_String given = inl url -> v1_url given url.
Proof.
  unfold normalizeV1BaseURL, v1_url, plain_http, http_scheme, plain_url. destruct (url_Parse given) as [u|]; [|done].
  intros H. exists u. split; [done|].
  passed H E.
  rewrite !orb_false_iff, !negb_false_iff, !andb_true_iff, orb_true_iff, negb_true_iff, !String.eqb_eq,
    String.eqb_neq in E. destruct E as ((((((Hs & Hh) & Ho) & (Hu & Hq) & Hf) & Hr) & Hforce) & _).
  passed H E. injection H as <-.
  rewrite andb_false_iff, !negb_false_iff, !String.eqb_eq in E.
  split_and!; try done; clear -Hs E; set_solver.
Qed.
Lemma generation_accepted m :
  ValidateGeneration m = None -> generation_ok (mc_ContextLength m) (mc_MaxTokens m) (mc_Temperature m).
Proof.
  unfold ValidateGeneration, generation_ok. rewrite !seq_error_nil, !refuse_if_nil, !Z.ltb_ge.
  intros (H1 & H2 & H3 & H4). split_and!; [done|done| |].
  - intros Hl Ht. apply Z.ltb_lt in Hl, Ht. rewrite Hl, Ht in H3. by apply Z.leb_gt in H3.
  - intros t E. rewrite E, refuse_if_nil, !orb_false_iff in H4. clear -H4. tauto.
Qed.
Lemma effort_accepted m : error_of (ReasoningBody m) = None -> effort_ok (mc_Provider m) (mc_ReasoningEffort m).
Proof.
  unfold ReasoningBody, effort_ok. destruct (String.eqb_spec (mc_ReasoningEffort m) "") as [|Hne]; [by left|].
  set (effort := if String.eqb (mc_ReasoningEffort m) "off" then "none"%string else mc_ReasoningEffort m).
  assert (forall l, one_of effort l = true -> mc_ReasoningEffort m ∈ "off"%string :: l) as Heffort.
  { intros l H. subst effort. destruct (String.eqb_spec (mc_ReasoningEffort m) "off") as [->|]; [left|].
    right. by apply one_of_iff. }
  destruct (String.eqb_spec (mc_Provider m) "deepseek") as [Hp|_].
  - intros H. right. left. split; [done|].
    destruct (String.eqb effort "none") eqn:E.
    { specialize (Heffort ["none"]%string). simpl in Heffort. rewrite E in Heffort. specialize (Heffort eq_refl).
      clear -Heffort. set_solver. }
    destruct (one_of effort _) eqn:E'; [|done]. apply Heffort in E'. clear -E'. set_solver.
  - destruct (negb _ && negb _) eqn:Hp; [done|]. rewrite andb_false_iff, !negb_false_iff, !String.eqb_eq in Hp.
    destruct (one_of effort _) eqn:E'; [|done]. intros _. apply Heffort in E'. right. right. split; [clear -Hp; set_solver|done].
Qed.
Lemma setting_free h keys setting : extra_body_conflict Unmarshal_object h keys setting = None -> lacks h keys.
Proof.
  unfold extra_body_conflict, lacks. intros H raw E. rewrite E in H. destruct (Unmarshal_object raw) as [object|]; [|done].
  exists object. split; [done|]. apply first_error_nil in H.
  rewrite Forall_forall in H. apply Forall_forall. intros member Hin Hk.
  specialize (H _ Hk). apply refuse_if_nil in H. assert (existsb (fun m => String.eqb m.1 member.1) object = true) as E'.
  { apply existsb_exists. exists member. split; [by apply list_elem_of_In|apply String.eqb_refl]. }
  by rewrite E' in H.
Qed.

(** ** The benchmark *)

Lemma zero_model m : ProfileModel_is_zero m = true ->
  pm_ID m = ""%string /\ pm_BaseURL m = ""%string /\ pm_APIKeyEnv m = ""%string /\ pm_ReasoningEffort m = ""%string /\
  pm_ContextLength m = 0 /\ pm_MaxTokens m = 0 /\ pm_Temperature m = None.
Proof.
  unfold ProfileModel_is_zero. rewrite !andb_true_iff, !String.eqb_eq, !Z.eqb_eq.
  destruct (pm_Temperature m); simpl; naive_solver.
Qed.
Lemma judge_accepted j : judge_validate url_Parse j = None -> judge_ok j.
Proof.
  unfold judge_validate, judge_ok. case_bool_decide as He.
  - rewrite refuse_if_nil, orb_false_iff, !negb_false_iff, String.eqb_eq. intros [Hp Hm]. left.
    by apply zero_model in Hm.
  - rewrite !seq_error_nil, !wrap_nil_iff, !refuse_if_nil, !negb_false_iff, Z.eqb_eq.
    intros (Hp & Hu & Hi & Hk & Hg & Hl & Hr). right. apply generation_accepted in Hg. simpl in Hg. rewrite Hl in Hg.
    apply effort_accepted in Hr. split_and!; try done. by apply base_url_accepted in Hu. 
Qed.
Lemma fact_accepted f : fact_validate url_Parse f = None -> fact_ok f.
Proof.
  unfold fact_validate, fact_ok. rewrite seq_error_nil, refuse_if_nil, negb_false_iff. intros [H Hj]. split; [|done].
  passed H E.
  - rewrite !andb_true_iff in E. left. clear -E. repeat constructor; tauto.
  - rewrite !seq_error_nil, !refuse_if_nil, !negb_false_iff in H. destruct H as (Hp & Hu & Hi & Hk). right.
    split_and!; try done. by apply base_url_accepted in Hu.
Qed.
Lemma toolathlon_accepted t : toolathlon_validate ParseIP t = None -> toolathlon_ok t.
Proof.
  unfold toolathlon_validate, toolathlon_ok, check_credential, check_credential_file.
  rewrite !seq_error_nil, !refuse_if_nil, !first_error_nil, !Forall_map_to_list, Z.ltb_ge.
  intros (Hp & Hm & Hh & Hc & Hf). split_and!; [|done| | |].
  - destruct (Z.eqb_spec (tc_GatewayPort t) 0); [by left|right]. simpl in Hp.
    rewrite orb_false_iff, !Z.ltb_ge in Hp. lia.
  - intros Hne. apply String.eqb_neq in Hne. rewrite Hne in Hh. by apply negb_false_iff.
  - intros key host Hin. specialize (Hc key host Hin). simpl in Hc.
    by rewrite seq_error_nil, !refuse_if_nil, !negb_false_iff in Hc.
  - intros key host Hin. specialize (Hf key host Hin). simpl in Hf.
    rewrite seq_error_nil, !refuse_if_nil, orb_false_iff, !negb_false_iff in Hf. destruct Hf as [[Hk Hd] Hv].
    split_and!; [done|done|]. intros (before & after & E). by rewrite E, has_dotdot_found in Hd.
Qed.
Lemma image_accepted type b : environment_required type b = None -> image_given b.
Proof. unfold environment_required, image_given. rewrite refuse_if_nil. destruct (bc_Environment b); [eauto|done]. Qed.
Lemma absent_accepted {A} name type (block : option A) : absent_block name type block = None -> block = None.
Proof. unfold absent_block. rewrite refuse_if_nil. by destruct block. Qed.
Lemma optional_accepted {A} (check : A -> error) (P : A -> Prop) block :
  (forall a, check a = None -> P a) -> optional_check check block = None -> when P block.
Proof. intros H Hc a ->. by apply H. Qed.
Lemma benchmark_accepted b : validateBenchmarkType url_Parse ParseIP b = None -> benchmark_ok b.
Proof.
  unfold validateBenchmarkType, benchmark_ok.
  destruct (String.eqb_spec (bc_Type b) "deepresearchbench") as [->|H1].
  { rewrite !seq_error_nil. intros (He & Hj & Hf & Ht). split_and!; [|clear; set_solver|done|done]. intros _.
    split_and!; [by eapply image_accepted|eapply optional_accepted; [|exact Hj]; apply judge_accepted
                |eapply optional_accepted; [|exact Hf]; apply fact_accepted|by eapply absent_accepted]. }
  destruct (String.eqb (bc_Type b) "terminalbench2" || String.eqb (bc_Type b) "swebenchpro") eqn:H2.
  { apply orb_true_iff in H2. rewrite !String.eqb_eq in H2. rewrite !seq_error_nil. intros (He & Hj & Hf & Ht).
    apply absent_accepted in He, Hj, Hf, Ht. destruct H2 as [E|E]; rewrite E; split_and!; done. }
  rewrite orb_false_iff, !String.eqb_neq in H2.
  destruct (String.eqb_spec (bc_Type b) "sweatlasqa") as [->|H3].
  { rewrite !seq_error_nil. intros (Hj & He & Hf). apply absent_accepted in He, Hf.
    split_and!; [done|set_solver| |done]. intros _. split; [|done].
    destruct (bc_Judge b) as [judge|]; [|done]. exists judge. split; [done|]. by apply judge_accepted. }
  destruct (String.eqb_spec (bc_Type b) "toolathlon") as [->|H4].
  { rewrite !seq_error_nil. intros (He & Hj & Hf & Ht). apply absent_accepted in Hj, Hf.
    split_and!; [done|set_solver|done|]. intros _. split_and!; [by eapply image_accepted|done|done|].
    eapply optional_accepted; [|exact Ht]. apply toolathlon_accepted. }
  intros _. split_and!; [done|set_solver|done|done].
Qed.

Lemma execution_validate_ok x x' : execution_validate x = inl x' -> execution_ok x'.
Proof.
  unfold execution_validate. intros H. apply check_that_inl in H as [Hc H]. apply refuse_if_nil, Z.leb_gt in Hc.
  apply check_bind_inl in H as (y & Hy & H). apply check_that_inl in H as [He [= <-]].
  rewrite !seq_error_nil, !refuse_if_nil in He. destruct He as (H0 & H1 & H2).
  assert (ec_Concurrency y = ec_Concurrency x /\ ec_LoopDuration y = ec_LoopDuration x /\
    ec_ArrivalsFile y = ec_ArrivalsFile x /\ ec_ArrivalRatePerMin y = ec_ArrivalRatePerMin x /\
    (ec_LoopDuration x <> ""%string -> 0 < ec_Loop y)) as (E1 & E2 & E3 & E4 & E5).
  { destruct (String.eqb_spec (ec_LoopDuration x) ""); [by injection Hy as <-|].
    apply check_bind_inl in Hy as (loop & Hl & [= <-]). apply positive_duration_inl in Hl. by split_and!. }
  unfold execution_ok. rewrite E1, E2, E3, E4 in *. split; [done|]. split; [done|]. split.
  2: { intros E. rewrite E in H0. apply negb_false_iff in H0. cbn [String.eqb negb Bool.eqb] in H0.
       by destruct (f64_eqb _ _). }
  intros Hne. apply String.eqb_neq in Hne. rewrite Hne in H1, H2. simpl in H1, H2.
  apply orb_false_iff in H1 as [H1 ?]. apply negb_false_iff in H1, H2. apply String.eqb_eq in H2. done.
Qed.

Lemma tts_validate_ok name t t' : tts_validateNamed name t = inl t' -> tts_ok t'.
Proof.
  unfold tts_validateNamed. intros H. apply check_that_inl in H as [He H]. apply check_bind_inl in H as (d & Hd & [= <-]).
  rewrite !seq_error_nil, !refuse_if_nil, !negb_false_iff in He. destruct He as (Hp & Hk & Hn & Hs).
  apply String.eqb_eq in Hp. apply no_NULs in Hn. apply optional_duration_inl in Hd.
  unfold tts_ok. simpl in *. split_and!; try done.
  intros speed E. rewrite E, refuse_if_nil, !orb_false_iff in Hs. clear -Hs. tauto.
Qed.
Lemma stt_validate_ok t t' : stt_validate t = inl t' -> stt_ok t'.
Proof.
  unfold stt_validate. intros H. apply check_that_inl in H as [He H]. apply check_bind_inl in H as (d & Hd & [= <-]).
  rewrite !seq_error_nil, !refuse_if_nil, negb_false_iff, one_of_iff in He. destruct He as (Hp & Hn).
  apply no_NULs in Hn. apply optional_duration_inl in Hd. unfold stt_ok. simpl in *. split_and!; try done.
  unfold default_text. by destruct (String.eqb _ "openai"), (String.eqb_spec (st_Model t) "").
Qed.
Lemma realtime_validate_ok name r r' : realtime_validateNamed name r = inl r' -> realtime_ok r'.
Proof.
  unfold realtime_validateNamed. intros H.
  apply check_bind_inl in H as (tts & Ht & H). apply check_that_inl in H as [Hs H]. apply refuse_if_nil, Z.ltb_ge in Hs.
  apply tts_validate_ok in Ht.
  repeat (let H' := fresh "D" in apply check_bind_inl in H as (? & H' & H); apply optional_duration_inl in H').
  injection H as <-. unfold realtime_ok. simpl. by split_and!.
Qed.

Lemma check_servers_ok seen servers :
  check_servers url_Parse seen servers = None ->
  NoDup (map mp_Name servers) /\ Forall (fun s => mp_Name s ∉ seen) servers /\
  Forall server_ok servers.
Proof.
  revert seen. induction servers as [|server servers IH]; intros seen H; simpl in *; [split_and!; constructor|].
  case_bool_decide as Hseen; [done|]. destruct (ValidateMCPServer _ server) eqn:Hv; [done|].
  apply ValidateMCPServer_accepts in Hv.
  destruct (IH _ H) as (Hnd & Hns & Hall). rewrite Forall_forall in Hns. split_and!; constructor; auto.
  - intros Hin. apply list_elem_of_fmap in Hin as (s & Hs & Hin). apply (Hns s Hin). rewrite <- Hs. set_solver.
  - apply Forall_forall. intros s Hs. specialize (Hns s Hs). set_solver.
Qed.
Lemma check_gpus_ok seen indices :
  check_gpus seen indices = None -> NoDup indices /\ Forall (fun i => i ∉ seen /\ 0 <= i) indices.
Proof.
  revert seen. induction indices as [|i indices IH]; intros seen H; simpl in *; [split; constructor|].
  destruct (Z.ltb_spec i 0); [done|]. case_bool_decide as Hseen; [done|].
  destruct (IH _ H) as [Hnd Hall]. rewrite Forall_forall in Hall. split; constructor; auto.
  - intros Hin. destruct (Hall i Hin). set_solver.
  - apply Forall_forall. intros j Hj. destruct (Hall j Hj). split; [set_solver|done].
Qed.

Lemma placeholders_ok raw :
  first_error (fun name => refuse_if negb (allowed_placeholder name)
    with "harness.hermes.extra_body may reference only ${ARIES_RUN_ID} and ${ARIES_TASK_ID}, not ${" +:+ name +:+ "}")
    (placeholders None raw) = None ->
  forall name, name ∈ placeholders None raw -> name ∈ extraBodyPlaceholders.
Proof.
  rewrite first_error_nil, Forall_forall. intros H name Hin. specialize (H name Hin).
  apply refuse_if_nil, negb_false_iff, existsb_exists in H as (allowed & Ha & He). apply String.eqb_eq in He.
  subst. by apply list_elem_of_In.
Qed.
Lemma extra_body_accepted raw : check_extra_body Unmarshal_object raw = None -> extra_body_ok raw.
Proof.
  unfold check_extra_body. intros H. destruct (Unmarshal_object raw) as [[|m object]|] eqn:E; try done.
  apply seq_error_nil in H as [Hf Hp]. apply refuse_if_nil, negb_false_iff, String.eqb_eq in Hf.
  split; [by apply references_allowed, placeholders_ok|]. exists (m :: object). split; [done|]. split; [done|].
  destruct (findCredentialField_reports (JObject (m :: object)) extra_body_path) as [[_ ?]|(mid & key & Hk & _)]; [done|].
  rewrite Hf in Hk. by symmetry in Hk; apply dotted_not_empty in Hk.
Qed.
Lemma hermes_blocks_ok h :
  validateHermesBlocks Unmarshal_object h = None ->
  (forall k, hc_Compaction h = Some k -> is_hermes h /\ 0 <= hk_ThresholdTokens k /\
     (hk_Enabled k <> None \/ hk_ThresholdTokens k <> 0)) /\
  (forall raw, hc_Hermes h = Some raw -> is_hermes h /\ extra_body_ok raw).
Proof.
  unfold validateHermesBlocks. rewrite seq_error_nil. intros [Hc Hb]. split.
  - intros k E. rewrite E, !seq_error_nil, !refuse_if_nil, negb_false_iff, hermes_type_iff, Z.ltb_ge in Hc.
    destruct Hc as (Ht & He & Hp). split_and!; [done|done|].
    destruct (hk_Enabled k); [by left|right]. by apply Z.eqb_neq.
  - intros raw E. rewrite E, !seq_error_nil, !refuse_if_nil, negb_false_iff, hermes_type_iff in Hb.
    destruct Hb as (Ht & _ & Hb). split; [done|]. by apply extra_body_accepted.
Qed.

(** The parts of a harness block that validation leaves alone. *)
Definition same_blocks (h h' : HarnessConfig) : Prop :=
  hc_Type h' = hc_Type h /\ hc_MCPServers h' = hc_MCPServers h /\ hc_WebSearch h' = hc_WebSearch h /\
  hc_Hermes h' = hc_Hermes h /\ hc_Compaction h' = hc_Compaction h /\ hc_Deployment h' = hc_Deployment h /\
  hs_MaxConcurrent (hc_Subagents h') = hs_MaxConcurrent (hc_Subagents h).
Lemma same_blocks_ok h h' : same_blocks h h' -> blocks_ok h -> blocks_ok h'.
Proof.
  unfold blocks_ok, supported, is_hermes. by intros (-> & -> & -> & -> & -> & _).
Qed.
Lemma validate_mode_ok h h' :
  validate_mode h = inl h' -> same_blocks h h' /\ hc_Subagents h' = hc_Subagents h /\ mode_ok h'.
Proof.
  unfold validate_mode, realtime_empty, voice_empty, mode_ok. destruct (String.eqb_spec (hc_Mode h) "agent") as [Hm|_].
  { intros H. apply check_that_inl in H as [He [= <-]]. rewrite seq_error_nil, !refuse_if_nil in He.
    destruct He as [H1 H2]. apply negb_false_iff, bool_decide_eq_true in H1, H2. split; [done|]. split; [done|]. by left. }
  destruct (String.eqb_spec (hc_Mode h) "realtime") as [Hm|_].
  { intros H. apply check_that_inl in H as [He H]. rewrite seq_error_nil, !refuse_if_nil in He.
    destruct He as [H1 H2]. apply negb_false_iff in H1, H2. apply String.eqb_eq in H1. apply bool_decide_eq_true in H2.
    apply check_bind_inl in H as (r & Hr & [= <-]). apply realtime_validate_ok in Hr.
    split; [done|]. split; [done|]. right. by left. }
  destruct (String.eqb_spec (hc_Mode h) "voice-transcribe") as [Hm|_]; [|done].
  unfold hermes_type, is_hermes. destruct (String.eqb_spec (hc_Type h) "openclaw") as [Ht|_].
  - intros H. apply check_that_inl in H as [He H]. apply refuse_if_nil, negb_false_iff, bool_decide_eq_true in He.
    apply check_bind_inl in H as (v & Hv & [= <-]). split; [done|]. split; [done|]. right. right. split_and!; [done..|].
    left. unfold validateOpenClaw in Hv. apply check_that_inl in Hv as [Hs Hv].
    apply refuse_if_nil, negb_false_iff, bool_decide_eq_true in Hs.
    apply check_bind_inl in Hv as (r & Hr & [= <-]). by apply realtime_validate_ok in Hr.
  - destruct (String.eqb_spec (hc_Type h) "hermes") as [Ht|_]; [|done]. intros H.
    apply check_that_inl in H as [He H]. apply refuse_if_nil, negb_false_iff, bool_decide_eq_true in He.
    apply check_bind_inl in H as (t & Htts & H). apply check_bind_inl in H as (v & Hstt & [= <-]).
    split; [done|]. split; [done|]. right. right. split_and!; [done..|]. right.
    apply tts_validate_ok in Htts. by apply stt_validate_ok in Hstt.
Qed.

Lemma harness_checks_ok h :
  harness_checks url_Parse Unmarshal_object h = None ->
  blocks_ok h /\ (hs_Enabled (hc_Subagents h) <> None -> supported h) /\
  0 <= hs_MaxConcurrent (hc_Subagents h) /\ (hs_MaxConcurrent (hc_Subagents h) <> 0 -> supported h).
Proof.
  unfold harness_checks. rewrite !seq_error_nil, !refuse_if_nil. intros (H1 & H2 & H3 & H4 & H5 & H6).
  apply hermes_blocks_ok in H1 as [Hc Hh]. rewrite <- !either_supported.
  assert (forall b, b && negb (either_harness h) = false -> b = true -> either_harness h = true) as Hneed.
  { intros b Hb ->. by apply negb_false_iff. }
  split; [|split; [|split]].
  - assert ((hc_MCPServers h <> [] -> either_harness h = true) /\ check_servers url_Parse ∅ (hc_MCPServers h) = None)
      as [Hm Hservers].
    { destruct (hc_MCPServers h) as [|server servers]; [done|]. apply seq_error_nil in H6 as [H6 H7].
      by apply refuse_if_nil, negb_false_iff in H6. }
    apply check_servers_ok in Hservers as (Hnd & _ & Hall). unfold blocks_ok. rewrite <- !either_supported.
    split_and!; try done; [by apply Hneed|]. intros Hne. apply String.eqb_neq in Hne. rewrite Hne in H3.
    by rewrite !seq_error_nil, !refuse_if_nil, !negb_false_iff in H3.
  - intros He. apply (Hneed _ H4). by destruct (hs_Enabled _).
  - destruct (Z.eqb_spec (hs_MaxConcurrent (hc_Subagents h)) 0) as [->|]; [done|].
    rewrite seq_error_nil, !refuse_if_nil, Z.ltb_ge in H5. apply H5.
  - intros Hne. apply Z.eqb_neq in Hne. rewrite Hne, seq_error_nil, !refuse_if_nil, negb_false_iff in H5. apply H5.
Qed.
Lemma harness_validate_ok h h' :
  harness_validate url_Parse Unmarshal_object h = inl h' -> same_blocks h h' /\ harness_ok h'.
Proof.
  unfold harness_validate. set (h1 := set_hc_Mode _ h). intros H. apply check_that_inl in H as [Hc H].
  set (h2 := if _ && _ then _ else h1) in H.
  assert (same_blocks h1 h2) as Hs by (subst h2; by destruct (_ && _)).
  apply harness_checks_ok in Hc as (Hb & He & Hpos & Hmax). apply validate_mode_ok in H as (Hs' & Hsub & Hmode).
  assert (same_blocks h1 h') as Hsame.
  { destruct Hs as (T1 & S1 & W1 & B1 & C1 & D1 & M1), Hs' as (T2 & S2 & W2 & B2 & C2 & D2 & M2).
    repeat split; congruence. }
  split; [exact Hsame|].
  assert (forall x y, hc_Type x = hc_Type y -> supported x -> supported y) as Hsup by (unfold supported; by intros x y ->).
  unfold harness_ok. split; [by apply (same_blocks_ok h1)|]. split; [done|].
  destruct Hsame as (HT & _ & _ & _ & _ & _ & HM). rewrite HM. split; [|split; [done|by eauto]].
  rewrite Hsub. subst h2. clear Hs Hs' Hsub. clearbody h1. destruct (hs_Enabled (hc_Subagents h1)) eqn:E; simpl.
  - rewrite E. split; [|done]. intros _. apply (Hsup h1); [done|]. by apply He.
  - destruct (either_harness h1) eqn:E'; simpl.
    + split; [|done]. intros _. apply (Hsup h1); [done|]. by apply either_supported.
    + rewrite E. split; [done|]. intros Hx%(Hsup h' h1); [|done]. apply either_supported in Hx. congruence.
Qed.

Lemma runtime_validate_ok c c' : runtime_validate c = inl c' -> runtime_ok c' /\ rc_Backend c' = rc_Backend c.
Proof.
  unfold runtime_validate, runtime_ok. destruct (one_of (rc_Backend c) _) eqn:Hb.
  { intros H. apply check_that_inl in H as [He [= <-]]. rewrite seq_error_nil, !refuse_if_nil in He.
    destruct He as [Hm Hf]. apply negb_false_iff, String.eqb_eq in Hm. apply one_of_iff in Hb.
    unfold managed_fields in Hf. rewrite !orb_false_iff, !negb_false_iff, !String.eqb_eq, bool_decide_eq_true in Hf.
    destruct Hf as [Hf [[[? ?] ?] ?]]. split; [|done]. left. split_and!; try done. set_solver. }
  destruct (String.eqb_spec (rc_Backend c) "sglang") as [Hs|]; [|done]. cbn [negb].
  destruct (String.eqb_spec (rc_Mode c) "external") as [Hm|_].
  { intros H. apply check_that_inl in H as [He [= <-]]. apply refuse_if_nil in He.
    unfold managed_fields in He. rewrite !orb_false_iff, !negb_false_iff, !String.eqb_eq, bool_decide_eq_true in He.
    destruct He as [[[? ?] ?] ?]. split; [|done]. left. split_and!; try done. set_solver. }
  destruct (String.eqb_spec (rc_Mode c) "managed") as [Hm|_]; [|done]. intros H.
  apply check_that_inl in H as [He H]. rewrite !seq_error_nil, !refuse_if_nil in He. destruct He as (Hf & Hx & Hg).
  apply orb_false_iff in Hx as [Hx Hn]. apply no_NUL_iff in Hn. apply check_gpus_ok in Hg as [Hnd Hall].
  apply check_bind_inl in H as (startup & Hst & H). apply check_bind_inl in H as (stop & Ht & [= <-]).
  apply positive_duration_inl in Hst, Ht. split; [|done]. right. simpl. split_and!; try done.
  eapply Forall_impl; [exact Hall|]. by intros i [_ ?].
Qed.

(** The checks of the model, on the harness they are made with. *)
Lemma model_accepted c m :
  model_checks Unmarshal_object c = None -> model_url url_Parse url_String c = inl m ->
  validEnvName (pm_APIKeyEnv m) = true -> blank_text (pm_ID (cf_Model c)) = false ->
  model_ok (pm_BaseURL (cf_Model c)) (set_cf_Model m c).
Proof.
  unfold model_checks. rewrite !seq_error_nil, !refuse_if_nil.
  intros (H1 & Hg & He & Hconf & Hcomp & Hopen & Htemp) Hurl Hkey Hid.
  apply generation_accepted in Hg. apply effort_accepted in He.
  assert (open_backend c = true <-> open_service c) as Hbackend by apply one_of_iff.
  assert (exists url, m = set_pm_BaseURL url (cf_Model c) /\
    (open_service c -> v1_url (pm_BaseURL (cf_Model c)) url) /\
    (~ open_service c -> url = pm_BaseURL (cf_Model c) /\ base_url_ok (pm_BaseURL (cf_Model c))))
    as (url & -> & Hv1 & Hplain).
  { unfold model_url in Hurl. destruct (open_backend c).
    - destruct (normalizeV1BaseURL _ _ _) as [url|] eqn:E; [|done]. injection Hurl as <-. apply v1_accepted in E.
      exists url. split_and!; [done|done|]. intros Hno. by destruct Hno; apply Hbackend.
    - apply check_that_inl in Hurl as [E [= <-]]. apply base_url_accepted in E.
      exists (pm_BaseURL (cf_Model c)). split; [by destruct (cf_Model c)|]. split; [|done].
      intros Ho. by apply Hbackend in Ho. }
  unfold model_ok. simpl. split_and!; try done.
  - rewrite <- hermes_type_iff. destruct (hermes_type (cf_Harness c)); [done|]. simpl in H1.
    rewrite !orb_false_iff, !negb_false_iff, !Z.eqb_eq in H1. destruct H1 as [[-> ->] Ht].
    intros [?|[?|H]]; [done..|]. by destruct (pm_Temperature (cf_Model c)).
  - intros Hne. apply String.eqb_neq in Hne. rewrite Hne in Hconf. by apply setting_free in Hconf.
  - intros k E Hpos. rewrite E in Hcomp. apply Z.ltb_lt in Hpos. rewrite Hpos in Hcomp. by apply Z.leb_gt in Hcomp.
  - intros Hne. apply Hbackend. destruct (hc_Hermes _); [|done]. by apply negb_false_iff.
  - intros Hne. destruct (pm_Temperature _); [|done]. simpl in Htemp.
    rewrite seq_error_nil, refuse_if_nil, negb_false_iff in Htemp. destruct Htemp as [Ho Ht].
    split; [by apply Hbackend|]. by apply setting_free in Ht.
Qed.

(** A checked name is one path element. *)
Lemma name_ok name : validateExperimentName name = None -> name <> ""%string ->
  path_component (to_bytes name) /\ len name <= 80.
Proof.
  unfold validateExperimentName. rewrite seq_error_nil, !refuse_if_nil, orb_false_iff. intros (Hl & Hb & Hf) Hne.
  apply Z.ltb_ge in Hl. apply negb_false_iff in Hb. split; [|done]. destruct name as [|c rest]; [done|].
  change (to_bytes (String c rest)) with (c :: to_bytes rest) in *. apply orb_false_iff in Hf as [_ Hf].
  apply Ascii.eqb_neq in Hf. split; [done|]. split; [congruence|]. split; [congruence|].
  intros Hin. rewrite forallb_forall in Hb. specialize (Hb "/"%char). apply list_elem_of_In in Hin. by specialize (Hb Hin).
Qed.
Lemma tasks_ok tasks : task_checks tasks = None -> tasks <> [] /\ Forall written tasks.
Proof.
  unfold task_checks. rewrite seq_error_nil, refuse_if_nil, bool_decide_eq_false, first_error_nil, !Forall_forall.
  intros [Hne H]. split; [done|]. intros task Hin. apply list_elem_of_lookup in Hin as [i Hi].
  specialize (H (i, task)). rewrite refuse_if_nil in H. apply H.
  apply list_elem_of_lookup. exists i. by rewrite list_lookup_imap, Hi.
Qed.
Lemma required_ok (fields : list (string * string)) :
  first_error (fun check => refuse_if blank_text check.2 with check.1 +:+ " is required") fields = None ->
  Forall (fun field => written field.2) fields.
Proof.
  rewrite first_error_nil. intros H. eapply Forall_impl; [exact H|]. intros field. by rewrite refuse_if_nil.
Qed.
Lemma model_checks_runtime c r :
  rc_Backend r = rc_Backend (cf_Runtime c) ->
  model_checks Unmarshal_object (set_cf_Runtime r c) = model_checks Unmarshal_object c.
Proof. intros H. unfold model_checks, open_backend. simpl. by rewrite H. Qed.
End Promises.

(** C39. A validated experiment is runnable as far as the file can tell: its placement is
    one that can run, and its schedule, name, tasks, harness and model service are
    complete and consistent, every duration that is set is positive, and no MCP server
    name repeats; the model's limits, temperature and effort are ones its service and
    harness take and do not contradict the free-form block of the harness, which holds
    no credential and only the two allowed references; the model's base URL is that of
    the file, ended in /v1 for an open service; a benchmark of a known type has the
    blocks its type requires, each complete, and none it forbids (sweatlasqa does not
    forbid a toolathlon block). *)
Theorem config_validate_ok url_Parse url_String ParsePrefix ParseIP Unmarshal_object c c' :
  config_validate url_Parse url_String ParsePrefix ParseIP Unmarshal_object c = inl c' ->
  config_ok url_Parse url_String ParsePrefix ParseIP Unmarshal_object (pm_BaseURL (cf_Model c)) c'.
Proof.
  unfold config_validate. intros H. apply check_bind_inl in H as (p & Hp & H).
  apply check_bind_inl in H as (x & Hx & H). apply check_that_inl in H as [Hreq H].
  apply check_bind_inl in H as (h & Hh & H). apply check_that_inl in H as [Hchecks H].
  apply check_bind_inl in H as (r & Hr & H). apply check_that_inl in H as [Hn H].
  apply check_bind_inl in H as (m & Hm & H). apply check_that_inl in H as [He [= <-]].
  apply NormalizeDeployment_in_effect in Hp. apply execution_validate_ok in Hx.
  apply harness_validate_ok in Hh as [Hsame Hh]. apply runtime_validate_ok in Hr as [Hr Hbackend].
  rewrite <- (model_checks_runtime _ _ r Hbackend) in Hchecks.
  apply seq_error_nil in Hreq as [Hreq _]. apply required_ok in Hreq. unfold required_fields in Hreq.
  rewrite !Forall_cons in Hreq. simpl in Hreq.
  destruct Hreq as (Hname & Hversions & Htype & Hroot & Hharness & Hbridge & _ & _ & _ & Hid & _ & Hout & _).
  apply seq_error_nil in Hn as [Hn Htasks]. apply tasks_ok in Htasks as [Hne Htasks].
  rewrite seq_error_nil, refuse_if_nil, negb_false_iff in He. destruct He as [Hkey Hbench].
  apply benchmark_accepted in Hbench. simpl in Hkey, Hn.
  destruct (name_ok _ Hn) as [Hc Hl]; [intros E; unfold written in Hname; by rewrite E in Hname|].
  pose proof (model_accepted _ _ _ _ _ Hchecks Hm Hkey Hid) as Hmodel.
  destruct Hsame as (HT & _ & _ & _ & _ & Hd & _). unfold config_ok.
  split; [|split_and!; try done].
  - destruct p. unfold placement_of in *. simpl in *. by rewrite Hd.
  - simpl. rewrite HT. by repeat constructor.
Qed.

(** * A concrete experiment *)

Definition demo_url : FullURL :=
  {| ul_Scheme := "https"; ul_Opaque := ""; ul_User := false; ul_Host := "api.example.org"; ul_Path := "/v1";
     ul_RawPath := ""; ul_ForceQuery := false; ul_RawQuery := ""; ul_Fragment := "" |}.
Definition demo_harness : HarnessConfig :=
  {| hc_Deployment := no_deployment; hc_Type := "hermes"; hc_Mode := ""; hc_Realtime := zero_Realtime;
     hc_VoiceTranscribe := zero_Voice; hc_WebSearch := {| hw_Enabled := false; hw_ExtractAPIKeyEnv := "" |};
     hc_Subagents := {| hs_Enabled := None; hs_MaxConcurrent := 0 |}; hc_MCPServers := []; hc_Compaction := None;
     hc_Hermes := Some (to_bytes "{...${ARIES_RUN_ID}...}") |}.
Definition demo_config : Config :=
  {| cf_Name := "demo-1"; cf_VersionsFile := "versions.json"; cf_OverridesFile := "";
     cf_Benchmark := {| bc_Type := "terminalbench2"; bc_Root := "tasks"; bc_Tasks := ["t1"; "t1"]; bc_Environment := None;
                        bc_Judge := None; bc_Fact := None; bc_Toolathlon := None |};
     cf_Harness := demo_harness; cf_Sandbox := {| sc_Type := "docker"; sc_Deployment := no_deployment |};
     cf_Bridge := {| bg_Deployment := no_deployment; bg_Mode := ""; bg_Type := "hermes-ssh"; bg_RetainRawLog := None |};
     cf_Runtime := {| rc_Backend := "sglang"; rc_Mode := "managed";
       rc_Config := {| rv_File := "sglang.yaml"; rv_Executable := "python"; rv_StartupTimeoutText := "10m";
                       rv_StopTimeoutText := "1.5s"; rv_StartupTimeout := 0; rv_StopTimeout := 0;
                       rv_ResolvedFile := ""; rv_GPUIndices := [0; 1] |} |};
     cf_Model := {| pm_ID := "m"; pm_BaseURL := "https://api.example.org/v1"; pm_APIKeyEnv := "API_KEY";
                    pm_ReasoningEffort := ""; pm_ContextLength := 4096; pm_MaxTokens := 512; pm_Temperature := None |};
     cf_Execution := {| ec_Concurrency := 2; ec_LoopDuration := "1h"; ec_Loop := 0; ec_ArrivalsFile := "";
                        ec_ArrivalRatePerMin := f64_zero |};
     cf_OutputDir := "runs" |}.
Definition demo_members : list (string * json) := [("metadata", JObject [("max_tokens", JNumber "1")])]%string.
Definition demo_validate (c : Config) : checked Config :=
  config_validate (fun _ => Some demo_url) (fun _ => "https://api.example.org/v1"%string) (fun _ => false)
    (fun _ => false) (fun _ => Some demo_members) c.
Definition demo_validated : Config := match demo_validate demo_config with inl c => c | inr _ => demo_config end.

Lemma config_validate_ok_witness :
  config_ok (fun _ => Some demo_url) (fun _ => "https://api.example.org/v1"%string) (fun _ => false) (fun _ => false)
    (fun _ => Some demo_members) "https://api.example.org/v1" demo_validated.
Proof.
  apply (config_validate_ok (fun _ => Some demo_url) (fun _ => "https://api.example.org/v1"%string) (fun _ => false)
    (fun _ => false) (fun _ => Some demo_members) demo_config demo_validated).
  vm_compute. reflexivity.
Defined.

Example demo_timeouts :
  (rv_StartupTimeout (rc_Config (cf_Runtime demo_validated)), rv_StopTimeout (rc_Config (cf_Runtime demo_validated)),
   ec_Loop (cf_Execution demo_validated), hc_Mode (cf_Harness demo_validated)) =
  (600 * 10 ^ 9, 1500000000, 3600 * 10 ^ 9, "agent"%string).
Proof. vm_compute. reflexivity. Qed.

(** The comment of [validateBenchmarkType] says that a block the benchmark type has no
    use for is refused; sweatlasqa keeps a [benchmark.toolathlon] block. *)
Definition demo_judge : ProfileModel :=
  {| pm_ID := "m"; pm_BaseURL := "https://api.example.org/v1"; pm_APIKeyEnv := "API_KEY"; pm_ReasoningEffort := "";
     pm_ContextLength := 0; pm_MaxTokens := 0; pm_Temperature := None |}.
Definition demo_atlas : BenchmarkConfig :=
  {| bc_Type := "sweatlasqa"; bc_Root := "tasks"; bc_Tasks := ["t1"]; bc_Environment := None;
     bc_Judge := Some {| jc_Model := demo_judge; jc_Enabled := None; jc_Provider := "openai" |};
     bc_Fact := None;
     bc_Toolathlon := Some {| tc_GatewayPort := -1; tc_MaxSteps := -1; tc_AppHost := "-"; tc_CredentialsEnv := ∅;
                              tc_CredentialFilesEnv := ∅ |} |}.
Example sweatlas_keeps_toolathlon :
  validateBenchmarkType (fun _ => Some demo_url) (fun _ => false) demo_atlas = None.
Proof. vm_compute. reflexivity. Qed.
