(* ===== verification/GatewayFrame.v ===== *)
(** The frames of an OpenClaw gateway ([pkg/harness/openclaw/gateway], frame.go, and the
    reading of answers in agent.go and client.go): decoded JSON objects, whose absent or
    ill-typed fields read as zero values, and the bounded diagnostics made from them. *)

From S2P Require Import Prelude Utf8 Core Config.

(** * Frames *)

Definition Frame : Type := list (string * json).
Definition frame_String (frame : Frame) (key : string) : string :=
  match json_member key frame with Some (JString s) => s | _ => "" end.
Definition frame_Bool (frame : Frame) (key : string) : bool :=
  match json_member key frame with Some (JBool b) => b | _ => false end.
Definition frame_list (frame : Frame) (key : string) : list json :=
  match json_member key frame with Some (JArray l) => l | _ => [] end.
(** [Map]. *)
Definition to_Map (value : option json) : Frame := match value with Some (JObject members) => members | _ => [] end.
Definition frame_Map (frame : Frame) (key : string) : Frame := to_Map (json_member key frame).

(** [json.Unmarshal] into a frame: an object, or [null] for the nil map. *)
Definition frame_of_json (value : json) : option Frame :=
  match value with JObject members => Some members | JNull => Some [] | _ => None end.
Definition Unmarshal_Frame (json_Unmarshal : string -> option json) (content : bytes) : option Frame :=
  json_Unmarshal (of_bytes content) ≫= frame_of_json.

(** * Diagnostics *)

Definition ELLIPSIS : bytes := ["226"; "128"; "166"]%char.
Definition replacement_char : bytes := ["239"; "191"; "189"]%char.
(** [strings.Map], which writes an invalid byte as U+FFFD. *)
Definition printable_chunk (c : Z * bytes) : bytes :=
  if (c.1 <? 32) || (c.1 =? 127) then [" "%char] else if invalid_chunk c then replacement_char else c.2.
Definition maxDiagnosticBytes : Z := 512.
Definition boundedDiagnostic (value : option json) : string :=
  let text := match value with Some (JString s) => s | _ => ""%string end in
  let text := TrimSpace (of_bytes (concat (map printable_chunk (chunks (to_bytes text))))) in
  if maxDiagnosticBytes <? len text then of_bytes (take 512 (to_bytes text) ++ ELLIPSIS) else text.
Definition ResponseError (method : string) (response : Frame) : err :=
  let errorPayload := frame_Map response "error" in
  let code := boundedDiagnostic (json_member "code" errorPayload) in
  let message := boundedDiagnostic (json_member "message" errorPayload) in
  ENew ("gateway " +:+ TrimSpace method +:+ " rejected request (" +:+
        (if String.eqb code "" then "UNKNOWN" else code) +:+ "): " +:+
        (if String.eqb message "" then "request rejected" else message)).

(** * The answer to [connect] *)

Record ConnectSummary := { cs_Role : string; cs_Scopes : list string }.
Definition HasScope (summary : ConnectSummary) (want : string) : bool := one_of want (cs_Scopes summary).
Definition json_string_list (l : list json) : list string := omap (fun v => match v with JString s => Some s | _ => None end) l.
Definition grantedScopes (payload : Frame) : list string :=
  merge_sort string_le (json_string_list (frame_list (frame_Map payload "auth") "scopes")).
Definition pairingRequired (frame : Frame) : bool :=
  let errorFrame := frame_Map frame "error" in
  String.eqb (frame_String errorFrame "code") "NOT_PAIRED" ||
  String.eqb (frame_String (frame_Map errorFrame "details") "code") "PAIRING_REQUIRED".

(** * The answers to [agent] *)

Record AgentResult := { ar_RunID : string; ar_Text : string }.
Definition no_result : AgentResult := {| ar_RunID := ""; ar_Text := "" |}.
Definition maxAgentResultBytes : Z := 16 * 2 ^ 20.
(** The loop of [parseAgentTerminal] over the payloads. *)
Fixpoint payload_texts (payloads : list json) : list string + err :=
  match payloads with
  | [] => inl []
  | JObject payload :: rest =>
      match json_member "text" payload with
      | Some (JString text) =>
          match payload_texts rest with
          | inl texts => inl (if String.eqb text "" then texts else text :: texts)
          | inr e => inr e
          end
      | _ => inr (ENew "gateway agent terminal result payload missing text")
      end
  | _ :: _ => inr (ENew "gateway agent terminal result contains malformed payload")
  end.
Definition parseAgentTerminal (payload : Frame) : string + err :=
  let status := frame_String payload "status" in
  if negb (String.eqb status "ok")
  then inr (ENew ("gateway agent terminal status is " +:+ quote status +:+ ", want " +:+ quote "ok"))
  else match json_member "result" payload with
       | Some (JObject result) =>
           match json_member "payloads" result with
           | Some (JArray payloads) =>
               match payload_texts payloads with
               | inr e => inr e
               | inl [] => inr (ENew "gateway agent returned no payload text")
               | inl texts =>
                   let joined := String.concat nl texts in
                   if maxAgentResultBytes <? len joined then inr (ENew "gateway agent result exceeded size bound")
                   else inl joined
               end
           | _ => inr (ENew "gateway agent terminal result missing payloads")
           end
       | _ => inr (ENew "gateway agent terminal response missing result")
       end.

(** * Facts *)

Lemma len_of_bytes (l : bytes) : len (of_bytes l) = Z.of_nat (length l).
Proof. by rewrite len_to_bytes, to_of_bytes. Qed.
Lemma boundedDiagnostic_bounded (value : option json) : len (boundedDiagnostic value) <= 515.
Proof.
  unfold boundedDiagnostic, maxDiagnosticBytes. set (text := TrimSpace _). destruct (Z.ltb_spec 512 (len text)); [|lia].
  rewrite len_of_bytes, length_app, length_take. cbn [ELLIPSIS length]. rewrite len_to_bytes in H. lia.
Qed.
Lemma payload_texts_nonempty payloads texts : payload_texts payloads = inl texts -> Forall (fun text => text <> ""%string) texts.
Proof.
  revert texts. induction payloads as [|[] rest IH]; intros texts Ht; simplify_eq/=; [constructor|].
  destruct (json_member _ _) as [[]|]; simplify_eq. destruct (payload_texts rest) as [l|]; simplify_eq.
  specialize (IH l eq_refl). destruct (String.eqb_spec s ""); simplify_eq; [done|by constructor].
Qed.
(** A terminal answer has a text, and a bounded one. *)
Lemma parseAgentTerminal_text payload text :
  parseAgentTerminal payload = inl text -> frame_String payload "status" = "ok"%string /\ 0 < len text <= maxAgentResultBytes.
Proof.
  unfold parseAgentTerminal. destruct (String.eqb_spec (frame_String payload "status") "ok") as [->|]; [|done]. cbn [negb].
  destruct (json_member _ _) as [[]|]; try done. destruct (json_member _ _) as [[| | | |payloads|]|]; try done.
  destruct (payload_texts payloads) as [[|first texts]|] eqn:Ht; try done. intros H. split; [done|].
  apply payload_texts_nonempty in Ht. inversion_clear Ht as [|? ? Hne _]. clear -H Hne.
  destruct (Z.ltb_spec maxAgentResultBytes (len (String.concat nl (first :: texts)))) as [|Hl]; [done|]. injection H as <-.
  split; [|done]. destruct first as [|c first]; [done|]. cbn [String.concat].
  destruct texts as [|? texts]; len_simpl; repeat match goal with |- context [len ?s] => pose proof (len_nonneg s); generalize dependent (len s); intros end; lia.
Qed.
