(* ===== verification/Gateway.v ===== *)
(** The client of an OpenClaw gateway ([pkg/harness/openclaw/gateway], client.go and
    agent.go): one websocket connection at a time, whose reader hands responses to the
    callers that wait for them and events to a bounded queue.

    The client is shared by goroutines under one mutex. Its critical sections are the
    functions of this file on the shared state; between them a goroutine is at one of
    the points of a machine ([call_pc], [recv_pc], ...), and [GatewayRun.v] interleaves the
    machines. The channels that [connectOnce] makes for a connection (the event queue and
    [readerFailed]) and its reader's context are replaced exactly when [generation] is
    incremented, in the same critical section, so they are named by the generation; the
    counter is taken not to wrap around. *)

From S2P Require Import Prelude Utf8 Core Config GatewayFrame.

(** * The shared state *)

Inductive EventDisposition := EventDispositionDelivery | EventDispositionResponseOnly.
(** The fields of [Client] that [New] sets once. *)
Record gatewayOptions := {
  go_role : string;
  go_scopes : list string;
  go_token : string;
  go_eventDisposition : EventDisposition;
  go_eventCap : Z;        (* cap(eventCh) *)
  go_eventByteMax : Z
}.
Definition responseDelivery : Type := Frame + err.
Record eventDelivery := { ed_frame : Frame; ed_bytes : Z; ed_generation : nat }.

Record gatewayClient := {
  gc_transport : option nat;
  gc_sequence : Z;
  gc_pending : gmap string nat;
  gc_eventCount : Z;
  gc_eventBytes : Z;
  gc_readerErr : error;
  gc_readerFatal : bool;
  gc_reader : option nat;          (* the generation whose context it cancels *)
  gc_connected : option ConnectSummary;
  gc_awaitChallenge : bool;
  gc_generation : nat
}.
(** A reply channel: the request it was made for, what is buffered, and what its receiver
    has taken. *)
Record replyChannel := { rc_id : string; rc_cap : nat; rc_queue : list responseDelivery; rc_taken : list responseDelivery }.
(** The channels of a connection; [cn_enqueued] is all that was ever sent on [eventCh]. *)
Record connection := {
  cn_eventCh : list eventDelivery;
  cn_enqueued : list eventDelivery;
  cn_failed : bool;                (* readerFailed is closed *)
  cn_canceled : bool
}.
(** The client, the channels, and whether a goroutine has closed a closed channel, which
    panics. *)
Record Shared := {
  sh_client : gatewayClient;
  sh_replies : gmap nat replyChannel;
  sh_connections : gmap nat connection;
  sh_panicked : bool
}.

Definition set_client (c : gatewayClient) (s : Shared) : Shared :=
  {| sh_client := c; sh_replies := sh_replies s; sh_connections := sh_connections s; sh_panicked := sh_panicked s |}.
Definition set_replies (r : gmap nat replyChannel) (s : Shared) : Shared :=
  {| sh_client := sh_client s; sh_replies := r; sh_connections := sh_connections s; sh_panicked := sh_panicked s |}.
Definition set_connections (c : gmap nat connection) (s : Shared) : Shared :=
  {| sh_client := sh_client s; sh_replies := sh_replies s; sh_connections := c; sh_panicked := sh_panicked s |}.
Definition set_panicked (s : Shared) : Shared :=
  {| sh_client := sh_client s; sh_replies := sh_replies s; sh_connections := sh_connections s; sh_panicked := true |}.
Definition set_pending (p : gmap string nat) (c : gatewayClient) : gatewayClient :=
  {| gc_transport := gc_transport c; gc_sequence := gc_sequence c; gc_pending := p; gc_eventCount := gc_eventCount c;
     gc_eventBytes := gc_eventBytes c; gc_readerErr := gc_readerErr c; gc_readerFatal := gc_readerFatal c;
     gc_reader := gc_reader c; gc_connected := gc_connected c; gc_awaitChallenge := gc_awaitChallenge c;
     gc_generation := gc_generation c |}.
Definition set_sequence (n : Z) (c : gatewayClient) : gatewayClient :=
  {| gc_transport := gc_transport c; gc_sequence := n; gc_pending := gc_pending c; gc_eventCount := gc_eventCount c;
     gc_eventBytes := gc_eventBytes c; gc_readerErr := gc_readerErr c; gc_readerFatal := gc_readerFatal c;
     gc_reader := gc_reader c; gc_connected := gc_connected c; gc_awaitChallenge := gc_awaitChallenge c;
     gc_generation := gc_generation c |}.
Definition set_accounts (count bytes_ : Z) (await : bool) (c : gatewayClient) : gatewayClient :=
  {| gc_transport := gc_transport c; gc_sequence := gc_sequence c; gc_pending := gc_pending c; gc_eventCount := count;
     gc_eventBytes := bytes_; gc_readerErr := gc_readerErr c; gc_readerFatal := gc_readerFatal c;
     gc_reader := gc_reader c; gc_connected := gc_connected c; gc_awaitChallenge := await;
     gc_generation := gc_generation c |}.
Definition set_connected (summary : ConnectSummary) (c : gatewayClient) : gatewayClient :=
  {| gc_transport := gc_transport c; gc_sequence := gc_sequence c; gc_pending := gc_pending c; gc_eventCount := gc_eventCount c;
     gc_eventBytes := gc_eventBytes c; gc_readerErr := gc_readerErr c; gc_readerFatal := gc_readerFatal c;
     gc_reader := gc_reader c; gc_connected := Some summary; gc_awaitChallenge := gc_awaitChallenge c;
     gc_generation := gc_generation c |}.
Definition new_connection : connection := {| cn_eventCh := []; cn_enqueued := []; cn_failed := false; cn_canceled := false |}.

(** [New]; the dialer is the package's own and not nil. *)
Definition DefaultRole : string := "operator".
Definition defaultEventQueueSize : Z := 2048.
Definition defaultEventQueueBytes : Z := 16 * 2 ^ 20.
Definition gateway_options (role : string) (scopes : list string) (token : string) (size queueBytes : Z)
    (disposition : EventDisposition) : gatewayOptions :=
  {| go_role := if String.eqb role "" then DefaultRole else role;
     go_scopes := match scopes with [] => ["operator.write"%string] | _ => scopes end;
     go_token := token; go_eventDisposition := disposition;
     go_eventCap := if size <=? 0 then defaultEventQueueSize else size;
     go_eventByteMax := if queueBytes <=? 0 then defaultEventQueueBytes else queueBytes |}.
Definition new_client : gatewayClient :=
  {| gc_transport := None; gc_sequence := 0; gc_pending := ∅; gc_eventCount := 0; gc_eventBytes := 0; gc_readerErr := None;
     gc_readerFatal := false; gc_reader := None; gc_connected := None; gc_awaitChallenge := false; gc_generation := 0 |}.
Definition new_shared : Shared :=
  {| sh_client := new_client; sh_replies := ∅; sh_connections := {[0%nat := new_connection]}; sh_panicked := false |}.

(** * Channels *)

(** A send that does not block: nothing happens when the buffer is full. *)
Definition buffered (r : nat) (d : responseDelivery) (s : Shared) : option Shared :=
  match sh_replies s !! r with
  | Some q =>
      if decide (length (rc_queue q) < rc_cap q)%nat
      then Some (set_replies (<[r := {| rc_id := rc_id q; rc_cap := rc_cap q; rc_queue := rc_queue q ++ [d]; rc_taken := rc_taken q |}]> (sh_replies s)) s)
      else None
  | None => None
  end.
(** A receive. *)
Definition take_reply (r : nat) (s : Shared) : option (responseDelivery * Shared) :=
  match sh_replies s !! r with
  | Some {| rc_id := id; rc_cap := cap; rc_queue := d :: q; rc_taken := taken |} =>
      Some (d, set_replies (<[r := {| rc_id := id; rc_cap := cap; rc_queue := q; rc_taken := taken ++ [d] |}]> (sh_replies s)) s)
  | _ => None
  end.
Definition update_connection (g : nat) (f : connection -> connection) (s : Shared) : Shared :=
  set_connections (alter f g (sh_connections s)) s.
Definition take_event (g : nat) (s : Shared) : option (eventDelivery * Shared) :=
  match sh_connections s !! g with
  | Some {| cn_eventCh := d :: q |} =>
      Some (d, update_connection g (fun cn => {| cn_eventCh := q; cn_enqueued := cn_enqueued cn; cn_failed := cn_failed cn;
                                                 cn_canceled := cn_canceled cn |}) s)
  | _ => None
  end.
Definition failed_closed (g : nat) (s : Shared) : bool :=
  match sh_connections s !! g with Some cn => cn_failed cn | None => false end.
(** [close(client.readerFailed)]. *)
Definition close_failed (g : nat) (s : Shared) : Shared :=
  if failed_closed g s then set_panicked s
  else update_connection g (fun cn => {| cn_eventCh := cn_eventCh cn; cn_enqueued := cn_enqueued cn; cn_failed := true;
                                         cn_canceled := cn_canceled cn |}) s.
Definition cancel_reader (g : nat) (s : Shared) : Shared :=
  update_connection g (fun cn => {| cn_eventCh := cn_eventCh cn; cn_enqueued := cn_enqueued cn; cn_failed := cn_failed cn;
                                    cn_canceled := true |}) s.
Definition send_event (g : nat) (d : eventDelivery) (s : Shared) : Shared :=
  update_connection g (fun cn => {| cn_eventCh := cn_eventCh cn ++ [d]; cn_enqueued := cn_enqueued cn ++ [d];
                                    cn_failed := cn_failed cn; cn_canceled := cn_canceled cn |}) s.
Definition queued (g : nat) (s : Shared) : list eventDelivery :=
  match sh_connections s !! g with Some cn => cn_eventCh cn | None => [] end.

(** * Critical sections *)

(** [nextID], given [time.Now().UnixMilli()]. *)
Definition dashed (method : string) : string :=
  of_bytes (map (fun c => if Ascii.eqb c "."%char || Ascii.eqb c " "%char then "-"%char else c) (to_bytes method)).
Definition nextID (method : string) (now : Z) (s : Shared) : string * Shared :=
  let n := gc_sequence (sh_client s) + 1 in
  (dashed method +:+ "-" +:+ itoa n +:+ "-" +:+ itoa now, set_client (set_sequence n (sh_client s)) s).
Definition removePending (id : string) (s : Shared) : Shared :=
  set_client (set_pending (delete id (gc_pending (sh_client s))) (sh_client s)) s.

(** [terminateConnectionLocked]; [finishConnectionTermination] cancels the reader, tells
    the callers one after another, and closes the transport. *)
Record connectionTermination := {
  tm_cancel : option nat;
  tm_transport : option nat;
  tm_pending : gmap string nat;
  tm_deliveryErr : err
}.
Definition terminateConnectionLocked (expected : option nat) (readerErr : err) (fatal : bool) (s : Shared) :
    option connectionTermination * Shared :=
  let c := sh_client s in
  if match expected with Some t => negb (bool_decide (gc_transport c = Some t)) | None => false end then (None, s)
  else
    let '(e, isFatal, s) :=
      match gc_readerErr c with
      | None => (readerErr, fatal, close_failed (gc_generation c) s)
      | Some e => (e, gc_readerFatal c, s)
      end in
    (Some {| tm_cancel := gc_reader c; tm_transport := gc_transport c; tm_pending := gc_pending c; tm_deliveryErr := e |},
     set_client {| gc_transport := None; gc_sequence := gc_sequence c; gc_pending := ∅; gc_eventCount := gc_eventCount c;
                   gc_eventBytes := gc_eventBytes c; gc_readerErr := Some e; gc_readerFatal := isFatal; gc_reader := None;
                   gc_connected := None; gc_awaitChallenge := gc_awaitChallenge c; gc_generation := gc_generation c |} s).
Definition notify (r : nat) (e : err) (s : Shared) : Shared := default s (buffered r (inr e) s).
Definition finish_cancel (t : connectionTermination) (s : Shared) : Shared :=
  match tm_cancel t with Some g => cancel_reader g s | None => s end.

(** [connectionFatal] and [FatalError]. *)
Definition connectionFatal (generation : nat) (s : Shared) : error :=
  let c := sh_client s in
  if negb (bool_decide (gc_generation c = generation))
  then match gc_readerErr c with Some e => Some e | None => Some (ENew "gateway connection changed") end
  else if gc_readerFatal c then gc_readerErr c else None.
Definition FatalError (s : Shared) : error := if gc_readerFatal (sh_client s) then gc_readerErr (sh_client s) else None.

(** The critical section of [connectOnce] that installs a transport. *)
Definition open_connection (transport : nat) (s : Shared) : nat * Shared :=
  let c := sh_client s in
  let g := S (gc_generation c) in
  (g, set_connections (<[g := new_connection]> (sh_connections s))
        (set_client {| gc_transport := Some transport; gc_sequence := gc_sequence c; gc_pending := gc_pending c; gc_eventCount := 0;
                       gc_eventBytes := 0; gc_readerErr := None; gc_readerFatal := false; gc_reader := Some g;
                       gc_connected := gc_connected c; gc_awaitChallenge := true; gc_generation := g |} s)).

(** Registration of a caller: in [Call] on the transport it finds, in [Agent] on the one
    it has seen ([seen]). *)
Definition insert_pending (id : string) (capacity : nat) (s : Shared) : nat * Shared :=
  let r := fresh (dom (sh_replies s)) in
  (r, set_client (set_pending (<[id := r]> (gc_pending (sh_client s))) (sh_client s))
        (set_replies (<[r := {| rc_id := id; rc_cap := capacity; rc_queue := []; rc_taken := [] |}]> (sh_replies s)) s)).
(** A nil error of a fatal reader does not occur: [gateway_accounts]. *)
Definition reader_error (s : Shared) : err := default (ENew "") (gc_readerErr (sh_client s)).
Definition register_call (id : string) (s : Shared) : (nat * nat * nat + err) * Shared :=
  let c := sh_client s in
  if gc_readerFatal c then (inr (reader_error s), s)
  else match gc_transport c with
       | None => (inr (ENew "gateway transport is not connected"), s)
       | Some transport => let (r, s) := insert_pending id 1 s in (inl (transport, gc_generation c, r), s)
       end.
Definition agentResponseQueueSize : nat := 4.
Definition register_agent (id : string) (transport generation : nat) (s : Shared) : (nat + err) * Shared :=
  let c := sh_client s in
  if negb (bool_decide (gc_transport c = Some transport)) || negb (bool_decide (gc_generation c = generation)) || gc_readerFatal c
  then (inr (default (ENew "gateway agent transport changed before submission") (gc_readerErr c)), s)
  else let (r, s) := insert_pending id agentResponseQueueSize s in (inl r, s).

(** * The reader *)

Definition maxMessageBytes : Z := 64 * 2 ^ 20.
Inductive reader_next :=
  | ReaderContinues
  | ReaderStops
  | ReaderFails (t : connectionTermination).
Definition fails (r : option connectionTermination * Shared) : reader_next * Shared :=
  (match r.1 with Some t => ReaderFails t | None => ReaderStops end, r.2).
Definition current_reader (transport generation : nat) (s : Shared) : bool :=
  bool_decide (gc_transport (sh_client s) = Some transport) && bool_decide (gc_generation (sh_client s) = generation).

(** A response goes to the caller that waits for it, and is dropped when there is none. *)
Definition read_response (frame : Frame) (transport generation : nat) (s : Shared) : reader_next * Shared :=
  if negb (current_reader transport generation s) then (ReaderStops, s)
  else
    let id := frame_String frame "id" in
    match (if String.eqb id "" then None else gc_pending (sh_client s) !! id) with
    | None => (ReaderContinues, s)
    | Some r =>
        match buffered r (inl frame) s with
        | Some s => (ReaderContinues, s)
        | None => fails (terminateConnectionLocked (Some transport) (ENew "gateway response queue overflow") true s)
        end
    end.
(** Anything else is an event. *)
Definition read_event (o : gatewayOptions) (frame : Frame) (size : Z) (transport generation : nat) (s : Shared) :
    reader_next * Shared :=
  let c := sh_client s in
  if negb (current_reader transport generation s) then (ReaderStops, s)
  else
    let challenge := String.eqb (frame_String frame "event") "connect.challenge" in
    let await := gc_awaitChallenge c && negb challenge in
    let discard := if challenge then negb (gc_awaitChallenge c)
                   else match go_eventDisposition o with
                        | EventDispositionResponseOnly => negb (gc_awaitChallenge c)
                        | EventDispositionDelivery => false
                        end in
    if discard then (ReaderContinues, s)
    else
      let s := set_client (set_accounts (gc_eventCount c) (gc_eventBytes c) await c) s in
      let overflow := fails (terminateConnectionLocked (Some transport) (ENew "gateway event queue overflow") true s) in
      if (go_eventCap o <=? gc_eventCount c) || (go_eventByteMax o <? gc_eventBytes c + size) then overflow
      else if go_eventCap o <=? Z.of_nat (length (queued (gc_generation c) s)) then overflow    (* the send would block *)
      else
        (ReaderContinues,
         set_client (set_accounts (gc_eventCount c + 1) (gc_eventBytes c + size) await c)
           (send_event (gc_generation c) {| ed_frame := frame; ed_bytes := size; ed_generation := generation |} s)).
(** One turn of [readConnection], on what [Receive] has given. *)
Definition read_failed (transport : nat) (e : err) (s : Shared) : reader_next * Shared :=
  fails (terminateConnectionLocked (Some transport) (EWrap "gateway reader stopped" e) (errors_Is e ErrWebSocketProtocol) s).
Definition read_message (json_Unmarshal : string -> option json) (o : gatewayOptions) (content : bytes)
    (transport generation : nat) (s : Shared) : reader_next * Shared :=
  let size := Z.of_nat (length content) in
  if maxMessageBytes <? size
  then fails (terminateConnectionLocked (Some transport) (ENew "gateway message exceeded size bound") true s)
  else match Unmarshal_Frame json_Unmarshal content with
       | None => fails (terminateConnectionLocked (Some transport) (ENew "gateway returned malformed JSON") true s)
       | Some frame =>
           if String.eqb (frame_String frame "type") "res" then read_response frame transport generation s
           else read_event o frame size transport generation s
       end.
