(* ===== verification/GatewaySocket.v ===== *)
(** The websocket of an OpenClaw gateway ([pkg/harness/openclaw/gateway], websocket.go):
    dialing, and messages one at a time, over the connections of the websocket library,
    which are an interface. No error of it carries what the peer has sent. *)

From S2P Require Import Prelude Utf8 Trace Core ConfigDeployment Config Gateway.

(** The library's connections; [context.AfterFunc] registers the closing of a connection
    for when a context is done, until it is stopped. *)
Class Sockets (W : Type) := {
  ws_Dial : Ctx -> string -> M W (nat + err);
  ws_SetReadLimit : nat -> Z -> M W unit;
  ws_Write : nat -> bytes -> M W error;
  ws_NextReader : nat -> M W (bool * nat + err);    (* is it a text message, and its reader *)
  ws_ReadAll : nat -> M W (bytes * error);
  ws_Close : nat -> M W error;
  ws_CloseAfter : Ctx -> nat -> M W nat;
  ws_StopAfter : nat -> M W unit
}.

Section Socket.
Variable url_Parse : string -> option FullURL.
(** [errors.As] a close error or a network error, or [errors.Is] [net.ErrClosed]. *)
Variable disconnected : err -> bool.
Context {W : Type} `{!Runtime W} `{!Sockets W}.

(** [NewWebSocketDialer]: the URL to dial. *)
Definition NewWebSocketDialer (rawURL : string) : string + err :=
  let rawURL := TrimSpace rawURL in
  if String.eqb rawURL "" then inr (ENew "gateway websocket URL is required")
  else match url_Parse rawURL with
       | None => inr (ENew "invalid gateway websocket URL")
       | Some u =>
           if negb (String.eqb (ul_Scheme u) "ws") && negb (String.eqb (ul_Scheme u) "wss")
           then inr (ENew "gateway websocket URL must use ws or wss")
           else if String.eqb (ul_Host u) "" then inr (ENew "gateway websocket URL missing host")
           else inl rawURL
       end.
(** The dialer: a connection that is made as the context ends is closed again. *)
Definition dial (rawURL : string) (ctx : Ctx) : M W (nat + err) :=
  let* result := ws_Dial ctx rawURL in
  let* done := ctx_Err ctx in
  match done, result with
  | Some s, inl connection => let* _ := ws_Close connection in ret (inr (ESentinel s))
  | Some s, inr _ => ret (inr (ESentinel s))
  | None, inr _ => ret (inr (ENew "gateway websocket handshake failed"))
  | None, inl connection => let* _ := ws_SetReadLimit connection maxMessageBytes in ret (inl connection)
  end.

(** [webSocketTransport]: the connection, and what its one [Close] has given. *)
Record webSocketTransport := { wt_connection : option nat; wt_closed : option error }.
Definition socket_Close (t : webSocketTransport) : M W (error * webSocketTransport) :=
  match wt_connection t, wt_closed t with
  | None, _ => ret (None, t)
  | Some _, Some e => ret (e, t)
  | Some connection, None =>
      let* e := ws_Close connection in ret (e, {| wt_connection := wt_connection t; wt_closed := Some e |})
  end.
Definition write_message (ctx : Ctx) (connection : nat) (content : bytes) : M W error :=
  let* done := ctx_Err ctx in
  match done with
  | Some s => ret (Some (ESentinel s))
  | None =>
      let* e := ws_Write connection content in
      match e with
      | None => ret None
      | Some _ =>
          let* done := ctx_Err ctx in
          ret (Some match done with Some s => ESentinel s | None => ENew "write gateway websocket message failed" end)
      end
  end.
Definition Send (ctx : Ctx) (t : webSocketTransport) (content : bytes) : M W error :=
  match wt_connection t with
  | None => ret (Some (ENew "gateway websocket is not connected"))
  | Some connection =>
      if maxMessageBytes <? Z.of_nat (length content) then ret (Some (ENew "gateway websocket message too large"))
      else
        let* done := ctx_Err ctx in
        match done with
        | Some s => ret (Some (ESentinel s))
        | None =>
            let* stop := ws_CloseAfter ctx connection in
            let* e := write_message ctx connection content in
            let* _ := ws_StopAfter stop in
            ret e
        end
  end.
Definition read_next (connection : nat) : M W (bool * bytes + err) :=
  let* next := ws_NextReader connection in
  match next with
  | inr e => ret (inr e)
  | inl (text, reader) =>
      let* (content, e) := ws_ReadAll reader in
      ret match e with Some _ => inr (ESentinel ErrWebSocketProtocol) | None => inl (text, content) end
  end.
Definition received (result : bool * bytes + err) : bytes + err :=
  match result with
  | inr e => inr (if disconnected e || errors_Is e ErrEOF then ESentinel ErrEOF else ESentinel ErrWebSocketProtocol)
  | inl (text, content) => if text && negb (Valid content) then inr (ESentinel ErrWebSocketProtocol) else inl content
  end.
Definition Receive (ctx : Ctx) (t : webSocketTransport) : M W (bytes + err) :=
  match wt_connection t with
  | None => ret (inr (ENew "gateway websocket is not connected"))
  | Some connection =>
      let* done := ctx_Err ctx in
      match done with
      | Some s => ret (inr (ESentinel s))
      | None =>
          let* stop := ws_CloseAfter ctx connection in
          let* result := read_next connection in
          let* done := ctx_Err ctx in
          let* _ := ws_StopAfter stop in
          ret match done with Some s => inr (ESentinel s) | None => received result end
      end
  end.
End Socket.

(** * What its errors tell *)

(** A text of this file, or the name of a condition. *)
Definition opaque (e : err) : Prop :=
  (exists s, e = ESentinel s) \/
  e ∈ map ENew ["gateway websocket is not connected"; "gateway websocket message too large"; "write gateway websocket message failed";
                "gateway websocket handshake failed"]%string.
Definition opaque_result {A} (r : A + err) : Prop := match r with inr e => opaque e | inl _ => True end.
Definition opaque_error (e : error) : Prop := match e with Some e => opaque e | None => True end.

Section Opaque.
Variable disconnected : err -> bool.
Context {W : Type} `{!Runtime W} `{!Sockets W}.
Ltac opaque := first [by left; eexists | right; set_solver].

(** Whatever the peer sends and however the connection fails, the errors of a socket say
    nothing of it; and a text message that is received is valid UTF-8. *)
Lemma socket_tells_nothing (ctx : Ctx) (t : webSocketTransport) (content : bytes) (url : string) :
  gives (Send (W := W) ctx t content) opaque_error /\
  gives (Receive (W := W) disconnected ctx t) opaque_result /\
  gives (dial (W := W) url ctx) opaque_result.
Proof.
  split_and!.
  - unfold Send. destruct (wt_connection t); [|apply gives_ret; opaque]. destruct (_ <? _); [apply gives_ret; opaque|].
    apply gives_bind. intros [s|]; [apply gives_ret; opaque|]. apply gives_bind. intros stop.
    eapply gives_bind_such; [|intros e He; apply gives_bind; intros _; apply gives_ret, He].
    unfold write_message. apply gives_bind. intros [s|]; [apply gives_ret; opaque|]. apply gives_bind.
    intros [e|]; [|done]. apply gives_bind. intros [s|]; apply gives_ret; opaque.
  - unfold Receive. destruct (wt_connection t); [|apply gives_ret; opaque].
    apply gives_bind. intros [s|]; [apply gives_ret; opaque|]. apply gives_bind. intros stop. apply gives_bind. intros result.
    apply gives_bind. intros done_. apply gives_bind. intros _. apply gives_ret. destruct done_; [opaque|].
    unfold received. destruct result as [[text data]|e]; [by destruct (_ && _); [opaque|]|]. destruct (_ || _); opaque.
  - unfold dial. apply gives_bind. intros [connection|e]; apply gives_bind; intros [s|].
    + apply gives_bind. intros _. apply gives_ret. opaque.
    + apply gives_bind. intros _. by apply gives_ret.
    + apply gives_ret. opaque.
    + apply gives_ret. opaque.
Qed.
End Opaque.
