(* ===== verification/GatewayRun.v ===== *)
(** The goroutines of an OpenClaw gateway client ([pkg/harness/openclaw/gateway],
    client.go and agent.go): the machines of [RecvEvent], [Call], [Agent], [Connect],
    [Close] and of a connection's reader, and their interleaving. A machine is at a point
    between two atomic actions: a critical section, an operation on a channel, or a call
    of the transport, whose outcome may be any. A context may be done at any time. *)

From S2P Require Import Prelude Utf8 Core Config GatewayFrame Gateway.

(** * RecvEvent *)

Inductive recv_pc :=
  | RecvTop
  | RecvPoll (readerErr : error) (generation : nat)
  | RecvFinish (d : eventDelivery) (generation : nat)
  | RecvWait (generation : nat).
Definition recv_top (s : Shared) : recv_pc + err :=
  if gc_readerFatal (sh_client s) then inr (reader_error s)
  else inl (RecvPoll (gc_readerErr (sh_client s)) (gc_generation (sh_client s))).
(** The non-blocking select. *)
Definition recv_poll (readerErr : error) (generation : nat) (s : Shared) : (recv_pc + err) * Shared :=
  match take_event generation s with
  | Some (d, s) => (inl (RecvFinish d generation), s)
  | None => (match readerErr with Some e => inr e | None => inl (RecvWait generation) end, s)
  end.
(** [releaseEventLocked] and [finishEventDelivery]: no result of a connection that is
    gone. *)
Definition releaseEventLocked (d : eventDelivery) (s : Shared) : Shared :=
  let c := sh_client s in
  if negb (bool_decide (ed_generation d = gc_generation c)) then s
  else set_client (set_accounts (gc_eventCount c - 1) (gc_eventBytes c - ed_bytes d) (gc_awaitChallenge c) c) s.
Definition finishEventDelivery (d : eventDelivery) (generation : nat) (s : Shared) : option (Frame + err) * Shared :=
  let s := releaseEventLocked d s in
  let c := sh_client s in
  if negb (bool_decide (gc_generation c = generation)) || negb (bool_decide (ed_generation d = generation)) then (None, s)
  else if gc_readerFatal c then (Some (inr (reader_error s)), s)
  else (Some (inl (ed_frame d)), s).
Inductive recv_step (s : Shared) : recv_pc -> Shared -> recv_pc + (Frame + err) -> Prop :=
  | recv_fatal e : recv_top s = inr e -> recv_step s RecvTop s (inr (inr e))
  | recv_snapshot pc : recv_top s = inl pc -> recv_step s RecvTop s (inl pc)
  | recv_polled e g s' pc : recv_poll e g s = (inl pc, s') -> recv_step s (RecvPoll e g) s' (inl pc)
  | recv_eof e g s' e' : recv_poll e g s = (inr e', s') -> recv_step s (RecvPoll e g) s' (inr (inr e'))
  | recv_event g d s' : take_event g s = Some (d, s') -> recv_step s (RecvWait g) s' (inl (RecvFinish d g))
  | recv_again g : failed_closed g s = true -> recv_step s (RecvWait g) s (inl RecvTop)
  | recv_done g (x : sentinel) : recv_step s (RecvWait g) s (inr (inr (ESentinel x)))
  | recv_stale d g s' : finishEventDelivery d g s = (None, s') -> recv_step s (RecvFinish d g) s' (inl RecvTop)
  | recv_result d g s' r : finishEventDelivery d g s = (Some r, s') -> recv_step s (RecvFinish d g) s' (inr r).

(** * Call *)

Section Machines.
Variable o : gatewayOptions.
Variable json_Unmarshal : string -> option json.
Variable json_Marshal : json -> bytes + err.

Inductive call_pc :=
  | CallID (method : string) (params : json)
  | CallRegister (id method : string) (params : json)
  | CallSend (id : string) (transport generation reply : nat) (content : bytes)
  | CallUnsent (id : string) (generation : nat) (e : err)
  | CallFatal (generation : nat) (r : responseDelivery)
  | CallWait (id : string) (generation reply : nat)
  | CallReplied (id : string) (generation : nat) (d : responseDelivery)
  | CallRemove (id : string) (r : responseDelivery).
Definition request_frame (id method : string) (params : json) : json :=
  JObject [("id", JString id); ("method", JString method); ("params", params); ("type", JString "req")]%string.
(** A method that is blank is refused. *)
Definition call_start (method : string) (params : json) : call_pc + responseDelivery :=
  if String.eqb (TrimSpace method) "" then inr (inr (ENew "gateway method is required")) else inl (CallID method params).
Definition call_register (id method : string) (params : json) (s : Shared) : (call_pc + responseDelivery) * Shared :=
  match register_call id s with
  | (inr e, s) => (inr (inr e), s)
  | (inl (transport, generation, reply), s) =>
      (match json_Marshal (request_frame id method params) with
       | inr e => inl (CallRemove id (inr (EWrap "marshal gateway request" e)))
       | inl content => inl (CallSend id transport generation reply content)
       end, s)
  end.
Definition call_sent (id : string) (generation reply : nat) (e : error) : call_pc :=
  match e with Some e => CallUnsent id generation e | None => CallWait id generation reply end.
Definition call_result (generation : nat) (d : responseDelivery) (s : Shared) : responseDelivery :=
  match connectionFatal generation s with Some e => inr e | None => d end.
Inductive call_step (s : Shared) : call_pc -> Shared -> call_pc + responseDelivery -> Prop :=
  | call_id method params now id s' :
      0 <= now -> nextID method now s = (id, s') -> call_step s (CallID method params) s' (inl (CallRegister id method params))
  | call_registered id method params s' r :
      call_register id method params s = (r, s') -> call_step s (CallRegister id method params) s' r
  | call_send id transport g r content e :
      call_step s (CallSend id transport g r content) s (inl (call_sent id g r e))
  | call_unsent id g e :
      call_step s (CallUnsent id g e) (removePending id s) (inl (CallFatal g (inr (EWrap "send gateway request" e))))
  | call_reply id g r d s' :
      take_reply r s = Some (d, s') -> call_step s (CallWait id g r) s' (inl (CallReplied id g d))
  | call_replied id g d : call_step s (CallReplied id g d) (removePending id s) (inl (CallFatal g d))
  | call_fatal g d :
      call_step s (CallFatal g d) s (inr (call_result g d s))
  | call_done id g r (x : sentinel) :
      call_step s (CallWait id g r) s (inl (CallRemove id (inr (ESentinel x))))
  | call_removed id d : call_step s (CallRemove id d) (removePending id s) (inr d).

(** * Agent *)

Record AgentRequest := { aq_Message : string; aq_SessionKey : string; aq_IdempotencyKey : string; aq_Thinking : string }.
Definition agent_result : Type := AgentResult + err.
Inductive agent_pc :=
  | AgentTop (request : AgentRequest)
  | AgentID (request : AgentRequest) (transport generation : nat)
  | AgentRegister (id : string) (request : AgentRequest) (transport generation : nat)
  | AgentSend (id : string) (transport generation reply : nat) (content : bytes)
  | AgentUnsent (id : string) (generation reply : nat) (e : err)
  | AgentWait (id : string) (generation reply : nat) (acceptedRunID : string)
  | AgentReplied (id : string) (generation reply : nat) (acceptedRunID : string) (d : responseDelivery)
  | AgentRemove (id : string) (reply : nat) (r : agent_result)
  | AgentDone (reply : nat) (id : string) (r : agent_result).
Definition agent_start (request : AgentRequest) : agent_pc + err :=
  if String.eqb (TrimSpace (aq_Message request)) "" || ContainsByte (aq_Message request) NUL
  then inr (ENew "gateway agent message is invalid")
  else if String.eqb (TrimSpace (aq_SessionKey request)) "" then inr (ENew "gateway agent session key is required")
  else if String.eqb (TrimSpace (aq_IdempotencyKey request)) "" then inr (ENew "gateway agent idempotency key is required")
  else inl (AgentTop request).
Definition agent_top (request : AgentRequest) (s : Shared) : agent_pc + err :=
  let c := sh_client s in
  if gc_readerFatal c then inr (reader_error s)
  else match gc_connected c, gc_transport c with
       | Some summary, Some transport =>
           if HasScope summary "operator.write" then inl (AgentID request transport (gc_generation c))
           else inr (ENew "gateway agent requires operator.write scope")
       | _, _ => inr (ENew "gateway agent client is not connected")
       end.
Definition agent_params (request : AgentRequest) : json :=
  JObject ([("idempotencyKey", JString (aq_IdempotencyKey request)); ("message", JString (aq_Message request));
            ("sessionKey", JString (aq_SessionKey request))] ++
           (if String.eqb (aq_Thinking request) "" then [] else [("thinking", JString (aq_Thinking request))]))%list%string.
Definition agent_register (id : string) (request : AgentRequest) (transport generation : nat) (s : Shared) :
    (agent_pc + err) * Shared :=
  match register_agent id transport generation s with
  | (inr e, s) => (inr e, s)
  | (inl reply, s) =>
      (match json_Marshal (request_frame id "agent" (agent_params request)) with
       | inr e => inl (AgentRemove id reply (inr (EWrap "marshal gateway agent request" e)))
       | inl content => inl (AgentSend id transport generation reply content)
       end, s)
  end.
Definition agent_sent (id : string) (generation reply : nat) (e : error) : agent_pc :=
  match e with Some e => AgentUnsent id generation reply e | None => AgentWait id generation reply "" end.
Definition agent_unsent (generation : nat) (e : err) (s : Shared) : agent_result :=
  inr match connectionFatal generation s with
      | Some fatal => EWrap "gateway agent delivery is ambiguous after fatal send failure" fatal
      | None => EWrap "gateway agent delivery is ambiguous after send failure" e
      end.
Definition outcome_unknown (acceptedRunID : string) (e : err) : err :=
  if String.eqb acceptedRunID "" then EWrap "gateway agent delivery is ambiguous before acknowledgement" e
  else EWrap ("gateway agent " +:+ acceptedRunID +:+ " was accepted but its outcome is unknown") e.
(** What a delivery makes of the wait: an acknowledged run, or the end. *)
Definition agent_response (id acceptedRunID : string) (response : Frame) : string + agent_result :=
  if negb (String.eqb (frame_String response "id") id) || negb (String.eqb (frame_String response "type") "res")
  then inr (inr (ENew "gateway agent received an uncorrelated response"))
  else if negb (frame_Bool response "ok") then inr (inr (ResponseError "agent" response))
  else
    let payload := frame_Map response "payload" in
    let runID := frame_String payload "runId" in
    if String.eqb acceptedRunID ""
    then if negb (String.eqb (frame_String payload "status") "accepted") || String.eqb (TrimSpace runID) ""
         then inr (inr (ENew "gateway agent expected accepted response with non-empty runId"))
         else inl runID
    else if String.eqb (TrimSpace runID) "" || negb (String.eqb runID acceptedRunID)
    then inr (inr (ENew "gateway agent terminal runId did not match accepted runId"))
    else inr match parseAgentTerminal payload with
             | inr e => inr e
             | inl text => inl {| ar_RunID := runID; ar_Text := text |}
             end.
Definition agent_reply (id acceptedRunID : string) (fatal : error) (d : responseDelivery) : string + agent_result :=
  match fatal, d with
  | Some e, _ | None, inr e => inr (inr (outcome_unknown acceptedRunID e))
  | None, inl response => agent_response id acceptedRunID response
  end.
Definition agent_replied (id : string) (generation reply : nat) (acceptedRunID : string) (d : responseDelivery) (s : Shared) : agent_pc :=
  match agent_reply id acceptedRunID (connectionFatal generation s) d with
  | inl accepted => AgentWait id generation reply accepted
  | inr r => AgentRemove id reply r
  end.
Inductive agent_step (s : Shared) : agent_pc -> Shared -> agent_pc + err -> Prop :=
  | agent_seen request pc : agent_top request s = pc -> agent_step s (AgentTop request) s pc
  | agent_id request transport g now id s' :
      0 <= now -> nextID "agent" now s = (id, s') ->
      agent_step s (AgentID request transport g) s' (inl (AgentRegister id request transport g))
  | agent_registered id request transport g s' pc :
      agent_register id request transport g s = (pc, s') -> agent_step s (AgentRegister id request transport g) s' pc
  | agent_send id transport g r content e :
      agent_step s (AgentSend id transport g r content) s (inl (agent_sent id g r e))
  | agent_unsent_step id g r e : agent_step s (AgentUnsent id g r e) s (inl (AgentRemove id r (agent_unsent g e s)))
  | agent_take id g r accepted d s' :
      take_reply r s = Some (d, s') -> agent_step s (AgentWait id g r accepted) s' (inl (AgentReplied id g r accepted d))
  | agent_canceled id g r accepted (x : sentinel) :
      agent_step s (AgentWait id g r accepted) s (inl (AgentRemove id r (inr (outcome_unknown accepted (ESentinel x)))))
  | agent_replied_step id g r accepted d :
      agent_step s (AgentReplied id g r accepted d) s (inl (agent_replied id g r accepted d s))
  | agent_removed id r result :
      agent_step s (AgentRemove id r result) (removePending id s) (inl (AgentDone r id result)).

(** * Close and Connect *)

(** [finishConnectionTermination]; the callers are told in any order. *)
Inductive finish_pc :=
  | FinishCancel (t : connectionTermination)
  | FinishNotify (t : connectionTermination) (pending : gmap string nat)
  | FinishClose (t : connectionTermination).
Inductive finish_step (s : Shared) : finish_pc -> Shared -> finish_pc + error -> Prop :=
  | finish_canceled t : finish_step s (FinishCancel t) (finish_cancel t s) (inl (FinishNotify t (tm_pending t)))
  | finish_notify t pending id r :
      pending !! id = Some r ->
      finish_step s (FinishNotify t pending) (notify r (tm_deliveryErr t) s) (inl (FinishNotify t (delete id pending)))
  | finish_notified t : finish_step s (FinishNotify t ∅) s (inl (FinishClose t))
  | finish_closed t e : (tm_transport t = None -> e = None) -> finish_step s (FinishClose t) s (inr e).
(** [client.Close], up to the end of its critical section. *)
Definition client_Close (s : Shared) : option connectionTermination * Shared :=
  terminateConnectionLocked None (ENew "gateway connection closed") true s.

(** [finishConnect]. *)
Definition connect_params : json :=
  JObject [("auth", JObject [("token", JString (go_token o))]); ("caps", JArray []);
           ("client", JObject [("id", JString "gateway-client"); ("mode", JString "backend"); ("platform", JString "go");
                               ("version", JString "0.1")]);
           ("commands", JArray []); ("locale", JString "en-US"); ("maxProtocol", JNumber "4"); ("minProtocol", JNumber "3");
           ("permissions", JObject []); ("role", JString (go_role o)); ("scopes", JArray (map JString (go_scopes o)));
           ("userAgent", JString "gateway-client/aries/0.1")]%string.
Definition connect_summary (response : Frame) : ConnectSummary + err :=
  if frame_Bool response "ok" then
    let payload := frame_Map response "payload" in
    let auth := frame_Map payload "auth" in
    let or_else a b := if String.eqb a "" then b else a in
    inl {| cs_Role := or_else (frame_String auth "role") (or_else (frame_String payload "role") (go_role o));
           cs_Scopes := grantedScopes payload |}
  else if pairingRequired response then inr (ENew "connect failed: gateway pairing is required")
  else inr (ENew "connect failed: gateway rejected authentication").

(** What follows a [Close] of [connectOnce]. *)
Inductive after_close := ThenDial | ThenFail (e : err).
Inductive connect_pc :=
  | ConnectTop (next : after_close)
  | ConnectFinish (f : finish_pc) (next : after_close)
  | ConnectDial
  | ConnectOpen (transport : nat)
  | ConnectRecv (pc : recv_pc)
  | ConnectFailed (e : err)
  | ConnectCall (pc : call_pc)
  | ConnectStore (summary : ConnectSummary).
Definition after (next : after_close) : connect_pc :=
  match next with ThenDial => ConnectDial | ThenFail e => ConnectFailed e end.
(** The first event of a connection: anything but a challenge ends it. *)
Definition connect_first (first : Frame + err) : connect_pc + (ConnectSummary + err) :=
  match first with
  | inr e => inl (ConnectTop (ThenFail e))
  | inl frame =>
      if negb (String.eqb (frame_String frame "type") "event") || negb (String.eqb (frame_String frame "event") "connect.challenge")
      then inl (ConnectTop (ThenFail (ENew "expected connect.challenge")))
      else if String.eqb (frame_String (frame_Map frame "payload") "nonce") ""
      then inr (inr (ENew "connect.challenge missing nonce"))
      else inl (ConnectCall (CallID "connect" connect_params))
  end.
Definition connect_answered (response : responseDelivery) : connect_pc + (ConnectSummary + err) :=
  match response with
  | inr e => inr (inr e)
  | inl response => match connect_summary response with inr e => inr (inr e) | inl summary => inl (ConnectStore summary) end
  end.
Definition connect_failed (e : err) : err := EWrap "gateway websocket connect failed" e.
(** A step may start the goroutine that reads a connection: its transport and
    generation. Whether a failed attempt is followed by another is up to the clock. *)
Inductive connect_step (s : Shared) :
    connect_pc -> Shared -> connect_pc + (ConnectSummary + err) -> option (nat * nat) -> Prop :=
  | connect_close next t s' :
      client_Close s = (Some t, s') -> connect_step s (ConnectTop next) s' (inl (ConnectFinish (FinishCancel t) next)) None
  | connect_finishing f next s' f' :
      finish_step s f s' (inl f') -> connect_step s (ConnectFinish f next) s' (inl (ConnectFinish f' next)) None
  | connect_finished f next s' e :
      finish_step s f s' (inr e) -> connect_step s (ConnectFinish f next) s' (inl (after next)) None
  | connect_dialed transport : connect_step s ConnectDial s (inl (ConnectOpen transport)) None
  | connect_undialed e : connect_step s ConnectDial s (inl (ConnectFailed e)) None
  | connect_open transport g s' :
      open_connection transport s = (g, s') ->
      connect_step s (ConnectOpen transport) s' (inl (ConnectRecv RecvTop)) (Some (transport, g))
  | connect_receiving pc s' pc' :
      recv_step s pc s' (inl pc') -> connect_step s (ConnectRecv pc) s' (inl (ConnectRecv pc')) None
  | connect_received pc s' first :
      recv_step s pc s' (inr first) -> connect_step s (ConnectRecv pc) s' (connect_first first) None
  | connect_retry e : connect_step s (ConnectFailed e) s (inl (ConnectTop ThenDial)) None
  | connect_give_up e : connect_step s (ConnectFailed e) s (inr (inr (connect_failed e))) None
  | connect_done e (x : sentinel) : connect_step s (ConnectFailed e) s (inr (inr (connect_failed (ESentinel x)))) None
  | connect_calling pc s' pc' :
      call_step s pc s' (inl pc') -> connect_step s (ConnectCall pc) s' (inl (ConnectCall pc')) None
  | connect_called pc s' response :
      call_step s pc s' (inr response) -> connect_step s (ConnectCall pc) s' (connect_answered response) None
  | connect_store summary :
      connect_step s (ConnectStore summary) (set_client (set_connected summary (sh_client s)) s) (inr (inl summary)) None.

(** * The goroutines *)

Inductive thread :=
  | Reading (transport generation : nat)
  | Closing
  | Finishing (f : finish_pc)
  | Receiving (pc : recv_pc)
  | Calling (pc : call_pc)
  | Agent (pc : agent_pc)
  | Connecting (pc : connect_pc)
  | Exited.
Definition reader_goes_on (transport generation : nat) (r : reader_next) : thread :=
  match r with
  | ReaderContinues => Reading transport generation
  | ReaderStops => Exited
  | ReaderFails t => Finishing (FinishCancel t)
  end.
Definition or_exit {A B} (f : A -> thread) (r : A + B) : thread := match r with inl a => f a | inr _ => Exited end.
Definition reader_of (r : option (nat * nat)) : list thread :=
  match r with Some (transport, g) => [Reading transport g] | None => [] end.
Inductive thread_step (s : Shared) : thread -> Shared -> thread -> list thread -> Prop :=
  | read_content transport g content r s' :
      read_message json_Unmarshal o content transport g s = (r, s') ->
      thread_step s (Reading transport g) s' (reader_goes_on transport g r) []
  | read_error transport g e r s' :
      read_failed transport e s = (r, s') -> thread_step s (Reading transport g) s' (reader_goes_on transport g r) []
  | close_begins t s' : client_Close s = (Some t, s') -> thread_step s Closing s' (Finishing (FinishCancel t)) []
  | finishing f s' r : finish_step s f s' r -> thread_step s (Finishing f) s' (or_exit Finishing r) []
  | receiving pc s' r : recv_step s pc s' r -> thread_step s (Receiving pc) s' (or_exit Receiving r) []
  | calling pc s' r : call_step s pc s' r -> thread_step s (Calling pc) s' (or_exit Calling r) []
  | agent_running pc s' r : agent_step s pc s' r -> thread_step s (Agent pc) s' (or_exit Agent r) []
  | connecting pc s' r new :
      connect_step s pc s' r new -> thread_step s (Connecting pc) s' (or_exit Connecting r) (reader_of new).

(** The calls that other packages make, at any time. *)
Inductive starts : thread -> Prop :=
  | starts_close : starts Closing
  | starts_recv : starts (Receiving RecvTop)
  | starts_call method params pc : call_start method params = inl pc -> starts (Calling pc)
  | starts_agent request pc : agent_start request = inl pc -> starts (Agent pc)
  | starts_connect : starts (Connecting (ConnectTop ThenDial)).
Definition System : Type := Shared * list thread.
Inductive gateway_step : System -> System -> Prop :=
  | step_thread s before t after s' t' new :
      thread_step s t s' t' new -> gateway_step (s, before ++ t :: after) (s', before ++ t' :: after ++ new)
  | step_start s threads t : starts t -> gateway_step (s, threads) (s, threads ++ [t]).
Definition reachable (sy : System) : Prop := rtc gateway_step (new_shared, []) sy.
End Machines.
