(* ===== verification/GatewaySafety.v ===== *)
(** What the goroutines of an OpenClaw gateway client preserve, however they interleave:
    the accounts of the event queue, and the callers' claim to an answer. *)

From S2P Require Import Prelude Utf8 Core Config GatewayFrame Gateway GatewayRun.

(** * The accounts *)

(** The deliveries that a goroutine has taken and not yet released. *)
Definition recv_held (pc : recv_pc) : list eventDelivery := match pc with RecvFinish d _ => [d] | _ => [] end.
Definition held_of (t : thread) : list eventDelivery :=
  match t with Receiving pc | Connecting (ConnectRecv pc) => recv_held pc | _ => [] end.
Definition held (threads : list thread) : list eventDelivery := concat (map held_of threads).
Definition of_generation (g : nat) (ds : list eventDelivery) : list eventDelivery := filter (fun d => ed_generation d = g) ds.
Definition total (ds : list eventDelivery) : Z := foldr (fun d n => ed_bytes d + n) 0 ds.

(** [hs] are the deliveries that are held. *)
Record accounts (o : gatewayOptions) (s : Shared) (hs : list eventDelivery) : Prop := {
  ac_panic : sh_panicked s = false;
  ac_count : gc_eventCount (sh_client s) =
    Z.of_nat (length (queued (gc_generation (sh_client s)) s) + length (of_generation (gc_generation (sh_client s)) hs));
  ac_bytes : gc_eventBytes (sh_client s) =
    total (queued (gc_generation (sh_client s)) s) + total (of_generation (gc_generation (sh_client s)) hs);
  ac_bound : gc_eventCount (sh_client s) <= go_eventCap o /\ gc_eventBytes (sh_client s) <= go_eventByteMax o;
  ac_now : is_Some (sh_connections s !! gc_generation (sh_client s));
  ac_failed : failed_closed (gc_generation (sh_client s)) s = bool_decide (is_Some (gc_readerErr (sh_client s)));
  ac_known g : is_Some (sh_connections s !! g) -> (g <= gc_generation (sh_client s))%nat;
  ac_queued g : Forall (fun d => ed_generation d = g /\ 0 <= ed_bytes d) (queued g s);
  ac_held : Forall (fun d => (ed_generation d <= gc_generation (sh_client s))%nat /\ 0 <= ed_bytes d) hs;
  ac_fatal : gc_readerFatal (sh_client s) = true -> is_Some (gc_readerErr (sh_client s));
  ac_gone : is_Some (gc_readerErr (sh_client s)) -> gc_transport (sh_client s) = None;
  ac_pending : gc_transport (sh_client s) = None -> gc_pending (sh_client s) = ∅
}.

Lemma total_app a b : total (a ++ b) = total a + total b.
Proof. induction a as [|d a IH]; simpl; [lia|]. fold (total (a ++ b)) (total a) in *. lia. Qed.
#[export] Instance total_perm : Proper ((≡ₚ) ==> eq) total.
Proof. intros a b H. induction H; simpl; fold total in *; try lia. Qed.
Lemma total_nonneg ds : Forall (fun d => 0 <= ed_bytes d) ds -> 0 <= total ds.
Proof. induction 1; simpl; [lia|]. fold (total l). lia. Qed.
#[export] Instance of_generation_perm g : Proper ((≡ₚ) ==> (≡ₚ)) (of_generation g).
Proof. intros a b H. unfold of_generation. by rewrite H. Qed.
Lemma accounts_perm o s hs hs' : hs ≡ₚ hs' -> accounts o s hs -> accounts o s hs'.
Proof.
  intros H []. pose proof (of_generation_perm (gc_generation (sh_client s)) _ _ H) as Hg.
  split; try done; [by rewrite <- Hg|by rewrite <- Hg|by rewrite <- H].
Qed.
Lemma of_generation_cons g d hs :
  of_generation g (d :: hs) = if decide (ed_generation d = g) then d :: of_generation g hs else of_generation g hs.
Proof. by unfold of_generation; rewrite (filter_cons (fun d => ed_generation d = g)). Qed.
Lemma of_generation_above g hs :
  Forall (fun d => (ed_generation d < g)%nat) hs -> of_generation g hs = [].
Proof. induction 1 as [|d hs Hd _ IH]; [done|]. rewrite of_generation_cons, decide_False by lia. done. Qed.

(** A change that leaves the accounts alone. *)
Lemma accounts_same o s s' hs :
  accounts o s hs -> sh_connections s' = sh_connections s -> sh_panicked s' = sh_panicked s ->
  gc_eventCount (sh_client s') = gc_eventCount (sh_client s) -> gc_eventBytes (sh_client s') = gc_eventBytes (sh_client s) ->
  gc_readerErr (sh_client s') = gc_readerErr (sh_client s) -> gc_readerFatal (sh_client s') = gc_readerFatal (sh_client s) ->
  gc_generation (sh_client s') = gc_generation (sh_client s) -> gc_transport (sh_client s') = gc_transport (sh_client s) ->
  (gc_transport (sh_client s) = None -> gc_pending (sh_client s') = ∅) -> accounts o s' hs.
Proof.
  intros [] Hc Hp He Hb Hr Hf Hg Ht Hpend. unfold queued, failed_closed in *.
  split; unfold queued, failed_closed; rewrite ?Hc, ?Hp, ?He, ?Hb, ?Hr, ?Hf, ?Hg, ?Ht; try done.
Qed.

Section Accounts.
Variable o : gatewayOptions.

Lemma queued_update g g' f s :
  queued g' (update_connection g f s) =
  if decide (g = g') then match sh_connections s !! g with Some cn => cn_eventCh (f cn) | None => [] end else queued g' s.
Proof.
  unfold queued, update_connection. simpl. destruct (decide (g = g')) as [->|Hne].
  - rewrite lookup_alter_eq. by destruct (sh_connections s !! g').
  - by rewrite lookup_alter_ne.
Qed.
Lemma failed_update g g' f s :
  failed_closed g' (update_connection g f s) =
  if decide (g = g') then match sh_connections s !! g with Some cn => cn_failed (f cn) | None => false end else failed_closed g' s.
Proof.
  unfold failed_closed, update_connection. simpl. destruct (decide (g = g')) as [->|Hne].
  - rewrite lookup_alter_eq. by destruct (sh_connections s !! g').
  - by rewrite lookup_alter_ne.
Qed.
Lemma known_update g g' f s : is_Some (sh_connections (update_connection g f s) !! g') <-> is_Some (sh_connections s !! g').
Proof. unfold update_connection. simpl. apply lookup_alter_is_Some. Qed.

(** A delivery leaves the queue and is held. *)
Lemma accounts_take g d s s' hs :
  accounts o s hs -> take_event g s = Some (d, s') -> accounts o s' (d :: hs) /\ ed_generation d = g.
Proof.
  intros [] Ht. unfold take_event in Ht.
  destruct (sh_connections s !! g) as [[[|d0 q] enqueued failed canceled]|] eqn:Hcn; try done. injection Ht as <- <-.
  set (s' := update_connection _ _ _).
  assert (Hq : queued g s = d0 :: q) by (unfold queued; by rewrite Hcn).
  assert (Hq' : forall g', queued g' s' = if decide (g = g') then q else queued g' s).
  { intros g'. unfold s'. rewrite queued_update. destruct (decide (g = g')); [|done]. by rewrite Hcn. }
  assert (Hf' : forall g', failed_closed g' s' = failed_closed g' s).
  { intros g'. unfold s'. rewrite failed_update. destruct (decide (g = g')) as [<-|]; [|done].
    unfold failed_closed. by rewrite Hcn. }
  pose proof (ac_queued0 g) as Hd. rewrite Hq in Hd. inversion Hd as [|? ? [Hg Hb] Hrest]; subst.
  assert (is_Some (sh_connections s !! ed_generation d0)) as Hk%ac_known0 by (rewrite Hcn; eauto).
  split; [|done]. split; unfold s'; simpl; try done; fold s'.
  - rewrite Hq', of_generation_cons, ac_count0. destruct (decide _) as [<-|]; [|done].
    rewrite Hq. simpl. lia.
  - rewrite Hq', of_generation_cons, ac_bytes0. destruct (decide _) as [<-|]; [|done].
    rewrite Hq. simpl. fold (total q). lia.
  - by apply known_update.
  - by rewrite Hf'.
  - intros g' Hg'. apply ac_known0. by apply known_update in Hg'.
  - intros g'. rewrite Hq'. destruct (decide _) as [<-|]; [done|apply ac_queued0].
  - by constructor.
Qed.
Lemma accounts_release d s hs : accounts o s (d :: hs) -> accounts o (releaseEventLocked d s) hs.
Proof.
  intros []. inversion ac_held0 as [|? ? [Hd Hb] Hrest]; subst. unfold releaseEventLocked.
  rewrite of_generation_cons in ac_count0, ac_bytes0.
  destruct (decide (ed_generation d = gc_generation (sh_client s))) as [He|Hne].
  - rewrite bool_decide_eq_true_2 by done. cbn [negb].
    split; try done; simpl in *; fold (total (of_generation (gc_generation (sh_client s)) hs)) in *; unfold queued in *; simpl in *; lia.
  - rewrite bool_decide_eq_false_2 by done. cbn [negb]. by split.
Qed.
Lemma accounts_terminate expected e fatal s hs :
  accounts o s hs -> accounts o (terminateConnectionLocked expected e fatal s).2 hs.
Proof.
  intros []. unfold terminateConnectionLocked. destruct (match expected with Some _ => _ | None => _ end); [by split|].
  destruct (gc_readerErr (sh_client s)) as [e0|] eqn:He.
  - split; simpl; try done; eauto.
  - unfold close_failed. rewrite ac_failed0, bool_decide_eq_false_2 by (by intros [? ?]).
    set (g := gc_generation (sh_client s)) in *. set (s' := update_connection _ _ _).
    assert (Hq : forall g', queued g' s' = queued g' s).
    { intros g'. unfold s'. rewrite queued_update. destruct (decide _) as [<-|]; [|done]. unfold queued.
      by destruct (sh_connections s !! g). }
    split; simpl; try done; eauto.
    + change (gc_eventCount (sh_client s) = Z.of_nat (length (queued g s') + length (of_generation g hs))). by rewrite Hq.
    + change (gc_eventBytes (sh_client s) = total (queued g s') + total (of_generation g hs)). by rewrite Hq.
    + by apply known_update.
    + change (failed_closed g s' = bool_decide (is_Some (Some e))). unfold s'. rewrite failed_update, decide_True by done.
      destruct ac_now0 as [cn ->]. by rewrite bool_decide_eq_true_2 by eauto.
    + intros g' Hg'. apply ac_known0. by apply known_update in Hg'.
    + intros g'. change (Forall (fun d => ed_generation d = g' /\ 0 <= ed_bytes d) (queued g' s')). by rewrite Hq.
Qed.
Lemma accounts_cancel t s hs : accounts o s hs -> accounts o (finish_cancel t s) hs.
Proof.
  intros H. unfold finish_cancel. destruct (tm_cancel t) as [g|]; [|done]. unfold cancel_reader.
  set (s' := update_connection _ _ _).
  assert (Hq : forall g', queued g' s' = queued g' s).
  { intros g'. unfold s'. rewrite queued_update. destruct (decide _) as [<-|]; [|done]. unfold queued.
    by destruct (sh_connections s !! g). }
  assert (Hf : forall g', failed_closed g' s' = failed_closed g' s).
  { intros g'. unfold s'. rewrite failed_update. destruct (decide _) as [<-|]; [|done]. unfold failed_closed.
    by destruct (sh_connections s !! g). }
  destruct H. split; rewrite ?Hf; try done.
  - by rewrite Hq.
  - by rewrite Hq.
  - by apply known_update.
  - intros g' Hg'. apply ac_known0. by apply known_update in Hg'.
  - intros g'. by rewrite Hq.
Qed.
Lemma accounts_open transport s hs :
  0 <= go_eventCap o -> 0 <= go_eventByteMax o -> accounts o s hs -> accounts o (open_connection transport s).2 hs.
Proof.
  intros Hcap Hmax []. set (g := gc_generation (sh_client s)) in *.
  assert (Hnone : of_generation (S g) hs = []).
  { apply of_generation_above. eapply Forall_impl; [exact ac_held0|]. intros d [Hd _]. simpl in Hd. lia. }
  split; simpl; fold g; rewrite ?Hnone; try done.
  - unfold queued. simpl. by rewrite lookup_insert_eq.
  - unfold queued. simpl. by rewrite lookup_insert_eq.
  - rewrite lookup_insert_eq. eauto.
  - unfold failed_closed. simpl. by rewrite lookup_insert_eq.
  - intros g' Hg'. destruct (decide (g' = S g)) as [->|Hne]; [done|]. rewrite lookup_insert_ne in Hg' by done.
    apply ac_known0 in Hg'. lia.
  - intros g'. unfold queued. simpl. destruct (decide (g' = S g)) as [->|Hne].
    + rewrite lookup_insert_eq. constructor.
    + rewrite lookup_insert_ne by done. apply ac_queued0.
  - eapply Forall_impl; [exact ac_held0|]. intros d [Hd ?]. split; [|done]. simpl in Hd. lia.
Qed.
Lemma accounts_fails expected e fatal s hs : accounts o s hs -> accounts o (fails (terminateConnectionLocked expected e fatal s)).2 hs.
Proof. apply accounts_terminate. Qed.
Lemma accounts_read_response frame transport g s hs : accounts o s hs -> accounts o (read_response frame transport g s).2 hs.
Proof.
  intros H. unfold read_response. destruct (negb _); [done|]. destruct (String.eqb _ _); [done|].
  destruct (gc_pending (sh_client s) !! frame_String frame "id") as [r|]; [|done].
  unfold buffered. destruct (sh_replies s !! r) as [q|]; [|by apply accounts_fails].
  destruct (decide _); [|by apply accounts_fails]. apply (accounts_same o s); try done. apply (ac_pending _ _ _ H).
Qed.
Lemma accounts_read_event frame size transport g s hs :
  0 <= size -> accounts o s hs -> accounts o (read_event o frame size transport g s).2 hs.
Proof.
  intros Hsize H. unfold read_event. destruct (negb (current_reader _ _ _)) eqn:Hcur; [done|].
  apply negb_false_iff, andb_true_iff in Hcur as [_ Hg%bool_decide_eq_true].
  set (await := _ && _).
  match goal with |- context [if ?discard then (ReaderContinues, s) else _] => destruct discard; [done|] end.
  set (s1 := set_client _ s).
  assert (H1 : accounts o s1 hs) by (apply (accounts_same o s); try done; apply (ac_pending _ _ _ H)).
  destruct (_ || _) eqn:Hfull; [by apply accounts_fails|].
  apply orb_false_iff in Hfull as [Hcap%Z.leb_gt Hmax%Z.ltb_ge]. destruct (_ <=? _); [by apply accounts_fails|].
  destruct H. set (n := gc_generation (sh_client s)) in *. set (d := {| ed_frame := frame |}).
  assert (Hq : forall g', queued g' (send_event n d s1) = if decide (n = g') then queued n s ++ [d] else queued g' s).
  { intros g'. unfold send_event. rewrite queued_update. destruct (decide _) as [<-|]; [|done]. unfold queued.
    change (sh_connections s1) with (sh_connections s). destruct ac_now0 as [cn ->]. done. }
  set (s2 := send_event n d s1) in *. cbn [snd].
  split; cbn [set_client set_accounts sh_client sh_panicked sh_connections sh_replies gc_eventCount gc_eventBytes gc_generation
              gc_readerErr gc_readerFatal gc_transport gc_pending]; try done.
  - fold n. change (gc_eventCount (sh_client s) + 1 = Z.of_nat (length (queued n s2) + length (of_generation n hs))).
    rewrite Hq, decide_True, length_app, ac_count0 by done. simpl. lia.
  - fold n. change (gc_eventBytes (sh_client s) + size = total (queued n s2) + total (of_generation n hs)).
    rewrite Hq, decide_True, total_app, ac_bytes0 by done. simpl. lia.
  - lia.
  - by apply known_update.
  - fold n. change (failed_closed n s2 = bool_decide (is_Some (gc_readerErr (sh_client s)))). rewrite <- ac_failed0.
    unfold s2, send_event. rewrite failed_update, decide_True by done. unfold failed_closed.
    change (sh_connections s1) with (sh_connections s). by destruct ac_now0 as [cn ->].
  - intros g' Hg'. apply ac_known0. by apply known_update in Hg'.
  - intros g'. change (Forall (fun d => ed_generation d = g' /\ 0 <= ed_bytes d) (queued g' s2)). rewrite Hq.
    destruct (decide _) as [<-|]; [|apply ac_queued0]. apply Forall_app. split; [apply ac_queued0|].
    constructor; [done|constructor].
Qed.

(** The machines. *)
Variable json_Unmarshal : string -> option json.
Variable json_Marshal : json -> bytes + err.
Lemma accounts_read_message content transport g s hs :
  accounts o s hs -> accounts o (read_message json_Unmarshal o content transport g s).2 hs.
Proof.
  intros H. unfold read_message. destruct (_ <? _); [by apply accounts_fails|].
  destruct (Unmarshal_Frame _ _) as [frame|]; [|by apply accounts_fails].
  destruct (String.eqb _ _); [by apply accounts_read_response|]. apply accounts_read_event; [lia|done].
Qed.
Definition held_by {A B} (f : A -> list eventDelivery) (r : A + B) : list eventDelivery :=
  match r with inl a => f a | inr _ => [] end.
Lemma accounts_recv s pc s' r hs :
  accounts o s (recv_held pc ++ hs) -> recv_step s pc s' r -> accounts o s' (held_by recv_held r ++ hs).
Proof.
  intros H Hstep.
  inversion Hstep as [e Ht|pc' Ht|e g s0 pc' Ht|e g s0 e' Ht|g d s0 Ht|g Ht|g x|d g s0 Ht|d g s0 r' Ht]; subst; simpl in *; try done.
  - unfold recv_top in Ht. destruct (gc_readerFatal _); by simplify_eq.
  - unfold recv_poll in Ht. destruct (take_event g s) as [[d s1]|] eqn:Hd; [|by destruct e; simplify_eq].
    simplify_eq. simpl. by eapply accounts_take.
  - unfold recv_poll in Ht. destruct (take_event g s) as [[d s1]|] eqn:Hd; [done|]. destruct e; by simplify_eq.
  - by eapply accounts_take.
  - unfold finishEventDelivery in Ht. apply accounts_release in H.
    destruct (_ || _); [by simplify_eq|]. destruct (gc_readerFatal _); by simplify_eq.
  - unfold finishEventDelivery in Ht. apply accounts_release in H.
    destruct (_ || _); [by simplify_eq|]. destruct (gc_readerFatal _); by simplify_eq.
Qed.
Lemma accounts_remove id s hs : accounts o s hs -> accounts o (removePending id s) hs.
Proof.
  intros H. apply (accounts_same o s); try done. intros Ht. unfold removePending. simpl. rewrite (ac_pending _ _ _ H Ht).
  apply delete_empty.
Qed.
Lemma accounts_nextID m now s hs : accounts o s hs -> accounts o (nextID m now s).2 hs.
Proof. intros H. apply (accounts_same o s); try done. apply (ac_pending _ _ _ H). Qed.
Lemma accounts_insert id n s hs :
  gc_transport (sh_client s) <> None -> accounts o s hs -> accounts o (insert_pending id n s).2 hs.
Proof. intros Ht H. by apply (accounts_same o s). Qed.
Lemma accounts_take_reply r d s s' hs : accounts o s hs -> take_reply r s = Some (d, s') -> accounts o s' hs.
Proof.
  intros H Ht. unfold take_reply in Ht. destruct (sh_replies s !! r) as [[id cap [|d0 q] taken]|]; simplify_eq.
  apply (accounts_same o s); try done. apply (ac_pending _ _ _ H).
Qed.
Lemma accounts_call s pc s' r hs : accounts o s hs -> call_step json_Marshal s pc s' r -> accounts o s' hs.
Proof.
  intros H Hstep. inversion Hstep as [m p now id s0 Hn Hid|id m p s0 r0 Hr| | |id g r0 d s0 Ht| | | |]; subst;
    try done; try by apply accounts_remove.
  - replace s' with (nextID m now s).2 by (by rewrite Hid). by apply accounts_nextID.
  - unfold call_register, register_call in Hr. destruct (gc_readerFatal _); [by simplify_eq|].
    destruct (gc_transport (sh_client s)) eqn:Htr; [|by simplify_eq].
    destruct (insert_pending id 1 s) as [r1 s1] eqn:Hi. simplify_eq.
    replace s' with (insert_pending id 1 s).2 by (by rewrite Hi). by apply accounts_insert; [rewrite Htr|].
  - by eapply accounts_take_reply.
Qed.
Lemma accounts_agent s pc s' r hs : accounts o s hs -> agent_step json_Marshal s pc s' r -> accounts o s' hs.
Proof.
  intros H Hstep. inversion Hstep as [|q tr g now id s0 Hn Hid|id q tr g s0 r0 Hr| | |id g r0 acc d s0 Ht| | |]; subst;
    try done; try by apply accounts_remove.
  - replace s' with (nextID "agent" now s).2 by (by rewrite Hid). by apply accounts_nextID.
  - unfold agent_register, register_agent in Hr. destruct (_ || _) eqn:Hb; [by simplify_eq|].
    apply orb_false_iff in Hb as [[Htr%negb_false_iff%bool_decide_eq_true _]%orb_false_iff _].
    destruct (insert_pending id agentResponseQueueSize s) as [r1 s1] eqn:Hi. simplify_eq.
    replace s' with (insert_pending id agentResponseQueueSize s).2 by (by rewrite Hi). by apply accounts_insert; [rewrite Htr|].
  - by eapply accounts_take_reply.
Qed.
Lemma accounts_notify r e s hs : accounts o s hs -> accounts o (notify r e s) hs.
Proof.
  intros H. unfold notify, buffered. destruct (sh_replies s !! r) as [q|]; [|done]. destruct (decide _); [|done].
  apply (accounts_same o s); try done. apply (ac_pending _ _ _ H).
Qed.
Lemma accounts_finish s f s' r hs : accounts o s hs -> finish_step s f s' r -> accounts o s' hs.
Proof.
  intros H Hstep. inversion Hstep; subst; try done; [by apply accounts_cancel|by apply accounts_notify].
Qed.
Lemma accounts_close s t s' hs : accounts o s hs -> client_Close s = (t, s') -> accounts o s' hs.
Proof.
  intros H Hc. replace s' with (client_Close s).2 by (by rewrite Hc). by apply accounts_terminate.
Qed.
Hypothesis Hcap : 0 <= go_eventCap o.
Hypothesis Hmax : 0 <= go_eventByteMax o.
Lemma accounts_connect s pc s' r new hs :
  accounts o s (held_of (Connecting pc) ++ hs) -> connect_step o json_Marshal s pc s' r new ->
  accounts o s' (held_by (fun pc => held_of (Connecting pc)) r ++ hs).
Proof using Hcap Hmax.
  intros H Hstep. inversion Hstep as [n t s0 Hc|f n s0 f' Hf|f n s0 e Hf| | |tr g s0 Ho|pc0 s0 pc' Hr|pc0 s0 first Hr| | | |
    pc0 s0 pc' Hr|pc0 s0 first Hr|]; subst; cbn [held_of held_by app] in *; try done.
  - by eapply accounts_close.
  - by eapply accounts_finish.
  - destruct n; by eapply accounts_finish.
  - replace s' with (open_connection tr s).2 by (by rewrite Ho). by apply accounts_open.
  - by apply (accounts_recv _ _ _ _ _ H) in Hr.
  - apply (accounts_recv _ _ _ _ _ H) in Hr. unfold connect_first. destruct first; [|done].
    destruct (_ || _); [done|]. by destruct (String.eqb _ _).
  - by eapply accounts_call.
  - apply (accounts_call _ _ _ _ _ H) in Hr. unfold connect_answered. destruct first; [|done].
    by destruct (connect_summary _ _).
  - apply (accounts_same o s); try done. apply (ac_pending _ _ _ H).
Qed.
Lemma accounts_thread s t s' t' new hs :
  accounts o s (held_of t ++ hs) -> thread_step o json_Unmarshal json_Marshal s t s' t' new ->
  accounts o s' (held_of t' ++ hs) /\ held new = [].
Proof using Hcap Hmax.
  intros H Hstep. inversion Hstep as [tr g content r s0 Hr|tr g e r s0 Hr|tm s0 Hc|f s0 r Hr|pc s0 r Hr|pc s0 r Hr|pc s0 r Hr|
    pc s0 r new0 Hr]; subst; cbn [held_of app] in H; (split; [|try done]).
  - replace s' with (read_message json_Unmarshal o content tr g s).2 by (by rewrite Hr).
    destruct r; by apply accounts_read_message.
  - replace s' with (read_failed tr e s).2 by (by rewrite Hr). destruct r; by apply accounts_fails.
  - by eapply accounts_close.
  - destruct r; by eapply accounts_finish.
  - apply (accounts_recv _ _ _ _ _ H) in Hr. by destruct r.
  - destruct r; by eapply accounts_call.
  - destruct r; by eapply accounts_agent.
  - apply (accounts_connect _ _ _ _ _ _ H) in Hr. by destruct r.
  - by destruct new0 as [[]|].
Qed.

Lemma held_app a b : held (a ++ b) = held a ++ held b.
Proof. unfold held. by rewrite map_app, concat_app. Qed.
Lemma accounts_step sy sy' :
  accounts o sy.1 (held sy.2) -> gateway_step o json_Unmarshal json_Marshal sy sy' -> accounts o sy'.1 (held sy'.2).
Proof using Hcap Hmax.
  intros H Hstep. inversion Hstep as [s before t after s' t' new Ht|s threads t Ht]; subst; simpl in *.
  - assert (accounts o s (held_of t ++ held before ++ held after)) as H1.
    { eapply accounts_perm; [|exact H]. rewrite held_app. change (held (t :: after)) with (held_of t ++ held after).
      by rewrite Permutation_app_swap_app. }
    destruct (accounts_thread _ _ _ _ _ _ H1 Ht) as [H2 Hnew]. eapply accounts_perm; [|exact H2].
    rewrite held_app. change (held (t' :: after ++ new)) with (held_of t' ++ held (after ++ new)).
    rewrite held_app, Hnew, app_nil_r. by rewrite Permutation_app_swap_app.
  - rewrite held_app. replace (held [t]) with (@nil eventDelivery); [by rewrite app_nil_r|].
    destruct Ht; try done; simpl; destruct pc; done.
Qed.
Lemma accounts_reachable sy : reachable o json_Unmarshal json_Marshal sy -> accounts o sy.1 (held sy.2).
Proof using Hcap Hmax.
  unfold reachable. intros H. remember (new_shared, @nil thread) as sy0 eqn:E.
  assert (accounts o sy0.1 (held sy0.2)) as H0.
  { subst sy0. split; simpl; try done.
    - intros g. destruct (decide (g = 0%nat)) as [->|]; [done|]. rewrite lookup_singleton_ne by done. by intros [].
    - intros g. unfold queued. simpl. destruct (decide (g = 0%nat)) as [->|].
      + rewrite lookup_singleton_eq. constructor.
      + rewrite lookup_singleton_ne by done. constructor. }
  clear E. induction H as [|sy0 sy1 sy2 Hs _ IH]; [done|]. apply IH. by eapply accounts_step.
Qed.
End Accounts.
