(* ===== verification/GatewayCallers.v ===== *)
(** The callers of an OpenClaw gateway client: however the goroutines interleave, one
    that waits for a response is owed one, and what it takes was sent for its own
    request. *)

From S2P Require Import Prelude Utf8 Core Config GatewayFrame Gateway GatewayRun.

(** * Request identities *)

Definition id_seq (id : string) (n : Z) : Prop :=
  exists method now, 0 <= now /\ 0 <= n /\ id = dashed method +:+ "-" +:+ itoa n +:+ "-" +:+ itoa now.
Lemma itoa_no_dash n : 0 <= n -> "-"%char ∉ to_bytes (itoa n).
Proof.
  intros Hn Hin. pose proof (digits_itoa n Hn) as Hd. rewrite forallb_forall in Hd.
  apply list_elem_of_In, Hd in Hin. done.
Qed.
(** An identity tells when it was made. *)
Lemma id_seq_inj id n n' : id_seq id n -> id_seq id n' -> n = n'.
Proof.
  intros (m & t & Ht & Hn & ->) (m' & t' & Ht' & Hn' & Heq). apply (f_equal to_bytes) in Heq.
  repeat rewrite to_bytes_app in Heq. change (to_bytes "-") with ["-"%char] in Heq.
  assert (forall a n t : bytes, a ++ ["-"%char] ++ n ++ ["-"%char] ++ t = (a ++ "-"%char :: n) ++ "-"%char :: t) as E
    by (intros; by rewrite <- app_assoc).
  rewrite !E in Heq. apply last_separator in Heq as [Heq _]; [|by apply itoa_no_dash..].
  apply last_separator in Heq as [_ Heq]; [|by apply itoa_no_dash..].
  apply to_bytes_inj in Heq. rewrite <- (dec_value_itoa n), <- (dec_value_itoa n') by done. by rewrite Heq.
Qed.

(** * What a goroutine holds *)

Definition call_id (pc : call_pc) : option string :=
  match pc with
  | CallID _ _ | CallFatal _ _ => None
  | CallRegister id _ _ | CallSend id _ _ _ _ | CallUnsent id _ _ | CallWait id _ _ | CallReplied id _ _ | CallRemove id _ => Some id
  end.
Definition agent_id_of (pc : agent_pc) : option string :=
  match pc with
  | AgentTop _ | AgentID _ _ _ | AgentDone _ _ _ => None
  | AgentRegister id _ _ _ | AgentSend id _ _ _ _ | AgentUnsent id _ _ _ | AgentWait id _ _ _ | AgentReplied id _ _ _ _
  | AgentRemove id _ _ => Some id
  end.
Definition thread_id (t : thread) : option string :=
  match t with Calling pc | Connecting (ConnectCall pc) => call_id pc | Agent pc => agent_id_of pc | _ => None end.
Definition call_reply_of (pc : call_pc) : option nat :=
  match pc with CallSend _ _ _ r _ | CallWait _ _ r => Some r | _ => None end.
Definition agent_reply_of (pc : agent_pc) : option nat :=
  match pc with
  | AgentSend _ _ _ r _ | AgentUnsent _ _ r _ | AgentWait _ _ r _ | AgentReplied _ _ r _ _ | AgentRemove _ r _ | AgentDone r _ _ => Some r
  | _ => None
  end.
Definition thread_reply (t : thread) : option nat :=
  match t with Calling pc | Connecting (ConnectCall pc) => call_reply_of pc | Agent pc => agent_reply_of pc | _ => None end.
(** The callers that a goroutine is about to tell of the end of their connection. *)
Definition finish_tells (f : finish_pc) : gmap string nat :=
  match f with FinishCancel t => tm_pending t | FinishNotify _ pending => pending | FinishClose _ => ∅ end.
Definition tells (t : thread) : gmap string nat :=
  match t with Finishing f | Connecting (ConnectFinish f _) => finish_tells f | _ => ∅ end.

(** * What a caller is owed *)

(** A registration, here or with a goroutine that tells of the end. *)
Definition claim (s : Shared) (P : string -> nat -> Prop) (id : string) (r : nat) : Prop :=
  gc_pending (sh_client s) !! id = Some r \/ P id r.
(** The end of the connection was told, or there was no room for it. *)
Definition ended (q : replyChannel) : Prop := (exists e, inr e ∈ rc_queue q) \/ (rc_cap q <= length (rc_queue q))%nat.
Definition channel (s : Shared) (id : string) (r : nat) (capacity : nat) (Q : replyChannel -> Prop) : Prop :=
  exists q, sh_replies s !! r = Some q /\ rc_id q = id /\ rc_cap q = capacity /\ Q q.

Definition correlated (id : string) (d : responseDelivery) : Prop :=
  match d with inl f => frame_String f "id" = id /\ frame_String f "type" = "res"%string | inr _ => True end.
Definition acknowledges (f : Frame) (runID : string) : Prop :=
  frame_Bool f "ok" = true /\ frame_String (frame_Map f "payload") "status" = "accepted"%string /\
  frame_String (frame_Map f "payload") "runId" = runID /\ runID <> ""%string.
Definition terminates (f : Frame) (result : AgentResult) : Prop :=
  frame_Bool f "ok" = true /\ frame_String (frame_Map f "payload") "runId" = ar_RunID result /\
  parseAgentTerminal (frame_Map f "payload") = inl (ar_Text result).
(** The two answers behind a result. *)
Definition behind (result : AgentResult) (q : replyChannel) : Prop :=
  exists first last, rc_taken q = [inl first; inl last] /\ acknowledges first (ar_RunID result) /\ terminates last result.

Definition call_ok (s : Shared) (P : string -> nat -> Prop) (pc : call_pc) : Prop :=
  match pc with
  | CallSend id _ _ r _ | CallWait id _ r =>
      channel s id r 1 (fun q => claim s P id r \/ rc_queue q <> [])
  | _ => True
  end.
Definition first_wait (s : Shared) (P : string -> nat -> Prop) (id : string) (r : nat) : Prop :=
  channel s id r agentResponseQueueSize (fun q => rc_taken q = [] /\ (claim s P id r \/ ended q)).
Definition agent_ok (s : Shared) (P : string -> nat -> Prop) (pc : agent_pc) : Prop :=
  match pc with
  | AgentSend id _ _ r _ => first_wait s P id r
  | AgentWait id _ r accepted =>
      if String.eqb accepted "" then first_wait s P id r
      else channel s id r agentResponseQueueSize (fun q => exists f, rc_taken q = [inl f] /\ acknowledges f accepted /\
             (claim s P id r \/ rc_queue q <> []))
  | AgentReplied id _ r accepted d =>
      if String.eqb accepted ""
      then channel s id r agentResponseQueueSize (fun q => rc_taken q = [d] /\
             (claim s P id r \/ rc_queue q <> [] \/ exists e, d = inr e))
      else channel s id r agentResponseQueueSize (fun q => exists f, rc_taken q = [inl f; d] /\ acknowledges f accepted)
  | AgentRemove id r (inl result) | AgentDone r id (inl result) => channel s id r agentResponseQueueSize (behind result)
  | AgentUnsent id _ r _ | AgentRemove id r _ | AgentDone r id _ => channel s id r agentResponseQueueSize (fun _ => True)
  | _ => True
  end.
Definition thread_ok (s : Shared) (P : string -> nat -> Prop) (t : thread) : Prop :=
  match t with Calling pc | Connecting (ConnectCall pc) => call_ok s P pc | Agent pc => agent_ok s P pc | _ => True end.
Definition promised (threads : list thread) (id : string) (r : nat) : Prop := exists t, t ∈ threads /\ tells t !! id = Some r.

Record callers (s : Shared) (threads : list thread) : Prop := {
  cl_sequence : 0 <= gc_sequence (sh_client s);
  cl_ids : NoDup (omap thread_id threads);
  cl_seq : Forall (fun id => exists n, n <= gc_sequence (sh_client s) /\ id_seq id n) (omap thread_id threads);
  cl_replies : NoDup (omap thread_reply threads);
  cl_known : Forall (fun r => is_Some (sh_replies s !! r)) (omap thread_reply threads);
  cl_threads : Forall (thread_ok s (promised threads)) threads;
  cl_pending id r : gc_pending (sh_client s) !! id = Some r -> exists q, sh_replies s !! r = Some q /\ rc_id q = id;
  cl_frames r q : sh_replies s !! r = Some q -> (0 < rc_cap q)%nat /\ Forall (correlated (rc_id q)) (rc_queue q ++ rc_taken q)
}.

(** * What others leave of a caller *)

(** A channel grows, within its capacity. *)
Record grown (q q' : replyChannel) : Prop := {
  gr_id : rc_id q' = rc_id q;
  gr_cap : rc_cap q' = rc_cap q;
  gr_taken : rc_taken q' = rc_taken q;
  gr_queue : exists ds, rc_queue q' = rc_queue q ++ ds /\ (ds = [] \/ (length (rc_queue q') <= rc_cap q)%nat)
}.
Definition grows (s s' : Shared) (r : nat) : Prop :=
  forall q, sh_replies s !! r = Some q -> exists q', sh_replies s' !! r = Some q' /\ grown q q'.
Definition has_ended (s : Shared) (r : nat) : Prop := exists q, sh_replies s !! r = Some q /\ ended q.

Lemma grown_refl q : grown q q.
Proof. split; try done. exists []. split; [by rewrite app_nil_r|by left]. Qed.
Lemma grows_refl s s' r : sh_replies s' !! r = sh_replies s !! r -> grows s s' r.
Proof. intros H q Hq. exists q. rewrite H. split; [done|apply grown_refl]. Qed.
Lemma grows_refl_known s s' r : (is_Some (sh_replies s !! r) -> sh_replies s' !! r = sh_replies s !! r) -> grows s s' r.
Proof. intros H q Hq. exists q. rewrite H by eauto. split; [done|apply grown_refl]. Qed.
Lemma ended_grown q q' : grown q q' -> ended q -> ended q'.
Proof.
  intros [_ Hc _ (ds & Hq & Hds)] [[e He]|Hl]; [left; exists e; rewrite Hq; set_solver|].
  right. rewrite Hc. destruct Hds as [->|Hl']; [rewrite Hq, app_nil_r; done|]. rewrite Hq, length_app in *. lia.
Qed.
Lemma nonempty_grown q q' : grown q q' -> rc_queue q <> [] -> rc_queue q' <> [].
Proof. intros [_ _ _ (ds & -> & _)] H ?%app_nil. naive_solver. Qed.
Lemma ended_nonempty q : (0 < rc_cap q)%nat -> ended q -> rc_queue q <> [].
Proof. intros Hc [[e He]|Hl] Hq; rewrite Hq in *; [set_solver|simpl in Hl; lia]. Qed.
Lemma channel_kept s s' id r n (Q Q' : replyChannel -> Prop) :
  channel s id r n Q -> grows s s' r ->
  (forall q q', sh_replies s' !! r = Some q' -> rc_cap q' = n -> grown q q' -> Q q -> Q' q') -> channel s' id r n Q'.
Proof.
  intros (q & Hq & Hid & Hn & HQ) Hg HQ'. destruct (Hg q Hq) as (q' & Hq' & Hgr). exists q'.
  pose proof (gr_id _ _ Hgr). pose proof (gr_cap _ _ Hgr). split_and!; [done|congruence|congruence|]. eapply HQ'; eauto; congruence.
Qed.

(** What a caller keeps when others step. *)
Definition keeps_claim (s : Shared) (P : string -> nat -> Prop) (s' : Shared) (P' : string -> nat -> Prop) (id : string) (r : nat) : Prop :=
  claim s P id r -> claim s' P' id r \/ has_ended s' r.
Lemma claim_or_queue s P s' P' id r n (q q' : replyChannel) :
  (0 < n)%nat -> keeps_claim s P s' P' id r -> sh_replies s' !! r = Some q' -> rc_cap q' = n -> grown q q' ->
  claim s P id r \/ rc_queue q <> [] -> claim s' P' id r \/ rc_queue q' <> [].
Proof.
  intros Hn Hk Hq' Hc Hg [Hcl|Hne]; [|right; by eapply nonempty_grown].
  destruct (Hk Hcl) as [?|(q1 & Hq1 & He)]; [by left|]. simplify_eq. right. by apply ended_nonempty.
Qed.
Lemma claim_or_ended s P s' P' id r (q q' : replyChannel) :
  keeps_claim s P s' P' id r -> sh_replies s' !! r = Some q' -> grown q q' ->
  claim s P id r \/ ended q -> claim s' P' id r \/ ended q'.
Proof.
  intros Hk Hq' Hg [Hcl|He]; [|right; by eapply ended_grown].
  destruct (Hk Hcl) as [?|(q1 & Hq1 & He)]; [by left|]. simplify_eq. by right.
Qed.
Lemma first_wait_kept s P s' P' id r :
  grows s s' r -> keeps_claim s P s' P' id r -> first_wait s P id r -> first_wait s' P' id r.
Proof.
  intros Hg Hk H. eapply channel_kept; [exact H|done|]. intros q q' Hq' Hc Hgr [Ht Hcl].
  split; [by rewrite (gr_taken _ _ Hgr)|by eapply claim_or_ended].
Qed.
Lemma call_ok_kept s P s' P' pc :
  (forall r, call_reply_of pc = Some r -> grows s s' r) ->
  (forall id r, call_id pc = Some id -> call_reply_of pc = Some r -> keeps_claim s P s' P' id r) ->
  call_ok s P pc -> call_ok s' P' pc.
Proof.
  intros Hg Hk H. destruct pc; try done; simpl in *; (eapply channel_kept; [exact H|auto|]); intros q q' Hq' Hc Hgr Hcl;
    eapply claim_or_queue; eauto; lia.
Qed.
Lemma agent_ok_kept s P s' P' pc :
  (forall r, agent_reply_of pc = Some r -> grows s s' r) ->
  (forall id r, agent_id_of pc = Some id -> agent_reply_of pc = Some r -> keeps_claim s P s' P' id r) ->
  agent_ok s P pc -> agent_ok s' P' pc.
Proof.
  intros Hg Hk H. destruct pc as [| | | | |id g r accepted|id g r accepted d|id r [result|]|r id [result|]]; try done; simpl in *;
    try (by eapply first_wait_kept; [apply Hg|apply Hk|]);
    try (eapply channel_kept; [exact H|by apply Hg|done]);
    try (eapply channel_kept; [exact H|by apply Hg|]; intros q q' Hq' Hc Hgr (f & l & Ht & ?); exists f, l;
         by rewrite (gr_taken _ _ Hgr)).
  - destruct (String.eqb accepted ""); [by eapply first_wait_kept; [apply Hg|apply Hk|]|].
    eapply channel_kept; [exact H|by apply Hg|]. intros q q' Hq' Hc Hgr (f & Ht & Ha & Hcl). exists f.
    rewrite (gr_taken _ _ Hgr). split_and!; [done|done|].
    apply (claim_or_queue s P s' P' id r agentResponseQueueSize q); auto. unfold agentResponseQueueSize. lia.
  - destruct (String.eqb accepted ""); (eapply channel_kept; [exact H|by apply Hg|]).
    + intros q q' Hq' Hc Hgr (Ht & Hcl). rewrite (gr_taken _ _ Hgr). split; [done|].
      destruct Hcl as [Hcl|[Hne|He]]; [|right; left; by eapply nonempty_grown|by right; right].
      destruct (claim_or_queue s P s' P' id r agentResponseQueueSize q q') as [?|?]; auto. unfold agentResponseQueueSize. lia.
    + intros q q' Hq' Hc Hgr (f & Ht & Ha). exists f. by rewrite (gr_taken _ _ Hgr).
Qed.
Lemma thread_ok_kept s P s' P' t :
  (forall r, thread_reply t = Some r -> grows s s' r) ->
  (forall id r, thread_id t = Some id -> thread_reply t = Some r -> keeps_claim s P s' P' id r) ->
  thread_ok s P t -> thread_ok s' P' t.
Proof.
  destruct t as [| | | |pc|pc|[]|]; try done; simpl; [apply call_ok_kept|apply agent_ok_kept|apply call_ok_kept].
Qed.

(** * A step, seen by the others *)

(** A goroutine that holds the identity [i] and the channel [c] and is to tell [told]
    steps from [s] to [s'] and holds [i'], [c'] and [told']. *)
Record moves (s : Shared) (i : option string) (c : option nat) (told : gmap string nat)
    (s' : Shared) (i' : option string) (c' : option nat) (told' : gmap string nat) : Prop := {
  mv_seq : gc_sequence (sh_client s) <= gc_sequence (sh_client s');
  mv_id id : i' = Some id -> i = Some id \/
    gc_sequence (sh_client s) < gc_sequence (sh_client s') /\ (0 <= gc_sequence (sh_client s) -> id_seq id (gc_sequence (sh_client s')));
  mv_reply r : c' = Some r -> c = Some r \/ sh_replies s !! r = None /\ is_Some (sh_replies s' !! r);
  mv_grows r : c <> Some r -> grows s s' r;
  mv_dom r : is_Some (sh_replies s !! r) -> is_Some (sh_replies s' !! r);
  mv_claim id r : i <> Some id -> is_Some (sh_replies s !! r) ->
    gc_pending (sh_client s) !! id = Some r \/ told !! id = Some r ->
    gc_pending (sh_client s') !! id = Some r \/ told' !! id = Some r \/ has_ended s' r;
  mv_pending :
    (forall id r, gc_pending (sh_client s) !! id = Some r -> exists q, sh_replies s !! r = Some q /\ rc_id q = id) ->
    (forall id r, gc_pending (sh_client s') !! id = Some r -> exists q, sh_replies s' !! r = Some q /\ rc_id q = id);
  mv_frames :
    (forall id r, gc_pending (sh_client s) !! id = Some r -> exists q, sh_replies s !! r = Some q /\ rc_id q = id) ->
    (forall r q, sh_replies s !! r = Some q -> (0 < rc_cap q)%nat /\ Forall (correlated (rc_id q)) (rc_queue q ++ rc_taken q)) ->
    (forall r q, sh_replies s' !! r = Some q -> (0 < rc_cap q)%nat /\ Forall (correlated (rc_id q)) (rc_queue q ++ rc_taken q))
}.

Lemma promised_cons t threads id r : promised (t :: threads) id r <-> tells t !! id = Some r \/ promised threads id r.
Proof. unfold promised. setoid_rewrite elem_of_cons. naive_solver. Qed.
Lemma callers_perm s l l' : l ≡ₚ l' -> callers s l -> callers s l'.
Proof.
  intros Hp []. assert (Ht : forall id r, promised l id r <-> promised l' id r).
  { intros id r. unfold promised. by setoid_rewrite Hp. }
  split; try done; try (by rewrite <- Hp). rewrite Forall_forall in cl_threads0 |- *. intros t Hin. rewrite <- Hp in Hin.
  eapply thread_ok_kept; [..|by apply cl_threads0]; [intros; by apply grows_refl|]. intros id r _ _ [?|?]; left; [by left|right]. by apply Ht.
Qed.

(** Who waits for a response has no one to tell. *)
Lemma teller_no_id t id : thread_id t = Some id -> tells t = ∅.
Proof. by destruct t as [| | | |pc|pc|[]|]. Qed.
Lemma callers_moves s t s' t' rest :
  callers s (t :: rest) ->
  moves s (thread_id t) (thread_reply t) (tells t) s' (thread_id t') (thread_reply t') (tells t') ->
  (forall P, thread_ok s P t -> thread_ok s' P t') ->
  callers s' (t' :: rest).
Proof.
  intros [Hseq Hids Hidseq Hreps Hknown Hok Hpend Hframes] Hmv Hmine.
  assert (Hothers : forall id, id ∈ omap thread_id rest -> thread_id t <> Some id).
  { intros id Hin He. simpl in Hids. rewrite He in Hids. by apply NoDup_cons in Hids as [? _]. }
  assert (Hreplies : forall r, r ∈ omap thread_reply rest -> thread_reply t <> Some r).
  { intros r Hin He. simpl in Hreps. rewrite He in Hreps. by apply NoDup_cons in Hreps as [? _]. }
  assert (Hrest_ids : NoDup (omap thread_id rest)).
  { simpl in Hids. destruct (thread_id t); [by apply NoDup_cons in Hids as [_ ?]|done]. }
  assert (Hrest_reps : NoDup (omap thread_reply rest)).
  { simpl in Hreps. destruct (thread_reply t); [by apply NoDup_cons in Hreps as [_ ?]|done]. }
  assert (Hrest_seq : Forall (fun id => exists n, n <= gc_sequence (sh_client s) /\ id_seq id n) (omap thread_id rest)).
  { simpl in Hidseq. destruct (thread_id t); [by inversion Hidseq|done]. }
  assert (Hrest_known : Forall (fun r => is_Some (sh_replies s !! r)) (omap thread_reply rest)).
  { simpl in Hknown. destruct (thread_reply t); [by inversion Hknown|done]. }
  pose proof (mv_seq _ _ _ _ _ _ _ _ Hmv) as Hle.
  split.
  - lia.
  - simpl. destruct (thread_id t') as [id|] eqn:Hid; [|done]. apply NoDup_cons. split; [|done]. intros Hin.
    destruct (mv_id _ _ _ _ _ _ _ _ Hmv id eq_refl) as [He|[Hlt Hs]]; [by apply (Hothers id)|].
    rewrite Forall_forall in Hrest_seq. destruct (Hrest_seq id Hin) as (n & Hn & Hidn).
    pose proof (id_seq_inj _ _ _ Hidn (Hs Hseq)). lia.
  - assert (Hr : Forall (fun id => exists n, n <= gc_sequence (sh_client s') /\ id_seq id n) (omap thread_id rest)).
    { eapply Forall_impl; [exact Hrest_seq|]. intros id (n & ? & ?). exists n. split; [lia|done]. }
    simpl. destruct (thread_id t') as [id|] eqn:Hid; [|done]. constructor; [|done].
    destruct (mv_id _ _ _ _ _ _ _ _ Hmv id eq_refl) as [He|[Hlt Hs]]; [|eexists; split; [reflexivity|auto]].
    simpl in Hidseq. rewrite He in Hidseq. inversion Hidseq as [|? ? (n & ? & ?) _]. exists n. split; [lia|done].
  - simpl. destruct (thread_reply t') as [r|] eqn:Hr; [|done]. apply NoDup_cons. split; [|done]. intros Hin.
    destruct (mv_reply _ _ _ _ _ _ _ _ Hmv r eq_refl) as [He|[Hn _]]; [by apply (Hreplies r)|].
    rewrite Forall_forall in Hrest_known. destruct (Hrest_known r Hin) as [? ?]. congruence.
  - assert (Hr : Forall (fun r => is_Some (sh_replies s' !! r)) (omap thread_reply rest)).
    { eapply Forall_impl; [exact Hrest_known|]. intros r. apply (mv_dom _ _ _ _ _ _ _ _ Hmv). }
    simpl. destruct (thread_reply t') as [r|] eqn:Hr'; [|done]. constructor; [|done].
    destruct (mv_reply _ _ _ _ _ _ _ _ Hmv r eq_refl) as [He|[_ ?]]; [|done].
    simpl in Hknown. rewrite He in Hknown. inversion Hknown. by apply (mv_dom _ _ _ _ _ _ _ _ Hmv).
  - apply Forall_cons in Hok as [Hokt Hok]. constructor.
    + assert (thread_ok s (promised rest) t) as Hokt'%Hmine.
      { eapply thread_ok_kept; [..|exact Hokt]; [intros; by apply grows_refl|]. intros id r Hid _ [?|Hp]; left; [by left|].
        apply promised_cons in Hp as [Ht|?]; [|by right]. by rewrite (teller_no_id _ _ Hid) in Ht. }
      eapply thread_ok_kept; [..|exact Hokt']; [intros; by apply grows_refl|]. intros id r _ _ [?|?]; left; [by left|].
      right. apply promised_cons. by right.
    + rewrite Forall_forall in Hok |- *. intros t0 Hin. eapply thread_ok_kept; [| |by apply Hok].
      * intros r Hr. apply (mv_grows _ _ _ _ _ _ _ _ Hmv). apply Hreplies, list_elem_of_omap. eauto.
      * intros id r Hid Hr Hcl.
        assert (Hne : thread_id t <> Some id) by (apply Hothers, list_elem_of_omap; eauto).
        assert (Hk : is_Some (sh_replies s !! r)).
        { rewrite Forall_forall in Hrest_known. apply Hrest_known, list_elem_of_omap. eauto. }
        assert (Hgoes : gc_pending (sh_client s) !! id = Some r \/ tells t !! id = Some r ->
                        claim s' (promised (t' :: rest)) id r \/ has_ended s' r).
        { intros Hc. destruct (mv_claim _ _ _ _ _ _ _ _ Hmv id r Hne Hk Hc) as [?|[?|?]]; [left; by left| |by right].
          left; right. apply promised_cons. by left. }
        destruct Hcl as [Hp|[Hp|Hp]%promised_cons]; [apply Hgoes; by left|apply Hgoes; by right|].
        left; right. apply promised_cons. by right.
  - by apply (mv_pending _ _ _ _ _ _ _ _ Hmv).
  - by apply (mv_frames _ _ _ _ _ _ _ _ Hmv).
Qed.

(** * The steps *)

Definition same_callers (s s' : Shared) : Prop :=
  sh_replies s' = sh_replies s /\ gc_pending (sh_client s') = gc_pending (sh_client s) /\
  gc_sequence (sh_client s') = gc_sequence (sh_client s).
Lemma same_callers_refl s : same_callers s s.
Proof. done. Qed.
Lemma moves_same s i c told s' i' c' :
  same_callers s s' -> (i' = i \/ i' = None) -> (c' = c \/ c' = None) -> moves s i c told s' i' c' told.
Proof.
  intros (Hr & Hp & Hs) Hi Hc. split; rewrite ?Hr, ?Hp, ?Hs; try done.
  - intros id ->. left. naive_solver.
  - intros r ->. left. naive_solver.
  - intros r _. apply grows_refl. by rewrite Hr.
  - naive_solver.
Qed.
Lemma moves_nextID method now s id s' :
  0 <= now -> nextID method now s = (id, s') -> moves s None None ∅ s' (Some id) None ∅.
Proof.
  unfold nextID. intros Hnow [= <- <-]. split; simpl; try done; try lia.
  - intros id [= <-]. right. split; [lia|]. intros Hs. exists method, now. split_and!; [done|lia|done].
  - intros r _. by apply grows_refl.
  - naive_solver.
Qed.
Lemma moves_remove s id c c' :
  (c' = c \/ c' = None) -> moves s (Some id) c ∅ (removePending id s) None c' ∅.
Proof.
  intros Hc. split; simpl; try done.
  - intros r ->. left. naive_solver.
  - intros r _. by apply grows_refl.
  - intros id' r Hne _ [Hp|?]; [|naive_solver]. left. rewrite lookup_delete_ne by congruence. done.
  - intros H id' r [_ Hp]%lookup_delete_Some. by apply H.
Qed.
Lemma fresh_reply s : sh_replies s !! fresh (dom (sh_replies s)) = None.
Proof. apply not_elem_of_dom, is_fresh. Qed.
Lemma moves_insert s id n r s' c' :
  (0 < n)%nat -> insert_pending id n s = (r, s') -> (c' = Some r \/ c' = None) ->
  moves s (Some id) None ∅ s' (Some id) c' ∅.
Proof.
  intros Hn [= Hr <-] Hc. pose proof (fresh_reply s) as Hf. rewrite Hr in Hf. split; simpl; try done; rewrite ?Hr.
  - by left.
  - intros r' ->. destruct Hc as [[= ->]|]; [|done]. right. split; [done|]. rewrite lookup_insert_eq. eauto.
  - intros r' _. apply grows_refl_known. intros Hk. simpl. rewrite lookup_insert_ne; [done|]. intros ->. by destruct Hk; congruence.
  - intros r' Hr'. destruct (decide (r' = r)) as [->|]; [rewrite lookup_insert_eq; eauto|by rewrite lookup_insert_ne].
  - intros id' r' Hne _ [Hp|?]; [|naive_solver]. left. rewrite lookup_insert_ne by congruence. done.
  - intros H id' r' Hp. destruct (decide (id' = id)) as [->|Hne].
    + rewrite lookup_insert_eq in Hp. injection Hp as <-. eexists. by rewrite lookup_insert_eq.
    + rewrite lookup_insert_ne in Hp by done. destruct (H _ _ Hp) as (q & Hq & ?). exists q.
      rewrite lookup_insert_ne by congruence. done.
  - intros _ H r' q Hq. destruct (decide (r' = r)) as [->|Hne].
    + rewrite lookup_insert_eq in Hq. injection Hq as <-. split; [done|constructor].
    + rewrite lookup_insert_ne in Hq by done. by apply H in Hq.
Qed.
Lemma take_reply_inv r s d s' :
  take_reply r s = Some (d, s') -> exists id cap q taken,
    sh_replies s !! r = Some {| rc_id := id; rc_cap := cap; rc_queue := d :: q; rc_taken := taken |} /\
    s' = set_replies (<[r := {| rc_id := id; rc_cap := cap; rc_queue := q; rc_taken := taken ++ [d] |}]> (sh_replies s)) s.
Proof.
  unfold take_reply. destruct (sh_replies s !! r) as [[id cap [|d0 q] taken]|]; try done. intros [= <- <-]. eauto 10.
Qed.
Lemma moves_take s i r d s' i' c' :
  take_reply r s = Some (d, s') -> (i' = i \/ i' = None) -> (c' = Some r \/ c' = None) ->
  moves s i (Some r) ∅ s' i' c' ∅.
Proof.
  intros (id & cap & q & taken & Hr & ->)%take_reply_inv Hi Hc. split; simpl; try done.
  - intros id' ->. left. naive_solver.
  - intros r' ->. left. naive_solver.
  - intros r' Hne. apply grows_refl. simpl. by rewrite lookup_insert_ne by congruence.
  - intros r' Hr'. destruct (decide (r' = r)) as [->|]; [rewrite lookup_insert_eq; eauto|by rewrite lookup_insert_ne].
  - naive_solver.
  - intros H id' r' Hp. destruct (H _ _ Hp) as (q' & Hq' & Hid). destruct (decide (r' = r)) as [->|Hne].
    + eexists. rewrite lookup_insert_eq. split; [done|]. rewrite Hr in Hq'. by injection Hq' as <-.
    + exists q'. by rewrite lookup_insert_ne.
  - intros _ H r' q' Hq'. destruct (decide (r' = r)) as [->|Hne].
    + rewrite lookup_insert_eq in Hq'. injection Hq' as <-. destruct (H _ _ Hr) as [Hcap Hf]. split; [done|]. simpl in *.
      inversion Hf as [|? ? Hd Hf']; subst. rewrite app_assoc. apply Forall_app. by split; [|constructor].
    + rewrite lookup_insert_ne in Hq' by done. by apply H in Hq'.
Qed.

(** A delivery, to a caller that may have it. *)
Definition may_deliver (s : Shared) (r : nat) (d : responseDelivery) : Prop :=
  match d with inl f => exists q, sh_replies s !! r = Some q /\ correlated (rc_id q) d | inr _ => True end.
Lemma buffered_inv r d s s' :
  buffered r d s = Some s' -> exists q, sh_replies s !! r = Some q /\ (length (rc_queue q) < rc_cap q)%nat /\
    s' = set_replies (<[r := {| rc_id := rc_id q; rc_cap := rc_cap q; rc_queue := rc_queue q ++ [d]; rc_taken := rc_taken q |}]> (sh_replies s)) s.
Proof.
  unfold buffered. destruct (sh_replies s !! r) as [q|]; [|done]. destruct (decide _); [|done]. intros [= <-]. eauto.
Qed.
(** What a delivery does, whatever goroutine makes it; [told'] is what it tells next. *)
Lemma moves_deliver s r d s' told told' :
  buffered r d s = Some s' -> may_deliver s r d ->
  (forall id r', is_Some (sh_replies s !! r') -> told !! id = Some r' -> told' !! id = Some r' \/ has_ended s' r') ->
  moves s None None told s' None None told'.
Proof.
  intros (q & Hq & Hlen & ->)%buffered_inv Hd Htold. set (s' := set_replies _ _) in *. split; simpl; try done.
  - intros r' _ q' Hq'. destruct (decide (r' = r)) as [->|Hne].
    + eexists. split; [apply lookup_insert_eq|]. simplify_eq. split; try done. simpl. exists [d]. split; [done|right].
      rewrite length_app. simpl. lia.
    + exists q'. simpl. rewrite lookup_insert_ne by done. split; [done|apply grown_refl].
  - intros r' Hr'. destruct (decide (r' = r)) as [->|]; [rewrite lookup_insert_eq; eauto|by rewrite lookup_insert_ne].
  - intros id r' _ Hk [?|Ht]; [by left|]. by right; apply Htold.
  - intros H id' r' Hp. destruct (H _ _ Hp) as (q' & Hq' & Hid). destruct (decide (r' = r)) as [->|Hne].
    + eexists. rewrite lookup_insert_eq. split; [done|]. by simplify_eq.
    + exists q'. by rewrite lookup_insert_ne.
  - intros _ H r' q' Hq'. destruct (decide (r' = r)) as [->|Hne].
    + rewrite lookup_insert_eq in Hq'. injection Hq' as <-. destruct (H _ _ Hq) as [Hcap Hf]. split; [done|]. simpl in *.
      apply Forall_app in Hf as [Hf1 Hf2]. repeat apply Forall_app_2; [done| |done]. constructor; [|done].
      destruct d as [f|e]; [|done]. destruct Hd as (q0 & Hq0 & Hc). by simplify_eq.
    + rewrite lookup_insert_ne in Hq' by done. by apply H in Hq'.
Qed.
(** The end of a connection is told to one caller. *)
Lemma moves_notify s t pending id r :
  pending !! id = Some r -> moves s None None pending (notify r (tm_deliveryErr t) s) None None (delete id pending).
Proof.
  intros Hid. unfold notify. destruct (buffered r _ s) as [s'|] eqn:Hb; cbn [default from_option].
  - eapply moves_deliver; [exact Hb|done|]. intros id' r' _ Hp. destruct (decide (id' = id)) as [->|]; [right|left; by rewrite lookup_delete_ne].
    simplify_eq. apply buffered_inv in Hb as (q' & Hq' & _ & ->). eexists. split; [apply lookup_insert_eq|].
    left. exists (tm_deliveryErr t). simpl. set_solver.
  - destruct (moves_same s None None pending s None None (same_callers_refl s)) as [? ? ? ? ? Hcl ? ?]; [by left..|].
    split; try done. intros id' r' Hne [q Hq] [?|Hp]; [by left|]. right.
    destruct (decide (id' = id)) as [->|]; [|left; by rewrite lookup_delete_ne]. right. simplify_eq. exists q. split; [done|].
    unfold buffered in Hb. rewrite Hq in Hb. destruct (decide _) as [|Hfull]; [done|]. right. lia.
Qed.
(** A termination takes over the callers of its connection. *)
Lemma moves_terminate s s1 expected e fatal :
  same_callers s s1 ->
  moves s None None ∅ (terminateConnectionLocked expected e fatal s1).2 None None
    (match (terminateConnectionLocked expected e fatal s1).1 with Some t => tm_pending t | None => ∅ end).
Proof.
  intros (Hr & Hp & Hs). unfold terminateConnectionLocked. destruct (match expected with Some _ => _ | None => _ end).
  { apply moves_same; [done|by left..]. }
  assert (Hc : forall g, sh_replies (close_failed g s1) = sh_replies s1) by (intros g; unfold close_failed; by destruct (failed_closed g s1)).
  destruct (gc_readerErr (sh_client s1)) as [e0|]; (split; simpl; rewrite ?Hc, ?Hr, ?Hp, ?Hs; try done;
    [intros r _; apply grows_refl; simpl; by rewrite ?Hc, ?Hr|naive_solver]).
Qed.

Section Machines.
Variable o : gatewayOptions.
Variable json_Unmarshal : string -> option json.
Variable json_Marshal : json -> bytes + err.
Definition held_if {A B C} (f : A -> option C) (r : A + B) : option C := match r with inl a => f a | inr _ => None end.

Lemma recv_same s pc s' r : recv_step s pc s' r -> same_callers s s'.
Proof.
  assert (Htake : forall g d s1, take_event g s = Some (d, s1) -> same_callers s s1).
  { unfold take_event. intros g d s1. destruct (sh_connections s !! g) as [[[|? ?] ? ? ?]|]; try done. by intros [= <- <-]. }
  assert (Hfin : forall d g x s1, finishEventDelivery d g s = (x, s1) -> same_callers s s1).
  { unfold finishEventDelivery. intros d g x s1 Hx. assert (s1 = releaseEventLocked d s) as ->.
    { destruct (_ || _); [by simplify_eq|]. destruct (gc_readerFatal _); by simplify_eq. }
    clear Hx. unfold releaseEventLocked. by destruct (negb _). }
  intros Hstep. inversion Hstep; subst; try done; eauto.
  all: unfold recv_poll in *; destruct (take_event _ s) as [[d s1]|] eqn:Ht; simplify_eq; eauto; try done.
Qed.
Lemma call_moves s pc s' r :
  call_step json_Marshal s pc s' r ->
  moves s (call_id pc) (call_reply_of pc) ∅ s' (held_if call_id r) (held_if call_reply_of r) ∅.
Proof.
  intros Hstep. inversion Hstep as [m p now id s0 Hn Hid|id m p s0 r0 Hr|id tr g r0 content e| |id g r0 d s0 Ht| | |id g r0 x|]; subst; simpl.
  - by eapply moves_nextID.
  - unfold call_register, register_call in Hr.
    destruct (gc_readerFatal _); [simplify_eq; apply moves_same; [done|by right|by left]|].
    destruct (gc_transport (sh_client s)); [|simplify_eq; apply moves_same; [done|by right|by left]].
    destruct (insert_pending id 1 s) as [r1 s1] eqn:Hi. destruct (json_Marshal _); simplify_eq; simpl;
      (eapply moves_insert; [|exact Hi|]; [lia|auto]).
  - destruct e; apply moves_same; solve [done|left; done|right; done].
  - apply moves_remove. by left.
  - eapply moves_take; [exact Ht|by left|by right].
  - apply moves_remove. by left.
  - apply moves_same; [done|by left..].
  - apply moves_same; [done|by left|by right].
  - apply moves_remove. by left.
Qed.
Lemma agent_moves s pc s' r :
  agent_step json_Marshal s pc s' r ->
  moves s (agent_id_of pc) (agent_reply_of pc) ∅ s' (held_if agent_id_of r) (held_if agent_reply_of r) ∅.
Proof.
  intros Hstep. inversion Hstep as [q r0 Hr|q tr g now id s0 Hn Hid|id q tr g s0 r0 Hr|id tr g r0 content e| |id g r0 acc d s0 Ht| |
    id g r0 acc d|]; subst; simpl.
  - unfold agent_top. destruct (gc_readerFatal _); [apply moves_same; [done|by left..]|].
    destruct (gc_connected _) as [summary|]; [|apply moves_same; [done|by left..]].
    destruct (gc_transport _); [|apply moves_same; [done|by left..]].
    destruct (HasScope _ _); apply moves_same; (done || by left).
  - by eapply moves_nextID.
  - unfold agent_register, register_agent in Hr.
    destruct (_ || _); [simplify_eq; apply moves_same; [done|by right|by left]|].
    destruct (insert_pending id agentResponseQueueSize s) as [r1 s1] eqn:Hi. destruct (json_Marshal _); simplify_eq; simpl;
      (eapply moves_insert; [|exact Hi|]; [unfold agentResponseQueueSize; lia|auto]).
  - destruct e; apply moves_same; solve [done|left; done|right; done].
  - apply moves_same; [done|by left..].
  - eapply moves_take; [exact Ht|by left..].
  - apply moves_same; [done|by left..].
  - unfold agent_replied. destruct (agent_reply _ _ _ _); apply moves_same; (done || by left).
  - apply moves_remove. by left.
Qed.
Definition told_by {A B} (f : A -> gmap string nat) (r : A + B) : gmap string nat := match r with inl a => f a | inr _ => ∅ end.
Lemma finish_moves s f s' r :
  finish_step s f s' r -> moves s None None (finish_tells f) s' None None (told_by finish_tells r).
Proof.
  intros Hstep. inversion Hstep; subst; simpl.
  - apply moves_same; [|by left..]. unfold finish_cancel, cancel_reader. by destruct (tm_cancel t).
  - by apply moves_notify.
  - apply moves_same; [done|by left..].
  - apply moves_same; [done|by left..].
Qed.
Lemma fails_moves s s1 expected e fatal r s' tr g :
  same_callers s s1 -> fails (terminateConnectionLocked expected e fatal s1) = (r, s') ->
  moves s None None ∅ s' None None (tells (reader_goes_on tr g r)).
Proof.
  intros Hs [= <- <-]. pose proof (moves_terminate s s1 expected e fatal Hs) as H.
  by destruct (terminateConnectionLocked expected e fatal s1).1.
Qed.
Lemma reader_moves content s s' r tr g :
  (forall id r, gc_pending (sh_client s) !! id = Some r -> exists q, sh_replies s !! r = Some q /\ rc_id q = id) ->
  read_message json_Unmarshal o content tr g s = (r, s') ->
  moves s None None ∅ s' None None (tells (reader_goes_on tr g r)).
Proof.
  intros Hpend. unfold read_message. destruct (_ <? _); [by apply fails_moves|].
  destruct (Unmarshal_Frame _ _) as [frame|]; [|by apply fails_moves].
  destruct (String.eqb_spec (frame_String frame "type") "res") as [Htype|].
  - unfold read_response. destruct (negb _); [intros [= <- <-]; apply moves_same; [done|by left..]|].
    destruct (String.eqb _ ""); [intros [= <- <-]; apply moves_same; [done|by left..]|].
    destruct (gc_pending (sh_client s) !! frame_String frame "id") as [r0|] eqn:Hp; [|intros [= <- <-]; apply moves_same; [done|by left..]].
    destruct (buffered r0 (inl frame) s) as [s1|] eqn:Hb; [|by apply fails_moves]. intros [= <- <-].
    eapply moves_deliver; [exact Hb| |done]. destruct (Hpend _ _ Hp) as (q & Hq & Hid). exists q. by rewrite Hid.
  - unfold read_event. destruct (negb (current_reader _ _ _)); [intros [= <- <-]; apply moves_same; [done|by left..]|].
    match goal with |- context [if ?discard then (ReaderContinues, s) else _] => destruct discard end;
      [intros [= <- <-]; apply moves_same; [done|by left..]|].
    destruct (_ || _); [by apply fails_moves|]. destruct (_ <=? _); [by apply fails_moves|].
    intros [= <- <-]. apply moves_same; [done|by left..].
Qed.
Lemma open_same transport s : same_callers s (open_connection transport s).2.
Proof. done. Qed.
Lemma close_moves s t s' : client_Close s = (Some t, s') -> moves s None None ∅ s' None None (tm_pending t).
Proof.
  intros Hc. pose proof (moves_terminate s s None (ENew "gateway connection closed") true (same_callers_refl s)) as H.
  unfold client_Close in Hc. by rewrite Hc in H.
Qed.
Lemma connect_moves s pc s' r new :
  connect_step o json_Marshal s pc s' r new ->
  moves s (thread_id (Connecting pc)) (thread_reply (Connecting pc)) (tells (Connecting pc))
    s' (held_if (fun pc => thread_id (Connecting pc)) r) (held_if (fun pc => thread_reply (Connecting pc)) r)
    (told_by (fun pc => tells (Connecting pc)) r).
Proof.
  intros Hstep. inversion Hstep as [n t s0 Hc|f n s0 f' Hf|f n s0 e Hf| | |tr g s0 Ho|pc0 s0 pc' Hr|pc0 s0 first Hr| | | |
    pc0 s0 pc' Hr|pc0 s0 response Hr|]; subst; simpl; try (apply moves_same; [done|by left..]).
  - by apply close_moves.
  - by apply finish_moves in Hf.
  - apply finish_moves in Hf. by destruct n.
  - replace s' with (open_connection tr s).2 by (by rewrite Ho). apply moves_same; [apply open_same|by left..].
  - apply moves_same; [by eapply recv_same|by left..].
  - apply recv_same in Hr. unfold connect_first. destruct first; [|apply moves_same; [done|by left..]].
    destruct (_ || _); [apply moves_same; [done|by left..]|]. destruct (String.eqb _ ""); apply moves_same; (done || by left).
  - by apply call_moves in Hr.
  - apply call_moves in Hr. unfold connect_answered. destruct response; [|done]. by destruct (connect_summary _ _).
Qed.
Lemma thread_moves s t s' t' new :
  (forall id r, gc_pending (sh_client s) !! id = Some r -> exists q, sh_replies s !! r = Some q /\ rc_id q = id) ->
  thread_step o json_Unmarshal json_Marshal s t s' t' new ->
  moves s (thread_id t) (thread_reply t) (tells t) s' (thread_id t') (thread_reply t') (tells t').
Proof.
  intros Hpend Hstep. inversion Hstep as [tr g content r s0 Hr|tr g e r s0 Hr|tm s0 Hc|f s0 r Hr|pc s0 r Hr|pc s0 r Hr|pc s0 r Hr|
    pc s0 r new0 Hr]; subst.
  - apply reader_moves in Hr; [|done]. by destruct r.
  - eapply fails_moves in Hr; [|apply same_callers_refl]. by destruct r.
  - by apply close_moves.
  - apply finish_moves in Hr. by destruct r.
  - apply recv_same in Hr. destruct r; apply moves_same; (done || by left).
  - apply call_moves in Hr. by destruct r.
  - apply agent_moves in Hr. by destruct r.
  - apply connect_moves in Hr. by destruct r.
Qed.

(** What a goroutine's own step leaves it owed. *)
Lemma insert_channel id n s r s' (Q : replyChannel -> Prop) :
  insert_pending id n s = (r, s') -> Q {| rc_id := id; rc_cap := n; rc_queue := []; rc_taken := [] |} ->
  channel s' id r n Q /\ (forall P, claim s' P id r).
Proof.
  intros [= Hr <-] HQ. split; [|left; simpl; by rewrite Hr, lookup_insert_eq].
  eexists. simpl. rewrite Hr, lookup_insert_eq. by split_and!.
Qed.
Lemma channel_take s r d s' id n (Q Q' : replyChannel -> Prop) :
  take_reply r s = Some (d, s') -> channel s id r n Q ->
  (forall q taken, Q {| rc_id := id; rc_cap := n; rc_queue := d :: q; rc_taken := taken |} ->
                   Q' {| rc_id := id; rc_cap := n; rc_queue := q; rc_taken := taken ++ [d] |}) ->
  channel s' id r n Q' /\ gc_pending (sh_client s') = gc_pending (sh_client s).
Proof.
  intros (id' & cap & q & taken & Hr & ->)%take_reply_inv (q0 & Hq0 & Hid & Hcap & HQ) HQ'. split; [|done].
  rewrite Hr in Hq0. injection Hq0 as <-. simpl in *. subst. eexists. simpl. rewrite lookup_insert_eq.
  split_and!; [done..|]. by apply HQ'.
Qed.
Lemma call_local s P pc s' pc' :
  call_step json_Marshal s pc s' (inl pc') -> call_ok s P pc -> call_ok s' P pc'.
Proof.
  intros Hstep H. inversion Hstep as [m p now id s0 Hn Hid|id m p s0 r0 Hr|id tr g r0 content e| |id g r0 d s0 Ht| | |id g r0 x|];
    subst; try done.
  - unfold call_register, register_call in Hr. destruct (gc_readerFatal _); [by simplify_eq|].
    destruct (gc_transport (sh_client s)); [|by simplify_eq]. destruct (insert_pending id 1 s) as [r1 s1] eqn:Hi.
    destruct (json_Marshal _); simplify_eq; [|done]. simpl.
    destruct (insert_channel _ _ _ _ _ (fun _ => True) Hi) as [(q & ? & ? & ? & _) Hcl]; [done|]. exists q. eauto.
  - destruct e; [done|exact H].
Qed.
Lemma agent_response_spec id accepted response r :
  agent_response id accepted response = r ->
  match r with
  | inl runID => accepted = ""%string /\ acknowledges response runID
  | inr (inl result) => accepted = ar_RunID result /\ accepted <> ""%string /\ terminates response result
  | inr (inr _) => True
  end.
Proof.
  unfold agent_response. destruct (_ || _); [by intros <-|]. destruct (frame_Bool response "ok") eqn:Hok; [|by intros <-]. cbn [negb].
  set (payload := frame_Map response "payload"). destruct (String.eqb_spec accepted "") as [->|Hne].
  - destruct (String.eqb_spec (frame_String payload "status") "accepted") as [Hs|]; [|by intros <-]. cbn [negb orb].
    destruct (String.eqb_spec (TrimSpace (frame_String payload "runId")) "") as [|Hr]; [by intros <-|]. intros <-. split; [done|].
    split_and!; [done|done|done|]. by intros Hr'; rewrite Hr' in Hr.
  - destruct (_ || _) eqn:Hrun; [by intros <-|]. apply orb_false_iff in Hrun as [_ Hrun%negb_false_iff].
    apply String.eqb_eq in Hrun. destruct (parseAgentTerminal payload) as [text|e] eqn:Ht; intros <-; [|done].
    split_and!; [by simpl|done|]. by split_and!.
Qed.
Lemma agent_replied_ok s P id g r accepted d :
  agent_ok s P (AgentReplied id g r accepted d) -> agent_ok s P (agent_replied id g r accepted d s).
Proof.
  intros H. unfold agent_replied, agent_reply.
  assert (Hchan : forall e, agent_ok s P (AgentRemove id r (inr e))).
  { intros e. simpl in *. destruct (String.eqb accepted ""); destruct H as (q & ? & ? & ? & _); exists q; by split_and!. }
  destruct (connectionFatal g s) as [e|]; [apply Hchan|]. destruct d as [response|e]; [|apply Hchan].
  destruct (agent_response id accepted response) as [runID|[result|e]] eqn:Hr; [| |apply Hchan];
    apply agent_response_spec in Hr.
  - destruct Hr as [-> Hack]. simpl in *. destruct (String.eqb_spec runID "") as [He|Hne]; [by destruct Hack as (_ & _ & _ & ?)|].
    destruct H as (q & Hq & Hid & Hc & Ht & Hcl). exists q. split_and!; try done. exists response. split_and!; [done|done|].
    destruct Hcl as [?|[?|[e ?]]]; by auto.
  - destruct Hr as (Hacc & Hne & Hterm). simpl in *. destruct (String.eqb_spec accepted "") as [|_]; [done|].
    destruct H as (q & Hq & Hid & Hc & f & Ht & Hack). exists q. split_and!; try done. exists f, response.
    rewrite <- Hacc. by split_and!.
Qed.
Lemma agent_local s P pc s' pc' :
  agent_step json_Marshal s pc s' (inl pc') -> agent_ok s P pc -> agent_ok s' P pc'.
Proof.
  intros Hstep H. inversion Hstep as [q r0 Hr|q tr g now id s0 Hn Hid|id q tr g s0 r0 Hr|id tr g r0 content e| |id g r0 acc d s0 Ht| |
    id g r0 acc d|]; subst; try done.
  - unfold agent_top in Hr. destruct (gc_readerFatal _); [done|].
    destruct (gc_connected _) as [summary|]; [|done]. destruct (gc_transport _); [|done].
    destruct (HasScope _ _); by simplify_eq.
  - unfold agent_register, register_agent in Hr. destruct (_ || _); [by simplify_eq|].
    destruct (insert_pending id agentResponseQueueSize s) as [r1 s1] eqn:Hi.
    destruct (insert_channel _ _ _ _ _ (fun q => rc_taken q = []) Hi) as [(q0 & ? & ? & ? & ?) Hcl]; [done|].
    destruct (json_Marshal _); simplify_eq; simpl; exists q0; split_and!; auto.
  - destruct e; simpl; [|exact H]. destruct H as (q & ? & ? & ? & _). exists q. by split_and!.
  - simpl in *. destruct (String.eqb acc "").
    + destruct (channel_take s r0 d s' id agentResponseQueueSize _
        (fun q => rc_taken q = [d] /\ (claim s P id r0 \/ rc_queue q <> [] \/ exists e, d = inr e)) Ht H) as [Hq Hp].
      { intros q taken [Htk Hcl]. simpl in *. subst taken. split; [done|]. destruct Hcl as [?|[[e He]|Hl]]; [by left| |]; simpl in *.
        - apply elem_of_cons in He as [<-|He]; [eauto|]. right; left. by intros ->; apply not_elem_of_nil in He.
        - right; left. unfold agentResponseQueueSize in Hl. destruct q; simpl in *; [lia|done]. }
      destruct Hq as (q & ? & ? & ? & ? & Hcl). exists q. unfold claim in *. by rewrite Hp.
    + destruct (channel_take s r0 d s' id agentResponseQueueSize _
        (fun q => exists f, rc_taken q = [inl f; d] /\ acknowledges f acc) Ht H) as [Hq Hp]; [|done].
      intros q taken (f & Htk & Hack & _). simpl in *. subst taken. by exists f.
  - simpl in *. destruct (String.eqb accepted ""); destruct H as (q & ? & ? & ? & _); exists q; by split_and!.
  - by apply agent_replied_ok.
Qed.
Lemma connect_local s P pc s' pc' new :
  connect_step o json_Marshal s pc s' (inl pc') new -> thread_ok s P (Connecting pc) -> thread_ok s' P (Connecting pc').
Proof.
  intros Hstep H. remember (inl pc') as r eqn:E. destruct Hstep; simplify_eq; try done.
  - by destruct next.
  - unfold connect_first in E. destruct first; simplify_eq; [|done]. destruct (_ || _); [by simplify_eq|].
    destruct (String.eqb _ _); by simplify_eq.
  - by eapply call_local.
  - unfold connect_answered in E. destruct response; [|done]. destruct (connect_summary _ _); by simplify_eq.
Qed.
Lemma thread_local s P t s' t' new :
  thread_step o json_Unmarshal json_Marshal s t s' t' new -> thread_ok s P t -> thread_ok s' P t'.
Proof.
  intros Hstep H. inversion Hstep as [tr g content r s0 Hr|tr g e r s0 Hr|tm s0 Hc|f s0 r Hr|pc s0 r Hr|pc s0 r Hr|pc s0 r Hr|
    pc s0 r new0 Hr]; subst; try done; try (by destruct r); destruct r as [pc'|e]; try done.
  - by eapply call_local.
  - by eapply agent_local.
  - by eapply connect_local.
Qed.

(** * Every reachable state *)

Lemma callers_new s threads new : Forall (fun t => thread_id t = None /\ thread_reply t = None /\ tells t = ∅ /\ forall P, thread_ok s P t) new ->
  callers s threads -> callers s (threads ++ new).
Proof.
  intros Hnew []. assert (Hid : omap thread_id new = [] /\ omap thread_reply new = []).
  { clear -Hnew. induction Hnew as [|t l (Hi & Hr & _) _ [IH1 IH2]]; [done|]. simpl. by rewrite Hi, Hr. }
  destruct Hid as [Hi Hr].
  split; rewrite ?omap_app, ?Hi, ?Hr, ?app_nil_r; try done. apply Forall_app. split.
  - eapply Forall_impl; [exact cl_threads0|]. intros t. apply thread_ok_kept; [intros; by apply grows_refl|].
    intros id r _ _ [?|(t0 & ? & ?)]; left; [by left|right]. exists t0. set_solver.
  - eapply Forall_impl; [exact Hnew|]. by intros t (_ & _ & _ & ?).
Qed.
Lemma callers_step sy sy' :
  callers sy.1 sy.2 -> gateway_step o json_Unmarshal json_Marshal sy sy' -> callers sy'.1 sy'.2.
Proof.
  intros H Hstep. inversion Hstep as [s before t after s' t' new Ht|s threads t Ht]; subst; simpl in *.
  - rewrite app_comm_cons, app_assoc. apply callers_new.
    + inversion Ht; subst; try constructor. destruct new0 as [[]|]; repeat constructor.
    + eapply callers_perm; [by apply Permutation_middle|]. eapply callers_perm in H; [|symmetry; apply Permutation_middle].
      eapply callers_moves; [exact H| |intros P; by eapply thread_local]. eapply thread_moves; [|exact Ht]. apply (cl_pending _ _ H).
  - apply callers_new; [|done]. constructor; [|constructor]. destruct Ht as [| |m p pc Hpc|q pc Hpc|]; try done.
    + unfold call_start in Hpc. destruct (String.eqb _ _); by simplify_eq.
    + unfold agent_start in Hpc. repeat destruct (String.eqb _ _) || destruct (_ || _); by simplify_eq.
Qed.
Lemma callers_reachable sy : reachable o json_Unmarshal json_Marshal sy -> callers sy.1 sy.2.
Proof.
  unfold reachable. intros H. remember (new_shared, @nil thread) as sy0 eqn:E.
  assert (callers sy0.1 sy0.2) as H0 by (subst sy0; split; simpl; try done; constructor).
  clear E. induction H as [|sy0 sy1 sy2 Hs _ IH]; [done|]. apply IH. by eapply callers_step.
Qed.
End Machines.
