(* ===== verification/GatewayTheorems.v ===== *)
(** What holds of an OpenClaw gateway client in every state its goroutines can reach. *)

From S2P Require Import Prelude Utf8 Core Config GatewayFrame Gateway GatewayRun GatewaySafety GatewayCallers.

(** * Runs *)

(** What the outside decides at a step. *)
Inductive choice :=
  | Go
  | Now (ms : Z)
  | Sent (e : error)
  | Received (content : bytes)
  | NotReceived (e : err)
  | Dialed (transport : option nat)
  | Tell (id : string)
  | Closed (e : error)
  | Expires (x : sentinel)
  | GiveUp.

Section Execution.
Variable o : gatewayOptions.
Variable json_Unmarshal : string -> option json.
Variable json_Marshal : json -> bytes + err.

Definition recv_exec (c : choice) (s : Shared) (pc : recv_pc) : option (Shared * (recv_pc + (Frame + err))) :=
  match pc with
  | RecvTop => Some (s, match recv_top s with inl pc => inl pc | inr e => inr (inr e) end)
  | RecvPoll e g => let (r, s) := recv_poll e g s in Some (s, match r with inl pc => inl pc | inr e => inr (inr e) end)
  | RecvFinish d g => let (r, s) := finishEventDelivery d g s in Some (s, match r with None => inl RecvTop | Some r => inr r end)
  | RecvWait g =>
      match c, take_event g s with
      | Expires x, _ => Some (s, inr (inr (ESentinel x)))
      | _, Some (d, s) => Some (s, inl (RecvFinish d g))
      | _, None => if failed_closed g s then Some (s, inl RecvTop) else None
      end
  end.
Definition call_exec (c : choice) (s : Shared) (pc : call_pc) : option (Shared * (call_pc + responseDelivery)) :=
  match pc, c with
  | CallID method params, Now ms =>
      if 0 <=? ms then let (id, s) := nextID method ms s in Some (s, inl (CallRegister id method params)) else None
  | CallRegister id method params, _ => let (r, s) := call_register json_Marshal id method params s in Some (s, r)
  | CallSend id transport g r content, Sent e => Some (s, inl (call_sent id g r e))
  | CallUnsent id g e, _ => Some (removePending id s, inl (CallFatal g (inr (EWrap "send gateway request" e))))
  | CallWait id g r, Expires x => Some (s, inl (CallRemove id (inr (ESentinel x))))
  | CallWait id g r, _ => match take_reply r s with Some (d, s) => Some (s, inl (CallReplied id g d)) | None => None end
  | CallReplied id g d, _ => Some (removePending id s, inl (CallFatal g d))
  | CallFatal g d, _ => Some (s, inr (call_result g d s))
  | CallRemove id d, _ => Some (removePending id s, inr d)
  | _, _ => None
  end.
Definition agent_exec (c : choice) (s : Shared) (pc : agent_pc) : option (Shared * (agent_pc + err)) :=
  match pc, c with
  | AgentTop request, _ => Some (s, agent_top request s)
  | AgentID request transport g, Now ms =>
      if 0 <=? ms then let (id, s) := nextID "agent" ms s in Some (s, inl (AgentRegister id request transport g)) else None
  | AgentRegister id request transport g, _ => let (r, s) := agent_register json_Marshal id request transport g s in Some (s, r)
  | AgentSend id transport g r content, Sent e => Some (s, inl (agent_sent id g r e))
  | AgentUnsent id g r e, _ => Some (s, inl (AgentRemove id r (agent_unsent g e s)))
  | AgentWait id g r accepted, Expires x => Some (s, inl (AgentRemove id r (inr (outcome_unknown accepted (ESentinel x)))))
  | AgentWait id g r accepted, _ =>
      match take_reply r s with Some (d, s) => Some (s, inl (AgentReplied id g r accepted d)) | None => None end
  | AgentReplied id g r accepted d, _ => Some (s, inl (agent_replied id g r accepted d s))
  | AgentRemove id r result, _ => Some (removePending id s, inl (AgentDone r id result))
  | _, _ => None
  end.
Definition finish_exec (c : choice) (s : Shared) (f : finish_pc) : option (Shared * (finish_pc + error)) :=
  match f, c with
  | FinishCancel t, _ => Some (finish_cancel t s, inl (FinishNotify t (tm_pending t)))
  | FinishNotify t pending, Tell id =>
      match pending !! id with
      | Some r => Some (notify r (tm_deliveryErr t) s, inl (FinishNotify t (delete id pending)))
      | None => None
      end
  | FinishNotify t pending, _ => if decide (pending = ∅) then Some (s, inl (FinishClose t)) else None
  | FinishClose t, Closed e => match tm_transport t, e with None, Some _ => None | _, _ => Some (s, inr e) end
  | _, _ => None
  end.
Definition connect_exec (c : choice) (s : Shared) (pc : connect_pc) :
    option (Shared * (connect_pc + (ConnectSummary + err)) * option (nat * nat)) :=
  match pc with
  | ConnectTop next =>
      match client_Close s with (Some t, s) => Some (s, inl (ConnectFinish (FinishCancel t) next), None) | _ => None end
  | ConnectFinish f next =>
      match finish_exec c s f with
      | Some (s, inl f) => Some (s, inl (ConnectFinish f next), None)
      | Some (s, inr _) => Some (s, inl (after next), None)
      | None => None
      end
  | ConnectDial =>
      match c with
      | Dialed (Some transport) => Some (s, inl (ConnectOpen transport), None)
      | NotReceived e => Some (s, inl (ConnectFailed e), None)
      | _ => None
      end
  | ConnectOpen transport => let (g, s) := open_connection transport s in Some (s, inl (ConnectRecv RecvTop), Some (transport, g))
  | ConnectRecv pc =>
      match recv_exec c s pc with
      | Some (s, inl pc) => Some (s, inl (ConnectRecv pc), None)
      | Some (s, inr first) => Some (s, connect_first o first, None)
      | None => None
      end
  | ConnectFailed e =>
      match c with
      | GiveUp => Some (s, inr (inr (connect_failed e)), None)
      | Expires x => Some (s, inr (inr (connect_failed (ESentinel x))), None)
      | _ => Some (s, inl (ConnectTop ThenDial), None)
      end
  | ConnectCall pc =>
      match call_exec c s pc with
      | Some (s, inl pc) => Some (s, inl (ConnectCall pc), None)
      | Some (s, inr response) => Some (s, connect_answered o response, None)
      | None => None
      end
  | ConnectStore summary => Some (set_client (set_connected summary (sh_client s)) s, inr (inl summary), None)
  end.
Definition thread_exec (c : choice) (s : Shared) (t : thread) : option (Shared * thread * list thread) :=
  match t with
  | Reading transport g =>
      match c with
      | Received content =>
          let (r, s) := read_message json_Unmarshal o content transport g s in Some (s, reader_goes_on transport g r, [])
      | NotReceived e => let (r, s) := read_failed transport e s in Some (s, reader_goes_on transport g r, [])
      | _ => None
      end
  | Closing => match client_Close s with (Some t, s) => Some (s, Finishing (FinishCancel t), []) | _ => None end
  | Finishing f => (fun r => (r.1, or_exit Finishing r.2, [])) <$> finish_exec c s f
  | Receiving pc => (fun r => (r.1, or_exit Receiving r.2, [])) <$> recv_exec c s pc
  | Calling pc => (fun r => (r.1, or_exit Calling r.2, [])) <$> call_exec c s pc
  | Agent pc => (fun r => (r.1, or_exit Agent r.2, [])) <$> agent_exec c s pc
  | Connecting pc => (fun r => (r.1.1, or_exit Connecting r.1.2, reader_of r.2)) <$> connect_exec c s pc
  | Exited => None
  end.
(** A run: a goroutine that starts, or the one at a place in the list taking a step. *)
Definition run_one (sy : System) (act : thread + nat * choice) : option System :=
  match act with
  | inl t => Some (sy.1, sy.2 ++ [t])
  | inr (n, c) =>
      sy.2 !! n ≫= fun t => thread_exec c sy.1 t ≫= fun '(s, t, new) => Some (s, take n sy.2 ++ t :: drop (S n) sy.2 ++ new)
  end.
Definition may_act (act : thread + nat * choice) : Prop := match act with inl t => starts t | inr _ => True end.
Fixpoint run_all (acts : list (thread + nat * choice)) (sy : System) : option System :=
  match acts with [] => Some sy | act :: acts => run_one sy act ≫= run_all acts end.

Ltac exec := repeat (case_match || simplify_eq || match goal with H : (0 <=? _) = true |- _ => apply Z.leb_le in H end).
Lemma recv_exec_step c s pc s' r : recv_exec c s pc = Some (s', r) -> recv_step s pc s' r.
Proof.
  destruct pc as [|e g|d g|g]; simpl.
  - destruct (recv_top s) eqn:Ht; intros [= <- <-]; by constructor.
  - destruct (recv_poll e g s) as [[pc|e'] s1] eqn:Ht; intros [= <- <-]; by constructor.
  - destruct (finishEventDelivery d g s) as [[r1|] s1] eqn:Ht; intros [= <- <-]; by constructor.
  - intros H. destruct (take_event g s) as [[d s1]|] eqn:Ht; destruct c; exec; by constructor.
Qed.
Lemma call_exec_step c s pc s' r : call_exec c s pc = Some (s', r) -> call_step json_Marshal s pc s' r.
Proof. intros H. destruct pc, c; cbn [call_exec agent_exec] in H; exec; econstructor; eauto. Qed.
Lemma agent_exec_step c s pc s' r : agent_exec c s pc = Some (s', r) -> agent_step json_Marshal s pc s' r.
Proof. intros H. destruct pc, c; cbn [call_exec agent_exec] in H; exec; econstructor; eauto. Qed.
Lemma finish_exec_step c s f s' r : finish_exec c s f = Some (s', r) -> finish_step s f s' r.
Proof. intros H. destruct f, c; simpl in H; exec; econstructor; eauto; congruence. Qed.
Lemma connect_exec_step c s pc s' r new : connect_exec c s pc = Some (s', r, new) -> connect_step o json_Marshal s pc s' r new.
Proof.
  intros H. destruct pc; simpl in H; exec; econstructor; eauto using finish_exec_step, recv_exec_step, call_exec_step.
Qed.
Lemma thread_exec_step c s t s' t' new :
  thread_exec c s t = Some (s', t', new) -> thread_step o json_Unmarshal json_Marshal s t s' t' new.
Proof.
  intros H. destruct t as [transport g| |f|pc|pc|pc|pc|]; cbn [thread_exec] in H.
  - destruct c as [| | |content|e| | | | |]; try done; [destruct (read_message _ _ _ _ _ _) eqn:Hr|destruct (read_failed _ _ _) eqn:Hr];
      injection H as <- <- <-; [by eapply read_content|by eapply read_error].
  - exec; econstructor; eauto.
  - apply fmap_Some in H as ([s1 r] & Hx & [= -> -> ->]). apply finish_exec_step in Hx. by constructor.
  - apply fmap_Some in H as ([s1 r] & Hx & [= -> -> ->]). apply recv_exec_step in Hx. by constructor.
  - apply fmap_Some in H as ([s1 r] & Hx & [= -> -> ->]). apply call_exec_step in Hx. by constructor.
  - apply fmap_Some in H as ([s1 r] & Hx & [= -> -> ->]). apply agent_exec_step in Hx. by constructor.
  - apply fmap_Some in H as ([[s1 r] new1] & Hx & [= -> -> ->]). apply connect_exec_step in Hx. by constructor.
  - done.
Qed.
Lemma run_all_steps acts sy sy' :
  Forall may_act acts -> run_all acts sy = Some sy' -> rtc (gateway_step o json_Unmarshal json_Marshal) sy sy'.
Proof.
  revert sy. induction acts as [|act acts IH]; intros sy Hacts H; simplify_eq/=; [done|].
  apply bind_Some in H as (sy1 & H1 & H2). inversion Hacts as [|? ? Hact Hacts']; subst.
  apply (rtc_l _ _ sy1); [|by apply IH]. destruct sy as [s threads]. destruct act as [t|[n c]]; simpl in *.
  - injection H1 as <-. by constructor.
  - apply bind_Some in H1 as (t & Ht & H1). apply bind_Some in H1 as ([[s1 t1] new] & Hx & [= <-]).
    rewrite <- (take_drop_middle threads n t Ht) at 1. constructor. by apply thread_exec_step in Hx.
Qed.
End Execution.

(** * Theorems *)

(** The reply channel that a goroutine waits on, and for which request. *)
Definition call_waits (pc : call_pc) : option (string * nat) := match pc with CallWait id _ r => Some (id, r) | _ => None end.
Definition waits_for (t : thread) : option (string * nat) :=
  match t with
  | Calling pc | Connecting (ConnectCall pc) => call_waits pc
  | Agent (AgentWait id _ r _) => Some (id, r)
  | _ => None
  end.
Lemma take_reply_some s r q : sh_replies s !! r = Some q -> rc_queue q <> [] -> take_reply r s <> None.
Proof. unfold take_reply. intros ->. destruct q as [id cap [|d queue] taken]; done. Qed.
Lemma waits_channel s P t id r :
  thread_ok s P t -> waits_for t = Some (id, r) ->
  exists q, sh_replies s !! r = Some q /\ rc_id q = id /\ (claim s P id r \/ rc_queue q <> []).
Proof.
  assert (Hcall : forall pc, call_ok s P pc -> call_waits pc = Some (id, r) ->
    exists q, sh_replies s !! r = Some q /\ rc_id q = id /\ (claim s P id r \/ rc_queue q <> [])).
  { intros pc Hok Hw. destruct pc; simplify_eq/=. destruct Hok as (q & ? & ? & ? & ?). eauto. }
  intros Hok Hw. destruct t as [| | | |pc|[]|[]|]; simplify_eq/=; eauto. destruct (String.eqb _ "").
  - destruct Hok as (q & Hq & Hid & Hc & _ & Hcl). exists q. split_and!; [done..|]. destruct Hcl as [?|He]; [by left|right].
    apply ended_nonempty; [|done]. rewrite Hc. unfold agentResponseQueueSize. lia.
  - destruct Hok as (q & Hq & Hid & Hc & f & _ & _ & Hcl). eauto.
Qed.

Section Reachable.
Variables (role : string) (scopes : list string) (token : string) (size queueBytes : Z) (disposition : EventDisposition).
Variable json_Unmarshal : string -> option json.
Variable json_Marshal : json -> bytes + err.
Let o : gatewayOptions := gateway_options role scopes token size queueBytes disposition.
Variables (s : Shared) (threads : list thread).
Hypothesis Hreach : reachable o json_Unmarshal json_Marshal (s, threads).
Lemma options_accounts : accounts o s (held threads).
Proof using Hreach.
  change (accounts o (s, threads).1 (held (s, threads).2)). apply (accounts_reachable _ json_Unmarshal json_Marshal); [| |done];
    unfold o, gateway_options, defaultEventQueueSize, defaultEventQueueBytes; simpl.
  - destruct (Z.leb_spec size 0); lia.
  - destruct (Z.leb_spec queueBytes 0); lia.
Qed.
Lemma options_callers : callers s threads.
Proof using Hreach. by apply (callers_reachable o json_Unmarshal json_Marshal (s, threads)). Qed.
End Reachable.

(** The counters of a client against the deliveries of its connection, those in the [queue]
    and those in the hands of receivers ([mine]). *)
Record events_accounted (o : gatewayOptions) (c : gatewayClient) (queue mine : list eventDelivery) : Prop := {
  ea_count : gc_eventCount c = Z.of_nat (length queue + length mine);
  ea_bytes : gc_eventBytes c = total queue + total mine;
  ea_events : Z.of_nat (length queue) <= gc_eventCount c <= go_eventCap o;
  ea_size : total queue <= gc_eventBytes c <= go_eventByteMax o
}.
(** C27. The event queue of a gateway client keeps its accounts and its bounds. However the
    goroutines of the client interleave, whatever the gateway sends and however often the
    connection fails, is closed and is made again: the counters of the client are those
    of the current connection's deliveries, queued or in a receiver's hands; they stay
    within the bounds of the options, so that the queue holds neither more events nor
    more bytes than that; a goroutine never closes a closed channel; an error that is
    fatal is there; and a client without a transport has no caller registered. *)
Theorem gateway_accounts (role : string) (scopes : list string) (token : string) (size queueBytes : Z)
    (disposition : EventDisposition) (json_Unmarshal : string -> option json) (json_Marshal : json -> bytes + err)
    (s : Shared) (threads : list thread) :
  reachable (gateway_options role scopes token size queueBytes disposition) json_Unmarshal json_Marshal (s, threads) ->
  sh_panicked s = false /\
  events_accounted (gateway_options role scopes token size queueBytes disposition) (sh_client s)
    (queued (gc_generation (sh_client s)) s) (of_generation (gc_generation (sh_client s)) (held threads)) /\
  (gc_readerFatal (sh_client s) = true -> gc_readerErr (sh_client s) <> None) /\
  (gc_transport (sh_client s) = None -> gc_pending (sh_client s) = ∅).
Proof.
  set (o := gateway_options _ _ _ _ _ _). set (c := sh_client s). set (queue := queued _ s). set (mine := of_generation _ _).
  intros Hreach. destruct (options_accounts _ _ _ _ _ _ _ _ _ _ Hreach). fold o in ac_bound.
  assert (0 <= total mine).
  { apply total_nonneg. unfold mine, of_generation. apply Forall_forall. intros d [_ Hd]%list_elem_of_filter.
    rewrite Forall_forall in ac_held. by apply ac_held. }
  assert (0 <= total queue).
  { apply total_nonneg. eapply Forall_impl; [apply ac_queued|]. by intros d [_ ?]. }
  fold c queue mine in ac_count, ac_bytes, ac_bound. split_and!; [done| | |done].
  - split; lia.
  - intros Hf. destruct (ac_fatal Hf) as [e He]. unfold c. by rewrite He.
Qed.

(** C28. No caller of a gateway client is forgotten, and none gets another's response. In
    every state the goroutines can reach, one that waits for a response either has a
    delivery in its channel, or is registered with the connection that is open, or is
    among those that a goroutine closing the connection has yet to tell; and what it
    takes is an error or a response to its own request. *)
Theorem gateway_answers_callers (role : string) (scopes : list string) (token : string) (size queueBytes : Z)
    (disposition : EventDisposition) (json_Unmarshal : string -> option json) (json_Marshal : json -> bytes + err)
    (s : Shared) (threads : list thread) (t : thread) (id : string) (r : nat) :
  reachable (gateway_options role scopes token size queueBytes disposition) json_Unmarshal json_Marshal (s, threads) ->
  t ∈ threads -> waits_for t = Some (id, r) ->
  (take_reply r s <> None \/
   gc_transport (sh_client s) <> None /\ gc_pending (sh_client s) !! id = Some r \/
   exists t', t' ∈ threads /\ tells t' !! id = Some r) /\
  forall d s', take_reply r s = Some (d, s') -> correlated id d.
Proof.
  intros Hreach Hin Hw. pose proof (options_accounts _ _ _ _ _ _ _ _ _ _ Hreach) as Ha.
  pose proof (options_callers _ _ _ _ _ _ _ _ _ _ Hreach) as Hc. pose proof (cl_threads _ _ Hc) as Hok.
  rewrite Forall_forall in Hok. destruct (waits_channel _ _ _ _ _ (Hok t Hin) Hw) as (q & Hq & Hid & Hcl). split.
  - destruct Hcl as [[Hp|Hp]|Hne]; [right; left|right; right; exact Hp|left; by eapply take_reply_some].
    split; [|done]. intros Ht. by rewrite (ac_pending _ _ _ Ha Ht) in Hp.
  - intros d s' (id' & cap & queue & taken & Hr & _)%take_reply_inv. destruct (cl_frames _ _ Hc _ _ Hr) as [_ Hf].
    simplify_eq. by inversion Hf.
Qed.

(** An agent's result is an acknowledged one. When [Agent] has ended with a result, it
    has taken two responses, both to its own request: one that accepted the run under a
    non-empty identity, then the terminal one of the same run, with status ok; the text is
    the one of that response's payloads, not empty and within the bound. *)
Theorem agent_result_acknowledged (role : string) (scopes : list string) (token : string) (size queueBytes : Z)
    (disposition : EventDisposition) (json_Unmarshal : string -> option json) (json_Marshal : json -> bytes + err)
    (s : Shared) (threads : list thread) (r : nat) (id : string) (result : AgentResult) :
  reachable (gateway_options role scopes token size queueBytes disposition) json_Unmarshal json_Marshal (s, threads) ->
  Agent (AgentDone r id (inl result)) ∈ threads ->
  exists q first last, sh_replies s !! r = Some q /\ rc_taken q = [inl first; inl last] /\
    correlated id (inl first) /\ correlated id (inl last) /\
    acknowledges first (ar_RunID result) /\ terminates last result /\ 0 < len (ar_Text result) <= maxAgentResultBytes.
Proof.
  intros Hreach Hin. pose proof (options_callers _ _ _ _ _ _ _ _ _ _ Hreach) as Hc. pose proof (cl_threads _ _ Hc) as Hok.
  rewrite Forall_forall in Hok. destruct (Hok _ Hin) as (q & Hq & <- & _ & first & last & Ht & Hack & Hterm).
  destruct (cl_frames _ _ Hc _ _ Hq) as [_ Hf]. rewrite Ht in Hf. apply Forall_app in Hf as [_ Hf].
  inversion Hf as [|? ? H1 Hf']; subst. inversion Hf' as [|? ? H2 _]; subst.
  exists q, first, last.
  pose proof Hterm as (_ & _ & [_ Hlen]%parseAgentTerminal_text). split_and!; try done; apply Hlen.
Qed.

(** * An exchange *)

(** A connection that is challenged and authenticated, and an agent run over it. *)
Module GatewayDemo.
Definition event_challenge : json := JObject [("type", JString "event"); ("event", JString "connect.challenge");
  ("payload", JObject [("nonce", JString "n")])]%string.
Definition response (id : string) (payload : list (string * json)) : json :=
  JObject [("type", JString "res"); ("id", JString id); ("ok", JBool true); ("payload", JObject payload)]%string.
Definition demo_Unmarshal (text : string) : option json :=
  match text with
  | "challenge" => Some event_challenge
  | "connected" => Some (response "connect-1-5"
      [("auth", JObject [("role", JString "operator"); ("scopes", JArray [JString "operator.write"])])])
  | "accepted" => Some (response "agent-2-6" [("status", JString "accepted"); ("runId", JString "r1")])
  | "done" => Some (response "agent-2-6" [("status", JString "ok"); ("runId", JString "r1");
      ("result", JObject [("payloads", JArray [JObject [("text", JString "hello")]])])])
  | _ => None
  end%string.
Definition demo_Marshal (value : json) : bytes + err := inl [].
Definition demo_options : gatewayOptions := gateway_options "" [] "token" 0 0 EventDispositionResponseOnly.
Definition demo_request : AgentRequest :=
  {| aq_Message := "do it"; aq_SessionKey := "key"; aq_IdempotencyKey := "once"; aq_Thinking := "" |}.
Definition go (n : nat) : thread + nat * choice := inr (n, Go).
Definition gets (text : string) : thread + nat * choice := inr (1%nat, Received (to_bytes text)).
Definition submission : list (thread + nat * choice) :=
  [inl (Connecting (ConnectTop ThenDial)); go 0; go 0; go 0; inr (0%nat, Closed None); inr (0%nat, Dialed (Some 7%nat)); go 0;
   gets "challenge"; go 0; go 0; go 0; inr (0%nat, Now 5); go 0; inr (0%nat, Sent None);
   gets "connected"; go 0; go 0; go 0; go 0;
   inl (Agent (AgentTop demo_request)); go 2; inr (2%nat, Now 6); go 2; inr (2%nat, Sent None)].
Definition exchange : list (thread + nat * choice) :=
  (submission ++ [gets "accepted"; go 2; go 2; gets "done"; go 2; go 2; go 2])%list.
Definition demo_run (acts : list (thread + nat * choice)) : System :=
  default (new_shared, []) (run_all demo_options demo_Unmarshal demo_Marshal acts (new_shared, [])).
Lemma demo_starts : Forall may_act exchange.
Proof. repeat constructor. by apply (starts_agent demo_request). Qed.
Lemma demo_reachable n :
  is_Some (run_all demo_options demo_Unmarshal demo_Marshal (take n exchange) (new_shared, [])) ->
  reachable demo_options demo_Unmarshal demo_Marshal (demo_run (take n exchange)).
Proof.
  intros [sy Hsy]. unfold demo_run. rewrite Hsy. eapply run_all_steps; [|exact Hsy]. apply Forall_take, demo_starts.
Qed.
(** The challenge is queued; the agent waits; the agent has its result. *)
Definition queued_at : System := demo_run (take 8 exchange).
Definition waiting_at : System := demo_run (take 24 exchange).
Definition done_at : System := demo_run (take 31 exchange).
Lemma queued_reachable : reachable demo_options demo_Unmarshal demo_Marshal queued_at.
Proof. apply demo_reachable. vm_compute. eauto. Qed.
Lemma waiting_reachable : reachable demo_options demo_Unmarshal demo_Marshal waiting_at.
Proof. apply demo_reachable. vm_compute. eauto. Qed.
Lemma done_reachable : reachable demo_options demo_Unmarshal demo_Marshal done_at.
Proof. apply demo_reachable. vm_compute. eauto. Qed.
End GatewayDemo.
Lemma gateway_accounts_witness :
  gc_eventCount (sh_client GatewayDemo.queued_at.1) = 1 /\ sh_panicked GatewayDemo.queued_at.1 = false.
Proof.
  split; [vm_compute; reflexivity|].
  apply (gateway_accounts "" [] "token" 0 0 EventDispositionResponseOnly GatewayDemo.demo_Unmarshal GatewayDemo.demo_Marshal
    GatewayDemo.queued_at.1 GatewayDemo.queued_at.2).
  rewrite <- surjective_pairing. exact (GatewayDemo.queued_reachable).
Defined.
Lemma gateway_answers_callers_witness :
  waits_for (Agent (AgentWait "agent-2-6" 1 1 "")) = Some ("agent-2-6"%string, 1%nat) /\
  (take_reply 1 GatewayDemo.waiting_at.1 <> None \/
   gc_transport (sh_client GatewayDemo.waiting_at.1) <> None /\
   gc_pending (sh_client GatewayDemo.waiting_at.1) !! "agent-2-6"%string = Some 1%nat \/
   exists t', t' ∈ GatewayDemo.waiting_at.2 /\ tells t' !! "agent-2-6"%string = Some 1%nat).
Proof.
  split; [reflexivity|].
  apply (gateway_answers_callers "" [] "token" 0 0 EventDispositionResponseOnly GatewayDemo.demo_Unmarshal GatewayDemo.demo_Marshal
    GatewayDemo.waiting_at.1 GatewayDemo.waiting_at.2 (Agent (AgentWait "agent-2-6" 1 1 ""))).
  - rewrite <- surjective_pairing. apply (GatewayDemo.demo_reachable 24). vm_compute. eauto.
  - apply (list_elem_of_lookup_2 _ 2). vm_compute. reflexivity.
  - reflexivity.
Defined.
Lemma agent_result_acknowledged_witness :
  exists q first last, sh_replies GatewayDemo.done_at.1 !! 1%nat = Some q /\ rc_taken q = [inl first; inl last] /\
    acknowledges first "r1" /\ terminates last {| ar_RunID := "r1"; ar_Text := "hello" |}.
Proof.
  destruct (agent_result_acknowledged "" [] "token" 0 0 EventDispositionResponseOnly GatewayDemo.demo_Unmarshal
    GatewayDemo.demo_Marshal GatewayDemo.done_at.1 GatewayDemo.done_at.2 1 "agent-2-6" {| ar_RunID := "r1"; ar_Text := "hello" |})
    as (q & first & last & Hq & Ht & _ & _ & Hack & Hterm & _).
  - rewrite <- surjective_pairing. apply (GatewayDemo.demo_reachable 31). vm_compute. eauto.
  - apply (list_elem_of_lookup_2 _ 2). vm_compute. reflexivity.
  - exists q, first, last. split; [exact Hq|]. split; [exact Ht|]. by split.
Defined.
