(* ===== verification/Audio.v ===== *)
(** Audio preparation ([pkg/audio], audio.go): the reading of WAV files, silence, the linear
    resampling of PCM16 and its G.711 mu-law encoding.  Samples are integers of 16 bits, the
    resampling is in binary64.

    What the audio preparation keeps: a WAV file is read back whatever chunks it carries, and
    the mu-law encoding is the quantizer of G.711. *)

From Stdlib Require Import SpecFloat.
From S2P Require Import Prelude Utf8 GoTime.

Definition maxSampleRate : Z := 384000.
Definition MaxPCM16Bytes : Z := 32 * 2 ^ 20.
Definition MaxWAVBytes : Z := MaxPCM16Bytes + 2 ^ 20.
Definition MaxSilenceDurationMillis : Z := 60000.
Definition size (data : bytes) : Z := Z.of_nat (length data).

(** * Bytes *)

(** [binary.LittleEndian]; the caller has checked the bounds. *)
Definition byte_at (data : bytes) (i : Z) : Z := byte_of (nth (Z.to_nat i) data "000"%char).
Definition Uint16 (data : bytes) (i : Z) : Z := byte_at data i + 256 * byte_at data (i + 1).
Definition Uint32 (data : bytes) (i : Z) : Z := Uint16 data i + 65536 * Uint16 data (i + 2).
Definition byte_char (n : Z) : ascii := ascii_of_N (Z.to_N n).
Definition PutUint16 (n : Z) : bytes := [byte_char (n mod 256); byte_char (n / 256)].
(** The conversions [int16(uint16)] and [uint16(int16)]. *)
Definition int16 (n : Z) : Z := if n <? 32768 then n else n - 65536.
Definition uint16 (n : Z) : Z := n mod 65536.

(** * WAV files *)

Definition wavUnknownSize : Z := 2 ^ 32 - 1.
Definition refused {A} (text : string) : A + err := inr (ENew text).
(** [readWAVChunk] at an offset that leaves room for a header. *)
Definition readWAVChunk (content : bytes) (offset : Z) : (bytes * bytes * Z) + err :=
  let id := slice content offset (offset + 4) in
  let payloadOffset := offset + 8 in
  let rawSize := Uint32 content (offset + 4) in
  let chunk := if rawSize =? wavUnknownSize then size content - payloadOffset else rawSize in
  if (chunk <? 0) || (size content <? payloadOffset + chunk) then refused ("WAV chunk " +:+ quote (of_bytes id) +:+ " exceeds input")
  else inl (id, slice content payloadOffset (payloadOffset + chunk),
            payloadOffset + chunk + (if Z.odd chunk then 1 else 0)).
Record wavFormat := { wv_format : Z; wv_channels : Z; wv_rate : Z; wv_bits : Z }.
Definition wav_format (payload : bytes) : wavFormat :=
  {| wv_format := Uint16 payload 0; wv_channels := Uint16 payload 2; wv_rate := Uint32 payload 4; wv_bits := Uint16 payload 14 |}.
Definition is_id (id : bytes) (name : string) : bool := bool_decide (id = to_bytes name).
(** The chunks: the last [fmt] and the last [data] count. *)
Fixpoint wav_chunks (fuel : nat) (content : bytes) (offset : Z) (format : option wavFormat) (data : option bytes) :
    (option wavFormat * option bytes) + err :=
  match fuel with
  | O => inl (format, data)
  | S fuel =>
      if size content <? offset + 8 then inl (format, data)
      else match readWAVChunk content offset with
           | inr e => inr e
           | inl (id, payload, next) =>
               if is_id id "fmt " then
                 if size payload <? 16 then refused "WAV fmt chunk is too short"
                 else wav_chunks fuel content next (Some (wav_format payload)) data
               else if is_id id "data" then wav_chunks fuel content next format (Some payload)
               else wav_chunks fuel content next format data
           end
  end.
Definition wav_refusal (f : wavFormat) (data : option bytes) : error :=
  (refuse_if negb (wv_format f =? 1) with "WAV must be PCM format 1, got " +:+ itoa (wv_format f)) >>?
  (refuse_if negb (wv_channels f =? 1) with "WAV must be mono, got " +:+ itoa (wv_channels f) +:+ " channel(s)") >>?
  (refuse_if negb (wv_bits f =? 16) with "WAV must be 16-bit PCM, got " +:+ itoa (wv_bits f) +:+ "-bit") >>?
  (refuse_if (wv_rate f =? 0) || (maxSampleRate <? wv_rate f) with "WAV sample rate is invalid") >>?
  match data with
  | None => Some (ENew "WAV data chunk is missing")
  | Some data =>
      (refuse_if Z.odd (size data) with "WAV PCM16 data has an odd byte length") >>?
      (refuse_if MaxPCM16Bytes <? size data with "WAV PCM16 data exceeds size bound")
  end.
(** [readWAVPCM16Mono] on what was read, at most [MaxWAVBytes + 1] bytes. *)
Definition parseWAV (content : bytes) : (bytes * Z) + err :=
  if MaxWAVBytes <? size content then refused "WAV exceeds size bound"
  else if (size content <? 12) || negb (is_id (slice content 0 4) "RIFF") || negb (is_id (slice content 8 12) "WAVE")
  then refused "WAV must be RIFF/WAVE"
  else
    let riffSize := Uint32 content 4 in
    if negb (riffSize =? wavUnknownSize) && (size content <? riffSize + 8) then refused "WAV RIFF size exceeds input"
    else match wav_chunks (S (length content)) content 12 None None with
         | inr e => inr e
         | inl (None, _) => refused "WAV fmt chunk is missing"
         | inl (Some f, data) =>
             match wav_refusal f data with
             | Some e => inr e
             | None => inl (default [] data, wv_rate f)
             end
         end.
Class AudioFiles (W : Type) := {
  open_audio : string -> M W (nat + err);
  read_audio : nat -> Z -> M W (bytes * error);    (* io.ReadAll of a LimitReader *)
  close_audio : nat -> M W error
}.
Definition ReadWAVFilePCM16Mono `{AudioFiles W} (path : string) : M W (bytes * Z + err) :=
  let* file := open_audio path in
  match file with
  | inr e => ret (inr e)
  | inl file =>
      let* (content, e) := read_audio file (MaxWAVBytes + 1) in
      let* _ := close_audio file in
      ret match e with Some e => inr (EWrap "read WAV" e) | None => parseWAV content end
  end.

(** * PCM16 *)

Definition SilencePCM16 (rate durationMS : Z) : bytes + err :=
  if (rate <=? 0) || (maxSampleRate <? rate) then refused "sample rate is outside the supported bound"
  else if durationMS <? 0 then refused "duration must not be negative"
  else if MaxSilenceDurationMillis <? durationMS then refused "silence duration exceeds supported bound"
  else
    let samples := rate * durationMS / 1000 in
    if MaxPCM16Bytes / 2 <? samples then refused "silence duration is too large"
    else inl (repeat "000"%char (Z.to_nat (samples * 2))).

(** binary64: sums, and [math.Round], half away from zero. *)
Definition f64_add (x y : float64) : float64 := SFadd 53 1024 x y.
Definition f64_sub (x y : float64) : float64 := SFsub 53 1024 x y.
Definition f64_round (x : float64) : Z :=
  match x with
  | S754_finite s m e =>
      let n := if 0 <=? e then Z.pos m * 2 ^ e else (Z.pos m + 2 ^ (- e - 1)) / 2 ^ (- e) in
      if s then - n else n
  | _ => 0
  end.
(** The sample at an index; out of the range there is none. *)
Definition pcm_sample (pcm : bytes) (i : Z) : option Z :=
  if (0 <=? i) && (i * 2 + 1 <? size pcm) then Some (int16 (Uint16 pcm (i * 2))) else None.
Definition clamp (value : Z) : Z := if value <? -32768 then -32768 else if 32767 <? value then 32767 else value.
Definition resampled (pcm : bytes) (inputSamples outputSamples outIndex : Z) : option bytes :=
  let position := f64_div (f64_mul (f64_of_Z outIndex) (f64_of_Z (inputSamples - 1))) (f64_of_Z (outputSamples - 1)) in
  let left := f64_trunc position in                (* the position is not negative *)
  let right := if inputSamples <=? left + 1 then inputSamples - 1 else left + 1 in
  let weight := f64_sub position (f64_of_Z left) in
  l ← pcm_sample pcm left; r ← pcm_sample pcm right;
  let leftValue := f64_of_Z l in
  let value := f64_round (f64_add leftValue (f64_mul (f64_sub (f64_of_Z r) leftValue) weight)) in
  Some (PutUint16 (uint16 (clamp value))).
Fixpoint resample_from (n : nat) (pcm : bytes) (inputSamples outputSamples outIndex : Z) : option bytes :=
  match n with
  | O => Some []
  | S n => bs ← resampled pcm inputSamples outputSamples outIndex;
           rest ← resample_from n pcm inputSamples outputSamples (outIndex + 1); Some (bs ++ rest)
  end.
(** A read out of the range would end the process. *)
Definition out_of_range : err := ENew "runtime error: index out of range".
Definition outputSamples (inputSamples srcRate dstRate : Z) : Z := (inputSamples * dstRate + srcRate / 2) / srcRate.
Definition resamplePCM16 (pcm : bytes) (srcRate dstRate : Z) : bytes + err :=
  if (srcRate <=? 0) || (dstRate <=? 0) || (maxSampleRate <? srcRate) || (maxSampleRate <? dstRate)
  then refused "sample rates are outside the supported bound"
  else if Z.odd (size pcm) then refused "PCM16 input has an odd byte length"
  else if MaxPCM16Bytes <? size pcm then refused "PCM16 input exceeds size bound"
  else if size pcm =? 0 then inl []
  else if srcRate =? dstRate then inl pcm
  else
    let inputSamples := size pcm / 2 in
    let n := outputSamples inputSamples srcRate dstRate in
    if MaxPCM16Bytes / 2 <? n then refused "resampled PCM16 output exceeds size bound"
    else
      let n := if n <? 1 then 1 else n in
      if (inputSamples =? 1) || (n =? 1) then inl (take 2 pcm ++ repeat "000"%char (Z.to_nat (n * 2 - 2)))
      else match resample_from (Z.to_nat n) pcm inputSamples n 0 with
           | Some output => inl output
           | None => inr out_of_range
           end.

(** * G.711 mu-law *)

Definition ulawBias : Z := 132.
Definition ulawClip : Z := 32635.
Fixpoint ulaw_exponent (exponent : nat) (mask sample : Z) : Z :=
  match exponent with
  | O => 0
  | S e => if Z.land sample mask =? 0 then ulaw_exponent e (Z.shiftr mask 1) sample else Z.of_nat exponent
  end.
Definition pcm16SampleToULaw (sample : Z) : Z :=
  let sign := if sample <? 0 then 128 else 0 in
  let sample := Z.abs sample in
  let sample := (if ulawClip <? sample then ulawClip else sample) + ulawBias in
  let exponent := ulaw_exponent 7 16384 sample in
  let mantissa := Z.land (Z.shiftr sample (exponent + 3)) 15 in
  Z.land (Z.lnot (Z.lor sign (Z.lor (Z.shiftl exponent 4) mantissa))) 255.
Fixpoint ulaw_bytes (pcm : bytes) : bytes :=
  match pcm with
  | a :: b :: pcm => byte_char (pcm16SampleToULaw (int16 (byte_of a + 256 * byte_of b))) :: ulaw_bytes pcm
  | _ => []
  end.
Definition pcm16ToG711ULaw (pcm : bytes) : bytes + err :=
  if Z.odd (size pcm) then refused "PCM16 input has an odd byte length"
  else if MaxPCM16Bytes <? size pcm then refused "PCM16 input exceeds size bound"
  else inl (ulaw_bytes pcm).

(** * PrepareAudio *)

Record PreparedAudio := { pa_Data : bytes; pa_Rate : Z; pa_BytesPerSample : Z; pa_Encoding : string }.
Section Prepare.
Variable strings_ToLower : string -> string.
Definition normalizedEncoding (value : string) : string :=
  let normalized := strings_ToLower (TrimSpace value) in
  if one_of normalized [""; "pcm16"; "pcm_s16le"; "linear16"]%string then "pcm16"
  else if one_of normalized ["g711_ulaw"; "ulaw"; "mulaw"; "mu-law"]%string then "g711_ulaw"
  else normalized.
Definition PrepareAudio (pcm : bytes) (srcRate : Z) (encoding : string) (targetRate : Z) : PreparedAudio + err :=
  match resamplePCM16 pcm srcRate targetRate with
  | inr e => inr e
  | inl resampled =>
      let normalized := normalizedEncoding encoding in
      if String.eqb normalized "pcm16"
      then inl {| pa_Data := resampled; pa_Rate := targetRate; pa_BytesPerSample := 2; pa_Encoding := "pcm16" |}
      else if String.eqb normalized "g711_ulaw" then
        match pcm16ToG711ULaw resampled with
        | inr e => inr e
        | inl encoded => inl {| pa_Data := encoded; pa_Rate := targetRate; pa_BytesPerSample := 1; pa_Encoding := "g711_ulaw" |}
        end
      else refused ("unsupported Gateway audio encoding " +:+ quote encoding)
  end.
End Prepare.

(** * mu-law *)

(** The G.711 expansion of a code. *)
Definition ulaw_expand (code : Z) : Z :=
  let c := Z.land (Z.lnot code) 255 in
  let magnitude := Z.shiftl (Z.shiftl (Z.land c 15) 3 + ulawBias) (Z.land (Z.shiftr c 4) 7) - ulawBias in
  if Z.land c 128 =? 0 then magnitude else - magnitude.
(** The width of the interval of a sample's code, in the segment it falls in. *)
Definition ulaw_step (sample : Z) : Z := 2 ^ (Z.log2 (Z.min (Z.abs sample) ulawClip + ulawBias) - 4).
Definition ulaw_clipped (sample : Z) : Z := Z.max (- ulawClip) (Z.min ulawClip sample).
(** A check of consecutive integers. *)
Fixpoint all_from (f : Z -> bool) (n : nat) (z : Z) : bool :=
  match n with O => true | S n => f z && all_from f n (z + 1) end.
Lemma all_from_spec f n z : all_from f n z = true -> forall x, z <= x < z + Z.of_nat n -> f x = true.
Proof.
  revert z. induction n as [|n IH]; intros z H x Hx; [lia|]. cbn [all_from] in H. apply andb_true_iff in H as [Hz H].
  destruct (decide (x = z)) as [->|]; [done|]. apply (IH (z + 1)); [done|lia].
Qed.
Definition ulaw_good (sample : Z) : bool :=
  let code := pcm16SampleToULaw sample in
  let back := ulaw_expand code in
  (0 <=? code) && (code <? 256) && (2 * Z.abs (back - ulaw_clipped sample) <=? ulaw_step sample) &&
  (back <=? ulaw_expand (pcm16SampleToULaw (Z.min 32767 (sample + 1)))).
Lemma ulaw_checked : all_from ulaw_good (Z.to_nat 65536) (-32768) = true.
Proof. vm_compute. reflexivity. Qed.
Definition ulaw_same (code : Z) : bool :=
  (pcm16SampleToULaw (ulaw_expand code) =? code) || (code =? 127) && (pcm16SampleToULaw (ulaw_expand code) =? 255).
Lemma ulaw_codes_checked : all_from ulaw_same 256 0 = true.
Proof. vm_compute. reflexivity. Qed.

Lemma ulaw_sample sample : -32768 <= sample <= 32767 -> ulaw_good sample = true.
Proof. intros Hs. apply (all_from_spec _ _ _ ulaw_checked). lia. Qed.
Lemma ulaw_code code : 0 <= code <= 255 -> ulaw_same code = true.
Proof. intros Hc. apply (all_from_spec _ _ _ ulaw_codes_checked). lia. Qed.

(** * WAV files *)

Definition le16 (n : Z) : bytes := [byte_char (n mod 256); byte_char (n / 256)].
Definition le32 (n : Z) : bytes := le16 (n mod 65536) ++ le16 (n / 65536).
Lemma byte_of_char n : 0 <= n < 256 -> byte_of (byte_char n) = n.
Proof. intros Hn. unfold byte_of, byte_char. rewrite N_ascii_embedding by lia. lia. Qed.
Lemma byte_at_app_r pre rest i : 0 <= i -> byte_at (pre ++ rest) (size pre + i) = byte_at rest i.
Proof.
  intros Hi. unfold byte_at, size. f_equal. rewrite app_nth2 by lia. f_equal. lia.
Qed.
Lemma Uint16_app_r pre rest i : 0 <= i -> Uint16 (pre ++ rest) (size pre + i) = Uint16 rest i.
Proof. intros Hi. unfold Uint16. rewrite <- Z.add_assoc, !byte_at_app_r by lia. done. Qed.
Lemma Uint32_app_r pre rest i : 0 <= i -> Uint32 (pre ++ rest) (size pre + i) = Uint32 rest i.
Proof. intros Hi. unfold Uint32. rewrite <- Z.add_assoc, !Uint16_app_r by lia. done. Qed.
Lemma Uint16_le n rest : 0 <= n < 65536 -> Uint16 (le16 n ++ rest) 0 = n.
Proof.
  intros Hn. change (Uint16 _ 0) with (byte_of (byte_char (n mod 256)) + 256 * byte_of (byte_char (n / 256))).
  pose proof (Z.div_mod n 256). pose proof (Z.mod_pos_bound n 256).
  assert (0 <= n / 256 < 256) by (split; [apply Z.div_pos; lia|apply Z.div_lt_upper_bound; lia]).
  rewrite !byte_of_char by lia. lia.
Qed.
Lemma size_app a b : size (a ++ b) = size a + size b.
Proof. unfold size. rewrite length_app. lia. Qed.
Lemma size_nonneg a : 0 <= size a.
Proof. unfold size. lia. Qed.
Lemma size_le16 n : size (le16 n) = 2.
Proof. done. Qed.
Lemma Uint16_skip pre rest i : i = size pre -> Uint16 (pre ++ rest) i = Uint16 rest 0.
Proof. intros ->. rewrite <- (Z.add_0_r (size pre)). by apply Uint16_app_r. Qed.
Lemma Uint32_skip pre rest i : i = size pre -> Uint32 (pre ++ rest) i = Uint32 rest 0.
Proof. intros ->. rewrite <- (Z.add_0_r (size pre)). by apply Uint32_app_r. Qed.
Lemma Uint32_le n rest : 0 <= n < 2 ^ 32 -> Uint32 (le32 n ++ rest) 0 = n.
Proof.
  intros Hn. pose proof (Z.div_mod n 65536). pose proof (Z.mod_pos_bound n 65536).
  assert (0 <= n / 65536 < 65536) by (split; [apply Z.div_pos; lia|apply Z.div_lt_upper_bound; lia]).
  unfold Uint32, le32. rewrite <- app_assoc, Uint16_le by lia. rewrite Uint16_skip by done. rewrite Uint16_le by lia. lia.
Qed.
Lemma slice_app_r pre x rest a b : a = size pre -> b = a + size x -> slice (pre ++ x ++ rest) a b = x.
Proof.
  intros -> ->. unfold slice, size.
  replace (Z.to_nat (Z.of_nat (length pre))) with (length pre) by lia. rewrite drop_app_length.
  replace (Z.to_nat _) with (length x) by lia. apply take_app_length.
Qed.

(** A chunk, padded to an even length. *)
Record chunk := { ck_id : bytes; ck_payload : bytes }.
Definition pad (data : bytes) : bytes := if Z.odd (size data) then ["000"%char] else [].
Definition chunk_bytes (c : chunk) : bytes := ck_id c ++ le32 (size (ck_payload c)) ++ ck_payload c ++ pad (ck_payload c).
Definition chunk_ok (c : chunk) : Prop := length (ck_id c) = 4%nat /\ size (ck_payload c) < wavUnknownSize.
Lemma size_chunk c : chunk_ok c ->
  size (chunk_bytes c) = 8 + size (ck_payload c) + (if Z.odd (size (ck_payload c)) then 1 else 0).
Proof.
  intros [Hi _]. unfold chunk_bytes. rewrite !size_app. unfold pad, size at 1. rewrite Hi.
  change (size (le32 _)) with 4. destruct (Z.odd _); unfold size at 2; simpl; lia.
Qed.
Lemma readWAVChunk_bytes pre c rest : chunk_ok c ->
  readWAVChunk (pre ++ chunk_bytes c ++ rest) (size pre) = inl (ck_id c, ck_payload c, size pre + size (chunk_bytes c)).
Proof.
  intros Hc. pose proof Hc as [Hi Hs]. pose proof (size_nonneg (ck_payload c)) as H0.
  assert (Hid : size (ck_id c) = 4) by (unfold size; lia).
  unfold readWAVChunk, chunk_bytes. rewrite <- !app_assoc.
  rewrite (slice_app_r pre (ck_id c)) by lia.
  replace (pre ++ ck_id c ++ le32 (size (ck_payload c)) ++ ck_payload c ++ pad (ck_payload c) ++ rest)
    with ((pre ++ ck_id c) ++ le32 (size (ck_payload c)) ++ ck_payload c ++ pad (ck_payload c) ++ rest) by by rewrite <- app_assoc.
  rewrite (Uint32_skip (pre ++ ck_id c)) by (rewrite size_app; lia).
  unfold wavUnknownSize in Hs. rewrite Uint32_le by lia.
  rewrite (proj2 (Z.eqb_neq _ _)) by (unfold wavUnknownSize; lia).
  set (all := (pre ++ ck_id c) ++ _).
  assert (Hall : size pre + 8 + size (ck_payload c) <= size all).
  { unfold all. rewrite !size_app. change (size (le32 _)) with 4.
    pose proof (size_nonneg (pad (ck_payload c))). pose proof (size_nonneg rest). lia. }
  rewrite (proj2 (Z.ltb_ge _ 0)) by lia. rewrite (proj2 (Z.ltb_ge (size all) _)) by lia. cbn [orb].
  f_equal. f_equal; [f_equal|].
  - unfold all. rewrite (app_assoc (pre ++ ck_id c)). apply slice_app_r; [rewrite !size_app; change (size (le32 _)) with 4; lia|lia].
  - change (ck_id c ++ le32 (size (ck_payload c)) ++ ck_payload c ++ pad (ck_payload c)) with (chunk_bytes c).
    rewrite size_chunk by done. lia.
Qed.

(** The reading of a list of chunks; a short [fmt] is an error. *)
Definition ignored (c : chunk) : Prop := ck_id c <> to_bytes "fmt " /\ ck_id c <> to_bytes "data".
Lemma wav_chunks_end fuel content offset format data : size content < offset + 8 ->
  wav_chunks fuel content offset format data = inl (format, data).
Proof. intros Ho. destruct fuel; [done|]. cbn [wav_chunks]. by rewrite (proj2 (Z.ltb_lt _ _)). Qed.
Lemma wav_chunks_step fuel pre c rest format data : chunk_ok c ->
  wav_chunks (S fuel) (pre ++ chunk_bytes c ++ rest) (size pre) format data =
  if is_id (ck_id c) "fmt " then
    if size (ck_payload c) <? 16 then refused "WAV fmt chunk is too short"
    else wav_chunks fuel ((pre ++ chunk_bytes c) ++ rest) (size (pre ++ chunk_bytes c)) (Some (wav_format (ck_payload c))) data
  else if is_id (ck_id c) "data"
  then wav_chunks fuel ((pre ++ chunk_bytes c) ++ rest) (size (pre ++ chunk_bytes c)) format (Some (ck_payload c))
  else wav_chunks fuel ((pre ++ chunk_bytes c) ++ rest) (size (pre ++ chunk_bytes c)) format data.
Proof.
  intros Hc. cbn [wav_chunks]. rewrite (proj2 (Z.ltb_ge _ _)).
  2:{ rewrite !size_app, size_chunk by done. pose proof (size_nonneg (ck_payload c)). pose proof (size_nonneg rest).
      destruct (Z.odd _); lia. }
  rewrite readWAVChunk_bytes by done. rewrite <- app_assoc, size_app. done.
Qed.
Definition body (cs : list chunk) : bytes := concat (map chunk_bytes cs).
Lemma wav_chunks_ignored cs : forall fuel pre rest format data, Forall chunk_ok cs -> Forall ignored cs ->
  wav_chunks (length cs + fuel) (pre ++ body cs ++ rest) (size pre) format data =
  wav_chunks fuel ((pre ++ body cs) ++ rest) (size (pre ++ body cs)) format data.
Proof.
  induction cs as [|c cs IH]; intros fuel pre rest format data Hok Hig; cbn [body map concat length Nat.add].
  { by rewrite app_nil_r. }
  inversion Hok as [|? ? Hc Hcs]; subst. inversion Hig as [|? ? [Hf Hd] Hig']; subst.
  change (concat (map chunk_bytes cs)) with (body cs). rewrite <- app_assoc, wav_chunks_step by done.
  unfold is_id. rewrite !bool_decide_eq_false_2 by done. rewrite IH by done. by rewrite <- !app_assoc.
Qed.
(** The length of a body is enough fuel. *)
Lemma body_fuel cs : Forall chunk_ok cs -> Z.of_nat (length cs) * 8 <= size (body cs).
Proof.
  induction 1 as [|c cs Hc _ IH]; [done|]. cbn [body map concat length]. rewrite size_app, size_chunk by done.
  fold (body cs). pose proof (size_nonneg (ck_payload c)). destruct (Z.odd _); lia.
Qed.

(** A file, the format of 16-bit mono PCM, and the chunk of the samples. *)
Definition wav_file (cs : list chunk) : bytes :=
  to_bytes "RIFF" ++ le32 (4 + size (body cs)) ++ to_bytes "WAVE" ++ body cs.
Definition fmt_chunk (rate : Z) (extension : bytes) : chunk :=
  {| ck_id := to_bytes "fmt ";
     ck_payload := le16 1 ++ le16 1 ++ le32 rate ++ le32 (rate * 2) ++ le16 2 ++ le16 16 ++ extension |}.
Definition data_chunk (data : bytes) : chunk := {| ck_id := to_bytes "data"; ck_payload := data |}.
Lemma wav_format_fmt rate extension : 0 <= rate < 2 ^ 31 ->
  wav_format (ck_payload (fmt_chunk rate extension)) = {| wv_format := 1; wv_channels := 1; wv_rate := rate; wv_bits := 16 |}.
Proof.
  intros Hr. unfold wav_format.
  set (tail2 := le16 2 ++ le16 16 ++ extension).
  change (ck_payload (fmt_chunk rate extension)) with (le16 1 ++ le16 1 ++ le32 rate ++ le32 (rate * 2) ++ tail2).
  rewrite Uint16_le by lia. rewrite (Uint16_skip (le16 1)), Uint16_le by (lia || done).
  rewrite (app_assoc (le16 1) (le16 1)), (Uint32_skip (le16 1 ++ le16 1)), Uint32_le by (lia || done).
  unfold tail2. rewrite !app_assoc, <- (app_assoc _ (le16 16)), Uint16_skip, Uint16_le by (lia || done). done.
Qed.

Lemma body_app a b : body (a ++ b) = body a ++ body b.
Proof. unfold body. by rewrite map_app, concat_app. Qed.
Lemma body_cons c cs : body (c :: cs) = chunk_bytes c ++ body cs.
Proof. done. Qed.
Lemma wav_chunks_body fuel pre rate extension data before between after :
  0 <= rate < 2 ^ 31 ->
  Forall chunk_ok (before ++ fmt_chunk rate extension :: between ++ data_chunk data :: after) ->
  Forall ignored (before ++ between ++ after) ->
  wav_chunks (length before + S (length between + S (length after + fuel)))
    (pre ++ body (before ++ fmt_chunk rate extension :: between ++ data_chunk data :: after)) (size pre) None None =
  inl (Some {| wv_format := 1; wv_channels := 1; wv_rate := rate; wv_bits := 16 |}, Some data).
Proof.
  intros Hr Hok Hig. rewrite !Forall_app, !Forall_cons, !Forall_app, !Forall_cons in Hok.
  rewrite !Forall_app in Hig. destruct Hok as (H1 & Hf & H2 & Hd & H3), Hig as (I1 & I2 & I3).
  rewrite body_app, body_cons, body_app, body_cons. rewrite wav_chunks_ignored by done.
  rewrite wav_chunks_step by done.
  assert (Hp : (size (ck_payload (fmt_chunk rate extension)) <? 16) = false).
  { apply Z.ltb_ge. unfold fmt_chunk, ck_payload. rewrite !size_app. change (size (le32 _)) with 4.
    change (size (le16 _)) with 2. pose proof (size_nonneg extension). lia. }
  rewrite Hp. change (is_id (ck_id (fmt_chunk rate extension)) "fmt ") with true.
  rewrite wav_format_fmt by done. cbv iota. rewrite wav_chunks_ignored by done.
  rewrite wav_chunks_step by done. change (is_id (ck_id (data_chunk data)) "fmt ") with false.
  change (is_id (ck_id (data_chunk data)) "data") with true. cbv iota.
  rewrite <- (app_nil_r (body after)), wav_chunks_ignored by done. apply wav_chunks_end.
  rewrite app_nil_r. lia.
Qed.
Lemma wav_header_size cs : size (to_bytes "RIFF" ++ le32 (4 + size (body cs)) ++ to_bytes "WAVE") = 12.
Proof. done. Qed.
Lemma wav_file_split cs :
  wav_file cs = (to_bytes "RIFF" ++ le32 (4 + size (body cs)) ++ to_bytes "WAVE") ++ body cs.
Proof. unfold wav_file. by rewrite <- !app_assoc. Qed.
Lemma size_wav_file cs : size (wav_file cs) = 12 + size (body cs).
Proof. by rewrite wav_file_split, size_app, wav_header_size. Qed.
(** The header of a file that is not too large is accepted. *)
Lemma parseWAV_file cs : size (wav_file cs) <= MaxWAVBytes ->
  parseWAV (wav_file cs) =
  match wav_chunks (S (length (wav_file cs))) (wav_file cs) 12 None None with
  | inr e => inr e
  | inl (None, _) => refused "WAV fmt chunk is missing"
  | inl (Some f, data) =>
      match wav_refusal f data with Some e => inr e | None => inl (default [] data, wv_rate f) end
  end.
Proof.
  intros Hm. unfold parseWAV. rewrite (proj2 (Z.ltb_ge _ _)) by lia.
  rewrite size_wav_file in *. pose proof (size_nonneg (body cs)).
  rewrite (proj2 (Z.ltb_ge (12 + _) 12)) by lia.
  assert (Hb : MaxWAVBytes < 2 ^ 32 - 1) by done.
  change (slice (wav_file cs) 0 4) with (to_bytes "RIFF"). change (slice (wav_file cs) 8 12) with (to_bytes "WAVE").
  change (is_id (to_bytes "RIFF") "RIFF") with true. change (is_id (to_bytes "WAVE") "WAVE") with true. cbn [negb orb].
  assert (Hn : Uint32 (wav_file cs) 4 = 4 + size (body cs)).
  { unfold wav_file. rewrite (Uint32_skip (to_bytes "RIFF")), Uint32_le by (lia || done). done. }
  rewrite Hn, (proj2 (Z.ltb_ge (12 + _) (4 + _ + 8))) by lia. by rewrite andb_false_r.
Qed.

(** C18. A WAV file is read back.  For any sample rate the harness supports and any samples of
    16 bits, a RIFF/WAVE file with a [fmt] chunk for mono PCM, however extended, and the
    [data] chunk of the samples is read as those samples at that rate, whatever other
    chunks come before, between and after them. *)
Theorem wav_read_back (rate : Z) (extension data : bytes) (before between after : list chunk) :
  0 < rate <= maxSampleRate -> Z.odd (size data) = false -> size data <= MaxPCM16Bytes ->
  Forall chunk_ok (before ++ fmt_chunk rate extension :: between ++ data_chunk data :: after) ->
  Forall ignored (before ++ between ++ after) ->
  size (wav_file (before ++ fmt_chunk rate extension :: between ++ data_chunk data :: after)) <= MaxWAVBytes ->
  parseWAV (wav_file (before ++ fmt_chunk rate extension :: between ++ data_chunk data :: after)) = inl (data, rate).
Proof.
  intros Hrate Hodd Hsize Hok Hig Hfile. assert (Hmax : maxSampleRate < 2 ^ 31) by done.
  rewrite parseWAV_file by done. pose proof (body_fuel _ Hok) as Hfuel.
  set (cs := before ++ _) in *. pose proof (size_wav_file cs) as Hlen.
  assert (Hl : length cs = (length before + S (length between + S (length after)))%nat).
  { unfold cs. by rewrite length_app, length_cons, length_app, length_cons. }
  assert (exists fuel, S (length (wav_file cs)) = (length before + S (length between + S (length after + fuel)))%nat) as [fuel ->].
  { exists (S (length (wav_file cs)) - length cs)%nat. unfold size in *. lia. }
  rewrite wav_file_split. rewrite <- (wav_header_size cs). unfold cs at 2. rewrite wav_chunks_body by (done || lia).
  unfold wav_refusal. cbn [wv_format wv_channels wv_rate wv_bits].
  rewrite Hodd, (proj2 (Z.eqb_neq rate 0)), (proj2 (Z.ltb_ge maxSampleRate rate)), (proj2 (Z.ltb_ge MaxPCM16Bytes _)) by lia.
  done.
Qed.
Definition bext_demo : chunk := {| ck_id := to_bytes "bext"; ck_payload := to_bytes "xyz" |}.
Lemma wav_read_back_witness :
  parseWAV (wav_file ([bext_demo] ++ fmt_chunk 8000 [] :: [] ++ data_chunk (to_bytes "abcd") :: [bext_demo])) =
  inl (to_bytes "abcd", 8000).
Proof.
  apply wav_read_back; [by split; vm_compute|vm_compute; reflexivity|by vm_compute| | |by vm_compute].
  - repeat constructor; by vm_compute.
  - repeat constructor; by vm_compute.
Defined.

(** * The encoding of a recording *)

(** Samples as little-endian PCM16. *)
Definition pcm_of (samples : list Z) : bytes := concat (map (fun s => PutUint16 (uint16 s)) samples).
Definition is_sample (s : Z) : Prop := -32768 <= s <= 32767.
Lemma size_pcm_of samples : size (pcm_of samples) = 2 * Z.of_nat (length samples).
Proof.
  induction samples as [|s samples IH]; [done|]. change (pcm_of _) with (PutUint16 (uint16 s) ++ pcm_of samples).
  rewrite size_app, IH. change (size (PutUint16 _)) with 2. cbn [length]. lia.
Qed.
(** A sample survives its two bytes. *)
Lemma PutUint16_read s : is_sample s ->
  exists a b, PutUint16 (uint16 s) = [a; b] /\ int16 (byte_of a + 256 * byte_of b) = s.
Proof.
  intros Hs. eexists _, _. split; [reflexivity|]. unfold is_sample in Hs.
  assert (Hu : 0 <= uint16 s < 65536) by apply (Z.mod_pos_bound s 65536 eq_refl).
  assert (0 <= uint16 s / 256 < 256) by (split; [apply Z.div_pos; lia|apply Z.div_lt_upper_bound; lia]).
  pose proof (Z.div_mod (uint16 s) 256). pose proof (Z.mod_pos_bound (uint16 s) 256).
  rewrite !byte_of_char by lia.
  replace (_ + 256 * _) with (uint16 s) by lia. unfold int16, uint16 in *.
  destruct (Z.le_gt_cases 0 s).
  - rewrite Z.mod_small by lia. by rewrite (proj2 (Z.ltb_lt _ _)) by lia.
  - rewrite <- (Z_mod_plus_full s 1), Z.mod_small by lia. rewrite (proj2 (Z.ltb_ge _ _)); lia.
Qed.
Lemma ulaw_bytes_pcm samples : Forall is_sample samples ->
  ulaw_bytes (pcm_of samples) = map (fun s => byte_char (pcm16SampleToULaw s)) samples.
Proof.
  induction 1 as [|s samples Hs _ IH]; [done|]. change (pcm_of _) with (PutUint16 (uint16 s) ++ pcm_of samples).
  destruct (PutUint16_read s Hs) as (a & b & -> & E). cbn [app ulaw_bytes map]. by rewrite E, IH.
Qed.
Lemma ulaw_range s : is_sample s -> 0 <= pcm16SampleToULaw s < 256.
Proof. intros Hs. pose proof (ulaw_sample s Hs) as G. unfold ulaw_good in G. rewrite !andb_true_iff in G. lia. Qed.
Lemma ulaw_step_up s : is_sample s ->
  ulaw_expand (pcm16SampleToULaw s) <= ulaw_expand (pcm16SampleToULaw (Z.min 32767 (s + 1))).
Proof. intros Hs. pose proof (ulaw_sample s Hs) as G. unfold ulaw_good in G. rewrite !andb_true_iff in G. lia. Qed.
Lemma ulaw_mono s n : is_sample s -> is_sample (s + Z.of_nat n) ->
  ulaw_expand (pcm16SampleToULaw s) <= ulaw_expand (pcm16SampleToULaw (s + Z.of_nat n)).
Proof.
  intros Hs. induction n as [|n IH]; intros Hn; [by rewrite Z.add_0_r|].
  unfold is_sample in *. pose proof (ulaw_step_up (s + Z.of_nat n)) as G. unfold is_sample in G.
  rewrite Z.min_r in G by lia. replace (s + Z.of_nat (S n)) with (s + Z.of_nat n + 1) by lia.
  transitivity (ulaw_expand (pcm16SampleToULaw (s + Z.of_nat n))); [apply IH; lia|apply G; lia].
Qed.

(** The mu-law encoding is the G.711 quantizer.  A recording within the size bound is
    encoded into one byte for each sample; what the byte expands to, by the G.711 rule, is
    within half of the segment's step of the sample (clipped at 32635), and a louder sample
    never expands to a quieter one. *)
Theorem ulaw_quantizes (samples : list Z) :
  Forall is_sample samples -> 2 * Z.of_nat (length samples) <= MaxPCM16Bytes ->
  exists codes, pcm16ToG711ULaw (pcm_of samples) = inl codes /\
    Forall2 (fun s c => 2 * Z.abs (ulaw_expand (byte_of c) - ulaw_clipped s) <= ulaw_step s) samples codes /\
    forall i j s t c d, samples !! i = Some s -> samples !! j = Some t -> codes !! i = Some c -> codes !! j = Some d ->
      s <= t -> ulaw_expand (byte_of c) <= ulaw_expand (byte_of d).
Proof.
  intros Hs Hsize. unfold pcm16ToG711ULaw. rewrite size_pcm_of, Z.odd_mul. cbn [Z.odd andb].
  rewrite (proj2 (Z.ltb_ge _ _)) by lia. rewrite ulaw_bytes_pcm by done. eexists. split; [reflexivity|]. split.
  - clear Hsize. induction Hs as [|s samples Hs _ IH]; cbn [map]; constructor; [|done].
    rewrite byte_of_char by by apply ulaw_range.
    pose proof (ulaw_sample s Hs) as G. unfold ulaw_good in G. rewrite !andb_true_iff in G. lia.
  - intros i j s t c d Hi Hj Hc Hd Hle. rewrite list_lookup_fmap in Hc, Hd.
    rewrite Hi in Hc. rewrite Hj in Hd. injection Hc as <-. injection Hd as <-.
    rewrite Forall_lookup in Hs. apply Hs in Hi, Hj. rewrite !byte_of_char by by apply ulaw_range.
    replace t with (s + Z.of_nat (Z.to_nat (t - s))) in * by lia. by apply ulaw_mono.
Qed.
Lemma ulaw_quantizes_witness :
  exists codes, pcm16ToG711ULaw (pcm_of [0; 1000; -32768]) = inl codes /\
    Forall2 (fun s c => 2 * Z.abs (ulaw_expand (byte_of c) - ulaw_clipped s) <= ulaw_step s) [0; 1000; -32768] codes /\
    forall i j s t c d, [0; 1000; -32768] !! i = Some s -> [0; 1000; -32768] !! j = Some t -> codes !! i = Some c ->
      codes !! j = Some d -> s <= t -> ulaw_expand (byte_of c) <= ulaw_expand (byte_of d).
Proof. apply ulaw_quantizes; [repeat constructor; by vm_compute|by vm_compute]. Defined.
