(* ===== verification/Realtime.v ===== *)
(** A realtime voice session over an OpenClaw gateway ([pkg/harness/openclaw/realtime]:
    events.go, result.go, runner.go): the audio is sent in chunks while the events of the
    session are read, its tool calls answered, and the runs of the agent followed. *)

From Stdlib Require Import SpecFloat.
From S2P Require Import Prelude Utf8 Trace Core Redaction Config GoTime GatewayFrame GatewayRun.

(** The gateway connections of [pkg/harness/openclaw/gateway], by handle; the options of
    [Connect] are always zero. *)
Class Gateways (W : Type) := {
  gw_Connect : nat -> Ctx -> M W (ConnectSummary + err);
  gw_Call : nat -> Ctx -> string -> json -> M W (Frame + err);
  gw_RecvEvent : nat -> Ctx -> M W (Frame + err);
  gw_FatalError : nat -> M W error;
  gw_Agent : nat -> Ctx -> AgentRequest -> M W (AgentResult * error);
  gw_Close : nat -> M W error
}.

(** * events.go *)

Record SessionInfo := {
  si_SessionID : string;
  si_RelaySessionID : string;
  si_InputEncoding : string;
  si_InputSampleRateHz : Z
}.
Record talkEvent := {
  tk_EventType : string;
  tk_SessionID : string;
  tk_Payload : Frame;
  tk_Wrapper : Frame;
  tk_CallID : string
}.
Record toolCallEvent := {
  tc_SessionID : string;
  tc_RelaySessionID : string;
  tc_CallID : string;
  tc_Name : string;
  tc_Args : Frame
}.
Record chatEvent := {
  ch_RunID : string;
  ch_State : string;
  ch_DeltaText : string;
  ch_Replace : bool;
  ch_MessageText : string;
  ch_ErrorMessage : string;
  ch_ErrorKind : string;
  ch_StopReason : string;
  ch_Stream : string;
  ch_Data : Frame
}.
Definition maxRealtimeSampleRate : Z := 384000.

Section Events.
(** The decoding of a JSON number into a [float64]. *)
Variable json_float : string -> float64.
(** [numericInt] of a decoded value: an integral [float64] in the range of [int]. *)
Definition float_int (x : float64) : option Z :=
  let n := f64_trunc x in
  if negb (IsNaN x) && negb (IsInf x) && f64_eqb x (f64_of_Z n) && (min_int64 <=? n) && (n <=? max_int64) then Some n else None.
Definition numericInt (value : option json) : option Z :=
  match value with Some (JNumber text) => float_int (json_float text) | _ => None end.
Definition sessionInfoFromPayload (mapped : Frame) : SessionInfo + err :=
  let sessionID := frame_String mapped "sessionId" in
  if String.eqb sessionID "" then inr (ENew "talk.session.create payload missing sessionId")
  else
    let audio := frame_Map mapped "audio" in
    let encoding := frame_String audio "inputEncoding" in
    if String.eqb encoding "" then inr (ENew "talk.session.create audio missing inputEncoding")
    else match numericInt (json_member "inputSampleRateHz" audio) with
         | Some rate =>
             if (rate <=? 0) || (maxRealtimeSampleRate <? rate)
             then inr (ENew "talk.session.create audio missing inputSampleRateHz")
             else inl {| si_SessionID := sessionID; si_RelaySessionID := frame_String mapped "relaySessionId";
                         si_InputEncoding := encoding; si_InputSampleRateHz := rate |}
         | None => inr (ENew "talk.session.create audio missing inputSampleRateHz")
         end.
End Events.
Definition textFromPayload (payload : Frame) : string := frame_String payload "text".
Definition is_event (frame : Frame) (name : string) : bool :=
  String.eqb (frame_String frame "type") "event" && String.eqb (frame_String frame "event") name.
Definition talkEventFromFrame (frame : Frame) : option talkEvent :=
  if negb (is_event frame "talk.event") then None
  else
    let wrapper := frame_Map frame "payload" in
    let raw := frame_Map wrapper "talkEvent" in
    let eventType := frame_String raw "type" in
    let sessionID := frame_String raw "sessionId" in
    if String.eqb eventType "" || String.eqb sessionID "" then None
    else Some {| tk_EventType := eventType; tk_SessionID := sessionID; tk_Payload := frame_Map raw "payload";
                 tk_Wrapper := wrapper; tk_CallID := frame_String raw "callId" |}.
Definition toolCallEventFromTalk (event : talkEvent) : option toolCallEvent :=
  if negb (String.eqb (tk_EventType event) "tool.call") || String.eqb (tk_CallID event) "" then None
  else
    let name := frame_String (tk_Payload event) "name" in
    if String.eqb name "" then None
    else Some {| tc_SessionID := tk_SessionID event; tc_RelaySessionID := frame_String (tk_Wrapper event) "relaySessionId";
                 tc_CallID := tk_CallID event; tc_Name := name; tc_Args := frame_Map (tk_Payload event) "args" |}.
Definition textFromChatMessage (message : option json) : string :=
  fold_left (fun out item =>
    let part := to_Map (Some item) in
    if String.eqb (frame_String part "type") "text" then out +:+ frame_String part "text" else out)
    (frame_list (to_Map message) "content") "".
Definition chatEventFromFrame (frame : Frame) : option chatEvent :=
  if negb (is_event frame "chat") then None
  else
    let payload := frame_Map frame "payload" in
    let runID := frame_String payload "runId" in
    let state := frame_String payload "state" in
    if String.eqb runID "" || String.eqb state "" then None
    else Some {| ch_RunID := runID; ch_State := state; ch_DeltaText := frame_String payload "deltaText";
                 ch_Replace := frame_Bool payload "replace"; ch_MessageText := textFromChatMessage (json_member "message" payload);
                 ch_ErrorMessage := frame_String payload "errorMessage"; ch_ErrorKind := frame_String payload "errorKind";
                 ch_StopReason := frame_String payload "stopReason"; ch_Stream := frame_String payload "stream";
                 ch_Data := frame_Map payload "data" |}.

(** * result.go *)

(** [session_id] and [relay_session_id] are nil until known, [connect_auth] is empty until
    the connection is made, and [events] are nil in a result without them. *)
Record Result := {
  rr_SchemaVersion : Z;
  rr_Transcript : string;
  rr_OutputText : string;
  rr_OriginalPrompt : string;
  rr_TranscriptDone : string;
  rr_TranscriptDoneParts : list string;
  rr_ProviderToolQuestion : string;
  rr_AgentQuestionUsed : string;
  rr_ToolCalls : Z;
  rr_ToolResults : Z;
  rr_AgentConsultOK : bool;
  rr_OutputAudioDone : bool;
  rr_SessionID : option string;
  rr_RelaySessionID : option string;
  rr_AgentRunIDs : list string;
  rr_EventCounts : gmap string Z;
  rr_ConnectAuth : Frame;
  rr_Errors : list string;
  rr_Events : option (list Frame)
}.
Definition set_rr_Transcript (x : string) (r : Result) : Result :=
  {| rr_SchemaVersion := rr_SchemaVersion r; rr_Transcript := x; rr_OutputText := rr_OutputText r;
     rr_OriginalPrompt := rr_OriginalPrompt r; rr_TranscriptDone := rr_TranscriptDone r;
     rr_TranscriptDoneParts := rr_TranscriptDoneParts r; rr_ProviderToolQuestion := rr_ProviderToolQuestion r;
     rr_AgentQuestionUsed := rr_AgentQuestionUsed r; rr_ToolCalls := rr_ToolCalls r; rr_ToolResults := rr_ToolResults r;
     rr_AgentConsultOK := rr_AgentConsultOK r; rr_OutputAudioDone := rr_OutputAudioDone r;
     rr_SessionID := rr_SessionID r; rr_RelaySessionID := rr_RelaySessionID r; rr_AgentRunIDs := rr_AgentRunIDs r;
     rr_EventCounts := rr_EventCounts r; rr_ConnectAuth := rr_ConnectAuth r; rr_Errors := rr_Errors r;
     rr_Events := rr_Events r |}.
Definition set_rr_OutputText (x : string) (r : Result) : Result :=
  {| rr_SchemaVersion := rr_SchemaVersion r; rr_Transcript := rr_Transcript r; rr_OutputText := x;
     rr_OriginalPrompt := rr_OriginalPrompt r; rr_TranscriptDone := rr_TranscriptDone r;
     rr_TranscriptDoneParts := rr_TranscriptDoneParts r; rr_ProviderToolQuestion := rr_ProviderToolQuestion r;
     rr_AgentQuestionUsed := rr_AgentQuestionUsed r; rr_ToolCalls := rr_ToolCalls r; rr_ToolResults := rr_ToolResults r;
     rr_AgentConsultOK := rr_AgentConsultOK r; rr_OutputAudioDone := rr_OutputAudioDone r;
     rr_SessionID := rr_SessionID r; rr_RelaySessionID := rr_RelaySessionID r; rr_AgentRunIDs := rr_AgentRunIDs r;
     rr_EventCounts := rr_EventCounts r; rr_ConnectAuth := rr_ConnectAuth r; rr_Errors := rr_Errors r;
     rr_Events := rr_Events r |}.
Definition set_rr_TranscriptDone (x : string) (r : Result) : Result :=
  {| rr_SchemaVersion := rr_SchemaVersion r; rr_Transcript := rr_Transcript r; rr_OutputText := rr_OutputText r;
     rr_OriginalPrompt := rr_OriginalPrompt r; rr_TranscriptDone := x;
     rr_TranscriptDoneParts := rr_TranscriptDoneParts r; rr_ProviderToolQuestion := rr_ProviderToolQuestion r;
     rr_AgentQuestionUsed := rr_AgentQuestionUsed r; rr_ToolCalls := rr_ToolCalls r; rr_ToolResults := rr_ToolResults r;
     rr_AgentConsultOK := rr_AgentConsultOK r; rr_OutputAudioDone := rr_OutputAudioDone r;
     rr_SessionID := rr_SessionID r; rr_RelaySessionID := rr_RelaySessionID r; rr_AgentRunIDs := rr_AgentRunIDs r;
     rr_EventCounts := rr_EventCounts r; rr_ConnectAuth := rr_ConnectAuth r; rr_Errors := rr_Errors r;
     rr_Events := rr_Events r |}.
Definition set_rr_TranscriptDoneParts (x : list string) (r : Result) : Result :=
  {| rr_SchemaVersion := rr_SchemaVersion r; rr_Transcript := rr_Transcript r; rr_OutputText := rr_OutputText r;
     rr_OriginalPrompt := rr_OriginalPrompt r; rr_TranscriptDone := rr_TranscriptDone r; rr_TranscriptDoneParts := x;
     rr_ProviderToolQuestion := rr_ProviderToolQuestion r; rr_AgentQuestionUsed := rr_AgentQuestionUsed r;
     rr_ToolCalls := rr_ToolCalls r; rr_ToolResults := rr_ToolResults r; rr_AgentConsultOK := rr_AgentConsultOK r;
     rr_OutputAudioDone := rr_OutputAudioDone r; rr_SessionID := rr_SessionID r;
     rr_RelaySessionID := rr_RelaySessionID r; rr_AgentRunIDs := rr_AgentRunIDs r; rr_EventCounts := rr_EventCounts r;
     rr_ConnectAuth := rr_ConnectAuth r; rr_Errors := rr_Errors r; rr_Events := rr_Events r |}.
Definition set_rr_ToolCalls (x : Z) (r : Result) : Result :=
  {| rr_SchemaVersion := rr_SchemaVersion r; rr_Transcript := rr_Transcript r; rr_OutputText := rr_OutputText r;
     rr_OriginalPrompt := rr_OriginalPrompt r; rr_TranscriptDone := rr_TranscriptDone r;
     rr_TranscriptDoneParts := rr_TranscriptDoneParts r; rr_ProviderToolQuestion := rr_ProviderToolQuestion r;
     rr_AgentQuestionUsed := rr_AgentQuestionUsed r; rr_ToolCalls := x; rr_ToolResults := rr_ToolResults r;
     rr_AgentConsultOK := rr_AgentConsultOK r; rr_OutputAudioDone := rr_OutputAudioDone r;
     rr_SessionID := rr_SessionID r; rr_RelaySessionID := rr_RelaySessionID r; rr_AgentRunIDs := rr_AgentRunIDs r;
     rr_EventCounts := rr_EventCounts r; rr_ConnectAuth := rr_ConnectAuth r; rr_Errors := rr_Errors r;
     rr_Events := rr_Events r |}.
Definition set_rr_ToolResults (x : Z) (r : Result) : Result :=
  {| rr_SchemaVersion := rr_SchemaVersion r; rr_Transcript := rr_Transcript r; rr_OutputText := rr_OutputText r;
     rr_OriginalPrompt := rr_OriginalPrompt r; rr_TranscriptDone := rr_TranscriptDone r;
     rr_TranscriptDoneParts := rr_TranscriptDoneParts r; rr_ProviderToolQuestion := rr_ProviderToolQuestion r;
     rr_AgentQuestionUsed := rr_AgentQuestionUsed r; rr_ToolCalls := rr_ToolCalls r; rr_ToolResults := x;
     rr_AgentConsultOK := rr_AgentConsultOK r; rr_OutputAudioDone := rr_OutputAudioDone r;
     rr_SessionID := rr_SessionID r; rr_RelaySessionID := rr_RelaySessionID r; rr_AgentRunIDs := rr_AgentRunIDs r;
     rr_EventCounts := rr_EventCounts r; rr_ConnectAuth := rr_ConnectAuth r; rr_Errors := rr_Errors r;
     rr_Events := rr_Events r |}.
Definition set_rr_AgentConsultOK (x : bool) (r : Result) : Result :=
  {| rr_SchemaVersion := rr_SchemaVersion r; rr_Transcript := rr_Transcript r; rr_OutputText := rr_OutputText r;
     rr_OriginalPrompt := rr_OriginalPrompt r; rr_TranscriptDone := rr_TranscriptDone r;
     rr_TranscriptDoneParts := rr_TranscriptDoneParts r; rr_ProviderToolQuestion := rr_ProviderToolQuestion r;
     rr_AgentQuestionUsed := rr_AgentQuestionUsed r; rr_ToolCalls := rr_ToolCalls r; rr_ToolResults := rr_ToolResults r;
     rr_AgentConsultOK := x; rr_OutputAudioDone := rr_OutputAudioDone r; rr_SessionID := rr_SessionID r;
     rr_RelaySessionID := rr_RelaySessionID r; rr_AgentRunIDs := rr_AgentRunIDs r; rr_EventCounts := rr_EventCounts r;
     rr_ConnectAuth := rr_ConnectAuth r; rr_Errors := rr_Errors r; rr_Events := rr_Events r |}.
Definition set_rr_OutputAudioDone (x : bool) (r : Result) : Result :=
  {| rr_SchemaVersion := rr_SchemaVersion r; rr_Transcript := rr_Transcript r; rr_OutputText := rr_OutputText r;
     rr_OriginalPrompt := rr_OriginalPrompt r; rr_TranscriptDone := rr_TranscriptDone r;
     rr_TranscriptDoneParts := rr_TranscriptDoneParts r; rr_ProviderToolQuestion := rr_ProviderToolQuestion r;
     rr_AgentQuestionUsed := rr_AgentQuestionUsed r; rr_ToolCalls := rr_ToolCalls r; rr_ToolResults := rr_ToolResults r;
     rr_AgentConsultOK := rr_AgentConsultOK r; rr_OutputAudioDone := x; rr_SessionID := rr_SessionID r;
     rr_RelaySessionID := rr_RelaySessionID r; rr_AgentRunIDs := rr_AgentRunIDs r; rr_EventCounts := rr_EventCounts r;
     rr_ConnectAuth := rr_ConnectAuth r; rr_Errors := rr_Errors r; rr_Events := rr_Events r |}.
Definition set_rr_AgentRunIDs (x : list string) (r : Result) : Result :=
  {| rr_SchemaVersion := rr_SchemaVersion r; rr_Transcript := rr_Transcript r; rr_OutputText := rr_OutputText r;
     rr_OriginalPrompt := rr_OriginalPrompt r; rr_TranscriptDone := rr_TranscriptDone r;
     rr_TranscriptDoneParts := rr_TranscriptDoneParts r; rr_ProviderToolQuestion := rr_ProviderToolQuestion r;
     rr_AgentQuestionUsed := rr_AgentQuestionUsed r; rr_ToolCalls := rr_ToolCalls r; rr_ToolResults := rr_ToolResults r;
     rr_AgentConsultOK := rr_AgentConsultOK r; rr_OutputAudioDone := rr_OutputAudioDone r;
     rr_SessionID := rr_SessionID r; rr_RelaySessionID := rr_RelaySessionID r; rr_AgentRunIDs := x;
     rr_EventCounts := rr_EventCounts r; rr_ConnectAuth := rr_ConnectAuth r; rr_Errors := rr_Errors r;
     rr_Events := rr_Events r |}.
Definition set_rr_EventCounts (x : gmap string Z) (r : Result) : Result :=
  {| rr_SchemaVersion := rr_SchemaVersion r; rr_Transcript := rr_Transcript r; rr_OutputText := rr_OutputText r;
     rr_OriginalPrompt := rr_OriginalPrompt r; rr_TranscriptDone := rr_TranscriptDone r;
     rr_TranscriptDoneParts := rr_TranscriptDoneParts r; rr_ProviderToolQuestion := rr_ProviderToolQuestion r;
     rr_AgentQuestionUsed := rr_AgentQuestionUsed r; rr_ToolCalls := rr_ToolCalls r; rr_ToolResults := rr_ToolResults r;
     rr_AgentConsultOK := rr_AgentConsultOK r; rr_OutputAudioDone := rr_OutputAudioDone r;
     rr_SessionID := rr_SessionID r; rr_RelaySessionID := rr_RelaySessionID r; rr_AgentRunIDs := rr_AgentRunIDs r;
     rr_EventCounts := x; rr_ConnectAuth := rr_ConnectAuth r; rr_Errors := rr_Errors r; rr_Events := rr_Events r |}.
Definition set_rr_Errors (x : list string) (r : Result) : Result :=
  {| rr_SchemaVersion := rr_SchemaVersion r; rr_Transcript := rr_Transcript r; rr_OutputText := rr_OutputText r;
     rr_OriginalPrompt := rr_OriginalPrompt r; rr_TranscriptDone := rr_TranscriptDone r;
     rr_TranscriptDoneParts := rr_TranscriptDoneParts r; rr_ProviderToolQuestion := rr_ProviderToolQuestion r;
     rr_AgentQuestionUsed := rr_AgentQuestionUsed r; rr_ToolCalls := rr_ToolCalls r; rr_ToolResults := rr_ToolResults r;
     rr_AgentConsultOK := rr_AgentConsultOK r; rr_OutputAudioDone := rr_OutputAudioDone r;
     rr_SessionID := rr_SessionID r; rr_RelaySessionID := rr_RelaySessionID r; rr_AgentRunIDs := rr_AgentRunIDs r;
     rr_EventCounts := rr_EventCounts r; rr_ConnectAuth := rr_ConnectAuth r; rr_Errors := x; rr_Events := rr_Events r |}.
Definition set_rr_Events (x : option (list Frame)) (r : Result) : Result :=
  {| rr_SchemaVersion := rr_SchemaVersion r; rr_Transcript := rr_Transcript r; rr_OutputText := rr_OutputText r;
     rr_OriginalPrompt := rr_OriginalPrompt r; rr_TranscriptDone := rr_TranscriptDone r;
     rr_TranscriptDoneParts := rr_TranscriptDoneParts r; rr_ProviderToolQuestion := rr_ProviderToolQuestion r;
     rr_AgentQuestionUsed := rr_AgentQuestionUsed r; rr_ToolCalls := rr_ToolCalls r; rr_ToolResults := rr_ToolResults r;
     rr_AgentConsultOK := rr_AgentConsultOK r; rr_OutputAudioDone := rr_OutputAudioDone r;
     rr_SessionID := rr_SessionID r; rr_RelaySessionID := rr_RelaySessionID r; rr_AgentRunIDs := rr_AgentRunIDs r;
     rr_EventCounts := rr_EventCounts r; rr_ConnectAuth := rr_ConnectAuth r; rr_Errors := rr_Errors r; rr_Events := x |}.
Definition set_rr_session (session relay : option string) (r : Result) : Result :=
  {| rr_SchemaVersion := rr_SchemaVersion r; rr_Transcript := rr_Transcript r; rr_OutputText := rr_OutputText r;
     rr_OriginalPrompt := rr_OriginalPrompt r; rr_TranscriptDone := rr_TranscriptDone r;
     rr_TranscriptDoneParts := rr_TranscriptDoneParts r; rr_ProviderToolQuestion := rr_ProviderToolQuestion r;
     rr_AgentQuestionUsed := rr_AgentQuestionUsed r; rr_ToolCalls := rr_ToolCalls r; rr_ToolResults := rr_ToolResults r;
     rr_AgentConsultOK := rr_AgentConsultOK r; rr_OutputAudioDone := rr_OutputAudioDone r; rr_SessionID := session;
     rr_RelaySessionID := relay; rr_AgentRunIDs := rr_AgentRunIDs r; rr_EventCounts := rr_EventCounts r;
     rr_ConnectAuth := rr_ConnectAuth r; rr_Errors := rr_Errors r; rr_Events := rr_Events r |}.
Definition set_rr_ConnectAuth (x : Frame) (r : Result) : Result :=
  {| rr_SchemaVersion := rr_SchemaVersion r; rr_Transcript := rr_Transcript r; rr_OutputText := rr_OutputText r;
     rr_OriginalPrompt := rr_OriginalPrompt r; rr_TranscriptDone := rr_TranscriptDone r;
     rr_TranscriptDoneParts := rr_TranscriptDoneParts r; rr_ProviderToolQuestion := rr_ProviderToolQuestion r;
     rr_AgentQuestionUsed := rr_AgentQuestionUsed r; rr_ToolCalls := rr_ToolCalls r; rr_ToolResults := rr_ToolResults r;
     rr_AgentConsultOK := rr_AgentConsultOK r; rr_OutputAudioDone := rr_OutputAudioDone r;
     rr_SessionID := rr_SessionID r; rr_RelaySessionID := rr_RelaySessionID r; rr_AgentRunIDs := rr_AgentRunIDs r;
     rr_EventCounts := rr_EventCounts r; rr_ConnectAuth := x; rr_Errors := rr_Errors r; rr_Events := rr_Events r |}.
Definition set_rr_questions (provider agent : string) (r : Result) : Result :=
  {| rr_SchemaVersion := rr_SchemaVersion r; rr_Transcript := rr_Transcript r; rr_OutputText := rr_OutputText r;
     rr_OriginalPrompt := rr_OriginalPrompt r; rr_TranscriptDone := rr_TranscriptDone r;
     rr_TranscriptDoneParts := rr_TranscriptDoneParts r; rr_ProviderToolQuestion := provider;
     rr_AgentQuestionUsed := agent; rr_ToolCalls := rr_ToolCalls r; rr_ToolResults := rr_ToolResults r;
     rr_AgentConsultOK := rr_AgentConsultOK r; rr_OutputAudioDone := rr_OutputAudioDone r;
     rr_SessionID := rr_SessionID r; rr_RelaySessionID := rr_RelaySessionID r; rr_AgentRunIDs := rr_AgentRunIDs r;
     rr_EventCounts := rr_EventCounts r; rr_ConnectAuth := rr_ConnectAuth r; rr_Errors := rr_Errors r;
     rr_Events := rr_Events r |}.
Definition ResultSchemaVersion : Z := 1.
Definition newResult (originalPrompt : string) : Result :=
  {| rr_SchemaVersion := ResultSchemaVersion; rr_Transcript := ""; rr_OutputText := ""; rr_OriginalPrompt := originalPrompt;
     rr_TranscriptDone := ""; rr_TranscriptDoneParts := []; rr_ProviderToolQuestion := ""; rr_AgentQuestionUsed := "";
     rr_ToolCalls := 0; rr_ToolResults := 0; rr_AgentConsultOK := false; rr_OutputAudioDone := false; rr_SessionID := None;
     rr_RelaySessionID := None; rr_AgentRunIDs := []; rr_EventCounts := ∅; rr_ConnectAuth := []; rr_Errors := [];
     rr_Events := Some [] |}.
Definition WithoutEvents (r : Result) : Result := set_rr_Events None r.
Definition IncrementEvent (name : string) (r : Result) : Result :=
  if String.eqb name "" then r
  else set_rr_EventCounts (<[name := default 0 (rr_EventCounts r !! name) + 1]> (rr_EventCounts r)) r.
Definition AppendError (message : string) (r : Result) : Result :=
  if String.eqb message "" then r else set_rr_Errors (rr_Errors r ++ [message]) r.
Definition FinalText (r : Result) : string := if String.eqb (rr_OutputText r) "" then rr_Transcript r else rr_OutputText r.

(** * runner.go *)

Record Audio := { au_Data : bytes; au_Rate : Z; au_BytesPerSample : Z; au_Encoding : string }.
(** [Options]; an [AudioProvider] is called once, with the session. *)
Record RunnerOptions (W : Type) := {
  rl_OriginalPrompt : string;
  rl_SessionMode : string;
  rl_SessionKey : string;
  rl_Provider : string;
  rl_Model : string;
  rl_Voice : string;
  rl_ReasoningEffort : string;
  rl_Audio : Audio;
  rl_AudioProvider : option (SessionInfo -> M W (Audio + err));
  rl_ChunkDuration : Z;
  rl_ListenDuration : Z;
  rl_QuietDuration : Z;
  rl_AgentWaitDuration : Z;
  rl_AgentWaitFallbackDuration : Z;
  rl_ToolCallTimeout : Z;
  rl_SubmitToolResultTimeout : Z;
  rl_AppendAudioTimeout : Z;
  rl_VADThreshold : option float64;
  rl_SilenceDurationMillis : option Z;
  rl_PrefixPaddingMillis : option Z;
  rl_AgentQuestionTemplate : string;
  rl_IncludeEvents : bool;
  rl_CloseGateway : bool
}.
Arguments rl_OriginalPrompt {W}.
Arguments rl_SessionMode {W}.
Arguments rl_SessionKey {W}.
Arguments rl_Provider {W}.
Arguments rl_Model {W}.
Arguments rl_Voice {W}.
Arguments rl_ReasoningEffort {W}.
Arguments rl_Audio {W}.
Arguments rl_AudioProvider {W}.
Arguments rl_ChunkDuration {W}.
Arguments rl_ListenDuration {W}.
Arguments rl_QuietDuration {W}.
Arguments rl_AgentWaitDuration {W}.
Arguments rl_AgentWaitFallbackDuration {W}.
Arguments rl_ToolCallTimeout {W}.
Arguments rl_SubmitToolResultTimeout {W}.
Arguments rl_AppendAudioTimeout {W}.
Arguments rl_VADThreshold {W}.
Arguments rl_SilenceDurationMillis {W}.
Arguments rl_PrefixPaddingMillis {W}.
Arguments rl_AgentQuestionTemplate {W}.
Arguments rl_IncludeEvents {W}.
Arguments rl_CloseGateway {W}.

Definition second : Z := 10 ^ 9.
Definition millisecond : Z := 10 ^ 6.
Definition SessionModeRealtime : string := "realtime".
Definition SessionModeTranscribe : string := "voice-transcribe".
Definition defaultSessionKey : string := "agent:main:aries-realtime".
Definition valueOrDefault (value fallback : string) : string := if String.eqb (TrimSpace value) "" then fallback else value.
Definition durationOrDefault (value fallback : Z) : Z := if value <=? 0 then fallback else value.

(** ** Audio *)

Definition maxRealtimeAudioBytes : Z := 32 * 2 ^ 20.
Definition maxRealtimeBytesPerSample : Z := 8.
Definition maxRealtimeChunkDuration : Z := 60 * second.
Definition defaultChunkDuration : Z := 50 * millisecond.
Definition audio_size (audio : Audio) : Z := Z.of_nat (length (au_Data audio)).
Definition validAudio (audio : Audio) : bool :=
  negb (audio_size audio =? 0) && (audio_size audio <=? maxRealtimeAudioBytes) &&
  (0 <? au_Rate audio) && (au_Rate audio <=? maxRealtimeSampleRate) &&
  (0 <? au_BytesPerSample audio) && (au_BytesPerSample audio <=? maxRealtimeBytesPerSample) &&
  (Z.rem (audio_size audio) (au_BytesPerSample audio) =? 0).
Definition realtimeAudioChunkSize (audio : Audio) (duration : Z) : Z :=
  let chunkSize := Z.quot (au_Rate audio * au_BytesPerSample audio * duration) second in
  let chunkSize := if chunkSize <? au_BytesPerSample audio then au_BytesPerSample audio else chunkSize in
  let chunkSize := chunkSize - Z.rem chunkSize (au_BytesPerSample audio) in
  if chunkSize <=? 0 then au_BytesPerSample audio else chunkSize.
Definition realtimeAudioTimestampMillis (audio : Audio) (offset : Z) : Z :=
  Z.quot (offset * 1000) (Z.max 1 (au_Rate audio * au_BytesPerSample audio)).

(** [base64.StdEncoding]. *)
Definition base64_char (n : Z) : ascii :=
  ascii_of_N (Z.to_N (if n <? 26 then 65 + n else if n <? 52 then 71 + n else if n <? 62 then n - 4 else if n =? 62 then 43 else 47)).
Fixpoint base64 (data : bytes) : bytes :=
  match data with
  | [] => []
  | [a] => [base64_char (byte_of a / 4); base64_char (byte_of a mod 4 * 16); "="%char; "="%char]
  | [a; b] => [base64_char (byte_of a / 4); base64_char (byte_of a mod 4 * 16 + byte_of b / 16);
               base64_char (byte_of b mod 16 * 4); "="%char]
  | a :: b :: c :: rest =>
      base64_char (byte_of a / 4) :: base64_char (byte_of a mod 4 * 16 + byte_of b / 16) ::
      base64_char (byte_of b mod 16 * 4 + byte_of c / 64) :: base64_char (byte_of c mod 64) :: base64 rest
  end.

(** ** The state of the events *)

(** [realtimeEventState]: a zero time is [None], and [es_output] is bounded. *)
Record eventState := {
  es_deadline : option Z;
  es_quiet : option Z;
  es_active : gset string;
  es_completed : gset string;
  es_failed : gmap string string;
  es_partial : string;
  es_partialPending : bool;
  es_latest : string;
  es_output : string
}.
Definition new_state : eventState :=
  {| es_deadline := None; es_quiet := None; es_active := ∅; es_completed := ∅; es_failed := ∅; es_partial := "";
     es_partialPending := false; es_latest := ""; es_output := "" |}.
Definition set_es_times (deadline quiet : option Z) (s : eventState) : eventState :=
  {| es_deadline := deadline; es_quiet := quiet; es_active := es_active s; es_completed := es_completed s; es_failed := es_failed s;
     es_partial := es_partial s; es_partialPending := es_partialPending s; es_latest := es_latest s; es_output := es_output s |}.
Definition set_es_runs (active completed : gset string) (failed : gmap string string) (s : eventState) : eventState :=
  {| es_deadline := es_deadline s; es_quiet := es_quiet s; es_active := active; es_completed := completed; es_failed := failed;
     es_partial := es_partial s; es_partialPending := es_partialPending s; es_latest := es_latest s; es_output := es_output s |}.
Definition set_es_transcript (partial : string) (pending : bool) (latest : string) (s : eventState) : eventState :=
  {| es_deadline := es_deadline s; es_quiet := es_quiet s; es_active := es_active s; es_completed := es_completed s;
     es_failed := es_failed s; es_partial := partial; es_partialPending := pending; es_latest := latest; es_output := es_output s |}.
Definition set_es_output (output : string) (s : eventState) : eventState :=
  {| es_deadline := es_deadline s; es_quiet := es_quiet s; es_active := es_active s; es_completed := es_completed s;
     es_failed := es_failed s; es_partial := es_partial s; es_partialPending := es_partialPending s; es_latest := es_latest s;
     es_output := output |}.
Definition hasActiveRuns (s : eventState) : bool := negb (bool_decide (es_active s = ∅)).
(** [WriteStringBounded]. *)
Definition defaultRealtimeOutputBufferSize : Z := 32 * 2 ^ 10.
Definition WriteStringBounded (text : string) (limit : Z) (value : string) : string :=
  if (limit <=? 0) || String.eqb text "" || (limit <=? len value) then value
  else
    let remaining := limit - len value in
    value +:+ (if remaining <? len text then of_bytes (take (Z.to_nat remaining) (to_bytes text)) else text).
Definition write_output (text : string) (s : eventState) : eventState :=
  set_es_output (WriteStringBounded text defaultRealtimeOutputBufferSize (es_output s)) s.
(** [appendUnrecoveredFailures]. *)
Definition appendUnrecoveredFailures (s : eventState) (r : Result) : Result :=
  fold_left (fun r runID => AppendError (default "" (es_failed s !! runID)) r) (sorted_keys (es_failed s)) r.

Definition talkPayloadDiagnostic (eventType : string) (payload : Frame) : string :=
  let text key := boundedDiagnostic (json_member key payload) in
  eventType +:+ ": " +:+ Or [text "message"; text "error"; text "reason"; text "code"; "protocol event reported an error"]%string.
Definition sorted_set (s : gset string) : list string := merge_sort string_le (elements s).

(** ** The runner *)

(** What a goroutine asks of the runtime besides the gateway; two goroutines run until both
    have ended. *)
Class Timers (W : Type) := {
  new_channel : M W nat;
  close_channel : nat -> M W unit;
  channel_closed : nat -> M W bool;
  cancel_of : Ctx -> M W unit;
  sleep : Ctx -> Z -> M W error
}.
Class Goroutines (W : Type) := both : forall {A B : Type}, M W A -> M W B -> M W (A * B).

Section Runner.
Variable strings_ToLower : string -> string.
Variable FormatFloat : float64 -> string.
Variable json_float : string -> float64.
Context {W : Type} `{!Runtime W} `{!Gateways W} `{!Timers W}.
Variable gateway : nat.
Variable options : RunnerOptions W.

Definition call_ok (method : string) (response : Frame + err) : Frame + err :=
  match response with
  | inr e => inr e
  | inl response => if frame_Bool response "ok" then inl response else inr (ResponseError method response)
  end.
Definition call_error {A} (r : A + err) : error := match r with inl _ => None | inr e => Some e end.

(** [sessionParams] and [createSession]. *)
Definition session_member (key value : string) : list (string * json) :=
  if String.eqb (TrimSpace value) "" then [] else [(key, JString value)].
Definition sessionParams : json :=
  let transcribe := String.eqb (rl_SessionMode options) SessionModeTranscribe in
  JObject
    ([("brain", JString (if transcribe then "none" else "agent-consult")%string);
      ("mode", JString (if transcribe then "transcription" else "realtime")%string)] ++
     session_member "model" (rl_Model options) ++
     (if transcribe then [] else [("prefixPaddingMs", JNumber (itoa (default 500 (rl_PrefixPaddingMillis options))))]) ++
     session_member "provider" (rl_Provider options) ++ session_member "reasoningEffort" (rl_ReasoningEffort options) ++
     [("sessionKey", JString (valueOrDefault (rl_SessionKey options) defaultSessionKey))] ++
     (if transcribe then [] else [("silenceDurationMs", JNumber (itoa (default 1500 (rl_SilenceDurationMillis options))))]) ++
     [("transport", JString "gateway-relay")] ++
     (if transcribe then []
      else [("vadThreshold", JNumber match rl_VADThreshold options with Some x => FormatFloat x | None => "0.3"%string end)]) ++
     session_member "voice" (rl_Voice options))%list%string.
Definition createSession (ctx : Ctx) : M W (SessionInfo + err) :=
  let* response := gw_Call gateway ctx "talk.session.create" sessionParams in
  ret match call_ok "talk.session.create" response with
      | inr e => inr e
      | inl response => sessionInfoFromPayload json_float (frame_Map response "payload")
      end.
Definition closeSession (ctx : Ctx) (session : SessionInfo) : M W error :=
  let* response := gw_Call gateway ctx "talk.session.close" (JObject [("sessionId", JString (si_SessionID session))]%string) in
  ret (call_error (call_ok "talk.session.close" response)).

(** [loadAudioForSession]: the audio to send. *)
Definition loadAudioForSession (session : SessionInfo) : M W (Audio + err) :=
  match rl_AudioProvider options with
  | None => ret (inl (rl_Audio options))
  | Some provider =>
      let* audio := provider session in
      ret match audio with
          | inr e => inr e
          | inl audio => if validAudio audio then inl audio else inr (ENew "realtime audio provider returned invalid audio")
          end
  end.

(** [appendAudio]: the chunks from an offset on; [fuel] bounds their number. *)
Definition append_params (session : SessionInfo) (audio : Audio) (offset : Z) (chunk : bytes) : json :=
  JObject [("audioBase64", JString (of_bytes (base64 chunk))); ("sessionId", JString (si_SessionID session));
           ("timestamp", JNumber (itoa (realtimeAudioTimestampMillis audio offset)))]%string.
Fixpoint append_from (fuel : nat) (ctx : Ctx) (session : SessionInfo) (audio : Audio) (chunkSize chunkDuration offset : Z) : M W error :=
  match fuel with
  | O => ret None
  | S fuel =>
      if audio_size audio <=? offset then ret None
      else
        let end_ := Z.min (offset + chunkSize) (audio_size audio) in
        let* response := gw_Call gateway (WithTimeout ctx (durationOrDefault (rl_AppendAudioTimeout options) (10 * second)))
          "talk.session.appendAudio" (append_params session audio offset (slice (au_Data audio) offset end_)) in
        match response with
        | inr e => ret (Some (EWrap ("talk.session.appendAudio chunk offset " +:+ itoa offset) e))
        | inl response =>
            if negb (frame_Bool response "ok") then ret (Some (ResponseError "talk.session.appendAudio" response))
            else if end_ <? audio_size audio then
              let* e := sleep ctx chunkDuration in
              match e with
              | Some e => ret (Some e)
              | None => append_from fuel ctx session audio chunkSize chunkDuration (offset + chunkSize)
              end
            else append_from fuel ctx session audio chunkSize chunkDuration (offset + chunkSize)
        end
  end.
Definition appendAudio (ctx : Ctx) (session : SessionInfo) (audio : Audio) : M W error :=
  let chunkDuration := durationOrDefault (rl_ChunkDuration options) defaultChunkDuration in
  append_from (S (length (au_Data audio))) ctx session audio (realtimeAudioChunkSize audio chunkDuration) chunkDuration 0.

(** [touchQuiet] and [extend]. *)
Definition touchQuiet (s : eventState) : M W eventState :=
  let* now := time_Now in
  ret (set_es_times (es_deadline s) (Some (now + durationOrDefault (rl_QuietDuration options) (8 * second))) s).
Definition extend (s : eventState) : M W eventState :=
  let* now := time_Now in
  let deadline := now + durationOrDefault (rl_AgentWaitDuration options) (60 * second) in
  ret (if match es_deadline s with Some d => d <? deadline | None => true end
       then set_es_times (Some deadline) (es_quiet s) s else s).

(** [processChatEvent]. *)
Definition known_run (runID : string) (r : Result) (s : eventState) : bool :=
  bool_decide (runID ∈ es_active s) || one_of runID (rr_AgentRunIDs r).
Definition chat_delta (event : chatEvent) (s : eventState) : M W eventState :=
  if String.eqb (ch_DeltaText event) "" then ret s
  else touchQuiet (write_output (ch_DeltaText event) (if ch_Replace event then set_es_output "" s else s)).
Definition chat_final (event : chatEvent) (s : eventState) : eventState :=
  let s := if negb (String.eqb (ch_MessageText event) "") && (len (es_output s) =? 0) then write_output (ch_MessageText event) s else s in
  set_es_runs (es_active s ∖ {[ch_RunID event]}) (es_completed s ∪ {[ch_RunID event]}) (delete (ch_RunID event) (es_failed s)) s.
Definition chat_failure (event : chatEvent) : string :=
  "agent run " +:+ ch_RunID event +:+ " ended with " +:+ ch_State event +:+ ": " +:+
  Or [ch_ErrorMessage event; ch_StopReason event; ch_State event] +:+
  (if String.eqb (ch_ErrorKind event) "" then "" else " (" +:+ ch_ErrorKind event +:+ ")").
Definition chat_failed (event : chatEvent) (s : eventState) : eventState :=
  if bool_decide (ch_RunID event ∈ es_completed s) then s
  else set_es_runs (es_active s ∖ {[ch_RunID event]}) (es_completed s) (<[ch_RunID event := chat_failure event]> (es_failed s)) s.
Definition chat_tool (event : chatEvent) (r : Result) : Result :=
  let name := frame_String (ch_Data event) "name" in
  let phase := frame_String (ch_Data event) "phase" in
  if String.eqb (ch_Stream event) "tool" && negb (String.eqb name "") && negb (String.eqb phase "")
  then IncrementEvent ("chat.tool." +:+ phase) r else r.
Definition processChatEvent (event : chatEvent) (r : Result) (s : eventState) : M W (Result * eventState) :=
  let r := IncrementEvent ("chat." +:+ ch_State event) (IncrementEvent "chat" r) in
  if negb (known_run (ch_RunID event) r s) then ret (r, s)
  else
    let* s := chat_delta event s in
    if String.eqb (ch_State event) "final" then let* s := touchQuiet (chat_final event s) in ret (r, s)
    else if one_of (ch_State event) ["error"; "aborted"]%string then let* s := touchQuiet (chat_failed event s) in ret (r, s)
    else let* s := extend s in let* s := touchQuiet s in ret (chat_tool event r, s).

(** [submitToolResult]. *)
Definition submitToolResult (ctx : Ctx) (toolCall : toolCallEvent) (toolResult : json) : M W error :=
  let* response := gw_Call gateway (WithTimeout ctx (durationOrDefault (rl_SubmitToolResultTimeout options) (30 * second)))
    "talk.session.submitToolResult"
    (JObject [("callId", JString (tc_CallID toolCall));
              ("options", JObject [("suppressResponse", JBool false); ("willContinue", JBool false)]);
              ("result", toolResult); ("sessionId", JString (Or [tc_RelaySessionID toolCall; tc_SessionID toolCall]))]%string) in
  ret (call_error (call_ok "talk.session.submitToolResult" response)).

(** [handleAgentControl]. *)
Definition control_result (toolCall : toolCallEvent) (s : eventState) : json :=
  let mode := strings_ToLower (TrimSpace (frame_String (tc_Args toolCall) "mode")) in
  let mode := if String.eqb mode "" then "status"%string else mode in
  let working := hasActiveRuns s in
  JObject [("activeRunIds", JArray (map JString (sorted_set (es_active s))));
           ("message", JString (if String.eqb mode "status"
              then (if working then "The agent is still working on the request." else "No agent run is currently active.")
              else "Control mode " +:+ quote mode +:+ " is not supported by this runner; status was returned instead."));
           ("mode", JString mode); ("ok", JBool true); ("status", JString (if working then "working" else "idle"))]%string.
Definition handleAgentControl (ctx : Ctx) (toolCall : toolCallEvent) (r : Result) (s : eventState) : M W (error * Result) :=
  let r := set_rr_ToolCalls (rr_ToolCalls r + 1) r in
  let* e := submitToolResult ctx toolCall (control_result toolCall s) in
  ret (e, match e with Some _ => r | None => set_rr_ToolResults (rr_ToolResults r + 1) r end).

(** [consultAgent]: the agent's run, with what the tool call is to be told. *)
Definition agent_question (toolCall : toolCallEvent) : string :=
  let question := frame_String (tc_Args toolCall) "question" in
  if String.eqb (rl_AgentQuestionTemplate options) "" then question
  else of_bytes (ReplaceAll (to_bytes (rl_AgentQuestionTemplate options)) (to_bytes "{question}") (to_bytes question)).
Definition consult_params (toolCall : toolCallEvent) : json :=
  let argument key := let value := frame_String (tc_Args toolCall) key in
                      if String.eqb value "" then [] else [(key, JString value)] in
  JObject ([("args", JObject (argument "context" ++ [("question", JString (agent_question toolCall))] ++ argument "responseStyle"));
            ("callId", JString (tc_CallID toolCall)); ("name", JString (tc_Name toolCall))] ++
           (if String.eqb (tc_RelaySessionID toolCall) "" then [] else [("relaySessionId", JString (tc_RelaySessionID toolCall))]) ++
           [("sessionKey", JString (valueOrDefault (rl_SessionKey options) defaultSessionKey))])%list%string.
Definition consultAgent (ctx : Ctx) (toolCall : toolCallEvent) : M W (json * string + err) :=
  if negb (String.eqb (tc_Name toolCall) "openclaw_agent_consult")
  then ret (inr (ENew ("runner does not handle tool " +:+ quote (tc_Name toolCall))))
  else
    let* response := gw_Call gateway (WithTimeout ctx (durationOrDefault (rl_ToolCallTimeout options) (60 * second)))
      "talk.client.toolCall" (consult_params toolCall) in
    ret match call_ok "talk.client.toolCall" response with
        | inr e => inr e
        | inl response =>
            let payload := frame_Map response "payload" in
            let runID := frame_String payload "runId" in
            if String.eqb runID "" then inr (ENew "talk.client.toolCall response missing payload.runId")
            else inl (JObject payload, runID)
        end.
Definition note_questions (toolCall : toolCallEvent) (r : Result) : Result :=
  let provider := frame_String (tc_Args toolCall) "question" in
  let agent := agent_question toolCall in
  set_rr_questions (if String.eqb provider "" then rr_ProviderToolQuestion r else provider)
    (if String.eqb agent "" then rr_AgentQuestionUsed r else agent) r.
(** [handleToolCall]: the agent's run, or none. *)
Definition handleToolCall (ctx : Ctx) (toolCall : toolCallEvent) (r : Result) : M W (string * error * Result) :=
  let r := set_rr_ToolCalls (rr_ToolCalls r + 1) r in
  let* outcome := consultAgent ctx toolCall in
  let r := note_questions toolCall r in
  let '(toolResult, runID, r) :=
    match outcome with
    | inl (toolResult, runID) =>
        (toolResult, runID, set_rr_AgentConsultOK true (set_rr_AgentRunIDs (rr_AgentRunIDs r ++ [runID]) r))
    | inr e => (JObject [("error", JString (Error e))]%string, ""%string, AppendError (Error e) r)
    end in
  let* e := submitToolResult ctx toolCall toolResult in
  ret (runID, e, match e with Some _ => r | None => set_rr_ToolResults (rr_ToolResults r + 1) r end).
(** [processToolCall]. *)
Definition processToolCall (ctx : Ctx) (talk : talkEvent) (r : Result) (s : eventState) : M W (error * Result * eventState) :=
  match toolCallEventFromTalk talk with
  | None => ret (None, r, s)
  | Some toolCall =>
      if String.eqb (tc_Name toolCall) "openclaw_agent_control" then
        let* (e, r) := handleAgentControl ctx toolCall r s in
        match e with
        | Some e => ret (Some e, r, s)
        | None => let* s := touchQuiet s in ret (None, r, s)
        end
      else
        let* (runID, e, r) := handleToolCall ctx toolCall r in
        match e with
        | Some e => ret (Some e, r, s)
        | None =>
            let* s := if String.eqb runID "" then ret s
                      else extend (set_es_runs (es_active s ∪ {[runID]}) (es_completed s) (es_failed s) s) in
            let* s := touchQuiet s in
            ret (None, r, s)
        end
  end.

(** [processFrame]. *)
Definition acceptTranscriptDone (talk : talkEvent) : bool :=
  String.eqb (rl_SessionMode options) SessionModeTranscribe || String.eqb (frame_String (tk_Payload talk) "role") "user".
Definition transcript_done (text : string) (r : Result) : Result :=
  set_rr_Transcript text (set_rr_TranscriptDoneParts (rr_TranscriptDoneParts r ++ [text]) (set_rr_TranscriptDone text r)).
Definition count_talk (talk : talkEvent) (r : Result) : Result :=
  IncrementEvent (tk_EventType talk) (IncrementEvent (Or [frame_String (tk_Wrapper talk) "type"; tk_EventType talk]) r).
Definition processTalkEvent (ctx : Ctx) (talk : talkEvent) (r : Result) (s : eventState) : M W (error * Result * eventState) :=
  let text := textFromPayload (tk_Payload talk) in
  let kind := tk_EventType talk in
  let quiet r s := let* s := touchQuiet s in ret (None, r, s) in
  if String.eqb kind "output.audio.done" then ret (None, set_rr_OutputAudioDone true r, s)
  else if String.eqb kind "transcript.delta" then
    if String.eqb text "" then ret (None, r, s) else quiet r (set_es_transcript text true (es_latest s) s)
  else if String.eqb kind "transcript.done" then
    if String.eqb text "" || negb (acceptTranscriptDone talk) then ret (None, r, s)
    else quiet (transcript_done text r) (set_es_transcript (es_partial s) false text s)
  else if String.eqb kind "tool.call" then processToolCall ctx talk r s
  else if one_of kind ["tool.result"; "tool.progress"; "turn.ended"; "session.closed"]%string then quiet r s
  else if one_of kind ["output.text.delta"; "output.text.done"]%string then
    if String.eqb text "" then ret (None, r, s) else quiet r (write_output text s)
  else if one_of kind ["session.error"; "tool.error"; "turn.cancelled"]%string then
    quiet (AppendError (talkPayloadDiagnostic kind (tk_Payload talk)) r) s
  else ret (None, r, s).
Definition processFrame (ctx : Ctx) (frame : Frame) (r : Result) (s : eventState) : M W (error * Result * eventState) :=
  match chatEventFromFrame frame with
  | Some chat => let* (r, s) := processChatEvent chat r s in ret (None, r, s)
  | None =>
      match talkEventFromFrame frame with
      | None => ret (None, r, s)
      | Some talk => processTalkEvent ctx talk (count_talk talk r) s
      end
  end.

(** [finishActiveAgentRuns], over the runs in the order of the map's iteration. *)
Definition wait_failure (runID : string) (response : Frame + err) : string :=
  match response with
  | inr e => "timeout waiting for agent run " +:+ runID +:+ "; agent.wait failed: " +:+ Error e
  | inl response =>
      let payload := frame_Map response "payload" in
      let status := frame_String payload "status" in
      if EqualFold status "ok" then ""
      else "agent run " +:+ runID +:+ " did not finish cleanly: " +:+
           Or [frame_String payload "error"; frame_String payload "stopReason"; status; "unknown status"]%string
  end.
Fixpoint finishActiveAgentRuns (ctx : Ctx) (runs : list string) (r : Result) : M W Result :=
  match runs with
  | [] => ret r
  | runID :: runs =>
      let fallback := durationOrDefault (rl_AgentWaitFallbackDuration options) (15 * second) in
      let* response := gw_Call gateway (WithTimeout ctx fallback) "agent.wait"
        (JObject [("runId", JString runID); ("timeoutMs", JNumber (itoa (Z.max 1 (Z.quot fallback millisecond))))]%string) in
      finishActiveAgentRuns ctx runs (AppendError (wait_failure runID response) r)
  end.

(** [processEvents]: the loop, with a bound on its turns ([None]: not over by then), and
    the end. *)
Definition listen (audioDone : nat) (listening : bool) (s : eventState) : M W (bool * eventState) :=
  if listening then ret (true, s)
  else
    let* closed := channel_closed audioDone in
    if closed then
      let* now := time_Now in
      ret (true, set_es_times (Some (now + durationOrDefault (rl_ListenDuration options) (180 * second))) (es_quiet s) s)
    else ret (false, s).
(** Until when to wait for an event; the quiet time counts when no run is active. *)
Definition quiet_until (s : eventState) : option Z := if hasActiveRuns s then None else es_quiet s.
Definition wait_until (listening : bool) (s : eventState) (now : Z) : Z :=
  if listening then
    let deadline := default 0 (es_deadline s) in
    match quiet_until s with Some quiet => Z.min quiet deadline | None => deadline end
  else now + 100 * millisecond.
Definition over (listening : bool) (s : eventState) (now : Z) : bool :=
  listening && match es_deadline s with Some deadline => deadline <=? now | None => true end.
Definition gone_quiet (listening : bool) (s : eventState) (now : Z) : bool :=
  listening && match quiet_until s with Some quiet => quiet <=? now | None => false end.
Definition keep_event (frame : Frame) (r : Result) : Result :=
  if rl_IncludeEvents options then set_rr_Events (Some (default [] (rr_Events r) ++ [frame])) r else r.
Fixpoint event_loop (fuel : nat) (ctx : Ctx) (audioDone : nat) (listening : bool) (r : Result) (s : eventState) :
    M W (option (error * Result * eventState)) :=
  match fuel with
  | O => ret None
  | S fuel =>
      let* (listening, s) := listen audioDone listening s in
      let* now := time_Now in
      let* now' := if listening then time_Now else ret now in
      if over listening s now' then ret (Some (None, r, s))
      else
        let* frame := gw_RecvEvent gateway (WithDeadline ctx (wait_until listening s now)) in
        match frame with
        | inl frame =>
            let* (e, r, s) := processFrame ctx frame (keep_event frame r) s in
            match e with
            | Some e => ret (Some (Some e, r, s))
            | None => event_loop fuel ctx audioDone listening r s
            end
        | inr e =>
            if errors_Is e DeadlineExceeded then
              let* done := ctx_Err ctx in
              match done with
              | Some x => ret (Some (Some (ESentinel x), r, s))
              | None =>
                  let* now := if listening && is_some (quiet_until s) then time_Now else ret 0 in
                  if gone_quiet listening s now then ret (Some (None, r, s))
                  else event_loop fuel ctx audioDone listening r s
              end
            else ret (Some (Some e, r, s))
        end
  end.
Definition final_transcript (r : Result) (s : eventState) : error :=
  if negb (String.eqb (rl_SessionMode options) SessionModeTranscribe) then None
  else (refuse_if String.eqb (rr_TranscriptDone r) "" with "missing_final_transcript: no final transcript.done event was observed") >>?
       (refuse_if es_partialPending s with "incomplete_final_transcript: latest transcript.delta was not finalized").
Definition processEvents (fuel : nat) (ctx : Ctx) (audioDone : nat) (r : Result) : M W (option (error * Result)) :=
  let* ended := event_loop fuel ctx audioDone false r new_state in
  match ended with
  | None => ret None
  | Some (Some e, r, _) => ret (Some (Some e, r))
  | Some (None, r, s) =>
      let* fatal := gw_FatalError gateway in
      match fatal with
      | Some e => ret (Some (Some e, r))
      | None =>
          let r := set_rr_Transcript (if String.eqb (es_latest s) "" then es_partial s else es_latest s) r in
          match final_transcript r s with
          | Some e => ret (Some (Some e, r))
          | None =>
              let r := set_rr_OutputText (es_output s) r in
              let* r := finishActiveAgentRuns ctx (elements (es_active s)) r in
              ret (Some (None, appendUnrecoveredFailures s r))
          end
      end
  end.

(** [Run]. The audio is sent while the events are read; the result belongs to the reader
    until it has ended. *)
Definition scrubRealtimeEvents (r : Result) : Result := if rl_IncludeEvents options then r else WithoutEvents r.
Definition failed (e : err) (r : Result) : Result * Result * error :=
  let r := AppendError (Error e) r in (r, WithoutEvents r, Some e).
Definition send_audio (ctx eventCtx : Ctx) (session : SessionInfo) (audio : Audio) (audioDone : nat) : M W error :=
  let* e := appendAudio ctx session audio in
  let* _ := close_channel audioDone in
  let* _ := match e with Some _ => cancel_of eventCtx | None => ret tt end in
  ret e.
Context `{!Goroutines W}.
(** The variable [result], what is returned for it, and the error. *)
Definition run_session (fuel : nat) (ctx : Ctx) (session : SessionInfo) (r : Result) : M W (Result * Result * error) :=
  let* audio := loadAudioForSession session in
  match audio with
  | inr e => ret (failed e r)
  | inl audio =>
      let eventCtx := WithCancel ctx in
      let* audioDone := new_channel in
      let* (ended, appendErr) := both (processEvents fuel eventCtx audioDone r) (send_audio ctx eventCtx session audio audioDone) in
      let (eventErr, r) := default (Some (ESentinel DeadlineExceeded), r) ended in
      match appendErr with
      | Some appendErr =>
          ret (failed match eventErr with
                      | Some e => if errors_Is e Canceled then appendErr else EJoin [appendErr; e]
                      | None => appendErr
                      end r)
      | None =>
          let* _ := cancel_of eventCtx in
          ret match eventErr with
              | Some e => let r := AppendError (Error e) r in (r, scrubRealtimeEvents r, Some e)
              | None => (r, scrubRealtimeEvents r, None)
              end
      end
  end.
Definition connect_auth (summary : ConnectSummary) : Frame :=
  [("role", JString (cs_Role summary)); ("scopes", JArray (map JString (cs_Scopes summary)))]%string.
Definition run_connected (fuel : nat) (ctx : Ctx) (r : Result) : M W (Result * error) :=
  let* connectSummary := gw_Connect gateway ctx in
  match connectSummary with
  | inr e => ret ((failed e r).1.2, Some e)
  | inl summary =>
      if negb (HasScope summary "operator.read") || negb (HasScope summary "operator.write")
      then let e := ENew "realtime gateway requires operator.read and operator.write scopes" in ret ((failed e r).1.2, Some e)
      else
        let r := set_rr_ConnectAuth (connect_auth summary) r in
        let* session := createSession ctx in
        match session with
        | inr e => ret ((failed e r).1.2, Some e)
        | inl session =>
            let relay := if String.eqb (si_RelaySessionID session) "" then rr_RelaySessionID r else Some (si_RelaySessionID session) in
            let* (r, out, e) := run_session fuel ctx session (set_rr_session (Some (si_SessionID session)) relay r) in
            if String.eqb (rl_SessionMode options) SessionModeTranscribe then
              let* closeErr := closeSession (WithTimeout (WithoutCancel ctx) (30 * second)) session in
              ret match closeErr with
                  | Some closeErr => (scrubRealtimeEvents (AppendError (Error closeErr) r), errors_Join [e; Some closeErr])
                  | None => (scrubRealtimeEvents r, e)
                  end
            else ret (out, e)
        end
  end.
Definition runner_Run (fuel : nat) (ctx : Ctx) : M W (Result * error) :=
  let* result := run_connected fuel ctx (newResult (rl_OriginalPrompt options)) in
  let* _ := if rl_CloseGateway options then let* _ := gw_Close gateway in ret tt else ret tt in
  ret result.

(** [New]: the session mode in effect. *)
Definition runner_New : string + err :=
  let mode := if String.eqb (rl_SessionMode options) "" then SessionModeRealtime else rl_SessionMode options in
  let audio := rl_Audio options in
  let e := (refuse_if negb (one_of mode [SessionModeRealtime; SessionModeTranscribe])
              with "realtime session mode must be realtime or voice-transcribe") >>?
           (refuse_if (audio_size audio =? 0) && negb (is_some (rl_AudioProvider options)) with "realtime audio is required") >>?
           (refuse_if negb (audio_size audio =? 0) && negb (validAudio audio) with "realtime audio is outside supported bounds") >>?
           (refuse_if maxRealtimeChunkDuration <? rl_ChunkDuration options
              with "realtime audio chunk duration exceeds supported bound") in
  match e with Some e => inr e | None => inl mode end.
End Runner.
