(* ===== verification/RealtimeSession.v ===== *)
(** The audio of a realtime session ([appendAudio] of Realtime) against the calls it makes:
    the chunks sent are the audio, cut between samples, in order, each at its offset.

    The events of a realtime session ([processEvents] of Realtime) against what it heard and
    asked: every tool call is answered once, every run of the agent is settled, and a
    transcription is final. *)

From S2P Require Import Prelude Utf8 Trace Core Config GatewayFrame GatewayRun Realtime.

(** * The trace of a session *)

(** What a session asks of its gateway and hears from it, with the answers. *)
Inductive gateway_event :=
| Asked (method : string) (params : json) (answer : Frame + err)
| Heard (frame : Frame + err).
#[export] Instance traced_gateways {W} `{Gateways W} : Gateways (W * list gateway_event) :=
  {| gw_Connect gateway ctx := silent (gw_Connect gateway ctx);
     gw_Call gateway ctx method params := logged (Asked method params) (gw_Call gateway ctx method params);
     gw_RecvEvent gateway ctx := logged Heard (gw_RecvEvent gateway ctx);
     gw_FatalError gateway := silent (gw_FatalError gateway);
     gw_Agent gateway ctx request := silent (gw_Agent gateway ctx request);
     gw_Close gateway := silent (gw_Close gateway) |}.
#[export] Instance traced_timers {W E} `{Timers W} : Timers (W * list E) :=
  {| new_channel := silent new_channel; close_channel n := silent (close_channel n); channel_closed n := silent (channel_closed n);
     cancel_of ctx := silent (cancel_of ctx); sleep ctx d := silent (sleep ctx d) |}.

(** The requests made, and whether an answer accepts its request. *)
Definition request_of (ev : gateway_event) : option (string * json) :=
  match ev with Asked method params _ => Some (method, params) | Heard _ => None end.
Definition requests (evs : list gateway_event) : list (string * json) := omap request_of evs.
Definition accepted (ev : gateway_event) : bool :=
  match ev with Asked _ _ (inl response) => frame_Bool response "ok" | _ => false end.

(** * The sizes *)

Lemma realtimeAudioChunkSize_aligned audio duration : 0 < au_BytesPerSample audio ->
  0 < realtimeAudioChunkSize audio duration /\ (au_BytesPerSample audio | realtimeAudioChunkSize audio duration).
Proof.
  intros Hb. unfold realtimeAudioChunkSize. set (q := Z.quot _ _). set (n := if q <? _ then _ else q).
  assert (Hn : au_BytesPerSample audio <= n) by (unfold n; destruct (Z.ltb_spec q (au_BytesPerSample audio)); lia).
  rewrite Z.rem_mod_nonneg by lia.
  pose proof (Z.mod_pos_bound n _ Hb). pose proof (Z.div_mod n (au_BytesPerSample audio) ltac:(lia)).
  assert (1 <= n / au_BytesPerSample audio) by (apply Z.div_le_lower_bound; lia).
  destruct (Z.leb_spec (n - n mod au_BytesPerSample audio) 0); [nia|]. split; [lia|].
  exists (n / au_BytesPerSample audio). lia.
Qed.

Lemma validAudio_bounds audio : validAudio audio = true ->
  0 < audio_size audio <= 32 * 2 ^ 20 /\ 0 < au_Rate audio <= 384000 /\ 0 < au_BytesPerSample audio <= 8 /\
  (au_BytesPerSample audio | audio_size audio).
Proof.
  unfold validAudio, maxRealtimeAudioBytes, maxRealtimeSampleRate, maxRealtimeBytesPerSample.
  rewrite !andb_true_iff, negb_true_iff, Z.eqb_neq, !Z.leb_le, !Z.ltb_lt, Z.eqb_eq.
  intros ((((((Hs & ?) & ?) & ?) & ?) & ?) & Hr). unfold audio_size in *. split_and!; try lia.
  apply Z.rem_divide in Hr; [done|lia].
Qed.
Lemma duration_bounds duration : duration <= maxRealtimeChunkDuration ->
  0 < durationOrDefault duration defaultChunkDuration <= 60 * 10 ^ 9.
Proof.
  unfold durationOrDefault, maxRealtimeChunkDuration, defaultChunkDuration, second, millisecond.
  intros Hd. destruct (Z.leb_spec duration 0); lia.
Qed.
Lemma audio_arithmetic audio duration : 0 < audio_size audio <= 32 * 2 ^ 20 -> 0 < au_Rate audio <= 384000 ->
  0 < au_BytesPerSample audio <= 8 -> 0 < duration <= 60 * 10 ^ 9 ->
  in_int64 (au_Rate audio * au_BytesPerSample audio * duration) /\
  in_int64 (audio_size audio + realtimeAudioChunkSize audio duration) /\ in_int64 (audio_size audio * 1000).
Proof.
  intros Hs Hr Hb Hd.
  assert (Hp : 0 < au_Rate audio * au_BytesPerSample audio <= 3072000) by nia.
  assert (Hq : 0 < au_Rate audio * au_BytesPerSample audio * duration <= 3072000 * (60 * 10 ^ 9)) by nia.
  unfold in_int64, min_int64, max_int64. split; [lia|]. split; [|lia].
  assert (Hc : realtimeAudioChunkSize audio duration <= 3072000 * 60 + 8).
  { unfold realtimeAudioChunkSize. rewrite Z.quot_div_nonneg by (unfold second; lia).
    assert (au_Rate audio * au_BytesPerSample audio * duration / second <= 3072000 * 60)
      by (apply Z.div_le_upper_bound; unfold second; lia).
    set (q := _ / second) in *. set (n := if q <? _ then _ else q).
    assert (0 < n <= 3072000 * 60 + 8) by (unfold n; destruct (Z.ltb_spec q (au_BytesPerSample audio)); lia).
    rewrite Z.rem_mod_nonneg by lia. pose proof (Z.mod_pos_bound n (au_BytesPerSample audio) ltac:(lia)).
    destruct (n - n mod au_BytesPerSample audio <=? 0); lia. }
  pose proof (realtimeAudioChunkSize_aligned audio duration ltac:(lia)). lia.
Qed.

Definition aligned (audio : Audio) (chunk : bytes) : Prop :=
  chunk <> [] /\ (au_BytesPerSample audio | Z.of_nat (length chunk)).
(** The requests for chunks from an offset on. *)
Fixpoint append_requests (session : SessionInfo) (audio : Audio) (offset : Z) (sent : list bytes) : list (string * json) :=
  match sent with
  | [] => []
  | chunk :: sent => ("talk.session.appendAudio"%string, append_params session audio offset chunk) ::
                     append_requests session audio (offset + Z.of_nat (length chunk)) sent
  end.
Definition audio_sent (session : SessionInfo) (audio : Audio) (offset : Z) (e : error) (evs : list gateway_event) : Prop :=
  exists sent rest,
    drop (Z.to_nat offset) (au_Data audio) = concat (sent ++ rest) /\ Forall (aligned audio) (sent ++ rest) /\
    requests evs = append_requests session audio offset sent /\ Forall (fun ev => accepted ev = true) (removelast evs) /\
    (e = None -> rest = [] /\ Forall (fun ev => accepted ev = true) evs).

Lemma chunk_end audio offset chunkSize : 0 <= offset < audio_size audio -> 0 < chunkSize ->
  (au_BytesPerSample audio | chunkSize) -> (au_BytesPerSample audio | audio_size audio - offset) ->
  let end_ := Z.min (offset + chunkSize) (audio_size audio) in
  0 <= offset < end_ /\ end_ <= audio_size audio /\ (au_BytesPerSample audio | end_ - offset) /\
  (au_BytesPerSample audio | audio_size audio - end_).
Proof.
  intros Ho Hc Hd Hr end_. unfold end_.
  destruct (Z.min_spec (offset + chunkSize) (audio_size audio)) as [[? ->]|[? ->]]; split_and!; try lia; try done.
  - by replace (offset + chunkSize - offset) with chunkSize by lia.
  - replace (audio_size audio - (offset + chunkSize)) with (audio_size audio - offset - chunkSize) by lia.
    by apply Z.divide_sub_r.
  - rewrite Z.sub_diag. apply Z.divide_0_r.
Qed.

Section Append.
Context {W : Type} `{!Gateways W} `{!Timers W}.
Variable gateway : nat.
Variable options : RunnerOptions (W * list gateway_event).

Lemma sent_nothing session audio offset : audio_size audio <= offset -> audio_sent session audio offset None [].
Proof.
  intros Ho. exists [], []. split_and!; try done.
  unfold audio_size in Ho. rewrite drop_ge by lia. done.
Qed.
(** A chunk, and the chunks after it. *)
Lemma sent_one session audio offset end_ answer e : 0 <= offset < end_ -> end_ <= audio_size audio ->
  (au_BytesPerSample audio | end_ - offset) -> (au_BytesPerSample audio | audio_size audio - end_) ->
  audio_sent session audio offset (Some e)
    [Asked "talk.session.appendAudio" (append_params session audio offset (slice (au_Data audio) offset end_)) answer].
Proof.
  intros Ho He Ha Hr. destruct (slice_split (au_Data audio) offset end_) as [Hs Hl]; [lia|done|].
  assert (Hal : aligned audio (slice (au_Data audio) offset end_)).
  { split; [intros Hx; rewrite Hx in Hl; simpl in Hl; lia|]. by rewrite Hl. }
  destruct (decide (end_ = audio_size audio)) as [->|Hne].
  - exists [slice (au_Data audio) offset (audio_size audio)], []. split_and!; [|by apply Forall_singleton|done|constructor|done].
    rewrite Hs. unfold audio_size. rewrite drop_ge by lia. done.
  - exists [slice (au_Data audio) offset end_], [drop (Z.to_nat end_) (au_Data audio)].
    split_and!; [by rewrite Hs; simpl; rewrite app_nil_r| |done|constructor|done].
    constructor; [done|]. constructor; [|done]. unfold aligned, audio_size in *.
    assert (Hd : Z.of_nat (length (drop (Z.to_nat end_) (au_Data audio))) = Z.of_nat (length (au_Data audio)) - end_)
      by (rewrite length_drop; lia).
    split; [intros Hx; rewrite Hx in Hd; simpl in Hd; lia|]. by rewrite Hd.
Qed.
Lemma sent_more session audio offset end_ response e evs : 0 <= offset < end_ -> end_ <= audio_size audio ->
  (au_BytesPerSample audio | end_ - offset) -> frame_Bool response "ok" = true ->
  audio_sent session audio end_ e evs ->
  audio_sent session audio offset e
    (Asked "talk.session.appendAudio" (append_params session audio offset (slice (au_Data audio) offset end_)) (inl response) :: evs).
Proof.
  intros Ho He Ha Hok (sent & rest & Hd & Hal & Hq & Hacc & Hend).
  destruct (slice_split (au_Data audio) offset end_) as [Hs Hl]; [lia|done|].
  exists (slice (au_Data audio) offset end_ :: sent), rest. split_and!.
  - by rewrite Hs, Hd.
  - constructor; [|done]. split; [intros Hx; rewrite Hx in Hl; simpl in Hl; lia|]. by rewrite Hl.
  - cbn [append_requests requests omap list_omap request_of]. unfold requests in Hq. rewrite Hl, Hq. do 2 f_equal. lia.
  - destruct evs; [done|]. cbn [removelast]. by constructor.
  - intros Hn. destruct (Hend Hn). split; [done|]. by constructor.
Qed.

Lemma append_from_done fuel ctx session audio chunkSize duration offset : audio_size audio <= offset ->
  append_from gateway options fuel ctx session audio chunkSize duration offset = ret None.
Proof. intros Ho. destruct fuel; [done|]. cbn [append_from]. by apply Z.leb_le in Ho as ->. Qed.
Lemma append_from_sends session audio chunkSize duration ctx : 0 < chunkSize -> (au_BytesPerSample audio | chunkSize) ->
  forall fuel offset, 0 <= offset -> (au_BytesPerSample audio | audio_size audio - offset) ->
  (audio_size audio - offset < Z.of_nat fuel) ->
  emits (append_from gateway options fuel ctx session audio chunkSize duration offset) (audio_sent session audio offset).
Proof.
  intros Hc Hac. induction fuel as [|fuel IH]; intros offset Ho Hr Hf; cbn [append_from].
  { apply emits_ret, sent_nothing. lia. }
  destruct (Z.leb_spec (audio_size audio) offset) as [Hle|Hlt]; [by apply emits_ret, sent_nothing|].
  destruct (chunk_end audio offset chunkSize) as (He & Hs & Ha & Hr'); [done..|].
  set (end_ := Z.min (offset + chunkSize) (audio_size audio)) in *.
  apply emits_call. intros [response|e]; [|apply emits_ret; by apply sent_one].
  destruct (frame_Bool response "ok") eqn:Hok; cbn [negb]; [|apply emits_ret; by apply sent_one].
  destruct (Z.ltb_spec end_ (audio_size audio)) as [Hmore|Hlast].
  - assert (Hend : offset + chunkSize = end_) by (unfold end_ in *; lia). rewrite Hend.
    apply emits_read. intros [e|]; [apply emits_ret; by apply sent_one|].
    eapply emits_mono; [apply IH; [lia|done|lia]|]. intros e evs. by apply sent_more.
  - rewrite append_from_done by (unfold end_ in *; lia). apply emits_ret, sent_more; [done..|].
    by apply sent_nothing.
Qed.

(** A voice session sends the audio it was given, all of it and nothing else.  For audio
    within the supported bounds and a chunk duration of at most a minute, [appendAudio] cuts
    the data between samples into non-empty chunks and sends a prefix of them in order, each
    at its offset; every request but the last is accepted before the next one is made; and
    when there is no error all were accepted and nothing is left to send.  The intermediate
    values of the chunk size and of every timestamp fit in 64 bits. *)
Theorem audio_sent_exactly ctx session audio :
  validAudio audio = true -> rl_ChunkDuration options <= maxRealtimeChunkDuration ->
  emits (appendAudio gateway options ctx session audio) (audio_sent session audio 0) /\
  in_int64 (au_Rate audio * au_BytesPerSample audio * durationOrDefault (rl_ChunkDuration options) defaultChunkDuration) /\
  in_int64 (audio_size audio + realtimeAudioChunkSize audio (durationOrDefault (rl_ChunkDuration options) defaultChunkDuration)) /\ in_int64 (audio_size audio * 1000).
Proof.
  intros Hv Hd. set (duration := durationOrDefault _ _). apply validAudio_bounds in Hv as (Hs & Hr & Hb & Ha).
  assert (Hdur : 0 < duration <= 60 * 10 ^ 9) by apply (duration_bounds _ Hd).
  destruct (realtimeAudioChunkSize_aligned audio duration) as [Hc Hac]; [lia|].
  split; [|by apply audio_arithmetic].
  apply append_from_sends; [done|done|done|by rewrite Z.sub_0_r|unfold audio_size; lia].
Qed.
End Append.

Module AudioDemo.
#[local] Instance demo_gateways : Gateways unit :=
  {| gw_Connect _ _ := ret (inr (ENew "refused")); gw_Call _ _ _ _ := ret (inl [("ok", JBool true)]%string);
     gw_RecvEvent _ _ := ret (inr (ESentinel DeadlineExceeded)); gw_FatalError _ := ret None;
     gw_Agent _ _ _ := ret ({| ar_RunID := ""; ar_Text := "" |}, None); gw_Close _ := ret None |}.
#[local] Instance demo_timers : Timers unit :=
  {| new_channel := ret 0%nat; close_channel _ := ret tt; channel_closed _ := ret true; cancel_of _ := ret tt; sleep _ _ := ret None |}.
(** Five samples of two bytes at 40 samples a second: chunks of four, four and two bytes. *)
Definition audio : Audio :=
  {| au_Data := to_bytes "0123456789"; au_Rate := 40; au_BytesPerSample := 2; au_Encoding := "pcm16" |}.
Definition options (W : Type) : RunnerOptions W :=
  {| rl_OriginalPrompt := ""; rl_SessionMode := SessionModeTranscribe; rl_SessionKey := ""; rl_Provider := ""; rl_Model := "";
     rl_Voice := ""; rl_ReasoningEffort := ""; rl_Audio := audio; rl_AudioProvider := None; rl_ChunkDuration := 0;
     rl_ListenDuration := 0; rl_QuietDuration := 0; rl_AgentWaitDuration := 0; rl_AgentWaitFallbackDuration := 0;
     rl_ToolCallTimeout := 0; rl_SubmitToolResultTimeout := 0; rl_AppendAudioTimeout := 0; rl_VADThreshold := None;
     rl_SilenceDurationMillis := None; rl_PrefixPaddingMillis := None; rl_AgentQuestionTemplate := "";
     rl_IncludeEvents := false; rl_CloseGateway := false |}.
Definition session : SessionInfo :=
  {| si_SessionID := "s"; si_RelaySessionID := ""; si_InputEncoding := "pcm16"; si_InputSampleRateHz := 40 |}.
Example three_chunks :
  requests (appendAudio 0 (options _) (Given 0) session audio (tt, [])).2.2 =
  append_requests session audio 0 [to_bytes "0123"; to_bytes "4567"; to_bytes "89"].
Proof. vm_compute. reflexivity. Qed.
Lemma audio_sent_exactly_witness :
  emits (appendAudio 0 (options (unit * list gateway_event)) (Given 0) session audio) (audio_sent session audio 0) /\
  in_int64 (40 * 2 * (50 * millisecond)) /\
  in_int64 (audio_size audio + realtimeAudioChunkSize audio (50 * millisecond)) /\ in_int64 (audio_size audio * 1000).
Proof.
  apply (audio_sent_exactly 0 (options (unit * list gateway_event)) (Given 0) session audio).
  - vm_compute. reflexivity.
  - vm_compute. discriminate.
Defined.
End AudioDemo.

(** * What a trace says *)

Definition frame_heard (ev : gateway_event) : option Frame := match ev with Heard (inl frame) => Some frame | _ => None end.
Definition heard (evs : list gateway_event) : list Frame := omap frame_heard evs.
(** The tool call of a frame. *)
Definition tool_call_of (frame : Frame) : option toolCallEvent :=
  match chatEventFromFrame frame with Some _ => None | None => talkEventFromFrame frame ≫= toolCallEventFromTalk end.
Definition tool_calls (evs : list gateway_event) : list toolCallEvent := omap tool_call_of (heard evs).
(** The answers to tool calls: the call answered, and whether the gateway accepted it. *)
Definition submission (ev : gateway_event) : option (string * bool) :=
  match ev with
  | Asked method params _ =>
      if String.eqb method "talk.session.submitToolResult" then Some (frame_String (to_Map (Some params)) "callId", accepted ev)
      else None
  | Heard _ => None
  end.
Definition submissions (evs : list gateway_event) : list (string * bool) := omap submission evs.
(** The runs of the agent that were started. *)
Definition run_started (ev : gateway_event) : option string :=
  match ev with
  | Asked method _ (inl response) =>
      let runID := frame_String (frame_Map response "payload") "runId" in
      if String.eqb method "talk.client.toolCall" && frame_Bool response "ok" && negb (String.eqb runID "") then Some runID else None
  | _ => None
  end.
Definition runs_started (evs : list gateway_event) : list string := omap run_started evs.
(** The end of a run, as a chat event reports it. *)
Definition chat_of (state : list string) (runID : string) (frame : Frame) (event : chatEvent) : Prop :=
  chatEventFromFrame frame = Some event /\ ch_RunID event = runID /\ one_of (ch_State event) state = true.
Definition run_completed (runID : string) (evs : list gateway_event) : Prop :=
  exists frame event, frame ∈ heard evs /\ chat_of ["final"%string] runID frame event.
(** The first text that says something. *)
Definition first_said (texts : list string) (text : string) : Prop :=
  exists before after, texts = before ++ text :: after /\ Forall (fun t => t = ""%string) before /\ text <> ""%string.
(** The diagnostic of a run that a chat event ended: the run, how it ended and why, with the
    kind of the error where one is given. *)
Definition chat_told (event : chatEvent) (message : string) : Prop :=
  exists reason, first_said [ch_ErrorMessage event; ch_StopReason event; ch_State event] reason /\
    message = "agent run " +:+ ch_RunID event +:+ " ended with " +:+ ch_State event +:+ ": " +:+ reason +:+
              (if String.eqb (ch_ErrorKind event) "" then "" else " (" +:+ ch_ErrorKind event +:+ ")").
Definition run_failed (runID message : string) (evs : list gateway_event) : Prop :=
  exists frame event, frame ∈ heard evs /\ chat_of ["error"; "aborted"]%string runID frame event /\ chat_told event message.
(** What a wait for a run answered: that it is over with the status [ok] (in any case of
    letters), or a diagnostic that names the run and says why. *)
Definition wait_ok (answer : Frame + err) : Prop :=
  exists response, answer = inl response /\ EqualFold (frame_String (frame_Map response "payload") "status") "ok" = true.
Definition wait_told (runID : string) (answer : Frame + err) (message : string) : Prop :=
  match answer with
  | inr e => message = "timeout waiting for agent run " +:+ runID +:+ "; agent.wait failed: " +:+ Error e
  | inl response =>
      let payload := frame_Map response "payload" in
      exists reason,
        first_said [frame_String payload "error"; frame_String payload "stopReason"; frame_String payload "status"; "unknown status"]%string reason /\
        message = "agent run " +:+ runID +:+ " did not finish cleanly: " +:+ reason
  end.
Definition run_waited (runID : string) (errors : list string) (evs : list gateway_event) : Prop :=
  exists params answer, Asked "agent.wait" params answer ∈ evs /\ frame_String (to_Map (Some params)) "runId" = runID /\
    (wait_ok answer \/ exists message, wait_told runID answer message /\ message ∈ errors).
Lemma Or_said texts : Exists (fun t => t <> ""%string) texts -> first_said texts (Or texts).
Proof.
  unfold Or. induction texts as [|t texts IH]; intros H; [by inversion H|]. cbn [List.find].
  destruct (String.eqb_spec t "") as [->|Ht]; cbn [negb]; [|by exists [], texts].
  inversion H as [? ? Hne|? ? Hex]; subst; [done|]. destruct (IH Hex) as (before & after & Heq & Hb & Hn).
  exists (""%string :: before), after. split_and!; [by rewrite Heq at 1|by constructor|done].
Qed.
Lemma chat_failure_told states event : ~ ""%string ∈ states -> one_of (ch_State event) states = true -> chat_told event (chat_failure event).
Proof.
  intros Hn Hs. exists (Or [ch_ErrorMessage event; ch_StopReason event; ch_State event]). split; [|done]. apply Or_said.
  apply Exists_exists. exists (ch_State event). split; [set_solver|]. intros He. apply Hn. rewrite <- He.
  unfold one_of in Hs. apply existsb_exists in Hs as (x & Hx & ->%String.eqb_eq). by apply list_elem_of_In.
Qed.
Lemma wait_failure_told runID answer : wait_ok answer /\ wait_failure runID answer = ""%string \/ wait_told runID answer (wait_failure runID answer).
Proof.
  unfold wait_failure, wait_ok, wait_told. destruct answer as [response|e]; [|by right]. cbv zeta.
  destruct (EqualFold _ "ok") eqn:Hs; [left; by eauto|right]. eexists. split; [|done]. apply Or_said. do 3 apply Exists_cons_tl. by left.
Qed.

Lemma heard_app evs evs' : heard (evs ++ evs') = heard evs ++ heard evs'.
Proof. apply omap_app. Qed.
Lemma tool_calls_app evs evs' : tool_calls (evs ++ evs') = tool_calls evs ++ tool_calls evs'.
Proof. unfold tool_calls. by rewrite heard_app, omap_app. Qed.
Lemma submissions_app evs evs' : submissions (evs ++ evs') = submissions evs ++ submissions evs'.
Proof. apply omap_app. Qed.
Lemma runs_started_app evs evs' : runs_started (evs ++ evs') = runs_started evs ++ runs_started evs'.
Proof. apply omap_app. Qed.

(** * Tool calls *)

(** The number of accepted answers. *)
Definition answered (evs : list gateway_event) : Z := Z.of_nat (length (List.filter snd (submissions evs))).
Lemma answered_app evs evs' : answered (evs ++ evs') = answered evs + answered evs'.
Proof. unfold answered. rewrite submissions_app, List.filter_app, length_app. lia. Qed.
(** The accounts of the result, about what has happened since [r]. *)
Record tools_since (calls : list toolCallEvent) (evs : list gateway_event) (r r' : Result) : Prop := {
  ts_submitted : map fst (submissions evs) = map tc_CallID calls;
  ts_calls : rr_ToolCalls r' = rr_ToolCalls r + Z.of_nat (length calls);
  ts_results : rr_ToolResults r' = rr_ToolResults r + answered evs;
  ts_runs : rr_AgentRunIDs r' = rr_AgentRunIDs r ++ runs_started evs
}.
Lemma tools_since_trans calls calls' evs evs' r r' r'' :
  tools_since calls evs r r' -> tools_since calls' evs' r' r'' -> tools_since (calls ++ calls') (evs ++ evs') r r''.
Proof.
  intros [Hs Hc Hr Hi] [Hs' Hc' Hr' Hi']. split.
  - by rewrite submissions_app, !map_app, Hs, Hs'.
  - rewrite Hc', Hc, length_app. lia.
  - rewrite Hr', Hr, answered_app. lia.
  - by rewrite Hi', Hi, runs_started_app, app_assoc.
Qed.
Definition same_tools (r r' : Result) : Prop := tools_since [] [] r r'.
Lemma same_tools_intro r r' : rr_ToolCalls r' = rr_ToolCalls r -> rr_ToolResults r' = rr_ToolResults r ->
  rr_AgentRunIDs r' = rr_AgentRunIDs r -> same_tools r r'.
Proof. intros Hc Hr Hi. split; [done|simpl; lia|rewrite Hr; unfold answered; simpl; lia|by rewrite Hi, app_nil_r]. Qed.
Ltac same_tools := apply same_tools_intro; repeat (unfold IncrementEvent, AppendError; case_match); done.

(** * The loop *)

Lemma if_same {A} (b : bool) (x : A) : (if b then x else x) = x.
Proof. by destruct b. Qed.

Section Session.
Variable strings_ToLower : string -> string.
Context {W : Type} `{!Runtime W} `{!Gateways W} `{!Timers W}.
Variable gateway : nat.
Variable options : RunnerOptions (W * list gateway_event).

Abbreviation traced_frame := (processFrame strings_ToLower gateway options).
Abbreviation traced_loop := (event_loop strings_ToLower gateway options).
Abbreviation traced_events := (processEvents strings_ToLower gateway options).

(** What holds in the loop ([J]), and after an error ([K]). *)
Record loop_invariant (J : list gateway_event -> Result -> eventState -> Prop) (K : list gateway_event -> Result -> Prop) : Prop := {
  li_times : forall evs r s deadline quiet, J evs r s -> J evs r (set_es_times deadline quiet s);
  li_nothing : forall evs r s e, J evs r s -> J (evs ++ [Heard (inr e)]) r s;
  li_error : forall evs r s, J evs r s -> K evs r;
  li_frame : forall ctx evs r s frame, J evs r s ->
    emits (traced_frame ctx frame (keep_event options frame r) s) (fun x evs' =>
      match x.1.1 with
      | None => J (evs ++ Heard (inl frame) :: evs') x.1.2 x.2
      | Some _ => K (evs ++ Heard (inl frame) :: evs') x.1.2
      end)
}.
Lemma event_loop_keeps J K : loop_invariant J K ->
  forall fuel ctx audioDone listening evs r s, J evs r s ->
  emits (traced_loop fuel ctx audioDone listening r s) (fun ended evs' =>
    match ended with
    | None => True
    | Some (None, r', s') => J (evs ++ evs') r' s'
    | Some (Some _, r', _) => K (evs ++ evs') r'
    end).
Proof.
  intros [Ht Hn He Hf]. induction fuel as [|fuel IH]; intros ctx audioDone listening evs r s HJ; cbn [event_loop].
  { by apply emits_ret. }
  eapply (emits_bind _ _ (fun x evs' => evs' = [] /\ J evs r x.2)).
  { unfold listen. emits_steps; (split; [done|]); by try apply Ht. }
  intros [listening' s'] ? [-> HJ']. cbn [snd] in HJ'. apply emits_read. intros now.
  apply (emits_bind _ _ (fun _ evs' => evs' = [])); [destruct listening'; [by apply emits_silent|by apply emits_ret]|].
  intros now' ? ->. destruct (over listening' s' now'); [apply emits_ret; by rewrite app_nil_r|].
  apply emits_call. intros [frame|e].
  - eapply emits_bind; [by apply Hf|]. intros [[e r'] s''] evs' HJ''. cbn [fst snd] in HJ''.
    destruct e as [e|]; [apply emits_ret; by rewrite app_nil_r|].
    eapply emits_mono; [by apply IH|]. intros [[[[]  ?] ?]|] ?; cbn [app]; rewrite <- ?app_assoc; done.
  - assert (HJ'' : J (evs ++ [Heard (inr e)]) r s') by by apply Hn.
    destruct (errors_Is e DeadlineExceeded); [|apply emits_ret; by eapply He].
    apply emits_read. intros [x|]; [apply emits_ret; by eapply He|].
    apply (emits_bind _ _ (fun _ evs' => evs' = [])).
    { destruct (listening' && _); [by apply emits_silent|by apply emits_ret]. }
    intros now'' ? ->. destruct (gone_quiet listening' s' now''); [by apply emits_ret|].
    eapply emits_mono; [by apply IH|]. intros [[[[] ?] ?]|] ?; cbn [app]; rewrite <- ?app_assoc; done.
Qed.

(** ** Tool calls *)

Lemma IncrementEvent_tools name r : same_tools r (IncrementEvent name r).
Proof. unfold IncrementEvent. case_match; by apply same_tools_intro. Qed.
Lemma AppendError_tools message r : same_tools r (AppendError message r).
Proof. unfold AppendError. case_match; by apply same_tools_intro. Qed.
Lemma same_tools_trans r r' r'' : same_tools r r' -> same_tools r' r'' -> same_tools r r''.
Proof. apply (tools_since_trans [] [] [] []). Qed.
Lemma keep_event_tools frame r : same_tools r (keep_event options frame r).
Proof. unfold keep_event. case_match; by apply same_tools_intro. Qed.
Lemma count_talk_tools talk r : same_tools r (count_talk talk r).
Proof. eapply same_tools_trans; apply IncrementEvent_tools. Qed.

Definition tools_step (call : option toolCallEvent) (r : Result) (x : error * Result * eventState) (evs : list gateway_event) : Prop :=
  heard evs = [] /\ tools_since (option_list call) evs r x.1.2 /\
  (x.1.1 = None -> Forall (fun answer => answer.2 = true) (submissions evs)).
Lemma tools_step_none r r' s : same_tools r r' -> tools_step None r (None, r', s) [].
Proof. done. Qed.

(** Whatever was asked before it, submitting a result answers the call. *)
Lemma submitToolResult_tools ctx toolCall result :
  emits (submitToolResult gateway options ctx toolCall result) (fun e evs =>
    heard evs = [] /\ submissions evs = [(tc_CallID toolCall, bool_decide (e = None))] /\ runs_started evs = []).
Proof.
  unfold submitToolResult. apply emits_call. intros answer. apply emits_ret. split_and!; [done| |by destruct answer].
  unfold submissions. simpl. do 2 f_equal. destruct answer as [response|e]; simpl; [|done].
  by destruct (frame_Bool response "ok").
Qed.
(** One call, answered once. *)
Lemma tools_step_call toolCall e evs r r' s :
  heard evs = [] -> submissions evs = [(tc_CallID toolCall, bool_decide (e = None))] ->
  rr_ToolCalls r' = rr_ToolCalls r + 1 ->
  rr_ToolResults r' = rr_ToolResults r + (if e then 0 else 1) ->
  rr_AgentRunIDs r' = rr_AgentRunIDs r ++ runs_started evs ->
  tools_step (Some toolCall) r (e, r', s) evs.
Proof.
  intros Hh Hs Hc Hr Hi. split; [done|]. cbn [fst snd]. split.
  - split; unfold answered; rewrite ?Hs; [done|done| |done]. by destruct e.
  - intros ->. rewrite Hs. by apply Forall_singleton.
Qed.
Lemma handleAgentControl_tools ctx toolCall r s :
  emits (handleAgentControl strings_ToLower gateway options ctx toolCall r s) (fun x evs => tools_step (Some toolCall) r (x, s) evs).
Proof.
  unfold handleAgentControl. eapply emits_bind; [apply submitToolResult_tools|]. intros e evs (Hh & Hs & Hr).
  apply emits_ret. rewrite app_nil_r.
  apply tools_step_call; [done|done|by destruct e|destruct e; simpl; lia|rewrite Hr, app_nil_r; by destruct e].
Qed.

(** A consultation asks at most once, and its run is the one it started. *)
Lemma consultAgent_tools ctx toolCall :
  emits (consultAgent gateway options ctx toolCall) (fun outcome evs =>
    heard evs = [] /\ submissions evs = [] /\
    runs_started evs = match outcome with inl (_, runID) => [runID] | inr _ => [] end /\
    match outcome with inl (_, runID) => runID <> ""%string | inr _ => True end).
Proof.
  unfold consultAgent. destruct (negb _); [by apply emits_ret|]. apply emits_call. intros answer. apply emits_ret.
  split; [done|]. split; [done|]. destruct answer as [response|e]; [|done]. unfold runs_started. simpl.
  destruct (frame_Bool response "ok"); [|done]. simpl.
  by destruct (String.eqb_spec (frame_String (frame_Map response "payload") "runId") "").
Qed.
Lemma note_questions_tools toolCall r : same_tools r (note_questions options toolCall r).
Proof. by apply same_tools_intro. Qed.
Lemma handleToolCall_tools ctx toolCall r s :
  emits (handleToolCall gateway options ctx toolCall r) (fun x evs => tools_step (Some toolCall) r (x.1.2, x.2, s) evs /\
    runs_started evs = if String.eqb x.1.1 "" then [] else [x.1.1]).
Proof.
  unfold handleToolCall. eapply emits_bind; [apply consultAgent_tools|]. intros outcome evs (Hh & Hs & Hr & Hne).
  destruct outcome as [[result runID]|e]; (eapply emits_bind; [apply submitToolResult_tools|]);
    intros e' evs' (Hh' & Hs' & Hr'); apply emits_ret; rewrite app_nil_r; cbn [fst snd].
  - split; [|rewrite runs_started_app, Hr, Hr'; by destruct (String.eqb_spec runID "")].
    apply tools_step_call; rewrite ?heard_app, ?submissions_app, ?runs_started_app, ?Hh, ?Hh', ?Hs, ?Hs', ?Hr, ?Hr'; try done;
      destruct e'; simpl; try done; lia.
  - split; [|by rewrite runs_started_app, Hr, Hr'].
    apply tools_step_call; rewrite ?heard_app, ?submissions_app, ?runs_started_app, ?Hh, ?Hh', ?Hs, ?Hs', ?Hr, ?Hr'; try done;
      unfold AppendError; destruct (String.eqb (Error e) ""), e'; simpl; rewrite ?app_nil_r; try done; lia.
Qed.

(** ** What a frame does *)

Definition es_runs (s : eventState) := (es_active s, es_completed s, es_failed s).
Definition es_words (s : eventState) := (es_partial s, es_partialPending s, es_latest s).
Definition rr_words (r : Result) := (rr_Transcript r, rr_TranscriptDone r, rr_TranscriptDoneParts r).
(** The transcript of a frame: whether it is final, and its text. *)
Definition transcript_of (frame : Frame) : option (bool * string) :=
  match chatEventFromFrame frame, talkEventFromFrame frame with
  | None, Some talk =>
      let text := textFromPayload (tk_Payload talk) in
      if String.eqb text "" then None
      else if String.eqb (tk_EventType talk) "transcript.delta" then Some (false, text)
      else if String.eqb (tk_EventType talk) "transcript.done" && acceptTranscriptDone options talk then Some (true, text)
      else None
  | _, _ => None
  end.
Definition words_moved (t : option (bool * string)) (r : Result) (s : eventState) (r' : Result) (s' : eventState) : Prop :=
  match t with
  | None => rr_words r' = rr_words r /\ es_words s' = es_words s
  | Some (false, text) => rr_words r' = rr_words r /\ es_words s' = (text, true, es_latest s)
  | Some (true, text) => rr_words r' = (text, text, rr_TranscriptDoneParts r ++ [text]) /\ es_words s' = (es_partial s, false, text)
  end.
(** The runs after a frame: new ones are active, and a chat event may end one. *)
Inductive runs_moved (frame : Frame) (started : list string) (s s' : eventState) : Prop :=
| runs_grew : es_runs s' = (es_active s ∪ list_to_set started, es_completed s, es_failed s) -> runs_moved frame started s s'
| run_final event : started = [] -> chatEventFromFrame frame = Some event -> ch_State event = "final"%string ->
    es_runs s' = es_runs (chat_final event s) -> runs_moved frame started s s'
| run_broken event : started = [] -> chatEventFromFrame frame = Some event -> one_of (ch_State event) ["error"; "aborted"]%string = true ->
    es_runs s' = es_runs (chat_failed event s) -> runs_moved frame started s s'.
Record frame_effect (frame : Frame) (r : Result) (s : eventState) (x : error * Result * eventState) (evs : list gateway_event) : Prop := {
  fe_tools : tools_step (tool_call_of frame) r x evs;
  fe_runs : x.1.1 = None -> runs_moved frame (runs_started evs) s x.2;
  fe_words : words_moved (transcript_of frame) r s x.1.2 x.2;
  fe_output : len (es_output s) <= defaultRealtimeOutputBufferSize -> len (es_output x.2) <= defaultRealtimeOutputBufferSize
}.

(** Times and counters are no part of it. *)
Lemma touchQuiet_emits s : emits (touchQuiet options s) (fun s' evs => evs = [] /\ exists quiet, s' = set_es_times (es_deadline s) quiet s).
Proof. unfold touchQuiet. apply emits_read. intros now. apply emits_ret. eauto. Qed.
Lemma extend_emits s : emits (extend options s) (fun s' evs => evs = [] /\ exists deadline, s' = set_es_times deadline (es_quiet s) s).
Proof.
  unfold extend. apply emits_read. intros now. apply emits_ret. split; [done|].
  destruct (es_deadline s) as [d|] eqn:Hd; [destruct (d <? _)|]; eauto.
  exists (Some d). rewrite <- Hd. by destruct s.
Qed.
Lemma WriteStringBounded_bounded text limit value : len value <= limit -> len (WriteStringBounded text limit value) <= limit.
Proof.
  intros Hv. unfold WriteStringBounded. destruct (_ || _) eqn:Hc; [done|]. rewrite !orb_false_iff in Hc.
  destruct Hc as [[_ _] Hl%Z.leb_gt]. rewrite len_app. destruct (Z.ltb_spec (limit - len value) (len text)) as [Ht|Ht]; [|lia].
  rewrite len_of_bytes, length_take. lia.
Qed.
Lemma write_output_bounded text s : len (es_output s) <= defaultRealtimeOutputBufferSize ->
  len (es_output (write_output text s)) <= defaultRealtimeOutputBufferSize.
Proof. apply WriteStringBounded_bounded. Qed.

(** What a computation on the state of the events leaves alone. *)
Definition same_runs (s s' : eventState) : Prop := es_runs s' = es_runs s /\ es_words s' = es_words s /\
  (len (es_output s) <= defaultRealtimeOutputBufferSize -> len (es_output s') <= defaultRealtimeOutputBufferSize).
Lemma same_runs_trans s s' s'' : same_runs s s' -> same_runs s' s'' -> same_runs s s''.
Proof. intros (H1 & H2 & H3) (H4 & H5 & H6). split_and!; [by rewrite H4|by rewrite H5|auto]. Qed.
Lemma same_runs_times s deadline quiet : same_runs s (set_es_times deadline quiet s).
Proof. done. Qed.
Lemma same_runs_output text s : same_runs s (write_output text s).
Proof. split_and!; [done..|apply write_output_bounded]. Qed.
Lemma touchQuiet_same s : emits (touchQuiet options s) (fun s' evs => evs = [] /\ same_runs s s').
Proof. eapply emits_mono; [apply touchQuiet_emits|]. by intros ? ? (-> & q & ->). Qed.
Lemma extend_same s : emits (extend options s) (fun s' evs => evs = [] /\ same_runs s s').
Proof. eapply emits_mono; [apply extend_emits|]. by intros ? ? (-> & q & ->). Qed.
Lemma chat_delta_same event s : emits (chat_delta options event s) (fun s' evs => evs = [] /\ same_runs s s').
Proof.
  unfold chat_delta. case_match; [by apply emits_ret|]. eapply emits_mono; [apply touchQuiet_same|].
  intros s' evs [-> Hs]. split; [done|]. eapply same_runs_trans; [|exact Hs].
  destruct (ch_Replace event); [|apply same_runs_output]. eapply same_runs_trans; [|apply same_runs_output].
  split_and!; [done..|]. intros _. vm_compute. discriminate.
Qed.
Lemma chat_final_output event s : len (es_output s) <= defaultRealtimeOutputBufferSize ->
  len (es_output (chat_final event s)) <= defaultRealtimeOutputBufferSize.
Proof. unfold chat_final. intros Hs. case_match; [by apply write_output_bounded|done]. Qed.

(** A frame that asks nothing. *)
Lemma quiet_effect frame r s r' s' : tool_call_of frame = None -> same_tools r r' ->
  (es_runs s' = es_runs s \/ runs_moved frame [] s s') ->
  words_moved (transcript_of frame) r s r' s' ->
  (len (es_output s) <= defaultRealtimeOutputBufferSize -> len (es_output s') <= defaultRealtimeOutputBufferSize) ->
  frame_effect frame r s (None, r', s') [].
Proof.
  intros Hc Ht Hr Hw Ho. split; [|intros _|done|done].
  - rewrite Hc. split; [done|]. split; [exact Ht|by constructor].
  - destruct Hr as [Hr|Hr]; [|done]. apply runs_grew. cbn [snd runs_started omap list_omap list_to_set]. rewrite Hr. cbn.
    by rewrite (right_id_L ∅ _).
Qed.

Lemma chat_effect frame event r s : chatEventFromFrame frame = Some event ->
  emits (processChatEvent options event r s) (fun x evs => frame_effect frame r s (None, x.1, x.2) evs).
Proof.
  intros Hf. assert (Hc : tool_call_of frame = None) by (unfold tool_call_of; by rewrite Hf).
  assert (Hw : forall r' s', rr_words r' = rr_words r -> es_words s' = es_words s -> words_moved (transcript_of frame) r s r' s')
    by (intros; unfold transcript_of; by rewrite Hf).
  unfold processChatEvent. set (r' := IncrementEvent _ _).
  assert (Ht : same_tools r r') by (eapply same_tools_trans; apply IncrementEvent_tools).
  assert (Hrw : rr_words r' = rr_words r) by (unfold r', IncrementEvent; repeat case_match; done).
  destruct (negb _); [apply emits_ret; apply quiet_effect; auto|].
  eapply emits_bind; [apply chat_delta_same|]. intros s1 evs1 (-> & Hr1 & Hw1 & Ho1).
  destruct (String.eqb_spec (ch_State event) "final") as [Hfin|Hfin]; [|destruct (one_of _ _) eqn:Hbad].
  - eapply emits_bind; [apply touchQuiet_same|]. intros s2 evs2 (-> & Hr2 & Hw2 & Ho2). apply emits_ret. cbn [app fst snd].
    apply quiet_effect; try done.
    + right. eapply run_final; [done|exact Hf|done|]. rewrite Hr2. unfold es_runs in *.
      injection Hr1 as Ha Hb Hd. unfold chat_final. repeat case_match; cbn; by rewrite Ha, Hb, Hd.
    + apply Hw; [done|]. rewrite Hw2, <- Hw1. unfold chat_final. by case_match.
    + intros Ho. by apply Ho2, chat_final_output, Ho1.
  - eapply emits_bind; [apply touchQuiet_same|]. intros s2 evs2 (-> & Hr2 & Hw2 & Ho2). apply emits_ret. cbn [app fst snd].
    apply quiet_effect; try done.
    + right. eapply run_broken; [done|exact Hf|done|]. rewrite Hr2. unfold es_runs in *.
      injection Hr1 as Ha Hb Hd. unfold chat_failed. rewrite Hb. case_match; cbn; by rewrite Ha, ?Hb, Hd.
    + apply Hw; [done|]. rewrite Hw2, <- Hw1. unfold chat_failed. by case_match.
    + intros Ho. apply Ho2. unfold chat_failed. case_match; auto.
  - eapply emits_bind; [apply extend_same|]. intros s2 evs2 (-> & Hr2 & Hw2 & Ho2).
    eapply emits_bind; [apply touchQuiet_same|]. intros s3 evs3 (-> & Hr3 & Hw3 & Ho3). apply emits_ret. cbn [app fst snd].
    apply quiet_effect; [done| |left; congruence| |auto].
    + unfold chat_tool. case_match; [|done]. eapply same_tools_trans; [done|apply IncrementEvent_tools].
    + apply Hw; [|congruence]. unfold chat_tool, IncrementEvent. repeat case_match; done.
Qed.

(** The frames of a talk. *)
Definition talk_frame (frame : Frame) (talk : talkEvent) : Prop :=
  chatEventFromFrame frame = None /\ talkEventFromFrame frame = Some talk.
Lemma talk_tool_call frame talk : talk_frame frame talk -> tool_call_of frame = toolCallEventFromTalk talk.
Proof. intros [Hc Ht]. unfold tool_call_of. by rewrite Hc, Ht. Qed.
Lemma not_tool_call frame talk : talk_frame frame talk -> tk_EventType talk <> "tool.call"%string -> tool_call_of frame = None.
Proof. intros Hf Hk. rewrite (talk_tool_call _ _ Hf). unfold toolCallEventFromTalk. by apply String.eqb_neq in Hk as ->. Qed.
Lemma tool_call_words frame talk : talk_frame frame talk -> tk_EventType talk = "tool.call"%string -> transcript_of frame = None.
Proof. intros [Hc Ht] Hk. unfold transcript_of. rewrite Hc, Ht, Hk. by case_match. Qed.

Lemma handleAgentControl_words ctx toolCall r s :
  emits (handleAgentControl strings_ToLower gateway options ctx toolCall r s) (fun x evs =>
    rr_words x.2 = rr_words r /\ runs_started evs = []).
Proof.
  unfold handleAgentControl. eapply emits_bind; [apply submitToolResult_tools|]. intros e evs (_ & _ & Hr).
  apply emits_ret. rewrite app_nil_r. by destruct e.
Qed.
Lemma consult_words toolCall r ctx :
  emits (handleToolCall gateway options ctx toolCall r) (fun x _ => rr_words x.2 = rr_words r).
Proof.
  unfold handleToolCall. eapply emits_bind; [apply consultAgent_tools|]. intros [[result runID]|e] evs _;
    (eapply emits_bind; [apply submitToolResult_tools|]); intros e' evs' _; apply emits_ret;
    unfold AppendError; destruct e'; cbn [snd]; repeat case_match; done.
Qed.
Lemma tool_call_effect frame talk ctx r s : talk_frame frame talk -> tk_EventType talk = "tool.call"%string ->
  emits (processToolCall strings_ToLower gateway options ctx talk r s) (frame_effect frame r s).
Proof.
  intros Hf Hk. pose proof (tool_call_words _ _ Hf Hk) as Hw. pose proof (talk_tool_call _ _ Hf) as Hc.
  unfold processToolCall. destruct (toolCallEventFromTalk talk) as [toolCall|].
  2:{ apply emits_ret, quiet_effect; [done|by apply same_tools_intro|by left| |done]. by rewrite Hw. }
  destruct (String.eqb _ _).
  - eapply emits_bind.
    { apply emits_and; [apply (handleAgentControl_tools _ _ _ s)|apply handleAgentControl_words]. }
    intros [e r'] evs [Ht [Hrw Hrs]]. cbn [fst snd] in Ht, Hrw. destruct e as [e|].
    + apply emits_ret. rewrite app_nil_r. split; [by rewrite Hc|done|by rewrite Hw|done].
    + eapply emits_bind; [apply touchQuiet_same|]. intros s' ? (-> & Hr' & Hw' & Ho'). apply emits_ret.
      rewrite !app_nil_r. split; [by rewrite Hc| |by rewrite Hw|done].
      intros _. apply runs_grew. cbn [snd]. rewrite Hr'.
      rewrite Hrs. cbn. by rewrite (right_id_L ∅ _).
  - eapply emits_bind.
    { apply emits_and; [apply (handleToolCall_tools _ _ _ s)|apply consult_words]. }
    intros [[runID e] r'] evs [[Ht Hrs] Hrw]. cbn [fst snd] in Ht, Hrs, Hrw. destruct e as [e|].
    + apply emits_ret. rewrite app_nil_r. split; [by rewrite Hc|done|by rewrite Hw|done].
    + apply (emits_bind _ _ (fun s' evs' => evs' = [] /\ es_words s' = es_words s /\ es_output s' = es_output s /\
        es_runs s' = (es_active s ∪ list_to_set (runs_started evs), es_completed s, es_failed s))).
      { rewrite Hrs. destruct (String.eqb runID "").
        - apply emits_ret. split_and!; [done..|]. cbn. by rewrite (right_id_L ∅ _).
        - eapply emits_mono; [apply extend_emits|]. intros ? ? (-> & d & ->). split_and!; [done..|]. cbn.
          by rewrite (right_id_L ∅ _). }
      intros s1 ? (-> & Hw1 & Ho1 & Hr1).
      eapply emits_bind; [apply touchQuiet_same|]. intros s' ? (-> & Hr' & Hw' & Ho'). apply emits_ret.
      rewrite !app_nil_r. split; [by rewrite Hc| | |].
      * intros _. apply runs_grew. cbn [snd]. by rewrite Hr'.
      * rewrite Hw. split; [done|]. cbn [snd]. by rewrite Hw'.
      * intros Ho. apply Ho'. by rewrite Ho1.
Qed.

Lemma talk_effect frame talk ctx r s : talk_frame frame talk ->
  emits (processTalkEvent strings_ToLower gateway options ctx talk r s) (frame_effect frame r s).
Proof.
  intros Hf. destruct (decide (tk_EventType talk = "tool.call"%string)) as [Hk|Hk].
  { unfold processTalkEvent. rewrite Hk. cbn [String.eqb Ascii.eqb Bool.eqb]. by apply tool_call_effect. }
  pose proof (not_tool_call _ _ Hf Hk) as Hc. pose proof Hf as [Hchat Htalk].
  assert (Hquiet : forall r' s', same_tools r r' -> es_runs s' = es_runs s ->
    words_moved (transcript_of frame) r s r' s' ->
    (len (es_output s) <= defaultRealtimeOutputBufferSize -> len (es_output s') <= defaultRealtimeOutputBufferSize) ->
    emits (let* s := touchQuiet options s' in ret (None, r', s)) (frame_effect frame r s)).
  { intros r' s' Ht Hr Hw Ho. eapply emits_bind; [apply touchQuiet_emits|]. intros ? ? (-> & q & ->). apply emits_ret.
    apply quiet_effect; [done|done|by left|exact Hw|exact Ho]. }
  assert (Hret : forall r', same_tools r r' -> words_moved (transcript_of frame) r s r' s ->
    emits (W := W) (ret (nil_error, r', s)) (frame_effect frame r s)).
  { intros r' Ht Hw. apply emits_ret, quiet_effect; [done|done|by left|exact Hw|done]. }
  assert (Hsame : same_tools r r) by by apply same_tools_intro.
  assert (Hdone : same_tools r (transcript_done (textFromPayload (tk_Payload talk)) r)) by by apply same_tools_intro.
  unfold transcript_of in Hquiet, Hret. rewrite Hchat, Htalk in Hquiet, Hret. unfold processTalkEvent.
  destruct (String.eqb_spec (tk_EventType talk) "transcript.delta") as [->|Hdelta];
    [|destruct (String.eqb_spec (tk_EventType talk) "transcript.done") as [->|Hfinal]].
  1-2: change (_ =? "output.audio.done")%string with false; cbv iota; destruct (String.eqb _ _); try destruct (acceptTranscriptDone _ _);
    cbn [orb andb negb] in *; first [by apply Hret|by apply Hquiet].
  cbn [andb] in Hquiet, Hret. rewrite if_same in Hquiet, Hret.
  rewrite (proj2 (String.eqb_neq _ _) Hk).
  repeat case_match; first
    [ by apply Hret | by apply Hquiet
    | apply Hret; by try apply same_tools_intro
    | apply Hquiet; [done|done|done|apply write_output_bounded]
    | apply Hquiet; [apply AppendError_tools|done|unfold AppendError; by case_match|done] ].
Qed.

Lemma effect_from frame r r0 s x evs : same_tools r r0 -> rr_words r0 = rr_words r ->
  frame_effect frame r0 s x evs -> frame_effect frame r s x evs.
Proof.
  intros Ht Hw [(Hh & Hs & He) Hr Hx Ho]. split; [|done| |done].
  - split; [done|]. split; [|done]. exact (tools_since_trans [] _ [] _ _ _ _ Ht Hs).
  - unfold words_moved in *. injection Hw as H1 H2 H3. destruct (transcript_of frame) as [[[] text]|]; unfold rr_words in *.
    + by rewrite <- H3.
    + by rewrite <- H1, <- H2, <- H3.
    + by rewrite <- H1, <- H2, <- H3.
Qed.
Lemma processFrame_effect ctx frame r s :
  emits (traced_frame ctx frame (keep_event options frame r) s) (frame_effect frame r s).
Proof.
  assert (Hk : same_tools r (keep_event options frame r)) by apply keep_event_tools.
  assert (Hw : rr_words (keep_event options frame r) = rr_words r) by (unfold keep_event; by case_match).
  eapply emits_mono; [|intros x evs; by apply (effect_from _ _ _ _ _ _ Hk Hw)].
  clear Hk Hw. generalize (keep_event options frame r). clear r. intros r. unfold processFrame.
  destruct (chatEventFromFrame frame) as [event|] eqn:Hc.
  { eapply emits_bind; [by apply chat_effect|]. intros [r' s'] evs He. apply emits_ret. by rewrite app_nil_r. }
  destruct (talkEventFromFrame frame) as [talk|] eqn:Ht.
  - eapply emits_mono; [by apply talk_effect|]. intros x evs. apply effect_from; [apply count_talk_tools|].
    unfold count_talk, IncrementEvent. repeat case_match; done.
  - apply emits_ret, quiet_effect; [|by apply same_tools_intro|by left| |done].
    + unfold tool_call_of. by rewrite Hc, Ht.
    + unfold transcript_of. by rewrite Hc, Ht.
Qed.
End Session.
