(* ===== verification/RealtimeTheorems.v ===== *)
(** What a realtime session guarantees about the events it processed, from the effect of each
    frame (RealtimeSession): every tool call answered once, every run of the agent settled,
    and a transcription that is final. *)

From S2P Require Import Prelude Utf8 Trace Core Config GatewayFrame GatewayRun Realtime RealtimeSession.

(** * The end of the events *)

Definition answers_accepted (evs : list gateway_event) : Prop := Forall (fun answer => answer.2 = true) (submissions evs).
(** The texts of the transcripts heard. *)
Definition transcripts {W} (options : RunnerOptions (W * list gateway_event)) (evs : list gateway_event) : list (bool * string) :=
  omap (transcript_of options) (heard evs).
Definition finals (texts : list (bool * string)) : list string := map snd (List.filter fst texts).
(** What the end of a session may still ask. *)
Record waits (evs : list gateway_event) : Prop := {
  wt_heard : heard evs = [];
  wt_submissions : submissions evs = [];
  wt_started : runs_started evs = []
}.
Definition same_result (r r' : Result) : Prop :=
  same_tools r r' /\ rr_words r' = rr_words r /\ rr_OutputText r' = rr_OutputText r /\ rr_Errors r ⊆ rr_Errors r'.
Lemma same_result_trans r r' r'' : same_result r r' -> same_result r' r'' -> same_result r r''.
Proof.
  intros (H1 & H2 & H3 & H4) (H5 & H6 & H7 & H8). split; [by eapply same_tools_trans|].
  split_and!; [congruence|congruence|by etrans].
Qed.
Lemma AppendError_same message r : same_result r (AppendError message r).
Proof.
  split; [apply AppendError_tools|]. unfold AppendError. case_match; split_and!; try done. simpl. set_solver.
Qed.
Lemma AppendError_in message r : message = ""%string \/ message ∈ rr_Errors (AppendError message r).
Proof. unfold AppendError. destruct (String.eqb_spec message ""); [by left|]. right. simpl. set_solver. Qed.

Lemma appendUnrecoveredFailures_spec s r : same_result r (appendUnrecoveredFailures s r) /\
  forall runID message, es_failed s !! runID = Some message -> message = ""%string \/ message ∈ rr_Errors (appendUnrecoveredFailures s r).
Proof.
  unfold appendUnrecoveredFailures.
  enough (Hk : forall keys r, let r' := fold_left (fun r runID => AppendError (default "" (es_failed s !! runID)) r) keys r in
    same_result r r' /\ forall runID message, runID ∈ keys -> es_failed s !! runID = Some message -> message = ""%string \/ message ∈ rr_Errors r').
  { split; [apply Hk|]. intros runID message Hf. apply (proj2 (Hk _ _) runID); [|done]. apply elem_of_sorted_keys. by rewrite Hf. }
  induction keys as [|key keys IH]; intros r0; cbn [fold_left].
  { split; [|set_solver]. split; [by apply same_tools_intro|done]. }
  set (r1 := AppendError _ r0). destruct (IH r1) as [Hs Hin]. split; [eapply same_result_trans; [apply AppendError_same|exact Hs]|].
  intros runID message [->|Hk]%elem_of_cons Hf; [|eauto]. destruct Hs as (_ & _ & _ & Hsub).
  destruct (AppendError_in message r0) as [?|Hi]; [by left|]. right. apply Hsub. unfold r1. by rewrite Hf.
Qed.

Section Theorems.
Variable strings_ToLower : string -> string.
Context {W : Type} `{!Runtime W} `{!Gateways W} `{!Timers W}.
Variable gateway : nat.
Variable options : RunnerOptions (W * list gateway_event).
Abbreviation traced_frame := (processFrame strings_ToLower gateway options).
Abbreviation traced_events := (processEvents strings_ToLower gateway options).

Lemma run_waited_mono runID errors errors' evs evs' : run_waited runID errors evs -> errors ⊆ errors' -> evs ⊆ evs' ->
  run_waited runID errors' evs'.
Proof. intros (p & a & Hin & Hp & Hw) He Hv. exists p, a. split_and!; [by apply Hv|done|].
  destruct Hw as [Hw|(message & Hm & Hin')]; [by left|right]. exists message. split; [done|by apply He]. Qed.
Lemma finishActiveAgentRuns_waits ctx runs : forall r,
  emits (finishActiveAgentRuns gateway options ctx runs r) (fun r' evs =>
    waits evs /\ same_result r r' /\ forall runID, runID ∈ runs -> run_waited runID (rr_Errors r') evs).
Proof.
  induction runs as [|run runs IH]; intros r; cbn [finishActiveAgentRuns].
  { apply emits_ret. split; [done|]. split; [|set_solver]. split; [by apply same_tools_intro|done]. }
  apply emits_call. intros answer. eapply emits_mono; [apply IH|]. intros r' evs ([Hh Hs Hr] & Hsame & Hw).
  split; [split|split; [eapply same_result_trans; [apply AppendError_same|exact Hsame]|]].
  - exact Hh.
  - unfold submissions in *. cbn. exact Hs.
  - unfold runs_started in *. cbn. by destruct answer.
  - intros runID [->|Hin]%elem_of_cons; [|eapply run_waited_mono; [by apply Hw|done|set_solver]].
    eexists _, answer. split_and!; [left|done|]. destruct Hsame as (_ & _ & _ & Hsub).
    destruct (wait_failure_told run answer) as [[Hok _]|Htold]; [by left|right].
    exists (wait_failure run answer). split; [done|]. destruct (AppendError_in (wait_failure run answer) r) as [He|]; [|by apply Hsub].
    exfalso. rewrite He in Htold. destruct answer; [by destruct Htold as (? & _ & ?)|done].
Qed.

(** What holds of the loop holds at the end. *)
Lemma processEvents_ends J K r ctx audioDone fuel : loop_invariant strings_ToLower gateway options J K ->
  J [] r new_state ->
  emits (traced_events fuel ctx audioDone r) (fun ended evs =>
    match ended with
    | None => True
    | Some (None, r') => exists loop rest r1 s, evs = loop ++ rest /\ waits rest /\ J loop r1 s /\ final_transcript options r1 s = None /\
        rr_Transcript r' = (if String.eqb (es_latest s) "" then es_partial s else es_latest s) /\
        rr_TranscriptDone r' = rr_TranscriptDone r1 /\ rr_TranscriptDoneParts r' = rr_TranscriptDoneParts r1 /\
        rr_OutputText r' = es_output s /\ same_tools r1 r' /\
        (forall runID, runID ∈ es_active s -> run_waited runID (rr_Errors r') rest) /\
        (forall runID message, es_failed s !! runID = Some message -> message = ""%string \/ message ∈ rr_Errors r')
    | Some (Some _, r') => exists r1, K evs r1 /\ same_tools r1 r'
    end).
Proof.
  intros HI HJ. unfold processEvents. eapply emits_bind; [by apply (event_loop_keeps _ _ _ _ _ HI _ _ _ _ [])|].
  intros [[[[e|] r1] s]|] evs; cbn [app]; [| |intros _; by apply emits_ret].
  { intros HK. apply emits_ret. rewrite app_nil_r. exists r1. split; [done|by apply same_tools_intro]. }
  intros HJ1. pose proof (li_error _ _ _ _ _ HI _ _ _ HJ1) as HK.
  assert (Hself : same_tools r1 r1) by by apply same_tools_intro.
  apply emits_read. intros [fatal|]; [apply emits_ret; rewrite app_nil_r; eauto|].
  set (r2 := set_rr_Transcript _ r1). assert (H2 : same_tools r1 r2) by by apply same_tools_intro.
  change (final_transcript options r2 s) with (final_transcript options r1 s).
  destruct (final_transcript options r1 s) as [e|] eqn:Hfinal; [apply emits_ret; rewrite app_nil_r; eauto|].
  eapply emits_bind; [apply finishActiveAgentRuns_waits|]. intros r3 rest (Hwaits & Hsame & Hrun). apply emits_ret.
  rewrite app_nil_r. destruct (appendUnrecoveredFailures_spec s r3) as [Hsame' Hfail].
  pose proof (same_result_trans _ _ _ Hsame Hsame') as (Ht & Hw & Ho & He). injection Hw as Hw1 Hw2 Hw3.
  exists evs, rest, r1, s. split_and!; try done.
  - eapply same_tools_trans; [|exact Ht]. by apply same_tools_intro.
  - intros runID Hin. eapply run_waited_mono; [apply Hrun; by apply elem_of_elements| |done]. apply Hsame'.
Qed.

(** ** Tool calls *)

Lemma heard_frame evs frame evs' : heard evs' = [] -> heard (evs ++ Heard (inl frame) :: evs') = heard evs ++ [frame].
Proof.
  intros Hh. change (Heard (inl frame) :: evs') with ([Heard (inl frame)] ++ evs'). by rewrite !heard_app, Hh, app_nil_r.
Qed.
Lemma tool_calls_heard evs frame evs' : heard evs' = [] ->
  tool_calls (evs ++ Heard (inl frame) :: evs') = tool_calls evs ++ option_list (tool_call_of frame).
Proof.
  intros Hh. unfold tool_calls. rewrite heard_frame by done. rewrite omap_app. simpl. by destruct (tool_call_of frame).
Qed.
Lemma tools_idle calls evs evs' r0 r : tools_since calls evs r0 r -> submissions evs' = [] -> runs_started evs' = [] ->
  tools_since calls (evs ++ evs') r0 r.
Proof.
  intros Hk Hs Hr. rewrite <- (app_nil_r calls). eapply tools_since_trans; [exact Hk|].
  split; unfold answered; rewrite ?Hs, ?Hr; [done|simpl; lia..|by rewrite app_nil_r].
Qed.
Lemma tools_same calls evs r r1 r' : tools_since calls evs r r1 -> same_tools r1 r' -> tools_since calls evs r r'.
Proof.
  intros Hk Hs. rewrite <- (app_nil_r calls), <- (app_nil_r evs). by eapply tools_since_trans.
Qed.
Definition tools_known (r0 : Result) (evs : list gateway_event) (r : Result) : Prop := tools_since (tool_calls evs) evs r0 r.
Lemma tools_known_frame r0 evs r frame s x evs' : tools_known r0 evs r -> frame_effect options frame r s x evs' ->
  tools_known r0 (evs ++ Heard (inl frame) :: evs') x.1.2.
Proof.
  intros Hk [(Hh & Ht & _) _ _ _]. unfold tools_known. rewrite tool_calls_heard by done.
  change (Heard (inl frame) :: evs') with ([Heard (inl frame)] ++ evs'). rewrite app_assoc.
  eapply tools_since_trans; [|exact Ht]. by apply tools_idle.
Qed.
Lemma answers_accepted_app evs evs' : answers_accepted evs -> answers_accepted evs' -> answers_accepted (evs ++ evs').
Proof. unfold answers_accepted. rewrite submissions_app. apply Forall_app_2. Qed.
Lemma tools_invariant r0 : loop_invariant strings_ToLower gateway options
  (fun evs r _ => tools_known r0 evs r /\ answers_accepted evs) (fun evs r => tools_known r0 evs r).
Proof.
  split; [done| |by intros ??? []|].
  - intros evs r s e [Hk Ha]. split; [|apply answers_accepted_app; [done|constructor]].
    unfold tools_known, tool_calls. rewrite heard_app, app_nil_r.
    by apply tools_idle.
  - intros ctx evs r s frame [Hk Ha]. eapply emits_mono; [apply processFrame_effect|]. intros x evs' Hf.
    pose proof (tools_known_frame _ _ _ _ _ _ _ Hk Hf) as Hk'. destruct x.1.1 as [e|] eqn:He; [done|].
    split; [done|]. apply answers_accepted_app; [done|]. destruct Hf as [(_ & _ & Hacc) _ _ _]. by apply Hacc.
Qed.
Lemma tools_known_waits r0 loop rest r : tools_known r0 loop r -> waits rest -> tools_known r0 (loop ++ rest) r.
Proof.
  intros Hk [Hh Hs Hr]. unfold tools_known, tool_calls. rewrite heard_app, Hh, app_nil_r.
  by apply tools_idle.
Qed.

(** C29. Every tool call of a realtime session is answered exactly once.  Whenever
    [processEvents] returns, the results it submitted are for the tool calls heard, one each
    and in their order; [ToolCalls] counts the calls heard, [ToolResults] the answers the
    gateway accepted, and [AgentRunIDs] lists the runs the gateway started, in order; and
    without an error every answer was accepted. *)
Theorem tool_calls_answered fuel ctx audioDone r :
  emits (traced_events fuel ctx audioDone r) (fun ended evs =>
    match ended with
    | Some (e, r') => tools_since (tool_calls evs) evs r r' /\ (e = None -> answers_accepted evs)
    | None => True
    end).
Proof.
  eapply emits_mono; [apply (processEvents_ends _ _ _ _ _ _ (tools_invariant r))|].
  { split; [by apply same_tools_intro|by constructor]. }
  intros [[[e|] r']|] evs; [| |done].
  - intros (r1 & Hk & Hs). split; [by eapply tools_same|done].
  - intros (loop & rest & r1 & s & -> & Hw & [Hk Ha] & _ & _ & _ & _ & _ & Hs & _). split.
    + eapply tools_same; [by apply tools_known_waits|exact Hs].
    + intros _. apply answers_accepted_app; [done|]. unfold answers_accepted. by rewrite (wt_submissions _ Hw).
Qed.

(** ** Runs *)

(** A run that was started is active until a chat event ends it. *)
Definition runs_kept (evs : list gateway_event) (s : eventState) : Prop :=
  (forall runID, runID ∈ runs_started evs ->
     runID ∈ es_active s \/ run_completed runID evs \/ is_Some (es_failed s !! runID)) /\
  (forall runID message, es_failed s !! runID = Some message -> run_failed runID message evs) /\
  len (es_output s) <= defaultRealtimeOutputBufferSize.
Lemma run_completed_app runID evs evs' : run_completed runID evs -> run_completed runID (evs ++ evs').
Proof. intros (f & e & Hin & Hc). exists f, e. rewrite heard_app. set_solver. Qed.
Lemma run_failed_app runID message evs evs' : run_failed runID message evs -> run_failed runID message (evs ++ evs').
Proof. intros (f & e & Hin & Hc). exists f, e. rewrite heard_app. set_solver. Qed.
Lemma runs_kept_idle evs s evs' s' : runs_kept evs s -> runs_started evs' = [] -> es_runs s' = es_runs s ->
  es_output s' = es_output s -> runs_kept (evs ++ evs') s'.
Proof.
  intros (Hk & Hf & Ho) Hr [= Ha _ Hm] Ho'. unfold runs_kept. rewrite runs_started_app, Hr, app_nil_r, Ha, Hm, Ho'.
  split_and!; [|by eauto using run_failed_app|done].
  intros runID Hin. destruct (Hk _ Hin) as [?|[?|?]]; eauto using run_completed_app.
Qed.
Lemma chat_final_runs event s : es_runs (chat_final event s) =
  (es_active s ∖ {[ch_RunID event]}, es_completed s ∪ {[ch_RunID event]}, delete (ch_RunID event) (es_failed s)).
Proof. unfold chat_final. by case_match. Qed.
Lemma runs_kept_frame evs r s frame x evs' : runs_kept evs s -> frame_effect options frame r s x evs' -> x.1.1 = None ->
  runs_kept (evs ++ Heard (inl frame) :: evs') x.2.
Proof.
  intros (Hk & Hf & Ho) [(Hh & _ & _) Hm _ Ho'] He. specialize (Hm He).
  assert (Hst : runs_started (evs ++ Heard (inl frame) :: evs') = runs_started evs ++ runs_started evs')
    by (rewrite runs_started_app; reflexivity).
  assert (Hframe : frame ∈ heard (evs ++ Heard (inl frame) :: evs')) by (rewrite heard_frame by done; set_solver).
  assert (Hsome : forall (P : Prop) runID, runID ∈ runs_started evs -> (runID ∈ es_active s -> P) ->
    (run_completed runID (evs ++ Heard (inl frame) :: evs') -> P) -> (is_Some (es_failed s !! runID) -> P) -> P).
  { intros P runID Hin H1 H2 H3. destruct (Hk _ Hin) as [?|[?|?]]; eauto using run_completed_app. }
  unfold runs_kept. rewrite Hst. destruct Hm as [Hm|event Hnone Hc Hs Hm|event Hnone Hc Hs Hm].
  - injection Hm as Ha _ Hb. rewrite Ha, Hb. split_and!; [|eauto using run_failed_app|auto].
    intros runID [Hin|Hin]%elem_of_app; [|left; set_solver]. apply (Hsome _ _ Hin); [set_solver|auto|auto].
  - rewrite chat_final_runs in Hm. injection Hm as Ha _ Hb. rewrite Ha, Hb, Hnone, app_nil_r. split_and!; [| |auto].
    + intros runID Hin. destruct (decide (runID = ch_RunID event)) as [->|Hne].
      { right; left. exists frame, event. unfold chat_of. by rewrite Hs. }
      apply (Hsome _ _ Hin); [set_solver|auto|]. rewrite lookup_delete_ne by done. auto.
    + intros runID message Hl. apply lookup_delete_Some in Hl as [_ Hl]. eauto using run_failed_app.
  - unfold chat_failed in Hm. case_bool_decide as Hcomp; injection Hm as Ha _ Hb; rewrite Ha, Hb, Hnone, app_nil_r;
      (split_and!; [| |auto]).
    + intros runID Hin. by apply (Hsome _ _ Hin); auto.
    + eauto using run_failed_app.
    + intros runID Hin. destruct (decide (runID = ch_RunID event)) as [->|Hne].
      { right; right. rewrite lookup_insert_eq. eauto. }
      apply (Hsome _ _ Hin); [set_solver|auto|]. rewrite lookup_insert_ne by done. auto.
    + intros runID message Hl. apply lookup_insert_Some in Hl as [[<- <-]|[_ Hl]]; [|eauto using run_failed_app].
      exists frame, event. split_and!; [done| |]; [done|]. apply (chat_failure_told ["error"; "aborted"]%string); [set_solver|done].
Qed.
Lemma runs_invariant r0 : loop_invariant strings_ToLower gateway options
  (fun evs r s => tools_known r0 evs r /\ runs_kept evs s) (fun evs r => tools_known r0 evs r).
Proof.
  split; [done| |by intros ??? []|].
  - intros evs r s e [Hk Hr]. split; [|by eapply runs_kept_idle].
    unfold tools_known, tool_calls. rewrite heard_app, app_nil_r. by apply tools_idle.
  - intros ctx evs r s frame [Hk Hr]. eapply emits_mono; [apply processFrame_effect|]. intros x evs' Hf.
    pose proof (tools_known_frame _ _ _ _ _ _ _ Hk Hf) as Hk'. destruct x.1.1 as [e|] eqn:He; [done|].
    split; [done|]. by eapply runs_kept_frame.
Qed.

(** C30. No run of the agent is forgotten.  When a realtime session ends without an error,
    every run it started has either ended with a [final] chat event, or ended with [error]
    or [aborted] and its diagnostic is among the errors of the result (the run, how it ended
    and the first reason given), or been waited for with [agent.wait]: if that call failed,
    or was answered with a status other than [ok], a diagnostic that names the run and the
    first reason given is among the errors.  The output text is at most 32 KiB however much
    was heard. *)
Theorem agent_runs_settled fuel ctx audioDone r : rr_AgentRunIDs r = [] ->
  emits (traced_events fuel ctx audioDone r) (fun ended evs =>
    match ended with
    | Some (None, r') =>
        (forall runID, runID ∈ rr_AgentRunIDs r' ->
           run_completed runID evs \/ (exists message, run_failed runID message evs /\ message ∈ rr_Errors r') \/
           run_waited runID (rr_Errors r') evs) /\
        len (rr_OutputText r') <= defaultRealtimeOutputBufferSize
    | _ => True
    end).
Proof.
  intros Hr0. eapply emits_mono; [apply (processEvents_ends _ _ _ _ _ _ (runs_invariant r))|].
  { split; [by apply same_tools_intro|]. split_and!; [set_solver|intros ??; cbn; by rewrite lookup_empty|vm_compute; discriminate]. }
  intros [[[e|] r']|] evs; [done| |done].
  intros (loop & rest & r1 & s & -> & Hw & [Hk (Hruns & Hfail & Hlen)] & _ & _ & _ & _ & -> & Hs & Hwait & Herr).
  split; [|done]. pose proof (tools_same _ _ _ _ _ Hk Hs) as [_ _ _ Hids]. rewrite Hr0 in Hids. rewrite Hids.
  intros runID Hin. destruct (Hruns _ Hin) as [Ha|[Hc|[message Hm]]].
  - right; right. eapply run_waited_mono; [by apply Hwait|done|set_solver].
  - left. by apply run_completed_app.
  - right; left. pose proof (Hfail _ _ Hm) as Hf. exists message. split; [by apply run_failed_app|].
    destruct (Herr _ _ Hm) as [->|?]; [|done]. by destruct Hf as (? & ? & _ & _ & ? & _ & ?).
Qed.

(** ** Transcripts *)

Definition words_known (evs : list gateway_event) (r : Result) (s : eventState) : Prop :=
  let texts := transcripts options evs in
  rr_TranscriptDoneParts r = finals texts /\ rr_TranscriptDone r = default ""%string (last (finals texts)) /\
  es_latest s = rr_TranscriptDone r /\
  es_partialPending s = match last texts with Some (final, _) => negb final | None => false end /\
  Forall (fun t => t.2 <> ""%string) texts.
Lemma finals_app texts texts' : finals (texts ++ texts') = finals texts ++ finals texts'.
Proof. unfold finals. by rewrite List.filter_app, map_app. Qed.
Lemma finals_last texts text : last texts = Some (true, text) -> last (finals texts) = Some text.
Proof. intros (rest & ->)%last_Some. rewrite finals_app. apply last_snoc. Qed.
Lemma transcript_not_empty frame final text : transcript_of options frame = Some (final, text) -> text <> ""%string.
Proof.
  unfold transcript_of. intros H. repeat case_match; try done; injection H as <- <-; by apply String.eqb_neq.
Qed.
Lemma words_invariant : loop_invariant strings_ToLower gateway options words_known (fun _ _ => True).
Proof.
  split; [done| |done|].
  - intros evs r s e Hk. unfold words_known, transcripts. by rewrite heard_app, app_nil_r.
  - intros ctx evs r s frame Hk. eapply emits_mono; [apply processFrame_effect|]. intros x evs' [(Hh & _ & _) _ Hm _].
    destruct x.1.1 as [e|]; [done|]. destruct Hk as (Hp & Hd & Hl & Hpend & Hne).
    unfold words_known, transcripts. rewrite heard_frame by done. rewrite omap_app. unfold words_moved in Hm.
    change (omap (transcript_of options) (heard evs)) with (transcripts options evs). cbn [omap list_omap].
    destruct (transcript_of options frame) as [[[] text]|] eqn:Ht; destruct Hm as [Hrw Hew]; injection Hrw as _ Hd' Hp';
      injection Hew as _ Hpend' Hl'; rewrite ?app_nil_r, ?finals_app, ?last_snoc, Hd', Hp', Hl', Hpend'.
    + change (finals [(true, text)]) with [text]. rewrite last_snoc, Hp. split_and!; try done.
      apply Forall_app_2; [done|]. apply Forall_singleton. by eapply transcript_not_empty.
    + change (finals [(false, text)]) with (@nil string). rewrite app_nil_r. split_and!; try done.
      apply Forall_app_2; [done|]. apply Forall_singleton. by eapply transcript_not_empty.
    + by split_and!.
Qed.

(** A transcription is final.  When a transcribe session ends without an error, the last
    transcript heard was a [transcript.done], its text is the [Transcript] and the
    [TranscriptDone] of the result and is not empty, and [TranscriptDoneParts] are the
    texts of all the final transcripts heard, in order. *)
Theorem transcription_is_final fuel ctx audioDone r : rl_SessionMode options = SessionModeTranscribe ->
  rr_TranscriptDone r = ""%string -> rr_TranscriptDoneParts r = [] ->
  emits (traced_events fuel ctx audioDone r) (fun ended evs =>
    match ended with
    | Some (None, r') =>
        last (transcripts options evs) = Some (true, rr_Transcript r') /\
        rr_TranscriptDone r' = rr_Transcript r' /\ rr_Transcript r' <> ""%string /\
        rr_TranscriptDoneParts r' = finals (transcripts options evs)
    | _ => True
    end).
Proof.
  intros Hmode Hr0 Hp0. eapply emits_mono; [apply (processEvents_ends _ _ _ _ _ _ words_invariant)|].
  { unfold words_known. rewrite Hr0, Hp0. by split_and!. }
  intros [[[e|] r']|] evs; [done| |done].
  intros (loop & rest & r1 & s & -> & Hw & (Hp & Hd & Hl & Hpend & Hne) & Hfinal & Ht & Hd' & Hp' & _).
  assert (Htexts : transcripts options (loop ++ rest) = transcripts options loop).
  { unfold transcripts. by rewrite heard_app, (wt_heard _ Hw), app_nil_r. }
  rewrite Htexts, Hd', Hp'. unfold final_transcript in Hfinal. rewrite Hmode in Hfinal. cbn [String.eqb negb] in Hfinal.
  destruct (String.eqb_spec (rr_TranscriptDone r1) "") as [|Hdone]; [done|].
  destruct (es_partialPending s); [done|]. rewrite Hl in Ht. apply String.eqb_neq in Hdone as Hdone'. rewrite Hdone' in Ht.
  rewrite Ht. destruct (last (transcripts options loop)) as [[[] text]|] eqn:Hlast; [|done|].
  - rewrite (finals_last _ _ Hlast) in Hd. simpl in Hd. by rewrite Hd in *.
  - apply last_None in Hlast. rewrite Hlast in Hd. by destruct Hdone.
Qed.
End Theorems.

(** * The end of a session *)

(** A world whose clock does not go back, where [sc_left] frames are still to be heard; a
    read that times out has waited until its deadline. *)
Class SessionClock (W : Type) `{!Runtime W} `{!Gateways W} `{!Timers W} := {
  sc_clock : W -> Z;
  sc_left : W -> nat;
  sc_now w : (time_Now w).1 = sc_clock w /\ sc_clock w <= sc_clock (time_Now w).2 /\ sc_left (time_Now w).2 = sc_left w;
  sc_err ctx w : sc_clock w <= sc_clock (ctx_Err ctx w).2 /\ sc_left (ctx_Err ctx w).2 = sc_left w;
  sc_call gateway ctx method params w : sc_left (gw_Call gateway ctx method params w).2 = sc_left w;
  sc_hear gateway ctx deadline w :
    match gw_RecvEvent gateway (WithDeadline ctx deadline) w with
    | (inl _, w') => (sc_left w' < sc_left w)%nat
    | (inr e, w') => errors_Is e DeadlineExceeded = true -> deadline <= sc_clock w'
    end
}.
Section Ends.
Variable strings_ToLower : string -> string.
Context {W : Type} `{!Runtime W} `{!Gateways W} `{!Timers W} `{!SessionClock W}.
Variable gateway : nat.
Variable options : RunnerOptions W.

Definition hears_nothing {A} (m : M W A) : Prop := forall w, sc_left (m w).2 = sc_left w.
Lemma hears_ret {A} (a : A) : hears_nothing (ret a).
Proof. done. Qed.
Lemma hears_bind {A B} (m : M W A) (f : A -> M W B) : hears_nothing m -> (forall a, hears_nothing (f a)) -> hears_nothing (bind m f).
Proof. intros Hm Hf w. unfold bind. specialize (Hm w). destruct (m w) as [a w']. by rewrite Hf. Qed.
Lemma hears_now : hears_nothing time_Now.
Proof. intros w. apply sc_now. Qed.
Lemma hears_call ctx method params : hears_nothing (gw_Call gateway ctx method params).
Proof. intros w. apply sc_call. Qed.
Ltac hears :=
  repeat first
    [ apply hears_now | apply hears_call | apply hears_ret | apply hears_bind; [|intros ?]
    | match goal with |- hears_nothing (match ?x with _ => _ end) => destruct x end
    | match goal with |- hears_nothing (let (_, _) := ?x in _) => destruct x end ].
Lemma processFrame_hears ctx frame r s : hears_nothing (processFrame strings_ToLower gateway options ctx frame r s).
Proof.
  unfold processFrame, processTalkEvent, processToolCall, handleAgentControl, handleToolCall, consultAgent, submitToolResult,
    processChatEvent, chat_delta, extend, touchQuiet. cbv zeta. hears.
Qed.
Lemma time_Now_at w : exists w', time_Now w = (sc_clock w, w') /\ sc_clock w <= sc_clock w' /\ sc_left w' = sc_left w.
Proof. destruct (sc_now w) as (H1 & H2 & H3). destruct (time_Now w) as [t w']. simpl in *. subst. eauto. Qed.

(** Past the deadline, the next turn ends. *)
Lemma event_loop_past fuel ctx audioDone r s w :
  match es_deadline s with Some deadline => deadline <= sc_clock w | None => True end ->
  is_Some (event_loop strings_ToLower gateway options (S fuel) ctx audioDone true r s w).1.
Proof.
  intros Hd. cbn [event_loop listen]. unfold bind at 1, ret at 1. cbv beta iota. unfold bind at 1.
  destruct (time_Now_at w) as (w1 & -> & Hc1 & _). unfold bind at 1. destruct (time_Now_at w1) as (w2 & -> & Hc2 & _).
  unfold over. destruct (es_deadline s) as [d|]; [|by eexists]. rewrite (proj2 (Z.leb_le d (sc_clock w1))) by lia. by eexists.
Qed.
Lemma listen_starts audioDone listening s w :
  (listening = true \/ forall w, channel_closed audioDone w = (true, w)) ->
  exists s' w', listen options audioDone listening s w = (true, s', w') /\ sc_left w' = sc_left w.
Proof.
  intros Hl. unfold listen. destruct listening; [by eexists _, _|]. destruct Hl as [|Hl]; [done|].
  unfold bind. rewrite Hl. destruct (time_Now_at w) as (w1 & -> & _ & Hw1). by eexists _, _.
Qed.
(** After a read that timed out, at most one more turn. *)
Lemma timed_out_ends fuel ctx audioDone r s now w : wait_until true s now <= sc_clock w ->
  is_Some ((let* done := ctx_Err ctx in
    match done with
    | Some x => ret (Some (Some (ESentinel x), r, s))
    | None =>
        let* now := if is_some (quiet_until s) then time_Now else ret 0 in
        if gone_quiet true s now then ret (Some (None, r, s))
        else event_loop strings_ToLower gateway options (S fuel) ctx audioDone true r s
    end) w).1.
Proof.
  intros Hw. unfold bind at 1. destruct (sc_err ctx w) as [Hc Hleft]. destruct (ctx_Err ctx w) as [[x|] w1]; [by eexists|].
  cbn [fst snd] in *. unfold bind at 1. unfold wait_until in Hw. unfold gone_quiet.
  destruct (quiet_until s) as [quiet|]; cbn [is_some andb].
  - destruct (time_Now_at w1) as (w2 & -> & Hc2 & _). destruct (Z.leb_spec quiet (sc_clock w1)); [by eexists|].
    apply event_loop_past. destruct (es_deadline s); [simpl in Hw; lia|done].
  - unfold ret at 1. cbv beta iota. apply event_loop_past. destruct (es_deadline s); [simpl in Hw; lia|done].
Qed.
Lemma event_loop_ends ctx audioDone : forall fuel listening r s w,
  (listening = true \/ forall w, channel_closed audioDone w = (true, w)) -> (S (sc_left w) < fuel)%nat ->
  is_Some (event_loop strings_ToLower gateway options fuel ctx audioDone listening r s w).1.
Proof.
  induction fuel as [|fuel IH]; intros listening r s w Hl Hf; [lia|]. cbn [event_loop]. unfold bind at 1.
  destruct (listen_starts audioDone listening s w Hl) as (s' & w1 & -> & Hw1). unfold bind at 1.
  destruct (time_Now_at w1) as (w2 & -> & _ & Hw2). unfold bind at 1. destruct (time_Now_at w2) as (w3 & -> & _ & Hw3).
  destruct (over true s' (sc_clock w2)); [by eexists|]. unfold bind at 1.
  pose proof (sc_hear gateway ctx (wait_until true s' (sc_clock w1)) w3) as Hh.
  destruct (gw_RecvEvent gateway _ w3) as [[frame|e] w4].
  - unfold bind at 1. pose proof (processFrame_hears ctx frame (keep_event options frame r) s' w4) as Hp.
    destruct (processFrame _ _ _ _ _ _ _ w4) as [[[[e|] r'] s''] w5]; [by eexists|]. cbn [snd] in Hp.
    apply IH; [by left|lia].
  - destruct (errors_Is e DeadlineExceeded); [|by eexists]. destruct fuel as [|fuel]; [lia|].
    by apply (timed_out_ends fuel ctx audioDone r s' (sc_clock w1)), Hh.
Qed.

(** C31. A session ends.  Once its audio is sent, and with [n] frames still to be heard, the
    loop of [processEvents] ends within [n + 2] turns, whatever the frames and the answers
    to its requests are: runs and the quiet time may extend the deadline only while frames
    are heard. *)
Theorem session_ends fuel ctx audioDone r w : (forall w, channel_closed audioDone w = (true, w)) ->
  (sc_left w + 2 <= fuel)%nat -> is_Some (processEvents strings_ToLower gateway options fuel ctx audioDone r w).1.
Proof.
  intros Hc Hf. unfold processEvents, bind at 1.
  destruct (event_loop_ends ctx audioDone fuel false r new_state w (or_intror Hc) ltac:(lia)) as [[[e r'] s] He].
  destruct (event_loop _ _ _ _ _ _ _ _ _ w) as [ended w']. simpl in He. subst ended.
  destruct e as [e|]; [by eexists|]. unfold bind at 1. destruct (gw_FatalError gateway w') as [[fatal|] w1]; [by eexists|].
  destruct (final_transcript _ _ _); [by eexists|]. unfold bind at 1. destruct (finishActiveAgentRuns _ _ _ _ _ w1). by eexists.
Qed.
End Ends.

(** * A session *)

Module SessionDemo.
(** A clock that advances by a second at every look, and a script of frames; a read after it
    waits until its deadline. *)
Definition World : Type := Z * list Frame.
#[local] Instance demo_runtime : Runtime World :=
  {| time_Now := fun w => (w.1, (w.1 + second, w.2)); ctx_Err _ := ret None |}.
#[local] Instance demo_gateways : Gateways World :=
  {| gw_Connect _ _ := ret (inr (ENew "refused"));
     gw_Call _ _ _ _ := ret (inl [("ok", JBool true); ("payload", JObject [("runId", JString "run-1"); ("status", JString "ok")])]%string);
     gw_RecvEvent _ ctx := fun w =>
       match w.2 with
       | frame :: frames => (inl frame, (w.1, frames))
       | [] => (inr (ESentinel DeadlineExceeded), (match ctx with WithDeadline _ t => Z.max t w.1 | _ => w.1 end, []))
       end;
     gw_FatalError _ := ret None; gw_Agent _ _ _ := ret ({| ar_RunID := ""; ar_Text := "" |}, None); gw_Close _ := ret None |}.
#[local] Instance demo_timers : Timers World :=
  {| new_channel := ret 0%nat; close_channel _ := ret tt; channel_closed _ := ret true; cancel_of _ := ret tt; sleep _ _ := ret None |}.
#[local] Instance demo_clock : SessionClock World.
Proof.
  refine {| sc_clock w := w.1; sc_left w := length w.2 |}; try done.
  - intros w. cbn. unfold second. split_and!; [done|lia|done].
  - intros gateway ctx deadline [t [|frame frames]]; cbn; [lia|lia].
Defined.
Definition talk (kind : string) (call : string) (payload : list (string * json)) : Frame :=
  [("type", JString "event"); ("event", JString "talk.event");
   ("payload", JObject [("talkEvent", JObject [("type", JString kind); ("sessionId", JString "s"); ("callId", JString call);
                                              ("payload", JObject payload)])])]%string.
Definition chat (runID state text : string) : Frame :=
  [("type", JString "event"); ("event", JString "chat");
   ("payload", JObject [("runId", JString runID); ("state", JString state); ("deltaText", JString text)])]%string.
Definition script : list Frame :=
  [talk "transcript.delta" "" [("text", JString "hel")]; talk "transcript.done" "" [("text", JString "hello")];
   talk "tool.call" "call-1" [("name", JString "openclaw_agent_consult"); ("args", JObject [("question", JString "why")])];
   chat "run-1" "delta" "because"; chat "run-1" "final" ""]%string.
Definition run (frames : list Frame) :=
  processEvents (fun s => s) 0 (AudioDemo.options (World * list gateway_event)) 200 (Given 0) 0 (newResult "prompt") (0, frames, []).
Definition answer (x : option (error * Result)) : option (Result) := match x with Some (None, r) => Some r | _ => None end.
Example script_ends :
  (r ← answer (run script).1; Some (rr_Transcript r, rr_OutputText r, rr_ToolCalls r, rr_ToolResults r, rr_AgentRunIDs r)) =
  Some ("hello", "because", 1, 1, ["run-1"])%string.
Proof. vm_compute. reflexivity. Qed.
Example nothing_final : answer (run (take 1 script)).1 = None.
Proof. vm_compute. reflexivity. Qed.

Lemma agent_runs_settled_witness :
  emits (processEvents (fun s => s) 0 (AudioDemo.options (World * list gateway_event)) 200 (Given 0) 0 (newResult "prompt"))
    (fun ended evs => match ended with
       | Some (None, r') =>
           (forall runID, runID ∈ rr_AgentRunIDs r' ->
              run_completed runID evs \/ (exists message, run_failed runID message evs /\ message ∈ rr_Errors r') \/
              run_waited runID (rr_Errors r') evs) /\
           len (rr_OutputText r') <= defaultRealtimeOutputBufferSize
       | _ => True
       end).
Proof. apply (agent_runs_settled (fun s => s) 0 (AudioDemo.options _) 200 (Given 0) 0 (newResult "prompt")). reflexivity. Defined.
Lemma transcription_is_final_witness :
  emits (processEvents (fun s => s) 0 (AudioDemo.options (World * list gateway_event)) 200 (Given 0) 0 (newResult "prompt"))
    (fun ended evs => match ended with
       | Some (None, r') =>
           last (transcripts (W := World) (AudioDemo.options _) evs) = Some (true, rr_Transcript r') /\
           rr_TranscriptDone r' = rr_Transcript r' /\ rr_Transcript r' <> ""%string /\
           rr_TranscriptDoneParts r' = finals (transcripts (W := World) (AudioDemo.options _) evs)
       | _ => True
       end).
Proof.
  apply (transcription_is_final (fun s => s) 0 (AudioDemo.options _) 200 (Given 0) 0 (newResult "prompt")); reflexivity.
Defined.
Lemma session_ends_witness : sc_left (W := World) (0, script) = 5%nat /\
  is_Some (processEvents (fun s => s) 0 (AudioDemo.options World) 7 (Given 0) 0 (newResult "prompt") (0, script)).1.
Proof.
  split; [reflexivity|].
  apply (session_ends (fun s => s) 0 (AudioDemo.options World) 7 (Given 0) 0 (newResult "prompt") (0, script)); [reflexivity|].
  vm_compute. lia.
Defined.
End SessionDemo.
