(* ===== verification/ConfigLoad.v ===== *)
(** The files of an experiment ([pkg/config], config.go and arrivals.go): the strict
    decoding, the loading of an experiment with the files it names, and the arrival trace
    of an open loop. *)

From Stdlib Require Import SpecFloat.
From S2P Require Import Prelude Core Paths Sandbox GoTime ConfigDeployment ConfigModel Config.

(** * Strict decoding *)

(** A decoder of [encoding/json] on one document: the first value into a destination that
    holds [initial], with what follows; and the second [Decode], [None] for a value. *)
Record Decoder (A : Type) := {
  de_Decode : A -> string -> (A * string) + err;
  de_Trailing : string -> error
}.
Arguments de_Decode {A}.
Arguments de_Trailing {A}.

Definition decodeStrictJSON {A} (d : Decoder A) (initial : A) (name content : string) : checked A :=
  match de_Decode d initial content with
  | inr e => inr e
  | inl (a, rest) =>
      match de_Trailing d rest with
      | None => inr (ENew (name +:+ " contains multiple JSON values"))
      | Some e => if errors_Is e ErrEOF then inl a else inr (EWrap "read trailing JSON" e)
      end
  end.

Section Load.
Context {W : Type}.
Variable url_Parse : string -> option FullURL.
Variable url_String : FullURL -> string.
Variable ParsePrefix ParseIP : string -> bool.
Variable ParseNormalizedNamed : string -> Named + err.
Variable Unmarshal_object : bytes -> option (list (string * json)).
Variable config_decoder : Decoder Config.
Variable versions_decoder : Decoder Versions.
Variable overrides_decoder : Decoder RuntimeOverrides.
Variables (zero_Config : Config) (zero_Versions : Versions) (zero_Overrides : RuntimeOverrides).
Variable Open : string -> M W (string + err).       (* os.Open, and the file's content *)
Variable Abs : string -> M W (string + err).

(** [Decode] and [DecodeVersions]. *)
Definition initial_config : Config :=
  set_cf_Execution {| ec_Concurrency := 1; ec_LoopDuration := ec_LoopDuration (cf_Execution zero_Config);
                      ec_Loop := ec_Loop (cf_Execution zero_Config);
                      ec_ArrivalsFile := ec_ArrivalsFile (cf_Execution zero_Config);
                      ec_ArrivalRatePerMin := ec_ArrivalRatePerMin (cf_Execution zero_Config) |} zero_Config.
Definition Decode (content : string) : checked Config :=
  check_bind (decodeStrictJSON config_decoder initial_config "experiment config" content) (fun c =>
    config_validate url_Parse url_String ParsePrefix ParseIP Unmarshal_object
      (set_cf_OutputDir (default_text (cf_OutputDir c) "runs") c)).
Definition DecodeVersions (content : string) : checked Versions :=
  check_bind (decodeStrictJSON versions_decoder zero_Versions "version pins" content) (fun v =>
    check_that (versions_validate url_Parse ParseNormalizedNamed v) (inl v)).

(** [LoadVersions], [LoadRuntimeOverrides] and [Load]. *)
Definition wrapped {A} (text : string) (x : checked A) : checked A :=
  match x with inl a => inl a | inr e => inr (EWrap text e) end.
Definition LoadVersions (path : string) : M W (checked Versions) :=
  let* content := Open path in
  ret match content with
      | inr e => inr (EWrap ("open version pins " +:+ quote path) e)
      | inl content => wrapped ("decode version pins " +:+ quote path) (DecodeVersions content)
      end.
Definition LoadRuntimeOverrides (path : string) : M W (checked RuntimeOverrides) :=
  let* content := Open path in
  ret match content with
      | inr e => inr (EWrap ("open runtime overrides " +:+ quote path) e)
      | inl content =>
          check_bind (wrapped ("decode runtime overrides " +:+ quote path)
                        (decodeStrictJSON overrides_decoder zero_Overrides "runtime overrides" content)) (fun o =>
            wrapped ("validate runtime overrides " +:+ quote path) (overrides_validate o))
      end.

(** [filepath.Dir]: up to the last separator, cleaned. *)
Definition Dir (path : string) : string :=
  Clean (of_bytes (match split_bytes "/" (to_bytes path) with
                   | [_] => []
                   | parts => join_bytes "/" (removelast parts) ++ ["/"%char]
                   end)).
Definition beside (path file : string) : string := if IsAbs file then file else Join [Dir path; file].
Record Loaded := { ld_Config : Config; ld_Versions : Versions; ld_Overrides : RuntimeOverrides }.

Definition load_overrides (path : string) (c : Config) : M W (checked RuntimeOverrides) :=
  if String.eqb (cf_OverridesFile c) "" then ret (inl zero_Overrides)
  else
    let* o := LoadRuntimeOverrides (beside path (cf_OverridesFile c)) in
    ret (wrapped "load runtime overrides" o).
Definition resolve_runtime (path : string) (c : Config) : M W (checked Config) :=
  let file := rv_File (rc_Config (cf_Runtime c)) in
  if String.eqb file "" then ret (inl c)
  else
    let* resolved := Abs (beside path file) in
    ret match resolved with
        | inr e => inr (EWrap "resolve runtime config file" e)
        | inl resolved =>
            inl (set_cf_Runtime {| rc_Backend := rc_Backend (cf_Runtime c); rc_Mode := rc_Mode (cf_Runtime c);
                                   rc_Config := set_rv_ResolvedFile resolved (rc_Config (cf_Runtime c)) |} c)
        end.
Definition Load (path : string) : M W (checked Loaded) :=
  let* content := Open path in
  match content with
  | inr e => ret (inr (EWrap "open experiment config" e))
  | inl content =>
      match Decode content with
      | inr e => ret (inr (EWrap ("decode experiment config " +:+ quote path) e))
      | inl c =>
          let* versions := LoadVersions (beside path (cf_VersionsFile c)) in
          match versions with
          | inr e => ret (inr (EWrap "load version pins" e))
          | inl versions =>
              match (if String.eqb (bc_Type (cf_Benchmark c)) "toolathlon"
                     then validateRepositoryPin url_Parse "toolathlon" (vs_Toolathlon versions) else None) with
              | Some e => ret (inr (EWrap "load version pins" e))
              | None =>
                  let* overrides := load_overrides path c in
                  match overrides with
                  | inr e => ret (inr e)
                  | inl overrides =>
                      let* c := resolve_runtime path c in
                      ret match c with
                          | inr e => inr e
                          | inl c => inl {| ld_Config := c; ld_Versions := versions; ld_Overrides := overrides |}
                          end
                  end
              end
          end
      end
  end.
End Load.

(** * Arrivals *)

(** [Arrival] and [arrivalTrace], its entries as trajectory and offset. *)
Record Arrival := { ar_TaskID : string; ar_At : Z }.
Record arrivalTrace := { tr_BaseRatePerMin : float64; tr_Arrivals : list (string * float64) }.

(** The offsets of one task in the trace, in its order. *)
Definition times_of (trace : arrivalTrace) (id : string) : list float64 :=
  omap (fun entry => if String.eqb entry.1 id then Some entry.2 else None) (tr_Arrivals trace).

(** [sort.SliceStable] by the start. *)
Fixpoint insert_arrival (a : Arrival) (l : list Arrival) : list Arrival :=
  match l with
  | [] => [a]
  | b :: rest => if ar_At a <=? ar_At b then a :: l else b :: insert_arrival a rest
  end.
Definition sort_arrivals (l : list Arrival) : list Arrival := foldr insert_arrival [] l.

Section Arrivals.
Variables (scale : float64) (trace : arrivalTrace).
Variable path : string.
Definition exhausted (id : string) (times k : nat) : err :=
  ENew ("arrivals file " +:+ quote path +:+ " has " +:+ itoa (Z.of_nat times) +:+ " arrival(s) for task " +:+
        quote id +:+ "; the profile lists it " +:+ itoa (Z.of_nat (S k)) +:+ " time(s)").
Definition out_of_range (id : string) : err :=
  ENew ("arrivals file " +:+ quote path +:+ ": offset for task " +:+ quote id +:+ " is out of range").

(** One task of the profile: its [k]th arrival, scaled. *)
Definition nanoseconds (seconds : float64) : float64 := f64_mul seconds (f64_of_Z (10 ^ 9)).
Definition refused_offset (seconds : float64) : bool :=
  negb (f64_leb f64_zero seconds) || IsInf seconds || f64_leb two_63 (nanoseconds seconds).
Definition arrival_of (id : string) (t : float64) : Arrival :=
  {| ar_TaskID := id; ar_At := f64_trunc (nanoseconds (f64_mul t scale)) |}.
Definition next_arrival (id : string) (k : nat) : checked Arrival :=
  let times := times_of trace id in
  match times !! k with
  | None => inr (exhausted id (length times) k)
  | Some t => if refused_offset (f64_mul t scale) then inr (out_of_range id) else inl (arrival_of id t)
  end.
Fixpoint schedule (used : gmap string nat) (ids : list string) : checked (list Arrival) :=
  match ids with
  | [] => inl []
  | id :: ids =>
      let k := default O (used !! id) in
      check_bind (next_arrival id k) (fun a =>
      check_bind (schedule (<[id := S k]> used) ids) (fun rest => inl (a :: rest)))
  end.
End Arrivals.

(** [LoadArrivals]; [Unmarshal] decodes the trace. *)
Definition LoadArrivals {W} (ReadFile : string -> M W (string + err)) (Unmarshal : string -> arrivalTrace + err)
    (path : string) (ratePerMin : float64) (taskIDs : list string) : M W (checked (list Arrival)) :=
  if negb (f64_ltb f64_zero ratePerMin) || IsInf ratePerMin
  then ret (inr (ENew "arrival rate must be finite and positive"))
  else
    let* raw := ReadFile path in
    ret match raw with
        | inr e => inr (EWrap "read arrivals file" e)
        | inl raw =>
            match Unmarshal raw with
            | inr e => inr (EWrap ("parse arrivals file " +:+ quote path) e)
            | inl trace =>
                if negb (f64_ltb f64_zero (tr_BaseRatePerMin trace))
                then inr (ENew ("arrivals file " +:+ quote path +:+ ": base_rate_per_min must be positive"))
                else if bool_decide (tr_Arrivals trace = [])
                then inr (ENew ("arrivals file " +:+ quote path +:+ " has no arrivals"))
                else check_bind (schedule (f64_div (tr_BaseRatePerMin trace) ratePerMin) trace path ∅ taskIDs)
                       (fun arrivals => inl (sort_arrivals arrivals))
            end
        end.

(** * The schedule of an open loop *)

Definition occurrences (id : string) (ids : list string) : nat := length (filter (fun x => x = id) ids).

(** What the profile's [i]th task gets: the arrival of that task in the trace with as many
    of its occurrences before it. *)
Definition takes (scale : float64) (trace : arrivalTrace) (ids : list string) (i : nat) (id : string) (a : Arrival) : Prop :=
  exists t, times_of trace id !! occurrences id (take i ids) = Some t /\
    refused_offset (f64_mul t scale) = false /\ a = arrival_of scale id t.
Definition no_arrival (scale : float64) (trace : arrivalTrace) (ids : list string) (i : nat) (id : string) : Prop :=
  (length (times_of trace id) <= occurrences id (take i ids))%nat \/
  exists t, times_of trace id !! occurrences id (take i ids) = Some t /\ refused_offset (f64_mul t scale) = true.

Lemma occurrences_snoc id ids x :
  occurrences id (ids ++ [x]) = (occurrences id ids + (if decide (x = id) then 1 else 0))%nat.
Proof. unfold occurrences. rewrite filter_app, length_app, filter_cons. by destruct (decide (x = id)). Qed.

Lemma schedule_from scale trace path before used ids :
  (forall id, default O (used !! id) = occurrences id before) ->
  match schedule scale trace path used ids with
  | inl l => length l = length ids /\ forall i id, ids !! i = Some id -> exists a, l !! i = Some a /\
      takes scale trace (before ++ ids) (length before + i) id a
  | inr _ => exists i id, ids !! i = Some id /\ no_arrival scale trace (before ++ ids) (length before + i) id
  end.
Proof.
  revert before used. induction ids as [|id ids IH]; intros before used Hu; cbn [schedule]; [done|].
  rewrite Hu. unfold next_arrival.
  assert (take (length before + 0) (before ++ id :: ids) = before) as H0.
  { by rewrite Nat.add_0_r, take_app_length. }
  destruct (times_of trace id !! occurrences id before) as [t|] eqn:Ht; cbn [check_bind].
  2: { exists 0%nat, id. split; [done|]. left. rewrite H0. by apply lookup_ge_None in Ht. }
  destruct (refused_offset _) eqn:Hr; cbn [check_bind].
  { exists 0%nat, id. split; [done|]. right. exists t. by rewrite H0. }
  specialize (IH (before ++ [id]) (<[id := S (occurrences id before)]> used)).
  rewrite <- app_assoc in IH. simpl in IH. rewrite length_app in IH. simpl in IH.
  destruct (schedule _ _ _ _ ids) as [rest|e]; cbn [check_bind].
  - destruct IH as [Hl IH].
    { intros id'. rewrite occurrences_snoc. destruct (decide (id = id')) as [->|Hne].
      - rewrite lookup_insert_eq. simpl. lia.
      - rewrite lookup_insert_ne by done. rewrite Hu. lia. }
    split; [simpl; lia|]. intros [|i] id' Hi.
    + injection Hi as <-. eexists. split; [done|]. exists t. rewrite H0. done.
    + destruct (IH i id' Hi) as (a & Ha & Htake). exists a. split; [done|].
      by replace (length before + S i)%nat with (length before + 1 + i)%nat by lia.
  - destruct IH as (i & id' & Hi & Hno).
    { intros id'. rewrite occurrences_snoc. destruct (decide (id = id')) as [->|Hne].
      - rewrite lookup_insert_eq. simpl. lia.
      - rewrite lookup_insert_ne by done. rewrite Hu. lia. }
    exists (S i), id'. split; [done|].
    by replace (length before + S i)%nat with (length before + 1 + i)%nat by lia.
Qed.

(** The sort is a stable one. *)
Definition starts_before (a b : Arrival) : Prop := ar_At a <= ar_At b.
Lemma insert_arrival_perm a l : insert_arrival a l ≡ₚ a :: l.
Proof.
  induction l as [|b l IH]; [done|]. simpl. destruct (_ <=? _); [done|]. rewrite IH. apply Permutation_swap.
Qed.
Lemma sort_arrivals_perm l : sort_arrivals l ≡ₚ l.
Proof. induction l as [|a l IH]; [done|]. simpl. by rewrite insert_arrival_perm, IH. Qed.
Lemma insert_arrival_sorted a l : Sorted starts_before l -> Sorted starts_before (insert_arrival a l).
Proof.
  induction 1 as [|b l Hl IH Hb]; simpl; [repeat constructor|].
  destruct (Z.leb_spec (ar_At a) (ar_At b)) as [Hab|Hab].
  - constructor; [by constructor|]. by constructor.
  - constructor; [done|]. unfold starts_before. destruct l as [|c l]; simpl; [constructor; lia|].
    inversion Hb as [|? ? Hbc]; subst. destruct (_ <=? _); constructor; [lia|done].
Qed.
Lemma sort_arrivals_sorted l : Sorted starts_before (sort_arrivals l).
Proof. induction l as [|a l IH]; [constructor|]. by apply insert_arrival_sorted. Qed.
Definition starting (t : Z) (l : list Arrival) : list Arrival := filter (fun a => ar_At a = t) l.
Lemma insert_arrival_stable t a l : starting t (insert_arrival a l) = starting t (a :: l).
Proof.
  induction l as [|b l IH]; [done|]. simpl. destruct (Z.leb_spec (ar_At a) (ar_At b)); [done|].
  unfold starting in *. rewrite !filter_cons in *. destruct (decide (ar_At b = t)), (decide (ar_At a = t));
    rewrite IH; try done; lia.
Qed.
Lemma sort_arrivals_stable t l : starting t (sort_arrivals l) = starting t l.
Proof.
  induction l as [|a l IH]; [done|]. cbn [sort_arrivals foldr]. rewrite insert_arrival_stable.
  unfold starting in *. rewrite !filter_cons. unfold sort_arrivals in IH. by rewrite IH.
Qed.

(** The schedule of an open loop: with a trace read, the profile's k-th occurrence of
    a task takes the k-th arrival of that task in the trace, scaled from the base rate to
    the profile's; the result holds one start per entry of the profile, in order of
    start, entries with the same start in the profile's order; and a refusal means that
    some entry has no arrival left or one out of range, never that one was skipped. *)
Theorem arrivals_exact {W} (ReadFile : string -> M W (string + err)) Unmarshal path rate ids w raw trace :
  f64_ltb f64_zero rate = true -> IsInf rate = false ->
  (ReadFile path w).1 = inl raw -> Unmarshal raw = inl trace ->
  f64_ltb f64_zero (tr_BaseRatePerMin trace) = true -> tr_Arrivals trace <> [] ->
  let scale := f64_div (tr_BaseRatePerMin trace) rate in
  match (LoadArrivals ReadFile Unmarshal path rate ids w).1 with
  | inl arrivals => exists planned, length planned = length ids /\
      (forall i id, ids !! i = Some id -> exists a, planned !! i = Some a /\ takes scale trace ids i id a) /\
      Sorted starts_before arrivals /\ arrivals ≡ₚ planned /\ (forall t, starting t arrivals = starting t planned)
  | inr _ => exists i id, ids !! i = Some id /\ no_arrival scale trace ids i id
  end.
Proof.
  intros Hr Hi Hread Hun Hb Hne scale. unfold LoadArrivals. rewrite Hr, Hi. cbn [negb orb]. unfold bind, ret.
  destruct (ReadFile path w) as [raw' w']. simpl in Hread. subst raw'. rewrite Hun, Hb. cbn [negb fst].
  rewrite bool_decide_eq_false_2 by done. fold scale.
  pose proof (schedule_from scale trace path [] ∅ ids ltac:(intros id; by rewrite lookup_empty)) as H.
  destruct (schedule scale trace path ∅ ids) as [l|e]; cbn [check_bind]; [|exact H].
  destruct H as [Hl H]. exists l. split; [done|]. split; [exact H|].
  auto using sort_arrivals_sorted, sort_arrivals_perm, sort_arrivals_stable.
Qed.

(** Two arrivals of one task and one of another, at twice the base rate. *)
Definition demo_trace : arrivalTrace :=
  {| tr_BaseRatePerMin := f64_of_Z 2; tr_Arrivals := [("a", f64_of_Z 10); ("b", f64_of_Z 4); ("a", f64_of_Z 20)]%string |}.
Definition demo_load (ids : list string) : M unit (checked (list Arrival)) :=
  LoadArrivals (fun _ => ret (inl "trace"%string)) (fun _ => inl demo_trace) "trace.json" (f64_of_Z 4) ids.
Lemma arrivals_exact_witness :
  match (demo_load ["a"; "b"; "a"]%string tt).1 with
  | inl arrivals => exists planned, length planned = 3%nat /\
      (forall i id, ["a"; "b"; "a"]%string !! i = Some id -> exists a, planned !! i = Some a /\
         takes (f64_div (f64_of_Z 2) (f64_of_Z 4)) demo_trace ["a"; "b"; "a"]%string i id a) /\
      Sorted starts_before arrivals /\ arrivals ≡ₚ planned /\ (forall t, starting t arrivals = starting t planned)
  | inr _ => exists i id, ["a"; "b"; "a"]%string !! i = Some id /\
      no_arrival (f64_div (f64_of_Z 2) (f64_of_Z 4)) demo_trace ["a"; "b"; "a"]%string i id
  end.
Proof.
  apply (arrivals_exact (W := unit) (fun _ => ret (inl "trace"%string)) (fun _ => inl demo_trace) "trace.json" (f64_of_Z 4)
    ["a"; "b"; "a"]%string tt "trace" demo_trace); vm_compute; try reflexivity. discriminate.
Defined.
Example demo_arrivals :
  (demo_load ["a"; "b"; "a"]%string tt).1 =
  inl [{| ar_TaskID := "b"; ar_At := 2 * 10 ^ 9 |}; {| ar_TaskID := "a"; ar_At := 5 * 10 ^ 9 |};
       {| ar_TaskID := "a"; ar_At := 10 * 10 ^ 9 |}].
Proof. vm_compute. reflexivity. Qed.
