(* ===== verification/HarnessRuntime.v ===== *)
(** The mechanics shared by the agent harnesses: the ownership of a task occurrence
    and its runtime ([pkg/harness], harness.go) and the attempts to stop it
    ([pkg/harness/internal/runtime], ownership.go). Every function that takes the
    runtime's lock is one step here. The sessions of the native managers are objects in
    a store, so that the runtime's and the manager's references to one are the same. *)

From S2P Require Import Prelude Utf8 Trace Core Sandbox Redaction Credentials Deployments.

(** * State *)

(** [deployment.Deployment], the methods a harness calls. *)
Record HarnessDeployment (W : Type) := {
  hd_Create : Ctx -> Request -> M W (string * error);
  hd_Validate : Ctx -> string -> Request -> list bytes -> M W error;
  hd_UploadArchive : Ctx -> string -> string -> bytes -> M W error;
  hd_DownloadArchive : Ctx -> string -> string -> Z -> M W (bytes * error + err);   (* read up to a limit *)
  hd_Start : Ctx -> string -> M W error;
  hd_Running : Ctx -> string -> M W (bool * error);
  hd_Logs : Ctx -> string -> Z -> M W (bytes * error);
  hd_Address : Ctx -> string -> Z -> M W (string * error);
  hd_Exec : Ctx -> string -> Command -> M W (CommandResult * error);
  hd_Stop : Ctx -> string -> M W error;
  hd_Close : M W error
}.
Arguments hd_Create {W}.
Arguments hd_Validate {W}.
Arguments hd_UploadArchive {W}.
Arguments hd_DownloadArchive {W}.
Arguments hd_Start {W}.
Arguments hd_Running {W}.
Arguments hd_Logs {W}.
Arguments hd_Address {W}.
Arguments hd_Exec {W}.
Arguments hd_Stop {W}.
Arguments hd_Close {W}.

(** [RuntimeOptions]; its [Logger] has no part in what is modelled. [Artifacts] are the
    paths collected so far, in a directory. *)
Record RuntimeOptions := {
  ro_Image : string;
  ro_OutputDir : string;
  ro_CleanupTimeout : Z;
  ro_StartTimeout : Z;
  ro_AgentTimeout : Z;
  ro_APIKeyLookup : KeyLookup
}.
Record Artifacts := { at_Directory : string; at_paths : list string }.

(** [Occurrence]. *)
Record Occurrence := {
  oc_RunID : string;
  oc_TaskID : string;
  oc_AttemptID : string;
  oc_Name : string;
  oc_ID : string;
  oc_DeploymentRequest : option Request;
  oc_ArtifactDir : string;
  oc_Endpoint : ToolEndpoint;
  oc_Model : ModelConfig;
  oc_AgentTimeout : Z;
  oc_Credentials : Credentials;
  oc_Artifacts : Artifacts
}.

(** A native manager and its [Runtime]: the heap of key buffers, the store of sessions
    (an occurrence with the native state [S]), [Manager.active], and of the runtime its
    [active], [ready] and [admitted], the stop attempts made so far ([None]: its [done]
    is open), the current one and whether it is running, and the outcome of the one
    [Close]. *)
Record Session (S : Type) := { ss_occurrence : Occurrence; ss_native : S }.
Arguments ss_occurrence {S}.
Arguments ss_native {S}.
Record Harness (S : Type) := {
  hn_heap : Heap;
  hn_sessions : gmap nat (Session S);
  hn_active : option nat;
  hn_owned : option nat;
  hn_ready : bool;
  hn_admitted : bool;
  hn_attempts : list (option error);
  hn_attempt : option nat;
  hn_running : bool;
  hn_closed : option error
}.
Arguments hn_heap {S}.
Arguments hn_sessions {S}.
Arguments hn_active {S}.
Arguments hn_owned {S}.
Arguments hn_ready {S}.
Arguments hn_admitted {S}.
Arguments hn_attempts {S}.
Arguments hn_attempt {S}.
Arguments hn_running {S}.
Arguments hn_closed {S}.
Definition set_hn_heap {S} (x : Heap) (h : Harness S) : Harness S :=
  {| hn_heap := x; hn_sessions := hn_sessions h; hn_active := hn_active h; hn_owned := hn_owned h;
     hn_ready := hn_ready h; hn_admitted := hn_admitted h; hn_attempts := hn_attempts h;
     hn_attempt := hn_attempt h; hn_running := hn_running h; hn_closed := hn_closed h |}.
Definition set_hn_sessions {S} (x : gmap nat (Session S)) (h : Harness S) : Harness S :=
  {| hn_heap := hn_heap h; hn_sessions := x; hn_active := hn_active h; hn_owned := hn_owned h;
     hn_ready := hn_ready h; hn_admitted := hn_admitted h; hn_attempts := hn_attempts h;
     hn_attempt := hn_attempt h; hn_running := hn_running h; hn_closed := hn_closed h |}.
Definition set_hn_active {S} (x : option nat) (h : Harness S) : Harness S :=
  {| hn_heap := hn_heap h; hn_sessions := hn_sessions h; hn_active := x; hn_owned := hn_owned h;
     hn_ready := hn_ready h; hn_admitted := hn_admitted h; hn_attempts := hn_attempts h;
     hn_attempt := hn_attempt h; hn_running := hn_running h; hn_closed := hn_closed h |}.
Definition set_hn_closed {S} (x : option error) (h : Harness S) : Harness S :=
  {| hn_heap := hn_heap h; hn_sessions := hn_sessions h; hn_active := hn_active h;
     hn_owned := hn_owned h; hn_ready := hn_ready h; hn_admitted := hn_admitted h;
     hn_attempts := hn_attempts h; hn_attempt := hn_attempt h; hn_running := hn_running h;
     hn_closed := x |}.
Definition set_hn_lease {S} (x_owned : option nat) (x_ready : bool) (x_admitted : bool) (h : Harness S) : Harness S :=
  {| hn_heap := hn_heap h; hn_sessions := hn_sessions h; hn_active := hn_active h;
     hn_owned := x_owned; hn_ready := x_ready; hn_admitted := x_admitted;
     hn_attempts := hn_attempts h; hn_attempt := hn_attempt h; hn_running := hn_running h;
     hn_closed := hn_closed h |}.
Definition set_hn_stop {S} (x_attempts : list (option error)) (x_attempt : option nat) (x_running : bool) (h : Harness S) : Harness S :=
  {| hn_heap := hn_heap h; hn_sessions := hn_sessions h; hn_active := hn_active h;
     hn_owned := hn_owned h; hn_ready := hn_ready h; hn_admitted := hn_admitted h;
     hn_attempts := x_attempts; hn_attempt := x_attempt; hn_running := x_running;
     hn_closed := hn_closed h |}.

(** [Occurrence.ID] and [Occurrence.DeploymentRequest] are written through a reference
    to the session. *)
Definition set_oc_runtime (id : string) (request : option Request) (credentials : Credentials) (o : Occurrence) :
    Occurrence :=
  {| oc_RunID := oc_RunID o; oc_TaskID := oc_TaskID o; oc_AttemptID := oc_AttemptID o; oc_Name := oc_Name o;
     oc_ID := id; oc_DeploymentRequest := request; oc_ArtifactDir := oc_ArtifactDir o;
     oc_Endpoint := oc_Endpoint o; oc_Model := oc_Model o; oc_AgentTimeout := oc_AgentTimeout o;
     oc_Credentials := credentials; oc_Artifacts := oc_Artifacts o |}.
Definition set_oc_Artifacts (artifacts : Artifacts) (o : Occurrence) : Occurrence :=
  {| oc_RunID := oc_RunID o; oc_TaskID := oc_TaskID o; oc_AttemptID := oc_AttemptID o; oc_Name := oc_Name o;
     oc_ID := oc_ID o; oc_DeploymentRequest := oc_DeploymentRequest o; oc_ArtifactDir := oc_ArtifactDir o;
     oc_Endpoint := oc_Endpoint o; oc_Model := oc_Model o; oc_AgentTimeout := oc_AgentTimeout o;
     oc_Credentials := oc_Credentials o; oc_Artifacts := artifacts |}.
Definition set_ss_occurrence {S} (o : Occurrence) (s : Session S) : Session S :=
  {| ss_occurrence := o; ss_native := ss_native s |}.
Definition set_ss_native {S} (x : S) (s : Session S) : Session S :=
  {| ss_occurrence := ss_occurrence s; ss_native := x |}.
Definition update_occurrence {S} (p : nat) (f : Occurrence -> Occurrence) (h : Harness S) : Harness S :=
  set_hn_sessions (alter (fun s => set_ss_occurrence (f (ss_occurrence s)) s) p (hn_sessions h)) h.
Definition occurrence_at {S} (p : nat) (h : Harness S) : option Occurrence := ss_occurrence <$> hn_sessions h !! p.

(** * Stop attempts (ownership.go) *)

(** [StopState.Reset]: an attempt that is over from the start. *)
Definition Reset {S} (e : error) (h : Harness S) : Harness S :=
  set_hn_stop (hn_attempts h ++ [Some e]) (Some (length (hn_attempts h))) (hn_running h) h.

(** [StopState.Begin]: the attempt, and whether the caller owns its cleanup. *)
Definition Begin {S} (owned : bool) (h : Harness S) : option nat * bool * Harness S :=
  if hn_running h then (hn_attempt h, false, h)
  else if negb owned then
    let h := match hn_attempt h with None => Reset None h | Some _ => h end in
    (hn_attempt h, false, h)
  else
    let attempt := length (hn_attempts h) in
    (Some attempt, true, set_hn_stop (hn_attempts h ++ [None]) (Some attempt) true h).

(** [StopState.Finish]. *)
Definition Finish {S} (e : error) (h : Harness S) : Harness S :=
  match hn_attempt h with
  | Some attempt => set_hn_stop (<[attempt := Some e]> (hn_attempts h)) (Some attempt) false h
  | None => h
  end.

(** [StopAttempt.Wait], when it returns: [None] while the attempt is neither done nor
    the waiter's context over. *)
Definition Wait {S} (canceled : option sentinel) (attempt : nat) (h : Harness S) : option error :=
  match hn_attempts h !! attempt with
  | Some (Some e) => Some e
  | _ => (fun s => Some (ESentinel s)) <$> canceled
  end.

(** * Runtime (harness.go) *)

Section Runtime.
Context {W S : Type}.
Variable deployment : HarnessDeployment W.
Variable label : string.
Variable options : RuntimeOptions.
Variable os_RemoveAll : string -> M W unit.

Definition InUse (h : Harness S) : bool := bool_decide (is_Some (hn_owned h)) || hn_running h.

Definition Own (p : nat) (h : Harness S) : error * Harness S :=
  if InUse h then (Some (ENew (label +:+ " harness is already active")), h)
  else (None, Reset None (set_hn_lease (Some p) false false h)).

Definition Ready (h : Harness S) : Harness S := set_hn_lease (hn_owned h) true (hn_admitted h) h.

Definition AdmitRun (instruction : string) (h : Harness S) : error * Harness S :=
  let refuse text := (Some (ENew (label +:+ text)), h) in
  if hn_running h then refuse " harness is stopping"
  else if bool_decide (hn_owned h = None) || negb (hn_ready h) then refuse " harness is not started"
  else if hn_admitted h then refuse " harness accepts exactly one task instruction"
  else if String.eqb (TrimSpace instruction) "" || ContainsByte instruction NUL
  then refuse " task instruction is invalid"
  else (None, set_hn_lease (hn_owned h) (hn_ready h) true h).

(** [Runtime.Start]: the identity is kept as soon as there is one. *)
Definition runtime_Start (ctx : Ctx) (p : nat) (request : Request) (archive : bytes) (secrets : list bytes)
    (h : Harness S) : M W (error * Harness S) :=
  let* (id, e) := hd_Create deployment ctx request in
  let h := update_occurrence p (fun o => set_oc_runtime id (Some request) (oc_Credentials o) o) h in
  match e with
  | Some e => ret (Some (EWrap ("create " +:+ label +:+ " runtime") e), h)
  | None =>
      if String.eqb (TrimSpace id) ""
      then ret (Some (ENew ("deployment returned an empty " +:+ label +:+ " runtime ID")), h)
      else
        let* e := hd_UploadArchive deployment ctx id "/" archive in
        match e with Some e => ret (Some (EWrap ("copy private " +:+ label +:+ " runtime") e), h) | None =>
        let* e := hd_Validate deployment ctx id request secrets in
        match e with Some e => ret (Some e, h) | None =>
        let* e := hd_Start deployment ctx id in
        ret (wrap ("start " +:+ label +:+ " container") e, h)
        end end
  end.

Definition BeginStop (h : Harness S) : option nat * bool * Harness S :=
  Begin (bool_decide (is_Some (hn_owned h))) (set_hn_lease (hn_owned h) false (hn_admitted h) h).

(** [StopOwned] and [Remove]: the identity and the credentials go once the deployment
    has confirmed that the runtime is gone. *)
Definition StopOwned (ctx : Ctx) (id : string) : M W (error * string) :=
  if String.eqb id "" then ret (None, id)
  else let* e := hd_Stop deployment ctx id in ret (e, match e with Some _ => id | None => "" end)%string.
Definition Remove (ctx : Ctx) (p : nat) (h : Harness S) : M W (error * Harness S) :=
  match occurrence_at p h with
  | None => ret (None, h)
  | Some o =>
      let* (e, id) := StopOwned ctx (oc_ID o) in
      let h := update_occurrence p (fun o => set_oc_runtime id (oc_DeploymentRequest o) (oc_Credentials o) o) h in
      match e with
      | Some _ => ret (e, h)
      | None =>
          let (credentials, heap) := Clear (oc_Credentials o) (hn_heap h) in
          ret (None, set_hn_heap heap
                       (update_occurrence p (fun o => set_oc_runtime (oc_ID o) (oc_DeploymentRequest o) credentials o) h))
      end
  end.

Definition owned_ID (h : Harness S) : string :=
  match hn_owned h with
  | Some p => match occurrence_at p h with Some o => oc_ID o | None => "" end
  | None => ""
  end.
Definition FinishStop (e : error) (h : Harness S) : Harness S :=
  Finish e (if String.eqb (owned_ID h) "" then set_hn_lease None false (hn_admitted h) h else h).

Definition Rollback (ctx : Ctx) (p : nat) (primary : err) (h : Harness S) : M W (err * Harness S) :=
  let* (e, h) := Remove (WithTimeout (WithoutCancel ctx) (ro_CleanupTimeout options)) p h in
  match e with
  | Some e =>
      ret (EJoin [primary; EWrap ("rollback partial " +:+ label +:+ " harness") e], Reset (Some e) h)
  | None =>
      let* _ := os_RemoveAll (default "" (oc_ArtifactDir <$> occurrence_at p h)) in
      ret (primary, Reset None (set_hn_lease None false (hn_admitted h) h))
  end.

(** [Runtime.Close], with [TransportClose]. *)
Definition runtime_Close (h : Harness S) : M W (error * Harness S) :=
  match hn_closed h with
  | Some e => ret (e, h)
  | None => let* e := hd_Close deployment in ret (e, set_hn_closed (Some e) h)
  end.
End Runtime.

(** * Occurrences *)

(** [Occurrence.Snapshot]: credentials of its own, and a copy of the paths. *)
Definition occurrence_Snapshot (o : Occurrence) (h : Heap) : Occurrence * Heap :=
  let (credentials, h) := Snapshot (oc_Credentials o) h in
  (set_oc_runtime (oc_ID o) (oc_DeploymentRequest o) credentials o, h).

(** [Occurrence.FailedResult]. *)
Definition FailedResult (o : Occurrence) (h : Heap) (duration : Z) (e : err) : HarnessResult :=
  {| hr_Status := if errors_Is e Canceled || errors_Is e DeadlineExceeded then StatusCanceled else StatusFailed;
     hr_FinalResponse := ""; hr_Duration := duration; hr_LogPaths := at_paths (oc_Artifacts o);
     hr_Error := of_bytes (credentials_Redact (oc_Credentials o) h (to_bytes (Error e))) |}.
