(* ===== verification/DockerExec.v ===== *)
(** Commands in a Docker container ([pkg/deployment/docker], exec.go): the checks of a
    command, its execution with bounded input and output, and the identities of runs and
    tasks. The input is copied to the command by a goroutine of its own while the output is
    read; what it has copied by the end of the output is part of the client's answer. *)

From S2P Require Import Prelude Utf8 Trace Core Sandbox Deployments HarnessRuntime Docker.

(** [validateIdentity] of this package. *)
Definition docker_validateIdentity (kind value : string) : error :=
  let limit := if String.eqb kind "task" then 149 else 128 in
  (refuse_if (String.eqb value "" || (limit <? len value))
     with ("Docker deployment " +:+ kind +:+ " ID must contain 1 to " +:+ itoa limit +:+ " characters")) >>?
  (refuse_if negb (match to_bytes value with
                   | [] => true
                   | c :: rest => identity_byte true c && forallb (identity_byte false) rest
                   end)
     with ("Docker deployment " +:+ kind +:+ " ID " +:+ quote value +:+ " contains an unsafe character")).

(** [validateCommand] of this package: the path need not be absolute. *)
Definition docker_validateCommand (command : Command) : error :=
  (refuse_if String.eqb (cm_Path command) "" || ContainsByte (cm_Path command) NUL
     with "command path must be nonempty and NUL-free") >>?
  (if String.eqb (cm_Dir command) "" then None
   else wrap "invalid command workdir" (error_of (cleanContainerWorkdir (cm_Dir command)))) >>?
  wrap "invalid command user" (validateExecUser (cm_User command)) >>?
  (refuse_if (cm_Timeout command <? 0) with "command timeout must be nonnegative") >>?
  (refuse_if ((cm_OutputLimitBytes command <? 0) || (maxConfiguredOutput <? cm_OutputLimitBytes command))
     with ("command output limit must be between 0 and " +:+ itoa maxConfiguredOutput +:+ " bytes")) >>?
  first_error (fun argument =>
    refuse_if (ContainsByte argument NUL) with "command argument contains NUL") (cm_Args command) >>?
  first_error (check_env "command") (map_to_list (cm_Env command)).

(** [dockerEnvironment]. *)
Definition dockerEnvironment (values : gmap string string) : list string :=
  map (fun key => key +:+ "=" +:+ default "" (values !! key))%string (sorted_keys values).

Definition maxExecOutput : Z := 16 * 2 ^ 20.

(** [client.ExecCreateOptions], and the client. The output of an attached command is its
    frames, the error that ends them, and how much input was copied by then. *)
Record ExecOptions := {
  eo_AttachStdin : bool;
  eo_Cmd : list string;
  eo_Env : list string;
  eo_WorkingDir : string;
  eo_User : string
}.
Class DockerExec (W : Type) := {
  ExecCreate : Ctx -> string -> ExecOptions -> M W (string + err);
  ExecAttach : Ctx -> string -> M W error;
  ExecOutput : Ctx -> string -> option bytes -> M W (list Frame * error * Z);
  ExecClose : string -> M W unit;
  ExecInspect : Ctx -> string -> M W (Z + err)
}.

(** [limitedWriter], around the writers of the caller: what was written to each so far.
    A writer gives how much it took, and its error. *)
Section Limited.
Context {S : Type}.
Variable write : bool -> bytes -> S -> (Z * error) * S.
Variable limit : Z.
Record limited := { lw_state : S; lw_out : Z; lw_err : Z }.
Definition wrote (stderr : bool) (l : limited) : Z := if stderr then lw_err l else lw_out l.
Definition limited_Write (stderr : bool) (content : bytes) (l : limited) : error * limited :=
  if limit - wrote stderr l <? Z.of_nat (length content)
  then (Some (ENew ("Docker exec output exceeds " +:+ itoa limit +:+ " bytes")), l)
  else
    let '((written, e), s) := write stderr content (lw_state l) in
    (match e with
     | Some e => Some e
     | None => if written =? Z.of_nat (length content) then None else Some (ESentinel ErrShortWrite)   (* StdCopy *)
     end,
     {| lw_state := s;
        lw_out := if stderr then lw_out l else lw_out l + written;
        lw_err := if stderr then lw_err l + written else lw_err l |}).
End Limited.
Arguments lw_state {S}.
Arguments lw_out {S}.
Arguments lw_err {S}.
Arguments Build_limited {S}.

Definition no_result (code duration : Z) : CommandResult :=
  {| cr_ExitCode := code; cr_Stdout := ""; cr_Stderr := ""; cr_Duration := duration |}.

Section Exec.
Context {W : Type} `{!Runtime W} `{!DockerExec W}.

(** [failure]. *)
Definition exec_failed {S} (started : Z) (e : err) (s : S) : M W (CommandResult * error * S) :=
  let* now := time_Now in ret (no_result (-1) (now - started), Some e, s).
Definition exec_context (ctx : Ctx) (timeout : Z) : Ctx :=
  if 0 <? timeout then WithTimeout (WithCancel ctx) timeout else WithCancel ctx.
Definition exec_options (command : Command) (stdin : option bytes) : ExecOptions :=
  {| eo_AttachStdin := is_some stdin; eo_Cmd := cm_Path command :: cm_Args command;
     eo_Env := dockerEnvironment (cm_Env command); eo_WorkingDir := cm_Dir command; eo_User := cm_User command |}.
Definition input_exceeds : err := ENew ("Docker exec stdin exceeds " +:+ itoa maxExecInput +:+ " bytes").

(** [context.Cause] of the execution's context: the input's bound comes first. *)
Definition exec_cause (ctx : Ctx) (copied : Z) : M W error :=
  if maxExecInput <? copied then ret (Some input_exceeds)
  else let* canceled := ctx_Err ctx in ret (ESentinel <$> canceled).

Definition ExecStream {S} (ctx : Ctx) (id : string) (command : Command) (stdin : option bytes)
    (write : bool -> bytes -> S -> (Z * error) * S) (s : S) : M W (CommandResult * error * S) :=
  let* started := time_Now in
  match docker_validateCommand command with
  | Some e => exec_failed started e s
  | None =>
      let outputLimit := if cm_OutputLimitBytes command =? 0 then maxExecOutput else cm_OutputLimitBytes command in
      let execCtx := exec_context ctx (cm_Timeout command) in
      let* created := ExecCreate execCtx id (exec_options command stdin) in
      match created with
      | inr e => exec_failed started (EWrap "create Docker exec" e) s
      | inl exec =>
          let* e := ExecAttach execCtx exec in
          match e with
          | Some e => exec_failed started (EWrap "attach Docker exec" e) s
          | None =>
              let* (frames, ending, copied) := ExecOutput execCtx exec stdin in
              let (e, l) := StdCopy (limited_Write write outputLimit) frames ending
                              {| lw_state := s; lw_out := 0; lw_err := 0 |} in
              let s := lw_state l in
              let* _ := ExecClose exec in
              let* cause := exec_cause execCtx copied in
              match seq_error cause e with
              | Some e => exec_failed started e s
              | None =>
                  let* inspection := ExecInspect execCtx exec in
                  match inspection with
                  | inr e => exec_failed started (EWrap "inspect Docker exec" e) s
                  | inl code => let* now := time_Now in ret (no_result code (now - started), None, s)
                  end
              end
          end
      end
  end.

(** [Exec]: the output is collected in two buffers. *)
Definition append_output (stderr : bool) (content : bytes) (b : bytes * bytes) : (Z * error) * (bytes * bytes) :=
  ((Z.of_nat (length content), None), if stderr then (b.1, b.2 ++ content) else (b.1 ++ content, b.2)).
Definition docker_Exec (ctx : Ctx) (id : string) (command : Command) : M W (CommandResult * error) :=
  let* started := time_Now in
  if maxExecInput <? Z.of_nat (length (cm_Stdin command)) then
    let* now := time_Now in ret (no_result (-1) (now - started), Some input_exceeds)
  else
    let stdin := match cm_Stdin command with [] => None | content => Some content end in
    let* (result, e, (stdout, stderr)) := ExecStream ctx id command stdin append_output ([], []) in
    ret ({| cr_ExitCode := cr_ExitCode result; cr_Stdout := of_bytes stdout; cr_Stderr := of_bytes stderr;
            cr_Duration := cr_Duration result |}, e).
End Exec.

(** * The deployment of the harnesses *)

(** Closing the client ([Close]); [closeOnce] is the state of the manager. *)
Definition docker_Close {W} (close : M W error) (closed : option error) : M W (error * option error) :=
  match closed with
  | Some e => ret (e, Some e)
  | None => let* e := close in ret (e, Some e)
  end.
(** What a bounded reading of a downloaded archive gives. *)
Definition read_limited (limit : Z) (content : bytes * error) : bytes * error :=
  if limit <=? Z.of_nat (length content.1) then (take (Z.to_nat limit) content.1, None) else content.
Definition docker_deployment {W} `{!Runtime W} `{!DockerClient W} `{!DockerExec W} (timeout : Z) (close : M W error) :
    HarnessDeployment W := {|
  hd_Create := Create timeout;
  hd_Validate := Validate;
  hd_UploadArchive := UploadArchive;
  hd_DownloadArchive ctx id path limit :=
    let* r := DownloadArchive ctx id path in
    ret (match r with inl (content, _) => inl (read_limited limit content) | inr e => inr e end);
  hd_Start := docker_Start;
  hd_Running := Running;
  hd_Logs := Logs;
  hd_Address := Address;
  hd_Exec := docker_Exec;
  hd_Stop := Stop;
  hd_Close := close
|}.
