(* ===== verification/DockerContract.v ===== *)
(** The contract of a deployment ([pkg/deployment], deployment.go) as an interface between
    the harnesses and the backends: what a creation may leave, and what a stop that succeeds
    has removed. The Docker deployment keeps it over a daemon that answers truthfully, and
    the harnesses' runtime leaves nothing behind over any deployment that keeps it. *)

From S2P Require Import Prelude Utf8 Trace Core Redaction Credentials Deployments HarnessRuntime Docker DockerTheorems DockerExec.

(** * The contract *)

(** [runtimes] are the runtimes that exist, by identity, with their names. *)
Class RuntimeContract {W} (d : HarnessDeployment W) (runtimes : W -> gmap string string) : Prop := {
  contract_identity w id : is_Some (runtimes w !! id) -> id <> ""%string;
  contract_Create ctx request w : let '((id, e), w') := hd_Create d ctx request w in
    runtimes w ⊆ runtimes w' /\
    forall new, is_Some (runtimes w' !! new) -> runtimes w !! new = None ->
      new = id \/ id = ""%string /\ unresolved e = true;
  contract_UploadArchive ctx id path archive w : runtimes (hd_UploadArchive d ctx id path archive w).2 = runtimes w;
  contract_Validate ctx id request secrets w : runtimes (hd_Validate d ctx id request secrets w).2 = runtimes w;
  contract_Start ctx id w : runtimes (hd_Start d ctx id w).2 = runtimes w;
  contract_Stop ctx id w : let '(e, w') := hd_Stop d ctx id w in
    runtimes w' ⊆ runtimes w /\
    (e = None -> id <> ""%string -> runtimes w' !! id = None) /\
    forall other name, runtimes w !! other = Some name -> other <> id -> name <> id -> runtimes w' !! other = Some name
}.

(** * A client of the contract: the harnesses' runtime *)

Section Client.
Context {W S : Type} (d : HarnessDeployment W) (runtimes : W -> gmap string string) {Contract : RuntimeContract d runtimes}.
Implicit Types (h : Harness S) (w : W).

Lemma occurrence_update p q f h : occurrence_at q (update_occurrence p f h) =
  if decide (p = q) then f <$> occurrence_at q h else occurrence_at q h.
Proof.
  unfold occurrence_at, update_occurrence. simpl. case_decide as Hpq.
  - subst. rewrite lookup_alter_eq. by destruct (hn_sessions h !! q).
  - by rewrite lookup_alter_ne.
Qed.

(** The start of a runtime adds none but the one whose identity the occurrence keeps. *)
Lemma runtime_Start_leaves label ctx p request archive secrets h w : is_Some (occurrence_at p h) ->
  let '((e, h'), w') := runtime_Start d label ctx p request archive secrets h w in
  exists id, (exists o, occurrence_at p h' = Some o /\ oc_ID o = id) /\ runtimes w ⊆ runtimes w' /\
    forall new, is_Some (runtimes w' !! new) -> runtimes w !! new = None ->
      new = id \/ id = ""%string /\ unresolved e = true.
Proof.
  intros [o Ho]. unfold runtime_Start, bind. pose proof (contract_Create ctx request w) as Hc.
  destruct (hd_Create d ctx request w) as [[id e] w1]. destruct Hc as [Hsub Hnew].
  set (h1 := update_occurrence p _ h).
  assert (exists o', occurrence_at p h1 = Some o' /\ oc_ID o' = id) as Hid.
  { unfold h1. rewrite occurrence_update, decide_True, Ho by done. by eexists. }
  destruct e as [e|].
  { exists id. split_and!; [done|done|]. intros new H1 H2. destruct (Hnew new H1 H2) as [|[? Hu]]; [by left|right].
    split; [done|]. unfold unresolved in *. simpl in *. exact Hu. }
  assert (forall w2 e', runtimes w2 = runtimes w1 -> exists id0, (exists o', occurrence_at p h1 = Some o' /\ oc_ID o' = id0) /\
    runtimes w ⊆ runtimes w2 /\ forall new, is_Some (runtimes w2 !! new) -> runtimes w !! new = None ->
      new = id0 \/ id0 = ""%string /\ unresolved e' = true) as Hkeep.
  { intros w2 e' ->. exists id. split_and!; [done|done|]. intros new H1 H2. destruct (Hnew new H1 H2) as [|[? Hu]]; [by left|done]. }
  destruct (String.eqb (TrimSpace id) ""); [by apply Hkeep|].
  pose proof (contract_UploadArchive ctx id "/" archive w1) as Hu. destruct (hd_UploadArchive _ _ _ _ _ _) as [[e|] w2]; [by apply Hkeep|].
  pose proof (contract_Validate ctx id request secrets w2) as Hv. destruct (hd_Validate _ _ _ _ _ _) as [[e|] w3]; cbn [snd] in Hu, Hv;
    [apply Hkeep; congruence|].
  pose proof (contract_Start ctx id w3) as Hs. destruct (hd_Start _ _ _ _) as [e w4]. cbn [snd] in Hs. apply Hkeep. congruence.
Qed.

(** A removal that succeeds has removed the occurrence's runtime, and no other. *)
Lemma Remove_removes ctx p h w o : occurrence_at p h = Some o ->
  let '((e, h'), w') := Remove d ctx p h w in
  runtimes w' ⊆ runtimes w /\
  (e = None -> (oc_ID o <> ""%string -> runtimes w' !! oc_ID o = None) /\ exists o', occurrence_at p h' = Some o' /\ oc_ID o' = ""%string).
Proof.
  intros Ho. unfold Remove, StopOwned. rewrite Ho. unfold bind. destruct (String.eqb_spec (oc_ID o) "") as [Hid|Hid].
  - unfold ret. destruct (Clear _ _) as [credentials heap]. split; [done|]. intros _. split; [done|].
    change (occurrence_at p (set_hn_heap heap ?x)) with (occurrence_at p x).
    change (exists o', occurrence_at p (update_occurrence p (fun o => set_oc_runtime (oc_ID o) (oc_DeploymentRequest o) credentials o)
              (update_occurrence p (fun o0 => set_oc_runtime (oc_ID o) (oc_DeploymentRequest o0) (oc_Credentials o0) o0) h)) = Some o' /\ oc_ID o' = ""%string).
    rewrite !occurrence_update, !decide_True, Ho by done. eexists. split; [done|]. done.
  - pose proof (contract_Stop ctx (oc_ID o) w) as Hs. destruct (hd_Stop d ctx (oc_ID o) w) as [e w1]. destruct Hs as (Hsub & Hgone & _).
    unfold ret. destruct e as [e|]; [by split|]. destruct (Clear _ _) as [credentials heap]. split; [done|]. intros _. split; [by auto|].
    change (exists o', occurrence_at p (update_occurrence p (fun o => set_oc_runtime (oc_ID o) (oc_DeploymentRequest o) credentials o)
              (update_occurrence p (fun o0 => set_oc_runtime "" (oc_DeploymentRequest o0) (oc_Credentials o0) o0) h)) = Some o' /\ oc_ID o' = ""%string).
    rewrite !occurrence_update, !decide_True, Ho by done. eexists. split; [done|]. done.
Qed.

(** Starting a runtime and removing it. *)
Definition start_and_remove (label : string) (ctx : Ctx) (p : nat) (request : Request) (archive : bytes) (secrets : list bytes)
    (h : Harness S) : M W (error * error) :=
  let* (started, h) := runtime_Start d label ctx p request archive secrets h in
  let* (removed, _) := Remove d ctx p h in
  ret (started, removed).
Lemma start_and_remove_leaves_nothing label ctx p request archive secrets h w : is_Some (occurrence_at p h) ->
  let '((started, removed), w') := start_and_remove label ctx p request archive secrets h w in
  removed = None -> unresolved started = false ->
  forall id, runtimes w !! id = None -> runtimes w' !! id = None.
Proof.
  intros Hp. unfold start_and_remove, bind. pose proof (runtime_Start_leaves label ctx p request archive secrets h w Hp) as Hs.
  destruct (runtime_Start _ _ _ _ _ _ _ _ _) as [[started h1] w1]. destruct Hs as (id & (o & Ho & <-) & Hsub & Hnew).
  pose proof (Remove_removes ctx p h1 w1 o Ho) as Hr. destruct (Remove _ _ _ _ _) as [[removed h2] w2]. simpl.
  destruct Hr as [Hsub' Hr]. intros -> Hres new Hw. destruct (Hr eq_refl) as [Hgone _].
  apply eq_None_not_Some. intros [name Hn]. assert (runtimes w1 !! new = Some name) as Hn1 by (by eapply lookup_weaken).
  destruct (Hnew new (ex_intro _ _ Hn1) Hw) as [->|[_ Hu]]; [|congruence].
  assert (oc_ID o <> ""%string) as Hne by (apply (contract_identity w1); by eexists). by rewrite Hgone in Hn.
Qed.
End Client.

(** * Docker keeps the contract *)

(** What the daemon does, as its API documents it and while nobody else calls it: a creation
    adds at most the container it answers with, under the requested name; names are unique;
    an inspection changes nothing and tells the truth; a removal removes at most what its
    reference means. A stop or a kill leaves the container there. *)
Class TruthfulDaemon {W} `{!DockerClient W} (containers : W -> gmap string string) : Prop := {
  daemon_identity w id : is_Some (containers w !! id) -> id <> ""%string;
  daemon_names w a b name : containers w !! a = Some name -> containers w !! b = Some name -> a = b;
  daemon_Create ctx options w : let '((id, e), w') := ContainerCreate ctx options w in
    containers w' = containers w \/
    exists new name, containers w !! new = None /\ containers w' = <[new := name]> (containers w) /\
      (co_Name options <> ""%string -> name = co_Name options) /\ (TrimSpace id = ""%string \/ id = new);
  daemon_Inspect ctx reference w : let '(answer, w') := ContainerInspect ctx reference w in
    containers w' = containers w /\
    match answer with
    | inl info => exists name, containers w !! in_ID info = Some name /\ in_Name info = ("/" +:+ name)%string
    | inr e => IsNotFound e = true -> containers w !! reference = None /\ forall id, containers w !! id <> Some reference
    end;
  daemon_Start ctx id w : containers (ContainerStart ctx id w).2 = containers w;
  daemon_Stop ctx id timeout w : containers (ContainerStop ctx id timeout w).2 = containers w;
  daemon_Kill ctx id signal w : containers (ContainerKill ctx id signal w).2 = containers w;
  daemon_Copy ctx id path content own w : containers (CopyToContainer ctx id path content own w).2 = containers w;
  daemon_Remove ctx reference force volumes w : let '(e, w') := ContainerRemove ctx reference force volumes w in
    containers w' = containers w \/
    exists id name, containers w !! id = Some name /\ (id = reference \/ name = reference) /\
      containers w' = delete id (containers w)
}.

Section Docker.
Context {W : Type} `{!Runtime W} `{!DockerClient W} `{!DockerExec W} (containers : W -> gmap string string).
Context {Daemon : TruthfulDaemon containers}.
Implicit Types (w : W).

(** A computation that changes no container. *)
Definition keeps_containers {A} (m : M W A) : Prop := forall w, containers (m w).2 = containers w.
Lemma keeps_containers_ret {A} (a : A) : keeps_containers (ret a).
Proof. done. Qed.
Lemma keeps_bind {A B} (m : M W A) (f : A -> M W B) :
  keeps_containers m -> (forall a, keeps_containers (f a)) -> keeps_containers (bind m f).
Proof. intros Hm Hf w. unfold bind. specialize (Hm w). destruct (m w) as [a w']. simpl in Hm. by rewrite (Hf a w'). Qed.
Lemma keeps_inspect ctx reference : keeps_containers (ContainerInspect ctx reference).
Proof. intros w. pose proof (daemon_Inspect ctx reference w) as H. destruct (ContainerInspect _ _ _). apply H. Qed.
Lemma keeps_stop_running ctx id : keeps_containers (stop_running ctx id).
Proof.
  unfold stop_running. apply keeps_bind; [intros w; apply daemon_Stop|]. intros e.
  apply keeps_bind; [apply keeps_inspect|]. intros answer. cbv zeta. destruct (_ && _); [|apply keeps_containers_ret].
  apply keeps_bind; [intros w; apply daemon_Kill|]. intros e'. apply keeps_containers_ret.
Qed.
Lemma keeps_Validate ctx id request secrets : keeps_containers (Validate ctx id request secrets).
Proof.
  unfold Validate. destruct (validateRuntimeRequest request); [apply keeps_containers_ret|]. apply keeps_bind; [apply keeps_inspect|].
  intros [info|e]; [|apply keeps_containers_ret]. destruct (in_Config info), (in_HostConfig info); try apply keeps_containers_ret.
  destruct (negb _); apply keeps_containers_ret.
Qed.

(** The outcome is unconfirmed, and says so. *)
Ltac left_unconfirmed := split; [done|right; split; [done|unfold unresolved; simpl; by rewrite !orb_true_r]].
(** A lost answer is recovered, or the absence of the container is confirmed. *)
Lemma recover_finds timeout ctx request e new w :
  is_Some (containers w !! new) -> (rt_Name request <> ""%string -> containers w !! new = Some (rt_Name request)) ->
  let '((id, e'), w') := recover timeout ctx request e w in
  containers w' = containers w /\ (id = new \/ id = ""%string /\ unresolved e' = true).
Proof.
  intros Hsome Hname. unfold recover. destruct (String.eqb_spec (rt_Name request) "") as [Hn|Hn].
  { left_unconfirmed. }
  specialize (Hname Hn). unfold bind. pose proof (daemon_Inspect (WithTimeout (WithoutCancel ctx) (cleanupTimeout timeout)) (rt_Name request) w) as Hi.
  destruct (ContainerInspect _ _ w) as [[info|lookup] w']; destruct Hi as [Hw Hi].
  - destruct (in_Config info) as [config|]; [|left_unconfirmed].
    destruct (_ || bool_decide _) eqn:Hbad; [left_unconfirmed|].
    destruct (labels_match _ _); simpl; [|left_unconfirmed].
    split; [done|]. left. destruct Hi as (name & Hc & Hname').
    rewrite !orb_false_iff, negb_false_iff, String.eqb_eq in Hbad. destruct Hbad as [[_ Hb] _]. rewrite Hname' in Hb.
    apply CutPrefix_Some in Hb. rewrite CutPrefix_app in Hb. injection Hb as ->.
    by eapply daemon_names.
  - destruct (IsNotFound lookup) eqn:Hnf; [|left_unconfirmed].
    destruct (Hi eq_refl) as [_ Hnone]. by destruct (Hnone new).
Qed.
Lemma recover_keeps timeout ctx request e : keeps_containers (recover timeout ctx request e).
Proof.
  unfold recover. destruct (String.eqb _ _); [apply keeps_containers_ret|]. apply keeps_bind; [apply keeps_inspect|].
  intros [info|lookup]; [|destruct (IsNotFound lookup); apply keeps_containers_ret].
  destruct (in_Config info); [|apply keeps_containers_ret]. destruct (_ || _); [apply keeps_containers_ret|]. destruct (negb _); apply keeps_containers_ret.
Qed.
Lemma Create_accounts timeout ctx request w :
  let '((id, e), w') := Create timeout ctx request w in
  containers w ⊆ containers w' /\
  forall new, is_Some (containers w' !! new) -> containers w !! new = None -> new = id \/ id = ""%string /\ unresolved e = true.
Proof.
  assert (forall id (e : error), containers w ⊆ containers w /\
    forall new, is_Some (containers w !! new) -> containers w !! new = None -> new = id \/ id = ""%string /\ unresolved e = true) as Hsame
    by (intros id e; split; [done|]; intros new [x Hx] Hn; congruence).
  unfold Create. destruct (validateRuntimeRequest request); [apply Hsame|]. destruct (resources request) as [limits|]; [|apply Hsame].
  destruct (_ || _); [apply Hsame|]. unfold bind. pose proof (daemon_Create ctx (create_options request limits) w) as Hc.
  destruct (ContainerCreate _ _ w) as [[id e] w1].
  assert (forall id' (e' : error) w2, containers w2 = containers w -> containers w ⊆ containers w2 /\
    forall new, is_Some (containers w2 !! new) -> containers w !! new = None -> new = id' \/ id' = ""%string /\ unresolved e' = true) as Hkept
    by (intros id' e' w2 ->; apply Hsame).
  destruct Hc as [Hc|(new & name & Hfresh & Hc & Hname & Hid)].
  - destruct (negb _); [by apply Hkept|]. pose proof (recover_keeps timeout ctx request (no_identity e) w1) as Hr.
    destruct (recover _ _ _ _ _) as [[id' e'] w2]. apply Hkept. by rewrite <- Hc.
  - assert (containers w ⊆ containers w1) as Hsub by (rewrite Hc; by apply insert_subseteq).
    assert (forall other, is_Some (containers w1 !! other) -> containers w !! other = None -> other = new) as Honly.
    { intros other Ho Hn. rewrite Hc in Ho. destruct (decide (other = new)); [done|].
      rewrite lookup_insert_ne, Hn in Ho by done. by destruct Ho. }
    destruct (String.eqb_spec (TrimSpace id) "") as [Hb|Hb]; simpl.
    + pose proof (recover_finds timeout ctx request (no_identity e) new w1) as Hr.
      destruct (recover _ _ _ _ _) as [[id' e'] w2]. destruct Hr as [Hw Hr].
      * rewrite Hc, lookup_insert_eq. by eexists.
      * intros Hn. rewrite Hc, lookup_insert_eq. by rewrite Hname.
      * rewrite Hw. split; [done|]. intros other Ho Hn. rewrite (Honly other Ho Hn).
        destruct Hr as [->|Hr]; [by left|by right].
    + split; [done|]. intros other Ho Hn. left. rewrite (Honly other Ho Hn). by destruct Hid.
Qed.
Lemma Stop_removes ctx id w :
  let '(e, w') := Stop ctx id w in
  containers w' ⊆ containers w /\
  (e = None -> id <> ""%string -> containers w' !! id = None) /\
  forall other name, containers w !! other = Some name -> other <> id -> name <> id -> containers w' !! other = Some name.
Proof.
  unfold Stop. destruct (String.eqb_spec id "") as [->|Hid]; [by split_and!|]. unfold bind.
  pose proof (daemon_Inspect ctx id w) as Hi. destruct (ContainerInspect ctx id w) as [answer w1]. destruct Hi as [Hw1 Hi].
  destruct (answered_not_found answer) eqn:Hgone.
  { destruct answer as [info|e]; [done|]. destruct (Hi Hgone) as [Hnone _]. unfold ret. rewrite Hw1. by split_and!. }
  cbv zeta.
  assert (containers ((if may_run answer then stop_running ctx id else ret []) w1).2 = containers w1) as Hs
    by (destruct (may_run answer); [apply keeps_stop_running|done]).
  destruct ((if may_run answer then stop_running ctx id else ret []) w1) as [errs w2]. simpl in Hs.
  unfold remove_confirmed, bind. pose proof (daemon_Remove ctx id true true w2) as Hr.
  destruct (ContainerRemove ctx id true true w2) as [e w3]. cbv zeta.
  pose proof (daemon_Inspect ctx id w3) as Hi'. destruct (ContainerInspect ctx id w3) as [answer' w4]. destruct Hi' as [Hw4 Hi'].
  unfold ret. rewrite Hw4. rewrite Hs, Hw1 in Hr. split_and!.
  - destruct Hr as [->|(c & name & _ & _ & ->)]; [done|apply delete_subseteq].
  - intros He _. destruct answer' as [info|e']; [done|]. destruct (IsNotFound e') eqn:Hnf; [|done]. by destruct (Hi' eq_refl).
  - intros other name Ho Hne Hname. destruct Hr as [->|(c & name' & Hc & Href & ->)]; [done|].
    rewrite lookup_delete_ne; [done|]. intros ->. rewrite Ho in Hc. injection Hc as ->. by destruct Href.
Qed.

#[export] Instance docker_contract timeout close : RuntimeContract (docker_deployment timeout close) containers.
Proof.
  split; simpl.
  - apply daemon_identity.
  - apply Create_accounts.
  - intros ctx id path archive w. apply daemon_Copy.
  - intros ctx id request secrets w. apply keeps_Validate.
  - intros ctx id w. apply daemon_Start.
  - apply Stop_removes.
Qed.

(** C6. Over a truthful Docker daemon, a harness that starts a runtime and then removes it
    leaves no container that was not there before, whatever fails on the way: if the removal
    succeeds, every container of the start is gone, even when the answer to its creation was
    lost. The one exception is a start whose error says that the allocation is unconfirmed. *)
Theorem docker_leaves_nothing {S} (timeout : Z) (close : M W error) (label : string) (ctx : Ctx) (p : nat) (request : Request)
    (archive : bytes) (secrets : list bytes) (h : Harness S) (w : W) :
  is_Some (occurrence_at p h) ->
  let '((started, removed), w') := start_and_remove (docker_deployment timeout close) label ctx p request archive secrets h w in
  removed = None -> unresolved started = false ->
  forall id, containers w !! id = None -> containers w' !! id = None.
Proof. by apply start_and_remove_leaves_nothing, docker_contract. Qed.
End Docker.

(** * Examples *)

(** A daemon with at most one container, that creates it but loses the answer, and a
    [docker stop] that fails. *)
Module Demo.
Definition world : Type := option CreateOptions.
Definition demo_id : string := "c0ffee".
Definition not_found : err := EWrap "no such container" (ESentinel ErrAPINotFound).
Definition lost : err := ENew "connection reset".
Definition meant (reference : string) (o : CreateOptions) : bool := String.eqb reference demo_id || String.eqb reference (co_Name o).
Definition shown (o : CreateOptions) : InspectResponse :=
  {| in_ID := demo_id; in_Name := "/" +:+ co_Name o; in_Config := Some (co_Config o); in_HostConfig := Some (co_HostConfig o);
     in_State := Some {| st_Running := true; st_Status := "running" |}; in_NetworkSettings := None; in_Mounts := [] |}.
#[global] Instance daemon : DockerClient world := {|
  ContainerCreate _ options := fun w =>
    match w with None => ((""%string, Some lost), Some options) | Some _ => ((""%string, Some (ENew "conflict")), w) end;
  ContainerInspect _ reference := fun w =>
    (match w with Some o => if meant reference o then inl (shown o) else inr not_found | None => inr not_found end, w);
  ContainerStart _ _ := ret None;
  ContainerStop _ _ _ := ret (Some (ENew "timeout"));
  ContainerKill _ _ _ := ret None;
  ContainerRemove _ reference _ _ := fun w =>
    match w with Some o => if meant reference o then (None, None) else (Some not_found, w) | None => (Some not_found, w) end;
  ContainerLogs _ _ := ret (inr not_found);
  CopyToContainer _ _ _ _ _ := ret None;
  CopyFromContainer _ _ _ := ret (inr not_found)
|}.
#[global] Instance executions : DockerExec world := {|
  ExecCreate _ _ _ := ret (inr not_found); ExecAttach _ _ := ret None; ExecOutput _ _ _ := ret ([], None, 0);
  ExecClose _ := ret tt; ExecInspect _ _ := ret (inl 0)
|}.
#[global] Instance clock : Runtime world := {| time_Now := ret 0; ctx_Err _ := ret None |}.
Definition demo_containers (w : world) : gmap string string :=
  match w with Some o => {[demo_id := co_Name o]} | None => ∅ end.
#[global] Instance demo_truthful : TruthfulDaemon demo_containers.
Proof.
  split.
  - intros [o|] id [x Hx]; simpl in Hx; [|by rewrite lookup_empty in Hx]. by apply lookup_singleton_Some in Hx as [<- _].
  - intros [o|] a b name; simpl; [|by rewrite lookup_empty]. by intros [<- _]%lookup_singleton_Some [<- _]%lookup_singleton_Some.
  - intros ctx options [o|]; simpl; [by left|]. right. exists demo_id, (co_Name options). split_and!; try done. by left.
  - intros ctx reference [o|]; simpl; split; try done.
    + destruct (meant reference o) eqn:Hm; [exists (co_Name o); by rewrite lookup_singleton_eq|]. intros _.
      unfold meant in Hm. apply orb_false_iff in Hm as [H1%String.eqb_neq H2%String.eqb_neq].
      split; [by apply lookup_singleton_ne|]. intros id [_ H]%lookup_singleton_Some. congruence.
  - done.
  - done.
  - done.
  - done.
  - intros ctx reference force volumes [o|]; simpl; [|by left]. destruct (meant reference o) eqn:Hm; [|by left].
    right. exists demo_id, (co_Name o). split_and!; [by rewrite lookup_singleton_eq| |by rewrite delete_singleton_eq].
    unfold meant in Hm. apply orb_true_iff in Hm as [H%String.eqb_eq|H%String.eqb_eq]; auto.
Qed.
Definition demo_request : Request :=
  {| rt_InternalPort := 0; rt_Mounts := []; rt_Workdir := ""; rt_StorageMB := 0; rt_GPUs := 0; rt_Init := false;
     rt_NoNewPrivileges := true; rt_NetworkAliases := []; rt_AllowImageVolumes := false; rt_Name := "aries-1";
     rt_Image := "image"; rt_Env := []; rt_Entrypoint := None; rt_Args := []; rt_Labels := {["aries.run" := "r1"]}%string;
     rt_Placement := {| rp_AttachmentID := "net" |}; rt_CPU := None; rt_MemoryMB := None; rt_ImageVolumes := []; rt_ServicePort := 0 |}.
Definition demo_occurrence : Occurrence :=
  {| oc_RunID := "r1"; oc_TaskID := "t1"; oc_AttemptID := ""; oc_Name := "aries-1"; oc_ID := ""; oc_DeploymentRequest := None;
     oc_ArtifactDir := ""; oc_Endpoint := no_ToolEndpoint;
     oc_Model := {| mc_Provider := ""; mc_BaseURL := ""; mc_Model := ""; mc_APIKeyEnv := ""; mc_ReasoningEffort := "";
                    mc_ContextLength := 0; mc_MaxTokens := 0; mc_Temperature := None |};
     oc_AgentTimeout := 0; oc_Credentials := NewCredentials "x"; oc_Artifacts := {| at_Directory := ""; at_paths := [] |} |}.
Definition demo_harness (heap : Heap) : Harness unit :=
  {| hn_heap := heap; hn_sessions := {[0%nat := {| ss_occurrence := demo_occurrence; ss_native := tt |}]}; hn_active := Some 0%nat;
     hn_owned := Some 0%nat; hn_ready := false; hn_admitted := false; hn_attempts := []; hn_attempt := None;
     hn_running := false; hn_closed := None |}.
(** The answer to the creation is lost, and the container is removed all the same. *)
Example lost_answer heap : (start_and_remove (docker_deployment (W := world) 0 (ret None)) "x" Background 0 demo_request [] [] (demo_harness heap) None)
  = (Some (EWrap "create x runtime" lost), None, None).
Proof. reflexivity. Qed.
End Demo.

Lemma docker_leaves_nothing_witness :
  let '((started, removed), w') :=
    start_and_remove (docker_deployment (W := Demo.world) 0 (ret None)) "x" Background 0 Demo.demo_request [] [] (Demo.demo_harness ∅) None in
  removed = None -> unresolved started = false ->
  forall id, Demo.demo_containers None !! id = None -> Demo.demo_containers w' !! id = None.
Proof. apply (docker_leaves_nothing (W := Demo.world) Demo.demo_containers 0 (ret None)). by eexists. Defined.
