(* ===== verification/HarnessManager.v ===== *)
(** The life of an agent harness: how a native manager ([pkg/harness/hermes] and
    [pkg/harness/openclaw], harness.go) composes the shared runtime. The managers have
    their own way to prepare a session, to bring it up, to run the task and to let go of
    their client; everything else of [Start], [Run] and [Stop] is the same, and is here
    once, over an interface the two managers implement. *)

From S2P Require Import Prelude Trace Core Redaction Credentials Deployments HarnessRuntime.

(** * The interface of a native manager *)

(** [prepare] is [Start] up to [Own]: it gives the session or an error. [bring_up] is the
    rest of [Start] up to [Ready], on the session [p]; [give_up] is what its [fail] does
    before the rollback. [run_body] is [Run] after its critical section, on the snapshot
    [p]. [let_go] precedes the removal of a stopped session and [hang_up] follows it. *)
Class Native (W S : Type) := {
  nt_label : string;
  nt_options : RuntimeOptions;
  nt_RemoveAll : string -> M W unit;
  nt_prepare : HarnessRequest -> Heap -> M W ((Session S + err) * Heap);
  nt_bring_up : HarnessDeployment W -> Ctx -> HarnessRequest -> nat -> Harness S -> M W (error * Harness S);
  nt_give_up : S -> M W S;
  nt_run_body : HarnessDeployment W -> Ctx -> string -> nat -> Harness S -> M W (HarnessResult * error * Harness S);
  nt_let_go : Ctx -> S -> M W S;
  nt_hang_up : S -> M W S
}.

Section Manager.
Context {W S : Type} `{!Native W S}.
Variable deployment : HarnessDeployment W.

(** An operation on the native state of a session. *)
Definition with_native (f : S -> M W S) (p : nat) (h : Harness S) : M W (Harness S) :=
  match hn_sessions h !! p with
  | None => ret h
  | Some s => let* x := f (ss_native s) in ret (set_hn_sessions (<[p := set_ss_native x s]> (hn_sessions h)) h)
  end.

(** [Manager.Start], in its one critical section. *)
Definition add_session (s : Session S) (h : Harness S) : nat * Harness S :=
  let p := fresh (dom (hn_sessions h)) in (p, set_hn_sessions (<[p := s]> (hn_sessions h)) h).
Definition start_failed (ctx : Ctx) (p : nat) (primary : err) (h : Harness S) : M W (error * Harness S) :=
  let* h := with_native nt_give_up p h in
  let* (e, h) := Rollback deployment nt_label nt_options nt_RemoveAll ctx p primary h in
  ret (Some e, if InUse h then set_hn_active (Some p) h else h).
Definition clear_session (p : nat) (h : Harness S) : Harness S :=
  match occurrence_at p h with
  | None => h
  | Some o =>
      let (credentials, heap) := Clear (oc_Credentials o) (hn_heap h) in
      set_hn_heap heap (update_occurrence p (set_oc_runtime (oc_ID o) (oc_DeploymentRequest o) credentials) h)
  end.
Definition manager_Start (ctx : Ctx) (request : HarnessRequest) (h : Harness S) : M W (error * Harness S) :=
  if InUse h then ret (Some (ENew (nt_label +:+ " harness is already active")), h)
  else
    let* (prepared, heap) := nt_prepare request (hn_heap h) in
    let h := set_hn_heap heap h in
    match prepared with
    | inr e => ret (Some e, h)
    | inl s =>
        let (p, h) := add_session s h in
        match Own nt_label p h with
        | (Some e, h) => ret (Some e, clear_session p h)
        | (None, h) =>
            let* (e, h) := nt_bring_up deployment ctx request p h in
            match e with
            | Some e => start_failed ctx p e h
            | None => ret (None, Ready (set_hn_active (Some p) h))
            end
        end
    end.

(** [Manager.Run]: the admission with the snapshot of the session, and the rest, which
    clears the snapshot's credentials in the end. *)
Definition run_begin (instruction : string) (h : Harness S) : error * option nat * Harness S :=
  match AdmitRun nt_label instruction h with
  | (Some e, h) => (Some e, None, h)
  | (None, h) =>
      match hn_active h ≫= (fun p => hn_sessions h !! p) with
      | None => (None, None, h)
      | Some s =>
          let (o, heap) := occurrence_Snapshot (ss_occurrence s) (hn_heap h) in
          let (p, h) := add_session (set_ss_occurrence o s) (set_hn_heap heap h) in
          (None, Some p, h)
      end
  end.
Definition run_end (ctx : Ctx) (instruction : string) (p : nat) (h : Harness S) :
    M W (HarnessResult * error * Harness S) :=
  let* (result, e, h) := nt_run_body deployment ctx instruction p h in ret (result, e, clear_session p h).

(** [Manager.Stop]: up to the end of its first critical section, and, for the caller
    that owns the cleanup, from there with the session it found. *)
Definition stop_begin (h : Harness S) : option nat * bool * option nat * Harness S :=
  let '(attempt, owns, h) := BeginStop h in (attempt, owns, hn_active h, h).
Definition stopSession (ctx : Ctx) (p : nat) (h : Harness S) : M W (error * Harness S) :=
  let* h := with_native (nt_let_go ctx) p h in
  let* (e, h) := Remove deployment ctx p h in
  match e with
  | Some _ => ret (e, h)
  | None => let* h := with_native nt_hang_up p h in ret (None, h)
  end.
Definition stop_end (ctx : Ctx) (active : option nat) (h : Harness S) : M W (error * Harness S) :=
  let* (e, h) := match active with
                 | None => ret (None, h)
                 | Some p => stopSession (WithTimeout (WithoutCancel ctx) (ro_CleanupTimeout nt_options)) p h
                 end in
  let gone := match active ≫= (fun p => occurrence_at p h) with Some o => String.eqb (oc_ID o) "" | None => true end in
  ret (e, FinishStop e (if gone then set_hn_active None h else h)).
End Manager.

(** * Histories *)

(** The calls on a manager as they take effect: the rest of [Run] and of [Stop] can run
    while others are made. *)
Inductive harness_call :=
  | CallStart (ctx : Ctx) (request : HarnessRequest)
  | CallRun (instruction : string)
  | CallRunEnd (ctx : Ctx) (p : nat)
  | CallStop
  | CallStopEnd (ctx : Ctx).

(** What an observer of the deployment and of the callers sees. *)
Inductive harness_event :=
  | HCreate (id : string) (e : error)
  | HRemove (id : string) (e : error)
  | HStarted (e : error)
  | HAdmitted
  | HStopping
  | HStopped (e : error).

(** The manager, the runs under way and the session of the stop under way. *)
Record Life (S : Type) := {
  lf_harness : Harness S;
  lf_runs : gmap nat string;
  lf_stopping : option (option nat)
}.
Arguments lf_harness {S}.
Arguments lf_runs {S}.
Arguments lf_stopping {S}.

Section Histories.
Context {W S : Type} `{!Native W S}.
Variable deployment : HarnessDeployment W.
Variable mark : harness_event -> M W unit.

Definition on_harness (h : Harness S) (l : Life S) : Life S :=
  {| lf_harness := h; lf_runs := lf_runs l; lf_stopping := lf_stopping l |}.
Definition harness_step (call : harness_call) (l : Life S) : M W (Life S) :=
  let h := lf_harness l in
  match call with
  | CallStart ctx request =>
      let* (e, h) := manager_Start deployment ctx request h in
      let* _ := mark (HStarted e) in ret (on_harness h l)
  | CallRun instruction =>
      match run_begin instruction h with
      | (None, Some p, h) =>
          let* _ := mark HAdmitted in
          ret {| lf_harness := h; lf_runs := <[p := instruction]> (lf_runs l); lf_stopping := lf_stopping l |}
      | (_, _, h) => ret (on_harness h l)
      end
  | CallRunEnd ctx p =>
      match lf_runs l !! p with
      | None => ret l
      | Some instruction =>
          let* (_, _, h) := run_end deployment ctx instruction p h in
          ret {| lf_harness := h; lf_runs := delete p (lf_runs l); lf_stopping := lf_stopping l |}
      end
  | CallStop =>
      match stop_begin h with
      | (_, true, active, h) =>
          let* _ := mark HStopping in
          ret {| lf_harness := h; lf_runs := lf_runs l; lf_stopping := Some active |}
      | (_, false, _, h) => ret (on_harness h l)
      end
  | CallStopEnd ctx =>
      match lf_stopping l with
      | None => ret l
      | Some active =>
          let* (e, h) := stop_end deployment ctx active h in
          let* _ := mark (HStopped e) in
          ret {| lf_harness := h; lf_runs := lf_runs l; lf_stopping := None |}
      end
  end.
Fixpoint harness_life (calls : list harness_call) (l : Life S) : M W (Life S) :=
  match calls with
  | [] => ret l
  | call :: calls => let* l := harness_step call l in harness_life calls l
  end.
End Histories.

(** A manager that [New] has just made. *)
Definition new_Harness {S} (heap : Heap) : Harness S :=
  {| hn_heap := heap; hn_sessions := ∅; hn_active := None; hn_owned := None; hn_ready := false; hn_admitted := false;
     hn_attempts := []; hn_attempt := None; hn_running := false; hn_closed := None |}.
Definition new_Life {S} (heap : Heap) : Life S :=
  {| lf_harness := new_Harness heap; lf_runs := ∅; lf_stopping := None |}.
