(* ===== verification/HarnessLife.v ===== *)
(** Theorems on the life of a harness, for every native manager that keeps to the laws
    of its interface: no runtime is lost, none is started next to another, and a task
    instruction is admitted once. *)

From S2P Require Import Prelude Utf8 Trace Core Redaction Credentials Deployments HarnessRuntime HarnessManager.

(** * Traces *)

(** The deployment with its creations and removals logged. *)
Definition traced_deployment {W} (d : HarnessDeployment W) : HarnessDeployment (W * list harness_event) :=
  {| hd_Create ctx request := logged (fun r => HCreate r.1 r.2) (hd_Create d ctx request);
     hd_Validate ctx id request secrets := silent (hd_Validate d ctx id request secrets);
     hd_UploadArchive ctx id path archive := silent (hd_UploadArchive d ctx id path archive);
     hd_DownloadArchive ctx id path limit := silent (hd_DownloadArchive d ctx id path limit);
     hd_Start ctx id := silent (hd_Start d ctx id);
     hd_Running ctx id := silent (hd_Running d ctx id);
     hd_Logs ctx id limit := silent (hd_Logs d ctx id limit);
     hd_Address ctx id port := silent (hd_Address d ctx id port);
     hd_Exec ctx id command := silent (hd_Exec d ctx id command);
     hd_Stop ctx id := logged (HRemove id) (hd_Stop d ctx id);
     hd_Close := silent (hd_Close d) |}.
Definition mark_event {W} (ev : harness_event) : M (W * list harness_event) unit := logged (fun _ => ev) (ret tt).

(** The runtimes a trace leaves alive, and whether it leaves an instruction to be
    admitted. *)
Definition live_after (s : gset string) (ev : harness_event) : gset string :=
  match ev with
  | HCreate id _ => if String.eqb id "" then s else {[id]} ∪ s
  | HRemove id None => s ∖ {[id]}
  | _ => s
  end.
Definition live (t : list harness_event) : gset string := fold_left live_after t ∅.
Definition may_admit_after (b : bool) (ev : harness_event) : bool :=
  match ev with HStarted None => true | HAdmitted | HStopping => false | _ => b end.
Definition may_admit (t : list harness_event) : bool := fold_left may_admit_after t false.
Lemma live_app t evs : live (t ++ evs) = fold_left live_after evs (live t).
Proof. apply fold_left_app. Qed.
Lemma may_admit_app t evs : may_admit (t ++ evs) = fold_left may_admit_after evs (may_admit t).
Proof. apply fold_left_app. Qed.

(** What an event says of the events before it: a runtime is created, and a stop
    confirmed, when none is alive; an instruction is admitted once after each start and
    never once a stop has begun. *)
Definition ok_event (t : list harness_event) (ev : harness_event) : Prop :=
  match ev with
  | HCreate _ _ | HStopped None => live t = ∅
  | HAdmitted => may_admit t = true
  | _ => True
  end.
Definition ok_events (t evs : list harness_event) : Prop :=
  forall pre ev post, evs = pre ++ ev :: post -> ok_event (t ++ pre) ev.
Lemma ok_nil t : ok_events t [].
Proof. intros [|? ?] ? ? ?; done. Qed.
Lemma ok_cons t ev evs : ok_event t ev -> ok_events (t ++ [ev]) evs -> ok_events t (ev :: evs).
Proof.
  intros He Hes [|x pre] y post H; simplify_eq/=; [by rewrite app_nil_r|].
  specialize (Hes pre y post eq_refl). by rewrite <- app_assoc in Hes.
Qed.
Lemma ok_app t evs evs' : ok_events t evs -> ok_events (t ++ evs) evs' -> ok_events t (evs ++ evs').
Proof.
  revert t. induction evs as [|ev evs IH]; intros t H H'; simpl; [by rewrite app_nil_r in H'|].
  apply ok_cons; [specialize (H [] ev evs eq_refl); by rewrite app_nil_r in H|]. apply IH.
  - intros pre x post ->. specialize (H (ev :: pre) x post eq_refl). by rewrite <- app_assoc.
  - by rewrite <- app_assoc.
Qed.
Lemma ok_one t ev : ok_event t ev -> ok_events t [ev].
Proof. intros H. apply ok_cons; [done|apply ok_nil]. Qed.

(** A creation that answers no identity leaves nothing that a later call could name, so
    [live] does not show it; if its answer is lost, a runtime may be there all the same. The
    manager keeps no account of it either; what it does is to fail the start with all that
    the deployment said: the very next event is that failure. *)
Definition carries (e e' : error) : Prop := exists x, e' = Some x /\ forall s, error_Is e s = true -> errors_Is x s = true.
Definition reported (evs : list harness_event) : Prop :=
  forall pre e post, evs = pre ++ HCreate "" e :: post ->
    exists e' post', post = HStarted e' :: post' /\ carries e e'.
Lemma reported_nil : reported [].
Proof. by intros [|? ?]. Qed.
Lemma reported_app evs evs' : reported evs -> reported evs' -> reported (evs ++ evs').
Proof.
  intros H H' pre e post Heq. apply app_eq_inv in Heq as [(k & -> & Hk)|(k & -> & Hk)]; [destruct k as [|x k]; simpl in Hk|].
  - apply (H' [] e post). by rewrite <- Hk.
  - injection Hk as <- ->. destruct (H pre e k eq_refl) as (e' & post' & -> & Hc). by exists e', (post' ++ evs').
  - by apply (H' k e post).
Qed.
Lemma reported_others evs : (forall e, HCreate "" e ∉ evs) -> reported evs.
Proof. intros H pre e post ->. exfalso. apply (H e). set_solver. Qed.
Lemma carries_refl e : carries (Some e) (Some e).
Proof. by exists e. Qed.

(** * The laws of a native manager *)

(** Two states that differ in their buffers and in the sessions [P] at most. *)
Record same_lease {S} (P : nat -> Prop) (h h' : Harness S) : Prop := {
  sl_active : hn_active h' = hn_active h;
  sl_owned : hn_owned h' = hn_owned h;
  sl_ready : hn_ready h' = hn_ready h;
  sl_admitted : hn_admitted h' = hn_admitted h;
  sl_running : hn_running h' = hn_running h;
  sl_attempts : hn_attempts h' = hn_attempts h;
  sl_attempt : hn_attempt h' = hn_attempt h;
  sl_dom : dom (hn_sessions h') = dom (hn_sessions h);
  sl_sessions p : ~ P p -> hn_sessions h' !! p = hn_sessions h !! p
}.
Definition session_ID {S} (p : nat) (h : Harness S) : string := default "" (oc_ID <$> occurrence_at p h).

(** Bringing a session up creates its runtime or does not get so far. *)
Definition brought_up {S} (p : nat) (h : Harness S) (e : error) (h' : Harness S) (evs : list harness_event) : Prop :=
  same_lease (fun q => q = p) h h' /\
  (evs = [] /\ session_ID p h' = session_ID p h \/
   exists id created, evs = [HCreate id created] /\ session_ID p h' = id /\ (id = ""%string -> carries created e)).

Definition quiet {A} : A -> list harness_event -> Prop := fun _ evs => evs = [].
Class NativeLaws {W S} (N : Native (W * list harness_event) S) (d : HarnessDeployment W) : Prop := {
  nl_RemoveAll path : emits (nt_RemoveAll path) quiet;
  nl_prepare request heap :
    emits (nt_prepare request heap) (fun r evs => evs = [] /\
      match r.1 with inl s => oc_ID (ss_occurrence s) = ""%string | inr _ => True end);
  nl_bring_up ctx request p h : is_Some (hn_sessions h !! p) ->
    emits (nt_bring_up (traced_deployment d) ctx request p h) (fun r evs => brought_up p h r.1 r.2 evs);
  nl_give_up x : emits (nt_give_up x) quiet;
  nl_let_go ctx x : emits (nt_let_go ctx x) quiet;
  nl_hang_up x : emits (nt_hang_up x) quiet;
  nl_run_body ctx instruction p h :
    emits (nt_run_body (traced_deployment d) ctx instruction p h) (fun r evs => evs = [] /\ same_lease (fun q => q = p) h r.2)
}.

(** * The shared steps *)

Section Steps.
Context {W S : Type} {N : Native (W * list harness_event) S} (d : HarnessDeployment W) `{!NativeLaws N d}.
Implicit Types h : Harness S.

Lemma same_lease_refl P h : same_lease P h h.
Proof. by split. Qed.
Lemma same_lease_trans P h h' h'' : same_lease P h h' -> same_lease P h' h'' -> same_lease P h h''.
Proof. intros [] []. split; try congruence. intros p Hp. rewrite sl_sessions1 by done. auto. Qed.
Lemma same_lease_heap P heap h : same_lease P h (set_hn_heap heap h).
Proof. by split. Qed.
Lemma same_lease_insert p s h :
  is_Some (hn_sessions h !! p) -> same_lease (fun q => q = p) h (set_hn_sessions (<[p := s]> (hn_sessions h)) h).
Proof.
  intros Hp. split; simpl; try done.
  - apply dom_insert_lookup_L. done.
  - intros q Hq. by apply lookup_insert_ne.
Qed.
Lemma same_lease_update p f h : same_lease (fun q => q = p) h (update_occurrence p f h).
Proof. split; simpl; try done; [apply dom_alter_L|]. intros q Hq. by apply lookup_alter_ne. Qed.
Lemma session_ID_update p f h :
  is_Some (hn_sessions h !! p) -> session_ID p (update_occurrence p f h) =
    default "" (oc_ID ∘ f <$> occurrence_at p h).
Proof. intros [s Hs]. unfold session_ID, occurrence_at. simpl. by rewrite lookup_alter_eq, Hs. Qed.
Lemma owned_ID_session h p : hn_owned h = Some p -> owned_ID h = session_ID p h.
Proof. intros Hp. unfold owned_ID, session_ID. rewrite Hp. by destruct (occurrence_at p h). Qed.
Lemma same_lease_known P h h' p : same_lease P h h' -> is_Some (hn_sessions h !! p) -> is_Some (hn_sessions h' !! p).
Proof. intros [] Hp. apply elem_of_dom. rewrite sl_dom0. by apply elem_of_dom. Qed.

Lemma with_native_emits (f : S -> M (W * list harness_event) S) p h :
  (forall x, emits (f x) quiet) ->
  emits (with_native f p h) (fun h' evs => evs = [] /\ same_lease (fun q => q = p) h h' /\
    hn_heap h' = hn_heap h /\ forall q, occurrence_at q h' = occurrence_at q h).
Proof.
  intros Hf. unfold with_native. destruct (hn_sessions h !! p) as [s|] eqn:Hs.
  - eapply emits_bind; [apply Hf|]. intros x evs ->. apply emits_ret. split_and!; [done| |done|].
    + apply same_lease_insert. by exists s.
    + intros q. unfold occurrence_at. simpl. destruct (decide (q = p)) as [->|Hne].
      * by rewrite lookup_insert_eq, Hs.
      * by rewrite lookup_insert_ne.
  - apply emits_ret. split_and!; [done|apply same_lease_refl|done|done].
Qed.

Definition removed (id : string) (e : error) (evs : list harness_event) : Prop :=
  if String.eqb id "" then evs = [] /\ e = None else evs = [HRemove id e].
Lemma StopOwned_emits ctx id :
  emits (StopOwned (traced_deployment d) ctx id) (fun r evs => removed id r.1 evs /\
    r.2 = match r.1 with None => "" | Some _ => id end%string).
Proof.
  unfold StopOwned, removed. destruct (String.eqb_spec id "") as [->|Hne]; [by apply emits_ret|].
  apply emits_call. intros e. apply emits_ret. by destruct e.
Qed.
Lemma Remove_emits ctx p h :
  is_Some (hn_sessions h !! p) ->
  emits (Remove (traced_deployment d) ctx p h) (fun r evs => removed (session_ID p h) r.1 evs /\
    same_lease (fun q => q = p) h r.2 /\
    session_ID p r.2 = match r.1 with None => "" | Some _ => session_ID p h end%string).
Proof.
  intros Hp. unfold Remove. destruct (occurrence_at p h) as [o|] eqn:Ho.
  2: { destruct Hp as [s Hs]. unfold occurrence_at in Ho. by rewrite Hs in Ho. }
  assert (session_ID p h = oc_ID o) as -> by (unfold session_ID; by rewrite Ho).
  eapply emits_bind; [apply StopOwned_emits|]. intros [e id] evs [Hr Hid']. simpl in Hr, Hid'. subst id.
  set (h1 := update_occurrence p _ h). assert (Hl : same_lease (fun q => q = p) h h1) by apply same_lease_update.
  assert (Hid : session_ID p h1 = match e with None => "" | Some _ => oc_ID o end%string).
  { unfold h1. rewrite session_ID_update, Ho by done. done. }
  destruct e as [e|]; [apply emits_ret; rewrite app_nil_r; by split_and!|].
  destruct (Clear _ _) as [credentials heap]. apply emits_ret. rewrite app_nil_r. split_and!; [done| |].
  - eapply same_lease_trans; [exact Hl|]. eapply same_lease_trans; [apply same_lease_update|apply same_lease_heap].
  - cbn [fst snd]. change (session_ID p (update_occurrence p (fun o' => set_oc_runtime (oc_ID o') (oc_DeploymentRequest o') credentials o') h1) = ""%string).
    rewrite session_ID_update by by eapply same_lease_known.
    unfold session_ID in Hid. by destruct (occurrence_at p h1).
Qed.
(** * The invariant *)

(** Between two calls: the manager and its runtime know of the same session, the only
    runtime alive is that session's, a stop under way is that session's, and an
    instruction that the runtime would admit is one the trace allows. *)
Record rests (l : Life S) (t : list harness_event) : Prop := {
  re_active : hn_active (lf_harness l) = hn_owned (lf_harness l);
  re_live id : id ∈ live t -> id <> ""%string /\ id = owned_ID (lf_harness l);
  re_known p : hn_owned (lf_harness l) = Some p -> is_Some (hn_sessions (lf_harness l) !! p);
  re_stop : lf_stopping l = if hn_running (lf_harness l) then Some (hn_active (lf_harness l)) else None;
  re_running : hn_running (lf_harness l) = true ->
    is_Some (hn_owned (lf_harness l)) /\ hn_ready (lf_harness l) = false /\
    exists a, hn_attempt (lf_harness l) = Some a;
  re_admit : hn_ready (lf_harness l) = true -> hn_admitted (lf_harness l) = false -> may_admit t = true;
  re_runs p : is_Some (lf_runs l !! p) -> hn_owned (lf_harness l) <> Some p /\ is_Some (hn_sessions (lf_harness l) !! p)
}.
Lemma not_live (h : Harness S) t :
  (forall id, id ∈ live t -> id <> ""%string /\ id = owned_ID h) -> owned_ID h = ""%string -> live t = ∅.
Proof. intros Hl Hn. apply set_eq. intros id. split; [|set_solver]. intros [Hne ->]%Hl. by rewrite Hn in Hne. Qed.
Lemma removed_live id e t evs :
  (forall x, x ∈ live t -> x <> ""%string /\ x = id) -> removed id e evs ->
  ok_events t evs /\ may_admit (t ++ evs) = may_admit t /\
  (e = None -> live (t ++ evs) = ∅) /\ (forall x, x ∈ live (t ++ evs) -> x <> ""%string /\ x = id).
Proof.
  intros Hl. unfold removed. destruct (String.eqb_spec id "") as [->|Hne].
  - intros [-> ->]. rewrite app_nil_r. assert (live t = ∅) as Hempty.
    { apply set_eq. intros x. split; [|set_solver]. by intros [? ->]%Hl. }
    split_and!; [apply ok_nil|done|done|done].
  - intros ->. rewrite live_app, may_admit_app. simpl. split_and!; [by apply ok_one|done| |].
    + intros ->. apply set_eq. intros x. rewrite elem_of_difference, elem_of_singleton. split; [|set_solver].
      intros [Hx Hn]. by apply Hl in Hx as [_ ->].
    + intros x Hx. apply Hl. destruct e; [done|]. set_solver.
Qed.

Lemma removed_no_create id e evs : removed id e evs -> (forall created, HCreate "" created ∉ evs) /\ (id = ""%string -> evs = []).
Proof.
  unfold removed. destruct (String.eqb_spec id "") as [->|Hne]; [intros [-> _]; split; [set_solver|done]|]. intros ->.
  split; [|done]. intros created Hin. by apply list_elem_of_singleton in Hin.
Qed.
Lemma Rollback_emits ctx p primary h t :
  is_Some (hn_sessions h !! p) -> hn_owned h = Some p -> hn_running h = false -> hn_ready h = false ->
  (forall id, id ∈ live t -> id <> ""%string /\ id = session_ID p h) ->
  emits (Rollback (traced_deployment d) nt_label nt_options nt_RemoveAll ctx p primary h) (fun r evs =>
    ok_events t evs /\ may_admit (t ++ evs) = may_admit t /\
    (forall id, id ∈ live (t ++ evs) -> id <> ""%string /\ id = owned_ID r.2) /\
    (hn_owned r.2 = Some p \/ hn_owned r.2 = None) /\
    hn_active r.2 = hn_active h /\ hn_running r.2 = false /\ hn_ready r.2 = false /\
    dom (hn_sessions r.2) = dom (hn_sessions h) /\ carries (Some primary) (Some r.1) /\
    (forall created, HCreate "" created ∉ evs) /\ (session_ID p h = ""%string -> evs = [])).
Proof.
  intros Hp Hown Hrun Hready Hl. unfold Rollback. eapply emits_bind; [by apply Remove_emits|].
  intros [e h1] evs (Hr & Hs & Hid). simpl in Hr, Hs, Hid.
  destruct (removed_live _ _ _ _ Hl Hr) as (Hok & Hmay & Hnone & Hrest).
  destruct (removed_no_create _ _ _ Hr) as [Hno Hnil].
  destruct e as [e|].
  - apply emits_ret. rewrite app_nil_r. cbn [fst snd].
    assert (hn_owned (Reset (Some e) h1) = Some p) as Hown1 by (simpl; by rewrite (sl_owned _ _ _ Hs)).
    split_and!; simpl; rewrite ?(sl_active _ _ _ Hs), ?(sl_running _ _ _ Hs), ?(sl_ready _ _ _ Hs); try done.
    + intros id Hx. rewrite (owned_ID_session _ p) by done. change (id <> "" /\ id = session_ID p h1)%string.
      rewrite Hid. by apply Hrest.
    + left. by rewrite (sl_owned _ _ _ Hs).
    + by rewrite (sl_dom _ _ _ Hs).
    + eexists. split; [done|]. intros x Hx. cbn in *. by rewrite Hx.
  - eapply emits_bind; [apply nl_RemoveAll|]. intros [] evs' ->. apply emits_ret. rewrite !app_nil_r. cbn [fst snd].
    specialize (Hnone eq_refl).
    split_and!; simpl; rewrite ?(sl_active _ _ _ Hs), ?(sl_running _ _ _ Hs); try done; [by rewrite Hnone; set_solver|by right| |apply carries_refl].
    by rewrite (sl_dom _ _ _ Hs).
Qed.

Lemma start_failed_emits ctx p primary h t :
  is_Some (hn_sessions h !! p) -> hn_owned h = Some p -> hn_active h = None -> hn_running h = false -> hn_ready h = false ->
  (forall id, id ∈ live t -> id <> ""%string /\ id = session_ID p h) ->
  emits (start_failed (traced_deployment d) ctx p primary h) (fun r evs =>
    carries (Some primary) r.1 /\ (forall created, HCreate "" created ∉ evs) /\ (session_ID p h = ""%string -> evs = []) /\
    ok_events t evs /\ may_admit (t ++ evs) = may_admit t /\
    (forall id, id ∈ live (t ++ evs) -> id <> ""%string /\ id = owned_ID r.2) /\
    (hn_owned r.2 = Some p \/ hn_owned r.2 = None) /\ hn_active r.2 = hn_owned r.2 /\
    hn_running r.2 = false /\ hn_ready r.2 = false /\ dom (hn_sessions r.2) = dom (hn_sessions h)).
Proof.
  intros Hp Hown Hact Hrun Hready Hl. unfold start_failed.
  eapply emits_bind; [apply with_native_emits, nl_give_up|]. intros h1 evs (-> & Hs & _ & Hocc).
  assert (session_ID p h1 = session_ID p h) as Hid by (unfold session_ID; by rewrite Hocc).
  eapply emits_bind.
  { apply (Rollback_emits ctx p primary h1 t); rewrite ?(sl_owned _ _ _ Hs), ?(sl_running _ _ _ Hs), ?(sl_ready _ _ _ Hs), ?Hid; try done.
    by eapply same_lease_known. }
  intros [e h2] evs (Hok & Hmay & Hlive & Hor & Hact2 & Hrun2 & Hready2 & Hdom & Hcarry & Hno & Hnil). rewrite Hid in Hnil. simpl in *.
  apply emits_ret. rewrite app_nil_r. cbn [fst snd]. rewrite (sl_active _ _ _ Hs), Hact in Hact2.
  assert (Hdom2 : dom (hn_sessions h2) = dom (hn_sessions h)) by (by rewrite Hdom, (sl_dom _ _ _ Hs)).
  unfold InUse. rewrite Hrun2, orb_false_r.
  destruct Hor as [Hor|Hor]; rewrite Hor; [rewrite bool_decide_true by eauto|rewrite bool_decide_false by (intros []; done)];
    (split_and!; [done..| | | | | |]); simpl; rewrite ?Hor, ?Hact2; auto.
Qed.

(** * The steps keep the invariant *)

Definition keeps (l : Life S) (t : list harness_event) (m : M (W * list harness_event) (Life S)) : Prop :=
  emits m (fun l' evs => (ok_events t evs /\ reported evs) /\ rests l' (t ++ evs)).
Lemma life_keeps_ret l l' t : rests l' t -> keeps l t (ret l').
Proof. intros H. apply emits_ret. rewrite app_nil_r. split; [split; [apply ok_nil|apply reported_nil]|done]. Qed.
Definition is_mark (ev : harness_event) : bool := match ev with HCreate _ _ => false | _ => true end.
Lemma reported_mark ev : is_mark ev = true -> reported [ev].
Proof. intros H. apply reported_others. intros e Hin. apply list_elem_of_singleton in Hin as <-. done. Qed.
Lemma keeps_mark l l' t ev :
  ok_event t ev -> is_mark ev = true -> rests l' (t ++ [ev]) -> keeps l t (let* _ := mark_event ev in ret l').
Proof. intros He Hm H. apply emits_call. intros []. apply emits_ret. split; [split; [by apply ok_one|by apply reported_mark]|done]. Qed.

Lemma not_in_use l t : rests l t -> InUse (lf_harness l) = false ->
  hn_owned (lf_harness l) = None /\ hn_active (lf_harness l) = None /\ hn_running (lf_harness l) = false /\
  lf_stopping l = None /\ live t = ∅.
Proof.
  intros H Hu. unfold InUse in Hu. apply orb_false_iff in Hu as [Hu Hrun]. apply bool_decide_eq_false in Hu.
  apply eq_None_not_Some in Hu. pose proof (re_stop _ _ H) as Hstop. rewrite Hrun in Hstop.
  split_and!; try done; [by rewrite (re_active _ _ H)|]. apply (not_live (lf_harness l)); [by apply re_live|].
  unfold owned_ID. by rewrite Hu.
Qed.
Lemma rests_heap heap l t : rests l t -> rests (on_harness (set_hn_heap heap (lf_harness l)) l) t.
Proof. by intros []; split. Qed.
Lemma rests_started l t e : rests l t -> rests l (t ++ [HStarted (Some e)]).
Proof.
  intros []. split; try done; rewrite ?live_app, ?may_admit_app; done.
Qed.

Lemma brought_up_live p h e h' evs t :
  brought_up p h e h' evs -> live t = ∅ ->
  ok_events t evs /\ forall id, id ∈ live (t ++ evs) -> id <> ""%string /\ id = session_ID p h'.
Proof.
  intros [_ [[-> _]|(id & e' & -> & Hid & _)]] Hl; [split; [apply ok_nil|rewrite app_nil_r, Hl; set_solver]|].
  split; [by apply ok_one|]. intros x. rewrite live_app, Hl. simpl. rewrite Hid.
  destruct (String.eqb_spec id ""); set_solver.
Qed.

(** A creation without an identity is followed by what a failed start leaves: nothing, and the failure. *)
Lemma brought_up_reported p h e h' evs evs' e' :
  brought_up p h e h' evs -> (forall created, HCreate "" created ∉ evs') -> (session_ID p h' = ""%string -> evs' = []) ->
  (forall created, carries created e -> carries created e') -> reported (evs ++ evs' ++ [HStarted e']).
Proof.
  intros [_ [[-> _]|(id & created & -> & Hid & Hc)]] Hno Hnil Hcarry.
  - cbn [app]. apply reported_others. intros x Hin. apply elem_of_app in Hin as [Hin|Hin%list_elem_of_singleton]; [by eapply Hno|done].
  - destruct (decide (id = ""%string)) as [->|Hne].
    + rewrite (Hnil Hid). intros [|x [|y pre]] e0 post Heq; simplify_eq/=; [|by destruct pre]. exists e', []. split; [done|]. by apply Hcarry, Hc.
    + apply reported_others. intros x Hin. apply elem_of_app in Hin as [[= Hx]%list_elem_of_singleton|Hin]; [by rewrite Hx in Hne|].
      apply elem_of_app in Hin as [Hin|Hin%list_elem_of_singleton]; [by eapply Hno|done].
Qed.
Lemma carries_trans created e e' : carries created (Some e) -> carries (Some e) e' -> carries created e'.
Proof. intros (x & [= <-] & Hx) (y & -> & Hy). exists y. split; [done|]. intros s Hs. by apply Hy, Hx. Qed.

Lemma harness_Start_keeps ctx request l t :
  rests l t -> keeps l t (harness_step (traced_deployment d) mark_event (CallStart ctx request) l).
Proof.
  intros H. unfold keeps. cbn [harness_step]. unfold manager_Start.
  destruct (InUse (lf_harness l)) eqn:Hu.
  { apply emits_bind_ret. apply (keeps_mark l); [done|done|]. apply rests_started. by destruct l. }
  destruct (not_in_use _ _ H Hu) as (Hown & Hact & Hrun & Hstop & Hlive). apply emits_flatten.
  eapply emits_bind; [apply nl_prepare|]. intros [[s|e] heap] evs [-> Hid]; simpl in Hid; cbn [app].
  2: { apply emits_bind_ret. apply (keeps_mark l); [done|done|]. apply rests_started. by apply rests_heap. }
  cbn [add_session]. unfold Own. set (h0 := set_hn_sessions _ _). set (p := fresh _).
  assert (Hp : p ∉ dom (hn_sessions (lf_harness l))) by apply is_fresh.
  assert (InUse h0 = false) as -> by done. set (h1 := Reset None _).
  assert (is_Some (hn_sessions h1 !! p)) as Hp1 by (exists s; apply lookup_insert_eq).
  apply emits_flatten. eapply emits_bind; [by apply nl_bring_up|]. intros [e h2] evs Hb. cbn [fst snd] in Hb.
  destruct (brought_up_live _ _ _ _ _ t Hb Hlive) as [Hok Hlive2]. pose proof Hb as [Hs _].
  assert (hn_owned h2 = Some p) as Hown2 by (by rewrite (sl_owned _ _ _ Hs)).
  assert (hn_active h2 = None) as Hact2 by (by rewrite (sl_active _ _ _ Hs)).
  assert (hn_running h2 = false) as Hrun2 by (by rewrite (sl_running _ _ _ Hs)).
  assert (hn_ready h2 = false) as Hready2 by (by rewrite (sl_ready _ _ _ Hs)).
  assert (is_Some (hn_sessions h2 !! p)) as Hp2 by by eapply same_lease_known.
  assert (Hruns : forall q, is_Some (lf_runs l !! q) -> q <> p /\ q ∈ dom (hn_sessions h2)).
  { intros q Hq. destruct (re_runs _ _ H q Hq) as [_ Hq']. apply elem_of_dom in Hq'.
    rewrite (sl_dom _ _ _ Hs). split; [by intros ->|]. simpl. set_solver. }
  destruct e as [e|].
  - eapply emits_bind; [by apply (start_failed_emits ctx p e h2 (t ++ evs))|].
    intros [e' h3] evs' (He & Hno & Hnil & Hok' & _ & Hlive3 & Hor & Hact3 & Hrun3 & Hready3 & Hdom3). simpl in *.
    destruct e' as [e'|]; [|by destruct He as (? & ? & _)]. apply emits_call. intros []. apply emits_ret.
    split; [split; [apply ok_app; [done|]; apply ok_app; [done|by apply ok_one]|]|].
    { eapply brought_up_reported; [done|done|done|]. intros created Hc. by eapply carries_trans. }
    rewrite !app_assoc. apply rests_started. split; simpl; try done.
    + intros q Hq. apply elem_of_dom. rewrite Hdom3. destruct Hor as [Hor|Hor]; rewrite Hor in Hq; simplify_eq.
      by apply elem_of_dom.
    + by rewrite Hrun3.
    + by rewrite Hrun3.
    + by rewrite Hready3.
    + intros q Hq. destruct (Hruns q Hq) as [Hne Hd]. rewrite <- Hdom3 in Hd. split; [|by apply elem_of_dom].
      by destruct Hor as [->| ->]; [intros [= ->]|].
  - apply emits_bind_ret. apply emits_call. intros []. apply emits_ret.
    split; [split; [apply ok_app; [done|by apply ok_one]|]|].
    { apply (brought_up_reported _ _ _ _ _ [] None Hb); [set_solver|done|done]. }
    rewrite app_assoc. split; simpl; try done.
    + intros id. rewrite live_app. simpl. intros Hx. destruct (Hlive2 id Hx) as [Hne ->]. split; [done|].
      by rewrite (owned_ID_session _ p).
    + intros q Hq. by simplify_eq.
    + by rewrite Hrun2.
    + by rewrite Hrun2.
    + by rewrite may_admit_app.
    + intros q Hq. destruct (Hruns q Hq) as [Hne Hd]. split; [|by apply elem_of_dom].
      rewrite Hown2. by intros [= ->].
Qed.

Lemma owned_ID_same h h' :
  hn_owned h' = hn_owned h ->
  (forall p, hn_owned h = Some p -> hn_sessions h' !! p = hn_sessions h !! p) -> owned_ID h' = owned_ID h.
Proof.
  intros Ho Hs. unfold owned_ID, occurrence_at. rewrite Ho. destruct (hn_owned h) as [p|]; [|done]. by rewrite Hs.
Qed.
(** The invariant survives a change of sessions that are not the owned one. *)
Lemma rests_aside h l t runs :
  rests l t -> same_lease (fun q => hn_owned (lf_harness l) <> Some q) (lf_harness l) h ->
  (forall p, is_Some (runs !! p) -> hn_owned (lf_harness l) <> Some p /\ p ∈ dom (hn_sessions h)) ->
  rests {| lf_harness := h; lf_runs := runs; lf_stopping := lf_stopping l |} t.
Proof.
  intros [] [] Hruns. split; simpl; rewrite ?sl_owned0, ?sl_active0, ?sl_running0, ?sl_ready0, ?sl_admitted0, ?sl_attempt0; try done.
  - intros id Hid. rewrite (owned_ID_same (lf_harness l) h); [by apply re_live0|done|]. intros p Hp. apply sl_sessions0. by intros [].
  - intros p Hp. rewrite sl_sessions0; [by apply re_known0|]. by intros [].
  - intros p Hp. destruct (Hruns p Hp) as [? ?%elem_of_dom]. done.
Qed.
Lemma clear_session_same p h : same_lease (fun q => q = p) h (clear_session p h).
Proof.
  unfold clear_session. destruct (occurrence_at p h) as [o|]; [|apply same_lease_refl].
  destruct (Clear _ _) as [credentials heap]. eapply same_lease_trans; [apply same_lease_update|apply same_lease_heap].
Qed.

Lemma Run_keeps instruction l t :
  rests l t -> keeps l t (harness_step (traced_deployment d) mark_event (CallRun instruction) l).
Proof.
  intros H. unfold keeps. cbn [harness_step]. unfold run_begin, AdmitRun.
  assert (Hid : rests (on_harness (lf_harness l) l) t) by by destruct l.
  destruct (hn_running (lf_harness l)) eqn:Hrun; [by apply (life_keeps_ret l)|].
  destruct (_ || _) eqn:Hg; [by apply (life_keeps_ret l)|]. apply orb_false_iff in Hg as [Hown Hready].
  apply bool_decide_eq_false in Hown. apply negb_false_iff in Hready.
  destruct (hn_admitted (lf_harness l)) eqn:Had; [by apply (life_keeps_ret l)|].
  destruct (_ || _); [by apply (life_keeps_ret l)|]. cbn [hn_active hn_sessions set_hn_lease].
  destruct (hn_owned (lf_harness l)) as [p|] eqn:Hp; [|done]. rewrite (re_active _ _ H), Hp. simpl.
  destruct (re_known _ _ H p Hp) as [s Hs]. rewrite Hs. destruct (occurrence_Snapshot _ _) as [o heap].
  cbn [add_session hn_sessions set_hn_heap set_hn_lease]. set (q := fresh _).
  assert (Hq : q ∉ dom (hn_sessions (lf_harness l))) by apply is_fresh.
  assert (Hqp : q <> p) by (intros ->; apply Hq, elem_of_dom; eauto).
  apply (keeps_mark l); [by apply (re_admit _ _ H)|done|]. destruct H.
  split; simpl; rewrite ?live_app, ?may_admit_app; simpl; rewrite ?Hrun; try done.
  - by rewrite re_active0.
  - intros id Hid'. rewrite (owned_ID_same (lf_harness l)); [by apply re_live0|done|]. intros p' Hp'. simpl.
    apply lookup_insert_ne. congruence.
  - intros p' Hp'. rewrite lookup_insert_ne by congruence. apply re_known0. congruence.
  - by rewrite Hrun in re_stop0.
  - intros p' Hp'. destruct (decide (p' = q)) as [->|Hne].
    + rewrite lookup_insert_eq. split; [congruence|eauto].
    + rewrite lookup_insert_ne in Hp' by done. rewrite lookup_insert_ne by done. rewrite <- Hp. by apply re_runs0.
Qed.
Lemma RunEnd_keeps ctx p l t :
  rests l t -> keeps l t (harness_step (traced_deployment d) mark_event (CallRunEnd ctx p) l).
Proof.
  intros H. unfold keeps. cbn [harness_step]. destruct (lf_runs l !! p) as [instruction|] eqn:Hp; [|by apply (life_keeps_ret l)].
  destruct (re_runs _ _ H p) as [Hown Hknown]; [eauto|]. unfold run_end. apply emits_flatten.
  eapply emits_bind; [apply nl_run_body|]. intros [[result e] h] evs [-> Hs]. cbn [snd] in Hs. apply emits_bind_ret.
  apply (life_keeps_ret l). pose proof (same_lease_trans _ _ _ _ Hs (clear_session_same p h)) as Hl.
  apply rests_aside; [done| |].
  - destruct Hl. split; try done. intros q Hq. apply sl_sessions0. by intros ->.
  - intros q Hq. destruct (decide (p = q)) as [->|Hne]; [rewrite lookup_delete_eq in Hq; by destruct Hq|].
    rewrite lookup_delete_ne in Hq by done. destruct (re_runs _ _ H q Hq) as [? ?]. split; [done|].
    rewrite (sl_dom _ _ _ Hl). by apply elem_of_dom.
Qed.

Lemma harness_Stop_keeps l t : rests l t -> keeps l t (harness_step (traced_deployment d) mark_event CallStop l).
Proof.
  intros H. unfold keeps. cbn [harness_step]. unfold stop_begin, BeginStop, Begin.
  change (hn_running (set_hn_lease _ _ _ (lf_harness l))) with (hn_running (lf_harness l)).
  destruct (hn_running (lf_harness l)) eqn:Hrun; [|destruct (bool_decide _) eqn:Hown; simpl].
  - apply (life_keeps_ret l). destruct H. split; try done; simpl. intros _. split_and!; [|done|]; by apply re_running0.
  - apply (keeps_mark l); [done|done|]. apply bool_decide_eq_true in Hown. destruct H.
    split; simpl; rewrite ?live_app, ?may_admit_app; try done. intros _. split_and!; [done|done|eauto].
  - set (h := match _ with Some _ => _ | None => _ end). apply (life_keeps_ret l).
    assert (h = set_hn_stop (hn_attempts h) (hn_attempt h) false (set_hn_lease (hn_owned (lf_harness l)) false (hn_admitted (lf_harness l)) (lf_harness l))) as ->
      by (unfold h; destruct l as [[? ? ? ? ? ? ? [at_|] ? ?] ? ?]; by simplify_eq/=).
    destruct H. split; simpl; try done. by rewrite Hrun in re_stop0.
Qed.

(** What one stop leaves of the session it stops. *)
Lemma stopSession_emits ctx p h :
  is_Some (hn_sessions h !! p) ->
  emits (stopSession (traced_deployment d) ctx p h) (fun r evs => removed (session_ID p h) r.1 evs /\
    same_lease (fun q => q = p) h r.2 /\
    session_ID p r.2 = match r.1 with None => "" | Some _ => session_ID p h end%string).
Proof.
  intros Hp. unfold stopSession.
  eapply emits_bind; [apply with_native_emits; intros; apply nl_let_go|]. intros h1 evs (-> & Hs & _ & Hocc).
  assert (session_ID p h1 = session_ID p h) as Hid by (unfold session_ID; by rewrite Hocc).
  eapply emits_bind; [apply Remove_emits; by eapply same_lease_known|].
  intros [e h2] evs (Hr & Hs2 & Hid2). cbn [fst snd app] in *. rewrite Hid in Hr, Hid2.
  pose proof (same_lease_trans _ _ _ _ Hs Hs2) as Hs3.
  destruct e as [e|]; [apply emits_ret; by rewrite app_nil_r|].
  eapply emits_bind; [apply with_native_emits, nl_hang_up|]. intros h3 evs' (-> & Hs4 & _ & Hocc4).
  apply emits_ret. rewrite !app_nil_r. split_and!; [done|by eapply same_lease_trans|].
  rewrite <- Hid2. unfold session_ID. cbn [snd]. by rewrite Hocc4.
Qed.
Lemma StopEnd_keeps ctx l t :
  rests l t -> keeps l t (harness_step (traced_deployment d) mark_event (CallStopEnd ctx) l).
Proof.
  intros H. unfold keeps. cbn [harness_step]. destruct (lf_stopping l) as [active|] eqn:Hstop; [|by apply (life_keeps_ret l)].
  pose proof (re_stop _ _ H) as Hact. rewrite Hstop in Hact.
  destruct (hn_running (lf_harness l)) eqn:Hrun; [|done]. injection Hact as ->.
  destruct (re_running _ _ H Hrun) as ([p Hp] & Hready & a & Ha). pose proof (re_known _ _ H p Hp) as Hknown.
  pose proof (re_active _ _ H) as Hact. rewrite Hp in Hact. rewrite Hact. unfold stop_end. apply emits_flatten.
  eapply emits_bind; [by apply stopSession_emits|]. intros [e h] evs (Hr & Hs & Hid). cbn [fst snd] in Hr, Hs, Hid.
  apply emits_bind_ret. cbn [mbind option_bind].
  destruct (removed_live (session_ID p (lf_harness l)) e t evs) as (Hok & Hmay & Hnone & Hrest); [|done|].
  { intros x Hx. rewrite <- (owned_ID_session (lf_harness l)) by done. by apply (re_live _ _ H). }
  apply emits_call. intros []. apply emits_ret.
  split; [split; [apply ok_app; [done|]; apply ok_one; destruct e; [done|by apply Hnone]|]|].
  { apply reported_app; [apply reported_others; by apply (removed_no_create _ _ _ Hr)|by apply reported_mark]. }
  rewrite app_assoc. set (gone := match occurrence_at p h with Some _ => _ | None => _ end).
  assert (gone = String.eqb (session_ID p h) "") as -> by (unfold gone, session_ID; by destruct (occurrence_at p h)).
  assert (Hgone : live (t ++ evs) = ∅ \/ session_ID p h <> ""%string /\ session_ID p h = session_ID p (lf_harness l)).
  { destruct (String.eqb_spec (session_ID p (lf_harness l)) "") as [He|Hne].
    - left. apply set_eq. intros x. split; [|set_solver]. intros [? ->]%Hrest. done.
    - destruct e as [e|]; [right; rewrite Hid; done|left; by apply Hnone]. }
  unfold FinishStop, Finish.
  assert (owned_ID (if String.eqb (session_ID p h) "" then set_hn_active None h else h) = session_ID p h) as ->.
  { rewrite (owned_ID_session _ p) by (destruct (String.eqb _ _); simpl; by rewrite (sl_owned _ _ _ Hs)).
    by destruct (String.eqb _ _). }
  pose proof (same_lease_known _ _ _ _ Hs Hknown) as Hp'.
  destruct (String.eqb_spec (session_ID p h) "") as [He|Hne]; simpl;
    rewrite (sl_attempt _ _ _ Hs), Ha; split; simpl; rewrite ?(sl_active _ _ _ Hs), ?(sl_owned _ _ _ Hs), ?(sl_ready _ _ _ Hs);
    try (done || congruence).
  - intros x. rewrite live_app. destruct Hgone as [Hgone|[? ?]]; [|done]. rewrite Hgone. set_solver.
  - intros q Hq. destruct (re_runs _ _ H q Hq). split; [done|]. by eapply same_lease_known.
  - intros x. rewrite live_app. simpl. intros Hx. rewrite (owned_ID_session _ p) by (simpl; by rewrite (sl_owned _ _ _ Hs)).
    change (x <> "" /\ x = session_ID p h)%string. destruct Hgone as [Hgone|[_ ->]].
    + exfalso. assert (x ∈ live (t ++ evs)) as Hx' by (by destruct e). by rewrite Hgone in Hx'.
    + apply Hrest. by destruct e.
  - intros q Hq. destruct (re_runs _ _ H q Hq). split; [done|]. by eapply same_lease_known.
Qed.

Lemma harness_step_keeps call l t : rests l t -> keeps l t (harness_step (traced_deployment d) mark_event call l).
Proof.
  destruct call; [apply harness_Start_keeps|apply Run_keeps|apply RunEnd_keeps|apply harness_Stop_keeps|apply StopEnd_keeps].
Qed.
Lemma life_keeps calls l t : rests l t -> keeps l t (harness_life (traced_deployment d) mark_event calls l).
Proof.
  revert l t. induction calls as [|call calls IH]; intros l t H; [by apply life_keeps_ret|]. cbn [harness_life].
  eapply emits_bind; [by apply harness_step_keeps|]. intros l' evs [Hok H']. eapply emits_mono; [by apply IH|].
  intros l'' evs' [Hok' H'']. rewrite app_assoc. destruct Hok, Hok'. split; [split; [by apply ok_app|by apply reported_app]|done].
Qed.
Lemma rests_new heap : rests (new_Life heap) [].
Proof. split; simpl; try done. intros p [x Hx]. by rewrite lookup_empty in Hx. Qed.
End Steps.

(** * Lemmas for the instances *)

(** An operation that no observer sees. *)
Section Quiet.
Context {W : Type}.
Lemma quiet_ret {A} (a : A) : emits (W := W) (ret a) quiet.
Proof. by apply emits_ret. Qed.
Lemma quiet_silent {A} (m : M W A) : emits (silent m) quiet.
Proof. by apply emits_silent. Qed.
Lemma quiet_bind {A B} (m : M (W * list harness_event) A) (f : A -> M (W * list harness_event) B) :
  emits m quiet -> (forall a, emits (f a) quiet) -> emits (bind m f) quiet.
Proof. intros Hm Hf. eapply emits_bind; [apply Hm|]. intros a evs ->. apply Hf. Qed.
Lemma quiet_then {A B} (m : M (W * list harness_event) A) (f : A -> M (W * list harness_event) B) Q :
  emits m quiet -> (forall a, emits (f a) Q) -> emits (bind m f) Q.
Proof. intros Hm Hf. eapply emits_bind; [apply Hm|]. intros a evs ->. apply Hf. Qed.

(** A session changes, but for its runtime. *)
Definition stays {S} (p : nat) (h h' : Harness S) : Prop :=
  same_lease (fun q => q = p) h h' /\ session_ID p h' = session_ID p h.
Lemma stays_refl {S} p (h : Harness S) : stays p h h.
Proof. split; [apply same_lease_refl|done]. Qed.
Lemma stays_trans {S} p (h h' h'' : Harness S) : stays p h h' -> stays p h' h'' -> stays p h h''.
Proof. intros [Hs Hi] [Hs' Hi']. split; [by eapply same_lease_trans|congruence]. Qed.
Lemma stays_heap {S} p heap (h : Harness S) : stays p h (set_hn_heap heap h).
Proof. split; [apply same_lease_heap|done]. Qed.
Lemma stays_update {S} p f (h : Harness S) : (forall o, oc_ID (f o) = oc_ID o) -> stays p h (update_occurrence p f h).
Proof.
  intros Hf. split; [apply same_lease_update|]. unfold session_ID, occurrence_at, update_occurrence. simpl.
  rewrite lookup_alter_eq. destruct (hn_sessions h !! p) as [s|]; simpl; [by rewrite Hf|done].
Qed.
Lemma stays_native {S} p (f : Session S -> S) (h : Harness S) :
  stays p h (set_hn_sessions (alter (fun s => set_ss_native (f s) s) p (hn_sessions h)) h).
Proof.
  split.
  - split; simpl; try done; [apply dom_alter_L|]. intros q Hq. by apply lookup_alter_ne.
  - unfold session_ID, occurrence_at. simpl. rewrite lookup_alter_eq. by destruct (hn_sessions h !! p).
Qed.
Lemma stays_known {S} p (h h' : Harness S) : stays p h h' -> is_Some (hn_sessions h !! p) -> is_Some (hn_sessions h' !! p).
Proof. intros [Hs _]. by apply (same_lease_known _ _ _ _ Hs). Qed.
Lemma brought_up_none {S} p e (h h' : Harness S) : stays p h h' -> brought_up p h e h' [].
Proof. intros [Hs Hi]. split; [done|by left]. Qed.
Lemma brought_up_before {S} p e (h h' h'' : Harness S) evs : stays p h h' -> brought_up p h' e h'' evs -> brought_up p h e h'' evs.
Proof.
  intros [Hs Hi] [Hs' [[-> Hi']|Hc]]; (split; [by eapply same_lease_trans|]); [left; split; [done|congruence]|by right].
Qed.
Lemma brought_up_after {S} p e (h h' h'' : Harness S) evs : brought_up p h None h' evs -> stays p h' h'' -> brought_up p h e h'' evs.
Proof.
  intros [Hs [[-> Hi]|(id & created & -> & Hi & Hc)]] [Hs' Hi']; (split; [by eapply same_lease_trans|]).
  - left. split; [done|congruence].
  - right. exists id, created. split_and!; [done|congruence|]. intros Hid. by destruct (Hc Hid) as (? & ? & _).
Qed.

(** The start of a runtime, which every manager uses. *)
Lemma runtime_Start_emits {S} (d : HarnessDeployment W) label ctx p request archive secrets (h : Harness S) :
  is_Some (hn_sessions h !! p) ->
  emits (runtime_Start (traced_deployment d) label ctx p request archive secrets h)
    (fun r evs => brought_up p h r.1 r.2 evs).
Proof.
  intros Hp. unfold runtime_Start. apply emits_call. intros [id e].
  set (h1 := update_occurrence p _ h).
  assert (Hb : forall failed, (id = ""%string -> carries e failed) -> brought_up p h failed h1 [HCreate id e]).
  { intros failed Hf. split; [apply same_lease_update|]. right. exists id, e. split_and!; [done| |done]. unfold h1. rewrite session_ID_update by done.
    destruct Hp as [s Hs]. unfold occurrence_at. by rewrite Hs. }
  destruct e as [e|]; [apply emits_ret, Hb; intros _; eexists; by split|].
  destruct (String.eqb_spec (TrimSpace id) "") as [Ht|Ht]; [apply emits_ret, Hb; intros _; eexists; split; [done|]; by intros s|].
  assert (forall failed, brought_up p h failed h1 [HCreate id None]) as Hb' by (intros failed; apply Hb; by intros ->).
  emits_steps; apply Hb'.
Qed.
End Quiet.

(** One step of a proof that an operation is quiet. *)
Create HintDb quiet.
Ltac quiet_step :=
  match goal with
  | |- emits (ret _) _ => apply quiet_ret
  | |- emits (bind _ _) _ => apply quiet_bind; [|intros ?]
  | |- emits (match ?x with _ => _ end) _ => destruct x
  | |- emits (match ?x with _ => _ end _) _ => destruct x
  | |- emits (let (_, _) := ?x in _) _ => destruct x
  | _ => solve [auto 2 with quiet nocore]
  | _ => apply quiet_silent
  end.
Ltac quiet_steps := repeat (quiet_step; cbv beta).

(** The account of a life, for any native manager: what the theorems on the two managers
    state. *)
Lemma harness_life_accounts {W S} {N : Native (W * list harness_event) S} (d : HarnessDeployment W)
    (Laws : NativeLaws N d) (calls : list harness_call) (heap : Heap) :
  emits (harness_life (traced_deployment d) mark_event calls (new_Life heap)) (fun l evs =>
    ok_events [] evs /\ reported evs /\
    (forall id, id ∈ live evs -> id = owned_ID (lf_harness l)) /\
    (InUse (lf_harness l) = false -> live evs = ∅)).
Proof.
  eapply emits_mono; [apply (life_keeps d), rests_new|]. intros l evs [[Hok Hrep] H]. split_and!; [done|done| |].
  - intros id Hid. by apply (re_live _ _ H).
  - intros Hu. by apply (not_in_use d l evs H) in Hu as (_ & _ & _ & _ & ?).
Qed.
