(* ===== verification/HarnessFiles.v ===== *)
(** The private files of the agent harnesses: reading and writing evidence
    ([pkg/harness/internal/privatefiles], files.go and random.go), the artifacts of an
    occurrence and the archive that is staged into a runtime ([pkg/harness],
    artifacts.go). The operating system is an interface; its open files are numbers. *)

From S2P Require Import Prelude Trace Core Paths Net HarnessRuntime.

(** * The operating system *)

(** What [os.File.Stat] tells; [fi_ID] is what [os.SameFile] compares. *)
Record FileInfo := {
  fi_Regular : bool;
  fi_Perm : Z;
  fi_Size : Z;
  fi_ModTime : Z;
  fi_ID : Z
}.
Class Files (W : Type) := {
  os_MkdirAll : string -> Z -> M W error;
  os_EvalSymlinks : string -> M W (string + err);
  os_Abs : string -> M W (string + err);
  os_Chmod : string -> Z -> M W error;
  os_Create : string -> Z -> M W (nat + err);     (* OpenFile, O_WRONLY|O_CREATE|O_EXCL *)
  os_Open : string -> M W (nat + err);            (* syscall.Open, O_RDONLY|O_NOFOLLOW *)
  os_Write : nat -> bytes -> M W error;
  os_Sync : nat -> M W error;
  os_Close : nat -> M W error;
  os_Stat : nat -> M W (FileInfo + err);
  os_ReadAll : nat -> Z -> M W (bytes * error);   (* io.ReadAll of a LimitReader *)
  os_Remove : string -> M W error;
  os_RemoveAll : string -> M W unit;
  rand_Read : Z -> M W (bytes + err)
}.

(** * Private files *)

Section PrivateFiles.
Context {W : Type} `{!Files W}.

(** [ReadBounded] and [Read]; the file is closed on every path. *)
Definition MaxPrivateFileBytes : Z := 16 * 2 ^ 20.
Definition unbounded_source (info : FileInfo) (mode limit : Z) : bool :=
  negb (fi_Regular info) || negb (fi_Perm info =? mode) || (fi_Size info <? 1) || (limit <? fi_Size info).
Definition changed (before after : FileInfo) : bool :=
  negb (fi_ID before =? fi_ID after) || negb (fi_Size before =? fi_Size after) ||
  negb (fi_ModTime before =? fi_ModTime after).
Definition read_open (file : nat) (mode limit : Z) : M W (bytes + err) :=
  let* before := os_Stat file in
  match before with
  | inr e => ret (inr e)
  | inl before =>
      if unbounded_source before mode limit
      then ret (inr (ENew "private source is not one bounded regular file with the required mode"))
      else
        let* (content, e) := os_ReadAll file (limit + 1) in
        if negb (is_nil e) || (limit <? Z.of_nat (length content))
        then ret (inr (ENew "read private source within bound"))
        else
          let* after := os_Stat file in
          let moved := match after with inl after => changed before after | inr _ => true end in
          ret (if moved then inr (ENew "private source changed while being read") else inl content)
  end.
Definition ReadBounded (path : string) (mode limit : Z) : M W (bytes + err) :=
  let* file := os_Open path in
  match file with
  | inr e => ret (inr e)
  | inl file =>
      let* result := read_open file mode limit in
      let* _ := os_Close file in
      ret result
  end.
Definition Read (path : string) (mode : Z) : M W (bytes + err) := ReadBounded path mode MaxPrivateFileBytes.

(** [EnsureDirectory]. *)
Definition private_mode : Z := 448.    (* 0o700 *)
Definition file_mode : Z := 384.       (* 0o600 *)
Definition EnsureDirectory (path : string) : M W error :=
  let* e := os_MkdirAll path private_mode in
  match e with Some e => ret (Some e) | None =>
  let* resolved := os_EvalSymlinks path in
  match resolved with inr e => ret (Some e) | inl resolved =>
  let* absolute := os_Abs path in
  match absolute with inr e => ret (Some e) | inl absolute =>
  if negb (String.eqb resolved absolute) then ret (Some (ENew "private directory path contains a symbolic link"))
  else os_Chmod path private_mode
  end end end.

(** [filepath.Dir], and [WriteArtifact]. *)
Definition Dir (path : string) : string :=
  Clean (of_bytes (match last_index "/" (to_bytes path) with Some i => take (S i) (to_bytes path) | None => [] end)).
Definition existing_artifact (path : string) (content : bytes) : M W error :=
  let* existing := Read path file_mode in
  ret (match existing with
       | inl existing =>
           if bool_decide (existing = content) then None
           else Some (ENew ("artifact " +:+ quote path +:+ " already exists with different content"))
       | inr _ => Some (ENew ("artifact " +:+ quote path +:+ " already exists with different content"))
       end).
Definition abandon (file : nat) (path : string) (e : err) : M W error :=
  let* _ := os_Close file in
  let* _ := os_Remove path in
  ret (Some e).
Definition WriteArtifact (path : string) (content : bytes) : M W error :=
  let* e := EnsureDirectory (Dir path) in
  match e with Some e => ret (Some e) | None =>
  let* file := os_Create path file_mode in
  match file with
  | inr e => if errors_Is e ErrExist then existing_artifact path content else ret (Some e)
  | inl file =>
      let* e := os_Write file content in
      match e with Some e => abandon file path e | None =>
      let* e := os_Sync file in
      match e with Some e => abandon file path e | None => os_Close file end end
  end end.

(** [RandomID] and [RandomSecret]: hexadecimal digits. *)
Definition hex_encode (content : bytes) : bytes :=
  concat (map (fun c => [hex_digit (byte_of c / 16); hex_digit (byte_of c mod 16)]) content).
Definition RandomID : M W (string + err) :=
  let* content := rand_Read 8 in
  ret (match content with inl content => inl (of_bytes (hex_encode content)) | inr e => inr e end).
Definition RandomSecret (size : Z) : M W (bytes + err) :=
  let* content := rand_Read size in
  ret (match content with inl content => inl (hex_encode content) | inr e => inr e end).
End PrivateFiles.

(** * Artifacts *)

(** [validateArchivePath]. *)
Definition bad_archive_path (name : string) : bool :=
  String.eqb name "" || String.eqb name "." || String.eqb name ".." || HasPrefix name "/" ||
  negb (String.eqb (Clean name) name) || HasPrefix name "../".
Definition validateArchivePath (name : string) : error :=
  refuse_if bad_archive_path name with "invalid staged path " +:+ quote name.

(** [Artifacts.Add], [Write], [Snapshot] and [TelemetryPaths]; a path in the
    [telemetry] directory keeps its name relative to [Directory], which is a clean
    path. *)
Definition Add (paths : list string) (a : Artifacts) : Artifacts :=
  {| at_Directory := at_Directory a;
     at_paths := fold_left (fun kept path =>
       if negb (String.eqb path "") && negb (existsb (String.eqb path) kept) then kept ++ [path] else kept)
       paths (at_paths a) |}.
Definition artifacts_Write {W} `{!Files W} (name : string) (content : bytes) (a : Artifacts) : M W (error * Artifacts) :=
  match validateArchivePath name with
  | Some e => ret (Some e, a)
  | None =>
      let path := Join [at_Directory a; name] in
      let* e := WriteArtifact path content in
      ret (e, match e with Some _ => a | None => Add [path] a end)
  end.
Definition TelemetryPaths (a : Artifacts) : list string :=
  let prefix := Join [at_Directory a; "telemetry"%string] +:+ "/" in
  omap (fun path => if HasPrefix path prefix then CutPrefix path (at_Directory a +:+ "/") else None) (at_paths a).

(** * Staging *)

(** [ArchiveDirectory], [ArchiveFile], and what of them a tar header holds. *)
Record Attributes := { ar_Mode : Z; ar_UID : Z; ar_GID : Z }.
Record ArchiveFile := { af_Content : bytes; af_Attributes : Attributes }.
Inductive Entry :=
  | TypeDir (name : string) (attributes : Attributes)
  | TypeReg (name : string) (file : ArchiveFile).

Section Staging.
(** [archive/tar]: the bytes of one entry after those written so far, and the end. *)
Variable tar_Write : bytes -> Entry -> bytes + err.
Variable tar_Close : bytes -> bytes + err.

Definition add_entry (output : bytes + err) (name : string) (entry : Entry) : bytes + err :=
  match output with
  | inr e => inr e
  | inl output => match validateArchivePath name with Some e => inr e | None => tar_Write output entry end
  end.
Definition StageArchive (directories : list (string * Attributes)) (files : gmap string ArchiveFile) : bytes + err :=
  let output := fold_left (fun output d => add_entry output d.1 (TypeDir d.1 d.2)) directories (inl []) in
  let output := fold_left (fun output name =>
                  match files !! name with
                  | Some file => add_entry output name (TypeReg name file)
                  | None => output
                  end) (sorted_keys files) output in
  match output with inl output => tar_Close output | inr e => inr e end.
End Staging.

(** * What a file system promises *)

(** The files by path, and the path of each open file. Only a write, a creation and a
    removal change a file, and only the one they are about. *)
Class FilesLaws {W : Type} (F : Files W) := {
  file_at : W -> string -> option bytes;
  handle : W -> nat -> option string;
  unchanged {A} (m : M W A) : Prop := forall w, file_at (m w).2 = file_at w /\ handle (m w).2 = handle w;
  law_MkdirAll path mode : unchanged (os_MkdirAll path mode);
  law_EvalSymlinks path : unchanged (os_EvalSymlinks path);
  law_Abs path : unchanged (os_Abs path);
  law_Chmod path mode : unchanged (os_Chmod path mode);
  law_Stat file : unchanged (os_Stat file);
  law_Sync file : unchanged (os_Sync file);
  law_ReadAll file limit : unchanged (os_ReadAll file limit);
  law_Close file w : file_at (os_Close file w).2 = file_at w;
  law_Open path w : file_at (os_Open path w).2 = file_at w /\
    forall file, (os_Open path w).1 = inl file -> handle (os_Open path w).2 file = Some path /\ is_Some (file_at w path);
  law_contents file limit w path content :
    handle w file = Some path -> file_at w path = Some content -> (os_ReadAll file limit w).1.2 = None ->
    (os_ReadAll file limit w).1.1 = take (Z.to_nat limit) content;
  law_Create path mode w :
    match (os_Create path mode w).1 with
    | inl file => file_at w path = None /\ file_at (os_Create path mode w).2 path = Some [] /\
                  handle (os_Create path mode w).2 file = Some path /\
                  forall q, q <> path -> file_at (os_Create path mode w).2 q = file_at w q
    | inr _ => file_at (os_Create path mode w).2 = file_at w
    end;
  law_Write file content w path :
    handle w file = Some path ->
    (forall q, q <> path -> file_at (os_Write file content w).2 q = file_at w q) /\
    ((os_Write file content w).1 = None ->
     file_at (os_Write file content w).2 path = (fun old => old ++ content) <$> file_at w path);
  law_Remove path w q : q <> path -> file_at (os_Remove path w).2 q = file_at w q
}.

Section Evidence.
Context {W : Type} {F : Files W} {L : FilesLaws F}.

Lemma unchanged_file {A} (m : M W A) w a w' : unchanged m -> m w = (a, w') -> file_at w' = file_at w /\ handle w' = handle w.
Proof. intros H Hm. specialize (H w). by rewrite Hm in H. Qed.

Lemma EnsureDirectory_unchanged path : unchanged (EnsureDirectory path).
Proof.
  intros w. unfold EnsureDirectory, bind, ret.
  destruct (os_MkdirAll path private_mode w) as [e w1] eqn:E1.
  destruct (unchanged_file _ _ _ _ (law_MkdirAll path private_mode) E1) as [<- <-]. destruct e; [done|].
  destruct (os_EvalSymlinks path w1) as [resolved w2] eqn:E2.
  destruct (unchanged_file _ _ _ _ (law_EvalSymlinks path) E2) as [<- <-]. destruct resolved; [|done].
  destruct (os_Abs path w2) as [absolute w3] eqn:E3.
  destruct (unchanged_file _ _ _ _ (law_Abs path) E3) as [<- <-]. destruct absolute; [|done].
  destruct (negb _); [done|]. apply law_Chmod.
Qed.

(** A read gives the whole file, or an error, and changes nothing. *)
Lemma read_open_spec file mode limit w path content :
  0 <= limit -> handle w file = Some path -> file_at w path = Some content ->
  file_at (read_open file mode limit w).2 = file_at w /\
  forall got, (read_open file mode limit w).1 = inl got -> got = content.
Proof.
  intros Hlimit Hh Hc. unfold read_open, bind, ret.
  destruct (os_Stat file w) as [before w1] eqn:E1.
  destruct (unchanged_file _ _ _ _ (law_Stat file) E1) as [Hw1 Hh1]. destruct before as [before|e]; [|done].
  destruct (unbounded_source _ _ _); [done|].
  destruct (os_ReadAll file (limit + 1) w1) as [[got e] w2] eqn:E2.
  destruct (unchanged_file _ _ _ _ (law_ReadAll file (limit + 1)) E2) as [Hw2 Hh2].
  destruct (negb (is_nil e) || (limit <? Z.of_nat (length got))) eqn:Hg; [split; [simpl; congruence|done]|].
  apply orb_false_iff in Hg as [He Hlen]. destruct e; [done|]. apply Z.ltb_ge in Hlen.
  destruct (os_Stat file w2) as [after w3] eqn:E3.
  destruct (unchanged_file _ _ _ _ (law_Stat file) E3) as [Hw3 _]. split; [simpl; congruence|].
  intros got'. destruct (match after with inl _ => _ | inr _ => _ end); [done|]. intros [= <-].
  pose proof (law_contents file (limit + 1) w1 path content) as Hl. rewrite E2, Hh1, Hw1 in Hl. simpl in Hl.
  specialize (Hl Hh Hc eq_refl). rewrite Hl in Hlen. rewrite Hl. rewrite length_take in Hlen. apply take_ge. lia.
Qed.
Lemma Read_spec path mode w :
  file_at (Read path mode w).2 = file_at w /\
  forall got, (Read path mode w).1 = inl got -> file_at w path = Some got.
Proof.
  unfold Read, ReadBounded, bind, ret. pose proof (law_Open path w) as Ho.
  destruct (os_Open path w) as [[file|e] w1] eqn:E1; simpl in Ho; destruct Ho as [Hw1 Ho]; [|done].
  destruct (Ho file eq_refl) as [Hh [content Hc]]. rewrite <- Hw1 in Hc.
  pose proof (read_open_spec file mode MaxPrivateFileBytes w1 path content ltac:(done) Hh Hc) as [Hr Hgot].
  destruct (read_open file mode MaxPrivateFileBytes w1) as [result w2]. simpl in Hr, Hgot.
  pose proof (law_Close file w2) as Hclose. destruct (os_Close file w2) as [e w3]. simpl in *.
  split; [congruence|]. intros got Hg. rewrite <- Hw1, Hc. f_equal. symmetry. by apply Hgot.
Qed.

(** What a write of evidence may do to the files of [w]. *)
Definition retains (path : string) (content : bytes) (w : W) (r : error * W) : Prop :=
  (forall q c, file_at w q = Some c -> file_at r.2 q = Some c) /\
  (forall q, q <> path -> file_at r.2 q = file_at w q) /\
  (r.1 = None -> file_at r.2 path = Some content).
Lemma retains_unchanged path content w r : file_at r.2 = file_at w -> r.1 <> None -> retains path content w r.
Proof. intros Hf Hr. unfold retains. rewrite Hf. by split_and!. Qed.
Lemma retains_created path content w r :
  file_at w path = None -> (forall q, q <> path -> file_at r.2 q = file_at w q) ->
  (r.1 = None -> file_at r.2 path = Some content) -> retains path content w r.
Proof.
  intros Hn Hq Hr. split_and!; [|done|done]. intros q c Hc. rewrite Hq; [done|]. intros ->. congruence.
Qed.
Lemma abandon_spec file path e w :
  (forall q, q <> path -> file_at (abandon file path e w).2 q = file_at w q) /\ (abandon file path e w).1 <> None.
Proof.
  unfold abandon, bind, ret. pose proof (law_Close file w) as H1. destruct (os_Close file w) as [e1 w1].
  pose proof (law_Remove path w1) as H2. destruct (os_Remove path w1) as [e2 w2]. simpl in *.
  split; [|done]. intros q Hq. rewrite H2 by done. by rewrite H1.
Qed.
Lemma existing_spec path content w : retains path content w (existing_artifact path content w).
Proof.
  unfold existing_artifact, bind, ret. destruct (Read_spec path file_mode w) as [Hf Hg].
  destruct (Read path file_mode w) as [[existing|e] w1]; simpl in *; [|by apply retains_unchanged].
  destruct (bool_decide (existing = content)) eqn:E; [|by apply retains_unchanged].
  apply bool_decide_eq_true in E as ->. unfold retains. simpl. rewrite Hf. split_and!; auto.
Qed.
Lemma created_spec file path content w0 w :
  file_at w0 path = None -> file_at w path = Some [] -> handle w file = Some path ->
  (forall q, q <> path -> file_at w q = file_at w0 q) ->
  retains path content w0 ((let* e := os_Write file content in
    match e with Some e => abandon file path e | None =>
    let* e := os_Sync file in
    match e with Some e => abandon file path e | None => os_Close file end end) w).
Proof.
  intros Hn He Hh Hq. unfold bind. destruct (law_Write file content w path Hh) as [Hw Hd].
  destruct (os_Write file content w) as [[e|] w1]; simpl in Hw, Hd.
  { destruct (abandon_spec file path e w1) as [Ha Hs]. apply retains_created; [done| |done].
    intros q Hne. rewrite Ha, Hw by done. by apply Hq. }
  specialize (Hd eq_refl). rewrite He in Hd. simpl in Hd.
  destruct (os_Sync file w1) as [e w2] eqn:E2. destruct (unchanged_file _ _ _ _ (law_Sync file) E2) as [Hw2 _]. destruct e as [e|].
  { destruct (abandon_spec file path e w2) as [Ha Hs]. apply retains_created; [done| |done].
    intros q Hne. rewrite Ha, Hw2, Hw by done. by apply Hq. }
  pose proof (law_Close file w2) as Hc. destruct (os_Close file w2) as [e w3]. simpl in Hc.
  apply retains_created; simpl; [done| |]; rewrite Hc, Hw2.
  - intros q Hne. rewrite Hw by done. by apply Hq.
  - intros _. done.
Qed.
Lemma WriteArtifact_spec path content w : retains path content w (WriteArtifact path content w).
Proof.
  unfold WriteArtifact, bind at 1. destruct (EnsureDirectory (Dir path) w) as [e w1] eqn:E1.
  destruct (unchanged_file _ _ _ _ (EnsureDirectory_unchanged (Dir path)) E1) as [Hw1 _].
  destruct e as [e|]; [by apply retains_unchanged|]. unfold bind at 1.
  pose proof (law_Create path file_mode w1) as Hc. destruct (os_Create path file_mode w1) as [[file|e] w2]; simpl in Hc.
  - rewrite Hw1 in Hc. destruct Hc as (? & ? & ? & ?). by apply created_spec.
  - destruct (errors_Is e ErrExist); [|apply retains_unchanged; simpl; congruence].
    pose proof (existing_spec path content w2) as H. unfold retains in *. by rewrite Hc, Hw1 in H.
Qed.
End Evidence.

(** * Evidence *)

(** The artifacts of an occurrence, written one after the other. *)
Fixpoint write_all {W} `{!Files W} (items : list (string * bytes)) : M W (list error) :=
  match items with
  | [] => ret []
  | (path, content) :: items =>
      let* e := WriteArtifact path content in let* es := write_all items in ret (e :: es)
  end.

(** Evidence is immutable. Whatever is written, in whatever order, and whichever
    operation on a file fails half-way: a file that is there before keeps its content,
    and an artifact whose write has reported no error holds its content after all the
    writes that follow. *)
Theorem evidence_is_kept {W} {F : Files W} (L : FilesLaws F) (items : list (string * bytes)) (w : W) :
  (forall path content, file_at w path = Some content -> file_at (write_all items w).2 path = Some content) /\
  Forall2 (fun item e => e = None -> file_at (write_all items w).2 item.1 = Some item.2) items (write_all items w).1.
Proof.
  revert w. induction items as [|[path content] items IH]; intros w; [by split|]. cbn [write_all]. unfold bind, ret.
  pose proof (WriteArtifact_spec path content w) as (Hkeep & _ & Hdone). destruct (WriteArtifact path content w) as [e w1].
  destruct (IH w1) as [IHkeep IHdone]. destruct (write_all items w1) as [es w2]. simpl in *.
  split; [by intros q c Hc; apply IHkeep, Hkeep|]. constructor; [|done]. intros He. by apply IHkeep, Hdone.
Qed.

(** A file system in memory. *)
Record Disk := { dk_files : gmap string bytes; dk_open : gmap nat string }.
Definition disk_open (path : string) (files : gmap string bytes) (d : Disk) : (nat + err) * Disk :=
  let file := fresh (dom (dk_open d)) in (inl file, {| dk_files := files; dk_open := <[file := path]> (dk_open d) |}).
Definition disk_info (content : bytes) : FileInfo :=
  {| fi_Regular := true; fi_Perm := file_mode; fi_Size := Z.of_nat (length content); fi_ModTime := 0; fi_ID := 0 |}.
#[export] Instance disk_Files : Files Disk := {|
  os_MkdirAll _ _ := ret None;
  os_EvalSymlinks path := ret (inl path);
  os_Abs path := ret (inl path);
  os_Chmod _ _ := ret None;
  os_Create path _ d :=
    match dk_files d !! path with
    | Some _ => (inr (ESentinel ErrExist), d)
    | None => disk_open path (<[path := []]> (dk_files d)) d
    end;
  os_Open path d :=
    match dk_files d !! path with
    | None => (inr (ESentinel ErrNotExist), d)
    | Some _ => disk_open path (dk_files d) d
    end;
  os_Write file content d :=
    (None, match dk_open d !! file with
           | None => d
           | Some path => {| dk_files := alter (fun old => old ++ content) path (dk_files d); dk_open := dk_open d |}
           end);
  os_Sync _ := ret None;
  os_Close _ := ret None;
  os_Stat file d :=
    (inl (disk_info (default [] (dk_open d !! file ≫= fun path => dk_files d !! path))), d);
  os_ReadAll file limit d :=
    (take (Z.to_nat limit) (default [] (dk_open d !! file ≫= fun path => dk_files d !! path)), None, d);
  os_Remove path d := (None, {| dk_files := delete path (dk_files d); dk_open := dk_open d |});
  os_RemoveAll _ := ret tt;
  rand_Read n := ret (inl (repeat NUL (Z.to_nat n)))
|}.
#[export] Instance disk_laws : FilesLaws disk_Files.
Proof.
  refine {| file_at d path := dk_files d !! path; handle d file := dk_open d !! file |}; try done; simpl.
  - intros path d. destruct (dk_files d !! path) eqn:Hp; simpl; [|done]. split; [done|].
    intros file [= <-]. rewrite lookup_insert_eq. eauto.
  - intros file limit d path content Hh Hc _. by rewrite Hh; simpl; rewrite Hc.
  - intros path mode d. destruct (dk_files d !! path) eqn:Hp; simpl; [done|]. rewrite !lookup_insert_eq.
    split_and!; [done..|]. intros q Hq. by rewrite lookup_insert_ne.
  - intros file content d path ->. simpl. split; [intros q Hq; by apply lookup_alter_ne|]. intros _. apply lookup_alter_eq.
  - intros path d q Hq. by apply lookup_delete_ne.
Defined.
Definition empty_disk : Disk := {| dk_files := ∅; dk_open := ∅ |}.
Definition demo_items : list (string * bytes) :=
  [("/out/a", to_bytes "one"); ("/out/a", to_bytes "two"); ("/out/a", to_bytes "one"); ("/out/b", []); ("/out/b", [])]%string.
Lemma evidence_is_kept_witness :
  file_at (write_all demo_items empty_disk).2 "/out/a"%string = Some (to_bytes "one") /\
  Forall2 (fun item e => e = None -> file_at (write_all demo_items empty_disk).2 item.1 = Some item.2)
    demo_items (write_all demo_items empty_disk).1.
Proof.
  split; [vm_compute; reflexivity|]. apply (evidence_is_kept disk_laws demo_items empty_disk).
Defined.
(** An identical retry is accepted, other content is not, and neither is an empty
    artifact a second time. *)
Example retries : map is_nil (write_all demo_items empty_disk).1 = [true; false; true; true; false].
Proof. vm_compute. reflexivity. Qed.
