(* ===== verification/HarnessConfig.v ===== *)
(** What the agent harnesses check of their configuration ([pkg/harness], config.go),
    the names they accept, the MCP servers of an occurrence, and the making of a shared
    runtime ([NewRuntime] of harness.go). *)

From S2P Require Import Prelude Utf8 Core Net Sandbox HarnessRuntime HarnessFiles ConfigDeployment Config.

(** [Options] and [TTSOptions]. *)
Record Options := {
  on_Mode : string;
  on_WebSearchEnabled : bool;
  on_ExtractAPIKeyEnv : string;
  on_SubagentsEnabled : bool;
  on_MaxConcurrentSubagents : Z;
  on_MCPServers : list MCPServerConfig;
  on_RedactEnv : list string
}.
Record TTSOptions := {
  ts_Provider : string;
  ts_BaseURL : string;
  ts_APIKeyEnv : string;
  ts_Model : string;
  ts_Voice : string;
  ts_Instructions : string;
  ts_Speed : option float64;
  ts_Timeout : Z
}.

(** A text or its default; [TTSOptions] that are all zero. *)
Definition or_text (value default : string) : string := if String.eqb value "" then default else value.
Definition no_TTS (t : TTSOptions) : bool :=
  String.eqb (ts_Provider t) "" && String.eqb (ts_BaseURL t) "" && String.eqb (ts_APIKeyEnv t) "" && String.eqb (ts_Model t) "" &&
  String.eqb (ts_Voice t) "" && String.eqb (ts_Instructions t) "" && negb (is_some (ts_Speed t)) && (ts_Timeout t =? 0).

(** * Names *)

Definition environment_name_byte (first : bool) (c : ascii) : bool :=
  Ascii.eqb c "_" || is_upper c || is_lower c || negb first && is_digit c.
Definition ValidEnvironmentName (value : string) : bool :=
  match to_bytes value with
  | [] => false
  | c :: rest => environment_name_byte true c && forallb (environment_name_byte false) rest
  end.
Definition identifier_byte (first : bool) (c : ascii) : bool :=
  is_alnum c || negb first && mem c ["-"; "_"; "."]%char.
Definition safeIdentifierChars (value : string) : bool :=
  match to_bytes value with
  | [] => true
  | c :: rest => identifier_byte true c && forallb (identifier_byte false) rest
  end.
Definition ValidateRunID (label value : string) : error :=
  (refuse_if String.eqb value "" || (128 <? len value) with label +:+ " run ID must contain 1 to 128 safe characters") >>?
  (refuse_if negb (safeIdentifierChars value) with label +:+ " run ID contains an unsafe character").
Definition ValidateTaskID (label value : string) : error :=
  refuse_if String.eqb value "" || (149 <? len value) || negb (safeIdentifierChars value)
    with label +:+ " task ID is invalid".

(** * Services *)

(** [URL.Hostname]: the host without a port and without brackets. *)
Definition port_suffix (s : bytes) : bool := match s with ":"%char :: rest => forallb is_digit rest | _ => false end.
Definition Hostname (u : FullURL) : string :=
  let host := to_bytes (ul_Host u) in
  let host := match Net.last_index ":" host with
              | Some i => if port_suffix (drop i host) then take i host else host
              | None => host
              end in
  of_bytes (match host, last host with
            | "["%char :: rest, Some "]"%char => take (length rest - 1) rest
            | _, _ => host
            end).

Definition OpenAICompatible (provider : string) : bool := String.eqb provider "sglang" || String.eqb provider "openai".

Section URLs.
Variable url_Parse : string -> option FullURL.
Variable url_String : FullURL -> string.

Definition hosted (u : FullURL) : bool := negb (String.eqb (Hostname u) "") && http_scheme u.
Definition ValidateSearch (searchURL : string) (enabled : bool) : error :=
  refuse_if enabled &&
    match url_Parse searchURL with
    | None => true
    | Some u => negb (hosted u) || negb (plain_url u) || ContainsControl searchURL
    end
    with "web search requires a resolved HTTP(S) task search endpoint without credentials".

Definition NormalizeV1BaseURL (baseURL : string) : checked string :=
  let refused := inr (ENew "must be an absolute HTTP(S) URL without credentials, escaped path, query, or fragment") in
  match url_Parse baseURL with
  | None => refused
  | Some u =>
      if negb (hosted u) || negb (String.eqb (ul_Opaque u) "") || negb (plain_url u) ||
         negb (String.eqb (ul_RawPath u) "") || ul_ForceQuery u || ContainsByte baseURL "#"
      then refused
      else if negb (String.eqb (ul_Path u) "/v1") && negb (String.eqb (ul_Path u) "/v1/")
      then inr (ENew "path must be exactly /v1")
      else inl (url_String (set_ul_Path "/v1" u))
  end.

Definition ValidateModel (label : string) (model : ModelConfig) : error :=
  (refuse_if negb (String.eqb (mc_Provider model) "deepseek") && negb (OpenAICompatible (mc_Provider model))
     with label +:+ " model provider must be deepseek, sglang, or openai") >>?
  (if OpenAICompatible (mc_Provider model)
   then wrap (label +:+ " " +:+ mc_Provider model +:+ " base URL") (error_of (NormalizeV1BaseURL (mc_BaseURL model)))
   else match url_Parse (mc_BaseURL model) with
        | None => Some (ENew (label +:+ " model base URL must be absolute HTTP(S)"))
        | Some u =>
            (refuse_if negb (hosted u) with label +:+ " model base URL must be absolute HTTP(S)") >>?
            (refuse_if negb (plain_url u) with label +:+ " model base URL must not contain credentials, query, or fragment")
        end) >>?
  (refuse_if String.eqb (TrimSpace (mc_Model model)) "" || ContainsControl (mc_Model model)
     with label +:+ " model ID is invalid") >>?
  (refuse_if negb (ValidEnvironmentName (mc_APIKeyEnv model)) with label +:+ " API-key environment name is invalid").

(** * MCP servers *)

(** [MCPServers]: the task's, then the profile's. *)
Fixpoint task_servers (names : gset string) (task : list MCPServerConfig) : checked (list MCPServerConfig) :=
  match task with
  | [] => inl []
  | server :: task =>
      match ValidateMCPServer (core_URL url_Parse) server with
      | Some e => inr (EWrap "task MCP server" e)
      | None =>
          if decide (mp_Name server ∈ names)
          then inr (ENew ("task MCP server " +:+ quote (mp_Name server) +:+ " has the name of another MCP server"))
          else check_bind (task_servers ({[mp_Name server]} ∪ names) task) (fun out => inl (server :: out))
      end
  end.
Definition MCPServers (task profile : list MCPServerConfig) : checked (list MCPServerConfig) :=
  check_bind (task_servers (list_to_set (map mp_Name profile)) task) (fun out => inl (out ++ profile)).
End URLs.

(** [fmt.Errorf] of a label and an error, without a colon between the two. *)
Definition labelled (label : string) (e : err) : err :=
  match e with
  | ENew text => ENew (label +:+ " " +:+ text)
  | EWrap text e => EWrap (label +:+ " " +:+ text) e
  | e => EWrap label e
  end.

(** * NewRuntime *)

Section NewRuntime.
Context {W : Type} `{!Files W}.
Variable ParseNormalizedNamed : string -> Named + err.

(** The options in effect, with the defaults. *)
Definition DefaultCleanupTimeout : Z := 30 * 10 ^ 9.
Definition DefaultStartTimeout : Z := 45 * 10 ^ 9.
Definition DefaultAgentTimeout : Z := 20 * 60 * 10 ^ 9.
Definition positive_or (value default : Z) : Z := if value <=? 0 then default else value.
Definition NewRuntime (label : string) (options : RuntimeOptions) (lookup : option KeyLookup) (environment : KeyLookup)
    (deployment : bool) : M W (RuntimeOptions + err) :=
  match ValidatePinnedTagOnly ParseNormalizedNamed (ro_Image options) with
  | Some e => ret (inr (EWrap (label +:+ " image") e))
  | None =>
      if String.eqb (TrimSpace (ro_OutputDir options)) ""
      then ret (inr (ENew (label +:+ " output directory is required")))
      else
        let* output := os_Abs (ro_OutputDir options) in
        match output with
        | inr e => ret (inr (EWrap ("resolve " +:+ label +:+ " output directory") e))
        | inl output =>
            let* e := EnsureDirectory output in
            match e with
            | Some e => ret (inr (EWrap ("prepare " +:+ label +:+ " output directory") e))
            | None =>
                if negb deployment then ret (inr (ENew (label +:+ " deployment is required")))
                else
                  ret (inl {| ro_Image := ro_Image options; ro_OutputDir := output;
                              ro_CleanupTimeout := positive_or (ro_CleanupTimeout options) DefaultCleanupTimeout;
                              ro_StartTimeout := positive_or (ro_StartTimeout options) DefaultStartTimeout;
                              ro_AgentTimeout := positive_or (ro_AgentTimeout options) DefaultAgentTimeout;
                              ro_APIKeyLookup := default environment lookup |})
            end
        end
  end.
End NewRuntime.

(** * Scripts and environments *)

Definition QUOTE : string := String "034"%char EmptyString.
Definition lines (l : list string) : string := String.concat "" (map (fun line => line +:+ nl) l).
(** The environment of a server's command: a secret refers to the variable of the runtime. *)
Definition server_environment (server : MCPServerConfig) : gmap string string :=
  ((fun hostVar => "${" +:+ hostVar +:+ "}") <$> mp_SecretEnv server) ∪ mp_Env server.

(** * Endpoints *)

Section EndpointHost.
(** [core.ValidEndpointHost]; [ParseIP] gives the sixteen bytes of [net.ParseIP]. *)
Variable ParseIP : string -> option (list Z).
Definition To4 (ip : list Z) : option (list Z) :=
  if bool_decide (take 12 ip = repeat 0 10 ++ [255; 255]) then Some (drop 12 ip) else None.
Definition ValidEndpointHost (host : string) : bool :=
  match ParseIP host with
  | Some ip =>
      match To4 ip with
      | None => false
      | Some v4 => negb (bool_decide (v4 = [0; 0; 0; 0])) && negb (Z.land (default 0 (head v4)) 240 =? 224)
      end
  | None => negb (String.eqb host "") && (len host <=? 253) && forallb validHostLabel (split_bytes "." (to_bytes host))
  end.
End EndpointHost.
Definition bad_port (port : string) : bool :=
  match Atoi port with inl number => (number <? 1) || (65535 <? number) | inr _ => true end.
Definition set_mc_BaseURL (url : string) (m : ModelConfig) : ModelConfig :=
  {| mc_Provider := mc_Provider m; mc_BaseURL := url; mc_Model := mc_Model m; mc_APIKeyEnv := mc_APIKeyEnv m;
     mc_ReasoningEffort := mc_ReasoningEffort m; mc_ContextLength := mc_ContextLength m;
     mc_MaxTokens := mc_MaxTokens m; mc_Temperature := mc_Temperature m |}.

(** * The servers of an occurrence *)

Definition names_apart (names : gset string) (task : list MCPServerConfig) : Prop :=
  NoDup (map mp_Name task) /\ forall server, server ∈ task -> mp_Name server ∉ names.
Lemma names_apart_cons names server task :
  names_apart names (server :: task) <-> mp_Name server ∉ names /\ names_apart ({[mp_Name server]} ∪ names) task.
Proof.
  unfold names_apart. cbn [map]. rewrite NoDup_cons. split.
  - intros [[Hnew Hnd] Hn]. split_and!; [apply Hn; set_solver|done|]. intros s Hs.
    assert (mp_Name s <> mp_Name server) by (intros He; apply Hnew; rewrite <- He; by apply list_elem_of_fmap_2).
    specialize (Hn s). set_solver.
  - intros (Hs & Hnd & Hn). split_and!; [|done|].
    + intros Hin. apply list_elem_of_fmap in Hin as (s & He & Hin). apply (Hn s Hin). set_solver.
    + intros s [->|Hin]%elem_of_cons; [done|]. specialize (Hn s Hin). set_solver.
Qed.

Section Servers.
Variable url_Parse : string -> option FullURL.
Definition server_ok (server : MCPServerConfig) : Prop := ValidateMCPServer (core_URL url_Parse) server = None.
Lemma task_servers_spec names task :
  match task_servers url_Parse names task with
  | inl out => out = task /\ Forall server_ok task /\ names_apart names task
  | inr _ => ~ (Forall server_ok task /\ names_apart names task)
  end.
Proof.
  revert names. induction task as [|server task IH]; intros names; cbn [task_servers].
  { split_and!; [done|constructor|]. split; [constructor|]. intros ? Hin. by apply not_elem_of_nil in Hin. }
  destruct (ValidateMCPServer _ _) as [e|] eqn:Hv; [intros [Hf _]; apply Forall_cons in Hf as [Hf _]; unfold server_ok in Hf; congruence|].
  destruct (decide _) as [Hin|Hnew]; [rewrite names_apart_cons; intros (_ & Hn & _); done|].
  specialize (IH ({[mp_Name server]} ∪ names)). destruct (task_servers _ _ _) as [out|e]; simpl; rewrite names_apart_cons, Forall_cons.
  - destruct IH as (-> & Hf & Hn). by split_and!.
  - intros ([_ Hf] & _ & Hn). by apply IH.
Qed.
End Servers.

(** The MCP servers of an occurrence are the task's followed by the profile's,
    exactly when every server of the task is well formed, no two of them share a name
    and none takes a name of the profile's; otherwise there is an error and no list. *)
Theorem mcp_servers_exact (url_Parse : string -> option FullURL) (task profile : list MCPServerConfig) :
  match MCPServers url_Parse task profile with
  | inl servers =>
      servers = task ++ profile /\ Forall (server_ok url_Parse) task /\
      NoDup (map mp_Name task) /\ forall server, server ∈ task -> mp_Name server ∉ map mp_Name profile
  | inr _ =>
      ~ (Forall (server_ok url_Parse) task /\
         NoDup (map mp_Name task) /\ forall server, server ∈ task -> mp_Name server ∉ map mp_Name profile)
  end.
Proof.
  unfold MCPServers. pose proof (task_servers_spec url_Parse (list_to_set (map mp_Name profile)) task) as H.
  unfold names_apart in H. destruct (task_servers _ _ _) as [out|e]; simpl.
  - destruct H as (-> & Hf & Hnd & Hn). split_and!; [done..|]. intros s Hs Hin. apply (Hn s Hs). by apply elem_of_list_to_set.
  - intros (Hf & Hnd & Hn). apply H. split_and!; [done..|]. intros s Hs Hin%elem_of_list_to_set. by apply (Hn s Hs).
Qed.
