(* ===== verification/DockerFiles.v ===== *)
(** Files in a Docker container ([pkg/deployment/docker], files.go): stat, the opening of
    one file, and a write that puts the content under a temporary name and renames it into
    place. The stat of a path follows a symbolic link, and asks for the parent when the
    daemon's answer says too little: this recursion and the search for an existing parent
    have fuel, and give [None] when it is used up.

    What a write into a Docker container leaves: the target is replaced by the complete
    content in one rename, or it is left alone and the temporary file is removed. The
    second part shows that the recursion over paths ends when the daemon's link targets are
    resolved. *)

From S2P Require Import Prelude Utf8 Trace Paths Net Core Sandbox Deployments HarnessFiles Docker DockerExec HarnessConfig.

(** * Modes and paths *)

(** [fs.FileMode]: its permission bits, and the bits of the types. *)
Definition ModeDir : Z := 2 ^ 31.
Definition ModeSymlink : Z := 2 ^ 27.
Definition ModeSetuid : Z := 2 ^ 23.
Definition ModeSetgid : Z := 2 ^ 22.
Definition ModeSticky : Z := 2 ^ 20.
(* ModeDir | ModeSymlink | ModeNamedPipe | ModeSocket | ModeDevice | ModeCharDevice | ModeIrregular *)
Definition ModeType : Z := 2 ^ 31 + 2 ^ 27 + 2 ^ 25 + 2 ^ 24 + 2 ^ 26 + 2 ^ 21 + 2 ^ 19.
Definition has_mode (mode bit : Z) : bool := negb (Z.land mode bit =? 0).
Definition mode_IsDir (mode : Z) : bool := has_mode mode ModeDir.
Definition mode_IsRegular (mode : Z) : bool := Z.land mode ModeType =? 0.

(** [tarMode]. *)
Definition tarMode (mode : Z) : Z :=
  Z.lor (Z.lor (Z.lor (Z.land mode 511) (if has_mode mode ModeSetuid then 2048 else 0))
               (if has_mode mode ModeSetgid then 1024 else 0))
        (if has_mode mode ModeSticky then 512 else 0).

(** [path.Dir]: what precedes the last slash, and the slash. *)
Fixpoint drop_component (s : bytes) : bytes :=   (* of the reversed path *)
  match s with
  | c :: rest => if Ascii.eqb c "/" then s else drop_component rest
  | [] => []
  end.
Definition Dir (path : string) : string := Clean (of_bytes (rev (drop_component (rev (to_bytes path))))).

(** [fileOwner]. *)
Definition fileOwner (execUser : string) : Z * Z :=
  match Cut execUser ":" with
  | Some (uid, gid) => match Atoi uid, Atoi gid with inl uid, inl gid => (uid, gid) | _, _ => (0, 0) end
  | None => (0, 0)
  end.

(** * The client *)

(** The archive of a write: one entry, and its content as the caller's reader gives it, up
    to one byte past its size, with the error the reader ends with ([io.EOF] at its end). *)
Record TarEntry := { ta_Name : string; ta_Mode : Z; ta_Size : Z; ta_Uid : Z; ta_Gid : Z }.
Record Content := { ct_bytes : bytes; ct_end : err }.
Class DockerFiles (W : Type) := {
  ContainerStatPath : Ctx -> string -> string -> M W (PathStat + err);
  (* The daemon takes an archive: its error, and that of writing the archive to it
     ([archive/tar] refused the header, or the daemon stopped reading). *)
  CopyEntry : Ctx -> string -> string -> TarEntry -> Content -> bool -> M W (error * error);
  (* [CopyFromContainer] with [tar.Reader.Next]: the entry, or the error of the archive. *)
  CopyFile : Ctx -> string -> string -> M W (PathStat * (bytes * error + err) + err);
  crypto_rand_Read : Z -> M W (bytes + err)
}.

(** [randomID]. *)
Definition random_hex {W} `{!DockerFiles W} (size : Z) : M W (string + err) :=
  let* value := crypto_rand_Read size in
  ret (match value with inl value => inl (of_bytes (hex_encode value)) | inr e => inr e end).
Definition docker_randomID {W} `{!DockerFiles W} : M W (string + err) := random_hex 8.

(** * Stat *)

Section Files.
Context {W : Type} `{!Runtime W} `{!DockerClient W} `{!DockerFiles W}.
Variable Exec : Ctx -> string -> Command -> M W (CommandResult * error).   (* [Manager.Exec] *)
Variable cleanup_timeout : Z.

(** [pathError]: absent, if the runtime is still there. *)
Definition pathError (ctx : Ctx) (id action : string) (e : err) : M W err :=
  let* missing := missingPath ctx id e in
  ret (if missing then EWraps (action +:+ ": ") (ESentinel ErrNotExist) e else EWrap action e).

(** [statPath], with the resolution of the parent as an argument. *)
Definition statPath (resolve : string -> M W (option (string * (PathStat + err)))) (ctx : Ctx) (id name : string) :
    M W (option (PathStat + err)) :=
  let* answer := ContainerStatPath ctx id name in
  match answer with
  | inl stat => ret (Some (inl stat))
  | inr e =>
      let failed := let* e := pathError ctx id "stat Docker path" e in ret (Some (inr e)) in
      if negb (IsNotFound e) && negb (String.eqb name "/") then
        let* parent := resolve (Dir name) in
        match parent with
        | None => ret None
        | Some (_, parent) =>
            if match parent with inl stat => negb (mode_IsDir (ps_Mode stat)) | inr e' => errors_Is e' ErrNotExist end
            then ret (Some (inr (EWraps "stat Docker path: " (ESentinel ErrNotExist) e)))
            else failed
        end
      else failed
  end.
Fixpoint resolvePath (fuel : nat) (ctx : Ctx) (id name : string) : M W (option (string * (PathStat + err))) :=
  match fuel with
  | O => ret None
  | S fuel =>
      let* stat := statPath (resolvePath fuel ctx id) ctx id name in
      match stat with
      | Some (inl stat) =>
          if has_mode (ps_Mode stat) ModeSymlink then
            let name := ps_LinkTarget stat in
            let* stat := statPath (resolvePath fuel ctx id) ctx id name in
            ret ((fun stat => (name, stat)) <$> stat)
          else ret (Some (name, inl stat))
      | stat => ret ((fun stat => (name, stat)) <$> stat)
      end
  end.

Definition StatFile (fuel : nat) (ctx : Ctx) (id name : string) : M W (option (PathStat + err)) :=
  match cleanContainerWorkdir (Clean name) with
  | inr e => ret (Some (inr e))
  | inl clean => let* r := resolvePath fuel ctx id clean in ret (snd <$> r)
  end.

(** [OpenFile]: the stream of a regular file; anything else has an empty one. *)
Definition OpenFile (fuel : nat) (ctx : Ctx) (id name : string) : M W (option ((bytes * error) * PathStat + err)) :=
  match cleanContainerWorkdir (Clean name) with
  | inr e => ret (Some (inr e))
  | inl clean =>
      let* r := resolvePath fuel ctx id clean in
      match r with
      | None => ret None
      | Some (_, inr e) => ret (Some (inr e))
      | Some (target, inl stat) =>
          if negb (mode_IsRegular (ps_Mode stat)) then ret (Some (inl (([], None), stat)))
          else
            let* result := CopyFile ctx id target in
            match result with
            | inr e => let* e := pathError ctx id "read Docker file" e in ret (Some (inr e))
            | inl (stat, archive) =>
                if negb (mode_IsRegular (ps_Mode stat)) then ret (Some (inl (([], None), stat)))
                else ret (Some (match archive with
                                | inl content => inl (content, stat)
                                | inr e => inr (EWrap "read Docker file archive" e)
                                end))
            end
      end
  end.

(** * Write *)

Definition quoted (s : string) : string := QUOTE +:+ s +:+ QUOTE.
Definition writeAccess : string :=
  "umask 022; [ -w " +:+ quoted "$1" +:+ " ] && [ -x " +:+ quoted "$1" +:+ " ] || exit 77; mkdir -p -- " +:+ quoted "$2" +:+
  " || exit 1; [ ! -e " +:+ quoted "$3" +:+ " ] || [ -w " +:+ quoted "$3" +:+ " ] || exit 77".
Definition renameScript : string :=
  "mv -f -- " +:+ quoted "$1" +:+ " " +:+ quoted "$2" +:+ " || { rm -f -- " +:+ quoted "$1" +:+ "; exit 1; }".
Definition writeRefused : Z := 77.
Definition file_command (path : string) (args : list string) (execUser : string) (timeout : Z) : Command :=
  {| cm_Path := path; cm_Args := args; cm_Dir := ""; cm_Env := ∅; cm_Stdin := []; cm_Timeout := timeout;
     cm_User := execUser; cm_OutputLimitBytes := 0 |}.
Definition access_command (base directory target execUser : string) : Command :=
  file_command "/bin/sh" ["-c"; writeAccess; "aries-write"; base; directory; target]%string execUser (cleanupTimeout cleanup_timeout).
Definition rename_command (temporary target execUser : string) : Command :=
  file_command "/bin/sh" ["-c"; renameScript; "aries-write"; temporary; target]%string execUser 0.
Definition remove_command (temporary execUser : string) : Command :=
  file_command "/bin/rm" ["-f"; "--"; temporary]%string execUser 0.

(** [removeTemporary], then the failure. *)
Definition abandon_write (id temporary execUser : string) (e : err) : M W (option (bool * error)) :=
  let* _ := Exec (WithTimeout Background (cleanupTimeout cleanup_timeout)) id (remove_command temporary execUser) in
  ret (Some (false, Some e)).

(** The nearest existing directory, and the components that are missing below it. *)
Fixpoint find_base (fuel statFuel : nat) (ctx : Ctx) (id base : string) (missing : list string) :
    M W (option (string * list string + err)) :=
  match fuel with
  | O => ret None
  | S fuel =>
      let* r := resolvePath statFuel ctx id base in
      match r with
      | None => ret None
      | Some (resolved, inl stat) =>
          ret (Some (if mode_IsDir (ps_Mode stat) then inl (resolved, missing) else inr (ESentinel ENOTDIR)))
      | Some (_, inr e) =>
          if errors_Is e ErrNotExist then find_base fuel statFuel ctx id (Dir base) (Base base :: missing)
          else ret (Some (inr e))
      end
  end.

(** The error of the goroutine that writes the archive: [broken] is that of writing to it. *)
Definition archive_error (broken : error) (content : Content) (size : Z) : error :=
  let have := Z.of_nat (length (ct_bytes content)) in
  match broken with
  | Some e => Some e
  | None =>
      if have <? size then Some (ct_end content)
      else if size <? have then Some (ENew "content is longer than its size")
      else if errors_Is (ct_end content) ErrEOF then None
      else Some (ct_end content)
  end.
Definition entry_of (temporary execUser : string) (mode size : Z) : TarEntry :=
  {| ta_Name := Base temporary; ta_Mode := mode; ta_Size := size; ta_Uid := (fileOwner execUser).1; ta_Gid := (fileOwner execUser).2 |}.

(** The content under a temporary name, and its renaming. *)
Definition exit_failure (what : string) (result : CommandResult) : err :=
  ENew (what +:+ ": exit " +:+ itoa (cr_ExitCode result) +:+ ": " +:+ TrimSpace (cr_Stderr result)).
Definition rename_into (ctx : Ctx) (id temporary target execUser : string) (created : bool) : M W (option (bool * error)) :=
  let* (result, e) := Exec (WithTimeout (WithoutCancel ctx) (cleanupTimeout cleanup_timeout)) id
                        (rename_command temporary target execUser) in
  match e with
  | Some e => abandon_write id temporary execUser (EWrap "rename Docker file into place" e)
  | None =>
      if negb (cr_ExitCode result =? 0)
      then abandon_write id temporary execUser (exit_failure "rename Docker file into place" result)
      else ret (Some (created, None))
  end.
Definition write_temporary (ctx : Ctx) (id directory temporary target execUser : string) (mode size : Z)
    (content : Content) (created : bool) : M W (option (bool * error)) :=
  let* (copyErr, broken) := CopyEntry ctx id directory (entry_of temporary execUser mode size) content (String.eqb execUser "") in
  let copyErr := errors_Join [copyErr; archive_error broken content size] in
  let* canceled := ctx_Err ctx in
  match canceled with
  | Some s => abandon_write id temporary execUser (ESentinel s)
  | None =>
      match copyErr with
      | Some e => abandon_write id temporary execUser (EWrap "write Docker file" e)
      | None => rename_into ctx id temporary target execUser created
      end
  end.

(** [WriteFile] once the parent is known. *)
Definition write_below (ctx : Ctx) (id base : string) (missing : list string) (target execUser : string) (mode size : Z)
    (content : Content) (created : bool) : M W (option (bool * error)) :=
  let failed e : M W (option (bool * error)) := ret (Some (false, Some e)) in
  let directory := Join (base :: missing) in
  let* (access, e) := Exec ctx id (access_command base directory target execUser) in
  match e with
  | Some e => failed (EWrap "prepare Docker file directory" e)
  | None =>
      if cr_ExitCode access =? writeRefused then failed (ESentinel ErrPermission)
      else if negb (cr_ExitCode access =? 0) then failed (exit_failure "prepare Docker file directory" access)
      else
        let* token := docker_randomID in
        match token with
        | inr e => failed (EWrap "generate Docker write name" e)
        | inl token =>
            write_temporary ctx id directory (Join [directory; ".aries-tmp-" +:+ token]%string) target execUser mode size
              content created
        end
  end.
Definition WriteFile (fuel : nat) (ctx : Ctx) (id name : string) (content : Content) (size : Z) (execUser : string) :
    M W (option (bool * error)) :=
  let failed e : M W (option (bool * error)) := ret (Some (false, Some e)) in
  match cleanContainerWorkdir (Clean name) with
  | inr e => failed e
  | inl clean =>
      let* r := resolvePath fuel ctx id clean in
      match r with
      | None => ret None
      | Some (target, stat) =>
          let below (mode : Z) (created : bool) :=
            let* r := find_base fuel fuel ctx id (Dir target) [] in
            match r with
            | None => ret None
            | Some (inr e) => failed e
            | Some (inl (base, missing)) => write_below ctx id base missing target execUser mode size content created
            end in
          match stat with
          | inl stat => if mode_IsDir (ps_Mode stat) then failed (ESentinel EISDIR) else below (tarMode (ps_Mode stat)) false
          | inr e => if errors_Is e ErrNotExist then below 420 true else failed e
          end
      end
  end.
End Files.

(** * Traces *)

Inductive file_event :=
  | FStat (id path : string) (answer : PathStat + err)
  | FExec (id : string) (ctx : Ctx) (command : Command) (answer : CommandResult * error)
  | FCopy (id directory : string) (entry : TarEntry) (content : Content) (own : bool) (answer : error * error)
  | FErr (ctx : Ctx) (answer : option sentinel).
#[export] Instance traced_files {W} `{!DockerFiles W} : DockerFiles (W * list file_event) := {|
  ContainerStatPath ctx id path := logged (FStat id path) (ContainerStatPath ctx id path);
  CopyEntry ctx id path entry content own := logged (FCopy id path entry content own) (CopyEntry ctx id path entry content own);
  CopyFile ctx id path := silent (CopyFile ctx id path);
  crypto_rand_Read n := silent (crypto_rand_Read n)
|}.
#[export] Instance traced_contexts {W} `{!Runtime W} : Runtime (W * list file_event) | 0 :=
  {| time_Now := silent time_Now; ctx_Err ctx := logged (FErr ctx) (ctx_Err ctx) |}.
#[export] Instance silent_docker {W E} `{!DockerClient W} : DockerClient (W * list E) | 5 := {|
  ContainerCreate ctx options := silent (ContainerCreate ctx options);
  ContainerInspect ctx reference := silent (ContainerInspect ctx reference);
  ContainerStart ctx id := silent (ContainerStart ctx id);
  ContainerStop ctx id timeout := silent (ContainerStop ctx id timeout);
  ContainerKill ctx id signal := silent (ContainerKill ctx id signal);
  ContainerRemove ctx id force volumes := silent (ContainerRemove ctx id force volumes);
  ContainerLogs ctx id := silent (ContainerLogs ctx id);
  CopyToContainer ctx id path content own := silent (CopyToContainer ctx id path content own);
  CopyFromContainer ctx id path := silent (CopyFromContainer ctx id path)
|}.

(** * What a write leaves *)

(** The content ends where its size says. *)
Definition complete (content : Content) (size : Z) : Prop :=
  Z.of_nat (length (ct_bytes content)) = size /\ errors_Is (ct_end content) ErrEOF = true.
Definition command_failed (answer : CommandResult * error) : Prop := answer.2 <> None \/ cr_ExitCode answer.1 <> 0.
Definition command_succeeded (answer : CommandResult * error) : Prop := answer.2 = None /\ cr_ExitCode answer.1 = 0.

(** The commands of a write: the check of the access, the renaming, the removal. *)
Definition sh_runs (script : string) (args : list string) (execUser : string) (c : Command) : Prop :=
  cm_Path c = "/bin/sh"%string /\ cm_Args c = ["-c"%string; script; "aries-write"%string] ++ args /\ cm_User c = execUser.
Definition checks_access (directory target execUser : string) (c : Command) : Prop :=
  exists base, sh_runs writeAccess [base; directory; target] execUser c.
Definition moves (temporary target execUser : string) (c : Command) : Prop := sh_runs renameScript [temporary; target] execUser c.
Definition removes (temporary execUser : string) (c : Command) : Prop :=
  cm_Path c = "/bin/rm"%string /\ cm_Args c = ["-f"; "--"; temporary]%string /\ cm_User c = execUser.

(** The stats of this container, the file a path names by the answer to its stat, and the
    permissions that the file gets: its own, or 0644. *)
Definition look (id : string) (ev : file_event) : Prop := exists path answer, ev = FStat id path answer.
Definition named_by (path : string) (answer : PathStat + err) : string :=
  match answer with inl stat => if has_mode (ps_Mode stat) ModeSymlink then ps_LinkTarget stat else path | inr _ => path end.
Definition permissions (id target : string) (looks : list file_event) (created : bool) (mode : Z) : Prop :=
  if created then mode = 420 /\ exists e, FStat id target (inr e) ∈ looks
  else exists stat, FStat id target (inl stat) ∈ looks /\ Z.land mode 511 = Z.land (ps_Mode stat) 511.
Definition entry_for (temporary execUser : string) (size : Z) (entry : TarEntry) : Prop :=
  ta_Name entry = Base temporary /\ ta_Size entry = size /\ (ta_Uid entry, ta_Gid entry) = fileOwner execUser.

(** The calls of a write that ends with [r]: nothing but the check of the access; or the
    content under a temporary name, then perhaps a rename onto the target, and without its
    success the removal of the temporary file. *)
Section Calls.
Variables (ctx : Ctx) (id execUser : string) (content : Content) (size : Z) (target : string) (looks : list file_event).
Definition staged (directory temporary : string) (created : bool) (answer : error * error) (evs : list file_event) : Prop :=
  exists token access granted entry,
    temporary = Join [directory; ".aries-tmp-" +:+ token]%string /\
    checks_access directory target execUser access /\ command_succeeded granted /\
    entry_for temporary execUser size entry /\ permissions id target looks created (ta_Mode entry) /\
    evs = [FExec id ctx access granted; FCopy id directory entry content (String.eqb execUser "") answer].
Inductive write_calls : option (bool * error) -> list file_event -> Prop :=
  | WriteNothing r directory access answer :
      (forall created, r <> Some (created, None)) -> checks_access directory target execUser access ->
      write_calls r [FExec id ctx access answer]
  | WriteAbandoned e directory temporary created answer canceled c remove removed evs :
      staged directory temporary created answer evs -> removes temporary execUser remove ->
      (canceled <> None \/ answer <> (None, None) \/ ~ complete content size) ->
      write_calls (Some (false, Some e)) (evs ++ [FErr ctx canceled; FExec id c remove removed])
  | WriteNotRenamed e directory temporary created c c' move answer remove removed evs :
      staged directory temporary created (None, None) evs -> moves temporary target execUser move ->
      removes temporary execUser remove -> complete content size -> command_failed answer ->
      write_calls (Some (false, Some e)) (evs ++ [FErr ctx None; FExec id c move answer; FExec id c' remove removed])
  | WriteRenamed created directory temporary c move answer evs :
      staged directory temporary created (None, None) evs -> moves temporary target execUser move ->
      complete content size -> command_succeeded answer ->
      write_calls (Some (created, None)) (evs ++ [FErr ctx None; FExec id c move answer]).
End Calls.
Definition write_outcome (ctx : Ctx) (id name execUser : string) (content : Content) (size : Z) (r : option (bool * error))
    (evs : list file_event) : Prop :=
  exists looks calls, evs = looks ++ calls /\ Forall (look id) looks /\
    ((calls = [] /\ forall created, r <> Some (created, None)) \/
     exists answer, head looks = Some (FStat id (Clean name) answer) /\
       write_calls ctx id execUser content size (named_by (Clean name) answer) looks r calls).

Section Write.
Context {W : Type} `{!Runtime W} `{!DockerClient W} `{!DockerFiles W}.
Variable Exec : Ctx -> string -> Command -> M W (CommandResult * error).
Variable timeout : Z.
Abbreviation T := (W * list file_event)%type.
Definition TExec (ctx : Ctx) (id : string) (command : Command) : M T (CommandResult * error) :=
  logged (FExec id ctx command) (Exec ctx id command).

(** Following a path looks at this container only, first at the path itself. *)
Definition found (id name : string) (r : option (string * (PathStat + err))) (evs : list file_event) : Prop :=
  Forall (look id) evs /\
  match r with
  | Some (target, stat) => exists answer rest, evs = FStat id name answer :: rest /\ target = named_by name answer /\
      match stat with inl stat => FStat id target (inl stat) ∈ evs | inr _ => exists e, FStat id target (inr e) ∈ evs end
  | None => True
  end.
Definition looked (id : string) {A} : A -> list file_event -> Prop := fun _ evs => Forall (look id) evs.
Lemma missingPath_quiet ctx id e : emits (missingPath (W := T) ctx id e) (fun _ evs => evs = []).
Proof. unfold missingPath. destruct (negb _); [by apply emits_ret|]. apply emits_read. intros a. by apply emits_ret. Qed.
Lemma pathError_quiet ctx id action e : emits (pathError (W := T) ctx id action e) (fun _ evs => evs = []).
Proof. eapply emits_bind; [apply missingPath_quiet|]. intros a evs ->. by apply emits_ret. Qed.
Lemma statPath_looks resolve ctx id name :
  (forall name, emits (resolve name) (looked id)) ->
  emits (statPath (W := T) resolve ctx id name) (fun r evs => exists answer rest, evs = FStat id name answer :: rest /\
    Forall (look id) rest /\ match r, answer with Some (inl stat), answer => answer = inl stat | Some (inr _), inl _ => False | _, _ => True end).
Proof.
  intros Hr. unfold statPath. apply emits_call. intros [stat|e]; [apply emits_ret; by do 2 eexists|]. cbv zeta.
  assert (forall rest, Forall (look id) rest -> emits (let* e := pathError (W := T) ctx id "stat Docker path" e in ret (Some (@inr PathStat err e)))
    (fun r evs => exists answer rest', FStat id name (inr e) :: rest ++ evs = FStat id name answer :: rest' /\ Forall (look id) rest' /\
       match r, answer with Some (inl stat), answer => answer = inl stat | Some (inr _), inl _ => False | _, _ => True end)) as Hf.
  { intros rest Hrest. eapply emits_bind; [apply pathError_quiet|]. intros e' evs ->. apply emits_ret. rewrite !app_nil_r. by do 2 eexists. }
  destruct (_ && _); [|by apply (Hf [])]. eapply emits_bind; [apply Hr|]. intros [[? parent]|] evs Hl;
    [|apply emits_ret; rewrite app_nil_r; by do 2 eexists].
  destruct (match parent with inl _ => _ | inr _ => _ end); [apply emits_ret; rewrite app_nil_r; by do 2 eexists|by apply Hf].
Qed.
Lemma look_stat id path answer rest : Forall (look id) rest -> Forall (look id) (FStat id path answer :: rest).
Proof. intros H. constructor; [by do 2 eexists|done]. Qed.
Lemma resolvePath_found fuel ctx id name : emits (resolvePath (W := T) fuel ctx id name) (found id name).
Proof.
  revert name. induction fuel as [|fuel IH]; intros name; [apply emits_ret; by split; [constructor|]|]. simpl.
  assert (forall name, emits (resolvePath (W := T) fuel ctx id name) (looked id)) as Hl.
  { intros n. eapply emits_mono; [apply IH|]. by intros r evs [? _]. }
  eapply emits_bind; [by apply statPath_looks|]. intros r evs (answer & rest & -> & Hrest & Ha).
  destruct r as [[stat|e]|].
  - subst answer. destruct (has_mode (ps_Mode stat) ModeSymlink) eqn:Hm.
    + eapply emits_bind; [by apply statPath_looks|]. intros r evs (answer & rest' & -> & Hrest' & Ha). apply emits_ret. rewrite app_nil_r.
      split; [apply (look_stat id name _ (rest ++ _)), Forall_app; split; [done|by apply look_stat]|].
      destruct r as [[stat'|e]|]; simpl; [| |done]; eexists _, _; (split_and!; [done|unfold named_by; by rewrite Hm|]).
      * subst answer. right. apply elem_of_app. right. by left.
      * destruct answer as [?|e']; [done|]. exists e'. right. apply elem_of_app. right. by left.
    + apply emits_ret. rewrite app_nil_r. split; [by apply look_stat|]. eexists _, _. split_and!; [done|unfold named_by; by rewrite Hm|by left].
  - destruct answer as [?|e']; [done|]. apply emits_ret. rewrite app_nil_r. split; [by apply look_stat|]. simpl.
    eexists _, _. split_and!; [done|done|]. exists e'. by left.
  - apply emits_ret. rewrite app_nil_r. split; [by apply look_stat|done].
Qed.
Lemma find_base_looked fuel statFuel ctx id base missing :
  emits (find_base (W := T) fuel statFuel ctx id base missing) (looked id).
Proof.
  revert base missing. induction fuel as [|fuel IH]; intros base missing; [apply emits_ret; constructor|]. simpl.
  eapply emits_bind; [apply resolvePath_found|]. intros r evs [Hl _].
  assert (forall (a : option (string * list string + err)), emits (W := W) (ret a) (fun _ evs' => Forall (look id) (evs ++ evs'))) as Hret
    by (intros a; apply emits_ret; by rewrite app_nil_r).
  destruct r as [[resolved [stat|e]]|]; [apply Hret| |apply Hret].
  destruct (errors_Is _ _); [|apply Hret]. eapply emits_mono; [apply IH|]. intros a evs' H. by apply Forall_app.
Qed.

Lemma archive_error_none broken content size :
  archive_error broken content size = None <-> broken = None /\ complete content size.
Proof.
  unfold archive_error, complete. destruct broken as [e|]; [naive_solver|].
  destruct (Z.ltb_spec (Z.of_nat (length (ct_bytes content))) size); [naive_solver lia|].
  destruct (Z.ltb_spec size (Z.of_nat (length (ct_bytes content)))); [naive_solver lia|].
  destruct (errors_Is _ _); naive_solver lia.
Qed.
Lemma copy_failure copyErr broken content size :
  errors_Join [copyErr; archive_error broken content size] = None <-> copyErr = None /\ broken = None /\ complete content size.
Proof.
  rewrite errors_Join_nil_iff, !Forall_cons, Forall_nil, archive_error_none. naive_solver.
Qed.

Lemma rename_into_calls ctx id directory temporary target execUser size content created looks evs :
  staged ctx id execUser content size target looks directory temporary created (None, None) evs -> complete content size ->
  emits (rename_into TExec timeout ctx id temporary target execUser created) (fun r evs' =>
    write_calls ctx id execUser content size target looks r (evs ++ FErr ctx None :: evs')).
Proof.
  intros Hs Hc. unfold rename_into, abandon_write.
  apply emits_call. intros [result e].
  destruct e as [e|].
  - apply emits_call. intros removed. apply emits_ret.
    eapply WriteNotRenamed; [exact Hs|by repeat split|by repeat split|done|by left].
  - destruct (Z.eqb_spec (cr_ExitCode result) 0) as [H0|H0]; cbn [negb].
    + apply emits_ret. eapply WriteRenamed; [exact Hs|by repeat split|done|by split].
    + apply emits_call. intros removed. apply emits_ret.
      eapply WriteNotRenamed; [exact Hs|by repeat split|by repeat split|done|by right].
Qed.
Lemma write_temporary_calls ctx id directory token target execUser mode size content created looks access granted :
  let temporary := Join [directory; ".aries-tmp-" +:+ token]%string in
  checks_access directory target execUser access -> command_succeeded granted -> permissions id target looks created mode ->
  emits (write_temporary TExec timeout ctx id directory temporary target execUser mode size content created) (fun r evs =>
    write_calls ctx id execUser content size target looks r (FExec id ctx access granted :: evs)).
Proof.
  intros temporary Ha Hg Hm. unfold write_temporary, abandon_write. apply emits_call. intros answer.
  assert (staged ctx id execUser content size target looks directory temporary created answer
    [FExec id ctx access granted; FCopy id directory (entry_of temporary execUser mode size) content (String.eqb execUser "") answer]) as Hs.
  { exists token, access, granted, (entry_of temporary execUser mode size). split_and!; try done. split_and!; try done.
    cbn. by destruct (fileOwner execUser). }
  destruct answer as [copyErr broken]. cbv zeta. apply emits_call. intros [s|].
  - apply emits_call. intros removed. apply emits_ret. eapply (WriteAbandoned _ _ _ _ _ _ _ _ _ _ _ _ _ _ _ _ [_; _]); [exact Hs|by repeat split|by left].
  - destruct (errors_Join _) as [e|] eqn:Hj.
    + apply emits_call. intros removed. apply emits_ret.
      eapply (WriteAbandoned _ _ _ _ _ _ _ _ _ _ _ _ _ _ _ _ [_; _]); [exact Hs|by repeat split|right].
      destruct copyErr as [?|]; [by left|]. destruct broken as [?|]; [by left|]. right. intros Hc.
      by rewrite (proj2 (copy_failure _ _ _ _) (conj eq_refl (conj eq_refl Hc))) in Hj.
    + apply copy_failure in Hj as (-> & -> & Hc). eapply emits_mono; [by eapply rename_into_calls|]. by intros r evs H.
Qed.
Lemma tarMode_permissions mode : Z.land (tarMode mode) 511 = Z.land mode 511.
Proof.
  unfold tarMode. rewrite !Z.land_lor_distr_l.
  assert (Z.land (Z.land mode 511) 511 = Z.land mode 511) as -> by (by rewrite <- Z.land_assoc).
  by destruct (has_mode mode ModeSetuid), (has_mode mode ModeSetgid), (has_mode mode ModeSticky); rewrite ?Z.lor_0_r.
Qed.
Lemma write_below_outcome fuel ctx id name target execUser mode size content created answer looks :
  Forall (look id) looks -> head looks = Some (FStat id (Clean name) answer) -> target = named_by (Clean name) answer ->
  permissions id target looks created mode ->
  emits (let* r := find_base (W := T) fuel fuel ctx id (Dir target) [] in
         match r with
         | None => ret None
         | Some (inr e) => ret (Some (false, Some e))
         | Some (inl (base, missing)) => write_below TExec timeout ctx id base missing target execUser mode size content created
         end) (fun r evs => write_outcome ctx id name execUser content size r (looks ++ evs)).
Proof.
  intros Hl Hh -> Hp. eapply emits_bind; [apply find_base_looked|]. intros r more Hmore. unfold looked in Hmore.
  assert (Forall (look id) (looks ++ more)) as Hall by (by apply Forall_app).
  assert (permissions id (named_by (Clean name) answer) (looks ++ more) created mode) as Hp'.
  { unfold permissions in *. destruct created; [destruct Hp as (H & e & He)|destruct Hp as (stat & He & H)]; [split; [done|]|];
      eexists; (split; [|done]) || idtac; apply elem_of_app; by left. }
  assert (head (looks ++ more) = Some (FStat id (Clean name) answer)) as Hh' by (by destruct looks).
  assert (forall e, write_outcome ctx id name execUser content size e (looks ++ more ++ []) \/ (exists created, e = Some (created, None))) as Hnone.
  { intros e. destruct e as [[b [e|]]|]; [left|right; by eexists|left]; exists (looks ++ more), []; rewrite !app_nil_r;
      (split_and!; [done|done|by left]). }
  destruct r as [[[base missing]|e]|]; [|apply emits_ret; by destruct (Hnone (Some (false, Some e))) as [?|[? ?]]|
    apply emits_ret; by destruct (Hnone None) as [?|[? ?]]].
  unfold write_below. cbv zeta. apply emits_call. intros [access e].
  set (command := access_command timeout base _ _ execUser).
  assert (checks_access (Join (base :: missing)) (named_by (Clean name) answer) execUser command) as Hca by (exists base; by repeat split).
  assert (forall r calls, write_calls ctx id execUser content size (named_by (Clean name) answer) (looks ++ more) r calls ->
    write_outcome ctx id name execUser content size r (looks ++ more ++ calls)) as Hcalls.
  { intros r calls H. exists (looks ++ more), calls. rewrite app_assoc. split_and!; [done|done|]. right. by exists answer. }
  assert (forall e', write_outcome ctx id name execUser content size (Some (false, Some e')) (looks ++ more ++ [FExec id ctx command (access, e)])) as Hone
    by (intros e'; apply Hcalls; by eapply WriteNothing).
  destruct e as [e|]; [by apply emits_ret|]. destruct (_ =? _); [by apply emits_ret|].
  destruct (Z.eqb_spec (cr_ExitCode access) 0) as [H0|]; cbn [negb]; [|by apply emits_ret].
  unfold docker_randomID, random_hex. apply emits_flatten, emits_read. intros token. apply emits_bind_ret.
  destruct token as [token|e]; [|by apply emits_ret].
  eapply emits_mono; [apply (write_temporary_calls _ _ _ _ _ _ _ _ _ _ (looks ++ more) _ (access, None) Hca); [by split|exact Hp']|].
  intros r evs H. by apply Hcalls in H.
Qed.

(** C8. A write into a container looks only at this container, first at the path that it was
    given, and changes at most the file that this path names (the target of a link, else the
    path itself). It tells success only when the user of the agent's shell may write there,
    the whole content, as long as its size says, has been taken by the daemon under a
    temporary name with the permissions to keep, the caller had not given up by then, and one
    rename of that name onto the file succeeded. Every other write fails, and then either at
    most the access was checked, or the temporary file is removed by the last call, after no
    rename or after one that failed; an incomplete content is never renamed. *)
Theorem docker_write_atomic (fuel : nat) (ctx : Ctx) (id name : string) (content : Content) (size : Z) (execUser : string) :
  emits (WriteFile TExec timeout fuel ctx id name content size execUser) (write_outcome ctx id name execUser content size).
Proof.
  assert (forall looks e, Forall (look id) looks -> write_outcome ctx id name execUser content size (Some (false, Some e)) looks) as Hfail
    by (intros looks e Hl; exists looks, []; rewrite app_nil_r; split_and!; [done|done|by left]).
  unfold WriteFile. destruct (cleanContainerWorkdir _) as [clean|e] eqn:Hclean; [|apply emits_ret, Hfail; constructor].
  apply cleanContainerWorkdir_same in Hclean as ->.
  eapply emits_bind; [apply resolvePath_found|]. intros r looks [Hl Hr].
  destruct r as [[target stat]|].
  2: { apply emits_ret. exists looks, []. rewrite !app_nil_r. split_and!; [done|done|by left]. }
  destruct Hr as (answer & rest & Hhead & Htarget & Hstat). cbv zeta.
  assert (head looks = Some (FStat id (Clean name) answer)) as Hh by (by rewrite Hhead).
  destruct stat as [stat|e].
  - destruct (mode_IsDir _); [apply emits_ret; rewrite app_nil_r; by apply Hfail|].
    eapply write_below_outcome; [done..|]. exists stat. split; [done|apply tarMode_permissions].
  - destruct (errors_Is e ErrNotExist); [|apply emits_ret; rewrite app_nil_r; by apply Hfail].
    by eapply write_below_outcome.
Qed.
End Write.

(** * The recursion over paths ends *)

Lemma clean_components_app stack a b :
  clean_components true stack (a ++ b) = clean_components true (clean_components true stack a) b.
Proof. revert stack. induction a as [|part a IH]; intros stack; [done|]. cbn [app clean_components]. by rewrite IH. Qed.
Lemma drop_component_last (a c : bytes) : "/"%char ∉ c -> drop_component (rev (a ++ "/"%char :: c)) = "/"%char :: rev a.
Proof.
  intros Hc. rewrite rev_app_distr. simpl rev. rewrite <- app_assoc. cbn [app].
  assert ("/"%char ∉ rev c) as Hr
    by (intros H; apply Hc; apply list_elem_of_In, in_rev, list_elem_of_In; exact H).
  revert Hr. induction (rev c) as [|x l IH]; intros Hr; [reflexivity|].
  apply not_elem_of_cons in Hr as [Hx Hl]. cbn [app drop_component]. rewrite (proj2 (Ascii.eqb_neq x "/")) by congruence. by apply IH.
Qed.
(** The parent of a clean path other than the root is a shorter clean path. *)
Lemma Dir_up p : clean_path p -> p <> "/"%string -> clean_path (Dir p) /\ (String.length (Dir p) < String.length p)%nat.
Proof.
  intros [->|(components & Hne & Hall & Hp)] Hroot; [done|].
  destruct components as [|c init _] using rev_ind; [done|]. clear Hne.
  apply Forall_app in Hall as [Hinit Hc]. apply Forall_singleton in Hc as (Hc1 & _ & _ & Hc4).
  rewrite map_app, concat_app in Hp. simpl in Hp. rewrite app_nil_r in Hp.
  assert (to_bytes (Dir p) = "/"%char :: join_bytes "/" init) as Hd.
  { unfold Dir. rewrite Hp, drop_component_last by done. cbn [rev]. rewrite rev_involutive.
    assert (concat (map (cons "/"%char) init) ++ ["/"%char] = "/"%char :: join_bytes "/" (init ++ [[]])) as ->.
    { rewrite join_components by (by destruct init). rewrite map_app, concat_app. reflexivity. }
    rewrite (Clean_rooted _ (join_bytes "/" (init ++ [[]]))) by apply to_of_bytes. rewrite split_join.
    - rewrite clean_components_app, (clean_components_id [] init Hinit), app_nil_r. cbn [clean_components].
      rewrite bool_decide_eq_true_2 by done. cbn [orb]. by rewrite rev_involutive.
    - by destruct init.
    - apply Forall_app. split; [|by apply Forall_singleton, not_elem_of_nil].
      eapply Forall_impl; [exact Hinit|]. by intros component (_ & _ & _ & ?). }
  assert (forall s, String.length s = length (to_bytes s)) as Hlen
    by (intros s; pose proof (len_to_bytes s) as H; unfold len in H; lia).
  rewrite !Hlen, Hd, Hp, length_app. destruct init as [|i init].
  - split; [left; apply to_bytes_inj; by rewrite Hd|]. destruct c; simpl; [done|lia].
  - split; [right; exists (i :: init); split_and!; [done|done|by rewrite Hd, join_components]|].
    rewrite join_components by done. simpl. lia.
Qed.

(** What the daemon says of paths: the target of a link is a clean path of at most [N] bytes
    none of whose components is a link, and a running container has a root. *)
Class DaemonPaths (W : Type) `{!DockerClient W} `{!DockerFiles W} (N : nat) (resolved : string -> Prop) : Prop := {
  law_target ctx id name : gives (ContainerStatPath (W := W) ctx id name) (fun r =>
    match r with
    | inl stat => has_mode (ps_Mode stat) ModeSymlink = true ->
        resolved (ps_LinkTarget stat) /\ clean_path (ps_LinkTarget stat) /\ (String.length (ps_LinkTarget stat) <= N)%nat
    | inr _ => True
    end);
  law_resolved ctx id name : resolved name -> gives (ContainerStatPath (W := W) ctx id name) (fun r =>
    match r with inl stat => has_mode (ps_Mode stat) ModeSymlink = false | inr _ => True end);
  law_up name : resolved name -> resolved (Dir name);
  law_root ctx id w : match ContainerStatPath ctx id "/" w with
    | (inl stat, _) => has_mode (ps_Mode stat) ModeSymlink = false
    | (inr e, w') => errors_Is e ErrNotExist = false /\ (IsNotFound e = true -> exists e', (ContainerInspect ctx id w').1 = inr e')
    end
}.

Section Ends.
Context {W : Type} `{!Runtime W} `{!DockerClient W} `{!DockerFiles W} (N : nat) (resolved : string -> Prop).
Context {Laws : DaemonPaths W N resolved}.

Lemma statPath_some resolve ctx id name :
  (name <> "/"%string -> gives (resolve (Dir name)) is_Some) ->
  gives (statPath (W := W) resolve ctx id name) is_Some.
Proof.
  intros Hr. unfold statPath. apply gives_bind. intros [stat|e]; [by apply gives_ret|]. cbv zeta.
  assert (gives (let* e := pathError (W := W) ctx id "stat Docker path" e in ret (Some (@inr PathStat err e))) is_Some) as Hf
    by (apply gives_bind; intros a; by apply gives_ret).
  destruct (negb (IsNotFound e)), (String.eqb_spec name "/") as [|Hn]; simpl; try done.
  eapply gives_bind_such; [by apply Hr|]. intros a [[? parent] ->].
  destruct (match parent with inl _ => _ | inr _ => _ end); [by apply gives_ret|done].
Qed.
(** The links that a stat shows. *)
Lemma statPath_target resolve ctx id name :
  gives (statPath (W := W) resolve ctx id name) (fun r =>
    match r with
    | Some (inl stat) => has_mode (ps_Mode stat) ModeSymlink = true ->
        resolved (ps_LinkTarget stat) /\ clean_path (ps_LinkTarget stat) /\ (String.length (ps_LinkTarget stat) <= N)%nat /\
        ~ resolved name
    | _ => True
    end).
Proof.
  intros w. pose proof (law_target ctx id name w) as Ht. pose proof (law_resolved ctx id name) as Hres.
  unfold statPath, bind. specialize (Hres). destruct (ContainerStatPath ctx id name w) as [[stat|e] w'] eqn:E; simpl in *.
  - intros Hm. destruct (Ht Hm) as (H1 & H2 & H3). split_and!; try done. intros Hr. specialize (Hres Hr w). rewrite E in Hres.
    simpl in Hres. by rewrite Hm in Hres.
  - destruct (_ && _); [|unfold bind; by destruct (pathError _ _ _ _ _)].
    destruct (resolve (Dir name) w') as [[[? parent]|] w2]; [|done].
    destruct (match parent with inl _ => _ | inr _ => _ end); [done|]. by destruct (pathError _ _ _ _ _).
Qed.

Lemma resolvePath_some_resolved fuel ctx id name :
  clean_path name -> resolved name -> (String.length name < fuel)%nat -> gives (resolvePath (W := W) fuel ctx id name) is_Some.
Proof.
  revert name. induction fuel as [|fuel IH]; intros name Hc Hr Hf; [lia|]. simpl.
  assert (gives (statPath (W := W) (resolvePath fuel ctx id) ctx id name) is_Some) as Hs.
  { apply statPath_some. intros Hn. destruct (Dir_up name Hc Hn) as [Hc' Hl]. apply IH; [done|by eapply law_up|lia]. }
  intros w. unfold bind at 1. specialize (Hs w). pose proof (statPath_target (resolvePath fuel ctx id) ctx id name w) as Ht.
  destruct (statPath _ _ _ _ w) as [r w']. destruct Hs as [[stat|e] Hs]; simpl in Hs; subst r; [|by eexists].
  simpl in Ht. destruct (has_mode _ _); [|by eexists]. by destruct (Ht eq_refl) as (_ & _ & _ & []).
Qed.
Lemma resolvePath_some fuel ctx id name :
  clean_path name -> (String.length name + N + 1 < fuel)%nat ->
  gives (resolvePath (W := W) fuel ctx id name) (fun r => exists target stat, r = Some (target, stat) /\
    clean_path target /\ (String.length target <= String.length name + N)%nat).
Proof.
  revert name. induction fuel as [|fuel IH]; intros name Hc Hf; [lia|]. simpl.
  assert (gives (statPath (W := W) (resolvePath fuel ctx id) ctx id name) is_Some) as Hs.
  { apply statPath_some. intros Hn w. destruct (Dir_up name Hc Hn) as [Hc' Hl].
    destruct (IH (Dir name) Hc' ltac:(lia) w) as (target & stat & -> & _). by eexists. }
  intros w. unfold bind at 1. specialize (Hs w). pose proof (statPath_target (resolvePath fuel ctx id) ctx id name w) as Ht.
  destruct (statPath _ _ _ _ w) as [r w']. destruct Hs as [[stat|e] Hs]; simpl in Hs; subst r; [|by (do 2 eexists; split_and!; [done|done|lia])].
  simpl in Ht. destruct (has_mode _ _); [|by (do 2 eexists; split_and!; [done|done|simpl; lia])].
  destruct (Ht eq_refl) as (H1 & H2 & H3 & _).
  assert (gives (statPath (W := W) (resolvePath fuel ctx id) ctx id (ps_LinkTarget stat)) is_Some) as Hs'.
  { apply statPath_some. intros Hn. destruct (Dir_up _ H2 Hn) as [Hc' Hl].
    apply resolvePath_some_resolved; [done|by eapply law_up|lia]. }
  unfold bind. specialize (Hs' w'). destruct (statPath _ _ _ _ w') as [r w2]. destruct Hs' as [stat' Hs']. simpl in Hs'. subst r.
  simpl. do 2 eexists. split_and!; [done|done|lia].
Qed.
(** The root is there, or the container is not. *)
Lemma resolve_root fuel ctx id : gives (resolvePath (W := W) fuel ctx id "/") (fun r =>
  match r with Some (_, inr e) => errors_Is e ErrNotExist = false | _ => True end).
Proof.
  destruct fuel as [|fuel]; intros w; [done|]. simpl. unfold statPath, bind. pose proof (law_root ctx id w) as Hr.
  destruct (ContainerStatPath ctx id "/" w) as [[stat|e] w'].
  - cbn. by rewrite Hr.
  - rewrite andb_false_r. unfold pathError, missingPath. destruct Hr as [Hne Hr]. unfold bind.
    destruct (IsNotFound e) eqn:Hnf; simpl; [|done]. destruct (Hr eq_refl) as [e' He].
    destruct (ContainerInspect ctx id w') as [answer w2]. simpl in He. subst answer. done.
Qed.
Lemma find_base_some fuel statFuel ctx id base missing :
  clean_path base -> (String.length base < fuel)%nat -> (String.length base + N + 1 < statFuel)%nat ->
  gives (find_base (W := W) fuel statFuel ctx id base missing) is_Some.
Proof.
  revert base missing. induction fuel as [|fuel IH]; intros base missing Hc Hf Hs; [lia|]. simpl.
  destruct (decide (base = "/"%string)) as [->|Hn].
  - intros w. unfold bind. pose proof (resolve_root statFuel ctx id w) as Hr.
    destruct (resolvePath_some statFuel ctx id "/" Hc Hs w) as (target & stat & E & _).
    destruct (resolvePath statFuel ctx id "/" w) as [r w']. simpl in *. subst r. destruct stat as [stat|e]; [by eexists|].
    rewrite Hr. by eexists.
  - destruct (Dir_up base Hc Hn) as [Hc' Hl]. eapply gives_bind_such; [by apply resolvePath_some|].
    intros r (target & stat & -> & _). destruct stat as [stat|e]; [by apply gives_ret|].
    destruct (errors_Is e ErrNotExist); [|by apply gives_ret]. apply IH; [done|lia|lia].
Qed.
End Ends.

(** A write into a container returns: the walk over the links and up to an existing parent
    ends, whatever the container holds, with fuel for the path and two link targets. *)
Theorem docker_write_returns {W} `{!Runtime W} `{!DockerClient W} `{!DockerFiles W} (N : nat) (resolved : string -> Prop)
    (Laws : DaemonPaths W N resolved) (Exec : Ctx -> string -> Command -> M W (CommandResult * error)) (timeout : Z)
    (fuel : nat) (ctx : Ctx) (id name : string) (content : Content) (size : Z) (execUser : string) :
  (String.length (Clean name) + 2 * N + 1 < fuel)%nat ->
  gives (WriteFile Exec timeout fuel ctx id name content size execUser) is_Some.
Proof.
  intros Hf. unfold WriteFile. destruct (cleanContainerWorkdir _) as [clean|e] eqn:Hc; [|by apply gives_ret].
  assert (clean = Clean name) as -> by (by apply cleanContainerWorkdir_same in Hc).
  apply cleanContainerWorkdir_spec in Hc as [Hc _].
  eapply gives_bind_such; [apply (resolvePath_some N resolved); [done|lia]|]. intros r (target & stat & -> & Ht & Hl). cbv zeta.
  assert (forall created mode, gives
    (let* r := find_base (W := W) fuel fuel ctx id (Dir target) [] in
     match r with
     | None => ret None
     | Some (inr e) => ret (Some (false, Some e))
     | Some (inl (base, missing)) => write_below Exec timeout ctx id base missing target execUser mode size content created
     end) is_Some) as Hbelow.
  { intros created mode.
    assert (clean_path (Dir target) /\ (String.length (Dir target) <= String.length target)%nat) as [Hd Hdl].
    { destruct (decide (target = "/"%string)) as [->|Hn]; [split; [by left|done]|]. destruct (Dir_up target Ht Hn). split; [done|lia]. }
    eapply gives_bind_such; [apply (find_base_some N resolved); [done|lia|lia]|]. intros r [[[base missing]|e] ->]; [|by apply gives_ret].
    unfold write_below, write_temporary, rename_into, abandon_write.
    repeat first [apply gives_bind; intros ?|apply gives_ret|case_match|by eexists]. }
  destruct stat as [stat|e]; [destruct (mode_IsDir _); [by apply gives_ret|apply Hbelow]|].
  destruct (errors_Is e ErrNotExist); [apply Hbelow|by apply gives_ret].
Qed.
