(* ===== verification/DockerNetwork.v ===== *)
(** The network of a run on Docker ([pkg/deployment/docker], docker.go and environment.go):
    its creation under a random name, its validation by identity and labels, its removal,
    and the task environments that borrow it. Each method of the run environment and of a
    task environment holds its lock to the end, so it is one step here.

    The life of a run's network on Docker: over any sequence of calls of the run environment
    it is created at most once, only a network of this run is removed, and a stop that
    succeeds has seen it gone. *)

From S2P Require Import Prelude Utf8 Trace Core Docker HarnessFiles DockerFiles DockerTheorems.

(** [NetworkRequest], [client.NetworkCreateOptions] and what an inspection shows. *)
Record NetworkRequest := { nr_Name : string; nr_Labels : gmap string string; nr_Internal : bool }.
Definition no_NetworkRequest : NetworkRequest := {| nr_Name := ""; nr_Labels := ∅; nr_Internal := false |}.
Record NetworkOptions := { nx_Driver : string; nx_Internal : bool; nx_Labels : gmap string string }.
Record Network := { nw_ID : string; nw_Name : string; nw_Driver : string; nw_Internal : bool; nw_Labels : gmap string string }.

Class DockerNetworks (W : Type) := {
  NetworkCreate : Ctx -> string -> NetworkOptions -> M W (string * error);
  NetworkInspect : Ctx -> string -> M W (Network + err);
  NetworkRemove : Ctx -> string -> M W error
}.

(** [validateNetwork]. *)
Definition validateNetwork (n : Network) (id : string) (request : NetworkRequest) : error :=
  (refuse_if negb (String.eqb (nw_ID n) id) || negb (String.eqb (nw_Name n) (nr_Name request)) ||
             negb (Bool.eqb (nw_Internal n) (nr_Internal request)) || negb (String.eqb (nw_Driver n) "bridge")
     with "deployment network identity or isolation differs from request") >>?
  (refuse_if negb (labels_match (nr_Labels request) (nw_Labels n))
     with "deployment network ownership labels differ from request").

(** [RunEnvironment], the parts that change. *)
Record RunEnvironment := {
  re_request : NetworkRequest;
  re_id : string;
  re_started : bool;
  re_stopped : bool
}.
Definition new_RunEnvironment : RunEnvironment :=
  {| re_request := no_NetworkRequest; re_id := ""; re_started := false; re_stopped := false |}.
Definition set_re_started (e : RunEnvironment) : RunEnvironment :=
  {| re_request := re_request e; re_id := re_id e; re_started := true; re_stopped := re_stopped e |}.
Definition set_re_request (x : NetworkRequest) (e : RunEnvironment) : RunEnvironment :=
  {| re_request := x; re_id := re_id e; re_started := re_started e; re_stopped := re_stopped e |}.
Definition set_re_id (x : string) (e : RunEnvironment) : RunEnvironment :=
  {| re_request := re_request e; re_id := x; re_started := re_started e; re_stopped := re_stopped e |}.
Definition set_re_stopped (e : RunEnvironment) : RunEnvironment :=
  {| re_request := re_request e; re_id := re_id e; re_started := re_started e; re_stopped := true |}.
Definition no_placement : RuntimePlacement := {| rp_AttachmentID := "" |}.

Section Network.
Context {W : Type} `{!DockerNetworks W} `{!DockerFiles W}.

Definition CreateNetwork (ctx : Ctx) (request : NetworkRequest) : M W (string * error) :=
  let* (id, e) := NetworkCreate ctx (nr_Name request)
                    {| nx_Driver := "bridge"; nx_Internal := nr_Internal request; nx_Labels := nr_Labels request |} in
  match e with
  | Some e => ret (id, Some e)
  | None => if String.eqb id "" then ret (""%string, Some (ENew "Docker returned an empty network identity")) else ret (id, None)
  end.
Definition ValidateNetwork (ctx : Ctx) (id : string) (request : NetworkRequest) : M W error :=
  let* inspection := NetworkInspect ctx id in
  ret (match inspection with inr e => Some e | inl n => validateNetwork n id request end).
Definition StopNetwork (ctx : Ctx) (id : string) : M W error :=
  if String.eqb id "" then ret None
  else
    let* removeErr := NetworkRemove ctx id in
    let* inspection := NetworkInspect ctx id in
    ret (match inspection with
         | inr e => if IsNotFound e then None
                    else errors_Join [removeErr; Some (EWrap "verify deployment network removal" e)]
         | inl _ => errors_Join [removeErr; Some (ENew "deployment network remains after removal")]
         end).

(** * The run's environment *)

Variable runID : string.

Definition network_request (nonce : string) : NetworkRequest :=
  {| nr_Name := "aries-net-" +:+ nonce; nr_Internal := false;
     nr_Labels := {[ "aries.managed" := "true"; "aries.kind" := "run-network"; "aries.run" := runID ]}%string |}.
Definition environment_Start (ctx : Ctx) (e : RunEnvironment) : M W (RuntimePlacement * error * RunEnvironment) :=
  let refused text e := ret (no_placement, Some (ENew text), e) in
  if re_started e || re_stopped e then refused "run environment cannot be reused" e
  else
    let e := set_re_started e in
    if String.eqb runID "" then refused "run environment requires a run ID" e
    else
      let* nonce := random_hex 16 in
      match nonce with
      | inr err => ret (no_placement, Some err, e)
      | inl nonce =>
          let request := network_request nonce in
          let* (id, err) := CreateNetwork ctx request in
          let e := set_re_id id (set_re_request request e) in
          match err with
          | Some _ => ret (no_placement, err, e)
          | None => ret ({| rp_AttachmentID := nr_Name request |}, None, e)
          end
      end.
Definition environment_validate (ctx : Ctx) (e : RunEnvironment) : M W error :=
  if String.eqb (re_id e) "" || re_stopped e then ret (Some (ENew "run environment is not active"))
  else ValidateNetwork ctx (re_id e) (re_request e).

(** [Stop]: a lost answer to the creation is looked up by the random name first. *)
Definition remove_network (ctx : Ctx) (e : RunEnvironment) : M W (error * RunEnvironment) :=
  if String.eqb (re_id e) "" then ret (None, set_re_stopped e)
  else
    let* inspection := NetworkInspect ctx (re_id e) in
    match inspection with
    | inr err => if IsNotFound err then ret (None, set_re_stopped e) else ret (Some err, e)
    | inl n =>
        match validateNetwork n (re_id e) (re_request e) with
        | Some err => ret (Some err, e)
        | None =>
            let* err := StopNetwork ctx (re_id e) in
            ret (err, match err with Some _ => e | None => set_re_stopped e end)
        end
    end.
Definition environment_Stop (ctx : Ctx) (e : RunEnvironment) : M W (error * RunEnvironment) :=
  if re_stopped e then ret (None, e)
  else if String.eqb (re_id e) "" && negb (String.eqb (nr_Name (re_request e)) "") then
    let* inspection := NetworkInspect ctx (nr_Name (re_request e)) in
    match inspection with
    | inr err => if IsNotFound err then ret (None, set_re_stopped e) else ret (Some err, e)
    | inl n =>
        let id := nw_ID n in
        if String.eqb id "" then ret (Some (ENew "run network inspection returned an empty identity"), e)
        else match validateNetwork n id (re_request e) with
             | Some err => ret (Some err, e)
             | None => remove_network ctx (set_re_id id e)
             end
    end
  else remove_network ctx e.

(** * Task environments *)

(** [taskEnvironment] and the checks of its [Start]. *)
Record taskEnvironment := { te_started : bool; te_stopped : bool }.
Definition bad_service (service : TaskMCPService) : error :=
  refuse_if (ms_Port service <=? 0) || (65535 <? ms_Port service)
    with ("invalid port for task MCP service " +:+ quote (ms_Name service)).
Definition no_HarnessConnectivity : HarnessConnectivity :=
  {| hc_Placement := no_placement; hc_SearchURL := ""; hc_MCPServers := [] |}.
Definition service_url (runtimeName : string) (port : Z) : string := "http://" +:+ runtimeName +:+ ":" +:+ itoa port.
Definition mcp_server (runtimeName : string) (service : TaskMCPService) : MCPServerConfig :=
  {| mp_Name := ms_Name service; mp_Command := ""; mp_Args := [];
     mp_URL := service_url runtimeName (ms_Port service) +:+ ms_Path service;
     mp_Transport := ms_Transport service; mp_TimeoutSeconds := ms_TimeoutSeconds service; mp_Env := ∅; mp_SecretEnv := ∅ |}.
Definition task_Start (ctx : Ctx) (request : SandboxRequest) (runtimeName : string) (owner : RunEnvironment)
    (t : taskEnvironment) : M W (HarnessConnectivity * error * taskEnvironment) :=
  let refused err t := ret (no_HarnessConnectivity, Some err, t) in
  if te_started t || te_stopped t then refused (ENew "task environment cannot be reused") t
  else
    let t := {| te_started := true; te_stopped := te_stopped t |} in
    let services := en_Services (sr_Environment request) in
    let port := ts_SearchPort services in
    if negb (String.eqb (sr_RunID request) runID) || String.eqb runtimeName ""
    then refused (ENew "task environment requires its run and a unique runtime name") t
    else if (port <? 0) || (65535 <? port) then refused (ENew "invalid task search service port") t
    else match first_error bad_service (ts_MCP services) with
    | Some err => refused err t
    | None =>
        let* err := environment_validate ctx owner in
        match err with
        | Some err => refused err t
        | None =>
            ret ({| hc_Placement := {| rp_AttachmentID := nr_Name (re_request owner) |};
                    hc_SearchURL := if port =? 0 then "" else service_url runtimeName port;
                    hc_MCPServers := map (mcp_server runtimeName) (ts_MCP services) |}, None, t)
        end
    end.
Definition task_Validate (ctx : Ctx) (owner : RunEnvironment) (t : taskEnvironment) : M W error :=
  if negb (te_started t) || te_stopped t then ret (Some (ENew "task environment is not active"))
  else environment_validate ctx owner.
Definition task_Stop (t : taskEnvironment) : taskEnvironment := {| te_started := te_started t; te_stopped := true |}.
End Network.

(** * Traces *)

Inductive network_event :=
  | NCreate (name : string) (options : NetworkOptions) (answer : string * error)
  | NInspect (reference : string) (answer : Network + err)
  | NRemove (id : string) (answer : error).
#[export] Instance traced_networks {W} `{!DockerNetworks W} : DockerNetworks (W * list network_event) := {|
  NetworkCreate ctx name options := logged (NCreate name options) (NetworkCreate ctx name options);
  NetworkInspect ctx reference := logged (NInspect reference) (NetworkInspect ctx reference);
  NetworkRemove ctx id := logged (NRemove id) (NetworkRemove ctx id)
|}.
#[export] Instance silent_files {W E} `{!DockerFiles W} : DockerFiles (W * list E) := {|
  ContainerStatPath ctx id path := silent (ContainerStatPath ctx id path);
  CopyEntry ctx id path entry content own := silent (CopyEntry ctx id path entry content own);
  CopyFile ctx id path := silent (CopyFile ctx id path);
  crypto_rand_Read n := silent (crypto_rand_Read n)
|}.

(** * Lives *)

(** A sequence of calls of the run environment. *)
Inductive environment_call := StartCall (ctx : Ctx) | ValidateCall (ctx : Ctx) | StopCall (ctx : Ctx).
Section Life.
Context {W : Type} `{!DockerNetworks W} `{!DockerFiles W}.
Variable runID : string.
Definition environment_step (call : environment_call) (e : RunEnvironment) : M W RunEnvironment :=
  match call with
  | StartCall ctx => let* (_, _, e) := environment_Start runID ctx e in ret e
  | ValidateCall ctx => let* _ := environment_validate ctx e in ret e
  | StopCall ctx => let* (_, e) := environment_Stop ctx e in ret e
  end.
Fixpoint environment_life (calls : list environment_call) (e : RunEnvironment) : M W RunEnvironment :=
  match calls with
  | [] => ret e
  | call :: calls => let* e := environment_step call e in environment_life calls e
  end.
End Life.

(** * What a life shows *)

Definition is_create (ev : network_event) : bool := match ev with NCreate _ _ _ => true | _ => false end.
Definition created_names (evs : list network_event) : list string :=
  omap (fun ev => match ev with NCreate name _ _ => Some name | _ => None end) evs.
(** The network an inspection shows is the one this run asked for under a random name. *)
Definition of_run (runID name : string) (n : Network) (id : string) : Prop :=
  nw_ID n = id /\ nw_Name n = name /\ nw_Driver n = "bridge"%string /\ nw_Internal n = false /\
  nw_Labels n !! "aries.managed"%string = Some "true"%string /\
  nw_Labels n !! "aries.kind"%string = Some "run-network"%string /\
  default ""%string (nw_Labels n !! "aries.run"%string) = runID.
(** A network is asked for under a random name, as an open bridge with the labels of its run. *)
Definition asked_for (runID name : string) (options : NetworkOptions) : Prop :=
  (exists nonce, name = "aries-net-" +:+ nonce)%string /\
  options = {| nx_Driver := "bridge"; nx_Internal := false;
               nx_Labels := {[ "aries.managed" := "true"; "aries.kind" := "run-network"; "aries.run" := runID ]} |}%string.
(** What the calls so far say is the reference of the run's network: the identity that its
    creation answered, its name where no identity was answered, and otherwise the identity under
    which an inspection by this name has shown a network of the run. *)
Definition identifies (runID : string) (before : list network_event) (reference : string) : Prop :=
  exists name options id e, NCreate name options (id, e) ∈ before /\
    ((id <> "" /\ reference = id) \/ (id = "" /\ reference = name) \/
     (id = "" /\ exists n, NInspect name (inl n) ∈ before /\ of_run runID name n reference))%string.
Fixpoint tied (runID : string) (before evs : list network_event) : Prop :=
  match evs with
  | [] => True
  | ev :: evs =>
      match ev with
      | NCreate name options _ => before = [] /\ asked_for runID name options
      | NInspect reference _ | NRemove reference _ => identifies runID before reference
      end /\ tied runID (before ++ [ev]) evs
  end.
(** Each removal follows at once on an inspection that showed a network of the run. *)
Fixpoint guarded (runID name : string) (previous : option network_event) (evs : list network_event) : Prop :=
  match evs with
  | [] => True
  | ev :: evs =>
      match ev, previous with
      | NRemove id _, Some (NInspect reference (inl n)) => reference = id /\ of_run runID name n id
      | NRemove _ _, _ => False
      | _, _ => True
      end /\ guarded runID name (Some ev) evs
  end.
Definition found_gone (ev : network_event) : bool := match ev with NInspect _ answer => answered_not_found answer | _ => false end.
(** Nothing was created, or the last call found nothing any more. *)
Definition network_settled (evs : list network_event) : Prop :=
  created_names evs = [] \/ exists pre ev, evs = pre ++ [ev] /\ found_gone ev = true.

Lemma guarded_any runID name previous evs : guarded runID name None evs -> guarded runID name previous evs.
Proof. destruct evs as [|[] evs]; simpl; tauto. Qed.
Lemma guarded_app runID name previous evs evs' :
  guarded runID name previous evs -> guarded runID name None evs' -> guarded runID name previous (evs ++ evs').
Proof.
  revert previous. induction evs as [|ev evs IH]; intros previous H H'; [by apply guarded_any|].
  destruct H as [H1 H2]. split; [done|]. by apply IH.
Qed.
Lemma identifies_app runID before more reference :
  identifies runID before reference -> identifies runID (before ++ more) reference.
Proof.
  intros (name & options & id & e & Hin & H). exists name, options, id, e. split; [set_solver|].
  destruct H as [H|[H|(H & n & Hn & Ho)]]; [tauto|tauto|]. right. right. split; [done|]. exists n. split; [set_solver|done].
Qed.
Lemma tied_app runID before evs evs' :
  tied runID before evs -> tied runID (before ++ evs) evs' -> tied runID before (evs ++ evs').
Proof.
  revert before. induction evs as [|ev evs IH]; intros before H H'; simpl in *; [by rewrite app_nil_r in H'|].
  destruct H as [H1 H2]. split; [done|]. apply IH; [done|]. by rewrite <- app_assoc.
Qed.
(** Calls about one reference, once it is identified. *)
Definition about (reference : string) (ev : network_event) : Prop :=
  match ev with NCreate _ _ _ => False | NInspect r _ | NRemove r _ => r = reference end.
Lemma tied_about runID before reference evs :
  identifies runID before reference -> Forall (about reference) evs -> tied runID before evs.
Proof.
  revert before. induction evs as [|ev evs IH]; intros before Hi Hf; [done|]. inversion Hf as [|? ? Ha Hf']. subst.
  split; [destruct ev; simpl in Ha; [done|by subst|by subst]|]. apply IH; [by apply identifies_app|done].
Qed.
Lemma created_names_app evs evs' : created_names (evs ++ evs') = created_names evs ++ created_names evs'.
Proof. apply omap_app. Qed.

Lemma validateNetwork_run runID nonce n id :
  validateNetwork n id (network_request runID nonce) = None -> of_run runID (nr_Name (network_request runID nonce)) n id.
Proof.
  unfold validateNetwork. rewrite seq_error_nil, !refuse_if_nil, !orb_false_iff, !negb_false_iff, !String.eqb_eq.
  intros [[[[H1 H2] H3%Bool.eqb_prop] H4] H5]. rewrite labels_match_spec in H5.
  assert (forall key value, value <> ""%string -> default ""%string (nw_Labels n !! key) = value -> nw_Labels n !! key = Some value) as Hl
    by (intros key value Hne; destruct (nw_Labels n !! key); simpl; congruence).
  split_and!; [done|done|done|done|apply Hl; [done|]|apply Hl; [done|]|]; by apply H5.
Qed.

(** * The invariant *)

(** The reference that an environment uses for its network. *)
Definition reference_of (e : RunEnvironment) : string := if String.eqb (re_id e) "" then nr_Name (re_request e) else re_id e.
Record environment_ok (runID : string) (e : RunEnvironment) (evs : list network_event) : Prop := {
  eo_new : re_started e = false -> evs = [] /\ re_id e = ""%string /\ re_request e = no_NetworkRequest;
  eo_none : nr_Name (re_request e) = ""%string -> evs = [] /\ re_id e = ""%string;
  eo_request : nr_Name (re_request e) <> ""%string -> exists nonce,
    re_request e = network_request runID nonce /\ created_names evs = [nr_Name (re_request e)];
  eo_tied : tied runID [] evs;
  eo_known : nr_Name (re_request e) <> ""%string ->
    identifies runID evs (reference_of e) /\
    (re_id e = ""%string -> exists options err, NCreate (nr_Name (re_request e)) options (""%string, err) ∈ evs);
  eo_guarded : guarded runID (nr_Name (re_request e)) None evs;
  eo_settled : re_stopped e = true -> network_settled evs
}.

Section Invariant.
Context {W : Type} `{!DockerNetworks W} `{!DockerFiles W}.
Variable runID : string.
Abbreviation T := (W * list network_event)%type.

(** More calls about the network that was asked for. *)
Lemma ok_more e e' evs evs' :
  environment_ok runID e evs -> re_started e' = re_started e -> re_request e' = re_request e -> re_id e' = re_id e ->
  Forall (about (reference_of e)) evs' ->
  nr_Name (re_request e) <> ""%string -> created_names evs' = [] -> guarded runID (nr_Name (re_request e)) None evs' ->
  (re_stopped e' = true -> network_settled (evs ++ evs')) ->
  environment_ok runID e' (evs ++ evs').
Proof.
  intros [Hn H0 Hr Ht Hk Hg Hs] Hst Hrq Hid Ha Hne Hc Hg' Hs'. destruct (Hk Hne) as [Hi Hn'].
  assert (reference_of e' = reference_of e) as Href by (unfold reference_of; by rewrite Hrq, Hid). split.
  - rewrite Hst. intros H. apply Hn in H as (_ & _ & H). by rewrite H in Hne.
  - by rewrite Hrq.
  - rewrite Hrq. intros _. destruct (Hr Hne) as (nonce & H1 & H2). exists nonce. by rewrite created_names_app, H2, Hc.
  - apply tied_app; [done|]. by eapply tied_about.
  - rewrite Href, Hrq, Hid. intros _. split; [by apply identifies_app|]. intros H. destruct (Hn' H) as (options & err & Hin).
    exists options, err. set_solver.
  - rewrite Hrq. by apply guarded_app.
  - done.
Qed.
Lemma ok_created e nonce id err : re_stopped e = false ->
  let request := network_request runID nonce in
  environment_ok runID (set_re_id id (set_re_request request (set_re_started e)))
    [NCreate (nr_Name request) {| nx_Driver := "bridge"; nx_Internal := nr_Internal request; nx_Labels := nr_Labels request |}
       (id, err)].
Proof.
  intros Hsp request. split; simpl; try done.
  - by eexists.
  - split; [|done]. split; [done|]. split; [by eexists|done].
  - intros _. unfold reference_of. simpl. split.
    + eexists _, _, id, err. split; [by apply list_elem_of_here|]. destruct (String.eqb_spec id "") as [->|]; tauto.
    + intros ->. eexists _, _. by apply list_elem_of_here.
  - by rewrite Hsp.
Qed.
(** A lost answer, made good by an inspection by the name. *)
Lemma ok_recovered e evs n : environment_ok runID e evs -> re_stopped e = false -> re_id e = ""%string ->
  nr_Name (re_request e) <> ""%string -> nw_ID n <> ""%string -> validateNetwork n (nw_ID n) (re_request e) = None ->
  environment_ok runID (set_re_id (nw_ID n) e) (evs ++ [NInspect (nr_Name (re_request e)) (inl n)]).
Proof.
  intros [Hn H0 Hr Ht Hk Hg Hs] Hsp Hid Hne Hn0 Hv. destruct (Hk Hne) as [Hi (options & err & Hin)%(fun f => f Hid)].
  destruct (Hr Hne) as (nonce & Hrq & Hc). split; simpl; try done.
  - intros H. apply Hn in H as (_ & _ & H). by rewrite H in Hne.
  - intros _. exists nonce. by rewrite created_names_app, Hc.
  - apply tied_app; [done|]. split; [|done]. unfold reference_of in Hi. by rewrite Hid in Hi.
  - intros _. unfold reference_of. simpl. rewrite (proj2 (String.eqb_neq _ _) Hn0). split; [|done].
    exists (nr_Name (re_request e)), options, ""%string, err. split; [set_solver|]. right. right. split; [done|].
    exists n. split; [set_solver|]. rewrite Hrq in Hv |- *. by apply validateNetwork_run.
  - by apply guarded_app.
  - by rewrite Hsp.
Qed.
Lemma settled_gone (evs evs' : list network_event) ev : found_gone ev = true -> network_settled (evs ++ evs' ++ [ev]).
Proof. intros H. right. exists (evs ++ evs'), ev. by rewrite app_assoc. Qed.

Lemma about_one e evs : re_id e <> ""%string -> Forall (about (re_id e)) evs -> Forall (about (reference_of e)) evs.
Proof. intros H. unfold reference_of. by rewrite (proj2 (String.eqb_neq _ _) H). Qed.

Lemma about_name e evs : re_id e = ""%string -> Forall (about (nr_Name (re_request e))) evs -> Forall (about (reference_of e)) evs.
Proof. intros H. unfold reference_of. by rewrite H. Qed.
Ltac more e := apply (ok_more e); try done; try (by apply (about_one e); repeat constructor); try (by apply (about_name e); repeat constructor).

Lemma environment_Start_ok ctx e evs : environment_ok runID e evs ->
  emits (environment_Start (W := T) runID ctx e) (fun r evs' => environment_ok runID r.2 (evs ++ evs')).
Proof.
  intros Hok. unfold environment_Start. destruct (re_started e || re_stopped e) eqn:Hsd.
  { apply emits_ret. by rewrite app_nil_r. }
  apply orb_false_iff in Hsd as [Hst Hsp]. destruct (eo_new _ _ _ Hok Hst) as (-> & Hid & Hrq). cbn [app].
  assert (environment_ok runID (set_re_started e) []) as Hok'.
  { split; simpl; try done; try (by rewrite Hrq). by rewrite Hsp. }
  destruct (String.eqb runID ""); [by apply emits_ret|]. unfold random_hex.
  apply emits_flatten, emits_read. intros nonce. apply emits_bind_ret. destruct nonce as [nonce|err]; [|by apply emits_ret].
  unfold CreateNetwork. apply emits_flatten, emits_call. intros [id err].
  set (request := network_request runID _).
  assert (environment_ok runID (set_re_id id (set_re_request request (set_re_started e)))
            [NCreate (nr_Name request) {| nx_Driver := "bridge"; nx_Internal := nr_Internal request; nx_Labels := nr_Labels request |}
               (id, err)]) as H by (by apply ok_created).
  destruct err as [err|]; [apply emits_bind_ret; apply emits_ret, H|].
  destruct (String.eqb_spec id "") as [->|Hne]; apply emits_bind_ret; apply emits_ret, H.
Qed.
Lemma environment_validate_ok ctx e evs : environment_ok runID e evs ->
  emits (environment_validate (W := T) ctx e) (fun _ evs' => environment_ok runID e (evs ++ evs')).
Proof.
  intros Hok. unfold environment_validate. destruct (_ || re_stopped e) eqn:Hi.
  { apply emits_ret. by rewrite app_nil_r. }
  apply orb_false_iff in Hi as [Hid%String.eqb_neq Hsp]. apply emits_call. intros answer. apply emits_ret.
  more e; [intros H; by apply (eo_none _ _ _ Hok) in H as [_ ?]|by rewrite Hsp].
Qed.
Lemma remove_network_ok ctx e evs : environment_ok runID e evs -> re_stopped e = false ->
  (re_id e = ""%string -> network_settled evs) ->
  emits (remove_network (W := T) ctx e) (fun r evs' =>
    environment_ok runID r.2 (evs ++ evs') /\ (r.1 = None <-> re_stopped r.2 = true)).
Proof.
  intros Hok Hsp Hs. unfold remove_network. destruct (String.eqb_spec (re_id e) "") as [Hid|Hid].
  { apply emits_ret. rewrite app_nil_r. split; [|done]. destruct Hok. by split; auto. }
  assert (nr_Name (re_request e) <> ""%string) as Hne by (intros H; by apply (eo_none _ _ _ Hok) in H as [_ ?]).
  apply emits_call. intros [n|err].
  - destruct (validateNetwork _ _ _) as [err|] eqn:Hv.
    { apply emits_ret. simpl. rewrite Hsp. split; [|done]. more e. by rewrite Hsp. }
    unfold StopNetwork. rewrite (proj2 (String.eqb_neq _ _) Hid).
    apply emits_flatten, emits_call. intros removed. apply emits_flatten, emits_call. intros answer. apply emits_bind_ret, emits_ret.
    destruct (eo_request _ _ _ Hok Hne) as (nonce & Hrq & _).
    assert (guarded runID (nr_Name (re_request e)) None
              [NInspect (re_id e) (inl n); NRemove (re_id e) removed; NInspect (re_id e) answer]) as Hg.
    { split; [done|]. split; [split; [done|]|by split]. rewrite Hrq in Hv |- *. by apply validateNetwork_run. }
    destruct answer as [n'|err]; [|destruct (IsNotFound err) eqn:Hnf]; simpl.
    3: destruct removed; simpl; (split; [|by rewrite Hsp]); more e; by rewrite Hsp.
    1: destruct removed; simpl; (split; [|by rewrite Hsp]); more e; by rewrite Hsp.
    split; [|done]. more e. intros _. by apply (settled_gone evs [_; _]).
  - destruct (IsNotFound err) eqn:Hnf; apply emits_ret; simpl; (split; [|by rewrite ?Hsp]).
    + more e. intros _. by apply (settled_gone evs []).
    + more e. by rewrite Hsp.
Qed.
Lemma environment_Stop_ok ctx e evs : environment_ok runID e evs ->
  emits (environment_Stop (W := T) ctx e) (fun r evs' =>
    environment_ok runID r.2 (evs ++ evs') /\ (r.1 = None <-> re_stopped r.2 = true)).
Proof.
  intros Hok. unfold environment_Stop. destruct (re_stopped e) eqn:Hsp.
  { apply emits_ret. rewrite app_nil_r. simpl. by rewrite Hsp. }
  destruct (String.eqb_spec (re_id e) "") as [Hid|Hid]; destruct (String.eqb_spec (nr_Name (re_request e)) "") as [Hne|Hne]; simpl.
  - apply remove_network_ok; [done|done|]. intros _. apply (eo_none _ _ _ Hok) in Hne as [-> _]. by left.
  - apply emits_call. intros [n|err].
    + destruct (String.eqb_spec (nw_ID n) "") as [Hn|Hn]; [|destruct (validateNetwork _ _ _) as [err|] eqn:Hv].
      1-2: apply emits_ret; simpl; rewrite Hsp; (split; [|done]); more e; by rewrite Hsp.
      eapply emits_mono; [apply (remove_network_ok ctx _ (evs ++ [NInspect (nr_Name (re_request e)) (inl n)]))|].
      * by apply ok_recovered.
      * done.
      * done.
      * intros r evs' H. cbv beta in H. by rewrite <- app_assoc in H.
    + destruct (IsNotFound err) eqn:Hnf; apply emits_ret; simpl; (split; [|by rewrite ?Hsp]).
      * more e. intros _. by apply (settled_gone evs []).
      * more e. by rewrite Hsp.
  - by apply remove_network_ok.
  - by apply remove_network_ok.
Qed.
Lemma environment_life_ok calls e evs : environment_ok runID e evs ->
  emits (environment_life (W := T) runID calls e) (fun e' evs' => environment_ok runID e' (evs ++ evs')).
Proof.
  revert e evs. induction calls as [|call calls IH]; intros e evs Hok; [apply emits_ret; by rewrite app_nil_r|].
  simpl. eapply (emits_bind _ _ (fun e' evs' => environment_ok runID e' (evs ++ evs'))).
  - destruct call; simpl.
    + eapply emits_bind; [by apply environment_Start_ok|]. intros [[p err] e'] evs' H. apply emits_ret. by rewrite app_nil_r.
    + eapply emits_bind; [by apply environment_validate_ok|]. intros err evs' H. apply emits_ret. by rewrite app_nil_r.
    + eapply emits_bind; [by apply environment_Stop_ok|]. intros [err e'] evs' [H _]. apply emits_ret. by rewrite app_nil_r.
  - intros e' evs' H. eapply emits_mono; [by apply IH|]. intros e'' evs'' H'. by rewrite app_assoc.
Qed.
Lemma environment_ok_new : environment_ok runID new_RunEnvironment [].
Proof. by split. Qed.

End Invariant.
