(* ===== verification/JsonFields.v ===== *)
(** The decoding of a JSON value into a structure, field by field, as [encoding/json] does
    it. *)

From S2P Require Import Prelude Utf8 Core Net Config.

(** Two member names that [encoding/json] takes for the same field. *)
Definition same_field (a b : string) : bool := EqualFold a b.

(** A field of [A]; decoding fails on a value of another type and skips [null]. *)
Definition field (A : Type) : Type := (string * (json -> A -> option A))%type.
Definition string_field {A} (name : string) (set : string -> A -> A) : field A :=
  (name, fun v a => match v with JString s => Some (set s a) | JNull => Some a | _ => None end).
Definition bool_field {A} (name : string) (set : bool -> A -> A) : field A :=
  (name, fun v a => match v with JBool b => Some (set b a) | JNull => Some a | _ => None end).
Definition array_field {A} (name : string) (set : option (list json) -> A -> A) : field A :=
  (name, fun v a => match v with JArray l => Some (set (Some l) a) | JNull => Some (set None a) | _ => None end).
Definition int_field {A} (name : string) (set : Z -> A -> A) : field A :=
  (name, fun v a => match v with
                    | JNumber text => match Atoi text with inl n => Some (set n a) | inr _ => None end
                    | JNull => Some a
                    | _ => None
                    end).
(** A pointer, slices and maps; an element that is [null] is a zero value, and a map's a
    value too. *)
Definition pointer_field {A} (name : string) (set : option string -> A -> A) : field A :=
  (name, fun v a => match v with JString s => Some (set (Some s) a) | JNull => Some (set None a) | _ => None end).
Definition text_of (value : json) : option string := match value with JString s => Some s | JNull => Some ""%string | _ => None end.
Definition int_of (value : json) : option Z :=
  match value with JNumber text => match Atoi text with inl n => Some n | inr _ => None end | JNull => Some 0 | _ => None end.
Definition object_of (value : json) : option (list (string * json)) :=
  match value with JObject members => Some members | JNull => Some [] | _ => None end.
Definition slice_field {A B} (decoded : json -> option B) (name : string) (set : list B -> A -> A) : field A :=
  (name, fun v a => match v with
                    | JArray l => (fun l => set l a) <$> mapM decoded l
                    | JNull => Some (set [] a)
                    | _ => None
                    end).
Definition strings_field {A} : string -> (list string -> A -> A) -> field A := slice_field text_of.
Definition objects_field {A} : string -> (list (list (string * json)) -> A -> A) -> field A := slice_field object_of.
Definition ints_field {A} (name : string) (set : list (string * Z) -> A -> A) : field A :=
  (name, fun v a => match v with
                    | JObject members => (fun l => set l a) <$> mapM (fun m => pair m.1 <$> int_of m.2) members
                    | JNull => Some (set [] a)
                    | _ => None
                    end).
Definition object_field {A} (name : string) (set : list (string * json) -> A -> A) : field A :=
  (name, fun v a => (fun members => set members a) <$> object_of v).

(** A structure: the members of an object in turn. *)
Definition decode_member {A} (fields : list (field A)) (acc : option A) (member : string * json) : option A :=
  acc ≫= fun a =>
    match List.find (fun f => same_field f.1 member.1) fields with
    | Some f => f.2 member.2 a
    | None => Some a
    end.
Definition decode {A} (fields : list (field A)) (zero : A) (value : json) : option A :=
  match value with
  | JObject members => fold_left (decode_member fields) members (Some zero)
  | JNull => Some zero
  | _ => None
  end.
