(* ===== verification/HermesClient.v ===== *)
(** The client of a Hermes gateway ([pkg/harness/hermes/gateway], client.go): the
    authenticated requests, the admission of the one run, and the polling of its status.
    The HTTP transport is an interface; a response's JSON is decoded field by field. *)

From S2P Require Import Prelude Utf8 Trace Core Redaction ConfigDeployment Config JsonFields.

(** * The client *)

Record Run := { rn_RunID : string; rn_Status : string; rn_SessionID : string; rn_Output : string; rn_Error : string }.
Definition no_Run : Run := {| rn_RunID := ""; rn_Status := ""; rn_SessionID := ""; rn_Output := ""; rn_Error := "" |}.
Definition run_fields : list (field Run) :=
  [string_field "run_id" (fun x r => {| rn_RunID := x; rn_Status := rn_Status r; rn_SessionID := rn_SessionID r;
                                        rn_Output := rn_Output r; rn_Error := rn_Error r |});
   string_field "status" (fun x r => {| rn_RunID := rn_RunID r; rn_Status := x; rn_SessionID := rn_SessionID r;
                                        rn_Output := rn_Output r; rn_Error := rn_Error r |});
   string_field "session_id" (fun x r => {| rn_RunID := rn_RunID r; rn_Status := rn_Status r; rn_SessionID := x;
                                            rn_Output := rn_Output r; rn_Error := rn_Error r |});
   string_field "output" (fun x r => {| rn_RunID := rn_RunID r; rn_Status := rn_Status r;
                                        rn_SessionID := rn_SessionID r; rn_Output := x; rn_Error := rn_Error r |});
   string_field "error" (fun x r => {| rn_RunID := rn_RunID r; rn_Status := rn_Status r;
                                       rn_SessionID := rn_SessionID r; rn_Output := rn_Output r; rn_Error := x |})]%string.
(** The answer to an admission: an embedded [Run] and [replayed]. *)
Definition admitted_fields : list (field (Run * bool)) :=
  bool_field "replayed" (fun x a => (a.1, x)) ::
  map (fun f => (f.1, fun v a => (fun r => (r, a.2)) <$> f.2 v a.1)) run_fields.
Definition catalog_fields : list (field (string * option (list json))) :=
  [string_field "object" (fun x a => (x, a.2)); array_field "data" (fun x a => (a.1, x))].

(** [Client]: its [http] is the interface below. *)
Record Client := { cl_closed : bool; cl_base : string; cl_token : string }.

Record HTTPRequest := {
  hp_Method : string;
  hp_URL : string;
  hp_Header : list (string * string);
  hp_Body : option bytes
}.
Class Transport (W : Type) := {
  http_Do : Ctx -> HTTPRequest -> M W (Z * nat + err);    (* the status and the body *)
  http_ReadBody : nat -> Z -> M W (bytes * error);        (* io.ReadAll of a LimitReader *)
  http_CloseBody : nat -> M W unit;
  http_CloseIdle : M W unit;
  (* the select on a timer and the context: the context's error when it is done *)
  await_timer : Ctx -> Z -> M W (option sentinel)
}.

(** [New]. *)
Section Client.
Variable url_Parse : string -> option FullURL.
Variable valid_request : string -> string -> bool.   (* http.NewRequest accepts method and URL *)
Variable json_Unmarshal : string -> option json.

Definition trim_slashes (s : string) : string := rev_string (of_bytes (Paths.drop_slashes (rev (to_bytes s)))).
Definition bad_endpoint (u : FullURL) : bool :=
  negb (http_scheme u) || String.eqb (ul_Host u) "" || negb (plain_url u) ||
  negb (String.eqb (ul_Path u) "") && negb (String.eqb (ul_Path u) "/").
Definition New (baseURL token : string) : Client + err :=
  if match url_Parse baseURL with None => true | Some u => bad_endpoint u end
  then inr (ENew "invalid Hermes Gateway endpoint")
  else if String.eqb (TrimSpace token) "" || ContainsAny token [CR; NL]
  then inr (ENew "invalid Hermes Gateway credential")
  else inl {| cl_closed := false; cl_base := trim_slashes baseURL; cl_token := token |}.

Definition validID (id : string) : bool :=
  negb (String.eqb id "") && (len id <=? 256) &&
  forallb (fun c => is_alnum c || Ascii.eqb c "-" || Ascii.eqb c "_") (to_bytes id).

Context {W : Type} `{!Runtime W} `{!Transport W}.

(** [Close]. *)
Definition client_Close (c : Client) : M W Client :=
  let* _ := http_CloseIdle in ret {| cl_closed := true; cl_base := cl_base c; cl_token := "" |}.

(** [request]: the body is encoded by the caller. *)
Definition maxResponseBytes : Z := 8 * 2 ^ 20.
Definition headers (c : Client) (input : option bytes) : list (string * string) :=
  [("Authorization", "Bearer " +:+ cl_token c); ("Accept", "application/json")]%string ++
  match input with Some _ => [("Content-Type", "application/json")]%string | None => [] end.
Definition read_response {A} (ctx : Ctx) (body : nat) (output : list (field A)) (zero : A) : M W (A + err) :=
  let* (data, e) := http_ReadBody body (maxResponseBytes + 1) in
  match e with
  | Some _ =>
      let* done := ctx_Err ctx in
      ret (inr match done with Some s => ESentinel s | None => ENew "read Hermes Gateway response" end)
  | None =>
      if maxResponseBytes <? Z.of_nat (length data)
      then ret (inr (ENew "Hermes Gateway response exceeds size limit"))
      else match json_Unmarshal (of_bytes data) ≫= decode output zero with
           | None => ret (inr (ENew "invalid Hermes Gateway JSON response"))
           | Some value => ret (inl value)
           end
  end.
Definition request {A} (c : Client) (ctx : Ctx) (method path : string) (input : option bytes) (want : Z)
    (output : list (field A)) (zero : A) : M W (A + err) :=
  if negb (valid_request method (cl_base c +:+ path)) then ret (inr (ENew "construct Hermes Gateway request"))
  else if cl_closed c then ret (inr (ENew "Hermes Gateway client closed"))
  else
    let* response := http_Do ctx {| hp_Method := method; hp_URL := cl_base c +:+ path; hp_Header := headers c input;
                                    hp_Body := input |} in
    match response with
    | inr _ =>
        let* done := ctx_Err ctx in
        ret (inr match done with Some s => ESentinel s | None => ENew "Hermes Gateway HTTP request failed" end)
    | inl (status, body) =>
        let* result := if status =? want then read_response ctx body output zero
                       else ret (inr (ENew ("Hermes Gateway returned HTTP " +:+ itoa status))) in
        let* _ := http_CloseBody body in
        ret result
    end.

Definition client_Ready (c : Client) (ctx : Ctx) : M W error :=
  let* models := request c ctx "GET" "/v1/models" None 200 catalog_fields (""%string, None) in
  ret match models with
      | inr e => Some e
      | inl (object, data) =>
          refuse_if negb (String.eqb object "list") || negb (is_some data)
            with "invalid Hermes Gateway model catalog"
      end.

(** [Submit]; [json.Marshal] of the two strings. *)
Definition json_string (s : string) : bytes := ["034"%char] ++ json_escape (to_bytes s) ++ ["034"%char].
Definition submission (input sessionID : string) : bytes :=
  to_bytes "{" ++ json_string "input" ++ to_bytes ":" ++ json_string input ++ to_bytes "," ++
  json_string "session_id" ++ to_bytes ":" ++ json_string sessionID ++ to_bytes "}".
Definition Submit (c : Client) (ctx : Ctx) (input sessionID : string) : M W (string + err) :=
  if String.eqb (TrimSpace input) "" || String.eqb (TrimSpace sessionID) ""
  then ret (inr (ENew "Hermes Gateway input and session ID are required"))
  else
    let* admitted := request c ctx "POST" "/v1/runs" (Some (submission input sessionID)) 202 admitted_fields (no_Run, false) in
    ret match admitted with
        | inr e => inr e
        | inl (run, replayed) =>
            if negb (String.eqb (rn_Status run) "started") || replayed ||
               negb (String.eqb (rn_SessionID run) "") && negb (String.eqb (rn_SessionID run) sessionID)
            then inr (ENew "invalid Hermes Gateway admission state")
            else if negb (validID (rn_RunID run)) then inr (ENew "invalid Hermes Gateway admission ID")
            else inl (rn_RunID run)
        end.

Definition terminal_status (status : string) : bool :=
  one_of status ["completed"; "failed"; "cancelled"; "interrupted"]%string.
Definition Status (c : Client) (ctx : Ctx) (runID : string) : M W (Run + err) :=
  if negb (validID runID) then ret (inr (ENew "invalid Hermes Gateway run ID"))
  else
    let* run := request c ctx "GET" ("/v1/runs/" +:+ runID) None 200 run_fields no_Run in
    ret match run with
        | inr e => inr e
        | inl run =>
            if negb (String.eqb (rn_RunID run) runID) then inr (ENew "Hermes Gateway run ID mismatch")
            else if one_of (rn_Status run) ["queued"; "started"; "running"; "waiting_for_approval"; "stopping"]%string ||
                    terminal_status (rn_Status run)
            then inl run
            else inr (ENew "unknown Hermes Gateway run status")
        end.

(** [Wait], with a bound on the number of polls ([None]: it is not over by then). The
    client is read again at each poll. *)
Fixpoint poll (fuel : nat) (get : M W Client) (ctx : Ctx) (runID : string) (pollInterval : Z) : M W (option (Run + err)) :=
  match fuel with
  | O => ret None
  | S fuel =>
      let* c := get in
      let* run := Status c ctx runID in
      match run with
      | inr e => ret (Some (inr e))
      | inl run =>
          if terminal_status (rn_Status run) then ret (Some (inl run))
          else
            let* done := await_timer ctx pollInterval in
            match done with
            | Some s => ret (Some (inr (ESentinel s)))
            | None => poll fuel get ctx runID pollInterval
            end
      end
  end.
Definition Wait (fuel : nat) (get : M W Client) (ctx : Ctx) (runID : string) (pollInterval : Z) : M W (option (Run + err)) :=
  if pollInterval <=? 0 then ret (Some (inr (ENew "Hermes Gateway poll interval must be positive")))
  else poll fuel get ctx runID pollInterval.

Definition client_Stop (c : Client) (ctx : Ctx) (runID : string) : M W error :=
  if negb (validID runID) then ret (Some (ENew "invalid Hermes Gateway run ID"))
  else
    let* run := request c ctx "POST" ("/v1/runs/" +:+ runID +:+ "/stop") None 200 run_fields no_Run in
    ret match run with
        | inr e => Some e
        | inl run =>
            (refuse_if negb (String.eqb (rn_RunID run) runID) with "Hermes Gateway stop run ID mismatch") >>?
            (refuse_if negb (String.eqb (rn_Status run) "stopping" || terminal_status (rn_Status run))
               with "invalid Hermes Gateway stop status")
        end.
End Client.

(** * The traffic of a client *)

#[export] Instance traced_transport {W} `{!Transport W} : Transport (W * list HTTPRequest) := {|
  http_Do ctx r := logged (fun _ => r) (http_Do ctx r);
  http_ReadBody body limit := silent (http_ReadBody body limit);
  http_CloseBody body := silent (http_CloseBody body);
  http_CloseIdle := silent http_CloseIdle;
  await_timer ctx interval := silent (await_timer ctx interval)
|}.

Section Traffic.
Variable valid_request : string -> string -> bool.
Variable json_Unmarshal : string -> option json.
Context {W : Type} `{!Runtime W} `{!Transport W}.

Definition sends (c : Client) (method path : string) (input : option bytes) (evs : list HTTPRequest) : Prop :=
  evs = [] \/
  cl_closed c = false /\
  evs = [{| hp_Method := method; hp_URL := cl_base c +:+ path; hp_Header := headers c input; hp_Body := input |}].
(** One request at most, and an answer only from one. *)
Lemma request_emits {A} (c : Client) ctx method path input want (output : list (field A)) zero :
  emits (request (W := W * list HTTPRequest) valid_request json_Unmarshal c ctx method path input want output zero)
    (fun r evs => sends c method path input evs /\ forall a, r = inl a -> evs <> []).
Proof.
  unfold request, sends. destruct (negb _); [apply emits_ret; by split; [left|]|].
  destruct (cl_closed c); [apply emits_ret; by split; [left|]|]. apply emits_call. intros [[status body]|e].
  - apply (emits_bind _ _ (fun _ evs => evs = [])).
    + destruct (status =? want); [|by apply emits_ret]. unfold read_response. emits_steps; done.
    + intros result evs ->. apply emits_read. intros []. apply emits_ret. split; [by right|done].
  - apply emits_read. intros done_. apply emits_ret. split; [by right|]. done.
Qed.
End Traffic.

(** A submission is made once: [Submit] sends at most one request, an authenticated
    [POST /v1/runs] to the client's own endpoint with the input and the session, none
    when the client is closed, whatever the gateway answers; and it gives a run only
    when the request has gone out and the answer names a well-formed identity. *)
Theorem submit_admits_once (valid_request : string -> string -> bool) (json_Unmarshal : string -> option json)
    {W} `{!Runtime W} `{!Transport W} (c : Client) (ctx : Ctx) (input sessionID : string) :
  emits (Submit (W := W * list HTTPRequest) valid_request json_Unmarshal c ctx input sessionID) (fun r evs =>
    sends c "POST" "/v1/runs" (Some (submission input sessionID)) evs /\
    forall id, r = inl id -> evs <> [] /\ validID id = true).
Proof.
  unfold Submit. destruct (_ || _); [apply emits_ret; by split; [left|]|].
  eapply emits_bind; [apply request_emits|]. intros [[run replayed]|e] evs [Hs Ha]; apply emits_ret; rewrite app_nil_r; [|by split].
  destruct (_ || _); [by split|]. destruct (validID (rn_RunID run)) eqn:Hid; [|by split].
  split; [done|]. intros id [= <-]. split; [by eapply Ha|done].
Qed.

Section Polling.
Variable valid_request : string -> string -> bool.
Variable json_Unmarshal : string -> option json.
Context {W : Type} `{!Runtime W} `{!Transport W}.

Definition status_answer (runID : string) (r : Run + err) : Prop :=
  match r with
  | inl run => rn_RunID run = runID /\
      (terminal_status (rn_Status run) = true \/
       one_of (rn_Status run) ["queued"; "started"; "running"; "waiting_for_approval"; "stopping"]%string = true)
  | inr _ => True
  end.
Lemma Status_emits c ctx runID :
  emits (Status (W := W * list HTTPRequest) valid_request json_Unmarshal c ctx runID) (fun r evs =>
    sends c "GET" ("/v1/runs/" +:+ runID) None evs /\ status_answer runID r /\ forall run, r = inl run -> evs <> []).
Proof.
  unfold Status. destruct (negb _); [apply emits_ret; by split_and!; [left| |]|].
  eapply emits_bind; [apply request_emits|]. intros [run|e] evs [Hs Ha]; apply emits_ret; rewrite app_nil_r; [|by split_and!].
  destruct (String.eqb_spec (rn_RunID run) runID) as [Hid|]; [|by split_and!]. cbn [negb].
  destruct (one_of _ _) eqn:Hone; cbn [orb].
  - split_and!; [done|split; [done|by right]|]. intros ? _. by eapply Ha.
  - destruct (terminal_status _) eqn:Hterm; [|by split_and!]. split_and!; [done|split; [done|by left]|].
    intros ? _. by eapply Ha.
Qed.

(** The requests of a wait, of which there is one per poll. *)
Definition status_request (runID : string) (ev : HTTPRequest) : Prop :=
  exists c, sends c "GET" ("/v1/runs/" +:+ runID) None [ev].
Lemma sends_status c runID evs :
  sends c "GET" ("/v1/runs/" +:+ runID) None evs -> Forall (status_request runID) evs /\ (length evs <= 1)%nat.
Proof.
  intros [->|[Hc ->]]; [split; [constructor|simpl; lia]|]. split; [|simpl; lia].
  constructor; [|constructor]. exists c. by right.
Qed.
Lemma poll_emits fuel (get : M W Client) ctx runID interval :
  emits (poll valid_request json_Unmarshal fuel (silent get) ctx runID interval) (fun r evs =>
    Forall (status_request runID) evs /\ (length evs <= fuel)%nat /\
    forall run, r = Some (inl run) -> rn_RunID run = runID /\ terminal_status (rn_Status run) = true /\ evs <> []).
Proof.
  induction fuel as [|fuel IH]; [apply emits_ret; split_and!; [constructor|simpl; lia|done]|]. cbn [poll].
  apply emits_read. intros c. eapply emits_bind; [apply Status_emits|]. intros run evs (Hs & Ha & Hsent).
  destruct (sends_status _ _ _ Hs) as [Hf Hl]. destruct run as [run|e].
  2: { apply emits_ret. rewrite app_nil_r. split_and!; [done|lia|done]. }
  destruct (terminal_status (rn_Status run)) eqn:Ht.
  { apply emits_ret. rewrite app_nil_r. split_and!; [done|lia|]. intros run' [= <-]. destruct Ha as [-> _].
    split_and!; [done|done|]. by eapply Hsent. }
  apply emits_read. intros [s|]; [apply emits_ret; rewrite app_nil_r; split_and!; [done|lia|done]|].
  eapply emits_mono; [apply IH|]. intros r evs' (Hf' & Hl' & Hr). split_and!; [by apply Forall_app|rewrite length_app; lia|].
  intros run' Hrun. destruct (Hr run' Hrun) as (? & ? & Hne). split_and!; [done|done|]. by intros [_ ?]%app_nil.
Qed.
End Polling.

(** A wait only looks: it sends nothing but status requests for the run it was
    given, at most one per poll, and what it gives is a terminal status of that run,
    read from an answer; the gateway cannot make it take another run for this one. *)
Theorem wait_only_polls (valid_request : string -> string -> bool) (json_Unmarshal : string -> option json)
    {W} `{!Runtime W} `{!Transport W} (fuel : nat) (get : M W Client) (ctx : Ctx) (runID : string) (interval : Z) :
  emits (Wait valid_request json_Unmarshal fuel (silent get) ctx runID interval) (fun r evs =>
    Forall (status_request runID) evs /\ (length evs <= fuel)%nat /\
    forall run, r = Some (inl run) -> rn_RunID run = runID /\ terminal_status (rn_Status run) = true /\ evs <> []).
Proof.
  unfold Wait. destruct (interval <=? 0); [|apply poll_emits]. apply emits_ret. split_and!; [constructor|simpl; lia|done].
Qed.

(** * The end of a wait *)

(** A clock that the operations do not turn back, that a timer moves on, and a context
    whose requests fail from [deadline] on. *)
Record expires {W} `{!Runtime W} `{!Transport W} (clock : W -> Z) (deadline : Z) (ctx : Ctx) (interval : Z) : Prop := {
  ex_Do c req w : clock w <= clock (http_Do c req w).2;
  ex_ReadBody body limit w : clock w <= clock (http_ReadBody body limit w).2;
  ex_CloseBody body w : clock w <= clock (http_CloseBody body w).2;
  ex_Err c w : clock w <= clock (ctx_Err c w).2;
  ex_timer w : (await_timer ctx interval w).1 = None -> clock w + interval <= clock (await_timer ctx interval w).2;
  ex_deadline req w : deadline <= clock w -> exists e, (http_Do ctx req w).1 = inr e
}.

Section Ending.
Variable valid_request : string -> string -> bool.
Variable json_Unmarshal : string -> option json.
Context {W : Type} `{!Runtime W} `{!Transport W} (clock : W -> Z) (deadline : Z) (ctx : Ctx) (interval : Z).
Hypothesis Hexpires : expires clock deadline ctx interval.

Lemma read_response_clock {A} body (output : list (field A)) zero w :
  clock w <= clock (read_response json_Unmarshal ctx body output zero w).2.
Proof using Hexpires.
  unfold read_response, bind, ret. pose proof (ex_ReadBody _ _ _ _ Hexpires body (maxResponseBytes + 1) w) as H1.
  destruct (http_ReadBody _ _ w) as [[data [e|]] w1]; simpl in *.
  - pose proof (ex_Err _ _ _ _ Hexpires ctx w1) as H2. destruct (ctx_Err ctx w1). simpl in *. lia.
  - destruct (_ <? _); [done|]. by destruct (_ ≫= _).
Qed.
Lemma request_clock {A} c method path input want (output : list (field A)) zero w :
  clock w <= clock (request valid_request json_Unmarshal c ctx method path input want output zero w).2 /\
  (deadline <= clock w ->
   exists e, (request valid_request json_Unmarshal c ctx method path input want output zero w).1 = inr e).
Proof using Hexpires.
  unfold request, bind, ret. destruct (negb _); [simpl; eauto with lia|]. destruct (cl_closed c); [simpl; eauto with lia|].
  set (r := {| hp_Method := _ |}). pose proof (ex_Do _ _ _ _ Hexpires ctx r w) as H1.
  pose proof (ex_deadline _ _ _ _ Hexpires r w) as Hd. destruct (http_Do ctx r w) as [[[status body]|e] w1]; simpl in *.
  - split; [|intros Hc; by destruct (Hd Hc)]. pose proof (read_response_clock body output zero w1) as H2.
    destruct (status =? want).
    + destruct (read_response _ _ _ _ _ w1) as [result w2]. simpl in H2.
      pose proof (ex_CloseBody _ _ _ _ Hexpires body w2) as H3. destruct (http_CloseBody body w2). simpl in *. lia.
    + pose proof (ex_CloseBody _ _ _ _ Hexpires body w1) as H3. destruct (http_CloseBody body w1). simpl in *. lia.
  - pose proof (ex_Err _ _ _ _ Hexpires ctx w1) as H2. destruct (ctx_Err ctx w1). simpl in *. split; [lia|eauto].
Qed.
Lemma Status_clock c runID w :
  clock w <= clock (Status valid_request json_Unmarshal c ctx runID w).2 /\
  (deadline <= clock w -> exists e, (Status valid_request json_Unmarshal c ctx runID w).1 = inr e).
Proof using Hexpires.
  unfold Status. destruct (negb _); [simpl; eauto with lia|]. unfold bind, ret.
  destruct (request_clock c "GET" ("/v1/runs/" +:+ runID) None 200 run_fields no_Run w) as [H1 H2].
  destruct (request _ _ _ _ _ _ _ _ _ _ w) as [run w1]. simpl in *. split; [done|].
  intros Hd. destruct (H2 Hd) as [e ->]. eauto.
Qed.
Lemma run_poll_ends n (get : M W Client) runID w :
  (forall w, clock w <= clock (get w).2) -> deadline <= clock w + Z.of_nat n * interval ->
  (poll valid_request json_Unmarshal (S n) get ctx runID interval w).1 <> None.
Proof using Hexpires.
  intros Hget. revert w. induction n as [|n IH]; intros w Hw; set (m := S n) || idtac; cbn [poll]; unfold bind at 1.
  - pose proof (Hget w) as H0. destruct (get w) as [c w0]. simpl in H0. unfold bind at 1.
    destruct (Status_clock c runID w0) as [_ H1]. destruct (H1 ltac:(lia)) as [e He].
    destruct (Status _ _ _ _ _ w0) as [run w1]. simpl in He. by subst run.
  - pose proof (Hget w) as H0. destruct (get w) as [c w0]. simpl in H0. unfold bind at 1.
    destruct (Status_clock c runID w0) as [H1 _]. destruct (Status _ _ _ _ _ w0) as [[run|e] w1]; [|done]. simpl in H1.
    destruct (terminal_status _); [done|]. unfold bind at 1. pose proof (ex_timer _ _ _ _ Hexpires w1) as H2.
    destruct (await_timer ctx interval w1) as [[s|] w2]; [done|]. simpl in H2. apply IH. specialize (H2 eq_refl). lia.
Qed.
End Ending.

(** A wait ends: where the requests of its context fail from a deadline on and the
    timer takes the poll interval, as many polls as intervals fit before the deadline,
    and one more, give a status or an error. *)
Theorem wait_ends (valid_request : string -> string -> bool) (json_Unmarshal : string -> option json)
    {W} `{!Runtime W} `{!Transport W} (clock : W -> Z) (deadline : Z) (ctx : Ctx) (interval : Z)
    (n : nat) (get : M W Client) (runID : string) (w : W) :
  expires clock deadline ctx interval -> (forall w, clock w <= clock (get w).2) ->
  deadline <= clock w + Z.of_nat n * interval ->
  (Wait valid_request json_Unmarshal (S n) get ctx runID interval w).1 <> None.
Proof.
  intros Hexpires Hget Hw. unfold Wait. destruct (interval <=? 0); [done|]. by apply (run_poll_ends _ _ clock deadline).
Qed.

(** A gateway whose run goes on until the context is over, at 1000. *)
#[local] Instance demo_runtime : Runtime Z := {| time_Now w := (w, w); ctx_Err _ w := (if 1000 <=? w then Some DeadlineExceeded else None, w) |}.
#[local] Instance demo_transport : Transport Z := {|
  http_Do _ _ w := (if 1000 <=? w then inr (ENew "deadline") else inl (200, 0%nat), w + 3);
  http_ReadBody _ _ := ret ([], None);
  http_CloseBody _ := ret tt;
  http_CloseIdle := ret tt;
  await_timer _ interval w := (if 1000 <=? w then Some DeadlineExceeded else None, w + interval)
|}.
Definition demo_json (_ : string) : option json := Some (JObject [("Run_ID", JString "r"); ("status", JString "running")])%string.
Definition demo_client : Client := {| cl_closed := false; cl_base := "http://h"; cl_token := "t" |}.
Definition demo_wait (fuel : nat) : M Z (option (Run + err)) :=
  Wait (fun _ _ => true) demo_json fuel (ret demo_client) Background "r" 100.
Lemma demo_expires : expires (fun w : Z => w) 1000 Background 100.
Proof.
  split; simpl; intros; try lia. destruct (Z.leb_spec 1000 w); [eauto|lia].
Qed.
Lemma wait_ends_witness : (demo_wait 11 0).1 = Some (inr (ESentinel DeadlineExceeded)) /\ (demo_wait 11 0).1 <> None.
Proof.
  split; [vm_compute; reflexivity|].
  apply (wait_ends (fun _ _ => true) demo_json (fun w => w) 1000 Background 100 10 (ret demo_client) "r" 0);
    [apply demo_expires|intros; simpl; lia|simpl; lia].
Defined.
