(* ===== verification/HermesConfig.v ===== *)
(** The configuration of a Hermes runtime ([pkg/harness/hermes], config.go): the
    rendered [config.yaml], the container's environment and the launcher that hands the
    staged keys to the gateway. YAML's own text is the library's; what is modelled is the
    document handed to it. *)

From S2P Require Import Prelude Utf8 Core Net Preparation ConfigDeployment Config HarnessConfig.

(** * Documents *)

(** A value handed to [yaml.Marshal], a map in the order its keys were first set; a
    node is a scalar with a tag, written out or not. *)
Inductive yaml :=
  | YNull
  | YBool (b : bool)
  | YInt (z : Z)
  | YString (s : string)
  | YList (items : list yaml)
  | YMap (members : list (string * yaml))
  | YNode (tag : string) (tagged : bool) (value : string).

(** An assignment to a map, and a lookup. *)
Definition members := list (string * yaml).
Fixpoint assign (key : string) (value : yaml) (m : members) : members :=
  match m with
  | [] => [(key, value)]
  | (k, v) :: m => if String.eqb k key then (k, value) :: m else (k, v) :: assign key value m
  end.
Fixpoint member (key : string) (m : members) : option yaml :=
  match m with
  | [] => None
  | (k, v) :: m => if String.eqb k key then Some v else member key m
  end.
Definition assign_all (values m : members) : members := fold_left (fun m kv => assign kv.1 kv.2 m) values m.
Definition YStrings (l : list string) : yaml := YList (map YString l).
Definition set_if (b : bool) (key : string) (value : yaml) (m : members) : members := if b then assign key value m else m.

(** [yamlJSONNumbers] on a decoded value: a number keeps its text. *)
Definition float_text (text : string) : bool := ContainsAny text ["."; "e"; "E"]%char.
Definition yaml_number (text : string) : yaml :=
  if float_text text then YNode "!!float" true text else YNode "!!int" false text.
Fixpoint yamlJSONNumbers (value : json) : yaml :=
  match value with
  | JNull => YNull
  | JBool b => YBool b
  | JNumber text => yaml_number text
  | JString s => YString s
  | JArray items => YList (map yamlJSONNumbers items)
  | JObject object => YMap (fold_left (fun m kv => assign kv.1 kv.2 m) (map (fun kv => (kv.1, yamlJSONNumbers kv.2)) object) [])
  end.

(** * Paths *)

Definition stagedRoot : string := "/run/aries".
Definition stateContainerPath : string := stagedRoot +:+ "/hermes".
Definition configContainerPath : string := stateContainerPath +:+ "/config.yaml".
Definition modelKeyPath : string := stateContainerPath +:+ "/model.key".
Definition extractKeyPath : string := stateContainerPath +:+ "/tavily.key".
Definition voiceKeyPath : string := stateContainerPath +:+ "/voice.key".
Definition voiceWAVPath : string := stateContainerPath +:+ "/voice-instruction.wav".
Definition gatewayLauncherPath : string := stagedRoot +:+ "/run-gateway".
Definition gatewayKeyPath : string := stagedRoot +:+ "/gateway.key".
Definition workspaceRoot : string := stagedRoot +:+ "/workspace".
Definition otelStorePath : string := stateContainerPath +:+ "/hermes_otel_live.db".
Definition mcpKeyPath (hostVar : string) : string := stateContainerPath +:+ "/mcp_" +:+ hostVar +:+ ".key".

(** * config.yaml *)

Record CompactionSettings := { cs_Enabled : option bool; cs_ThresholdTokens : Z }.
Record VoiceSTTOptions := { vs_Provider : string; vs_Model : string; vs_Language : string; vs_Timeout : Z }.
Record renderSettings := {
  rs_maxTurns : Z;
  rs_webSearchEnabled : bool;
  rs_extractEnabled : bool;
  rs_subagentsEnabled : bool;
  rs_maxConcurrentSubagents : Z;
  rs_compaction : option CompactionSettings;
  rs_extraBody : bytes;
  rs_mcpServers : list MCPServerConfig;
  rs_noSandboxTools : bool;
  rs_grpcTarget : string
}.
Definition hermesProvider (backend : string) : string := if OpenAICompatible backend then "custom" else backend.
Definition sandboxToolsets : list string := ["terminal"; "file"; "code_execution"]%string.

Definition reserved_name (name : string) : bool := HasPrefix name "API_SERVER_".
Definition validateGeneration (model : ModelConfig) : error :=
  (refuse_if (mc_ContextLength model <? 0) || (mc_MaxTokens model <? 0)
     with "Hermes context length and max tokens must be positive") >>?
  (refuse_if (0 <? mc_ContextLength model) && (0 <? mc_MaxTokens model) && (mc_ContextLength model <=? mc_MaxTokens model)
     with "Hermes max tokens must be smaller than the context length") >>?
  match mc_Temperature model with
  | None => None
  | Some t => refuse_if IsNaN t || IsInf t || f64_ltb t f64_zero || f64_ltb (f64_of_Z 2) t
                with "Hermes temperature must be between 0 and 2"
  end.

(** The blocks of the document. *)
Definition model_block (model : ModelConfig) (provider : string) : members :=
  set_if (0 <? mc_MaxTokens model) "max_tokens" (YInt (mc_MaxTokens model))
  (set_if (0 <? mc_ContextLength model) "context_length" (YInt (mc_ContextLength model))
     [("default", YString (mc_Model model)); ("provider", YString provider); ("base_url", YString (mc_BaseURL model));
      ("api_key", YString ("${" +:+ mc_APIKeyEnv model +:+ "}")); ("api_mode", YString "chat_completions")]%string).
Definition disabled_toolsets (s : renderSettings) : list string :=
  (if rs_subagentsEnabled s then [] else ["delegation"%string]) ++ (if rs_noSandboxTools s then sandboxToolsets else []).
Definition agent_block (s : renderSettings) : members :=
  set_if (negb (bool_decide (disabled_toolsets s = []))) "disabled_toolsets" (YStrings (disabled_toolsets s))
    [("max_turns", YInt (rs_maxTurns s))]%string.
Definition plugins_block (s : renderSettings) : members :=
  if String.eqb (rs_grpcTarget s) "" then [("enabled", YStrings ["hermes_otel"])]%string
  else [("enabled", YStrings ["hermes_otel"; "aries"]);
        ("entries", YMap [("aries", YMap [("settings", YMap [("grpc_target", YString (rs_grpcTarget s))])])])]%string.
Definition compression_block (c : CompactionSettings) : yaml :=
  let m := match cs_Enabled c with Some b => [("enabled", YBool b)]%string | None => [] end in
  match set_if (0 <? cs_ThresholdTokens c) "threshold_tokens" (YInt (cs_ThresholdTokens c)) m with
  | [] => YNull
  | m => YMap m
  end.
Definition toolsets (s : renderSettings) : list string :=
  (if rs_noSandboxTools s then [] else sandboxToolsets) ++
  (if rs_subagentsEnabled s then ["delegation"%string] else []) ++
  (if rs_webSearchEnabled s then ["web"%string] else []).
Definition stt_block (v : VoiceSTTOptions) : yaml :=
  YMap [("enabled", YBool true); ("provider", YString (vs_Provider v)); ("openai", YMap [("model", YString (vs_Model v))]);
        ("local", YMap [("model", YString (vs_Model v)); ("language", YString (vs_Language v))])]%string.
Definition string_map (m : gmap string string) : yaml :=
  YMap (map (fun key => (key, YString (default "" (m !! key)))) (sorted_keys m)).
Definition server_entry (server : MCPServerConfig) : members :=
  let entry :=
    if negb (String.eqb (mp_URL server) "") then
      set_if (String.eqb (mp_Transport server) "sse") "transport" (YString "sse") [("url", YString (mp_URL server))]%string
    else if negb (String.eqb (mp_Command server) "") then
      set_if (negb (bool_decide (mp_Env server = ∅)) || negb (bool_decide (mp_SecretEnv server = ∅)))
        "env" (string_map (server_environment server))
      (set_if (negb (bool_decide (mp_Args server = []))) "args" (YStrings (mp_Args server))
        [("command", YString (mp_Command server))]%string)
    else [] in
  set_if (0 <? mp_TimeoutSeconds server) "timeout" (YInt (mp_TimeoutSeconds server)) entry.

Section Render.
Variable url_Parse : string -> option FullURL.
Variable url_String : FullURL -> string.
(** [json.Decoder.Decode] with [UseNumber]: the next value, and what is left. *)
Variable json_Decode : bytes -> (json + err) * bytes.
Variable FormatFloat : float64 -> string.
Variable yaml_Marshal : yaml -> bytes + err.

Definition validateModel (model : ModelConfig) : error :=
  ValidateModel url_Parse url_String "Hermes" model >>?
  (refuse_if reserved_name (mc_APIKeyEnv model) with "Hermes model credential uses reserved API_SERVER_ namespace").

Definition bad_extra_body : err := ENew "Hermes extra_body must be a non-empty JSON object".
Definition decode_extra_body (raw : bytes) : checked members :=
  if bool_decide (raw = []) then inl []
  else match json_Decode raw with
       | (inl (JObject object), rest) =>
           match yamlJSONNumbers (JObject object), (json_Decode rest).1 with
           | YMap ((_ :: _) as body), inr (ESentinel ErrEOF) => inl body
           | _, _ => inr bad_extra_body
           end
       | _ => inr bad_extra_body
       end.
Definition conflict (body : members) (key : string) : error :=
  refuse_if is_some (member key body) with "Hermes model.reasoning_effort conflicts with extra_body." +:+ key.
Definition add_reasoning (reasoning : option json) (provider : string) (body : members) : checked (string * members) :=
  match reasoning with
  | Some (JObject fields) =>
      check_that (first_error (conflict body) ["reasoning_effort"; "thinking"; "reasoning"]%string)
        (inl ("custom"%string, assign_all (map (fun kv => (kv.1, yamlJSONNumbers kv.2)) fields) body))
  | _ => inl (provider, body)
  end.
Definition add_temperature (model : ModelConfig) (body : members) : checked members :=
  match mc_Temperature model with
  | None => inl body
  | Some t =>
      check_that
        ((refuse_if negb (OpenAICompatible (mc_Provider model)) with "Hermes temperature requires the sglang or openai backend") >>?
         (refuse_if is_some (member "temperature" body) with "Hermes model.temperature conflicts with extra_body.temperature"))
        (inl (assign "temperature" (YNode "!!float" true (FormatFloat t)) body))
  end.
Definition normalized_model (model : ModelConfig) : checked ModelConfig :=
  if OpenAICompatible (mc_Provider model)
  then match NormalizeV1BaseURL url_Parse url_String (mc_BaseURL model) with
       | inl url => inl (set_mc_BaseURL url model)
       | inr e => inr (EWrap ("Hermes " +:+ mc_Provider model +:+ " base URL") e)
       end
  else inl model.
Definition check_compaction (model : ModelConfig) (c : option CompactionSettings) : error :=
  match c with
  | None => None
  | Some c =>
      (refuse_if cs_ThresholdTokens c <? 0 with "Hermes compaction threshold must be positive") >>?
      (refuse_if (0 <? mc_ContextLength model) && (mc_ContextLength model <=? cs_ThresholdTokens c)
         with "Hermes compaction threshold must be smaller than the context length")
  end.
Definition document (model : ModelConfig) (s : renderSettings) (voiceSTT : option VoiceSTTOptions) (provider : string)
    (body : members) : members :=
  let config := [("model", YMap (model_block model provider)); ("agent", YMap (agent_block s));
                 ("plugins", YMap (plugins_block s));
                 ("display", YMap [("streaming", YBool false); ("compact", YBool true)])]%string in
  let config := match rs_compaction s with Some c => assign "compression" (compression_block c) config | None => config end in
  let config := set_if (negb (bool_decide (body = []))) "custom_providers"
                  (YList [YMap [("name", YString "aries"); ("base_url", YString (mc_BaseURL model)); ("extra_body", YMap body)]%string]) config in
  let config := set_if (rs_subagentsEnabled s && (0 <? rs_maxConcurrentSubagents s)) "delegation"
                  (YMap [("max_concurrent_children", YInt (rs_maxConcurrentSubagents s))]%string) config in
  let config := match voiceSTT with Some v => assign "stt" (stt_block v) config | None => config end in
  let config := assign "platform_toolsets" (YMap [("api_server", YStrings (toolsets s))]%string) config in
  let config := set_if (rs_webSearchEnabled s) "web"
                  (YMap (set_if (rs_extractEnabled s) "extract_backend" (YString "tavily")
                           [("search_backend", YString "searxng")]%string)) config in
  set_if (negb (bool_decide (rs_mcpServers s = []))) "mcp_servers"
    (YMap (assign_all (map (fun server => (mp_Name server, YMap (server_entry server))) (rs_mcpServers s)) [])) config.
Definition rendered (model : ModelConfig) (s : renderSettings) (voiceSTT : option VoiceSTTOptions) : checked members :=
  check_that (validateModel model >>? validateGeneration model)
  (check_bind (normalized_model model) (fun model =>
   check_that
     ((refuse_if existsb (fun server => existsb (fun kv => reserved_name kv.2) (map_to_list (mp_SecretEnv server))) (rs_mcpServers s)
         with "Hermes MCP credential source uses reserved API_SERVER_ namespace") >>?
      (refuse_if rs_maxTurns s <=? 0 with "Hermes max turns must be positive") >>?
      check_compaction model (rs_compaction s) >>?
      (refuse_if negb (bool_decide (rs_extraBody s = [])) && String.eqb (mc_Provider model) "deepseek"
         with "Hermes merges user extra_body only for the custom provider, not deepseek"))
   (check_bind (ReasoningBody model) (fun reasoning =>
    check_bind (decode_extra_body (rs_extraBody s)) (fun body =>
    check_bind (add_reasoning reasoning (hermesProvider (mc_Provider model)) body) (fun '(provider, body) =>
    check_bind (add_temperature model body) (fun body =>
    check_that
      (refuse_if negb (bool_decide (body = [])) && negb (String.eqb provider "custom")
         with "Hermes merges extra_body only for the custom provider, not " +:+ mc_Provider model)
      (inl (document model s voiceSTT provider body))))))))).
Definition renderConfig (model : ModelConfig) (s : renderSettings) (voiceSTT : option VoiceSTTOptions) : checked bytes :=
  check_bind (rendered model s voiceSTT) (fun config => yaml_Marshal (YMap config)).

(** [validWorkdir] and [renderTerminal]. *)
Definition workdir_byte (c : ascii) : bool := is_alnum c || mem c ["."; "_"; "-"]%char.
Definition workdir_component (part : bytes) : bool :=
  negb (bool_decide (part = [])) && negb (bool_decide (part = ["."%char])) && negb (bool_decide (part = ["."; "."]%char)) &&
  forallb workdir_byte part.
Definition validWorkdir (value : string) : bool :=
  String.eqb value "/" ||
  match to_bytes value with
  | "/"%char :: (_ :: _) as rest => negb (bool_decide (last rest = Some "/"%char)) && forallb workdir_component (split_bytes "/" (tail rest))
  | _ => false
  end.
Definition not_neutral (workdir : string) : err := ENew ("Hermes terminal workdir " +:+ quote workdir +:+ " is not shell-neutral").
Definition renderTerminal (backend workdir : string) (timeout : Z) : checked bytes :=
  check_that
    ((refuse_if String.eqb workdir "" with "Hermes endpoint does not name the sandbox workdir") >>?
     (if validWorkdir workdir then None else Some (not_neutral workdir)) >>?
     (refuse_if timeout <=? 0 with "Hermes terminal timeout must be positive"))
  (check_bind (yaml_Marshal (YMap [("terminal", YMap [("backend", YString backend); ("cwd", YString workdir); ("timeout", YInt timeout)])]%string))
     (fun rendered => inl (NL :: rendered))).

(** * Environment and launcher *)

Variable ParseIP : string -> option (list Z).
Definition validateEndpoint (endpoint : ToolEndpoint) : error :=
  let staged := negb (String.eqb (te_ClientCommand endpoint) "") || negb (String.eqb (te_ClientSourceFile endpoint) "") in
  if String.eqb (te_Protocol endpoint) "grpc"
  then refuse_if negb (String.eqb (te_Username endpoint) "aries") || staged
         with "Hermes requires a gRPC endpoint for user aries without a staged client"
  else (refuse_if negb (String.eqb (te_Protocol endpoint) "ssh") || negb (String.eqb (te_Username endpoint) "aries")
          with "Hermes requires a task-local SSH endpoint") >>?
       (refuse_if staged with "Hermes uses its own SSH client and accepts no bridge client command").

Definition otelMaxSpans : Z := 10000.
Definition containerEnvironment (endpoint : ToolEndpoint) (workdir : string) (terminalTimeout : Z) (webSearchEnabled : bool)
    (searchURL runID taskID : string) : checked (list string) :=
  check_that
    (validateEndpoint endpoint >>? ValidateRunID "Hermes" runID >>? ValidateTaskID "Hermes" taskID >>?
     (if validWorkdir workdir then None else Some (not_neutral workdir)) >>?
     (refuse_if terminalTimeout <=? 0 with "Hermes terminal timeout must be positive"))
  match SplitHostPort (te_Address endpoint) with
  | inr e => inr (EWrap "parse Hermes endpoint address" e)
  | inl (host, port) =>
      check_that
        ((refuse_if negb (ValidEndpointHost ParseIP host) with "Hermes endpoint host must be a unicast IPv4 address or DNS name") >>?
         (refuse_if bad_port port with "Hermes endpoint port is invalid"))
      (check_that (if webSearchEnabled then ValidateSearch url_Parse searchURL true else None)
      (inl (["HERMES_HOME=" +:+ stateContainerPath; "HERMES_YOLO_MODE=true"; "API_SERVER_HOST=0.0.0.0"; "API_SERVER_PORT=8642"]%string ++
            (if String.eqb (te_Protocol endpoint) "grpc" then ["TERMINAL_ENV=aries"]%string
             else ["TERMINAL_ENV=ssh"; "TERMINAL_SSH_HOST=" +:+ host; "TERMINAL_SSH_PORT=" +:+ port;
                   "TERMINAL_SSH_USER=" +:+ te_Username endpoint]%string) ++
            ["TERMINAL_CWD=" +:+ workdir; "TERMINAL_TIMEOUT=" +:+ itoa terminalTimeout; "ARIES_RUN_ID=" +:+ runID;
             "ARIES_TASK_ID=" +:+ taskID; "HERMES_WRITE_SAFE_ROOT="; "HERMES_OTEL_DASHBOARD_LIVE=true";
             "HERMES_OTEL_DASHBOARD_LIVE_MAX_SPANS=" +:+ itoa otelMaxSpans;
             "HERMES_OTEL_DASHBOARD_LIVE_RETENTION_HOURS=0"; "HERMES_OTEL_CONTENT_CAPTURE=off"]%string ++
            (if webSearchEnabled then ["SEARXNG_URL=" +:+ searchURL]%string else []))))
  end.
End Render.

(** [gatewayLauncherScript]: one block per key, and the last lines. *)
Definition export_key (name path : string) : list string :=
  [name +:+ "=" +:+ QUOTE +:+ "$(cat " +:+ path +:+ ")" +:+ QUOTE; "export " +:+ name].
Definition required_key (name path what : string) : list string :=
  ["if [ ! -f " +:+ path +:+ " ]; then"; "  echo " +:+ QUOTE +:+ "ARIES: Hermes " +:+ what +:+ " is missing" +:+ QUOTE +:+ " >&2";
   "  exit 1"; "fi"]%string ++ export_key name path.
Definition gatewayLauncherScript (apiKeyEnv : string) (extractEnabled : bool) (mcpHostVars : list string) : string :=
  lines (["#!/bin/sh"; "set -eu"]%string ++
         required_key apiKeyEnv modelKeyPath "model key" ++
         (if extractEnabled then required_key "TAVILY_API_KEY" extractKeyPath "extract API key" else []) ++
         flat_map (fun hostVar => required_key hostVar (mcpKeyPath hostVar) ("MCP secret " +:+ hostVar)) mcpHostVars ++
         export_key "API_SERVER_KEY" gatewayKeyPath ++
         ["exec hermes gateway run --no-supervise --external-supervisor"]%string).

(** * What the document holds *)

Lemma member_assign_eq k v m : member k (assign k v m) = Some v.
Proof.
  induction m as [|[k' v'] m IH]; simpl; [by rewrite String.eqb_refl|].
  destruct (String.eqb_spec k' k) as [->|Hne]; simpl; [by rewrite String.eqb_refl|].
  by rewrite (proj2 (String.eqb_neq k' k) Hne).
Qed.
Lemma member_assign_ne k k' v m : k <> k' -> member k (assign k' v m) = member k m.
Proof.
  intros Hne. induction m as [|[k2 v2] m IH]; simpl; [by destruct (String.eqb_spec k' k)|].
  destruct (String.eqb_spec k2 k') as [->|]; simpl; [by destruct (String.eqb_spec k' k)|]. by rewrite IH.
Qed.
Lemma member_set_if_ne b k k' v m : k <> k' -> member k (set_if b k' v m) = member k m.
Proof. destruct b; [apply member_assign_ne|done]. Qed.
Lemma member_assign_all_other k values m : k ∉ map fst values -> member k (assign_all values m) = member k m.
Proof.
  unfold assign_all. revert m. induction values as [|[k' v'] values IH]; intros m Hk; [done|]. simpl in *.
  apply not_elem_of_cons in Hk as [Hne Hk]. rewrite IH by done. by apply member_assign_ne.
Qed.
Lemma member_assign_all k v values m :
  NoDup (map fst values) -> (k, v) ∈ values -> member k (assign_all values m) = Some v.
Proof.
  unfold assign_all. revert m. induction values as [|[k' v'] values IH]; intros m Hnd Hin; [by apply not_elem_of_nil in Hin|].
  cbn [map fst] in Hnd. apply NoDup_cons in Hnd as [Hnew Hnd]. cbn [fold_left fst snd].
  apply elem_of_cons in Hin as [[= <- <-]|Hin]; [|by apply IH].
  etransitivity; [by apply (member_assign_all_other k values)|]. apply member_assign_eq.
Qed.

(** The parts of a rendered document. *)
Definition block (key : string) (config : members) : members :=
  match member key config with Some (YMap m) => m | _ => [] end.
Definition names (v : option yaml) : list string :=
  match v with Some (YList items) => omap (fun y => match y with YString s => Some s | _ => None end) items | _ => [] end.
Definition enabled_toolsets (config : members) : list string := names (member "api_server" (block "platform_toolsets" config)).
Definition withheld_toolsets (config : members) : list string := names (member "disabled_toolsets" (block "agent" config)).
Definition extra_body (config : members) : members :=
  match member "custom_providers" config with Some (YList [YMap m]) => block "extra_body" m | _ => [] end.
Lemma names_YStrings l : names (Some (YStrings l)) = l.
Proof. induction l as [|s l IH]; [done|]. cbn in *. f_equal. apply IH. Qed.

Section Document.
Variables (model : ModelConfig) (s : renderSettings) (stt : option VoiceSTTOptions) (provider : string) (body : members).
Let config := document model s stt provider body.
Ltac pass := repeat first
  [ rewrite member_set_if_ne by done | rewrite member_assign_ne by done
  | match goal with |- member _ (match ?x with _ => _ end) = _ => destruct x end ].
Lemma document_toolsets : enabled_toolsets config = toolsets s.
Proof.
  unfold enabled_toolsets, block. replace (member "platform_toolsets" config) with (Some (YMap [("api_server"%string, YStrings (toolsets s))])).
  - apply names_YStrings.
  - symmetry. unfold config, document. do 2 rewrite member_set_if_ne by done. apply member_assign_eq.
Qed.
Lemma document_agent : member "agent" config = Some (YMap (agent_block s)).
Proof. unfold config, document. pass; done. Qed.
Lemma document_model : member "model" config = Some (YMap (model_block model provider)).
Proof. unfold config, document. pass; done. Qed.
Lemma document_body : extra_body config = body.
Proof.
  unfold extra_body. replace (member "custom_providers" config) with
    (if negb (bool_decide (body = [])) then
       Some (YList [YMap [("name", YString "aries"); ("base_url", YString (mc_BaseURL model)); ("extra_body", YMap body)]%string])
     else None).
  - destruct (bool_decide (body = [])) eqn:E; [|done]. by apply bool_decide_eq_true in E.
  - symmetry. unfold config, document. do 2 rewrite member_set_if_ne by done. rewrite member_assign_ne by done.
    assert (forall m, member "custom_providers" (match stt with Some v => assign "stt" (stt_block v) m | None => m end) =
                      member "custom_providers" m) as ->.
    { intros m. destruct stt; [by apply member_assign_ne|done]. }
    rewrite member_set_if_ne by done. unfold set_if. destruct (negb _); [apply member_assign_eq|].
    destruct (rs_compaction s); [rewrite member_assign_ne by done|]; done.
Qed.
Lemma document_withheld : withheld_toolsets config = disabled_toolsets s.
Proof.
  unfold withheld_toolsets, block. rewrite document_agent. unfold agent_block, set_if.
  destruct (negb _) eqn:E.
  - rewrite member_assign_eq. apply names_YStrings.
  - apply negb_false_iff, bool_decide_eq_true in E. by rewrite E.
Qed.
End Document.

(** The fields of an explicit effort. *)
Lemma ReasoningBody_fields model fields :
  ReasoningBody model = inl (Some (JObject fields)) ->
  NoDup (map fst fields) /\ forall k, k ∈ map fst fields -> k ∈ ["reasoning_effort"; "thinking"; "reasoning"]%string.
Proof.
  unfold ReasoningBody, object_of. intros H. repeat case_match; simplify_eq/=; split; try set_solver;
    repeat (apply NoDup_cons; split; [set_solver|]); apply NoDup_nil_2.
Qed.
Lemma ReasoningBody_object model reasoning :
  ReasoningBody model = inl (Some reasoning) -> exists fields, reasoning = JObject fields.
Proof. unfold ReasoningBody, object_of. intros H. repeat case_match; simplify_eq/=; eauto. Qed.
Lemma conflict_free body keys k : first_error (conflict body) keys = None -> k ∈ keys -> member k body = None.
Proof.
  intros H Hin. induction keys as [|k' keys IH]; [by apply not_elem_of_nil in Hin|]. simpl in H. unfold conflict at 1 in H.
  destruct (member k' body) eqn:Hm; [done|]. simpl in H. apply elem_of_cons in Hin as [->|Hin]; [done|by apply IH].
Qed.

Definition placeholder (name : string) : yaml := YString ("${" +:+ name +:+ "}").
(** A key of [body] that the merge adds nothing under keeps its value. *)
Record merged (model : ModelConfig) (FormatFloat : float64 -> string) (user body : members) : Prop := {
  mg_user k v : member k user = Some v -> member k body = Some v;
  mg_reasoning fields k v :
    ReasoningBody model = inl (Some (JObject fields)) -> (k, v) ∈ fields -> member k body = Some (yamlJSONNumbers v);
  mg_temperature t : mc_Temperature model = Some t -> member "temperature" body = Some (YNode "!!float" true (FormatFloat t));
  mg_only k : is_Some (member k body) -> is_Some (member k user) \/ k = "temperature"%string \/
    exists fields, ReasoningBody model = inl (Some (JObject fields)) /\ k ∈ map fst fields
}.

Section Merge.
Variable FormatFloat : float64 -> string.
Lemma add_reasoning_spec model reasoning provider user provider' body :
  ReasoningBody model = inl reasoning -> add_reasoning reasoning provider user = inl (provider', body) ->
  (forall k v, member k user = Some v -> member k body = Some v) /\
  (forall fields k v, reasoning = Some (JObject fields) -> (k, v) ∈ fields -> member k body = Some (yamlJSONNumbers v)) /\
  (forall k, is_Some (member k body) -> is_Some (member k user) \/ exists fields, reasoning = Some (JObject fields) /\ k ∈ map fst fields).
Proof.
  intros HR H. unfold add_reasoning in H. destruct reasoning as [reasoning|]; [|simplify_eq; by split_and!; eauto].
  destruct (ReasoningBody_object _ _ HR) as [fields ->]. destruct (ReasoningBody_fields _ _ HR) as [Hnd Hkeys].
  destruct (first_error _ _) eqn:Hc; [done|]. cbn [check_that] in H. simplify_eq.
  set (values := map (fun kv => (kv.1, yamlJSONNumbers kv.2)) fields).
  assert (map fst values = map fst fields) as Hfst by (unfold values; rewrite map_map; done).
  split_and!.
  - intros k v Hk. rewrite member_assign_all_other; [done|]. rewrite Hfst. intros Hin.
    by rewrite (conflict_free _ _ k Hc (Hkeys k Hin)) in Hk.
  - intros fields' k v [= <-] Hin. apply member_assign_all; [by rewrite Hfst|]. unfold values.
    by apply (list_elem_of_fmap_2 (fun kv => (kv.1, yamlJSONNumbers kv.2)) fields (k, v)).
  - intros k Hk. destruct (decide (k ∈ map fst fields)) as [Hin|Hin]; [by right; exists fields|left].
    rewrite member_assign_all_other in Hk by by rewrite Hfst. done.
Qed.
Lemma add_temperature_spec model body body' :
  add_temperature FormatFloat model body = inl body' ->
  (forall k v, member k body = Some v -> member k body' = Some v) /\
  (forall t, mc_Temperature model = Some t -> member "temperature" body' = Some (YNode "!!float" true (FormatFloat t))) /\
  (forall k, is_Some (member k body') -> is_Some (member k body) \/ k = "temperature"%string).
Proof.
  unfold add_temperature. destruct (mc_Temperature model) as [t|]; [|intros [= ->]; by split_and!; eauto].
  unfold check_that. destruct (negb (OpenAICompatible _)); [done|]. cbn [seq_error].
  destruct (member "temperature" body) eqn:Hm; [done|]. cbn [is_some seq_error]. intros [= <-]. split_and!.
  - intros k v Hk. rewrite member_assign_ne; [done|]. intros ->. congruence.
  - intros t' [= ->]. apply member_assign_eq.
  - intros k Hk. destruct (decide (k = "temperature"%string)); [by right|left]. by rewrite member_assign_ne in Hk.
Qed.
Lemma body_merged model reasoning provider provider' user body body' :
  ReasoningBody model = inl reasoning -> add_reasoning reasoning provider user = inl (provider', body) ->
  add_temperature FormatFloat model body = inl body' -> merged model FormatFloat user body'.
Proof.
  intros HR Ha Ht. destruct (add_reasoning_spec _ _ _ _ _ _ HR Ha) as (H1 & H2 & H3).
  destruct (add_temperature_spec _ _ _ Ht) as (H4 & H5 & H6). split; [auto| |done|].
  - intros fields k v Hf Hin. rewrite HR in Hf. injection Hf as ->. by apply H4, (H2 fields).
  - intros k Hk. destruct (H6 k Hk) as [Hk'|]; [|by right; left]. destruct (H3 k Hk') as [|(fields & -> & Hin)]; [by left|].
    right. right. by exists fields.
Qed.
End Merge.

(** C25. What a rendered Hermes configuration is faithful to. The toolsets that act in
    the sandbox are enabled, and not disabled, exactly when the task does not withhold
    them, and delegation and web search exactly when the profile has them; the model's
    key is a placeholder for a name outside the gateway's own; and the request body
    holds every member of the profile's extra body, the fields of the explicit effort
    and the temperature, each with its own value, and nothing else. *)
Theorem hermes_config_faithful url_Parse url_String json_Decode FormatFloat
    (model : ModelConfig) (s : renderSettings) (stt : option VoiceSTTOptions) (config : members) :
  rendered url_Parse url_String json_Decode FormatFloat model s stt = inl config ->
  (forall t, t ∈ sandboxToolsets ->
     (t ∈ enabled_toolsets config <-> rs_noSandboxTools s = false) /\
     (t ∈ withheld_toolsets config <-> rs_noSandboxTools s = true)) /\
  ("delegation"%string ∈ enabled_toolsets config <-> rs_subagentsEnabled s = true) /\
  ("delegation"%string ∈ withheld_toolsets config <-> rs_subagentsEnabled s = false) /\
  ("web"%string ∈ enabled_toolsets config <-> rs_webSearchEnabled s = true) /\
  (member "api_key" (block "model" config) = Some (placeholder (mc_APIKeyEnv model)) /\ reserved_name (mc_APIKeyEnv model) = false) /\
  exists user, decode_extra_body json_Decode (rs_extraBody s) = inl user /\ merged model FormatFloat user (extra_body config).
Proof.
  unfold rendered. destruct (_ >>? _) eqn:Hv; [done|]. cbn [check_that].
  assert (reserved_name (mc_APIKeyEnv model) = false) as Hname.
  { unfold validateModel in Hv. destruct (ValidateModel _ _ _ _); [done|]. cbn [seq_error] in Hv. by destruct (reserved_name _). }
  clear Hv.
  destruct (normalized_model url_Parse url_String model) as [model'|] eqn:Hn; [|done]. cbn [check_bind].
  assert (exists url, model' = set_mc_BaseURL url model) as [url ->].
  { unfold normalized_model in Hn. destruct (OpenAICompatible _); [destruct (NormalizeV1BaseURL _ _ _); simplify_eq; eauto|].
    simplify_eq. exists (mc_BaseURL model'). by destruct model'. }
  destruct (_ >>? _); [done|]. cbn [check_that].
  assert (ReasoningBody (set_mc_BaseURL url model) = ReasoningBody model) as -> by done.
  destruct (ReasoningBody model) as [reasoning|] eqn:HR; [|done]. cbn [check_bind].
  destruct (decode_extra_body json_Decode _) as [user|] eqn:Hd; [|done]. cbn [check_bind].
  destruct (add_reasoning _ _ _) as [[provider body]|] eqn:Ha; [|done]. cbn [check_bind].
  change (add_temperature FormatFloat (set_mc_BaseURL url model) body) with (add_temperature FormatFloat model body).
  destruct (add_temperature FormatFloat model body) as [body'|] eqn:Ht; [|done]. cbn [check_bind].
  destruct (_ && _); [done|]. cbn [check_that]. intros [= <-].
  pose proof (body_merged FormatFloat _ _ _ _ _ _ _ HR Ha Ht) as Hm.
  unfold block at 1. rewrite document_toolsets, document_withheld, document_body, document_model.
  unfold toolsets, disabled_toolsets. split_and!.
  - intros t Hin. destruct (rs_noSandboxTools s), (rs_subagentsEnabled s), (rs_webSearchEnabled s); set_solver.
  - destruct (rs_noSandboxTools s), (rs_subagentsEnabled s), (rs_webSearchEnabled s); set_solver.
  - destruct (rs_noSandboxTools s), (rs_subagentsEnabled s); set_solver.
  - destruct (rs_noSandboxTools s), (rs_subagentsEnabled s), (rs_webSearchEnabled s); set_solver.
  - unfold model_block. by rewrite !member_set_if_ne by done.
  - done.
  - by exists user.
Qed.

(** A profile with an extra body, an effort and a temperature, for a task that withholds
    the sandbox. *)
Definition demo_parse (_ : string) : option FullURL :=
  Some {| ul_Scheme := "http"; ul_Opaque := ""; ul_User := false; ul_Host := "model:8000"; ul_Path := "/v1/"; ul_RawPath := "";
          ul_ForceQuery := false; ul_RawQuery := ""; ul_Fragment := "" |}.
Definition demo_decode (raw : bytes) : (json + err) * bytes :=
  match raw with
  | [] => (inr (ESentinel ErrEOF), [])
  | _ => (inl (JObject [("top_k", JNumber "20"); ("penalty", JNumber "1e-1")]%string), [])
  end.
Definition demo_model : ModelConfig :=
  {| mc_Provider := "openai"; mc_BaseURL := "http://model:8000/v1/"; mc_Model := "m"; mc_APIKeyEnv := "MODEL_KEY";
     mc_ReasoningEffort := "off"; mc_ContextLength := 65536; mc_MaxTokens := 4096; mc_Temperature := Some f64_zero |}.
Definition demo_settings : renderSettings :=
  {| rs_maxTurns := 90; rs_webSearchEnabled := true; rs_extractEnabled := false; rs_subagentsEnabled := false;
     rs_maxConcurrentSubagents := 0; rs_compaction := None; rs_extraBody := to_bytes "{}"; rs_mcpServers := [];
     rs_noSandboxTools := true; rs_grpcTarget := "" |}.
Definition demo_rendered : checked members :=
  rendered demo_parse (fun u => "http://" +:+ ul_Host u +:+ ul_Path u) demo_decode (fun _ => "0"%string) demo_model demo_settings None.
Example demo_body :
  match demo_rendered with
  | inl config => extra_body config =
      [("top_k", YNode "!!int" false "20"); ("penalty", YNode "!!float" true "1e-1"); ("reasoning_effort", YString "none");
       ("temperature", YNode "!!float" true "0")]%string
  | inr _ => False
  end.
Proof. vm_compute. reflexivity. Qed.
Lemma hermes_config_faithful_witness :
  match demo_rendered with
  | inl config => "terminal"%string ∈ withheld_toolsets config <-> true = true
  | inr _ => False
  end.
Proof.
  destruct demo_rendered as [config|e] eqn:E; [|vm_compute in E; discriminate E].
  destruct (hermes_config_faithful _ _ _ _ _ _ _ _ E) as [H _]. apply (H "terminal"%string). apply list_elem_of_here.
Defined.
