(* ===== verification/OpenClawConfig.v ===== *)
(** The configuration of an OpenClaw runtime ([pkg/harness/openclaw], config.go): the
    rendered [openclaw.json] and the scripts that start the gateway. JSON's own text is the
    library's; what is modelled is the value handed to it. *)

From S2P Require Import Prelude Utf8 Core Net Paths Sandbox ConfigDeployment Config HarnessConfig.

(** * Paths *)

Definition configContainerPath : string := "/run/aries/openclaw.json".
Definition modelKeyPath : string := "/run/aries/model.key".
Definition realtimeKeyPath : string := "/run/aries/realtime.key".
Definition gatewayKeyPath : string := "/run/aries/gateway.key".
Definition gatewayTokenEnv : string := "OPENCLAW_GATEWAY_TOKEN".
Definition launcherPath : string := "/run/aries/launch".
Definition stateContainerPath : string := "/home/node/.openclaw".
Definition workspaceRoot : string := "/aries/openclaw".
Definition tavilyKeyPath : string := "/run/aries/tavily.key".
Definition tavilyAPIKeyEnv : string := "TAVILY_API_KEY".
Definition gatewayListenPort : string := "18789".
Definition gatewayLauncherPath : string := "/run/aries/gateway-launcher".
Definition upstreamGatewayPort : string := "18790".
Definition ModeAgent : string := "agent".
Definition ModeRealtime : string := "realtime".
Definition ModeVoiceTranscribe : string := "voice-transcribe".

(** * openclaw.json *)

(** The parts that vary; a nil pointer is [None], and the constant parts are in the
    encoding below. A map is a list of members in the order of its keys. *)
Record openClawMCPServer := {
  xs_Command : string;
  xs_Args : list string;
  xs_URL : string;
  xs_Transport : string;
  xs_RequestTimeoutMs : Z;
  xs_Env : gmap string string
}.
Record modelCompat := { mk_ThinkingFormat : string; mk_SupportsReasoningEffort : bool; mk_SupportedReasoningEfforts : list string }.
Record modelRecord := { mr_ID : string; mr_Name : string; mr_Reasoning : option bool; mr_Compat : option modelCompat }.
Record providerConfig := { pv_BaseURL : string; pv_APIKey : string; pv_API : string; pv_Models : list modelRecord }.
Record modelParams := { mq_Thinking : string; mq_ExtraBody : json }.
Record toolPolicy := {
  tp_Deny : list string;
  tp_Web : option string;                        (* the provider of [web.search] *)
  tp_AlsoAllow : list string                     (* of [sandbox.tools]; empty: no [sandbox] *)
}.
Record openClawConfig := {
  ow_Providers : gmap string providerConfig;
  ow_Primary : string;
  ow_ModelDefaults : gmap string modelParams;
  ow_SSHTarget : string;
  ow_SSHCommand : string;
  ow_MaxConcurrent : Z;                          (* of [subagents]; zero: no [subagents] *)
  ow_Tools : toolPolicy;
  ow_ConsultRouting : string;                    (* of [talk.realtime]; empty: no [talk] *)
  ow_SearchURL : option string;                  (* of [plugins]: the searxng entry *)
  ow_Tavily : bool;                              (* of [plugins]: the tavily entry *)
  ow_MCP : gmap string openClawMCPServer         (* empty: no [mcp] *)
}.

(** ** The encoding *)

Definition unless (b : bool) (key : string) (value : json) : list (string * json) := if b then [] else [(key, value)].
Definition text_member (key value : string) : list (string * json) := unless (String.eqb value "") key (JString value).
Definition strings (l : list string) : json := JArray (map JString l).
Definition map_json {A} (f : A -> json) (m : gmap string A) : json :=
  JObject (omap (fun key => (fun a => (key, f a)) <$> m !! key) (sorted_keys m)).
Definition placeholder (variable : string) : string := "${" +:+ variable +:+ "}".
Definition server_json (s : openClawMCPServer) : json :=
  JObject (text_member "command" (xs_Command s) ++ unless (bool_decide (xs_Args s = [])) "args" (strings (xs_Args s)) ++
           text_member "url" (xs_URL s) ++ text_member "transport" (xs_Transport s) ++
           unless (xs_RequestTimeoutMs s =? 0) "requestTimeoutMs" (JNumber (itoa (xs_RequestTimeoutMs s))) ++
           unless (bool_decide (xs_Env s = ∅)) "env" (map_json JString (xs_Env s))).
Definition compat_json (c : modelCompat) : json :=
  JObject (text_member "thinkingFormat" (mk_ThinkingFormat c) ++
           [("supportsReasoningEffort"%string, JBool (mk_SupportsReasoningEffort c))] ++
           unless (bool_decide (mk_SupportedReasoningEfforts c = [])) "supportedReasoningEfforts"
             (strings (mk_SupportedReasoningEfforts c))).
Definition model_json (m : modelRecord) : json :=
  JObject ([("id", JString (mr_ID m)); ("name", JString (mr_Name m))]%string ++
           match mr_Reasoning m with Some b => [("reasoning"%string, JBool b)] | None => [] end ++
           match mr_Compat m with Some c => [("compat"%string, compat_json c)] | None => [] end).
Definition provider_json (p : providerConfig) : json :=
  JObject [("baseUrl", JString (pv_BaseURL p)); ("apiKey", JString (pv_APIKey p)); ("api", JString (pv_API p));
           ("models", JArray (map model_json (pv_Models p)))]%string.
Definition defaults_json (p : modelParams) : json :=
  JObject [("params", JObject [("thinking", JString (mq_Thinking p)); ("extra_body", mq_ExtraBody p)])]%string.
Definition agents_json (c : openClawConfig) : json :=
  let sandbox :=
    [("mode", JString "all"); ("scope", JString "shared"); ("backend", JString "ssh"); ("workspaceAccess", JString "rw");
     ("ssh", JObject [("target", JString (ow_SSHTarget c)); ("command", JString (ow_SSHCommand c));
                      ("workspaceRoot", JString workspaceRoot); ("strictHostKeyChecking", JBool false); ("updateHostKeys", JBool false)]);
     ("docker", JObject [("env", JObject [("HOME", JString "/tmp")])])]%string in
  JObject [("defaults"%string,
    JObject ([("model", JObject [("primary", JString (ow_Primary c))])]%string ++
             unless (bool_decide (ow_ModelDefaults c = ∅)) "models" (map_json defaults_json (ow_ModelDefaults c)) ++
             [("sandbox"%string, JObject sandbox)] ++
             unless (ow_MaxConcurrent c =? 0) "subagents" (JObject [("maxConcurrent"%string, JNumber (itoa (ow_MaxConcurrent c)))])))].
Definition tools_json (t : toolPolicy) : json :=
  JObject ([("deny"%string, strings (tp_Deny t))] ++
           match tp_Web t with
           | Some provider => [("web", JObject [("search", JObject [("provider", JString provider)])])]%string
           | None => []
           end ++
           unless (bool_decide (tp_AlsoAllow t = [])) "sandbox"
             (JObject [("tools", JObject [("alsoAllow", strings (tp_AlsoAllow t))])]%string)).
Definition plugins_json (searchURL : string) (tavily : bool) : json :=
  JObject [("entries"%string,
    JObject ([("searxng", JObject [("config", JObject [("webSearch", JObject [("baseUrl", JString searchURL)])])])]%string ++
             unless (negb tavily) "tavily" (JObject [("enabled"%string, JBool true)])))].
Definition config_json (c : openClawConfig) : json :=
  let token := JString (placeholder gatewayTokenEnv) in
  JObject ([("gateway", JObject [("mode", JString "local"); ("auth", JObject [("mode", JString "token"); ("token", token)]);
                                 ("remote", JObject [("token", token)])]);
            ("models", JObject [("mode", JString "merge"); ("providers", map_json provider_json (ow_Providers c))]);
            ("agents", agents_json c); ("tools", tools_json (ow_Tools c))]%string ++
           unless (String.eqb (ow_ConsultRouting c) "") "talk"
             (JObject [("realtime", JObject [("consultRouting", JString (ow_ConsultRouting c))])]%string) ++
           match ow_SearchURL c with Some url => [("plugins"%string, plugins_json url (ow_Tavily c))] | None => [] end ++
           unless (bool_decide (ow_MCP c = ∅)) "mcp" (JObject [("servers"%string, map_json server_json (ow_MCP c))])).

(** ** renderConfig *)

(** [MCPOptions]. *)
Record MCPOptions := { mo_Servers : list MCPServerConfig; mo_NoSandboxTools : bool }.
Record renderSettings := {
  rs_mode : string;
  rs_searchURL : string;
  rs_webSearchEnabled : bool;
  rs_extractEnabled : bool;
  rs_subagentsEnabled : bool;
  rs_maxConcurrentSubagents : Z;
  rs_mcp : MCPOptions
}.
Definition denyToolList (subagentsEnabled : bool) : list string :=
  ["read"; "write"; "edit"; "apply_patch"]%string ++ (if subagentsEnabled then [] else ["sessions_spawn"; "sessions_yield"]%string).
Definition requestedThinking (model : ModelConfig) : string :=
  let effort := mc_ReasoningEffort model in
  if one_of effort ["off"; "none"]%string then "off"
  else if String.eqb effort "max" then "xhigh"
  else if String.eqb effort "" then
    if String.eqb (mc_BaseURL model) "https://api.deepseek.com" &&
       one_of (mc_Model model) ["deepseek-flash"; "deepseek-v4-flash"; "deepseek-v4-pro"]%string then "off" else ""
  else effort.

(** The product of an [int] wraps around at 64 bits. *)
Definition wrap_int64 (z : Z) : Z := (z + 2 ^ 63) mod 2 ^ 64 - 2 ^ 63.
Definition server_entry (server : MCPServerConfig) : openClawMCPServer :=
  let command := negb (String.eqb (mp_Command server) "") in
  {| xs_Command := mp_Command server; xs_Args := mp_Args server; xs_URL := mp_URL server;
     xs_Transport := if command then "stdio"
                     else if String.eqb (mp_URL server) "" then ""
                     else if String.eqb (mp_Transport server) "" then "sse" else mp_Transport server;
     xs_RequestTimeoutMs := wrap_int64 (mp_TimeoutSeconds server * 1000);
     xs_Env := if command then server_environment server else ∅ |}.
Definition mcp_servers (servers : list MCPServerConfig) : gmap string openClawMCPServer :=
  fold_left (fun m server => <[mp_Name server := server_entry server]> m) servers ∅.

(** The model's record, and the defaults of the model, when an effort is asked for. *)
Definition reasoning_record (model : ModelConfig) (reasoning : option json) : modelRecord :=
  {| mr_ID := mc_Model model; mr_Name := mc_Model model;
     mr_Reasoning := match reasoning with Some _ => Some true | None => None end;
     mr_Compat := match reasoning with
                  | Some _ =>
                      let deepseek := String.eqb (mc_Provider model) "deepseek" in
                      Some {| mk_ThinkingFormat := if deepseek then "deepseek" else ""; mk_SupportsReasoningEffort := false;
                              mk_SupportedReasoningEfforts := if deepseek then ["low"; "high"; "xhigh"; "max"]%string
                                else ["minimal"; "low"; "medium"; "high"; "xhigh"; "max"]%string |}
                  | None => None
                  end |}.
Definition providerID (model : ModelConfig) : string := if String.eqb (mc_Provider model) "sglang" then "sglang" else "aries".
Definition deny_list (s : renderSettings) : list string :=
  denyToolList (rs_subagentsEnabled s) ++ (if mo_NoSandboxTools (rs_mcp s) then ["exec"; "process"]%string else []).
Definition also_allow (s : renderSettings) : list string :=
  (if rs_webSearchEnabled s then ["web_search"; "web_fetch"]%string ++ (if rs_extractEnabled s then ["tavily_extract"%string] else []) else []) ++
  (if bool_decide (mo_Servers (rs_mcp s) = []) then [] else ["bundle-mcp"%string]).
Definition configuration (model : ModelConfig) (endpoint : ToolEndpoint) (s : renderSettings) (reasoning : option json) : openClawConfig :=
  let primary := providerID model +:+ "/" +:+ mc_Model model in
  {| ow_Providers := {[ providerID model := {| pv_BaseURL := mc_BaseURL model; pv_APIKey := placeholder (mc_APIKeyEnv model);
                                               pv_API := "openai-completions"; pv_Models := [reasoning_record model reasoning] |} ]};
     ow_Primary := primary;
     ow_ModelDefaults := match reasoning with
                         | Some body => {[ primary := {| mq_Thinking := requestedThinking model; mq_ExtraBody := body |} ]}
                         | None => ∅
                         end;
     ow_SSHTarget := te_Username endpoint +:+ "@" +:+ te_Address endpoint; ow_SSHCommand := te_ClientCommand endpoint;
     ow_MaxConcurrent := if rs_subagentsEnabled s && (0 <? rs_maxConcurrentSubagents s) then rs_maxConcurrentSubagents s else 0;
     ow_Tools := {| tp_Deny := deny_list s; tp_Web := if rs_webSearchEnabled s then Some "searxng"%string else None;
                    tp_AlsoAllow := also_allow s |};
     ow_ConsultRouting := if String.eqb (rs_mode s) ModeRealtime then "force-agent-consult" else "";
     ow_SearchURL := if rs_webSearchEnabled s then Some (rs_searchURL s) else None; ow_Tavily := rs_extractEnabled s;
     ow_MCP := mcp_servers (mo_Servers (rs_mcp s)) |}.

Section Render.
Variable url_Parse : string -> option FullURL.
Variable url_String : FullURL -> string.
Variable ParseIP : string -> option (list Z).
Variable json_Encode : json -> bytes + err.

Definition validateModel (model : ModelConfig) : error := ValidateModel url_Parse url_String "OpenClaw" model.
(** The two paths are checked in either order, which only shows in the text of the error. *)
Definition bad_path (path : string) : bool :=
  String.eqb path "" || ContainsByte path NUL || negb (IsAbs path) || negb (String.eqb (Clean path) path).
Definition validateEndpoint (endpoint : ToolEndpoint) : error :=
  let bad_address := Some (ENew "OpenClaw SSH address must be a valid host and port") in
  (refuse_if negb (String.eqb (te_Protocol endpoint) "ssh") || negb (String.eqb (te_Username endpoint) "aries")
     with "OpenClaw requires a task-local SSH endpoint") >>?
  (match SplitHostPort (te_Address endpoint) with
   | inr _ => bad_address
   | inl (host, port) =>
       (if negb (ValidEndpointHost ParseIP host) || String.eqb port "" then bad_address else None) >>?
       (refuse_if bad_port port with "OpenClaw SSH endpoint port is invalid")
   end) >>?
  (refuse_if bad_path (te_ClientCommand endpoint) with "OpenClaw client command path must be absolute and clean") >>?
  (refuse_if bad_path (te_ClientSourceFile endpoint) with "OpenClaw client source path must be absolute and clean") >>?
  (refuse_if negb (String.eqb (te_ClientCommand endpoint) "/opt/aries/bin/aries-ssh-client")
     with "OpenClaw endpoint paths do not match the pinned bridge contract").

(** A base URL that was validated is normalized without an error. *)
Definition normalized_model (model : ModelConfig) : ModelConfig :=
  if OpenAICompatible (mc_Provider model)
  then set_mc_BaseURL (match NormalizeV1BaseURL url_Parse url_String (mc_BaseURL model) with inl url => url | inr _ => "" end) model
  else model.
Definition rendered (model : ModelConfig) (endpoint : ToolEndpoint) (s : renderSettings) : checked openClawConfig :=
  check_that (validateModel model)
  (check_bind (ReasoningBody model) (fun reasoning =>
   check_that (validateEndpoint endpoint)
  (check_that (if rs_webSearchEnabled s then ValidateSearch url_Parse (rs_searchURL s) true else None)
   (inl (configuration (normalized_model model) endpoint s reasoning))))).
Definition renderConfig (model : ModelConfig) (endpoint : ToolEndpoint) (s : renderSettings) : checked bytes :=
  check_bind (rendered model endpoint s) (fun c =>
  match json_Encode (config_json c) with
  | inl content => inl content
  | inr e => inr (EWrap "encode OpenClaw config" e)
  end).
End Render.

(** * Scripts *)

Definition quoted_cat (path : string) : string := "$(cat " +:+ path +:+ ")".
Definition export_from (variable source : string) : string := "export " +:+ variable +:+ "=" +:+ QUOTE +:+ "$" +:+ source +:+ QUOTE.
Definition optional_key (variable path : string) (env : string) : list string :=
  [variable +:+ "=" +:+ quoted_cat path; export_from env variable; "unset " +:+ variable].
Definition launcherScript (apiKeyEnv realtimeAPIKeyEnv : string) (extractEnabled : bool) (mcpHostVars : list string) : string :=
  lines (["#!/bin/sh"; "set -eu"; "model_key=" +:+ quoted_cat modelKeyPath; "gateway_key=" +:+ quoted_cat gatewayKeyPath;
          export_from apiKeyEnv "model_key"; export_from gatewayTokenEnv "gateway_key"]%string ++
         (if String.eqb realtimeAPIKeyEnv "" then [] else optional_key "realtime_key" realtimeKeyPath realtimeAPIKeyEnv) ++
         (if extractEnabled then optional_key "tavily_key" tavilyKeyPath tavilyAPIKeyEnv else []) ++
         flat_map (fun hostVar => [hostVar +:+ "=" +:+ QUOTE +:+ quoted_cat ("/run/aries/mcp_" +:+ hostVar +:+ ".key") +:+ QUOTE;
                                   "export " +:+ hostVar]) mcpHostVars ++
         ["unset model_key gateway_key"; "exec " +:+ QUOTE +:+ "$@" +:+ QUOTE]%string).
Definition gatewayLauncherScript : string :=
  lines ["#!/bin/sh"; "set -eu"; "node /run/aries/gateway-proxy.js &"; "proxy_pid=$!"; "cleanup() {";
         "  kill " +:+ QUOTE +:+ "$proxy_pid" +:+ QUOTE +:+ " 2>/dev/null || true";
         "  wait " +:+ QUOTE +:+ "$proxy_pid" +:+ QUOTE +:+ " 2>/dev/null || true"; "}"; "trap cleanup EXIT INT TERM"; "set +e";
         "openclaw gateway run --port " +:+ upstreamGatewayPort +:+ " --auth token --bind loopback"; "status=$?"; "set -e"; "cleanup";
         "exit " +:+ QUOTE +:+ "$status" +:+ QUOTE]%string.
Definition quoted_text (s : string) : string := QUOTE +:+ s +:+ QUOTE.
Definition gatewayProxyScript : string :=
  lines ["#!/usr/bin/env node"; "const net = require(" +:+ quoted_text "net" +:+ ");"; "const listenHost = " +:+ quoted_text "0.0.0.0" +:+ ";";
         "const listenPort = " +:+ gatewayListenPort +:+ ";"; "const targetHost = " +:+ quoted_text "127.0.0.1" +:+ ";";
         "const targetPort = " +:+ upstreamGatewayPort +:+ ";"; "const server = net.createServer((client) => {";
         "  const upstream = net.connect({host: targetHost, port: targetPort});"; "  const close = () => {"; "    client.destroy();";
         "    upstream.destroy();"; "  };"; "  client.on(" +:+ quoted_text "error" +:+ ", close);";
         "  upstream.on(" +:+ quoted_text "error" +:+ ", close);"; "  client.pipe(upstream);"; "  upstream.pipe(client);"; "});";
         "server.on(" +:+ quoted_text "error" +:+ ", (error) => {";
         "  console.error(" +:+ quoted_text "[aries-gateway-proxy] " +:+ " + error.message);"; "  process.exit(1);"; "});";
         "server.listen(listenPort, listenHost, () => {";
         "  console.error(" +:+ quoted_text "[aries-gateway-proxy] listening " +:+ " + listenHost + " +:+ quoted_text ":" +:+
         " + listenPort + " +:+ quoted_text " -> " +:+ " + targetHost + " +:+ quoted_text ":" +:+ " + targetPort);"; "});"]%string.

(** * What the configuration grants *)

(** A secret enters the configuration as a placeholder: a server's variables that are secret
    refer to the variable of the runtime. *)
Lemma server_entry_secret server variable hostVar : mp_Command server <> ""%string ->
  mp_SecretEnv server !! variable = Some hostVar -> xs_Env (server_entry server) !! variable = Some (placeholder hostVar).
Proof.
  intros Hc Hs. unfold server_entry. apply String.eqb_neq in Hc as ->. cbn [negb xs_Env]. unfold server_environment.
  apply lookup_union_Some_l. by rewrite lookup_fmap, Hs.
Qed.
