(* ===== verification/HarnessWorld.v ===== *)
(** What the agent harnesses ask of the rest of the program: the functions of other packages
    without a state, the ticker of their polling loops, and the files of evidence they
    retain ([collectArtifacts] of [pkg/harness/hermes] and [pkg/harness/openclaw]). *)

From S2P Require Import Prelude Trace Core Paths Redaction Credentials Deployments HarnessRuntime HarnessManager HarnessFiles.
From S2P Require Import ConfigDeployment Config HarnessConfig HermesConfig.

(** * The world of a harness *)

(** [tar.Header], and whether it is a regular file's. *)
Record tarHeader := { th_Name : string; th_regular : bool; th_Size : Z }.
(** The functions of other packages that have no state. *)
Class Library := {
  lib_url_Parse : string -> option FullURL;
  lib_url_String : FullURL -> string;
  lib_NewRequest : string -> string -> bool;
  lib_json_Unmarshal : string -> option json;
  lib_json_Decode : bytes -> (json + err) * bytes;
  lib_json_Marshal : json -> bytes + err;
  lib_json_MarshalIndent : json -> bytes + err;
  lib_json_Encode : json -> bytes + err;         (* without HTML escapes, indented *)
  lib_FormatFloat : float64 -> string;
  lib_json_ParseFloat : string -> float64;       (* of a number's text *)
  lib_json_FormatFloat : float64 -> string;
  lib_FormatTime : Z -> string;
  lib_yaml_Marshal : yaml -> bytes + err;
  lib_ParseIP : string -> option (list Z);
  lib_ToLower : string -> string;
  lib_tar_Write : bytes -> Entry -> bytes + err;
  lib_tar_Close : bytes -> bytes + err;
  lib_tar_Read : bytes -> list (tarHeader * (bytes * error)) * error  (* up to the end or an error *)
}.
(** The select of a loop on its ticker and the context, and [os.ReadFile]. *)
Class Ticker (W : Type) := {
  await_tick : Ctx -> M W (option sentinel);
  os_ReadFile : string -> M W (bytes + err)
}.

(** * Evidence *)

Definition maxDockerOutput : Z := 16 * 2 ^ 20.
Section Evidence.
Context {W : Type} `{Lib : Library} `{!Files W}.
(** One file of evidence, recorded when it is written. *)
Definition retain (path : string) (content : bytes) (what : option string) (acc : list error * Artifacts) :
    M W (list error * Artifacts) :=
  let (errs, a) := acc in
  let* e := WriteArtifact path content in
  match e with
  | Some e => ret (errs ++ [Some match what with Some what => EWrap what e | None => e end], a)
  | None => ret (errs, Add [path] a)
  end.
Definition retain_json (path : string) (value : json) (encode_text retain_text : string) (acc : list error * Artifacts) :
    M W (list error * Artifacts) :=
  match lib_json_MarshalIndent value with
  | inr e => ret (acc.1 ++ [Some (EWrap encode_text e)], acc.2)
  | inl encoded => retain path (encoded ++ [NL]) (Some retain_text) acc
  end.

Definition collected (collect : M W (list string * error)) (acc : list error * Artifacts) : M W (list error * Artifacts) :=
  let* (paths, e) := collect in
  ret match e with Some e => (acc.1 ++ [Some e], acc.2) | None => (acc.1, Add paths acc.2) end.
Definition telemetry_index (a : Artifacts) : json :=
  JObject [("paths", match TelemetryPaths a with [] => JNull | paths => JArray (map JString paths) end)]%string.
End Evidence.

(** * The end of a run *)

Section Ending.
Context {W : Type} `{!Runtime W}.
(** The end of a run in an error: its text is hidden in the result, and in what is
    returned where the code hides it. *)
Definition failed_run (o : Occurrence) (heap : Heap) (started : Z) (e : err) : M W (HarnessResult * error) :=
  let* now := time_Now in ret (FailedResult o heap (now - started) e, Some e).
Definition failed_redacted (o : Occurrence) (heap : Heap) (started : Z) (e : err) : M W (HarnessResult * error) :=
  failed_run o heap started (default e (RedactErr (oc_Credentials o) heap (Some e))).
End Ending.
