(* ===== verification/Voice.v ===== *)
(** The recording of a voice instruction ([pkg/audio], voice_instruction.go): the text,
    the synthesized audio and its metadata, as artifacts of an occurrence. The speech
    client is an interface. *)

From S2P Require Import Prelude Trace Core Paths HarnessRuntime HarnessFiles.

Record SpeechRequest := {
  sq_Text : string;
  sq_Model : string;
  sq_Voice : string;
  sq_Format : string;
  sq_Instructions : string;
  sq_Speed : option float64
}.
Record SpeechResult := {
  sr_Audio : bytes;
  sr_Model : string;
  sr_Voice : string;
  sr_Format : string;
  sr_TextSHA256 : string
}.
(** [NewSpeechSynthesizer] (base URL, key, timeout) and [SpeechSynthesizer]. *)
Class Speech (W : Type) := {
  NewSpeech : string -> bytes -> Z -> M W (nat + err);
  Synthesize : Ctx -> nat -> SpeechRequest -> M W (SpeechResult + err);
  speech_Close : nat -> M W unit
}.

(** [VoiceInstructionOptions]; its [WriteArtifact] is [privatefiles]'. *)
Record VoiceInstructionOptions := {
  vi_ArtifactDir : string;
  vi_InstructionPath : string;
  vi_ErrorLabel : string;
  vi_TTSErrorLabel : string;
  vi_Provider : string;
  vi_BaseURL : string;
  vi_APIKey : bytes;
  vi_Model : string;
  vi_Voice : string;
  vi_Instructions : string;
  vi_Speed : option float64;
  vi_Timeout : Z
}.
Definition ttsErrorLabel (options : VoiceInstructionOptions) : string :=
  if String.eqb (vi_TTSErrorLabel options) "" then vi_ErrorLabel options +:+ " voice" else vi_TTSErrorLabel options.
Definition metadata_json (options : VoiceInstructionOptions) (result : SpeechResult) (instruction audioPath : string) : json :=
  JObject [("provider", JString (vi_Provider options)); ("model", JString (sr_Model result)); ("voice", JString (sr_Voice result));
           ("format", JString (sr_Format result)); ("text_sha256", JString (sr_TextSHA256 result));
           ("text_chars", JNumber (itoa (len instruction))); ("cached", JBool false); ("output_path", JString audioPath)]%string.

Section Voice.
Context {W : Type} `{!Files W} `{!Speech W}.
Variable json_MarshalIndent : json -> bytes + err.

(** [SynthesizeVoiceInstruction]: the recording, and what has been written so far. *)
Definition write_recording (instruction instructionPath : string) (options : VoiceInstructionOptions) (result : SpeechResult) :
    M W (string * list string * error) :=
  let audioPath := Join [vi_ArtifactDir options; "voice-instruction.wav"]%string in
  let* e := WriteArtifact audioPath (sr_Audio result) in
  match e with
  | Some e => ret ("", [instructionPath], Some (EWrap ("write " +:+ vi_ErrorLabel options +:+ " voice audio") e))%string
  | None =>
      match json_MarshalIndent (metadata_json options result instruction audioPath) with
      | inr e => ret ("", [instructionPath; audioPath], Some (EWrap ("encode " +:+ ttsErrorLabel options +:+ " TTS metadata") e))%string
      | inl content =>
          let metaPath := Join [vi_ArtifactDir options; "voice-instruction.wav.meta.json"]%string in
          let* e := WriteArtifact metaPath (content ++ [NL]) in
          ret match e with
              | Some e => ("", [instructionPath; audioPath], Some (EWrap ("write " +:+ ttsErrorLabel options +:+ " TTS metadata") e))%string
              | None => (audioPath, [instructionPath; audioPath; metaPath], None)
              end
      end
  end.
Definition synthesize (ctx : Ctx) (instruction instructionPath : string) (options : VoiceInstructionOptions) :
    M W (string * list string * error) :=
  let* synthesizer := NewSpeech (vi_BaseURL options) (vi_APIKey options) (vi_Timeout options) in
  match synthesizer with
  | inr e => ret ("", [instructionPath], Some (EWrap ("construct " +:+ ttsErrorLabel options +:+ " TTS client") e))%string
  | inl synthesizer =>
      let* result := Synthesize ctx synthesizer
        {| sq_Text := instruction; sq_Model := vi_Model options; sq_Voice := vi_Voice options; sq_Format := "wav";
           sq_Instructions := vi_Instructions options; sq_Speed := vi_Speed options |} in
      let* outcome :=
        match result with
        | inr e => ret ("", [instructionPath], Some (EWrap ("synthesize " +:+ vi_ErrorLabel options +:+ " voice instruction") e))%string
        | inl result => write_recording instruction instructionPath options result
        end in
      let* _ := speech_Close synthesizer in
      ret outcome
  end.
Definition SynthesizeVoiceInstruction (ctx : Ctx) (instruction : string) (options : VoiceInstructionOptions) :
    M W (string * list string * error) :=
  if String.eqb (vi_InstructionPath options) "" then
    let instructionPath := Join [vi_ArtifactDir options; "voice-instruction.txt"]%string in
    let* e := WriteArtifact instructionPath (to_bytes instruction) in
    match e with
    | Some e => ret ("", [], Some (EWrap ("write " +:+ vi_ErrorLabel options +:+ " voice instruction") e))%string
    | None => synthesize ctx instruction instructionPath options
    end
  else synthesize ctx instruction (vi_InstructionPath options) options.
End Voice.
