(* ===== verification/HarnessEvidence.v ===== *)
(** The operations that the agent harnesses share leave no trace: an observer of the
    deployment sees nothing of the files, the recordings and the polling.

    What the harnesses tell and keep shows no key: the texts of a result, and the files of
    evidence, whose writes are traced. The last part is a small world for examples. *)

From S2P Require Import Prelude Trace Core Paths Redaction Credentials Deployments HarnessRuntime HarnessManager HarnessLife.
From S2P Require Import HarnessFiles ConfigDeployment Config HarnessConfig HarnessWorld Voice Utf8.

#[export] Instance quiet_Files {W} `{!Files W} : Files (W * list harness_event) := {|
  os_MkdirAll path mode := silent (os_MkdirAll path mode);
  os_EvalSymlinks path := silent (os_EvalSymlinks path);
  os_Abs path := silent (os_Abs path);
  os_Chmod path mode := silent (os_Chmod path mode);
  os_Create path mode := silent (os_Create path mode);
  os_Open path := silent (os_Open path);
  os_Write file content := silent (os_Write file content);
  os_Sync file := silent (os_Sync file);
  os_Close file := silent (os_Close file);
  os_Stat file := silent (os_Stat file);
  os_ReadAll file limit := silent (os_ReadAll file limit);
  os_Remove path := silent (os_Remove path);
  os_RemoveAll path := silent (os_RemoveAll path);
  rand_Read n := silent (rand_Read n)
|}.
#[export] Instance quiet_Ticker {W E} `{!Ticker W} : Ticker (W * list E) := {|
  await_tick ctx := silent (await_tick ctx);
  os_ReadFile path := silent (os_ReadFile path)
|}.
#[export] Instance quiet_Speech {W E} `{!Speech W} : Speech (W * list E) := {|
  NewSpeech url key timeout := silent (NewSpeech url key timeout);
  Synthesize ctx c r := silent (Synthesize ctx c r);
  speech_Close c := silent (speech_Close c)
|}.

Section Quiet.
Context {W : Type} `{Lib : Library} `{!Runtime W} `{!Files W} `{!Ticker W} `{!Speech W}.
Abbreviation T := (W * list harness_event)%type.

Lemma quiet_read_open file mode limit : emits (read_open (W := T) file mode limit) quiet.
Proof. unfold read_open. quiet_steps. Qed.
#[local] Hint Resolve quiet_read_open : quiet.
Lemma quiet_ReadBounded path mode limit : emits (ReadBounded (W := T) path mode limit) quiet.
Proof. unfold ReadBounded. quiet_steps. Qed.
Lemma quiet_EnsureDirectory path : emits (EnsureDirectory (W := T) path) quiet.
Proof. unfold EnsureDirectory. quiet_steps. Qed.
#[local] Hint Resolve quiet_ReadBounded quiet_EnsureDirectory : quiet.
Lemma quiet_WriteArtifact path content : emits (WriteArtifact (W := T) path content) quiet.
Proof. unfold WriteArtifact, abandon, existing_artifact, Read. quiet_steps. Qed.
#[local] Hint Resolve quiet_WriteArtifact : quiet.
Lemma quiet_RandomSecret n : emits (RandomSecret (W := T) n) quiet.
Proof. unfold RandomSecret. quiet_steps. Qed.
Lemma quiet_RandomID : emits (RandomID (W := T)) quiet.
Proof. unfold RandomID. quiet_steps. Qed.
Lemma quiet_artifacts_Write name content a : emits (artifacts_Write (W := T) name content a) quiet.
Proof. unfold artifacts_Write. quiet_steps. Qed.
#[local] Hint Resolve quiet_RandomSecret quiet_RandomID quiet_artifacts_Write : quiet.
Lemma quiet_retain path content what acc : emits (retain (W := T) path content what acc) quiet.
Proof. unfold retain. quiet_steps. Qed.
#[local] Hint Resolve quiet_retain : quiet.
Lemma quiet_retain_json path value e r acc : emits (retain_json (W := T) path value e r acc) quiet.
Proof. unfold retain_json. quiet_steps. Qed.
Lemma quiet_collected collect acc : emits collect quiet -> emits (collected (W := T) collect acc) quiet.
Proof. unfold collected. intros. quiet_steps. Qed.
Lemma quiet_synthesize ctx instruction options :
  emits (SynthesizeVoiceInstruction (W := T) lib_json_MarshalIndent ctx instruction options) quiet.
Proof. unfold SynthesizeVoiceInstruction, synthesize, write_recording. quiet_steps. Qed.
End Quiet.
#[export] Hint Resolve quiet_read_open quiet_ReadBounded quiet_EnsureDirectory quiet_WriteArtifact quiet_RandomSecret quiet_RandomID quiet_artifacts_Write quiet_retain quiet_retain_json quiet_collected quiet_synthesize : quiet.

(** * What a run tells *)

(** A text that shows no key of [o]. *)
Definition shows_no_key (o : Occurrence) (heap : Heap) (text : bytes) : Prop :=
  forall secret, secret ∈ Secrets (oc_Credentials o) heap -> secret <> [] -> hidable secret -> ~ occurs secret text.
Lemma redacted_shows_no_key o heap content : shows_no_key o heap (credentials_Redact (oc_Credentials o) heap content).
Proof. intros secret Hin Hne Hh. by apply RedactSecrets_hides. Qed.
Lemma prefix_shows_no_key o heap text rest : shows_no_key o heap (text ++ rest) -> shows_no_key o heap text.
Proof. intros H secret Hin Hne Hh Ho. apply (H secret Hin Hne Hh). apply (occurs_in secret [] text rest Ho). Qed.
Lemma empty_shows_no_key o heap : shows_no_key o heap [].
Proof. intros secret _ Hne _ (a & b & H). by destruct a, secret. Qed.

Definition tells_no_key (o : Occurrence) (heap : Heap) (result : HarnessResult) (e : error) : Prop :=
  shows_no_key o heap (to_bytes (hr_FinalResponse result)) /\ shows_no_key o heap (to_bytes (hr_Error result)) /\
  match e with Some e => shows_no_key o heap (to_bytes (Error e)) | None => True end.
Section Telling.
Context {W : Type} `{!Runtime W}.
Lemma failed_redacted_tells o heap started e :
  gives (W := W) (failed_redacted o heap started e) (fun r => tells_no_key o heap r.1 r.2).
Proof.
  unfold failed_redacted, failed_run. apply gives_bind. intros now. apply gives_ret.
  assert (forall text, shows_no_key o heap (to_bytes (of_bytes (credentials_Redact (oc_Credentials o) heap text)))) as H
    by (intros text; rewrite to_of_bytes; apply redacted_shows_no_key).
  split_and!; [apply empty_shows_no_key|apply H|apply H].
Qed.
End Telling.

(** * The writes of a computation *)

#[export] Instance traced_writes {W} `{!Files W} : Files (W * list bytes) := {|
  os_MkdirAll path mode := silent (os_MkdirAll path mode);
  os_EvalSymlinks path := silent (os_EvalSymlinks path);
  os_Abs path := silent (os_Abs path);
  os_Chmod path mode := silent (os_Chmod path mode);
  os_Create path mode := silent (os_Create path mode);
  os_Open path := silent (os_Open path);
  os_Write file content := logged (fun _ => content) (os_Write file content);
  os_Sync file := silent (os_Sync file);
  os_Close file := silent (os_Close file);
  os_Stat file := silent (os_Stat file);
  os_ReadAll file limit := silent (os_ReadAll file limit);
  os_Remove path := silent (os_Remove path);
  os_RemoveAll path := silent (os_RemoveAll path);
  rand_Read n := silent (rand_Read n)
|}.
Definition silent_deployment {W E} (d : HarnessDeployment W) : HarnessDeployment (W * list E) := {|
  hd_Create ctx request := silent (hd_Create d ctx request);
  hd_Validate ctx id request secrets := silent (hd_Validate d ctx id request secrets);
  hd_UploadArchive ctx id path archive := silent (hd_UploadArchive d ctx id path archive);
  hd_DownloadArchive ctx id path limit := silent (hd_DownloadArchive d ctx id path limit);
  hd_Start ctx id := silent (hd_Start d ctx id);
  hd_Running ctx id := silent (hd_Running d ctx id);
  hd_Logs ctx id limit := silent (hd_Logs d ctx id limit);
  hd_Address ctx id port := silent (hd_Address d ctx id port);
  hd_Exec ctx id command := silent (hd_Exec d ctx id command);
  hd_Stop ctx id := silent (hd_Stop d ctx id);
  hd_Close := silent (hd_Close d)
|}.

(** Every event of a computation has a property. *)
Definition all_events {E A} (P : E -> Prop) : A -> list E -> Prop := fun _ evs => Forall P evs.
Section All.
Context {W E : Type} (P : E -> Prop).
Lemma all_ret {A} (a : A) : emits (W := W) (ret a) (all_events P).
Proof. apply emits_ret. constructor. Qed.
Lemma all_silent {A} (m : M W A) : emits (silent m) (all_events P).
Proof. apply emits_silent. constructor. Qed.
Lemma all_bind {A B} (m : M (W * list E) A) (f : A -> M (W * list E) B) :
  emits m (all_events P) -> (forall a, emits (f a) (all_events P)) -> emits (bind m f) (all_events P).
Proof.
  intros Hm Hf. eapply emits_bind; [exact Hm|]. intros a evs Ha. eapply emits_mono; [apply Hf|].
  intros b evs' Hb. by apply Forall_app.
Qed.
End All.
Create HintDb evidence.
Ltac evidence_step :=
  match goal with
  | |- emits (ret _) _ => apply all_ret
  | |- emits (bind _ _) _ => apply all_bind; [|intros ?]
  | |- emits (match ?x with _ => _ end) _ => destruct x
  | |- emits (match ?x with _ => _ end _) _ => destruct x
  | |- emits (let (_, _) := ?x in _) _ => destruct x
  | _ => solve [auto 2 with evidence nocore]
  | _ => apply all_silent
  end.
Ltac evidence_steps := cbv beta zeta; repeat (evidence_step; cbv beta zeta).

(** A file of evidence: no key of [o] that is one hidable line is in it, or it is the index
    of the telemetry's paths. *)
Definition line_keys_hidden (o : Occurrence) (heap : Heap) (content : bytes) : Prop :=
  forall secret, secret ∈ Secrets (oc_Credentials o) heap -> secret <> [] -> hidable secret -> NL ∉ secret -> ~ occurs secret content.
Definition is_index `{Library} (content : bytes) : Prop :=
  exists a text, lib_json_MarshalIndent (telemetry_index a) = inl text /\ content = text ++ [NL].
Definition evidence `{Library} (o : Occurrence) (heap : Heap) (content : bytes) : Prop :=
  line_keys_hidden o heap content \/ is_index content.
Lemma redacted_evidence `{Library} o heap content : evidence o heap (credentials_Redact (oc_Credentials o) heap content).
Proof. left. intros secret Hin Hne Hh _. by apply redacted_shows_no_key. Qed.
Lemma RedactSecrets_evidence `{Library} o heap content :
  evidence o heap (RedactSecrets content (Secrets (oc_Credentials o) heap)).
Proof. apply redacted_evidence. Qed.
Lemma FilterLogs_evidence `{Library} o heap content limit :
  evidence o heap (FilterLogs content limit (Secrets (oc_Credentials o) heap)).
Proof.
  left. intros secret Hin Hne Hh Hnl. destruct (filter_logs_clean content limit (Secrets (oc_Credentials o) heap)) as (? & _ & _ & _ & Hall & _).
  rewrite Forall_forall in Hall. by apply Hall.
Qed.

Section Writing.
Context {W : Type} `{Lib : Library} `{!Files W} (P : bytes -> Prop).
Abbreviation T := (W * list bytes)%type.
Lemma WriteArtifact_writes path content : P content -> emits (WriteArtifact (W := T) path content) (all_events P).
Proof.
  intros HP. assert (forall file, emits (os_Write (W := W * list bytes) file content) (all_events P)) as Hw.
  { intros file. apply emits_logged. intros a. by constructor. }
  unfold WriteArtifact, abandon, existing_artifact, Read, ReadBounded, read_open, EnsureDirectory.
  repeat (first [apply Hw|evidence_step]; cbv beta zeta).
Qed.
Lemma retain_writes path content what acc : P content -> emits (retain (W := T) path content what acc) (all_events P).
Proof. intros HP. unfold retain. destruct acc as [errs a]. apply all_bind; [by apply WriteArtifact_writes|]. intros e. evidence_steps. Qed.
Lemma retain_json_writes path value e r acc :
  (forall text, lib_json_MarshalIndent value = inl text -> P (text ++ [NL])) ->
  emits (retain_json (W := T) path value e r acc) (all_events P).
Proof.
  intros HP. unfold retain_json. destruct (lib_json_MarshalIndent value) as [text|e'] eqn:Ht; [|apply all_ret].
  apply retain_writes. by apply HP.
Qed.
Lemma collected_writes collect acc : emits collect (all_events P) -> emits (collected (W := T) collect acc) (all_events P).
Proof. intros Hc. unfold collected. apply all_bind; [done|]. intros [paths e]. apply all_ret. Qed.
End Writing.
(** * A world for examples *)

(** A library whose URLs and JSON are given by their reading, and where other texts are
    empty. *)
Definition plain_library (parse : string -> option FullURL) (unmarshal : string -> option json) : Library := {|
  lib_url_Parse := parse;
  lib_url_String u := ul_Host u;
  lib_NewRequest _ _ := true;
  lib_json_Unmarshal := unmarshal;
  lib_json_Decode _ := (inr (ESentinel ErrEOF), []);
  lib_json_Marshal _ := inl [];
  lib_json_MarshalIndent _ := inl [];
  lib_json_Encode _ := inl [];
  lib_FormatFloat _ := "0"%string;
  lib_json_ParseFloat _ := f64_zero;
  lib_json_FormatFloat _ := "0"%string;
  lib_FormatTime := itoa;
  lib_yaml_Marshal _ := inl [];
  lib_ParseIP _ := None;
  lib_ToLower s := s;
  lib_tar_Write output _ := inl output;
  lib_tar_Close := inl;
  lib_tar_Read _ := ([], None)
|}.
Definition demo_Runtime : Runtime Disk := {| time_Now := ret 0; ctx_Err _ := ret None |}.
Definition demo_Ticker : Ticker Disk := {| await_tick _ := ret None; os_ReadFile _ := ret (inl []) |}.
Definition demo_Speech : Speech Disk := {|
  NewSpeech _ _ _ := ret (inl 0%nat);
  Synthesize _ _ _ := ret (inr (ENew "no speech"));
  speech_Close _ := ret tt
|}.
Definition demo_deployment : HarnessDeployment Disk :=
  {| hd_Create _ _ := ret ("id"%string, None); hd_Validate _ _ _ _ := ret None; hd_UploadArchive _ _ _ _ := ret None;
     hd_DownloadArchive _ _ _ _ := ret (inl ([], None)); hd_Start _ _ := ret None; hd_Running _ _ := ret (true, None);
     hd_Logs _ _ _ := ret ([], None); hd_Address _ _ _ := ret ("h:1"%string, None);
     hd_Exec _ _ _ := ret ({| cr_ExitCode := 0; cr_Stdout := ""; cr_Stderr := ""; cr_Duration := 0 |}, None);
     hd_Stop _ _ := ret None; hd_Close := ret None |}.
Definition demo_agent_model : ModelConfig :=
  {| mc_Provider := "deepseek"; mc_BaseURL := "http://m"; mc_Model := "m"; mc_APIKeyEnv := "KEY"; mc_ReasoningEffort := "";
     mc_ContextLength := 0; mc_MaxTokens := 0; mc_Temperature := None |}.
Definition demo_occurrence : Occurrence :=
  {| oc_RunID := "run"; oc_TaskID := "task"; oc_AttemptID := "a"; oc_Name := "n"; oc_ID := "id"; oc_DeploymentRequest := None;
     oc_ArtifactDir := "/out"; oc_Endpoint := no_ToolEndpoint; oc_Model := demo_agent_model; oc_AgentTimeout := 10 ^ 9;
     oc_Credentials := {| cd_label := "demo"; cd_values := {[ "model"%string := 0%nat ]}; cd_order := ["model"%string]; cd_mcp := None |};
     oc_Artifacts := {| at_Directory := "/out"; at_paths := [] |} |}.
Definition demo_heap : Heap := {[ 0%nat := to_bytes "sk-1" ]}.
Definition demo_RuntimeOptions : RuntimeOptions :=
  {| ro_Image := ""; ro_OutputDir := "/out"; ro_CleanupTimeout := 1; ro_StartTimeout := 1; ro_AgentTimeout := 1;
     ro_APIKeyLookup := fun _ heap => (None, heap) |}.
Definition demo_Options : Options :=
  {| on_Mode := "agent"; on_WebSearchEnabled := false; on_ExtractAPIKeyEnv := ""; on_SubagentsEnabled := false;
     on_MaxConcurrentSubagents := 0; on_MCPServers := []; on_RedactEnv := [] |}.
Definition demo_TTS : TTSOptions :=
  {| ts_Provider := ""; ts_BaseURL := ""; ts_APIKeyEnv := ""; ts_Model := ""; ts_Voice := ""; ts_Instructions := "";
     ts_Speed := None; ts_Timeout := 0 |}.
