(* ===== verification/Hermes.v ===== *)
(** The Hermes harness ([pkg/harness/hermes], harness.go, gateway.go and
    session_snapshot.go): what a task run does between its admission and its result, and
    how a session is prepared, brought up and let go of. The gateway's client and the
    run under way are one object shared by the manager's session and the snapshots of
    it, so it lives in the world. *)

From S2P Require Import Prelude Utf8 Trace Core Paths Redaction Credentials Deployments HarnessRuntime HarnessManager HarnessFiles.
From S2P Require Import ConfigDeployment Config HarnessConfig HarnessWorld HermesClient HermesConfig Voice.

(** * The world of a gateway *)

(** [gatewayExecution]: the context its [cancel] ends, when it has one. *)
Record gatewayExecution := {
  ge_client : Client;
  ge_runID : string;
  ge_cancel : option Ctx;
  ge_stopped : bool
}.
Class HermesWorld (W : Type) := {
  new_execution : gatewayExecution -> M W nat;
  get_execution : nat -> M W gatewayExecution;
  set_execution : nat -> gatewayExecution -> M W unit;
  cancel_context : Ctx -> M W unit
}.

(** [Options], with the two halves of [VoiceTranscribe]. *)
Record HermesOptions := {
  ho_Runtime : RuntimeOptions;
  ho_Common : Options;
  ho_MaxTurns : Z;
  ho_TerminalTimeout : Z;
  ho_TTS : TTSOptions;
  ho_STT : VoiceSTTOptions;
  ho_Compaction : option CompactionSettings;
  ho_ExtraBody : bytes
}.
Definition ModeAgent : string := "agent".
Definition ModeVoiceTranscribe : string := "voice-transcribe".

(** The native part of a session: its gateway, when it has one, and the configuration
    that [Start] has rendered. *)
Record HermesSession := { he_gateway : option nat; he_configuration : bytes }.

(** * The gateway execution *)

Definition set_ge_client (c : Client) (g : gatewayExecution) : gatewayExecution :=
  {| ge_client := c; ge_runID := ge_runID g; ge_cancel := ge_cancel g; ge_stopped := ge_stopped g |}.
Definition set_ge_runID (id : string) (g : gatewayExecution) : gatewayExecution :=
  {| ge_client := ge_client g; ge_runID := id; ge_cancel := ge_cancel g; ge_stopped := ge_stopped g |}.
Definition set_ge_cancel (ctx : Ctx) (g : gatewayExecution) : gatewayExecution :=
  {| ge_client := ge_client g; ge_runID := ge_runID g; ge_cancel := Some ctx; ge_stopped := ge_stopped g |}.
Definition set_ge_stopped (g : gatewayExecution) : gatewayExecution :=
  {| ge_client := ge_client g; ge_runID := ge_runID g; ge_cancel := ge_cancel g; ge_stopped := true |}.

(** [runOutcome]. *)
Record runOutcome := {
  gw_Status : string;
  gw_EndReason : string;
  gw_RunID : string;
  gw_SessionID : string;
  gw_StartedAt : string;
  gw_EndedAt : string;
  gw_DurationMS : Z
}.
Definition set_gw_end (status reason : string) (o : runOutcome) : runOutcome :=
  {| gw_Status := status; gw_EndReason := reason; gw_RunID := gw_RunID o; gw_SessionID := gw_SessionID o;
     gw_StartedAt := gw_StartedAt o; gw_EndedAt := gw_EndedAt o; gw_DurationMS := gw_DurationMS o |}.
Definition set_gw_RunID (id : string) (o : runOutcome) : runOutcome :=
  {| gw_Status := gw_Status o; gw_EndReason := gw_EndReason o; gw_RunID := id; gw_SessionID := gw_SessionID o;
     gw_StartedAt := gw_StartedAt o; gw_EndedAt := gw_EndedAt o; gw_DurationMS := gw_DurationMS o |}.
Definition set_gw_ended (at_ : string) (duration : Z) (o : runOutcome) : runOutcome :=
  {| gw_Status := gw_Status o; gw_EndReason := gw_EndReason o; gw_RunID := gw_RunID o; gw_SessionID := gw_SessionID o;
     gw_StartedAt := gw_StartedAt o; gw_EndedAt := at_; gw_DurationMS := duration |}.
Definition outcome_json (o : runOutcome) : json :=
  JObject ([("status", JString (gw_Status o)); ("end_reason", JString (gw_EndReason o))] ++
           (if String.eqb (gw_RunID o) "" then [] else [("run_id", JString (gw_RunID o))]) ++
           [("session_id", JString (gw_SessionID o)); ("started_at", JString (gw_StartedAt o));
            ("ended_at", JString (gw_EndedAt o)); ("duration_ms", JNumber (itoa (gw_DurationMS o)))])%list%string.

Section Gateway.
Context {W : Type} `{Lib : Library} `{!Runtime W} `{!Transport W} `{!HermesWorld W} `{!Ticker W}.
Variable poll_fuel : nat.

Definition modify_execution (g : nat) (f : gatewayExecution -> gatewayExecution) : M W unit :=
  let* execution := get_execution g in set_execution g (f execution).
Definition client_of (g : nat) : M W Client := let* execution := get_execution g in ret (ge_client execution).
Definition close_client (g : nat) : M W unit :=
  let* c := client_of g in
  let* c := client_Close c in
  modify_execution g (set_ge_client c).

(** [newGatewayExecution] and [cancelRun]. *)
Definition newGatewayExecution (address : string) (token : bytes) : M W (nat + err) :=
  match New lib_url_Parse address (of_bytes token) with
  | inr e => ret (inr e)
  | inl c =>
      let* g := new_execution {| ge_client := c; ge_runID := ""; ge_cancel := None; ge_stopped := false |} in ret (inl g)
  end.
Definition cancelRun (g : nat) (ctx : Ctx) : M W unit :=
  let* _ := modify_execution g set_ge_stopped in
  let* execution := get_execution g in
  let* _ := match ge_cancel execution with Some c => cancel_context c | None => ret tt end in
  if String.eqb (ge_runID execution) "" then ret tt
  else
    let* c := client_of g in
    let* _ := client_Stop lib_NewRequest lib_json_Unmarshal c (WithTimeout ctx (2 * 10 ^ 9)) (ge_runID execution) in
    ret tt.

(** [runGateway]. *)
Definition run_ended (sessionID : string) (result : Run) (o : runOutcome) : runOutcome * error :=
  if negb (String.eqb (rn_SessionID result) "") && negb (String.eqb (rn_SessionID result) sessionID)
  then (set_gw_end (gw_Status o) "session_mismatch" o, Some (ENew "Hermes Gateway returned a different task session"))
  else if String.eqb (rn_Status result) "completed" then (set_gw_end StatusSucceeded (rn_Status result) o, None)
  else
    let e := ENew ("Hermes Gateway run " +:+ rn_Status result +:+ ": " +:+ rn_Error result) in
    if one_of (rn_Status result) ["cancelled"; "interrupted"]%string
    then (set_gw_end StatusCanceled (rn_Status result) o, errors_Join [Some (ESentinel Canceled); Some e])
    else (set_gw_end (gw_Status o) (rn_Status result) o, Some e).
Definition attempt_run (g : nat) (runCtx : Ctx) (instruction sessionID : string) (o : runOutcome) :
    M W (Run * runOutcome * error) :=
  let* c := client_of g in
  let* id := Submit lib_NewRequest lib_json_Unmarshal c runCtx instruction sessionID in
  match id with
  | inr e => ret (no_Run, o, Some e)
  | inl id =>
      let o := set_gw_RunID id o in
      let* _ := modify_execution g (set_ge_runID id) in
      let* result := Wait lib_NewRequest lib_json_Unmarshal poll_fuel (client_of g) runCtx id (10 ^ 8) in
      match default (inr (ESentinel DeadlineExceeded)) result with
      | inr e => ret (no_Run, o, Some e)
      | inl result => let (o, e) := run_ended sessionID result o in ret (result, o, e)
      end
  end.
Definition interrupted (result : Run) (e : error) (o : runOutcome) : runOutcome :=
  let o := if String.eqb (rn_Status result) "" && error_Is e DeadlineExceeded
           then set_gw_end StatusCanceled "deadline_exceeded" o else o in
  if String.eqb (rn_Status result) "" && error_Is e Canceled then set_gw_end StatusCanceled "canceled" o else o.
Definition runGateway (ctx : Ctx) (g : nat) (occurrence : Occurrence) (instruction : string) :
    M W (string * runOutcome * error) :=
  let* started := time_Now in
  let o := {| gw_Status := StatusFailed; gw_EndReason := "request_error"; gw_RunID := "";
              gw_SessionID := "aries-" +:+ oc_AttemptID occurrence; gw_StartedAt := lib_FormatTime started;
              gw_EndedAt := ""; gw_DurationMS := 0 |} in
  let runCtx := WithTimeout ctx (oc_AgentTimeout occurrence) in
  let* execution := get_execution g in
  if ge_stopped execution then
    let* ended := time_Now in
    ret (""%string, set_gw_ended (lib_FormatTime ended) 0 (set_gw_end (gw_Status o) "stopped" o),
         Some (ENew "Hermes Gateway is stopped"))
  else
    let* _ := modify_execution g (set_ge_cancel runCtx) in
    let* (result, o, e) := attempt_run g runCtx instruction (gw_SessionID o) o in
    let o := interrupted result e o in
    let* _ := match e with
              | Some _ => cancelRun g (WithTimeout (WithoutCancel ctx) (2 * 10 ^ 9))
              | None => ret tt
              end in
    let* ended := time_Now in
    ret (rn_Output result, set_gw_ended (lib_FormatTime ended) (Z.quot (ended - started) (10 ^ 6)) o, e).
End Gateway.

(** * Evidence of a run *)

Definition TrimRightNL (s : bytes) : bytes :=
  rev ((fix strip (l : bytes) : bytes := match l with c :: l' => if Ascii.eqb c NL then strip l' else l | [] => [] end) (rev s)).
Definition spanStoreMissing : Z := 3.
Definition spansTruncated : Z := 4.
Definition spanDumpLimit : Z := maxDockerOutput - 2 ^ 20.
(** The text of [spanDumpScript], a Python program. *)
Definition spanDumpScript : string := lines [
  "import os, sqlite3, sys"; "path, limit = sys.argv[1], int(sys.argv[2])"; "if not os.path.isfile(path):"; "    sys.exit(3)";
  "db = sqlite3.connect(" +:+ QUOTE +:+ "file:" +:+ QUOTE +:+ " + path + " +:+ QUOTE +:+ "?mode=ro" +:+ QUOTE +:+ ", uri=True)";
  "written = kept = 0";
  "rows = db.execute(" +:+ QUOTE +:+ "SELECT data FROM events WHERE kind = 'span' ORDER BY seq" +:+ QUOTE +:+ ").fetchall()";
  "for (data,) in rows:"; "    line = (data + " +:+ QUOTE +:+ "\n" +:+ QUOTE +:+ ").encode()";
  "    if written + len(line) > limit:";
  "        sys.stderr.write(" +:+ QUOTE +:+ "kept %d of %d spans\n" +:+ QUOTE +:+ " % (kept, len(rows)))";
  "        sys.exit(4)"; "    sys.stdout.buffer.write(line)"; "    written += len(line)"; "    kept += 1"]%string.
Definition hermes_command (path : string) (args : list string) : Command :=
  {| cm_Path := path; cm_Args := args; cm_Dir := workspaceRoot; cm_Env := ∅; cm_Stdin := []; cm_Timeout := 0; cm_User := "";
     cm_OutputLimitBytes := maxDockerOutput |}.

Section Evidence.
Context {W : Type} `{Lib : Library} `{!Files W}.
Variable deployment : HarnessDeployment W.
Variable occurrence : Occurrence.
Variable heap : Heap.
Let redact (content : bytes) : bytes := credentials_Redact (oc_Credentials occurrence) heap content.
Let ArtifactDir : string := oc_ArtifactDir occurrence.

(** [collectSessions] and [collectSpans]. *)
Definition collectSessions (ctx : Ctx) : M W (list string * error) :=
  let* (result, e) := hd_Exec deployment ctx (oc_ID occurrence) (hermes_command "hermes" ["sessions"; "export"; "-"]%string) in
  match e with
  | Some e => ret ([], Some (EWrap "export Hermes sessions" e))
  | None =>
      if negb (cr_ExitCode result =? 0) || String.eqb (TrimSpace (cr_Stdout result)) "" then ret ([], None)
      else
        let path := Join [ArtifactDir; "telemetry"; "sessions.jsonl"]%string in
        let* e := WriteArtifact path (redact (to_bytes (cr_Stdout result))) in
        ret match e with Some e => ([], Some (EWrap "retain Hermes sessions" e)) | None => ([path], None) end
  end.
Definition collectSpans (ctx : Ctx) : M W (list string * error) :=
  let* (result, e) := hd_Exec deployment ctx (oc_ID occurrence)
                        (hermes_command "python3" ["-c"%string; spanDumpScript; otelStorePath; itoa spanDumpLimit]) in
  match e with
  | Some e => ret ([], Some (EWrap "dump Hermes spans" e))
  | None =>
      if cr_ExitCode result =? spanStoreMissing then ret ([], None)
      else if negb (cr_ExitCode result =? 0) && negb (cr_ExitCode result =? spansTruncated)
      then ret ([], Some (ENew ("dump Hermes spans exited with code " +:+ itoa (cr_ExitCode result) +:+ ": " +:+
                                TrimSpace (of_bytes (redact (to_bytes (cr_Stderr result)))))))
      else if String.eqb (TrimSpace (cr_Stdout result)) "" then ret ([], None)
      else
        let path := Join [ArtifactDir; "telemetry"; "otel-spans.jsonl"]%string in
        let* e := WriteArtifact path (redact (to_bytes (cr_Stdout result))) in
        ret match e with Some e => ([], Some (EWrap "retain Hermes spans" e)) | None => ([path], None) end
  end.

(** [collectArtifacts]. *)
Definition collect_logs (ctx : Ctx) (acc : list error * Artifacts) : M W (list error * Artifacts) :=
  let* (logs, e) := hd_Logs deployment ctx (oc_ID occurrence) maxDockerOutput in
  match e with
  | Some e => ret (acc.1 ++ [Some (EWrap "collect Hermes container logs" e)], acc.2)
  | None =>
      retain (Join [ArtifactDir; "container.log"]%string)
        (FilterLogs logs maxDockerOutput (Secrets (oc_Credentials occurrence) heap)) None acc
  end.
Definition collectArtifacts (ctx : Ctx) (output : bytes) (outcome : runOutcome) : M W (error * Artifacts) :=
  let* acc := retain_json (Join [ArtifactDir; "session-outcome.json"]%string) (outcome_json outcome)
                "encode Hermes session outcome" "retain Hermes session outcome" ([], oc_Artifacts occurrence) in
  let* acc := retain (Join [ArtifactDir; "gateway-output.txt"]%string) output (Some "retain gateway-output.txt"%string) acc in
  let* acc := collect_logs ctx acc in
  let* acc := collected (collectSessions ctx) acc in
  let* acc := collected (collectSpans ctx) acc in
  let* acc := retain_json (Join [ArtifactDir; "telemetry.index.json"]%string) (telemetry_index acc.2)
                "write Hermes telemetry index" "write Hermes telemetry index" acc in
  ret (errors_Join acc.1, acc.2).
End Evidence.

(** * The voice mode *)

Definition tailString (content : bytes) (limit : Z) : string :=
  if limit <=? 0 then "" else of_bytes (drop (length content - Z.to_nat limit) content).
(** [lastJSONObject]; [null] decodes into the nil map. *)
Definition lastJSONObject `{Library} (text : string) : option (list (string * json)) :=
  (fix go (l : list string) := match l with
     | [] => None
     | line :: l =>
         let line := TrimSpace line in
         if String.eqb line "" then go l
         else match lib_json_Unmarshal line with
              | Some (JObject members) => Some members
              | Some JNull => Some []
              | _ => go l
              end
     end) (rev (Split text NL)).

Record voiceSTTResult := {
  vr_OK : bool;
  vr_Transcript : string;
  vr_RawTranscript : string;
  vr_ReturnCode : Z;
  vr_RawResult : option (list (string * json));
  vr_Stdout : string;
  vr_Stderr : string;
  vr_Error : string
}.
Definition stt_failed (code : Z) (raw : option (list (string * json))) (stdout stderr e : string) : voiceSTTResult :=
  {| vr_OK := false; vr_Transcript := ""; vr_RawTranscript := ""; vr_ReturnCode := code; vr_RawResult := raw;
     vr_Stdout := stdout; vr_Stderr := stderr; vr_Error := e |}.
Definition stt_json (r : voiceSTTResult) : json :=
  JObject ([("ok", JBool (vr_OK r)); ("transcript", JString (vr_Transcript r)); ("raw_transcript", JString (vr_RawTranscript r));
            ("returncode", JNumber (itoa (vr_ReturnCode r)))] ++
           match vr_RawResult r with Some ((_ :: _) as raw) => [("raw_result", JObject raw)] | _ => [] end ++
           [("stdout", JString (vr_Stdout r)); ("stderr", JString (vr_Stderr r))] ++
           (if String.eqb (vr_Error r) "" then [] else [("error", JString (vr_Error r))]))%list%string.

Definition hermesSTTScript : string :=
  nl +:+ lines ["import json"; "import sys"; "from tools.voice_mode import transcribe_recording";
                "result = transcribe_recording(sys.argv[1], model=sys.argv[2])"; "print(json.dumps(result, ensure_ascii=False))"]%string.
Definition hermesSTTCommand (model : string) : list string :=
  ["-c"%string;
   lines ["set -eu"; "if [ -f " +:+ voiceKeyPath +:+ " ]; then";
          "  OPENAI_API_KEY=" +:+ QUOTE +:+ "$(cat " +:+ voiceKeyPath +:+ ")" +:+ QUOTE; "  export OPENAI_API_KEY"; "fi";
          "exec python3 -c " +:+ QUOTE +:+ "$1" +:+ QUOTE +:+ " " +:+ QUOTE +:+ "$2" +:+ QUOTE +:+ " " +:+ QUOTE +:+ "$3" +:+ QUOTE];
   "aries-hermes-stt"%string; hermesSTTScript; voiceWAVPath; model].

Section VoiceMode.
Context {W : Type} `{Lib : Library} `{!Files W} `{!Ticker W} `{!Speech W}.
Variable options : HermesOptions.
Variable deployment : HarnessDeployment W.
Variable occurrence : Occurrence.
Variable heap : Heap.
Let redact (content : bytes) : bytes := credentials_Redact (oc_Credentials occurrence) heap content.

Definition synthesizeVoiceInstruction (ctx : Ctx) (instruction : string) : M W (string * list string * error) :=
  let t := ho_TTS options in
  SynthesizeVoiceInstruction lib_json_MarshalIndent ctx instruction
    {| vi_ArtifactDir := oc_ArtifactDir occurrence; vi_InstructionPath := ""; vi_ErrorLabel := "Hermes"; vi_TTSErrorLabel := "";
       vi_Provider := ts_Provider t; vi_BaseURL := ts_BaseURL t; vi_APIKey := Get (oc_Credentials occurrence) heap "voice";
       vi_Model := ts_Model t; vi_Voice := ts_Voice t; vi_Instructions := ts_Instructions t; vi_Speed := ts_Speed t;
       vi_Timeout := ts_Timeout t |}.

(** [stageVoiceWAV]. *)
Definition runtimeUID : Z := 10000.
Definition owned_file (content : bytes) (mode : Z) : ArchiveFile :=
  {| af_Content := content; af_Attributes := {| ar_Mode := mode; ar_UID := runtimeUID; ar_GID := runtimeUID |} |}.
Definition stageVoiceWAV (ctx : Ctx) (audioPath : string) : M W error :=
  let* audio := os_ReadFile audioPath in
  match audio with
  | inr e => ret (Some (EWrap "read Hermes voice audio artifact" e))
  | inl audio =>
      match StageArchive lib_tar_Write lib_tar_Close [] {[ TrimPrefix voiceWAVPath "/" := owned_file audio file_mode ]} with
      | inr e => ret (Some (EWrap "stage Hermes voice audio archive" e))
      | inl archive =>
          let* e := hd_UploadArchive deployment ctx (oc_ID occurrence) "/" archive in
          ret (wrap "copy Hermes voice audio" e)
      end
  end.

(** [transcribeVoice]. *)
Definition transcript_of (code : Z) (stdout stderr : string) (payload : list (string * json)) : voiceSTTResult :=
  let failed := stt_failed code (Some payload) stdout stderr in
  match json_member "success" payload with
  | Some (JBool true) =>
      match json_member "transcript" payload with
      | Some (JString transcript) =>
          let transcript := TrimSpace transcript in
          let e := (if String.eqb transcript "" then "stt_empty_transcript" else "")%string in
          {| vr_OK := negb (String.eqb transcript ""); vr_Transcript := transcript; vr_RawTranscript := transcript;
             vr_ReturnCode := code; vr_RawResult := Some payload; vr_Stdout := stdout; vr_Stderr := stderr; vr_Error := e |}
      | _ => failed "stt_invalid_result"
      end
  | Some (JBool false) =>
      failed (Or [match json_member "error" payload with Some (JString e) => e | _ => "" end; "stt_failed"]%string)
  | _ => failed "stt_invalid_result"
  end.
Definition transcribeVoice (ctx : Ctx) : M W voiceSTTResult :=
  let timeout := positive_or (vs_Timeout (ho_STT options)) (5 * 60 * 10 ^ 9) in
  let* (result, e) := hd_Exec deployment (WithTimeout ctx timeout) (oc_ID occurrence)
                        (hermes_command "/bin/sh" (hermesSTTCommand (vs_Model (ho_STT options)))) in
  let code := cr_ExitCode result in
  let stdout := tailString (redact (to_bytes (cr_Stdout result))) 20000 in
  let stderr := tailString (redact (to_bytes (cr_Stderr result))) 20000 in
  ret match e with
      | Some e => stt_failed code None stdout stderr (Error e)
      | None =>
          if negb (code =? 0)
          then stt_failed code None stdout stderr (Or [TrimSpace stderr; TrimSpace stdout; "stt_exit_" +:+ itoa code]%string)
          else match lastJSONObject stdout with
               | None => stt_failed code None stdout stderr "stt_no_json_result"
               | Some payload => transcript_of code stdout stderr payload
               end
      end.

(** [writeVoiceResult]. *)
Definition voice_result (originalPrompt : string) (stt : voiceSTTResult) (agentOutput : string) : json :=
  JObject [("ok", JBool (vr_OK stt)); ("original_prompt", JString originalPrompt); ("transcript", JString (vr_Transcript stt));
           ("agent_question_used", JString (vr_Transcript stt)); ("agent_output_text", JString agentOutput);
           ("stt", stt_json stt); ("container_wav_path", JString voiceWAVPath)]%string.
Definition writeVoiceResult (originalPrompt : string) (stt : voiceSTTResult) (agentOutput : string) (a : Artifacts) :
    M W (error * Artifacts) :=
  match lib_json_MarshalIndent (voice_result originalPrompt stt agentOutput) with
  | inr e => ret (Some (EWrap "encode Hermes voice result" e), a)
  | inl content =>
      let path := Join [oc_ArtifactDir occurrence; "voice-result.json"]%string in
      let* e := WriteArtifact path (redact (content ++ [NL])) in
      match e with
      | Some e => ret (Some (EWrap "write Hermes voice result" e), a)
      | None =>
          let a := Add [path] a in
          let transcriptPath := Join [oc_ArtifactDir occurrence; "voice-transcript.txt"]%string in
          let* e := WriteArtifact transcriptPath (to_bytes (vr_Transcript stt)) in
          ret match e with
              | Some e => (Some (EWrap "write Hermes voice transcript" e), a)
              | None => (None, Add [transcriptPath] a)
              end
      end
  end.
End VoiceMode.

(** * Run *)

Section Run.
Context {W : Type} `{Lib : Library} `{!Runtime W} `{!Transport W} `{!Files W} `{!HermesWorld W} `{!Ticker W} `{!Speech W}.
Variable options : HermesOptions.
Variable poll_fuel : nat.
Variable deployment : HarnessDeployment W.

Definition succeeded (o : Occurrence) (started : Z) (stdout : bytes) : M W (HarnessResult * error) :=
  let* now := time_Now in
  ret ({| hr_Status := StatusSucceeded; hr_FinalResponse := of_bytes (TrimRightNL stdout); hr_Duration := now - started;
          hr_LogPaths := at_paths (oc_Artifacts o); hr_Error := "" |}, None).

(** [Run] in the agent mode: the result, and the occurrence with its artifacts. *)
Definition finish_run (ctx : Ctx) (o : Occurrence) (heap : Heap) (started : Z) (stdout : bytes) (outcome : runOutcome) (e : error) :
    M W (HarnessResult * error * Artifacts) :=
  let* (artifactErr, a) := collectArtifacts deployment o heap
    (WithTimeout (WithoutCancel ctx) (ro_CleanupTimeout (ho_Runtime options))) stdout outcome in
  let o := set_oc_Artifacts a o in
  let* r := match errors_Join [e; artifactErr] with
            | Some e => failed_redacted o heap started e
            | None => succeeded o started stdout
            end in
  ret (r, a).
Definition run_agent (ctx : Ctx) (g : nat) (o : Occurrence) (heap : Heap) (instruction : string) (started : Z) :
    M W (HarnessResult * error * Artifacts) :=
  let* (output, outcome, e) := runGateway poll_fuel ctx g o instruction in
  finish_run ctx o heap started (credentials_Redact (oc_Credentials o) heap (to_bytes output)) outcome e.

(** [runVoiceTranscribe]. *)
Definition run_transcript (ctx : Ctx) (g : nat) (o : Occurrence) (heap : Heap) (instruction : string) (started : Z)
    (stt : voiceSTTResult) : M W (HarnessResult * error * Artifacts) :=
  let* (output, outcome, e) := runGateway poll_fuel ctx g o (vr_Transcript stt) in
  let stdout := credentials_Redact (oc_Credentials o) heap (to_bytes output) in
  let* (writeErr, a) := writeVoiceResult o heap instruction stt (of_bytes (TrimRightNL stdout)) (oc_Artifacts o) in
  let o := set_oc_Artifacts a o in
  match writeErr with
  | Some writeErr =>
      match errors_Join [e; RedactErr (oc_Credentials o) heap (Some writeErr)] with
      | Some e => let* r := failed_run o heap started e in ret (r, a)
      | None => let* r := succeeded o started stdout in ret (r, a)   (* not reached *)
      end
  | None => finish_run ctx o heap started stdout outcome e
  end.
Definition runVoiceTranscribe (ctx : Ctx) (g : nat) (o : Occurrence) (heap : Heap) (instruction : string) (started : Z) :
    M W (HarnessResult * error * Artifacts) :=
  let* (audioPath, voicePaths, e) := synthesizeVoiceInstruction options o heap ctx instruction in
  let a := Add voicePaths (oc_Artifacts o) in
  let o := set_oc_Artifacts a o in
  let fail e := let* r := failed_redacted o heap started e in ret (r, a) in
  match e with Some e => fail e | None =>
  let* e := stageVoiceWAV deployment o ctx audioPath in
  match e with Some e => fail e | None =>
  let* stt := transcribeVoice options deployment o heap ctx in
  if negb (vr_OK stt) then
    let* (e, a) := writeVoiceResult o heap instruction stt "" a in
    let o := set_oc_Artifacts a o in
    let* r := failed_redacted o heap started
      (match e with Some e => e | None => ENew (Or [vr_Error stt; "Hermes voice STT failed"]%string) end) in
    ret (r, a)
  else if String.eqb (TrimSpace (vr_Transcript stt)) "" || ContainsByte (vr_Transcript stt) NUL
  then fail (ENew "Hermes voice transcript is invalid")
  else run_transcript ctx g o heap instruction started stt
  end end.

(** [Run] on the snapshot [p] of the session; a session that takes runs has a gateway. *)
Definition hermes_run (ctx : Ctx) (instruction : string) (p : nat) (h : Harness HermesSession) :
    M W (HarnessResult * error * Harness HermesSession) :=
  match hn_sessions h !! p with
  | Some {| ss_occurrence := o; ss_native := {| he_gateway := Some g |} |} =>
      let* started := time_Now in
      let* (result, e, a) :=
        (if String.eqb (on_Mode (ho_Common options)) ModeVoiceTranscribe then runVoiceTranscribe else run_agent)
          ctx g o (hn_heap h) instruction started in
      ret (result, e, update_occurrence p (set_oc_Artifacts a) h)
  | _ =>
      ret ({| hr_Status := StatusFailed; hr_FinalResponse := ""; hr_Duration := 0; hr_LogPaths := []; hr_Error := "" |}, None, h)
  end.
End Run.

(** * Start *)

Section Start.
Context {W : Type} `{Lib : Library} `{!Runtime W} `{!Transport W} `{!Files W} `{!HermesWorld W} `{!Ticker W} `{!Speech W}.
Variable options : HermesOptions.
Let lookup : KeyLookup := ro_APIKeyLookup (ho_Runtime options).
Definition extractEnabled : bool :=
  on_WebSearchEnabled (ho_Common options) && negb (String.eqb (on_ExtractAPIKeyEnv (ho_Common options)) "").
Definition voice_mode : bool := String.eqb (on_Mode (ho_Common options)) ModeVoiceTranscribe.

(** What is rendered for a request: the configuration and the environment. *)
Definition render (request : HarnessRequest) : checked (bytes * list string * list MCPServerConfig) :=
  let endpoint := hq_Endpoint request in
  let grpc := String.eqb (te_Protocol endpoint) "grpc" in
  match MCPServers lib_url_Parse (hc_MCPServers (hq_Connectivity request)) (on_MCPServers (ho_Common options)) with
  | inr e => inr (labelled "Hermes" e)
  | inl mcpServers =>
      check_bind (renderConfig lib_url_Parse lib_url_String lib_json_Decode lib_FormatFloat lib_yaml_Marshal (hq_Model request)
        {| rs_maxTurns := ho_MaxTurns options; rs_webSearchEnabled := on_WebSearchEnabled (ho_Common options);
           rs_extractEnabled := extractEnabled; rs_subagentsEnabled := on_SubagentsEnabled (ho_Common options);
           rs_maxConcurrentSubagents := on_MaxConcurrentSubagents (ho_Common options); rs_compaction := ho_Compaction options;
           rs_extraBody := ho_ExtraBody options; rs_mcpServers := mcpServers;
           rs_noSandboxTools := hq_NoSandboxTools request; rs_grpcTarget := if grpc then te_Address endpoint else "" |}
        (if voice_mode then Some (ho_STT options) else None)) (fun configuration =>
      check_bind (renderTerminal lib_yaml_Marshal (if grpc then "aries" else "ssh") (te_Workdir endpoint)
                    (ho_TerminalTimeout options)) (fun terminal =>
      check_bind (containerEnvironment lib_url_Parse lib_ParseIP endpoint (te_Workdir endpoint) (ho_TerminalTimeout options)
                    (on_WebSearchEnabled (ho_Common options)) (hc_SearchURL (hq_Connectivity request)) (hq_RunID request)
                    (hq_TaskID request)) (fun environment =>
      inl (configuration ++ terminal, environment, mcpServers))))
  end.

(** The loading of the keys: a key that is not set, and one the configuration holds, is
    an error. *)
Definition load_required (name sourceEnv : string) (prefix : option string) (unset held : string) (configuration : bytes)
    (c : Credentials) (heap : Heap) : error * Credentials * Heap :=
  match Load lookup name sourceEnv c heap with
  | (_, Some e, c, heap) => (Some match prefix with Some text => EWrap text e | None => e end, c, heap)
  | (false, None, c, heap) => (Some (ENew (unset +:+ " " +:+ quote sourceEnv +:+ " is not set")), c, heap)
  | (true, None, c, heap) => (refuse_if Contains configuration (Get c heap name) with held, c, heap)
  end.
Definition load_all (request : HarnessRequest) (configuration : bytes) (mcpServers : list MCPServerConfig) (heap : Heap) :
    error * Credentials * Heap :=
  let (c, heap) := AddRedactions lib_json_Unmarshal lookup (on_RedactEnv (ho_Common options)) (NewCredentials "Hermes") heap in
  match load_required "model" (mc_APIKeyEnv (hq_Model request)) None "Hermes API-key environment"
          "rendered Hermes config contains the API-key value" configuration c heap with
  | (Some e, c, heap) => (Some e, c, heap)
  | (None, c, heap) =>
      let '(e, c, heap) :=
        if extractEnabled
        then load_required "extract" (on_ExtractAPIKeyEnv (ho_Common options)) None "Hermes extract API-key environment"
               "rendered Hermes config contains the extract API-key value" configuration c heap
        else (None, c, heap) in
      match e with
      | Some e => (Some e, c, heap)
      | None =>
          let '(e, c, heap) :=
            if voice_mode
            then load_required "voice" (ts_APIKeyEnv (ho_TTS options)) (Some "Hermes voice API key"%string)
                   "Hermes voice API-key environment" "rendered Hermes config contains the voice API-key value" configuration c heap
            else (None, c, heap) in
          match e with
          | Some e => (Some e, c, heap)
          | None => LoadMCP lookup mcpServers configuration c heap
          end
      end
  end.

Definition gatewayPort : Z := 8642.
Definition deployment_request (request : HarnessRequest) (environment : list string) (id : string) : Request :=
  {| rt_InternalPort := 0; rt_Mounts := []; rt_Workdir := workspaceRoot; rt_StorageMB := 0; rt_GPUs := 0; rt_Init := false;
     rt_NoNewPrivileges := false; rt_NetworkAliases := []; rt_AllowImageVolumes := false;
     rt_Name := RuntimeName "hermes" (hq_TaskID request) id; rt_Image := ro_Image (ho_Runtime options); rt_Env := environment;
     rt_Entrypoint := Some ["/bin/sh"%string];
     rt_Args := ["-c"%string; "chown -R " +:+ itoa runtimeUID +:+ ":" +:+ itoa runtimeUID +:+ " " +:+ stagedRoot +:+
                              " && exec " +:+ gatewayLauncherPath];
     rt_Labels := list_to_map [("aries.managed", "true"); ("aries.kind", "hermes-harness"); ("aries.component", "harness");
                               ("aries.run", hq_RunID request); ("aries.task", hq_TaskID request); ("aries.attempt", id)]%string;
     rt_Placement := hc_Placement (hq_Connectivity request); rt_CPU := hq_CPU request; rt_MemoryMB := hq_MemoryMB request;
     rt_ImageVolumes := ["/opt/data"%string]; rt_ServicePort := gatewayPort |}.
Definition new_session (request : HarnessRequest) (environment : list string) (configuration : bytes) (id : string)
    (c : Credentials) : Session HermesSession :=
  let directory := Join [ro_OutputDir (ho_Runtime options); hq_TaskID request; "harness"%string] in
  {| ss_occurrence :=
       {| oc_RunID := hq_RunID request; oc_TaskID := hq_TaskID request; oc_AttemptID := id;
          oc_Name := RuntimeName "hermes" (hq_TaskID request) id; oc_ID := "";
          oc_DeploymentRequest := Some (deployment_request request environment id); oc_ArtifactDir := directory;
          oc_Endpoint := hq_Endpoint request; oc_Model := hq_Model request;
          oc_AgentTimeout := if hq_Timeout request =? 0 then ro_AgentTimeout (ho_Runtime options) else hq_Timeout request;
          oc_Credentials := c; oc_Artifacts := {| at_Directory := directory; at_paths := [] |} |};
     ss_native := {| he_gateway := None; he_configuration := configuration |} |}.

(** [Start] up to [Own]: an error clears the credentials. *)
Definition hermes_prepare (request : HarnessRequest) (heap : Heap) : M W ((Session HermesSession + err) * Heap) :=
  match ValidateRunID "Hermes" (hq_RunID request) >>? ValidateTaskID "Hermes" (hq_TaskID request) >>?
        (refuse_if hq_Timeout request <? 0 with "Hermes task timeout must not be negative") with
  | Some e => ret (inr e, heap)
  | None =>
      match render request with
      | inr e => ret (inr e, heap)
      | inl (configuration, environment, mcpServers) =>
          match load_all request configuration mcpServers heap with
          | (Some e, c, heap) => ret (inr e, (Clear c heap).2)
          | (None, c, heap) =>
              let* id := RandomID in
              match id with
              | inr e => ret (inr (EWrap "generate Hermes harness ID" e), (Clear c heap).2)
              | inl id => ret (inl (new_session request environment configuration id c), heap)
              end
          end
      end
  end.

(** [runtimeArchive]. *)
Definition staged (path : string) : string := TrimPrefix path "/".
Definition runtimeArchive (o : Occurrence) (heap : Heap) (configuration : bytes) : bytes + err :=
  let c := oc_Credentials o in
  let extract := negb (bool_decide (Get c heap "extract" = [])) in
  let mcpHostVars := sorted_keys (MCPFiles c heap) in
  let files : gmap string ArchiveFile :=
    list_to_map
      ((staged gatewayLauncherPath, owned_file (to_bytes (gatewayLauncherScript (mc_APIKeyEnv (oc_Model o)) extract mcpHostVars)) 365) ::
       (staged gatewayKeyPath, owned_file (Get c heap "gateway") file_mode) ::
       (staged modelKeyPath, owned_file (Get c heap "model") file_mode) ::
       (staged configContainerPath, owned_file configuration file_mode) ::
       (if extract then [(staged extractKeyPath, owned_file (Get c heap "extract") file_mode)] else []) ++
       (if bool_decide (Get c heap "voice" = []) then [] else [(staged voiceKeyPath, owned_file (Get c heap "voice") file_mode)]) ++
       map (fun hostVar => (staged (mcpKeyPath hostVar), owned_file (default [] (MCPFiles c heap !! hostVar)) file_mode)) mcpHostVars) in
  let directory name mode := (name, {| ar_Mode := mode; ar_UID := runtimeUID; ar_GID := runtimeUID |}) in
  StageArchive lib_tar_Write lib_tar_Close
    [directory "run/aries" 448; directory "run/aries/hermes" 448; directory "run/aries/ssh" 448;
     directory "run/aries/workspace" 493]%string files.

(** [waitReady], with a bound on the number of probes ([None]: it is not over by then). *)
Variable deployment : HarnessDeployment W.
Fixpoint waitReady (fuel : nat) (ctx : Ctx) (g : nat) (id : string) : M W (option error) :=
  match fuel with
  | O => ret None
  | S fuel =>
      let* c := client_of g in
      let* e := client_Ready lib_NewRequest lib_json_Unmarshal c (WithTimeout ctx (5 * 10 ^ 9)) in
      match e with
      | None => ret (Some None)
      | Some _ =>
          let* (running, inspectErr) := hd_Running deployment ctx id in
          match inspectErr with
          | Some e => ret (Some (Some (EWrap "inspect Hermes readiness" e)))
          | None =>
              if negb running then ret (Some (Some (ENew "Hermes container exited before readiness")))
              else
                let* done := await_tick ctx in
                match done with
                | Some s => ret (Some (Some (EWrap "await Hermes readiness" (ESentinel s))))
                | None => waitReady fuel ctx g id
                end
          end
      end
  end.

(** The gateway's token, in a buffer that is zeroed once it is copied. *)
Definition set_gateway_key (encodedToken : bytes) (p : nat) (h : Harness HermesSession) : Harness HermesSession :=
  match occurrence_at p h with
  | None => h
  | Some o =>
      let (buffer, heap) := alloc encodedToken (hn_heap h) in
      let (c, heap) := credentials_Set "gateway" encodedToken (oc_Credentials o) heap in
      set_hn_heap (clear_buffer buffer heap)
        (update_occurrence p (fun o => set_oc_runtime (oc_ID o) (oc_DeploymentRequest o) c o) h)
  end.
Definition set_gateway (g : option nat) (p : nat) (h : Harness HermesSession) : Harness HermesSession :=
  set_hn_sessions (alter (fun s => set_ss_native
    {| he_gateway := g; he_configuration := he_configuration (ss_native s) |} s) p (hn_sessions h)) h.

(** [Start] from the gateway on, once the runtime runs. *)
Definition connect (ready_fuel : nat) (ctx : Ctx) (p : nat) (o : Occurrence) (h : Harness HermesSession) :
    M W (error * Harness HermesSession) :=
  let* (address, e) := hd_Address deployment ctx (oc_ID o) gatewayPort in
  match e with
  | Some e => ret (Some (EWrap "resolve Hermes Gateway" e), h)
  | None =>
      let* g := newGatewayExecution ("http://" +:+ address) (Get (oc_Credentials o) (hn_heap h) "gateway") in
      match g with
      | inr e => ret (Some e, h)
      | inl g =>
          let h := set_gateway (Some g) p h in
          let* e := waitReady ready_fuel (WithTimeout ctx (ro_StartTimeout (ho_Runtime options))) g (oc_ID o) in
          ret (default (Some (EWrap "await Hermes readiness" (ESentinel DeadlineExceeded))) e, h)
      end
  end.
(** The private copy of the configuration. *)
Definition retain_config (o : Occurrence) (heap : Heap) (configuration : bytes) : M W (error * Artifacts) :=
  let* e := EnsureDirectory (oc_ArtifactDir o) in
  match e with
  | Some e => ret (Some (EWrap "create Hermes artifact directory" e), oc_Artifacts o)
  | None =>
      let* (e, a) := artifacts_Write "config.yaml" (credentials_Redact (oc_Credentials o) heap configuration) (oc_Artifacts o) in
      ret (wrap "retain rendered Hermes config" e, a)
  end.
Definition hermes_bring_up (ready_fuel : nat) (ctx : Ctx) (p : nat) (h : Harness HermesSession) :
    M W (error * Harness HermesSession) :=
  let* token := RandomSecret 32 in
  match token with
  | inr e => ret (Some (EWrap "generate Hermes Gateway credential" e), h)
  | inl encodedToken =>
      let h := set_gateway_key encodedToken p h in
      match hn_sessions h !! p with
      | None => ret (None, h)
      | Some {| ss_occurrence := o; ss_native := {| he_configuration := configuration |} |} =>
          let* (e, a) := retain_config o (hn_heap h) configuration in
          let h := update_occurrence p (set_oc_Artifacts a) h in
          match e with
          | Some e => ret (Some e, h)
          | None =>
              match runtimeArchive o (hn_heap h) configuration, oc_DeploymentRequest o with
              | inr e, _ => ret (Some e, h)
              | inl _, None => ret (None, h)    (* not reached: [Start] has made the request *)
              | inl archive, Some request =>
                  let* (e, h) := runtime_Start deployment "Hermes" ctx p request archive
                                   (Secrets (oc_Credentials o) (hn_heap h)) h in
                  match e, occurrence_at p h with
                  | Some e, _ => ret (Some e, h)
                  | None, None => ret (None, h)
                  | None, Some o => connect ready_fuel ctx p o h
                  end
              end
          end
      end
  end.
End Start.

(** * The manager *)

(** The options, and the bounds on the two polling loops. *)
Record Hermes := { hs_options : HermesOptions; hs_ready_fuel : nat; hs_poll_fuel : nat }.
Definition on_gateway {W} (f : nat -> M W unit) (s : HermesSession) : M W HermesSession :=
  let* _ := match he_gateway s with Some g => f g | None => ret tt end in ret s.
#[export] Instance hermes_Native {W} (m : Hermes) `{Lib : Library} `{!Runtime W} `{!Transport W} `{!Files W}
    `{!HermesWorld W} `{!Ticker W} `{!Speech W} : Native W HermesSession := {|
  nt_label := "Hermes";
  nt_options := ho_Runtime (hs_options m);
  nt_RemoveAll := os_RemoveAll;
  nt_prepare := hermes_prepare (hs_options m);
  nt_bring_up deployment ctx _ p := hermes_bring_up (hs_options m) deployment (hs_ready_fuel m) ctx p;
  nt_give_up := on_gateway close_client;
  nt_run_body deployment := hermes_run (hs_options m) (hs_poll_fuel m) deployment;
  nt_let_go ctx := on_gateway (fun g => cancelRun g ctx);
  nt_hang_up := on_gateway close_client
|}.

(** [New]: the options in effect. *)
Section New.
Context {W : Type} `{Lib : Library} `{!Files W}.
Variable ParseNormalizedNamed : string -> Sandbox.Named + err.
Definition no_STT (v : VoiceSTTOptions) : bool :=
  String.eqb (vs_Provider v) "" && String.eqb (vs_Model v) "" && String.eqb (vs_Language v) "" && (vs_Timeout v =? 0).
Definition voice_defaults (t : TTSOptions) (v : VoiceSTTOptions) : checked (TTSOptions * VoiceSTTOptions) :=
  let tts := or_text (ts_Provider t) "openai" in
  let stt := or_text (vs_Provider v) "openai" in
  check_that
    ((refuse_if negb (String.eqb tts "openai") with "Hermes voice TTS provider must be openai") >>?
     (refuse_if negb (one_of stt ["openai"; "local"]%string) with "Hermes voice STT provider must be openai or local"))
    (inl ({| ts_Provider := tts; ts_BaseURL := ts_BaseURL t; ts_APIKeyEnv := or_text (ts_APIKeyEnv t) "OPENAI_API_KEY";
             ts_Model := ts_Model t; ts_Voice := ts_Voice t; ts_Instructions := ts_Instructions t; ts_Speed := ts_Speed t;
             ts_Timeout := ts_Timeout t |},
          {| vs_Provider := stt;
             vs_Model := or_text (vs_Model v) (if String.eqb stt "local" then "base" else "gpt-4o-mini-transcribe");
             vs_Language := vs_Language v; vs_Timeout := vs_Timeout v |})).
Definition hermes_modes (mode : string) (t : TTSOptions) (v : VoiceSTTOptions) : checked (TTSOptions * VoiceSTTOptions) :=
  if String.eqb mode ModeAgent
  then check_that (refuse_if negb (no_TTS t && no_STT v) with "Hermes voice options require voice-transcribe mode") (inl (t, v))
  else if String.eqb mode ModeVoiceTranscribe then voice_defaults t v
  else inr (ENew "Hermes mode must be agent or voice-transcribe").
Definition hermes_New (options : HermesOptions) (lookup : option KeyLookup) (environment : KeyLookup) (deployment : bool) :
    M W (HermesOptions + err) :=
  let* runtime := NewRuntime ParseNormalizedNamed "Hermes" (ho_Runtime options) lookup environment deployment in
  ret match runtime with
      | inr e => inr e
      | inl runtime =>
          let common := ho_Common options in
          let mode := or_text (on_Mode common) ModeAgent in
          check_bind (hermes_modes mode (ho_TTS options) (ho_STT options)) (fun '(tts, stt) =>
          check_that (wrap "Hermes MCP server" (first_error (ValidateMCPServer (core_URL lib_url_Parse)) (on_MCPServers common)))
          (inl {| ho_Runtime := runtime;
                  ho_Common := {| on_Mode := mode; on_WebSearchEnabled := on_WebSearchEnabled common;
                                  on_ExtractAPIKeyEnv := on_ExtractAPIKeyEnv common; on_SubagentsEnabled := on_SubagentsEnabled common;
                                  on_MaxConcurrentSubagents := on_MaxConcurrentSubagents common;
                                  on_MCPServers := on_MCPServers common; on_RedactEnv := on_RedactEnv common |};
                  ho_MaxTurns := positive_or (ho_MaxTurns options) 90;
                  ho_TerminalTimeout := positive_or (ho_TerminalTimeout options) 180;
                  ho_TTS := tts; ho_STT := stt; ho_Compaction := ho_Compaction options; ho_ExtraBody := ho_ExtraBody options |}))
      end.
End New.
