(* ===== verification/HermesLife.v ===== *)
(** The Hermes harness keeps to the interface of a native manager: of what its
    operations do, an observer of the deployment sees the creation of its one runtime. *)

From S2P Require Import Prelude Trace Core Paths Redaction Credentials Deployments HarnessRuntime HarnessManager HarnessLife.
From S2P Require Import HarnessFiles ConfigDeployment Config HarnessConfig HarnessWorld HarnessEvidence JsonFields HermesClient.
From S2P Require Import HermesConfig Voice Hermes.

(** * The world, traced *)

#[export] Instance quiet_transport {W} `{!Transport W} : Transport (W * list harness_event) := {|
  http_Do ctx r := silent (http_Do ctx r);
  http_ReadBody body limit := silent (http_ReadBody body limit);
  http_CloseBody body := silent (http_CloseBody body);
  http_CloseIdle := silent http_CloseIdle;
  await_timer ctx interval := silent (await_timer ctx interval)
|}.
#[export] Instance quiet_HermesWorld {W} `{!HermesWorld W} `{!Ticker W} : HermesWorld (W * list harness_event) := {|
  new_execution g := silent (new_execution g);
  get_execution p := silent (get_execution p);
  set_execution p g := silent (set_execution p g);
  cancel_context ctx := silent (cancel_context ctx)
|}.

(** * Quiet operations *)

Section Quiet.
Context {W : Type} `{Lib : Library} `{!Runtime W} `{!Transport W} `{!Files W} `{!HermesWorld W} `{!Ticker W} `{!Speech W}.
Abbreviation T := (W * list harness_event)%type.


(** The gateway. *)
Lemma quiet_request {A} valid un c ctx method path input want (output : list (field A)) zero :
  emits (request (W := T) valid un c ctx method path input want output zero) quiet.
Proof. unfold request, read_response. quiet_steps. Qed.
#[local] Hint Resolve @quiet_request : quiet.
Lemma quiet_poll valid un fuel get ctx id interval :
  emits get quiet -> emits (poll (W := T) valid un fuel get ctx id interval) quiet.
Proof. intros Hget. induction fuel as [|fuel IH]; cbn [poll]; [quiet_steps|]. unfold Status. quiet_steps. Qed.
Lemma quiet_modify g f : emits (modify_execution (W := T) g f) quiet.
Proof. unfold modify_execution. quiet_steps. Qed.
Lemma quiet_client_of g : emits (client_of (W := T) g) quiet.
Proof. unfold client_of. quiet_steps. Qed.
#[local] Hint Resolve quiet_modify quiet_client_of quiet_poll : quiet.
Lemma quiet_close_client g : emits (close_client (W := T) g) quiet.
Proof. unfold close_client, client_Close. quiet_steps. Qed.
Lemma quiet_newGatewayExecution address token : emits (newGatewayExecution (W := T) address token) quiet.
Proof. unfold newGatewayExecution. quiet_steps. Qed.
Lemma quiet_cancelRun g ctx : emits (cancelRun (W := T) g ctx) quiet.
Proof. unfold cancelRun, client_Stop. quiet_steps. Qed.
#[local] Hint Resolve quiet_close_client quiet_newGatewayExecution quiet_cancelRun : quiet.
Lemma quiet_attempt_run fuel g ctx instruction id o : emits (attempt_run (W := T) fuel g ctx instruction id o) quiet.
Proof. unfold attempt_run, Submit, Wait. quiet_steps. Qed.
#[local] Hint Resolve quiet_attempt_run : quiet.
Lemma quiet_runGateway fuel ctx g o instruction : emits (runGateway (W := T) fuel ctx g o instruction) quiet.
Proof. unfold runGateway. quiet_steps. Qed.
#[local] Hint Resolve quiet_runGateway : quiet.

(** The run. *)
Variable d : HarnessDeployment W.
Abbreviation dep := (traced_deployment d).
Lemma quiet_collectSessions o heap ctx : emits (collectSessions dep o heap ctx) quiet.
Proof. unfold collectSessions. quiet_steps. Qed.
Lemma quiet_collectSpans o heap ctx : emits (collectSpans dep o heap ctx) quiet.
Proof. unfold collectSpans. quiet_steps. Qed.
#[local] Hint Resolve quiet_collectSessions quiet_collectSpans : quiet.
Lemma quiet_collectArtifacts o heap ctx output outcome : emits (collectArtifacts dep o heap ctx output outcome) quiet.
Proof. unfold collectArtifacts, collect_logs. quiet_steps. Qed.
#[local] Hint Resolve quiet_collectArtifacts : quiet.
Lemma quiet_finish_run options ctx o heap started stdout outcome e :
  emits (finish_run options dep ctx o heap started stdout outcome e) quiet.
Proof. unfold finish_run, failed_redacted, failed_run, succeeded. quiet_steps. Qed.
#[local] Hint Resolve quiet_finish_run : quiet.
Lemma quiet_run_agent options fuel ctx g o heap instruction started :
  emits (run_agent options fuel dep ctx g o heap instruction started) quiet.
Proof. unfold run_agent. quiet_steps. Qed.
Lemma quiet_writeVoiceResult o heap prompt stt output a : emits (writeVoiceResult (W := T) o heap prompt stt output a) quiet.
Proof. unfold writeVoiceResult. quiet_steps. Qed.
#[local] Hint Resolve quiet_run_agent quiet_writeVoiceResult : quiet.
Lemma quiet_runVoice options fuel ctx g o heap instruction started :
  emits (runVoiceTranscribe options fuel dep ctx g o heap instruction started) quiet.
Proof.
  unfold runVoiceTranscribe, run_transcript, synthesizeVoiceInstruction, stageVoiceWAV, transcribeVoice,
    failed_redacted, failed_run, succeeded. quiet_steps.
Qed.
#[local] Hint Resolve quiet_runVoice : quiet.
End Quiet.
#[export] Hint Resolve @quiet_request quiet_modify quiet_client_of quiet_poll quiet_close_client quiet_newGatewayExecution quiet_cancelRun quiet_attempt_run quiet_runGateway quiet_collectSessions quiet_collectSpans quiet_collectArtifacts quiet_finish_run quiet_run_agent quiet_writeVoiceResult quiet_runVoice : quiet.

(** * The laws *)

Section Laws.
Context {W : Type} `{Lib : Library} `{!Runtime W} `{!Transport W} `{!Files W} `{!HermesWorld W} `{!Ticker W} `{!Speech W}.
Variable (m : Hermes) (d : HarnessDeployment W).
Abbreviation T := (W * list harness_event)%type.
Let options := hs_options m.

Lemma hermes_prepare_emits request heap :
  emits (hermes_prepare (W := T) options request heap) (fun r evs => evs = [] /\
    match r.1 with inl s => oc_ID (ss_occurrence s) = ""%string | inr _ => True end).
Proof.
  unfold hermes_prepare. destruct (_ >>? _); [by apply emits_ret|].
  destruct (render options request) as [[[configuration environment] servers]|e]; [|by apply emits_ret].
  destruct (load_all _ _ _ _ _) as [[[e|] c] heap']; [by apply emits_ret|].
  eapply quiet_then; [apply quiet_RandomID|]. intros [id|e]; by apply emits_ret.
Qed.
Lemma stays_gateway_key token p (h : Harness HermesSession) : stays p h (set_gateway_key token p h).
Proof.
  unfold set_gateway_key. destruct (occurrence_at p h) as [o|]; [|apply stays_refl].
  destruct (alloc _ _) as [buffer heap]. destruct (credentials_Set _ _ _ _) as [c heap'].
  eapply stays_trans; [|apply stays_heap]. by apply stays_update.
Qed.
Lemma quiet_waitReady fuel ctx g id : emits (waitReady (traced_deployment d) fuel ctx g id) quiet.
Proof. induction fuel as [|fuel IH]; cbn [waitReady]; [apply quiet_ret|]. unfold client_Ready. quiet_steps. Qed.
Lemma connect_emits fuel ctx p o h :
  emits (connect options (traced_deployment d) fuel ctx p o h) (fun r evs => evs = [] /\ stays p h r.2).
Proof.
  unfold connect. apply emits_read. intros [address [e|]]; [apply emits_ret; split; [done|apply stays_refl]|].
  eapply quiet_then; [apply quiet_newGatewayExecution|]. intros [g|e]; [|apply emits_ret; split; [done|apply stays_refl]].
  eapply quiet_then; [apply quiet_waitReady|]. intros r. apply emits_ret. split; [done|].
  apply (stays_native p (fun s => {| he_gateway := Some g; he_configuration := he_configuration (ss_native s) |})).
Qed.
Lemma retain_config_quiet o heap configuration : emits (retain_config (W := T) o heap configuration) quiet.
Proof. unfold retain_config. quiet_steps. Qed.
Lemma hermes_bring_up_emits fuel ctx p h :
  is_Some (hn_sessions h !! p) ->
  emits (hermes_bring_up options (traced_deployment d) fuel ctx p h) (fun r evs => brought_up p h r.1 r.2 evs).
Proof.
  intros Hp. unfold hermes_bring_up. eapply quiet_then; [apply quiet_RandomSecret|].
  intros [token|e]; [|apply emits_ret, brought_up_none, stays_refl].
  pose proof (stays_gateway_key token p h) as H1. set (h1 := set_gateway_key token p h) in *.
  pose proof (stays_known _ _ _ H1 Hp) as Hp1. destruct (hn_sessions h1 !! p) as [[o [g configuration]]|]; [|by destruct Hp1].
  eapply quiet_then; [apply retain_config_quiet|]. intros [e a].
  set (h2 := update_occurrence p (set_oc_Artifacts a) h1).
  assert (H2 : stays p h h2) by (eapply stays_trans; [exact H1|by apply stays_update]).
  destruct e as [e|]; [by apply emits_ret, brought_up_none|].
  destruct (runtimeArchive _ _ _) as [archive|e]; [|by apply emits_ret, brought_up_none].
  destruct (oc_DeploymentRequest o) as [request|]; [|by apply emits_ret, brought_up_none].
  eapply emits_bind; [apply runtime_Start_emits; by eapply stays_known|]. intros [e h3] evs Hb. cbn [snd] in Hb.
  assert (Hb' : brought_up p h e h3 evs) by by eapply brought_up_before.
  destruct e as [e|]; [apply emits_ret; by rewrite app_nil_r|].
  destruct (occurrence_at p h3) as [o3|]; [|apply emits_ret; by rewrite app_nil_r].
  eapply emits_mono; [apply connect_emits|]. intros r evs' [-> Hs]. rewrite app_nil_r. by eapply brought_up_after.
Qed.
Lemma on_gateway_quiet (f : nat -> M T unit) s : (forall g, emits (f g) quiet) -> emits (on_gateway f s) quiet.
Proof. intros Hf. unfold on_gateway. quiet_steps. Qed.
Lemma hermes_run_emits ctx instruction p h :
  emits (hermes_run options (hs_poll_fuel m) (traced_deployment d) ctx instruction p h) (fun r evs =>
    evs = [] /\ same_lease (fun q => q = p) h r.2).
Proof.
  unfold hermes_run. destruct (hn_sessions h !! p) as [[o [[g|] configuration]]|];
    [|apply emits_ret; split; [done|apply same_lease_refl]..].
  apply emits_read. intros started. eapply quiet_then.
  - destruct (String.eqb _ _); [apply quiet_runVoice|apply quiet_run_agent].
  - intros [[result e] a]. apply emits_ret. split; [done|apply same_lease_update].
Qed.
#[export] Instance hermes_laws : NativeLaws (hermes_Native m) d.
Proof.
  split; cbn [nt_RemoveAll nt_prepare nt_bring_up nt_give_up nt_let_go nt_hang_up nt_run_body hermes_Native]; intros.
  - apply quiet_silent.
  - apply hermes_prepare_emits.
  - by apply hermes_bring_up_emits.
  - apply on_gateway_quiet, quiet_close_client.
  - apply on_gateway_quiet. intros g. apply quiet_cancelRun.
  - apply on_gateway_quiet, quiet_close_client.
  - apply hermes_run_emits.
Qed.
End Laws.

(** The life of a Hermes manager under a list of calls, traced. *)
Definition hermes_life (m : Hermes) {W} `{Lib : Library} `{!Runtime W} `{!Transport W} `{!Files W}
    `{!HermesWorld W} `{!Ticker W} `{!Speech W} (d : HarnessDeployment W) (calls : list harness_call) (heap : Heap) :
    M (W * list harness_event) (Life HermesSession) :=
  harness_life (Native0 := hermes_Native m) (traced_deployment d) mark_event calls (new_Life heap).

(** The Hermes manager loses no runtime. Whatever the calls on it, in whatever order
    they take effect, runs and stops overlapping, and whatever the deployment, the
    gateway and the file system answer: a runtime is created, and a stop confirmed to
    its caller, only when no runtime is alive; an instruction is admitted at most once
    after a start and never once a stop has begun; and a runtime that is alive is the
    one the manager still owns, so that it refuses another start and its next stop goes
    after it. *)
Theorem hermes_life_accounts (m : Hermes) {W} `{Lib : Library} `{!Runtime W} `{!Transport W} `{!Files W}
    `{!HermesWorld W} `{!Ticker W} `{!Speech W} (d : HarnessDeployment W) (calls : list harness_call) (heap : Heap) :
  emits (hermes_life m d calls heap) (fun l evs =>
    ok_events [] evs /\ reported evs /\
    (forall id, id ∈ live evs -> id = owned_ID (lf_harness l)) /\
    (InUse (lf_harness l) = false -> live evs = ∅)).
Proof. apply (harness_life_accounts d (hermes_laws m d)). Qed.

(** * What a run tells *)


Lemma TrimRightNL_prefix s : exists rest, s = TrimRightNL s ++ rest.
Proof.
  unfold TrimRightNL. set (strip := fix strip (l : bytes) : bytes := _).
  assert (forall l, exists front, l = front ++ strip l) as H.
  { intros l. induction l as [|c l [front IH]]; [by exists []|]. cbn [strip]. destruct (Ascii.eqb c NL); [|by exists []].
    exists (c :: front). cbn [app]. f_equal. exact IH. }
  destruct (H (rev s)) as [front Hf]. exists (rev front). rewrite <- rev_app_distr, <- Hf. symmetry. apply rev_involutive.
Qed.

Section Telling.
Context {W : Type} `{Lib : Library} `{!Runtime W} `{!Transport W} `{!Files W} `{!HermesWorld W} `{!Ticker W} `{!Speech W}.
Lemma succeeded_tells o heap started output :
  gives (W := W) (succeeded o started (credentials_Redact (oc_Credentials o) heap output)) (fun r => tells_no_key o heap r.1 r.2).
Proof.
  unfold succeeded. apply gives_bind. intros now. apply gives_ret. split_and!; [|apply empty_shows_no_key|done].
  cbn [fst hr_FinalResponse]. rewrite to_of_bytes.
  destruct (TrimRightNL_prefix (credentials_Redact (oc_Credentials o) heap output)) as [rest Hr].
  apply (prefix_shows_no_key _ _ _ rest). rewrite <- Hr. apply redacted_shows_no_key.
Qed.
End Telling.

(** C24. A run gives no key away. In the agent mode, whatever the gateway answers and
    whatever fails on the way: neither the final response of a task run, nor the error
    text of its result, nor the error it returns holds a key of the session that the
    redaction can hide (one without brackets, and no part of the marker itself). *)
Theorem hermes_run_hides_keys {W} `{Lib : Library} `{!Runtime W} `{!Transport W} `{!Files W} `{!HermesWorld W} `{!Ticker W} `{!Speech W}
    (options : HermesOptions) (fuel : nat) (d : HarnessDeployment W) (ctx : Ctx) (instruction : string) (p : nat)
    (h : Harness HermesSession) (o : Occurrence) (w : W) :
  on_Mode (ho_Common options) <> ModeVoiceTranscribe -> occurrence_at p h = Some o ->
  match (hermes_run options fuel d ctx instruction p h w).1 with
  | (result, e, _) => tells_no_key o (hn_heap h) result e
  end.
Proof.
  intros Hmode Ho. revert w. change (gives (hermes_run options fuel d ctx instruction p h)
    (fun r => match r with (result, e, _) => tells_no_key o (hn_heap h) result e end)).
  unfold hermes_run. unfold occurrence_at in Ho. destruct (hn_sessions h !! p) as [[o' [[g|] configuration]]|]; simplify_eq/=.
  2: { apply gives_ret. split_and!; [apply empty_shows_no_key..|done]. }
  apply gives_bind. intros started. rewrite (proj2 (String.eqb_neq _ _) Hmode).
  eapply (gives_bind_such _ _ (fun r => tells_no_key o (hn_heap h) r.1.1 r.1.2)).
  - unfold run_agent, finish_run. apply gives_bind. intros [[output outcome] e]. apply gives_bind. intros [artifactErr a].
    eapply gives_bind_such; [|intros r Hr; apply gives_ret; exact Hr].
    destruct (errors_Join _) as [e'|]; [apply (failed_redacted_tells (set_oc_Artifacts a o))|apply (succeeded_tells (set_oc_Artifacts a o))].
  - intros [[result e] a] Hr. by apply gives_ret.
Qed.

(** A gateway that repeats the model's key. *)
Definition demo_library : Library := plain_library (fun _ => None) (fun text =>
  Some (JObject [("run_id", JString "r"); ("status", JString text); ("output", JString ("the key is sk-1" +:+ nl))])%string).
Definition demo_gateway : gatewayExecution :=
  {| ge_client := {| cl_closed := false; cl_base := "http://g"; cl_token := "t" |}; ge_runID := ""; ge_cancel := None; ge_stopped := false |}.
#[local] Existing Instances demo_Runtime demo_Ticker demo_Speech.
#[local] Instance demo_Transport : Transport Disk := {|
  http_Do _ r := ret (inl (if String.eqb (hp_Method r) "POST" then (202, 0%nat) else (200, 1%nat)));
  http_ReadBody body _ := ret (to_bytes (if bool_decide (body = 0%nat) then "started" else "completed"), None);
  http_CloseBody _ := ret tt;
  http_CloseIdle := ret tt;
  await_timer _ _ := ret None
|}.
#[local] Instance demo_World : HermesWorld Disk := {|
  new_execution _ := ret 0%nat;
  get_execution _ := ret demo_gateway;
  set_execution _ _ := ret tt;
  cancel_context _ := ret tt
|}.
Definition demo_harness : Harness HermesSession :=
  set_hn_sessions {[ 0%nat := {| ss_occurrence := demo_occurrence; ss_native := {| he_gateway := Some 0%nat; he_configuration := [] |} |} ]}
    (new_Harness {[ 0%nat := to_bytes "sk-1" ]}).
Definition demo_options : HermesOptions :=
  {| ho_Runtime := demo_RuntimeOptions;
     ho_Common := demo_Options;
     ho_MaxTurns := 1; ho_TerminalTimeout := 1;
     ho_TTS := demo_TTS;
     ho_STT := {| vs_Provider := ""; vs_Model := ""; vs_Language := ""; vs_Timeout := 0 |};
     ho_Compaction := None; ho_ExtraBody := [] |}.
Definition demo_run : HarnessResult * error * Harness HermesSession :=
  (hermes_run (Lib := demo_library) demo_options 3 demo_deployment Background "do it" 0 demo_harness empty_disk).1.
Lemma hermes_run_hides_keys_witness :
  match demo_run with
  | (result, e, h) => hr_FinalResponse result = "the key is [REDACTED]"%string /\ e = None /\
                      tells_no_key demo_occurrence (hn_heap demo_harness) result e
  end.
Proof.
  assert (match demo_run with (result, e, h) => hr_FinalResponse result = "the key is [REDACTED]"%string /\ e = None end) as Hr
    by (vm_compute; done).
  pose proof (hermes_run_hides_keys (Lib := demo_library) demo_options 3 demo_deployment Background "do it" 0 demo_harness
    demo_occurrence empty_disk ltac:(done) eq_refl) as H.
  fold demo_run in H. destruct demo_run as [[result e] h]. destruct Hr as [-> ->]. by split_and!.
Defined.
