(* ===== verification/OpenClawResult.v ===== *)
(** What an OpenClaw run keeps of its results ([pkg/harness/openclaw], harness.go): the JSON
    of a realtime result, and the hiding of the keys in results before they are written or
    returned. *)

From S2P Require Import Prelude Utf8 Trace Core Redaction Credentials HarnessRuntime HarnessFiles ConfigDeployment Config.
From S2P Require Import HarnessConfig HarnessWorld JsonFields GatewayFrame Realtime.

(** * The JSON of a result *)

Section Encoding.
Context `{Lib : Library}.
(** What [encoding/json] reads of a number and writes of it again, in a value of type [any]. *)
Definition number_text (text : string) : string := lib_json_FormatFloat (lib_json_ParseFloat text).
Fixpoint any_json (value : json) : json :=
  match value with
  | JNumber text => JNumber (number_text text)
  | JArray items => JArray (map any_json items)
  | JObject members => JObject (map (fun m => (m.1, any_json m.2)) members)
  | value => value
  end.
Definition text_list (l : list string) : json := JArray (map JString l).
Definition optional_text (value : option string) : json := match value with Some s => JString s | None => JNull end.
(** A [Result] by the tags of its fields. Its slices and maps are not nil, except in the
    result that stands for one that could not be hidden. *)
Definition result_json (r : Result) : json :=
  JObject ([("schema_version", JNumber (itoa (rr_SchemaVersion r))); ("transcript", JString (rr_Transcript r));
            ("output_text", JString (rr_OutputText r)); ("original_prompt", JString (rr_OriginalPrompt r));
            ("transcript_done", JString (rr_TranscriptDone r)); ("transcript_done_parts", text_list (rr_TranscriptDoneParts r));
            ("provider_tool_question", JString (rr_ProviderToolQuestion r)); ("agent_question_used", JString (rr_AgentQuestionUsed r));
            ("tool_calls", JNumber (itoa (rr_ToolCalls r))); ("tool_results", JNumber (itoa (rr_ToolResults r)));
            ("agent_consult_ok", JBool (rr_AgentConsultOK r)); ("output_audio_done", JBool (rr_OutputAudioDone r));
            ("session_id", optional_text (rr_SessionID r)); ("relay_session_id", optional_text (rr_RelaySessionID r));
            ("agent_run_ids", text_list (rr_AgentRunIDs r));
            ("event_counts", JObject (map (fun key => (key, JNumber (itoa (default 0 (rr_EventCounts r !! key))))) (sorted_keys (rr_EventCounts r))));
            ("connect_auth", any_json (JObject (rr_ConnectAuth r))); ("errors", text_list (rr_Errors r))]%string ++
           match rr_Events r with
           | Some ((_ :: _) as events) => [("events"%string, JArray (map (fun frame => any_json (JObject frame)) events))]
           | _ => []
           end).
End Encoding.

(** ** Decoding *)

Definition zero_result : Result :=
  {| rr_SchemaVersion := 0; rr_Transcript := ""; rr_OutputText := ""; rr_OriginalPrompt := ""; rr_TranscriptDone := "";
     rr_TranscriptDoneParts := []; rr_ProviderToolQuestion := ""; rr_AgentQuestionUsed := ""; rr_ToolCalls := 0;
     rr_ToolResults := 0; rr_AgentConsultOK := false; rr_OutputAudioDone := false; rr_SessionID := None;
     rr_RelaySessionID := None; rr_AgentRunIDs := []; rr_EventCounts := ∅; rr_ConnectAuth := []; rr_Errors := [];
     rr_Events := None |}.
Definition set_rr_header (version : Z) (prompt : string) (r : Result) : Result :=
  {| rr_SchemaVersion := version; rr_Transcript := rr_Transcript r; rr_OutputText := rr_OutputText r;
     rr_OriginalPrompt := prompt; rr_TranscriptDone := rr_TranscriptDone r;
     rr_TranscriptDoneParts := rr_TranscriptDoneParts r; rr_ProviderToolQuestion := rr_ProviderToolQuestion r;
     rr_AgentQuestionUsed := rr_AgentQuestionUsed r; rr_ToolCalls := rr_ToolCalls r; rr_ToolResults := rr_ToolResults r;
     rr_AgentConsultOK := rr_AgentConsultOK r; rr_OutputAudioDone := rr_OutputAudioDone r; rr_SessionID := rr_SessionID r;
     rr_RelaySessionID := rr_RelaySessionID r; rr_AgentRunIDs := rr_AgentRunIDs r; rr_EventCounts := rr_EventCounts r;
     rr_ConnectAuth := rr_ConnectAuth r; rr_Errors := rr_Errors r; rr_Events := rr_Events r |}.
Definition result_fields : list (field Result) :=
  [int_field "schema_version" (fun x r => set_rr_header x (rr_OriginalPrompt r) r);
   string_field "transcript" set_rr_Transcript; string_field "output_text" set_rr_OutputText;
   string_field "original_prompt" (fun x r => set_rr_header (rr_SchemaVersion r) x r);
   string_field "transcript_done" set_rr_TranscriptDone;
   strings_field "transcript_done_parts" set_rr_TranscriptDoneParts;
   string_field "provider_tool_question" (fun x r => set_rr_questions x (rr_AgentQuestionUsed r) r);
   string_field "agent_question_used" (fun x r => set_rr_questions (rr_ProviderToolQuestion r) x r);
   int_field "tool_calls" set_rr_ToolCalls; int_field "tool_results" set_rr_ToolResults;
   bool_field "agent_consult_ok" set_rr_AgentConsultOK; bool_field "output_audio_done" set_rr_OutputAudioDone;
   pointer_field "session_id" (fun x r => set_rr_session x (rr_RelaySessionID r) r);
   pointer_field "relay_session_id" (fun x r => set_rr_session (rr_SessionID r) x r);
   strings_field "agent_run_ids" set_rr_AgentRunIDs;
   ints_field "event_counts" (fun x r => set_rr_EventCounts (list_to_map (rev x) ∪ rr_EventCounts r) r);
   object_field "connect_auth" (fun x r => set_rr_ConnectAuth (rr_ConnectAuth r ++ x) r);
   strings_field "errors" set_rr_Errors;
   objects_field "events" (fun x r => set_rr_Events (Some x) r)].

(** * Hiding *)

Section Hiding.
Context `{Lib : Library}.
Variable occurrence : Occurrence.
Variable heap : Heap.
Definition redact_text (s : string) : string := of_bytes (credentials_Redact (oc_Credentials occurrence) heap (to_bytes s)).
Definition redactConnectSummary (summary : ConnectSummary) : ConnectSummary :=
  {| cs_Role := redact_text (cs_Role summary); cs_Scopes := map redact_text (cs_Scopes summary) |}.
Definition redactAgentResult (result : AgentResult) : AgentResult :=
  {| ar_RunID := redact_text (ar_RunID result); ar_Text := redact_text (ar_Text result) |}.
(** Which value is kept under two keys that are hidden alike is left open by the code; the
    decoding takes the last. *)
Fixpoint redactRealtimeJSON (value : json) : json :=
  match value with
  | JString s => JString (redact_text s)
  | JArray items => JArray (map redactRealtimeJSON items)
  | JObject members => JObject (map (fun m => (redact_text m.1, redactRealtimeJSON m.2)) members)
  | value => value
  end.
Definition unsafe_result (message : string) : Result :=
  set_rr_Errors [message] (set_rr_header ResultSchemaVersion "" zero_result).
Definition redactRealtimeResult (result : Result) : Result :=
  match lib_json_Marshal (result_json result) with
  | inr _ => unsafe_result "realtime result could not be safely encoded"
  | inl content =>
      match lib_json_Unmarshal (of_bytes content) with
      | None => unsafe_result "realtime result could not be safely decoded"
      | Some tree =>
          match lib_json_Marshal (any_json (redactRealtimeJSON tree)) with
          | inr _ => unsafe_result "redacted realtime result could not be safely encoded"
          | inl content =>
              default (unsafe_result "redacted realtime result could not be safely decoded")
                (lib_json_Unmarshal (of_bytes content) ≫= decode result_fields zero_result)
          end
      end
  end.
End Hiding.
