(* ===== verification/OpenClaw.v ===== *)
(** The OpenClaw harness ([pkg/harness/openclaw], harness.go and session_snapshot.go): how a
    session is prepared and brought up, and what a task run does in the agent mode and in
    the two voice modes. A gateway connection is a handle into the world; its client is
    modelled in Gateway and GatewayRun, the realtime session in Realtime. *)

From S2P Require Import Prelude Utf8 Trace Core Paths Redaction Credentials Deployments HarnessRuntime HarnessManager HarnessFiles.
From S2P Require Import ConfigDeployment Config HarnessConfig HarnessWorld OpenClawConfig Voice Audio Gateway GatewayFrame.
From S2P Require Import GatewaySocket GatewayRun Realtime OpenClawResult.

(** [RealtimeOptions] and [Options]. *)
Record RealtimeOptions := {
  rp_AgentQuestionTemplate : string;
  rp_TTS : TTSOptions;
  rp_ChunkDuration : Z;
  rp_ListenDuration : Z;
  rp_QuietDuration : Z;
  rp_AgentWaitDuration : Z;
  rp_ToolCallTimeout : Z;
  rp_TrailingSilenceMillis : Z;
  rp_Provider : string;
  rp_Model : string;
  rp_Voice : string;
  rp_ReasoningEffort : string;
  rp_IncludeEvents : bool
}.
Record OpenClawOptions := { op_Runtime : RuntimeOptions; op_Common : Options; op_Realtime : RealtimeOptions }.
Definition isRealtimeMode (mode : string) : bool := String.eqb mode ModeRealtime || String.eqb mode ModeVoiceTranscribe.

(** The native part of a session, and the configuration that [Start] has rendered. *)
Record OpenClawSession := {
  ox_gatewayURL : string;
  ox_safeTaskID : string;
  ox_agentIdempotency : string;
  ox_configuration : bytes
}.

(** The clients made by [gateway.New], by handle. *)
Class GatewayClients (W : Type) := { gw_New : string -> gatewayOptions -> M W nat }.

(** * Names *)

(** [safeTaskID]: one byte for each rune, up to 48. *)
Definition safe_rune (r : Z) : ascii :=
  if ((97 <=? r) && (r <=? 122)) || ((48 <=? r) && (r <=? 57)) || (r =? 45) || (r =? 95) || (r =? 46)
  then ascii_of_N (Z.to_N r) else "-"%char.
Fixpoint safe_runes (l : list Z) (output : bytes) : bytes :=
  match l with
  | [] => output
  | r :: l =>
      let output := output ++ [safe_rune r] in
      if 48 <=? Z.of_nat (length output) then output else safe_runes l output
  end.
Definition safeTaskID `{Library} (value : string) : string :=
  match Trim (safe_runes (runes (lib_ToLower value)) []) (to_bytes "-.") with
  | [] => "task"
  | result => of_bytes result
  end.

(** * Evidence *)

(** [extractTelemetry]: a name that is taken is numbered. *)
Fixpoint unique_name (fuel : nat) (used : gset string) (base : string) (index : Z) (name : string) : string :=
  if decide (name ∈ used) then
    match fuel with
    | O => name
    | S fuel => unique_name fuel used base (index + 1) (itoa index +:+ "-" +:+ base)
    end
  else name.
Section Evidence.
Context {W : Type} `{Lib : Library} `{!Files W}.
Variable deployment : HarnessDeployment W.
Variable occurrence : Occurrence.
Variable heap : Heap.
Let ArtifactDir : string := oc_ArtifactDir occurrence.
Let Secrets_ : list bytes := Secrets (oc_Credentials occurrence) heap.

Definition telemetry_base (header : tarHeader) : string := Base (Clean (th_Name header)).
Definition is_telemetry (header : tarHeader) : bool :=
  let base := telemetry_base header in
  th_regular header && negb (th_Size header <? 0) && negb (maxDockerOutput <? th_Size header) &&
  (String.eqb base "sessions.json" || HasSuffix base ".jsonl" ||
   Contains (to_bytes (lib_ToLower base)) (to_bytes "trajectory")).
Fixpoint extract_entries (entries : list (tarHeader * (bytes * error))) (ended : error) (used : gset string) (paths : list string) :
    M W (list string * error) :=
  match entries with
  | [] => ret (paths, ended)
  | (header, (content, e)) :: entries =>
      if negb (is_telemetry header) then extract_entries entries ended used paths
      else if is_some e || negb (size content =? th_Size header)
      then ret (paths, Some (ENew "OpenClaw telemetry archive is truncated"))
      else
        let base := telemetry_base header in
        let name := unique_name (set_size used) used base 1 base in
        let path := Join [ArtifactDir; "telemetry"; name]%string in
        let* e := WriteArtifact path (RedactSecrets content Secrets_) in
        match e with
        | Some e => ret (paths, Some e)
        | None => extract_entries entries ended ({[name]} ∪ used) (paths ++ [path])
        end
  end.
Definition extractTelemetry (archive : bytes) : M W (list string * error) :=
  let (entries, ended) := lib_tar_Read archive in extract_entries entries ended ∅ [].
Definition collectTelemetry (ctx : Ctx) : M W (list string * error) :=
  let* opened := hd_DownloadArchive deployment ctx (oc_ID occurrence) (stateContainerPath +:+ "/agents/main/sessions") (maxDockerOutput + 1) in
  match opened with
  | inr e => ret ([], if errors_Is e ErrNotFound then None else Some (EWrap "collect OpenClaw telemetry" e))
  | inl (archive, e) =>
      if is_some e || (maxDockerOutput <? size archive)
      then ret ([], Some (ENew "OpenClaw telemetry archive exceeded its bound"))
      else extractTelemetry archive
  end.

(** [collectArtifacts]. *)
Definition collect_gateway_log (ctx : Ctx) (acc : list error * Artifacts) : M W (list error * Artifacts) :=
  let* (logs, e) := hd_Logs deployment ctx (oc_ID occurrence) maxDockerOutput in
  match e with
  | Some e => ret (acc.1 ++ [Some (EWrap "collect OpenClaw gateway logs" e)], acc.2)
  | None => retain (Join [ArtifactDir; "gateway.log"]%string) (FilterLogs logs maxDockerOutput Secrets_) None acc
  end.
Definition collectArtifacts (ctx : Ctx) : M W (error * Artifacts) :=
  let* acc := collect_gateway_log ctx ([], oc_Artifacts occurrence) in
  let* acc := collected (collectTelemetry ctx) acc in
  let* acc := retain_json (Join [ArtifactDir; "telemetry.index.json"]%string) (telemetry_index acc.2)
                "write OpenClaw telemetry index" "write OpenClaw telemetry index" acc in
  ret (errors_Join acc.1, acc.2).

(** [writeAgentResult] and [writeRealtimeResult]: the path. *)
Definition agent_result_json (summary : ConnectSummary) (result : AgentResult) (errorText : string) : json :=
  JObject ([("role", JString (cs_Role summary));
            ("scopes", match cs_Scopes summary with [] => JNull | scopes => text_list scopes end);
            ("run_id", JString (ar_RunID result)); ("response", JString (ar_Text result))]%string ++
           (if String.eqb errorText "" then [] else [("error"%string, JString errorText)])).
Definition write_result (name : string) (value : json) (encode_text write_text : string) : M W (string + err) :=
  match lib_json_MarshalIndent value with
  | inr e => ret (inr (EWrap encode_text e))
  | inl content =>
      let path := Join [ArtifactDir; name] in
      let* e := WriteArtifact path (credentials_Redact (oc_Credentials occurrence) heap (content ++ [NL])) in
      ret match e with Some e => inr (EWrap write_text e) | None => inl path end
  end.
Definition writeAgentResult (summary : ConnectSummary) (result : AgentResult) (runErr : error) : M W (string + err) :=
  let runErr := RedactErr (oc_Credentials occurrence) heap runErr in
  write_result "agent-result.json"
    (agent_result_json (redactConnectSummary occurrence heap summary) (redactAgentResult occurrence heap result)
       (match runErr with Some e => Error e | None => "" end))
    "encode OpenClaw agent result" "write OpenClaw agent result".
Definition writeRealtimeResult (result : Result) : M W (string + err) :=
  write_result "realtime-result.json" (result_json (redactRealtimeResult occurrence heap result))
    "encode realtime result" "write realtime result".
End Evidence.

(** * Gateways *)

Definition gatewayEventDisposition (mode : string) : EventDisposition :=
  if String.eqb mode ModeAgent then EventDispositionResponseOnly else EventDispositionDelivery.
Definition gatewayScopes (mode : string) : list string :=
  if isRealtimeMode mode then ["operator.read"; "operator.write"]%string else ["operator.write"%string].
Definition no_summary : ConnectSummary := {| cs_Role := ""; cs_Scopes := [] |}.
(** The context of a voice transcription, five minutes. *)
Definition defaultVoiceSTTTimeout : Z := 5 * 60 * 10 ^ 9.

(** * Run *)

Section Run.
Context {W : Type} `{Lib : Library} `{!Runtime W} `{!Files W} `{!Ticker W} `{!Speech W} `{!AudioFiles W}.
Context `{!Gateways W} `{!GatewayClients W} `{!Timers W} `{!Goroutines W}.
Variable options : OpenClawOptions.
Variable events_fuel : nat.
Variable deployment : HarnessDeployment W.
Let mode : string := on_Mode (op_Common options).
Let realtime : RealtimeOptions := op_Realtime options.

(** [newGatewayClientWithDisposition], as [newGateway] and [newAgentGateway] call it. *)
Definition newGatewayClient (rawURL : string) (token : bytes) (scopes : list string) (disposition : EventDisposition) :
    M W (nat + err) :=
  match NewWebSocketDialer lib_url_Parse rawURL with
  | inr e => ret (inr e)
  | inl url => let* g := gw_New url (gateway_options "" scopes (of_bytes token) 0 0 disposition) in ret (inl g)
  end.
Definition newGateway (rawURL : string) (token : bytes) : M W (nat + err) :=
  newGatewayClient rawURL token (gatewayScopes mode) (gatewayEventDisposition mode).
Definition newAgentGateway (rawURL : string) (token : bytes) : M W (nat + err) :=
  newGatewayClient rawURL token (gatewayScopes ModeAgent) EventDispositionResponseOnly.

(** A message for the agent over a connection: the summary, the agent's result and the
    error. *)
Definition session_key (s : OpenClawSession) : string := "agent:main:aries-" +:+ ox_safeTaskID s.
Definition ask_agent (ctx : Ctx) (client : nat) (o : Occurrence) (s : OpenClawSession) (message : string) :
    M W (AgentResult * error) :=
  gw_Agent client ctx {| aq_Message := message; aq_SessionKey := session_key s; aq_IdempotencyKey := ox_agentIdempotency s;
                         aq_Thinking := requestedThinking (oc_Model o) |}.
Definition connect_agent (ctx : Ctx) (client : nat) : M W (ConnectSummary * error) :=
  let* summary := gw_Connect client ctx in
  ret match summary with
      | inr e => (no_summary, Some e)
      | inl summary => (summary, refuse_if negb (HasScope summary "operator.write")
                                   with "OpenClaw agent gateway requires operator.write scope")
      end.

(** The end of [Run] and [runRealtime]: the evidence, and the result. *)
Definition finish_run (ctx : Ctx) (o : Occurrence) (heap : Heap) (started : Z) (response : string) (e : error) :
    M W (HarnessResult * error * Artifacts) :=
  let* (artifactErr, a) := collectArtifacts deployment o heap
    (WithTimeout (WithoutCancel ctx) (ro_CleanupTimeout (op_Runtime options))) in
  let o := set_oc_Artifacts a o in
  let* r := match errors_Join [e; artifactErr] with
            | Some e => failed_run o heap started e
            | None =>
                let* now := time_Now in
                ret ({| hr_Status := StatusSucceeded; hr_FinalResponse := response; hr_Duration := now - started;
                        hr_LogPaths := at_paths (oc_Artifacts o); hr_Error := "" |}, None)
            end in
  ret (r, a).
Definition record_result (written : string + err) (e : error) (a : Artifacts) : error * Artifacts :=
  match written with
  | inl path => (errors_Join [e; None], Add [path] a)
  | inr writeErr => (errors_Join [e; Some writeErr], a)
  end.

(** [Run] in the agent mode. *)
Definition run_agent (ctx : Ctx) (o : Occurrence) (s : OpenClawSession) (heap : Heap) (instruction : string) (started : Z) :
    M W (HarnessResult * error * Artifacts) :=
  let runCtx := WithTimeout ctx (oc_AgentTimeout o) in
  let* client := newGateway (ox_gatewayURL s) (Get (oc_Credentials o) heap "gateway") in
  match client with
  | inr e => let* r := failed_redacted o heap started e in ret (r, oc_Artifacts o)
  | inl client =>
      let* (summary, e) := connect_agent runCtx client in
      let* (result, e) := match e with
                          | Some e => ret (no_result, Some e)
                          | None => ask_agent runCtx client o s instruction
                          end in
      let summary := redactConnectSummary o heap summary in
      let result := redactAgentResult o heap result in
      let e := RedactErr (oc_Credentials o) heap e in
      let* written := writeAgentResult o heap summary result e in
      let (e, a) := record_result written e (oc_Artifacts o) in
      let* r := finish_run ctx (set_oc_Artifacts a o) heap started (ar_Text result) e in
      let* _ := gw_Close client in
      ret r
  end.

(** ** The voice modes *)

(** [synthesizeVoiceInstruction], with a copy of the key that is cleared once the speech
    client has it. *)
Definition synthesizeVoiceInstruction (ctx : Ctx) (o : Occurrence) (heap : Heap) (instruction : string) :
    M W (string * list string * error * Heap) :=
  let t := rp_TTS realtime in
  let instructionPath := Join [oc_ArtifactDir o; "voice-instruction.txt"]%string in
  let* e := WriteArtifact instructionPath (to_bytes instruction) in
  match e with
  | Some e => ret (""%string, [], Some (EWrap "write realtime voice instruction" e), heap)
  | None =>
      match Load (ro_APIKeyLookup (op_Runtime options)) "voice" (ts_APIKeyEnv t) (NewCredentials "OpenClaw") heap with
      | (_, Some e, c, heap) =>
          ret (""%string, [instructionPath], Some (EWrap "OpenClaw realtime TTS API key" e), (Clear c heap).2)
      | (false, None, c, heap) =>
          ret (""%string, [instructionPath],
               Some (ENew ("OpenClaw realtime TTS API-key environment " +:+ quote (ts_APIKeyEnv t) +:+ " is not set")), (Clear c heap).2)
      | (true, None, c, heap) =>
          let* r := SynthesizeVoiceInstruction lib_json_MarshalIndent ctx instruction
            {| vi_ArtifactDir := oc_ArtifactDir o; vi_InstructionPath := instructionPath; vi_ErrorLabel := "realtime";
               vi_TTSErrorLabel := "realtime"; vi_Provider := ts_Provider t; vi_BaseURL := ts_BaseURL t;
               vi_APIKey := Get c heap "voice"; vi_Model := ts_Model t; vi_Voice := ts_Voice t;
               vi_Instructions := ts_Instructions t; vi_Speed := ts_Speed t; vi_Timeout := ts_Timeout t |} in
          ret (r, (Clear c heap).2)
      end
  end.

(** [realtimeAudioProvider]. *)
Definition DefaultInputEncoding : string := "pcm16".
Definition DefaultInputSampleRate : Z := 24000.
Definition with_silence (pcm : bytes) (sourceRate : Z) : bytes + err :=
  if rp_TrailingSilenceMillis realtime <=? 0 then inl pcm
  else match SilencePCM16 sourceRate (rp_TrailingSilenceMillis realtime) with
       | inr e => inr e
       | inl silence =>
           if MaxPCM16Bytes - size pcm <? size silence then inr (ENew "realtime audio with trailing silence exceeds size bound")
           else inl (pcm ++ silence)
       end.
Definition provided_audio (session : SessionInfo) (pcm : bytes) (sourceRate : Z) : Realtime.Audio + err :=
  match with_silence pcm sourceRate with
  | inr e => inr e
  | inl pcm =>
      let encoding := or_text (si_InputEncoding session) DefaultInputEncoding in
      let rate := positive_or (si_InputSampleRateHz session) DefaultInputSampleRate in
      match PrepareAudio lib_ToLower pcm sourceRate encoding rate with
      | inr e => inr e
      | inl prepared => inl {| au_Data := pa_Data prepared; au_Rate := pa_Rate prepared;
                               au_BytesPerSample := pa_BytesPerSample prepared; au_Encoding := pa_Encoding prepared |}
      end
  end.
Definition realtimeAudioProvider (audioPath : string) (session : SessionInfo) : M W (Realtime.Audio + err) :=
  let* audio := ReadWAVFilePCM16Mono audioPath in
  ret match audio with
      | inr e => inr (EWrap "read realtime audio" e)
      | inl (pcm, sourceRate) => provided_audio session pcm sourceRate
      end.
Definition runner_options (o : Occurrence) (s : OpenClawSession) (instruction audioPath : string) : RunnerOptions W :=
  {| rl_OriginalPrompt := instruction; rl_SessionMode := mode; rl_SessionKey := session_key s;
     rl_Provider := rp_Provider realtime; rl_Model := rp_Model realtime; rl_Voice := rp_Voice realtime;
     rl_ReasoningEffort := rp_ReasoningEffort realtime;
     rl_Audio := {| au_Data := []; au_Rate := 0; au_BytesPerSample := 0; au_Encoding := "" |};
     rl_AudioProvider := Some (realtimeAudioProvider audioPath); rl_ChunkDuration := rp_ChunkDuration realtime;
     rl_ListenDuration := positive_or (rp_ListenDuration realtime) (oc_AgentTimeout o);
     rl_QuietDuration := rp_QuietDuration realtime;
     rl_AgentWaitDuration := positive_or (rp_AgentWaitDuration realtime) (oc_AgentTimeout o);
     rl_AgentWaitFallbackDuration := 0; rl_ToolCallTimeout := rp_ToolCallTimeout realtime; rl_SubmitToolResultTimeout := 0;
     rl_AppendAudioTimeout := 0; rl_VADThreshold := None; rl_SilenceDurationMillis := None; rl_PrefixPaddingMillis := None;
     rl_AgentQuestionTemplate := rp_AgentQuestionTemplate realtime; rl_IncludeEvents := rp_IncludeEvents realtime;
     rl_CloseGateway := String.eqb mode ModeRealtime |}.
Definition run_session_events (gateway : nat) (ropts : RunnerOptions W) (ctx : Ctx) : M W (Result * error) :=
  runner_Run lib_ToLower lib_json_FormatFloat lib_json_ParseFloat gateway ropts events_fuel ctx.

(** [runAgentWithTranscript]. *)
Definition transcript_of (r : Result) : string :=
  let parts := List.filter (fun text => negb (String.eqb text "")) (map TrimSpace (rr_TranscriptDoneParts r)) in
  match parts with [] => TrimSpace (rr_Transcript r) | parts => String.concat nl parts end.
Definition fails (e : err) (r : Result) : Result * error := (AppendError (Error e) r, Some e).
Definition runAgentWithTranscript (ctx : Ctx) (o : Occurrence) (s : OpenClawSession) (client : nat) (r : Result) :
    M W (Result * error) :=
  let transcript := transcript_of r in
  if String.eqb transcript "" then
    ret (fails (ENew "missing_transcript: OpenClaw voice-transcribe mode returned no text") r)
  else
    let* (_, e) := connect_agent ctx client in
    match e with
    | Some e => ret (fails e r)
    | None =>
        let* (result, e) := ask_agent ctx client o s transcript in
        let r := if String.eqb (ar_RunID result) "" then r else set_rr_AgentRunIDs (rr_AgentRunIDs r ++ [ar_RunID result]) r in
        let r := set_rr_OutputText (ar_Text result) (set_rr_questions (rr_ProviderToolQuestion r) transcript r) in
        ret match e with Some e => fails e r | None => (set_rr_AgentConsultOK true r, None) end
    end.

(** [runRealtime]: the session and, of a transcription, the agent's run on it. *)
Definition joined_errors (r : Result) : error :=
  match rr_Errors r with [] => None | errs => Some (ENew (String.concat "; " errs)) end.
Definition run_transcribed (ctx : Ctx) (o : Occurrence) (s : OpenClawSession) (heap : Heap) (r : Result) : M W (Result * error) :=
  let* client := newAgentGateway (ox_gatewayURL s) (Get (oc_Credentials o) heap "gateway") in
  match client with
  | inr e => ret (r, Some e)
  | inl client =>
      let* (r, e) := runAgentWithTranscript (WithTimeout ctx (oc_AgentTimeout o)) o s client r in
      let* closeErr := gw_Close client in
      ret (r, errors_Join [e; closeErr])
  end.
Definition run_voice_session (ctx : Ctx) (o : Occurrence) (s : OpenClawSession) (heap : Heap) (client : nat)
    (ropts : RunnerOptions W) : M W (Result * error) :=
  if String.eqb mode ModeVoiceTranscribe then
    let* (r, e) := run_session_events client ropts (WithTimeout ctx defaultVoiceSTTTimeout) in
    let* closeErr := gw_Close client in
    let e := match e with Some e => Some e | None => joined_errors r end in
    let* (r, e) := match e with
                   | Some e => ret (r, Some e)
                   | None => run_transcribed ctx o s heap r
                   end in
    ret (r, errors_Join [e; closeErr])
  else run_session_events client ropts (WithTimeout ctx (oc_AgentTimeout o)).
Definition run_on_gateway (ctx : Ctx) (o : Occurrence) (s : OpenClawSession) (heap : Heap) (instruction audioPath : string)
    (started : Z) : M W (HarnessResult * error * Artifacts) :=
  let fail e := let* r := failed_redacted o heap started e in ret (r, oc_Artifacts o) in
  let* client := newGateway (ox_gatewayURL s) (Get (oc_Credentials o) heap "gateway") in
  match client with
  | inr e => fail e
  | inl client =>
      let ropts := runner_options o s instruction audioPath in
      match runner_New ropts with
      | inr e => let* _ := gw_Close client in fail e
      | inl _ =>
          let* (r, e) := run_voice_session ctx o s heap client ropts in
          let r := redactRealtimeResult o heap r in
          let e := RedactErr (oc_Credentials o) heap e in
          let* written := writeRealtimeResult o heap r in
          let (e, a) := record_result written e (oc_Artifacts o) in
          let e := if String.eqb mode ModeVoiceTranscribe then e
                   else match joined_errors r with Some errs => errors_Join [e; Some errs] | None => e end in
          finish_run ctx (set_oc_Artifacts a o) heap started (FinalText r) e
      end
  end.
Definition runRealtime (ctx : Ctx) (o : Occurrence) (s : OpenClawSession) (heap : Heap) (instruction : string) (started : Z) :
    M W (HarnessResult * error * Artifacts * Heap) :=
  let* (audioPath, speechPaths, e, heap) := synthesizeVoiceInstruction ctx o heap instruction in
  let a := Add speechPaths (oc_Artifacts o) in
  let o := set_oc_Artifacts a o in
  match e with
  | Some e => let* r := failed_redacted o heap started e in ret (r, a, heap)
  | None => let* r := run_on_gateway ctx o s heap instruction audioPath started in ret (r, heap)
  end.

(** [Run] on the snapshot [p] of the session. *)
Definition openclaw_run (ctx : Ctx) (instruction : string) (p : nat) (h : Harness OpenClawSession) :
    M W (HarnessResult * error * Harness OpenClawSession) :=
  match hn_sessions h !! p with
  | None =>
      ret ({| hr_Status := StatusFailed; hr_FinalResponse := ""; hr_Duration := 0; hr_LogPaths := []; hr_Error := "" |}, None, h)
  | Some {| ss_occurrence := o; ss_native := s |} =>
      let* started := time_Now in
      if isRealtimeMode mode then
        let* (result, e, a, heap) := runRealtime ctx o s (hn_heap h) instruction started in
        ret (result, e, update_occurrence p (set_oc_Artifacts a) (set_hn_heap heap h))
      else
        let* (result, e, a) := run_agent ctx o s (hn_heap h) instruction started in
        ret (result, e, update_occurrence p (set_oc_Artifacts a) h)
  end.
End Run.

(** * Start *)

Section Start.
Context {W : Type} `{Lib : Library} `{!Runtime W} `{!Files W} `{!Ticker W}.
Variable options : OpenClawOptions.
Let lookup : KeyLookup := ro_APIKeyLookup (op_Runtime options).
Let common : Options := op_Common options.
Let voice_mode : bool := isRealtimeMode (on_Mode common).
Definition extractRequested : bool := on_WebSearchEnabled common && negb (String.eqb (on_ExtractAPIKeyEnv common) "").

(** A key that has to be set; the last text of an error is [unset]. *)
Definition load_set (name sourceEnv : string) (prefix : option string) (unset : string) (c : Credentials) (heap : Heap) :
    error * Credentials * Heap :=
  match Load lookup name sourceEnv c heap with
  | (_, Some e, c, heap) => (Some match prefix with Some text => EWrap text e | None => e end, c, heap)
  | (false, None, c, heap) => (Some (ENew (unset +:+ " " +:+ quote sourceEnv +:+ " is not set")), c, heap)
  | (true, None, c, heap) => (None, c, heap)
  end.
(** The extract key may be missing: then there is no extraction. *)
Definition load_extract (c : Credentials) (heap : Heap) : bool * error * Credentials * Heap :=
  if extractRequested then
    match Load lookup "extract" (on_ExtractAPIKeyEnv common) c heap with
    | (_, Some e, c, heap) => (false, Some (EWrap "OpenClaw extract API key" e), c, heap)
    | (found, None, c, heap) => (found, None, c, heap)
    end
  else (false, None, c, heap).
Definition holds_key (configuration : bytes) (c : Credentials) (heap : Heap) (name message : string) : error :=
  refuse_if negb (bool_decide (Get c heap name = [])) && Contains configuration (Get c heap name) with message.
Definition render (request : HarnessRequest) (mcpServers : list MCPServerConfig) (extractEnabled : bool) : checked bytes :=
  renderConfig lib_url_Parse lib_url_String lib_ParseIP lib_json_Encode (hq_Model request) (hq_Endpoint request)
    {| rs_mode := on_Mode common; rs_searchURL := hc_SearchURL (hq_Connectivity request);
       rs_webSearchEnabled := on_WebSearchEnabled common; rs_extractEnabled := extractEnabled;
       rs_subagentsEnabled := on_SubagentsEnabled common; rs_maxConcurrentSubagents := on_MaxConcurrentSubagents common;
       rs_mcp := {| mo_Servers := mcpServers; mo_NoSandboxTools := hq_NoSandboxTools request |} |}.
(** The configuration, when every key is loaded and none is in it. *)
Definition load_keys (request : HarnessRequest) (configuration : bytes) (mcpServers : list MCPServerConfig) (c : Credentials)
    (heap : Heap) : error * Credentials * Heap :=
  match load_set "model" (mc_APIKeyEnv (hq_Model request)) None "OpenClaw API-key environment" c heap with
  | (Some e, c, heap) => (Some e, c, heap)
  | (None, c, heap) =>
      let '(e, c, heap) :=
        if voice_mode
        then load_set "voice" (ts_APIKeyEnv (rp_TTS (op_Realtime options))) (Some "OpenClaw realtime API key"%string)
               "OpenClaw realtime API-key environment" c heap
        else (None, c, heap) in
      match e >>?
            holds_key configuration c heap "model" "rendered OpenClaw config contains the API-key value" >>?
            holds_key configuration c heap "voice" "rendered OpenClaw config contains the realtime API-key value" >>?
            holds_key configuration c heap "extract" "rendered OpenClaw config contains the extract API-key value" with
      | Some e => (Some e, c, heap)
      | None => LoadMCP lookup mcpServers configuration c heap
      end
  end.
Definition load_all (request : HarnessRequest) (mcpServers : list MCPServerConfig) (heap : Heap) :
    (bytes + err) * Credentials * Heap :=
  let (c, heap) := AddRedactions lib_json_Unmarshal lookup (on_RedactEnv common) (NewCredentials "OpenClaw") heap in
  match load_extract c heap with
  | (_, Some e, c, heap) => (inr e, c, heap)
  | (extractEnabled, None, c, heap) =>
      match render request mcpServers extractEnabled with
      | inr e => (inr e, c, heap)
      | inl configuration =>
          match load_keys request configuration mcpServers c heap with
          | (Some e, c, heap) => (inr e, c, heap)
          | (None, c, heap) => (inl configuration, c, heap)
          end
      end
  end.

Definition gatewayPort : Z := 18789.
Definition deployment_request (request : HarnessRequest) (id : string) : Request :=
  {| rt_InternalPort := 0; rt_Mounts := []; rt_Workdir := ""; rt_StorageMB := 0; rt_GPUs := 0; rt_Init := false;
     rt_NoNewPrivileges := false; rt_NetworkAliases := []; rt_AllowImageVolumes := false;
     rt_Name := RuntimeName "openclaw" (hq_TaskID request) id; rt_Image := ro_Image (op_Runtime options);
     rt_Env := ["OPENCLAW_CONFIG_PATH=" +:+ configContainerPath]; rt_Entrypoint := None;
     rt_Args := [launcherPath; gatewayLauncherPath];
     rt_Labels := list_to_map [("aries.managed", "true"); ("aries.kind", "openclaw-harness"); ("aries.component", "harness");
                               ("aries.run", hq_RunID request); ("aries.task", hq_TaskID request); ("aries.attempt", id)]%string;
     rt_Placement := hc_Placement (hq_Connectivity request); rt_CPU := hq_CPU request; rt_MemoryMB := hq_MemoryMB request;
     rt_ImageVolumes := []; rt_ServicePort := gatewayPort |}.
Definition new_session (request : HarnessRequest) (configuration : bytes) (id idempotency : string) (c : Credentials) :
    Session OpenClawSession :=
  let directory := Join [ro_OutputDir (op_Runtime options); hq_TaskID request; "harness"%string] in
  {| ss_occurrence :=
       {| oc_RunID := hq_RunID request; oc_TaskID := hq_TaskID request; oc_AttemptID := id;
          oc_Name := RuntimeName "openclaw" (hq_TaskID request) id; oc_ID := "";
          oc_DeploymentRequest := Some (deployment_request request id); oc_ArtifactDir := directory;
          oc_Endpoint := hq_Endpoint request; oc_Model := hq_Model request;
          oc_AgentTimeout := if hq_Timeout request =? 0 then ro_AgentTimeout (op_Runtime options) else hq_Timeout request;
          oc_Credentials := c; oc_Artifacts := {| at_Directory := directory; at_paths := [] |} |};
     ss_native := {| ox_gatewayURL := ""; ox_safeTaskID := safeTaskID (hq_TaskID request);
                     ox_agentIdempotency := idempotency; ox_configuration := configuration |} |}.

(** [Start] up to [Own]: an error clears the credentials. The gateway's token is copied from
    a buffer that is zeroed. *)
Definition checked_servers (request : HarnessRequest) : checked (list MCPServerConfig) :=
  check_that (ValidateRunID "OpenClaw" (hq_RunID request) >>? ValidateTaskID "OpenClaw" (hq_TaskID request) >>?
              ValidateSearch lib_url_Parse (hc_SearchURL (hq_Connectivity request)) (on_WebSearchEnabled common))
  (match MCPServers lib_url_Parse (hc_MCPServers (hq_Connectivity request)) (on_MCPServers common) with
   | inr e => inr (labelled "OpenClaw" e)
   | inl servers => check_that (refuse_if hq_Timeout request <? 0 with "OpenClaw task timeout must not be negative") (inl servers)
   end).
Definition identify (request : HarnessRequest) (configuration : bytes) (c : Credentials) (heap : Heap) :
    M W ((Session OpenClawSession + err) * Heap) :=
  let cleared e c heap := ret (inr e, (Clear c heap).2) in
  let* id := RandomID in
  match id with inr e => cleared (EWrap "generate OpenClaw harness ID" e) c heap | inl id =>
  let* token := RandomSecret 32 in
  match token with inr e => cleared (EWrap "generate OpenClaw gateway token" e) c heap | inl gatewayToken =>
  let (buffer, heap) := alloc gatewayToken heap in
  let (c, heap) := credentials_Set "gateway" gatewayToken c heap in
  let heap := clear_buffer buffer heap in
  let* idempotency := RandomID in
  match idempotency with inr e => cleared (EWrap "generate OpenClaw agent idempotency key" e) c heap | inl idempotency =>
  ret (inl (new_session request configuration id idempotency c), heap)
  end end end.
Definition openclaw_prepare (request : HarnessRequest) (heap : Heap) : M W ((Session OpenClawSession + err) * Heap) :=
  match checked_servers request with
  | inr e => ret (inr e, heap)
  | inl mcpServers =>
      match load_all request mcpServers heap with
      | (inr e, c, heap) => ret (inr e, (Clear c heap).2)
      | (inl configuration, c, heap) => identify request configuration c heap
      end
  end.

(** [runtimeArchive], from the SSH client that is staged. *)
Definition realtimeAPIKeyEnv (o : Occurrence) (heap : Heap) : string :=
  if negb voice_mode || bool_decide (Get (oc_Credentials o) heap "voice" = []) then "" else ts_APIKeyEnv (rp_TTS (op_Realtime options)).
Definition node_owner (mode : Z) : Attributes := {| ar_Mode := mode; ar_UID := 1000; ar_GID := 1000 |}.
Definition node_file (content : bytes) (mode : Z) : ArchiveFile := {| af_Content := content; af_Attributes := node_owner mode |}.
Definition executable : Z := 365.    (* 0o555 *)
Definition archive_files (o : Occurrence) (heap : Heap) (configuration client : bytes) : gmap string ArchiveFile :=
  let c := oc_Credentials o in
  let held name := negb (bool_decide (Get c heap name = [])) in
  let mcpHostVars := sorted_keys (MCPFiles c heap) in
  list_to_map
    ([("run/aries/openclaw.json", node_file configuration file_mode);
      ("run/aries/model.key", node_file (Get c heap "model") file_mode);
      ("run/aries/gateway.key", node_file (Get c heap "gateway") file_mode);
      ("run/aries/launch", node_file (to_bytes (launcherScript (mc_APIKeyEnv (oc_Model o)) (realtimeAPIKeyEnv o heap) (held "extract"%string) mcpHostVars)) executable);
      ("run/aries/gateway-proxy.js", node_file (to_bytes gatewayProxyScript) executable);
      ("run/aries/gateway-launcher", node_file (to_bytes gatewayLauncherScript) executable);
      ("opt/aries/bin/aries-ssh-client", node_file client executable)]%string ++
     (if held "voice"%string then [("run/aries/realtime.key"%string, node_file (Get c heap "voice") file_mode)] else []) ++
     (if held "extract"%string then [("run/aries/tavily.key"%string, node_file (Get c heap "extract") file_mode)] else []) ++
     map (fun hostVar => ("run/aries/mcp_" +:+ hostVar +:+ ".key", node_file (default [] (MCPFiles c heap !! hostVar)) file_mode)) mcpHostVars).
Definition runtimeArchive (o : Occurrence) (heap : Heap) (configuration : bytes) : M W (bytes + err) :=
  let* client := Read (te_ClientSourceFile (oc_Endpoint o)) executable in
  ret match client with
      | inr e => inr (EWrap "read OpenClaw SSH client" e)
      | inl client =>
          StageArchive lib_tar_Write lib_tar_Close
            [("run/aries", node_owner 448); ("run/aries/ssh", node_owner 448); ("opt/aries", node_owner 493);
             ("opt/aries/bin", node_owner 493); ("home/node/.openclaw", node_owner 448);
             ("home/node/.openclaw/.aries", node_owner 448)]%string (archive_files o heap configuration client)
      end.

(** [waitReady], with a bound on the number of probes ([None]: it is not over by then); the
    text of the probe is a JavaScript program. *)
Variable deployment : HarnessDeployment W.
Definition readiness_probe : string :=
  "const http=require(" +:+ quoted_text "http" +:+ ");const port=Number(process.argv[1]);const r=http.get({host:" +:+
  quoted_text "127.0.0.1" +:+ ",port,path:" +:+ quoted_text "/readyz" +:+ ",timeout:1000},s=>{let b=" +:+ quoted_text "" +:+
  ";s.on(" +:+ quoted_text "data" +:+ ",c=>b+=c);s.on(" +:+ quoted_text "end" +:+
  ",()=>{try{const j=JSON.parse(b);process.exit(s.statusCode===200&&j.ready===true&&process.getuid()===1000?0:1)}catch{process.exit(1)}})});r.on(" +:+
  quoted_text "timeout" +:+ ",()=>r.destroy());r.on(" +:+ quoted_text "error" +:+ ",()=>process.exit(1));".
Definition probe_command : Command :=
  {| cm_Path := "node"; cm_Args := ["-e"%string; readiness_probe; upstreamGatewayPort]; cm_Dir := "/app"; cm_Env := ∅; cm_Stdin := [];
     cm_Timeout := 0; cm_User := ""; cm_OutputLimitBytes := 0 |}.
Fixpoint waitReady (fuel : nat) (ctx : Ctx) (id : string) : M W (option error) :=
  match fuel with
  | O => ret None
  | S fuel =>
      let* (result, e) := hd_Exec deployment (WithTimeout ctx (2 * 10 ^ 9)) id probe_command in
      if negb (is_some e) && (cr_ExitCode result =? 0) then ret (Some None)
      else
        let* (running, inspectErr) := hd_Running deployment ctx id in
        match inspectErr with
        | Some e => ret (Some (Some (EWrap "inspect OpenClaw readiness" e)))
        | None =>
            if negb running then ret (Some (Some (ENew "OpenClaw gateway exited before readiness")))
            else
              let* done := await_tick ctx in
              match done with
              | Some s => ret (Some (Some (EWrap "await OpenClaw readiness" (ESentinel s))))
              | None => waitReady fuel ctx id
              end
        end
  end.
Definition gatewayURL (ctx : Ctx) (o : Occurrence) : M W (string + err) :=
  let* (address, e) := hd_Address deployment ctx (oc_ID o) gatewayPort in
  ret match e with Some e => inr (EWrap "resolve OpenClaw gateway" e) | None => inl ("ws://" +:+ address) end.

Definition set_gatewayURL (url : string) (p : nat) (h : Harness OpenClawSession) : Harness OpenClawSession :=
  set_hn_sessions (alter (fun s => set_ss_native
    {| ox_gatewayURL := url; ox_safeTaskID := ox_safeTaskID (ss_native s); ox_agentIdempotency := ox_agentIdempotency (ss_native s);
       ox_configuration := ox_configuration (ss_native s) |} s) p (hn_sessions h)) h.
(** [Start] once the runtime runs, and before. *)
Definition connect (ready_fuel : nat) (ctx : Ctx) (p : nat) (o : Occurrence) (h : Harness OpenClawSession) :
    M W (error * Harness OpenClawSession) :=
  let* e := waitReady ready_fuel (WithTimeout ctx (ro_StartTimeout (op_Runtime options))) (oc_ID o) in
  match default (Some (EWrap "await OpenClaw readiness" (ESentinel DeadlineExceeded))) e with
  | Some e => ret (Some e, h)
  | None =>
      let* url := gatewayURL ctx o in
      ret match url with inr e => (Some e, h) | inl url => (None, set_gatewayURL url p h) end
  end.
Definition retain_config (o : Occurrence) (configuration : bytes) : M W (error * Artifacts) :=
  let* e := EnsureDirectory (oc_ArtifactDir o) in
  match e with
  | Some e => ret (Some (EWrap "create OpenClaw artifact directory" e), oc_Artifacts o)
  | None =>
      let* (e, a) := artifacts_Write "openclaw.json" configuration (oc_Artifacts o) in
      ret (wrap "retain rendered OpenClaw config" e, a)
  end.
Definition openclaw_bring_up (ready_fuel : nat) (ctx : Ctx) (p : nat) (h : Harness OpenClawSession) :
    M W (error * Harness OpenClawSession) :=
  match hn_sessions h !! p with
  | None => ret (None, h)
  | Some {| ss_occurrence := o; ss_native := s |} =>
      let* (e, a) := retain_config o (ox_configuration s) in
      let h := update_occurrence p (set_oc_Artifacts a) h in
      match e with
      | Some e => ret (Some e, h)
      | None =>
          let* archive := runtimeArchive o (hn_heap h) (ox_configuration s) in
          match archive, oc_DeploymentRequest o with
          | inr e, _ => ret (Some e, h)
          | inl _, None => ret (None, h)    (* not reached: [Start] has made the request *)
          | inl archive, Some request =>
              let* (e, h) := runtime_Start deployment "OpenClaw" ctx p request archive
                               (Secrets (oc_Credentials o) (hn_heap h)) h in
              match e, occurrence_at p h with
              | Some e, _ => ret (Some e, h)
              | None, None => ret (None, h)
              | None, Some o => connect ready_fuel ctx p o h
              end
          end
      end
  end.
End Start.

(** * The manager *)

(** The options, and the bounds on the readiness probes and on a session's events. *)
Record OpenClaw := { oz_options : OpenClawOptions; oz_ready_fuel : nat; oz_events_fuel : nat }.
#[export] Instance openclaw_Native {W} (m : OpenClaw) `{Lib : Library} `{!Runtime W} `{!Files W} `{!Ticker W} `{!Speech W}
    `{!AudioFiles W} `{!Gateways W} `{!GatewayClients W} `{!Timers W} `{!Goroutines W} : Native W OpenClawSession := {|
  nt_label := "OpenClaw";
  nt_options := op_Runtime (oz_options m);
  nt_RemoveAll := os_RemoveAll;
  nt_prepare := openclaw_prepare (oz_options m);
  nt_bring_up deployment ctx _ p := openclaw_bring_up (oz_options m) deployment (oz_ready_fuel m) ctx p;
  nt_give_up := ret;
  nt_run_body deployment := openclaw_run (oz_options m) (oz_events_fuel m) deployment;
  nt_let_go _ := ret;
  nt_hang_up := ret
|}.

(** [New]: the options in effect. *)
Section New.
Context {W : Type} `{Lib : Library} `{!Files W}.
Variable ParseNormalizedNamed : string -> Sandbox.Named + err.
Definition no_Realtime (r : RealtimeOptions) : bool :=
  String.eqb (rp_AgentQuestionTemplate r) "" && no_TTS (rp_TTS r) && (rp_ChunkDuration r =? 0) && (rp_ListenDuration r =? 0) &&
  (rp_QuietDuration r =? 0) && (rp_AgentWaitDuration r =? 0) && (rp_ToolCallTimeout r =? 0) &&
  (rp_TrailingSilenceMillis r =? 0) && String.eqb (rp_Provider r) "" && String.eqb (rp_Model r) "" &&
  String.eqb (rp_Voice r) "" && String.eqb (rp_ReasoningEffort r) "" && negb (rp_IncludeEvents r).
Definition set_rp_TTS (t : TTSOptions) (r : RealtimeOptions) : RealtimeOptions :=
  {| rp_AgentQuestionTemplate := rp_AgentQuestionTemplate r; rp_TTS := t; rp_ChunkDuration := rp_ChunkDuration r;
     rp_ListenDuration := rp_ListenDuration r; rp_QuietDuration := rp_QuietDuration r;
     rp_AgentWaitDuration := rp_AgentWaitDuration r; rp_ToolCallTimeout := rp_ToolCallTimeout r;
     rp_TrailingSilenceMillis := rp_TrailingSilenceMillis r; rp_Provider := rp_Provider r; rp_Model := rp_Model r;
     rp_Voice := rp_Voice r; rp_ReasoningEffort := rp_ReasoningEffort r; rp_IncludeEvents := rp_IncludeEvents r |}.
Definition voice_defaults (t : TTSOptions) : TTSOptions :=
  {| ts_Provider := or_text (ts_Provider t) "openai"; ts_BaseURL := ts_BaseURL t;
     ts_APIKeyEnv := or_text (ts_APIKeyEnv t) "OPENAI_API_KEY"; ts_Model := ts_Model t; ts_Voice := ts_Voice t;
     ts_Instructions := ts_Instructions t; ts_Speed := ts_Speed t; ts_Timeout := ts_Timeout t |}.
Definition openclaw_modes (mode : string) (r : RealtimeOptions) : checked RealtimeOptions :=
  if String.eqb mode ModeAgent
  then check_that (refuse_if negb (no_Realtime r) with "OpenClaw realtime options require realtime mode") (inl r)
  else if isRealtimeMode mode then
    check_that ((refuse_if rp_TrailingSilenceMillis r <? 0 with "OpenClaw realtime options are invalid") >>?
                (refuse_if negb (String.eqb (or_text (ts_Provider (rp_TTS r)) "openai") "openai")
                   with "OpenClaw realtime TTS provider must be openai"))
      (inl (set_rp_TTS (voice_defaults (rp_TTS r)) r))
  else inr (ENew "OpenClaw mode must be agent, realtime, or voice-transcribe").
Definition openclaw_New (options : OpenClawOptions) (lookup : option KeyLookup) (environment : KeyLookup) (deployment : bool) :
    M W (OpenClawOptions + err) :=
  let* runtime := NewRuntime ParseNormalizedNamed "OpenClaw" (op_Runtime options) lookup environment deployment in
  ret match runtime with
      | inr e => inr e
      | inl runtime =>
          let common := op_Common options in
          let mode := or_text (on_Mode common) ModeAgent in
          check_bind (openclaw_modes mode (op_Realtime options)) (fun realtime =>
          check_that (first_error (ValidateMCPServer (core_URL lib_url_Parse)) (on_MCPServers common))
          (inl {| op_Runtime := runtime;
                  op_Common := {| on_Mode := mode; on_WebSearchEnabled := on_WebSearchEnabled common;
                                  on_ExtractAPIKeyEnv := on_ExtractAPIKeyEnv common; on_SubagentsEnabled := on_SubagentsEnabled common;
                                  on_MaxConcurrentSubagents := on_MaxConcurrentSubagents common;
                                  on_MCPServers := on_MCPServers common; on_RedactEnv := on_RedactEnv common |};
                  op_Realtime := realtime |}))
      end.
End New.
