(* ===== verification/OpenClawTheorems.v ===== *)
(** The OpenClaw harness keeps to the interface of a native manager: of what its operations
    do, an observer of the deployment sees the creation of its one runtime.

    What an OpenClaw run in the agent mode tells and keeps: no key in its result and its
    files, and telemetry under names of its own inside its directory.

    What holds of the OpenClaw harness: no runtime is lost, no key is told, the telemetry is
    kept apart, and the audio it prepares is accepted. *)

From S2P Require Import Prelude Trace Core Paths Redaction Credentials Deployments HarnessRuntime HarnessManager HarnessLife.
From S2P Require Import HarnessFiles ConfigDeployment Config HarnessConfig HarnessWorld HarnessEvidence OpenClawConfig Voice Audio.
From S2P Require Import Gateway GatewayFrame GatewaySocket GatewayRun Realtime OpenClawResult OpenClaw Utf8.

(** * The world, traced *)

#[export] Instance quiet_Gateways {W E} `{!Gateways W} : Gateways (W * list E) := {|
  gw_Connect g ctx := silent (gw_Connect g ctx);
  gw_Call g ctx method params := silent (gw_Call g ctx method params);
  gw_RecvEvent g ctx := silent (gw_RecvEvent g ctx);
  gw_FatalError g := silent (gw_FatalError g);
  gw_Agent g ctx request := silent (gw_Agent g ctx request);
  gw_Close g := silent (gw_Close g)
|}.
#[export] Instance quiet_GatewayClients {W E} `{!GatewayClients W} : GatewayClients (W * list E) := {|
  gw_New url options := silent (gw_New url options)
|}.
#[export] Instance quiet_Timers {W E} `{!Timers W} : Timers (W * list E) := {|
  new_channel := silent new_channel;
  close_channel n := silent (close_channel n);
  channel_closed n := silent (channel_closed n);
  cancel_of ctx := silent (cancel_of ctx);
  sleep ctx d := silent (sleep ctx d)
|}.
#[export] Instance quiet_AudioFiles {W E} `{!AudioFiles W} : AudioFiles (W * list E) := {|
  open_audio path := silent (open_audio path);
  read_audio file limit := silent (read_audio file limit);
  close_audio file := silent (close_audio file)
|}.
(** Two goroutines that leave no trace leave none together. *)
Class QuietGoroutines {W} (G : Goroutines (W * list harness_event)) : Prop :=
  both_quiet : forall {A B} (m : M (W * list harness_event) A) (n : M (W * list harness_event) B),
    emits m quiet -> emits n quiet -> emits (both m n) quiet.
#[export] Hint Resolve both_quiet : quiet.

(** * Quiet operations *)

Ltac quiet_body := cbv beta zeta; repeat (quiet_step; cbv beta zeta).

Section Quiet.
Context {W : Type} `{Lib : Library} `{!Runtime W} `{!Files W} `{!Ticker W} `{!Speech W} `{!AudioFiles W}.
Context `{!Gateways W} `{!GatewayClients W} `{!Timers W} {G : Goroutines (W * list harness_event)} `{!QuietGoroutines G}.
Abbreviation T := (W * list harness_event)%type.

(** The realtime session. *)
Section Session.
Variables (gateway : nat) (options : RunnerOptions T).
Hypothesis provider_quiet : forall provider session, rl_AudioProvider options = Some provider -> emits (provider session) quiet.
Abbreviation lower := lib_ToLower.
Abbreviation num := lib_json_FormatFloat.
Abbreviation float := lib_json_ParseFloat.
Lemma quiet_load session : emits (loadAudioForSession options session) quiet.
Proof.
  unfold loadAudioForSession. destruct (rl_AudioProvider options) as [provider|] eqn:E; [|apply quiet_ret].
  apply quiet_bind; [by eapply provider_quiet|]. intros r. apply quiet_ret.
Qed.
#[local] Hint Resolve quiet_load : quiet.
Lemma quiet_append_from fuel ctx session audio cs cd offset :
  emits (append_from gateway options fuel ctx session audio cs cd offset) quiet.
Proof. revert offset. induction fuel as [|fuel IH]; intros offset; cbn [append_from]; quiet_body. Qed.
#[local] Hint Resolve quiet_append_from : quiet.
Lemma quiet_createSession ctx : emits (createSession num float gateway options ctx) quiet.
Proof. unfold createSession. quiet_body. Qed.
Lemma quiet_closeSession ctx session : emits (closeSession gateway ctx session : M T error) quiet.
Proof. unfold closeSession. quiet_body. Qed.
Lemma quiet_processChatEvent event r s : emits (processChatEvent options event r s) quiet.
Proof. unfold processChatEvent, chat_delta, extend, touchQuiet. quiet_body. Qed.
Lemma quiet_submitToolResult ctx call result : emits (submitToolResult gateway options ctx call result) quiet.
Proof. unfold submitToolResult. quiet_body. Qed.
#[local] Hint Resolve quiet_createSession quiet_closeSession quiet_processChatEvent quiet_submitToolResult : quiet.
Lemma quiet_handleAgentControl ctx call r s : emits (handleAgentControl lower gateway options ctx call r s) quiet.
Proof. unfold handleAgentControl. quiet_body. Qed.
Lemma quiet_handleToolCall ctx call r : emits (handleToolCall gateway options ctx call r) quiet.
Proof. unfold handleToolCall, consultAgent. quiet_body. Qed.
#[local] Hint Resolve quiet_handleAgentControl quiet_handleToolCall : quiet.
Lemma quiet_processToolCall ctx talk r s : emits (processToolCall lower gateway options ctx talk r s) quiet.
Proof. unfold processToolCall, extend, touchQuiet. quiet_body. Qed.
#[local] Hint Resolve quiet_processToolCall : quiet.
Lemma quiet_processFrame ctx frame r s : emits (processFrame lower gateway options ctx frame r s) quiet.
Proof. unfold processFrame, processTalkEvent, extend, touchQuiet. quiet_body. Qed.
Lemma quiet_finishActiveAgentRuns ctx runs r : emits (finishActiveAgentRuns gateway options ctx runs r) quiet.
Proof. revert r. induction runs as [|run runs IH]; intros r; cbn [finishActiveAgentRuns]; quiet_body. Qed.
Lemma quiet_listen n listening s : emits (listen options n listening s) quiet.
Proof. unfold listen. quiet_body. Qed.
#[local] Hint Resolve quiet_processFrame quiet_finishActiveAgentRuns quiet_listen : quiet.
Lemma quiet_event_loop fuel ctx n listening r s : emits (event_loop lower gateway options fuel ctx n listening r s) quiet.
Proof. revert listening r s. induction fuel as [|fuel IH]; intros listening r s; cbn [event_loop]; quiet_body. Qed.
#[local] Hint Resolve quiet_event_loop : quiet.
Lemma quiet_processEvents fuel ctx n r : emits (processEvents lower gateway options fuel ctx n r) quiet.
Proof. unfold processEvents. quiet_body. Qed.
Lemma quiet_send_audio ctx eventCtx session audio n : emits (send_audio gateway options ctx eventCtx session audio n) quiet.
Proof. unfold send_audio, appendAudio. quiet_body. Qed.
#[local] Hint Resolve quiet_processEvents quiet_send_audio : quiet.
Lemma quiet_run_session fuel ctx session r : emits (run_session lower gateway options fuel ctx session r) quiet.
Proof. unfold run_session. quiet_body. Qed.
#[local] Hint Resolve quiet_run_session : quiet.
Lemma quiet_runner_Run fuel ctx : emits (runner_Run lower num float gateway options fuel ctx) quiet.
Proof. unfold runner_Run, run_connected. quiet_body. Qed.
End Session.
#[local] Hint Resolve quiet_runner_Run : quiet.

(** The evidence. *)
Variable d : HarnessDeployment W.
Abbreviation dep := (traced_deployment d).
Lemma quiet_extract_entries o heap entries ended used paths : emits (extract_entries (W := T) o heap entries ended used paths) quiet.
Proof.
  revert used paths. induction entries as [|[header [content e]] entries IH]; intros used paths; cbn [extract_entries]; quiet_body.
Qed.
#[local] Hint Resolve quiet_extract_entries : quiet.
Lemma quiet_collectTelemetry o heap ctx : emits (collectTelemetry dep o heap ctx) quiet.
Proof. unfold collectTelemetry, extractTelemetry. quiet_body. Qed.
#[local] Hint Resolve quiet_collectTelemetry : quiet.
Lemma openclaw_quiet_collectArtifacts o heap ctx : emits (collectArtifacts dep o heap ctx) quiet.
Proof. unfold collectArtifacts, collect_gateway_log. quiet_body. Qed.
#[local] Hint Resolve openclaw_quiet_collectArtifacts : quiet.
Lemma quiet_write_result o heap name value e w : emits (write_result (W := T) o heap name value e w) quiet.
Proof. unfold write_result. quiet_body. Qed.
#[local] Hint Resolve quiet_write_result : quiet.

(** The run. *)
Variable options : OpenClawOptions.
Lemma quiet_newGatewayClient url token scopes disposition : emits (newGatewayClient (W := T) url token scopes disposition) quiet.
Proof. unfold newGatewayClient. quiet_body. Qed.
Lemma quiet_failed_redacted o heap started e : emits (failed_redacted (W := T) o heap started e) quiet.
Proof. unfold failed_redacted, failed_run. quiet_body. Qed.
Lemma quiet_connect_agent ctx client : emits (connect_agent (W := T) ctx client) quiet.
Proof. unfold connect_agent. quiet_body. Qed.
Lemma openclaw_quiet_finish_run ctx o heap started response e : emits (finish_run options dep ctx o heap started response e) quiet.
Proof. unfold finish_run, failed_run. quiet_body. Qed.
#[local] Hint Resolve quiet_newGatewayClient quiet_failed_redacted quiet_connect_agent openclaw_quiet_finish_run : quiet.
Lemma openclaw_quiet_run_agent ctx o s heap instruction started : emits (run_agent options dep ctx o s heap instruction started) quiet.
Proof. unfold run_agent, newGateway, ask_agent, writeAgentResult. quiet_body. Qed.
Lemma quiet_synthesizeVoice ctx o heap instruction : emits (synthesizeVoiceInstruction (W := T) options ctx o heap instruction) quiet.
Proof. unfold synthesizeVoiceInstruction. quiet_body. Qed.
Lemma quiet_provider path session : emits (realtimeAudioProvider (W := T) options path session) quiet.
Proof. unfold realtimeAudioProvider, ReadWAVFilePCM16Mono. quiet_body. Qed.
Lemma quiet_session_events fuel gateway o s instruction path ctx :
  emits (run_session_events fuel gateway (runner_options options o s instruction path) ctx) quiet.
Proof. apply quiet_runner_Run. intros provider session [= <-]. apply quiet_provider. Qed.
Lemma quiet_runAgentWithTranscript ctx o s client r : emits (runAgentWithTranscript (W := T) ctx o s client r) quiet.
Proof. unfold runAgentWithTranscript, ask_agent. quiet_body. Qed.
#[local] Hint Resolve openclaw_quiet_run_agent quiet_synthesizeVoice quiet_session_events quiet_runAgentWithTranscript : quiet.
Lemma quiet_run_on_gateway fuel ctx o s heap instruction path started :
  emits (run_on_gateway options fuel dep ctx o s heap instruction path started) quiet.
Proof.
  unfold run_on_gateway, newGateway, run_voice_session, run_transcribed, newAgentGateway, writeRealtimeResult. quiet_body.
Qed.
#[local] Hint Resolve quiet_run_on_gateway : quiet.
Lemma quiet_runRealtime fuel ctx o s heap instruction started :
  emits (runRealtime options fuel dep ctx o s heap instruction started) quiet.
Proof. unfold runRealtime. quiet_body. Qed.

(** [Start]. *)
Lemma quiet_runtimeArchive o heap configuration : emits (runtimeArchive (W := T) options o heap configuration) quiet.
Proof. unfold runtimeArchive, Read. quiet_body. Qed.
Lemma openclaw_quiet_waitReady fuel ctx id : emits (waitReady dep fuel ctx id) quiet.
Proof. induction fuel as [|fuel IH]; cbn [waitReady]; quiet_body. Qed.
Lemma quiet_retain_config o configuration : emits (retain_config (W := T) o configuration) quiet.
Proof. unfold retain_config. quiet_body. Qed.
End Quiet.

(** * The laws *)

Section Laws.
Context {W : Type} `{Lib : Library} `{!Runtime W} `{!Files W} `{!Ticker W} `{!Speech W} `{!AudioFiles W}.
Context `{!Gateways W} `{!GatewayClients W} `{!Timers W} {G : Goroutines (W * list harness_event)} `{!QuietGoroutines G}.
Variable (m : OpenClaw) (d : HarnessDeployment W).
Abbreviation T := (W * list harness_event)%type.
Let options := oz_options m.

Lemma identify_emits request configuration c heap :
  emits (identify (W := T) options request configuration c heap) (fun r evs => evs = [] /\
    match r.1 with inl s => oc_ID (ss_occurrence s) = ""%string | inr _ => True end).
Proof.
  unfold identify. eapply quiet_then; [apply quiet_RandomID|]. intros [id|e]; [|by apply emits_ret].
  eapply quiet_then; [apply quiet_RandomSecret|]. intros [token|e]; [|by apply emits_ret].
  destruct (alloc _ _) as [buffer heap']. destruct (credentials_Set _ _ _ _) as [c' heap''].
  eapply quiet_then; [apply quiet_RandomID|]. intros [idempotency|e]; by apply emits_ret.
Qed.
Lemma openclaw_prepare_emits request heap :
  emits (openclaw_prepare (W := T) options request heap) (fun r evs => evs = [] /\
    match r.1 with inl s => oc_ID (ss_occurrence s) = ""%string | inr _ => True end).
Proof.
  unfold openclaw_prepare. destruct (checked_servers options request) as [servers|e]; [|by apply emits_ret].
  destruct (load_all options request servers heap) as [[[configuration|e] c] heap']; [apply identify_emits|by apply emits_ret].
Qed.
Lemma openclaw_connect_emits fuel ctx p o h :
  emits (connect options (traced_deployment d) fuel ctx p o h) (fun r evs => evs = [] /\ stays p h r.2).
Proof.
  unfold connect. eapply quiet_then; [apply openclaw_quiet_waitReady|]. intros e.
  destruct (default _ e) as [e'|]; [apply emits_ret; split; [done|apply stays_refl]|].
  unfold gatewayURL. eapply quiet_then; [quiet_body|]. intros [url|e']; apply emits_ret; (split; [done|]); [|apply stays_refl].
  apply (stays_native p (fun s => {| ox_gatewayURL := url; ox_safeTaskID := ox_safeTaskID (ss_native s);
    ox_agentIdempotency := ox_agentIdempotency (ss_native s); ox_configuration := ox_configuration (ss_native s) |})).
Qed.
Lemma openclaw_bring_up_emits fuel ctx p h :
  is_Some (hn_sessions h !! p) ->
  emits (openclaw_bring_up options (traced_deployment d) fuel ctx p h) (fun r evs => brought_up p h r.1 r.2 evs).
Proof.
  intros Hp. unfold openclaw_bring_up. destruct (hn_sessions h !! p) as [[o s]|] eqn:Hs; [|by destruct Hp].
  eapply quiet_then; [apply quiet_retain_config|]. intros [e a].
  set (h1 := update_occurrence p (set_oc_Artifacts a) h).
  assert (H1 : stays p h h1) by by apply stays_update.
  assert (Hp1 : is_Some (hn_sessions h1 !! p)) by (eapply stays_known; [exact H1|by rewrite Hs]).
  destruct e as [e|]; [by apply emits_ret, brought_up_none|].
  eapply quiet_then; [apply quiet_runtimeArchive|]. intros archive.
  destruct archive as [archive|e]; [|by apply emits_ret, brought_up_none].
  destruct (oc_DeploymentRequest o) as [request|]; [|by apply emits_ret, brought_up_none].
  eapply emits_bind; [by apply runtime_Start_emits|]. intros [e h3] evs Hb. cbn [snd] in Hb.
  assert (Hb' : brought_up p h e h3 evs) by by eapply brought_up_before.
  destruct e as [e|]; [apply emits_ret; by rewrite app_nil_r|].
  destruct (occurrence_at p h3) as [o3|]; [|apply emits_ret; by rewrite app_nil_r].
  eapply emits_mono; [apply openclaw_connect_emits|]. intros r evs' [-> Hst]. rewrite app_nil_r. by eapply brought_up_after.
Qed.
Lemma openclaw_run_emits ctx instruction p h :
  emits (openclaw_run options (oz_events_fuel m) (traced_deployment d) ctx instruction p h) (fun r evs =>
    evs = [] /\ same_lease (fun q => q = p) h r.2).
Proof.
  unfold openclaw_run. destruct (hn_sessions h !! p) as [[o s]|]; [|apply emits_ret; split; [done|apply same_lease_refl]].
  apply emits_read. intros started. destruct (isRealtimeMode _).
  - eapply quiet_then; [apply quiet_runRealtime|]. intros [[[result e] a] heap]. apply emits_ret. split; [done|].
    eapply same_lease_trans; [apply same_lease_heap|apply same_lease_update].
  - eapply quiet_then; [apply openclaw_quiet_run_agent|]. intros [[result e] a]. apply emits_ret. split; [done|apply same_lease_update].
Qed.
#[export] Instance openclaw_laws : NativeLaws (openclaw_Native m) d.
Proof.
  split; cbn [nt_RemoveAll nt_prepare nt_bring_up nt_give_up nt_let_go nt_hang_up nt_run_body openclaw_Native]; intros.
  - apply quiet_silent.
  - apply openclaw_prepare_emits.
  - by apply openclaw_bring_up_emits.
  - apply quiet_ret.
  - apply quiet_ret.
  - apply quiet_ret.
  - apply openclaw_run_emits.
Qed.
End Laws.

(** The life of an OpenClaw manager under a list of calls, traced. *)
Definition openclaw_life (m : OpenClaw) {W} `{Lib : Library} `{!Runtime W} `{!Files W} `{!Ticker W} `{!Speech W} `{!AudioFiles W}
    `{!Gateways W} `{!GatewayClients W} `{!Timers W} (G : Goroutines (W * list harness_event)) (d : HarnessDeployment W)
    (calls : list harness_call) (heap : Heap) : M (W * list harness_event) (Life OpenClawSession) :=
  harness_life (Native0 := openclaw_Native m) (traced_deployment d) mark_event calls (new_Life heap).

(** * Keys *)

Lemma emits_gives {W E A} (m : M (W * list E) A) (P : A -> Prop) Q :
  gives m P -> emits m Q -> emits m (fun a evs => P a /\ Q a evs).
Proof. intros Hg Hm w t. destruct (Hm w t) as (evs & He & HQ). exists evs. split; [done|]. split; [apply Hg|done]. Qed.
Lemma redact_text_shows o heap s : shows_no_key o heap (to_bytes (redact_text o heap s)).
Proof. unfold redact_text. rewrite to_of_bytes. apply redacted_shows_no_key. Qed.

#[export] Hint Resolve redacted_evidence RedactSecrets_evidence FilterLogs_evidence WriteArtifact_writes retain_writes collected_writes : evidence.
Section Writes.
Context {W : Type} `{Lib : Library} `{!Runtime W} `{!Files W}.
Abbreviation T := (W * list bytes)%type.
Variables (d : HarnessDeployment W) (o : Occurrence) (heap : Heap).
Abbreviation dep := (silent_deployment d : HarnessDeployment T).
Abbreviation kept := (all_events (evidence o heap)).
Lemma extract_entries_writes entries ended used paths : emits (extract_entries (W := T) o heap entries ended used paths) kept.
Proof.
  revert used paths. induction entries as [|[header [content e]] entries IH]; intros used paths; cbn [extract_entries]; evidence_steps.
Qed.
#[local] Hint Resolve extract_entries_writes : evidence.
Lemma collectTelemetry_writes ctx : emits (collectTelemetry dep o heap ctx) kept.
Proof. unfold collectTelemetry, extractTelemetry. evidence_steps. Qed.
#[local] Hint Resolve collectTelemetry_writes : evidence.
Lemma collectArtifacts_writes ctx : emits (collectArtifacts dep o heap ctx) kept.
Proof.
  unfold collectArtifacts, collect_gateway_log. apply all_bind; [evidence_steps|]. intros acc.
  apply all_bind; [evidence_steps|]. intros acc'. apply all_bind; [|intros ?; apply all_ret].
  apply retain_json_writes. intros text Ht. right. by eexists _, text.
Qed.
Lemma writeAgentResult_writes summary result e : emits (writeAgentResult (W := T) o heap summary result e) kept.
Proof. unfold writeAgentResult, write_result. evidence_steps. Qed.
End Writes.

Section Agent.
Context {W : Type} `{Lib : Library} `{!Runtime W} `{!Files W} `{!Ticker W} `{!Speech W} `{!AudioFiles W}.
Context `{!Gateways W} `{!GatewayClients W} `{!Timers W} {G : Goroutines (W * list bytes)}.
Abbreviation T := (W * list bytes)%type.
Variables (options : OpenClawOptions) (d : HarnessDeployment W).
Abbreviation dep := (silent_deployment d : HarnessDeployment T).
Definition result_hides (o : Occurrence) (heap : Heap) (result : HarnessResult) : Prop :=
  shows_no_key o heap (to_bytes (hr_FinalResponse result)) /\ shows_no_key o heap (to_bytes (hr_Error result)).

Lemma finish_run_writes ctx o heap started response e :
  emits (finish_run options dep ctx o heap started response e) (all_events (evidence o heap)).
Proof.
  unfold finish_run. apply all_bind; [apply collectArtifacts_writes|]. intros [artifactErr a]. unfold failed_run. evidence_steps.
Qed.
Lemma newGateway_writes (P : bytes -> Prop) url token : emits (newGateway (W := T) options url token) (all_events P).
Proof. unfold newGateway, newGatewayClient. evidence_steps. Qed.
Lemma run_agent_writes ctx o s heap instruction started :
  emits (run_agent options dep ctx o s heap instruction started) (all_events (evidence o heap)).
Proof.
  unfold run_agent. apply all_bind; [apply newGateway_writes|]. intros [client|e].
  2: { unfold failed_redacted, failed_run. evidence_steps. }
  apply all_bind; [unfold connect_agent; evidence_steps|]. intros [summary e].
  apply all_bind; [unfold ask_agent; evidence_steps|]. intros [result e']. cbv beta zeta.
  apply all_bind; [apply writeAgentResult_writes|]. intros written. destruct (record_result _ _ _) as [e'' a].
  apply all_bind; [apply (finish_run_writes _ (set_oc_Artifacts a o))|]. intros r. evidence_steps.
Qed.
Lemma failed_hides {W'} `{!Runtime W'} o heap started e :
  gives (W := W') (failed_run o heap started e) (fun r => result_hides o heap r.1).
Proof.
  unfold failed_run. apply gives_bind. intros now. apply gives_ret. split; [apply empty_shows_no_key|].
  cbn [fst FailedResult hr_Error]. rewrite to_of_bytes. apply redacted_shows_no_key.
Qed.
Lemma run_agent_hides ctx o s heap instruction started :
  gives (run_agent options dep ctx o s heap instruction started) (fun r => result_hides o heap r.1.1).
Proof.
  unfold run_agent. apply gives_bind. intros [client|e].
  2: { eapply gives_bind_such; [apply failed_hides|]. intros r Hr. by apply gives_ret. }
  apply gives_bind. intros [summary e]. apply gives_bind. intros [result e']. cbv zeta. apply gives_bind. intros written.
  destruct (record_result _ _ _) as [e'' a].
  apply (gives_bind_such _ _ (fun r => result_hides o heap r.1.1)); [|intros r Hr; apply gives_bind; intros _; by apply gives_ret].
  unfold finish_run. apply gives_bind. intros [artifactErr a'].
  apply (gives_bind_such _ _ (fun r => result_hides o heap r.1)); [|intros r Hr; by apply gives_ret].
  destruct (errors_Join _) as [failure|]; [apply (failed_hides (set_oc_Artifacts a' (set_oc_Artifacts a o)))|].
  apply gives_bind. intros now. apply gives_ret. split; [|apply empty_shows_no_key]. apply redact_text_shows.
Qed.
End Agent.

(** * Telemetry *)

Lemma itoa_inj m n : itoa m = itoa n -> m = n.
Proof. apply (inj pretty). Qed.
Lemma cancel_suffix (a b c : string) : a +:+ c = b +:+ c -> a = b.
Proof.
  intros H. apply to_bytes_inj. apply (f_equal to_bytes) in H. rewrite !to_bytes_app in H. by apply app_inv_tail in H.
Qed.
(** The names tried from an index on. *)
Fixpoint candidates (fuel : nat) (base : string) (index : Z) (name : string) : list string :=
  match fuel with O => [name] | S fuel => name :: candidates fuel base (index + 1) (itoa index +:+ "-" +:+ base) end.
Definition numbered (base : string) (index : Z) (name : string) : Prop := exists i, index <= i /\ name = itoa i +:+ "-" +:+ base.
Lemma candidates_numbered fuel base index name x :
  x ∈ candidates fuel base index name -> x = name \/ numbered base index x.
Proof.
  revert index name. induction fuel as [|fuel IH]; intros index name; cbn [candidates].
  { intros ->%list_elem_of_singleton. by left. }
  intros [->|Hx]%elem_of_cons; [by left|]. right. destruct (IH _ _ Hx) as [->|(i & Hi & ->)].
  - exists index. split; [lia|done].
  - exists i. split; [lia|done].
Qed.
Lemma candidates_nodup fuel base index name : ~ numbered base index name -> NoDup (candidates fuel base index name).
Proof.
  revert index name. induction fuel as [|fuel IH]; intros index name Hn; cbn [candidates]; [apply NoDup_singleton|].
  apply NoDup_cons. split.
  - intros [->|(i & Hi & ->)]%candidates_numbered; apply Hn; eexists; (split; [|reflexivity]); lia.
  - apply IH. intros (i & Hi & He). apply cancel_suffix in He. apply itoa_inj in He. lia.
Qed.
Lemma length_candidates fuel base index name : length (candidates fuel base index name) = S fuel.
Proof. revert index name. induction fuel as [|fuel IH]; intros; cbn [candidates length]; [done|]. by rewrite IH. Qed.
Lemma unique_name_in fuel used base index name :
  let x := unique_name fuel used base index name in
  x ∈ candidates fuel base index name /\ (x ∈ used -> forall y, y ∈ candidates fuel base index name -> y ∈ used).
Proof.
  revert index name. induction fuel as [|fuel IH]; intros index name; cbn [unique_name candidates].
  - replace (if decide (name ∈ used) then name else name) with name by by destruct (decide _).
    split; [by apply list_elem_of_singleton|]. intros Hu y ->%list_elem_of_singleton. done.
  - destruct (decide (name ∈ used)) as [Hu|Hu]; [|split; [apply elem_of_cons; by left|done]].
    destruct (IH (index + 1) (itoa index +:+ "-" +:+ base)) as [Hin Hall]. split; [apply elem_of_cons; by right|].
    intros Hx y [->|Hy]%elem_of_cons; [done|]. by apply Hall.
Qed.
(** A digit more than the base is no longer the base. *)
Lemma base_not_numbered base index : ~ numbered base index base.
Proof.
  intros (i & _ & He). apply (f_equal to_bytes), (f_equal length) in He. rewrite !to_bytes_app, !length_app in He. simpl in He. lia.
Qed.
Lemma unique_name_fresh used base : unique_name (set_size used) used base 1 base ∉ used.
Proof.
  intros Hin. destruct (unique_name_in (set_size used) used base 1 base) as [_ Hall]. specialize (Hall Hin).
  assert (list_to_set (C := gset string) (candidates (set_size used) base 1 base) ⊆ used) as Hsub.
  { intros x Hx%elem_of_list_to_set. by apply Hall. }
  apply subseteq_size in Hsub. rewrite size_list_to_set, length_candidates in Hsub by apply candidates_nodup, base_not_numbered.
  change (base.size used) with (set_size used) in Hsub. lia.
Qed.
Section Names.
Context `{Lib : Library}.
(** [strings.ToLower] leaves a text without letters as it is. *)
Hypothesis lower_plain : forall s, s ∈ [""; "."; ".."; "/"]%string -> lib_ToLower s = s.
Lemma Base_plain path : Base path = "/"%string \/ "/"%char ∉ to_bytes (Base path).
Proof.
  unfold Base. destruct (String.eqb path ""); [right; simpl; set_solver|].
  destruct (drop_slashes _) as [|c s]; [by left|]. right. rewrite to_of_bytes.
  destruct (last (split_bytes "/" (rev (c :: s)))) as [part|] eqn:E; [|apply not_elem_of_nil].
  cbn [default]. eapply split_bytes_no_sep. apply last_Some_elem_of. exact E.
Qed.
Lemma telemetry_component header : is_telemetry header = true -> path_component (to_bytes (telemetry_base header)).
Proof.
  intros Ht. unfold is_telemetry in Ht. rewrite !andb_true_iff in Ht. destruct Ht as [_ Ht].
  assert (telemetry_base header ∉ [""; "."; ".."; "/"]%string) as Hn.
  { intros Hin. rewrite (lower_plain _ Hin) in Ht. repeat (apply elem_of_cons in Hin as [He|Hin]; [rewrite He in Ht; discriminate Ht|]).
    by apply not_elem_of_nil in Hin. }
  assert (forall s, s ∈ [""; "."; ".."; "/"]%string -> to_bytes (telemetry_base header) <> to_bytes s) as Hd
    by (intros s Hs He%to_bytes_inj; by subst s).
  split_and!; [apply (Hd ""%string)|apply (Hd "."%string)|apply (Hd ".."%string)|]; [set_solver..|].
  destruct (Base_plain (Clean (th_Name header))) as [He|]; [|done]. exfalso. apply Hn. unfold telemetry_base. rewrite He. set_solver.
Qed.
Lemma numbered_component base i : 0 <= i -> path_component (to_bytes base) ->
  path_component (to_bytes (itoa i +:+ "-" +:+ base)).
Proof.
  intros Hi (_ & _ & _ & Hs). rewrite !to_bytes_app. change (to_bytes "-") with ["-"%char].
  assert ("-"%char ∈ to_bytes (itoa i) ++ ["-"%char] ++ to_bytes base) as Hin by (apply elem_of_app; right; left).
  split_and!; try (intros He; rewrite He in Hin; repeat (apply elem_of_cons in Hin as [Hc|Hin]; [discriminate Hc|]);
                   by apply not_elem_of_nil in Hin).
  rewrite !not_elem_of_app. split_and!; [|by intros ?%list_elem_of_singleton|done].
  intros Hd. pose proof (digits_itoa i Hi) as Hall. rewrite forallb_forall in Hall. apply list_elem_of_In, Hall in Hd. done.
Qed.
Lemma unique_name_component fuel used base : path_component (to_bytes base) ->
  path_component (to_bytes (unique_name fuel used base 1 base)).
Proof.
  intros Hb. destruct (unique_name_in fuel used base 1 base) as [Hin _].
  destruct (candidates_numbered _ _ _ _ _ Hin) as [->|(i & Hi & ->)]; [done|]. apply numbered_component; [lia|done].
Qed.

(** The paths written are those of different plain names. *)
Definition telemetry_paths (o : Occurrence) (names : list string) : list string :=
  map (fun name => Join [oc_ArtifactDir o; "telemetry"; name]%string) names.
Lemma extract_entries_apart {W} `{!Files W} o heap entries ended names :
  NoDup names -> Forall (fun name => path_component (to_bytes name)) names ->
  gives (W := W) (extract_entries o heap entries ended (list_to_set names) (telemetry_paths o names)) (fun r =>
    exists names', r.1 = telemetry_paths o names' /\ NoDup names' /\ Forall (fun name => path_component (to_bytes name)) names').
Proof.
  revert names. induction entries as [|[header [content e]] entries IH]; intros names Hnd Hall; cbn [extract_entries].
  { apply gives_ret. by exists names. }
  destruct (is_telemetry header) eqn:Ht; cbn [negb]; [|by apply IH].
  destruct (is_some e || _); [apply gives_ret; by exists names|]. cbv zeta.
  set (used := list_to_set names : gset string). set (base := telemetry_base header).
  pose proof (unique_name_fresh used base) as Hfresh. pose proof (unique_name_component (set_size used) used base (telemetry_component _ Ht)) as Hc.
  set (name := unique_name _ _ _ _ _) in *. apply gives_bind. intros [e'|]; [apply gives_ret; by exists names|].
  assert (used = list_to_set names) as Hused by done.
  replace ({[name]} ∪ used) with (list_to_set (names ++ [name]) : gset string) by (rewrite Hused; set_solver).
  replace (telemetry_paths o names ++ _) with (telemetry_paths o (names ++ [name])) by (unfold telemetry_paths; by rewrite map_app).
  apply IH.
  - apply NoDup_app. split_and!; [done| |apply NoDup_singleton]. intros x Hx ->%list_elem_of_singleton. apply Hfresh. set_solver.
  - apply Forall_app. by split; [|apply Forall_singleton].
Qed.
End Names.

(** C21. An OpenClaw run in the agent mode gives no key away. Whatever the gateway answers,
    the runtime logs or its telemetry holds: the response and the error text of its result
    hold no key of the session that redaction can hide, and neither does any file of
    evidence it writes (for a key on one line), apart from the index, which lists the paths
    of the telemetry. *)
Theorem openclaw_run_hides_keys {W} `{Lib : Library} `{!Runtime W} `{!Files W} `{!Ticker W} `{!Speech W} `{!AudioFiles W}
    `{!Gateways W} `{!GatewayClients W} `{!Timers W} (G : Goroutines (W * list bytes)) (options : OpenClawOptions) (fuel : nat)
    (d : HarnessDeployment W) (ctx : Ctx) (instruction : string) (p : nat) (h : Harness OpenClawSession) (o : Occurrence) :
  isRealtimeMode (on_Mode (op_Common options)) = false -> occurrence_at p h = Some o ->
  emits (openclaw_run options fuel (silent_deployment d) ctx instruction p h) (fun r evs =>
    result_hides o (hn_heap h) r.1.1 /\ Forall (evidence o (hn_heap h)) evs).
Proof.
  intros Hmode Ho. unfold openclaw_run, occurrence_at in *. destruct (hn_sessions h !! p) as [[o' s]|]; simplify_eq/=.
  apply emits_gives.
  - apply gives_bind. intros started. rewrite Hmode. eapply gives_bind_such; [apply run_agent_hides|].
    intros [[result e] a] Hr. by apply gives_ret.
  - apply all_bind; [apply all_silent|]. intros started. rewrite Hmode. apply all_bind; [apply run_agent_writes|].
    intros [[result e] a]. apply all_ret.
Qed.

(** C26. The OpenClaw manager loses no runtime that it was told of. Whatever the calls on it,
    in whatever order they take effect, runs and stops overlapping, in any of its modes, and
    whatever the deployment, the gateway, the speech service and the file system answer: a
    runtime is created, and a stop confirmed to its caller, only when no runtime of a known
    identity is alive; an instruction is admitted at most once after a start and never once a
    stop has begun; and a runtime of a known identity that is alive is the one the manager
    still owns. The one exception is a creation that answers no identity, such as one whose
    outcome the deployment could not confirm: the manager keeps nothing of it and may later
    start another, but its start fails at once, with an error that is everything the
    deployment's error was (an unconfirmed allocation is reported as one). *)
Theorem openclaw_life_accounts (m : OpenClaw) {W} `{Lib : Library} `{!Runtime W} `{!Files W} `{!Ticker W} `{!Speech W} `{!AudioFiles W}
    `{!Gateways W} `{!GatewayClients W} `{!Timers W} (G : Goroutines (W * list harness_event)) (Hg : QuietGoroutines G)
    (d : HarnessDeployment W) (calls : list harness_call) (heap : Heap) :
  emits (openclaw_life m G d calls heap) (fun l evs =>
    ok_events [] evs /\ reported evs /\
    (forall id, id ∈ live evs -> id = owned_ID (lf_harness l)) /\
    (InUse (lf_harness l) = false -> live evs = ∅)).
Proof. apply (harness_life_accounts d (openclaw_laws m d)). Qed.

(** Telemetry is kept apart. Whatever archive the runtime hands out, with whatever
    names in it: the files that are kept of it have different names, each a plain name (not
    empty, no dot, no dots, no slash) in the telemetry directory of the occurrence, so that
    none leaves the directory and none overwrites another. *)
Theorem telemetry_kept_apart {W} `{Lib : Library} `{!Files W} (o : Occurrence) (heap : Heap) (archive : bytes) :
  (forall s, s ∈ [""; "."; ".."; "/"]%string -> lib_ToLower s = s) ->
  gives (W := W) (extractTelemetry o heap archive) (fun r => exists names,
    r.1 = map (fun name => Join [oc_ArtifactDir o; "telemetry"; name]%string) names /\ NoDup names /\
    Forall (fun name => path_component (to_bytes name)) names).
Proof.
  intros Hl. unfold extractTelemetry. destruct (lib_tar_Read archive) as [entries ended].
  apply (extract_entries_apart Hl o heap entries ended []); constructor.
Qed.

(** A gateway that repeats the model's key. *)
#[local] Existing Instances demo_Runtime demo_Ticker demo_Speech.
Definition demo_library : Library := plain_library
  (fun _ => Some {| ul_Scheme := "ws"; ul_Opaque := ""; ul_User := false; ul_Host := "h:1"; ul_Path := ""; ul_RawPath := "";
                    ul_ForceQuery := false; ul_RawQuery := ""; ul_Fragment := "" |}) (fun _ => None).
#[local] Instance demo_Gateways : Gateways Disk := {|
  gw_Connect _ _ := ret (inl {| cs_Role := "operator"; cs_Scopes := ["operator.write"%string] |});
  gw_Call _ _ _ _ := ret (inl []);
  gw_RecvEvent _ _ := ret (inr (ESentinel Canceled));
  gw_FatalError _ := ret None;
  gw_Agent _ _ _ := ret ({| ar_RunID := "r"; ar_Text := "the key is sk-1" |}, None);
  gw_Close _ := ret None
|}.
#[local] Instance demo_Clients : GatewayClients Disk := {| gw_New _ _ := ret 0%nat |}.
#[local] Instance demo_Timers : Timers Disk := {|
  new_channel := ret 0%nat; close_channel _ := ret tt; channel_closed _ := ret true; cancel_of _ := ret tt; sleep _ _ := ret None
|}.
#[local] Instance demo_AudioFiles : AudioFiles Disk := {|
  open_audio _ := ret (inr (ENew "no audio")); read_audio _ _ := ret ([], None); close_audio _ := ret None
|}.
(** Goroutines one after the other. *)
Definition in_turn {W} : Goroutines W := fun A B m n => let* a := m in let* b := n in ret (a, b).
Definition demo_options : OpenClawOptions :=
  {| op_Runtime := demo_RuntimeOptions; op_Common := demo_Options;
     op_Realtime := {| rp_AgentQuestionTemplate := ""; rp_TTS := demo_TTS; rp_ChunkDuration := 0; rp_ListenDuration := 0;
                       rp_QuietDuration := 0; rp_AgentWaitDuration := 0; rp_ToolCallTimeout := 0; rp_TrailingSilenceMillis := 0;
                       rp_Provider := ""; rp_Model := ""; rp_Voice := ""; rp_ReasoningEffort := ""; rp_IncludeEvents := false |} |}.
Definition demo_harness : Harness OpenClawSession :=
  set_hn_sessions {[ 0%nat := {| ss_occurrence := demo_occurrence;
                                 ss_native := {| ox_gatewayURL := "ws://h:1"; ox_safeTaskID := "task"; ox_agentIdempotency := "i";
                                                 ox_configuration := [] |} |} ]}
    (new_Harness demo_heap).
Lemma openclaw_run_hides_keys_witness :
  (openclaw_run (Lib := demo_library) (Goroutines0 := in_turn) demo_options 0 demo_deployment Background "do it" 0 demo_harness
     empty_disk).1.1.1 =
  {| hr_Status := StatusSucceeded; hr_FinalResponse := "the key is [REDACTED]"; hr_Duration := 0;
     hr_LogPaths := ["/out/agent-result.json"; "/out/gateway.log"; "/out/telemetry.index.json"]%string; hr_Error := "" |} /\
  emits (openclaw_run (Lib := demo_library) (Goroutines0 := in_turn) demo_options 0 (silent_deployment demo_deployment) Background
           "do it" 0 demo_harness)
    (fun r evs => result_hides demo_occurrence (hn_heap demo_harness) r.1.1 /\
                  Forall (evidence (H := demo_library) demo_occurrence (hn_heap demo_harness)) evs).
Proof. split; [vm_compute; reflexivity|]. apply openclaw_run_hides_keys; reflexivity. Defined.

(** * Audio *)

Lemma resample_from_size n pcm i m k out : resample_from n pcm i m k = Some out -> size out = 2 * Z.of_nat n.
Proof.
  revert k out. induction n as [|n IH]; intros k out; cbn [resample_from]; [by intros [= <-]|].
  destruct (resampled pcm i m k) as [bs|] eqn:Hb; [|done]. cbn [mbind option_bind].
  destruct (resample_from n pcm i m (k + 1)) as [rest|] eqn:Hr; [|done]. cbn [mbind option_bind]. intros [= <-].
  assert (size bs = 2) as H2.
  { unfold resampled in Hb. cbv zeta in Hb. apply bind_Some in Hb as (l & _ & Hb). apply bind_Some in Hb as (r & _ & Hb).
    by injection Hb as <-. }
  apply IH in Hr. unfold size in *. rewrite length_app. lia.
Qed.
(** What is resampled is PCM16 within the bound, at a supported rate. *)
Lemma resamplePCM16_bounds pcm src dst out : resamplePCM16 pcm src dst = inl out ->
  0 < dst <= maxSampleRate /\ Z.odd (size out) = false /\ size out <= MaxPCM16Bytes.
Proof.
  unfold resamplePCM16. destruct (_ || _) eqn:Hr; [done|]. rewrite !orb_false_iff, !Z.leb_gt, !Z.ltb_ge in Hr.
  destruct (Z.odd (size pcm)) eqn:Hodd; [done|]. destruct (MaxPCM16Bytes <? size pcm) eqn:Hmax; [done|]. apply Z.ltb_ge in Hmax.
  intros H. split; [lia|]. destruct (size pcm =? 0); [by injection H as <-|]. destruct (src =? dst); [by injection H as <-|].
  cbv zeta in H. set (n := outputSamples _ _ _) in *. destruct (_ <? n) eqn:Hn; [done|]. apply Z.ltb_ge in Hn.
  assert (MaxPCM16Bytes / 2 * 2 = MaxPCM16Bytes) as Hm by done. set (n' := if n <? 1 then 1 else n) in *.
  assert (1 <= n' <= MaxPCM16Bytes / 2) as Hn' by (unfold n'; destruct (Z.ltb_spec n 1); [split; [lia|by vm_compute]|lia]).
  assert (size pcm <> 0 -> forall z, size z = 2 * n' -> Z.odd (size z) = false /\ size z <= MaxPCM16Bytes) as Hz.
  { intros _ z ->. split; [by rewrite Z.odd_mul|lia]. }
  destruct (_ || _).
  - injection H as <-. destruct (decide (2 <= size pcm)) as [H2|H2].
    + apply Hz; [lia|]. unfold size in *. rewrite length_app, length_take, repeat_length. lia.
    + unfold size in *. destruct pcm as [|a [|b pcm]]; [|done|simpl in H2; lia]. 
      simpl app. rewrite repeat_length. replace (Z.of_nat _) with (2 * (n' - 1)) by lia. split; [by rewrite Z.odd_mul|lia].
  - destruct (resample_from _ _ _ _ _) as [o|] eqn:Ho; [|done]. injection H as <-. apply resample_from_size in Ho.
    rewrite Ho, Z2Nat.id by lia. split; [by rewrite Z.odd_mul|lia].
Qed.
Lemma length_ulaw_bytes : forall n pcm, length pcm = (2 * n)%nat -> length (ulaw_bytes pcm) = n.
Proof.
  induction n as [|n IH]; intros [|a [|b pcm]] H; simpl in H; try lia; [done|]. cbn [ulaw_bytes length]. f_equal. apply IH. lia.
Qed.

(** The audio that a harness provides is accepted. Whatever recording is read and
    whatever encoding and rate the gateway's session asks for: if the audio can be
    prepared and is not empty, the realtime runner takes it, with whole samples of one or
    two bytes within its bounds on size and rate. *)
Theorem provided_audio_accepted `{Lib : Library} (options : OpenClawOptions) (session : SessionInfo) (pcm : bytes)
    (sourceRate : Z) (audio : Realtime.Audio) :
  provided_audio options session pcm sourceRate = inl audio -> au_Data audio <> [] -> validAudio audio = true.
Proof.
  unfold provided_audio. destruct (with_silence _ _ _) as [pcm'|e]; [|done]. cbv zeta. unfold PrepareAudio.
  destruct (resamplePCM16 _ _ _) as [out|e] eqn:Hr; [|done]. apply resamplePCM16_bounds in Hr as (Hrate & Hodd & Hmax).
  cbv zeta. intros H Hne.
  assert (exists b, (b = 1 \/ b = 2) /\ au_BytesPerSample audio = b /\ au_Rate audio = positive_or (si_InputSampleRateHz session) DefaultInputSampleRate /\
    audio_size audio <= MaxPCM16Bytes /\ audio_size audio mod b = 0) as (b & Hb & Hbps & Hra & Hs & Hm).
  { destruct (String.eqb _ "pcm16").
    - injection H as <-. exists 2. split_and!; [by right|done|done|exact Hmax|]. rewrite Zmod_odd. change (audio_size _) with (size out).
      by rewrite Hodd.
    - destruct (String.eqb _ "g711_ulaw"); [|done]. unfold pcm16ToG711ULaw in H. rewrite Hodd in H.
      rewrite (proj2 (Z.ltb_ge _ _)) in H by lia. injection H as <-. exists 1. split_and!; [by left|done|done| |apply Z.mod_1_r].
      change (audio_size _) with (size (ulaw_bytes out)). unfold size in *.
      assert (exists n, length out = (2 * n)%nat) as [n Hn].
      { exists (Z.to_nat (Z.of_nat (length out) / 2)). pose proof (Zmod_odd (Z.of_nat (length out))) as E. rewrite Hodd in E.
        pose proof (Z.div_mod (Z.of_nat (length out)) 2). lia. }
      rewrite (length_ulaw_bytes n) by done. lia. }
  unfold validAudio. rewrite Hbps, Hra.
  assert (0 < audio_size audio) as Hpos by (unfold audio_size; destruct (au_Data audio); [done|simpl; lia]).
  rewrite (proj2 (Z.eqb_neq _ 0)) by lia. rewrite (proj2 (Z.leb_le _ maxRealtimeAudioBytes)) by exact Hs.
  rewrite (proj2 (Z.ltb_lt 0 _)) by lia. rewrite (proj2 (Z.leb_le _ maxRealtimeSampleRate)) by (change maxRealtimeSampleRate with maxSampleRate; lia).
  rewrite (proj2 (Z.ltb_lt 0 b)) by lia. rewrite (proj2 (Z.leb_le b _)) by (destruct Hb as [->| ->]; by vm_compute).
  rewrite Z.rem_mod_nonneg by lia. by rewrite Hm.
Qed.

(** * Witnesses *)

Lemma in_turn_quiet {W} : QuietGoroutines (W := W) in_turn.
Proof. intros A B m n Hm Hn. unfold both, in_turn. apply quiet_bind; [done|intros a]. apply quiet_bind; [done|intros b]. apply quiet_ret. Qed.
(** A manager that has its keys, and a disk with the client's executable. *)
Definition life_library : Library := plain_library
  (fun _ => Some {| ul_Scheme := "http"; ul_Opaque := ""; ul_User := false; ul_Host := "h:1"; ul_Path := ""; ul_RawPath := "";
                    ul_ForceQuery := false; ul_RawQuery := ""; ul_Fragment := "" |}) (fun _ => None).
Definition life_options : OpenClawOptions :=
  {| op_Runtime := {| ro_Image := ""; ro_OutputDir := "/out"; ro_CleanupTimeout := 1; ro_StartTimeout := 1; ro_AgentTimeout := 1;
                      ro_APIKeyLookup := fun _ heap => let (buffer, heap) := alloc (to_bytes "sk-1") heap in (Some buffer, heap) |};
     op_Common := op_Common demo_options; op_Realtime := op_Realtime demo_options |}.
Definition life_manager : OpenClaw := {| oz_options := life_options; oz_ready_fuel := 1; oz_events_fuel := 0 |}.
Definition life_request : HarnessRequest :=
  {| hq_Connectivity := {| hc_Placement := {| rp_AttachmentID := "net" |}; hc_SearchURL := ""; hc_MCPServers := [] |};
     hq_RunID := "run"; hq_TaskID := "task";
     hq_Endpoint := {| te_Protocol := "ssh"; te_Address := "bridge:2222"; te_Username := "aries";
                       te_ClientCommand := "/opt/aries/bin/aries-ssh-client"; te_ClientSourceFile := "/c"; te_LogPaths := [];
                       te_Workdir := "/w" |};
     hq_Model := demo_agent_model; hq_Timeout := 1; hq_CPU := None; hq_MemoryMB := None; hq_OutputDir := "/out";
     hq_NoSandboxTools := false |}.
#[local] Instance client_Files : Files Disk := {|
  os_MkdirAll := @os_MkdirAll _ disk_Files; os_EvalSymlinks := @os_EvalSymlinks _ disk_Files; os_Abs := @os_Abs _ disk_Files;
  os_Chmod := @os_Chmod _ disk_Files; os_Create := @os_Create _ disk_Files; os_Open := @os_Open _ disk_Files;
  os_Write := @os_Write _ disk_Files; os_Sync := @os_Sync _ disk_Files; os_Close := @os_Close _ disk_Files;
  os_Stat file d :=
    match @os_Stat _ disk_Files file d with
    | (inl info, d') =>
        (inl {| fi_Regular := fi_Regular info;
                fi_Perm := if decide (dk_open d !! file = Some "/c"%string) then executable else fi_Perm info;
                fi_Size := fi_Size info; fi_ModTime := fi_ModTime info; fi_ID := fi_ID info |}, d')
    | failed => failed
    end;
  os_ReadAll := @os_ReadAll _ disk_Files; os_Remove := @os_Remove _ disk_Files; os_RemoveAll := @os_RemoveAll _ disk_Files;
  rand_Read := @rand_Read _ disk_Files
|}.
Definition client_disk : Disk := {| dk_files := {["/c"%string := to_bytes "client"]}; dk_open := ∅ |}.
Definition life_calls : list harness_call :=
  [CallStart Background life_request; CallRun "do it"; CallStart Background life_request; CallStop; CallStopEnd Background].
Definition lived (d : HarnessDeployment Disk) : list harness_event :=
  (openclaw_life (Lib := life_library) life_manager in_turn d life_calls ∅ (client_disk, [])).2.2.
(** A deployment that loses the answer to every creation. *)
Definition losing_deployment : HarnessDeployment Disk :=
  let d := demo_deployment in
  {| hd_Create _ _ := ret (""%string, Some (ESentinel ErrAllocationUnconfirmed)); hd_Validate := hd_Validate d;
     hd_UploadArchive := hd_UploadArchive d; hd_DownloadArchive := hd_DownloadArchive d; hd_Start := hd_Start d;
     hd_Running := hd_Running d; hd_Logs := hd_Logs d; hd_Address := hd_Address d; hd_Exec := hd_Exec d; hd_Stop := hd_Stop d;
     hd_Close := hd_Close d |}.
Example lost_runtimes :
  let lost := [HCreate "" (Some (ESentinel ErrAllocationUnconfirmed));
               HStarted (Some (EWrap "create OpenClaw runtime" (ESentinel ErrAllocationUnconfirmed)))] in
  take 2 (lived losing_deployment) = lost.
Proof. vm_compute. reflexivity. Qed.
Lemma openclaw_life_accounts_witness :
  lived demo_deployment =
    [HCreate "id" None; HStarted None; HAdmitted; HStarted (Some (ENew "OpenClaw harness is already active")); HStopping;
     HRemove "id" None; HStopped None] /\
  emits (openclaw_life (Lib := life_library) life_manager in_turn demo_deployment life_calls ∅) (fun l evs =>
    ok_events [] evs /\ reported evs /\
    (forall id, id ∈ live evs -> id = owned_ID (lf_harness l)) /\
    (InUse (lf_harness l) = false -> live evs = ∅)).
Proof. split; [vm_compute; reflexivity|]. apply openclaw_life_accounts. apply in_turn_quiet. Defined.
Lemma telemetry_kept_apart_witness :
  gives (W := Disk) (extractTelemetry (Lib := demo_library) demo_occurrence demo_heap []) (fun r => exists names,
    r.1 = map (fun name => Join [oc_ArtifactDir demo_occurrence; "telemetry"; name]%string) names /\ NoDup names /\
    Forall (fun name => path_component (to_bytes name)) names).
Proof. apply telemetry_kept_apart. intros s _. reflexivity. Defined.
Definition two_files : list (tarHeader * (bytes * error)) :=
  [({| th_Name := "a/b.jsonl"; th_regular := true; th_Size := 2 |}, (to_bytes "{}", None));
   ({| th_Name := "../b.jsonl"; th_regular := true; th_Size := 2 |}, (to_bytes "[]", None))].
Example two_files_kept :
  (extract_entries (Lib := demo_library) demo_occurrence demo_heap two_files None ∅ [] empty_disk).1 =
  (["/out/telemetry/b.jsonl"; "/out/telemetry/1-b.jsonl"]%string, None).
Proof. vm_compute. reflexivity. Qed.
Definition demo_session : SessionInfo :=
  {| si_SessionID := "s"; si_RelaySessionID := ""; si_InputEncoding := "mulaw"; si_InputSampleRateHz := 8000 |}.
Lemma provided_audio_accepted_witness :
  validAudio {| au_Data := map byte_char [242; 242]; au_Rate := 8000; au_BytesPerSample := 1; au_Encoding := "g711_ulaw" |} = true.
Proof.
  apply (provided_audio_accepted (Lib := demo_library) demo_options demo_session (map byte_char [100; 0; 100; 0]) 8000);
    [vm_compute; reflexivity|discriminate].
Defined.
