(* ===== verification/Monitor.v ===== *)
(** The resource monitor's samples ([pkg/monitor/recorder.go] and artifacts.go):
    which readings are accepted, the CPU rate computed from a runtime's counter, the
    baselines kept between samples, and the files the samples are appended to with
    their bounds and their coverage.  MonitorRecorder.v has the recorder's life. *)

From stdpp Require Import sorting.
From S2P Require Import Prelude Utf8 Trace Paths Core.

Definition maxIdentityLength : Z := 128.
Definition maxMemoryBytes : Z := 2 ^ 60.
Definition maxCPUPercent : float64 := f64_of_Z 1000000.
Definition maxCoverageEntries : nat := 32.

(** Instants are nanoseconds since Go's zero time, so that [IsZero] is 0; [Sub]
    saturates. *)
Definition IsZero (t : Z) : bool := t =? 0.
Definition time_Sub (t u : Z) : Z := Z.max min_int64 (Z.min max_int64 (t - u)).
Definition Second : Z := 1000000000.

(** * Readings *)

(** [validateIdentity] of the monitor. *)
Definition monitor_identity_byte (first : bool) (c : ascii) : bool :=
  is_alnum c || Ascii.eqb c "_" || (negb first && (Ascii.eqb c "-" || Ascii.eqb c ".")).
Definition monitor_validateIdentity (kind value : string) : error :=
  let limit := if String.eqb kind "task" then 149 else maxIdentityLength in
  (refuse_if String.eqb value "" || (limit <? len value)
     with ("monitor " +:+ kind +:+ " ID length must be between 1 and " +:+ itoa limit)) >>?
  (refuse_if match to_bytes value with
             | [] => false
             | c :: rest =>
                 negb (monitor_identity_byte true c && forallb (monitor_identity_byte false) rest)
             end
     with ("monitor " +:+ kind +:+ " ID " +:+ quote value +:+ " contains an unsafe character")).

(** A gauge that is present and outside its range. *)
Definition bad_gauge (bad : float64 -> bool) (value : option float64) : bool :=
  match value with Some v => IsNaN v || IsInf v || bad v | None => false end.
Definition bad_percent (v : float64) : bool := f64_ltb v f64_zero || f64_ltb (f64_of_Z 100) v.
Definition absolute_zero : float64 := f64_div (f64_of_Z (-27315)) (f64_of_Z 100).

(** [validateReading]: the GPU's part; Go visits the two percentages in an
    unspecified order. *)
Definition validate_gpu (runtimeID : string) (gpu : GPUResourceReading) : error :=
  (refuse_if (gp_Index gpu <? 0) || negb (String.eqb (gp_UUID gpu) runtimeID)
     with "monitor GPU identity is invalid") >>?
  (refuse_if (maxMemoryBytes <? gp_MemoryUsageBytes gpu) ||
             (maxMemoryBytes <? gp_MemoryTotalBytes gpu) ||
             (gp_MemoryTotalBytes gpu <? gp_MemoryUsageBytes gpu)
     with "monitor GPU memory measurement is invalid") >>?
  (refuse_if bad_gauge bad_percent (gp_UtilizationPercent gpu)
     with "monitor GPU utilization is invalid") >>?
  (refuse_if bad_gauge bad_percent (gp_MemoryUtilizationPercent gpu)
     with "monitor GPU memory utilization is invalid") >>?
  (refuse_if bad_gauge (fun v => f64_ltb v f64_zero) (gp_PowerWatts gpu)
     with "monitor GPU power is invalid") >>?
  (refuse_if bad_gauge (fun v => f64_ltb v absolute_zero) (gp_TemperatureCelsius gpu)
     with "monitor GPU temperature is invalid").
Definition validateReading (scope runID : string) (taskSet : gset string)
    (reading : ResourceReading) : error :=
  let rscope := if String.eqb (rr_Scope reading) "" then "task"%string else rr_Scope reading in
  (refuse_if negb (String.eqb rscope scope) ||
             (negb (String.eqb (rr_RunID reading) "") && negb (String.eqb (rr_RunID reading) runID)) ||
             (String.eqb rscope "run" && negb (String.eqb (rr_RunID reading) runID))
     with "sampled unexpected resource scope or run") >>?
  (refuse_if negb (bool_decide (rr_TaskID reading ∈ taskSet))
     with ("sampled unexpected task " +:+ quote (rr_TaskID reading))) >>?
  monitor_validateIdentity "component" (rr_Component reading) >>?
  monitor_validateIdentity "runtime" (rr_RuntimeID reading) >>?
  (refuse_if String.eqb (TrimSpace (rr_RuntimeName reading)) "" ||
             ContainsAny (rr_RuntimeName reading) [NUL; CR; NL]
     with "monitor runtime name is invalid") >>?
  (refuse_if (maxMemoryBytes <? rr_MemoryUsageBytes reading) ||
             (maxMemoryBytes <? rr_MemoryLimitBytes reading)
     with "monitor memory measurement exceeds the bound") >>?
  match rr_GPU reading with Some gpu => validate_gpu (rr_RuntimeID reading) gpu | None => None end.

(** The order [sample] puts the readings in: by task, component and runtime. *)
Definition reading_less (a b : ResourceReading) : bool :=
  if negb (String.eqb (rr_TaskID a) (rr_TaskID b)) then String.ltb (rr_TaskID a) (rr_TaskID b)
  else if negb (String.eqb (rr_Component a) (rr_Component b))
       then String.ltb (rr_Component a) (rr_Component b)
  else String.ltb (rr_RuntimeID a) (rr_RuntimeID b).
Definition reading_le (a b : ResourceReading) : Prop := reading_less b a = false.
#[export] Instance reading_le_dec : RelDecision reading_le.
Proof. intros a b. unfold reading_le. apply _. Defined.

Definition NULs : string := String NUL EmptyString.
Definition reading_key (r : ResourceReading) : string :=
  rr_TaskID r +:+ NULs +:+ rr_Component r +:+ NULs +:+ rr_RuntimeID r.

(** * CPU rates *)

(** [cpuBaseline]: the counter is a [uint64]. *)
Record cpuBaseline := { cb_usage : Z; cb_time : Z; cb_missed : Z }.
Definition baseline_of (r : ResourceReading) : cpuBaseline :=
  {| cb_usage := rr_CPUUsageNanoseconds r; cb_time := rr_ObservedAt r; cb_missed := 0 |}.

(** [cpuPercent]; [FormatV] is the text of a float under the verb v. *)
Definition cpu_rate (deltaCPU deltaWall : Z) : float64 :=
  f64_mul (f64_div (f64_of_Z deltaCPU) (f64_of_Z deltaWall)) (f64_of_Z 100).
Definition cpuPercent (FormatV : float64 -> string) (key : string) (reading : ResourceReading)
    (baselines : gmap string cpuBaseline) : (float64 + err) * gmap string cpuBaseline :=
  match baselines !! key with
  | None => (inl f64_zero, <[key := baseline_of reading]> baselines)
  | Some previous =>
      let failed text := (inr (ENew ("monitor runtime " +:+ rr_RuntimeID reading +:+ text)), baselines) in
      if rr_ObservedAt reading <=? cb_time previous
      then failed " observation time did not advance"%string
      else if rr_CPUUsageNanoseconds reading <? cb_usage previous
      then failed " CPU counter decreased"%string
      else
        let percent := cpu_rate (rr_CPUUsageNanoseconds reading - cb_usage previous)
                         (time_Sub (rr_ObservedAt reading) (cb_time previous)) in
        if IsNaN percent || IsInf percent || f64_ltb percent f64_zero || f64_ltb maxCPUPercent percent
        then failed (" CPU percentage " +:+ FormatV percent +:+ " is invalid")
        else (inl percent, <[key := baseline_of reading]> baselines)
  end.

(** [dropMissingBaselines]. *)
Definition age_baseline (grace : Z) (present : gset string) (key : string) (b : cpuBaseline) :
    option cpuBaseline :=
  if bool_decide (key ∈ present) then
    Some {| cb_usage := cb_usage b; cb_time := cb_time b; cb_missed := 0 |}
  else
    let missed := cb_missed b + 1 in
    if grace <? missed then None
    else Some {| cb_usage := cb_usage b; cb_time := cb_time b; cb_missed := missed |}.
Definition dropMissingBaselines (grace : Z) (present : gset string)
    (baselines : gmap string cpuBaseline) : gmap string cpuBaseline :=
  map_imap (age_baseline grace present) baselines.

(** * The sample files *)

(** [ResourceSample], [ComponentCoverage] and [taskArtifact] of artifacts.go.  An
    open file is named by the task it was opened for. *)
Record ResourceSample := {
  rs_Scope : string;
  rs_RunID : string;
  rs_Sequence : Z;
  rs_Second : Z;
  rs_Time : string;
  rs_TaskID : string;
  rs_Component : string;
  rs_RuntimeID : string;
  rs_RuntimeName : string;
  rs_CPUUsageNanoseconds : Z;
  rs_CPUPercent : float64;
  rs_MemoryUsageBytes : Z;
  rs_MemoryLimitBytes : Z;
  rs_GPU : option GPUResourceReading
}.
Definition set_rs_Sequence (n : Z) (s : ResourceSample) : ResourceSample :=
  {| rs_Scope := rs_Scope s; rs_RunID := rs_RunID s; rs_Sequence := n; rs_Second := rs_Second s;
     rs_Time := rs_Time s; rs_TaskID := rs_TaskID s; rs_Component := rs_Component s;
     rs_RuntimeID := rs_RuntimeID s; rs_RuntimeName := rs_RuntimeName s;
     rs_CPUUsageNanoseconds := rs_CPUUsageNanoseconds s; rs_CPUPercent := rs_CPUPercent s;
     rs_MemoryUsageBytes := rs_MemoryUsageBytes s; rs_MemoryLimitBytes := rs_MemoryLimitBytes s;
     rs_GPU := rs_GPU s |}.
Record ComponentCoverage := {
  cc_Component : string;
  cc_RuntimeID : string;
  cc_RuntimeName : string;
  cc_SampleCount : Z;
  cc_FirstSecond : Z;
  cc_LastSecond : Z
}.
Record taskArtifact := {
  ta_taskID : string;
  ta_directory : string;
  ta_resourcesPath : string;
  ta_indexPath : string;
  ta_resources : bool;               (* the file is there (not nil) *)
  ta_sequence : Z;
  ta_bytesWritten : Z;
  ta_coverage : gmap string ComponentCoverage;
  ta_closed : bool
}.
Definition set_ta_file (resources closed : bool) (a : taskArtifact) : taskArtifact :=
  {| ta_taskID := ta_taskID a; ta_directory := ta_directory a; ta_resourcesPath := ta_resourcesPath a;
     ta_indexPath := ta_indexPath a; ta_resources := resources; ta_sequence := ta_sequence a;
     ta_bytesWritten := ta_bytesWritten a; ta_coverage := ta_coverage a; ta_closed := closed |}.

Definition coverage_key (s : ResourceSample) : string := rs_Component s +:+ NULs +:+ rs_RuntimeID s.
Definition cover (s : ResourceSample) (previous : option ComponentCoverage) : ComponentCoverage :=
  let c := default {| cc_Component := rs_Component s; cc_RuntimeID := rs_RuntimeID s;
                      cc_RuntimeName := rs_RuntimeName s; cc_SampleCount := 0;
                      cc_FirstSecond := rs_Second s; cc_LastSecond := 0 |} previous in
  {| cc_Component := cc_Component c; cc_RuntimeID := cc_RuntimeID c;
     cc_RuntimeName := cc_RuntimeName c; cc_SampleCount := cc_SampleCount c + 1;
     cc_FirstSecond := cc_FirstSecond c; cc_LastSecond := rs_Second s |}.
Definition appended (s : ResourceSample) (size : Z) (a : taskArtifact) : taskArtifact :=
  {| ta_taskID := ta_taskID a; ta_directory := ta_directory a; ta_resourcesPath := ta_resourcesPath a;
     ta_indexPath := ta_indexPath a; ta_resources := ta_resources a;
     ta_sequence := ta_sequence a + 1; ta_bytesWritten := ta_bytesWritten a + size;
     ta_coverage := <[coverage_key s := cover s (ta_coverage a !! coverage_key s)]> (ta_coverage a);
     ta_closed := ta_closed a |}.

(** [componentCoverage]: sorted by component and runtime. *)
Definition coverage_less (a b : ComponentCoverage) : bool :=
  if negb (String.eqb (cc_Component a) (cc_Component b)) then String.ltb (cc_Component a) (cc_Component b)
  else String.ltb (cc_RuntimeID a) (cc_RuntimeID b).
Definition coverage_le (a b : ComponentCoverage) : Prop := coverage_less b a = false.
#[export] Instance coverage_le_dec : RelDecision coverage_le.
Proof. intros a b. unfold coverage_le. apply _. Defined.
Definition componentCoverage (a : taskArtifact) : list ComponentCoverage :=
  merge_sort coverage_le (map snd (map_to_list (ta_coverage a))).

(** What a run of the recorder is given: its options after [New], the resource
    source, the clock, the encoders and the open sample files. *)
Record Sampler (W : Type) := {
  sp_scope : string;
  sp_runID : string;
  sp_taskSet : gset string;
  sp_maxSamplesPerTask : Z;
  sp_maxFileBytes : Z;
  sp_requestTimeout : Z;
  sp_baselineGrace : Z;
  sp_Deadline : Ctx -> option Z;
  sp_Sample : Ctx -> M W (list ResourceReading + err);
  sp_marshal : ResourceSample -> bytes + err;
  sp_FormatV : float64 -> string;
  sp_formatArtifactTime : Z -> string;
  sp_Write : string -> bytes -> M W (Z * error)
}.
Arguments sp_scope {W}.
Arguments sp_runID {W}.
Arguments sp_taskSet {W}.
Arguments sp_maxSamplesPerTask {W}.
Arguments sp_maxFileBytes {W}.
Arguments sp_requestTimeout {W}.
Arguments sp_baselineGrace {W}.
Arguments sp_Deadline {W}.
Arguments sp_Sample {W}.
Arguments sp_marshal {W}.
Arguments sp_FormatV {W}.
Arguments sp_formatArtifactTime {W}.
Arguments sp_Write {W}.

(** The artifacts and baselines [sample] changes. *)
Record SampleState := {
  ss_artifacts : gmap string taskArtifact;
  ss_baselines : gmap string cpuBaseline
}.

(** [writeAll]: every round but the last writes at least one byte. *)
Fixpoint writeAll {W} (write : bytes -> M W (Z * error)) (fuel : nat) (content : bytes) : M W error :=
  match content with
  | [] => ret None
  | _ =>
      match fuel with
      | O => ret (Some (ENew "out of fuel"))
      | S fuel =>
          let* (written, e) := write content in
          match e with
          | Some _ => ret e
          | None =>
              if written <=? 0 then ret (Some (ESentinel ErrShortWrite))
              else writeAll write fuel (skipn (Z.to_nat written) content)
          end
      end
  end.

Section Sampling.
Context {W : Type} `{!Runtime W}.
Variable p : Sampler W.

(** [appendSample]. *)
Definition appendSample (sample : ResourceSample) (a : taskArtifact) : M W (error * taskArtifact) :=
  if ta_closed a || negb (ta_resources a)
  then ret (Some (ENew "monitor sample file is closed"), a)
  else if sp_maxSamplesPerTask p <=? ta_sequence a
  then ret (Some (ENew ("monitor sample count exceeds " +:+ itoa (sp_maxSamplesPerTask p))), a)
  else if bool_decide (ta_coverage a !! coverage_key sample = None) &&
          (maxCoverageEntries <=? size (ta_coverage a))%nat
  then ret (Some (ENew ("monitor component coverage exceeds " +:+
                        itoa (Z.of_nat maxCoverageEntries) +:+ " entries")), a)
  else
    let sample := set_rs_Sequence (ta_sequence a) sample in
    match sp_marshal p sample with
    | inr e => ret (Some (EWrap "encode monitor sample" e), a)
    | inl content =>
        let content := content ++ [NL] in
        let size := Z.of_nat (length content) in
        if sp_maxFileBytes p <? ta_bytesWritten a + size
        then ret (Some (ENew ("monitor sample file exceeds " +:+ itoa (sp_maxFileBytes p) +:+ " bytes")), a)
        else
          let* e := writeAll (sp_Write p (ta_taskID a)) (length content) content in
          match e with
          | Some e => ret (Some (EWrap "write monitor sample" e), a)
          | None => ret (None, appended sample size a)
          end
    end.

(** [sample]: one reading, then the loop over them. *)
Definition sample_of (second : Z) (cpu : float64) (r : ResourceReading) : ResourceSample :=
  {| rs_Scope := sp_scope p; rs_RunID := sp_runID p; rs_Sequence := 0; rs_Second := second;
     rs_Time := sp_formatArtifactTime p (rr_ObservedAt r); rs_TaskID := rr_TaskID r;
     rs_Component := rr_Component r; rs_RuntimeID := rr_RuntimeID r;
     rs_RuntimeName := rr_RuntimeName r; rs_CPUUsageNanoseconds := rr_CPUUsageNanoseconds r;
     rs_CPUPercent := cpu; rs_MemoryUsageBytes := rr_MemoryUsageBytes r;
     rs_MemoryLimitBytes := rr_MemoryLimitBytes r; rs_GPU := rr_GPU r |}.
Definition record_reading (second sampleTime : Z) (reading : ResourceReading) (st : SampleState) :
    M W (error * SampleState) :=
  let reading := if IsZero (rr_ObservedAt reading) then set_rr_ObservedAt sampleTime reading else reading in
  match validateReading (sp_scope p) (sp_runID p) (sp_taskSet p) reading with
  | Some e => ret (Some e, st)
  | None =>
      let (cpu, baselines) :=
        match rr_GPU reading with
        | Some _ => (inl f64_zero, ss_baselines st)
        | None => cpuPercent (sp_FormatV p) (reading_key reading) reading (ss_baselines st)
        end in
      let st := {| ss_artifacts := ss_artifacts st; ss_baselines := baselines |} in
      match cpu with
      | inr e => ret (Some e, st)
      | inl cpu =>
          match ss_artifacts st !! rr_TaskID reading with
          | None => ret (Some (ENew ("sampled unexpected task " +:+ quote (rr_TaskID reading))), st)
          | Some artifact =>
              let* (e, artifact) := appendSample (sample_of second cpu reading) artifact in
              ret (wrap ("record monitor sample for task " +:+ rr_TaskID reading) e,
                   {| ss_artifacts := <[rr_TaskID reading := artifact]> (ss_artifacts st);
                      ss_baselines := ss_baselines st |})
          end
      end
  end.
Fixpoint record_readings (second sampleTime : Z) (readings : list ResourceReading) (st : SampleState) :
    M W (error * SampleState) :=
  match readings with
  | [] => ret (None, st)
  | reading :: readings =>
      let* (e, st) := record_reading second sampleTime reading st in
      match e with
      | Some _ => ret (e, st)
      | None => record_readings second sampleTime readings st
      end
  end.

(** [requestContext] and [elapsedSeconds]. *)
Definition requestContext (parent : Ctx) (timeout : Z) : M W Ctx :=
  match sp_Deadline p parent with
  | Some deadline =>
      let* now := time_Now in
      ret (if time_Sub deadline now <=? timeout then WithCancel parent else WithTimeout parent timeout)
  | None => ret (WithTimeout parent timeout)
  end.
Definition elapsedSeconds (startTime sampleTime : Z) : Z :=
  let elapsed := time_Sub sampleTime startTime in
  if elapsed <=? 0 then 0 else elapsed / Second.

(** [sample], after the source answered. *)
Definition record_answer (second sampleTime : Z) (readings : list ResourceReading) (st : SampleState) :
    M W (error * SampleState) :=
  let readings := merge_sort reading_le readings in
  let* (e, st) := record_readings second sampleTime readings st in
  match e with
  | Some _ => ret (e, st)
  | None =>
      let present : gset string := list_to_set (map reading_key readings) in
      ret (None, {| ss_artifacts := ss_artifacts st;
                    ss_baselines := dropMissingBaselines (sp_baselineGrace p) present (ss_baselines st) |})
  end.
Definition sample (ctx : Ctx) (startTime sampleTime : Z) (st : SampleState) : M W (error * SampleState) :=
  let second := elapsedSeconds startTime sampleTime in
  let* requestCtx := requestContext ctx (sp_requestTimeout p) in
  let* readings := sp_Sample p requestCtx in
  match readings with
  | inr e => ret (Some e, st)
  | inl readings => record_answer second sampleTime readings st
  end.
End Sampling.

(** * Baselines over time *)

(** The baselines after further samples, of which [presents] are the runtimes seen. *)
Definition age_all (grace : Z) (presents : list (gset string)) (bs : gmap string cpuBaseline) :
    gmap string cpuBaseline :=
  foldl (fun bs present => dropMissingBaselines grace present bs) bs presents.
Definition age_one (grace : Z) (presents : list (gset string)) (key : string) (b : option cpuBaseline) :
    option cpuBaseline :=
  foldl (fun b present => b ≫= age_baseline grace present key) b presents.

Lemma age_all_lookup grace presents bs key :
  age_all grace presents bs !! key = age_one grace presents key (bs !! key).
Proof.
  revert bs. induction presents as [|present presents IH]; intros bs; [done|].
  unfold age_all, age_one in *. simpl. rewrite IH. unfold dropMissingBaselines.
  by rewrite map_lookup_imap.
Qed.

Lemma age_one_None grace presents key : age_one grace presents key None = None.
Proof. induction presents; [done|]. by unfold age_one in *. Qed.

(** A gap of [n] absences at the start of the samples. *)
Definition starts_absent (key : string) (n : Z) (presents : list (gset string)) : Prop :=
  exists gap post, presents = gap ++ post /\ Z.of_nat (length gap) = n /\
    Forall (fun present => key ∉ present) gap.
Definition long_gap (grace : Z) (key : string) (presents : list (gset string)) : Prop :=
  exists pre gap post, presents = pre ++ gap ++ post /\ grace < Z.of_nat (length gap) /\
    Forall (fun present => key ∉ present) gap.

Lemma long_gap_cons grace key present presents :
  0 <= grace ->
  long_gap grace key (present :: presents) <->
  long_gap grace key presents \/ (key ∉ present /\ exists n, grace < n + 1 /\ starts_absent key n presents).
Proof.
  intros Hg. split.
  - intros (pre & gap & post & Heq & Hlen & Hall). destruct pre as [|x pre]; simpl in Heq.
    + destruct gap as [|x gap]; [simpl in Hlen; lia|]. injection Heq as -> ->.
      right. apply Forall_cons in Hall as [Hx Hall]. split; [done|].
      exists (Z.of_nat (length gap)). simpl in Hlen. split; [lia|]. by exists gap, post.
    + injection Heq as -> ->. left. by exists pre, gap, post.
  - intros [(pre & gap & post & -> & Hlen & Hall)|(Hx & n & Hn & gap & post & -> & <- & Hall)].
    + by exists (present :: pre), gap, post.
    + exists [], (present :: gap), post. simpl. split; [done|]. split; [lia|]. by constructor.
Qed.

Lemma starts_absent_cons key n present presents :
  0 < n -> starts_absent key n (present :: presents) <->
  key ∉ present /\ starts_absent key (n - 1) presents.
Proof.
  intros Hn. split.
  - intros (gap & post & Heq & Hlen & Hall). destruct gap as [|x gap]; [simpl in Hlen; lia|].
    injection Heq as -> ->. apply Forall_cons in Hall as [Hx Hall]. split; [done|].
    exists gap, post. simpl in Hlen. split; [done|]. split; [lia|done].
  - intros (Hx & gap & post & -> & Hlen & Hall). exists (present :: gap), post. simpl.
    split; [done|]. split; [lia|]. by constructor.
Qed.

Lemma age_one_spec grace presents key b :
  0 <= cb_missed b <= grace ->
  (age_one grace presents key (Some b) = None <->
   long_gap grace key presents \/ starts_absent key (grace + 1 - cb_missed b) presents) /\
  (forall b', age_one grace presents key (Some b) = Some b' ->
   cb_usage b' = cb_usage b /\ cb_time b' = cb_time b).
Proof.
  revert b. induction presents as [|present presents IH]; intros b Hb.
  { split; [|by intros b' [= <-]]. split; [done|].
    intros [(pre & gap & post & Heq & Hlen & _)|(gap & post & Heq & Hlen & _)].
    - destruct pre, gap; try done. simpl in Hlen. lia.
    - destruct gap; [|done]. simpl in Hlen. lia. }
  change (age_one grace (present :: presents) key (Some b))
    with (age_one grace presents key (age_baseline grace present key b)).
  rewrite long_gap_cons, starts_absent_cons by lia. unfold age_baseline.
  case_bool_decide as Hin.
  - destruct (IH {| cb_usage := cb_usage b; cb_time := cb_time b; cb_missed := 0 |}) as [Hiff Hsame];
      [simpl; lia|]. split; [|done]. rewrite Hiff. simpl. split.
    + intros [Hgap|(gap & post & -> & Hlen & Hall)]; left; left; [done|].
      exists [], gap, post. split; [done|]. split; [lia|done].
    + intros [[Hgap|[Hnot _]]|[Hnot _]]; [by left|done|done].
  - destruct (Z.ltb_spec grace (cb_missed b + 1)) as [Hlt|Hle].
    + rewrite age_one_None. split; [|done]. split; [|done]. intros _. right. split; [done|].
      exists [], presents. split; [done|]. split; [simpl; lia|constructor].
    + destruct (IH {| cb_usage := cb_usage b; cb_time := cb_time b; cb_missed := cb_missed b + 1 |})
        as [Hiff Hsame]; [simpl; lia|]. split; [|done]. rewrite Hiff. simpl.
      replace (grace + 1 - cb_missed b - 1) with (grace + 1 - (cb_missed b + 1)) by lia. split.
      * intros [Hgap|Hs]; [by left; left|by right].
      * intros [[Hgap|(_ & n & Hn & gap & post & -> & <- & Hall)]|[_ Hs]]; [by left| |by right].
        right. exists (take (Z.to_nat (grace + 1 - (cb_missed b + 1))) gap),
          (drop (Z.to_nat (grace + 1 - (cb_missed b + 1))) gap ++ post).
        rewrite app_assoc, take_drop. split; [done|]. split; [rewrite length_take; lia|by apply Forall_take].
Qed.

(** A runtime's CPU baseline outlives its absence from the samples exactly as long
    as the source asked for: it is dropped when more consecutive samples than the grace
    period had no reading of it, and only then, and until then it is not altered, so
    the next reading's rate spans the whole gap. *)
Theorem monitor_baseline_grace grace key presents bs b :
  0 <= grace -> bs !! key = Some b -> cb_missed b = 0 ->
  (age_all grace presents bs !! key = None <-> long_gap grace key presents) /\
  (forall b', age_all grace presents bs !! key = Some b' ->
   cb_usage b' = cb_usage b /\ cb_time b' = cb_time b).
Proof.
  intros Hg Hkey Hmissed. rewrite age_all_lookup, Hkey.
  destruct (age_one_spec grace presents key b) as [Hiff Hsame]; [lia|]. split; [|done].
  rewrite Hiff, Hmissed. split; [|by left].
  intros [?|(gap & post & -> & Hlen & Hall)]; [done|]. exists [], gap, post. split; [done|]. split; [lia|done].
Qed.

(** * What is written *)

(** [Index] of artifacts.go. *)
Record Index := {
  ix_Scope : string;
  ix_Reason : string;
  ix_SchemaVersion : Z;
  ix_RunID : string;
  ix_TaskID : string;
  ix_Status : string;
  ix_Error : string;
  ix_StartedAt : string;
  ix_StoppedAt : string;
  ix_DurationNanoseconds : Z;
  ix_IntervalMilliseconds : Z;
  ix_SampleCount : Z;
  ix_ResourcesFile : string;
  ix_Components : list ComponentCoverage
}.

(** What the source answered, and a write to the file of a task with the number of
    bytes accepted; the recorder's other calls. *)
Inductive event :=
  | Answered (readings : list ResourceReading + err)
  | Wrote (task : string) (content : bytes) (written : Z) (e : error)
  | Created (path : string) (e : error)
  | Opened (task path : string) (e : error)
  | FileClosed (task : string) (e : error)
  | Removed (path : string) (e : error)
  | IndexWritten (path : string) (index : Index) (e : error)
  | SourceClosed (e : error).

(** The bytes a trace put into a task's file. *)
Definition accepted (task : string) (ev : event) : bytes :=
  match ev with
  | Wrote t content written _ => if String.eqb t task then firstn (Z.to_nat written) content else []
  | _ => []
  end.
Definition file_bytes (task : string) (evs : list event) : bytes := flat_map (accepted task) evs.

Definition traced_sampler {W} (p : Sampler W) : Sampler (W * list event) :=
  {| sp_scope := sp_scope p; sp_runID := sp_runID p; sp_taskSet := sp_taskSet p;
     sp_maxSamplesPerTask := sp_maxSamplesPerTask p; sp_maxFileBytes := sp_maxFileBytes p;
     sp_requestTimeout := sp_requestTimeout p; sp_baselineGrace := sp_baselineGrace p;
     sp_Deadline := sp_Deadline p; sp_Sample ctx := logged Answered (sp_Sample p ctx);
     sp_marshal := sp_marshal p; sp_FormatV := sp_FormatV p;
     sp_formatArtifactTime := sp_formatArtifactTime p;
     sp_Write task content := logged (fun out => Wrote task content out.1 out.2) (sp_Write p task content) |}.

(** The coverage of the samples with one key. *)
Definition coverage_of (samples : list ResourceSample) : option ComponentCoverage :=
  match samples with
  | [] => None
  | s :: _ =>
      Some {| cc_Component := rs_Component s; cc_RuntimeID := rs_RuntimeID s;
              cc_RuntimeName := rs_RuntimeName s; cc_SampleCount := Z.of_nat (length samples);
              cc_FirstSecond := rs_Second s;
              cc_LastSecond := from_option rs_Second 0 (last samples) |}
  end.
Definition with_key (key : string) (samples : list ResourceSample) : list ResourceSample :=
  filter (fun s => coverage_key s = key) samples.

(** An artifact describes its file: the samples in the order of their numbers, one
    line each, within the bounds, and what follows the last whole line. *)
Record artifact_ok {W} (p : Sampler W) (a : taskArtifact) (content : bytes)
    (samples : list ResourceSample) (tail : bytes) : Prop := {
  ao_sequence : ta_sequence a = Z.of_nat (length samples);
  ao_numbered : forall k s, samples !! k = Some s -> rs_Sequence s = Z.of_nat k;
  ao_content : exists lines, Forall2 (fun s line => sp_marshal p s = inl line) samples lines /\
    content = flat_map (fun line => line ++ [NL]) lines ++ tail;
  ao_bytes : ta_bytesWritten a + Z.of_nat (length tail) = Z.of_nat (length content);
  ao_file_bound : Z.of_nat (length content) <= sp_maxFileBytes p;
  ao_sample_bound : ta_sequence a <= sp_maxSamplesPerTask p;
  ao_coverage : forall key, ta_coverage a !! key = coverage_of (with_key key samples);
  ao_entries : (size (ta_coverage a) <= maxCoverageEntries)%nat
}.

Lemma file_bytes_app task a b : file_bytes task (a ++ b) = file_bytes task a ++ file_bytes task b.
Proof. apply flat_map_app. Qed.

Lemma cover_coverage s samples :
  coverage_of (samples ++ [s]) = Some (cover s (coverage_of samples)).
Proof.
  destruct samples as [|s0 samples]; [done|].
  assert (last (s0 :: samples ++ [s]) = Some s) as Hlast by apply (last_snoc s (s0 :: samples)).
  assert (Z.of_nat (length (s0 :: samples ++ [s])) = Z.of_nat (length (s0 :: samples)) + 1) as Hlen.
  { simpl. rewrite length_app. simpl. lia. }
  change ((s0 :: samples) ++ [s]) with (s0 :: samples ++ [s]). unfold coverage_of at 1.
  by rewrite Hlast, Hlen.
Qed.

(** The open file of an artifact, which samples do not change. *)
Definition file_of (a : taskArtifact) :=
  (ta_taskID a, ta_directory a, ta_resourcesPath a, ta_indexPath a, ta_resources a, ta_closed a).
Definition same_files (artifacts artifacts' : gmap string taskArtifact) : Prop :=
  forall task, file_of <$> artifacts' !! task = file_of <$> artifacts !! task.

(** The artifacts of a recorder describe their files; after a failed write the last
    line of a file may be cut. *)
Definition files_ok {W} (p : Sampler W) (artifacts : gmap string taskArtifact)
    (content : string -> bytes) (logs : string -> list ResourceSample) (whole : bool) : Prop :=
  forall task a, artifacts !! task = Some a ->
    ta_taskID a = task /\
    exists tail, artifact_ok p a (content task) (logs task) tail /\ (whole = true -> tail = []).

(** The sample recorded for a reading. *)
Definition sampled {W} (p : Sampler W) (second sampleTime : Z) (r : ResourceReading) (s : ResourceSample) :
    Prop :=
  exists cpu n, s = set_rs_Sequence n (sample_of p second cpu
    (if IsZero (rr_ObservedAt r) then set_rr_ObservedAt sampleTime r else r)).

Section Sampling_proofs.
Context {W : Type} `{!Runtime W}.
Variable p : Sampler W.
Let t := traced_sampler p.

(** A write puts a prefix into the file, the whole of it if no error is returned. *)
Lemma writeAll_emits fuel task content :
  (length content <= fuel)%nat ->
  emits (writeAll (sp_Write t task) fuel content) (fun e evs => exists rest,
    content = file_bytes task evs ++ rest /\ (e = None -> rest = []) /\
    (forall other, other <> task -> file_bytes other evs = [])).
Proof.
  revert content. induction fuel as [|fuel IH]; intros content Hlen.
  { destruct content as [|c content]; [|simpl in Hlen; lia]. apply emits_ret. by exists []. }
  cbn [writeAll]. destruct content as [|c content]; [apply emits_ret; by exists []|].
  set (whole := c :: content) in *. apply emits_call. intros [n e]. simpl.
  assert (forall other, other <> task -> String.eqb task other = false) as Hother.
  { intros other Hne. by apply String.eqb_neq. }
  destruct e as [e|].
  { apply emits_ret. exists (skipn (Z.to_nat n) whole). simpl.
    rewrite String.eqb_refl, app_nil_r, firstn_skipn. split_and!; [done|done|].
    intros other Hne. by rewrite app_nil_r, (Hother other Hne). }
  destruct (Z.leb_spec n 0) as [Hn|Hn].
  { apply emits_ret. exists (skipn (Z.to_nat n) whole). simpl.
    rewrite String.eqb_refl, app_nil_r, firstn_skipn. split_and!; [done|done|].
    intros other Hne. by rewrite app_nil_r, (Hother other Hne). }
  eapply emits_mono; [apply IH; rewrite length_skipn; unfold whole in *; simpl in *; lia|].
  intros e evs (rest & Hc & Hnone & Hoth). exists rest. simpl. rewrite String.eqb_refl.
  split_and!; [|done|].
  - by rewrite <- app_assoc, <- Hc, firstn_skipn.
  - intros other Hne. by rewrite (Hoth other Hne), (Hother other Hne).
Qed.

(** Appending a sample. *)
Lemma appended_ok a samples content s line :
  artifact_ok p a content samples [] ->
  sp_marshal p (set_rs_Sequence (ta_sequence a) s) = inl line ->
  ta_sequence a < sp_maxSamplesPerTask p ->
  ta_bytesWritten a + Z.of_nat (length (line ++ [NL])) <= sp_maxFileBytes p ->
  (ta_coverage a !! coverage_key s = None -> (size (ta_coverage a) < maxCoverageEntries)%nat) ->
  artifact_ok p (appended (set_rs_Sequence (ta_sequence a) s) (Z.of_nat (length (line ++ [NL]))) a)
    (content ++ line ++ [NL]) (samples ++ [set_rs_Sequence (ta_sequence a) s]) [].
Proof.
  intros [Hseq Hnum (lines & Hlines & Hc) Hb Hfb Hsb Hcov Hent] Hm Hmax Hsize Hroom.
  set (s' := set_rs_Sequence (ta_sequence a) s) in *.
  assert (coverage_key s' = coverage_key s) as Hkey by done.
  constructor; simpl.
  - rewrite length_app. simpl. lia.
  - intros k x Hk. apply lookup_snoc_Some in Hk as [[_ Hk]|[-> <-]]; [by apply Hnum|].
    unfold s'. by rewrite <- Hseq.
  - exists (lines ++ [line]). split; [by apply Forall2_app; [|constructor]|].
    rewrite Hc, flat_map_app. simpl. by rewrite !app_nil_r.
  - simpl in Hb. rewrite !length_app in *. simpl in *. lia.
  - simpl in Hb. rewrite !length_app in *. simpl in *. lia.
  - lia.
  - intros key. unfold with_key. rewrite filter_app, Hkey.
    destruct (decide (coverage_key s = key)) as [<-|Hne].
    + rewrite lookup_insert_eq, filter_cons_True by done.
      rewrite (cover_coverage s'). by rewrite Hcov.
    + rewrite lookup_insert_ne, filter_cons_False by done. by rewrite app_nil_r, Hcov.
  - rewrite <- Hkey in Hroom. destruct (ta_coverage a !! coverage_key s') eqn:Hl.
    + rewrite map_size_insert_Some by (by eexists). done.
    + rewrite map_size_insert_None by done. specialize (Hroom eq_refl). lia.
Qed.

(** What an append does: a refused sample changes nothing, a failed write leaves at
    most part of its line behind. *)
Definition append_post (s : ResourceSample) (a : taskArtifact) (samples : list ResourceSample)
    (content : bytes) (r : error * taskArtifact) (evs : list event) : Prop :=
  file_of r.2 = file_of a /\
  (forall other, other <> ta_taskID a -> file_bytes other evs = []) /\
  match r.1 with
  | None =>
      artifact_ok p r.2 (content ++ file_bytes (ta_taskID a) evs)
        (samples ++ [set_rs_Sequence (ta_sequence a) s]) []
  | Some _ => r.2 = a /\ exists tail,
      artifact_ok p r.2 (content ++ file_bytes (ta_taskID a) evs) samples tail
  end.

Lemma appendSample_emits s a samples content :
  artifact_ok p a content samples [] ->
  emits (appendSample t s a) (append_post s a samples content).
Proof.
  intros Hok. unfold appendSample.
  assert (forall e : err, emits (W := W) (ret (Some e, a)) (append_post s a samples content)) as Hrefuse.
  { intros e. apply emits_ret. split; [done|]. split; [done|]. split; [done|].
    exists []. simpl. by rewrite app_nil_r. }
  destruct (_ || _); [apply Hrefuse|]. destruct (Z.leb_spec (sp_maxSamplesPerTask t) (ta_sequence a)) as [|Hmax];
    [apply Hrefuse|].
  destruct (bool_decide _ && _) eqn:Hroom; [apply Hrefuse|].
  change (sp_marshal t) with (sp_marshal p). destruct (sp_marshal p _) as [line|e] eqn:Hm; [|apply Hrefuse].
  set (whole := line ++ [NL]).
  destruct (Z.ltb_spec (sp_maxFileBytes t) (ta_bytesWritten a + Z.of_nat (length whole))) as [|Hsize];
    [apply Hrefuse|].
  eapply emits_bind; [by apply writeAll_emits|]. intros e evs (rest & Hw & Hall & Hother).
  destruct e as [e|]; apply emits_ret; rewrite app_nil_r; unfold append_post; simpl.
  - split; [done|]. split; [done|]. split; [done|]. exists (file_bytes (ta_taskID a) evs).
    destruct Hok as [Hseq Hnum (lines & Hlines & Hc) Hb Hfb Hsb Hcov Hent]. constructor; try done.
    + exists lines. split; [done|]. by rewrite Hc, app_nil_r.
    + simpl in Hb. rewrite length_app. lia.
    + simpl in Hb. change (sp_maxFileBytes t) with (sp_maxFileBytes p) in Hsize.
      apply (f_equal length) in Hw. rewrite length_app in Hw |- *. lia.
  - split; [done|]. split; [done|]. rewrite (Hall eq_refl), app_nil_r in Hw. rewrite <- Hw.
    apply appended_ok; [done|done|done|done|]. intros Hl.
    apply andb_false_iff in Hroom as [Hroom|Hroom].
    + by rewrite bool_decide_eq_false in Hroom.
    + by apply Nat.leb_gt in Hroom.
Qed.

(** The readings recorded, up to the first that fails: each has its sample at the end
    of its own task's file. *)
Definition recorded (second sampleTime : Z) (readings : list ResourceReading)
    (logs : string -> list ResourceSample) (content : string -> bytes) (st : SampleState)
    (r : error * SampleState) (evs : list event) : Prop :=
  exists taken logs',
    taken `prefix_of` readings /\ (r.1 = None -> taken = readings) /\
    same_files (ss_artifacts st) (ss_artifacts r.2) /\
    files_ok p (ss_artifacts r.2) (fun task => content task ++ file_bytes task evs) logs' (is_nil r.1) /\
    forall task, exists new, logs' task = logs task ++ new /\
      Forall2 (sampled p second sampleTime) (filter (fun r => rr_TaskID r = task) taken) new.

Lemma files_ok_app_nil artifacts content logs whole whole' :
  files_ok p artifacts content logs whole -> (whole' = true -> whole = true) ->
  files_ok p artifacts (fun task => content task ++ []) logs whole'.
Proof.
  intros H Hw task a Ha. destruct (H task a Ha) as [Ht (tail & Hok & Htail)].
  split; [done|]. exists tail. rewrite app_nil_r. split; [done|]. intros Hx. by apply Htail, Hw.
Qed.

(** A reading that is refused changes no file. *)
Lemma refused_recorded second sampleTime reading logs content st st' e :
  files_ok p (ss_artifacts st) content logs true -> ss_artifacts st' = ss_artifacts st ->
  recorded second sampleTime [reading] logs content st (Some e, st') [].
Proof.
  intros Hok Hst. exists [], logs. split; [apply prefix_nil|]. split; [done|]. simpl. rewrite Hst.
  split; [done|]. split; [by eapply files_ok_app_nil|]. intros task. exists []. by rewrite app_nil_r.
Qed.

Lemma files_ok_insert artifacts content logs task a' evs new whole :
  files_ok p artifacts content logs true -> is_Some (artifacts !! task) -> ta_taskID a' = task ->
  (forall other, other <> task -> file_bytes other evs = []) ->
  (exists tail, artifact_ok p a' (content task ++ file_bytes task evs) (logs task ++ new) tail /\
    (whole = true -> tail = [])) ->
  files_ok p (<[task := a']> artifacts) (fun task => content task ++ file_bytes task evs)
    (fun x => if decide (x = task) then logs x ++ new else logs x) whole.
Proof.
  intros Hok _ Hid Hother Hnew x a Hx. apply lookup_insert_Some in Hx as [[<- <-]|[Hne Hx]].
  - split; [done|]. rewrite decide_True by done. done.
  - rewrite decide_False by done. destruct (Hok x a Hx) as [Ht (tail & Ha & Htail)]. split; [done|].
    exists tail. rewrite (Hother x) by done. rewrite app_nil_r. split; [done|]. intros _. by apply Htail.
Qed.

Lemma record_reading_emits second sampleTime reading st logs content :
  files_ok p (ss_artifacts st) content logs true ->
  emits (record_reading t second sampleTime reading st)
    (recorded second sampleTime [reading] logs content st).
Proof.
  intros Hok. unfold record_reading.
  set (reading' := if IsZero (rr_ObservedAt reading) then _ else reading).
  assert (rr_TaskID reading' = rr_TaskID reading) as Htask by (unfold reading'; by destruct (IsZero _)).
  destruct (validateReading _ _ _ _) as [e|]; [apply emits_ret; by apply refused_recorded|].
  destruct (match rr_GPU reading' with Some _ => _ | None => _ end) as [cpu baselines].
  destruct cpu as [cpu|e]; [|apply emits_ret; by apply refused_recorded]. simpl.
  destruct (ss_artifacts st !! rr_TaskID reading') as [a|] eqn:Ha;
    [|apply emits_ret; by apply refused_recorded].
  destruct (Hok _ _ Ha) as [Hid (tail & Haok & Htail)]. rewrite (Htail eq_refl) in Haok.
  eapply emits_bind; [by apply appendSample_emits|]. intros [e a'] evs (Hfile & Hother & Hpost).
  apply emits_ret. rewrite app_nil_r. rewrite Hid in Hother, Hpost. simpl in *.
  assert (same_files (ss_artifacts st) (<[rr_TaskID reading' := a']> (ss_artifacts st))) as Hdom.
  { intros task. destruct (decide (rr_TaskID reading' = task)) as [<-|Hne].
    - rewrite lookup_insert_eq, Ha. simpl. by rewrite Hfile.
    - by rewrite lookup_insert_ne. }
  assert (ta_taskID a' = rr_TaskID reading') as Hid' by (unfold file_of in Hfile; congruence).
  destruct e as [e|]; simpl.
  - destruct Hpost as [-> (tail' & Haok')].
    exists [], (fun x => if decide (x = rr_TaskID reading') then logs x ++ [] else logs x).
    split; [apply prefix_nil|]. split; [done|]. split; [done|]. split.
    + apply files_ok_insert; [done|by exists a|done|done|]. exists tail'. by rewrite app_nil_r.
    + intros task. exists []. rewrite app_nil_r. by destruct (decide _).
  - exists [reading], (fun x => if decide (x = rr_TaskID reading')
      then logs x ++ [set_rs_Sequence (ta_sequence a) (sample_of t second cpu reading')] else logs x).
    split; [done|]. split; [done|]. split; [done|]. split.
    + apply files_ok_insert; [done|by exists a|done|done|]. by exists [].
    + intros task. destruct (decide (task = rr_TaskID reading')) as [->|Hne].
      * exists [set_rs_Sequence (ta_sequence a) (sample_of t second cpu reading')]. split; [done|].
        rewrite filter_cons_True by done. constructor; [|constructor]. by exists cpu, (ta_sequence a).
      * exists []. rewrite app_nil_r. split; [done|]. rewrite filter_cons_False by (simpl; congruence). constructor.
Qed.

Lemma record_readings_emits second sampleTime readings st logs content :
  files_ok p (ss_artifacts st) content logs true ->
  emits (record_readings t second sampleTime readings st)
    (recorded second sampleTime readings logs content st).
Proof.
  revert st logs content. induction readings as [|reading readings IH]; intros st logs content Hok.
  { apply emits_ret. exists [], logs. split; [done|]. split; [done|]. split; [done|].
    split; [by eapply files_ok_app_nil|]. intros task. exists []. by rewrite app_nil_r. }
  cbn [record_readings]. eapply emits_bind; [by apply record_reading_emits|].
  intros [e st1] evs (taken & logs1 & Hpre & Hall & Hdom & Hok1 & Hnew). destruct e as [e|].
  - apply emits_ret. rewrite app_nil_r. exists taken, logs1. simpl in *. split_and!; try done.
    trans [reading]; [done|]. by exists readings.
  - rewrite (Hall eq_refl) in Hnew. eapply emits_mono; [by apply IH|].
    intros [e st2] evs2 (taken2 & logs2 & Hpre2 & Hall2 & Hdom2 & Hok2 & Hnew2). simpl in *.
    exists (reading :: taken2), logs2. split; [by apply prefix_cons|].
    split; [intros He; by rewrite Hall2|]. split; [intros task; simpl; by rewrite Hdom2|]. split.
    + intros task a Ha. destruct (Hok2 task a Ha) as [Hid Hx]. split; [done|].
      by rewrite file_bytes_app, app_assoc.
    + intros task. destruct (Hnew task) as (new1 & Hl1 & Hf1), (Hnew2 task) as (new2 & Hl2 & Hf2).
      exists (new1 ++ new2). split; [by rewrite Hl2, Hl1, app_assoc|].
      rewrite (filter_app _ [reading] taken2 : filter _ (reading :: taken2) = _). by apply Forall2_app.
Qed.

#[export] Instance reading_le_total : Total reading_le.
Proof.
  assert (forall a b, String.ltb a b = true -> String.ltb b a = false) as Hlt.
  { intros a b. unfold String.ltb. rewrite (String.compare_antisym b a). by destruct (a ?= b)%string. }
  intros a b. unfold reading_le, reading_less. rewrite !(String.eqb_sym (rr_TaskID b)), !(String.eqb_sym (rr_Component b)).
  destruct (negb (String.eqb (rr_TaskID a) (rr_TaskID b)));
    [destruct (String.ltb (rr_TaskID a) (rr_TaskID b)) eqn:H; [left; by apply Hlt|by right]|].
  destruct (negb (String.eqb (rr_Component a) (rr_Component b)));
    [destruct (String.ltb (rr_Component a) (rr_Component b)) eqn:H; [left; by apply Hlt|by right]|].
  destruct (String.ltb (rr_RuntimeID a) (rr_RuntimeID b)) eqn:H; [left; by apply Hlt|by right].
Qed.

(** What a sample does with the source's answer. *)
Definition sample_post (second sampleTime : Z) (logs : string -> list ResourceSample)
    (content : string -> bytes) (st : SampleState) (r : error * SampleState) (evs : list event) : Prop :=
  exists answer writes, evs = Answered answer :: writes /\
  match answer with
  | inr e => r = (Some e, st) /\ writes = []
  | inl given => exists readings, readings ≡ₚ given /\ Sorted reading_le readings /\
      recorded second sampleTime readings logs content st r evs
  end.

Lemma sample_answer_emits second sampleTime st logs content requestCtx :
  files_ok p (ss_artifacts st) content logs true ->
  emits (bind (sp_Sample t requestCtx) (fun readings =>
    match readings with
    | inr e => ret (Some e, st)
    | inl readings => record_answer t second sampleTime readings st
    end)) (sample_post second sampleTime logs content st).
Proof.
  intros Hok. apply emits_call. intros [given|e].
  - unfold record_answer. eapply emits_bind; [by apply record_readings_emits|].
    intros [e st'] evs Hrec.
    assert (forall st'', ss_artifacts st'' = ss_artifacts st' ->
      sample_post second sampleTime logs content st (e, st'') (Answered (inl given) :: evs)) as Hpost.
    { intros st'' Hst. exists (inl given), evs. split; [done|].
      assert (recorded second sampleTime (merge_sort reading_le given) logs content st (e, st'') evs)
        by (unfold recorded; simpl; by rewrite Hst). exists (merge_sort reading_le given).
      split; [apply merge_sort_Permutation|]. split; [apply Sorted_merge_sort, _|done]. }
    destruct e as [e|]; apply emits_ret; rewrite app_nil_r; by apply Hpost.
  - apply emits_ret. by exists (inr e), [].
Qed.

Lemma sample_emits ctx startTime sampleTime st logs content :
  files_ok p (ss_artifacts st) content logs true ->
  emits (sample t ctx startTime sampleTime st)
    (sample_post (elapsedSeconds startTime sampleTime) sampleTime logs content st).
Proof.
  intros Hok. unfold sample, requestContext.
  destruct (sp_Deadline t ctx); [apply emits_flatten, emits_read; intros now|]; apply emits_bind_ret;
    by apply sample_answer_emits.
Qed.

(** Whatever the source answers and however writes fail or fall short, one sample
    keeps every task's file exactly what its artifact says: consecutively numbered
    whole lines within the bounds on samples, bytes and components, with the counts
    and the first and last second of every component.  A sample that succeeds has one
    line for each reading it was given, in the order of component and runtime; one
    that fails has the lines of a prefix of them, and at most part of one more. *)
Theorem monitor_sample_files ctx startTime sampleTime st logs content :
  files_ok p (ss_artifacts st) content logs true ->
  emits (sample t ctx startTime sampleTime st)
    (sample_post (elapsedSeconds startTime sampleTime) sampleTime logs content st).
Proof. apply sample_emits. Qed.

(** The calls a sample makes. *)
Definition sampling_event (ev : event) : Prop :=
  match ev with Answered _ | Wrote _ _ _ _ => True | _ => False end.

Lemma writeAll_events task fuel content :
  emits (writeAll (sp_Write t task) fuel content) (fun _ evs => Forall sampling_event evs).
Proof.
  revert content. induction fuel as [|fuel IH]; intros content; destruct content as [|c content];
    try (apply emits_ret; constructor).
  cbn [writeAll]. apply emits_call. intros [n e]. destruct e as [e|]; [apply emits_ret; by repeat constructor|].
  destruct (n <=? 0); [apply emits_ret; by repeat constructor|].
  eapply emits_mono; [apply IH|]. intros e evs Hev. by constructor.
Qed.

Lemma record_reading_events second sampleTime reading st :
  emits (record_reading t second sampleTime reading st) (fun _ evs => Forall sampling_event evs).
Proof.
  unfold record_reading.
  set (reading' := if IsZero (rr_ObservedAt reading) then _ else reading).
  destruct (validateReading _ _ _ _); [apply emits_ret; constructor|].
  destruct (match rr_GPU reading' with Some _ => _ | None => _ end) as [[cpu|e] bs];
    [|apply emits_ret; constructor].
  destruct (ss_artifacts _ !! _) as [a|]; [|apply emits_ret; constructor].
  eapply (emits_bind _ _ (fun _ evs => Forall sampling_event evs)).
  - unfold appendSample.
    repeat first [apply emits_ret; constructor | match goal with |- emits (if ?x then _ else _) _ => destruct x end].
    destruct (sp_marshal t _) as [content|e]; [|apply emits_ret; constructor].
    destruct (_ <? _); [apply emits_ret; constructor|].
    eapply emits_bind; [apply writeAll_events|]. intros [e|] evs Hev; apply emits_ret; by rewrite app_nil_r.
  - intros [e a'] evs Hev. apply emits_ret. by rewrite app_nil_r.
Qed.

Lemma sample_events ctx startTime sampleTime st :
  emits (sample t ctx startTime sampleTime st) (fun _ evs => Forall sampling_event evs).
Proof.
  assert (forall second readings st, emits (record_readings t second sampleTime readings st)
    (fun _ evs => Forall sampling_event evs)) as Hall.
  { intros second readings. induction readings as [|reading readings IH]; intros st';
      [apply emits_ret; constructor|]. cbn [record_readings].
    eapply emits_bind; [apply record_reading_events|]. intros [[e|] st1] evs Hev.
    - apply emits_ret. by rewrite app_nil_r.
    - eapply emits_mono; [apply IH|]. intros ? evs' Hev'. by apply Forall_app. }
  unfold sample. eapply (emits_bind _ _ (fun _ evs => evs = [])).
  { unfold requestContext. destruct (sp_Deadline t ctx); [apply emits_read; intros now|]; by apply emits_ret. }
  intros requestCtx evs ->. apply emits_call. intros [readings|e]; [|apply emits_ret; by repeat constructor].
  unfold record_answer. eapply emits_bind; [apply Hall|].
  intros [[e|] st1] evs Hev; apply emits_ret; rewrite app_nil_r; by constructor.
Qed.

(** An error a write or the encoder gives is not the given sentinel. *)
Definition never_gives (target : sentinel) : Prop :=
  (forall task content w, error_Is (sp_Write p task content w).1.2 target = false) /\
  (forall s e, sp_marshal p s = inr e -> errors_Is e target = false).

Lemma writeAll_never target task fuel content :
  never_gives target -> target <> ErrShortWrite ->
  emits (writeAll (sp_Write t task) fuel content) (fun e _ => error_Is e target = false).
Proof.
  intros [Hw _] Hs. revert content.
  induction fuel as [|fuel IH]; intros content; destruct content as [|c content]; try by apply emits_ret.
  cbn [writeAll]. apply (emits_call_such _ _ (fun out => error_Is out.2 target = false)); [intros w; apply Hw|].
  intros [n e] He. destruct e as [e|]; [by apply emits_ret|].
  destruct (n <=? 0); [|apply IH]. apply emits_ret. simpl. by rewrite bool_decide_eq_false_2.
Qed.

(** A refusal is an error of its own. *)
Definition plain (e : error) : Prop := match e with Some (ENew _) | None => True | _ => False end.
Lemma plain_seq a b : plain a -> plain b -> plain (a >>? b).
Proof. by destruct a as [[]|]. Qed.
Lemma plain_refuse (b : bool) text : plain (refuse_if b with text).
Proof. by destruct b. Qed.
Lemma plain_Is e target : plain e -> error_Is e target = false.
Proof. by destruct e as [[]|]. Qed.

Lemma monitor_validateIdentity_plain kind value : plain (monitor_validateIdentity kind value).
Proof. apply plain_seq; apply plain_refuse. Qed.

Lemma validateReading_plain scope runID taskSet reading : plain (validateReading scope runID taskSet reading).
Proof.
  unfold validateReading. repeat apply plain_seq; try apply plain_refuse; try apply monitor_validateIdentity_plain.
  destruct (rr_GPU reading); [|done]. unfold validate_gpu. repeat apply plain_seq; apply plain_refuse.
Qed.

Lemma record_reading_never target second sampleTime reading st :
  never_gives target -> target <> ErrShortWrite ->
  emits (record_reading t second sampleTime reading st) (fun out _ => error_Is out.1 target = false).
Proof.
  intros Hnever Hs. unfold record_reading.
  set (reading' := if IsZero (rr_ObservedAt reading) then _ else reading).
  pose proof (validateReading_plain (sp_scope t) (sp_runID t) (sp_taskSet t) reading') as Hplain.
  destruct (validateReading _ _ _ _); [apply emits_ret; by apply plain_Is|].
  destruct (match rr_GPU reading' with Some _ => _ | None => _ end) as [cpu bs] eqn:Hcpu.
  destruct cpu as [cpu|e].
  2: { apply emits_ret. apply plain_Is. destruct (rr_GPU reading'); [done|]. unfold cpuPercent in Hcpu.
       repeat case_match; by simplify_eq/=. }
  destruct (ss_artifacts _ !! _) as [a|]; [|by apply emits_ret].
  apply (emits_bind _ _ (fun out _ => error_Is out.1 target = false)).
  - unfold appendSample.
    repeat first [by apply emits_ret | match goal with |- emits (if ?x then _ else _) _ => destruct x end].
    destruct (sp_marshal t _) as [content|e] eqn:Hm; [|apply emits_ret; simpl; by eapply (proj2 Hnever)].
    destruct (_ <? _); [by apply emits_ret|].
    eapply emits_bind; [by apply writeAll_never|]. intros [e|] evs He; apply emits_ret; done.
  - intros [e a'] evs He. apply emits_ret. by destruct e.
Qed.

(** A sample fails with such a sentinel only if the source does. *)
Lemma sample_never target ctx startTime sampleTime st :
  never_gives target -> target <> ErrShortWrite ->
  emits (sample t ctx startTime sampleTime st) (fun out evs =>
    error_Is out.1 target = true -> exists e, evs = [Answered (inr e)] /\ out = (Some e, st)).
Proof.
  intros Hnever Hs.
  assert (forall second readings st, emits (record_readings t second sampleTime readings st)
    (fun out _ => error_Is out.1 target = false)) as Hall.
  { intros second readings. induction readings as [|reading readings IH]; intros st'; [by apply emits_ret|].
    cbn [record_readings]. eapply emits_bind; [by apply record_reading_never|].
    intros [[e|] st1] evs He; [by apply emits_ret|]. eapply emits_mono; [apply IH|]. done. }
  unfold sample. eapply (emits_bind _ _ (fun _ evs => evs = [])).
  { unfold requestContext. destruct (sp_Deadline t ctx); [apply emits_read; intros now|]; by apply emits_ret. }
  intros requestCtx evs ->. apply emits_call. intros [readings|e]; [|apply emits_ret; by exists e].
  unfold record_answer. eapply emits_bind; [apply Hall|].
  intros [[e|] st1] evs He; apply emits_ret; simpl in *; congruence.
Qed.
End Sampling_proofs.

Module SamplerDemo.
Definition no_runtime : Runtime unit := {| time_Now := ret 5; ctx_Err _ := ret None |}.
#[export] Existing Instance no_runtime.
Definition reading : ResourceReading :=
  {| rr_Scope := "task"; rr_RunID := "r"; rr_TaskID := "t"; rr_Component := "sandbox";
     rr_RuntimeID := "c1"; rr_RuntimeName := "sandbox-1"; rr_ObservedAt := 0;
     rr_CPUUsageNanoseconds := 7; rr_MemoryUsageBytes := 3; rr_MemoryLimitBytes := 4; rr_GPU := None |}.
Definition sampler : Sampler unit :=
  {| sp_scope := "task"; sp_runID := "r"; sp_taskSet := {["t"%string]}; sp_maxSamplesPerTask := 10;
     sp_maxFileBytes := 4096; sp_requestTimeout := 5; sp_baselineGrace := 1; sp_Deadline _ := None;
     sp_Sample _ := ret (inl [reading]); sp_marshal _ := inl (to_bytes "sample");
     sp_FormatV _ := ""%string; sp_formatArtifactTime _ := ""%string;
     sp_Write _ content := ret (Z.of_nat (length content), None) |}.
Definition artifact : taskArtifact :=
  {| ta_taskID := "t"; ta_directory := "/out/t/monitor"; ta_resourcesPath := "/out/t/monitor/resources.jsonl";
     ta_indexPath := "/out/t/monitor/index.json"; ta_resources := true; ta_sequence := 0;
     ta_bytesWritten := 0; ta_coverage := ∅; ta_closed := false |}.
Definition state : SampleState := {| ss_artifacts := {["t"%string := artifact]}; ss_baselines := ∅ |}.
Definition run := sample (traced_sampler sampler) Background 5 (5 + 2 * Second) state (tt, []).
Definition baselines : gmap string cpuBaseline := {["k"%string := baseline_of reading]}.
End SamplerDemo.

Lemma monitor_sample_files_witness :
  sample_post SamplerDemo.sampler 2 (5 + 2 * Second) (fun _ => []) (fun _ => []) SamplerDemo.state
    SamplerDemo.run.1 SamplerDemo.run.2.2 /\
  file_bytes "t" SamplerDemo.run.2.2 = to_bytes ("sample" +:+ nl).
Proof.
  split; [|by vm_compute].
  assert (files_ok SamplerDemo.sampler (ss_artifacts SamplerDemo.state) (fun _ => []) (fun _ => []) true) as Hok.
  { intros task a Ha. simpl in Ha. apply lookup_singleton_Some in Ha as [<- <-]. split; [done|]. exists [].
    split; [|done]. constructor; simpl; try done; [by exists []|rewrite map_size_empty; unfold maxCoverageEntries; lia]. }
  exact (emits_run _ _ tt (monitor_sample_files SamplerDemo.sampler Background 5 (5 + 2 * Second)
    SamplerDemo.state _ _ Hok)).
Defined.

Lemma monitor_baseline_grace_witness :
  age_all 1 [∅] SamplerDemo.baselines !! "k"%string <> None /\
  age_all 1 [∅; ∅] SamplerDemo.baselines !! "k"%string = None.
Proof.
  split; [by vm_compute|].
  apply (monitor_baseline_grace 1 "k" [∅; ∅] SamplerDemo.baselines (baseline_of SamplerDemo.reading));
    [lia|by vm_compute|by vm_compute|].
  exists [], [∅; ∅], []. split; [done|]. split; [simpl; lia|]. repeat constructor; apply not_elem_of_empty.
Defined.
