(* ===== verification/DockerResources.v ===== *)
(** The readings of Docker containers ([pkg/deployment/docker], resources.go): the options
    of a source, the discovery of the running containers of a run, and the reading of one.
    The last part shows what every reading of a sample is about. *)

From stdpp Require Import sorting.
From S2P Require Import Prelude Utf8 Trace Paths Core Redaction Sandbox Deployments HarnessRuntime Docker DockerExec Monitor.

(** * The source *)

(** [ResourceOptions], and [DockerResourceSource] without its client. *)
Record ResourceOptions := { ro_Scope : string; ro_RunID : string; ro_TaskIDs : list string; ro_DockerSocket : string }.
Record ResourceSource := { so_scope : string; so_runID : string; so_tasks : gset string }.
Fixpoint select_tasks (tasks : gset string) (taskIDs : list string) : gset string + err :=
  match taskIDs with
  | [] => inl tasks
  | taskID :: taskIDs =>
      match docker_validateIdentity "task" taskID with
      | Some e => inr e
      | None =>
          if bool_decide (taskID ∈ tasks) then inr (ENew ("Docker resource task ID " +:+ quote taskID +:+ " is repeated"))
          else select_tasks ({[taskID]} ∪ tasks) taskIDs
      end
  end.
Definition defaultDockerSocket : string := "/var/run/docker.sock".
Definition has_scheme (socket : string) : bool := Contains (to_bytes socket) (to_bytes "://").
(** The host a client is made for; [Abs] is [filepath.Abs], [client_New] is [client.New]. *)
Definition resource_host (Abs : string -> string + err) (socket : string) : string + err :=
  let socket := if String.eqb socket "" then defaultDockerSocket else socket in
  if has_scheme socket then inl socket
  else match Abs socket with
       | inr e => inr (EWrap "resolve Docker resource socket" e)
       | inl absolute => inl ("unix://" +:+ absolute)%string
       end.
Definition NewResourceSource (Abs : string -> string + err) (client_New : string -> error) (o : ResourceOptions) :
    ResourceSource + err :=
  let scope := if String.eqb (ro_Scope o) "" then "task"%string else ro_Scope o in
  match docker_validateIdentity "run" (ro_RunID o) >>?
        (refuse_if negb (String.eqb scope "task") && negb (String.eqb scope "run") with "invalid Docker resource scope") >>?
        (refuse_if String.eqb scope "run" && negb (bool_decide (ro_TaskIDs o = [])) with "run resources cannot select task IDs") >>?
        (refuse_if String.eqb scope "task" && bool_decide (ro_TaskIDs o = [])
           with "Docker resource source requires at least one task ID") with
  | Some e => inr e
  | None =>
      match select_tasks ∅ (ro_TaskIDs o) with
      | inr e => inr e
      | inl tasks =>
          match resource_host Abs (ro_DockerSocket o) with
          | inr e => inr e
          | inl host =>
              match client_New host with
              | Some e => inr (EWrap "create Docker resource client" e)
              | None => inl {| so_scope := scope; so_runID := ro_RunID o; so_tasks := tasks |}
              end
          end
      end
  end.

(** * Discovery *)

(** [container.Summary], the parts of [container.StatsResponse] that are read (a zero
    [Read] is [time.Time]'s zero), and the client. The counters are [uint64]. *)
Record Summary := { su_ID : string; su_Names : list string; su_Labels : gmap string string; su_State : string }.
Record Stats := { sx_Read : Z; sx_TotalUsage : Z; sx_MemoryUsage : Z; sx_MemoryLimit : Z }.
Class ResourceAPI (W : Type) := {
  ContainerList : Ctx -> list string -> M W (list Summary + err);      (* label filters *)
  ResourceInspect : Ctx -> string -> M W (InspectResponse + err);
  ContainerStats : Ctx -> string -> M W ((Stats + err) + err)          (* the decoded body *)
}.
Record resourceRuntime := { ru_id : string; ru_name : string; ru_taskID : string; ru_component : string }.

Definition StateRunning : string := "running".
Definition label_of (labels : gmap string string) (key : string) : string := default ""%string (labels !! key).
Definition resourceComponent (component : string) : option string :=
  if one_of component ["sandbox"; "evaluation-sandbox"; "harness"; "bridge"] then Some component else None.
Definition validateResourceLabels (labels : gmap string string) (runID : string) : error :=
  refuse_if negb (String.eqb (label_of labels "aries.managed") "true") || negb (String.eqb (label_of labels "aries.run") runID)
    with "wrong ARIES ownership labels".
Definition validateResourceInspection (inspection : InspectResponse) (id name : string) (labels : gmap string string)
    (runID : string) : error :=
  if negb (String.eqb (in_ID inspection) id) || negb (String.eqb (in_Name inspection) ("/" +:+ name))
  then Some (ENew "identity differs from the container list record")
  else match in_Config inspection with
  | None => Some (ENew "container configuration is absent")
  | Some config =>
      validateResourceLabels (cc_Labels config) runID >>?
      first_error (fun key =>
        refuse_if negb (String.eqb (label_of (cc_Labels config) key) (label_of labels key))
          with ("label " +:+ quote key +:+ " differs from the container list record"))
        ["aries.managed"; "aries.run"; "aries.task"; "aries.kind"; "aries.component"]%string >>?
      match in_State inspection with
      | None => Some (ENew "container state is absent")
      | Some state =>
          if negb (st_Running state) || negb (String.eqb (st_Status state) StateRunning)
          then Some (ESentinel ErrResourceRuntimeGone) else None
      end
  end.

(** The order of the discovered runtimes. *)
Definition runtime_less (a b : resourceRuntime) : bool :=
  if negb (String.eqb (ru_taskID a) (ru_taskID b)) then String.ltb (ru_taskID a) (ru_taskID b)
  else if negb (String.eqb (ru_component a) (ru_component b)) then String.ltb (ru_component a) (ru_component b)
  else String.ltb (ru_id a) (ru_id b).
Definition runtime_le (a b : resourceRuntime) : Prop := runtime_less b a = false.
#[export] Instance runtime_le_dec : RelDecision runtime_le.
Proof. intros a b. unfold runtime_le. apply _. Defined.

Section Sample.
Context {W : Type} `{!ResourceAPI W}.
Variable source : ResourceSource.

(** One record of the list: whether it is one the source samples. *)
Definition selected (summary : Summary) : option string :=
  let taskID := label_of (su_Labels summary) "aries.task" in
  match resourceComponent (label_of (su_Labels summary) "aries.component") with
  | None => None
  | Some component =>
      let chosen :=
        if String.eqb (so_scope source) "run"
        then String.eqb taskID "" && String.eqb component "bridge" &&
             String.eqb (label_of (su_Labels summary) "aries.kind") "tool-bridge"
        else if String.eqb component "bridge" then false
        else bool_decide (taskID ∈ so_tasks source) in
      if chosen && String.eqb (su_State summary) StateRunning then Some component else None
  end.
Definition listed_name (summary : Summary) : option string :=
  match su_Names summary with
  | [name] =>
      match CutPrefix name "/" with
      | Some name => if String.eqb (su_ID summary) "" || String.eqb name "" then None else Some name
      | None => None
      end
  | _ => None
  end.
Definition record_text (index : Z) : string := "Docker resource list record " +:+ itoa index.
Fixpoint discover_records (ctx : Ctx) (index : Z) (seen : gset string) (items : list Summary) :
    M W (list resourceRuntime + err) :=
  match items with
  | [] => ret (inl [])
  | summary :: items =>
      let skip := discover_records ctx (index + 1) seen items in
      match validateResourceLabels (su_Labels summary) (so_runID source) with
      | Some e => ret (inr (EWrap (record_text index) e))
      | None =>
          match selected summary with
          | None => skip
          | Some component =>
              match listed_name summary with
              | None => ret (inr (ENew (record_text index +:+ " has an invalid identity")))
              | Some name =>
                  if bool_decide (su_ID summary ∈ seen)
                  then ret (inr (ENew ("Docker resource list repeats ID " +:+ su_ID summary)))
                  else
                    let* inspection := ResourceInspect ctx (su_ID summary) in
                    match inspection with
                    | inr e =>
                        if IsNotFound e then skip
                        else ret (inr (EWrap ("inspect Docker resource runtime " +:+ su_ID summary) e))
                    | inl inspection =>
                        match validateResourceInspection inspection (su_ID summary) name (su_Labels summary) (so_runID source) with
                        | Some e =>
                            if errors_Is e ErrResourceRuntimeGone then skip
                            else ret (inr (EWrap ("validate Docker resource runtime " +:+ su_ID summary) e))
                        | None =>
                            let* rest := discover_records ctx (index + 1) ({[su_ID summary]} ∪ seen) items in
                            ret (match rest with
                                 | inr e => inr e
                                 | inl rest =>
                                     inl ({| ru_id := su_ID summary; ru_name := name;
                                             ru_taskID := label_of (su_Labels summary) "aries.task";
                                             ru_component := component |} :: rest)
                                 end)
                        end
                    end
              end
          end
      end
  end.
Definition discover (ctx : Ctx) : M W (list resourceRuntime + err) :=
  let* result := ContainerList ctx ["aries.managed=true"; "aries.run=" +:+ so_runID source]%string in
  match result with
  | inr e => ret (inr (EWrap "list Docker resource runtimes" e))
  | inl items =>
      let* runtimes := discover_records ctx 0 ∅ items in
      ret (match runtimes with inr e => inr e | inl runtimes => inl (merge_sort runtime_le runtimes) end)
  end.

(** * Readings *)

Definition reading_of (runtime : resourceRuntime) (document : Stats) : ResourceReading :=
  {| rr_Scope := so_scope source; rr_RunID := so_runID source; rr_TaskID := ru_taskID runtime;
     rr_Component := ru_component runtime; rr_RuntimeID := ru_id runtime; rr_RuntimeName := ru_name runtime;
     rr_ObservedAt := sx_Read document; rr_CPUUsageNanoseconds := sx_TotalUsage document;
     rr_MemoryUsageBytes := sx_MemoryUsage document; rr_MemoryLimitBytes := sx_MemoryLimit document; rr_GPU := None |}.
Definition gone : ResourceReading + err := inr (ESentinel ErrResourceRuntimeGone).
(** An empty answer: a runtime that has stopped meanwhile, or a failure. *)
Definition recheck (ctx : Ctx) (id : string) : M W (ResourceReading + err) :=
  let invalid := ENew ("Docker resource stats for " +:+ id +:+ " omit observation time") in
  let* inspection := ResourceInspect ctx id in
  ret (match inspection with
       | inr e =>
           if IsNotFound e then gone
           else inr (EJoin [invalid; EWrap ("recheck Docker resource runtime " +:+ id) e])
       | inl inspection =>
           match in_State inspection with
           | Some state => if String.eqb (in_ID inspection) id && negb (st_Running state) then gone else inr invalid
           | None => inr invalid
           end
       end).
Definition read (ctx : Ctx) (runtime : resourceRuntime) : M W (ResourceReading + err) :=
  let* result := ContainerStats ctx (ru_id runtime) in
  match result with
  | inr e =>
      ret (if IsNotFound e then gone else inr (EWrap ("read Docker resource stats for " +:+ ru_id runtime) e))
  | inl (inr e) => ret (inr (EWrap ("decode Docker resource stats for " +:+ ru_id runtime) e))
  | inl (inl document) =>
      if IsZero (sx_Read document) then recheck ctx (ru_id runtime)
      else if (sx_MemoryUsage document =? 0) && (sx_MemoryLimit document =? 0) then ret gone
      else ret (inl (reading_of runtime document))
  end.
Fixpoint read_all (ctx : Ctx) (runtimes : list resourceRuntime) : M W (list ResourceReading + err) :=
  match runtimes with
  | [] => ret (inl [])
  | runtime :: runtimes =>
      let* reading := read ctx runtime in
      match reading with
      | inr e => if errors_Is e ErrResourceRuntimeGone then read_all ctx runtimes else ret (inr e)
      | inl reading =>
          let* rest := read_all ctx runtimes in
          ret (match rest with inr e => inr e | inl rest => inl (reading :: rest) end)
      end
  end.
Definition Sample (ctx : Ctx) : M W (list ResourceReading + err) :=
  let* runtimes := discover ctx in
  match runtimes with inr e => ret (inr e) | inl runtimes => read_all ctx runtimes end.
End Sample.

(** * What a sample shows *)

Inductive resource_event :=
  | RInspect (id : string) (answer : InspectResponse + err)
  | RStats (id : string) (answer : (Stats + err) + err).
#[export] Instance traced_resources {W} `{!ResourceAPI W} : ResourceAPI (W * list resource_event) := {|
  ContainerList ctx filters := silent (ContainerList ctx filters);
  ResourceInspect ctx id := logged (RInspect id) (ResourceInspect ctx id);
  ContainerStats ctx id := logged (RStats id) (ContainerStats ctx id)
|}.

(** A runtime that the source is for: of a selected task, or the run's bridge. *)
Definition in_scope (source : ResourceSource) (taskID component : string) : Prop :=
  if String.eqb (so_scope source) "run" then taskID = ""%string /\ component = "bridge"%string
  else taskID ∈ so_tasks source /\ component ∈ ["sandbox"; "evaluation-sandbox"; "harness"]%string.
(** An inspection that showed it running, under the labels of the run. *)
Definition shown_running (source : ResourceSource) (r : resourceRuntime) (evs : list resource_event) : Prop :=
  exists info config, RInspect (ru_id r) (inl info) ∈ evs /\ in_Config info = Some config /\
    in_ID info = ru_id r /\ in_Name info = ("/" +:+ ru_name r)%string /\ is_running info = true /\
    label_of (cc_Labels config) "aries.managed" = "true"%string /\ label_of (cc_Labels config) "aries.run" = so_runID source /\
    label_of (cc_Labels config) "aries.task" = ru_taskID r /\ label_of (cc_Labels config) "aries.component" = ru_component r.
Definition runtime_known (source : ResourceSource) (evs : list resource_event) (r : resourceRuntime) : Prop :=
  in_scope source (ru_taskID r) (ru_component r) /\ shown_running source r evs.

Lemma shown_running_mono source r evs evs' : evs ⊆ evs' -> shown_running source r evs -> shown_running source r evs'.
Proof. intros Hs (info & config & H & Hr). exists info, config. split; [by apply Hs|done]. Qed.
Lemma known_mono source evs evs' rs : evs ⊆ evs' -> Forall (runtime_known source evs) rs -> Forall (runtime_known source evs') rs.
Proof. intros Hs H. eapply Forall_impl; [exact H|]. intros r [H1 H2]. split; [done|]. by eapply shown_running_mono. Qed.

Lemma selected_scope source summary component : selected source summary = Some component ->
  in_scope source (label_of (su_Labels summary) "aries.task") component /\
  label_of (su_Labels summary) "aries.component" = component.
Proof.
  unfold selected, in_scope, resourceComponent. cbv zeta. destruct (one_of _ _) eqn:Ho; [|done].
  set (component' := label_of _ "aries.component") in *.
  destruct (_ && String.eqb (su_State summary) StateRunning) eqn:Hc; [|done]. intros [= <-]. split; [|done].
  apply andb_true_iff in Hc as [Hc _]. destruct (String.eqb (so_scope source) "run").
  - rewrite !andb_true_iff, !String.eqb_eq in Hc. tauto.
  - destruct (String.eqb_spec component' "bridge") as [Hb|Hb]; [done|]. apply bool_decide_eq_true in Hc. split; [done|].
    unfold one_of in Ho. simpl in Ho. rewrite !orb_true_iff, !String.eqb_eq in Ho. rewrite !elem_of_cons.
    destruct Ho as [?|[?|[?|[?|?]]]]; auto; done.
Qed.
Lemma inspection_shown runID inspection id name labels : validateResourceInspection inspection id name labels runID = None ->
  exists config, in_Config inspection = Some config /\ in_ID inspection = id /\ in_Name inspection = ("/" +:+ name)%string /\
    is_running inspection = true /\ label_of (cc_Labels config) "aries.managed" = "true"%string /\
    label_of (cc_Labels config) "aries.run" = runID /\
    label_of (cc_Labels config) "aries.task" = label_of labels "aries.task" /\
    label_of (cc_Labels config) "aries.component" = label_of labels "aries.component".
Proof.
  unfold validateResourceInspection. destruct (_ || _) eqn:Hi; [done|]. destruct (in_Config inspection) as [config|]; [|done].
  rewrite !seq_error_nil, first_error_nil. unfold validateResourceLabels. rewrite refuse_if_nil, orb_false_iff, !negb_false_iff, !String.eqb_eq.
  intros ((H1 & H2) & Hl & Hs). rewrite orb_false_iff, !negb_false_iff, !String.eqb_eq in Hi. destruct Hi as [Hid Hname].
  assert (forall key, key ∈ ["aries.managed"; "aries.run"; "aries.task"; "aries.kind"; "aries.component"]%string ->
    label_of (cc_Labels config) key = label_of labels key) as Hlab.
  { intros key Hk. rewrite Forall_forall in Hl. apply Hl in Hk. by apply refuse_if_nil, negb_false_iff, String.eqb_eq in Hk. }
  exists config. unfold is_running. destruct (in_State inspection) as [state|]; [|done].
  destruct (_ || _) eqn:Hr; [done|]. rewrite orb_false_iff, !negb_false_iff in Hr. destruct Hr as [Hr _].
  split_and!; try done; apply Hlab; rewrite !elem_of_cons; auto 10.
Qed.
Lemma listed_name_id summary name : listed_name summary = Some name -> su_ID summary <> ""%string.
Proof.
  unfold listed_name. destruct (su_Names summary) as [|n []]; try done. destruct (CutPrefix n "/"); [|done].
  destruct (String.eqb_spec (su_ID summary) ""); [done|done].
Qed.

Section Samples.
Context {W : Type} `{!ResourceAPI W}.
Variable source : ResourceSource.
Abbreviation T := (W * list resource_event)%type.

Lemma discover_records_known ctx index seen items :
  emits (discover_records (W := T) source ctx index seen items) (fun r evs =>
    match r with
    | inl rs => NoDup (map ru_id rs) /\ (forall r, r ∈ rs -> ru_id r ∉ seen) /\ Forall (runtime_known source evs) rs
    | inr _ => True
    end).
Proof.
  revert index seen. induction items as [|summary items IH]; intros index seen; simpl.
  { apply emits_ret. split_and!; [constructor|set_solver|constructor]. }
  destruct (validateResourceLabels _ _); [by apply emits_ret|]. destruct (selected source summary) as [component|] eqn:Hsel; [|apply IH].
  destruct (listed_name summary) as [name|]; [|by apply emits_ret]. case_bool_decide as Hseen; [by apply emits_ret|].
  assert (forall answer, emits (discover_records (W := T) source ctx (index + 1) seen items) (fun r evs =>
    match r with
    | inl rs => NoDup (map ru_id rs) /\ (forall r, r ∈ rs -> ru_id r ∉ seen) /\
                Forall (runtime_known source (RInspect (su_ID summary) answer :: evs)) rs
    | inr _ => True
    end)) as Hskip.
  { intros answer. eapply emits_mono; [apply IH|]. intros [rs|e] evs; [|done]. intros (H1 & H2 & H3). split_and!; try done.
    eapply known_mono; [|exact H3]. set_solver. }
  apply emits_call. intros [inspection|e]; [|destruct (IsNotFound e); [apply Hskip|by apply emits_ret]].
  destruct (validateResourceInspection _ _ _ _ _) as [e|] eqn:Hv; [destruct (errors_Is _ _); [apply Hskip|by apply emits_ret]|].
  eapply emits_bind; [apply IH|]. intros [rs|e] evs; [|intros _; by apply emits_ret]. intros (H1 & H2 & H3). apply emits_ret.
  rewrite app_nil_r. cbn [map]. split_and!.
  - apply NoDup_cons. split; [|done]. intros (r & Hr & Hin)%list_elem_of_fmap. specialize (H2 r Hin). simpl in Hr. set_solver.
  - intros r [->|Hin]%elem_of_cons; [done|]. specialize (H2 r Hin). set_solver.
  - apply Forall_cons. split; [|eapply known_mono; [|exact H3]; set_solver].
    apply selected_scope in Hsel as [Hsc Hcomp]. apply inspection_shown in Hv as (config & Hc & Hid & Hn & Hr & Hm & Hrun & Ht & Hco).
    split; [done|]. exists inspection, config. split_and!; try done; [by left|]. by rewrite Hco.
Qed.

(** The counters of a reading are those that the daemon answered for its runtime. *)
Definition reading_known (evs : list resource_event) (reading : ResourceReading) : Prop :=
  exists r document, reading = reading_of source r document /\ runtime_known source evs r /\
    RStats (ru_id r) (inl (inl document)) ∈ evs /\ IsZero (sx_Read document) = false.
Lemma reading_known_mono evs evs' readings : evs ⊆ evs' -> Forall (reading_known evs) readings -> Forall (reading_known evs') readings.
Proof.
  intros Hs H. eapply Forall_impl; [exact H|]. intros x (r & document & H1 & [H2 H3] & H4 & H5). exists r, document.
  split_and!; [done|split; [done|by eapply shown_running_mono]|by apply Hs|done].
Qed.
Lemma read_known ctx r :
  emits (read (W := T) source ctx r) (fun reading evs => match reading with
    | inl reading => exists document, reading = reading_of source r document /\ RStats (ru_id r) (inl (inl document)) ∈ evs /\
        IsZero (sx_Read document) = false
    | inr _ => True end).
Proof.
  unfold read. apply emits_call. intros [[document|e]|e]; [|by apply emits_ret|].
  - destruct (IsZero (sx_Read document)) eqn:Hz.
    + unfold recheck. apply emits_call. intros [info|e]; apply emits_ret; [|by destruct (IsNotFound e)].
      destruct (in_State info) as [state|]; [|done]. by destruct (_ && _).
    + destruct (_ && _); apply emits_ret; [done|]. exists document. split_and!; [done|by left|done].
  - apply emits_ret. by destruct (IsNotFound e).
Qed.
Lemma read_all_known ctx rs before : Forall (runtime_known source before) rs -> NoDup (map ru_id rs) ->
  emits (read_all (W := T) source ctx rs) (fun r evs => match r with
    | inl readings => Forall (reading_known (before ++ evs)) readings /\ NoDup (map rr_RuntimeID readings) /\
        map rr_RuntimeID readings ⊆ map ru_id rs
    | inr _ => True end).
Proof.
  intros Hk Hnd. revert before Hk. induction rs as [|r rs IH]; intros before Hk; simpl.
  { apply emits_ret. split_and!; [constructor|constructor|done]. }
  apply NoDup_cons in Hnd as [Hf Hnd]. apply Forall_cons in Hk as [Hr Hk].
  eapply emits_bind; [apply read_known|]. intros reading evs Hread.
  assert (Forall (runtime_known source (before ++ evs)) rs) as Hk' by (eapply known_mono; [|exact Hk]; set_solver).
  specialize (IH Hnd (before ++ evs) Hk'). destruct reading as [reading|e].
  - destruct Hread as (document & -> & Hst & Hz). eapply emits_bind; [exact IH|].
    intros [readings|e] evs'; [|intros _; by apply emits_ret]. intros (H1 & H2 & H3). apply emits_ret. rewrite app_nil_r, app_assoc.
    cbn [map]. split_and!.
    + apply Forall_cons. split; [|done]. destruct Hr as [Hsc Hsh]. exists r, document. split_and!; [done| |set_solver|done].
      split; [done|]. eapply shown_running_mono; [|exact Hsh]. set_solver.
    + apply NoDup_cons. split; [|done]. set_solver.
    + set_solver.
  - destruct (errors_Is e ErrResourceRuntimeGone); [|by apply emits_ret].
    eapply emits_mono; [exact IH|]. intros [readings|e'] evs'; [|done]. rewrite app_assoc. intros (H1 & H2 & H3). split_and!; [done|done|set_solver].
Qed.

(** A sample of Docker resources has at most one reading of a runtime. Each is of the
    source's scope and run, and of a selected task's sandbox or harness, or of the run's
    bridge; an inspection during this sample showed the runtime running under that identity
    with the labels of this run, task and component; and the counters are those the daemon
    gave for it, with an observation time. *)
Theorem docker_sample_truthful (ctx : Ctx) :
  emits (Sample (W := T) source ctx) (fun r evs => match r with
    | inl readings => NoDup (map rr_RuntimeID readings) /\ Forall (reading_known evs) readings
    | inr _ => True
    end).
Proof.
  unfold Sample, discover. apply emits_flatten, emits_read. intros [items|e]; [|by apply emits_bind_ret, emits_ret].
  apply emits_flatten. eapply emits_bind; [apply discover_records_known|]. intros [rs|e] evs; [|intros _; by apply emits_bind_ret, emits_ret].
  intros (H1 & _ & H3). apply emits_bind_ret. eapply emits_mono; [apply (read_all_known ctx _ evs)|].
  - eapply Forall_Permutation; [by intros ?|apply merge_sort_Permutation|exact H3].
  - change (NoDup (ru_id <$> merge_sort runtime_le rs)). by rewrite merge_sort_Permutation.
  - intros [readings|e] evs'; [|done]. by intros (? & ? & _).
Qed.
End Samples.
