(* ===== verification/DockerImages.v ===== *)
(** Images for Docker ([pkg/deployment/docker], images.go, build.go and build_bridge.go):
    the pulling of the configured images, and the building of the helper images with their
    reuse from the local cache. An image is reported ready only when an inspection has shown
    it. *)

From S2P Require Import Prelude Utf8 Trace Sandbox Docker HarnessFiles DockerResources.

(** [client.ImageInspectResult]: the identity, and the labels of its configuration if it
    has one. *)
Record ImageInspect := { ii_ID : string; ii_Labels : option (gmap string string) }.
(** [client.ImageBuildOptions]; and the progress of a build: the messages of its stream, the
    error that ends it ([None] at its end), and the error of closing it. *)
Record BuildOptions := {
  bo_Tags : list string;
  bo_Dockerfile : string;
  bo_BuildArgs : gmap string string;
  bo_Labels : gmap string string;
  bo_Remove : bool;
  bo_ForceRemove : bool
}.
Record BuildMessage := { bm_Error : string; bm_Detail : string }.
Class ImageClient (W : Type) := {
  Image_Inspect : Ctx -> string -> M W (ImageInspect + err);
  Image_Pull : Ctx -> string -> M W (error * error + err);       (* Wait and Close *)
  Image_Build : Ctx -> bytes -> BuildOptions -> M W (list BuildMessage * error * error + err)
}.

(** [buildFile], and [imageBuildArchive] over the tar encoding. *)
Record buildFile := { bf_name : string; bf_mode : Z; bf_content : bytes }.
Definition dockerfile_entry (content : bytes) : buildFile := {| bf_name := "Dockerfile"; bf_mode := 420; bf_content := content |}.

(** [buildStreamError]. *)
Fixpoint buildStreamError (messages : list BuildMessage) (ending : error) : error :=
  match messages with
  | [] => wrap "read build output" ending
  | m :: messages =>
      if negb (String.eqb (bm_Detail m) "") then Some (ENew (bm_Detail m))
      else if negb (String.eqb (bm_Error m) "") then Some (ENew (bm_Error m))
      else buildStreamError messages ending
  end.
Definition imageBuildLabelsMatch (image : ImageInspect) (labels : gmap string string) : bool :=
  forallb (fun kv => match ii_Labels image with
                     | None => false
                     | Some actual => String.eqb (default "" (actual !! kv.1)) kv.2
                     end) (map_to_list labels).

Section Images.
Context {W : Type} `{!ImageClient W}.
Variable ParseNormalizedNamed : string -> Named + err.
Variable tar : list buildFile -> bytes + err.

(** * Pulling *)

Definition validatePreparedImage (image : string) (inspection : ImageInspect) : error :=
  refuse_if String.eqb (ii_ID inspection) ""
    with ("confirm Docker image " +:+ quote image +:+ ": inspection returned an empty image identity").
Definition pull_image (ctx : Ctx) (image : string) : M W error :=
  match validatePullImage ParseNormalizedNamed image with
  | Some e => ret (Some (EWrap ("prepare Docker image " +:+ quote image) e))
  | None =>
      let* inspection := Image_Inspect ctx image in
      match inspection with
      | inl inspection => ret (validatePreparedImage image inspection)
      | inr e =>
          if negb (IsNotFound e) then ret (Some (EWrap ("inspect Docker image " +:+ quote image) e))
          else
            let* pull := Image_Pull ctx image in
            match pull with
            | inr e => ret (Some (EWrap ("pull Docker image " +:+ quote image) e))
            | inl (waitErr, closeErr) =>
                match errors_Join [waitErr; closeErr] with
                | Some e => ret (Some (EWrap ("complete Docker image pull " +:+ quote image) e))
                | None =>
                    let* inspection := Image_Inspect ctx image in
                    ret (match inspection with
                         | inr e => Some (EWrap ("confirm Docker image " +:+ quote image +:+ " after pull") e)
                         | inl inspection => validatePreparedImage image inspection
                         end)
                end
            end
      end
  end.
Fixpoint pullImages (ctx : Ctx) (seen : gset string) (images : list string) : M W error :=
  match images with
  | [] => ret None
  | image :: images =>
      if bool_decide (image ∈ seen) then pullImages ctx seen images
      else
        let* e := pull_image ctx image in
        match e with Some e => ret (Some e) | None => pullImages ctx ({[image]} ∪ seen) images end
  end.

(** * Building *)

Definition build_failed (image : string) (e : err) : err := EWrap ("build Docker image " +:+ quote image) e.
Definition run_build (ctx : Ctx) (image : string) (archive : bytes) (buildArgs labels : gmap string string) : M W error :=
  let* result := Image_Build ctx archive
    {| bo_Tags := [image]; bo_Dockerfile := "Dockerfile"; bo_BuildArgs := buildArgs; bo_Labels := labels;
       bo_Remove := true; bo_ForceRemove := true |} in
  match result with
  | inr e => ret (Some (build_failed image e))
  | inl (messages, ending, closeErr) =>
      match errors_Join [buildStreamError messages ending; closeErr] with
      | Some e => ret (Some (build_failed image e))
      | None =>
          let* built := Image_Inspect ctx image in
          ret (match built with
               | inr e => Some (EWrap ("confirm Docker image " +:+ quote image +:+ " after build") e)
               | inl built =>
                   refuse_if negb (imageBuildLabelsMatch built labels)
                     with ("built Docker image " +:+ quote image +:+ " does not match requested build labels")
               end)
      end
  end.
Definition buildImageArchive (ctx : Ctx) (image : string) (archive : bytes) (buildArgs labels : gmap string string) : M W error :=
  match ValidatePinnedTagOnly ParseNormalizedNamed image with
  | Some e => ret (Some (build_failed image e))
  | None =>
      let* existing := Image_Inspect ctx image in
      match existing with
      | inl existing => if imageBuildLabelsMatch existing labels then ret None else run_build ctx image archive buildArgs labels
      | inr e =>
          if negb (IsNotFound e) then ret (Some (EWrap ("inspect Docker image " +:+ quote image) e))
          else run_build ctx image archive buildArgs labels
      end
  end.
Definition imageBuildArchive (files : list buildFile) : bytes + err :=
  match tar files with inl archive => inl archive | inr e => inr (EWrap "write Docker build context" e) end.
Definition context_files (dockerfile : bytes) (files : gmap string bytes) : list buildFile :=
  dockerfile_entry dockerfile ::
  map (fun name => {| bf_name := name; bf_mode := 420; bf_content := default [] (files !! name) |}) (sorted_keys files).
Definition buildImage (ctx : Ctx) (image : string) (dockerfile : bytes) (files : gmap string bytes) (buildArgs : gmap string string) :
    M W error :=
  match imageBuildArchive (context_files dockerfile files) with
  | inr e => ret (Some e)
  | inl archive => buildImageArchive ctx image archive buildArgs ∅
  end.

(** * The bridge's image *)

Definition maxBridgeBinary : Z := 256 * 2 ^ 20.
Definition bridgeBuildLabel : string := "aries.bridge.build-sha256".
Variable json_Marshal : gmap string string -> bytes + err.
Variable sha256 : bytes -> bytes.
Definition bridge_entry (files : gmap string bytes) (name : string) : buildFile + err :=
  match files !! name with
  | Some content =>
      if bool_decide (content = []) || (maxBridgeBinary <? Z.of_nat (length content))
      then inr (ENew "bridge context is incomplete or exceeds bounds")
      else inl {| bf_name := name; bf_mode := if String.eqb name "Dockerfile" then 420 else 493; bf_content := content |}
  | None => inr (ENew "bridge context is incomplete or exceeds bounds")
  end.
Definition bridgeBuildContext (files : gmap string bytes) (args : gmap string string) : (bytes * string) + err :=
  if negb (size files =? 2)%nat then inr (ENew "bridge context contains unexpected files")
  else match bridge_entry files "Dockerfile" with inr e => inr e | inl dockerfile =>
       match bridge_entry files "bin/aries-bridge" with inr e => inr e | inl binary =>
       match imageBuildArchive [dockerfile; binary] with inr e => inr e | inl archive =>
       match json_Marshal args with inr e => inr e | inl encoded =>
       inl (archive, of_bytes (hex_encode (sha256 (archive ++ encoded))))
       end end end end.
Definition buildBridgeImage (ctx : Ctx) (image : string) (files : gmap string bytes) (buildArgs : gmap string string) : M W error :=
  match bridgeBuildContext files buildArgs with
  | inr e => ret (Some e)
  | inl (archive, digest) => buildImageArchive ctx image archive buildArgs {[bridgeBuildLabel := digest]}
  end.

(** The binary on the host: [os.Lstat] gives whether it is regular and its size; reading it
    gives at most one byte more than the bound. *)
Record BinaryFile := {
  lf_Lstat : M W (bool * Z + err);
  lf_Open : M W error;
  lf_Read : M W (bytes * error);
  lf_Close : M W error
}.

(** * With a client of their own *)

(** The host of a client; [New] is [client.New], and closing the client is [close]. *)
Definition client_host (socket : string) : string :=
  let host := if String.eqb socket "" then defaultDockerSocket else socket in
  if has_scheme host then host else ("unix://" +:+ host)%string.
Definition with_client (New : string -> M W error) (close : M W error) (socket : string) (m : M W error) : M W error :=
  let* e := New (client_host socket) in
  match e with
  | Some e => ret (Some (EWrap "create Docker client" e))
  | None =>
      let* e := m in
      let* closeErr := close in
      ret (errors_Join [e; closeErr])
  end.
Definition PullImages (New : string -> M W error) (close : M W error) (ctx : Ctx) (socket : string) (images : list string) : M W error :=
  with_client New close socket (pullImages ctx ∅ images).
Definition BuildImage (New : string -> M W error) (close : M W error) (ctx : Ctx) (socket image : string) (dockerfile : bytes)
    (files : gmap string bytes) (buildArgs : gmap string string) : M W error :=
  with_client New close socket (buildImage ctx image dockerfile files buildArgs).
Definition BuildBridgeImage (file : BinaryFile) (New : string -> M W error) (close : M W error) (ctx : Ctx) (socket image : string)
    (dockerfile : bytes) (buildArgs : gmap string string) : M W error :=
  let* info := lf_Lstat file in
  match info with
  | inr e => ret (Some e)
  | inl (regular, size) =>
      if negb regular || (size =? 0) || (maxBridgeBinary <? size)
      then ret (Some (ENew "bridge image requires a bounded regular executable file"))
      else
        let* e := lf_Open file in
        match e with Some e => ret (Some e) | None =>
        let* (content, readErr) := lf_Read file in
        let* closeErr := lf_Close file in
        match errors_Join [readErr; closeErr] with Some e => ret (Some e) | None =>
        if bool_decide (content = []) || (maxBridgeBinary <? Z.of_nat (length content))
        then ret (Some (ENew "bridge binary exceeds build bound"))
        else with_client New close socket
               (buildBridgeImage ctx image (<["Dockerfile"%string := dockerfile]> {["bin/aries-bridge"%string := content]}) buildArgs)
        end end
  end.
End Images.

(** * What is reported ready *)

Inductive image_event :=
  | IInspect (image : string) (answer : ImageInspect + err)
  | IPull (image : string)
  | IBuild (options : BuildOptions) (archive : bytes).
#[export] Instance traced_images {W} `{!ImageClient W} : ImageClient (W * list image_event) := {|
  Image_Inspect ctx image := logged (IInspect image) (Image_Inspect ctx image);
  Image_Pull ctx image := logged (fun _ => IPull image) (Image_Pull ctx image);
  Image_Build ctx archive options := logged (fun _ => IBuild options archive) (Image_Build ctx archive options)
|}.
Definition fetches (ev : image_event) : bool := match ev with IInspect _ _ => false | _ => true end.
(** The last thing that happened to an image is an inspection that showed [P] of it. *)
Definition shown_last (image : string) (P : ImageInspect -> Prop) (evs : list image_event) : Prop :=
  exists pre inspection, evs = pre ++ [IInspect image (inl inspection)] /\ P inspection.

Section Ready.
Context {W : Type} `{!ImageClient W}.
Variable ParseNormalizedNamed : string -> Named + err.
Abbreviation T := (W * list image_event)%type.

Lemma pull_image_shows ctx image :
  emits (pull_image (W := T) ParseNormalizedNamed ctx image) (fun e evs => e = None ->
    validatePullImage ParseNormalizedNamed image = None /\ shown_last image (fun i => ii_ID i <> ""%string) evs /\
    (length (List.filter fetches evs) <= 1)%nat).
Proof.
  assert (forall inspection, validatePreparedImage image inspection = None -> ii_ID inspection <> ""%string) as Hp
    by (intros i H; by apply refuse_if_nil, String.eqb_neq in H).
  unfold pull_image. destruct (validatePullImage _ image) as [e|] eqn:Hv; [by apply emits_ret|].
  apply emits_call. intros [inspection|e].
  - apply emits_ret. intros H%Hp. split_and!; [done|by exists [], inspection|simpl; lia].
  - destruct (negb _); [by apply emits_ret|]. apply emits_call. intros [[waitErr closeErr]|e']; [|by apply emits_ret].
    destruct (errors_Join _); [by apply emits_ret|]. apply emits_call. intros [inspection|e2]; apply emits_ret; [|done].
    intros H%Hp. split_and!; [done|by exists [IInspect image (inr e); IPull image], inspection|simpl; lia].
Qed.
Definition shown_ready (image : string) (evs : list image_event) : Prop :=
  exists inspection, IInspect image (inl inspection) ∈ evs /\ ii_ID inspection <> ""%string.

(** When the pulling of images succeeds, every image that was asked for is a valid pinned or
    tagged reference, and an inspection showed it with an identity. *)
Theorem pulled_images_ready (ctx : Ctx) (images : list string) :
  emits (pullImages (W := T) ParseNormalizedNamed ctx ∅ images) (fun e evs => e = None ->
    Forall (fun image => validatePullImage ParseNormalizedNamed image = None /\ shown_ready image evs) images).
Proof.
  assert (forall images seen, emits (pullImages (W := T) ParseNormalizedNamed ctx seen images) (fun e evs => e = None ->
    Forall (fun image => image ∈ seen \/ validatePullImage ParseNormalizedNamed image = None /\ shown_ready image evs) images)) as H.
  { clear images. induction images as [|image images IH]; intros seen; simpl; [apply emits_ret; constructor|].
    case_bool_decide as Hs.
    - eapply emits_mono; [apply IH|]. intros e evs H He. constructor; [by left|by apply H].
    - eapply emits_bind; [apply pull_image_shows|]. intros [e|] evs Hp; [by apply emits_ret|].
      destruct (Hp eq_refl) as (Hv & (pre & inspection & -> & Hi) & _).
      eapply emits_mono; [apply IH|]. intros e evs' H He. specialize (H He).
      assert (shown_ready image ((pre ++ [IInspect image (inl inspection)]) ++ evs')) as Hr by (exists inspection; split; [set_solver|done]).
      constructor; [by right|]. eapply Forall_impl; [exact H|]. intros other [[->%elem_of_singleton|Hin]%elem_of_union|(Hov & i & Hin & Hne)].
      + by right.
      + by left.
      + right. split; [done|]. exists i. split; [set_solver|done]. }
  eapply emits_mono; [apply H|]. intros e evs Hf He. eapply Forall_impl; [by apply Hf|]. intros image [[]%elem_of_empty|?]; done.
Qed.

(** When the building of an image succeeds, the last call is an inspection that showed the
    image with exactly the labels that were asked for, the digest of its context among them:
    either at once, or after one build under that tag with those labels. *)
Theorem built_image_ready (ctx : Ctx) (image : string) (archive : bytes) (buildArgs labels : gmap string string) :
  emits (buildImageArchive (W := T) ParseNormalizedNamed ctx image archive buildArgs labels) (fun e evs =>
    Forall (fun ev => match ev with IBuild options given => bo_Tags options = [image] /\ bo_Labels options = labels /\ given = archive
                      | _ => True end) evs /\
    (length (List.filter fetches evs) <= 1)%nat /\
    (e = None -> shown_last image (fun i => imageBuildLabelsMatch i labels = true) evs)).
Proof.
  unfold buildImageArchive. destruct (ValidatePinnedTagOnly _ image) as [e|]; [apply emits_ret; split_and!; [constructor|simpl; lia|done]|].
  assert (forall answer, emits (run_build (W := T) ctx image archive buildArgs labels) (fun e evs =>
    let evs := IInspect image answer :: evs in
    Forall (fun ev => match ev with IBuild options given => bo_Tags options = [image] /\ bo_Labels options = labels /\ given = archive
                      | _ => True end) evs /\
    (length (List.filter fetches evs) <= 1)%nat /\
    (e = None -> shown_last image (fun i => imageBuildLabelsMatch i labels = true) evs))) as Hb.
  { intros answer. unfold run_build. apply emits_call. set (options := {| bo_Tags := [image] |}).
    intros [[[messages ending] closeErr]|e]; [|apply emits_ret; split_and!; [by repeat constructor|simpl; lia|done]].
    destruct (errors_Join _); [apply emits_ret; split_and!; [by repeat constructor|simpl; lia|done]|].
    apply emits_call. intros [built|e]; apply emits_ret; (split_and!; [by repeat constructor|simpl; lia|]); [|done].
    intros H%refuse_if_nil%negb_false_iff. by exists [IInspect image answer; IBuild options archive], built. }
  apply emits_call. intros [existing|e].
  - destruct (imageBuildLabelsMatch existing labels) eqn:Hm; [|apply Hb].
    apply emits_ret. split_and!; [by repeat constructor|simpl; lia|]. intros _. by exists [], existing.
  - destruct (negb _); [apply emits_ret; split_and!; [by repeat constructor|simpl; lia|done]|apply Hb].
Qed.
End Ready.
