(* ===== verification/Kubernetes.v ===== *)
(** The objects of the Kubernetes deployment ([pkg/deployment/kubernetes], manifest.go and
    the options of kubernetes.go): the names it accepts, the checks of a request, the
    manifest of a pod, and what is read back of a pod. A map of Go is listed in the order in
    which the code fills it; [json.Marshal], an argument, sorts its keys.

    Runtimes on Kubernetes ([pkg/deployment/kubernetes], kubernetes.go, portforward.go and
    bridge.go): each operation drives one or a few runs of kubectl. A run is a call of the
    world; what it printed is copied to the caller's writers as [os/exec] does it. The
    port-forwards that a manager holds are its state, which the operations that use them
    take and give back; its lock is held over each of these uses. *)

From S2P Require Import Prelude Utf8 Trace Paths Net Core Redaction Config JsonFields Deployments HarnessConfig Docker.

(** * Names *)

(** A pattern [edge (inner{0,n} edge)?] over the whole text. *)
Definition matches_edge (edge inner : ascii -> bool) (most : option nat) (s : bytes) : bool :=
  match s with
  | [] => false
  | first :: rest =>
      edge first &&
      match rev rest with
      | [] => true
      | last :: middle =>
          edge last && forallb inner middle && match most with Some n => (length middle <=? n)%nat | None => true end
      end
  end.
Definition lower_alnum (c : ascii) : bool := is_lower c || is_digit c.
Definition dash_alnum (c : ascii) : bool := Ascii.eqb c "-" || lower_alnum c.
Definition dotted_alnum (c : ascii) : bool := Ascii.eqb c "." || dash_alnum c.
Definition label_inner (c : ascii) : bool := Ascii.eqb c "-" || Ascii.eqb c "_" || Ascii.eqb c "." || is_alnum c.
Definition dnsLabel (s : string) : bool := matches_edge lower_alnum dash_alnum (Some 61%nat) (to_bytes s).
Definition dnsSubdomain (s : string) : bool := matches_edge lower_alnum dotted_alnum (Some 251%nat) (to_bytes s).
Definition labelValue (s : string) : bool := matches_edge is_alnum label_inner (Some 61%nat) (to_bytes s).
Definition labelKey (s : string) : bool :=
  match Cut s "/" with
  | Some (prefix, name) => matches_edge lower_alnum dotted_alnum None (to_bytes prefix) && labelValue name
  | None => labelValue s
  end.
Definition validName (value : string) : bool := dnsLabel value.
Definition validSubdomain (value : string) : bool := dnsSubdomain value.

(** One label of [validateNodeSelector]. *)
Definition check_selector (kv : string * string) : error :=
  (refuse_if negb (labelKey kv.1) || (317 <? len kv.1)
     with ("Kubernetes node selector key " +:+ quote kv.1 +:+ " is not a label key")) >>?
  (refuse_if negb (String.eqb kv.2 "") && negb (labelValue kv.2)
     with ("Kubernetes node selector value " +:+ quote kv.2 +:+ " is not a label value")).
Definition validateNodeSelector (selector : gmap string string) : error := first_error check_selector (map_to_list selector).

Definition decimalDigits (value : string) : bool := negb (String.eqb value "") && forallb is_digit (to_bytes value).
Definition validateNumericUser (value : string) : error :=
  refuse_if negb (match Cut value ":" with Some (uid, gid) => decimalDigits uid && decimalDigits gid | None => false end)
    with "user must be a numeric UID:GID pair".
(** [cleanContainerPath] of this package, whose path is the argument. *)
Definition k8s_cleanContainerPath (value : string) : error :=
  (refuse_if String.eqb value "" || ContainsByte value NUL || negb (HasPrefix value "/")
     with "path must be absolute, nonempty, and NUL-free") >>?
  (refuse_if negb (String.eqb (Clean value) value) with "path must be clean") >>?
  (refuse_if String.eqb value "/" with "path must not be the container root").

(** * Options *)

Record K8sOptions := {
  ko_Namespace : string;
  ko_NodeSelector : gmap string string;
  ko_PodCIDR : string;
  ko_ServiceCIDR : string;
  ko_ServiceAccount : string;
  ko_ImagePullSecret : string;
  ko_Images : gmap string string;
  ko_StagingDirs : list string;
  ko_StagingOwner : string;
  ko_KubectlPath : string;
  ko_ReadyTimeout : Z;
  ko_CleanupTimeout : Z
}.
Definition defaultNamespace : string := "aries".
Definition defaultKubectl : string := "kubectl".
Definition defaultReadyTimeout : Z := 5 * 60 * 10 ^ 9.
Definition defaultCleanupTimeout : Z := 60 * 10 ^ 9.
Definition with_defaults (o : K8sOptions) : K8sOptions :=
  {| ko_Namespace := or_text (ko_Namespace o) defaultNamespace; ko_NodeSelector := ko_NodeSelector o;
     ko_PodCIDR := ko_PodCIDR o; ko_ServiceCIDR := ko_ServiceCIDR o; ko_ServiceAccount := ko_ServiceAccount o;
     ko_ImagePullSecret := ko_ImagePullSecret o; ko_Images := ko_Images o; ko_StagingDirs := ko_StagingDirs o;
     ko_StagingOwner := ko_StagingOwner o; ko_KubectlPath := or_text (ko_KubectlPath o) defaultKubectl;
     ko_ReadyTimeout := positive_or (ko_ReadyTimeout o) defaultReadyTimeout;
     ko_CleanupTimeout := positive_or (ko_CleanupTimeout o) defaultCleanupTimeout |}.
(** [New]; the manager is its options. *)
Definition k8s_New (o : K8sOptions) : K8sOptions + err :=
  let namespace := or_text (ko_Namespace o) defaultNamespace in
  match (refuse_if negb (validName namespace) with ("Kubernetes namespace " +:+ quote namespace +:+ " is not a DNS label")) >>?
        validateNodeSelector (ko_NodeSelector o) >>?
        first_error (fun name =>
          refuse_if negb (String.eqb name "") && negb (validSubdomain name)
            with ("Kubernetes object name " +:+ quote name +:+ " is invalid")) [ko_ServiceAccount o; ko_ImagePullSecret o] >>?
        first_error (fun directory =>
          wrap ("Kubernetes staging directory " +:+ quote directory) (k8s_cleanContainerPath directory)) (ko_StagingDirs o) >>?
        (if bool_decide (ko_StagingDirs o = []) then None
         else wrap "Kubernetes staging owner" (validateNumericUser (ko_StagingOwner o))) with
  | Some e => inr e
  | None => inl (with_defaults o)
  end.

(** * Requests *)

Definition containerName : string := "runtime".
Definition gateDirectory : string := "/run/aries-gate".
Definition gateMarker : string := gateDirectory +:+ "/start".
Definition gateShell : string :=
  "while [ ! -e " +:+ gateMarker +:+ " ]; do sleep 0.2 2>/dev/null || sleep 1; done; exec " +:+ QUOTE +:+ "$@" +:+ QUOTE.

(** [gatedCommand]: the requested command behind the gate. *)
Definition requested_command (request : Request) : list string := default [] (rt_Entrypoint request) ++ rt_Args request.
Definition gatedCommand (request : Request) : list string + err :=
  let command := requested_command request in
  if bool_decide (command = []) then inr (ENew "Kubernetes deployment requires an explicit command")
  else if existsb (fun argument => ContainsByte argument NUL) command
  then inr (ENew "deployment command contains NUL")
  else inl (["/bin/sh"; "-c"; gateShell; "aries-gate"]%string ++ command).

Definition bad_port_number (port : Z) : bool := (port <? 0) || (65535 <? port).
Definition bad_cpu (cpu : float64) : bool := f64_leb cpu f64_zero || IsNaN cpu || IsInf cpu.
Definition check_entry (entry : string) : error :=
  refuse_if match Cut entry "=" with Some (name, _) => String.eqb name "" | None => true end
    with ("deployment environment entry " +:+ quote entry +:+ " is not NAME=value").
Definition k8s_validateRequest (o : K8sOptions) (request : Request) : error :=
  (refuse_if negb (validName (rt_Name request))
     with ("Kubernetes deployment requires a DNS-label runtime name, got " +:+ quote (rt_Name request))) >>?
  (refuse_if negb (String.eqb (rp_AttachmentID (rt_Placement request)) (ko_Namespace o))
     with ("Kubernetes deployment requires placement in namespace " +:+ quote (ko_Namespace o))) >>?
  (refuse_if String.eqb (TrimSpace (rt_Image request)) "" with "Kubernetes deployment requires an image") >>?
  (refuse_if negb (bool_decide (rt_Mounts request = [])) with "Kubernetes deployment does not mount host paths") >>?
  (refuse_if negb (bool_decide (rt_NetworkAliases request = []))
     with "Kubernetes deployment does not support network aliases") >>?
  (refuse_if bad_port_number (rt_InternalPort request) || bad_port_number (rt_ServicePort request)
     with "deployment service port is invalid") >>?
  (refuse_if match rt_CPU request with Some cpu => bad_cpu cpu | None => false end
     with "deployment CPU must be finite and positive") >>?
  (refuse_if match rt_MemoryMB request with Some memory => memory <=? 0 | None => false end
     with "deployment memory must be positive") >>?
  (refuse_if (rt_GPUs request <? 0) || (rt_StorageMB request <? 0)
     with "deployment GPU and storage bounds must be nonnegative") >>?
  first_error check_entry (rt_Env request) >>?
  match gatedCommand request with inl _ => None | inr e => Some e end.

(** [Manager.image]: what the cluster pulls for a requested image. *)
Definition mapped_image (images : gmap string string) (key : string) : option string :=
  match images !! key with Some mapped => if String.eqb mapped "" then None else Some mapped | None => None end.
Definition image_tag (requested : string) : option (string * string) :=
  let s := to_bytes requested in
  match last_index ":" s with
  | Some i =>
      if match last_index "/" s with Some j => (i <=? j)%nat | None => false end then None
      else Some (of_bytes (take i s), of_bytes (drop i s))
  | None => None
  end.
Definition k8s_image (o : K8sOptions) (requested : string) : string :=
  match mapped_image (ko_Images o) requested with
  | Some mapped => mapped
  | None =>
      match image_tag requested with
      | Some (repository, tag) =>
          match mapped_image (ko_Images o) repository with Some mapped => mapped +:+ tag | None => requested end
      | None => requested
      end
  end.

(** * The manifest of a pod *)

Definition managedByLabel : string := "app.kubernetes.io/managed-by".
Definition componentLabel : string := "app.kubernetes.io/component".
Definition runtimeLabel : string := "aries.dev/runtime".

Definition strings_json (l : list string) : json := JArray (map JString l).
Definition map_json (m : gmap string string) : json := JObject (map (fun kv => (kv.1, JString kv.2)) (map_to_list m)).
Definition int_json (n : Z) : json := JNumber (itoa n).

Section Manifest.
Variable FormatFloat : float64 -> string.   (* strconv.FormatFloat(_, 'f', -1, 64) *)
Variable json_Marshal : json -> bytes + err.

Definition resourceLimits (request : Request) : gmap string string :=
  let limits := match rt_CPU request with Some cpu => {["cpu"%string := FormatFloat cpu]} | None => ∅ end in
  let limits := match rt_MemoryMB request with Some memory => <["memory"%string := (itoa memory +:+ "Mi")%string]> limits | None => limits end in
  let limits := if 0 <? rt_StorageMB request
                then <["ephemeral-storage"%string := (itoa (rt_StorageMB request) +:+ "Mi")%string]> limits else limits in
  if 0 <? rt_GPUs request then <["nvidia.com/gpu"%string := itoa (rt_GPUs request)]> limits else limits.

(** The labels, the volumes and their mounts. *)
Definition pod_labels (request : Request) : list (string * json) :=
  let component := default "" (rt_Labels request !! "aries.component") in
  [(managedByLabel, JString "aries"); (runtimeLabel, JString (rt_Name request))] ++
  (if labelValue component then [(componentLabel, JString component)] else []).
Definition staging_name (index : nat) : string := "aries-staging-" +:+ itoa (Z.of_nat index).
Definition mount_json (name path : string) : json := JObject [("name", JString name); ("mountPath", JString path)]%string.
Definition empty_volume (name : string) : json := JObject [("name", JString name); ("emptyDir", JObject [])]%string.
Definition staging_mounts (o : K8sOptions) : list json :=
  imap (fun index directory => mount_json (staging_name index) directory) (ko_StagingDirs o).
Definition staging_volumes (o : K8sOptions) : list json :=
  imap (fun index _ => empty_volume (staging_name index)) (ko_StagingDirs o).

Definition env_json (entry : string) : json :=
  match Cut entry "=" with
  | Some (name, value) => JObject [("name", JString name); ("value", JString value)]%string
  | None => JObject [("name", JString entry); ("value", JString "")]%string
  end.
Definition port_json (port : Z) : json := JObject [("containerPort", int_json port); ("protocol", JString "TCP")]%string.
Definition pod_ports (request : Request) : list json :=
  map port_json (filter (fun port => port <> 0) [rt_ServicePort request; rt_InternalPort request]).
(** A member that is set under a condition. *)
Definition member_if (present : bool) (name : string) (value : json) : list (string * json) :=
  if present then [(name, value)] else [].
Definition container_json (o : K8sOptions) (request : Request) (command : list string) : json :=
  let limits := map_json (resourceLimits request) in
  JObject
    ([("name", JString containerName); ("image", JString (k8s_image o (rt_Image request))); ("command", strings_json command);
      ("volumeMounts", JArray (mount_json "aries-gate" gateDirectory :: staging_mounts o))]%string ++
     member_if (negb (String.eqb (rt_Workdir request) "")) "workingDir" (JString (rt_Workdir request)) ++
     member_if (negb (bool_decide (rt_Env request = []))) "env" (JArray (map env_json (rt_Env request))) ++
     member_if (negb (bool_decide (pod_ports request = []))) "ports" (JArray (pod_ports request)) ++
     member_if (negb (bool_decide (resourceLimits request = ∅))) "resources" (JObject [("limits", limits); ("requests", limits)]%string) ++
     member_if (rt_NoNewPrivileges request) "securityContext" (JObject [("allowPrivilegeEscalation"%string, JBool false)])).
Definition staging_script : string :=
  "owner=$1; shift; chown " +:+ QUOTE +:+ "$owner" +:+ QUOTE +:+ " " +:+ QUOTE +:+ "$@" +:+ QUOTE.
Definition staging_json (o : K8sOptions) (request : Request) : json :=
  JObject [("name", JString "aries-staging"); ("image", JString (k8s_image o (rt_Image request)));
           ("command", strings_json (["/bin/sh"; "-c"; staging_script; "aries-staging"; ko_StagingOwner o] ++ ko_StagingDirs o));
           ("securityContext", JObject [("runAsUser", int_json 0)]); ("volumeMounts", JArray (staging_mounts o))]%string.
Definition spec_json (o : K8sOptions) (request : Request) (command : list string) : json :=
  let account := negb (String.eqb (ko_ServiceAccount o) "") in
  JObject
    ([("restartPolicy", JString "Never"); ("automountServiceAccountToken", JBool account); ("enableServiceLinks", JBool false);
      ("terminationGracePeriodSeconds", int_json 5); ("containers", JArray [container_json o request command]);
      ("volumes", JArray (empty_volume "aries-gate" :: staging_volumes o))]%string ++
     member_if account "serviceAccountName" (JString (ko_ServiceAccount o)) ++
     member_if (negb (String.eqb (ko_ImagePullSecret o) "")) "imagePullSecrets"
       (JArray [JObject [("name"%string, JString (ko_ImagePullSecret o))]]) ++
     member_if (negb (bool_decide (ko_StagingDirs o = []))) "initContainers" (JArray [staging_json o request]) ++
     member_if (negb (bool_decide (ko_NodeSelector o = ∅))) "nodeSelector" (map_json (ko_NodeSelector o))).
Definition metadata_json (o : K8sOptions) (request : Request) : json :=
  JObject
    ([("name", JString (rt_Name request)); ("namespace", JString (ko_Namespace o)); ("labels", JObject (pod_labels request))]%string ++
     member_if (negb (bool_decide (rt_Labels request = ∅))) "annotations" (map_json (rt_Labels request))).
Definition pod_json (o : K8sOptions) (request : Request) (command : list string) : json :=
  JObject [("apiVersion", JString "v1"); ("kind", JString "Pod"); ("metadata", metadata_json o request);
           ("spec", spec_json o request command)]%string.
Definition podManifest (o : K8sOptions) (request : Request) : bytes + err :=
  match gatedCommand request with
  | inr e => inr e
  | inl command => json_Marshal (pod_json o request command)
  end.
End Manifest.

(** * What is read back of a pod *)

(** [podObject]; a volume is whether it is a path of the host, a status the reason for
    which its container waits. *)
Record PodMetadata := {
  pm_Name : string;
  pm_Namespace : string;
  pm_Labels : gmap string string;
  pm_Annotations : gmap string string;
  pm_DeletionTimestamp : string
}.
Record SecurityContext := { sc_AllowPrivilegeEscalation : option bool; sc_Privileged : option bool }.
Record PodContainer := {
  pc_Image : string;
  pc_Command : list string;
  pc_Args : list string;
  pc_WorkingDir : string;
  pc_SecurityContext : option SecurityContext;
  pc_Limits : gmap string string
}.
Record PodSpec := {
  px_NodeName : string;
  px_HostNetwork : bool;
  px_HostPID : bool;
  px_HostIPC : bool;
  px_AutomountServiceAccountToken : option bool;
  px_Containers : list PodContainer;
  px_Volumes : list bool
}.
Record PodStatus := {
  pt_Phase : string;
  pt_PodIP : string;
  pt_ContainerStatuses : list (option string);
  pt_InitContainerStatuses : list (option string)
}.
Record podObject := { po_Metadata : PodMetadata; po_Spec : PodSpec; po_Status : PodStatus }.

(** The decoding of one field of a structure from the members of an object, as
    [encoding/json] does it: names match without regard to case, [null] leaves the field
    alone, and a member of another type fails. The API repeats no member. *)
Definition decoder (A : Type) : Type := json -> option A.
Definition field_of {A} (name : string) (zero : A) (decoded : decoder A) (members : list (string * json)) : option A :=
  foldl (fun acc member =>
    acc ≫= fun a =>
      if same_field name member.1 then match member.2 with JNull => Some a | value => decoded value end else Some a)
    (Some zero) members.
Definition string_value : decoder string := fun v => match v with JString s => Some s | _ => None end.
Definition bool_value : decoder bool := fun v => match v with JBool b => Some b | _ => None end.
Definition pointer_to {A} (decoded : decoder A) : decoder (option A) := fun v => Some <$> decoded v.
(** An element that is [null] is a zero value. *)
Definition list_value {A} (zero : A) (decoded : decoder A) : decoder (list A) := fun v =>
  match v with JArray items => mapM (fun item => match item with JNull => Some zero | item => decoded item end) items | _ => None end.
Definition strings_value : decoder (gmap string string) := fun v =>
  match v with
  | JObject members =>
      list_to_map <$> mapM (fun m => pair m.1 <$> match m.2 with JNull => Some ""%string | item => string_value item end) (rev members)
  | _ => None
  end.
Definition struct_value {A} (fields : list (string * json) -> option A) : decoder A := fun v =>
  match v with JObject members => fields members | _ => None end.

Definition metadata_fields (m : list (string * json)) : option PodMetadata :=
  name ← field_of "name" ""%string string_value m;
  namespace ← field_of "namespace" ""%string string_value m;
  labels ← field_of "labels" ∅ strings_value m;
  annotations ← field_of "annotations" ∅ strings_value m;
  deleted ← field_of "deletionTimestamp" ""%string string_value m;
  Some {| pm_Name := name; pm_Namespace := namespace; pm_Labels := labels; pm_Annotations := annotations;
          pm_DeletionTimestamp := deleted |}.
Definition security_fields (m : list (string * json)) : option SecurityContext :=
  escalation ← field_of "allowPrivilegeEscalation" None (pointer_to bool_value) m;
  privileged ← field_of "privileged" None (pointer_to bool_value) m;
  Some {| sc_AllowPrivilegeEscalation := escalation; sc_Privileged := privileged |}.
Definition limits_field (m : list (string * json)) : option (gmap string string) := field_of "limits" ∅ strings_value m.
Definition container_fields (m : list (string * json)) : option PodContainer :=
  image ← field_of "image" ""%string string_value m;
  command ← field_of "command" [] (list_value ""%string string_value) m;
  args ← field_of "args" [] (list_value ""%string string_value) m;
  workdir ← field_of "workingDir" ""%string string_value m;
  security ← field_of "securityContext" None (pointer_to (struct_value security_fields)) m;
  limits ← field_of "resources" ∅ (struct_value limits_field) m;
  Some {| pc_Image := image; pc_Command := command; pc_Args := args; pc_WorkingDir := workdir;
          pc_SecurityContext := security; pc_Limits := limits |}.
Definition volume_field (m : list (string * json)) : option bool :=
  is_some <$> field_of "hostPath" None (pointer_to (struct_value (fun _ => Some tt))) m.
Definition no_container : PodContainer :=
  {| pc_Image := ""; pc_Command := []; pc_Args := []; pc_WorkingDir := ""; pc_SecurityContext := None; pc_Limits := ∅ |}.
Definition spec_fields (m : list (string * json)) : option PodSpec :=
  node ← field_of "nodeName" ""%string string_value m;
  network ← field_of "hostNetwork" false bool_value m;
  pid ← field_of "hostPID" false bool_value m;
  ipc ← field_of "hostIPC" false bool_value m;
  token ← field_of "automountServiceAccountToken" None (pointer_to bool_value) m;
  containers ← field_of "containers" [] (list_value no_container (struct_value container_fields)) m;
  volumes ← field_of "volumes" [] (list_value false (struct_value volume_field)) m;
  Some {| px_NodeName := node; px_HostNetwork := network; px_HostPID := pid; px_HostIPC := ipc;
          px_AutomountServiceAccountToken := token; px_Containers := containers; px_Volumes := volumes |}.
Definition waiting_field (m : list (string * json)) : option (option string) :=
  field_of "state" None (struct_value (fun m =>
    field_of "waiting" None (pointer_to (struct_value (field_of "reason" ""%string string_value))) m)) m.
Definition status_fields (m : list (string * json)) : option PodStatus :=
  phase ← field_of "phase" ""%string string_value m;
  ip ← field_of "podIP" ""%string string_value m;
  containers ← field_of "containerStatuses" [] (list_value None (struct_value waiting_field)) m;
  inits ← field_of "initContainerStatuses" [] (list_value None (struct_value waiting_field)) m;
  Some {| pt_Phase := phase; pt_PodIP := ip; pt_ContainerStatuses := containers; pt_InitContainerStatuses := inits |}.
Definition no_metadata : PodMetadata :=
  {| pm_Name := ""; pm_Namespace := ""; pm_Labels := ∅; pm_Annotations := ∅; pm_DeletionTimestamp := "" |}.
Definition no_spec : PodSpec :=
  {| px_NodeName := ""; px_HostNetwork := false; px_HostPID := false; px_HostIPC := false;
     px_AutomountServiceAccountToken := None; px_Containers := []; px_Volumes := [] |}.
Definition no_status : PodStatus :=
  {| pt_Phase := ""; pt_PodIP := ""; pt_ContainerStatuses := []; pt_InitContainerStatuses := [] |}.
Definition pod_fields (m : list (string * json)) : option podObject :=
  metadata ← field_of "metadata" no_metadata (struct_value metadata_fields) m;
  spec ← field_of "spec" no_spec (struct_value spec_fields) m;
  status ← field_of "status" no_status (struct_value status_fields) m;
  Some {| po_Metadata := metadata; po_Spec := spec; po_Status := status |}.
Definition no_pod : podObject := {| po_Metadata := no_metadata; po_Spec := no_spec; po_Status := no_status |}.
Definition decode_pod (value : json) : option podObject :=
  match value with JNull => Some no_pod | value => struct_value pod_fields value end.

(** * kubectl *)

(** One run of a command: the chunks it printed, its own error (it did not start, was
    killed, or exited with a code other than 0), how much of its input it took, and whether
    its context was done before it had printed all of this. [exit_code] is the code that
    [errors.As] finds in an error. *)
Record Ended := { ce_frames : list Frame; ce_error : error; ce_read : Z; ce_late : bool }.
Class Commands (W : Type) := {
  command_Run : Ctx -> string -> option bytes -> list string -> M W Ended;
  exit_code : err -> option Z
}.

(** [os/exec] copies each stream by itself, up to the first error of its writer. *)
Definition writer (S : Type) : Type := bool -> bytes -> S -> (Z * error) * S.   (* standard error? *)
Definition short_write (content : bytes) (written : Z) (e : error) : error :=
  match e with
  | Some e => Some e
  | None => if written =? Z.of_nat (length content) then None else Some (ESentinel ErrShortWrite)
  end.
Fixpoint copy_streams {S} (write : writer S) (frames : list Frame) (broken : error * error) (s : S) : error * S :=
  match frames with
  | [] => (seq_error broken.1 broken.2, s)
  | frame :: frames =>
      let stderr := fm_stderr frame in
      if is_some (if stderr then broken.2 else broken.1) then copy_streams write frames broken s
      else
        let '((written, e), s) := write stderr (fm_payload frame) s in
        let e := short_write (fm_payload frame) written e in
        copy_streams write frames (if stderr then (broken.1, e) else (e, broken.2)) s
  end.

(** Bytes in memory, as writers. *)
Definition append_streams (stderr : bool) (content : bytes) (b : bytes * bytes) : (Z * error) * (bytes * bytes) :=
  ((Z.of_nat (length content), None), if stderr then (b.1, b.2 ++ content) else (b.1 ++ content, b.2)).
(** The standard output to a writer of the caller, the standard error to memory. *)
Definition keep_stderr {S} (write : bytes -> S -> (Z * error) * S) : writer (S * bytes) := fun stderr content s =>
  if stderr then ((Z.of_nat (length content), None), (s.1, s.2 ++ content))
  else let (r, s') := write content s.1 in (r, (s', s.2)).

Section Kubectl.
Context {W : Type} `{!Runtime W} `{!Commands W}.
Variable o : K8sOptions.

(** [execKubectl.Run]. *)
Definition kubectl_Run {S} (write : writer S) (ctx : Ctx) (stdin : option bytes) (args : list string) (s : S) :
    M W (error * Ended * S) :=
  let* ended := command_Run ctx (ko_KubectlPath o) stdin args in
  let (copyErr, s) := copy_streams write (ce_frames ended) (None, None) s in
  match seq_error (ce_error ended) copyErr with
  | None => ret (None, ended, s)
  | Some e =>
      let* canceled := ctx_Err ctx in
      ret (Some (match canceled with Some c => ESentinel c | None => e end), ended, s)
  end.

(** [Manager.run]. *)
Definition said (content : bytes) : string := TrimSpace (of_bytes content).
Definition with_said (e : err) (content : bytes) : err := EAppend e (": " +:+ said content).   (* "%w: %s" *)
Definition run (ctx : Ctx) (stdin : option bytes) (args : list string) : M W (bytes * error) :=
  let* (e, _, (stdout, stderr)) := kubectl_Run append_streams ctx stdin args ([], []) in
  ret (stdout, match e with
               | Some e => Some (EWrap ("kubectl " +:+ default "" (head args)) (with_said e stderr))
               | None => None
               end).
End Kubectl.

(** * Pods *)

(** The parameters of the operations: the standard library's JSON and numbers, and whether
    the manager runs inside the cluster. *)
Class KubeLibrary := {
  kl_json_Unmarshal : bytes -> option json;
  kl_json_Marshal : json -> bytes + err;
  kl_FormatFloat : float64 -> string;
  kl_ParseIP : string -> bool;
  kl_inCluster : bool
}.
Definition unmarshal_pod `{KubeLibrary} (raw : bytes) : podObject + err :=
  match kl_json_Unmarshal raw ≫= decode_pod with
  | Some pod => inl pod
  | None => inr (EWrap "decode Kubernetes pod" (ENew "json"))
  end.

(** What [Validate] checks of the pod that is there. *)
Definition annotated (request : Request) (pod : podObject) : bool := labels_match (rt_Labels request) (pm_Annotations (po_Metadata pod)).
Definition escalates (container : PodContainer) : bool :=
  match pc_SecurityContext container with
  | Some security => match sc_AllowPrivilegeEscalation security with Some allowed => allowed | None => true end
  | None => true
  end.
Definition privileged (container : PodContainer) : bool :=
  match pc_SecurityContext container with Some security => default false (sc_Privileged security) | None => false end.
Definition validate_pod (o : K8sOptions) (id : string) (request : Request) (pod : podObject) : error :=
  (refuse_if negb (String.eqb (pm_Name (po_Metadata pod)) id) ||
             (negb (String.eqb (rt_Name request) "") && negb (String.eqb id (rt_Name request))) ||
             negb (String.eqb (pm_Namespace (po_Metadata pod)) (ko_Namespace o))
     with "deployment name differs from request") >>?
  (refuse_if negb (annotated request pod) with "deployment labels do not match the task") >>?
  match px_Containers (po_Spec pod) with
  | [container] =>
      match gatedCommand request with
      | inr e => Some e
      | inl expected =>
          (refuse_if negb (String.eqb (pc_Image container) (k8s_image o (rt_Image request))) ||
                     negb (bool_decide (pc_Command container = expected)) || negb (bool_decide (pc_Args container = []))
             with "deployment image or command differs from requested configuration") >>?
          (refuse_if negb (String.eqb (rt_Workdir request) "") && negb (String.eqb (pc_WorkingDir container) (rt_Workdir request))
             with "deployment workdir differs from request") >>?
          (refuse_if rt_NoNewPrivileges request && escalates container with "deployment no-new-privileges is not enabled") >>?
          (refuse_if privileged container with "deployment must not be privileged") >>?
          (refuse_if px_HostNetwork (po_Spec pod) || px_HostPID (po_Spec pod) || px_HostIPC (po_Spec pod)
             with "deployment must not share host namespaces") >>?
          (refuse_if existsb (fun host => host) (px_Volumes (po_Spec pod)) with "deployment has a host mount beyond requested paths") >>?
          (refuse_if String.eqb (ko_ServiceAccount o) "" && default true (px_AutomountServiceAccountToken (po_Spec pod))
             with "deployment must not mount a service account token")
      end
  | _ => Some (ENew "deployment must run exactly one container")
  end.

(** * Operations *)

(** [int(d.Seconds())] of a timeout; the float64 between is exact enough below 2^23 seconds. *)
Definition whole_seconds (d : Z) : Z := Z.quot d (10 ^ 9).

Section Operations.
Context {W : Type} `{!Runtime W} `{!Commands W} `{!KubeLibrary}.
Variable o : K8sOptions.
Abbreviation namespace := (ko_Namespace o).

(** [Manager.pod]: absence is no error. *)
Definition k8s_pod (ctx : Ctx) (id : string) : M W (podObject * bool + err) :=
  let* (raw, e) := run o ctx None ["get"; "pod"; "-n"; namespace; id; "--ignore-not-found"; "-o"; "json"]%string in
  ret (match e with
       | Some e => inr (EWrap "inspect Kubernetes pod" e)
       | None =>
           if String.eqb (said raw) "" then inl (no_pod, false)
           else match unmarshal_pod raw with
                | inr e => inr e
                | inl pod => inl (pod, String.eqb (pm_Name (po_Metadata pod)) id)
                end
       end).

(** [recoverCreate] and [waitingReason]. *)
Definition k8s_unconfirmed (cause why : err) : string * error :=
  (""%string, Some (EJoin [cause; EWraps "" (ESentinel ErrAllocationUnconfirmed) why])).
Definition recoverCreate (ctx : Ctx) (request : Request) (cause : err) : M W (string * error) :=
  let* found := k8s_pod (WithTimeout (WithoutCancel ctx) (ko_CleanupTimeout o)) (rt_Name request) in
  ret (match found with
       | inr e => k8s_unconfirmed cause e
       | inl (pod, false) => (""%string, Some cause)
       | inl (pod, true) =>
           if annotated request pod then (rt_Name request, Some cause)
           else k8s_unconfirmed cause (ENew "ownership differs from request")
       end).
Definition reasons (status : PodStatus) : list string :=
  filter (fun reason => reason <> ""%string) (omap id (pt_InitContainerStatuses status ++ pt_ContainerStatuses status)).
Definition waitingReason (ctx : Ctx) (name : string) : M W string :=
  let* found := k8s_pod (WithTimeout (WithoutCancel ctx) (10 * 10 ^ 9)) name in
  ret (match found with
       | inl (pod, true) =>
           match reasons (po_Status pod) with
           | [] => " (phase " +:+ pt_Phase (po_Status pod) +:+ ")"
           | reasons => " (" +:+ String.concat ", " reasons +:+ ")"
           end
       | _ => ""%string
       end).

(** [Create]. *)
Definition k8s_Create (ctx : Ctx) (request : Request) : M W (string * error) :=
  match k8s_validateRequest o request with
  | Some e => ret (""%string, Some e)
  | None =>
      match podManifest kl_FormatFloat kl_json_Marshal o request with
      | inr e => ret (""%string, Some e)
      | inl manifest =>
          let* (_, e) := run o ctx (Some manifest) ["create"; "-n"; namespace; "-f"; "-"]%string in
          match e with
          | Some e => recoverCreate ctx request (EWrap "create Kubernetes pod" e)
          | None =>
              let* (_, e) := run o (WithTimeout ctx (ko_ReadyTimeout o)) None
                               ["wait"; "-n"; namespace; "--for=jsonpath={.status.phase}=Running"; "pod/" +:+ rt_Name request;
                                "--timeout=" +:+ itoa (whole_seconds (ko_ReadyTimeout o)) +:+ "s"]%string in
              match e with
              | None => ret (rt_Name request, None)
              | Some e =>
                  let* reason := waitingReason ctx (rt_Name request) in
                  let waiting := EWrap ("wait for Kubernetes pod " +:+ rt_Name request +:+ " to run") e in
                  ret (rt_Name request, Some (EAppend waiting reason))
              end
          end
      end
  end.

(** [Validate]: the pod that is there, and its whole text for the secrets. *)
Definition k8s_Validate (ctx : Ctx) (id : string) (request : Request) (secrets : list bytes) : M W error :=
  match k8s_validateRequest o request with
  | Some e => ret (Some e)
  | None =>
      let* (raw, e) := run o ctx None ["get"; "pod"; "-n"; namespace; id; "-o"; "json"]%string in
      ret (match e with
           | Some e => Some (EWrap "inspect Kubernetes pod" e)
           | None =>
               match unmarshal_pod raw with
               | inr e => Some e
               | inl pod =>
                   validate_pod o id request pod >>?
                   (refuse_if existsb (fun secret => negb (bool_decide (secret = [])) && Contains raw secret) secrets
                      with "deployment secret entered Kubernetes metadata")
               end
           end)
  end.

Definition k8s_Start (ctx : Ctx) (id : string) : M W error :=
  let* (_, e) := run o ctx None ["exec"; "-n"; namespace; id; "-c"; containerName; "--"; "/bin/sh"; "-c"; ": > " +:+ gateMarker]%string in
  ret (wrap "release Kubernetes pod gate" e).
Definition live (pod : podObject) : bool :=
  String.eqb (pt_Phase (po_Status pod)) "Running" && String.eqb (pm_DeletionTimestamp (po_Metadata pod)) "".
Definition k8s_Running (ctx : Ctx) (id : string) : M W (bool * error) :=
  let* found := k8s_pod ctx id in
  ret (match found with
       | inr e => (false, Some e)
       | inl (pod, found) => (found && live pod, None)
       end).

(** [LogsStream] and [Logs]; [boundedBuffer] is [limitedBuffer] of the Docker deployment. *)
Definition k8s_LogsStream {S} (write : bytes -> S -> (Z * error) * S) (ctx : Ctx) (id : string) (s : S) : M W (error * S) :=
  let* (e, _, (s, failure)) := kubectl_Run o (keep_stderr write) ctx None ["logs"; "-n"; namespace; id; "-c"; containerName]%string (s, []) in
  ret (match e with
       | None => None
       | Some e =>
           let e := EWrap "read Kubernetes pod logs" (with_said e failure) in
           Some (if Contains failure (to_bytes "NotFound") then EWraps "deployment logs: " (ESentinel ErrNotFound) e else e)
       end, s).
Definition bounded_Write (limit : Z) (content : bytes) (b : limitedBuffer) : (Z * error) * limitedBuffer :=
  ((Z.of_nat (length content), None), buffer_Write limit content b).
Definition k8s_Logs (ctx : Ctx) (id : string) (limit : Z) : M W (bytes * error) :=
  if limit <=? 0 then ret ([], Some (ENew "deployment log bound must be positive"))
  else
    let* (e, output) := k8s_LogsStream (bounded_Write limit) ctx id new_buffer in
    ret (match e with
         | Some e => ([], Some e)
         | None => if lb_exceeded output then ([], Some (ENew "deployment logs exceeded their bound")) else (lb_content output, None)
         end).

(** [TaskAddress]. *)
Definition k8s_TaskAddress (ctx : Ctx) (id : string) (port : Z) : M W (string * error) :=
  if (port <? 1) || (65535 <? port) then ret (""%string, Some (ENew "invalid task service port"))
  else
    let* found := k8s_pod ctx id in
    ret (match found with
         | inr e => (""%string, Some e)
         | inl (pod, found) =>
             if negb found || negb (String.eqb (pt_Phase (po_Status pod)) "Running") || negb (kl_ParseIP (pt_PodIP (po_Status pod)))
             then (""%string, Some (ENew "runtime task attachment is not ready"))
             else (JoinHostPort (pt_PodIP (po_Status pod)) (itoa port), None)
         end).

(** The deletion of a pod, and its confirmation ([Stop]). *)
Definition delete_pod (ctx : Ctx) (id : string) : M W error :=
  let* (_, e) := run o ctx None ["delete"; "pod"; "-n"; namespace; id; "--ignore-not-found"; "--grace-period=5"; "--wait=true"]%string in
  match e with
  | Some e => ret (Some (EWrap "delete Kubernetes pod" e))
  | None =>
      let* found := k8s_pod ctx id in
      ret (match found with
           | inr e => Some (EWrap "verify Kubernetes pod removal" e)
           | inl (_, true) => Some (ENew "deployment remains after removal")
           | inl (_, false) => None
           end)
  end.
End Operations.

(** * Port-forwards (portforward.go) *)

(** [portForward]: the address, and the goroutine that restarts kubectl on it until it is
    stopped. [Spawn] starts the goroutine with the arguments of its runs; [await_retry] is
    the select between the context and the next attempt. *)
Record portForward := { fw_address : string; fw_goroutine : nat }.
Class PortForwards (W : Type) := {
  net_Listen : string -> M W (string + err);
  listener_Close : string -> M W error;
  Spawn : string -> list string -> M W nat;
  cancel_and_wait : nat -> M W unit;
  lastErr : nat -> M W string;
  net_Dial : string -> M W error;
  await_retry : Ctx -> M W (option sentinel)
}.
Definition portForwardStartTimeout : Z := 30 * 10 ^ 9.

Abbreviation Forwards := (gmap string portForward).
Section Held.
Context {W : Type} `{!Runtime W} `{!Commands W} `{!KubeLibrary} `{!PortForwards W}.
Variable o : K8sOptions.

Definition forward_stop (forward : portForward) : M W unit := cancel_and_wait (fw_goroutine forward).
Definition forward_args (pod local : string) (port : Z) : list string :=
  ["port-forward"; "-n"; ko_Namespace o; "--address"; "127.0.0.1"; "pod/" +:+ pod; local +:+ ":" +:+ itoa port]%string.
(** The attempts to connect until the start timeout, which the fuel stands for. *)
Fixpoint await_forward (attempts : nat) (ctx : Ctx) (forward : portForward) : M W (portForward + err) :=
  match attempts with
  | O =>
      let* _ := forward_stop forward in
      let* text := lastErr (fw_goroutine forward) in
      ret (inr (ENew ("timed out waiting for Kubernetes port-forward: " +:+ text)))
  | S attempts =>
      let* dialErr := net_Dial (fw_address forward) in
      match dialErr with
      | None => ret (inl forward)
      | Some _ =>
          let* canceled := await_retry ctx in
          match canceled with
          | Some c => let* _ := forward_stop forward in ret (inr (ESentinel c))
          | None => await_forward attempts ctx forward
          end
      end
  end.
Definition startPortForward (attempts : nat) (ctx : Ctx) (pod : string) (port : Z) : M W (portForward + err) :=
  let* listener := net_Listen "127.0.0.1:0" in
  match listener with
  | inr e => ret (inr (EWrap "reserve Kubernetes port-forward port" e))
  | inl address =>
      let local := match SplitHostPort address with inl (_, local) => local | inr _ => ""%string end in
      let* e := listener_Close address in
      match e with
      | Some e => ret (inr e)
      | None =>
          let* goroutine := Spawn (ko_KubectlPath o) (forward_args pod local port) in
          await_forward attempts ctx {| fw_address := address; fw_goroutine := goroutine |}
      end
  end.

(** * The operations that use the manager's forwards *)

Fixpoint stop_all (forwards : list portForward) : M W unit :=
  match forwards with
  | [] => ret tt
  | forward :: forwards => let* _ := forward_stop forward in stop_all forwards
  end.
Definition k8s_Close (held : Forwards) : M W (error * Forwards) :=
  let* _ := stop_all (map snd (map_to_list held)) in ret (None, ∅).

(** [Address], with the manager's [forward]. *)
Definition forward_key (id : string) (port : Z) : string := id +:+ ":" +:+ itoa port.
Definition k8s_Address (start : Ctx -> string -> Z -> M W (portForward + err)) (ctx : Ctx) (id : string) (port : Z)
    (held : Forwards) : M W (string * error * Forwards) :=
  if (port <=? 0) || (65535 <? port) then ret (""%string, Some (ENew "deployment service port is invalid"), held)
  else if kl_inCluster then let* (address, e) := k8s_TaskAddress o ctx id port in ret (address, e, held)
  else
    match held !! forward_key id port with
    | Some existing => ret (fw_address existing, None, held)
    | None =>
        let* forward := start ctx id port in
        ret (match forward with
             | inr e => (""%string, Some e, held)
             | inl forward => (fw_address forward, None, <[forward_key id port := forward]> held)
             end)
    end.

(** [Stop]. *)
Definition forwards_of (id : string) (held : Forwards) : Forwards := filter (fun kv => HasPrefix kv.1 (id +:+ ":") = true) held.
Definition k8s_Stop (ctx : Ctx) (id : string) (held : Forwards) : M W (error * Forwards) :=
  if String.eqb id "" then ret (None, held)
  else
    let* _ := stop_all (map snd (map_to_list (forwards_of id held))) in
    let* e := delete_pod o ctx id in
    ret (e, held ∖ forwards_of id held).
End Held.

(** * The bridge's view (bridge.go) *)

Definition k8s_BridgeBackend : string := "kubernetes".
Definition labelled_as (labels : gmap string string) (key value : string) : bool := String.eqb (default "" (labels !! key)) value.
Definition ValidateBridgePod (d : BridgeTarget) (pod : podObject) (found : bool) : error :=
  let labels := pm_Labels (po_Metadata pod) in
  (refuse_if negb found || negb (live pod) with "borrowed sandbox identity or running state differs") >>?
  (refuse_if negb (labelled_as labels managedByLabel "aries") || negb (labelled_as labels componentLabel "sandbox") ||
             negb (labelled_as labels runtimeLabel (bt_SandboxID d)) with "borrowed sandbox ownership labels differ") >>?
  first_error (check_label (pm_Annotations (po_Metadata pod))) (map_to_list (bridge_labels d)).
Definition k8s_ValidateBridgeTarget {W} `{!Runtime W} `{!Commands W} `{!KubeLibrary} (o : K8sOptions) (ctx : Ctx)
    (d : BridgeTarget) : M W error :=
  if negb (String.eqb (bt_Backend d) "kubernetes") then ret (Some (ENew "Kubernetes cannot execute another target backend"))
  else if negb (String.eqb (bt_RuntimeID d) (bt_SandboxID d))
  then ret (Some (ENew "borrowed sandbox identity differs from its runtime"))
  else
    let* found := k8s_pod o ctx (bt_RuntimeID d) in
    ret (match found with
         | inr e => Some (EWrap "inspect borrowed sandbox" e)
         | inl (pod, found) => ValidateBridgePod d pod found
         end).
