(* ===== verification/KubeExec.v ===== *)
(** Commands and files in a pod ([pkg/deployment/kubernetes], exec.go and files.go): the
    checks of a command and the argv that kubectl runs, the bounded output, the archives,
    and the three file operations, each of them a short shell script whose exit codes the
    code maps to errors. *)

From S2P Require Import Prelude Utf8 Trace Paths Net Core Redaction Sandbox Deployments HarnessRuntime HarnessConfig HarnessFiles.
From S2P Require Import Docker DockerExec DockerFiles Kubernetes.

(** * Commands *)

(** [validateCommand] of this package: a user is any numeric pair. *)
Definition k8s_validateCommand (command : Command) : error :=
  (refuse_if String.eqb (cm_Path command) "" || ContainsByte (cm_Path command) NUL
     with "command path must be nonempty and NUL-free") >>?
  (refuse_if negb (String.eqb (cm_Dir command) "") &&
             (negb (HasPrefix (cm_Dir command) "/") || ContainsByte (cm_Dir command) NUL ||
              negb (String.eqb (Clean (cm_Dir command)) (cm_Dir command)))
     with "invalid command workdir: path must be absolute, clean, and NUL-free") >>?
  (if String.eqb (cm_User command) "" then None else wrap "invalid command user" (validateNumericUser (cm_User command))) >>?
  (refuse_if (cm_Timeout command <? 0) with "command timeout must be nonnegative") >>?
  (refuse_if ((cm_OutputLimitBytes command <? 0) || (maxConfiguredOutput <? cm_OutputLimitBytes command))
     with ("command output limit must be between 0 and " +:+ itoa maxConfiguredOutput +:+ " bytes")) >>?
  first_error (fun argument =>
    refuse_if (ContainsByte argument NUL) with "command argument contains NUL") (cm_Args command) >>?
  first_error (check_env "command") (map_to_list (cm_Env command)).

(** The argv of [ExecStream], inside out: the environment, the user, the directory. *)
Definition QUOTE1 (s : string) : string := QUOTE +:+ s +:+ QUOTE.
Definition env_argv (env : gmap string string) (args : list string) : list string :=
  if bool_decide (env = ∅) then args
  else "env"%string :: map (fun key => key +:+ "=" +:+ default "" (env !! key))%string (sorted_keys env) ++ args.
Definition user_argv (user : string) (args : list string) : list string :=
  if String.eqb user "" || String.eqb user "0:0" then args
  else match Cut user ":" with
       | Some (uid, gid) =>
           ["env"; "HOME=/"; "setpriv"; "--reuid=" +:+ uid; "--regid=" +:+ gid; "--clear-groups"; "--"]%string ++ args
       | None => ["env"; "HOME=/"; "setpriv"; "--reuid=" +:+ user; "--regid="; "--clear-groups"; "--"]%string ++ args
       end.
Definition dir_script : string := "cd " +:+ QUOTE1 "$1" +:+ " || exit 126; shift; exec " +:+ QUOTE1 "$@".
Definition dir_argv (dir : string) (args : list string) : list string :=
  if String.eqb dir "" then args else ["/bin/sh"; "-c"; dir_script; "aries-exec"; dir]%string ++ args.
Definition exec_argv (command : Command) : list string :=
  dir_argv (cm_Dir command) (user_argv (cm_User command) (env_argv (cm_Env command) (cm_Path command :: cm_Args command))).

(** [limitedWriter], around a writer of the caller; the output that was too long cancels
    the execution. *)
Section Limited.
Context {S : Type}.
Variable write : writer S.
Variable limit : Z.
Record k8s_limited := { kw_state : S; kw_out : Z; kw_err : Z; kw_exceeded : bool }.
Definition output_exceeds : err := ENew ("Kubernetes exec output exceeds " +:+ itoa limit +:+ " bytes").
Definition k8s_limited_Write (stderr : bool) (content : bytes) (l : k8s_limited) : (Z * error) * k8s_limited :=
  if limit - (if stderr then kw_err l else kw_out l) <? Z.of_nat (length content)
  then ((0, Some output_exceeds), {| kw_state := kw_state l; kw_out := kw_out l; kw_err := kw_err l; kw_exceeded := true |})
  else
    let '((written, e), s) := write stderr content (kw_state l) in
    ((written, e), {| kw_state := s; kw_out := if stderr then kw_out l else kw_out l + written;
                      kw_err := if stderr then kw_err l + written else kw_err l; kw_exceeded := kw_exceeded l |}).
End Limited.
Arguments kw_state {S}.
Arguments kw_out {S}.
Arguments kw_err {S}.
Arguments kw_exceeded {S}.
Arguments Build_k8s_limited {S}.

(** [fs.FileMode] of a raw mode, and [parseStat]. *)
Definition ModeIrregular : Z := 2 ^ 19.
Definition hex_value (c : ascii) : option Z :=
  if is_digit c then Some (byte_of c - 48)
  else if between "a" c "f" then Some (byte_of c - 87)
  else if between "A" c "F" then Some (byte_of c - 55)
  else None.
Definition ParseHex32 (s : string) : option Z :=
  match mapM hex_value (to_bytes s) with
  | Some ((_ :: _) as digits) => let n := foldl (fun n d => n * 16 + d) 0 digits in if n <? 2 ^ 32 then Some n else None
  | _ => None
  end.
Definition raw_mode (raw : Z) : Z :=
  let mode := Z.land raw 511 in
  let kind := Z.land raw 61440 in            (* 0o170000 *)
  if kind =? 32768 then mode                 (* 0o100000 *)
  else if kind =? 16384 then Z.lor mode ModeDir
  else if kind =? 40960 then Z.lor mode ModeSymlink
  else Z.lor mode ModeIrregular.
(** [strings.Fields] of ASCII text. *)
Definition space_byte (c : ascii) : bool := mem c [" "%char; "009"%char; "010"%char; "011"%char; "012"%char; "013"%char].
Definition Fields (s : string) : list string :=
  map of_bytes (filter (fun field => field <> []) (split_bytes " " (map (fun c => if space_byte c then " "%char else c) (to_bytes s)))).
Definition parseStat (output : string) : FileInfo + err :=
  match Fields output with
  | [size; mode] =>
      match Atoi size with
      | inr e => inr (EWrap "parse stat size" e)
      | inl size =>
          match ParseHex32 mode with
          | Some raw => inl {| fi_Size := size; fi_Mode := raw_mode raw |}
          | None => inr (EWrap "parse stat mode" (ENew ("strconv.ParseUint: parsing " +:+ quote mode)))
          end
      end
  | _ => inr (ENew ("unexpected stat output " +:+ quote output))
  end.

(** * Executions *)

Section Exec.
Context {W : Type} `{!Runtime W} `{!Commands W}.
Variable o : K8sOptions.

(** [execInPod]. *)
Definition pod_argv (id : string) (stdin : option bytes) (command : list string) : list string :=
  ["exec"; "-n"; ko_Namespace o; id; "-c"; containerName]%string ++ (if is_some stdin then ["-i"%string] else []) ++ "--"%string :: command.
Definition execInPod {S} (write : writer S) (ctx : Ctx) (id : string) (stdin : option bytes) (command : list string) (s : S) :
    M W (error * Ended * S) :=
  kubectl_Run o write ctx stdin (pod_argv id stdin command) s.

(** [context.Cause] of the execution's context: the bound of the output, if it came first. *)
Definition k8s_cause (ctx : Ctx) (limit : Z) (exceeded late : bool) : M W error :=
  if exceeded && negb late then ret (Some (output_exceeds limit))
  else let* canceled := ctx_Err ctx in
       ret (match canceled with Some c => Some (ESentinel c) | None => if exceeded then Some (output_exceeds limit) else None end).
(** The writer of one stream may be discarded ([io.Discard]) by the caller's own writer. The
    last value is how much of the input was taken. *)
Definition k8s_ExecStream {S} (ctx : Ctx) (id : string) (command : Command) (stdin : option bytes) (write : writer S) (s : S) :
    M W (CommandResult * error * S * Z) :=
  let* started := time_Now in
  let failure e s taken : M W (CommandResult * error * S * Z) :=
    let* now := time_Now in ret (no_result (-1) (now - started), Some e, s, taken) in
  match k8s_validateCommand command with
  | Some e => failure e s 0
  | None =>
      let outputLimit := if cm_OutputLimitBytes command =? 0 then maxExecOutput else cm_OutputLimitBytes command in
      let execCtx := exec_context ctx (cm_Timeout command) in
      let* (runErr, ended, l) := execInPod (k8s_limited_Write write outputLimit) execCtx id stdin (exec_argv command)
                                   {| kw_state := s; kw_out := 0; kw_err := 0; kw_exceeded := false |} in
      let s := kw_state l in
      let* cause := k8s_cause execCtx outputLimit (kw_exceeded l) (ce_late ended) in
      match cause with
      | Some e => failure e s (ce_read ended)
      | None =>
          match runErr with
          | None => let* now := time_Now in ret (no_result 0 (now - started), None, s, ce_read ended)
          | Some e =>
              match exit_code e with
              | Some code =>
                  if code <? 0 then failure (EWrap "Kubernetes exec" e) s (ce_read ended)
                  else let* now := time_Now in ret (no_result code (now - started), None, s, ce_read ended)
              | None => failure (EWrap "Kubernetes exec" e) s (ce_read ended)
              end
          end
      end
  end.

Definition k8s_Exec (ctx : Ctx) (id : string) (command : Command) : M W (CommandResult * error) :=
  let* started := time_Now in
  if maxExecInput <? Z.of_nat (length (cm_Stdin command)) then
    let* now := time_Now in
    ret (no_result (-1) (now - started), Some (ENew ("Kubernetes exec stdin exceeds " +:+ itoa maxExecInput +:+ " bytes")))
  else
    let stdin := match cm_Stdin command with [] => None | content => Some content end in
    let* (result, e, (stdout, stderr), _) := k8s_ExecStream ctx id command stdin append_streams ([], []) in
    ret ({| cr_ExitCode := cr_ExitCode result; cr_Stdout := of_bytes stdout; cr_Stderr := of_bytes stderr;
            cr_Duration := cr_Duration result |}, e).

(** * Archives *)

Definition discard_stdout : writer bytes := fun stderr content kept =>
  ((Z.of_nat (length content), None), if stderr then kept ++ content else kept).
Definition k8s_UploadArchive (ctx : Ctx) (id destination : string) (archive : bytes) : M W error :=
  if String.eqb destination "" || negb (HasPrefix destination "/") || ContainsByte destination NUL
  then ret (Some (ENew "deployment upload destination must be absolute"))
  else
    let* (e, _, stderr) := execInPod discard_stdout ctx id (Some archive) ["tar"; "-x"; "-f"; "-"; "-C"; destination]%string [] in
    ret (match e with
         | Some e => Some (EWrap "extract archive in Kubernetes pod" (with_said e stderr))
         | None => None
         end).

(** A stream that is read to its end: its content, and the error that ends it. *)
Definition k8s_DownloadArchive (ctx : Ctx) (id source : string) : M W ((bytes * error) * FileInfo + err) :=
  match k8s_cleanContainerPath source with
  | Some e => ret (inr (EWrap "invalid deployment download source" e))
  | None =>
      let* (stat, e) := k8s_Exec ctx id (file_command "stat" ["-c"; "%s %f"; source]%string "" 0) in
      match e with
      | Some e => ret (inr (EWrap "inspect deployment archive source" e))
      | None =>
          if negb (cr_ExitCode stat =? 0) then
            let text := ENew (TrimSpace (cr_Stderr stat)) in
            ret (inr (if Contains (to_bytes (cr_Stderr stat)) (to_bytes "No such file")
                      then EWraps "deployment archive: " (ESentinel ErrNotFound) text
                      else EWrap "inspect deployment archive source" text))
          else match parseStat (cr_Stdout stat) with
               | inr e => ret (inr e)
               | inl info =>
                   let* (e, _, (content, stderr)) := execInPod append_streams (WithCancel ctx) id None
                                                       ["tar"; "-c"; "-f"; "-"; "-C"; Dir source; Base source]%string ([], []) in
                   ret (inl ((content, match e with
                                       | Some e => Some (EWrap "archive Kubernetes pod path" (with_said e stderr))
                                       | None => None
                                       end), info))
               end
      end
  end.

(** * Files *)

Definition notDirectoryExit : Z := 20.
Definition isDirectoryExit : Z := 21.
Definition missingExit : Z := 66.
Definition refusedExit : Z := 77.
Definition script (l : list string) : string := String.concat nl l.
Definition statScript : string :=
  script ["export LC_ALL=C"; "stat -L -c '%s %f' -- " +:+ QUOTE1 "$1" +:+ " && exit 0";
          "[ -e " +:+ QUOTE1 "$1" +:+ " ] && exit 1"; "exit 66"]%string.
Definition openScript : string :=
  script ["export LC_ALL=C";
          "i=$(stat -L -c '%s %f' -- " +:+ QUOTE1 "$1" +:+ ") || { [ -e " +:+ QUOTE1 "$1" +:+ " ] && exit 1; exit 66; }";
          "if [ -f " +:+ QUOTE1 "$1" +:+ " ]; then [ -r " +:+ QUOTE1 "$1" +:+ " ] || exit 77; fi";
          "printf '%s\n' " +:+ QUOTE1 "$i"; "[ -f " +:+ QUOTE1 "$1" +:+ " ] || exit 0"; "exec cat -- " +:+ QUOTE1 "$1"]%string.
Definition prepareScript : string :=
  script ["export LC_ALL=C"; "umask 022"; "t=$1";
          "if [ -L " +:+ QUOTE1 "$t" +:+ " ]; then t=$(readlink -f -- " +:+ QUOTE1 "$t" +:+ ") && [ -n " +:+ QUOTE1 "$t" +:+ " ] || exit 1; fi";
          "[ -d " +:+ QUOTE1 "$t" +:+ " ] && exit 21"; "d=${t%/*}; d=${d:-/}; b=$d";
          "while [ ! -e " +:+ QUOTE1 "$b" +:+ " ]; do b=${b%/*}; b=${b:-/}; done"; "[ -d " +:+ QUOTE1 "$b" +:+ " ] || exit 20";
          "[ -w " +:+ QUOTE1 "$b" +:+ " ] && [ -x " +:+ QUOTE1 "$b" +:+ " ] || exit 77"; "mkdir -p -- " +:+ QUOTE1 "$d" +:+ " || exit 1";
          "c=1 m=644";
          "if [ -e " +:+ QUOTE1 "$t" +:+ " ]; then [ -w " +:+ QUOTE1 "$t" +:+ " ] || exit 77; c=0; m=$(stat -L -c %a -- " +:+ QUOTE1 "$t" +:+ ") || exit 1; fi";
          "printf '%s\0%s\0%s\0%s\0' " +:+ QUOTE1 "$c" +:+ " " +:+ QUOTE1 "$m" +:+ " " +:+ QUOTE1 "$t" +:+ " " +:+ QUOTE1 "$d"]%string.
Definition streamScript : string :=
  "umask 022; cat >" +:+ QUOTE1 "$1" +:+ " && chmod -- " +:+ QUOTE1 "$2" +:+ " " +:+ QUOTE1 "$1".
Definition k8s_renameScript : string :=
  "n=$(wc -c <" +:+ QUOTE1 "$1" +:+ ") && [ $n -eq " +:+ QUOTE1 "$3" +:+ " ] && mv -f -- " +:+ QUOTE1 "$1" +:+ " " +:+ QUOTE1 "$2" +:+
  " || { rm -f -- " +:+ QUOTE1 "$1" +:+ "; exit 1; }".
Definition shell_script (text name : string) (args : list string) (execUser : string) : Command :=
  file_command "/bin/sh" (["-c"; text; name]%string ++ args) execUser 0.

Definition filePath (name : string) : string + err :=
  let clean := Clean name in
  if negb (HasPrefix clean "/") || ContainsByte clean NUL then inr (ENew "path must be absolute and NUL-free") else inl clean.
Definition fileFailure (action : string) (code : Z) (stderr : string) : err :=
  let with_sentinel s := EWrap action (ESentinel s) in
  if code =? missingExit then
    with_sentinel (if Contains (to_bytes stderr) (to_bytes "Permission denied") then ErrPermission else ErrNotExist)
  else if code =? refusedExit then with_sentinel ErrPermission
  else if code =? isDirectoryExit then with_sentinel EISDIR
  else if code =? notDirectoryExit then with_sentinel ENOTDIR
  else ENew (action +:+ ": exit " +:+ itoa code +:+ ": " +:+ TrimSpace stderr).
Definition execFailure (ctx : Ctx) (action : string) (e : err) (stderr : bytes) : M W err :=
  let* canceled := ctx_Err ctx in
  ret (match canceled with
       | Some c => ESentinel c
       | None =>
           match exit_code e with
           | Some code => if 0 <? code then fileFailure action code (of_bytes stderr) else EWrap action (with_said e stderr)
           | None => EWrap action (with_said e stderr)
           end
       end).

(** [fileInfo]: the base of the name, and the stat. *)
Definition file_info (clean : string) (stat : FileInfo) : string * FileInfo := (Base clean, stat).
Definition k8s_StatFile (ctx : Ctx) (id name : string) : M W ((string * FileInfo) + err) :=
  match filePath name with
  | inr e => ret (inr e)
  | inl clean =>
      let* (result, e) := k8s_Exec ctx id (shell_script statScript "aries-stat" [clean] "") in
      ret (match e with
           | Some e => inr (EWrap "stat Kubernetes path" e)
           | None =>
               if negb (cr_ExitCode result =? 0) then inr (fileFailure "stat Kubernetes path" (cr_ExitCode result) (cr_Stderr result))
               else match parseStat (cr_Stdout result) with inr e => inr e | inl stat => inl (file_info clean stat) end
           end)
  end.

(** [OpenFile]: the stat line, then the content of a regular file. *)
Fixpoint first_line (s : bytes) : option (bytes * bytes) :=
  match s with
  | [] => None
  | c :: s =>
      if Ascii.eqb c NL then Some ([c], s)
      else match first_line s with Some (line, rest) => Some (c :: line, rest) | None => None end
  end.
Definition k8s_OpenFile (ctx : Ctx) (id name : string) : M W ((bytes * error) * (string * FileInfo) + err) :=
  match filePath name with
  | inr e => ret (inr e)
  | inl clean =>
      let* (e, _, (content, stderr)) := execInPod append_streams (WithCancel ctx) id None
                                          ["/bin/sh"; "-c"; openScript; "aries-read"; clean]%string ([], []) in
      let* ending := match e with
                     | Some e => let* e := execFailure (WithCancel ctx) "read Kubernetes file" e stderr in ret (Some e)
                     | None => ret None
                     end in
      ret (match first_line content with
           | None => inr (default (ENew "read Kubernetes file: no stat line") ending)
           | Some (line, rest) =>
               match parseStat (of_bytes line) with
               | inr e => inr e
               | inl stat =>
                   if mode_IsRegular (fi_Mode stat) then inl ((rest, ending), file_info clean stat)
                   else inl (([], None), file_info clean stat)
               end
           end)
  end.
End Exec.

(** ** Write *)

Class KubeRandom (W : Type) := { rand_Read : Z -> M W (bytes + err) }.
Definition k8s_randomID {W} `{!KubeRandom W} : M W (string + err) :=
  let* value := rand_Read 8 in
  ret (match value with inl value => inl (of_bytes (hex_encode value)) | inr e => inr e end).

(** The goroutine that feeds the temporary file: what it offers, and the error it ends with
    when [taken] of that was taken before the command was over ([io.CopyN] fails for a
    negative size with [io.ErrUnexpectedEOF]). *)
Definition offered (content : Content) (size : Z) : bytes := take (Z.to_nat size) (ct_bytes content).
Definition stream_error (content : Content) (size taken : Z) : error :=
  let have := Z.of_nat (length (ct_bytes content)) in
  if taken <? Z.of_nat (length (offered content size)) then Some (ENew "io: read/write on closed pipe")
  else if size <? 0 then Some (ENew "unexpected EOF")
  else if have <? size then Some (ct_end content)
  else if size <? have then Some (ENew "content is longer than its size")
  else if errors_Is (ct_end content) ErrEOF then None
  else Some (ct_end content).

(** What the preparation printed: whether the file is new, its mode, its path and that of
    its directory. *)
Definition parse_prepared (output : bytes) : option (bool * string * string * string) :=
  match map of_bytes (split_bytes NUL output) with
  | [created; mode; target; directory; rest] =>
      if String.eqb rest "" then Some (String.eqb created "1", mode, target, directory) else None
  | _ => None
  end.
Definition exit_text (result : CommandResult) (stderr : string) : string :=
  "exit " +:+ itoa (cr_ExitCode result) +:+ ": " +:+ TrimSpace stderr.

Section Write.
Context {W : Type} `{!Runtime W} `{!Commands W} `{!KubeRandom W}.
Variable o : K8sOptions.

(** [removeTemporary], and the failure that is returned. *)
Definition k8s_removeTemporary (id name execUser : string) : M W unit :=
  let* _ := k8s_Exec o (WithTimeout Background (ko_CleanupTimeout o)) id (file_command "rm" ["-f"; "--"; name]%string execUser 0) in
  ret tt.
Definition abandon_stream (id temporary execUser : string) (e : err) : M W (bool * error) :=
  let* _ := k8s_removeTemporary id temporary execUser in ret (false, Some e).

Definition k8s_rename (ctx : Ctx) (id temporary target execUser : string) (size : Z) (created : bool) : M W (bool * error) :=
  let* (result, e) := k8s_Exec o (WithTimeout (WithoutCancel ctx) (ko_CleanupTimeout o)) id
                        (shell_script k8s_renameScript "aries-write" [temporary; target; itoa size] execUser) in
  match e with
  | Some e => abandon_stream id temporary execUser (EWrap "rename Kubernetes file into place" e)
  | None =>
      if negb (cr_ExitCode result =? 0)
      then abandon_stream id temporary execUser (ENew ("rename Kubernetes file into place: " +:+ exit_text result (cr_Stderr result)))
      else ret (created, None)
  end.
Definition k8s_stream (ctx : Ctx) (id temporary mode target execUser : string) (content : Content) (size : Z) (created : bool) :
    M W (bool * error) :=
  let* (result, e, stderr, taken) :=
    k8s_ExecStream o ctx id (shell_script streamScript "aries-write" [temporary; mode] execUser) (Some (offered content size))
      discard_stdout [] in
  let copyErr := stream_error content size taken in
  let* canceled := ctx_Err ctx in
  match canceled with
  | Some c => abandon_stream id temporary execUser (ESentinel c)
  | None =>
      let e := match e with
               | None => if negb (cr_ExitCode result =? 0) then Some (ENew (exit_text result (of_bytes stderr))) else None
               | e => e
               end in
      match errors_Join [e; copyErr] with
      | Some e => abandon_stream id temporary execUser (EWrap "write Kubernetes file" e)
      | None => k8s_rename ctx id temporary target execUser size created
      end
  end.
Definition k8s_WriteFile (ctx : Ctx) (id name : string) (content : Content) (size : Z) (execUser : string) : M W (bool * error) :=
  let failed e : M W (bool * error) := ret (false, Some e) in
  match filePath name with
  | inr e => failed e
  | inl clean =>
      if String.eqb clean "/" then failed (ESentinel EISDIR)
      else
        let* (result, e, (prepared, stderr), _) :=
          k8s_ExecStream o ctx id (shell_script prepareScript "aries-write" [clean] execUser) None append_streams ([], []) in
        match e with
        | Some e => failed (EWrap "prepare Kubernetes file" e)
        | None =>
            if negb (cr_ExitCode result =? 0)
            then failed (fileFailure "prepare Kubernetes file" (cr_ExitCode result) (of_bytes stderr))
            else
              match parse_prepared prepared with
              | None => failed (ENew ("prepare Kubernetes file: unexpected output " +:+ quote (of_bytes prepared)))
              | Some (created, mode, target, directory) =>
                  let* token := k8s_randomID in
                  match token with
                  | inr e => failed (EWrap "generate Kubernetes write name" e)
                  | inl token =>
                      k8s_stream ctx id (Join [directory; ".aries-tmp-" +:+ token]%string) mode target execUser content size created
                  end
              end
        end
  end.
End Write.

(** * The deployment of the harnesses *)

(** An operation on the manager's forwards, and one that leaves them alone. *)
Definition with_forwards {W A} (m : Forwards -> M W (A * Forwards)) :
    M (W * Forwards) A := fun s =>
  let '((a, held), w) := m s.2 s.1 in (a, (w, held)).
Definition apart {W A} (m : M W A) : M (W * Forwards) A := fun s => let (a, w) := m s.1 in (a, (w, s.2)).
Definition kubernetes_deployment {W} `{!Runtime W} `{!Commands W} `{!KubeLibrary} `{!PortForwards W} (o : K8sOptions)
    (start : Ctx -> string -> Z -> M W (portForward + err)) : HarnessDeployment (W * Forwards) := {|
  hd_Create ctx request := apart (k8s_Create o ctx request);
  hd_Validate ctx id request secrets := apart (k8s_Validate o ctx id request secrets);
  hd_UploadArchive ctx id path archive := apart (k8s_UploadArchive o ctx id path archive);
  hd_DownloadArchive ctx id path limit :=
    apart (let* r := k8s_DownloadArchive o ctx id path in
           ret (match r with inl (content, _) => inl (read_limited limit content) | inr e => inr e end));
  hd_Start ctx id := apart (k8s_Start o ctx id);
  hd_Running ctx id := apart (k8s_Running o ctx id);
  hd_Logs ctx id limit := apart (k8s_Logs o ctx id limit);
  hd_Address ctx id port := with_forwards (k8s_Address o start ctx id port);
  hd_Exec ctx id command := apart (k8s_Exec o ctx id command);
  hd_Stop ctx id := with_forwards (k8s_Stop o ctx id);
  hd_Close := with_forwards k8s_Close
|}.
