(* ===== verification/KubeTheorems.v ===== *)
(** The manifest of a pod and its validation ([pkg/deployment/kubernetes]): the manifest reads
    back as the pod that was asked for, which the validation accepts, and a pod that the
    validation accepts has what was asked for.

    What the Kubernetes deployment promises: a stop that succeeds has seen the pod gone and
    holds none of its port-forwards, and over a cluster that answers truthfully the
    deployment keeps the contract of [DockerContract], so a harness that uses it leaves
    nothing behind. *)

From S2P Require Import Prelude Utf8 Trace Paths Net Core Redaction JsonFields Deployments HarnessConfig Docker DockerTheorems.
From S2P Require Import Kubernetes Credentials HarnessRuntime DockerExec DockerContract KubeExec.

(** * Decoding *)

Definition field_step {A} (name : string) (decoded : decoder A) (acc : option A) (member : string * json) : option A :=
  acc ≫= fun a =>
    if same_field name member.1 then match member.2 with JNull => Some a | value => decoded value end else Some a.
Lemma field_of_step {A} name (zero : A) decoded members : field_of name zero decoded members = foldl (field_step name decoded) (Some zero) members.
Proof. done. Qed.
Lemma fold_other {A} name (decoded : decoder A) acc other value members : same_field name other = false ->
  foldl (field_step name decoded) acc ((other, value) :: members) = foldl (field_step name decoded) acc members.
Proof. intros H. simpl. f_equal. unfold field_step. simpl. rewrite H. by destruct acc. Qed.
Lemma fold_this {A} name (decoded : decoder A) acc other value members : same_field name other = true -> value <> JNull ->
  foldl (field_step name decoded) (Some acc) ((other, value) :: members) = foldl (field_step name decoded) (decoded value) members.
Proof. intros H Hv. simpl. f_equal. unfold field_step. simpl. rewrite H. by destruct value. Qed.
Lemma fold_none {A} name (decoded : decoder A) members : foldl (field_step name decoded) None members = None.
Proof. by induction members. Qed.
Lemma fold_if_other {A} name (decoded : decoder A) acc b other value : same_field name other = false ->
  foldl (field_step name decoded) acc (member_if b other value) = acc.
Proof. intros H. destruct b; [|done]. by apply (fold_other name decoded acc other value []). Qed.
Lemma fold_if_this {A} name (decoded : decoder A) acc b other value : same_field name other = true -> value <> JNull ->
  foldl (field_step name decoded) (Some acc) (member_if b other value) = if b then decoded value else Some acc.
Proof. intros H Hv. destruct b; [|done]. by apply (fold_this name decoded acc other value []). Qed.

(** Reads the fields of a list of members with constant names. *)
Ltac read_fields :=
  rewrite ?field_of_step, ?foldl_app;
  repeat first
    [ match goal with
      | |- context [foldl (field_step ?n ?d) ?acc ((?m, ?v) :: ?l)] =>
          lazymatch (eval vm_compute in (same_field n m)) with
          | false => rewrite (fold_other n d acc m v l) by (vm_cast_no_check (eq_refl false))
          | true => lazymatch acc with Some ?a => rewrite (fold_this n d a m v l) by first [discriminate | vm_cast_no_check (eq_refl true)] end
          end
      | |- context [foldl (field_step ?n ?d) ?acc (member_if ?b ?m ?v)] =>
          lazymatch (eval vm_compute in (same_field n m)) with
          | false => rewrite (fold_if_other n d acc b m v) by (vm_cast_no_check (eq_refl false))
          | true => lazymatch acc with Some ?a => rewrite (fold_if_this n d a b m v) by first [discriminate | vm_cast_no_check (eq_refl true)] end
          end
      | |- context [foldl ?f ?acc []] => change (foldl f acc []) with acc
      end ];
  cbn [string_value bool_value].

Lemma mapM_JString (l : list string) :
  mapM (fun item => match item with JNull => Some ""%string | item => string_value item end) (map JString l) = Some l.
Proof. induction l as [|s l IH]; [done|]. simpl. by rewrite IH. Qed.
Lemma list_value_strings l : list_value ""%string string_value (strings_json l) = Some l.
Proof. apply mapM_JString. Qed.
Lemma strings_value_map m : strings_value (map_json m) = Some m.
Proof.
  unfold strings_value, map_json. rewrite <- map_rev.
  assert (forall l : list (string * string),
    mapM (fun m => pair m.1 <$> match m.2 with JNull => Some ""%string | item => string_value item end)
      (map (fun kv => (kv.1, JString kv.2)) l) = Some l) as ->.
  { intros l. apply mapM_Some_2. by induction l as [|[k v] l IH]; constructor. }
  simpl. f_equal. rewrite <- (list_to_map_to_list m) at 2. symmetry. apply list_to_map_proper.
  - apply NoDup_fst_map_to_list.
  - apply Permutation_rev.
Qed.

(** * The manifest reads back *)

(** The pod that a request describes. *)
Definition described_metadata (o : K8sOptions) (request : Request) : PodMetadata :=
  {| pm_Name := rt_Name request; pm_Namespace := ko_Namespace o;
     pm_Labels := default ∅ (strings_value (JObject (pod_labels request))); pm_Annotations := rt_Labels request;
     pm_DeletionTimestamp := "" |}.
Definition described_container (FormatFloat : float64 -> string) (o : K8sOptions) (request : Request) (command : list string) :
    PodContainer :=
  {| pc_Image := k8s_image o (rt_Image request); pc_Command := command; pc_Args := []; pc_WorkingDir := rt_Workdir request;
     pc_SecurityContext := if rt_NoNewPrivileges request
                           then Some {| sc_AllowPrivilegeEscalation := Some false; sc_Privileged := None |} else None;
     pc_Limits := resourceLimits FormatFloat request |}.
Definition described_spec (FormatFloat : float64 -> string) (o : K8sOptions) (request : Request) (command : list string) : PodSpec :=
  {| px_NodeName := ""; px_HostNetwork := false; px_HostPID := false; px_HostIPC := false;
     px_AutomountServiceAccountToken := Some (negb (String.eqb (ko_ServiceAccount o) ""));
     px_Containers := [described_container FormatFloat o request command];
     px_Volumes := false :: map (fun _ => false) (ko_StagingDirs o) |}.

Lemma decode_labels request : exists labels, strings_value (JObject (pod_labels request)) = Some labels.
Proof. unfold pod_labels. destruct (labelValue _); by eexists. Qed.
Lemma decode_metadata o request :
  struct_value metadata_fields (metadata_json o request) = Some (described_metadata o request).
Proof.
  unfold metadata_json, described_metadata, struct_value, metadata_fields. destruct (decode_labels request) as [labels Hl].
  read_fields. rewrite strings_value_map, Hl. simpl. by destruct (bool_decide_reflect (rt_Labels request = ∅)) as [->|].
Qed.
Lemma decode_container FormatFloat o request command :
  struct_value container_fields (container_json FormatFloat o request command) = Some (described_container FormatFloat o request command).
Proof.
  assert (forall limits : gmap string string,
    struct_value limits_field (JObject [("limits", map_json limits); ("requests", map_json limits)]%string) = Some limits) as Hlimits
    by (intros limits; unfold struct_value, limits_field; read_fields; apply strings_value_map).
  assert (pointer_to (struct_value security_fields) (JObject [("allowPrivilegeEscalation"%string, JBool false)]) =
    Some (Some {| sc_AllowPrivilegeEscalation := Some false; sc_Privileged := None |})) as Hsecurity by done.
  unfold container_json, described_container, container_fields. cbv zeta. unfold struct_value at 1.
  read_fields. rewrite list_value_strings, Hlimits, Hsecurity. cbn [mbind option_bind].
  destruct (String.eqb_spec (rt_Workdir request) "") as [->|], (rt_NoNewPrivileges request),
    (bool_decide_reflect (resourceLimits FormatFloat request = ∅)) as [->|]; done.
Qed.
Lemma decode_volumes o : list_value false (struct_value volume_field) (JArray (empty_volume "aries-gate" :: staging_volumes o)) =
  Some (false :: map (fun _ => false) (ko_StagingDirs o)).
Proof.
  assert (forall name, struct_value volume_field (empty_volume name) = Some false) as Hv
    by (intros name; unfold empty_volume, struct_value, volume_field; by read_fields).
  apply mapM_Some_2. constructor; [apply (Hv "aries-gate"%string)|]. unfold staging_volumes.
  assert (forall (names : nat -> string) (l : list string), Forall2 (fun item b =>
    match item with JNull => Some false | item => struct_value volume_field item end = Some b)
    (imap (fun index _ => empty_volume (names index)) l) (map (fun _ => false) l)) as H.
  { intros names l. revert names. induction l as [|d l IH]; intros names; simpl; constructor; [apply (Hv (names 0%nat))|].
    apply (IH (fun i => names (S i))). }
  apply H.
Qed.
Lemma decode_spec FormatFloat o request command :
  struct_value spec_fields (spec_json FormatFloat o request command) = Some (described_spec FormatFloat o request command).
Proof.
  assert (list_value no_container (struct_value container_fields) (JArray [container_json FormatFloat o request command]) =
    Some [described_container FormatFloat o request command]) as Hc by
    (apply mapM_Some_2; constructor; [apply decode_container|constructor]).
  unfold spec_json, described_spec, spec_fields. cbv zeta. unfold struct_value at 1.
  read_fields. by rewrite Hc, decode_volumes.
Qed.
Lemma decode_described FormatFloat o request command :
  decode_pod (pod_json FormatFloat o request command) =
  Some {| po_Metadata := described_metadata o request; po_Spec := described_spec FormatFloat o request command; po_Status := no_status |}.
Proof.
  unfold decode_pod, pod_json, pod_fields. unfold struct_value at 1. read_fields. by rewrite decode_metadata, decode_spec.
Qed.

(** * What the validation confirms *)

Record confirmed_container (o : K8sOptions) (request : Request) (container : PodContainer) : Prop := {
  cf_command : gatedCommand request = inl (pc_Command container);
  cf_image : pc_Image container = k8s_image o (rt_Image request);
  cf_args : pc_Args container = [];
  cf_workdir : rt_Workdir request <> ""%string -> pc_WorkingDir container = rt_Workdir request;
  cf_no_new_privileges : rt_NoNewPrivileges request = true ->
    (pc_SecurityContext container ≫= sc_AllowPrivilegeEscalation) = Some false;
  cf_privileged : (pc_SecurityContext container ≫= sc_Privileged) <> Some true
}.
Record confirmed (o : K8sOptions) (id : string) (request : Request) (pod : podObject) : Prop := {
  cf_name : pm_Name (po_Metadata pod) = id;
  cf_requested_name : rt_Name request <> ""%string -> id = rt_Name request;
  cf_namespace : pm_Namespace (po_Metadata pod) = ko_Namespace o;
  cf_annotations : forall key value, rt_Labels request !! key = Some value ->
    default ""%string (pm_Annotations (po_Metadata pod) !! key) = value;
  cf_container : exists container, px_Containers (po_Spec pod) = [container] /\ confirmed_container o request container;
  cf_host_namespaces : px_HostNetwork (po_Spec pod) = false /\ px_HostPID (po_Spec pod) = false /\ px_HostIPC (po_Spec pod) = false;
  cf_host_paths : Forall (fun host => host = false) (px_Volumes (po_Spec pod));
  cf_token : ko_ServiceAccount o = ""%string -> px_AutomountServiceAccountToken (po_Spec pod) = Some false
}.

Lemma existsb_false (l : list bool) : existsb (fun b => b) l = false <-> Forall (fun b => b = false) l.
Proof. induction l as [|b l IH]; simpl; [by split|]. rewrite orb_false_iff, Forall_cons. naive_solver. Qed.
Lemma guarded_eqb (a b c : string) : negb (String.eqb a "") && negb (String.eqb b c) = false <-> (a <> ""%string -> b = c).
Proof. destruct (String.eqb_spec a ""), (String.eqb_spec b c); naive_solver. Qed.
Lemma escalates_false container : escalates container = false <-> (pc_SecurityContext container ≫= sc_AllowPrivilegeEscalation) = Some false.
Proof. unfold escalates. destruct (pc_SecurityContext container) as [[[[]|] p]|]; naive_solver. Qed.
Lemma privileged_false container : privileged container = false <-> (pc_SecurityContext container ≫= sc_Privileged) <> Some true.
Proof. unfold privileged. destruct (pc_SecurityContext container) as [[e [[]|]]|]; naive_solver. Qed.
Lemma validate_pod_confirmed o id request pod : validate_pod o id request pod = None <-> confirmed o id request pod.
Proof.
  unfold validate_pod. rewrite !seq_error_nil, !refuse_if_nil, !orb_false_iff, !negb_false_iff, !String.eqb_eq, guarded_eqb.
  unfold annotated. rewrite labels_match_spec.
  match goal with |- _ /\ _ /\ ?checks = None <-> _ => assert (checks = None <->
    (exists container, px_Containers (po_Spec pod) = [container] /\ confirmed_container o request container) /\
    (px_HostNetwork (po_Spec pod) = false /\ px_HostPID (po_Spec pod) = false /\ px_HostIPC (po_Spec pod) = false) /\
    Forall (fun host => host = false) (px_Volumes (po_Spec pod)) /\
    (ko_ServiceAccount o = ""%string -> px_AutomountServiceAccountToken (po_Spec pod) = Some false)) as -> end.
  { destruct (px_Containers (po_Spec pod)) as [|container [|]]; [naive_solver| |naive_solver].
    destruct (gatedCommand request) as [command|e] eqn:Hg.
    2: { split; [done|]. intros [(c & _ & []) _]. congruence. }
    rewrite !seq_error_nil, !refuse_if_nil, !orb_false_iff, !negb_false_iff, !bool_decide_eq_true, String.eqb_eq, guarded_eqb,
      privileged_false, existsb_false.
    assert (rt_NoNewPrivileges request && escalates container = false <->
      (rt_NoNewPrivileges request = true -> escalates container = false)) as -> by (destruct (rt_NoNewPrivileges request); naive_solver).
    assert (String.eqb (ko_ServiceAccount o) "" && default true (px_AutomountServiceAccountToken (po_Spec pod)) = false <->
      (ko_ServiceAccount o = ""%string -> px_AutomountServiceAccountToken (po_Spec pod) = Some false)) as ->
      by (destruct (String.eqb_spec (ko_ServiceAccount o) ""), (px_AutomountServiceAccountToken (po_Spec pod)) as [[]|]; naive_solver).
    rewrite escalates_false. split.
    - intros ([[Hi <-] Ha] & Hw & Hn & Hp & [[H1 H2] H3] & Hv & Ht). split_and!; [|done|done|done|done|done].
      exists container. by repeat split.
    - intros ((c & [= <-] & []) & (H1 & H2 & H3) & Hv & Ht). split_and!; try done. congruence. }
  split; [intros ([[H1 H2] H3] & H4 & H5 & H6 & H7 & H8); by split|]. by intros [].
Qed.

(** The limits that a request asks for, by the names that Kubernetes gives to resources. *)
Record limited (FormatFloat : float64 -> string) (request : Request) (limits : gmap string string) : Prop := {
  li_cpu : limits !! "cpu"%string = FormatFloat <$> rt_CPU request;
  li_memory : limits !! "memory"%string = (fun megabytes => itoa megabytes +:+ "Mi")%string <$> rt_MemoryMB request;
  li_storage : limits !! "ephemeral-storage"%string =
    if 0 <? rt_StorageMB request then Some (itoa (rt_StorageMB request) +:+ "Mi")%string else None;
  li_gpu : limits !! "nvidia.com/gpu"%string = if 0 <? rt_GPUs request then Some (itoa (rt_GPUs request)) else None;
  li_other : forall name, name ∉ ["cpu"; "memory"; "ephemeral-storage"; "nvidia.com/gpu"]%string -> limits !! name = None
}.
Lemma resourceLimits_limited FormatFloat request : limited FormatFloat request (resourceLimits FormatFloat request).
Proof.
  unfold resourceLimits. cbv zeta. split.
  5: intros name Hn; rewrite !not_elem_of_cons in Hn; destruct Hn as (H1 & H2 & H3 & H4 & _).
  all: destruct (0 <? rt_GPUs request), (0 <? rt_StorageMB request), (rt_MemoryMB request), (rt_CPU request);
    rewrite ?lookup_insert_ne, ?lookup_insert_eq, ?lookup_singleton_ne, ?lookup_singleton_eq by done;
    rewrite ?lookup_insert_ne, ?lookup_insert_eq, ?lookup_singleton_ne, ?lookup_singleton_eq, ?lookup_empty by done; done.
Qed.

(** The environment in a manifest, by an own reading of its member. *)
Definition env_variable (m : list (string * json)) : option (string * string) :=
  name ← field_of "name" ""%string string_value m;
  value ← field_of "value" ""%string string_value m;
  Some (name, value).
Definition container_environment (m : list (string * json)) : option (list (string * string)) :=
  field_of "env" [] (list_value ("", "")%string (struct_value env_variable)) m.
Definition pod_environment : decoder (list (list (string * string))) :=
  struct_value (field_of "spec" [] (struct_value (field_of "containers" [] (list_value [] (struct_value container_environment))))).
(** An entry [NAME=value] of a request and the variable it becomes. *)
Definition assigns (entry : string) (variable : string * string) : Prop :=
  entry = variable.1 +:+ String "=" variable.2 /\ variable.1 <> ""%string /\ "="%char ∉ to_bytes variable.1.

Definition entry_variable (entry : string) : string * string := default (entry, ""%string) (Cut entry "=").
Lemma decode_variable entry : struct_value env_variable (env_json entry) = Some (entry_variable entry).
Proof.
  unfold env_json, entry_variable. destruct (Cut entry "=") as [[name value]|]; unfold struct_value, env_variable; by read_fields.
Qed.
Lemma decode_environment FormatFloat o request command :
  pod_environment (pod_json FormatFloat o request command) = Some [map entry_variable (rt_Env request)].
Proof.
  assert (list_value ("", "")%string (struct_value env_variable) (JArray (map env_json (rt_Env request))) =
    Some (map entry_variable (rt_Env request))) as Henv.
  { apply mapM_Some_2. induction (rt_Env request) as [|entry l IH]; simpl; constructor; [|done]. rewrite decode_variable.
    unfold env_json. by destruct (Cut entry "=") as [[]|]. }
  assert (struct_value container_environment (container_json FormatFloat o request command) = Some (map entry_variable (rt_Env request))) as Hc.
  { unfold container_json, container_environment. cbv zeta. unfold struct_value at 1. read_fields. rewrite Henv.
    destruct (bool_decide_reflect (rt_Env request = [])) as [->|]; done. }
  assert (list_value [] (struct_value container_environment) (JArray [container_json FormatFloat o request command]) =
    Some [map entry_variable (rt_Env request)]) as Hcs by (apply mapM_Some_2; constructor; [exact Hc|constructor]).
  unfold pod_environment, pod_json, spec_json. cbv zeta. unfold struct_value at 1. read_fields.
  unfold struct_value at 1. by read_fields.
Qed.
Lemma assigned entries : first_error check_entry entries = None -> Forall2 assigns entries (map entry_variable entries).
Proof.
  rewrite first_error_nil. induction 1 as [|entry entries H]; simpl; constructor; [|done].
  unfold check_entry in H. rewrite refuse_if_nil in H. unfold assigns, entry_variable.
  destruct (Cut entry "=") as [[name value]|] eqn:Hcut; [|done]. apply Cut_sound in Hcut as [-> Hn]. apply String.eqb_neq in H. done.
Qed.
Lemma labels_described o request :
  pm_Labels (described_metadata o request) !! managedByLabel = Some "aries"%string /\
  pm_Labels (described_metadata o request) !! runtimeLabel = Some (rt_Name request).
Proof.
  simpl. unfold pod_labels. destruct (labelValue _); simpl; split;
    rewrite ?lookup_insert_ne, ?lookup_insert_eq by done; rewrite ?lookup_insert_ne, ?lookup_insert_eq by done; done.
Qed.

(** C11. The manifest of an accepted request reads back as the pod that was asked for: under
    the requested name, in the namespace of the deployment, with the labels that mark it as a
    runtime of this harness and the requested annotations; one container with the
    requested command behind the gate, the mapped image, the requested working directory,
    exactly the variables of the requested environment, exactly the requested limits of CPU,
    memory, storage and GPUs and no other, and no new privileges where that was asked; no
    namespace and no volume of the host, and no token without a service account. Whatever
    status the cluster adds, the validation accepts this pod. *)
Theorem k8s_manifest_validates (FormatFloat : float64 -> string) (json_Marshal : json -> bytes + err) (o : K8sOptions)
    (request : Request) :
  k8s_validateRequest o request = None ->
  exists manifest pod container variables,
    podManifest FormatFloat json_Marshal o request = json_Marshal manifest /\
    decode_pod manifest = Some pod /\
    pm_Name (po_Metadata pod) = rt_Name request /\ pm_Namespace (po_Metadata pod) = ko_Namespace o /\
    pm_Labels (po_Metadata pod) !! managedByLabel = Some "aries"%string /\
    pm_Labels (po_Metadata pod) !! runtimeLabel = Some (rt_Name request) /\
    pm_Annotations (po_Metadata pod) = rt_Labels request /\
    px_Containers (po_Spec pod) = [container] /\
    pc_Command container = ["/bin/sh"; "-c"; gateShell; "aries-gate"]%string ++ requested_command request /\
    pc_Args container = [] /\ pc_Image container = k8s_image o (rt_Image request) /\ pc_WorkingDir container = rt_Workdir request /\
    limited FormatFloat request (pc_Limits container) /\
    (rt_NoNewPrivileges request = true -> (pc_SecurityContext container ≫= sc_AllowPrivilegeEscalation) = Some false) /\
    (pc_SecurityContext container ≫= sc_Privileged) <> Some true /\
    pod_environment manifest = Some [variables] /\ Forall2 assigns (rt_Env request) variables /\
    px_HostNetwork (po_Spec pod) = false /\ px_HostPID (po_Spec pod) = false /\ px_HostIPC (po_Spec pod) = false /\
    Forall (fun host => host = false) (px_Volumes (po_Spec pod)) /\
    (ko_ServiceAccount o = ""%string -> px_AutomountServiceAccountToken (po_Spec pod) = Some false) /\
    forall status, validate_pod o (rt_Name request) request
      {| po_Metadata := po_Metadata pod; po_Spec := po_Spec pod; po_Status := status |} = None.
Proof.
  intros Hv. unfold k8s_validateRequest in Hv. rewrite !seq_error_nil in Hv.
  destruct Hv as (_ & _ & _ & _ & _ & _ & _ & _ & _ & Henv & Hg). destruct (gatedCommand request) as [command|] eqn:Hc; [|done].
  assert (command = ["/bin/sh"; "-c"; gateShell; "aries-gate"]%string ++ requested_command request) as Heq
    by (unfold gatedCommand in Hc; repeat case_match; by simplify_eq).
  assert (Forall (fun host => host = false) (px_Volumes (described_spec FormatFloat o request command))) as Hvol
    by (simpl; constructor; [done|]; by induction (ko_StagingDirs o); constructor).
  destruct (labels_described o request) as [Hl1 Hl2].
  eexists (pod_json FormatFloat o request command), _, (described_container FormatFloat o request command), (map entry_variable (rt_Env request)).
  split; [unfold podManifest; by rewrite Hc|]. split; [apply decode_described|]. cbn [po_Metadata po_Spec].
  do 4 (split; [done|]). do 4 (split; [done|]). split; [done|]. split; [done|]. split; [apply resourceLimits_limited|].
  split; [simpl; by intros ->|]. split; [simpl; by destruct (rt_NoNewPrivileges request)|].
  split; [apply decode_environment|]. split; [by apply assigned|]. do 3 (split; [done|]). split; [done|]. split; [simpl; by intros ->|].
  intros status. apply validate_pod_confirmed. split; try done; simpl.
  - by intros key value ->.
  - exists (described_container FormatFloat o request command). split; [done|]. split; simpl; try done.
    + by intros ->.
    + by destruct (rt_NoNewPrivileges request).
  - by intros ->.
Qed.

(** * Runs of kubectl *)

(** What a run printed. *)
Definition printed (stderr : bool) (frames : list Frame) : bytes :=
  concat (map fm_payload (filter (fun frame => fm_stderr frame = stderr) frames)).
Definition stdout_of (ended : Ended) : bytes := printed false (ce_frames ended).

Lemma printed_cons stderr frame frames :
  printed stderr (frame :: frames) = (if Bool.eqb (fm_stderr frame) stderr then fm_payload frame else []) ++ printed stderr frames.
Proof. unfold printed. rewrite filter_cons. by destruct (fm_stderr frame), stderr. Qed.
Lemma copy_append frames out err :
  copy_streams append_streams frames (None, None) (out, err) = (None, (out ++ printed false frames, err ++ printed true frames)).
Proof.
  revert out err. induction frames as [|frame frames IH]; intros out err; [by rewrite !app_nil_r|].
  rewrite !printed_cons. destruct frame as [[] payload]; simpl; unfold short_write; rewrite Z.eqb_refl; simpl; rewrite IH;
    by rewrite <- app_assoc.
Qed.

Inductive kube_event :=
  | KRun (ctx : Ctx) (args : list string) (stdin : option bytes) (ended : Ended)
  | KForwardStop (goroutine : nat).
#[export] Instance traced_commands {W} `{!Commands W} : Commands (W * list kube_event) := {|
  command_Run ctx path stdin args := logged (KRun ctx args stdin) (command_Run ctx path stdin args);
  exit_code := exit_code
|}.
#[export] Instance traced_forwards {W} `{!PortForwards W} : PortForwards (W * list kube_event) := {|
  net_Listen address := silent (net_Listen address);
  listener_Close address := silent (listener_Close address);
  Spawn path args := silent (Spawn path args);
  cancel_and_wait goroutine := logged (fun _ => KForwardStop goroutine) (cancel_and_wait goroutine);
  lastErr goroutine := silent (lastErr goroutine);
  net_Dial address := silent (net_Dial address);
  await_retry ctx := silent (await_retry ctx)
|}.

(** The answer to a request for a pod shows that there is none of the name. *)
Definition shows_absent `{KubeLibrary} (id : string) (ended : Ended) : Prop :=
  ce_error ended = None /\
  (said (stdout_of ended) = ""%string \/
   exists pod, unmarshal_pod (stdout_of ended) = inl pod /\ pm_Name (po_Metadata pod) <> id).
Definition get_args (o : K8sOptions) (id : string) : list string :=
  ["get"; "pod"; "-n"; ko_Namespace o; id; "--ignore-not-found"; "-o"; "json"]%string.
Definition delete_args (o : K8sOptions) (id : string) : list string :=
  ["delete"; "pod"; "-n"; ko_Namespace o; id; "--ignore-not-found"; "--grace-period=5"; "--wait=true"]%string.

Section Runs.
Context {W : Type} `{!Runtime W} `{!Commands W} {Lib : KubeLibrary} `{!PortForwards W}.
Variable o : K8sOptions.
Abbreviation T := (W * list kube_event)%type.

Lemma run_emits ctx stdin args : emits (run (W := T) o ctx stdin args) (fun r evs =>
  exists ended, evs = [KRun ctx args stdin ended] /\ r.1 = stdout_of ended /\ (r.2 = None <-> ce_error ended = None)).
Proof.
  unfold run, kubectl_Run. apply emits_flatten. cbn [command_Run traced_commands]. apply emits_call. intros ended.
  rewrite copy_append. destruct (ce_error ended) as [e|] eqn:He; simpl.
  - apply emits_flatten, emits_read. intros canceled. apply emits_bind_ret, emits_ret. exists ended. by rewrite He.
  - apply emits_bind_ret, emits_ret. exists ended. by rewrite He.
Qed.
Lemma pod_emits ctx id : emits (k8s_pod (W := T) o ctx id) (fun r evs =>
  exists ended, evs = [KRun ctx (get_args o id) None ended] /\
    ((exists pod, r = inl (pod, false)) <-> shows_absent id ended) /\
    (forall pod, r = inl (pod, true) -> ce_error ended = None /\ unmarshal_pod (stdout_of ended) = inl pod /\ pm_Name (po_Metadata pod) = id)).
Proof.
  unfold k8s_pod. eapply emits_bind; [apply run_emits|]. intros [raw e] evs (ended & -> & Hraw & He). simpl in Hraw, He.
  apply emits_ret. exists ended. split; [done|]. rewrite Hraw. destruct e as [e|].
  { split; [|done]. split; [by intros [? ?]|]. intros [H _]. by apply He in H. }
  assert (ce_error ended = None) as Hok by (by apply He). unfold shows_absent.
  destruct (String.eqb_spec (said (stdout_of ended)) "") as [Hs|Hs].
  { split; [|by intros pod [= ]]. split; [by auto|]. intros _. by eexists. }
  destruct (unmarshal_pod _) as [pod|e]; [|split; [|done]; split; [by intros [? ?]|]; intros [_ [?|(? & ? & _)]]; done].
  split.
  - split.
    + intros [pod' [= <- Hn%String.eqb_neq]]. split; [done|]. right. by exists pod.
    + intros [_ [?|(pod' & [= <-] & Hn)]]; [done|]. exists pod. by rewrite (proj2 (String.eqb_neq _ _) Hn).
  - intros pod' [= <- Hn%String.eqb_eq]. done.
Qed.

Lemma stop_all_emits (forwards : list portForward) : emits (stop_all (W := T) forwards) (fun _ evs =>
  evs = map (fun forward => KForwardStop (fw_goroutine forward)) forwards).
Proof.
  induction forwards as [|forward forwards IH]; [by apply emits_ret|]. simpl. unfold forward_stop. apply emits_call. intros [].
  eapply emits_mono; [exact IH|]. by intros _ evs ->.
Qed.

(** Stopping a pod first stops every port-forward to it that the manager holds, and
    holds them no more; the others stay. Then kubectl is asked to delete this pod and, if
    that went well, to show it. The stop succeeds exactly when the deletion went well and
    the answer shows no pod of that name; without an identity nothing is done. *)
Theorem k8s_stop_confirms (ctx : Ctx) (id : string) (held : Forwards) :
  emits (k8s_Stop (W := T) o ctx id held) (fun r evs =>
    if String.eqb id "" then evs = [] /\ r = (None, held)
    else
      (forall key forward, r.2 !! key = Some forward <-> held !! key = Some forward /\ HasPrefix key (id +:+ ":") = false) /\
      exists deleted more,
        evs = map (fun kv => KForwardStop (fw_goroutine kv.2)) (map_to_list (forwards_of id held)) ++
              KRun ctx (delete_args o id) None deleted :: more /\
        ((ce_error deleted <> None /\ more = [] /\ is_Some r.1) \/
         exists got, ce_error deleted = None /\ more = [KRun ctx (get_args o id) None got] /\ (r.1 = None <-> shows_absent id got))).
Proof.
  unfold k8s_Stop. destruct (String.eqb id ""); [by apply emits_ret|].
  eapply emits_bind; [apply stop_all_emits|]. intros [] evs ->. unfold delete_pod. apply emits_flatten.
  assert (forall key forward, (held ∖ forwards_of id held) !! key = Some forward <->
    held !! key = Some forward /\ HasPrefix key (id +:+ ":") = false) as Hheld.
  { intros key forward. rewrite lookup_difference_Some. unfold forwards_of. rewrite map_lookup_filter_None. split.
    - intros [H [H'|H']]; [congruence|]. split; [done|]. specialize (H' _ H). simpl in H'. by destruct (HasPrefix _ _).
    - intros [H Hp]. split; [done|]. right. intros x Hx. simpl. congruence. }
  rewrite map_map. eapply emits_bind; [apply run_emits|]. intros [raw e] evs (deleted & -> & _ & He). simpl in He.
  destruct e as [e|].
  { apply emits_bind_ret, emits_ret. split; [done|]. exists deleted, []. split; [done|]. left.
    split_and!; [|done|by eexists]. intros H. by apply He in H. }
  apply emits_flatten. eapply emits_bind; [apply pod_emits|]. intros found evs (got & -> & Habsent & _).
  apply emits_bind_ret, emits_ret. split; [done|]. exists deleted, [KRun ctx (get_args o id) None got]. split; [done|].
  right. exists got. split_and!; [by apply He|done|]. rewrite <- Habsent. simpl. destruct found as [[pod []]|e].
  - split; [done|]. by intros [? ?].
  - split; [|done]. intros _. by eexists.
  - split; [done|]. by intros [? ?].
Qed.

(** The validation asks kubectl for the pod once, and changes nothing. It passes exactly
    when the request is one that the deployment can honour, kubectl answered with a pod that
    is the requested one ([confirmed]: its name, its annotations, the one container with the
    gated command and its privileges, no host namespace or path, no token), and no secret
    occurs anywhere in the answer. *)
Theorem k8s_validate_confirms (ctx : Ctx) (id : string) (request : Request) (secrets : list bytes) :
  emits (k8s_Validate (W := T) o ctx id request secrets) (fun e evs =>
    match k8s_validateRequest o request with
    | Some refused => evs = [] /\ e = Some refused
    | None => exists ended, evs = [KRun ctx ["get"; "pod"; "-n"; ko_Namespace o; id; "-o"; "json"]%string None ended] /\
        (e = None <-> ce_error ended = None /\ exists pod, unmarshal_pod (stdout_of ended) = inl pod /\ confirmed o id request pod /\
           forall secret, secret ∈ secrets -> secret <> [] -> Contains (stdout_of ended) secret = false)
    end).
Proof.
  unfold k8s_Validate. destruct (k8s_validateRequest o request) as [refused|]; [by apply emits_ret|].
  eapply emits_bind; [apply run_emits|]. intros [raw e] evs (ended & -> & Hraw & He). simpl in Hraw, He.
  apply emits_ret. exists ended. split; [done|]. rewrite Hraw. destruct e as [e|].
  { split; [done|]. intros [Hn _]. by apply He in Hn. }
  destruct (unmarshal_pod _) as [pod|e]; [|split; [done|]; by intros (_ & pod & ? & _)].
  rewrite seq_error_nil, refuse_if_nil, validate_pod_confirmed, <- not_true_iff_false, existsb_exists. split.
  - intros [Hc Hs]. split; [by apply He|]. exists pod. split_and!; [done|done|]. intros secret Hin Hne.
    apply not_true_iff_false. intros Hcon. apply Hs. exists secret. rewrite bool_decide_eq_false_2 by done.
    split; [by apply list_elem_of_In|done].
  - intros (_ & pod' & [= <-] & Hc & Hs). split; [done|]. intros (secret & Hin%list_elem_of_In & Hb).
    apply andb_true_iff in Hb as [Hb1 Hb2]. rewrite negb_true_iff, bool_decide_eq_false in Hb1. by rewrite (Hs secret Hin Hb1) in Hb2.
Qed.
End Runs.

(** * The contract *)

(** What the cluster does, as its API documents it and while nobody else uses these names: a
    creation adds at most the pod that its manifest names; a request for a pod changes
    nothing, and shows none only when there is none; a deletion removes at most the pod it
    names; no other command of kubectl adds or removes a pod. *)
Class TruthfulCluster {W} `{!Runtime W} `{!Commands W} {Lib : KubeLibrary} `{!PortForwards W} (o : K8sOptions)
    (pods : W -> gset string) : Prop := {
  cluster_context ctx w : pods (ctx_Err ctx w).2 = pods w;
  cluster_forward goroutine w : pods (cancel_and_wait goroutine w).2 = pods w;
  cluster_names w : ""%string ∉ pods w;
  cluster_create ctx request command manifest w :
    gatedCommand request = inl command -> kl_json_Marshal (pod_json kl_FormatFloat o request command) = inl manifest ->
    let w' := (command_Run ctx (ko_KubectlPath o) (Some manifest) ["create"; "-n"; ko_Namespace o; "-f"; "-"]%string w).2 in
    pods w' = pods w \/ pods w' = {[rt_Name request]} ∪ pods w;
  cluster_get ctx id w :
    let '(ended, w') := command_Run ctx (ko_KubectlPath o) None (get_args o id) w in
    pods w' = pods w /\ (shows_absent id ended -> id ∉ pods w);
  cluster_delete ctx id w :
    let w' := (command_Run ctx (ko_KubectlPath o) None (delete_args o id) w).2 in
    pods w' = pods w \/ pods w' = pods w ∖ {[id]};
  cluster_other ctx stdin args w :
    head args <> Some "create"%string -> head args <> Some "delete"%string ->
    pods (command_Run ctx (ko_KubectlPath o) stdin args w).2 = pods w
}.

(** The pods as runtimes: a pod's identity is its name. *)
Definition named (names : gset string) : gmap string string := set_to_map (fun name => (name, name)) names.
Lemma named_lookup names id name : named names !! id = Some name <-> id ∈ names /\ name = id.
Proof.
  unfold named. rewrite lookup_set_to_map by done. split.
  - intros (y & Hy & [= <- <-]). done.
  - intros [Hin ->]. by exists id.
Qed.
Lemma named_Some names id : is_Some (named names !! id) <-> id ∈ names.
Proof.
  split; [intros [name H]; by apply named_lookup in H as [? _]|].
  intros H. exists id. by apply named_lookup.
Qed.
Lemma named_None names id : named names !! id = None <-> id ∉ names.
Proof. rewrite eq_None_not_Some. by rewrite named_Some. Qed.
Lemma named_mono a b : a ⊆ b -> named a ⊆ named b.
Proof. intros H. apply map_subseteq_spec. intros id name [Hin ->]%named_lookup. apply named_lookup. set_solver. Qed.

Section Contract.
Context {W : Type} `{!Runtime W} `{!Commands W} {Lib : KubeLibrary} `{!PortForwards W} (o : K8sOptions) (pods : W -> gset string).
Context {Cluster : TruthfulCluster o pods}.
Implicit Types (w : W).

Definition keeps_pods {A} (m : M W A) : Prop := forall w, pods (m w).2 = pods w.
Lemma keeps_pods_bind {A B} (m : M W A) (f : A -> M W B) : keeps_pods m -> (forall a, keeps_pods (f a)) -> keeps_pods (bind m f).
Proof. intros Hm Hf w. unfold bind. specialize (Hm w). destruct (m w) as [a w']. simpl in Hm. by rewrite (Hf a w'). Qed.
Lemma keeps_pods_ret {A} (a : A) : keeps_pods (ret a).
Proof. done. Qed.

(** What a run of kubectl does to the pods is what its command does. *)
Lemma kubectl_pods {S} (write : writer S) ctx stdin args s w :
  pods (kubectl_Run o write ctx stdin args s w).2 = pods (command_Run ctx (ko_KubectlPath o) stdin args w).2.
Proof.
  unfold kubectl_Run, bind. destruct (command_Run ctx _ stdin args w) as [ended w']. simpl.
  destruct (copy_streams _ _ _ _) as [e s']. destruct (seq_error _ _); [|done].
  pose proof (cluster_context ctx w') as Hr. by destruct (ctx_Err ctx w').
Qed.
Lemma run_result ctx stdin args w :
  let '((raw, e), w') := run o ctx stdin args w in
  let '(ended, w1) := command_Run ctx (ko_KubectlPath o) stdin args w in
  pods w' = pods w1 /\ raw = stdout_of ended /\ (e = None <-> ce_error ended = None).
Proof.
  unfold run, bind at 1. pose proof (kubectl_pods append_streams ctx stdin args ([], []) w) as Hp.
  unfold kubectl_Run, bind in *. destruct (command_Run ctx _ stdin args w) as [ended w1]. simpl in Hp.
  rewrite copy_append in *. destruct (ce_error ended) as [e|] eqn:He; simpl in *; [|done].
  destruct (ctx_Err ctx w1) as [canceled w2]. done.
Qed.
Lemma keeps_run ctx stdin args : head args <> Some "create"%string -> head args <> Some "delete"%string ->
  keeps_pods (run o ctx stdin args).
Proof.
  intros H1 H2 w. pose proof (run_result ctx stdin args w) as Hr. pose proof (cluster_other ctx stdin args w H1 H2) as Hc.
  destruct (run o ctx stdin args w) as [[raw e] w'], (command_Run _ _ _ _ _) as [ended w1]. simpl in *. destruct Hr as [-> _]. done.
Qed.
(** A pod that is not found is not there. *)
Lemma pod_truth ctx id w :
  let '(found, w') := k8s_pod o ctx id w in
  pods w' = pods w /\ match found with inl (_, false) => id ∉ pods w | _ => True end.
Proof.
  unfold k8s_pod, bind. pose proof (run_result ctx None (get_args o id) w) as Hr. pose proof (cluster_get ctx id w) as Hc.
  unfold get_args in Hr, Hc. destruct (run o ctx None _ w) as [[raw e] w'], (command_Run _ _ _ _ w) as [ended w1].
  destruct Hr as (Hp & -> & He). destruct Hc as [Hw Habsent]. unfold ret. split; [congruence|].
  destruct e as [e|]; [done|]. assert (ce_error ended = None) as Hok by (by apply He).
  destruct (String.eqb_spec (said (stdout_of ended)) "") as [Hs|Hs]; [apply Habsent; split; [done|by left]|].
  destruct (unmarshal_pod _) as [pod|e] eqn:Hu; [|done]. destruct (String.eqb_spec (pm_Name (po_Metadata pod)) id); [done|].
  apply Habsent. split; [done|]. right. by exists pod.
Qed.
Lemma keeps_pod ctx id : keeps_pods (k8s_pod o ctx id).
Proof. intros w. pose proof (pod_truth ctx id w) as H. destruct (k8s_pod o ctx id w). apply H. Qed.

Lemma recoverCreate_finds ctx request cause w :
  let '((id, e), w') := recoverCreate o ctx request cause w in
  pods w' = pods w /\ (rt_Name request ∈ pods w -> id = rt_Name request \/ id = ""%string /\ unresolved e = true).
Proof.
  unfold recoverCreate, bind.
  pose proof (pod_truth (WithTimeout (WithoutCancel ctx) (ko_CleanupTimeout o)) (rt_Name request) w) as Hp.
  destruct (k8s_pod o _ _ w) as [found w']. destruct Hp as [Hw Hp]. unfold ret.
  assert (forall why, unresolved (k8s_unconfirmed cause why).2 = true) as Hun
    by (intros why; unfold unresolved, k8s_unconfirmed; simpl; by rewrite !orb_true_r).
  destruct found as [[pod []]|e]; simpl.
  - destruct (annotated request pod); (split; [done|]); intros _; [by left|right]. split; [done|exact (Hun _)].
  - done.
  - split; [done|]. intros _. right. split; [done|exact (Hun e)].
Qed.
Lemma keeps_waitingReason ctx name : keeps_pods (waitingReason o ctx name).
Proof. unfold waitingReason. apply keeps_pods_bind; [apply keeps_pod|]. intros found. apply keeps_pods_ret. Qed.
Lemma k8s_Create_accounts ctx request w :
  let '((id, e), w') := k8s_Create o ctx request w in
  pods w ⊆ pods w' /\ forall new, new ∈ pods w' -> new ∉ pods w -> new = id \/ id = ""%string /\ unresolved e = true.
Proof.
  assert (forall id (e : error) w', pods w' = pods w -> pods w ⊆ pods w' /\
    forall new, new ∈ pods w' -> new ∉ pods w -> new = id \/ id = ""%string /\ unresolved e = true) as Hsame
    by (intros id e w' ->; split; [done|]; set_solver).
  unfold k8s_Create. destruct (k8s_validateRequest o request); [by apply Hsame|]. unfold podManifest.
  destruct (gatedCommand request) as [command|] eqn:Hg; [|by apply Hsame].
  destruct (kl_json_Marshal _) as [manifest|] eqn:Hm; [|by apply Hsame]. unfold bind at 1.
  pose proof (run_result ctx (Some manifest) ["create"; "-n"; ko_Namespace o; "-f"; "-"]%string w) as Hr.
  pose proof (cluster_create ctx request command manifest w Hg Hm) as Hc.
  destruct (run o ctx _ _ w) as [[raw e] w1], (command_Run _ _ _ _ w) as [ended w1']. simpl in Hc.
  destruct Hr as (Hp & _ & _). rewrite <- Hp in Hc.
  assert (forall id (e : error) w', pods w' = pods w1 -> (rt_Name request ∈ pods w1 -> id = rt_Name request \/ id = ""%string /\ unresolved e = true) ->
    pods w ⊆ pods w' /\ forall new, new ∈ pods w' -> new ∉ pods w -> new = id \/ id = ""%string /\ unresolved e = true) as Hnew.
  { intros id e' w' -> Hid. destruct Hc as [Hc|Hc]; rewrite Hc in *; [by apply Hsame|]. split; [set_solver|].
    intros new [->%elem_of_singleton|]%elem_of_union Hn; [|done]. destruct Hid as [->|]; [set_solver|by left|by right]. }
  destruct e as [e|].
  - pose proof (recoverCreate_finds ctx request (EWrap "create Kubernetes pod" e) w1) as Hf.
    destruct (recoverCreate _ _ _ _ _) as [[id e'] w2]. destruct Hf as [Hw Hf]. by apply Hnew.
  - unfold bind at 1. match goal with |- context [run o ?c None ?a w1] => pose proof (keeps_run c None a ltac:(done) ltac:(done) w1) as Hk;
      destruct (run o c None a w1) as [[raw' e'] w2] end. simpl in Hk. destruct e' as [e'|].
    + unfold bind. pose proof (keeps_waitingReason ctx (rt_Name request) w2) as Hw. destruct (waitingReason _ _ _ _) as [reason w3].
      simpl in Hw. unfold ret. apply Hnew; [congruence|by left].
    + unfold ret. apply Hnew; [done|by left].
Qed.

Lemma keeps_stop_all forwards : keeps_pods (stop_all forwards).
Proof.
  induction forwards as [|forward forwards IH]; [apply keeps_pods_ret|]. simpl. apply keeps_pods_bind; [|done].
  intros w. apply cluster_forward.
Qed.
Lemma k8s_Stop_removes ctx id held w :
  let '((e, held'), w') := k8s_Stop o ctx id held w in
  pods w' ⊆ pods w /\ (e = None -> id <> ""%string -> id ∉ pods w') /\
  forall other, other ∈ pods w -> other <> id -> other ∈ pods w'.
Proof.
  unfold k8s_Stop. destruct (String.eqb_spec id "") as [->|Hid]; [by split_and!|]. unfold bind at 1.
  pose proof (keeps_stop_all (map snd (map_to_list (forwards_of id held))) w) as Hs.
  destruct (stop_all _ w) as [[] w1]. simpl in Hs. unfold delete_pod, bind at 1.
  pose proof (run_result ctx None (delete_args o id) w1) as Hr. pose proof (cluster_delete ctx id w1) as Hd.
  unfold delete_args in Hr, Hd. unfold bind at 1.
  destruct (run o ctx None _ w1) as [[raw e] w2], (command_Run _ _ _ _ w1) as [ended w2']. simpl in Hd.
  destruct Hr as (Hp & _ & _). rewrite <- Hp, Hs in Hd.
  assert (pods w2 ⊆ pods w /\ forall other, other ∈ pods w -> other <> id -> other ∈ pods w2) as [Hsub Hkept]
    by (destruct Hd as [-> | ->]; split; set_solver).
  destruct e as [e|]; [by split_and!|]. unfold bind. pose proof (pod_truth ctx id w2) as Ht.
  destruct (k8s_pod o ctx id w2) as [found w3]. destruct Ht as [Hw Ht]. unfold ret. rewrite Hw.
  split_and!; [done| |done]. destruct found as [[pod []]|e]; by intros.
Qed.
End Contract.

(** * The deployment of the harnesses keeps the contract *)

Section Deployment.
Context {W : Type} `{!Runtime W} `{!Commands W} {Lib : KubeLibrary} `{!PortForwards W} (o : K8sOptions) (pods : W -> gset string).
Context {Cluster : TruthfulCluster o pods}.

Definition runtimes_of (s : W * Forwards) : gmap string string := named (pods s.1).
Lemma apart_runtimes {A} (m : M W A) s : keeps_pods pods m -> runtimes_of (apart m s).2 = runtimes_of s.
Proof. intros H. unfold apart, runtimes_of. specialize (H s.1). by destruct (m s.1) as [a w] eqn:E; simpl in *; rewrite H. Qed.
Lemma keeps_Upload ctx id path archive : keeps_pods pods (k8s_UploadArchive o ctx id path archive).
Proof.
  unfold k8s_UploadArchive. destruct (_ || _); [done|]. apply keeps_pods_bind; [|by intros [[? ?] ?]].
  intros w. unfold execInPod. rewrite (kubectl_pods o pods). by apply cluster_other.
Qed.
Lemma keeps_k8s_Validate ctx id request secrets : keeps_pods pods (k8s_Validate o ctx id request secrets).
Proof.
  unfold k8s_Validate. destruct (k8s_validateRequest _ _); [done|]. apply keeps_pods_bind; [|by intros [? ?]].
  by apply (keeps_run o pods).
Qed.
Lemma keeps_k8s_Start ctx id : keeps_pods pods (k8s_Start o ctx id).
Proof. unfold k8s_Start. apply keeps_pods_bind; [|by intros [? ?]]. by apply (keeps_run o pods). Qed.

#[export] Instance kubernetes_contract start : RuntimeContract (kubernetes_deployment o start) runtimes_of.
Proof.
  split; simpl.
  - intros [w held] id Hin%named_Some ->. by apply (cluster_names w) in Hin.
  - intros ctx request [w held]. unfold apart, runtimes_of. simpl. pose proof (k8s_Create_accounts o pods ctx request w) as Hc.
    destruct (k8s_Create o ctx request w) as [[id e] w']. destruct Hc as [Hsub Hc]. simpl. split; [by apply named_mono|].
    intros new Hnew%named_Some Hold%named_None. by apply Hc.
  - intros ctx id path archive s. apply apart_runtimes, keeps_Upload.
  - intros ctx id request secrets s. apply apart_runtimes, keeps_k8s_Validate.
  - intros ctx id s. apply apart_runtimes, keeps_k8s_Start.
  - intros ctx id [w held]. unfold with_forwards, runtimes_of. simpl. pose proof (k8s_Stop_removes o pods ctx id held w) as Hs.
    destruct (k8s_Stop o ctx id held w) as [[e held'] w']. destruct Hs as (Hsub & Hgone & Hkept). simpl. split_and!.
    + by apply named_mono.
    + intros -> Hid. apply named_None. by apply Hgone.
    + intros other name [Hin ->]%named_lookup Hne _. apply named_lookup. split; [by apply Hkept|done].
Qed.

(** C10. Over a truthful cluster, a harness that starts a runtime on Kubernetes and then
    removes it leaves no pod that was not there before, whatever fails on the way: a lost
    answer to the creation, a pod that never runs, a validation that refuses it. The one
    exception is a start whose error says that the allocation is unconfirmed. *)
Theorem k8s_leaves_nothing {S} (start : Ctx -> string -> Z -> M W (portForward + err)) (label : string) (ctx : Ctx) (p : nat)
    (request : Request) (archive : bytes) (secrets : list bytes) (h : Harness S) (w : W) (held : Forwards) :
  is_Some (occurrence_at p h) ->
  let '((started, removed), (w', _)) :=
    start_and_remove (kubernetes_deployment o start) label ctx p request archive secrets h (w, held) in
  removed = None -> unresolved started = false -> pods w' ⊆ pods w.
Proof.
  intros Hp. pose proof (start_and_remove_leaves_nothing (kubernetes_deployment o start) runtimes_of label ctx p request archive
    secrets h (w, held) Hp) as H.
  destruct (start_and_remove _ _ _ _ _ _ _ _ _) as [[started removed] [w' held']]. intros Hr Hu id Hin.
  destruct (decide (id ∈ pods w)); [done|]. specialize (H Hr Hu id (proj2 (named_None _ _) n)). by apply named_None in H.
Qed.
End Deployment.

(** * Examples *)

(** A cluster that creates the pods it is asked for but loses the answer; the text of a pod
    is its name here. *)
Module KubeDemo.
Definition demo_pod (raw : bytes) : json :=
  JObject [("metadata", JObject [("name", JString (of_bytes raw)); ("annotations", JObject [("aries.run", JString "r1")])])]%string.
#[global] Instance demo_library : KubeLibrary := {|
  kl_json_Unmarshal raw := Some (demo_pod raw);
  kl_json_Marshal value := match decode_pod value with Some pod => inl (to_bytes (pm_Name (po_Metadata pod))) | None => inr (ENew "json") end;
  kl_FormatFloat _ := "1"%string;
  kl_ParseIP _ := false;
  kl_inCluster := false
|}.
Abbreviation world := (gset string).
Definition answer (e : error) (text : string) : Ended :=
  {| ce_frames := [{| fm_stderr := false; fm_payload := to_bytes text |}]; ce_error := e; ce_read := 0; ce_late := false |}.
Definition demo_run (stdin : option bytes) (args : list string) (w : world) : Ended * world :=
  match args, stdin with
  | "create"%string :: _, Some manifest => (answer (Some (ENew "connection reset")) "", {[of_bytes manifest]} ∪ w)
  | ["delete"; "pod"; _; _; id; _; _; _]%string, None => (answer None "", w ∖ {[id]})
  | ["get"; "pod"; _; _; id; _; _; _]%string, None => (answer None (if bool_decide (id ∈ w) then id else ""), w)
  | _, _ => (answer None "", w)
  end.
#[global] Instance demo_commands : Commands world := {| command_Run _ _ stdin args := demo_run stdin args; exit_code _ := None |}.
#[global] Instance demo_clock : Runtime world := {| time_Now := ret 0; ctx_Err _ := ret None |}.
#[global] Instance demo_forwards : PortForwards world := {|
  net_Listen _ := ret (inl "127.0.0.1:4000"%string); listener_Close _ := ret None; Spawn _ _ := ret 0%nat; cancel_and_wait _ := ret tt;
  lastErr _ := ret ""%string; net_Dial _ := ret None; await_retry _ := ret None
|}.
Definition proper (name : string) : Prop := TrimSpace name <> ""%string.
#[global] Instance proper_dec name : Decision (proper name).
Proof. unfold proper. apply _. Defined.
Definition demo_pods (w : world) : gset string := filter proper w.
Definition demo_options : K8sOptions :=
  {| ko_Namespace := "aries"; ko_NodeSelector := ∅; ko_PodCIDR := ""; ko_ServiceCIDR := ""; ko_ServiceAccount := "";
     ko_ImagePullSecret := ""; ko_Images := ∅; ko_StagingDirs := ["/work"%string]; ko_StagingOwner := "1000:1000"; ko_KubectlPath := "kubectl";
     ko_ReadyTimeout := defaultReadyTimeout; ko_CleanupTimeout := defaultCleanupTimeout |}.

Lemma demo_decodes raw : exists pod, decode_pod (demo_pod raw) = Some pod /\ pm_Name (po_Metadata pod) = of_bytes raw.
Proof. eexists. split; [vm_compute; reflexivity|]. done. Qed.
Lemma demo_stdout e text : stdout_of (answer e text) = to_bytes text.
Proof. unfold stdout_of, printed, answer. simpl. by rewrite app_nil_r. Qed.
#[global] Instance demo_truthful : TruthfulCluster demo_options demo_pods.
Proof.
  split.
  - done.
  - done.
  - intros w Hin. unfold demo_pods in Hin. apply elem_of_filter in Hin as [H _]. by apply H.
  - intros ctx request command manifest w Hg Hm. cbn [kl_json_Marshal demo_library] in Hm. rewrite decode_described in Hm. simpl in Hm. injection Hm as <-.
    cbn [command_Run demo_commands demo_run snd]. rewrite of_to_bytes. unfold demo_pods. destruct (decide (proper (rt_Name request))) as [Hp|Hp].
    + right. apply set_eq. intros x. rewrite elem_of_union, !elem_of_filter, elem_of_union, elem_of_singleton. naive_solver.
    + left. apply set_eq. intros x. rewrite !elem_of_filter, elem_of_union, elem_of_singleton. naive_solver.
  - intros ctx id w. simpl. split; [done|]. intros [_ Habsent] Hin. apply elem_of_filter in Hin as [Hp Hin].
    rewrite bool_decide_eq_true_2, demo_stdout in Habsent by done. destruct Habsent as [Hs|(pod & Hu & Hn)].
    + unfold said in Hs. by rewrite of_to_bytes in Hs.
    + destruct (demo_decodes (to_bytes id)) as (pod' & Hd & Hn'). unfold unmarshal_pod in Hu. cbn [kl_json_Unmarshal demo_library mbind option_bind] in Hu.
      rewrite Hd in Hu. injection Hu as <-. by rewrite of_to_bytes in Hn'.
  - intros ctx id w. simpl. right. unfold demo_pods. apply set_eq. intros x. set_solver.
  - intros ctx stdin args w H1 H2. simpl. unfold demo_run. repeat case_match; simpl in *; try done; by exfalso; auto.
Qed.
Definition k8s_request : Request :=
  {| rt_InternalPort := 0; rt_Mounts := []; rt_Workdir := "/work"; rt_StorageMB := 0; rt_GPUs := 1; rt_Init := false;
     rt_NoNewPrivileges := true; rt_NetworkAliases := []; rt_AllowImageVolumes := false; rt_Name := "aries-1";
     rt_Image := "image:1"; rt_Env := ["TZ=UTC"%string]; rt_Entrypoint := None; rt_Args := ["sleep"; "60"]%string;
     rt_Labels := {["aries.run" := "r1"]}%string; rt_Placement := {| rp_AttachmentID := "aries" |}; rt_CPU := Some (f64_of_Z 2);
     rt_MemoryMB := Some 512; rt_ImageVolumes := []; rt_ServicePort := 8080 |}.
(** The answer to the creation is lost, and the pod is removed all the same. *)
Example lost_creation heap :
  (start_and_remove (kubernetes_deployment demo_options (fun _ _ _ => ret (inr (ENew "no forward")))) "x" Background 0 k8s_request [] []
     (Demo.demo_harness heap) (∅ : world, ∅)).1.2 = None.
Proof. vm_compute. reflexivity. Qed.
End KubeDemo.

Lemma k8s_leaves_nothing_witness :
  let '((started, removed), (w', _)) :=
    start_and_remove (kubernetes_deployment KubeDemo.demo_options (fun _ _ _ => ret (inr (ENew "no forward")))) "x" Background 0
      KubeDemo.k8s_request [] [] (Demo.demo_harness ∅) (∅ : gset string, ∅) in
  removed = None -> unresolved started = false -> KubeDemo.demo_pods w' ⊆ KubeDemo.demo_pods ∅.
Proof. apply (k8s_leaves_nothing KubeDemo.demo_options KubeDemo.demo_pods). by eexists. Defined.
Lemma k8s_manifest_validates_witness :
  k8s_validateRequest KubeDemo.demo_options KubeDemo.k8s_request = None /\
  exists manifest pod container variables,
    podManifest (fun _ => "2"%string) (@kl_json_Marshal KubeDemo.demo_library) KubeDemo.demo_options KubeDemo.k8s_request = (@kl_json_Marshal KubeDemo.demo_library) manifest /\
    decode_pod manifest = Some pod /\ px_Containers (po_Spec pod) = [container] /\
    limited (fun _ => "2"%string) KubeDemo.k8s_request (pc_Limits container) /\
    pod_environment manifest = Some [variables] /\ Forall2 assigns ["TZ=UTC"%string] variables.
Proof.
  split; [vm_compute; reflexivity|].
  destruct (k8s_manifest_validates (fun _ => "2"%string) (@kl_json_Marshal KubeDemo.demo_library) KubeDemo.demo_options KubeDemo.k8s_request ltac:(vm_compute; reflexivity))
    as (manifest & pod & container & variables & H1 & H2 & _ & _ & _ & _ & _ & H3 & _ & _ & _ & _ & H4 & _ & _ & H5 & H6 & _).
  exists manifest, pod, container, variables. auto 6.
Defined.
