(* ===== verification/KubeNetwork.v ===== *)
(** The networks of Kubernetes ([pkg/deployment/kubernetes], environment.go): the policies of
    a run's bridge and of a task's sandbox, the service of a task, and the environments that
    own these objects. Each method of an environment holds its lock to the end, so it is one
    step here.

    What the networks of Kubernetes promise. The first part is the meaning of a NetworkPolicy
    as its API documents it, over the JSON of the object: which pods it selects, and which
    connections of a selected pod it admits. The policies of the deployment are then exactly
    the isolation that the code's comments describe. The second part is the life of a task's
    objects: what was created is removed, or still held. *)

From S2P Require Import Prelude Utf8 Trace Core Deployments HarnessConfig Docker HarnessFiles DockerFiles DockerNetwork Kubernetes.
From S2P Require Import KubeExec KubeTheorems.

(** * Policies and services *)

Definition managed (component : string) : list (string * json) :=
  [(managedByLabel, JString "aries"); (componentLabel, JString component)]%string.
Definition policy_json (metadata spec : json) : json :=
  JObject [("apiVersion", JString "networking.k8s.io/v1"); ("kind", JString "NetworkPolicy"); ("metadata", metadata); ("spec", spec)]%string.
Definition match_labels (labels : list (string * json)) : json := JObject [("matchLabels"%string, JObject labels)].
Definition run_policy_json (namespace policy runID : string) : json :=
  policy_json
    (JObject [("name", JString policy); ("namespace", JString namespace); ("labels", JObject [(managedByLabel, JString "aries")]);
              ("annotations", JObject [("aries.kind", JString "run-network"); ("aries.run", JString runID)])])%string
    (JObject [("podSelector", match_labels (managed "bridge")); ("policyTypes", strings_json ["Ingress"]);
              ("ingress", JArray [JObject [("from", JArray [JObject [("podSelector",
                 JObject [("matchExpressions", JArray [JObject [("key", JString componentLabel); ("operator", JString "NotIn");
                    ("values", strings_json ["sandbox"; "evaluation-sandbox"])]])])]])]])])%string.

(** [taskServicePorts]: the distinct ports that a task declares. *)
Fixpoint mcp_ports (ports : list Z) (services : list TaskMCPService) : list Z + err :=
  match services with
  | [] => inl ports
  | mcp :: services =>
      if (ms_Port mcp <=? 0) || (65535 <? ms_Port mcp)
      then inr (ENew ("invalid port for task MCP service " +:+ quote (ms_Name mcp)))
      else mcp_ports (if bool_decide (ms_Port mcp ∈ ports) then ports else ports ++ [ms_Port mcp]) services
  end.
Definition taskServicePorts (services : TaskServices) : list Z + err :=
  let port := ts_SearchPort services in
  if (port <? 0) || (65535 <? port) then inr (ENew "invalid task search service port")
  else mcp_ports (if port =? 0 then [] else [port]) (ts_MCP services).

(** [egressRules]. *)
Definition dns_rule : json :=
  JObject [("to", JArray [JObject [("namespaceSelector", match_labels [("kubernetes.io/metadata.name", JString "kube-system")]);
                                   ("podSelector", match_labels [("k8s-app", JString "kube-dns")])]]);
           ("ports", JArray [JObject [("protocol", JString "UDP"); ("port", int_json 53)];
                             JObject [("protocol", JString "TCP"); ("port", int_json 53)]])]%string.
Definition excluded (podCIDR serviceCIDR : string) : list string :=
  filter (fun cidr => TrimSpace cidr <> ""%string) [podCIDR; serviceCIDR].
Definition egressRules (podCIDR serviceCIDR : string) : json :=
  let except := excluded podCIDR serviceCIDR in
  JArray [dns_rule;
          JObject [("to", JArray [JObject [("ipBlock",
            JObject ([("cidr", JString "0.0.0.0/0")] ++ member_if (negb (bool_decide (except = []))) "except" (strings_json except)))]])]]%string.

(** [taskPolicyManifest] and [taskServiceManifest], before their encoding. *)
Definition sandbox_metadata (namespace name kind runID taskID : string) : json :=
  JObject [("name", JString name); ("namespace", JString namespace);
           ("labels", JObject (managed "sandbox" ++ [(runtimeLabel, JString name)]));
           ("annotations", JObject [("aries.kind", JString kind); ("aries.run", JString runID); ("aries.task", JString taskID)])]%string.
Definition admitted_port (port : Z) : json := JObject [("protocol", JString "TCP"); ("port", int_json port)]%string.
Definition harness_rule (ports : list Z) : json :=
  JObject [("from", JArray [JObject [("podSelector", match_labels (managed "harness"))]]); ("ports", JArray (map admitted_port ports))]%string.
Definition task_policy_json (o : K8sOptions) (request : SandboxRequest) (name : string) (ports : list Z) : json :=
  policy_json (sandbox_metadata (ko_Namespace o) name "task-network" (sr_RunID request) (sr_TaskID request))
    (JObject ([("podSelector", match_labels [(runtimeLabel, JString name)]); ("policyTypes", strings_json ["Ingress"; "Egress"])]%string ++
              member_if (en_AllowNetwork (sr_Environment request)) "egress" (egressRules (ko_PodCIDR o) (ko_ServiceCIDR o)) ++
              member_if (negb (bool_decide (ports = []))) "ingress" (JArray [harness_rule ports]))).
Definition service_port (port : Z) : json :=
  JObject [("name", JString ("port-" +:+ itoa port)); ("protocol", JString "TCP"); ("port", int_json port); ("targetPort", int_json port)]%string.
Definition task_service_json (o : K8sOptions) (request : SandboxRequest) (name : string) (ports : list Z) : json :=
  JObject [("apiVersion", JString "v1"); ("kind", JString "Service");
           ("metadata", sandbox_metadata (ko_Namespace o) name "task-service" (sr_RunID request) (sr_TaskID request));
           ("spec", JObject [("selector", JObject [(runtimeLabel, JString name)]); ("ports", JArray (map service_port ports))])]%string.

(** * Environments *)

(** [RunEnvironment] and [taskEnvironment], the parts that change. *)
Record K8sRunEnvironment := { kr_policy : string; kr_policyOwned : bool; kr_started : bool; kr_stopped : bool }.
Definition new_K8sRunEnvironment : K8sRunEnvironment :=
  {| kr_policy := ""; kr_policyOwned := false; kr_started := false; kr_stopped := false |}.
Record K8sTaskEnvironment := { kt_policy : string; kt_service : string; kt_started : bool; kt_stopped : bool }.
Definition new_K8sTaskEnvironment : K8sTaskEnvironment := {| kt_policy := ""; kt_service := ""; kt_started := false; kt_stopped := false |}.

Section Environments.
Context {W : Type} `{!Runtime W} `{!Commands W} {Lib : KubeLibrary} `{!KubeRandom W}.
Variable o : K8sOptions.
Abbreviation namespace := (ko_Namespace o).

(** [deleteObject]. *)
Definition deleteObject (ctx : Ctx) (kind name : string) : M W error :=
  let* (_, e) := run o ctx None ["delete"; kind; "-n"; namespace; name; "--ignore-not-found"]%string in
  match e with
  | Some e => ret (Some (EWrap ("delete Kubernetes " +:+ kind) e))
  | None =>
      let* (remaining, e) := run o ctx None ["get"; kind; "-n"; namespace; name; "--ignore-not-found"; "-o"; "name"]%string in
      ret (match e with
           | Some e => Some (EWrap ("verify Kubernetes " +:+ kind +:+ " removal") e)
           | None => refuse_if negb (String.eqb (said remaining) "")
                       with ("Kubernetes " +:+ kind +:+ " " +:+ quote name +:+ " remains after removal")
           end)
  end.
Definition deletePolicy (ctx : Ctx) (name : string) : M W error := deleteObject ctx "networkpolicy" name.
(** The creation of one object. *)
Definition create_object (ctx : Ctx) (manifest : bytes) : M W error :=
  let* (_, e) := run o ctx (Some manifest) ["create"; "-n"; namespace; "-f"; "-"]%string in ret e.

(** ** The run's *)

Variable runID : string.
Definition k8s_environment_Start (ctx : Ctx) (e : K8sRunEnvironment) : M W (RuntimePlacement * error * K8sRunEnvironment) :=
  let failed err e := ret (no_placement, Some err, e) in
  if kr_started e || kr_stopped e then failed (ENew "run environment cannot be reused") e
  else
    let e := {| kr_policy := kr_policy e; kr_policyOwned := kr_policyOwned e; kr_started := true; kr_stopped := kr_stopped e |} in
    if String.eqb runID "" then failed (ENew "run environment requires a run ID") e
    else
      let* nonce := k8s_randomID in
      match nonce with
      | inr err => failed err e
      | inl nonce =>
          let policy := ("aries-run-" +:+ nonce)%string in
          let named owned := {| kr_policy := policy; kr_policyOwned := owned; kr_started := true; kr_stopped := kr_stopped e |} in
          match kl_json_Marshal (run_policy_json namespace policy runID) with
          | inr err => failed err (named (kr_policyOwned e))
          | inl manifest =>
              let* err := create_object ctx manifest in
              match err with
              | Some err => failed (EWrap "create Kubernetes run network policy" err) (named true)
              | None => ret ({| rp_AttachmentID := namespace |}, None, named true)
              end
          end
      end.
Definition k8s_environment_validate (e : K8sRunEnvironment) : error :=
  refuse_if negb (kr_started e) || kr_stopped e || negb (kr_policyOwned e) with "run environment is not active".
Definition k8s_environment_Stop (ctx : Ctx) (e : K8sRunEnvironment) : M W (error * K8sRunEnvironment) :=
  let stopped := {| kr_policy := kr_policy e; kr_policyOwned := false; kr_started := kr_started e; kr_stopped := true |} in
  if kr_stopped e then ret (None, e)
  else if kr_policyOwned e then
    let* err := deletePolicy ctx (kr_policy e) in
    ret (err, match err with Some _ => e | None => stopped end)
  else ret (None, stopped).

(** ** A task's *)

Definition k8s_mcp_server (name : string) (mcp : TaskMCPService) : MCPServerConfig := mcp_server name mcp.
Definition connectivity (name : string) (services : TaskServices) : HarnessConnectivity :=
  {| hc_Placement := {| rp_AttachmentID := namespace |};
     hc_SearchURL := if ts_SearchPort services =? 0 then "" else service_url name (ts_SearchPort services);
     hc_MCPServers := map (k8s_mcp_server name) (ts_MCP services) |}.
Definition set_kt (policy service : string) (t : K8sTaskEnvironment) : K8sTaskEnvironment :=
  {| kt_policy := policy; kt_service := service; kt_started := true; kt_stopped := kt_stopped t |}.
Definition k8s_task_service (ctx : Ctx) (request : SandboxRequest) (name : string) (ports : list Z) (t : K8sTaskEnvironment) :
    M W (HarnessConnectivity * error * K8sTaskEnvironment) :=
  let failed err t := ret (no_HarnessConnectivity, Some err, t) in
  match kl_json_Marshal (task_service_json o request name ports) with
  | inr err => failed err t
  | inl manifest =>
      let t := set_kt (kt_policy t) name t in
      let* err := create_object ctx manifest in
      match err with
      | Some err => failed (EWrap "create Kubernetes task service" err) t
      | None => ret (connectivity name (en_Services (sr_Environment request)), None, t)
      end
  end.
Definition k8s_task_Start (ctx : Ctx) (request : SandboxRequest) (name : string) (owner : K8sRunEnvironment) (t : K8sTaskEnvironment) :
    M W (HarnessConnectivity * error * K8sTaskEnvironment) :=
  let failed err t := ret (no_HarnessConnectivity, Some err, t) in
  if kt_started t || kt_stopped t then failed (ENew "task environment cannot be reused") t
  else
    let t := set_kt (kt_policy t) (kt_service t) t in
    if negb (String.eqb (sr_RunID request) runID) || negb (validName name)
    then failed (ENew "task environment requires its run and a unique runtime name") t
    else
      match taskServicePorts (en_Services (sr_Environment request)) with
      | inr err => failed err t
      | inl ports =>
          match k8s_environment_validate owner with
          | Some err => failed err t
          | None =>
              match kl_json_Marshal (task_policy_json o request name ports) with
              | inr err => failed err t
              | inl manifest =>
                  let t := set_kt name (kt_service t) t in
                  let* err := create_object ctx manifest in
                  match err with
                  | Some err => failed (EWrap "create Kubernetes task network policy" err) t
                  | None =>
                      if bool_decide (ports = []) then
                        ret ({| hc_Placement := {| rp_AttachmentID := namespace |}; hc_SearchURL := ""; hc_MCPServers := [] |}, None, t)
                      else k8s_task_service ctx request name ports t
                  end
              end
          end
      end.
Definition k8s_task_Validate (ctx : Ctx) (owner : K8sRunEnvironment) (t : K8sTaskEnvironment) : M W error :=
  if negb (kt_started t) || kt_stopped t || String.eqb (kt_policy t) "" then ret (Some (ENew "task environment is not active"))
  else match k8s_environment_validate owner with
  | Some e => ret (Some e)
  | None =>
      let* (name, e) := run o ctx None ["get"; "networkpolicy"; "-n"; namespace; kt_policy t; "--ignore-not-found"; "-o"; "name"]%string in
      ret (match e with
           | Some e => Some (EWrap "inspect Kubernetes task network policy" e)
           | None => refuse_if String.eqb (said name) "" with "task network policy is missing"
           end)
  end.
Definition delete_task_policy (ctx : Ctx) (t : K8sTaskEnvironment) : M W (error * K8sTaskEnvironment) :=
  let stopped := {| kt_policy := kt_policy t; kt_service := kt_service t; kt_started := kt_started t; kt_stopped := true |} in
  if String.eqb (kt_policy t) "" then ret (None, stopped)
  else
    let* err := deletePolicy ctx (kt_policy t) in
    ret (err, match err with Some _ => t | None => stopped end).
Definition k8s_task_Stop (ctx : Ctx) (t : K8sTaskEnvironment) : M W (error * K8sTaskEnvironment) :=
  if kt_stopped t then ret (None, t)
  else if String.eqb (kt_service t) "" then delete_task_policy ctx t
  else
    let* err := deleteObject ctx "service" (kt_service t) in
    match err with
    | Some _ => ret (err, t)
    | None => delete_task_policy ctx {| kt_policy := kt_policy t; kt_service := ""; kt_started := kt_started t; kt_stopped := kt_stopped t |}
    end.
End Environments.

(** * The meaning of a policy *)

Definition members_of (value : json) : list (string * json) := match value with JObject members => members | _ => [] end.
Definition at_key (key : string) (value : json) : option json := json_member key (members_of value).
Definition at_path (path : list string) (value : json) : option json := foldl (fun v key => v ≫= at_key key) (Some value) path.
Definition items_of (value : option json) : list json := match value with Some (JArray items) => items | _ => [] end.
Definition text_is (text : string) (value : json) : bool := match value with JString s => String.eqb s text | _ => false end.

(** A selector of labels: every label it lists, and every expression. *)
Definition label_holds (labels : gmap string string) (label : string * json) : bool :=
  match labels !! label.1 with Some value => text_is value label.2 | None => false end.
Definition expression_holds (labels : gmap string string) (expression : json) : bool :=
  match at_key "key" expression, at_key "operator" expression with
  | Some (JString key), Some (JString operator) =>
      let among value := existsb (text_is value) (items_of (at_key "values" expression)) in
      if String.eqb operator "NotIn" then match labels !! key with Some value => negb (among value) | None => true end
      else if String.eqb operator "In" then match labels !! key with Some value => among value | None => false end
      else false
  | _, _ => false
  end.
Definition selects (selector : json) (labels : gmap string string) : bool :=
  forallb (label_holds labels) (members_of (default (JObject []) (at_key "matchLabels" selector))) &&
  forallb (expression_holds labels) (items_of (at_key "matchExpressions" selector)).

(** A pod, and the other end of a connection: its address, by the blocks it is in, and the
    pod that has it. *)
Record pod_identity := { pi_namespace : string; pi_namespaceLabels : gmap string string; pi_labels : gmap string string }.
Record endpoint := { ep_in : string -> bool; ep_pod : option pod_identity }.

Definition peer_matches (namespace : string) (e : endpoint) (peer : json) : bool :=
  match at_key "ipBlock" peer with
  | Some block =>
      match at_key "cidr" block with
      | Some (JString cidr) =>
          ep_in e cidr &&
          forallb (fun except => match except with JString cidr => negb (ep_in e cidr) | _ => true end) (items_of (at_key "except" block))
      | _ => false
      end
  | None =>
      match ep_pod e with
      | Some pod =>
          match at_key "namespaceSelector" peer with
          | Some selector => selects selector (pi_namespaceLabels pod)
          | None => String.eqb (pi_namespace pod) namespace
          end && match at_key "podSelector" peer with Some selector => selects selector (pi_labels pod) | None => true end
      | None => false
      end
  end.
Definition port_matches (protocol : string) (port : Z) (listed : json) : bool :=
  match at_key "protocol" listed, at_key "port" listed with
  | Some (JString p), Some (JNumber n) => String.eqb p protocol && String.eqb n (itoa port)
  | _, _ => false
  end.
(** No peers, or no ports, is all of them. *)
Definition any_or (admits : json -> bool) (listed : list json) : bool := match listed with [] => true | _ => existsb admits listed end.
Definition rule_admits (namespace peers : string) (e : endpoint) (protocol : string) (port : Z) (rule : json) : bool :=
  any_or (peer_matches namespace e) (items_of (at_key peers rule)) && any_or (port_matches protocol port) (items_of (at_key "ports" rule)).

Definition policy_namespace (policy : json) : string :=
  match at_path ["metadata"; "namespace"]%string policy with Some (JString s) => s | _ => ""%string end.
Definition policy_selects (policy : json) (pod : pod_identity) : bool :=
  String.eqb (pi_namespace pod) (policy_namespace policy) &&
  match at_path ["spec"; "podSelector"]%string policy with Some selector => selects selector (pi_labels pod) | None => false end.
Definition policy_isolates (direction : string) (policy : json) : bool :=
  existsb (text_is direction) (items_of (at_path ["spec"; "policyTypes"]%string policy)).
Definition admits_from (policy : json) (e : endpoint) (protocol : string) (port : Z) : bool :=
  existsb (rule_admits (policy_namespace policy) "from" e protocol port) (items_of (at_path ["spec"; "ingress"]%string policy)).
Definition admits_to (policy : json) (e : endpoint) (protocol : string) (port : Z) : bool :=
  existsb (rule_admits (policy_namespace policy) "to" e protocol port) (items_of (at_path ["spec"; "egress"]%string policy)).

(** * The policies of the deployment *)

Definition has_label (pod : pod_identity) (key value : string) : Prop := pi_labels pod !! key = Some value.
Lemma label_holds_iff labels key value : label_holds labels (key, JString value) = true <-> labels !! key = Some value.
Proof. unfold label_holds. simpl. destruct (labels !! key) as [v|]; [|done]. rewrite String.eqb_eq. naive_solver. Qed.
Lemma selects_labels labels l : selects (match_labels l) labels = forallb (label_holds labels) l.
Proof. unfold selects, match_labels. simpl. by rewrite andb_true_r. Qed.
Lemma managed_iff labels component : forallb (label_holds labels) (managed component) = true <->
  labels !! managedByLabel = Some "aries"%string /\ labels !! componentLabel = Some component.
Proof. unfold managed. cbn [forallb]. rewrite andb_true_r, andb_true_iff. by rewrite !label_holds_iff. Qed.
Lemma port_matches_iff protocol port expected n :
  port_matches protocol port (JObject [("protocol", JString expected); ("port", int_json n)]%string) = true <-> protocol = expected /\ port = n.
Proof.
  change (String.eqb expected protocol && String.eqb (itoa n) (itoa port) = true <-> protocol = expected /\ port = n).
  rewrite andb_true_iff, !String.eqb_eq. unfold itoa. split.
  - intros [-> H]. split; [done|]. by apply (inj pretty) in H.
  - by intros [-> ->].
Qed.

Section Policies.
Variable o : K8sOptions.
Variable request : SandboxRequest.
Variable name : string.
Variable ports : list Z.
Abbreviation policy := (task_policy_json o request name ports).

Lemma task_policy_namespace : policy_namespace policy = ko_Namespace o.
Proof. done. Qed.
Lemma task_policy_selects pod : policy_selects policy pod = true <-> pi_namespace pod = ko_Namespace o /\ has_label pod runtimeLabel name.
Proof.
  unfold policy_selects. rewrite task_policy_namespace, andb_true_iff, String.eqb_eq.
  assert (at_path ["spec"; "podSelector"]%string policy = Some (match_labels [(runtimeLabel, JString name)])) as ->
    by (unfold task_policy_json, member_if; by destruct (en_AllowNetwork _), (bool_decide (ports = []))).
  rewrite selects_labels. cbn [forallb]. by rewrite andb_true_r, label_holds_iff.
Qed.
Lemma task_policy_ingress : items_of (at_path ["spec"; "ingress"]%string policy) = match ports with [] => [] | _ => [harness_rule ports] end.
Proof. unfold task_policy_json, member_if. by destruct (en_AllowNetwork _), ports. Qed.
Lemma task_policy_egress : items_of (at_path ["spec"; "egress"]%string policy) =
  if en_AllowNetwork (sr_Environment request) then items_of (Some (egressRules (ko_PodCIDR o) (ko_ServiceCIDR o))) else [].
Proof. unfold task_policy_json, member_if. by destruct (en_AllowNetwork _), (bool_decide (ports = [])). Qed.

(** A connection of a harness of ARIES, to a declared port. *)
Definition from_harness (e : endpoint) : Prop := exists pod, ep_pod e = Some pod /\ pi_namespace pod = ko_Namespace o /\
  has_label pod managedByLabel "aries" /\ has_label pod componentLabel "harness".
Lemma harness_rule_admits e protocol port : ports <> [] ->
  rule_admits (ko_Namespace o) "from" e protocol port (harness_rule ports) = true <->
  from_harness e /\ protocol = "TCP"%string /\ port ∈ ports.
Proof.
  intros Hne. unfold rule_admits. rewrite andb_true_iff.
  assert (any_or (peer_matches (ko_Namespace o) e) (items_of (at_key "from" (harness_rule ports))) = true <-> from_harness e) as ->.
  { change (any_or (peer_matches (ko_Namespace o) e) [JObject [("podSelector"%string, match_labels (managed "harness"))]] = true <-> from_harness e).
    cbn [any_or existsb]. rewrite orb_false_r. unfold from_harness, has_label.
    change (peer_matches (ko_Namespace o) e (JObject [("podSelector"%string, match_labels (managed "harness"))])) with
      (match ep_pod e with
       | Some pod => String.eqb (pi_namespace pod) (ko_Namespace o) && selects (match_labels (managed "harness")) (pi_labels pod)
       | None => false
       end).
    destruct (ep_pod e) as [pod|]; [|naive_solver]. rewrite selects_labels, andb_true_iff, String.eqb_eq, managed_iff. naive_solver. }
  assert (any_or (port_matches protocol port) (items_of (at_key "ports" (harness_rule ports))) = true <->
    protocol = "TCP"%string /\ port ∈ ports) as ->; [|done].
  change (items_of (at_key "ports" (harness_rule ports))) with (map admitted_port ports).
  transitivity (existsb (port_matches protocol port) (map admitted_port ports) = true); [by destruct ports|].
  rewrite existsb_exists. split.
  - intros (x & Hin%list_elem_of_In & Hx). apply list_elem_of_fmap in Hin as (n & -> & Hn).
    apply port_matches_iff in Hx as [-> ->]. done.
  - intros [-> Hin]. exists (admitted_port port). split; [|by apply port_matches_iff].
    apply list_elem_of_In. by apply list_elem_of_fmap_2.
Qed.

(** The name service of the cluster, and what is outside of the cluster's own networks. *)
Definition to_name_service (e : endpoint) (protocol : string) (port : Z) : Prop :=
  port = 53 /\ (protocol = "UDP"%string \/ protocol = "TCP"%string) /\
  exists pod, ep_pod e = Some pod /\ pi_namespaceLabels pod !! "kubernetes.io/metadata.name"%string = Some "kube-system"%string /\
    has_label pod "k8s-app" "kube-dns".
Definition outside (e : endpoint) : Prop :=
  ep_in e "0.0.0.0/0" = true /\ forall cidr, cidr ∈ [ko_PodCIDR o; ko_ServiceCIDR o] -> TrimSpace cidr <> ""%string -> ep_in e cidr = false.
Lemma dns_rule_admits e protocol port :
  rule_admits (ko_Namespace o) "to" e protocol port dns_rule = true <-> to_name_service e protocol port.
Proof.
  unfold rule_admits. rewrite andb_true_iff.
  change (items_of (at_key "ports" dns_rule)) with
    [JObject [("protocol", JString "UDP"); ("port", int_json 53)]%string; JObject [("protocol", JString "TCP"); ("port", int_json 53)]%string].
  cbn [any_or existsb]. rewrite orb_false_r, orb_true_iff, !port_matches_iff. unfold to_name_service.
  change (any_or (peer_matches (ko_Namespace o) e) (items_of (at_key "to" dns_rule))) with
    (match ep_pod e with
     | Some pod => selects (match_labels [("kubernetes.io/metadata.name", JString "kube-system")]%string) (pi_namespaceLabels pod) &&
                   selects (match_labels [("k8s-app", JString "kube-dns")]%string) (pi_labels pod)
     | None => false
     end || false).
  rewrite orb_false_r. unfold has_label. destruct (ep_pod e) as [pod|]; [|naive_solver].
  rewrite andb_true_iff, !selects_labels. cbn [forallb]. rewrite !andb_true_r, !label_holds_iff. naive_solver.
Qed.
Lemma outside_rule_admits e protocol port rule :
  items_of (Some (egressRules (ko_PodCIDR o) (ko_ServiceCIDR o))) = [dns_rule; rule] ->
  rule_admits (ko_Namespace o) "to" e protocol port rule = true <-> outside e.
Proof.
  unfold egressRules. intros [= <-]. unfold rule_admits, outside. set (except := excluded _ _).
  assert (forall cidr, cidr ∈ except <-> cidr ∈ [ko_PodCIDR o; ko_ServiceCIDR o] /\ TrimSpace cidr <> ""%string) as Hexcept
    by (intros cidr; unfold except, excluded; rewrite list_elem_of_filter; tauto).
  transitivity (ep_in e "0.0.0.0/0" = true /\ forall cidr, cidr ∈ except -> ep_in e cidr = false); [|naive_solver].
  clearbody except. unfold member_if. destruct (bool_decide_reflect (except = [])) as [->|Hne].
  - change ((ep_in e "0.0.0.0/0" && true || false) && true = true <->
      ep_in e "0.0.0.0/0" = true /\ (forall cidr, cidr ∈ [] -> ep_in e cidr = false)).
    destruct (ep_in e "0.0.0.0/0"); simpl; [|naive_solver]. split; [|done]. intros _. split; [done|]. by intros cidr []%not_elem_of_nil.
  - cbn [negb].
    change ((ep_in e "0.0.0.0/0" &&
        forallb (fun except => match except with JString cidr => negb (ep_in e cidr) | _ => true end) (map JString except) || false) &&
        true = true <-> ep_in e "0.0.0.0/0" = true /\ (forall cidr, cidr ∈ except -> ep_in e cidr = false)).
    rewrite andb_true_r, orb_false_r, andb_true_iff, forallb_forall. setoid_rewrite in_map_iff.
    split; intros [H1 H2]; (split; [done|]).
    + intros cidr Hin. apply negb_true_iff. apply (H2 (JString cidr)). exists cidr. split; [done|]. by apply list_elem_of_In.
    + intros x (cidr & <- & Hin%list_elem_of_In). by rewrite H2.
Qed.

(** C13. What the policy of a task's sandbox means, by the rules of the NetworkPolicy API. It
    is about the pods of the namespace under this runtime name alone, and isolates them in
    both directions. A connection to such a pod is admitted exactly from a harness of ARIES
    in the namespace, over TCP, to a port that the task declares. A connection from it is
    admitted exactly when the task may use the network, and then only to the cluster's name
    service on port 53 or to an address outside of the configured networks of the cluster. *)
Theorem task_policy_isolates :
  (forall pod, policy_selects policy pod = true <-> pi_namespace pod = ko_Namespace o /\ has_label pod runtimeLabel name) /\
  policy_isolates "Ingress" policy = true /\ policy_isolates "Egress" policy = true /\
  (forall e protocol port, admits_from policy e protocol port = true <->
    from_harness e /\ protocol = "TCP"%string /\ port ∈ ports) /\
  (forall e protocol port, admits_to policy e protocol port = true <->
    en_AllowNetwork (sr_Environment request) = true /\ (to_name_service e protocol port \/ outside e)).
Proof.
  assert (items_of (at_path ["spec"; "policyTypes"]%string policy) = [JString "Ingress"; JString "Egress"]%string) as Htypes
    by (unfold task_policy_json, member_if; by destruct (en_AllowNetwork _), (bool_decide (ports = []))).
  unfold policy_isolates. rewrite Htypes. split_and!; [apply task_policy_selects|done|done| |].
  - intros e protocol port. unfold admits_from. rewrite task_policy_namespace, task_policy_ingress.
    destruct (decide (ports = [])) as [->|Hne]; [split; [done|]; by intros (_ & _ & []%not_elem_of_nil)|].
    rewrite <- (harness_rule_admits e protocol port Hne). destruct ports; [done|]. cbn [existsb]. by rewrite orb_false_r.
  - intros e protocol port. unfold admits_to. rewrite task_policy_namespace, task_policy_egress.
    destruct (en_AllowNetwork _); [|naive_solver].
    destruct (items_of (Some (egressRules _ _))) as [|r1 [|r2 [|]]] eqn:Hrules; try done.
    pose proof Hrules as Hr. unfold egressRules in Hr. injection Hr as <- _.
    cbn [existsb]. rewrite orb_false_r, orb_true_iff, dns_rule_admits, (outside_rule_admits _ _ _ _ Hrules). naive_solver.
Qed.
End Policies.

(** ** The pods of the deployment under these policies *)

(** A pod as the deployment creates it. *)
Definition created_pod (o : K8sOptions) (namespaceLabels : gmap string string) (r : Request) : pod_identity :=
  {| pi_namespace := pm_Namespace (described_metadata o r); pi_namespaceLabels := namespaceLabels;
     pi_labels := pm_Labels (described_metadata o r) |}.
Lemma created_labels o r :
  pm_Labels (described_metadata o r) =
    let component := default ""%string (rt_Labels r !! "aries.component"%string) in
    <[managedByLabel := "aries"%string]> (<[runtimeLabel := rt_Name r]>
      (if labelValue component then {[componentLabel := component]} else ∅)).
Proof.
  cbv zeta. cbn [pm_Labels described_metadata]. unfold pod_labels. set (component := default ""%string (rt_Labels r !! _)).
  assert (forall l : list (string * string), NoDup l.*1 ->
    strings_value (JObject (map (fun kv => (kv.1, JString kv.2)) l)) = Some (list_to_map l)) as H.
  { intros l Hl. unfold strings_value. rewrite <- map_rev.
    assert (mapM (fun m => pair m.1 <$> match m.2 with JNull => Some ""%string | item => string_value item end)
      (map (fun kv => (kv.1, JString kv.2)) (rev l)) = Some (rev l)) as ->.
    { apply mapM_Some_2. by induction (rev l) as [|[k v] l' IH]; constructor. }
    simpl. f_equal. symmetry. apply list_to_map_proper; [done|apply Permutation_rev]. }
  destruct (labelValue component).
  - pose proof (H [(managedByLabel, "aries"); (runtimeLabel, rt_Name r); (componentLabel, component)]%string) as Hm.
    cbn [map app fst snd] in *. rewrite Hm by (repeat constructor; set_solver). done.
  - pose proof (H [(managedByLabel, "aries"); (runtimeLabel, rt_Name r)]%string) as Hm.
    cbn [map app fst snd] in *. rewrite Hm by (repeat constructor; set_solver). done.
Qed.

(** The policy of a run's bridge, and the pods that the deployment creates under it. It
    is about the bridge's pods, isolates what reaches them and nothing else, and admits
    exactly the pods of the namespace that are no sandbox. So a pod created for a sandbox
    or an evaluation is kept off the bridge, every other pod of the deployment is not, and
    the policy of a task is about the pod created under its name alone. *)
Theorem run_policy_guards (o : K8sOptions) (policyName runID : string) (request : SandboxRequest) (name : string) (ports : list Z)
    (namespaceLabels : gmap string string) (inside : string -> bool) (protocol : string) (port : Z) (r : Request) :
  let policy := run_policy_json (ko_Namespace o) policyName runID in
  let component := default ""%string (rt_Labels r !! "aries.component"%string) in
  let e := {| ep_in := inside; ep_pod := Some (created_pod o namespaceLabels r) |} in
  (forall pod, policy_selects policy pod = true <->
    pi_namespace pod = ko_Namespace o /\ has_label pod managedByLabel "aries" /\ has_label pod componentLabel "bridge") /\
  policy_isolates "Ingress" policy = true /\ policy_isolates "Egress" policy = false /\
  (admits_from policy e protocol port = true <-> component ∉ ["sandbox"; "evaluation-sandbox"]%string) /\
  (admits_from policy {| ep_in := inside; ep_pod := None |} protocol port = false) /\
  (policy_selects (task_policy_json o request name ports) (created_pod o namespaceLabels r) = true <-> rt_Name r = name).
Proof.
  cbv zeta. split_and!; [|done|done| |done|].
  - intros pod. unfold policy_selects. rewrite andb_true_iff, String.eqb_eq.
    change (match at_path _ _ with Some selector => selects selector (pi_labels pod) | None => false end) with
      (selects (match_labels (managed "bridge")) (pi_labels pod)).
    rewrite selects_labels, managed_iff. done.
  - change ((String.eqb (ko_Namespace o) (ko_Namespace o) &&
       (match pm_Labels (described_metadata o r) !! componentLabel with
        | Some value => negb (String.eqb "sandbox" value || (String.eqb "evaluation-sandbox" value || false))
        | None => true
        end && true) || false) && true || false = true <->
      default ""%string (rt_Labels r !! "aries.component"%string) ∉ ["sandbox"; "evaluation-sandbox"]%string).
    rewrite String.eqb_refl, created_labels. cbv zeta. set (component := default _ _).
    rewrite !orb_false_r, !andb_true_r, lookup_insert_ne, lookup_insert_ne by done. cbn [andb].
    rewrite !not_elem_of_cons. destruct (labelValue component) eqn:Hl.
    + rewrite lookup_singleton_eq, orb_false_r, negb_true_iff, orb_false_iff, !String.eqb_neq.
      split; [intros [H1 H2]; split_and!; [congruence|congruence|apply not_elem_of_nil]|]. intros (H1 & H2 & _). split; congruence.
    + rewrite lookup_empty. split; [|done]. intros _. split_and!; [intros Hx; by rewrite Hx in Hl|intros Hx; by rewrite Hx in Hl|apply not_elem_of_nil].
  - rewrite task_policy_selects. unfold has_label, created_pod. cbn [pi_labels pi_namespace]. rewrite created_labels. cbv zeta.
    rewrite lookup_insert_ne, lookup_insert_eq by done. cbn [pm_Namespace described_metadata]. naive_solver.
Qed.

(** * The life of a task's objects *)

#[export] Instance silent_random {W E} `{!KubeRandom W} : KubeRandom (W * list E) := {| rand_Read n := silent (rand_Read n) |}.

Inductive k8s_task_call :=
  | TaskStartCall (ctx : Ctx) (request : SandboxRequest) (name : string) (owner : K8sRunEnvironment)
  | TaskValidateCall (ctx : Ctx) (owner : K8sRunEnvironment)
  | TaskStopCall (ctx : Ctx).
Section TaskLife.
Context {W : Type} `{!Runtime W} `{!Commands W} {Lib : KubeLibrary}.
Variable o : K8sOptions.
Variable runID : string.
Definition k8s_task_step (call : k8s_task_call) (t : K8sTaskEnvironment) : M W K8sTaskEnvironment :=
  match call with
  | TaskStartCall ctx request name owner => let* (_, _, t) := k8s_task_Start o runID ctx request name owner t in ret t
  | TaskValidateCall ctx owner => let* _ := k8s_task_Validate o ctx owner t in ret t
  | TaskStopCall ctx => let* (_, t) := k8s_task_Stop o ctx t in ret t
  end.
Fixpoint k8s_task_life (calls : list k8s_task_call) (t : K8sTaskEnvironment) : M W K8sTaskEnvironment :=
  match calls with
  | [] => ret t
  | call :: calls => let* t := k8s_task_step call t in k8s_task_life calls t
  end.
End TaskLife.

(** The creations of a trace, and an object that was seen gone after the last of them. *)
Definition creates (ev : kube_event) : bool := match ev with KRun _ ("create"%string :: _) _ _ => true | _ => false end.
Definition creations (evs : list kube_event) : nat := length (filter (fun ev => creates ev = true) evs).
Definition object_args (o : K8sOptions) (kind name : string) : list string :=
  ["get"; kind; "-n"; ko_Namespace o; name; "--ignore-not-found"; "-o"; "name"]%string.
Definition removal_args (o : K8sOptions) (kind name : string) : list string :=
  ["delete"; kind; "-n"; ko_Namespace o; name; "--ignore-not-found"]%string.
Definition cleared (o : K8sOptions) (kind name : string) (evs : list kube_event) : Prop :=
  exists pre ctx ended post, evs = pre ++ KRun ctx (object_args o kind name) None ended :: post /\
    ce_error ended = None /\ said (stdout_of ended) = ""%string /\ creations post = 0%nat.
(** The creation of an object of a kind under a name, with the JSON that describes it. *)
Definition created_as `{KubeLibrary} (o : K8sOptions) (kind name : string) (value : json) (ev : kube_event) : Prop :=
  exists ctx manifest ended, ev = KRun ctx ["create"; "-n"; ko_Namespace o; "-f"; "-"]%string (Some manifest) ended /\
    kl_json_Marshal value = inl manifest /\ at_path ["kind"]%string value = Some (JString kind) /\
    at_path ["metadata"; "name"]%string value = Some (JString name) /\
    at_path ["metadata"; "namespace"]%string value = Some (JString (ko_Namespace o)).
(** What a task creates: its policy, and then the service of its ports, both under the name
    that the start was asked for. *)
Definition policy_created `{KubeLibrary} (o : K8sOptions) (request : SandboxRequest) (name : string) (ports : list Z) (ev : kube_event) : Prop :=
  created_as o "NetworkPolicy" name (task_policy_json o request name ports) ev.
Definition service_created `{KubeLibrary} (o : K8sOptions) (request : SandboxRequest) (name : string) (ports : list Z) (ev : kube_event) : Prop :=
  created_as o "Service" name (task_service_json o request name ports) ev.
Definition created_objects `{KubeLibrary} (o : K8sOptions) (asked : SandboxRequest -> string -> Prop) (name : string) (evs : list kube_event) : Prop :=
  let created := filter (fun ev => creates ev = true) evs in
  created = [] \/
  exists request ports, asked request name /\ taskServicePorts (en_Services (sr_Environment request)) = inl ports /\
    ((exists policy, created = [policy] /\ policy_created o request name ports policy) \/
     (exists policy service, created = [policy; service] /\ ports <> [] /\
        policy_created o request name ports policy /\ service_created o request name ports service)).
(** Only objects of the one name are asked for or deleted. *)
Definition own_run (o : K8sOptions) (name : string) (ev : kube_event) : Prop :=
  creates ev = true \/ exists ctx kind ended, kind ∈ ["networkpolicy"; "service"]%string /\
    (ev = KRun ctx (object_args o kind name) None ended \/ ev = KRun ctx (removal_args o kind name) None ended).

Record task_ok `{KubeLibrary} (o : K8sOptions) (asked : SandboxRequest -> string -> Prop) (t : K8sTaskEnvironment) (evs : list kube_event) : Prop := {
  to_new : kt_policy t = ""%string -> evs = [] /\ kt_service t = ""%string;
  to_unstarted : kt_started t = false -> kt_policy t = ""%string;
  to_own : Forall (own_run o (kt_policy t)) evs;
  to_created : created_objects o asked (kt_policy t) evs;
  to_service : kt_service t <> ""%string -> kt_service t = kt_policy t;
  to_cleared : (1 < creations evs)%nat -> kt_service t <> ""%string \/ cleared o "service" (kt_policy t) evs;
  to_stopped : kt_stopped t = true -> kt_service t = ""%string /\
    (kt_policy t <> ""%string -> cleared o "networkpolicy" (kt_policy t) evs)
}.

Lemma k8s_creations_app a b : creations (a ++ b) = (creations a + creations b)%nat.
Proof. unfold creations. by rewrite filter_app, length_app. Qed.
Lemma cleared_app o kind name evs evs' : creations evs' = 0%nat -> cleared o kind name evs -> cleared o kind name (evs ++ evs').
Proof.
  intros H (pre & ctx & ended & post & -> & H1 & H2 & H3). exists pre, ctx, ended, (post ++ evs').
  rewrite k8s_creations_app, H3, H, <- app_assoc. done.
Qed.

Section TaskObjects.
Context {W : Type} `{!Runtime W} `{!Commands W} {Lib : KubeLibrary}.
Variable o : K8sOptions.
Variable runID : string.
Variable asked : SandboxRequest -> string -> Prop.
Abbreviation T := (W * list kube_event)%type.

Lemma deleteObject_emits ctx kind name : kind ∈ ["networkpolicy"; "service"]%string ->
  emits (deleteObject (W := T) o ctx kind name) (fun e evs =>
    creations evs = 0%nat /\ Forall (own_run o name) evs /\ (e = None -> cleared o kind name evs)).
Proof.
  intros Hk. unfold deleteObject. eapply emits_bind; [apply run_emits|]. intros [raw e] evs (deleted & -> & _ & He).
  assert (own_run o name (KRun ctx (removal_args o kind name) None deleted)) as Hd by (right; exists ctx, kind, deleted; auto).
  destruct e as [e|]; [apply emits_ret; split_and!; [done|by constructor|done]|].
  eapply emits_bind; [apply run_emits|]. intros [raw' e'] evs (got & -> & Hraw & He'). simpl in Hraw, He'.
  apply emits_ret. split_and!; [done| |].
  - constructor; [done|]. constructor; [|constructor]. right. exists ctx, kind, got. auto.
  - destruct e' as [e'|]; [done|]. rewrite Hraw. rewrite refuse_if_nil, negb_false_iff, String.eqb_eq. intros Hs.
    exists [KRun ctx (removal_args o kind name) None deleted], ctx, got, []. split_and!; [done|by apply He'|done|done].
Qed.
Lemma create_emits ctx kind name value manifest : kl_json_Marshal value = inl manifest ->
  at_path ["kind"]%string value = Some (JString kind) -> at_path ["metadata"; "name"]%string value = Some (JString name) ->
  at_path ["metadata"; "namespace"]%string value = Some (JString (ko_Namespace o)) ->
  emits (create_object (W := T) o ctx manifest) (fun _ evs => exists ev, evs = [ev] /\ creates ev = true /\ created_as o kind name value ev).
Proof.
  intros Hm H1 H2 H3. unfold create_object. eapply emits_bind; [apply run_emits|]. intros [raw e] evs (ended & -> & _).
  apply emits_ret. eexists. split; [done|]. split; [done|]. by exists ctx, manifest, ended.
Qed.

Lemma created_objects_app name evs evs' :
  creations evs' = 0%nat -> created_objects o asked name evs -> created_objects o asked name (evs ++ evs').
Proof. unfold created_objects, creations. rewrite filter_app. intros ->%nil_length_inv. by rewrite app_nil_r. Qed.
(** More runs that create nothing. *)
Lemma task_ok_more t t' evs evs' :
  task_ok o asked t evs -> kt_policy t' = kt_policy t -> (kt_policy t = ""%string -> evs' = []) -> (kt_started t = true -> kt_started t' = true) ->
  creations evs' = 0%nat -> Forall (own_run o (kt_policy t)) evs' ->
  (kt_service t' = kt_service t \/ kt_service t' = ""%string /\ cleared o "service" (kt_policy t) (evs ++ evs')) ->
  (kt_stopped t' = true -> kt_service t' = ""%string /\ (kt_policy t <> ""%string -> cleared o "networkpolicy" (kt_policy t) (evs ++ evs'))) ->
  task_ok o asked t' (evs ++ evs').
Proof.
  intros [H1 H2 H3 H4 H5 H6 H7] Hp Hnone Hst Hc Ho Hs Hsp. split; rewrite ?k8s_creations_app, ?Hc, ?Nat.add_0_r, ?Hp.
  - intros H. destruct (H1 H) as [-> H1']. rewrite (Hnone H). split; [done|]. destruct Hs as [-> | [-> _]]; [by rewrite H1'|done].
  - intros H. apply H2. destruct (kt_started t); [|done]. by rewrite Hst in H.
  - by apply Forall_app.
  - by apply created_objects_app.
  - destruct Hs as [-> | [-> _]]; [done|done].
  - intros H. destruct Hs as [-> | [-> Hcl]]; [|by right]. destruct (H6 H) as [?|?]; [by left|right]. by apply cleared_app.
  - done.
Qed.

Lemma delete_task_policy_ok ctx t evs : task_ok o asked t evs -> kt_service t = ""%string -> kt_stopped t = false ->
  emits (delete_task_policy (W := T) o ctx t) (fun r evs' => task_ok o asked r.2 (evs ++ evs') /\ (r.1 = None <-> kt_stopped r.2 = true)).
Proof.
  intros Hok Hs Hsp. unfold delete_task_policy. destruct (String.eqb_spec (kt_policy t) "") as [Hp|Hp].
  { apply emits_ret. split; [|done]. apply (task_ok_more t); try done; by left. }
  eapply emits_bind; [apply deleteObject_emits; set_solver|]. intros e evs' (Hc & Ho & Hcl). apply emits_ret. rewrite app_nil_r.
  destruct e as [e|]; simpl; (split; [|by rewrite ?Hsp]).
  - apply (task_ok_more t); try done; [by left|]. by rewrite Hsp.
  - apply (task_ok_more t); try done; [by left|]. simpl. intros _. split; [done|]. intros _.
    destruct (Hcl eq_refl) as (pre & ctx' & ended & post & -> & H). exists (evs ++ pre), ctx', ended, post. by rewrite <- app_assoc.
Qed.
Lemma k8s_task_Stop_ok ctx t evs : task_ok o asked t evs ->
  emits (k8s_task_Stop (W := T) o ctx t) (fun r evs' => task_ok o asked r.2 (evs ++ evs') /\ (r.1 = None <-> kt_stopped r.2 = true)).
Proof.
  intros Hok. unfold k8s_task_Stop. destruct (kt_stopped t) eqn:Hsp; [apply emits_ret; by rewrite app_nil_r|].
  destruct (String.eqb_spec (kt_service t) "") as [Hs|Hs]; [by apply delete_task_policy_ok|].
  pose proof (to_service _ _ _ _ Hok Hs) as Heq. rewrite Heq in *.
  eapply emits_bind; [apply deleteObject_emits; set_solver|]. intros e evs' (Hc & Ho & Hcl). destruct e as [e|].
  { apply emits_ret. rewrite app_nil_r. simpl. rewrite Hsp. split; [|done]. apply (task_ok_more t); try done; [by left|]. by rewrite Hsp. }
  eapply emits_mono; [apply (delete_task_policy_ok ctx _ (evs ++ evs'))|].
  - apply (task_ok_more t); try done. right. split; [done|].
    destruct (Hcl eq_refl) as (pre & ctx' & ended & post & -> & H). exists (evs ++ pre), ctx', ended, post. by rewrite <- app_assoc.
  - done.
  - done.
  - intros r evs'' H. cbv beta in H. by rewrite <- app_assoc in H.
Qed.

Lemma task_ok_new : task_ok o asked new_K8sTaskEnvironment [].
Proof. split; unfold creations; simpl; try done; [by left|lia]. Qed.
Lemma validName_nonempty name : validName name = true -> name <> ""%string.
Proof. by intros H ->. Qed.
Lemma created_ok t evs policy service : kt_stopped t = false -> policy <> ""%string -> Forall (own_run o policy) evs ->
  created_objects o asked policy evs -> (service = ""%string /\ (creations evs <= 1)%nat \/ service = policy) ->
  task_ok o asked (set_kt policy service t) evs.
Proof.
  intros Hsp Hp Ho Hcr Hs. split; simpl; try done.
  - by destruct Hs as [[-> _]| ->].
  - intros H. destruct Hs as [[-> ?]| ->]; [lia|by left].
  - by rewrite Hsp.
Qed.
Lemma k8s_task_Start_ok ctx request name owner t evs : asked request name -> task_ok o asked t evs ->
  emits (k8s_task_Start (W := T) o runID ctx request name owner t) (fun r evs' => task_ok o asked r.2 (evs ++ evs')).
Proof.
  intros Hasked Hok. unfold k8s_task_Start. destruct (kt_started t || kt_stopped t) eqn:Hsd; [apply emits_ret; by rewrite app_nil_r|].
  apply orb_false_iff in Hsd as [Hst Hsp]. pose proof (to_unstarted _ _ _ _ Hok Hst) as Hp. destruct (to_new _ _ _ _ Hok Hp) as [-> Hs].
  assert (task_ok o asked (set_kt (kt_policy t) (kt_service t) t) []) as Hok1.
  { apply (task_ok_more t _ [] []); try done; try (by left); simpl; by rewrite Hsp. }
  cbv zeta. destruct (_ || negb (validName name)) eqn:Hv; [by apply emits_ret|].
  apply orb_false_iff in Hv as [_ Hv%negb_false_iff%validName_nonempty].
  destruct (taskServicePorts _) as [ports|] eqn:Hports; [|by apply emits_ret].
  destruct (k8s_environment_validate owner); [by apply emits_ret|].
  destruct (kl_json_Marshal (task_policy_json o request name ports)) as [manifest|] eqn:Hm; [|by apply emits_ret].
  assert (forall evs, Forall (fun ev => creates ev = true) evs -> Forall (own_run o name) evs) as Hown
    by (intros evs H; eapply Forall_impl; [exact H|]; intros ev Hev; by left).
  eapply emits_bind; [by eapply create_emits|]. intros e evs (ev & -> & Hev & Has). cbn [kt_service set_kt]. rewrite Hs.
  assert (creations [ev] = 1%nat) as Hone by (unfold creations; by rewrite filter_cons, decide_True).
  assert (task_ok o asked (set_kt name "" (set_kt (kt_policy t) "" t)) [ev]) as Hok2
    by (apply created_ok; [done|done|apply Hown; by constructor| |left; split; [done|lia]];
        right; exists request, ports; split_and!; [done|done|]; left; exists ev; by rewrite filter_cons, decide_True).
  destruct e as [e|]; [by apply emits_ret|]. destruct (bool_decide_reflect (ports = [])) as [|Hne]; [by apply emits_ret|].
  unfold k8s_task_service. destruct (kl_json_Marshal (task_service_json o request name ports)) as [manifest'|] eqn:Hm'; [|by apply emits_ret]. cbv zeta.
  eapply emits_bind; [by eapply create_emits|]. intros e evs (ev' & -> & Hev' & Has').
  assert (task_ok o asked (set_kt name name (set_kt name "" (set_kt (kt_policy t) "" t))) [ev; ev']) as Hok3.
  { apply created_ok; [done|done|apply Hown; by repeat constructor| |by right].
    right. exists request, ports. split_and!; [done|done|]. right. exists ev, ev'. split; [|done]. by rewrite !filter_cons, !decide_True. }
  destruct e as [e|]; by apply emits_ret.
Qed.
Lemma k8s_task_Validate_ok ctx owner t evs : task_ok o asked t evs ->
  emits (k8s_task_Validate (W := T) o ctx owner t) (fun _ evs' => task_ok o asked t (evs ++ evs')).
Proof.
  intros Hok. unfold k8s_task_Validate. destruct (_ || String.eqb (kt_policy t) "") eqn:Hb; [apply emits_ret; by rewrite app_nil_r|].
  rewrite !orb_false_iff in Hb. destruct Hb as [[Hst Hsp] Hp%String.eqb_neq].
  destruct (k8s_environment_validate owner); [apply emits_ret; by rewrite app_nil_r|].
  eapply emits_bind; [apply run_emits|]. intros [raw e] evs' (ended & -> & _). apply emits_ret.
  apply (task_ok_more t); try done; [|by left|by rewrite Hsp]. constructor; [|constructor]. right.
  exists ctx, "networkpolicy"%string, ended. split; [set_solver|by left].
Qed.
Lemma k8s_task_life_ok calls t evs :
  (forall ctx request name owner, TaskStartCall ctx request name owner ∈ calls -> asked request name) -> task_ok o asked t evs ->
  emits (k8s_task_life (W := T) o runID calls t) (fun t' evs' => task_ok o asked t' (evs ++ evs')).
Proof.
  revert t evs. induction calls as [|call calls IH]; intros t evs Hasked Hok; [apply emits_ret; by rewrite app_nil_r|].
  simpl. apply (emits_bind _ _ (fun t' evs' => task_ok o asked t' (evs ++ evs'))).
  - destruct call as [ctx request name owner|ctx owner|ctx]; simpl.
    + eapply emits_bind; [apply k8s_task_Start_ok; [eapply Hasked; by apply list_elem_of_here|done]|]. intros [[c e] t'] evs' H. apply emits_ret. by rewrite app_nil_r.
    + eapply emits_bind; [by apply k8s_task_Validate_ok|]. intros e evs' H. apply emits_ret. by rewrite app_nil_r.
    + eapply emits_bind; [by apply k8s_task_Stop_ok|]. intros [e t'] evs' [H _]. apply emits_ret. by rewrite app_nil_r.
  - intros t' evs' H. eapply emits_mono; [apply IH; [|done]; intros; eapply Hasked; by apply list_elem_of_further|]. intros t'' evs'' H'. cbv beta in H'. by rewrite <- app_assoc in H'.
Qed.

End TaskObjects.

(** Among the calls of an environment is a start for this request under this name. *)
Definition asked_in (calls : list k8s_task_call) (request : SandboxRequest) (name : string) : Prop :=
  exists ctx owner, TaskStartCall ctx request name owner ∈ calls.

(** C14. The objects of a task are accounted for over any sequence of calls of its
    environment that ends with a stop. At most two objects are created: the network policy of
    a request that was started, and after it the service of the ports that this request
    declares, both in the namespace of the deployment and under the runtime name of that
    start. Every other run of kubectl asks for, or deletes, the policy or the service of this
    same name. The stop succeeds exactly when the environment is then stopped; in this case
    the policy, if one was asked for, was seen gone after the last creation, and so was the
    service. *)
Theorem task_objects_accounted {W : Type} `{!Runtime W} `{!Commands W} {Lib : KubeLibrary} `{!KubeRandom W} (o : K8sOptions)
    (runID : string) (calls : list k8s_task_call) (ctx : Ctx) :
  emits (let* t := k8s_task_life (W := W * list kube_event) o runID calls new_K8sTaskEnvironment in k8s_task_Stop o ctx t) (fun r evs =>
    (creations evs <= 2)%nat /\ created_objects o (asked_in calls) (kt_policy r.2) evs /\
    Forall (own_run o (kt_policy r.2)) evs /\ (r.1 = None <-> kt_stopped r.2 = true) /\
    (r.1 = None -> evs <> [] ->
      cleared o "networkpolicy" (kt_policy r.2) evs /\ ((1 < creations evs)%nat -> cleared o "service" (kt_policy r.2) evs))).
Proof.
  eapply emits_bind; [apply (k8s_task_life_ok _ _ (asked_in calls)); [|apply task_ok_new]|].
  { intros ctx' request name owner Hin. by exists ctx', owner. }
  intros t evs Hok. simpl in Hok.
  eapply emits_mono; [by apply k8s_task_Stop_ok|]. intros [e t'] evs' [Hok' Hiff]. simpl in *.
  pose proof (to_created _ _ _ _ Hok') as Hcr.
  split_and!; [|done|apply Hok'|done|].
  { unfold creations. destruct Hcr as [-> | (request & ports & _ & _ & [(p & -> & _)|(p & q & -> & _)])]; simpl; lia. }
  intros He Hne. apply Hiff in He. destruct (to_stopped _ _ _ _ Hok' He) as [Hs Hcl].
  split; [apply Hcl; intros Hp; by destruct (to_new _ _ _ _ Hok' Hp)|].
  intros H2. by destruct (to_cleared _ _ _ _ Hok' H2).
Qed.
