(* ===== verification/KubeExecTheorems.v ===== *)
(** What commands and writes in a pod promise: the output of a command is complete and
    within its bound, and a file is replaced by one rename of its whole content. *)

From S2P Require Import Prelude Utf8 Trace Paths Net Core Redaction Sandbox Deployments HarnessRuntime HarnessConfig HarnessFiles.
From S2P Require Import Docker DockerExec DockerFiles Kubernetes KubeExec KubeTheorems KubeNetwork.

(** * Bounded output *)

Abbreviation collected_output := (k8s_limited (S := bytes * bytes)).
Definition bounded (limit : Z) (l : collected_output) : Prop :=
  kw_out l = Z.of_nat (length (kw_state l).1) /\ kw_err l = Z.of_nat (length (kw_state l).2) /\ kw_out l <= limit /\ kw_err l <= limit.
Definition overflowed (l : collected_output) : collected_output :=
  {| kw_state := kw_state l; kw_out := kw_out l; kw_err := kw_err l; kw_exceeded := true |}.
Definition appended (stderr : bool) (content : bytes) (l : collected_output) : collected_output :=
  let n := Z.of_nat (length content) in
  {| kw_state := if stderr then ((kw_state l).1, (kw_state l).2 ++ content) else ((kw_state l).1 ++ content, (kw_state l).2);
     kw_out := if stderr then kw_out l else kw_out l + n; kw_err := if stderr then kw_err l + n else kw_err l; kw_exceeded := kw_exceeded l |}.
Lemma limited_cases limit stderr content (l : collected_output) : bounded limit l ->
  let '((written, e), l') := k8s_limited_Write append_streams limit stderr content l in
  bounded limit l' /\
  (short_write content written e <> None /\ l' = overflowed l \/
   short_write content written e = None /\ l' = appended stderr content l).
Proof.
  intros (Ho & He & Hlo & Hle). unfold k8s_limited_Write.
  destruct (Z.ltb_spec (limit - (if stderr then kw_err l else kw_out l)) (Z.of_nat (length content))) as [Hx|Hx].
  - split; [done|]. by left.
  - unfold append_streams. split; [|right; unfold short_write; by rewrite Z.eqb_refl].
    unfold bounded. destruct stderr; simpl; rewrite ?length_app; split_and!; lia.
Qed.

(** The frames as far as the bound of each stream allows. *)
Lemma copy_limited limit frames broken l : bounded limit l ->
  let (e, l') := copy_streams (k8s_limited_Write append_streams limit) frames broken l in
  bounded limit l' /\ (kw_exceeded l = true -> kw_exceeded l' = true) /\
  (kw_exceeded l' = false -> broken = (None, None) ->
    e = None /\ kw_state l' = ((kw_state l).1 ++ printed false frames, (kw_state l).2 ++ printed true frames)).
Proof.
  revert broken l. induction frames as [|[stderr payload] frames IH]; intros broken l Hb; simpl.
  { split_and!; [done|done|]. intros _ ->. split; [done|]. rewrite !app_nil_r. by destruct (kw_state l). }
  destruct (is_some (if stderr then broken.2 else broken.1)) eqn:Hbr.
  { specialize (IH broken l Hb). destruct (copy_streams _ _ _ _) as [e l']. destruct IH as (H1 & H2 & _).
    split_and!; [done|done|]. intros _ ->. by destruct stderr. }
  pose proof (limited_cases limit stderr payload l Hb) as Hw. destruct (k8s_limited_Write _ _ _ _ _) as [[written e] l1].
  destruct Hw as [Hb1 Hw]. set (broken' := if stderr then _ else _). specialize (IH broken' l1 Hb1).
  destruct (copy_streams _ _ _ _) as [e' l']. destruct IH as (H1 & H2 & H3). split; [done|].
  destruct Hw as [[Hs ->]|[Hs ->]].
  - assert (kw_exceeded l' = true) as Hx by (by apply H2). split; [done|]. congruence.
  - split; [done|]. intros Hx ->. unfold broken' in H3. rewrite Hs in H3.
    destruct (H3 Hx ltac:(by destruct stderr)) as [He Hst]. split; [done|]. rewrite Hst, !printed_cons.
    destruct stderr; simpl; by rewrite <- app_assoc.
Qed.

(** * Executions *)

Definition output_limit (command : Command) : Z := if cm_OutputLimitBytes command =? 0 then maxExecOutput else cm_OutputLimitBytes command.
Lemma output_limit_nonneg command : k8s_validateCommand command = None -> 0 <= output_limit command.
Proof.
  unfold k8s_validateCommand. rewrite !seq_error_nil. intros (_ & _ & _ & _ & Hl & _).
  rewrite refuse_if_nil, orb_false_iff, Z.ltb_ge in Hl. unfold output_limit. by destruct (cm_OutputLimitBytes command =? 0); [|lia].
Qed.
Definition started_limited {S} (s : S) : k8s_limited := {| kw_state := s; kw_out := 0; kw_err := 0; kw_exceeded := false |}.
Definition copied_output {S} (write : writer S) (command : Command) (ended : Ended) (s : S) : error * k8s_limited :=
  copy_streams (k8s_limited_Write write (output_limit command)) (ce_frames ended) (None, None) (started_limited s).

Section Exec.
Context {W : Type} `{!Runtime W} `{!Commands W} {Lib : KubeLibrary} `{!KubeRandom W}.
Variable o : K8sOptions.
Abbreviation T := (W * list kube_event)%type.

(** The code of a command that is over: 0, or what its error carries, unless the error was
    replaced by that of the context. *)
Definition exit_of (failure : error) (code : Z) : Prop :=
  match failure with
  | None => code = 0
  | Some e => 0 <= code /\ exists e', exit_code (W := W) e' = Some code /\ (e' = e \/ exists c, e' = ESentinel c)
  end.
Definition exec_ended {S} (write : writer S) (command : Command) (s : S) (ended : Ended) (r : CommandResult * error * S * Z) : Prop :=
  let (copyErr, l) := copied_output write command ended s in
  let '(result, e, s', taken) := r in
  taken = ce_read ended /\ s' = kw_state l /\
  (e = None -> kw_exceeded l = false /\ exit_of (seq_error (ce_error ended) copyErr) (cr_ExitCode result)).
Definition exec_run (id : string) (command : Command) (stdin : option bytes) (ended : Ended) (ev : kube_event) : Prop :=
  exists ctx, ev = KRun ctx (pod_argv o id stdin (exec_argv command)) stdin ended.

Lemma exec_stream_emits {S} ctx id command stdin (write : writer S) (s : S) :
  emits (k8s_ExecStream (W := T) o ctx id command stdin write s) (fun r evs =>
    match k8s_validateCommand command with
    | Some e => evs = [] /\ exists result, r = (result, Some e, s, 0)
    | None => exists ended ev, evs = [ev] /\ exec_run id command stdin ended ev /\ exec_ended write command s ended r
    end).
Proof.
  unfold k8s_ExecStream. apply emits_read. intros started. cbv zeta.
  destruct (k8s_validateCommand command) as [e|] eqn:Hv.
  { apply emits_read. intros now. apply emits_ret. split; [done|by eexists]. }
  unfold execInPod, kubectl_Run. apply emits_flatten. cbn [command_Run traced_commands]. apply emits_call. intros ended.
  fold (output_limit command). fold (started_limited s). fold (copied_output write command ended s).
  destruct (copied_output write command ended s) as [copyErr l] eqn:Hco.
  apply (emits_bind _ _ (fun r evs => evs = [] /\ r.1.2 = ended /\ r.2 = l /\
    match r.1.1 with
    | None => seq_error (ce_error ended) copyErr = None
    | Some e' => exists e, seq_error (ce_error ended) copyErr = Some e /\ (e' = e \/ exists c, e' = ESentinel c)
    end)).
  { destruct (seq_error _ _) as [e|]; [|by apply emits_ret]. apply emits_read. intros canceled. apply emits_ret.
    split_and!; [done|done|done|]. exists e. split; [done|]. destruct canceled as [c|]; [right; by exists c|by left]. }
  intros [[runErr ended'] l'] evs (-> & Hended & Hl & Hrun). simpl in Hended, Hl, Hrun. subst ended' l'.
  apply (emits_bind _ _ (fun cause evs => evs = [] /\ (cause = None -> kw_exceeded l = false))).
  { unfold k8s_cause. destruct (kw_exceeded l), (ce_late ended); simpl; try (by apply emits_ret); apply emits_read; intros [c|]; by apply emits_ret. }
  intros cause evs [-> Hc]. cbn [app].
  assert (exec_run id command stdin ended (KRun (exec_context ctx (cm_Timeout command)) (pod_argv o id stdin (exec_argv command)) stdin ended))
    as Hev by (by eexists).
  destruct cause as [cause|].
  { apply emits_read. intros now. apply emits_ret. exists ended. eexists. split_and!; [done|done|]. unfold exec_ended. by rewrite Hco. }
  specialize (Hc eq_refl).
  assert (forall code now, exit_of (seq_error (ce_error ended) copyErr) code ->
    exec_ended write command s ended (no_result code now, None, kw_state l, ce_read ended)) as Hok
    by (intros code now H; unfold exec_ended; by rewrite Hco).
  assert (forall e code now, exec_ended write command s ended (no_result code now, Some e, kw_state l, ce_read ended)) as Hfailed
    by (intros e code now; unfold exec_ended; by rewrite Hco).
  destruct runErr as [e|].
  2: { apply emits_read. intros now. apply emits_ret. exists ended. eexists. split_and!; [done|done|]. apply Hok. by rewrite Hrun. }
  destruct Hrun as (e0 & He0 & Hor).
  assert (exit_code (Commands := traced_commands) e = exit_code (W := W) e) as -> by done.
  destruct (exit_code e) as [code|] eqn:Hcode; [destruct (Z.ltb_spec code 0) as [Hn|Hn]|]; apply emits_read; intros now; apply emits_ret;
    exists ended; eexists; (split_and!; [done|done|]); [apply Hfailed|apply Hok|apply Hfailed].
  rewrite He0. split; [done|]. by exists e.
Qed.

(** A command in a pod. It is refused, and nothing runs, when its description is not
    valid. Otherwise kubectl runs once, with the command's argv and input. What is returned
    of each stream is within the bound of the command; if there is no error it is all that
    the command printed, and the exit code is 0 exactly as kubectl reports it, or the code
    that its error carries. *)
Theorem k8s_exec_faithful (ctx : Ctx) (id : string) (command : Command) :
  emits (k8s_Exec (W := T) o ctx id command) (fun r evs =>
    let '(result, e) := r in
    let stdin := match cm_Stdin command with [] => None | content => Some content end in
    (evs = [] /\ is_Some e /\ cr_Stdout result = ""%string /\ cr_Stderr result = ""%string) \/
    (k8s_validateCommand command = None /\ (Z.of_nat (length (cm_Stdin command)) <= maxExecInput) /\
     exists ended ev, evs = [ev] /\ exec_run id command stdin ended ev /\
      len (cr_Stdout result) <= output_limit command /\ len (cr_Stderr result) <= output_limit command /\
      (e = None -> exit_of (ce_error ended) (cr_ExitCode result) /\
         cr_Stdout result = of_bytes (printed false (ce_frames ended)) /\ cr_Stderr result = of_bytes (printed true (ce_frames ended))))).
Proof.
  unfold k8s_Exec. apply emits_read. intros started. destruct (Z.ltb_spec maxExecInput (Z.of_nat (length (cm_Stdin command)))) as [Hx|Hx].
  { apply emits_read. intros now. apply emits_ret. left. by split_and!. }
  cbv zeta. eapply emits_bind; [apply exec_stream_emits|]. intros [[[result e] [out err]] taken] evs H. apply emits_ret. rewrite app_nil_r.
  destruct (k8s_validateCommand command) as [refused|] eqn:Hv.
  { destruct H as [-> [result' [= -> -> -> -> ->]]]. left. by split_and!. }
  destruct H as (ended & ev & -> & Hev & Hended). unfold exec_ended, copied_output in Hended.
  pose proof (copy_limited (output_limit command) (ce_frames ended) (None, None) (started_limited ([], []))) as Hcl.
  destruct (copy_streams _ _ _ _) as [copyErr l]. destruct Hended as (_ & Hs & Hok).
  pose proof (output_limit_nonneg command Hv) as Hlim.
  destruct Hcl as ((H1 & H2 & H3 & H4) & _ & Hall); [by split_and!|]. rewrite <- Hs in *.
  assert (forall b, len (of_bytes b) = Z.of_nat (length b)) as Hlen by (intros b; by rewrite len_to_bytes, to_of_bytes).
  right. split_and!; [done|done|]. exists ended, ev. cbn [cr_Stdout cr_Stderr cr_ExitCode]. rewrite !Hlen. simpl in H1, H2.
  split_and!; [done|done|lia|lia|]. intros He. destruct (Hok He) as [Hx' Hexit]. destruct (Hall Hx' eq_refl) as [-> [= -> ->]].
  split; [|done]. by destruct (ce_error ended).
Qed.

(** * Writes *)

(** The command that a run executed is over with the code 0. *)
Definition ran_well (ended : Ended) : Prop := exit_of (ce_error ended) 0.
Lemma ran_well_copied failure copied code : exit_of (seq_error failure copied) code -> code = 0 -> exit_of failure 0.
Proof. intros H ->. by destruct failure. Qed.
Lemma k8s_exec_emits ctx id command : k8s_validateCommand command = None -> cm_Stdin command = [] ->
  emits (k8s_Exec (W := T) o ctx id command) (fun r evs => exists ended ev, evs = [ev] /\ exec_run id command None ended ev /\
    (r.2 = None -> cr_ExitCode r.1 = 0 -> ran_well ended)).
Proof.
  intros Hv Hs. unfold k8s_Exec. apply emits_read. intros started. rewrite Hs. cbn [length].
  destruct (Z.ltb_spec maxExecInput (Z.of_nat 0)) as [Hx|_]; [done|]. cbv zeta.
  eapply emits_bind; [apply exec_stream_emits|]. rewrite Hv. intros [[[result e] [out err]] taken] evs (ended & ev & -> & Hev & Hended).
  apply emits_ret. exists ended, ev. split_and!; [done|done|]. unfold exec_ended in Hended. destruct (copied_output _ _ _ _) as [copyErr l].
  destruct Hended as (_ & _ & Hok). simpl. intros He Hc. destruct (Hok He) as [_ Hx]. by eapply ran_well_copied.
Qed.

Definition free_of_NUL (s : string) : Prop := ContainsByte s NUL = false.
Definition valid_user (user : string) : Prop := user = ""%string \/ validateNumericUser user = None.
Lemma validate_file_command path args user :
  k8s_validateCommand (file_command path args user 0) = None <->
  path <> ""%string /\ free_of_NUL path /\ valid_user user /\ Forall free_of_NUL args.
Proof.
  unfold k8s_validateCommand, file_command, free_of_NUL, valid_user. simpl.
  rewrite !seq_error_nil, !refuse_if_nil, first_error_nil, orb_false_iff, String.eqb_neq, map_to_list_empty. simpl.
  assert (forall l : list string, Forall (fun a => (refuse_if ContainsByte a NUL with "command argument contains NUL") = None) l <->
    Forall (fun a => ContainsByte a NUL = false) l) as -> by (intros l; apply Forall_iff; intros a; apply refuse_if_nil).
  assert ((if String.eqb user "" then None else wrap "invalid command user" (validateNumericUser user)) = None <->
    user = ""%string \/ validateNumericUser user = None) as -> by (destruct (String.eqb_spec user ""); rewrite ?wrap_nil_iff; naive_solver).
  naive_solver.
Qed.
Lemma free_of_NUL_iff s : free_of_NUL s <-> NUL ∉ to_bytes s.
Proof.
  unfold free_of_NUL, ContainsByte. rewrite <- not_true_iff_false, mem_spec. done.
Qed.
Lemma clean_components_any rooted stack parts component :
  component ∈ clean_components rooted stack parts -> component ∈ stack \/ component ∈ parts.
Proof.
  revert stack. induction parts as [|part parts IH]; intros stack Hin; [by left|].
  cbn [clean_components] in Hin. apply IH in Hin as [Hin|Hin]; [|right; by right].
  destruct (_ || _); [by left|]. case_bool_decide as Hdd.
  - subst part. destruct stack as [|top stack].
    + destruct rooted; [by apply not_elem_of_nil in Hin|]. apply list_elem_of_singleton in Hin as ->. right. by left.
    + case_bool_decide; [|left; by right]. apply elem_of_cons in Hin as [->|Hin]; [right; by left|by left].
  - apply elem_of_cons in Hin as [->|Hin]; [right; by left|by left].
Qed.
Lemma Clean_free path : free_of_NUL path -> free_of_NUL (Clean path).
Proof.
  rewrite !free_of_NUL_iff. intros Hp Hc. unfold Clean in Hc. destruct (to_bytes path) as [|d rest] eqn:Hb; [set_solver|].
  set (parts := rev (clean_components _ _ _)) in *.
  assert (forall part, part ∈ parts -> NUL ∉ part) as Hparts.
  { intros part Hin Hn. unfold parts in Hin. apply list_elem_of_In, in_rev, list_elem_of_In in Hin.
    apply clean_components_any in Hin as [?%not_elem_of_nil|Hin]; [done|]. apply Hp. by eapply split_bytes_from. }
  assert (NUL ∉ join_bytes "/" parts) as Hjoin.
  { intros Hj. apply join_bytes_from in Hj as [?|(part & Hin & Hn)]; [done|]. by apply (Hparts part). }
  destruct (Ascii.eqb d "/").
  - rewrite to_of_bytes in Hc. apply elem_of_cons in Hc as [?|?]; [done|contradiction].
  - destruct parts as [|p ps]; [set_solver|]. rewrite to_of_bytes in Hc. contradiction.
Qed.

Lemma concat_free (sep : string) (l : list string) : free_of_NUL sep -> Forall free_of_NUL l -> free_of_NUL (String.concat sep l).
Proof.
  intros Hs Hl. induction Hl as [|x l Hx Hl IH]; [done|]. destruct l as [|y l]; [done|].
  change (String.concat sep (x :: y :: l)) with (x +:+ sep +:+ String.concat sep (y :: l)).
  rewrite !free_of_NUL_iff in *. rewrite !to_bytes_app, !not_elem_of_app. done.
Qed.
Lemma Join_free l : Forall free_of_NUL l -> free_of_NUL (Join l).
Proof.
  rewrite Forall_forall. intros Hl. unfold Join. destruct (filter _ l) as [|x xs] eqn:E; [done|].
  apply Clean_free, concat_free; [done|]. apply Forall_forall. intros y Hy. apply Hl. rewrite <- E in Hy.
  by apply list_elem_of_filter in Hy as [_ Hy].
Qed.
Lemma hex_free value : free_of_NUL (of_bytes (hex_encode value)).
Proof.
  apply free_of_NUL_iff. rewrite to_of_bytes. unfold hex_encode. intros Hin.
  apply list_elem_of_In, in_concat in Hin as (x & (c & <- & _)%in_map_iff & Hc).
  by destruct c as [[] [] [] [] [] [] [] []]; vm_compute in Hc; destruct Hc as [Hc|[Hc|[]]].
Qed.
(** What a preparation has to print: the fields that it says, each ended by a NUL. *)
Definition said_prepared (output : bytes) (created : bool) (mode target directory : string) : Prop :=
  exists first, created = String.eqb first "1" /\
    output = to_bytes first ++ NUL :: to_bytes mode ++ NUL :: to_bytes target ++ NUL :: to_bytes directory ++ [NUL].
Lemma prepared_said output created mode target directory :
  parse_prepared output = Some (created, mode, target, directory) -> said_prepared output created mode target directory.
Proof.
  unfold parse_prepared. intros H. pose proof (join_split NUL output) as Hj.
  destruct (split_bytes NUL output) as [|a [|b [|c [|d [|e [|]]]]]]; try done. simpl in H.
  destruct (String.eqb_spec (of_bytes e) "") as [He|]; [|done]. injection H as <- <- <- <-. exists (of_bytes a). split; [done|].
  rewrite !to_of_bytes. apply (f_equal to_bytes) in He. rewrite to_of_bytes in He. by rewrite <- Hj, He.
Qed.
Lemma prepared_free output created mode target directory :
  parse_prepared output = Some (created, mode, target, directory) -> free_of_NUL mode /\ free_of_NUL target /\ free_of_NUL directory.
Proof.
  unfold parse_prepared. intros H. pose proof (split_bytes_no_sep NUL output) as Hn.
  destruct (split_bytes NUL output) as [|a [|b [|c [|d [|e [|]]]]]]; try done. simpl in H.
  destruct (String.eqb _ _); [|done]. injection H as _ <- <- <-.
  rewrite !free_of_NUL_iff, !to_of_bytes. split_and!; apply Hn; rewrite !elem_of_cons; auto.
Qed.

(** The content is as long as it was announced, has ended there, and was taken whole. *)
Definition whole (content : Content) (size taken : Z) : Prop :=
  Z.of_nat (length (ct_bytes content)) = size /\ errors_Is (ct_end content) ErrEOF = true /\ size <= taken.
Lemma stream_error_none content size taken : stream_error content size taken = None -> whole content size taken.
Proof.
  unfold stream_error, whole, offered. rewrite length_take.
  destruct (Z.ltb_spec taken (Z.of_nat (Z.to_nat size `min` length (ct_bytes content)))); [done|].
  destruct (Z.ltb_spec size 0); [done|]. destruct (Z.ltb_spec (Z.of_nat (length (ct_bytes content))) size); [done|].
  destruct (Z.ltb_spec size (Z.of_nat (length (ct_bytes content)))); [done|]. destruct (errors_Is _ _); [|done].
  intros _. split_and!; [lia|done|lia].
Qed.

Section Write.
Variable id execUser : string.
Variable content : Content.
Variable size : Z.
Definition stream_command (temporary mode : string) : Command := shell_script streamScript "aries-write" [temporary; mode] execUser.
Definition rename_run (temporary target : string) (well : bool) (ev : kube_event) : Prop :=
  exists ended, exec_run id (shell_script k8s_renameScript "aries-write" [temporary; target; itoa size] execUser) None ended ev /\
    (well = true -> ran_well ended).
Definition removal_run (temporary : string) (ev : kube_event) : Prop :=
  exists ended, exec_run id (file_command "rm" ["-f"; "--"; temporary]%string execUser 0) None ended ev.
(** The content that was announced is in the temporary file: its command took it and ended well. *)
Definition streamed (ended : Ended) : Prop := whole content size (ce_read ended) /\ ran_well ended.
(** After the preparation: the stream, and then the rename of whole content, or the removal
    of the temporary file, or both. *)
Definition stream_trace (created : bool) (temporary mode target : string) (r : bool * error) (evs : list kube_event) : Prop :=
  exists stream ended rest, evs = stream :: rest /\
    exec_run id (stream_command temporary mode) (Some (offered content size)) ended stream /\
    ((r = (created, None) /\ streamed ended /\ exists renamed, rest = [renamed] /\ rename_run temporary target true renamed) \/
     (r.1 = false /\ is_Some r.2 /\ exists removed, removal_run temporary removed /\
       (rest = [removed] \/
        streamed ended /\ exists renamed, rest = [renamed; removed] /\ rename_run temporary target false renamed))).

Lemma abandon_emits temporary e : valid_user execUser -> free_of_NUL temporary ->
  emits (abandon_stream (W := T) o id temporary execUser e) (fun r evs => r = (false, Some e) /\ exists ev, evs = [ev] /\ removal_run temporary ev).
Proof.
  intros Hu Ht. unfold abandon_stream, k8s_removeTemporary. apply emits_flatten.
  eapply emits_bind; [apply k8s_exec_emits; [|done]|].
  - apply validate_file_command. split_and!; [done|done|done|]. repeat constructor. exact Ht.
  - intros [result e'] evs (ended & ev & -> & Hev & _). apply emits_bind_ret, emits_ret. split; [done|]. exists ev. split; [done|]. by exists ended.
Qed.
Lemma script_valid text name args : Forall free_of_NUL (text :: name :: args) -> valid_user execUser ->
  k8s_validateCommand (shell_script text name args execUser) = None.
Proof.
  intros Ha Hu. apply validate_file_command. split_and!; [done|done|done|]. by constructor.
Qed.
Lemma itoa_free z : free_of_NUL (itoa z).
Proof.
  apply free_of_NUL_iff. intros Hin. assert (forall n, NUL ∉ to_bytes (itoa (Z.of_N n))) as Hpos.
  { intros n Hn. pose proof (digits_itoa (Z.of_N n) ltac:(lia)) as Hd. rewrite forallb_forall in Hd.
    apply list_elem_of_In in Hn. by apply Hd in Hn. }
  destruct z as [|p|p]; [by apply (Hpos 0%N)|by apply (Hpos (Npos p))|].
  change (itoa (Z.neg p)) with ("-" +:+ itoa (Z.pos p)) in Hin. rewrite to_bytes_app in Hin.
  apply elem_of_app in Hin as [Hin|Hin]; [|by apply (Hpos (Npos p))]. simpl in Hin. by apply list_elem_of_singleton in Hin.
Qed.
Lemma k8s_rename_emits ctx temporary target created : valid_user execUser -> free_of_NUL temporary -> free_of_NUL target ->
  emits (k8s_rename (W := T) o ctx id temporary target execUser size created) (fun r evs =>
    exists renamed rest, evs = renamed :: rest /\
      (r = (created, None) /\ rest = [] /\ rename_run temporary target true renamed \/
       r.1 = false /\ is_Some r.2 /\ rename_run temporary target false renamed /\
         exists removed, rest = [removed] /\ removal_run temporary removed)).
Proof.
  intros Hu Ht Htg. unfold k8s_rename. eapply emits_bind; [apply k8s_exec_emits; [|done]|].
  { apply script_valid; [|done]. repeat constructor; try done. apply itoa_free. }
  intros [result e] evs (ended & ev & -> & Hev & Hwell).
  assert (forall e', emits (abandon_stream (W := T) o id temporary execUser e') (fun r evs => exists renamed rest,
    [ev] ++ evs = renamed :: rest /\
      (r = (created, None) /\ rest = [] /\ rename_run temporary target true renamed \/
       r.1 = false /\ is_Some r.2 /\ rename_run temporary target false renamed /\
         exists removed, rest = [removed] /\ removal_run temporary removed))) as Hgive.
  { intros e'. eapply emits_mono; [by apply abandon_emits|]. intros r evs (-> & removed & -> & Hr). exists ev, [removed].
    split; [done|]. right. split_and!; [done|by eexists|by exists ended|by exists removed]. }
  destruct e as [e|]; [apply Hgive|]. destruct (Z.eqb_spec (cr_ExitCode result) 0) as [Hz|Hz]; [|apply Hgive].
  apply emits_ret. exists ev, []. split; [done|]. left. split_and!; [done|done|]. exists ended. split; [done|]. intros _. by apply Hwell.
Qed.
Lemma k8s_stream_emits ctx temporary mode target created :
  valid_user execUser -> free_of_NUL temporary -> free_of_NUL mode -> free_of_NUL target ->
  emits (k8s_stream (W := T) o ctx id temporary mode target execUser content size created) (stream_trace created temporary mode target).
Proof.
  intros Hu Ht Hm Htg. unfold k8s_stream. eapply emits_bind; [apply exec_stream_emits|].
  rewrite (script_valid streamScript "aries-write" [temporary; mode]) by (try done; by repeat constructor).
  intros [[[result e] stderr] taken] evs (ended & ev & -> & Hev & Hended). unfold exec_ended in Hended.
  destruct (copied_output _ _ _ _) as [copyErr l]. destruct Hended as (-> & _ & Hended). cbv zeta.
  apply emits_read. intros canceled.
  assert (forall e', emits (abandon_stream (W := T) o id temporary execUser e') (fun r evs => stream_trace created temporary mode target r ([ev] ++ evs))) as Hgive.
  { intros e'. eapply emits_mono; [by apply abandon_emits|]. intros r evs (-> & removed & -> & Hr).
    exists ev, ended, [removed]. split_and!; [done|done|]. right. split_and!; [done|by eexists|].
    exists removed. split; [done|by left]. }
  destruct canceled as [c|]; [apply Hgive|]. destruct (errors_Join _) as [e'|] eqn:Hj; [apply Hgive|].
  apply errors_Join_nil_iff in Hj. rewrite !Forall_cons in Hj. destruct Hj as (He & Hj & _). apply stream_error_none in Hj.
  assert (streamed ended) as Hst.
  { split; [done|]. destruct e as [e|]; [done|]. destruct (Z.eqb_spec (cr_ExitCode result) 0) as [Hz|]; [|done].
    destruct (Hended eq_refl) as [_ Hx]. by eapply ran_well_copied. }
  eapply emits_mono; [by apply k8s_rename_emits|]. intros r evs (renamed & rest & -> & H).
  exists ev, ended, (renamed :: rest). split_and!; [done|done|].
  destruct H as [(-> & -> & Hrn)|(Hf & Hs & Hrn & removed & -> & Hr)]; [left; split_and!; [done|done|by exists renamed]|right].
  split_and!; [done|done|]. exists removed. split; [done|]. right. split; [done|]. by exists renamed.
Qed.

(** C12. A file in a pod is written by at most four runs of kubectl. A preparation of the
    clean path comes first, which writes nothing to the target; only if it ended with the
    code 0 and printed a target, its mode and its directory does anything follow. The
    content is then streamed, exactly the announced size of it at most, to a temporary file
    of its own in that directory; the target is touched only by one rename, and only if the
    content was as long as announced, ended there, was taken whole, and its command ended
    with the code 0. If the write succeeds this rename was its last run, and it ended with
    the code 0 too; if it fails after the stream has started, the last run is the removal of
    the temporary file. *)
Theorem k8s_write_complete (ctx : Ctx) (name : string) :
  emits (k8s_WriteFile (W := T) o ctx id name content size execUser) (fun r evs =>
    match evs with
    | [] => r.1 = false /\ is_Some r.2
    | prepared :: rest => exists ended,
        exec_run id (shell_script prepareScript "aries-write" [Clean name] execUser) None ended prepared /\
        (rest = [] /\ r.1 = false /\ is_Some r.2 \/
         ran_well ended /\ exists created mode target directory token,
           said_prepared (printed false (ce_frames ended)) created mode target directory /\
           stream_trace created (Join [directory; ".aries-tmp-" +:+ token]%string) mode target r rest)
    end).
Proof.
  unfold k8s_WriteFile. cbv zeta. destruct (filePath name) as [clean|e] eqn:Hpath; [|apply emits_ret; split; [done|by eexists]].
  assert (clean = Clean name) as -> by (unfold filePath in Hpath; case_match; by simplify_eq).
  destruct (String.eqb (Clean name) "/"); [apply emits_ret; split; [done|by eexists]|].
  eapply emits_bind; [apply exec_stream_emits|]. intros [[[result e] [prepared stderr]] taken] evs H.
  destruct (k8s_validateCommand _) as [refused|] eqn:Hv.
  { destruct H as [-> [result' [= -> -> -> -> ->]]]. apply emits_ret. split; [done|by eexists]. }
  destruct H as (ended & ev & -> & Hev & Hended).
  set (outcome := fun (r : bool * error) (evs : list kube_event) => _).
  assert (forall e', emits (W := W) (E := kube_event) (ret (false, Some e')) outcome) as Hfailed.
  { intros e'. apply emits_ret. exists ended. split; [done|]. left. split_and!; [done|done|by eexists]. }
  destruct e as [e|]; [apply Hfailed|]. destruct (Z.eqb_spec (cr_ExitCode result) 0) as [Hz|]; [|apply Hfailed].
  assert (ran_well ended /\ prepared = printed false (ce_frames ended)) as [Hwell ->].
  { unfold exec_ended, copied_output in Hended.
    pose proof (output_limit_nonneg _ Hv) as Hlim.
    pose proof (copy_limited (output_limit (shell_script prepareScript "aries-write" [Clean name] execUser)) (ce_frames ended) (None, None) (started_limited ([], []))) as Hcl.
    destruct (copy_streams _ _ _ _) as [copyErr l]. destruct Hended as (_ & Hs & Hok). destruct (Hok eq_refl) as [Hx Hexit].
    split; [by eapply ran_well_copied|]. destruct Hcl as (_ & _ & Hall); [unfold bounded, started_limited; cbn [kw_out kw_err kw_state fst snd length]; split_and!; lia|]. destruct (Hall Hx eq_refl) as [_ Hst].
    rewrite <- Hs in Hst. by injection Hst as -> _. }
  destruct (parse_prepared _) as [[[[created mode] target] directory]|] eqn:Hp; [|apply Hfailed].
  pose proof (prepared_said _ _ _ _ _ Hp) as Hsaid.
  apply prepared_free in Hp as (Hm & Ht & Hd). unfold k8s_randomID. apply emits_flatten, emits_read. intros [value|e]; apply emits_bind_ret; [|apply Hfailed].
  apply validate_file_command in Hv as (_ & _ & Hu & _).
  eapply emits_mono; [apply k8s_stream_emits; [done| |done|done]|].
  - apply Join_free. repeat constructor; [done|]. apply free_of_NUL_iff. rewrite to_bytes_app, not_elem_of_app.
    split; [vm_compute; set_solver|]. apply free_of_NUL_iff, hex_free.
  - intros r evs H. exists ended. split; [done|]. right. split; [done|]. by eexists _, _, _, _, _.
Qed.
End Write.
End Exec.

(** A path with [=] in it follows the environment as one more assignment would. *)
Example path_after_environment :
  env_argv {["K"%string := "v"%string]} ["a=b"; "x"]%string = ["env"; "K=v"; "a=b"; "x"]%string.
Proof. vm_compute. reflexivity. Qed.
