(* ===== verification/KubeResources.v ===== *)
(** The readings of pods ([pkg/deployment/kubernetes], resources.go): the options of a source,
    the discovery of the pods of a run, and a sample taken from Prometheus. A source is used
    by one sampling loop; what it keeps from one sample to the next is its state here.

    What the readings of pods promise over a whole run of samples: every reading is of a pod
    that the cluster listed as a running pod of this run and this source's scope, and the
    times of the readings of one pod strictly increase, which the rates computed from them
    need. *)

From stdpp Require Import sorting.
From S2P Require Import Prelude Utf8 Trace Paths Net Core GoTime Audio ConfigDeployment Config JsonFields Deployments HarnessConfig.
From S2P Require Import Docker DockerTheorems Kubernetes DockerResources KubeTheorems.

(** * The source *)

Definition discoveryFailureBudget : Z := 3.
Definition maxPrometheusResponse : Z := 8 * 2 ^ 20.
Definition unknownPodRetry : Z := 15 * 10 ^ 9.
Definition backstopTimeout : Z := 20 * 10 ^ 9.
(** [ResourceOptions], [ResourceSource] and [resourceTarget]; times are nanoseconds. *)
Record K8sResourceOptions := {
  kx_Scope : string;
  kx_RunID : string;
  kx_TaskIDs : list string;
  kx_PrometheusURL : string;
  kx_Namespace : string;
  kx_KubectlPath : string
}.
Record resourceTarget := { rg_podName : string; rg_taskID : string; rg_component : string; rg_limit : Z }.
Record K8sSource := {
  ks_base : FullURL;
  ks_namespace : string;
  ks_kubectl : string;
  ks_scope : string;
  ks_runID : string;
  ks_tasks : gset string
}.
Record SourceState := {
  ss_lastObserved : gmap string Z;
  ss_discoveryFailures : Z;
  ss_known : gmap string resourceTarget;
  ss_unknownUntil : gmap string Z
}.
Definition new_SourceState : SourceState :=
  {| ss_lastObserved := ∅; ss_discoveryFailures := 0; ss_known := ∅; ss_unknownUntil := ∅ |}.

Fixpoint k8s_tasks (tasks : gset string) (taskIDs : list string) : gset string + err :=
  match taskIDs with
  | [] => inl tasks
  | taskID :: taskIDs =>
      if String.eqb taskID "" then inr (ENew "Kubernetes resource task ID is empty")
      else if bool_decide (taskID ∈ tasks) then inr (ENew ("Kubernetes resource task ID " +:+ quote taskID +:+ " is repeated"))
      else k8s_tasks ({[taskID]} ∪ tasks) taskIDs
  end.
Definition k8s_NewResourceSource (url_Parse : string -> option FullURL) (x : K8sResourceOptions) : K8sSource + err :=
  let scope := or_text (kx_Scope x) "task" in
  match (refuse_if String.eqb (kx_RunID x) "" with "Kubernetes resource source requires a run ID") >>?
        (refuse_if negb (String.eqb scope "task") && negb (String.eqb scope "run") with "invalid Kubernetes resource scope") >>?
        (refuse_if String.eqb scope "run" && negb (bool_decide (kx_TaskIDs x = [])) with "run resources cannot select task IDs") >>?
        (refuse_if String.eqb scope "task" && bool_decide (kx_TaskIDs x = [])
           with "Kubernetes resource source requires at least one task ID") with
  | Some e => inr e
  | None =>
      match k8s_tasks ∅ (kx_TaskIDs x) with
      | inr e => inr e
      | inl tasks =>
          let refused := inr (ENew ("Prometheus address " +:+ quote (kx_PrometheusURL x) +:+ " must be an http or https URL")) in
          match url_Parse (kx_PrometheusURL x) with
          | None => refused
          | Some base =>
              if String.eqb (ul_Host base) "" || negb (http_scheme base) || ul_User base ||
                 negb (String.eqb (ul_RawQuery base) "") || negb (String.eqb (ul_Fragment base) "")
              then refused
              else inl {| ks_base := base; ks_namespace := or_text (kx_Namespace x) defaultNamespace;
                          ks_kubectl := or_text (kx_KubectlPath x) defaultKubectl; ks_scope := scope;
                          ks_runID := kx_RunID x; ks_tasks := tasks |}
          end
      end
  end.
Definition BaselineGracePeriod : Z := 30.

(** [parseMemoryQuantity]; the product wraps at 64 bits. *)
Definition memory_units : list (string * Z) :=
  [("Ki", 2 ^ 10); ("Mi", 2 ^ 20); ("Gi", 2 ^ 30); ("Ti", 2 ^ 40); ("k", 1000); ("M", 10 ^ 6); ("G", 10 ^ 9); ("", 1)]%string.
Definition ParseUint64 (s : string) : option Z :=
  if String.eqb s "" || negb (forallb is_digit (to_bytes s)) then None
  else let n := Z.of_N (dec_value 0 s) in if n <? 2 ^ 64 then Some n else None.
Fixpoint memory_quantity (value : string) (units : list (string * Z)) : Z :=
  match units with
  | [] => 0
  | (suffix, scale) :: units =>
      match CutSuffix value suffix with
      | Some digits => match ParseUint64 digits with Some parsed => parsed * scale mod 2 ^ 64 | None => 0 end
      | None => memory_quantity value units
      end
  end.
Definition parseMemoryQuantity (value : string) : Z := memory_quantity (TrimSpace value) memory_units.

(** * Discovery *)

(** One pod of the list: what it is to the source, if it is one of its own. *)
Definition k8s_selected (source : K8sSource) (pod : podObject) : bool :=
  let annotations := pm_Annotations (po_Metadata pod) in
  let component := label_of annotations "aries.component" in
  let taskID := label_of annotations "aries.task" in
  if one_of component ["sandbox"; "evaluation-sandbox"; "harness"]%string
  then bool_decide (taskID ∈ ks_tasks source) && String.eqb (ks_scope source) "task"
  else if String.eqb component "bridge"
  then String.eqb (ks_scope source) "run" && String.eqb taskID "" && String.eqb (label_of annotations "aries.kind") "tool-bridge"
  else false.
Definition k8s_target (source : K8sSource) (pod : podObject) : option resourceTarget :=
  let annotations := pm_Annotations (po_Metadata pod) in
  if negb (String.eqb (label_of annotations "aries.managed") "true") || negb (String.eqb (label_of annotations "aries.run") (ks_runID source))
  then None
  else if negb (k8s_selected source pod) || negb (String.eqb (pt_Phase (po_Status pod)) "Running") then None
  else Some {| rg_podName := pm_Name (po_Metadata pod); rg_taskID := label_of annotations "aries.task";
               rg_component := label_of annotations "aries.component";
               rg_limit := match px_Containers (po_Spec pod) with
                           | container :: _ => parseMemoryQuantity (label_of (pc_Limits container) "memory")
                           | [] => 0
                           end |}.
Definition decode_list (value : json) : option (list podObject) :=
  match value with
  | JNull => Some []
  | value => struct_value (field_of "items" [] (list_value no_pod (struct_value pod_fields))) value
  end.

(** * Prometheus *)

(** The answer to one instant query. *)
Inductive PromAnswer :=
  | NoRequest (e : err)
  | NoResponse (e : err)
  | Response (code : Z) (status : string) (body : bytes) (ended : error).
Class Prometheus (W : Type) := { prom_Query : Ctx -> FullURL -> string -> M W PromAnswer }.
Record PromSample := { sm_Metric : gmap string string; sm_Value : json }.   (* the second of the two *)
Definition sample_fields (m : list (string * json)) : option PromSample :=
  metric ← field_of "metric" ∅ strings_value m;
  value ← field_of "value" JNull (fun v => match v with JArray l => Some (default JNull (l !! 1%nat)) | _ => None end) m;
  Some {| sm_Metric := metric; sm_Value := value |}.
Definition no_sample : PromSample := {| sm_Metric := ∅; sm_Value := JNull |}.
Definition data_fields (m : list (string * json)) : option (string * list PromSample) :=
  kind ← field_of "resultType" ""%string string_value m;
  result ← field_of "result" [] (list_value no_sample (struct_value sample_fields)) m;
  Some (kind, result).
Definition response_fields (m : list (string * json)) : option (string * string * (string * list PromSample)) :=
  status ← field_of "status" ""%string string_value m;
  error ← field_of "error" ""%string string_value m;
  data ← field_of "data" (""%string, []) (struct_value data_fields) m;
  Some (status, error, data).

Section Sample.
Context {W : Type} `{!Runtime W} `{!Commands W} {Lib : KubeLibrary} `{!Prometheus W}.
Variable ParseFloat : string -> option float64.
Variable has_deadline : Ctx -> bool.                (* ctx.Deadline() *)
(** The conversion of a float64 beyond the integer type is left to the implementation. *)
Variable beyond_uint64 beyond_int64 : float64 -> Z.
Variable source : K8sSource.

Definition to_uint64 (x : float64) (n : Z) : Z := if (0 <=? n) && (n <? 2 ^ 64) then n else beyond_uint64 x.
Definition to_int64 (x : float64) : Z := let n := f64_trunc x in if (min_int64 <=? n) && (n <=? max_int64) then n else beyond_int64 x.

(** [query]: the values by pod. *)
Definition insert_sample (values : gmap string float64) (sample : PromSample) : gmap string float64 :=
  let pod := label_of (sm_Metric sample) "pod" in
  match sm_Value sample with
  | JString text =>
      if String.eqb pod "" then values
      else match ParseFloat text with
           | Some value => if IsNaN value || IsInf value then values else <[pod := value]> values
           | None => values
           end
  | _ => values
  end.
Definition decode_vector (body : bytes) : gmap string float64 + err :=
  match kl_json_Unmarshal body ≫= (fun v => match v with JNull => Some (""%string, ""%string, (""%string, [])) | v => struct_value response_fields v end) with
  | None => inr (EWrap "decode Prometheus response" (ENew "json"))
  | Some (status, text, (kind, result)) =>
      if negb (String.eqb status "success") || negb (String.eqb kind "vector") then inr (ENew ("Prometheus query failed: " +:+ text))
      else inl (foldl insert_sample ∅ result)
  end.
Definition query (ctx : Ctx) (expression : string) : M W (gmap string float64 + err) :=
  let* answer := prom_Query ctx (ks_base source) expression in
  ret (match answer with
       | NoRequest e => inr e
       | NoResponse e => inr (EWrap "query Prometheus" e)
       | Response code status body ended =>
           let limited := take (Z.to_nat maxPrometheusResponse) body in
           match (if maxPrometheusResponse <=? Z.of_nat (length body) then None else ended) with
           | Some e => inr (EWrap "read Prometheus response" e)
           | None =>
               if negb (code =? 200)
               then inr (ENew ("Prometheus returned " +:+ status +:+ ": " +:+ TrimSpace (of_bytes (take 200 limited))))
               else decode_vector limited
           end
       end).

(** [discover] and [identify]. *)
Definition k8s_discover (ctx : Ctx) : M W (list resourceTarget + err) :=
  let ctx := if has_deadline ctx then ctx else WithTimeout ctx backstopTimeout in
  let o := {| ko_Namespace := ks_namespace source; ko_NodeSelector := ∅; ko_PodCIDR := ""; ko_ServiceCIDR := ""; ko_ServiceAccount := "";
              ko_ImagePullSecret := ""; ko_Images := ∅; ko_StagingDirs := []; ko_StagingOwner := ""; ko_KubectlPath := ks_kubectl source;
              ko_ReadyTimeout := 0; ko_CleanupTimeout := 0 |} in
  let* (e, _, (stdout, stderr)) := kubectl_Run o append_streams ctx None
                                     ["get"; "pods"; "-n"; ks_namespace source; "-l"; managedByLabel +:+ "=aries"; "-o"; "json"]%string ([], []) in
  ret (match e with
       | Some e => inr (EWrap "list Kubernetes resource pods" (with_said e stderr))
       | None =>
           match kl_json_Unmarshal stdout ≫= decode_list with
           | None => inr (EWrap "decode Kubernetes resource pod list" (ENew "json"))
           | Some items => inl (omap (k8s_target source) items)
           end
       end).
(** A reported name that has to be looked up. *)
Definition unclassified (now : Z) (s : SourceState) (name : string) : bool :=
  negb (bool_decide (is_Some (ss_known s !! name))) &&
  match ss_unknownUntil s !! name with Some until => until <? now | None => true end.
Definition remember (s : SourceState) (target : resourceTarget) : SourceState :=
  {| ss_lastObserved := ss_lastObserved s; ss_discoveryFailures := ss_discoveryFailures s;
     ss_known := <[rg_podName target := target]> (ss_known s); ss_unknownUntil := delete (rg_podName target) (ss_unknownUntil s) |}.
Definition put_off (now : Z) (s : SourceState) (name : string) : SourceState :=
  {| ss_lastObserved := ss_lastObserved s; ss_discoveryFailures := ss_discoveryFailures s; ss_known := ss_known s;
     ss_unknownUntil := if bool_decide (is_Some (ss_known s !! name)) then ss_unknownUntil s
                        else <[name := now + unknownPodRetry]> (ss_unknownUntil s) |}.
Definition set_failures (n : Z) (s : SourceState) : SourceState :=
  {| ss_lastObserved := ss_lastObserved s; ss_discoveryFailures := n; ss_known := ss_known s; ss_unknownUntil := ss_unknownUntil s |}.
Definition identify (ctx : Ctx) (reported : list string) (s : SourceState) : M W (error * SourceState) :=
  let* now := time_Now in
  if negb (existsb (unclassified now s) reported) then ret (None, s)
  else
    let* targets := k8s_discover ctx in
    ret (match targets with
         | inr e =>
             let s := set_failures (ss_discoveryFailures s + 1) s in
             (if ss_discoveryFailures s <=? discoveryFailureBudget then None else Some e, s)
         | inl targets => (None, foldl (put_off now) (foldl remember (set_failures 0 s) targets) reported)
         end).

(** [observationIsNew], and the reading of one pod. *)
Definition observe (name : string) (observed : Z) (s : SourceState) : bool * SourceState :=
  let fresh := match ss_lastObserved s !! name with Some previous => previous <? observed | None => true end in
  (fresh, if fresh
          then {| ss_lastObserved := <[name := observed]> (ss_lastObserved s); ss_discoveryFailures := ss_discoveryFailures s;
                  ss_known := ss_known s; ss_unknownUntil := ss_unknownUntil s |}
          else s).
Definition pod_reading (target : resourceTarget) (name : string) (observed : Z) (seconds usage : float64) : ResourceReading :=
  let nanoseconds := f64_mul seconds (f64_of_Z (10 ^ 9)) in
  {| rr_Scope := ks_scope source; rr_RunID := ks_runID source; rr_TaskID := rg_taskID target; rr_Component := rg_component target;
     rr_RuntimeID := name; rr_RuntimeName := name; rr_ObservedAt := observed;
     rr_CPUUsageNanoseconds := to_uint64 nanoseconds (f64_round nanoseconds); rr_MemoryUsageBytes := to_uint64 usage (f64_trunc usage);
     rr_MemoryLimitBytes := rg_limit target; rr_GPU := None |}.
Fixpoint pod_readings (memory scraped : gmap string float64) (cpu : list (string * float64)) (s : SourceState) :
    list ResourceReading * SourceState :=
  match cpu with
  | [] => ([], s)
  | (name, seconds) :: cpu =>
      match ss_known s !! name, memory !! name, scraped !! name with
      | Some target, Some usage, Some stamp =>
          if f64_ltb seconds f64_zero || f64_ltb usage f64_zero || f64_leb stamp f64_zero then pod_readings memory scraped cpu s
          else
            let observed := to_int64 (f64_mul stamp (f64_of_Z (10 ^ 9))) in
            let (fresh, s) := observe name observed s in
            let (readings, s) := pod_readings memory scraped cpu s in
            (if fresh then pod_reading target name observed seconds usage :: readings else readings, s)
      | _, _, _ => pod_readings memory scraped cpu s
      end
  end.
Definition reading_less (a b : ResourceReading) : bool :=
  if negb (String.eqb (rr_TaskID a) (rr_TaskID b)) then String.ltb (rr_TaskID a) (rr_TaskID b)
  else if negb (String.eqb (rr_Component a) (rr_Component b)) then String.ltb (rr_Component a) (rr_Component b)
  else String.ltb (rr_RuntimeID a) (rr_RuntimeID b).
Definition reading_le (a b : ResourceReading) : Prop := reading_less b a = false.
#[local] Instance reading_le_dec : RelDecision reading_le.
Proof. intros a b. unfold reading_le. apply _. Defined.

Definition pod_selector : string := "{namespace=" +:+ quote (ks_namespace source) +:+ ",container!=" +:+ quote "" +:+ "}".
Definition k8s_Sample (ctx : Ctx) (s : SourceState) : M W ((list ResourceReading + err) * SourceState) :=
  let* cpu := query ctx ("sum by (pod) (container_cpu_usage_seconds_total" +:+ pod_selector +:+ ")") in
  match cpu with
  | inr e => ret (inr e, s)
  | inl cpu =>
      if bool_decide (cpu = ∅) then ret (inl [], s)
      else
        let* (e, s) := identify ctx (map fst (map_to_list cpu)) s in
        match e with
        | Some e => ret (inr e, s)
        | None =>
            let* memory := query ctx ("sum by (pod) (container_memory_working_set_bytes" +:+ pod_selector +:+ ")") in
            match memory with
            | inr e => ret (inr e, s)
            | inl memory =>
                let* scraped := query ctx ("max by (pod) (timestamp(container_cpu_usage_seconds_total" +:+ pod_selector +:+ "))") in
                match scraped with
                | inr e => ret (inr e, s)
                | inl scraped =>
                    let (readings, s) := pod_readings memory scraped (map_to_list cpu) s in
                    ret (inl (merge_sort reading_le readings), s)
                end
            end
        end
  end.
End Sample.

(** The times of the readings of one runtime, in order. *)
Definition times_of (name : string) (readings : list ResourceReading) : list Z :=
  map rr_ObservedAt (filter (fun reading => rr_RuntimeID reading = name) readings).
Lemma times_cons name reading readings :
  times_of name (reading :: readings) =
    if String.eqb (rr_RuntimeID reading) name then rr_ObservedAt reading :: times_of name readings else times_of name readings.
Proof. unfold times_of. rewrite filter_cons. destruct (String.eqb_spec (rr_RuntimeID reading) name); by case_decide. Qed.
Lemma times_app name readings readings' : times_of name (readings ++ readings') = times_of name readings ++ times_of name readings'.
Proof. unfold times_of. by rewrite filter_app, map_app. Qed.
#[export] Instance times_Permutation name : Proper (Permutation ==> Permutation) (times_of name).
Proof. intros l l' H. unfold times_of. by rewrite H. Qed.

(** One sample moves a pod's newest time from [before] to [after]: no reading and no move, or
    one reading, newer than the one before. *)
Inductive advances (before : option Z) : list Z -> option Z -> Prop :=
  | Stays : advances before [] before
  | Moves now : (forall previous, before = Some previous -> previous < now) -> advances before [now] (Some now).
Lemma advances_Permutation before l l' after : Permutation l l' -> advances before l after -> advances before l' after.
Proof.
  intros Hp H. inversion H; subst; [apply Permutation_nil in Hp as ->|apply Permutation_length_1_inv in Hp as ->]; by constructor.
Qed.
(** A list of times in order, each newer than [before]. *)
Definition newer (before : option Z) (l : list Z) : Prop :=
  StronglySorted Z.lt l /\ forall previous, before = Some previous -> Forall (Z.lt previous) l.
Lemma newer_advances before l after l' : advances before l after -> newer after l' -> newer before (l ++ l').
Proof.
  intros H [Hs Hl]. inversion H; subst; [done|]. specialize (Hl now eq_refl). split; [by constructor|].
  intros previous Hb. specialize (H0 previous Hb). constructor; [done|]. eapply Forall_impl; [exact Hl|]. intros t ?. lia.
Qed.

(** * One sample *)

#[export] Instance traced_prometheus {W E} `{!Prometheus W} : Prometheus (W * list E) :=
  {| prom_Query ctx base expression := silent (prom_Query ctx base expression) |}.

Section Samples.
Context {W : Type} `{!Runtime W} `{!Commands W} {Lib : KubeLibrary} `{!Prometheus W}.
Variable ParseFloat : string -> option float64.
Variable has_deadline : Ctx -> bool.
Variable beyond_uint64 beyond_int64 : float64 -> Z.
Variable source : K8sSource.
Abbreviation T := (W * list kube_event)%type.

(** What a pod says of itself. *)
Definition annotation (pod : podObject) (key : string) : string := default ""%string (pm_Annotations (po_Metadata pod) !! key).
(** A pod is one of the source's: a running one that the harness marked as its own, of the
    run of the source; and either the source measures tasks and this is a sandbox or a harness
    of one of its tasks, or it measures what the run shares and this is the tool bridge. *)
Record of_source (pod : podObject) : Prop := {
  os_managed : annotation pod "aries.managed" = "true"%string;
  os_run : annotation pod "aries.run" = ks_runID source;
  os_running : pt_Phase (po_Status pod) = "Running"%string;
  os_scope :
    (ks_scope source = "task" /\ annotation pod "aries.task" ∈ ks_tasks source /\
       annotation pod "aries.component" ∈ ["sandbox"; "evaluation-sandbox"; "harness"])%string \/
    (ks_scope source = "run" /\ annotation pod "aries.task" = "" /\ annotation pod "aries.component" = "bridge" /\
       annotation pod "aries.kind" = "tool-bridge")%string
}.
(** The cluster listed a pod in an answer of the run. *)
Definition listed (evs : list kube_event) (pod : podObject) : Prop :=
  exists ctx ended items,
    KRun ctx ["get"; "pods"; "-n"; ks_namespace source; "-l"; managedByLabel +:+ "=aries"; "-o"; "json"]%string None ended ∈ evs /\
    ce_error ended = None /\ kl_json_Unmarshal (stdout_of ended) ≫= decode_list = Some items /\ pod ∈ items.
Definition target_of (pod : podObject) (target : resourceTarget) : Prop :=
  rg_podName target = pm_Name (po_Metadata pod) /\ rg_taskID target = annotation pod "aries.task" /\
  rg_component target = annotation pod "aries.component" /\
  rg_limit target = match px_Containers (po_Spec pod) with
                    | container :: _ => parseMemoryQuantity (default "" (pc_Limits container !! "memory"))
                    | [] => 0
                    end%string.
Definition known_target (evs : list kube_event) (target : resourceTarget) : Prop :=
  exists pod, listed evs pod /\ of_source pod /\ target_of pod target.
Definition all_listed (evs : list kube_event) (s : SourceState) : Prop :=
  forall name target, ss_known s !! name = Some target -> rg_podName target = name /\ known_target evs target.
(** A reading is of a pod that was listed, and is filed under what this pod says of itself. *)
Definition reading_listed (evs : list kube_event) (reading : ResourceReading) : Prop :=
  exists pod, listed evs pod /\ of_source pod /\
    rr_RuntimeID reading = pm_Name (po_Metadata pod) /\ rr_RuntimeName reading = pm_Name (po_Metadata pod) /\
    rr_RunID reading = ks_runID source /\ rr_Scope reading = ks_scope source /\
    rr_TaskID reading = annotation pod "aries.task" /\ rr_Component reading = annotation pod "aries.component" /\
    rr_MemoryLimitBytes reading = match px_Containers (po_Spec pod) with
                                  | container :: _ => parseMemoryQuantity (default "" (pc_Limits container !! "memory"))
                                  | [] => 0
                                  end%string.
Lemma target_sound pod target : k8s_target source pod = Some target -> of_source pod /\ target_of pod target.
Proof.
  unfold k8s_target, k8s_selected. intros H.
  repeat match goal with H : context [if ?b then _ else _] |- _ => destruct b eqn:?; try done end;
    simplify_eq; rewrite ?orb_false_iff, ?negb_false_iff, ?andb_true_iff, ?bool_decide_eq_true, ?String.eqb_eq in *; destruct_and?;
    (split; [split; try done|done]).
  - left. split_and!; [done|done|]. by apply one_of_spec.
  - right. by split_and!.
Qed.
Lemma listed_mono evs evs' pod : evs ⊆ evs' -> listed evs pod -> listed evs' pod.
Proof. intros Hs (ctx & ended & items & H & ?). exists ctx, ended, items. split; [by apply Hs|done]. Qed.
Lemma known_target_mono evs evs' target : evs ⊆ evs' -> known_target evs target -> known_target evs' target.
Proof. intros Hs (pod & H & ?). exists pod. split; [by eapply listed_mono|done]. Qed.
Lemma all_listed_mono evs evs' s : evs ⊆ evs' -> all_listed evs s -> all_listed evs' s.
Proof. intros Hs H name target Hn. destruct (H name target Hn). split; [done|]. by eapply known_target_mono. Qed.
Lemma readings_listed_mono evs evs' readings :
  evs ⊆ evs' -> Forall (reading_listed evs) readings -> Forall (reading_listed evs') readings.
Proof.
  intros Hs H. eapply Forall_impl; [exact H|]. intros reading (pod & Hl & ?). exists pod. split; [by eapply listed_mono|done].
Qed.

Lemma discover_listed ctx : emits (k8s_discover (W := T) has_deadline source ctx) (fun r evs =>
  match r with inl targets => Forall (known_target evs) targets | inr _ => True end).
Proof.
  unfold k8s_discover, kubectl_Run. apply emits_flatten. cbn [command_Run traced_commands]. apply emits_call. intros ended.
  rewrite copy_append. destruct (ce_error ended) as [e|] eqn:He; simpl.
  - apply emits_flatten, emits_read. intros canceled. by apply emits_bind_ret, emits_ret.
  - apply emits_bind_ret, emits_ret. fold (stdout_of ended).
    destruct (kl_json_Unmarshal (stdout_of ended) ≫= decode_list) as [items|] eqn:Hd; [|done].
    apply Forall_forall. intros target (pod & Hp & Ht)%list_elem_of_omap.
    apply target_sound in Ht as [Hof Ht]. exists pod. split; [|done]. eexists _, ended, items. split_and!; try done. by left.
Qed.
Lemma remember_listed evs targets s : Forall (known_target evs) targets -> all_listed evs s ->
  all_listed evs (foldl remember s targets) /\ ss_lastObserved (foldl remember s targets) = ss_lastObserved s.
Proof.
  intros Ht. revert s. induction Ht as [|target targets Hl _ IH]; intros s Hs; [done|]. simpl.
  destruct (IH (remember s target)) as [H1 H2]; [|done]. intros name target' Hn. unfold remember in Hn. simpl in Hn.
  apply lookup_insert_Some in Hn as [[<- <-]|[_ Hn]]; [done|by apply Hs].
Qed.
Lemma put_off_keeps now names s :
  ss_known (foldl (put_off now) s names) = ss_known s /\ ss_lastObserved (foldl (put_off now) s names) = ss_lastObserved s.
Proof. revert s. induction names as [|name names IH]; intros s; [done|]. simpl. by destruct (IH (put_off now s name)) as [-> ->]. Qed.
Lemma identify_listed ctx reported before s : all_listed before s ->
  emits (identify (W := T) has_deadline source ctx reported s) (fun r evs =>
    all_listed (before ++ evs) r.2 /\ ss_lastObserved r.2 = ss_lastObserved s).
Proof.
  intros Hs. unfold identify. apply emits_read. intros now. destruct (negb _); [apply emits_ret; by rewrite app_nil_r|].
  eapply emits_bind; [apply discover_listed|]. intros targets evs Ht. apply emits_ret. rewrite app_nil_r.
  assert (all_listed (before ++ evs) s) as Hs' by (eapply all_listed_mono; [|exact Hs]; set_solver).
  destruct targets as [targets|e]; simpl; [|done].
  assert (Forall (known_target (before ++ evs)) targets) as Ht'.
  { eapply Forall_impl; [exact Ht|]. intros target ?. eapply known_target_mono; [|done]. set_solver. }
  destruct (remember_listed _ targets (set_failures 0 s) Ht' Hs') as [H1 H2].
  destruct (put_off_keeps now reported (foldl remember (set_failures 0 s) targets)) as [H3 H4]. unfold all_listed. by rewrite H3, H4.
Qed.

Lemma observe_advances name observed s :
  let (fresh, s') := observe name observed s in
  ss_known s' = ss_known s /\ (forall other, other <> name -> ss_lastObserved s' !! other = ss_lastObserved s !! other) /\
  advances (ss_lastObserved s !! name) (if fresh then [observed] else []) (ss_lastObserved s' !! name).
Proof.
  unfold observe. destruct (ss_lastObserved s !! name) as [previous|] eqn:Hn.
  - destruct (Z.ltb_spec previous observed); simpl; [|rewrite Hn; by repeat constructor].
    split_and!; [done|intros other ?; by rewrite lookup_insert_ne|]. rewrite lookup_insert_eq. constructor. by intros ? [= <-].
  - split_and!; [done|intros other ?; simpl; by rewrite lookup_insert_ne|]. simpl. rewrite lookup_insert_eq. by constructor.
Qed.
Lemma pod_readings_cons memory scraped name seconds cpu s :
  pod_readings beyond_uint64 beyond_int64 source memory scraped ((name, seconds) :: cpu) s =
    match ss_known s !! name, memory !! name, scraped !! name with
    | Some target, Some usage, Some stamp =>
        if f64_ltb seconds f64_zero || f64_ltb usage f64_zero || f64_leb stamp f64_zero
        then pod_readings beyond_uint64 beyond_int64 source memory scraped cpu s
        else
          let observed := to_int64 beyond_int64 (f64_mul stamp (f64_of_Z (10 ^ 9))) in
          let (fresh, s) := observe name observed s in
          let (readings, s) := pod_readings beyond_uint64 beyond_int64 source memory scraped cpu s in
          (if fresh then pod_reading beyond_uint64 source target name observed seconds usage :: readings else readings, s)
    | _, _, _ => pod_readings beyond_uint64 beyond_int64 source memory scraped cpu s
    end.
Proof. done. Qed.
Lemma pod_readings_advance evs memory scraped cpu s : NoDup (map fst cpu) -> all_listed evs s ->
  match pod_readings beyond_uint64 beyond_int64 source memory scraped cpu s with (readings, s') =>
    ss_known s' = ss_known s /\ Forall (reading_listed evs) readings /\
    forall name, advances (ss_lastObserved s !! name) (times_of name readings) (ss_lastObserved s' !! name) /\
      (name ∉ map fst cpu -> times_of name readings = [] /\ ss_lastObserved s' !! name = ss_lastObserved s !! name)
  end.
Proof.
  intros Hd. revert s. induction cpu as [|[name seconds] cpu IH]; intros s Hs.
  { split_and!; [done|constructor|]. intros name. by repeat constructor. }
  rewrite pod_readings_cons. cbn [map fst] in Hd |- *.
  apply NoDup_cons in Hd as [Hf Hd]. specialize (IH Hd).
  assert (match pod_readings beyond_uint64 beyond_int64 source memory scraped cpu s with (readings, s') =>
    ss_known s' = ss_known s /\ Forall (reading_listed evs) readings /\
    forall name', advances (ss_lastObserved s !! name') (times_of name' readings) (ss_lastObserved s' !! name') /\
      (name' ∉ name :: map fst cpu -> times_of name' readings = [] /\ ss_lastObserved s' !! name' = ss_lastObserved s !! name')
    end) as Hskip.
  { specialize (IH s Hs). destruct (pod_readings _ _ _ _ _ cpu s) as [readings s']. destruct IH as (H1 & H2 & H3). split_and!; [done..|].
    intros name'. destruct (H3 name') as [H4 H5]. split; [done|]. intros Hn. apply H5. set_solver. }
  destruct (ss_known s !! name) as [target|] eqn:Hk; [|done]. destruct (memory !! name) as [usage|]; [|done].
  destruct (scraped !! name) as [stamp|]; [|done]. destruct (_ || _); [done|]. clear Hskip.
  set (observed := to_int64 _ _). cbv zeta.
  pose proof (observe_advances name observed s) as Ho. destruct (observe name observed s) as [fresh s1]. destruct Ho as (O1 & O2 & O3).
  assert (all_listed evs s1) as Hs1 by (unfold all_listed; by rewrite O1). specialize (IH s1 Hs1).
  destruct (pod_readings _ _ _ _ _ cpu s1) as [readings s']. destruct IH as (H1 & H2 & H3).
  split_and!; [by rewrite H1| |].
  - destruct fresh; [|done]. constructor; [|done]. destruct (Hs name target Hk) as [Hn (pod & Hl & Hof & T1 & T2 & T3 & T4)].
    exists pod. subst name. split; [done|]. split; [done|]. by split_and!.
  - intros name'. destruct (H3 name') as [H4 H5]. destruct (decide (name' = name)) as [->|Hne].
    + destruct (H5 Hf) as [H6 H7]. split; [|set_solver]. rewrite H7. destruct fresh; [|by rewrite H6].
      rewrite times_cons, H6. unfold pod_reading. cbn [rr_RuntimeID rr_ObservedAt]. by rewrite String.eqb_refl.
    + rewrite (O2 name' Hne) in H4, H5.
      assert (times_of name' (if fresh then pod_reading beyond_uint64 source target name observed seconds usage :: readings else readings)
              = times_of name' readings) as Htimes.
      { destruct fresh; [|done]. rewrite times_cons. unfold pod_reading. cbn [rr_RuntimeID]. apply not_eq_sym, String.eqb_neq in Hne.
        by rewrite Hne. }
      rewrite Htimes. split; [done|]. intros Hn. apply H5. set_solver.
Qed.

Definition readings_of (r : list ResourceReading + err) : list ResourceReading := match r with inl readings => readings | inr _ => [] end.
Abbreviation Sample := (k8s_Sample (W := T) ParseFloat has_deadline beyond_uint64 beyond_int64 source).
Lemma query_quiet ctx expression :
  emits (query (W := T) ParseFloat source ctx expression) (fun _ evs => evs = []).
Proof. unfold query. apply emits_read. intros answer. by apply emits_ret. Qed.
Lemma sample_advances ctx before s : all_listed before s ->
  emits (Sample ctx s) (fun r evs =>
    all_listed (before ++ evs) r.2 /\ Forall (reading_listed (before ++ evs)) (readings_of r.1) /\
    forall name, advances (ss_lastObserved s !! name) (times_of name (readings_of r.1)) (ss_lastObserved r.2 !! name)).
Proof.
  intros Hs. assert (forall evs s' (e : err), all_listed (before ++ evs) s' -> ss_lastObserved s' = ss_lastObserved s ->
    all_listed (before ++ evs) s' /\ Forall (reading_listed (before ++ evs)) (readings_of (inr e)) /\
    forall name, advances (ss_lastObserved s !! name) (times_of name (readings_of (inr e))) (ss_lastObserved s' !! name)) as Hfail.
  { intros evs s' e H ->. split_and!; [done|constructor|]. intros name. constructor. }
  unfold k8s_Sample. eapply emits_bind; [apply query_quiet|]. intros [cpu|e] evs ->;
    [|apply emits_ret; rewrite app_nil_l; apply Hfail; by rewrite ?app_nil_r].
  case_bool_decide as Hc; [apply emits_ret; rewrite app_nil_l, app_nil_r; split_and!; [done|constructor|]; intros name; constructor|].
  eapply emits_bind; [by apply identify_listed|]. intros [[e|] s1] evs [H1 H2]; simpl in H1, H2;
    [apply emits_ret; rewrite app_nil_l, app_nil_r; by apply Hfail|].
  eapply emits_bind; [apply query_quiet|]. intros [memory|e] evs' ->;
    [|apply emits_ret; rewrite app_nil_l, !app_nil_r; by apply Hfail].
  eapply emits_bind; [apply query_quiet|]. intros [scraped|e] evs' ->;
    [|apply emits_ret; rewrite app_nil_l, !app_nil_r; by apply Hfail].
  pose proof (pod_readings_advance (before ++ evs) memory scraped (map_to_list cpu) s1 (NoDup_fst_map_to_list cpu) H1) as Hr.
  destruct (pod_readings _ _ _ _ _ (map_to_list cpu) s1) as [readings s2]. destruct Hr as (R1 & R2 & R3).
  apply emits_ret. rewrite app_nil_l, !app_nil_r. cbn [fst snd readings_of]. split_and!.
  - unfold all_listed. by rewrite R1.
  - by rewrite merge_sort_Permutation.
  - intros name. destruct (R3 name) as [R4 _]. rewrite H2 in R4. eapply advances_Permutation; [|exact R4].
    by rewrite merge_sort_Permutation.
Qed.

(** * A run of samples *)

(** The samples of a loop, one context each; one that fails has no readings. *)
Fixpoint k8s_samples (ctxs : list Ctx) (s : SourceState) : M T (list ResourceReading) :=
  match ctxs with
  | [] => ret []
  | ctx :: ctxs =>
      let* (r, s) := Sample ctx s in
      let* readings := k8s_samples ctxs s in
      ret (readings_of r ++ readings)
  end.
Lemma samples_advance ctxs before s : all_listed before s ->
  emits (k8s_samples ctxs s) (fun readings evs =>
    Forall (reading_listed (before ++ evs)) readings /\ forall name, newer (ss_lastObserved s !! name) (times_of name readings)).
Proof.
  revert before s. induction ctxs as [|ctx ctxs IH]; intros before s Hs; simpl.
  { apply emits_ret. split; [constructor|]. intros name. by repeat constructor. }
  eapply emits_bind; [by apply sample_advances|]. intros [r s1] evs (H1 & H2 & H3). simpl in H1, H2, H3.
  eapply emits_bind; [apply (IH (before ++ evs)); done|]. intros readings evs' [H4 H5]. apply emits_ret. rewrite app_nil_r, app_assoc.
  split.
  - apply Forall_app. split; [|done]. eapply readings_listed_mono; [|exact H2]. set_solver.
  - intros name. rewrite times_app. by eapply newer_advances.
Qed.

End Samples.
