(* ===== verification/MonitorRecorder.v ===== *)
(** The monitor's index file ([writeIndexExact] and [readPrivateFile] of
    [pkg/monitor/artifacts.go]): written whole and synced, removed when that fails, and
    accepted by a retry that finds it there with the same content.

    The monitor's recorder ([pkg/monitor/recorder.go]): its options, its start with
    the artifacts it creates or removes again, the sampling loop, and the stop that
    closes the files and writes an index beside them (artifacts.go).

    A start runs to its end before another call of the recorder.  After it the sampling
    goroutine and the stops interleave: [recorder_step] takes one iteration of the loop,
    one call of [Stop] or one part of [finishStop] at a time. *)

From S2P Require Import Prelude Trace Monitor Utf8 Paths Core.

(** The file system, for the one path of the index.  [is_ReadAll limit] reads the opened
    file up to [limit] bytes. *)
Record IndexFS (W : Type) := {
  is_CreateExclusive : M W error;
  is_Write : bytes -> M W (Z * error);
  is_Sync : M W error;
  is_Close : M W error;
  is_Remove : M W error;
  is_Lstat : M W (bool * Z + err);        (* regular, and the permissions *)
  is_Open : M W error;
  is_ReadAll : Z -> M W (bytes + err);
  is_CloseRead : M W error
}.
Arguments is_CreateExclusive {W}.
Arguments is_Write {W}.
Arguments is_Sync {W}.
Arguments is_Close {W}.
Arguments is_Remove {W}.
Arguments is_Lstat {W}.
Arguments is_Open {W}.
Arguments is_ReadAll {W}.
Arguments is_CloseRead {W}.

Section Index.
Context {W : Type}.
Variable fs : IndexFS W.

(** [readPrivateFile]. *)
Definition readPrivateFile (maxBytes : Z) : M W (bytes + err) :=
  let* info := is_Lstat fs in
  match info with
  | inr e => ret (inr (EWrap "inspect existing monitor index" e))
  | inl (regular, perm) =>
      if negb regular || negb (perm =? 384)
      then ret (inr (ENew "existing monitor index is not a private regular file"))
      else
        let* e := is_Open fs in
        match e with
        | Some e => ret (inr (EWrap "open existing monitor index" e))
        | None =>
            let* content := is_ReadAll fs (maxBytes + 1) in
            let* _ := is_CloseRead fs in
            ret match content with
                | inr e => inr (EWrap "read existing monitor index" e)
                | inl content =>
                    if maxBytes <? Z.of_nat (length content)
                    then inr (ENew "existing monitor index exceeds its expected bound")
                    else inl content
                end
        end
  end.

(** [writeIndexExact]: the file created, and the deferred close and removal. *)
Definition write_created (content : bytes) : M W error :=
  let* e := writeAll (is_Write fs) (length content) content in
  match e with
  | Some e => ret (Some (EWrap "write monitor index" e))
  | None =>
      let* e := is_Sync fs in
      match e with
      | Some e => ret (Some (EWrap "sync monitor index" e))
      | None => let* e := is_Close fs in ret (wrap "close monitor index" e)
      end
  end.
Definition writeIndexExact (MarshalIndent : Index -> bytes + err) (index : Index) : M W error :=
  match MarshalIndent index with
  | inr e => ret (Some (EWrap "encode monitor index" e))
  | inl content =>
      let content := content ++ [NL] in
      let* e := is_CreateExclusive fs in
      if error_Is e ErrExist then
        let* existing := readPrivateFile (Z.of_nat (length content) + 1) in
        ret match existing with
            | inr readErr => Some readErr
            | inl existing =>
                if bool_decide (existing = content) then None
                else Some (ENew "existing monitor index differs from the retry output")
            end
      else match e with
      | Some e => ret (Some (EWrap "create monitor index" e))
      | None =>
          let* result := write_created content in
          let* _ := is_Close fs in
          match result with
          | None => ret None
          | Some _ => let* _ := is_Remove fs in ret result
          end
      end
  end.
End Index.

(** * What is left behind *)

(** The calls that change the file, and the content a retry found. *)
Inductive index_event :=
  | IndexCreated (e : error)
  | IndexWrote (content : bytes) (written : Z) (e : error)
  | IndexSynced (e : error)
  | IndexClosed (e : error)
  | IndexRemoved (e : error)
  | IndexFound (content : bytes + err).

Definition traced_index {W} (fs : IndexFS W) : IndexFS (W * list index_event) :=
  {| is_CreateExclusive := logged IndexCreated (is_CreateExclusive fs);
     is_Write content := logged (fun out => IndexWrote content out.1 out.2) (is_Write fs content);
     is_Sync := logged IndexSynced (is_Sync fs); is_Close := logged IndexClosed (is_Close fs);
     is_Remove := logged IndexRemoved (is_Remove fs); is_Lstat := silent (is_Lstat fs);
     is_Open := silent (is_Open fs); is_ReadAll limit := logged IndexFound (is_ReadAll fs limit);
     is_CloseRead := silent (is_CloseRead fs) |}.

Definition index_bytes (evs : list index_event) : bytes :=
  flat_map (fun ev => match ev with IndexWrote content n _ => firstn (Z.to_nat n) content | _ => [] end) evs.

Section Index_proofs.
Context {W : Type}.
Variable fs : IndexFS W.
Let t := traced_index fs.

Definition wrote (ev : index_event) : Prop := match ev with IndexWrote _ _ _ => True | _ => False end.

Lemma index_writeAll_emits fuel content :
  (length content <= fuel)%nat ->
  emits (writeAll (is_Write t) fuel content) (fun e evs =>
    Forall wrote evs /\ (e = None -> index_bytes evs = content)).
Proof.
  revert content. induction fuel as [|fuel IH]; intros content Hlen.
  { destruct content; [by apply emits_ret|simpl in Hlen; lia]. }
  cbn [writeAll]. destruct content as [|c content]; [by apply emits_ret|].
  set (whole := c :: content) in *. apply emits_call. intros [n e]. simpl.
  destruct e as [e|]; [apply emits_ret; split; [by repeat constructor|done]|].
  destruct (Z.leb_spec n 0); [apply emits_ret; split; [by repeat constructor|done]|].
  eapply emits_mono; [apply IH; rewrite length_skipn; unfold whole in *; simpl in *; lia|].
  intros e evs [Hw Hb]. split; [by constructor|]. intros He. simpl. by rewrite (Hb He), firstn_skipn.
Qed.

(** What writing an index came to. *)
Definition index_outcome (content : bytes) (e : error) (evs : list index_event) : Prop :=
  match e with
  | None =>
      (* found there by a retry, or created and written, synced and closed *)
      (exists created, error_Is created ErrExist = true /\ evs = [IndexCreated created; IndexFound (inl content)]) \/
      exists writes closed, Forall wrote writes /\ index_bytes writes = content /\
        evs = IndexCreated None :: writes ++ [IndexSynced None; IndexClosed None; IndexClosed closed]
  | Some _ =>
      (* nothing was created, or what was is removed last *)
      Forall (fun ev => ev <> IndexCreated None /\ ~ wrote ev /\ forall x, ev <> IndexRemoved x) evs \/
      exists work removed, evs = IndexCreated None :: work ++ [IndexRemoved removed]
  end.

Lemma readPrivateFile_emits limit :
  emits (readPrivateFile t limit) (fun out evs =>
    (exists found, evs = [IndexFound found] /\ forall content, out = inl content -> found = inl content) \/
    evs = [] /\ exists e, out = inr e).
Proof.
  unfold readPrivateFile. apply emits_read. intros [[regular perm]|e]; [|apply emits_ret; eauto].
  destruct (negb regular || negb (perm =? 384)); [apply emits_ret; eauto|].
  apply emits_read. intros [e|]; [apply emits_ret; eauto|].
  apply emits_call. intros found. apply emits_read. intros e. apply emits_ret. left. exists found.
  split; [done|]. intros content. destruct found as [found|]; [|done]. destruct (_ <? _); [done|congruence].
Qed.

Lemma write_created_emits content :
  emits (write_created t content) (fun e evs => e = None ->
    exists writes, Forall wrote writes /\ index_bytes writes = content /\
      evs = writes ++ [IndexSynced None; IndexClosed None]).
Proof.
  unfold write_created. eapply emits_bind; [by apply index_writeAll_emits|]. intros [e|] writes [Hw Hb].
  { by apply emits_ret. }
  apply emits_call. intros [e|]; [by apply emits_ret|]. apply emits_call. intros [e|]; [by apply emits_ret|].
  apply emits_ret. intros _. exists writes. split; [done|]. split; [by apply Hb|done].
Qed.

(** An index is reported as written only if the file is there whole: created, every
    byte written, synced and closed, or found by a retry with exactly this content.
    If that fails the file this call created is removed, and a file that another call
    created is neither written nor removed. *)
Theorem index_written_exactly MarshalIndent index :
  emits (writeIndexExact t MarshalIndent index) (fun e evs =>
    match MarshalIndent index with
    | inr _ => e <> None /\ evs = []
    | inl content => index_outcome (content ++ [NL]) e evs
    end).
Proof.
  unfold writeIndexExact. destruct (MarshalIndent index) as [content|e]; [|by apply emits_ret].
  set (whole := content ++ [NL]). apply emits_call. intros created.
  destruct (error_Is created ErrExist) eqn:Hexist.
  - assert (created <> None) as Hne by (intros ->; discriminate).
    eapply emits_bind; [apply readPrivateFile_emits|]. intros existing evs Hread. apply emits_ret.
    rewrite app_nil_r.
    assert (Forall (fun ev => ev <> IndexCreated None /\ ~ wrote ev /\ forall x, ev <> IndexRemoved x)
      (IndexCreated created :: evs)) as Hquiet.
    { constructor; [split_and!; [congruence|tauto|done]|].
      destruct Hread as [(found & -> & _)|[-> _]]; repeat constructor; done || tauto. }
    destruct existing as [existing|e]; [|by left].
    case_bool_decide as Heq; [|by left]. subst existing. left. exists created. split; [done|].
    destruct Hread as [(found & -> & Hf)|[_ [e [= ]]]]. by rewrite (Hf whole).
  - destruct created as [e|].
    { apply emits_ret. left. constructor; [|constructor]. split_and!; [done|tauto|done]. }
    eapply emits_bind; [apply write_created_emits|]. intros result evs Hres.
    apply emits_call. intros closed. destruct result as [e|].
    + apply emits_call. intros removed. apply emits_ret. right. exists (evs ++ [IndexClosed closed]), removed.
      by rewrite <- app_assoc.
    + apply emits_ret. right. destruct (Hres eq_refl) as (writes & Hw & Hb & ->).
      exists writes, closed. split_and!; [done|done|]. by rewrite <- app_assoc.
Qed.
End Index_proofs.

(** * Options *)

Definition defaultSampleInterval : Z := Second.
Definition defaultRequestTimeout : Z := 5 * Second.
Definition defaultStopTimeout : Z := 10 * Second.
Definition defaultMaxSamplesPerTask : Z := 172800.
Definition defaultMaxFileBytes : Z := 128 * 2 ^ 20.
Definition indexSchemaVersion : Z := 5.

(** [Options], and what [New] makes of it; [mo_BaselineGracePeriod] is what a tolerant
    source declares. *)
Record Options := {
  mo_Scope : string;
  mo_RunID : string;
  mo_TaskIDs : list string;
  mo_OutputDir : string;
  mo_Interval : Z;
  mo_RequestTimeout : Z;
  mo_StopTimeout : Z;
  mo_MaxSamplesPerTask : Z;
  mo_MaxFileBytes : Z;
  mo_Source : bool;                      (* not nil *)
  mo_BaselineGracePeriod : option Z
}.
Record Config := {
  mc_scope : string;
  mc_runID : string;
  mc_taskIDs : list string;
  mc_outputDir : string;
  mc_interval : Z;
  mc_requestTimeout : Z;
  mc_stopTimeout : Z;
  mc_maxSamplesPerTask : Z;
  mc_maxFileBytes : Z;
  mc_baselineGrace : Z
}.

(** The tasks in the order of their names; the first invalid or repeated one is
    refused. *)
Fixpoint check_tasks (seen tasks : list string) : error :=
  match tasks with
  | [] => None
  | task :: tasks =>
      monitor_validateIdentity "task" task >>?
      (refuse_if bool_decide (task ∈ seen) with ("monitor task ID " +:+ quote task +:+ " is repeated")) >>?
      check_tasks (task :: seen) tasks
  end.

(** A default for a zero option. *)
Definition or_default (value default : Z) : Z := if value =? 0 then default else value.

Definition monitor_New (Abs : string -> string + err) (o : Options) : Config + err :=
  let scope := if String.eqb (mo_Scope o) "" then "task"%string else mo_Scope o in
  let tasks := merge_sort string_le (mo_TaskIDs o) in
  let interval := or_default (mo_Interval o) defaultSampleInterval in
  let requestTimeout := or_default (mo_RequestTimeout o) defaultRequestTimeout in
  let stopTimeout := or_default (mo_StopTimeout o) defaultStopTimeout in
  let maxSamples := or_default (mo_MaxSamplesPerTask o) defaultMaxSamplesPerTask in
  let maxBytes := or_default (mo_MaxFileBytes o) defaultMaxFileBytes in
  let grace := default 0 (mo_BaselineGracePeriod o) in
  let before :=
    monitor_validateIdentity "run" (mo_RunID o) >>?
    (refuse_if negb (String.eqb scope "task") && negb (String.eqb scope "run")
       with "invalid monitor scope") >>?
    (refuse_if String.eqb scope "run" && negb (bool_decide (mo_TaskIDs o = []))
       with "run monitor cannot select task IDs") >>?
    (refuse_if String.eqb scope "task" && bool_decide (mo_TaskIDs o = [])
       with "monitor requires at least one task ID") >>?
    check_tasks [] tasks >>?
    (refuse_if String.eqb (TrimSpace (mo_OutputDir o)) "" with "monitor output directory is required") in
  let after :=
    (refuse_if negb (mo_Source o) with "monitor resource source is required") >>?
    (refuse_if interval <=? 0 with "monitor sample interval must be positive") >>?
    (refuse_if requestTimeout <=? 0 with "monitor request timeout must be positive") >>?
    (refuse_if stopTimeout <=? 0 with "monitor stop timeout must be positive") >>?
    (refuse_if (maxSamples <? 1) || (10000000 <? maxSamples)
       with "monitor sample bound must be between 1 and 10000000") >>?
    (refuse_if (maxBytes <? 4096) || (2 ^ 30 <? maxBytes)
       with "monitor file byte bound must be between 4096 and 1073741824") >>?
    (refuse_if grace <? 0 with "monitor baseline grace period must not be negative") in
  match before with
  | Some e => inr e
  | None =>
      match Abs (mo_OutputDir o) with
      | inr e => inr (EWrap "resolve monitor output directory" e)
      | inl outputDir =>
          match after with
          | Some e => inr e
          | None =>
              inl {| mc_scope := scope; mc_runID := mo_RunID o;
                     mc_taskIDs := if String.eqb scope "run" then [""%string] else tasks;
                     mc_outputDir := outputDir; mc_interval := interval;
                     mc_requestTimeout := requestTimeout; mc_stopTimeout := stopTimeout;
                     mc_maxSamplesPerTask := maxSamples; mc_maxFileBytes := maxBytes;
                     mc_baselineGrace := grace |}
          end
      end
  end.

(** * Artifacts *)

(** What [os.Lstat] tells; [pi_Owned] is false when the owner is known to be another
    user. *)
Record PathInfo := { pi_IsDir : bool; pi_Symlink : bool; pi_Perm : Z; pi_Owned : bool }.

(** The file system.  Sample files are named by their task. *)
Record MonitorFS (W : Type) := {
  mf_Lstat : string -> M W (PathInfo + err);
  mf_MkdirAll : string -> M W error;
  mf_Mkdir : string -> M W error;
  mf_CreateExclusive : string -> string -> M W error;   (* the task, and the path *)
  mf_Sync : string -> M W error;
  mf_closeFile : string -> M W error;
  mf_remove : string -> M W error
}.
Arguments mf_Lstat {W}.
Arguments mf_MkdirAll {W}.
Arguments mf_Mkdir {W}.
Arguments mf_CreateExclusive {W}.
Arguments mf_Sync {W}.
Arguments mf_closeFile {W}.
Arguments mf_remove {W}.

(** What the recorder calls: its files, [writeIndex] and the source's [Close]. *)
Record RecorderOps (W : Type) := {
  mr_config : Config;
  mr_Deadline : Ctx -> option Z;
  mr_Sample : Ctx -> M W (list ResourceReading + err);
  mr_marshal : ResourceSample -> bytes + err;
  mr_FormatV : float64 -> string;
  mr_formatArtifactTime : Z -> string;
  mr_Write : string -> bytes -> M W (Z * error);
  mr_fs : MonitorFS W;
  mr_writeIndex : string -> Index -> M W error;
  mr_sourceClose : M W error
}.
Arguments mr_config {W}.
Arguments mr_Deadline {W}.
Arguments mr_Sample {W}.
Arguments mr_marshal {W}.
Arguments mr_FormatV {W}.
Arguments mr_formatArtifactTime {W}.
Arguments mr_Write {W}.
Arguments mr_fs {W}.
Arguments mr_writeIndex {W}.
Arguments mr_sourceClose {W}.

Definition sampler_of {W} (r : RecorderOps W) : Sampler W :=
  let c := mr_config r in
  {| sp_scope := mc_scope c; sp_runID := mc_runID c; sp_taskSet := list_to_set (mc_taskIDs c);
     sp_maxSamplesPerTask := mc_maxSamplesPerTask c; sp_maxFileBytes := mc_maxFileBytes c;
     sp_requestTimeout := mc_requestTimeout c; sp_baselineGrace := mc_baselineGrace c;
     sp_Deadline := mr_Deadline r; sp_Sample := mr_Sample r; sp_marshal := mr_marshal r;
     sp_FormatV := mr_FormatV r; sp_formatArtifactTime := mr_formatArtifactTime r;
     sp_Write := mr_Write r |}.

(** The fields of [Recorder] that change.  [re_sampling] says that the sampling
    goroutine has not ended. *)
Record attempt := { sa_finished : bool; sa_reports : option (gmap string ObserverResult); sa_err : error }.
Record Recorder := {
  re_started : bool;
  re_startTime : Z;
  re_stopTime : Z;
  re_state : SampleState;
  re_canceled : bool;
  re_sampling : bool;
  re_backgroundErr : error;
  re_unsupportedReason : string;
  re_filesClosed : bool;
  re_stopAttempt : option attempt;
  re_completed : bool;
  re_reports : gmap string ObserverResult;
  re_sourceClosed : option error             (* sourceCloseOnce has run, with its error *)
}.
Definition re_artifacts (st : Recorder) := ss_artifacts (re_state st).
Definition no_samples : SampleState := {| ss_artifacts := ∅; ss_baselines := ∅ |}.
Definition new_Recorder : Recorder :=
  {| re_started := false; re_startTime := 0; re_stopTime := 0; re_state := no_samples;
     re_canceled := false; re_sampling := false; re_backgroundErr := None;
     re_unsupportedReason := ""; re_filesClosed := false; re_stopAttempt := None;
     re_completed := false; re_reports := ∅; re_sourceClosed := None |}.
Definition set_re_state (x : SampleState) (r : Recorder) : Recorder :=
  {| re_started := re_started r; re_startTime := re_startTime r; re_stopTime := re_stopTime r;
     re_state := x; re_canceled := re_canceled r; re_sampling := re_sampling r;
     re_backgroundErr := re_backgroundErr r; re_unsupportedReason := re_unsupportedReason r;
     re_filesClosed := re_filesClosed r; re_stopAttempt := re_stopAttempt r;
     re_completed := re_completed r; re_reports := re_reports r;
     re_sourceClosed := re_sourceClosed r |}.
Definition set_re_canceled (x : bool) (r : Recorder) : Recorder :=
  {| re_started := re_started r; re_startTime := re_startTime r; re_stopTime := re_stopTime r;
     re_state := re_state r; re_canceled := x; re_sampling := re_sampling r;
     re_backgroundErr := re_backgroundErr r; re_unsupportedReason := re_unsupportedReason r;
     re_filesClosed := re_filesClosed r; re_stopAttempt := re_stopAttempt r;
     re_completed := re_completed r; re_reports := re_reports r;
     re_sourceClosed := re_sourceClosed r |}.
Definition set_re_sampling (x : bool) (r : Recorder) : Recorder :=
  {| re_started := re_started r; re_startTime := re_startTime r; re_stopTime := re_stopTime r;
     re_state := re_state r; re_canceled := re_canceled r; re_sampling := x;
     re_backgroundErr := re_backgroundErr r; re_unsupportedReason := re_unsupportedReason r;
     re_filesClosed := re_filesClosed r; re_stopAttempt := re_stopAttempt r;
     re_completed := re_completed r; re_reports := re_reports r;
     re_sourceClosed := re_sourceClosed r |}.
Definition set_re_backgroundErr (x : error) (r : Recorder) : Recorder :=
  {| re_started := re_started r; re_startTime := re_startTime r; re_stopTime := re_stopTime r;
     re_state := re_state r; re_canceled := re_canceled r; re_sampling := re_sampling r;
     re_backgroundErr := x; re_unsupportedReason := re_unsupportedReason r;
     re_filesClosed := re_filesClosed r; re_stopAttempt := re_stopAttempt r;
     re_completed := re_completed r; re_reports := re_reports r;
     re_sourceClosed := re_sourceClosed r |}.
Definition set_re_filesClosed (x : bool) (r : Recorder) : Recorder :=
  {| re_started := re_started r; re_startTime := re_startTime r; re_stopTime := re_stopTime r;
     re_state := re_state r; re_canceled := re_canceled r; re_sampling := re_sampling r;
     re_backgroundErr := re_backgroundErr r; re_unsupportedReason := re_unsupportedReason r;
     re_filesClosed := x; re_stopAttempt := re_stopAttempt r; re_completed := re_completed r;
     re_reports := re_reports r; re_sourceClosed := re_sourceClosed r |}.
Definition set_re_stopAttempt (x : option attempt) (r : Recorder) : Recorder :=
  {| re_started := re_started r; re_startTime := re_startTime r; re_stopTime := re_stopTime r;
     re_state := re_state r; re_canceled := re_canceled r; re_sampling := re_sampling r;
     re_backgroundErr := re_backgroundErr r; re_unsupportedReason := re_unsupportedReason r;
     re_filesClosed := re_filesClosed r; re_stopAttempt := x; re_completed := re_completed r;
     re_reports := re_reports r; re_sourceClosed := re_sourceClosed r |}.
Definition set_re_sourceClosed (x : option error) (r : Recorder) : Recorder :=
  {| re_started := re_started r; re_startTime := re_startTime r; re_stopTime := re_stopTime r;
     re_state := re_state r; re_canceled := re_canceled r; re_sampling := re_sampling r;
     re_backgroundErr := re_backgroundErr r; re_unsupportedReason := re_unsupportedReason r;
     re_filesClosed := re_filesClosed r; re_stopAttempt := re_stopAttempt r;
     re_completed := re_completed r; re_reports := re_reports r; re_sourceClosed := x |}.
Definition set_re_stopTime (x : Z) (r : Recorder) : Recorder :=
  {| re_started := re_started r; re_startTime := re_startTime r; re_stopTime := x;
     re_state := re_state r; re_canceled := re_canceled r; re_sampling := re_sampling r;
     re_backgroundErr := re_backgroundErr r; re_unsupportedReason := re_unsupportedReason r;
     re_filesClosed := re_filesClosed r; re_stopAttempt := re_stopAttempt r;
     re_completed := re_completed r; re_reports := re_reports r;
     re_sourceClosed := re_sourceClosed r |}.

Section Recording.
Context {W : Type} `{!Runtime W}.
Variable r : RecorderOps W.
Let c := mr_config r.
Let fs := mr_fs r.

(** [rejectExistingSymlinks], over the components below [current]. *)
Fixpoint reject_symlinks (current : string) (parts : list string) : M W error :=
  match parts with
  | [] => ret None
  | part :: parts =>
      if String.eqb part "" then reject_symlinks current parts
      else
        let current := Join [current; part] in
        let* info := mf_Lstat fs current in
        match info with
        | inr e =>
            if errors_Is e ErrNotExist then ret None
            else ret (Some (EWrap "inspect monitor output path" e))
        | inl info =>
            if pi_Symlink info
            then ret (Some (ENew ("monitor output path contains symlink " +:+ quote current)))
            else reject_symlinks current parts
        end
  end.
Definition rejectExistingSymlinks (path : string) : M W error :=
  reject_symlinks "/" (Split (TrimPrefix (Clean path) "/") "/").

(** [validatePrivateDirectory]. *)
Definition validatePrivateDirectory (path : string) : M W error :=
  let* info := mf_Lstat fs path in
  ret match info with
      | inr e => Some (EWrap "inspect monitor artifact directory" e)
      | inl info =>
          (refuse_if negb (pi_IsDir info) || pi_Symlink info || negb (pi_Perm info =? 448)
             with ("monitor artifact directory " +:+ quote path +:+ " is not a private directory")) >>?
          (refuse_if negb (pi_Owned info)
             with ("monitor artifact directory " +:+ quote path +:+ " is not owned by the current user"))
      end.

(** [removePartialArtifacts]; Go visits the artifacts in an unspecified order. *)
Definition failed (e : error) : list error := match e with Some _ => [e] | None => [] end.
Definition remove_path (path : string) : M W (list error) :=
  let* e := mf_remove fs path in
  ret (if error_Is e ErrNotExist then [] else failed e).
Definition remove_artifact (a : taskArtifact) : M W (list error) :=
  let* closed := if ta_resources a then let* e := mf_closeFile fs (ta_taskID a) in ret (failed e)
                 else ret [] in
  let* resources := remove_path (ta_resourcesPath a) in
  let* index := remove_path (ta_indexPath a) in
  let* directory := remove_path (ta_directory a) in
  ret (closed ++ resources ++ index ++ directory).
Fixpoint remove_artifacts (artifacts : list taskArtifact) : M W (list error) :=
  match artifacts with
  | [] => ret []
  | a :: artifacts =>
      let* errs := remove_artifact a in
      let* more := remove_artifacts artifacts in
      ret (errs ++ more)
  end.
Definition removePartialArtifacts (artifacts : gmap string taskArtifact) : M W error :=
  let* errs := remove_artifacts (map snd (map_to_list artifacts)) in
  ret (errors_Join errs).

(** [prepareArtifacts]: its loop, and its rollback. *)
Definition new_artifact (task directory : string) : taskArtifact :=
  {| ta_taskID := task; ta_directory := directory;
     ta_resourcesPath := Join [directory; "resources.jsonl"%string];
     ta_indexPath := Join [directory; "index.json"%string];
     ta_resources := false; ta_sequence := 0; ta_bytesWritten := 0; ta_coverage := ∅;
     ta_closed := false |}.
Definition prepare_task (task : string) (artifacts : gmap string taskArtifact) :
    M W (error * gmap string taskArtifact) :=
  let taskRoot := Join [mc_outputDir c; task] in
  let* e := mf_MkdirAll fs taskRoot in
  match e with
  | Some e => ret (Some (EWrap ("create monitor task root for " +:+ task) e), artifacts)
  | None =>
  let* e := validatePrivateDirectory taskRoot in
  match e with
  | Some e => ret (Some e, artifacts)
  | None =>
  let directory := Join [taskRoot; "monitor"%string] in
  let* e := mf_Mkdir fs directory in
  match e with
  | Some e => ret (Some (EWrap ("create monitor task directory for " +:+ task) e), artifacts)
  | None =>
  let artifact := new_artifact task directory in
  let* e := mf_CreateExclusive fs task (ta_resourcesPath artifact) in
  match e with
  | Some e =>
      ret (Some (EWrap ("create monitor sample file for " +:+ task) e), <[task := artifact]> artifacts)
  | None => ret (None, <[task := set_ta_file true false artifact]> artifacts)
  end end end end.
Fixpoint prepare_tasks (tasks : list string) (artifacts : gmap string taskArtifact) :
    M W (error * gmap string taskArtifact) :=
  match tasks with
  | [] => ret (None, artifacts)
  | task :: tasks =>
      let* (e, artifacts) := prepare_task task artifacts in
      match e with
      | Some _ => ret (e, artifacts)
      | None => prepare_tasks tasks artifacts
      end
  end.
Definition prepareArtifacts : M W (gmap string taskArtifact + err) :=
  let* e := rejectExistingSymlinks (mc_outputDir c) in
  match e with
  | Some e => ret (inr e)
  | None =>
      let* e := mf_MkdirAll fs (mc_outputDir c) in
      match e with
      | Some e => ret (inr (EWrap "create monitor output directory" e))
      | None =>
          let* (e, artifacts) := prepare_tasks (mc_taskIDs c) ∅ in
          match e with
          | None => ret (inl artifacts)
          | Some cause =>
              let* cleanupErr := removePartialArtifacts artifacts in
              ret (inr match cleanupErr with
                       | None => cause
                       | Some e =>
                           EJoin [cause; EWrap "roll back partial monitor artifact preparation" e]
                       end)
          end
      end
  end.

(** [closeSource]: the source is closed once. *)
Definition closeSource (st : Recorder) : M W (error * Recorder) :=
  match re_sourceClosed st with
  | Some e => ret (e, st)
  | None =>
      let* e := mr_sourceClose r in
      let e := wrap "close monitor resource source" e in
      ret (e, set_re_sourceClosed (Some e) st)
  end.

(** [Start]. *)
Definition startFailure (cause : err) (artifacts : gmap string taskArtifact) (st : Recorder) :
    M W (error * Recorder) :=
  let* rollbackErr := removePartialArtifacts artifacts in
  let* (closeErr, st) := closeSource (set_re_state no_samples st) in
  ret (errors_Join [Some cause; wrap "roll back partial monitor start" rollbackErr; closeErr], st).
Definition begun (startedAt : Z) (unsupportedReason : string) (state : SampleState) (st : Recorder) :
    Recorder :=
  {| re_started := true; re_startTime := startedAt; re_stopTime := re_stopTime st; re_state := state;
     re_canceled := negb (String.eqb unsupportedReason "");
     re_sampling := String.eqb unsupportedReason "";
     re_backgroundErr := re_backgroundErr st; re_unsupportedReason := unsupportedReason;
     re_filesClosed := re_filesClosed st; re_stopAttempt := re_stopAttempt st;
     re_completed := re_completed st; re_reports := re_reports st;
     re_sourceClosed := re_sourceClosed st |}.
Definition monitor_Start (ctx : Ctx) (st : Recorder) : M W (error * Recorder) :=
  let* e := ctx_Err ctx in
  match e with
  | Some s =>
      let* (closeErr, st) := closeSource st in
      ret (errors_Join [Some (ESentinel s); closeErr], st)
  | None =>
  if re_started st then ret (Some (ENew "monitor recorder is already started"), st) else
  let* prepared := prepareArtifacts in
  match prepared with
  | inr e =>
      let* (closeErr, st) := closeSource st in
      ret (errors_Join [Some e; closeErr], st)
  | inl artifacts =>
      let* startedAt := time_Now in
      let* (e, state) := sample (sampler_of r) ctx startedAt startedAt
                           {| ss_artifacts := artifacts; ss_baselines := ss_baselines (re_state st) |} in
      let unsupported := error_Is e ErrUnsupported in
      match e, unsupported with
      | Some e, false => startFailure e (ss_artifacts state) st
      | _, _ =>
          let unsupportedReason := from_option Error ""%string e in
          let* ctxErr := ctx_Err ctx in
          match ctxErr with
          | Some s => startFailure (ESentinel s) (ss_artifacts state) st
          | None => ret (None, begun startedAt unsupportedReason state st)
          end
      end
  end end.

(** One iteration of [sampleLoop] at a tick; [ctx] is the sampling context. *)
Definition sampleContext (ctx : Ctx) : Ctx := WithCancel (WithoutCancel ctx).
Definition loop_tick (ctx : Ctx) (sampleTime : Z) (st : Recorder) : M W Recorder :=
  let* (e, state) := sample (sampler_of r) (sampleContext ctx) (re_startTime st) sampleTime (re_state st) in
  let st := set_re_state state st in
  ret match e with
      | None => st
      | Some e =>
          let st := set_re_sampling false st in
          if errors_Is e Canceled && re_canceled st then st
          else match re_backgroundErr st with
               | None => set_re_backgroundErr (Some e) st
               | Some _ => st
               end
      end.

(** [Stop], up to the wait for its attempt: what it answers at once, or [None] when it
    waits, having begun an attempt if none was under way. *)
Definition monitor_Stop (st : Recorder) :
    M W (option (option (gmap string ObserverResult) * error) * Recorder) :=
  if negb (re_started st) then
    let* (closeErr, st) := closeSource st in
    ret (Some (None, errors_Join [Some (ENew "monitor recorder is not started"); closeErr]), st)
  else if re_completed st then ret (Some (Some (re_reports st), None), st)
  else
    let new := {| sa_finished := false; sa_reports := None; sa_err := None |} in
    ret (None, match re_stopAttempt st with
               | Some a => if sa_finished a then set_re_stopAttempt (Some new) st else st
               | None => set_re_stopAttempt (Some new) st
               end).

(** [closeResources]. *)
Definition closeResources (a : taskArtifact) : M W (error * taskArtifact) :=
  if ta_closed a then ret (None, a)
  else if negb (ta_resources a) then ret (None, set_ta_file false true a)
  else
    let* e := mf_Sync fs (ta_taskID a) in
    match e with
    | Some e => ret (Some (EWrap ("sync monitor samples for " +:+ ta_taskID a) e), a)
    | None =>
        let* e := mf_closeFile fs (ta_taskID a) in
        ret (wrap ("close monitor samples for " +:+ ta_taskID a) e, set_ta_file false true a)
    end.
Fixpoint close_tasks (tasks : list string) (artifacts : gmap string taskArtifact) :
    M W (error * gmap string taskArtifact) :=
  match tasks with
  | [] => ret (None, artifacts)
  | task :: tasks =>
      match artifacts !! task with
      | None => close_tasks tasks artifacts
      | Some a =>
          let* (e, a) := closeResources a in
          let artifacts := <[task := a]> artifacts in
          match e with
          | Some _ => ret (e, artifacts)
          | None => close_tasks tasks artifacts
          end
      end
  end.

(** [finishStop]: the report and the index of a task. *)
Definition stop_status (st : Recorder) : string :=
  match re_backgroundErr st with
  | Some _ => StatusFailed
  | None => if String.eqb (re_unsupportedReason st) "" then StatusSucceeded else StatusUnsupported
  end.
Definition run_duration (st : Recorder) : Z := Z.max 0 (time_Sub (re_stopTime st) (re_startTime st)).
Definition index_of (st : Recorder) (task : string) (a : taskArtifact) : Index :=
  {| ix_Scope := mc_scope c; ix_Reason := re_unsupportedReason st;
     ix_SchemaVersion := indexSchemaVersion; ix_RunID := mc_runID c; ix_TaskID := task;
     ix_Status := stop_status st; ix_Error := from_option Error "" (re_backgroundErr st);
     ix_StartedAt := mr_formatArtifactTime r (re_startTime st);
     ix_StoppedAt := mr_formatArtifactTime r (re_stopTime st);
     ix_DurationNanoseconds := run_duration st;
     ix_IntervalMilliseconds := mc_interval c / 1000000; ix_SampleCount := ta_sequence a;
     ix_ResourcesFile := "resources.jsonl"; ix_Components := componentCoverage a |}.
Definition report_of (st : Recorder) (a : taskArtifact) : ObserverResult :=
  {| ob_Reason := re_unsupportedReason st; ob_Status := stop_status st; ob_Duration := run_duration st;
     ob_SampleCount := ta_sequence a; ob_LogPaths := [ta_resourcesPath a; ta_indexPath a];
     ob_Error := from_option Error "" (re_backgroundErr st) |}.
Fixpoint write_indexes (tasks : list string) (st : Recorder) (reports : gmap string ObserverResult) :
    M W (error * gmap string ObserverResult) :=
  match tasks with
  | [] => ret (None, reports)
  | task :: tasks =>
      match re_artifacts st !! task with
      | None => write_indexes tasks st reports
      | Some a =>
          let* e := mr_writeIndex r (ta_indexPath a) (index_of st task a) in
          match e with
          | Some e => ret (Some (EWrap ("write monitor index for task " +:+ task) e), reports)
          | None => write_indexes tasks st (<[task := report_of st a]> reports)
          end
      end
  end.

(** [completeAttempt], and [complete] in front of it. *)
Definition completeAttempt (reports : option (gmap string ObserverResult)) (e : error) (completed : bool)
    (st : Recorder) : Recorder :=
  {| re_started := re_started st; re_startTime := re_startTime st; re_stopTime := re_stopTime st;
     re_state := if completed then {| ss_artifacts := ss_artifacts (re_state st); ss_baselines := ∅ |}
                 else re_state st;
     re_canceled := re_canceled st; re_sampling := re_sampling st;
     re_backgroundErr := re_backgroundErr st; re_unsupportedReason := re_unsupportedReason st;
     re_filesClosed := re_filesClosed st;
     re_stopAttempt := Some {| sa_finished := true; sa_reports := reports; sa_err := e |};
     re_completed := re_completed st || completed;
     re_reports := if completed then default ∅ reports else re_reports st;
     re_sourceClosed := re_sourceClosed st |}.
Definition complete (reports : option (gmap string ObserverResult)) (e : error) (completed : bool)
    (st : Recorder) : M W Recorder :=
  let* (closeErr, st) := closeSource st in
  ret match closeErr with
      | Some _ => completeAttempt reports (errors_Join [e; closeErr]) false st
      | None => completeAttempt reports e completed st
      end.

(** [finishStop] once the sampling goroutine has ended, or its timer has fired. *)
Definition finish_timeout (st : Recorder) : M W Recorder :=
  complete None (Some (ENew "monitor sampler did not stop before its timeout")) false st.
Definition close_files (st : Recorder) : M W (error * Recorder) :=
  if re_filesClosed st then ret (None, st)
  else
    let* (e, artifacts) := close_tasks (mc_taskIDs c) (re_artifacts st) in
    let st := set_re_state {| ss_artifacts := artifacts; ss_baselines := ss_baselines (re_state st) |} st in
    ret (e, match e with Some _ => st | None => set_re_filesClosed true st end).
Definition finish_stop (st : Recorder) : M W Recorder :=
  let* st := if IsZero (re_stopTime st) then let* now := time_Now in ret (set_re_stopTime now st)
             else ret st in
  let* (e, st) := close_files st in
  match e with
  | Some e => complete None (Some e) false st
  | None =>
      let* (e, reports) := write_indexes (mc_taskIDs c) st ∅ in
      match e with
      | Some e => complete None (Some e) false st
      | None => complete (Some reports) None true st
      end
  end.

(** What can happen to a started recorder: a tick or the end of the sampling goroutine,
    a call of [Stop], and the parts of the attempt to stop that it began. *)
Inductive recorder_op :=
  | Tick (sampleTime : Z)
  | LoopEnds
  | StopCalled
  | AttemptCancels
  | AttemptTimesOut
  | AttemptFinishes.
Definition attempting (st : Recorder) : bool :=
  match re_stopAttempt st with Some a => negb (sa_finished a) | None => false end.
Definition recorder_step (ctx : Ctx) (op : recorder_op) (st : Recorder) : option (M W Recorder) :=
  match op with
  | Tick sampleTime => if re_sampling st then Some (loop_tick ctx sampleTime st) else None
  | LoopEnds => if re_sampling st && re_canceled st then Some (ret (set_re_sampling false st)) else None
  | StopCalled => Some (let* (_, st) := monitor_Stop st in ret st)
  | AttemptCancels => if attempting st then Some (ret (set_re_canceled true st)) else None
  | AttemptTimesOut => if attempting st && re_canceled st then Some (finish_timeout st) else None
  | AttemptFinishes =>
      if attempting st && re_canceled st && negb (re_sampling st) then Some (finish_stop st) else None
  end.
(** A sequence of them; one that cannot happen is passed over. *)
Fixpoint recorder_run (ctx : Ctx) (ops : list recorder_op) (st : Recorder) : M W Recorder :=
  match ops with
  | [] => ret st
  | op :: ops =>
      let* st := default (ret st) (recorder_step ctx op st) in
      recorder_run ctx ops st
  end.
End Recording.

(** * Starting *)

Definition traced_fs {W} (fs : MonitorFS W) : MonitorFS (W * list event) :=
  {| mf_Lstat path := silent (mf_Lstat fs path);
     mf_MkdirAll path := silent (mf_MkdirAll fs path);
     mf_Mkdir path := logged (Created path) (mf_Mkdir fs path);
     mf_CreateExclusive task path := logged (Opened task path) (mf_CreateExclusive fs task path);
     mf_Sync task := silent (mf_Sync fs task);
     mf_closeFile task := logged (FileClosed task) (mf_closeFile fs task);
     mf_remove path := logged (Removed path) (mf_remove fs path) |}.
Definition traced_recorder {W} (r : RecorderOps W) : RecorderOps (W * list event) :=
  {| mr_config := mr_config r; mr_Deadline := mr_Deadline r;
     mr_Sample ctx := logged Answered (mr_Sample r ctx);
     mr_marshal := mr_marshal r; mr_FormatV := mr_FormatV r;
     mr_formatArtifactTime := mr_formatArtifactTime r;
     mr_Write task content := logged (fun out => Wrote task content out.1 out.2) (mr_Write r task content);
     mr_fs := traced_fs (mr_fs r);
     mr_writeIndex path index := logged (IndexWritten path index) (mr_writeIndex r path index);
     mr_sourceClose := logged SourceClosed (mr_sourceClose r) |}.

(** What a trace created is in the hands of the artifacts. *)
Record owned (artifacts : gmap string taskArtifact) (evs : list event) : Prop := {
  ow_created : forall path, Created path None ∈ evs ->
    exists task a, artifacts !! task = Some a /\ ta_directory a = path;
  ow_opened : forall task path, Opened task path None ∈ evs ->
    exists a, artifacts !! task = Some a /\ ta_resources a = true /\ ta_resourcesPath a = path;
  ow_keyed : forall task a, artifacts !! task = Some a -> ta_taskID a = task
}.
(** What a trace created is removed and closed by another. *)
Definition undone (evs cleanup : list event) : Prop :=
  (forall path, Created path None ∈ evs -> exists e, Removed path e ∈ cleanup) /\
  (forall task path, Opened task path None ∈ evs ->
   (exists e, FileClosed task e ∈ cleanup) /\ exists e, Removed path e ∈ cleanup).

Lemma undone_nil cleanup : undone [] cleanup.
Proof. split; intros * Hin; by apply elem_of_nil in Hin. Qed.

Definition making (ev : event) : Prop :=
  match ev with Created _ _ | Opened _ _ _ => True | _ => False end.
Definition removing (ev : event) : Prop :=
  match ev with FileClosed _ _ | Removed _ _ => True | _ => False end.
Definition fresh (artifacts : gmap string taskArtifact) : Prop :=
  forall task a, artifacts !! task = Some a ->
    ta_sequence a = 0 /\ ta_bytesWritten a = 0 /\ ta_coverage a = ∅ /\ ta_closed a = false.

Lemma not_made evs ev : Forall (fun ev => ~ making ev) evs -> making ev -> ev ∈ evs -> False.
Proof. intros Hall Hm Hin. rewrite Forall_forall in Hall. by apply (Hall ev). Qed.

Lemma owned_more artifacts evs more :
  owned artifacts evs -> Forall (fun ev => ~ making ev) more -> owned artifacts (evs ++ more).
Proof.
  intros [Hc Ho Hk] Hmore. constructor; [| |done].
  - intros path [Hin|Hin]%elem_of_app; [by apply Hc|by apply not_made in Hin].
  - intros task path [Hin|Hin]%elem_of_app; [by apply Ho|by apply not_made in Hin].
Qed.

Lemma owned_same_files artifacts artifacts' evs :
  owned artifacts evs -> same_files artifacts artifacts' -> owned artifacts' evs.
Proof.
  intros [Hc Ho Hk] Hsame.
  assert (forall task a, artifacts !! task = Some a -> exists a', artifacts' !! task = Some a' /\ file_of a' = file_of a) as Hto.
  { intros task a Ha. specialize (Hsame task). rewrite Ha in Hsame.
    destruct (artifacts' !! task) as [a'|]; [|done]. exists a'. split; [done|].
    by apply (inj Some). }
  constructor.
  - intros path Hin. destruct (Hc path Hin) as (task & a & Ha & Hd).
    destruct (Hto task a Ha) as (a' & Ha' & Hf). exists task, a'. unfold file_of in Hf. split; congruence.
  - intros task path Hin. destruct (Ho task path Hin) as (a & Ha & Hr & Hp).
    destruct (Hto task a Ha) as (a' & Ha' & Hf). exists a'. unfold file_of in Hf. split_and!; congruence.
  - intros task a' Ha'. specialize (Hsame task). rewrite Ha' in Hsame.
    destruct (artifacts !! task) as [a|] eqn:Ha; [|done]. apply Hk in Ha. unfold file_of in Hsame.
    simpl in Hsame. congruence.
Qed.

Section Start_proofs.
Context {W : Type} `{!Runtime W}.
Variable r : RecorderOps W.
Let t := traced_recorder r.
Let c := mr_config r.

Lemma rejectExistingSymlinks_emits path : emits (rejectExistingSymlinks t path) (fun _ evs => evs = []).
Proof.
  unfold rejectExistingSymlinks. generalize (Split (TrimPrefix (Clean path) "/") "/"). generalize "/"%string.
  intros current parts. revert current. induction parts as [|part parts IH]; intros current; simpl.
  { by apply emits_ret. }
  destruct (String.eqb part ""); [apply IH|]. apply emits_read. intros [info|e].
  - destruct (pi_Symlink info); [by apply emits_ret|apply IH].
  - destruct (errors_Is e ErrNotExist); by apply emits_ret.
Qed.

(** One artifact removed. *)
Definition removed_artifact (a : taskArtifact) (evs : list event) : Prop :=
  (exists e, Removed (ta_directory a) e ∈ evs) /\ (exists e, Removed (ta_resourcesPath a) e ∈ evs) /\
  (ta_resources a = true -> exists e, FileClosed (ta_taskID a) e ∈ evs).

Lemma remove_artifact_emits a :
  emits (remove_artifact t a) (fun _ evs => Forall removing evs /\ removed_artifact a evs).
Proof.
  unfold remove_artifact. apply (emits_bind _ _ (fun _ evs => Forall removing evs /\
    (ta_resources a = true -> exists e, FileClosed (ta_taskID a) e ∈ evs))).
  { destruct (ta_resources a); [|by apply emits_ret].
    apply emits_call. intros e. apply emits_ret. split; [by repeat constructor|]. intros _. exists e. set_solver. }
  intros closed evs [Hev Hclosed]. unfold remove_path.
  apply emits_flatten, emits_call. intros e1. apply emits_bind_ret.
  apply emits_flatten, emits_call. intros e2. apply emits_bind_ret.
  apply emits_flatten, emits_call. intros e3. apply emits_bind_ret. apply emits_ret.
  split; [apply Forall_app; split; [done|by repeat constructor]|].
  split; [exists e3; set_solver|]. split; [exists e1; set_solver|]. intros Hr.
  destruct (Hclosed Hr) as [e He]. exists e. set_solver.
Qed.

Lemma removePartialArtifacts_emits artifacts evs :
  owned artifacts evs ->
  emits (removePartialArtifacts t artifacts) (fun _ cleanup => Forall removing cleanup /\ undone evs cleanup).
Proof.
  intros [Hc Ho Hk]. unfold removePartialArtifacts.
  assert (forall l, emits (remove_artifacts t l)
    (fun _ cleanup => Forall removing cleanup /\ forall a, a ∈ l -> removed_artifact a cleanup)) as Hall.
  { intros l. induction l as [|a l IH]; [apply emits_ret; split; [constructor|set_solver]|].
    cbn [remove_artifacts]. eapply emits_bind; [apply remove_artifact_emits|]. intros errs evs1 [Hr1 H1].
    eapply emits_bind; [exact IH|]. intros errs2 evs2 [Hr2 H2]. apply emits_ret. rewrite app_nil_r.
    split; [by apply Forall_app|]. intros a' [->|Hin]%elem_of_cons.
    - destruct H1 as ((e1 & ?) & (e2 & ?) & H3). split; [exists e1; set_solver|].
      split; [exists e2; set_solver|]. intros Hres. destruct (H3 Hres) as [e ?]. exists e. set_solver.
    - destruct (H2 a' Hin) as ((e1 & ?) & (e2 & ?) & H3). split; [exists e1; set_solver|].
      split; [exists e2; set_solver|]. intros Hres. destruct (H3 Hres) as [e ?]. exists e. set_solver. }
  eapply emits_bind; [apply Hall|]. intros errs cleanup [Hr Hdone]. apply emits_ret. rewrite app_nil_r.
  assert (forall task a, artifacts !! task = Some a -> removed_artifact a cleanup) as Hmap.
  { intros task a Ha. apply Hdone. apply list_elem_of_fmap. exists (task, a). split; [done|].
    by apply elem_of_map_to_list. }
  split; [done|]. split.
  - intros path Hin. destruct (Hc path Hin) as (task & a & Ha & <-). by destruct (Hmap task a Ha).
  - intros task path Hin. destruct (Ho task path Hin) as (a & Ha & Hres & <-).
    destruct (Hmap task a Ha) as (_ & Hrm & Hcl). rewrite (Hk task a Ha) in Hcl. split; [by apply Hcl|done].
Qed.

(** The artifacts prepared so far. *)
Record prepared (artifacts : gmap string taskArtifact) (evs : list event) : Prop := {
  pr_owned : owned artifacts evs;
  pr_fresh : fresh artifacts;
  pr_making : Forall making evs
}.

Lemma owned_insert artifacts evs task a more :
  owned artifacts evs -> artifacts !! task = None -> ta_taskID a = task ->
  (forall path, Created path None ∈ more -> ta_directory a = path) ->
  (forall task' path, Opened task' path None ∈ more ->
   task' = task /\ ta_resources a = true /\ ta_resourcesPath a = path) ->
  owned (<[task := a]> artifacts) (evs ++ more).
Proof.
  intros [Hc Ho Hk] Hnone Hid Hcm Hom. constructor.
  - intros path [Hin|Hin]%elem_of_app.
    + destruct (Hc path Hin) as (task' & a' & Ha' & Hd). exists task', a'. split; [|done].
      rewrite lookup_insert_ne; [done|congruence].
    + exists task, a. rewrite lookup_insert_eq. split; [done|by apply Hcm].
  - intros task' path [Hin|Hin]%elem_of_app.
    + destruct (Ho task' path Hin) as (a' & Ha' & Hr). exists a'. split; [|done].
      rewrite lookup_insert_ne; [done|congruence].
    + destruct (Hom task' path Hin) as (-> & Hr & Hp). exists a. by rewrite lookup_insert_eq.
  - intros task' a' [[<- <-]|[_ Ha']]%lookup_insert_Some; [done|by apply Hk].
Qed.

Lemma prepared_insert artifacts evs task a more :
  prepared artifacts evs -> artifacts !! task = None -> ta_taskID a = task ->
  ta_sequence a = 0 /\ ta_bytesWritten a = 0 /\ ta_coverage a = ∅ /\ ta_closed a = false ->
  Forall making more ->
  (forall path, Created path None ∈ more -> ta_directory a = path) ->
  (forall task' path, Opened task' path None ∈ more ->
   task' = task /\ ta_resources a = true /\ ta_resourcesPath a = path) ->
  prepared (<[task := a]> artifacts) (evs ++ more).
Proof.
  intros [Ho Hf Hm] Hnone Hid Hfresh Hmore Hc Hop. constructor.
  - by apply owned_insert.
  - intros task' a' [[<- <-]|[_ Ha']]%lookup_insert_Some; [done|by apply (Hf task')].
  - by apply Forall_app.
Qed.

Lemma prepare_task_emits task artifacts evs :
  prepared artifacts evs -> artifacts !! task = None ->
  emits (prepare_task t task artifacts) (fun out more =>
    prepared out.2 (evs ++ more) /\ dom out.2 ⊆ {[task]} ∪ dom artifacts /\
    (out.1 = None -> dom out.2 = {[task]} ∪ dom artifacts)).
Proof.
  intros Hp Hnone. unfold prepare_task.
  assert (forall e : err, emits (W := W) (ret (Some e, artifacts)) (fun out more =>
    prepared out.2 (evs ++ more) /\ dom out.2 ⊆ {[task]} ∪ dom artifacts /\
    (out.1 = None -> dom out.2 = {[task]} ∪ dom artifacts))) as Hfail.
  { intros e. apply emits_ret. rewrite app_nil_r. split_and!; [done|set_solver|done]. }
  apply emits_read. intros [e|]; [apply Hfail|].
  apply emits_flatten, emits_read. intros info. apply emits_bind_ret. cbv beta.
  destruct (match info with inl _ => _ | inr _ => _ end) as [e|]; [apply Hfail|].
  apply emits_call. intros [e|].
  { apply emits_ret. destruct Hp as [Ho Hf Hm]. split_and!; [|set_solver|done]. constructor; [|done|].
    - destruct Ho as [Hc Hop Hk]. constructor; [| |done].
      + intros path [Hin|Hin%list_elem_of_singleton]%elem_of_app; [by apply Hc|done].
      + intros task' path [Hin|Hin%list_elem_of_singleton]%elem_of_app; [by apply Hop|done].
    - apply Forall_app. split; [done|by repeat constructor]. }
  apply emits_call. intros [e|]; apply emits_ret; simpl; rewrite dom_insert_L.
  - split_and!; [|done|done]. apply prepared_insert; try done; [by repeat constructor| |].
    + intros path Hin. apply elem_of_cons in Hin as [[= ->]|Hin]; [done|].
      apply list_elem_of_singleton in Hin. done.
    + intros task' path Hin. apply elem_of_cons in Hin as [Hin|Hin]; [done|].
      apply list_elem_of_singleton in Hin. done.
  - split_and!; [|done|done]. apply prepared_insert; try done; [by repeat constructor| |].
    + intros path Hin. apply elem_of_cons in Hin as [[= ->]|Hin]; [done|].
      apply list_elem_of_singleton in Hin. done.
    + intros task' path Hin. apply elem_of_cons in Hin as [Hin|Hin]; [done|].
      apply list_elem_of_singleton in Hin. injection Hin as -> ->. done.
Qed.

Lemma prepare_tasks_emits tasks artifacts evs :
  prepared artifacts evs -> NoDup tasks -> (forall task, task ∈ tasks -> artifacts !! task = None) ->
  emits (prepare_tasks t tasks artifacts) (fun out more =>
    prepared out.2 (evs ++ more) /\
    (out.1 = None -> dom out.2 = list_to_set tasks ∪ dom artifacts)).
Proof.
  revert artifacts evs. induction tasks as [|task tasks IH]; intros artifacts evs Hp Hnd Hnone.
  { apply emits_ret. rewrite app_nil_r. split; [done|]. intros _. simpl. by rewrite union_empty_l_L. }
  apply NoDup_cons in Hnd as [Hnot Hnd]. cbn [prepare_tasks].
  eapply emits_bind; [apply prepare_task_emits; [done|apply Hnone; left]|].
  intros [e artifacts1] more (Hp1 & Hsub & Hdom). simpl in *. destruct e as [e|].
  { apply emits_ret. rewrite app_nil_r. by split. }
  eapply emits_mono; [apply IH; [done|done|]|].
  - intros task' Hin. apply not_elem_of_dom. rewrite (Hdom eq_refl), elem_of_union, elem_of_singleton.
    intros [->|Hd]; [done|]. apply elem_of_dom in Hd as [a Ha]. rewrite Hnone in Ha; [done|by right].
  - intros [e artifacts2] more2 [Hp2 Hdom2]. simpl in *. rewrite app_assoc. split; [done|].
    intros He. rewrite (Hdom2 He), (Hdom eq_refl). set_solver.
Qed.

Definition setup (ev : event) : Prop := making ev \/ removing ev.

Lemma prepareArtifacts_emits :
  NoDup (mc_taskIDs c) ->
  emits (prepareArtifacts t) (fun out evs =>
    match out with
    | inl artifacts => prepared artifacts evs /\ dom artifacts = list_to_set (mc_taskIDs c)
    | inr _ => Forall setup evs /\ undone evs evs
    end).
Proof.
  intros Hnd. unfold prepareArtifacts. eapply emits_bind; [apply rejectExistingSymlinks_emits|].
  intros e evs ->. simpl. destruct e as [e|]; [apply emits_ret; split; [constructor|apply undone_nil]|].
  apply emits_read. intros [e|]; [apply emits_ret; split; [constructor|apply undone_nil]|].
  eapply emits_bind; [apply (prepare_tasks_emits _ ∅ []); [|done|done]|].
  { constructor; [constructor|done|constructor]; try done; intros *; by rewrite elem_of_nil. }
  intros [e artifacts] evs [Hp Hdom]. simpl in *. destruct e as [e|].
  - destruct Hp as [Ho Hf Hm]. eapply emits_bind; [by apply (removePartialArtifacts_emits _ evs)|].
    intros cleanupErr cleanup [Hr [Hc Hop]]. apply emits_ret. rewrite app_nil_r. split.
    + apply Forall_app. split; (eapply Forall_impl; [eassumption|]); intros ev Hev; [by left|by right].
    + assert (forall ev, removing ev -> ev ∈ evs -> False) as Hnr.
      { intros ev Hrm Hin. rewrite Forall_forall in Hm. apply Hm in Hin. by destruct ev. }
      assert (forall ev, making ev -> ev ∈ evs ++ cleanup -> ev ∈ evs) as Hleft.
      { intros ev Hmk [Hin|Hin]%elem_of_app; [done|]. rewrite Forall_forall in Hr. apply Hr in Hin. by destruct ev. }
      split.
      * intros path Hin. destruct (Hc path) as [e' ?]; [by apply Hleft in Hin|]. exists e'. set_solver.
      * intros task path Hin. destruct (Hop task path) as [[e1 ?] [e2 ?]]; [by apply Hleft in Hin|].
        split; [exists e1; set_solver|exists e2; set_solver].
  - apply emits_ret. rewrite app_nil_r. split; [done|]. rewrite (Hdom eq_refl), dom_empty_L. set_solver.
Qed.

(** The closes of the source in a trace. *)
Definition closing (ev : event) : bool := match ev with SourceClosed _ => true | _ => false end.
Definition closes (evs : list event) : list event := List.filter closing evs.
Definition source_ok (st : Recorder) (evs : list event) : Prop :=
  length (closes evs) = match re_sourceClosed st with Some _ => 1%nat | None => 0%nat end.

Lemma closes_app a b : closes (a ++ b) = closes a ++ closes b.
Proof. apply List.filter_app. Qed.
Lemma closes_none evs : Forall (fun ev => closing ev = false) evs -> closes evs = [].
Proof. induction 1 as [|ev evs Hev _ IH]; [done|]. unfold closes in *. simpl. by rewrite Hev. Qed.
Lemma source_ok_more st st' evs more :
  source_ok st evs -> re_sourceClosed st' = re_sourceClosed st -> closes more = [] ->
  source_ok st' (evs ++ more).
Proof. unfold source_ok. intros H -> Hm. by rewrite closes_app, Hm, app_nil_r. Qed.

Lemma closeSource_emits st evs :
  source_ok st evs ->
  emits (closeSource t st) (fun out more =>
    source_ok out.2 (evs ++ more) /\ Forall (fun ev => closing ev = true) more /\
    re_sourceClosed out.2 = Some out.1 /\ exists x, out.2 = set_re_sourceClosed x st).
Proof.
  intros Hs. unfold closeSource. destruct (re_sourceClosed st) as [e|] eqn:Hc.
  - apply emits_ret. rewrite app_nil_r. split_and!; try done. exists (Some e). by destruct st; simpl in *; subst.
  - apply emits_call. intros e. apply emits_ret. unfold source_ok in *. rewrite Hc in Hs.
    rewrite closes_app, length_app, Hs. split_and!; try done; [by repeat constructor|by eexists].
Qed.

(** A start that failed left nothing. *)
Definition not_started (st : Recorder) (evs : list event) : Prop :=
  re_started st = false /\ re_artifacts st = ∅ /\ undone evs evs /\ source_ok st evs /\
  is_Some (re_sourceClosed st).

Lemma undone_more evs a b : undone evs a -> Forall (fun ev => ~ making ev) b -> undone (evs ++ b) (a ++ b).
Proof.
  intros [Hc Ho] Hb. split.
  - intros path [Hin|Hin]%elem_of_app; [|by apply not_made in Hin].
    destruct (Hc path Hin) as [e ?]. exists e. set_solver.
  - intros task path [Hin|Hin]%elem_of_app; [|by apply not_made in Hin].
    destruct (Ho task path Hin) as [[e ?] [e' ?]]. split; [exists e; set_solver|exists e'; set_solver].
Qed.

Lemma setup_not_closing ev : setup ev -> closing ev = false.
Proof. by destruct ev as [| | | | | | |]; intros [|]. Qed.
Lemma closing_not_making evs : Forall (fun ev => closing ev = true) evs -> Forall (fun ev => ~ making ev) evs.
Proof. intros H. eapply Forall_impl; [exact H|]. intros [] Hc Hm; simpl in *; done. Qed.

(** The end of a failed start: the artifacts go, then the source. *)
Lemma startFailure_emits cause artifacts evs :
  owned artifacts evs -> closes evs = [] ->
  emits (startFailure t cause artifacts new_Recorder) (fun out more =>
    out.1 <> None /\ not_started out.2 (evs ++ more)).
Proof.
  intros Ho Hcl. unfold startFailure. eapply emits_bind; [by apply (removePartialArtifacts_emits _ evs)|].
  intros rollbackErr cleanup [Hr Hu].
  assert (Forall (fun ev => closing ev = false) cleanup) as Hnc
    by (eapply Forall_impl; [exact Hr|]; intros [] H1; simpl in *; tauto).
  assert (Forall (fun ev => ~ making ev) cleanup) as Hnm
    by (eapply Forall_impl; [exact Hr|]; intros [] H1; simpl in *; tauto).
  eapply emits_bind; [apply (closeSource_emits (set_re_state no_samples new_Recorder) (evs ++ cleanup))|].
  { unfold source_ok. by rewrite closes_app, Hcl, (closes_none cleanup). }
  intros [closeErr st] more (Hs & Hmore & Hclosed & x & Hst). simpl in *. apply emits_ret. rewrite app_nil_r.
  split; [simpl; by destruct rollbackErr, closeErr|]. rewrite app_assoc. unfold not_started. simpl.
  split; [by rewrite Hst|]. split; [by rewrite Hst|]. split; [|split; [done|by rewrite Hclosed]].
  apply closing_not_making in Hmore.
  assert (undone (evs ++ cleanup) (evs ++ cleanup)) as Hall.
  { destruct Hu as [Hc Hop]. split.
    - intros path [Hin|Hin]%elem_of_app; [|by apply not_made in Hin].
      destruct (Hc path Hin) as [e ?]. exists e. set_solver.
    - intros task path [Hin|Hin]%elem_of_app; [|by apply not_made in Hin].
      destruct (Hop task path Hin) as [[e ?] [e' ?]]. split; [exists e; set_solver|exists e'; set_solver]. }
  by apply undone_more.
Qed.

(** What holds of a started recorder and of the trace since its start began. *)
Record run_inv (st : Recorder) (evs : list event) : Prop := {
  ri_started : re_started st = true;
  ri_tasks : dom (re_artifacts st) = list_to_set (mc_taskIDs c);
  ri_files : exists logs, files_ok (sampler_of r) (re_artifacts st) (fun task => file_bytes task evs) logs
    (is_nil (re_backgroundErr st));
  ri_background : re_sampling st = true -> re_backgroundErr st = None;
  ri_source : source_ok st evs;
  ri_closed : re_filesClosed st = true -> re_sampling st = false /\ re_stopTime st <> 0;
  ri_index : forall path index e, IndexWritten path index e ∈ evs ->
    re_filesClosed st = true /\ exists task a, re_artifacts st !! task = Some a /\
      path = ta_indexPath a /\ index = index_of r st task a;
  ri_completed : re_completed st = true ->
    re_sourceClosed st = Some None /\ re_filesClosed st = true /\ attempting st = false /\
    forall task a, re_artifacts st !! task = Some a ->
      re_reports st !! task = Some (report_of st a) /\
      IndexWritten (ta_indexPath a) (index_of r st task a) None ∈ evs
}.

(** The configuration is one [New] gives, and only the source fails with the errors
    that the recorder tells apart. *)
Definition recorder_ok : Prop :=
  NoDup (mc_taskIDs c) /\ 0 <= mc_maxSamplesPerTask c /\ 0 <= mc_maxFileBytes c /\
  never_gives (sampler_of r) Canceled /\ never_gives (sampler_of r) ErrUnsupported.

Lemma file_bytes_none task evs :
  Forall (fun ev => match ev with Wrote _ _ _ _ => False | _ => True end) evs -> file_bytes task evs = [].
Proof. induction 1 as [|ev evs Hev _ IH]; [done|]. simpl. rewrite IH. by destruct ev. Qed.

Lemma fresh_files artifacts content :
  recorder_ok -> fresh artifacts -> (forall task a, artifacts !! task = Some a -> ta_taskID a = task) ->
  (forall task, content task = []) ->
  files_ok (sampler_of r) artifacts content (fun _ => []) true.
Proof.
  intros (_ & Hs & Hb & _) Hf Hk Hc task a Ha. split; [by apply Hk|].
  destruct (Hf task a Ha) as (Hseq & Hbytes & Hcov & _). exists []. split; [|done]. rewrite Hc.
  constructor; simpl; rewrite ?Hseq, ?Hbytes, ?Hcov; try done; [by exists []|].
  rewrite map_size_empty. lia.
Qed.

(** What a sample of the recorder does, with the files of its artifacts. *)
Lemma recorder_sample ctx startTime sampleTime st logs content :
  recorder_ok -> files_ok (sampler_of r) (ss_artifacts st) content logs true ->
  emits (sample (sampler_of t) ctx startTime sampleTime st) (fun out evs =>
    Forall sampling_event evs /\ same_files (ss_artifacts st) (ss_artifacts out.2) /\
    exists logs', files_ok (sampler_of r) (ss_artifacts out.2) (fun task => content task ++ file_bytes task evs)
      logs' (is_nil out.1 || error_Is out.1 Canceled || error_Is out.1 ErrUnsupported)).
Proof.
  intros (_ & _ & _ & Hcan & Huns) Hok.
  change (sampler_of t) with (traced_sampler (sampler_of r)).
  eapply emits_mono; [apply emits_and; [apply sample_events|apply emits_and;
    [by apply (sample_emits (sampler_of r) ctx startTime sampleTime st logs content)|apply emits_and;
    [by apply (sample_never (sampler_of r) Canceled)|by apply (sample_never (sampler_of r) ErrUnsupported)]]]|].
  intros [e st'] evs (Hev & (answer & writes & -> & Hpost) & Hc & Hu). split; [done|].
  assert (forall x, (answer = inr x \/ (Some x, st) = (e, st') /\ writes = []) -> st' = st -> writes = [] ->
    same_files (ss_artifacts st) (ss_artifacts st') /\
    exists logs', files_ok (sampler_of r) (ss_artifacts st')
      (fun task => content task ++ file_bytes task (Answered answer :: writes)) logs' true) as Hsame.
  { intros x _ -> ->. split; [done|]. exists logs. intros task a Ha. simpl. rewrite app_nil_r. by apply Hok. }
  assert (forall whole whole' logs' artifacts content', files_ok (sampler_of r) artifacts content' logs' whole ->
    (whole' = true -> whole = true) -> files_ok (sampler_of r) artifacts content' logs' whole') as Hweak.
  { intros whole whole' logs' artifacts content' Hf Hw task a Ha. destruct (Hf task a Ha) as [? (tail & ? & Ht)].
    split; [done|]. exists tail. split; [done|]. intros Hx. by apply Ht, Hw. }
  destruct answer as [given|x].
  - destruct Hpost as (readings & _ & _ & taken & logs' & _ & _ & Hsf & Hf & _). simpl in *.
    split; [done|]. exists logs'. eapply Hweak; [exact Hf|].
    destruct e as [e|]; [|done]. simpl. intros [H|H]%orb_true_iff; exfalso.
    + destruct (Hc H) as (x & [= ] & _).
    + destruct (Hu H) as (x & [= ] & _).
  - destruct Hpost as [[= -> ->] ->]. destruct (Hsame x) as [Hs (logs' & Hf)]; [by left|done|done|].
    split; [done|]. exists logs'. by eapply Hweak.
Qed.

(** What a start leads to. *)
Definition start_post (out : error * Recorder) (evs : list event) : Prop :=
  match out.1 with
  | Some _ => not_started out.2 evs
  | None => run_inv out.2 evs /\ re_sourceClosed out.2 = None /\ re_completed out.2 = false /\
      owned (re_artifacts out.2) evs
  end.

Lemma setup_no_writes evs : Forall making evs ->
  Forall (fun ev => match ev with Wrote _ _ _ _ => False | _ => True end) evs.
Proof. intros H. eapply Forall_impl; [exact H|]. intros [] Hm; simpl in *; done. Qed.

(** A start that fails before it has artifacts. *)
Lemma early_failure cause evs :
  Forall setup evs -> undone evs evs ->
  emits (let* (closeErr, st) := closeSource t new_Recorder in ret (errors_Join [Some cause; closeErr], st))
    (fun out more => start_post out (evs ++ more)).
Proof.
  intros Hsetup Hu. eapply emits_bind; [apply (closeSource_emits new_Recorder evs)|].
  { unfold source_ok. rewrite closes_none; [done|]. eapply Forall_impl; [exact Hsetup|]. apply setup_not_closing. }
  intros [closeErr st] more (Hs & Hmore & Hclosed & x & Hst). simpl in *. apply emits_ret. rewrite app_nil_r.
  assert (not_started st (evs ++ more)) as Hnot.
  { unfold not_started. rewrite Hst. simpl. rewrite Hst in Hclosed, Hs. simpl in Hclosed.
    split; [done|]. split; [done|]. split; [apply undone_more; [done|by apply closing_not_making]|].
    split; [done|]. by rewrite Hclosed. }
  unfold start_post. by destruct closeErr.
Qed.

Lemma monitor_Start_emits ctx :
  recorder_ok -> emits (monitor_Start t ctx new_Recorder) start_post.
Proof.
  intros Hok. pose proof Hok as (Hnd & _). unfold monitor_Start. apply emits_read. intros [s|].
  { apply (early_failure (ESentinel s) []); [constructor|apply undone_nil]. }
  simpl. eapply emits_bind; [by apply prepareArtifacts_emits|]. intros [artifacts|e] evs.
  2: { intros [Hsetup Hu]. by apply early_failure. }
  intros [[Ho Hf Hm] Hdom]. apply emits_read. intros startedAt.
  assert (forall task, file_bytes task evs = []) as Hnone by (intros; by apply file_bytes_none, setup_no_writes).
  assert (closes evs = []) as Hcl.
  { apply closes_none. eapply Forall_impl; [exact Hm|]. intros ev H. apply setup_not_closing. by left. }
  eapply emits_bind; [apply (recorder_sample ctx startedAt startedAt
    {| ss_artifacts := artifacts; ss_baselines := ∅ |} (fun _ => []) (fun task => file_bytes task evs)); [done|]|].
  { apply fresh_files; [done|done| |done]. by destruct Ho. }
  intros [e state] evs2 (Hev & Hsame & logs & Hfiles). simpl in *.
  assert (closes (evs ++ evs2) = []) as Hcl2.
  { rewrite closes_app, Hcl. simpl. apply closes_none. eapply Forall_impl; [exact Hev|]. by intros []. }
  assert (owned (ss_artifacts state) (evs ++ evs2)) as Ho2.
  { apply owned_more; [by eapply owned_same_files|]. eapply Forall_impl; [exact Hev|]. intros [] H; simpl in *; tauto. }
  assert (forall cause, emits (startFailure t cause (ss_artifacts state) new_Recorder)
    (fun out more => start_post out (evs ++ evs2 ++ more))) as Hfail.
  { intros cause. eapply emits_mono; [by apply (startFailure_emits cause _ (evs ++ evs2))|].
    intros [e' st] more [He Hn]. unfold start_post. simpl in *. rewrite app_assoc. by destruct e'. }
  assert (is_nil e || error_Is e ErrUnsupported = true ->
    emits (let* ctxErr := ctx_Err ctx in
           match ctxErr with
           | Some s => startFailure t (ESentinel s) (ss_artifacts state) new_Recorder
           | None => ret (None, begun startedAt (from_option Error ""%string e) state new_Recorder)
           end) (fun out more => start_post out (evs ++ evs2 ++ more))) as Hgo.
  { intros Hwhole. apply emits_read. intros [s|]; [apply Hfail|]. apply emits_ret. rewrite app_nil_r.
    split; [|by split_and!]. constructor; simpl; try done.
    - rewrite <- Hdom. apply set_eq. intros task. rewrite !elem_of_dom. specialize (Hsame task).
      unfold re_artifacts. simpl.
      destruct (ss_artifacts state !! task), (artifacts !! task); simpl in Hsame; split; intros [? ?]; done.
    - exists logs. intros task a Ha. destruct (Hfiles task a Ha) as [Hk (tail & Hao & Htail)]. split; [done|].
      exists tail. simpl. rewrite file_bytes_app. split; [done|]. intros _. apply Htail.
      destruct e; [|done]. simpl in *. by rewrite Hwhole, orb_true_r.
    - unfold source_ok. by rewrite Hcl2.
    - intros path index x [Hin|Hin]%elem_of_app; exfalso.
      + rewrite Forall_forall in Hm. by apply Hm in Hin.
      + rewrite Forall_forall in Hev. by apply Hev in Hin. }
  destruct e as [e|]; [|by apply Hgo]. simpl in *. destruct (errors_Is e ErrUnsupported); [by apply Hgo|apply Hfail].
Qed.

(** A start of the monitor is all or nothing: if it fails, at whatever point, every
    directory and file it created has been removed and every file closed, the
    recorder is as before and the source has been closed once; if it succeeds, the
    source is open and every task has its artifact, whose file holds exactly the
    samples taken so far, with nothing cut. *)
Theorem monitor_start_all_or_nothing ctx :
  recorder_ok -> emits (monitor_Start t ctx new_Recorder) start_post.
Proof. apply monitor_Start_emits. Qed.

(** * Running and stopping *)

(** An event that is none of those the invariant counts. *)
Definition neutral (ev : event) : Prop :=
  match ev with Answered _ | FileClosed _ _ => True | _ => False end.

Lemma index_not_in evs path index e : Forall sampling_event evs -> IndexWritten path index e ∈ evs -> False.
Proof. intros Hall Hin. rewrite Forall_forall in Hall. by apply Hall in Hin. Qed.

Lemma sampling_no_index st evs path index e :
  run_inv st evs -> re_filesClosed st = false -> IndexWritten path index e ∈ evs -> False.
Proof. intros Hi Hf Hin. apply (ri_index _ _ Hi) in Hin as [? _]. congruence. Qed.

Lemma not_completed st evs : run_inv st evs -> re_filesClosed st = false -> re_completed st = false.
Proof.
  intros Hi Hf. destruct (re_completed st) eqn:Hc; [|done].
  apply (ri_completed _ _ Hi) in Hc as (_ & ? & _). congruence.
Qed.

Lemma sampling_open st evs : run_inv st evs -> re_sampling st = true -> re_filesClosed st = false.
Proof.
  intros Hi Hs. destruct (re_filesClosed st) eqn:Hf; [|done].
  apply (ri_closed _ _ Hi) in Hf as [? _]. congruence.
Qed.

Lemma same_files_dom (a b : gmap string taskArtifact) :
  same_files a b -> dom b = (dom a : gset string).
Proof.
  intros Hs. apply set_eq. intros task. rewrite !elem_of_dom. specialize (Hs task).
  destruct (b !! task), (a !! task); simpl in Hs; split; intros [? ?]; done.
Qed.

Lemma loop_tick_emits ctx sampleTime st evs :
  recorder_ok -> run_inv st evs -> re_sampling st = true ->
  emits (loop_tick t ctx sampleTime st) (fun st' more => run_inv st' (evs ++ more)).
Proof.
  intros Hok Hi Hs. pose proof (sampling_open st evs Hi Hs) as Hopen.
  pose proof (not_completed st evs Hi Hopen) as Hnc.
  pose proof (ri_background _ _ Hi Hs) as Hbg.
  destruct (ri_files _ _ Hi) as [logs Hfiles]. rewrite Hbg in Hfiles.
  unfold loop_tick. eapply emits_bind; [exact (recorder_sample (sampleContext ctx) (re_startTime st) sampleTime (re_state st) logs _ Hok Hfiles)|].
  intros [e state] more (Hev & Hsame & logs' & Hfiles'). apply emits_ret. rewrite app_nil_r. simpl in Hsame, Hfiles'.
  assert (closes more = []) as Hcl.
  { apply closes_none. eapply Forall_impl; [exact Hev|]. by intros []. }
  assert (forall sampling bg st',
    st' = set_re_backgroundErr bg (set_re_sampling sampling (set_re_state state st)) ->
    (sampling = true -> bg = None) ->
    (is_nil bg = true -> is_nil e || error_Is e Canceled || error_Is e ErrUnsupported = true) ->
    run_inv st' (evs ++ more)) as Hgo.
  { intros sampling bg st' -> Hsb Hw. constructor; simpl; try done.
    - by apply (ri_started _ _ Hi).
    - unfold re_artifacts. simpl. rewrite (same_files_dom _ _ Hsame). apply (ri_tasks _ _ Hi).
    - exists logs'. intros task a Ha. destruct (Hfiles' task a Ha) as [Hk (tail & Hao & Htail)].
      split; [done|]. exists tail. rewrite file_bytes_app. split; [done|]. intros Hb. by apply Htail, Hw.
    - apply (source_ok_more st); [apply (ri_source _ _ Hi)|done|done].
    - congruence.
    - intros path index x [Hin|Hin]%elem_of_app; [by eapply sampling_no_index in Hin|by eapply index_not_in in Hin].
    - congruence. }
  destruct e as [e|]; simpl in *.
  - rewrite Hbg. destruct (errors_Is e Canceled && re_canceled st) eqn:Hc.
    + apply andb_true_iff in Hc as [Hc _].
      apply (Hgo false None); [by destruct st; simpl in *; subst|done|]. intros _. by rewrite Hc.
    + by apply (Hgo false (Some e)).
  - apply (Hgo true None); [|done|done]. by destruct st; simpl in *; subst.
Qed.

(** A step that makes no call and changes none of what the invariant reads. *)
Lemma run_inv_same st st' evs :
  run_inv st evs -> re_started st' = re_started st -> re_state st' = re_state st ->
  re_backgroundErr st' = re_backgroundErr st -> re_sourceClosed st' = re_sourceClosed st ->
  re_filesClosed st' = re_filesClosed st -> re_startTime st' = re_startTime st ->
  (re_filesClosed st = true -> re_stopTime st' = re_stopTime st) ->
  re_unsupportedReason st' = re_unsupportedReason st -> re_completed st' = re_completed st ->
  re_reports st' = re_reports st -> (re_sampling st' = true -> re_sampling st = true) ->
  (re_completed st = true -> re_stopAttempt st' = re_stopAttempt st) ->
  run_inv st' evs.
Proof.
  intros [Hst Ht Hf Hb Hso Hc Hi Hco] E1 E2 E3 E4 E5 E6 E7 E8 E9 E10 E11 E12.
  assert (re_artifacts st' = re_artifacts st) as Ea by (unfold re_artifacts; by rewrite E2).
  assert (re_filesClosed st = true -> forall task a, index_of r st' task a = index_of r st task a) as Ei.
  { intros Hfc task a. unfold index_of, stop_status, run_duration. by rewrite E3, E6, E8, E7. }
  assert (re_filesClosed st = true -> forall a, report_of st' a = report_of st a) as Er.
  { intros Hfc a. unfold report_of, stop_status, run_duration. by rewrite E3, E6, E8, E7. }
  constructor.
  - congruence.
  - by rewrite Ea.
  - rewrite Ea, E3. done.
  - rewrite E3. intros H. by apply Hb, E11.
  - unfold source_ok in *. by rewrite E4.
  - rewrite E5. intros H. destruct (Hc H) as [H1 H2]. rewrite E7 by done. split; [|done].
    destruct (re_sampling st'); [|done]. by rewrite E11 in H1.
  - rewrite Ea, E5. intros path index e Hin. destruct (Hi path index e Hin) as (Hfc & task & a & Ha & Hp & Hx).
    split; [done|]. exists task, a. by rewrite Ei.
  - rewrite E9, E4, E5, Ea, E10. intros H. destruct (Hco H) as (H1 & H2 & H3 & H4).
    unfold attempting in *. rewrite E12 by done. split_and!; try done.
    intros task a Ha. rewrite Er, Ei by done. by apply H4.
Qed.

(** Calls that neither write samples nor indexes. *)
Lemma run_inv_more st evs more :
  run_inv st evs ->
  Forall (fun ev => match ev with FileClosed _ _ | Answered _ => True | _ => False end) more ->
  run_inv st (evs ++ more).
Proof.
  intros [H1 H2 H3 H4 H5 H6 H7 H8] Hmore. rewrite Forall_forall in Hmore.
  assert (forall task, file_bytes task more = []) as Hnone.
  { intros task. apply file_bytes_none, Forall_forall. intros ev Hin. apply Hmore in Hin. by destruct ev. }
  constructor; try done.
  - destruct H3 as [logs H3]. exists logs. intros task a Ha. rewrite file_bytes_app, Hnone, app_nil_r. by apply H3.
  - apply (source_ok_more st); [done|done|]. apply closes_none, Forall_forall. intros ev Hin.
    apply Hmore in Hin. by destruct ev.
  - intros path index y [Hin|Hin]%elem_of_app; [by apply (H7 path index y)|by apply Hmore in Hin].
  - intros Hco. destruct (H8 Hco) as (Ha & Hb & Hat & Hall). split_and!; try done. intros task a Ha'.
    destruct (Hall task a Ha') as [? ?]. split; [done|]. set_solver.
Qed.

Lemma closeSource_inv st evs :
  run_inv st evs ->
  emits (closeSource t st) (fun out more =>
    run_inv out.2 (evs ++ more) /\ re_sourceClosed out.2 = Some out.1 /\
    exists x, out.2 = set_re_sourceClosed x st).
Proof.
  intros Hi. unfold closeSource. destruct (re_sourceClosed st) as [e|] eqn:Hc.
  { apply emits_ret. rewrite app_nil_r. split; [done|]. split; [done|]. exists (Some e).
    by destruct st; simpl in *; subst. }
  apply emits_call. intros e. apply emits_ret. split; [|split; [done|by eexists]].
  assert (re_completed st = false) as Hnc.
  { destruct (re_completed st) eqn:Hco; [|done]. apply (ri_completed _ _ Hi) in Hco as [? _]. congruence. }
  destruct Hi as [H1 H2 H3 H4 H5 H6 H7 H8]. constructor; simpl; try done.
  - destruct H3 as [logs H3]. exists logs. intros task a Ha. rewrite file_bytes_app, app_nil_r. by apply H3.
  - unfold source_ok in *. rewrite closes_app, length_app, H5, Hc. done.
  - intros path index y [Hin|Hin%list_elem_of_singleton]%elem_of_app; [by apply (H7 path index y)|done].
  - congruence.
Qed.

(** The end of an attempt; one that succeeds has its reports and indexes. *)
Definition indexed (st : Recorder) (reports : gmap string ObserverResult) (evs : list event) : Prop :=
  re_filesClosed st = true /\
  forall task a, re_artifacts st !! task = Some a ->
    reports !! task = Some (report_of st a) /\
    IndexWritten (ta_indexPath a) (index_of r st task a) None ∈ evs.

Lemma complete_emits reports e completed st evs :
  run_inv st evs -> re_completed st = false -> (completed = true -> indexed st (default ∅ reports) evs) ->
  emits (complete t reports e completed st) (fun st' more => run_inv st' (evs ++ more)).
Proof.
  intros Hi Hnc Hdone. unfold complete. eapply emits_bind; [by apply closeSource_inv|].
  intros [closeErr st1] more (Hi1 & Hclosed & x & Hst). simpl in *. apply emits_ret. rewrite app_nil_r.
  assert (re_completed st1 = false) as Hnc1 by (by rewrite Hst).
  assert (forall reports e, run_inv (completeAttempt reports e false st1) (evs ++ more)) as Hfail.
  { intros reports' e'. apply (run_inv_same st1); try done; simpl; [|congruence]. by rewrite Hnc1. }
  destruct closeErr as [ce|]; [apply Hfail|]. destruct completed; [|apply Hfail].
  destruct (Hdone eq_refl) as [Hfc Hind]. destruct Hi1 as [H1 H2 H3 H4 H5 H6 H7 H8].
  constructor; simpl; try done. intros _. split; [done|]. split; [by rewrite Hst|]. split; [done|].
  intros task a Ha. destruct (Hind task a) as [Hr Hx]; [by rewrite Hst in Ha|]. subst st1. split; [done|].
  apply elem_of_app. by left.
Qed.

(** The files are closed without a change of what they hold. *)
Definition closed_version (a a' : taskArtifact) : Prop := exists x y, a' = set_ta_file x y a.
Definition closed_versions (artifacts artifacts' : gmap string taskArtifact) : Prop :=
  dom artifacts' = (dom artifacts : gset string) /\
  forall task a', artifacts' !! task = Some a' -> exists a, artifacts !! task = Some a /\ closed_version a a'.

Lemma closed_version_refl a : closed_version a a.
Proof. exists (ta_resources a), (ta_closed a). by destruct a. Qed.

Lemma closeResources_emits a :
  emits (closeResources t a) (fun out more => closed_version a out.2 /\
    Forall (fun ev => match ev with FileClosed _ _ | Answered _ => True | _ => False end) more).
Proof.
  unfold closeResources. destruct (ta_closed a).
  { apply emits_ret. split; [apply closed_version_refl|constructor]. }
  destruct (negb (ta_resources a)); [apply emits_ret; split; [by do 2 eexists|constructor]|].
  apply emits_read. intros [e|]; [apply emits_ret; split; [apply closed_version_refl|constructor]|].
  apply emits_call. intros e. apply emits_ret. split; [by do 2 eexists|by repeat constructor].
Qed.

Lemma close_tasks_emits tasks artifacts :
  emits (close_tasks t tasks artifacts) (fun out more => closed_versions artifacts out.2 /\
    Forall (fun ev => match ev with FileClosed _ _ | Answered _ => True | _ => False end) more).
Proof.
  revert artifacts. induction tasks as [|task tasks IH]; intros artifacts; cbn [close_tasks].
  { apply emits_ret. split; [|constructor]. split; [done|]. intros task a Ha. exists a. split; [done|].
    apply closed_version_refl. }
  destruct (artifacts !! task) as [a|] eqn:Ha; [|apply IH].
  eapply emits_bind; [apply closeResources_emits|]. intros [e a1] evs [Hv Hev]. simpl in *.
  assert (closed_versions artifacts (<[task := a1]> artifacts)) as [Hd1 Hc1].
  { split.
    - rewrite dom_insert_L. apply subseteq_union_1_L, singleton_subseteq_l, elem_of_dom. by exists a.
    - intros x a' [[<- <-]|[_ Hx]]%lookup_insert_Some; [by exists a|]. exists a'.
      split; [done|apply closed_version_refl]. }
  destruct e as [e|].
  { apply emits_ret. rewrite app_nil_r. split; [by split|done]. }
  eapply emits_mono; [apply IH|]. intros [e artifacts2] evs2 [[Hd2 Hc2] Hev2]. simpl in *.
  split; [|by apply Forall_app]. split; [congruence|]. intros x a' Hx.
  destruct (Hc2 x a' Hx) as (a2 & Ha2 & x2 & y2 & ->). destruct (Hc1 x a2 Ha2) as (a3 & Ha3 & x3 & y3 & ->).
  exists a3. split; [done|]. by exists x2, y2.
Qed.

Lemma close_files_emits st evs :
  run_inv st evs -> re_sampling st = false -> re_stopTime st <> 0 -> re_completed st = false ->
  emits (close_files t st) (fun out more =>
    run_inv out.2 (evs ++ more) /\ re_completed out.2 = false /\
    (out.1 = None -> re_filesClosed out.2 = true)).
Proof.
  intros Hi Hs Hstop Hnc. unfold close_files. destruct (re_filesClosed st) eqn:Hfc.
  { apply emits_ret. by rewrite app_nil_r. }
  eapply emits_bind; [apply close_tasks_emits|]. intros [e artifacts] more [[Hd Hc] Hev].
  apply emits_ret. rewrite app_nil_r. simpl in *.
  assert (forall b st', st' = set_re_filesClosed b (set_re_state
    {| ss_artifacts := artifacts; ss_baselines := ss_baselines (re_state st) |} st) ->
    run_inv st' (evs ++ more)) as Hgo.
  { intros b st' ->. apply run_inv_more; [|done]. pose proof Hi as [H1 H2 H3 H4 H5 H6 H7 H8].
    constructor; simpl; try done.
    - unfold re_artifacts. simpl. rewrite Hd. apply H2.
    - destruct H3 as [logs H3]. exists logs. intros task a Ha.
      destruct (Hc task a Ha) as (a0 & Ha0 & x & y & ->). destruct (H3 task a0 Ha0) as [Hk (tail & Hao & Htail)].
      split; [done|]. exists tail. split; [|done]. destruct Hao. by constructor.
    - intros path index y Hin. by eapply sampling_no_index in Hin.
    - congruence. }
  destruct e as [e|]; simpl.
  - split; [|by split]. apply (Hgo false). by destruct st; simpl in *; subst.
  - split; [by apply (Hgo true)|done].
Qed.

(** An index written for a task of the recorder. *)
Definition own_index (st : Recorder) (ev : event) : Prop :=
  exists task a e, re_artifacts st !! task = Some a /\ ev = IndexWritten (ta_indexPath a) (index_of r st task a) e.

Lemma write_indexes_emits tasks st reports :
  emits (write_indexes t tasks st reports) (fun out more =>
    Forall (own_index st) more /\
    (out.1 = None -> forall task a, re_artifacts st !! task = Some a ->
      (task ∈ tasks -> out.2 !! task = Some (report_of st a) /\
        IndexWritten (ta_indexPath a) (index_of r st task a) None ∈ more) /\
      (task ∉ tasks -> out.2 !! task = reports !! task))).
Proof.
  revert reports. induction tasks as [|task tasks IH]; intros reports; cbn [write_indexes].
  { apply emits_ret. split; [constructor|]. intros _ task a Ha. split; [set_solver|done]. }
  destruct (re_artifacts st !! task) as [a|] eqn:Ha.
  - apply emits_call. intros [e|].
    { apply emits_ret. split; [|done]. constructor; [|constructor]. by exists task, a, (Some e). }
    eapply emits_mono; [apply IH|]. intros [e reports'] more [Hown Hall]. simpl in *. split.
    { constructor; [|done]. by exists task, a, None. }
    intros He task' a' Ha'. specialize (Hall He task' a' Ha') as [Hin Hout]. split.
    + intros Hcons. destruct (decide (task' ∈ tasks)) as [Hi|Hni].
      * destruct (Hin Hi) as [? ?]. split; [done|by right].
      * destruct (decide (task' = task)) as [->|Hne].
        -- assert (a' = a) as -> by congruence. rewrite Hout by done. rewrite lookup_insert_eq.
           split; [done|left].
        -- by apply elem_of_cons in Hcons as [?|?].
    + intros [Hne Hni]%not_elem_of_cons. rewrite Hout by done. by rewrite lookup_insert_ne.
  - eapply emits_mono; [apply IH|]. intros [e reports'] more [Hown Hall]. simpl in *. split; [done|].
    intros He task' a' Ha'. specialize (Hall He task' a' Ha') as [Hin Hout]. split.
    + intros [->|Hi]%elem_of_cons; [congruence|by apply Hin].
    + intros [_ Hni]%not_elem_of_cons. by apply Hout.
Qed.

Lemma run_inv_indexes st evs more :
  run_inv st evs -> re_filesClosed st = true -> Forall (own_index st) more -> run_inv st (evs ++ more).
Proof.
  intros [H1 H2 H3 H4 H5 H6 H7 H8] Hfc Hown. rewrite Forall_forall in Hown.
  assert (forall task, file_bytes task more = []) as Hnone.
  { intros task. apply file_bytes_none, Forall_forall. intros ev Hin.
    by destruct (Hown ev Hin) as (? & ? & ? & _ & ->). }
  constructor; try done.
  - destruct H3 as [logs H3]. exists logs. intros task a Ha. rewrite file_bytes_app, Hnone, app_nil_r. by apply H3.
  - apply (source_ok_more st); [done|done|]. apply closes_none, Forall_forall. intros ev Hin.
    by destruct (Hown ev Hin) as (? & ? & ? & _ & ->).
  - intros path index y [Hin|Hin]%elem_of_app; [by apply (H7 path index y)|].
    destruct (Hown _ Hin) as (task & a & e & Ha & [= -> -> ->]). split; [done|]. by exists task, a.
  - intros Hco. destruct (H8 Hco) as (Ha & Hb & Hat & Hall). split_and!; try done. intros task a Ha'.
    destruct (Hall task a Ha') as [? ?]. split; [done|]. set_solver.
Qed.

Lemma finish_stop_emits st evs :
  (forall w : W, (time_Now w).1 <> 0) ->
  run_inv st evs -> re_sampling st = false -> re_completed st = false ->
  emits (finish_stop t st) (fun st' more => run_inv st' (evs ++ more)).
Proof.
  intros Hclock Hi Hs Hnc. unfold finish_stop.
  apply (emits_bind _ _ (fun st1 more => more = [] /\ run_inv st1 evs /\ re_sampling st1 = false /\
    re_stopTime st1 <> 0 /\ re_completed st1 = false)).
  { unfold IsZero. destruct (Z.eqb_spec (re_stopTime st) 0) as [Hz|Hz]; [|by apply emits_ret].
    eapply (emits_read_such _ (fun now => now <> 0)); [exact Hclock|]. intros now Hnow. apply emits_ret.
    split; [done|]. split; [|by split_and!]. apply (run_inv_same st); try done.
    intros Hfc. by destruct (ri_closed _ _ Hi Hfc). }
  intros st1 evs1 (-> & Hi1 & Hs1 & Hst1 & Hnc1). simpl.
  eapply emits_bind; [by apply close_files_emits|]. intros [e st2] more (Hi2 & Hnc2 & Hfc2). simpl in *.
  destruct e as [e|].
  { eapply emits_mono; [by apply (complete_emits _ _ _ _ (evs ++ more))|]. intros st' more'. by rewrite app_assoc. }
  eapply emits_bind; [apply write_indexes_emits|]. intros [e reports] more2 [Hown Hall]. simpl in *.
  assert (run_inv st2 ((evs ++ more) ++ more2)) as Hi3 by (apply run_inv_indexes; [done|by apply Hfc2|done]).
  assert (forall reports' e' completed, (completed = true -> indexed st2 (default ∅ reports') ((evs ++ more) ++ more2)) ->
    emits (complete t reports' e' completed st2) (fun st' more' => run_inv st' (evs ++ more ++ more2 ++ more'))) as Hc.
  { intros reports' e' completed Hx. eapply emits_mono; [by apply (complete_emits _ _ _ _ ((evs ++ more) ++ more2))|].
    intros st' more'. by rewrite !app_assoc. }
  destruct e as [e|]; [by apply Hc|]. apply Hc. intros _. split; [by apply Hfc2|]. simpl.
  intros task a Ha. destruct (Hall eq_refl task a Ha) as [Hin _].
  destruct Hin as [Hr Hx]; [|split; [done|set_solver]].
  assert (task ∈ (dom (re_artifacts st2) : gset string)) as Hd by (apply elem_of_dom; by exists a).
  rewrite (ri_tasks _ _ Hi2) in Hd. by apply elem_of_list_to_set in Hd.
Qed.

Lemma recorder_step_emits ctx op st evs m :
  recorder_ok -> (forall w : W, (time_Now w).1 <> 0) -> run_inv st evs -> recorder_step t ctx op st = Some m ->
  emits m (fun st' more => run_inv st' (evs ++ more)).
Proof.
  intros Hok Hclock Hi Hstep.
  assert (attempting st = true -> re_completed st = false) as Hatt.
  { intros Ha. destruct (re_completed st) eqn:Hc; [|done].
    apply (ri_completed _ _ Hi) in Hc as (_ & _ & ? & _). congruence. }
  destruct op as [sampleTime| | | | |]; simpl in Hstep.
  - destruct (re_sampling st) eqn:Hs; [|done]. injection Hstep as <-. by apply loop_tick_emits.
  - destruct (re_sampling st && re_canceled st) eqn:Hs; [|done]. injection Hstep as <-. apply emits_ret.
    rewrite app_nil_r. by apply (run_inv_same st).
  - injection Hstep as <-. unfold monitor_Stop. rewrite (ri_started _ _ Hi). simpl.
    destruct (re_completed st) eqn:Hc; [apply emits_bind_ret, emits_ret; by rewrite app_nil_r|].
    apply emits_bind_ret, emits_ret. rewrite app_nil_r.
    assert (forall x, run_inv (set_re_stopAttempt x st) evs) as Hset.
    { intros x. apply (run_inv_same st); try done. congruence. }
    destruct (re_stopAttempt st) as [a|]; [destruct (sa_finished a)|]; done.
  - destruct (attempting st) eqn:Ha; [|done]. injection Hstep as <-. apply emits_ret. rewrite app_nil_r.
    by apply (run_inv_same st).
  - destruct (attempting st && re_canceled st) eqn:Ha; [|done]. injection Hstep as <-.
    apply andb_true_iff in Ha as [Ha _]. apply complete_emits; [done|by apply Hatt|done].
  - destruct (attempting st && re_canceled st && negb (re_sampling st)) eqn:Ha; [|done]. injection Hstep as <-.
    apply andb_true_iff in Ha as [[Ha _]%andb_true_iff Hs%negb_true_iff]. apply finish_stop_emits; auto.
Qed.

Lemma recorder_run_emits ctx ops st evs :
  recorder_ok -> (forall w : W, (time_Now w).1 <> 0) -> run_inv st evs ->
  emits (recorder_run t ctx ops st) (fun st' more => run_inv st' (evs ++ more)).
Proof.
  intros Hok Hclock. revert st evs. induction ops as [|op ops IH]; intros st evs Hi; cbn [recorder_run].
  { apply emits_ret. by rewrite app_nil_r. }
  apply (emits_bind _ _ (fun st1 more => run_inv st1 (evs ++ more))).
  - destruct (recorder_step t ctx op st) as [m|] eqn:Hs; [by eapply recorder_step_emits|].
    apply emits_ret. by rewrite app_nil_r.
  - intros st1 more Hi1. eapply emits_mono; [by apply IH|]. intros st' more'. by rewrite app_assoc.
Qed.

(** A recorder that is started and then run; [None] is a failed start. *)
Definition monitored (ctx : Ctx) (ops : list recorder_op) : M (W * list event) (option Recorder) :=
  let* (e, st) := monitor_Start t ctx new_Recorder in
  match e with
  | Some _ => ret None
  | None => let* st := recorder_run t ctx ops st in ret (Some st)
  end.

(** The coverage of some samples: of each component and runtime among them, how many there
    are, and the first and the last second. *)
Definition coverages (samples : list ResourceSample) : list ComponentCoverage :=
  omap (fun key => coverage_of (with_key key samples)) (remove_dups (map coverage_key samples)).

Lemma coverages_of artifact content samples tail :
  artifact_ok (sampler_of r) artifact content samples tail -> componentCoverage artifact ≡ₚ coverages samples.
Proof.
  intros Hok. unfold componentCoverage. rewrite merge_sort_Permutation.
  set (keyed := omap (fun key => pair key <$> coverage_of (with_key key samples)) (remove_dups (map coverage_key samples))).
  assert (coverages samples = map snd keyed) as ->.
  { unfold coverages, keyed. induction (remove_dups _) as [|key keys IH]; [done|].
    cbn in IH |- *. destruct (coverage_of _); cbn; by rewrite IH. }
  apply fmap_Permutation, NoDup_Permutation.
  - apply NoDup_map_to_list.
  - apply (NoDup_fmap_1 fst). assert (forall keys, NoDup keys -> NoDup (fst <$> omap (fun key => pair key <$> coverage_of (with_key key samples)) keys)
      /\ forall key, key ∈ fst <$> omap (fun key => pair key <$> coverage_of (with_key key samples)) keys -> key ∈ keys) as H.
    { induction 1 as [|key keys Hn _ [IH1 IH2]]; [split; [constructor|done]|]. simpl.
      destruct (coverage_of _); simpl; [|split; [done|]; intros k Hk; right; by apply IH2].
      split; [constructor; [intros Hk; by apply Hn, IH2|done]|]. intros k [->|Hk]%elem_of_cons; [left|right; by apply IH2]. }
    apply H, NoDup_remove_dups.
  - intros [key coverage]. rewrite elem_of_map_to_list, (ao_coverage _ _ _ _ _ Hok). unfold keyed. rewrite list_elem_of_omap. split.
    + intros Hc. exists key. split; [|by rewrite Hc]. apply elem_of_remove_dups.
      destruct (with_key key samples) as [|s l] eqn:Hl; [done|].
      assert (s ∈ with_key key samples) as Hs by (rewrite Hl; by left). unfold with_key in Hs.
      apply list_elem_of_filter in Hs as [<- Hs]. by apply list_elem_of_fmap_2.
    + intros (key' & _ & Hc). destruct (coverage_of _) eqn:He; [|done]. simpl in Hc. by injection Hc as <- <-.
Qed.

(** What an index and a report say of a task, given the samples of its file: the outcome of
    the sampling (its error, and otherwise the reason for which nothing was measured), the
    times, the number of samples and their coverage, in the order of components. *)
Record outcome_told (st : Recorder) (status reason error : string) : Prop := {
  ot_status : status = match re_backgroundErr st with
                       | Some _ => "failed"
                       | None => if String.eqb (re_unsupportedReason st) "" then "succeeded" else "unsupported"
                       end%string;
  ot_reason : reason = re_unsupportedReason st;
  ot_error : error = match re_backgroundErr st with Some e => Error e | None => "" end%string
}.
Record true_index (st : Recorder) (task : string) (samples : list ResourceSample) (index : Index) : Prop := {
  tx_outcome : outcome_told st (ix_Status index) (ix_Reason index) (ix_Error index);
  tx_scope : ix_Scope index = mc_scope c;
  tx_run : ix_RunID index = mc_runID c;
  tx_task : ix_TaskID index = task;
  tx_schema : ix_SchemaVersion index = 5;
  tx_times : ix_StartedAt index = mr_formatArtifactTime r (re_startTime st) /\ ix_StoppedAt index = mr_formatArtifactTime r (re_stopTime st);
  tx_duration : ix_DurationNanoseconds index = Z.max 0 (time_Sub (re_stopTime st) (re_startTime st));
  tx_interval : ix_IntervalMilliseconds index = mc_interval c / 1000000;
  tx_count : ix_SampleCount index = Z.of_nat (length samples);
  tx_file : ix_ResourcesFile index = "resources.jsonl"%string;
  tx_components : ix_Components index ≡ₚ coverages samples;
  tx_order : Sorted coverage_le (ix_Components index)
}.
Record true_report (st : Recorder) (a : taskArtifact) (samples : list ResourceSample) (report : ObserverResult) : Prop := {
  tr_outcome : outcome_told st (ob_Status report) (ob_Reason report) (ob_Error report);
  tr_duration : ob_Duration report = Z.max 0 (time_Sub (re_stopTime st) (re_startTime st));
  tr_count : ob_SampleCount report = Z.of_nat (length samples);
  tr_paths : ob_LogPaths report = [ta_resourcesPath a; ta_indexPath a]
}.
(** What a completed stop has written of a task: the index and the report are true of the
    samples in its file, and unless they say that the run failed, these are all it holds. *)
Definition truthful (st : Recorder) (evs : list event) (task : string) (a : taskArtifact) (index : Index) : Prop :=
  exists samples tail report,
    artifact_ok (sampler_of r) a (file_bytes task evs) samples tail /\
    (ix_Status index <> "failed"%string -> tail = []) /\
    true_index st task samples index /\ IndexWritten (ta_indexPath a) index None ∈ evs /\
    re_reports st !! task = Some report /\ true_report st a samples report.

Lemma ltb_one_way (x y : string) : String.ltb x y = false \/ String.ltb y x = false.
Proof. unfold String.ltb. rewrite (String.compare_antisym y x). destruct (String.compare x y); auto. Qed.
#[local] Instance coverage_le_total : Total coverage_le.
Proof.
  intros a b. unfold coverage_le, coverage_less.
  destruct (String.eqb_spec (cc_Component a) (cc_Component b)) as [->|Hn];
    [rewrite String.eqb_refl|rewrite (proj2 (String.eqb_neq (cc_Component b) (cc_Component a))) by congruence]; simpl.
  - apply (ltb_one_way (cc_RuntimeID b) (cc_RuntimeID a)).
  - apply (ltb_one_way (cc_Component b) (cc_Component a)).
Qed.
Lemma index_of_true st task artifact content samples tail :
  artifact_ok (sampler_of r) artifact content samples tail -> true_index st task samples (index_of r st task artifact).
Proof.
  intros Hok. split; try done.
  - simpl. apply (ao_sequence _ _ _ _ _ Hok).
  - by eapply coverages_of.
  - simpl. unfold componentCoverage. apply Sorted_merge_sort, _.
Qed.
Lemma report_of_true st artifact content samples tail :
  artifact_ok (sampler_of r) artifact content samples tail -> true_report st artifact samples (report_of st artifact).
Proof.
  intros Hok. split; try done.
  - simpl. apply (ao_sequence _ _ _ _ _ Hok).
Qed.


(** Once a stop of the monitor has completed it is final: no step changes the
    recorder or makes a call any more, and every later stop answers the same
    reports. *)
Theorem monitor_stop_is_final ctx ops op :
  recorder_ok -> (forall w : W, (time_Now w).1 <> 0) ->
  emits (monitored ctx ops) (fun out _ =>
    match out with
    | Some st => re_completed st = true ->
        emits (default (ret st) (recorder_step t ctx op st)) (fun st' more => st' = st /\ more = []) /\
        emits (monitor_Stop t st) (fun answer more =>
          answer = (Some (Some (re_reports st), None), st) /\ more = [])
    | None => True
    end).
Proof.
  intros Hok Hclock. unfold monitored. eapply emits_bind; [by apply monitor_Start_emits|].
  intros [[e|] st] evs Hstart; [by apply emits_ret|]. destruct Hstart as (Hi & _). simpl in Hi.
  eapply emits_bind; [by apply recorder_run_emits|]. intros st' more Hi'. apply emits_ret. intros Hco.
  destruct (ri_completed _ _ Hi' Hco) as (_ & Hfc & Hatt & _). destruct (ri_closed _ _ Hi' Hfc) as [Hs _].
  assert (emits (monitor_Stop t st') (fun answer more =>
    answer = (Some (Some (re_reports st'), None), st') /\ more = [])) as Hstop.
  { unfold monitor_Stop. rewrite (ri_started _ _ Hi'), Hco. by apply emits_ret. }
  split; [|done]. destruct op; simpl; rewrite ?Hs, ?Hatt; simpl; try by apply emits_ret.
  unfold monitor_Stop. rewrite (ri_started _ _ Hi'), Hco. simpl. apply emits_bind_ret. by apply emits_ret.
Qed.
End Start_proofs.

(** * An instance *)

#[local] Existing Instance SamplerDemo.no_runtime.

Module RecorderDemo.
Definition config : Config :=
  {| mc_scope := "task"; mc_runID := "r"; mc_taskIDs := ["t"%string]; mc_outputDir := "/out";
     mc_interval := Second; mc_requestTimeout := Second; mc_stopTimeout := Second;
     mc_maxSamplesPerTask := 10; mc_maxFileBytes := 4096; mc_baselineGrace := 0 |}.
Definition files : MonitorFS unit :=
  {| mf_Lstat _ := ret (inl {| pi_IsDir := true; pi_Symlink := false; pi_Perm := 448; pi_Owned := true |});
     mf_MkdirAll _ := ret None; mf_Mkdir _ := ret None; mf_CreateExclusive _ _ := ret None;
     mf_Sync _ := ret None; mf_closeFile _ := ret None; mf_remove _ := ret None |}.
Definition recorder : RecorderOps unit :=
  {| mr_config := config; mr_Deadline _ := None; mr_Sample _ := ret (inl [SamplerDemo.reading]);
     mr_marshal _ := inl (to_bytes "sample"); mr_FormatV _ := ""%string; mr_formatArtifactTime _ := ""%string;
     mr_Write _ content := ret (Z.of_nat (length content), None); mr_fs := files;
     mr_writeIndex _ _ := ret None; mr_sourceClose := ret None |}.
Definition ops : list recorder_op := [Tick 6; StopCalled; AttemptCancels; LoopEnds; AttemptFinishes].
Definition run := monitored recorder Background ops (tt, []).

Lemma recorder_is_ok : recorder_ok recorder.
Proof. split; [repeat constructor; set_solver|]. split; [done|]. split; [done|]. by split; split. Qed.
Lemma clock_runs (w : unit) : (time_Now w).1 <> 0.
Proof. done. Qed.
End RecorderDemo.

Lemma monitor_start_all_or_nothing_witness :
  start_post RecorderDemo.recorder
    (monitor_Start (traced_recorder RecorderDemo.recorder) Background new_Recorder (tt, [])).1
    (monitor_Start (traced_recorder RecorderDemo.recorder) Background new_Recorder (tt, [])).2.2.
Proof.
  exact (emits_run _ _ tt (monitor_start_all_or_nothing RecorderDemo.recorder Background
    RecorderDemo.recorder_is_ok)).
Defined.


Lemma monitor_stop_is_final_witness :
  exists st, RecorderDemo.run.1 = Some st /\
  emits (monitor_Stop (traced_recorder RecorderDemo.recorder) st) (fun answer more =>
    answer = (Some (Some (re_reports st), None), st) /\ more = []).
Proof.
  pose proof (emits_run _ _ tt (monitor_stop_is_final RecorderDemo.recorder Background RecorderDemo.ops (Tick 9)
    RecorderDemo.recorder_is_ok RecorderDemo.clock_runs)) as H.
  fold RecorderDemo.run in H. destruct RecorderDemo.run.1 as [st|] eqn:Hst; [|by vm_compute in Hst].
  exists st. split; [done|]. assert (re_completed st = true) as Hco.
  { vm_compute in Hst. injection Hst as <-. reflexivity. }
  by destruct (H Hco) as [_ ?].
Defined.
